(* ===== verification/_CoqProject ===== *)
-Q . S2P
Prelude.v
Float64.v
Market.v
MarketData.v
Indicator.v
Structure.v
Liquidity.v
Zone.v
CandleEvidence.v
Fib.v
KeyLevel.v
Trendline.v
Regime.v
GoTime.v
Session.v
Mad.v
Confluence.v
Momentum.v
Reaction.v
Barrier.v
FloatDiv.v
Quality.v
TechniqueBars.v
TechniqueZones.v
TechniqueInstances.v
TechniqueScore.v
TechniqueCompat.v
TechniqueState.v
StructuralFacts.v
StructuralRegions.v
StructuralDerive.v
ScalpContacts.v
ScalpRange.v
LegacyRead.v
Context.v
Opportunity.v
Detector.v
TechniqueDecision.v
StopBudget.v
TechniqueCandidate.v
LevelEpisode.v
StrategyView.v
Crt.v
CrtStrategy.v
SweepEvidence.v
ScalpContext.v
RangeScalp.v
ImpulseRetrace.v
FlipZone.v
TrendlineStrategy.v
ImpulsePullback.v
ShockRetest.v
OpportunityBook.v
Arbitration.v
Publisher.v
Registry.v
Policy.v
Facts.v
Worker.v
WorkerState.v
