(* ===== verification/Prelude.v ===== *)
(** * A verification library for the apexvoid analysis engine

    The repository holds three services. ctrader-engine (C#) publishes closed candles; analysis-engine
    (Go) reads them, derives market structure and emits trading opportunities; algo-bot (Python)
    executes them. This library models the core of analysis-engine, the files under
    src/analysis-engine/internal/, on amd64.

    ** The program and its model

    Per symbol and closed bar the engine appends the candle to a sequenced history, recomputes ATR,
    structure, zones, pools, trendlines, key levels, session levels and the dealing range from that
    history, rebuilds the market context of every timeframe, lets the registered strategies propose
    candidates, attaches the derived facts to them, records them in a lifecycle book, arbitrates between
    the live ones, and hands lifecycle transitions and decisions to a durable publisher that sends them
    to Kafka. One file models one package:

    - Prelude (this file): results and their errors, 64-bit wrap-around, slices, UTF-8, string order and
      sorting, the order in which a map is ranged over ([RangeOrder]), binary search, first-match scans,
      and the tactics [split_ifs] and [bools].
    - Float64: float64 as the kernel's binary64 ([float]); [key] embeds the order of the numbers, NaN
      apart, into Z, so that comparisons become linear arithmetic; Floor, Ceil, Round, Max, Min,
      conversions and the "%.5f" format.
    - Market (market/): candles, series, timeframes, tick geometry, and the ring buffer of
      [CandleWindow] with a refinement to the list of its last candles.
    - MarketData (marketdata/): candle validation, [Append] with its seven outcomes, lookup by time,
      routing of events.
    - Indicator (indicator/): true range, the simple and the Wilder ATR, the dispatcher, and the cache of
      the windowed ATR as a state passed through its queries.
    - Structure (structure/): pivots, promotion to swings, trend and protected levels, break detection
      and classification, and the whole of [Update].
    - Liquidity (liquidity/): equal-level clusters, pools, sweeps, reclaims, [Update].
    - Zone (zone/): the seven builders, the lifecycle with forgiven episodes, touches, strength,
      relevance, [Update].
    - CandleEvidence (candle/): candle geometry and the whole evaluation of rejection, displacement,
      indecision and sequence evidence.
    - Fib (fib/): the swing pair a dealing range is read from, the ladder, the nearest level.
    - KeyLevel (keylevel/): clusters of swings, round levels, merging, touch episodes, roles.
    - Trendline (trendline/): confirmed points, anchored lines, validations, health, deduplication,
      interactions.
    - Regime (regime/): chop or trend, accepted box breaks, the directional override.
    - GoTime: instants as Unix seconds, the proleptic Gregorian calendar of package time, time zones as
      parameters with UTC an instance.
    - Session (session/): the occurrences of the sessions on a calendar, levels of closed sessions, days
      and weeks, developing levels, the weekly closure, the gap scan.
    - Mad (mad/): the sealed Asia range, the phase reading, its features and its affinity.
    - Confluence (confluence/): both versions of the star score.
    - Momentum (momentum/): velocity and its classification.
    - Context (context/market.go): the bias of the structure layers, the frame of each timeframe and the
      primary view.
    - Reaction (reaction/): the five reaction patterns at a band and the evaluation over the touch and
      confirmation windows.
    - Barrier (barrier/): opposing barriers merged into walls, the cross-side pass.
    - FloatDiv and Quality (quality/): quotients in the unit interval; the quality model with its named
      dimensions, its shapes and the reaction scores.
    - TechniqueBars, TechniqueZones, TechniqueInstances, TechniqueScore, TechniqueCompat
      (techniquezone/): the port of the Python scorer. Swings, breaks and legs; the zone builders,
      merging and flips; the chains of instances with their provenance; pools, confluences and scores;
      retests. ScalpContacts and ScalpRange (techniquezone/scalp.go): contacts, episodes, accepted
      breaks, barriers and ranges.
    - TechniqueState (engine/technique_zones.go): the technique population of a frame's zones.
    - StructuralFacts, StructuralRegions, StructuralDerive (structuralconfluence/): facts and their
      independence groups, the regions of overlapping support, the facts derived from instances.
    - LegacyRead (context/legacy.go, legacyread/): the detector-contract read, staged per timeframe and
      completed from the highest down.
    - Detector, TechniqueDecision, StopBudget, TechniqueCandidate, LevelEpisode (strategyutil/): what the
      strategies share. The zone detector with its reactions; decisions on technique instances and
      confluence bands; the stop budget; the candidate of a decision with its quality; sweeps and
      retests of a level. StrategyView: what a strategy reads of a context, session momentum and the
      parameter parsers. SweepEvidence: sweeps of finalized liquidity as evidence. ScalpContext: the
      setup context, stop, target and confirmation of the scalp strategies.
    - Crt and CrtStrategy (strategy/crt/): the detection of candle range theory (anchor, sweep, reclaim,
      structure shift, double raids, geometry, opposing setups) and the strategy around it.
    - RangeScalp, ImpulseRetrace, FlipZone, TrendlineStrategy, ImpulsePullback, ShockRetest
      (strategy/rangescalp/, impulseretrace/, flipzone/, trendline/, impulsepullback/, shockretest/): one
      strategy each, from its parameters to its candidates.
    - Opportunity (opportunity/candidate.go, geometry.go): the candidate contract, its identity, first
      observation, tick alignment.
    - OpportunityBook (opportunity/book.go): the lifecycle book and its sweeps.
    - Arbitration (arbitration/): theses, ranking, verdicts, the in-play gate.
    - Publisher (engine/publisher.go, publication_store.go): ledger, outbox and drain loop as a step
      relation with concurrent callers, failing saves and sends, crashes and restarts. [sys_dropped] records
      the creations that the stale clean-up gave up.
    - Registry (strategy/registry.go, strategy.go): the catalog, start-up validation, and the evaluation
      of the strategies of one closed timeframe. The class [ContextRead] is all it asks of a context.
    - Policy (engine/higher_timeframe.go, stop_envelope.go, instrument_policy.go, the technical context
      of worker.go) and Facts (engine/confluence_facts.go): the facts attached to a candidate before it
      enters the book.
    - Worker (engine/worker.go, engine.go, state/): one closed bar from the append through the analysis,
      the technique population, the rebuilt context with its detector-contract reads, their caches and
      the registry to the calls on the publisher, runs of bars, and the routing of events. The class
      [Analytics] is what the worker expects of the strategies: an evaluation is a function of the
      context, so it returns; the theorems hold for every instance, also for strategies that propose
      nonsense or return errors. The consumer's table of decisions ([view_step]) drops older decisions
      as the outbox and the bot do.
    - WorkerState: the specification of the analysis state as a function of the retained candles
      ([books_current], [cache_current], [fresh_context]), and that every run of the worker refines it.

    Definitions carry the names of the Go functions; where a Go name is used twice a prefix tells them
    apart ([h_At], [mh_Append], [Record_]). A loop that is a function of its own in the model names the
    Go function in its comment.

    ** How Go is rendered

    Integers are Z with [wrap64] where the code can overflow; bar counts that the configuration keeps
    non-negative are nat (a negative one would panic in Go). Errors are [result] or [option string], a
    panic is [None]. Maps are gmaps; where the order of a range loop could show, the order is a
    parameter. sort.Slice is insertion sort: where the comparison is a total order on the elements,
    [sort_slice_unique] makes the algorithm immaterial, and the theorems state it for those. Values are
    immutable, so the copies made by cloneCandidate and Snapshot are identities. Enumerations on strings
    are inductive types when closed and strings when the code accepts others. Recursion is structural on
    the candles or jobs, on the remaining scan bound, or on fuel (the union-find walk, the sweep scan,
    the episodes of an anchor), which the theorems show to be enough: it exceeds the number of candles,
    and each round takes at least one.
    Code outside the sources is a parameter: SHA-256 in the identity, the Unicode tables in reason codes,
    the strategies' buffers in the structure sweep, and event identifiers, which the publisher's steps
    draw fresh.

    ** What the theorems show

    - Data: what the window and the histories hold after any input, the outcome of every append, lookup
      and routing ([window_keeps_last], [history_invariant], [append_outcome], [history_At_lookup],
      [market_history_routing]).
    - Causality: ATR, pivots and breaks of a prefix are those of the whole history restricted to it
      ([canonical_atr_causal], [pivots_causal], [break_stable]); the cache is invisible
      ([wilder_window_cache]).
    - Reference reads: trend, breaks, pools, clusters, zone lifecycle and displacement runs equal plain
      declarative readings of the candles ([layer_state_reference], [break_classified],
      [update_pools_reference], [equal_levels_partition], [not_invalidated_reference],
      [forgiveness_monotone], [zone_update_life], [displacement_runs_cover], [pivots_separated],
      [update_breaks_are_changes]); so do key levels, trendline health, box breaks, the regime, session
      occurrences and levels, gaps, the dealing range and the evidence of a candle
      ([price_clusters_partition], [key_levels_supported], [role_reference], [health_reference],
      [trendlines_well_formed], [trendlines_deduplicated], [box_break_reference], [regime_classified],
      [sessions_partition_time], [session_levels_final], [gaps_exact], [fib_reads_one_pair],
      [nearest_level_reference], [evidence_shape], [evidence_local]).
    - Scores: what a phase, an affinity, a star count and a zone score mean ([mad_phase_contract],
      [mad_affinity_contract], [asia_day_key], [confluence_stars_reference], [zone_score_reference],
      [confluence_facts_sound]).
    - The context: each timeframe keeps its own read, the bias is that of the highest decided layer, and
      the regime is the width of the range ([context_keeps_timeframes_apart], [bias_of_highest_layer],
      [context_regime_is_width]).
    - Candidates: a validated candidate is tradable as drawn, identifiers are injective up to digest
      collisions, first observation and tick alignment change only what they should
      ([validated_candidate_sound], [identity_injective], [first_observation],
      [normalize_geometry_prices_only]).
    - Strategies: start-up is fail-closed and complete, and one evaluation is exactly what the ready
      strategies proposed ([registry_built], [evaluate_exact]).
    - Lifecycle: once-only announcements over any run, frozen records, exact sweeps ([published_once],
      [records_frozen], [close_sweep_exact], [structure_sweep_exact], [expire_exact]).
    - Arbitration: every candidate decided once, each thesis by the one live member that the ranking,
      written out as an order, puts above all others; independent of map order, entry-ready candidates
      never vetoed by others ([arbitration_decides],
      [arbitration_deterministic], [ready_not_vetoed]).
    - Publication: no terminal event before its creation, no creation lost but those the stale clean-up
      drops, no lost wake-up, write-ahead, draining, coalesced decisions ([terminal_follows_creation], [creation_not_lost], [write_ahead],
      [outbox_drains], [arbitration_coalesced]).
    - Policy: what the worker attaches to a candidate always passes the candidate contract
      ([technical_context_contract], [stop_envelope_contract]).
    - Reactions and quality: the reported reaction is the latest one, never on the bars that formed its
      zone; scores lie in the unit interval and name every component once ([reaction_is_latest],
      [zone_reaction_after_formation], [quality_sound], [shapes_bounded]).
    - The technique port: its zones are exactly the candles' legs, flips and merged groups, every
      instance can be cut again from its recovered origin, it lives by the rule of the analysis zones,
      and the population replaces only the families it draws ([technique_legs_exact],
      [technique_flips_exact], [technique_merge_partitions], [provenance_total],
      [technique_life_is_zone_life], [technique_population_replaced], [score_zones_ordered],
      [find_retest_exact], [technique_swings_causal], [technique_breaks_stable]).
    - Scalp structure: broken edges, clusters, the best range, totality of the builder
      ([break_status_exact], [accepted_break_exact], [clusters_bounded], [best_range_exact],
      [scalp_build_total]).
    - Structural confluence: groups are the connected components of shared provenance, regions are the
      maximal runs with enough independent support and use only facts already available
      ([groups_are_components], [regions_exact], [regions_sound], [regions_depend_on_available],
      [derive_total_and_causal]).
    - Shared strategy code: the best zone, decisions and bands, stops and their budget, level sweeps and
      retests, and that a built candidate satisfies the candidate contract ([best_valid_zone_exact],
      [technique_decision_exact], [published_decision_sound], [confluence_bands_sound],
      [higher_instances_anchored], [budget_fit_exact], [reaction_stop_beyond],
      [zone_family_quality_total], [technique_candidate_sound], [level_sweeps_sound],
      [level_retest_exact]).
    - The strategies: none of them panics on any candles it can be given, and what each publishes is
      traced back to the market facts it claims. For candle range theory every setup is an episode in
      the order its rules ask for, read from closed candles only, one per anchor, the later of two opposing
      ones and neither on a tie, and the scan loses no anchor ([crt_setup_sound], [crt_causal], [crt_one_per_anchor], [crt_old_anchors_spent],
      [crt_strategy_sound]); a shock retest is a leg of volatility shocks, its first pullback and the
      candle that rejects it, one per leg, and the stop budget accounts for what it refuses
      ([shock_setup_sound], [shock_setups_distinct], [shock_strategy_sound]); the throttles keep their distance and cap and do not depend on the length of
      the history ([range_scalp_throttle], [range_scalp_history], [impulse_clusters]); the others
      publish only what stands on a sound zone, line or leg ([range_scalp_sound],
      [impulse_retrace_sound], [flip_zone_sound], [trendline_strategy_sound], [impulse_leg_exact],
      [impulse_pullback_sound], [confirmed_technique_sound]); sweep evidence is exact and never reads
      the future ([sweeps_supporting_exact], [sweep_evidence_causal]); the scalp context is frozen
      between two setup candles and the confirmation is the latest ([scalp_context_frozen],
      [confirm_m1_latest]).
    - The detector read: a timeframe is completed against exactly the zones of the higher ones
      ([complete_exact]); barriers of the two sides never conflict ([walls_are_unions],
      [cross_side_resolved]).
    - The worker as a whole: with strategies that return and scalp windows of at least one bar it returns
      on any run of bars, and it announces each opportunity once, creation first
      ([worker_lifecycle_once]); where the decisions on each opportunity were sent with ever later times
      the consumer's table is right after every live bar although only changes are sent
      ([consumer_view_current]); bootstrap is silent and the first live bar sends every decision
      ([bootstrap_then_projection]). With forming bars never replaced, its books, its technique cache and
      its context, detector-contract reads included, are a function of the retained candles, up to the
      timeframe the prior-week levels were cached from; a restart from the retained candles rebuilds
      them ([state_is_function_of_history], [restart_rebuilds_context]).

    Some facts are of the kind a maintainer would want to see: [update_breaks_are_changes],
    [nan_strength_promoted], [inverted_gaps_alias], [clustering_is_order_dependent],
    [stale_cleanup_orphans_terminal], [momentum_tail_differs], [no_target_still_envelope],
    [as_of_present_forgets_break], [empty_post_impulse_window_panics], [mad_affinity_contract],
    [bias_of_highest_layer], [range_scalp_turn_of_day], [impulse_window_truncated],
    [impulse_fractal_panic], [stale_decision_kept] (a decision stamped with the earlier opening time of a
    longer bar is dropped and not sent again), [structure_close_missed] (the structure sweep skips what
    was last observed inside the closing bar) and [weekly_levels_mixed] (the prior-week levels are cached
    without their timeframe).

    ** Not modelled

    Of the seventeen strategies ten are not modelled: asiarange, breakretest, confluencezone, demand,
    fvg, ifvg, keylevel, orderblock, roundnumber and supply are further detectors on the same
    primitives. The worker sees every strategy through [Analytics], whose theorems hold for any of
    them that returns; the strategies modelled here are not tied into its registry, and the lazy instance
    sources that attachLegacyRead hangs on the frames for them are left out. The fingerprint of a strategy's
    parameters is an argument of its constructor. Reading the configuration document, Kafka and Redis
    transport, JSON encoding, telemetry, logging, charts and process wiring are I/O and stay outside, as do the services in other languages. The mutexes are rendered by steps being atomic;
    a notification is sent in the same step as the change it announces. *)
From stdpp Require Export base tactics numbers list gmap strings sorting pretty.
From Stdlib Require Export ZArith Lia.

(** * Go values *)

(** [(T, error)]: a value, or the error the call returned. *)
Inductive result (A : Type) : Type :=
  | Ok (a : A)
  | Err (msg : string).
Arguments Ok {A} a.
Arguments Err {A} msg.

Definition is_ok {A} (r : result A) : bool := match r with Ok _ => true | Err _ => false end.

Declare Scope go_scope.
Delimit Scope go_scope with go.
Notation "'let?' x ':=' e 'in' k" :=
  (match e with Ok x => k | Err m => Err m end)
  (at level 10, x binder, e at level 100, k at level 200, only parsing) : go_scope.
(** A guard: [if cond { return error }] before the rest of the function. *)
Notation "'guard' c 'else' m ';' k" :=
  (if (c : bool) then Err m%string else k)
  (at level 10, c at level 100, m at level 100, k at level 200, only parsing) : go_scope.

(** [int64] arithmetic wraps around. *)
Definition wrap64 (z : Z) : Z := ((z + 2 ^ 63) mod 2 ^ 64 - 2 ^ 63)%Z.
Definition in_int64 (z : Z) : Prop := (- 2 ^ 63 <= z < 2 ^ 63)%Z.

Lemma wrap64_id z : in_int64 z → wrap64 z = z.
Proof. unfold in_int64, wrap64. intros. rewrite Z.mod_small; lia. Qed.

Lemma wrap64_range z : in_int64 (wrap64 z).
Proof.
  unfold in_int64, wrap64. pose proof (Z.mod_pos_bound (z + 2 ^ 63) (2 ^ 64) ltac:(lia)). lia.
Qed.

(** [s[a:b]]. *)
Definition slice {A} (l : list A) (a b : nat) : list A := drop a (take b l).

Lemma length_slice {A} (l : list A) a b : length (slice l a b) = Nat.min b (length l) - a.
Proof. unfold slice. by rewrite length_drop, length_take. Qed.

Lemma lookup_slice {A} (l : list A) a b i :
  slice l a b !! i = if decide (a + i < b)%nat then l !! (a + i)%nat else None.
Proof.
  unfold slice. rewrite lookup_drop. case_decide; [by rewrite lookup_take_lt|].
  apply lookup_take_ge. lia.
Qed.

Lemma slice_take {A} (l : list A) a b n : (b <= n)%nat → slice (take n l) a b = slice l a b.
Proof. intros. unfold slice. by rewrite take_take, Nat.min_l by lia. Qed.

Lemma lookup_total_take {A} `{!Inhabited A} (l : list A) i n :
  (i < n)%nat → take n l !!! i = l !!! i.
Proof. intros. by rewrite !list_lookup_total_alt, lookup_take_lt. Qed.

(** [List.filter] on boolean tests. *)
Lemma in_filter {A} (f : A → bool) l x : x ∈ List.filter f l ↔ x ∈ l ∧ f x = true.
Proof. by rewrite !list_elem_of_In, filter_In. Qed.
Lemma filter_Forall_true {A} (f : A → bool) l : Forall (λ x, f x = true) l → List.filter f l = l.
Proof. induction 1 as [|x l Hx _ IH]; cbn; [done|]. by rewrite Hx, IH. Qed.
Lemma filter_Forall_false {A} (f : A → bool) l : Forall (λ x, f x = false) l → List.filter f l = [].
Proof. induction 1 as [|x l Hx _ IH]; cbn; [done|]. by rewrite Hx, IH. Qed.
Lemma filter_sorted {A} (R : A → A → Prop) f l : StronglySorted R l → StronglySorted R (List.filter f l).
Proof.
  induction 1 as [|x l Hs IH Hf]; cbn; [constructor|]. destruct (f x); [|done]. constructor; [done|].
  rewrite Forall_forall in *. intros y [Hy _]%list_elem_of_In%filter_In. apply Hf. by apply list_elem_of_In.
Qed.
Lemma elem_of_when {A} (b : bool) (x y : A) : x ∈ (if b then [y] else []) ↔ b = true ∧ x = y.
Proof. destruct b; [rewrite list_elem_of_singleton|rewrite elem_of_nil]; naive_solver. Qed.

Lemma filter_all {A} (P : A → Prop) `{∀ x, Decision (P x)} l : Forall P l → filter P l = l.
Proof. induction 1; [done|]. rewrite filter_cons_True by done. by f_equal. Qed.

Lemma filter_none {A} (P : A → Prop) `{∀ x, Decision (P x)} l :
  Forall (λ x, ¬ P x) l → filter P l = [].
Proof. induction 1; [done|]. by rewrite filter_cons_False. Qed.

Lemma omap_ext_in {A B} (f g : A → option B) (l : list A) :
  (∀ x, x ∈ l → f x = g x) → omap f l = omap g l.
Proof.
  induction l as [|x l IH]; intros H; [done|]. cbn. rewrite H, IH; [done| |]; set_solver.
Qed.

(** * Strings in byte order *)

(** Go compares strings by bytes; [sort.Strings] sorts by it. *)
Definition str_lt (a b : string) : bool :=
  match String.compare a b with Lt => true | _ => false end.
Definition str_le (a b : string) : Prop := str_lt b a = false.

#[export] Instance str_le_dec : RelDecision str_le.
Proof. intros a b. unfold str_le. apply _. Defined.

Lemma str_lt_cons a s b t :
  str_lt (String a s) (String b t) =
  (Ascii.N_of_ascii a <? Ascii.N_of_ascii b)%N || (bool_decide (a = b) && str_lt s t).
Proof.
  unfold str_lt. cbn [String.compare]. unfold Ascii.compare.
  destruct (N.compare_spec (Ascii.N_of_ascii a) (Ascii.N_of_ascii b)) as [E|E|E].
  - rewrite E, N.ltb_irrefl. apply (f_equal Ascii.ascii_of_N) in E.
    rewrite !Ascii.ascii_N_embedding in E. by rewrite bool_decide_true.
  - by apply N.ltb_lt in E as ->.
  - rewrite bool_decide_false by (intros ->; lia).
    destruct (N.ltb_spec (Ascii.N_of_ascii a) (Ascii.N_of_ascii b)); [lia|done].
Qed.

Lemma str_lt_irrefl s : str_lt s s = false.
Proof. induction s; [done|]. rewrite str_lt_cons, N.ltb_irrefl, IHs. by rewrite andb_false_r. Qed.

Lemma str_lt_trans a b c : str_lt a b = true → str_lt b c = true → str_lt a c = true.
Proof.
  revert b c. induction a as [|x a IH]; intros [|y b] [|z c]; try done.
  rewrite !str_lt_cons. intros [H1|H1]%orb_prop [H2|H2]%orb_prop; apply orb_true_iff.
  - left. apply N.ltb_lt in H1, H2. apply N.ltb_lt. lia.
  - apply andb_prop in H2 as [->%bool_decide_eq_true _]. by left.
  - apply andb_prop in H1 as [->%bool_decide_eq_true _]. by left.
  - apply andb_prop in H1 as [->%bool_decide_eq_true H1].
    apply andb_prop in H2 as [->%bool_decide_eq_true H2]. right.
    rewrite bool_decide_true by done. eauto.
Qed.

Lemma str_lt_total a b : str_lt a b = true ∨ a = b ∨ str_lt b a = true.
Proof.
  unfold str_lt. rewrite (String.compare_antisym b a).
  destruct (String.compare a b) eqn:E; cbn; [|auto..].
  right; left. by apply String.compare_eq_iff.
Qed.

Lemma str_le_lt a b : str_le a b ↔ str_lt a b = true ∨ a = b.
Proof.
  unfold str_le. split.
  - intros H. destruct (str_lt_total a b) as [|[|]]; [auto..|congruence].
  - intros [H| ->]; [|apply str_lt_irrefl]. apply not_true_iff_false. intros H'.
    pose proof (str_lt_trans _ _ _ H H') as Hc. by rewrite str_lt_irrefl in Hc.
Qed.

#[export] Instance str_le_total : Total str_le.
Proof. intros a b. rewrite !str_le_lt. destruct (str_lt_total a b) as [|[|]]; auto. Qed.
#[export] Instance str_le_trans : Transitive str_le.
Proof.
  intros a b c. rewrite !str_le_lt. intros [?| ->] [?| ->]; eauto using str_lt_trans.
Qed.
#[export] Instance str_le_antisymm : AntiSymm (=) str_le.
Proof.
  intros a b. rewrite !str_le_lt. intros [H|] [H'|]; try done.
  pose proof (str_lt_trans _ _ _ H H') as Hc. by rewrite str_lt_irrefl in Hc.
Qed.

(** [sort.Strings]. *)
Definition sort_strings (l : list string) : list string := merge_sort str_le l.

Lemma sort_strings_perm l : sort_strings l ≡ₚ l.
Proof. apply merge_sort_Permutation. Qed.
Lemma sort_strings_sorted l : StronglySorted str_le (sort_strings l).
Proof. apply StronglySorted_merge_sort; apply _. Qed.

(** The keys of a map in byte order, as [for id := range m] and a sort give them. *)
Definition sorted_keys {A} (m : gmap string A) : list string := sort_strings (map_to_list m).*1.

Lemma sorted_keys_NoDup {A} (m : gmap string A) : NoDup (sorted_keys m).
Proof. unfold sorted_keys. rewrite sort_strings_perm. apply NoDup_fst_map_to_list. Qed.
Lemma elem_of_sorted_keys {A} (m : gmap string A) k : k ∈ sorted_keys m ↔ is_Some (m !! k).
Proof.
  unfold sorted_keys. rewrite sort_strings_perm, list_elem_of_fmap. split.
  - intros ([k' x] & -> & Hx%elem_of_map_to_list). by eexists.
  - intros [x Hx]. exists (k, x). split; [done|]. by apply elem_of_map_to_list.
Qed.

(** Maps with the same keys list them in the same order, whatever order the runtime ranges in. *)
Lemma sorted_keys_ext {A B} (m : gmap string A) (m' : gmap string B) :
  (∀ k, is_Some (m !! k) ↔ is_Some (m' !! k)) → sorted_keys m = sorted_keys m'.
Proof.
  intros H. apply (StronglySorted_unique str_le).
  - apply sort_strings_sorted.
  - apply sort_strings_sorted.
  - apply NoDup_Permutation; [apply sorted_keys_NoDup..|]. intros k. by rewrite !elem_of_sorted_keys.
Qed.

(** * Runes: [for _, r := range s] decodes UTF-8, one replacement rune per bad byte *)

Definition in_range (lo hi b : Z) : bool := ((lo <=? b) && (b <=? hi))%Z.
Definition decode_rune (bs : list Z) : option (Z * list Z) :=
  match bs with
  | [] => None
  | b0 :: r =>
      let bad := Some (65533%Z, r) in
      if (b0 <? 128)%Z then Some (b0, r)
      else if in_range 194 223 b0 then
        match r with
        | b1 :: r => if in_range 128 191 b1 then Some ((b0 - 192) * 64 + (b1 - 128), r)%Z else bad
        | _ => bad
        end
      else if in_range 224 239 b0 then
        match r with
        | b1 :: b2 :: r =>
            let lo := (if b0 =? 224 then 160 else 128)%Z in
            let hi := (if b0 =? 237 then 159 else 191)%Z in
            if in_range lo hi b1 && in_range 128 191 b2
            then Some ((b0 - 224) * 4096 + (b1 - 128) * 64 + (b2 - 128), r)%Z else bad
        | _ => bad
        end
      else if in_range 240 244 b0 then
        match r with
        | b1 :: b2 :: b3 :: r =>
            let lo := (if b0 =? 240 then 144 else 128)%Z in
            let hi := (if b0 =? 244 then 143 else 191)%Z in
            if in_range lo hi b1 && in_range 128 191 b2 && in_range 128 191 b3
            then Some ((b0 - 240) * 262144 + (b1 - 128) * 4096 + (b2 - 128) * 64 + (b3 - 128), r)%Z else bad
        | _ => bad
        end
      else bad
  end.
Fixpoint decode_runes (fuel : nat) (bs : list Z) : list Z :=
  match fuel with
  | O => []
  | S fuel => match decode_rune bs with None => [] | Some (r, bs) => r :: decode_runes fuel bs end
  end.
Fixpoint bytes_of (s : string) : list Z :=
  match s with EmptyString => [] | String c s => Z.of_N (Ascii.N_of_ascii c) :: bytes_of s end.
(** Every rune takes at least one byte, so the length is enough fuel. *)
Definition runes (s : string) : list Z := decode_runes (String.length s) (bytes_of s).
(** The string of ASCII runes. *)
Fixpoint ascii_string (rs : list Z) : string :=
  match rs with [] => EmptyString | r :: rs => String (Ascii.ascii_of_N (Z.to_N r)) (ascii_string rs) end.

Lemma runes_ascii rs : Forall (λ r, 0 <= r < 128)%Z rs → runes (ascii_string rs) = rs.
Proof.
  unfold runes. induction 1 as [|r rs Hr _ IH]; [done|]. cbn [ascii_string String.length bytes_of decode_runes decode_rune].
  rewrite Ascii.N_ascii_embedding, Z2N.id by lia.
  destruct (Z.ltb_spec r 128); [|lia]. by rewrite IH.
Qed.

Example runes_example : runes (String (Ascii.ascii_of_N 226) (String (Ascii.ascii_of_N 130)
  (String (Ascii.ascii_of_N 172) "a"))) = [8364; 97]%Z.
Proof. reflexivity. Qed.

(** The [unicode] tables, consulted for runes of any script. *)
Record Unicode := mkUnicode { IsLetter : Z → bool; IsDigit : Z → bool; ToUpper : Z → Z; ToLower : Z → Z }.
(** [unicode.IsSpace]. *)
Definition is_space (r : Z) : bool :=
  in_range 9 13 r || (r =? 32)%Z || (r =? 133)%Z || (r =? 160)%Z || (r =? 5760)%Z || in_range 8192 8202 r ||
  (r =? 8232)%Z || (r =? 8233)%Z || (r =? 8239)%Z || (r =? 8287)%Z || (r =? 12288)%Z.
Fixpoint drop_space (rs : list Z) : list Z :=
  match rs with r :: rest => if is_space r then drop_space rest else rs | [] => [] end.
(** [strings.TrimSpace], [strings.ToUpper], [strings.ToLower], [strings.Contains] on runes. *)
Definition TrimSpace (rs : list Z) : list Z := reverse (drop_space (reverse (drop_space rs))).
Definition upper_trimmed (u : Unicode) (s : string) : list Z := map (ToUpper u) (TrimSpace (runes s)).
Definition lower_trimmed (u : Unicode) (s : string) : list Z := map (ToLower u) (TrimSpace (runes s)).
Fixpoint contains_runes (rs sub : list Z) : bool :=
  bool_decide (take (length sub) rs = sub) || match rs with _ :: rest => contains_runes rest sub | [] => false end.
Definition ascii_unicode : Unicode :=
  mkUnicode (λ r, in_range 65 90 r || in_range 97 122 r) (in_range 48 57)
    (λ r, if in_range 97 122 r then (r - 32)%Z else r) (λ r, if in_range 65 90 r then (r + 32)%Z else r).
Example trimmed_example : upper_trimmed ascii_unicode " Buy " = runes "BUY" ∧
  contains_runes (lower_trimmed ascii_unicode "Swing LOW") (runes "low") = true.
Proof. split; reflexivity. Qed.

(** * Loops *)

(** The half-interval loop every sorted lookup of the code uses:
    [for lo < hi { mid := (lo + hi) / 2; if below mid { lo = mid + 1 } else { hi = mid } }]. *)
Fixpoint bsearch_loop (fuel : nat) (below : nat → bool) (lo hi : nat) : nat :=
  match fuel with
  | O => lo
  | S fuel =>
      if (lo <? hi)%nat then
        let mid := ((lo + hi) / 2)%nat in
        if below mid then bsearch_loop fuel below (mid + 1) hi
        else bsearch_loop fuel below lo mid
      else lo
  end.
(** [hi - lo] halves at every turn, so [n] turns are enough for an interval of length [n]. *)
Definition bsearch (n : nat) (below : nat → bool) : nat := bsearch_loop n below 0 n.

Lemma bsearch_loop_spec fuel below lo hi :
  (hi - lo <= fuel)%nat → (lo <= hi)%nat →
  (∀ i j, (i <= j)%nat → below j = true → below i = true) →
  (∀ i, (i < lo)%nat → below i = true) →
  let k := bsearch_loop fuel below lo hi in
  (lo <= k <= hi)%nat ∧ (∀ i, (i < k)%nat → below i = true) ∧
  (∀ i, (k <= i < hi)%nat → below i = false).
Proof.
  intros Hf Hle Hmono. revert lo hi Hf Hle.
  induction fuel as [|fuel IH]; intros lo hi Hf Hle Hlo; cbn [bsearch_loop].
  { split_and!; try lia; auto. }
  destruct (Nat.ltb_spec lo hi) as [Hlt|]; [|split_and!; try lia; auto].
  set (mid := ((lo + hi) / 2)%nat).
  assert (lo <= mid < hi)%nat as Hmid.
  { unfold mid. split; [apply Nat.div_le_lower_bound; lia|apply Nat.Div0.div_lt_upper_bound; lia]. }
  destruct (below mid) eqn:Hb.
  - destruct (IH (mid + 1)%nat hi) as (H1 & H2 & H3); [lia..| |split_and!; try lia; done].
    intros i Hi. apply (Hmono _ mid); [lia|done].
  - destruct (IH lo mid) as (H1 & H2 & H3); [lia..|done|].
    split_and!; try lia; [done|]. intros i Hi.
    destruct (decide (i < mid)%nat); [apply H3; lia|].
    destruct (below i) eqn:Hi'; [|done].
    by rewrite (Hmono mid i) in Hb by (lia || done).
Qed.

Lemma bsearch_spec n below :
  (∀ i j, (i <= j)%nat → below j = true → below i = true) →
  let k := bsearch n below in
  (k <= n)%nat ∧ (∀ i, (i < k)%nat → below i = true) ∧ (∀ i, (k <= i < n)%nat → below i = false).
Proof.
  intros H. destruct (bsearch_loop_spec n below 0 n) as ([_ ?] & ? & ?); auto; lia.
Qed.

Lemma bsearch_loop_ext fuel f g : ∀ lo hi, (∀ i, (i < hi)%nat → f i = g i) → bsearch_loop fuel f lo hi = bsearch_loop fuel g lo hi.
Proof.
  induction fuel as [|fuel IH]; intros lo hi H; cbn [bsearch_loop]; [done|]. destruct (lo <? hi)%nat eqn:E; [|done]. apply Nat.ltb_lt in E.
  assert ((lo + hi) / 2 < hi)%nat by (apply Nat.Div0.div_lt_upper_bound; lia).
  cbv zeta. rewrite H by lia. destruct (g _); apply IH; intros; apply H; lia.
Qed.
(** The predicate only has to be monotone on the range searched. *)
Lemma bsearch_spec_bounded n below :
  (∀ i j, (i <= j < n)%nat → below j = true → below i = true) →
  let k := bsearch n below in
  (k <= n)%nat ∧ (∀ i, (i < k)%nat → below i = true) ∧ (∀ i, (k <= i < n)%nat → below i = false).
Proof.
  intros H. set (g := λ i, (i <? n)%nat && below i). assert (E : bsearch n below = bsearch n g).
  { apply bsearch_loop_ext. intros i Hi. unfold g. by destruct (Nat.ltb_spec i n); [|lia]. }
  rewrite E. destruct (bsearch_spec n g) as (H1 & H2 & H3).
  { intros i j Hij. unfold g. intros [Hj%Nat.ltb_lt Hb]%andb_true_iff. destruct (Nat.ltb_spec i n); [|lia]. cbn. apply (H i j); [lia|done]. }
  split; [done|]. split; intros i Hi.
  - specialize (H2 i Hi). unfold g in H2. by apply andb_true_iff in H2 as [_ ?].
  - specialize (H3 i Hi). unfold g in H3. destruct (Nat.ltb_spec i n); [done|lia].
Qed.

Lemma bsearch_le n f : bsearch n f ≤ n.
Proof.
  unfold bsearch. assert (H : ∀ fuel lo hi, lo ≤ hi → bsearch_loop fuel f lo hi ≤ hi); [|apply H; lia].
  induction fuel as [|fuel IH]; intros lo hi Hl; cbn [bsearch_loop]; [done|]. destruct (Nat.ltb_spec lo hi); [|done]. cbv zeta.
  assert ((lo + hi) / 2 < hi) by (apply Nat.Div0.div_lt_upper_bound; lia).
  destruct (f _); [apply IH; lia|]. transitivity ((lo + hi) / 2); [|lia]. apply IH. apply Nat.div_le_lower_bound; lia.
Qed.
(** The element before the place a binary search finds satisfies the predicate, sorted or not. *)
Lemma bsearch_before n f : match bsearch n f with O => True | S k => f k = true end.
Proof.
  unfold bsearch. assert (H : ∀ fuel lo hi, match lo with O => True | S k => f k = true end → match bsearch_loop fuel f lo hi with O => True | S k => f k = true end).
  { induction fuel as [|fuel IH]; intros lo hi Hlo; cbn [bsearch_loop]; [done|]. destruct (lo <? hi)%nat; [|done]. cbv zeta.
    destruct (f ((lo + hi) / 2)) eqn:E; apply IH; [by rewrite Nat.add_1_r|done]. }
  by apply H.
Qed.

(** Elements that fail the predicate do not move the place a search finds. *)
Lemma bsearch_extend n m f : (∀ i j, (i <= j < n + m)%nat → f j = true → f i = true) → (∀ i, (n <= i < n + m)%nat → f i = false) →
  bsearch (n + m) f = bsearch n f.
Proof.
  intros Hm Hf. destruct (bsearch_spec_bounded (n + m) f Hm) as (K1 & K2 & K3).
  destruct (bsearch_spec_bounded n f) as (L1 & L2 & L3); [intros i j Hij; apply Hm; lia|].
  set (k := bsearch (n + m) f) in *. set (l := bsearch n f) in *. destruct (Nat.lt_trichotomy k l) as [Hlt|[|Hlt]]; [|done|].
  - specialize (L2 k Hlt). rewrite K3 in L2 by lia. done.
  - specialize (K2 l Hlt). destruct (decide (l < n)%nat); [rewrite L3 in K2 by lia|rewrite Hf in K2 by lia]; done.
Qed.
(** A loop returning at its first hit: the first [Some] of [f n], [f (n+1)], ..., [fuel] turns. *)
Fixpoint first_some {A} (f : nat → option A) (fuel n : nat) : option A :=
  match fuel with
  | O => None
  | S fuel => match f n with Some a => Some a | None => first_some f fuel (S n) end
  end.

Lemma first_some_Some {A} (f : nat → option A) fuel n a :
  first_some f fuel n = Some a ↔
  ∃ k, (n <= k < n + fuel)%nat ∧ f k = Some a ∧ ∀ j, (n <= j < k)%nat → f j = None.
Proof.
  revert n. induction fuel as [|fuel IH]; intros n; cbn [first_some].
  { split; [done|]. intros (k & ? & _). lia. }
  destruct (f n) as [b|] eqn:E.
  - split.
    + intros [= ->]. exists n. split_and!; try done; [lia..|]. intros. lia.
    + intros (k & Hk & Ha & Hn). destruct (decide (k = n)) as [->|]; [congruence|].
      rewrite Hn in E by lia. done.
  - rewrite IH. split; intros (k & Hk & Ha & Hn); exists k.
    + split_and!; [lia..|done|]. intros j Hj. destruct (decide (j = n)) as [->|]; [done|].
      apply Hn. lia.
    + destruct (decide (k = n)) as [->|]; [congruence|].
      split_and!; [lia..|done|]. intros. apply Hn. lia.
Qed.

Lemma first_some_None {A} (f : nat → option A) fuel n :
  first_some f fuel n = None ↔ ∀ k, (n <= k < n + fuel)%nat → f k = None.
Proof.
  revert n. induction fuel as [|fuel IH]; intros n; cbn [first_some]; [split; [intros; lia|done]|].
  destruct (f n) eqn:E.
  - split; [done|]. intros H. rewrite H in E by lia. done.
  - rewrite IH. split; intros H k Hk; [|apply H; lia].
    destruct (decide (k = n)) as [->|]; [done|]. apply H. lia.
Qed.

Lemma first_some_ext {A} (f g : nat → option A) fuel n :
  (∀ k, (n <= k < n + fuel)%nat → f k = g k) → first_some f fuel n = first_some g fuel n.
Proof.
  revert n. induction fuel as [|fuel IH]; intros n H; cbn [first_some]; [done|].
  rewrite H by lia. destruct (g n); [done|]. apply IH. intros. apply H. lia.
Qed.

(** More turns do not change a hit. *)
Lemma first_some_more {A} (f : nat → option A) fuel fuel' n a :
  first_some f fuel n = Some a → (fuel <= fuel')%nat → first_some f fuel' n = Some a.
Proof.
  rewrite !first_some_Some. intros (k & Hk & ?) Hf. exists k. split; [lia|done].
Qed.

Lemma first_some_list_find {A B} `{!Inhabited A} (f : A → bool) (g : A → nat → B) (l : list A) n from :
  (from + n <= length l)%nat →
  first_some (λ i, if f (l !!! i) then Some (g (l !!! i) i) else None) n from =
  (λ '(i, x), g x (from + i)%nat) <$> list_find (λ x, f x = true) (take n (drop from l)).
Proof.
  revert from. induction n as [|n IH]; intros from Hn; cbn [first_some]; [done|].
  destruct (lookup_lt_is_Some_2 l from) as [x Hx]; [lia|].
  rewrite (list_lookup_total_correct _ _ _ Hx), (drop_S _ _ _ Hx). cbn [take list_find].
  destruct (f x) eqn:E; [rewrite decide_True by done; cbn; by rewrite Nat.add_0_r|].
  rewrite decide_False by congruence. rewrite IH by lia.
  destruct (list_find _ _) as [[i y]|]; cbn; [|done]. do 2 f_equal. lia.
Qed.

Lemma filter_suffix {A} (P : A → Prop) `{∀ x, Decision (P x)} (l : list A) k :
  (∀ i x, l !! i = Some x → P x ↔ (k <= i)%nat) → filter P l = drop k l.
Proof.
  revert k. induction l as [|x l IH]; intros k Hk; [by rewrite drop_nil|].
  destruct k as [|k].
  - rewrite drop_0. apply filter_all. apply Forall_lookup_2. intros i y Hi. apply (Hk i y Hi). lia.
  - rewrite filter_cons_False by (intros Hx; apply (Hk 0%nat x eq_refl) in Hx; lia).
    cbn [drop]. apply IH. intros i y Hi. rewrite (Hk (S i) y Hi). lia.
Qed.

(** The running minimum or maximum of a loop, [R] the order its test [ltb] decides on [good] values. *)
Lemma foldl_least {A B} (R : B → B → Prop) (ltb : B → B → bool) (f : A → B) l (x : B) (good : B → Prop) :
  (∀ b, good b → R b b) →
  (∀ a b, good a → good b → ltb a b = true → R a b) → (∀ a b, good a → good b → ltb a b = false → R b a) →
  (∀ a b c, good a → good b → good c → R a b → R b c → R a c) →
  good x → Forall (λ a, good (f a)) l →
  let r := foldl (λ acc a, if ltb (f a) acc then f a else acc) x l in
  good r ∧ R r x ∧ Forall (λ a, R r (f a)) l ∧ (r = x ∨ r ∈ map f l).
Proof.
  intros Hrefl Hlt Hge Htr. revert x. induction l as [|a l IH]; intros x Hx Hl; cbn [foldl map].
  { split_and!; auto. }
  inversion Hl as [|? ? Ha Hl']; subst.
  destruct (ltb (f a) x) eqn:E.
  - destruct (IH (f a) Ha Hl') as (H1 & H2 & H3 & H4).
    split_and!; [done|apply (Htr _ (f a)); auto|by constructor|].
    right. destruct H4 as [->|?]; set_solver.
  - destruct (IH x Hx Hl') as (H1 & H2 & H3 & H4).
    split_and!; [done|done|constructor; [apply (Htr _ x); auto|done]|]. destruct H4 as [->|?]; set_solver.
Qed.

(** Lexicographic comparison of rank keys, and the best element of a loop that keeps the lower ranked of two. *)
Fixpoint lex_lt (a b : list Z) : bool :=
  match a, b with
  | x :: a, y :: b => if (x =? y)%Z then lex_lt a b else (x <? y)%Z
  | _, _ => false
  end.
Lemma lex_irrefl a : lex_lt a a = false.
Proof. induction a as [|x a IH]; cbn; [done|]. by rewrite Z.eqb_refl. Qed.
Lemma lex_trans a b c : lex_lt a b = true → lex_lt b c = true → lex_lt a c = true.
Proof.
  revert b c. induction a as [|x a IH]; intros [|y b] [|z c]; cbn; try done.
  destruct (Z.eqb_spec x y), (Z.eqb_spec y z), (Z.eqb_spec x z); subst; intros H1 H2; try lia; by eapply IH.
Qed.
Lemma lex_asym a b : lex_lt a b = true → lex_lt b a = false.
Proof. intros H. apply Bool.not_true_is_false. intros H'. pose proof (lex_trans _ _ _ H H') as Hi. by rewrite lex_irrefl in Hi. Qed.
Lemma lex_not_trans a : ∀ b c, length a = length b → length b = length c → lex_lt b a = false → lex_lt c b = false → lex_lt c a = false.
Proof.
  induction a as [|x a IH]; intros [|y b] [|z c]; cbn; try done; intros Hl Hl'.
  destruct (Z.eqb_spec y x), (Z.eqb_spec z y), (Z.eqb_spec z x); subst; intros H1 H2; try lia. eapply (IH b c); [lia|lia|done|done].
Qed.
Lemma foldl_lex_best {A} (better : A → A → bool) (keys : A → list Z) (good : A → Prop) first rest :
  (∀ a b, good a → good b → better a b = lex_lt (keys a) (keys b)) → Forall good (first :: rest) →
  let r := foldl (λ best c, if better c best then c else best) first rest in
  r ∈ first :: rest ∧ ∀ c, c ∈ first :: rest → better c r = false.
Proof.
  intros Hk Hg. apply Forall_cons in Hg as [Hf H].
  assert (Hgen : ∀ rest best seen, good best → Forall good rest → Forall good seen → best ∈ seen → (∀ c, c ∈ seen → better c best = false) →
    let r := foldl (λ best c, if better c best then c else best) best rest in
    r ∈ seen ++ rest ∧ ∀ c, c ∈ seen ++ rest → better c r = false).
  { clear first rest Hf H. cbv zeta. induction rest as [|c rest IH]; intros best seen Hb Hr Hs Hin Hbest; cbn [foldl]; [by rewrite app_nil_r|].
    apply Forall_cons in Hr as [Hc Hr]. replace (seen ++ c :: rest) with ((seen ++ [c]) ++ rest) by (by rewrite <- app_assoc).
    destruct (better c best) eqn:E; (apply IH; [done|done|by apply Forall_app; split; [|by constructor]| |]).
    - apply elem_of_app. right. by left.
    - intros d [Hd| ->%list_elem_of_singleton]%elem_of_app; [|rewrite Hk by done; apply lex_irrefl].
      rewrite Forall_forall in Hs. pose proof (Hs d Hd) as Ho. specialize (Hbest d Hd). rewrite Hk in Hbest, E |- * by done.
      apply not_true_iff_false. intros Hlt. rewrite (lex_trans _ _ _ Hlt E) in Hbest. done.
    - apply elem_of_app. by left.
    - intros d [Hd| ->%list_elem_of_singleton]%elem_of_app; [by apply Hbest|done]. }
  apply (Hgen rest first [first]); [done|done|by constructor|by left|].
  intros c ->%list_elem_of_singleton. rewrite Hk by done. apply lex_irrefl.
Qed.

(** [List.find] returns the first hit. *)
Lemma find_first {A} (f : A → bool) (l : list A) x :
  List.find f l = Some x ↔ ∃ i, l !! i = Some x ∧ f x = true ∧ ∀ j y, (j < i)%nat → l !! j = Some y → f y = false.
Proof.
  induction l as [|z l IH]; cbn [List.find]; [split; [done|intros (i & ? & _); done]|].
  destruct (f z) eqn:E.
  - split; [intros [= ->]; exists 0%nat; split_and!; [done..|lia]|].
    intros ([|i] & Hi & _ & Hf); [done|]. rewrite (Hf 0%nat z) in E by (done || lia). done.
  - rewrite IH. split; intros (i & Hi & Hp & Hf).
    + exists (S i). split_and!; [done..|]. intros [|j] q Hj Hq; [naive_solver|]. eapply Hf; [|done]. lia.
    + destruct i as [|i]; [cbn in Hi; congruence|]. exists i. split_and!; [done..|]. intros j q Hj Hq. eapply (Hf (S j)); [lia|done].
Qed.
Lemma find_split {A} (f : A → bool) (l : list A) x :
  List.find f l = Some x → ∃ l1 l2, l = l1 ++ x :: l2 ∧ f x = true ∧ Forall (λ y, f y = false) l1.
Proof.
  induction l as [|z l IH]; cbn [List.find]; [done|]. destruct (f z) eqn:E.
  - intros [= <-]. by exists [], l.
  - intros (l1 & l2 & -> & Hx & Hl)%IH. exists (z :: l1), l2. split_and!; [done|done|by constructor].
Qed.
Lemma find_miss {A} (f : A → bool) (l : list A) : List.find f l = None ↔ ∀ x, x ∈ l → f x = false.
Proof.
  split.
  - intros H x Hx. eapply List.find_none; [done|]. by apply list_elem_of_In.
  - intros H. destruct (List.find f l) as [x|] eqn:E; [|done]. apply List.find_some in E as [Hi Hf].
    rewrite H in Hf; [done|by apply list_elem_of_In].
Qed.

(** * Sorted lists *)

Lemma StronglySorted_app_r {A} (R : A → A → Prop) l x :
  StronglySorted R l → Forall (λ y, R y x) l → StronglySorted R (l ++ [x]).
Proof.
  induction 1 as [|y l Hs IH Hf]; intros Hx; cbn.
  - by repeat constructor.
  - inversion Hx; subst. constructor; [auto|]. apply Forall_app. auto.
Qed.

Lemma StronglySorted_drop {A} (R : A → A → Prop) n l :
  StronglySorted R l → StronglySorted R (drop n l).
Proof. revert n. induction l; intros [|n] H; cbn; try done. inversion H; subst; auto. Qed.

Lemma StronglySorted_take {A} (R : A → A → Prop) n l :
  StronglySorted R l → StronglySorted R (take n l).
Proof.
  revert n. induction l; intros [|n] H; cbn; try constructor; inversion H; subst; auto.
  by apply Forall_take.
Qed.

Lemma StronglySorted_lookups {A} (R : A → A → Prop) l i j x y : StronglySorted R l → i < j → l !! i = Some x → l !! j = Some y → R x y.
Proof.
  intros Hs. revert i j. induction Hs as [|z l Hs IH Hz]; intros i j Hij Hx Hy; [done|]. destruct j as [|j]; [lia|]. destruct i as [|i]; cbn in *.
  - injection Hx as ->. rewrite Forall_lookup in Hz. by eapply Hz.
  - eapply IH; [|done..]. lia.
Qed.
Lemma StronglySorted_lookup_lt (l : list Z) i j x y :
  StronglySorted Z.lt l → l !! i = Some x → l !! j = Some y → (i < j)%nat → (x < y)%Z.
Proof. intros Hs Hi Hj Hij. by apply (StronglySorted_lookups Z.lt l i j). Qed.
Lemma StronglySorted_NoDup_map {A B} (R : A → A → Prop) (f : A → B) l :
  StronglySorted R l → (∀ x y, x ∈ l → y ∈ l → R x y → f x ≠ f y) → NoDup (map f l).
Proof.
  induction 1 as [|x l Hs IH Hx]; intros Hf; cbn; [constructor|]. constructor; [|apply IH; intros; apply Hf; [by right|by right|done]].
  intros (y & Ey & Hy%list_elem_of_In)%list_elem_of_In%in_map_iff. rewrite Forall_forall in Hx.
  by apply (Hf x y); [by left|by right|by apply Hx|].
Qed.
Lemma StronglySorted_imap {A} (l : list A) : ∀ k, StronglySorted (λ p q : nat * A, p.1 < q.1) (imap (λ i x, (k + i, x)) l).
Proof.
  induction l as [|x l IH]; intros k; cbn; constructor.
  - specialize (IH (S k)). erewrite imap_ext; [exact IH|]. intros i y _. cbn. f_equal. lia.
  - apply Forall_lookup. intros i p Hp. rewrite list_lookup_imap in Hp. apply fmap_Some in Hp as (y & _ & ->). cbn. lia.
Qed.
Lemma existsb_miss {A} (f : A → bool) l x : existsb f l = false → In x l → f x = false.
Proof. intros H Hin. apply Bool.not_true_is_false. intros Hx. assert (existsb f l = true); [|congruence]. apply existsb_exists. by exists x. Qed.

Lemma sorted_last_max l x :
  StronglySorted Z.lt l → last l = Some x → Forall (λ y, (y <= x)%Z) l.
Proof.
  intros Hs Hl. apply Forall_lookup_2. intros i y Hi. rewrite last_lookup in Hl.
  pose proof (lookup_lt_Some _ _ _ Hi). destruct (decide (i = pred (length l))) as [->|].
  - rewrite Hi in Hl. injection Hl as ->. lia.
  - pose proof (StronglySorted_lookup_lt _ _ _ _ _ Hs Hi Hl). lia.
Qed.

(** An enumeration of a map's keys, each once: all that is known of [for k := range m]. *)
Class RangeOrder {A} (range : gmap string A → list string) : Prop := {
  range_nodup : ∀ m, NoDup (range m);
  range_keys : ∀ m k, k ∈ range m ↔ is_Some (m !! k);
}.
#[export] Instance sorted_keys_range {A} : RangeOrder (@sorted_keys A).
Proof. split; [apply sorted_keys_NoDup|intros; apply elem_of_sorted_keys]. Qed.

Lemma range_perm {A} (range range' : gmap string A → list string) `{!RangeOrder range, !RangeOrder range'} m :
  range m ≡ₚ range' m.
Proof. apply NoDup_Permutation; [apply range_nodup..|]. intros k. by rewrite !range_keys. Qed.

(** [sort.Slice(l, less)]. *)
Fixpoint sort_insert {A} (less : A → A → bool) (x : A) (l : list A) : list A :=
  match l with
  | [] => [x]
  | y :: r => if less y x then y :: sort_insert less x r else x :: l
  end.
Definition sort_slice {A} (less : A → A → bool) (l : list A) : list A := foldr (sort_insert less) [] l.

Lemma sort_insert_perm {A} (less : A → A → bool) x l : sort_insert less x l ≡ₚ x :: l.
Proof.
  induction l as [|y l IH]; cbn; [done|]. destruct (less y x); [|done]. rewrite IH. constructor.
Qed.
Lemma sort_slice_perm {A} (less : A → A → bool) l : sort_slice less l ≡ₚ l.
Proof. induction l as [|x l IH]; cbn; [done|]. by rewrite sort_insert_perm, IH. Qed.

Section sort_slice.
Context {A} (less : A → A → bool) (P : A → Prop).
Hypothesis less_asym : ∀ x y, P x → P y → less x y = true → less y x = false.
Hypothesis less_trans : ∀ x y z, P x → P y → P z → less y x = false → less z y = false → less z x = false.

Lemma sort_insert_sorted x l :
  P x → Forall P l → StronglySorted (λ a b, less b a = false) l →
  StronglySorted (λ a b, less b a = false) (sort_insert less x l).
Proof.
  intros Hx Hl. induction l as [|y l IH]; intros Hs; cbn; [repeat constructor|].
  inversion Hl as [|? ? Hy Hl']; subst. inversion Hs as [|? ? Hs' Hf]; subst. destruct (less y x) eqn:E.
  - constructor; [by apply IH|]. rewrite sort_insert_perm. constructor; [by apply less_asym|done].
  - constructor; [done|]. constructor; [done|].
    rewrite Forall_forall in *. intros z Hz. apply (less_trans x y z); auto.
Qed.
Lemma sort_slice_sorted l : Forall P l → StronglySorted (λ a b, less b a = false) (sort_slice less l).
Proof.
  induction 1 as [|x l Hx Hl IH]; cbn; [constructor|]. apply sort_insert_sorted; [done| |done].
  fold (sort_slice less l). by rewrite sort_slice_perm.
Qed.
(** A total order has one sorted arrangement, so the algorithm and the input order are immaterial. *)
Lemma sort_slice_unique l l' :
  Forall P l → l ≡ₚ l' →
  (∀ x y, x ∈ l → y ∈ l → less x y = false → less y x = false → x = y) →
  sort_slice less l = sort_slice less l'.
Proof.
  intros Hl Hp Hanti. apply (StronglySorted_unique_strong (λ a b, less b a = false)).
  - intros x y. rewrite !sort_slice_perm, <- Hp. eauto.
  - by apply sort_slice_sorted.
  - apply sort_slice_sorted. by rewrite <- Hp.
  - by rewrite !sort_slice_perm.
Qed.
End sort_slice.

(** * Tactics *)

(** Split on every boolean test the goal still branches on. *)
Ltac split_ifs :=
  repeat match goal with
  | |- context [if ?b then _ else _] =>
    lazymatch type of b with bool => destruct b eqn:? | sumbool _ _ => destruct b end
  end.

(** Turn boolean facts into propositions. *)
Ltac bools :=
  repeat match goal with
  | H : (_ && _) = true |- _ => apply andb_prop in H as [? ?]
  | H : (_ || _) = false |- _ => apply orb_false_elim in H as [? ?]
  | H : negb _ = true |- _ => apply negb_true_iff in H
  | H : negb _ = false |- _ => apply negb_false_iff in H
  | H : bool_decide _ = true |- _ => apply bool_decide_eq_true in H
  | H : bool_decide _ = false |- _ => apply bool_decide_eq_false in H
  end.
