(* ===== verification/Float64.v ===== *)
(** Go's [float64]: the kernel's binary64 numbers, their order embedded in [Z]. *)
From S2P Require Import Prelude.
From Stdlib Require Import Floats.

Create HintDb float.

(** Go writes [a > b] and [a >= b] for what IEEE 754 gives as [b < a], [b <= a]. *)
Notation "x >? y" := (PrimFloat.ltb y x) (at level 70, no associativity, only parsing) : float_scope.
Notation "x >=? y" := (PrimFloat.leb y x) (at level 70, no associativity, only parsing) : float_scope.
Notation "x <>? y" := (negb (PrimFloat.eqb x y)) (at level 70, no associativity, only parsing) : float_scope.

(** [math.IsNaN], [math.IsInf(_, 0)] and their conjunction of negations. *)
Definition IsNaN (x : float) : bool := (x <>? x)%float.
Definition IsInf (x : float) : bool := (x =? infinity)%float || (x =? neg_infinity)%float.
Definition finite (x : float) : bool := negb (IsNaN x) && negb (IsInf x).

(** [math.Max] and [math.Min]: infinities first, then NaN, then the signed zeros. *)
Definition Signbit (x : float) : bool := get_sign x.
Definition math_Max (x y : float) : float :=
  if (x =? infinity)%float || (y =? infinity)%float then infinity
  else if IsNaN x || IsNaN y then nan
  else if (x =? 0)%float && (x =? y)%float then (if Signbit x then y else x)
  else if (x >? y)%float then x else y.
Definition math_Min (x y : float) : float :=
  if (x =? neg_infinity)%float || (y =? neg_infinity)%float then neg_infinity
  else if IsNaN x || IsNaN y then nan
  else if (x =? 0)%float && (x =? y)%float then (if Signbit x then x else y)
  else if (x <? y)%float then x else y.

(** [float64(n)] for an integer [n]: the nearest float, ties to even. *)
Definition f64_of_Z (n : Z) : float := SF2Prim (binary_normalize prec emax n 0 false).

(** The integer part and the remaining (dropped) fraction of [m * 2^e], [m > 0]. *)
Definition int_part (m : positive) (e : Z) : Z :=
  if (0 <=? e)%Z then (Zpos m * 2 ^ e)%Z else (Zpos m / 2 ^ (- e))%Z.
Definition half_part (m : positive) (e : Z) : Z :=
  if (0 <=? e)%Z then 0%Z else (2 * (Zpos m mod 2 ^ (- e)))%Z.

(** [math.Floor], [math.Ceil] and [math.Round] (half away from zero); zeros, infinities and
    NaN are returned as they are, and the sign of a zero result is the argument's. *)
Definition round_with (up : bool → positive → Z → bool) (x : float) : float :=
  match Prim2SF x with
  | S754_finite s m e =>
      let n := (int_part m e + Z.b2z (up s m e))%Z in
      if s then (- f64_of_Z n)%float else f64_of_Z n
  | _ => x
  end.
Definition math_Floor : float → float :=
  round_with (λ s m e, s && (0 <? half_part m e)%Z).
Definition math_Ceil : float → float :=
  round_with (λ s m e, negb s && (0 <? half_part m e)%Z).
Definition math_Round : float → float :=
  round_with (λ _ m e, (e <? 0)%Z && (2 ^ (- e) <=? half_part m e)%Z).

(** [int64(x)] truncates; amd64 gives the minimum integer when the value does not fit. *)
Definition int64_min : Z := - 2 ^ 63.
Definition f64_to_int64 (x : float) : Z :=
  match Prim2SF x with
  | S754_zero _ => 0
  | S754_finite s m e =>
      let n := SpecFloat.cond_Zopp s (int_part m e) in
      if (- 2 ^ 63 <=? n)%Z && (n <? 2 ^ 63)%Z then n else int64_min
  | _ => int64_min
  end.

Definition key_inf : Z := 2 ^ 2200.
Definition SF_key (x : spec_float) : Z :=
  match x with
  | S754_zero _ => 0
  | S754_infinity s => SpecFloat.cond_Zopp s key_inf
  | S754_nan => 0
  | S754_finite s m e => SpecFloat.cond_Zopp s (Zpos m * 2 ^ (e + 1074))
  end.
Definition key (x : float) : Z := SF_key (Prim2SF x).

Lemma digits2_pos_bounds m :
  (2 ^ (Zpos (digits2_pos m) - 1) <= Zpos m < 2 ^ Zpos (digits2_pos m))%Z.
Proof.
  induction m as [m IH|m IH|]; cbn [digits2_pos]; [| |done].
  all: rewrite Pos2Z.inj_succ; replace (Z.succ (Zpos (digits2_pos m)) - 1)%Z with (Zpos (digits2_pos m)) by lia.
  all: rewrite Z.pow_succ_r by lia.
  all: replace (Zpos (digits2_pos m)) with (Z.succ (Zpos (digits2_pos m) - 1)) at 1 by lia.
  all: rewrite Z.pow_succ_r by lia; lia.
Qed.

(** A canonical mantissa is below [2^53], and at least [2^52] unless the exponent is minimal. *)
Lemma bounded_inv m e :
  bounded prec emax m e = true →
  (-1074 <= e <= 971 ∧ Zpos m < 2 ^ 53 ∧ (-1074 < e → 2 ^ 52 <= Zpos m))%Z.
Proof.
  unfold bounded, canonical_mantissa, fexp, SpecFloat.emin. intros [H1 H2]%andb_prop.
  apply Z.eqb_eq in H1. apply Z.leb_le in H2.
  pose proof (digits2_pos_bounds m) as [Hlo Hhi].
  change prec with 53%Z in *. change emax with 1024%Z in *.
  set (d := Zpos (digits2_pos m)) in *.
  assert (d <= 53)%Z by lia.
  split; [lia|]. split.
  - eapply Z.lt_le_trans; [exact Hhi|]. apply Z.pow_le_mono_r; lia.
  - intros. assert (d = 53)%Z as -> by lia. exact Hlo.
Qed.

Lemma SF_key_finite_bound m e :
  bounded prec emax m e = true →
  (0 < Zpos m * 2 ^ (e + 1074) < key_inf)%Z.
Proof.
  intros (He & Hm & _)%bounded_inv. split.
  - apply Z.mul_pos_pos; [lia|]. apply Z.pow_pos_nonneg; lia.
  - unfold key_inf. apply Z.lt_le_trans with (2 ^ 53 * 2 ^ (e + 1074))%Z.
    + apply Z.mul_lt_mono_pos_r; [apply Z.pow_pos_nonneg; lia|done].
    + rewrite <- Z.pow_add_r by lia. apply Z.pow_le_mono_r; lia.
Qed.

Lemma key_mag_lt m1 e1 m2 e2 :
  bounded prec emax m1 e1 = true → bounded prec emax m2 e2 = true → (e1 < e2)%Z →
  (Zpos m1 * 2 ^ (e1 + 1074) < Zpos m2 * 2 ^ (e2 + 1074))%Z.
Proof.
  intros (He1 & Hm1 & _)%bounded_inv (He2 & _ & Hm2)%bounded_inv Hlt.
  specialize (Hm2 ltac:(lia)).
  apply Z.lt_le_trans with (2 ^ 53 * 2 ^ (e1 + 1074))%Z.
  - apply Z.mul_lt_mono_pos_r; [apply Z.pow_pos_nonneg; lia|done].
  - apply Z.le_trans with (2 ^ 52 * 2 ^ (e2 + 1074))%Z.
    + rewrite <- !Z.pow_add_r by lia. apply Z.pow_le_mono_r; lia.
    + apply Z.mul_le_mono_nonneg_r; [apply Z.pow_nonneg; lia|done].
Qed.

Lemma key_mag_compare m1 m2 e :
  bounded prec emax m1 e = true →
  (Zpos m1 * 2 ^ (e + 1074) ?= Zpos m2 * 2 ^ (e + 1074))%Z = (m1 ?= m2)%positive.
Proof.
  intros (He & _ & _)%bounded_inv.
  rewrite <- Zmult_compare_compat_r; [done|].
  apply Z.lt_gt, Z.pow_pos_nonneg; lia.
Qed.

Lemma SFcompare_key x y :
  SpecFloat.valid_binary prec emax x = true → SpecFloat.valid_binary prec emax y = true →
  x ≠ S754_nan → y ≠ S754_nan →
  SFcompare x y = Some (SF_key x ?= SF_key y)%Z.
Proof.
  pose proof (eq_refl : (0 < key_inf)%Z) as Hinf.
  destruct x as [sx|sx| |sx mx ex], y as [sy|sy| |sy my ey]; intros Vx Vy Nx Ny; try done;
    cbn [SpecFloat.valid_binary] in *;
    repeat match goal with
    | H : bounded _ _ ?m ?e = true |- _ =>
      lazymatch goal with
      | _ : (0 < Zpos m * 2 ^ (e + 1074) < key_inf)%Z |- _ => fail
      | _ => pose proof (SF_key_finite_bound m e H)
      end
    end; cbn [SFcompare SF_key]; f_equal.
  all: try destruct sx; try destruct sy; cbn [SpecFloat.cond_Zopp]; symmetry.
  all: try (apply Z.compare_lt_iff; lia); try (apply Z.compare_gt_iff; lia);
    try (apply Z.compare_eq_iff; lia).
  all: destruct (Z.compare_spec ex ey) as [->|Hl|Hl].
  all: try (eapply key_mag_lt in Hl; [|eassumption..]).
  all: try (apply Z.compare_lt_iff; lia); try (apply Z.compare_gt_iff; lia).
  - rewrite Z.compare_opp. rewrite key_mag_compare by done. apply Pos.compare_antisym.
  - rewrite key_mag_compare by done. done.
Qed.

Lemma is_nan_SF x : IsNaN x = true ↔ Prim2SF x = S754_nan.
Proof.
  unfold IsNaN. rewrite eqb_spec. unfold SFeqb.
  pose proof (Prim2SF_valid x) as V.
  destruct (Prim2SF x) as [s|s| |s m e] eqn:E; cbn.
  1-3: (try destruct s); cbn; naive_solver.
  split; [|done].
  pose proof (SFcompare_key _ _ V V ltac:(done) ltac:(done)) as H.
  cbn [SFcompare] in H. injection H as ->. rewrite Z.compare_refl. done.
Qed.

Lemma compare_key x y :
  IsNaN x = false → IsNaN y = false →
  SFcompare (Prim2SF x) (Prim2SF y) = Some (key x ?= key y)%Z.
Proof.
  intros Hx Hy. apply SFcompare_key; [apply Prim2SF_valid..| |].
  all: intros H%is_nan_SF; congruence.
Qed.

(** The comparisons are the order of the keys, false as soon as an operand is NaN. *)
Lemma ltb_key x y : (x <? y)%float = negb (IsNaN x) && negb (IsNaN y) && (key x <? key y)%Z.
Proof.
  rewrite ltb_spec. unfold SFltb.
  destruct (IsNaN x) eqn:Hx; [apply is_nan_SF in Hx; rewrite Hx; done|].
  destruct (IsNaN y) eqn:Hy.
  { apply is_nan_SF in Hy; rewrite Hy; by destruct (Prim2SF x). }
  rewrite compare_key by done. unfold Z.ltb. by destruct (key x ?= key y)%Z.
Qed.

Lemma leb_key x y : (x <=? y)%float = negb (IsNaN x) && negb (IsNaN y) && (key x <=? key y)%Z.
Proof.
  rewrite leb_spec. unfold SFleb.
  destruct (IsNaN x) eqn:Hx; [apply is_nan_SF in Hx; rewrite Hx; done|].
  destruct (IsNaN y) eqn:Hy.
  { apply is_nan_SF in Hy; rewrite Hy; by destruct (Prim2SF x). }
  rewrite compare_key by done. unfold Z.leb. by destruct (key x ?= key y)%Z.
Qed.

Lemma eqb_key x y : (x =? y)%float = negb (IsNaN x) && negb (IsNaN y) && (key x =? key y)%Z.
Proof.
  rewrite eqb_spec. unfold SFeqb.
  destruct (IsNaN x) eqn:Hx; [apply is_nan_SF in Hx; rewrite Hx; done|].
  destruct (IsNaN y) eqn:Hy.
  { apply is_nan_SF in Hy; rewrite Hy; by destruct (Prim2SF x). }
  rewrite compare_key by done.
  destruct (Z.compare_spec (key x) (key y)), (Z.eqb_spec (key x) (key y)); try done; lia.
Qed.

(** The same on operands known not to be NaN. *)
Lemma ltb_num x y : IsNaN x = false → IsNaN y = false → (x <? y)%float = (key x <? key y)%Z.
Proof. intros Hx Hy. by rewrite ltb_key, Hx, Hy. Qed.
Lemma leb_num x y : IsNaN x = false → IsNaN y = false → (x <=? y)%float = (key x <=? key y)%Z.
Proof. intros Hx Hy. by rewrite leb_key, Hx, Hy. Qed.
Lemma eqb_num x y : IsNaN x = false → IsNaN y = false → (x =? y)%float = (key x =? key y)%Z.
Proof. intros Hx Hy. by rewrite eqb_key, Hx, Hy. Qed.

Lemma finite_SF x :
  finite x = true ↔ (∃ s, Prim2SF x = S754_zero s) ∨ (∃ s m e, Prim2SF x = S754_finite s m e).
Proof.
  unfold finite, IsInf. rewrite !eqb_spec.
  destruct (IsNaN x) eqn:Hx.
  { apply is_nan_SF in Hx. rewrite Hx. naive_solver. }
  change (Prim2SF infinity) with (S754_infinity false).
  change (Prim2SF neg_infinity) with (S754_infinity true).
  destruct (Prim2SF x) as [s|s| |s m e] eqn:E; cbn; [naive_solver| | |].
  - destruct s; naive_solver.
  - apply is_nan_SF in E. congruence.
  - destruct s; naive_solver.
Qed.

Lemma key_opp x : key (- x) = (- key x)%Z.
Proof. unfold key. rewrite opp_spec. destruct (Prim2SF x) as [[]|[]| |[] m e]; cbn; lia. Qed.

Lemma key_abs x : key (abs x) = Z.abs (key x).
Proof.
  unfold key. rewrite abs_spec. pose proof (Prim2SF_valid x) as V.
  destruct (Prim2SF x) as [[]|[]| |[] m e]; cbn [SFabs SF_key SpecFloat.cond_Zopp]; try done.
  all: cbn in V; apply SF_key_finite_bound in V; lia.
Qed.

Lemma opp_opp x : (- - x)%float = x.
Proof. apply Prim2SF_inj. rewrite !opp_spec. destruct (Prim2SF x) as [[]|[]| |[] m e]; done. Qed.

Lemma IsNaN_opp x : IsNaN (- x) = IsNaN x.
Proof.
  apply eq_true_iff_eq. rewrite !is_nan_SF, opp_spec. destruct (Prim2SF x); cbn; naive_solver.
Qed.

Lemma IsNaN_abs x : IsNaN (abs x) = IsNaN x.
Proof.
  apply eq_true_iff_eq. rewrite !is_nan_SF, abs_spec. destruct (Prim2SF x); cbn; naive_solver.
Qed.

Lemma finite_not_nan x : finite x = true → IsNaN x = false.
Proof. unfold finite. destruct (IsNaN x); naive_solver. Qed.

Lemma finite_key x : finite x = true ↔ IsNaN x = false ∧ (- key_inf < key x < key_inf)%Z.
Proof.
  rewrite finite_SF. pose proof (eq_refl : (0 < key_inf)%Z). pose proof (Prim2SF_valid x) as V.
  pose proof (is_nan_SF x) as N. unfold key.
  destruct (Prim2SF x) as [s|s| |s m e] eqn:E; cbn [SF_key].
  - split; [|naive_solver]. intros _. split; [destruct (IsNaN x); naive_solver|lia].
  - split; [naive_solver|]. intros [_ Hk]. destruct s; cbn in Hk; lia.
  - split; [naive_solver|]. intros [Hk _]. rewrite (proj2 N eq_refl) in Hk. done.
  - cbn in V. apply SF_key_finite_bound in V. split; [|intros _; right; eauto]. intros _.
    split; [destruct (IsNaN x); naive_solver|destruct s; cbn [SpecFloat.cond_Zopp]; lia].
Qed.

#[export] Hint Resolve finite_not_nan : float.
Lemma key_0 : key 0 = 0%Z.
Proof. reflexivity. Qed.
Lemma IsNaN_0 : IsNaN 0 = false.
Proof. reflexivity. Qed.
#[export] Hint Resolve IsNaN_0 : float.

(** [float_keys] turns comparisons of floats known not to be NaN into comparisons of keys;
    [float_lia] decides goals about the order of floats. *)
Ltac not_nan := solve [assumption | auto 3 with float].
Ltac float_keys :=
  repeat match goal with
  | H : context [PrimFloat.ltb ?x ?y] |- _ => rewrite (ltb_num x y) in H by not_nan
  | H : context [PrimFloat.leb ?x ?y] |- _ => rewrite (leb_num x y) in H by not_nan
  | H : context [PrimFloat.eqb ?x ?y] |- _ => rewrite (eqb_num x y) in H by not_nan
  | |- context [PrimFloat.ltb ?x ?y] => rewrite (ltb_num x y) by not_nan
  | |- context [PrimFloat.leb ?x ?y] => rewrite (leb_num x y) by not_nan
  | |- context [PrimFloat.eqb ?x ?y] => rewrite (eqb_num x y) by not_nan
  end; rewrite ?key_0 in *.
Ltac float_lia := float_keys; lia.

(** ** Rounding to nearest, ties to even

    On keys (integers in units of 2^-1074) addition and subtraction are the exact ones
    followed by [rnd], a monotone function that fixes every representable key. *)

Lemma iter_pos_iter {A} (f : A → A) p x : SpecFloat.iter_pos f p x = Nat.iter (Pos.to_nat p) f x.
Proof.
  revert x. induction p as [p IH|p IH|]; intros x; cbn [SpecFloat.iter_pos]; [| |done].
  - rewrite !IH. change (f x) with (Nat.iter 1 f x). rewrite <- !Nat.iter_add. f_equal. lia.
  - rewrite !IH, <- Nat.iter_add. f_equal; lia.
Qed.

(** [2M / 2^n] and whether bits were lost: the value after shifting [M] right [n] times. *)
Definition half_units (M n : Z) : Z := (2 * M / 2 ^ n)%Z.
Definition sticky (M n : Z) : bool := negb (2 * M mod 2 ^ n =? 0)%Z.

Definition shr_at (M n : Z) : shr_record :=
  {| shr_m := half_units M n / 2; shr_r := Z.odd (half_units M n); shr_s := sticky M n |}.

Lemma half_units_succ M n : (0 <= n)%Z → half_units M (n + 1) = (half_units M n / 2)%Z.
Proof.
  intros. unfold half_units. rewrite Z.pow_add_r, <- Z.div_div by lia. done.
Qed.

Lemma sticky_succ M n : (0 <= n)%Z → sticky M (n + 1) = sticky M n || Z.odd (half_units M n).
Proof.
  intros Hn. unfold sticky, half_units.
  assert (0 < 2 ^ n)%Z by (apply Z.pow_pos_nonneg; lia).
  rewrite Z.pow_add_r, Z.pow_1_r, Z.rem_mul_r by lia.
  set (q := (2 * M / 2 ^ n)%Z). set (r := (2 * M mod 2 ^ n)%Z).
  assert (0 <= r < 2 ^ n)%Z by (apply Z.mod_pos_bound; lia).
  rewrite Zmod_odd. destruct (Z.odd q).
  - rewrite orb_true_r. apply negb_true_iff, Z.eqb_neq. nia.
  - rewrite orb_false_r, Z.mul_0_r, Z.add_0_r. done.
Qed.

Lemma shr_1_at M n : (0 <= M)%Z → (0 <= n)%Z → shr_1 (shr_at M n) = shr_at M (n + 1).
Proof.
  intros HM Hn. unfold shr_at at 2. rewrite half_units_succ, sticky_succ by done.
  unfold shr_at, shr_1.
  assert (0 <= half_units M n)%Z
    by (apply Z.div_pos; [lia|apply Z.pow_pos_nonneg; lia]).
  set (h := (half_units M n / 2)%Z).
  assert (0 <= h)%Z by (apply Z.div_pos; lia).
  rewrite (orb_comm (sticky M n)).
  destruct h as [|[p|p|]|] eqn:E; try lia; cbn -[Z.div]; f_equal; try done.
  - rewrite Pos2Z.inj_xI. apply Z.div_unique_pos with 1%Z; lia.
  - rewrite Pos2Z.inj_xO. apply Z.div_unique_pos with 0%Z; lia.
Qed.

Lemma shr_at_0 M : (0 <= M)%Z → shr_at M 0 = {| shr_m := M; shr_r := false; shr_s := false |}.
Proof.
  intros. unfold shr_at, half_units, sticky.
  change (2 ^ 0)%Z with 1%Z. rewrite Z.div_1_r, Z.mod_1_r, Z.mul_comm, Z.div_mul by lia.
  f_equal. rewrite Z.odd_mul. apply andb_false_r.
Qed.

Lemma shr_iter M k : (0 <= M)%Z → Nat.iter k shr_1 (shr_at M 0) = shr_at M (Z.of_nat k).
Proof.
  intros HM. induction k as [|k IH]; [done|].
  change (Nat.iter (S k) shr_1 (shr_at M 0)) with (shr_1 (Nat.iter k shr_1 (shr_at M 0))).
  rewrite IH, shr_1_at by lia. f_equal. lia.
Qed.

Lemma shr_exact M e n :
  (0 <= M)%Z → (0 <= n)%Z →
  shr {| shr_m := M; shr_r := false; shr_s := false |} e n = (shr_at M n, (e + n)%Z).
Proof.
  intros HM Hn. rewrite <- shr_at_0 by done. destruct n as [|p|p]; [|clear Hn|lia].
  { cbn [shr]. rewrite Z.add_0_r. done. }
  unfold shr. rewrite iter_pos_iter, shr_iter by done. by rewrite positive_nat_Z.
Qed.

(** Round [M / 2^n] to the nearest integer, ties to even. *)
Definition rne (M n : Z) : Z :=
  let q := (half_units M n / 2)%Z in
  if Z.odd (half_units M n) then
    if sticky M n || Z.odd q then q + 1 else q
  else q.

(** [fmt.Sprintf("%.<d>f", x)]: the exact decimal value, rounded half to even. *)
Fixpoint zeros (n : nat) : string := match n with O => "" | S n => "0" +:+ zeros n end.
Definition decimal (d : nat) (q : Z) : string :=
  let frac := pretty (q mod 10 ^ Z.of_nat d)%Z in
  pretty (q / 10 ^ Z.of_nat d)%Z +:+
    (if d =? 0 then "" else "." +:+ zeros (d - String.length frac) +:+ frac).
Definition fmt_fixed (d : nat) (x : float) : string :=
  let sign (s : bool) := if s then "-" else "" in
  match Prim2SF x with
  | S754_nan => "NaN"
  | S754_infinity s => if s then "-Inf" else "+Inf"
  | S754_zero s => sign s +:+ decimal d 0
  | S754_finite s m e =>
      let scaled := (Zpos m * 10 ^ Z.of_nat d)%Z in
      sign s +:+ decimal d (if (0 <=? e)%Z then scaled * 2 ^ e else rne scaled (- e))%Z
  end.
Example fmt_fixed_example :
  map (fmt_fixed 5) [4132.61; -0.5; 0.000005; 1e20; neg_infinity]%float =
  ["4132.61000"; "-0.50000"; "0.00001"; "100000000000000000000.00000"; "-Inf"].
Proof. vm_compute. reflexivity. Qed.
Example fmt_fixed_half : map (fmt_fixed 0) [0.5; 1.5; 2.5]%float = ["0"; "2"; "2"].
Proof. vm_compute. reflexivity. Qed.

Lemma round_nearest_even_at M n :
  round_nearest_even (shr_m (shr_at M n)) (loc_of_shr_record (shr_at M n)) = rne M n.
Proof.
  unfold shr_at, rne. cbn [shr_m].
  set (q := (half_units M n / 2)%Z).
  destruct (Z.odd (half_units M n)), (sticky M n); cbn; try done.
  rewrite <- Z.negb_odd. by destruct (Z.odd q).
Qed.

Lemma rne_mono a b n : (0 <= n)%Z → (a <= b)%Z → (rne a n <= rne b n)%Z.
Proof.
  intros Hn Hab. unfold rne, sticky, half_units.
  assert (0 < 2 ^ n)%Z by (apply Z.pow_pos_nonneg; lia).
  pose proof (Z.div_mod (2 * a) (2 ^ n) ltac:(lia)) as Ea.
  pose proof (Z.div_mod (2 * b) (2 ^ n) ltac:(lia)) as Eb.
  pose proof (Z.mod_pos_bound (2 * a) (2 ^ n) ltac:(lia)) as Ra.
  pose proof (Z.mod_pos_bound (2 * b) (2 ^ n) ltac:(lia)) as Rb.
  set (ha := (2 * a / 2 ^ n)%Z) in *. set (hb := (2 * b / 2 ^ n)%Z) in *.
  set (ra := (2 * a mod 2 ^ n)%Z) in *. set (rb := (2 * b mod 2 ^ n)%Z) in *.
  assert (ha <= hb)%Z by (apply Z.div_le_mono; lia).
  pose proof (Z.div_mod ha 2 ltac:(lia)) as Ha. pose proof (Z.div_mod hb 2 ltac:(lia)) as Hb.
  rewrite Zmod_odd in Ha, Hb.
  destruct (decide (ha = hb)) as [->|Hne].
  - destruct (Z.odd hb); [|lia]. destruct (Z.odd (hb / 2)); [rewrite !orb_true_r; lia|].
    rewrite !orb_false_r. destruct (Z.eqb_spec ra 0), (Z.eqb_spec rb 0); cbn; lia.
  - destruct (Z.odd ha), (Z.odd hb);
      repeat match goal with |- context [if ?c then _ else _] => destruct c end; lia.
Qed.

Lemma rne_scale M n j : (0 <= n)%Z → (0 <= j)%Z → rne (M * 2 ^ j) (n + j) = rne M n.
Proof.
  intros. unfold rne, sticky, half_units.
  assert (0 < 2 ^ j)%Z by (apply Z.pow_pos_nonneg; lia).
  assert (0 < 2 ^ n)%Z by (apply Z.pow_pos_nonneg; lia).
  rewrite Z.pow_add_r, Z.mul_assoc by lia.
  rewrite Z.div_mul_cancel_r, Zmult_mod_distr_r by lia.
  replace (2 * M mod 2 ^ n * 2 ^ j =? 0)%Z with (2 * M mod 2 ^ n =? 0)%Z; [done|].
  apply eq_true_iff_eq. rewrite !Z.eqb_eq. nia.
Qed.

Lemma rne_exact q n : (0 <= n)%Z → rne (q * 2 ^ n) n = q.
Proof.
  intros. rewrite <- (Z.add_0_l n) at 2. rewrite rne_scale by lia.
  unfold rne, half_units. change (2 ^ 0)%Z with 1%Z.
  rewrite Z.div_1_r, Z.odd_mul. cbn [Z.odd andb]. rewrite Z.mul_comm, Z.div_mul by lia. done.
Qed.

(** Exponent of the last place of a positive key, and the nearest multiple of that place. *)
Definition ulp_exp (z : Z) : Z := Z.max 0 (Z.log2 z - 52).
Definition rnd_pos (z : Z) : Z := (rne z (ulp_exp z) * 2 ^ ulp_exp z)%Z.
Definition rnd (z : Z) : Z := if (z <? 0)%Z then (- rnd_pos (- z))%Z else rnd_pos z.
Definition overflow_key : Z := 2 ^ 2098.
Definition sat (z : Z) : Z :=
  if (overflow_key <=? z)%Z then key_inf
  else if (z <=? - overflow_key)%Z then (- key_inf)%Z else z.

Lemma log2_digits m : Z.log2 (Zpos m) = (Zpos (digits2_pos m) - 1)%Z.
Proof.
  pose proof (digits2_pos_bounds m). apply Z.log2_unique; [lia|].
  replace (Z.succ _) with (Zpos (digits2_pos m)) by lia. done.
Qed.

Lemma rne_bound m n B : (0 <= n)%Z → (0 <= B)%Z → (m <= B * 2 ^ n → rne m n <= B)%Z.
Proof. intros Hn HB Hm%(rne_mono _ _ n); [|done]. by rewrite rne_exact in Hm. Qed.

Lemma rne_bound_below m n B : (0 <= n)%Z → (B * 2 ^ n <= m → B <= rne m n)%Z.
Proof. intros Hn Hm%(rne_mono _ _ n); [|done]. by rewrite rne_exact in Hm. Qed.

(** The second normalisation of [binary_round_aux]: only the carry 2^53 is shifted. *)
Lemma shr_fexp_rounded m1 e1 :
  (0 <= m1 <= 2 ^ 53)%Z → (-1074 <= e1)%Z →
  ∃ m2 e2 r s, shr_fexp prec emax m1 e1 loc_Exact =
    ({| shr_m := m2; shr_r := r; shr_s := s |}, e2) ∧
    (0 <= m2 < 2 ^ 53)%Z ∧ (m2 * 2 ^ (e2 + 1074) = m1 * 2 ^ (e1 + 1074))%Z ∧
    (m2 = m1 ∧ e2 = e1 ∨ m2 = 2 ^ 52 ∧ e2 = e1 + 1)%Z.
Proof.
  intros Hm He. unfold shr_fexp. cbn [shr_record_of_loc].
  destruct (decide (m1 = 2 ^ 53)%Z) as [->|Hne].
  - change (Zdigits2 (2 ^ 53)) with 54%Z.
    replace (fexp prec emax (54 + e1) - e1)%Z with 1%Z
      by (unfold fexp, SpecFloat.emin; change prec with 53%Z; change emax with 1024%Z; lia).
    rewrite shr_exact by lia. eexists _, _, _, _. split; [reflexivity|].
    change (half_units (2 ^ 53) 1 / 2)%Z with (2 ^ 52)%Z.
    split_and!; try lia.
    replace (e1 + 1 + 1074)%Z with (Z.succ (e1 + 1074)) by lia.
    rewrite Z.pow_succ_r by lia. lia.
  - assert (Zdigits2 m1 <= 53)%Z.
    { destruct m1 as [|p|p]; cbn [Zdigits2]; try lia.
      pose proof (log2_digits p). assert (Z.log2 (Zpos p) < 53)%Z; [|lia].
      apply Z.log2_lt_pow2; lia. }
    destruct (fexp prec emax (Zdigits2 m1 + e1) - e1)%Z as [|p|p] eqn:E; cbn [shr].
    1,3: eexists _, _, _, _; split; [reflexivity|]; split_and!; lia.
    unfold fexp, SpecFloat.emin in E. change prec with 53%Z in E. change emax with 1024%Z in E. lia.
Qed.

Lemma fexp_key d e : (fexp prec emax (d + e) + 1074)%Z = Z.max 0 (d - 1 + (e + 1074) - 52).
Proof. unfold fexp, SpecFloat.emin. change prec with 53%Z. change emax with 1024%Z. lia. Qed.

Lemma SF_key_cond_opp s (z : Z) m e :
  (Zpos m * 2 ^ (e + 1074) = z)%Z → SF_key (S754_finite s m e) = SpecFloat.cond_Zopp s z.
Proof. by intros <-. Qed.

Lemma binary_round_aux_key s m e :
  let n := (fexp prec emax (Zpos (digits2_pos m) + e) - e)%Z in
  (0 <= n)%Z → (-1074 <= e)%Z →
  binary_round_aux prec emax s (Zpos m) e loc_Exact ≠ S754_nan ∧
  SF_key (binary_round_aux prec emax s (Zpos m) e loc_Exact) =
    SpecFloat.cond_Zopp s (sat (rnd_pos (Zpos m * 2 ^ (e + 1074)))).
Proof.
  intros n Hn He. remember (binary_round_aux prec emax s (Zpos m) e loc_Exact) as R eqn:ER.
  unfold binary_round_aux, shr_fexp at 1 in ER. cbn [Zdigits2 shr_record_of_loc] in ER.
  fold n in ER. rewrite shr_exact in ER by lia. cbn beta iota in ER.
  rewrite round_nearest_even_at in ER.
  pose proof (digits2_pos_bounds m) as Hd. pose proof (log2_digits m) as Hlog.
  pose proof (fexp_key (Zpos (digits2_pos m)) e) as Hf.
  set (d := Zpos (digits2_pos m)) in *.
  assert (1 <= d)%Z by (unfold d; lia).
  replace (fexp prec emax (d + e)) with (n + e)%Z in Hf by lia.
  assert (Hz : rnd_pos (Zpos m * 2 ^ (e + 1074)) = (rne (Zpos m) n * 2 ^ (n + e + 1074))%Z).
  { unfold rnd_pos, ulp_exp. rewrite Z.log2_mul_pow2, Hlog by lia.
    replace (Z.max 0 (e + 1074 + (d - 1) - 52)) with (n + (e + 1074))%Z by lia.
    rewrite rne_scale by lia. f_equal. f_equal. lia. }
  assert (Hm1 : (0 <= rne (Zpos m) n <= 2 ^ 53)%Z).
  { split; [apply rne_bound_below; lia|apply rne_bound; try lia].
    rewrite <- Z.pow_add_r by lia. transitivity (2 ^ d)%Z; [lia|]. apply Z.pow_le_mono_r; lia. }
  destruct (shr_fexp_rounded (rne (Zpos m) n) (e + n) Hm1 ltac:(lia))
    as (m2 & e2 & r & st & Hshr & Hm2 & Hval & Hcase).
  rewrite Hshr in ER. cbn [shr_m] in ER. replace (n + e + 1074)%Z with (e + n + 1074)%Z in Hz by lia.
  rewrite Hz, <- Hval. change (emax - prec)%Z with 971%Z in ER. subst R.
  assert (0 < 2 ^ (e2 + 1074))%Z by (apply Z.pow_pos_nonneg; lia).
  destruct (Z.leb_spec e2 971) as [Hle|Hgt].
  - assert (Hsat : sat (m2 * 2 ^ (e2 + 1074)) = (m2 * 2 ^ (e2 + 1074))%Z).
    { assert (m2 * 2 ^ (e2 + 1074) < overflow_key)%Z.
      { apply Z.lt_le_trans with (2 ^ 53 * 2 ^ (e2 + 1074))%Z; [nia|].
        rewrite <- Z.pow_add_r by lia. apply Z.pow_le_mono_r; lia. }
      assert (0 < overflow_key)%Z by done.
      unfold sat. destruct (Z.leb_spec overflow_key (m2 * 2 ^ (e2 + 1074))); [lia|].
      destruct (Z.leb_spec (m2 * 2 ^ (e2 + 1074)) (- overflow_key)); [nia|done]. }
    rewrite Hsat. destruct m2 as [|m2|m2]; [split; [done|by destruct s]|split; [done|by apply SF_key_cond_opp]|lia].
  - assert (2 ^ 52 <= m2)%Z.
    { destruct Hcase as [[-> ->]|[-> _]]; [|done].
      apply rne_bound_below; try lia. rewrite <- Z.pow_add_r by lia.
      transitivity (2 ^ (d - 1))%Z; [|lia]. apply Z.pow_le_mono_r; lia. }
    assert (overflow_key <= m2 * 2 ^ (e2 + 1074))%Z.
    { transitivity (2 ^ 52 * 2 ^ (e2 + 1074))%Z; [|nia].
      rewrite <- Z.pow_add_r by lia. apply Z.pow_le_mono_r; lia. }
    unfold sat. rewrite (proj2 (Z.leb_le _ _)) by done.
    destruct m2 as [|m2|m2]; [lia|split; [done|by destruct s]|lia].
Qed.

Lemma shl_align_key m e f :
  (-1074 <= e)%Z → (-1074 <= f)%Z →
  ∃ m' e', shl_align m e f = (m', e') ∧ (f < e → e' = f)%Z ∧ (e <= f → e' = e)%Z ∧
    (-1074 <= e')%Z ∧
    (Zpos m' * 2 ^ (e' + 1074) = Zpos m * 2 ^ (e + 1074))%Z ∧
    (Zpos (digits2_pos m') + e' = Zpos (digits2_pos m) + e)%Z.
Proof.
  intros He Hf. unfold shl_align. destruct (f - e)%Z as [|p|p] eqn:E.
  - exists m, e. split_and!; try done; lia.
  - exists m, e. split_and!; try done; lia.
  - set (m' := Pos.iter xO m p). exists m', f.
    assert (Hs : Zpos m' = (Zpos m * 2 ^ Zpos p)%Z).
    { unfold m'. rewrite Pos2Nat.inj_iter, <- (positive_nat_Z p).
      induction (Pos.to_nat p) as [|k IH]; [cbn; lia|].
      rewrite Nat2Z.inj_succ, Z.pow_succ_r by lia. change (Zpos (xO (Nat.iter k xO m)) = Zpos m * (2 * 2 ^ Z.of_nat k))%Z.
      rewrite Pos2Z.inj_xO. etransitivity; [apply (f_equal (Z.mul 2)), IH|lia]. }
    assert (Hp : (Zpos m * 2 ^ (e + 1074) = Zpos m' * 2 ^ (f + 1074))%Z).
    { rewrite Hs, <- Z.mul_assoc, <- Z.pow_add_r by lia. do 2 f_equal. lia. }
    split_and!; try done; try lia.
    pose proof (log2_digits m') as H1. pose proof (log2_digits m) as H2.
    rewrite Hs, Z.log2_mul_pow2 in H1 by lia. lia.
Qed.

Lemma binary_round_key s m e :
  (-1074 <= e)%Z →
  binary_round prec emax s m e ≠ S754_nan ∧
  SF_key (binary_round prec emax s m e) =
    SpecFloat.cond_Zopp s (sat (rnd_pos (Zpos m * 2 ^ (e + 1074)))).
Proof.
  intros He. unfold binary_round.
  set (f := fexp prec emax (Zpos (digits2_pos m) + e)).
  assert (-1074 <= f)%Z
    by (unfold f, fexp, SpecFloat.emin; change prec with 53%Z; change emax with 1024%Z; lia).
  destruct (shl_align_key m e f He ltac:(done)) as (m' & e' & -> & H1 & H2 & He' & Hv & Hd).
  rewrite <- Hv. apply binary_round_aux_key; [|done]. rewrite Hd. fold f. lia.
Qed.

Lemma sat_opp z : sat (- z) = (- sat z)%Z.
Proof.
  unfold sat. assert (0 < overflow_key)%Z by done.
  repeat match goal with |- context [(?a <=? ?b)%Z] => destruct (Z.leb_spec a b) end; lia.
Qed.

Lemma binary_normalize_key m e :
  (-1074 <= e)%Z →
  binary_normalize prec emax m e false ≠ S754_nan ∧
  SF_key (binary_normalize prec emax m e false) = sat (rnd (m * 2 ^ (e + 1074))).
Proof.
  intros He. assert (0 < 2 ^ (e + 1074))%Z by (apply Z.pow_pos_nonneg; lia).
  unfold binary_normalize, rnd. destruct m as [|m|m].
  - rewrite Z.mul_0_l. done.
  - destruct (binary_round_key false m e He) as [? ->]. split; [done|].
    destruct (Z.ltb_spec (Zpos m * 2 ^ (e + 1074)) 0); [lia|done].
  - destruct (binary_round_key true m e He) as [? ->]. split; [done|].
    destruct (Z.ltb_spec (Zneg m * 2 ^ (e + 1074)) 0); [|nia].
    rewrite sat_opp. cbn [SpecFloat.cond_Zopp]. do 3 f_equal. lia.
Qed.

Lemma rnd_opp z : rnd (- z) = (- rnd z)%Z.
Proof.
  unfold rnd. destruct (Z.ltb_spec z 0), (Z.ltb_spec (- z) 0); try lia.
  - by rewrite Z.opp_involutive.
  - replace z with 0%Z by lia. done.
Qed.

(** A finite float's own key is representable: [rnd] and [sat] leave it alone. *)
Lemma sat_id z : (- overflow_key < z < overflow_key)%Z → sat z = z.
Proof.
  intros. unfold sat. destruct (Z.leb_spec overflow_key z); [lia|].
  destruct (Z.leb_spec z (- overflow_key)); lia.
Qed.

Lemma rnd_pos_repr m e : bounded prec emax m e = true →
  rnd_pos (Zpos m * 2 ^ (e + 1074)) = (Zpos m * 2 ^ (e + 1074))%Z.
Proof.
  intros (He & Hm & Hn)%bounded_inv.
  unfold rnd_pos, ulp_exp. rewrite Z.log2_mul_pow2 by lia.
  assert (Z.log2 (Zpos m) < 53)%Z by (apply Z.log2_lt_pow2; lia).
  set (k := Z.max 0 (e + 1074 + Z.log2 (Zpos m) - 52)).
  replace (e + 1074)%Z with (e + 1074 - k + k)%Z by lia.
  rewrite Z.pow_add_r, Z.mul_assoc by lia. rewrite rne_exact by lia. done.
Qed.

Lemma bounded_overflow m e : bounded prec emax m e = true →
  (0 < Zpos m * 2 ^ (e + 1074) < overflow_key)%Z.
Proof.
  intros (He & Hm & Hn)%bounded_inv.
  assert (0 < 2 ^ (e + 1074))%Z by (apply Z.pow_pos_nonneg; lia).
  split; [lia|]. apply Z.lt_le_trans with (2 ^ 53 * 2 ^ (e + 1074))%Z; [nia|].
  unfold overflow_key. rewrite <- Z.pow_add_r by lia. apply Z.pow_le_mono_r; lia.
Qed.

Lemma key_repr x : finite x = true → rnd (key x) = key x ∧ (- overflow_key < key x < overflow_key)%Z.
Proof.
  intros Hf. pose proof (Prim2SF_valid x) as V. apply finite_SF in Hf. unfold key.
  assert (0 < overflow_key)%Z by done.
  destruct Hf as [[s ->]|(s & m & e & E)]; [by destruct s|].
  rewrite E in *. cbn in V. cbn [SF_key].
  pose proof (rnd_pos_repr _ _ V) as Hr. pose proof (bounded_overflow _ _ V) as Hb.
  assert (Hp : rnd (Zpos m * 2 ^ (e + 1074)) = (Zpos m * 2 ^ (e + 1074))%Z).
  { unfold rnd. destruct (Z.ltb_spec (Zpos m * 2 ^ (e + 1074)) 0); [lia|done]. }
  destruct s; cbn [SpecFloat.cond_Zopp]; [rewrite rnd_opp, Hp|]; split; try done; lia.
Qed.

(** Addition of finite floats: exact on keys, then rounded, then saturated to an infinity. *)
Lemma SF_key_add x y :
  finite x = true → finite y = true →
  Prim2SF (x + y) ≠ S754_nan ∧ key (x + y) = sat (rnd (key x + key y)).
Proof.
  intros Hx Hy. destruct (key_repr _ Hx) as [Rx Bx], (key_repr _ Hy) as [Ry By].
  pose proof (Prim2SF_valid x) as Vx. pose proof (Prim2SF_valid y) as Vy.
  apply finite_SF in Hx, Hy. unfold key in *. rewrite add_spec. unfold SF64add.
  destruct Hx as [[sx Ex]|(sx & mx & ex & Ex)], Hy as [[sy Ey]|(sy & my & ey & Ey)];
    rewrite Ex, Ey in *; cbn [SFadd].
  - by destruct sx, sy.
  - change (SF_key (S754_zero sx)) with 0%Z. by rewrite Z.add_0_l, Ry, sat_id.
  - change (SF_key (S754_zero sy)) with 0%Z. by rewrite Z.add_0_r, Rx, sat_id.
  - cbn in Vx, Vy. apply bounded_inv in Vx, Vy.
    match goal with |- binary_normalize _ _ ?m ?e false ≠ _ ∧ _ =>
      destruct (binary_normalize_key m e ltac:(lia)) as [Hn ->] end.
    split; [exact Hn|]. clear Hn. do 2 f_equal.
    destruct (shl_align_key mx ex (ex `min` ey)) as (mx' & ex' & -> & ? & ? & _ & Hvx & _); [lia..|].
    destruct (shl_align_key my ey (ex `min` ey)) as (my' & ey' & -> & ? & ? & _ & Hvy & _); [lia..|].
    replace ex' with (ex `min` ey)%Z in * by lia. replace ey' with (ex `min` ey)%Z in * by lia.
    cbn [fst SF_key]. rewrite <- Hvx, <- Hvy. destruct sx, sy; cbn [SpecFloat.cond_Zopp]; lia.
Qed.

Lemma key_add x y :
  finite x = true → finite y = true → key (x + y) = sat (rnd (key x + key y)).
Proof. intros Hx Hy. by apply SF_key_add. Qed.

Lemma add_not_nan x y : finite x = true → finite y = true → IsNaN (x + y) = false.
Proof.
  intros Hx Hy. apply not_true_iff_false. rewrite is_nan_SF. by apply SF_key_add.
Qed.

Lemma SFsub_add x y : Prim2SF (x - y) = Prim2SF (x + (- y)).
Proof.
  rewrite sub_spec, add_spec, opp_spec. unfold SF64sub, SF64add.
  destruct (Prim2SF x) as [[]|[]| |sx mx ex], (Prim2SF y) as [[]|[]| |[] my ey]; try done;
    cbn [SFsub SFadd SFopp negb SpecFloat.cond_Zopp]; f_equal; lia.
Qed.

Lemma sub_add_opp x y : (x - y)%float = (x + (- y))%float.
Proof. apply Prim2SF_inj, SFsub_add. Qed.

Lemma finite_opp x : finite (- x) = finite x.
Proof.
  apply eq_true_iff_eq. rewrite !finite_SF, opp_spec.
  destruct (Prim2SF x); cbn; naive_solver.
Qed.

Lemma key_sub x y :
  finite x = true → finite y = true → key (x - y) = sat (rnd (key x - key y)).
Proof.
  intros Hx Hy. rewrite sub_add_opp, key_add by (rewrite ?finite_opp; done).
  by rewrite key_opp.
Qed.

Lemma rnd_pos_nonneg z : (0 <= z)%Z → (0 <= rnd_pos z)%Z.
Proof.
  intros. unfold rnd_pos, ulp_exp.
  apply Z.mul_nonneg_nonneg; [|apply Z.pow_nonneg; lia].
  apply rne_bound_below; lia.
Qed.

(** Powers of two are fixed points, which bridges the binades. *)
Lemma rnd_pos_pow2 a : (0 <= a)%Z → rnd_pos (2 ^ a) = (2 ^ a)%Z.
Proof.
  intros. unfold rnd_pos, ulp_exp. rewrite Z.log2_pow2 by done.
  set (k := Z.max 0 (a - 52)). replace a with (a - k + k)%Z at 1 by lia.
  rewrite Z.pow_add_r, rne_exact, <- Z.pow_add_r by lia. f_equal. lia.
Qed.

Lemma rnd_pos_upper z a : (0 < z)%Z → (z <= 2 ^ a)%Z → (0 <= a)%Z → (rnd_pos z <= 2 ^ a)%Z.
Proof.
  intros Hz Ha H0. unfold rnd_pos.
  assert (Hk : (0 <= ulp_exp z <= a)%Z).
  { unfold ulp_exp. pose proof (Z.log2_le_mono _ _ Ha) as H. rewrite Z.log2_pow2 in H by done. lia. }
  replace a with (a - ulp_exp z + ulp_exp z)%Z in Ha |- * at 1 by lia.
  rewrite Z.pow_add_r in Ha |- * by lia.
  apply Z.mul_le_mono_nonneg_r; [apply Z.pow_nonneg; lia|].
  apply rne_bound; lia.
Qed.

Lemma rnd_pos_lower z a : (0 < z)%Z → (a = Z.log2 z) → (2 ^ a <= rnd_pos z)%Z.
Proof.
  intros Hz ->. pose proof (Z.log2_spec z Hz) as [Hlo _]. unfold rnd_pos.
  pose proof (Z.log2_nonneg z).
  assert (Hk : (0 <= ulp_exp z <= Z.log2 z)%Z) by (unfold ulp_exp; lia).
  replace (Z.log2 z) with (Z.log2 z - ulp_exp z + ulp_exp z)%Z in Hlo |- * at 1 by lia.
  rewrite Z.pow_add_r in Hlo |- * by lia.
  apply Z.mul_le_mono_nonneg_r; [apply Z.pow_nonneg; lia|].
  apply rne_bound_below; lia.
Qed.

Lemma rnd_pos_mono a b : (0 <= a)%Z → (a <= b)%Z → (rnd_pos a <= rnd_pos b)%Z.
Proof.
  intros Ha Hab. destruct (decide (a = 0)%Z) as [->|]; [apply rnd_pos_nonneg; lia|].
  pose proof (Z.log2_le_mono _ _ Hab). pose proof (Z.log2_nonneg a).
  destruct (decide (Z.log2 a = Z.log2 b)) as [E|].
  - unfold rnd_pos. replace (ulp_exp b) with (ulp_exp a) by (unfold ulp_exp; lia).
    apply Z.mul_le_mono_nonneg_r; [apply Z.pow_nonneg; unfold ulp_exp; lia|].
    apply rne_mono; [unfold ulp_exp; lia|done].
  - transitivity (2 ^ (Z.log2 a + 1))%Z.
    + apply rnd_pos_upper; [lia| |lia]. pose proof (Z.log2_spec a ltac:(lia)).
      replace (Z.log2 a + 1)%Z with (Z.succ (Z.log2 a)) by lia. lia.
    + transitivity (2 ^ Z.log2 b)%Z; [apply Z.pow_le_mono_r; lia|].
      apply rnd_pos_lower; [lia|done].
Qed.

Lemma rnd_mono a b : (a <= b)%Z → (rnd a <= rnd b)%Z.
Proof.
  intros Hab. unfold rnd.
  destruct (Z.ltb_spec a 0), (Z.ltb_spec b 0); try lia.
  - assert (rnd_pos (- b) <= rnd_pos (- a))%Z by (apply rnd_pos_mono; lia). lia.
  - pose proof (rnd_pos_nonneg (- a) ltac:(lia)). pose proof (rnd_pos_nonneg b ltac:(lia)). lia.
  - apply rnd_pos_mono; lia.
Qed.

Lemma sat_mono a b : (a <= b)%Z → (sat a <= sat b)%Z.
Proof.
  intros. unfold sat. assert (overflow_key < key_inf)%Z by done. assert (0 < overflow_key)%Z by done.
  repeat match goal with |- context [(?a <=? ?b)%Z] => destruct (Z.leb_spec a b) end; lia.
Qed.

Lemma rnd_0 : rnd 0 = 0%Z.
Proof. reflexivity. Qed.

Lemma rnd_pos_iff z : (0 < rnd z)%Z ↔ (0 < z)%Z.
Proof.
  split; intros H.
  - destruct (decide (0 < z)%Z); [done|].
    assert (rnd z <= rnd 0)%Z by (apply rnd_mono; lia). rewrite rnd_0 in *. lia.
  - assert (rnd 1 <= rnd z)%Z by (apply rnd_mono; lia). change (rnd 1) with 1%Z in *. lia.
Qed.

Lemma sat_sign z : (0 < sat z)%Z ↔ (0 < z)%Z.
Proof.
  unfold sat. assert (0 < overflow_key < key_inf)%Z by done.
  repeat match goal with |- context [(?a <=? ?b)%Z] => destruct (Z.leb_spec a b) end; lia.
Qed.

(** ** What clients use: signs and monotonicity of float arithmetic *)

Lemma sub_not_nan x y : finite x = true → finite y = true → IsNaN (x - y) = false.
Proof. intros. rewrite sub_add_opp. apply add_not_nan; by rewrite ?finite_opp. Qed.

(** Subtraction is sign-exact (gradual underflow). *)
Lemma sub_pos_iff x y : finite x = true → finite y = true → (0 < key (x - y) ↔ key y < key x)%Z.
Proof. intros. rewrite key_sub, sat_sign, rnd_pos_iff by done. lia. Qed.

Lemma key_sub_opp x y :
  finite x = true → finite y = true → key (y - x) = (- key (x - y))%Z.
Proof.
  intros. rewrite !key_sub, <- sat_opp, <- rnd_opp by done. do 2 f_equal. lia.
Qed.

Lemma sub_neg_iff x y : finite x = true → finite y = true → (key (x - y) < 0 ↔ key x < key y)%Z.
Proof. intros. rewrite <- sub_pos_iff, (key_sub_opp x y) by done. lia. Qed.

Lemma add_mono x x' y y' :
  finite x = true → finite x' = true → finite y = true → finite y' = true →
  (key x <= key x')%Z → (key y <= key y')%Z → (key (x + y) <= key (x' + y'))%Z.
Proof. intros. rewrite !key_add by done. apply sat_mono, rnd_mono. lia. Qed.

Lemma sub_mono x x' y y' :
  finite x = true → finite x' = true → finite y = true → finite y' = true →
  (key x <= key x')%Z → (key y' <= key y)%Z → (key (x - y) <= key (x' - y'))%Z.
Proof. intros. rewrite !key_sub by done. apply sat_mono, rnd_mono. lia. Qed.

Lemma add_nonneg_r x y :
  finite x = true → finite y = true → (0 <= key y)%Z → (key x <= key (x + y))%Z.
Proof.
  intros Hx Hy Hk. destruct (key_repr x Hx) as [Hr Hb].
  rewrite key_add by done. rewrite <- (sat_id (key x)) at 1 by done. rewrite <- Hr at 1.
  apply sat_mono, rnd_mono. lia.
Qed.

Lemma sub_nonneg_r x y :
  finite x = true → finite y = true → (0 <= key y)%Z → (key (x - y) <= key x)%Z.
Proof.
  intros Hx Hy Hk. destruct (key_repr x Hx) as [Hr Hb].
  rewrite key_sub by done. rewrite <- (sat_id (key x)) at 2 by done. rewrite <- Hr at 2.
  apply sat_mono, rnd_mono. lia.
Qed.

(** A width measured larger than [m] leaves room for [m], exactly. *)
Lemma room_exact h l m :
  finite h = true → finite l = true → finite m = true → (key m < key (h - l))%Z → (key l + key m <= key h)%Z.
Proof.
  intros Hh Hl Hm Hk. destruct (Z.le_gt_cases (key l + key m) (key h)); [done|]. exfalso. destruct (key_repr m Hm) as [Hr Hb]. rewrite key_sub in Hk by done. assert (Hc : (sat (rnd (key h - key l)) <= sat (rnd (key m)))%Z) by (apply sat_mono, rnd_mono; lia).
  rewrite Hr, (sat_id (key m)) in Hc by done. lia.
Qed.
Lemma add_under l m h : finite l = true → finite m = true → finite h = true → (key l + key m <= key h)%Z → (key (l + m) <= key h)%Z.
Proof.
  intros Hl Hm Hh Hk. destruct (key_repr h Hh) as [Hr Hb]. rewrite key_add by done. rewrite <- (sat_id (key h)), <- Hr by done. apply sat_mono, rnd_mono. lia.
Qed.
Lemma sub_over l m h : finite l = true → finite m = true → finite h = true → (key l + key m <= key h)%Z → (key l <= key (h - m))%Z.
Proof.
  intros Hl Hm Hh Hk. destruct (key_repr l Hl) as [Hr Hb]. rewrite key_sub by done. rewrite <- (sat_id (key l)), <- Hr by done. apply sat_mono, rnd_mono. lia.
Qed.
(** A result between two finite numbers is finite. *)
Lemma finite_between x y z : finite x = true → finite y = true → IsNaN z = false → (key x <= key z <= key y)%Z → finite z = true.
Proof. intros Hx Hy Hn Hk. apply finite_key in Hx, Hy. apply finite_key. split; [done|lia]. Qed.

Example floor_example : map math_Floor [2.5; -2.5; -0.5; 7; 1e300]%float = [2; -3; -1; 7; 1e300]%float.
Proof. vm_compute. reflexivity. Qed.
Example round_example : map math_Round [2.5; -2.5; 0.49999999999999994; 1.5]%float = [3; -3; 0; 2]%float.
Proof. vm_compute. reflexivity. Qed.
Example ceil_example : map math_Ceil [2.1; -0.5; 4132.61]%float = [3; -0; 4133]%float.
Proof. vm_compute. reflexivity. Qed.
Example of_Z_example : map f64_of_Z [0; -3; 9007199254740993]%Z = [0; -3; 9007199254740992]%float.
Proof. vm_compute. reflexivity. Qed.

(** [math.Max] and [math.Min] on finite floats order as they should. *)
Lemma math_Max_spec x y :
  finite x = true → finite y = true →
  IsNaN (math_Max x y) = false ∧ key (math_Max x y) = Z.max (key x) (key y).
Proof.
  intros Hx Hy. pose proof Hx as [Nx Kx]%finite_key. pose proof Hy as [Ny Ky]%finite_key.
  unfold math_Max. rewrite Nx, Ny.
  assert (E : ∀ z, finite z = true → (z =? infinity)%float = false).
  { intros z [Nz Kz]%finite_key. rewrite eqb_key. change (key infinity) with key_inf. lia. }
  rewrite !E by done. cbn [orb].
  rewrite !eqb_key, !ltb_key, Nx, Ny. change (IsNaN 0) with false. change (key 0) with 0%Z.
  cbn [negb andb].
  destruct (Z.eqb_spec (key x) 0); cbn [andb].
  - destruct (Z.eqb_spec (key x) (key y)).
    + destruct (Signbit x); split; try done; lia.
    + destruct (Z.ltb_spec (key y) (key x)); split; try done; lia.
  - destruct (Z.ltb_spec (key y) (key x)); split; try done; lia.
Qed.

Lemma math_Min_spec x y :
  finite x = true → finite y = true →
  IsNaN (math_Min x y) = false ∧ key (math_Min x y) = Z.min (key x) (key y).
Proof.
  intros Hx Hy. pose proof Hx as [Nx Kx]%finite_key. pose proof Hy as [Ny Ky]%finite_key.
  unfold math_Min. rewrite Nx, Ny.
  assert (E : ∀ z, finite z = true → (z =? neg_infinity)%float = false).
  { intros z [Nz Kz]%finite_key. rewrite eqb_key.
    change (key neg_infinity) with (- key_inf)%Z. lia. }
  rewrite !E by done. cbn [orb].
  rewrite !eqb_key, !ltb_key, Nx, Ny. change (IsNaN 0) with false. change (key 0) with 0%Z.
  cbn [negb andb].
  destruct (Z.eqb_spec (key x) 0); cbn [andb].
  - destruct (Z.eqb_spec (key x) (key y)).
    + destruct (Signbit x); split; try done; lia.
    + destruct (Z.ltb_spec (key x) (key y)); split; try done; lia.
  - destruct (Z.ltb_spec (key x) (key y)); split; try done; lia.
Qed.

Lemma key_range x : (- key_inf <= key x <= key_inf)%Z.
Proof.
  destruct (finite x) eqn:F; [apply finite_key in F; lia|].
  pose proof (finite_SF x) as H. pose proof (eq_refl : (0 < key_inf)%Z). unfold key.
  destruct (Prim2SF x) as [s|s| |s m e]; cbn [SF_key]; try lia; [destruct s; cbn; lia|].
  exfalso. destruct H as [_ H]. rewrite H in F; [done|]. eauto.
Qed.
Lemma math_Min_le_l x y : IsNaN x = false → IsNaN (math_Min x y) = true ∨ (math_Min x y <=? x)%float = true.
Proof.
  intros Nx. destruct (IsNaN (math_Min x y)) eqn:N; [by left|right]. revert N. unfold math_Min. rewrite Nx.
  destruct ((x =? neg_infinity)%float || (y =? neg_infinity)%float).
  { intros _. rewrite leb_num by done. pose proof (key_range x). change (key neg_infinity) with (- key_inf)%Z. lia. }
  destruct (IsNaN y) eqn:Ny; [done|]. cbn [orb]. intros _. split_ifs; bools; float_lia.
Qed.
Lemma math_Max_finite x y : finite x = true → finite y = true → finite (math_Max x y) = true.
Proof.
  intros Hx Hy. destruct (math_Max_spec x y Hx Hy) as [N K]. apply finite_key in Hx, Hy. apply finite_key. split; [done|lia].
Qed.
Lemma math_Min_finite x y : finite x = true → finite y = true → finite (math_Min x y) = true.
Proof.
  intros Hx Hy. destruct (math_Min_spec x y Hx Hy) as [N K]. apply finite_key in Hx, Hy. apply finite_key. split; [done|lia].
Qed.
Lemma math_Max_key x y : finite x = true → finite y = true → key (math_Max x y) = Z.max (key x) (key y).
Proof. intros Hx Hy. by apply math_Max_spec. Qed.
Lemma math_Min_key x y : finite x = true → finite y = true → key (math_Min x y) = Z.min (key x) (key y).
Proof. intros Hx Hy. by apply math_Min_spec. Qed.
#[export] Hint Resolve math_Max_finite math_Min_finite : float.

(** A finite difference has finite operands. *)
Lemma sub_finite x y : finite (x - y) = true → finite x = true ∧ finite y = true.
Proof.
  rewrite !finite_SF, sub_spec. unfold SF64sub.
  destruct (Prim2SF x) as [[]|[]| |[] mx ex], (Prim2SF y) as [[]|[]| |[] my ey]; cbn [SFsub]; intros H;
    try (split; eauto; fail); exfalso; by destruct H as [[? ?]|(? & ? & ? & ?)].
Qed.
Lemma ltb_nums x y : (x <? y)%float = true → IsNaN x = false ∧ IsNaN y = false ∧ (key x < key y)%Z.
Proof. rewrite ltb_key. intros H. bools. split_and!; try done. by apply Z.ltb_lt. Qed.
Lemma sub_pos_key x y : finite x = true → (x - y >? 0)%float = true → (key y < key x)%Z.
Proof.
  intros Fx H. apply ltb_nums in H as (_ & Hn & H). change (key 0) with 0%Z in H. destruct (finite y) eqn:Fy; [by apply sub_pos_iff|].
  assert (Hy : Prim2SF y = S754_nan ∨ ∃ b, Prim2SF y = S754_infinity b).
  { destruct (Prim2SF y) as [b|b| |b m e] eqn:E; [|by right; exists b|by left|]; exfalso; assert (finite y = true); [|congruence| |congruence]; apply finite_SF; [left; by exists b|right; by exists b, m, e]. }
  assert (Hx : (∃ b, Prim2SF x = S754_zero b) ∨ ∃ b m e, Prim2SF x = S754_finite b m e) by by apply finite_SF.
  apply finite_key in Fx as [_ Fx]. destruct Hy as [Hy|[b Hy]].
  - assert (IsNaN (x - y) = true); [|congruence]. apply is_nan_SF. rewrite sub_spec, Hy. by destruct (Prim2SF x).
  - assert (Ek : key (x - y) = key (- y)) by (unfold key; rewrite sub_spec, opp_spec, Hy; destruct Hx as [[b' ->]|(b' & m & e & ->)]; done).
    rewrite Ek, key_opp in H. unfold key in *. rewrite Hy in *. cbn in *. destruct b; cbn in *; [lia|]. pose proof (eq_refl : (0 < key_inf)%Z). lia.
Qed.
(** A difference above zero orders its operands, whatever they are. *)
Lemma sub_pos_lt x y : (x - y >? 0)%float = true → (key y < key x)%Z.
Proof.
  intros H. destruct (finite x) eqn:Fx; [by apply sub_pos_key|]. apply ltb_nums in H as (_ & Hn & H). change (key 0) with 0%Z in H.
  pose proof (finite_SF x) as Hx. rewrite Fx in Hx. unfold key in *. rewrite sub_spec in H. assert (Hn' : Prim2SF (x - y) ≠ S754_nan) by (intros E; apply is_nan_SF in E; congruence).
  rewrite sub_spec in Hn'. pose proof (key_range y) as Hy. unfold key in Hy. pose proof (eq_refl : (0 < key_inf)%Z) as Hk.
  destruct (Prim2SF x) as [b|b| |b m e]; [by destruct Hx as [_ Hx]; discriminate Hx; left; exists b| |done|by destruct Hx as [_ Hx]; discriminate Hx; right; exists b, m, e].
  destruct b; destruct (Prim2SF y) as [b'|b'| |b' m' e'] eqn:Ey; cbn [SF64sub SFsub SF_key] in *; try lia; try done.
  - by destruct b'; cbn in *; try lia.
  - destruct b'; cbn in *; [lia|done].
  - assert (Fy : finite y = true) by (apply finite_SF; right; by exists b', m', e'). apply finite_key in Fy as [_ Fy]. unfold key in Fy. rewrite Ey in Fy. cbn in *. lia.
Qed.
(** NaN is contagious. *)
Lemma mul_nan_l x y : IsNaN x = true → IsNaN (x * y) = true.
Proof. rewrite !is_nan_SF, mul_spec. intros ->. by destruct (Prim2SF y). Qed.
Lemma add_nan_r x y : IsNaN y = true → IsNaN (x + y) = true.
Proof. rewrite !is_nan_SF, add_spec. intros ->. by destruct (Prim2SF x). Qed.
Lemma sub_nan_r x y : IsNaN y = true → IsNaN (x - y) = true.
Proof. intros H. rewrite sub_add_opp. apply add_nan_r. by rewrite IsNaN_opp. Qed.
