(* ===== verification/Market.v ===== *)
(** Package market: candles, directions, prices, timeframes, instrument geometry, and the
    bounded candle window as a ring buffer that refines a bounded queue. *)
From S2P Require Import Prelude Float64.
From Stdlib Require Import Floats.

(** * candle.go *)

Record Candle := mkCandle {
  c_Time : Z; c_Open : float; c_High : float; c_Low : float; c_Close : float; c_Volume : float
}.
Definition zero_Candle : Candle := mkCandle 0 0 0 0 0 0.
#[export] Instance Candle_inhabited : Inhabited Candle := populate zero_Candle.

(** Go's [==] on the struct: integers by value, floats by IEEE equality. *)
Definition Candle_eqb (a b : Candle) : bool :=
  (c_Time a =? c_Time b)%Z && (c_Open a =? c_Open b)%float && (c_High a =? c_High b)%float &&
  (c_Low a =? c_Low b)%float && (c_Close a =? c_Close b)%float && (c_Volume a =? c_Volume b)%float.

Definition IsBullish (c : Candle) : bool := (c_Close c >? c_Open c)%float.
Definition IsBearish (c : Candle) : bool := (c_Close c <? c_Open c)%float.
Definition Range (c : Candle) : float := (c_High c - c_Low c)%float.
Definition Body (c : Candle) : float :=
  let d := (c_Close c - c_Open c)%float in if (d <? 0)%float then (- d)%float else d.
Definition maxPrice (a b : float) : float := if (a >? b)%float then a else b.
Definition minPrice (a b : float) : float := if (a <? b)%float then a else b.
Definition BodyRatio (c : Candle) : float :=
  let r := Range c in if (r >? 0)%float then (Body c / r)%float else 0%float.
Definition CloseLocation (c : Candle) : float :=
  let r := Range c in if (r >? 0)%float then ((c_Close c - c_Low c) / r)%float else 0%float.
Definition UpperWickRatio (c : Candle) : float :=
  let r := Range c in
  if (r >? 0)%float then ((c_High c - maxPrice (c_Open c) (c_Close c)) / r)%float else 0%float.
Definition LowerWickRatio (c : Candle) : float :=
  let r := Range c in
  if (r >? 0)%float then ((minPrice (c_Open c) (c_Close c) - c_Low c) / r)%float else 0%float.

(** * direction.go: a string type; only the two constants are valid *)

Definition Buy : string := "BUY".
Definition Sell : string := "SELL".
Definition Opposite (d : string) : string :=
  if bool_decide (d = Buy) then Sell else if bool_decide (d = Sell) then Buy else d.
Definition Direction_IsValid (d : string) : bool := bool_decide (d = Buy) || bool_decide (d = Sell).

(** * price.go *)

Definition Price_IsFinite (p : float) : bool := negb (IsNaN p) && negb (IsInf p).
Definition Price_Sub (p other : float) : float := (p - other)%float.
Definition Price_Distance (p other : float) : float :=
  let d := (p - other)%float in if (d <? 0)%float then (- d)%float else d.

Record PriceLevel := mkPriceLevel { pl_Price : float; pl_Label : string }.

(** * series.go *)

Definition candle_consistent (c : Candle) : bool :=
  forallb (λ v, negb (IsNaN v || IsInf v)) [c_Open c; c_High c; c_Low c; c_Close c] &&
  negb ((c_High c <? c_Low c)%float || (c_High c <? math_Max (c_Open c) (c_Close c))%float ||
        (c_Low c >? math_Min (c_Open c) (c_Close c))%float).
(** [prev] is the time of [bars[i-1]], absent for the first bar. *)
Fixpoint ValidSeries_from (prev : option Z) (bars : list Candle) : bool :=
  match bars with
  | [] => true
  | c :: rest =>
      candle_consistent c &&
      negb (match prev with Some t => (c_Time c <=? t)%Z | None => false end) &&
      ValidSeries_from (Some (c_Time c)) rest
  end.
Definition ValidSeries (bars : list Candle) : bool := ValidSeries_from None bars.

Definition Mirror_candle (c : Candle) : Candle :=
  mkCandle (c_Time c) (- c_Open c) (- c_Low c) (- c_High c) (- c_Close c) (c_Volume c).
Definition Mirror (bars : list Candle) : list Candle := map Mirror_candle bars.

(** * timeframe.go *)

Definition tf_M1 : string := "M1".
Definition tf_M3 : string := "M3".
Definition tf_M5 : string := "M5".
Definition tf_M15 : string := "M15".
Definition tf_M30 : string := "M30".
Definition tf_H1 : string := "H1".
Definition tf_H4 : string := "H4".
Definition tf_D1 : string := "D1".

Definition minutesByTimeframe : gmap string Z :=
  list_to_map [(tf_M1, 1); (tf_M3, 3); (tf_M5, 5); (tf_M15, 15); (tf_M30, 30); (tf_H1, 60); (tf_H4, 240); (tf_D1, 1440)]%Z.
Definition Minutes (tf : string) : option Z := minutesByTimeframe !! tf.
Definition ParseTimeframe (raw : string) : result string :=
  match minutesByTimeframe !! raw with
  | None => Err "market: unrecognized timeframe"
  | Some _ => Ok raw
  end.

(** * symbol.go: instrument geometry *)

Record Geometry := mkGeometry {
  g_Symbol : string; g_BrokerSymbol : string; g_PipSize : float; g_PriceDigits : Z
}.
Definition NewGeometry (symbol brokerSymbol : string) (pipSize : float) (priceDigits : Z) :
    result Geometry :=
  if bool_decide (symbol = "") then Err "market: geometry requires a symbol"
  else if (pipSize <=? 0)%float then Err "market: non-positive pip size"
  else if (priceDigits <? 0)%Z then Err "market: negative price digits"
  else Ok (mkGeometry symbol brokerSymbol pipSize priceDigits).

(** [scale := 1.0; for i := 0; i < PriceDigits; i++ { scale *= 10 }] *)
Fixpoint mul10 (n : nat) (scale : float) : float :=
  match n with O => scale | S n => mul10 n (scale * 10)%float end.
Definition tickScale (g : Geometry) : float := mul10 (Z.to_nat (g_PriceDigits g)) 1.
Definition normalizeScaled (scaled : float) : float :=
  let nearest := math_Round scaled in
  if (abs (scaled - nearest) <? 1e-9)%float then nearest else scaled.
Definition FloorToTick (g : Geometry) (price : float) : float :=
  let scale := tickScale g in (math_Floor (normalizeScaled (price * scale)) / scale)%float.
Definition CeilToTick (g : Geometry) (price : float) : float :=
  let scale := tickScale g in (math_Ceil (normalizeScaled (price * scale)) / scale)%float.
Definition roundHalfAwayFromZero (v : float) : float :=
  if (v >=? 0)%float then f64_of_Z (f64_to_int64 (v + 0.5)%float)
  else f64_of_Z (f64_to_int64 (v - 0.5)%float).
Definition RoundToTick (g : Geometry) (price : float) : float :=
  let scale := mul10 (Z.to_nat (g_PriceDigits g)) 1 in
  (roundHalfAwayFromZero (price * scale) / scale)%float.
Definition PipsBetween (g : Geometry) (a b : float) : float :=
  let d := (a - b)%float in
  let d := if (d <? 0)%float then (- d)%float else d in
  (d / g_PipSize g)%float.

(** * window.go: the ring buffer. [None] where the Go method panics. *)

Record CandleWindow := mkWindow { w_buf : list Candle; w_capacity : nat; w_start : nat; w_size : nat }.

Definition NewCandleWindow (capacity : Z) : option CandleWindow :=
  if (capacity <=? 0)%Z then None
  else Some (mkWindow (replicate (Z.to_nat capacity) zero_Candle) (Z.to_nat capacity) 0 0).

Definition Push (w : CandleWindow) (c : Candle) : CandleWindow :=
  let idx := (w_start w + w_size w) mod w_capacity w in
  let buf := <[idx := c]> (w_buf w) in
  if w_size w <? w_capacity w then mkWindow buf (w_capacity w) (w_start w) (S (w_size w))
  else mkWindow buf (w_capacity w) ((w_start w + 1) mod w_capacity w) (w_size w).

Definition Len (w : CandleWindow) : nat := w_size w.

Definition At (w : CandleWindow) (i : Z) : option Candle :=
  if (i <? 0)%Z || (Z.of_nat (w_size w) <=? i)%Z then None
  else w_buf w !! ((w_start w + Z.to_nat i) mod w_capacity w).

Definition Last (w : CandleWindow) : option Candle := At w (Z.of_nat (w_size w) - 1).

Definition ReplaceLast (w : CandleWindow) (c : Candle) : option CandleWindow :=
  if w_size w =? 0 then None
  else Some (mkWindow (<[(w_start w + w_size w - 1) mod w_capacity w := c]> (w_buf w))
               (w_capacity w) (w_start w) (w_size w)).

Definition Snapshot (w : CandleWindow) : list Candle :=
  map (λ i, w_buf w !!! ((w_start w + i) mod w_capacity w)) (seq 0 (w_size w)).

(** The representation invariant every reachable window satisfies. *)
Record window_wf (w : CandleWindow) : Prop := {
  wf_buf : length (w_buf w) = w_capacity w;
  wf_cap : 0 < w_capacity w;
  wf_start : w_start w < w_capacity w;
  wf_size : w_size w <= w_capacity w;
}.

(** * Lemmas: the ring buffer refines a queue bounded by [capacity] *)

Lemma ring_idx start i cap :
  start < cap → i <= cap →
  (start + i) mod cap = if decide (start + i < cap) then start + i else start + i - cap.
Proof.
  intros. case_decide; [apply Nat.mod_small; lia|].
  replace (start + i) with (start + i - cap + 1 * cap) at 1 by lia.
  rewrite Nat.Div0.mod_add. apply Nat.mod_small. lia.
Qed.

Lemma length_Snapshot w : length (Snapshot w) = w_size w.
Proof. unfold Snapshot. by rewrite length_map, length_seq. Qed.

Lemma lookup_Snapshot w i :
  window_wf w →
  Snapshot w !! i =
    if decide (i < w_size w) then w_buf w !! ((w_start w + i) mod w_capacity w) else None.
Proof.
  intros [Hb Hc Hs Hz]. unfold Snapshot. case_decide.
  - rewrite list_lookup_fmap, lookup_seq_lt by done. cbn.
    symmetry. apply list_lookup_lookup_total_lt. rewrite Hb. apply Nat.mod_upper_bound. lia.
  - apply lookup_ge_None. rewrite length_map, length_seq. lia.
Qed.

Lemma NewCandleWindow_wf cap w : NewCandleWindow cap = Some w → window_wf w ∧ Snapshot w = [].
Proof.
  unfold NewCandleWindow. destruct (Z.leb_spec cap 0); [done|]. intros [= <-].
  split; [|done]. constructor; cbn; rewrite ?length_replicate; lia.
Qed.

Lemma Push_wf w c : window_wf w → window_wf (Push w c).
Proof.
  intros [Hb Hc Hs Hz]. unfold Push.
  destruct (Nat.ltb_spec (w_size w) (w_capacity w)); constructor; cbn;
    rewrite ?length_insert; try lia. apply Nat.mod_upper_bound. lia.
Qed.

Lemma Push_size w c : window_wf w → w_size (Push w c) = Nat.min (S (w_size w)) (w_capacity w).
Proof. intros [Hb Hc Hs Hz]. unfold Push. destruct (Nat.ltb_spec (w_size w) (w_capacity w)); cbn -[Nat.min]; [rewrite Nat.min_l by lia; lia | rewrite Nat.min_r by lia; lia]. Qed.

Lemma Push_capacity w c : w_capacity (Push w c) = w_capacity w.
Proof. unfold Push. by destruct (_ <? _). Qed.

(** Pushing appends, and drops the oldest candle of a full window. *)
Lemma Snapshot_Push w c :
  window_wf w →
  Snapshot (Push w c) = drop (S (w_size w) - w_capacity w) (Snapshot w ++ [c]).
Proof.
  intros Hwf. pose proof (Push_wf w c Hwf) as Hwf'. pose proof Hwf as [Hb Hc Hs Hz].
  apply list_eq. intros i.
  rewrite (lookup_Snapshot _ _ Hwf'), Push_size, Push_capacity, lookup_drop by done.
  unfold Push. set (n := w_size w) in *. set (cap := w_capacity w) in *. set (st := w_start w) in *.
  destruct (Nat.ltb_spec n cap) as [Hlt|Hge]; cbn [w_buf w_start w_size].
  - replace (S n - cap) with 0 by lia. cbn [Nat.add]. case_decide as Hi.
    + destruct (decide (i = n)) as [->|Hne].
      * rewrite list_lookup_insert_eq by (rewrite Hb; apply Nat.mod_upper_bound; lia).
        rewrite lookup_app_r by (rewrite length_Snapshot; done).
        by rewrite length_Snapshot, Nat.sub_diag.
      * rewrite lookup_app_l by (rewrite length_Snapshot; lia).
        rewrite lookup_Snapshot by done. fold n cap st. rewrite decide_True by lia.
        apply list_lookup_insert_ne. rewrite !ring_idx by lia. repeat case_decide; lia.
    + symmetry. apply lookup_ge_None. rewrite length_app, length_Snapshot. cbn. fold n. lia.
  - assert (n = cap) by lia. replace (S n - cap) with 1 by lia.
    case_decide as Hi.
    + assert (Hidx : ((st + 1) mod cap + i) mod cap = (st + (1 + i)) mod cap).
      { rewrite Nat.Div0.add_mod_idemp_l. f_equal. lia. }
      rewrite Hidx. destruct (decide (1 + i = n)) as [E|Hne].
      * rewrite lookup_app_r by (rewrite length_Snapshot; fold n; lia).
        rewrite length_Snapshot. fold n. rewrite E, Nat.sub_diag.
        rewrite list_lookup_insert_eq by (rewrite Hb; apply Nat.mod_upper_bound; lia). done.
      * rewrite lookup_app_l by (rewrite length_Snapshot; fold n; lia).
        rewrite lookup_Snapshot by done. fold n cap st. rewrite decide_True by lia.
        apply list_lookup_insert_ne. rewrite !ring_idx by lia. repeat case_decide; lia.
    + symmetry. apply lookup_ge_None. rewrite length_app, length_Snapshot. cbn. fold n. lia.
Qed.

Lemma At_Snapshot w i : window_wf w → At w i = if (i <? 0)%Z then None else Snapshot w !! Z.to_nat i.
Proof.
  intros Hwf. unfold At. destruct (Z.ltb_spec i 0); [done|]. cbn [orb].
  rewrite lookup_Snapshot by done.
  destruct (Z.leb_spec (Z.of_nat (w_size w)) i); case_decide; try done; lia.
Qed.

Lemma Last_Snapshot w : window_wf w → Last w = last (Snapshot w).
Proof.
  intros Hwf. unfold Last. rewrite At_Snapshot, last_lookup, length_Snapshot by done.
  destruct (Z.ltb_spec (Z.of_nat (w_size w) - 1) 0).
  - symmetry. apply lookup_ge_None. rewrite length_Snapshot. lia.
  - f_equal. lia.
Qed.

Lemma Snapshot_ReplaceLast w c w' :
  window_wf w → ReplaceLast w c = Some w' →
  window_wf w' ∧ Snapshot w' = take (w_size w - 1) (Snapshot w) ++ [c].
Proof.
  intros Hwf. pose proof Hwf as [Hb Hc Hs Hz]. unfold ReplaceLast.
  destruct (Nat.eqb_spec (w_size w) 0) as [|Hn]; [done|]. intros [= <-].
  assert (Hwf' : window_wf (mkWindow (<[(w_start w + w_size w - 1) mod w_capacity w := c]> (w_buf w))
               (w_capacity w) (w_start w) (w_size w))).
  { constructor; cbn; rewrite ?length_insert; lia. }
  split; [done|]. apply list_eq. intros i. rewrite (lookup_Snapshot _ _ Hwf'). cbn [w_size w_buf w_start w_capacity].
  replace (w_start w + w_size w - 1) with (w_start w + (w_size w - 1)) by lia.
  assert (Ht : length (take (w_size w - 1) (Snapshot w)) = w_size w - 1)
    by (rewrite length_take, length_Snapshot; lia).
  case_decide as Hi.
  - destruct (decide (i = w_size w - 1)) as [->|].
    + rewrite lookup_app_r, Ht, Nat.sub_diag by lia.
      rewrite list_lookup_insert_eq by (rewrite Hb; apply Nat.mod_upper_bound; lia). done.
    + rewrite lookup_app_l by lia. rewrite lookup_take_lt, lookup_Snapshot by (done || lia).
      rewrite decide_True by lia.
      apply list_lookup_insert_ne. rewrite !ring_idx by lia. repeat case_decide; lia.
  - symmetry. apply lookup_ge_None. rewrite length_app, Ht. cbn. lia.
Qed.

Lemma Snapshot_last_size w c w' :
  window_wf w → ReplaceLast w c = Some w' → w_size w' = w_size w ∧ w_capacity w' = w_capacity w.
Proof. unfold ReplaceLast. destruct (_ =? 0); naive_solver. Qed.

Lemma foldl_Push cs w :
  window_wf w → length (Snapshot w) <= w_capacity w →
  window_wf (foldl Push w cs) ∧ w_capacity (foldl Push w cs) = w_capacity w ∧
  Snapshot (foldl Push w cs) =
    drop (length (Snapshot w ++ cs) - w_capacity w) (Snapshot w ++ cs).
Proof.
  revert w. induction cs as [|c cs IH]; intros w Hwf Hlen; cbn [foldl].
  - rewrite app_nil_r. replace (_ - _) with 0 by lia. done.
  - pose proof (Push_wf w c Hwf) as Hwf'.
    assert (Hs : Snapshot (Push w c) = drop (S (w_size w) - w_capacity w) (Snapshot w ++ [c]))
      by by apply Snapshot_Push.
    destruct (IH (Push w c)) as (H1 & H2 & H3); [done| |].
    { rewrite length_Snapshot. apply Hwf'. }
    rewrite Push_capacity in *. split_and!; [done..|]. rewrite H3, Hs.
    rewrite length_Snapshot in Hlen.
    rewrite <- drop_app_le by (rewrite length_app, length_Snapshot; cbn; lia).
    rewrite <- app_assoc. cbn [app]. rewrite length_drop, drop_drop. f_equal.
    rewrite length_app, length_Snapshot. cbn [length]. lia.
Qed.

(** * Lemmas: mirroring *)

Lemma IsNaN_or_IsInf x : negb (IsNaN x || IsInf x) = Float64.finite x.
Proof. unfold finite. by rewrite negb_orb. Qed.

Record candle_ok (c : Candle) : Prop := {
  ok_open : Float64.finite (c_Open c) = true;
  ok_high : Float64.finite (c_High c) = true;
  ok_low : Float64.finite (c_Low c) = true;
  ok_close : Float64.finite (c_Close c) = true;
  ok_low_open : (key (c_Low c) <= key (c_Open c))%Z;
  ok_low_close : (key (c_Low c) <= key (c_Close c))%Z;
  ok_open_high : (key (c_Open c) <= key (c_High c))%Z;
  ok_close_high : (key (c_Close c) <= key (c_High c))%Z;
}.

Lemma candle_consistent_iff c : candle_consistent c = true ↔ candle_ok c.
Proof.
  unfold candle_consistent. cbn [forallb]. rewrite !IsNaN_or_IsInf.
  split.
  - intros H. bools.
    destruct (math_Max_spec (c_Open c) (c_Close c)) as [? Hmax]; [done..|].
    destruct (math_Min_spec (c_Open c) (c_Close c)) as [? Hmin]; [done..|].
    constructor; try done; float_lia.
  - intros [].
    destruct (math_Max_spec (c_Open c) (c_Close c)) as [? Hmax]; [done..|].
    destruct (math_Min_spec (c_Open c) (c_Close c)) as [? Hmin]; [done..|].
    rewrite ok_open0, ok_high0, ok_low0, ok_close0. cbn [andb]. float_lia.
Qed.

Lemma candle_consistent_mirror c : candle_consistent (Mirror_candle c) = candle_consistent c.
Proof.
  apply eq_true_iff_eq. rewrite !candle_consistent_iff.
  split; intros []; constructor; cbn in *; rewrite ?finite_opp, ?key_opp in *; done || lia.
Qed.

Lemma ValidSeries_from_mirror prev bars :
  ValidSeries_from prev (Mirror bars) = ValidSeries_from prev bars.
Proof.
  revert prev. induction bars as [|c bars IH]; intros prev; [done|].
  cbn [Mirror map ValidSeries_from]. rewrite candle_consistent_mirror. cbn [Mirror_candle c_Time].
  by rewrite <- IH.
Qed.

Lemma Mirror_involutive bars : Mirror (Mirror bars) = bars.
Proof.
  unfold Mirror. rewrite map_map. rewrite <- (map_id bars) at 2. apply map_ext.
  intros []. unfold Mirror_candle; cbn. by rewrite !opp_opp.
Qed.

Lemma ValidSeries_from_spec prev bars :
  ValidSeries_from prev bars = true →
  Forall candle_ok bars ∧ StronglySorted Z.lt (map c_Time bars) ∧
  (∀ t, prev = Some t → Forall (λ c, (t < c_Time c)%Z) bars).
Proof.
  revert prev. induction bars as [|c bars IH]; intros prev H.
  { split_and!; [constructor|constructor|]. intros; constructor. }
  cbn [ValidSeries_from] in H. bools.
  destruct (IH _ H0) as (Hok & Hs & Hlt). specialize (Hlt _ eq_refl).
  split_and!.
  - constructor; [by apply candle_consistent_iff|done].
  - cbn [map]. constructor; [done|]. apply Forall_map. done.
  - intros t ->. constructor; [lia|].
    eapply Forall_impl; [exact Hlt|]. cbn. intros. lia.
Qed.

(** * Properties *)

(** Pushing any sequence of candles into a fresh window of capacity [cap] leaves exactly
    the last [cap] of them, oldest first: the ring buffer loses and reorders nothing else. *)
Theorem window_keeps_last cap w cs :
  NewCandleWindow cap = Some w →
  Snapshot (foldl Push w cs) = drop (length cs - Z.to_nat cap) cs.
Proof.
  intros Hnew. pose proof (NewCandleWindow_wf _ _ Hnew) as [Hwf Hs].
  destruct (foldl_Push cs w Hwf) as (_ & _ & H); [rewrite Hs; cbn; lia|].
  rewrite H, Hs. unfold NewCandleWindow in Hnew.
  destruct (cap <=? 0)%Z; [done|]. by injection Hnew as <-.
Qed.

Definition demo_candle (t : Z) : Candle := mkCandle t 1 3 0.5 2 10.

Lemma window_keeps_last_witness :
  ∃ w, NewCandleWindow 2 = Some w ∧
    Snapshot (foldl Push w (map demo_candle [1; 2; 3]%Z)) = map demo_candle [2; 3]%Z.
Proof.
  eexists. split; [reflexivity|].
  rewrite (window_keeps_last 2 _ (map demo_candle [1; 2; 3]%Z)); reflexivity.
Defined.

(** Mirroring a series about zero keeps it a valid market history exactly when it was one,
    and mirroring twice gives the series back: one orientation of a detector serves both
    directions. *)
Theorem mirror_preserves_validity bars :
  ValidSeries (Mirror bars) = ValidSeries bars ∧ Mirror (Mirror bars) = bars.
Proof. split; [apply ValidSeries_from_mirror|apply Mirror_involutive]. Qed.

(** A series accepted by [ValidSeries] has only finite prices, every open and close
    within its candle's low and high, and strictly increasing times. *)
Theorem ValidSeries_sound bars :
  ValidSeries bars = true →
  Forall candle_ok bars ∧ StronglySorted Z.lt (map c_Time bars).
Proof. intros (H & Hs & _)%ValidSeries_from_spec. done. Qed.

Lemma ValidSeries_sound_witness :
  Forall candle_ok (map demo_candle [1; 2]%Z) ∧
  StronglySorted Z.lt (map c_Time (map demo_candle [1; 2]%Z)).
Proof. apply (ValidSeries_sound (map demo_candle [1; 2]%Z)). vm_compute. reflexivity. Defined.
