(* ===== verification/MarketData.v ===== *)
(** Package marketdata: candle validation, the per-timeframe sequenced history and its
    outcomes, and the per-symbol router. *)
From S2P Require Import Prelude Float64 Market.
From Stdlib Require Import Floats.

(** * validation.go *)

Inductive InvalidReason :=
  | InvalidNonPositiveTime | InvalidNonFiniteOHLC | InvalidNegativeVolume | InvalidHighBelowLow
  | InvalidHighBelowOpen | InvalidHighBelowClose | InvalidLowAboveOpen | InvalidLowAboveClose
  | InvalidUnknownTimeframe.
#[export] Instance InvalidReason_eq_dec : EqDecision InvalidReason.
Proof. solve_decision. Defined.

(** [nil] is [None]. *)
Definition ValidateCandle (c : Candle) : option InvalidReason :=
  if (c_Time c <=? 0)%Z then Some InvalidNonPositiveTime
  else if existsb (λ v, negb (Price_IsFinite v)) [c_Open c; c_High c; c_Low c; c_Close c; c_Volume c]
    then Some InvalidNonFiniteOHLC
  else if (c_Volume c <? 0)%float then Some InvalidNegativeVolume
  else if (c_High c <? c_Low c)%float then Some InvalidHighBelowLow
  else if (c_High c <? c_Open c)%float then Some InvalidHighBelowOpen
  else if (c_High c <? c_Close c)%float then Some InvalidHighBelowClose
  else if (c_Low c >? c_Open c)%float then Some InvalidLowAboveOpen
  else if (c_Low c >? c_Close c)%float then Some InvalidLowAboveClose
  else None.

Definition ValidateTimeframe (tf : string) : option InvalidReason :=
  match Minutes tf with None => Some InvalidUnknownTimeframe | Some _ => None end.

(** * bar_event.go *)

Inductive EventOrigin := OriginZero | EventOriginLive | EventOriginBootstrap | EventOriginReplay.
#[export] Instance EventOrigin_eq_dec : EqDecision EventOrigin.
Proof. solve_decision. Defined.

Record BarEvent := mkBarEvent {
  be_Symbol : string; be_Timeframe : string; be_Candle : Candle; be_Origin : EventOrigin
}.
Definition PublishesOpportunity (e : BarEvent) : bool :=
  bool_decide (be_Origin e = OriginZero) || bool_decide (be_Origin e = EventOriginLive).

(** * timeframe_history.go *)

Inductive AppendResult :=
  | AppendAccepted | AppendDuplicate | AppendOutOfOrder | AppendReplaced | AppendRejectedInvalid
  | AppendConflict.
#[export] Instance AppendResult_eq_dec : EqDecision AppendResult.
Proof. solve_decision. Defined.

Record TimeframeHistory := mkHistory {
  h_symbol : string; h_timeframe : string; h_window : CandleWindow; h_allowReplace : bool
}.
(** [None]: the constructor panics on a depth that is not positive. *)
Definition NewTimeframeHistory (symbol timeframe : string) (depth : Z) (allowReplace : bool) :
    option TimeframeHistory :=
  match NewCandleWindow depth with
  | Some w => Some (mkHistory symbol timeframe w allowReplace)
  | None => None
  end.

Definition h_Snapshot (h : TimeframeHistory) : list Candle := Snapshot (h_window h).
Definition h_Len (h : TimeframeHistory) : nat := Len (h_window h).

(** The binary search over the snapshot. *)
Definition h_At (h : TimeframeHistory) (t : Z) : option Candle :=
  let full := h_Snapshot h in
  let lo := bsearch (length full)
    (λ mid, match full !! mid with Some c => (c_Time c <? t)%Z | None => false end) in
  match full !! lo with
  | Some c => if (c_Time c =? t)%Z then Some c else None
  | None => None
  end.

Definition with_window (h : TimeframeHistory) (w : CandleWindow) : TimeframeHistory :=
  mkHistory (h_symbol h) (h_timeframe h) w (h_allowReplace h).

(** The outcome, the error of a rejected candle, and the history afterwards; [None] if a window
    operation panicked. *)
Definition Append (h : TimeframeHistory) (c : Candle) :
    option (AppendResult * option InvalidReason * TimeframeHistory) :=
  match ValidateCandle c with
  | Some reason => Some (AppendRejectedInvalid, Some reason, h)
  | None =>
      if Len (h_window h) =? 0 then
        Some (AppendAccepted, None, with_window h (Push (h_window h) c))
      else
        match Last (h_window h) with
        | None => None
        | Some last =>
            if (c_Time last <? c_Time c)%Z then
              Some (AppendAccepted, None, with_window h (Push (h_window h) c))
            else if (c_Time c =? c_Time last)%Z then
              if h_allowReplace h then
                match ReplaceLast (h_window h) c with
                | Some w => Some (AppendReplaced, None, with_window h w)
                | None => None
                end
              else if Candle_eqb c last then Some (AppendDuplicate, None, h)
              else Some (AppendConflict, None, h)
            else
              match h_At h (c_Time c) with
              | Some existing =>
                  if Candle_eqb existing c then Some (AppendDuplicate, None, h)
                  else Some (AppendConflict, None, h)
              | None => Some (AppendOutOfOrder, None, h)
              end
        end
  end.

(** * history.go *)

Record MarketHistory := mkMarketHistory {
  mh_Symbol : string; mh_Timeframes : gmap string TimeframeHistory
}.

(** The loop over [depths]; the order only matters for which error is returned first. *)
Fixpoint build_timeframes (symbol : string) (allowReplace : bool) (depths : list (string * Z))
    (acc : gmap string TimeframeHistory) : result (gmap string TimeframeHistory) :=
  match depths with
  | [] => Ok acc
  | (tf, depth) :: rest =>
      match ValidateTimeframe tf with
      | Some _ => Err "marketdata: history depth"
      | None =>
          if (depth <=? 0)%Z then Err "marketdata: history depth must be positive"
          else match NewTimeframeHistory symbol tf depth allowReplace with
               | Some h => build_timeframes symbol allowReplace rest (<[tf := h]> acc)
               | None => Err "panic"
               end
      end
  end.
Definition NewMarketHistory (symbol : string) (depths : gmap string Z) (allowReplace : bool) :
    result MarketHistory :=
  match build_timeframes symbol allowReplace (map_to_list depths) ∅ with
  | Ok timeframes => Ok (mkMarketHistory symbol timeframes)
  | Err e => Err e
  end.

(** Routing by symbol and timeframe; the boolean says whether an error was returned. *)
Definition mh_Append (h : MarketHistory) (event : BarEvent) :
    option (AppendResult * bool * MarketHistory) :=
  if negb (bool_decide (be_Symbol event = mh_Symbol h)) then Some (AppendRejectedInvalid, true, h)
  else match mh_Timeframes h !! be_Timeframe event with
  | None => Some (AppendRejectedInvalid, true, h)
  | Some tfh =>
      match Append tfh (be_Candle event) with
      | None => None
      | Some (r, e, tfh') =>
          Some (r, bool_decide (is_Some e),
            mkMarketHistory (mh_Symbol h) (<[be_Timeframe event := tfh']> (mh_Timeframes h)))
      end
  end.
Definition mh_For (h : MarketHistory) (tf : string) : option TimeframeHistory := mh_Timeframes h !! tf.

(** * Lemmas: the sequencing invariant *)

Record history_wf (h : TimeframeHistory) : Prop := {
  hw_window : window_wf (h_window h);
  hw_sorted : StronglySorted Z.lt (map c_Time (h_Snapshot h));
  hw_valid : Forall (λ c, ValidateCandle c = None) (h_Snapshot h);
}.

(** The binary search finds the retained candle of that time, and only that one. *)
Lemma h_At_spec h t c :
  StronglySorted Z.lt (map c_Time (h_Snapshot h)) →
  h_At h t = Some c ↔ c ∈ h_Snapshot h ∧ c_Time c = t.
Proof.
  intros Hs. unfold h_At. set (full := h_Snapshot h) in *.
  set (below := λ mid, match full !! mid with Some c => (c_Time c <? t)%Z | None => false end).
  assert (Hmono : ∀ i j, i <= j → below j = true → below i = true).
  { intros i j Hij. unfold below. destruct (full !! j) as [cj|] eqn:Ej; [|done]. intros Hj.
    destruct (lookup_lt_is_Some_2 full i) as [ci Ei]; [apply lookup_lt_Some in Ej; lia|].
    rewrite Ei. destruct (decide (i = j)) as [->|]; [congruence|].
    assert (c_Time ci < c_Time cj)%Z; [|lia].
    eapply (StronglySorted_lookup_lt _ i j); [exact Hs|by rewrite list_lookup_fmap, ?Ei, ?Ej..|lia]. }
  destruct (bsearch_spec (length full) below Hmono) as (Hle & Hlo & Hhi).
  set (lo := bsearch (length full) below) in *.
  split.
  - destruct (full !! lo) as [c'|] eqn:E; [|done].
    destruct (Z.eqb_spec (c_Time c') t); [|done]. intros [= ->].
    split; [by eapply list_elem_of_lookup_2|done].
  - intros [(i & Hi)%list_elem_of_lookup_1 Ht].
    assert (i = lo) as ->; [|rewrite Hi, Ht, Z.eqb_refl; done].
    pose proof (lookup_lt_Some _ _ _ Hi).
    destruct (Nat.lt_trichotomy i lo) as [Hlt|[|Hgt]]; [|done|].
    + specialize (Hlo i Hlt). unfold below in Hlo. rewrite Hi in Hlo. lia.
    + destruct (lookup_lt_is_Some_2 full lo) as [cl Hl]; [lia|].
      specialize (Hhi lo ltac:(lia)). unfold below in Hhi. rewrite Hl in Hhi.
      assert (c_Time cl < c_Time c)%Z; [|lia].
      eapply (StronglySorted_lookup_lt _ lo i); [exact Hs|by rewrite list_lookup_fmap, ?Hl, ?Hi..|lia].
Qed.

Lemma eqb_sym x y : (x =? y)%float = (y =? x)%float.
Proof.
  rewrite !eqb_key, Z.eqb_sym. destruct (IsNaN x), (IsNaN y); done.
Qed.

Lemma Candle_eqb_sym a b : Candle_eqb a b = Candle_eqb b a.
Proof.
  unfold Candle_eqb. rewrite Z.eqb_sym.
  rewrite (eqb_sym (c_Open a)), (eqb_sym (c_High a)), (eqb_sym (c_Low a)), (eqb_sym (c_Close a)),
    (eqb_sym (c_Volume a)). done.
Qed.

(** What each outcome says about the candle and the history before and after. *)
Definition append_post (h : TimeframeHistory) (c : Candle)
    (r : AppendResult) (e : option InvalidReason) (h' : TimeframeHistory) : Prop :=
  let old := h_Snapshot h in let new := h_Snapshot h' in
  match r with
  | AppendRejectedInvalid => h' = h ∧ e = ValidateCandle c ∧ is_Some e
  | AppendAccepted =>
      e = None ∧ Forall (λ d, (c_Time d < c_Time c)%Z) old ∧
      new = drop (S (length old) - w_capacity (h_window h)) (old ++ [c])
  | AppendReplaced =>
      e = None ∧ h_allowReplace h = true ∧
      ∃ d, last old = Some d ∧ c_Time d = c_Time c ∧ new = take (length old - 1) old ++ [c]
  | AppendDuplicate =>
      e = None ∧ h' = h ∧ ∃ d, d ∈ old ∧ c_Time d = c_Time c ∧ Candle_eqb d c = true
  | AppendConflict =>
      e = None ∧ h' = h ∧ ∃ d, d ∈ old ∧ c_Time d = c_Time c ∧ Candle_eqb d c = false
  | AppendOutOfOrder =>
      e = None ∧ h' = h ∧ Forall (λ d, c_Time d ≠ c_Time c) old ∧
      ∃ d, d ∈ old ∧ (c_Time c < c_Time d)%Z
  end.

Lemma sorted_last_times l d :
  StronglySorted Z.lt (map c_Time l) → last l = Some d → Forall (λ x, (c_Time x <= c_Time d)%Z) l.
Proof.
  intros Hs Hl. apply (Forall_map c_Time (λ y, (y <= c_Time d)%Z)).
  apply sorted_last_max; [done|]. change (map c_Time l) with (c_Time <$> l). by rewrite fmap_last, Hl.
Qed.

Lemma push_history_wf h c :
  history_wf h → ValidateCandle c = None → Forall (λ d, (c_Time d < c_Time c)%Z) (h_Snapshot h) →
  history_wf (with_window h (Push (h_window h) c)) ∧
  h_Snapshot (with_window h (Push (h_window h) c)) =
    drop (S (length (h_Snapshot h)) - w_capacity (h_window h)) (h_Snapshot h ++ [c]).
Proof.
  intros [Hw Hs Hv] Hc Hlt. unfold h_Snapshot in *. cbn [with_window h_window].
  rewrite Snapshot_Push by done. rewrite length_Snapshot. split; [|done].
  constructor; cbn; unfold h_Snapshot; cbn; [by apply Push_wf| |]; rewrite Snapshot_Push by done.
  - rewrite <- skipn_map. apply StronglySorted_drop. rewrite map_app. apply StronglySorted_app_r; [done|].
    by apply Forall_map.
  - apply Forall_drop, Forall_app. auto.
Qed.

Lemma replace_history_wf h c d w :
  history_wf h → ValidateCandle c = None →
  last (h_Snapshot h) = Some d → c_Time d = c_Time c → ReplaceLast (h_window h) c = Some w →
  history_wf (with_window h w) ∧
  h_Snapshot (with_window h w) = take (length (h_Snapshot h) - 1) (h_Snapshot h) ++ [c].
Proof.
  intros [Hw Hs Hv] Hc Hl Ht Hr. destruct (Snapshot_ReplaceLast _ _ _ Hw Hr) as [Hw' Hsnap].
  unfold h_Snapshot in *. cbn [with_window h_window]. rewrite length_Snapshot. split; [|done].
  constructor; cbn; unfold h_Snapshot; cbn; [done| |]; rewrite Hsnap.
  - rewrite map_app. apply StronglySorted_app_r; rewrite <- firstn_map; [by apply StronglySorted_take|].
    apply Forall_lookup_2. intros i y Hi.
    pose proof Hi as Hlen%lookup_lt_Some. rewrite length_take, length_map, length_Snapshot in Hlen.
    rewrite lookup_take_lt in Hi by lia. rewrite <- Ht. rewrite last_lookup, length_Snapshot in Hl.
    eapply (StronglySorted_lookup_lt _ i (pred (w_size (h_window h)))); [exact Hs|exact Hi| |lia].
    by rewrite list_lookup_fmap, Hl.
  - apply Forall_app. split; [by apply Forall_take|auto].
Qed.

Lemma Append_spec h c :
  history_wf h →
  ∃ r e h', Append h c = Some (r, e, h') ∧ history_wf h' ∧ append_post h c r e h'.
Proof.
  intros Hwf. pose proof Hwf as [Hw Hs Hv]. unfold Append.
  destruct (ValidateCandle c) as [reason|] eqn:Hc.
  { eexists _, _, _. split; [done|]. split; [done|]. cbn. eauto. }
  assert (Hlen : Len (h_window h) = length (h_Snapshot h)) by (symmetry; apply length_Snapshot).
  rewrite Hlen, Last_Snapshot by done. fold (h_Snapshot h).
  destruct (Nat.eqb_spec (length (h_Snapshot h)) 0) as [Hnil|Hne].
  { apply nil_length_inv in Hnil.
    destruct (push_history_wf h c Hwf Hc) as [H1 H2]; [rewrite Hnil; constructor|].
    eexists _, _, _. split; [done|]. split; [done|]. split_and!; [done|rewrite Hnil; constructor|done]. }
  destruct (last (h_Snapshot h)) as [d|] eqn:Hl;
    [|by apply last_None in Hl; rewrite Hl in Hne].
  pose proof (sorted_last_times _ _ Hs Hl) as Hmax.
  assert (Hin : d ∈ h_Snapshot h) by (rewrite last_lookup in Hl; by eapply list_elem_of_lookup_2).
  destruct (Z.ltb_spec (c_Time d) (c_Time c)) as [Hgt|Hle].
  { destruct (push_history_wf h c Hwf Hc) as [H1 H2].
    { eapply Forall_impl; [exact Hmax|]. cbn. lia. }
    eexists _, _, _. split; [done|]. split; [done|]. split_and!; [done| |done].
    eapply Forall_impl; [exact Hmax|]. cbn. lia. }
  destruct (Z.eqb_spec (c_Time c) (c_Time d)) as [Heq|Hne'].
  - destruct (h_allowReplace h) eqn:Hr.
    + destruct (ReplaceLast (h_window h) c) as [w|] eqn:Hw'.
      2:{ unfold ReplaceLast in Hw'. unfold Len in Hlen. rewrite <- Hlen in Hne.
          destruct (Nat.eqb_spec (w_size (h_window h)) 0); [lia|done]. }
      destruct (replace_history_wf h c d w) as [H1 H2]; [done..|].
      eexists _, _, _. split; [done|]. split; [done|]. cbn. eauto 6.
    + rewrite Candle_eqb_sym. destruct (Candle_eqb d c) eqn:He;
        eexists _, _, _; (split; [done|]); (split; [done|]); cbn; eauto 7.
  - destruct (h_At h (c_Time c)) as [x|] eqn:Hat.
    + apply h_At_spec in Hat as [Hx Hxt]; [|done].
      destruct (Candle_eqb x c) eqn:He;
        eexists _, _, _; (split; [done|]); (split; [done|]); cbn; eauto 7.
    + eexists _, _, _. split; [done|]. split; [done|]. cbn. split_and!; try done.
      * apply Forall_forall. intros x Hx Ht%eq_sym.
        assert (h_At h (c_Time c) = Some x); [|congruence]. apply h_At_spec; [done|].
        done.
      * exists d. split; [done|lia].
Qed.

Lemma NewTimeframeHistory_wf symbol tf depth allow h :
  NewTimeframeHistory symbol tf depth allow = Some h → history_wf h ∧ h_Snapshot h = [].
Proof.
  unfold NewTimeframeHistory. destruct (NewCandleWindow depth) as [w|] eqn:E; [|done].
  intros [= <-]. apply NewCandleWindow_wf in E as [Hw Hs].
  unfold h_Snapshot. cbn. split; [|done]. constructor; unfold h_Snapshot; cbn; rewrite ?Hs; [done|constructor..].
Qed.

(** Feeding a list of candles; the outcomes in order. *)
Fixpoint append_all (h : TimeframeHistory) (cs : list Candle) : option (list AppendResult * TimeframeHistory) :=
  match cs with
  | [] => Some ([], h)
  | c :: cs =>
      match Append h c with
      | None => None
      | Some (r, _, h') =>
          match append_all h' cs with
          | None => None
          | Some (rs, h'') => Some (r :: rs, h'')
          end
      end
  end.

Lemma append_all_wf cs h : history_wf h → ∃ rs h', append_all h cs = Some (rs, h') ∧ history_wf h'.
Proof.
  revert h. induction cs as [|c cs IH]; intros h Hwf; [by eexists _, _|].
  destruct (Append_spec h c Hwf) as (r & e & h' & E & Hwf' & _). cbn [append_all]. rewrite E.
  destruct (IH h' Hwf') as (rs & h'' & -> & ?). by eexists _, _.
Qed.

Definition history_inv (mh : MarketHistory) : Prop := map_Forall (λ _ h, history_wf h) (mh_Timeframes mh).

Lemma build_timeframes_wf symbol allow depths acc m :
  map_Forall (λ _ h, history_wf h) acc →
  build_timeframes symbol allow depths acc = Ok m → map_Forall (λ _ h, history_wf h) m.
Proof.
  revert acc. induction depths as [|[tf d] depths IH]; intros acc Hacc; cbn [build_timeframes].
  { by intros [= <-]. }
  destruct (ValidateTimeframe tf); [done|]. destruct (d <=? 0)%Z; [done|].
  destruct (NewTimeframeHistory symbol tf d allow) as [h|] eqn:E; [|done].
  apply IH. apply map_Forall_insert_2; [|done]. by apply NewTimeframeHistory_wf in E as [? _].
Qed.

Lemma NewMarketHistory_inv symbol depths allow mh : NewMarketHistory symbol depths allow = Ok mh → history_inv mh.
Proof.
  unfold NewMarketHistory. destruct (build_timeframes _ _ _ _) as [m|] eqn:E; [|done]. intros [= <-].
  by eapply build_timeframes_wf; [apply map_Forall_empty|].
Qed.
Lemma mh_Append_inv mh ev :
  history_inv mh →
  ∃ r err mh', mh_Append mh ev = Some (r, err, mh') ∧ history_inv mh' ∧ (err = false → is_Some (mh_For mh' (be_Timeframe ev))).
Proof.
  intros Hinv. unfold mh_Append, mh_For. case_bool_decide; cbn [negb]; [|by eexists _, _, _].
  destruct (mh_Timeframes mh !! be_Timeframe ev) as [h|] eqn:E; [|by eexists _, _, _].
  destruct (Append_spec h (be_Candle ev) (Hinv _ _ E)) as (r & e & h' & -> & Hwf & _).
  eexists _, _, _. split; [done|]. split; [by apply map_Forall_insert_2|]. intros _. cbn. rewrite lookup_insert_eq. by eexists.
Qed.

(** * Properties *)

(** [C23] Whatever candles arrive at a closed-bar or forming-bar history, in whatever order, no
    call panics, and the retained candles stay individually valid and strictly increasing in
    time. *)
Theorem history_invariant symbol tf depth allow h cs :
  NewTimeframeHistory symbol tf depth allow = Some h →
  ∃ rs h', append_all h cs = Some (rs, h') ∧ history_wf h'.
Proof. intros [Hwf _]%NewTimeframeHistory_wf. by apply append_all_wf. Qed.

Lemma history_invariant_witness :
  ∃ h rs h', NewTimeframeHistory "XAU" tf_M5 2 false = Some h ∧
    append_all h (map demo_candle [10; 5; 20; 20]%Z) = Some (rs, h') ∧ history_wf h'.
Proof.
  pose (h := mkHistory "XAU" tf_M5 (mkWindow (replicate 2 zero_Candle) 2 0 0) false).
  destruct (history_invariant "XAU" tf_M5 2 false h (map demo_candle [10; 5; 20; 20]%Z))
    as (rs & h' & E1 & E2); [reflexivity|].
  exists h, rs, h'. split; [reflexivity|]. split; [exact E1|exact E2].
Defined.

(** The outcome of every append is decided by time and payload alone: a new time extends the
    window (evicting its oldest candle when full), the same time is a replacement, a duplicate or
    a conflict, an older retained time is a duplicate or a conflict, any other older time is out
    of order; and every outcome but acceptance and replacement leaves the history as it was. *)
Theorem append_outcome h c :
  history_wf h →
  ∃ r e h', Append h c = Some (r, e, h') ∧ append_post h c r e h'.
Proof. intros (r & e & h' & H1 & _ & H2)%(Append_spec h c). eauto 6. Qed.

Definition demo_history : TimeframeHistory :=
  mkHistory "XAU" tf_M5 (Push (mkWindow (replicate 2 zero_Candle) 2 0 0) (demo_candle 10)) false.
Lemma demo_history_wf : history_wf demo_history.
Proof.
  constructor.
  - constructor; cbn; lia.
  - change (map c_Time (h_Snapshot demo_history)) with [10%Z]. repeat constructor.
  - change (h_Snapshot demo_history) with [demo_candle 10]. constructor; [reflexivity|constructor].
Qed.

Lemma append_outcome_witness :
  ∃ r e h', Append demo_history (demo_candle 10) = Some (r, e, h') ∧ r = AppendDuplicate ∧
    append_post demo_history (demo_candle 10) r e h'.
Proof.
  destruct (append_outcome demo_history (demo_candle 10) demo_history_wf) as (r & e & h' & H & Hp).
  exists r, e, h'. split; [exact H|]. split; [|exact Hp].
  vm_compute in H. injection H as <- _ _. reflexivity.
Defined.

(** The binary search of [At] is a lookup by time: it returns a candle exactly when it is
    retained under that time. *)
Theorem history_At_lookup h t c :
  history_wf h → h_At h t = Some c ↔ c ∈ h_Snapshot h ∧ c_Time c = t.
Proof. intros [_ Hs _]. by apply h_At_spec. Qed.

Lemma history_At_lookup_witness :
  h_At demo_history 10 = Some (demo_candle 10) ∧ demo_candle 10 ∈ h_Snapshot demo_history.
Proof.
  assert (H : h_At demo_history 10 = Some (demo_candle 10)) by reflexivity.
  split; [exact H|]. apply (history_At_lookup _ _ _ demo_history_wf) in H. apply H.
Defined.

(** A symbol's history routes fail-closed: an event of another symbol or of an unconfigured
    timeframe is rejected and changes nothing, and no event ever touches another timeframe's
    history or breaks the sequencing invariant of any of them. *)
Theorem market_history_routing mh ev :
  history_inv mh →
  ∃ r err mh', mh_Append mh ev = Some (r, err, mh') ∧ history_inv mh' ∧
    mh_Symbol mh' = mh_Symbol mh ∧
    (∀ tf, tf ≠ be_Timeframe ev → mh_For mh' tf = mh_For mh tf) ∧
    (be_Symbol ev ≠ mh_Symbol mh ∨ mh_For mh (be_Timeframe ev) = None →
      r = AppendRejectedInvalid ∧ err = true ∧ mh' = mh).
Proof.
  intros Hinv. unfold mh_Append, mh_For. case_bool_decide as Hsym; cbn [negb].
  2:{ eexists _, _, _. split; [done|]. naive_solver. }
  destruct (mh_Timeframes mh !! be_Timeframe ev) as [h|] eqn:E.
  2:{ eexists _, _, _. split; [done|]. naive_solver. }
  destruct (Append_spec h (be_Candle ev) (Hinv _ _ E)) as (r & e & h' & -> & Hwf & _).
  eexists _, _, _. split; [done|]. split_and!; cbn.
  - by apply map_Forall_insert_2.
  - done.
  - intros tf Hne. by rewrite lookup_insert_ne.
  - intros [?|?]; done.
Qed.

Definition demo_market : MarketHistory := mkMarketHistory "XAU" {[ tf_M5 := demo_history ]}.
Lemma market_history_routing_witness :
  ∃ r err mh', mh_Append demo_market (mkBarEvent "EURUSD" tf_M5 (demo_candle 20) EventOriginLive)
    = Some (r, err, mh') ∧ history_inv mh'.
Proof.
  destruct (market_history_routing demo_market
    (mkBarEvent "EURUSD" tf_M5 (demo_candle 20) EventOriginLive)) as (r & err & mh' & H1 & H2 & _).
  { apply map_Forall_singleton, demo_history_wf. }
  exists r, err, mh'. split; [exact H1|exact H2].
Defined.
