(* ===== verification/Indicator.v ===== *)
(** Package indicator: true range, the two ATR formulas and their config-selected dispatcher,
    and the cached fixed-window Wilder ATR. *)
From S2P Require Import Prelude Float64 Market.
From Stdlib Require Import Floats.

(** * true_range.go *)

Definition absf (v : float) : float := if (v <? 0)%float then (- v)%float else v.
Definition maxf (a b : float) : float := if (a >? b)%float then a else b.

(** [prevClose] is [candles[i-1].Close], absent for the first candle. *)
Fixpoint TrueRange_from (prevClose : option float) (candles : list Candle) : list float :=
  match candles with
  | [] => []
  | c :: rest =>
      let hl := (c_High c - c_Low c)%float in
      (match prevClose with
       | None => hl
       | Some p => maxf hl (maxf (absf (c_High c - p)) (absf (c_Low c - p)))
       end) :: TrueRange_from (Some (c_Close c)) rest
  end.
Definition TrueRange (candles : list Candle) : list float := TrueRange_from None candles.

(** * atr.go *)

(** The loop of [SimpleATR] from index [i] on; [tr] is the whole series. *)
Fixpoint simple_loop (tr : list float) (length : Z) (i : nat) (sum : float) (rest : list float) :
    list float :=
  match rest with
  | [] => []
  | v :: rest =>
      let sum := (sum + v)%float in
      let windowStart := Z.max 0 (Z.of_nat i - length + 1) in
      let sum := if (length <=? Z.of_nat i)%Z
                 then (sum - default 0 (tr !! Z.to_nat (Z.of_nat i - length)))%float else sum in
      let n := (Z.of_nat i - windowStart + 1)%Z in
      (sum / f64_of_Z n)%float :: simple_loop tr length (S i) sum rest
  end.
Definition SimpleATR (candles : list Candle) (length : Z) : list float :=
  let length := if (length <? 1)%Z then 1%Z else length in
  let tr := TrueRange candles in
  simple_loop tr length 0 0 tr.

Fixpoint wilder_loop (alpha prev : float) (rest : list float) : list float :=
  match rest with
  | [] => []
  | v :: rest => let prev := (prev + (v - prev) * alpha)%float in prev :: wilder_loop alpha prev rest
  end.
(** [nil, false] is [None]. *)
Definition WilderATR (candles : list Candle) (length : Z) : option (list float) :=
  if (length <? 1)%Z then None
  else if (Z.of_nat (List.length candles) <? length + 1)%Z then None
  else
    let tr := TrueRange candles in
    let n := Z.to_nat length in
    let seed := (foldl (λ s v, s + v)%float 0%float (take n tr) / f64_of_Z length)%float in
    let alpha := (1 / f64_of_Z length)%float in
    Some (replicate (n - 1) nan ++ seed :: wilder_loop alpha seed (drop n tr)).

Definition isFinitePositive (v : float) : bool := negb (IsNaN v) && negb (IsInf v) && (v >? 0)%float.
Definition AtrAt (series : list float) (index : Z) (fallback : float) : float :=
  if (List.length series =? 0) then fallback
  else
    let index := if (index <? 0)%Z then 0%Z else index in
    let last := (Z.of_nat (List.length series) - 1)%Z in
    let index := if (last <? index)%Z then last else index in
    let v := default 0%float (series !! Z.to_nat index) in
    if negb (isFinitePositive v) then fallback else v.

(** * canonical.go *)

Definition AlgorithmSimple : string := "simple".
Definition AlgorithmWilder : string := "wilder".
Definition CanonicalATR (candles : list Candle) (length : Z) (algorithm : string) :
    result (list float) :=
  if bool_decide (algorithm = AlgorithmSimple) then Ok (SimpleATR candles length)
  else if bool_decide (algorithm = AlgorithmWilder) then
    match WilderATR candles length with
    | Some series => Ok series
    | None => Err "indicator: insufficient candles for Wilder ATR"
    end
  else Err "indicator: unsupported ATR algorithm".

(** * window.go: memoised per index *)

Record WilderWindow := mkWilderWindow {
  ww_bars : list Candle; ww_length : Z; ww_window : Z; ww_values : list float; ww_checked : list bool
}.
Definition NewWilderWindow (bars : list Candle) (length window : Z) : WilderWindow :=
  mkWilderWindow bars length window
    (replicate (List.length bars) 0%float) (replicate (List.length bars) false).

(** [w.bars[start : i+1]] *)
Definition window_slice (bars : list Candle) (window : Z) (i : nat) : list Candle :=
  let start := Z.max 0 (Z.of_nat i - window + 1) in
  drop (Z.to_nat start) (take (S i) bars).

Definition ww_fill (w : WilderWindow) (i : nat) : WilderWindow :=
  if default false (ww_checked w !! i) then w
  else
    let checked := <[i := true]> (ww_checked w) in
    match WilderATR (window_slice (ww_bars w) (ww_window w) i) (ww_length w) with
    | Some series =>
        mkWilderWindow (ww_bars w) (ww_length w) (ww_window w)
          (<[i := default 0%float (last series)]> (ww_values w)) checked
    | None => mkWilderWindow (ww_bars w) (ww_length w) (ww_window w) (ww_values w) checked
    end.
Definition ww_At (w : WilderWindow) (i : Z) : option float * WilderWindow :=
  if (i <? 0)%Z || (Z.of_nat (length (ww_bars w)) <=? i)%Z then (None, w)
  else
    let w := ww_fill w (Z.to_nat i) in
    let v := default 0%float (ww_values w !! Z.to_nat i) in
    if IsNaN v || IsInf v || (v <=? 0)%float then (None, w) else (Some v, w).
Definition Enough (w : WilderWindow) : bool :=
  (ww_length w + 1 <=? Z.of_nat (length (ww_bars w)))%Z.

(** * Lemmas *)

Lemma length_TrueRange_from p cs : length (TrueRange_from p cs) = length cs.
Proof. revert p. induction cs; intros; cbn; auto. Qed.

Lemma TrueRange_from_take p cs n : TrueRange_from p (take n cs) = take n (TrueRange_from p cs).
Proof. revert p cs. induction n; intros p [|c cs]; cbn; f_equal; auto. Qed.

Lemma length_simple_loop tr l i s rest : length (simple_loop tr l i s rest) = length rest.
Proof. revert i s. induction rest; intros; cbn; auto. Qed.

Lemma simple_loop_take tr l i s rest n :
  (1 <= l)%Z →
  (∀ j, j < i + n → (take (i + n) tr) !! j = tr !! j) →
  simple_loop (take (i + n) tr) l i s (take n rest) = take n (simple_loop tr l i s rest).
Proof.
  intros Hl. revert i s rest. induction n as [|n IH]; intros i s [|v rest] Htr; cbn; try done.
  assert (E : take (i + S n) tr !! Z.to_nat (Z.of_nat i - l) = tr !! Z.to_nat (Z.of_nat i - l))
    by (apply Htr; lia).
  rewrite E. f_equal. replace (i + S n) with (S i + n) in * by lia. by apply IH.
Qed.

Lemma SimpleATR_take cs l n : SimpleATR (take n cs) l = take n (SimpleATR cs l).
Proof.
  unfold SimpleATR, TrueRange. rewrite TrueRange_from_take.
  set (l' := if (l <? 1)%Z then 1%Z else l).
  assert (1 <= l')%Z by (unfold l'; destruct (Z.ltb_spec l 1); lia).
  apply (simple_loop_take _ _ 0); [done|]. intros j Hj. apply lookup_take_lt. lia.
Qed.

Lemma wilder_loop_take a p rest n : wilder_loop a p (take n rest) = take n (wilder_loop a p rest).
Proof. revert p rest. induction n; intros p [|v rest]; cbn; f_equal; auto. Qed.

Lemma length_wilder_loop a p rest : length (wilder_loop a p rest) = length rest.
Proof. revert p. induction rest; intros; cbn; auto. Qed.

Lemma WilderATR_take cs l n s :
  (l + 1 <= Z.of_nat n)%Z → WilderATR cs l = Some s → WilderATR (take n cs) l = Some (take n s).
Proof.
  intros Hn. unfold WilderATR. destruct (Z.ltb_spec l 1); [done|].
  destruct (Z.ltb_spec (Z.of_nat (length cs)) (l + 1)); [done|]. intros [= <-].
  destruct (Z.ltb_spec (Z.of_nat (length (take n cs))) (l + 1)) as [Hlt|_];
    [rewrite length_take in Hlt; lia|].
  unfold TrueRange. rewrite TrueRange_from_take. f_equal.
  rewrite take_app, length_replicate, (take_ge (replicate _ _)) by (rewrite length_replicate; lia).
  rewrite take_take, Nat.min_l by lia. f_equal.
  replace (n - (Z.to_nat l - 1)) with (S (n - Z.to_nat l)) by lia. cbn. f_equal.
  rewrite skipn_firstn_comm. apply wilder_loop_take.
Qed.

Lemma length_WilderATR cs l s : WilderATR cs l = Some s → length s = length cs.
Proof.
  unfold WilderATR. destruct (Z.ltb_spec l 1); [done|].
  destruct (Z.ltb_spec (Z.of_nat (length cs)) (l + 1)); [done|]. intros [= <-].
  rewrite length_app, length_replicate. cbn. rewrite length_wilder_loop, length_drop.
  unfold TrueRange. rewrite length_TrueRange_from. lia.
Qed.

(** The ATR of index [i] as a function of the bars alone, without the cache. *)
Definition wilder_value (bars : list Candle) (length window : Z) (i : nat) : float :=
  match WilderATR (window_slice bars window i) length with
  | Some series => default 0%float (last series)
  | None => 0%float
  end.
Definition wilder_at (bars : list Candle) (length window : Z) (i : Z) : option float :=
  if (i <? 0)%Z || (Z.of_nat (List.length bars) <=? i)%Z then None
  else
    let v := wilder_value bars length window (Z.to_nat i) in
    if IsNaN v || IsInf v || (v <=? 0)%float then None else Some v.

(** A run of queries against the cache. *)
Fixpoint ww_run (w : WilderWindow) (qs : list Z) : list (option float) :=
  match qs with
  | [] => []
  | i :: qs => let '(v, w') := ww_At w i in v :: ww_run w' qs
  end.

Record cache_wf (bars : list Candle) (length window : Z) (w : WilderWindow) : Prop := {
  cw_bars : ww_bars w = bars;
  cw_length : ww_length w = length;
  cw_window : ww_window w = window;
  cw_vlen : List.length (ww_values w) = List.length bars;
  cw_clen : List.length (ww_checked w) = List.length bars;
  cw_vals : ∀ i, i < List.length bars →
    ww_values w !! i =
      Some (if default false (ww_checked w !! i) then wilder_value bars length window i else 0%float);
}.

Lemma ww_fill_wf bars l win w i :
  cache_wf bars l win w → i < length bars →
  cache_wf bars l win (ww_fill w i) ∧ ww_values (ww_fill w i) !! i = Some (wilder_value bars l win i).
Proof.
  intros [Hb Hl Hw Hv Hc Hvals] Hi. unfold ww_fill.
  destruct (default false (ww_checked w !! i)) eqn:Echk.
  { split; [by constructor|]. by rewrite Hvals, Echk. }
  rewrite Hb, Hl, Hw.
  assert (Hval : ∀ vs, length vs = length bars →
    (∀ j, j ≠ i → j < length bars → vs !! j = ww_values w !! j) →
    vs !! i = Some (wilder_value bars l win i) →
    cache_wf bars l win (mkWilderWindow bars l win vs (<[i := true]> (ww_checked w)))).
  { intros vs Hlen Hother Hself. constructor; cbn; try done; [by rewrite length_insert|].
    intros j Hj. destruct (decide (j = i)) as [->|Hne].
    - rewrite list_lookup_insert_eq by lia. done.
    - rewrite list_lookup_insert_ne by done. by rewrite Hother, Hvals. }
  unfold wilder_value in *.
  destruct (WilderATR (window_slice bars win i) l) as [series|] eqn:E; cbn.
  - rewrite list_lookup_insert_eq by lia. split; [|done]. apply Hval.
    + by rewrite length_insert.
    + intros j Hne Hj. by rewrite list_lookup_insert_ne.
    + by apply list_lookup_insert_eq; lia.
  - assert (Hz : ww_values w !! i = Some 0%float) by (rewrite Hvals, Echk by done; done).
    split; [|done]. apply Hval; done.
Qed.

Lemma ww_At_wf bars l win w i :
  cache_wf bars l win w →
  fst (ww_At w i) = wilder_at bars l win i ∧ cache_wf bars l win (snd (ww_At w i)).
Proof.
  intros Hwf. pose proof Hwf as [Hb Hl Hw Hv Hc Hvals]. unfold ww_At, wilder_at. rewrite Hb.
  destruct ((i <? 0)%Z || (Z.of_nat (length bars) <=? i)%Z) eqn:Hr; [done|].
  apply orb_false_elim in Hr as [? ?].
  destruct (ww_fill_wf bars l win w (Z.to_nat i) Hwf) as [Hwf' Hval]; [lia|].
  rewrite Hval. cbn [default]. by destruct (_ || _).
Qed.

Lemma ww_run_spec bars l win w qs :
  cache_wf bars l win w → ww_run w qs = map (wilder_at bars l win) qs.
Proof.
  revert w. induction qs as [|i qs IH]; intros w Hwf; [done|]. cbn [ww_run map].
  destruct (ww_At_wf bars l win w i Hwf) as [Hv Hwf']. destruct (ww_At w i) as [v w'].
  cbn in *. subst. f_equal. auto.
Qed.

Lemma NewWilderWindow_wf bars l win : cache_wf bars l win (NewWilderWindow bars l win).
Proof.
  constructor; cbn; rewrite ?length_replicate; try done.
  intros i Hi. rewrite !lookup_replicate_2 by done. done.
Qed.

Lemma window_slice_shift pre bars win i :
  (win <= Z.of_nat i + 1)%Z → i < length bars →
  window_slice (pre ++ bars) win (length pre + i) = window_slice bars win i.
Proof.
  intros Hw Hi. unfold window_slice.
  replace (S (length pre + i)) with (length pre + S i) by lia.
  rewrite take_app_add.
  destruct (decide (win <= 0)%Z).
  - rewrite !drop_ge; [done| |]; rewrite ?length_app, ?length_take; lia.
  - replace (Z.to_nat (Z.max 0 (Z.of_nat (length pre + i) - win + 1))) with
      (length pre + Z.to_nat (Z.max 0 (Z.of_nat i - win + 1))) by lia.
    by rewrite drop_app_add.
Qed.

Lemma wilder_at_new bars l win i : fst (ww_At (NewWilderWindow bars l win) i) = wilder_at bars l win i.
Proof. apply ww_At_wf, NewWilderWindow_wf. Qed.
Lemma wilder_at_shift pre bars l win i :
  (0 <= i < Z.of_nat (length bars))%Z → (win <= i + 1)%Z →
  wilder_at (pre ++ bars) l win (Z.of_nat (length pre) + i) = wilder_at bars l win i.
Proof.
  intros Hi Hw. unfold wilder_at, wilder_value. rewrite length_app.
  destruct (Z.ltb_spec i 0); [lia|]. destruct (Z.leb_spec (Z.of_nat (List.length bars)) i); [lia|].
  destruct (Z.ltb_spec (Z.of_nat (List.length pre) + i) 0); [lia|].
  destruct (Z.leb_spec (Z.of_nat (List.length pre + List.length bars)) (Z.of_nat (List.length pre) + i)); [lia|].
  cbn [orb]. replace (Z.to_nat (Z.of_nat (List.length pre) + i)) with (List.length pre + Z.to_nat i) by lia.
  by rewrite window_slice_shift by lia.
Qed.
Lemma wilder_at_app bars later l win i :
  (i < Z.of_nat (length bars))%Z → wilder_at (bars ++ later) l win i = wilder_at bars l win i.
Proof.
  intros Hi. unfold wilder_at, wilder_value, window_slice. rewrite length_app. destruct (Z.ltb_spec i 0); [done|].
  rewrite !(proj2 (Z.leb_gt _ i)) by lia. by rewrite take_app_le by lia.
Qed.

(** * Properties *)

(** The canonical ATR series is causal: on a prefix of the candles it is the prefix of the
    series, whichever formula the configuration selects. *)
Theorem canonical_atr_causal candles length algorithm series n :
  CanonicalATR candles length algorithm = Ok series →
  (length + 1 <= Z.of_nat n)%Z →
  CanonicalATR (take n candles) length algorithm = Ok (take n series).
Proof.
  unfold CanonicalATR. intros H Hn. case_bool_decide.
  - injection H as <-. by rewrite SimpleATR_take.
  - case_bool_decide; [|done].
    destruct (WilderATR candles length) as [s|] eqn:E; [|done]. injection H as <-.
    by rewrite (WilderATR_take _ _ _ _ Hn E).
Qed.

Lemma canonical_atr_causal_witness :
  ∃ s, CanonicalATR (map demo_candle [1; 2; 3; 4]%Z) 2 AlgorithmWilder = Ok s ∧
    CanonicalATR (take 3 (map demo_candle [1; 2; 3; 4]%Z)) 2 AlgorithmWilder = Ok (take 3 s).
Proof.
  destruct (CanonicalATR (map demo_candle [1; 2; 3; 4]%Z) 2 AlgorithmWilder) as [s|] eqn:E;
    [|exfalso; vm_compute in E; discriminate E].
  exists s. split; [reflexivity|].
  apply (canonical_atr_causal _ _ _ _ 3 E). lia.
Defined.

(** The ATR dispatcher fails closed and only then: an unknown algorithm is an error, the
    Wilder formula needs a positive length and one candle more than it, and every series it
    returns has one value per candle. *)
Theorem canonical_atr_total candles length algorithm :
  match CanonicalATR candles length algorithm with
  | Ok series => List.length series = List.length candles ∧
      (algorithm = AlgorithmSimple ∨ algorithm = AlgorithmWilder ∧
        (1 <= length < Z.of_nat (List.length candles))%Z)
  | Err _ => algorithm ≠ AlgorithmSimple ∧
      (algorithm = AlgorithmWilder → (length < 1 ∨ Z.of_nat (List.length candles) <= length)%Z)
  end.
Proof.
  unfold CanonicalATR. case_bool_decide as H1.
  { split; [|auto]. unfold SimpleATR. rewrite length_simple_loop. apply length_TrueRange_from. }
  case_bool_decide as H2; [|done].
  destruct (WilderATR candles length) as [s|] eqn:E.
  - split; [by eapply length_WilderATR|]. right. split; [done|]. unfold WilderATR in E.
    destruct (Z.ltb_spec length 1); [done|].
    destruct (Z.ltb_spec (Z.of_nat (List.length candles)) (length + 1)); [done|]. lia.
  - split; [done|]. intros _. unfold WilderATR in E.
    destruct (Z.ltb_spec length 1); [lia|].
    destruct (Z.ltb_spec (Z.of_nat (List.length candles)) (length + 1)); [lia|done].
Qed.

(** The per-index cache of the windowed ATR is invisible: any run of queries answers what
    the uncached formula answers, and once a full window lies behind an index the answer does
    not depend on how much older history was loaded. *)
Theorem wilder_window_cache bars length window qs :
  ww_run (NewWilderWindow bars length window) qs = map (wilder_at bars length window) qs ∧
  (∀ pre i, (0 <= i < Z.of_nat (List.length bars))%Z → (window <= i + 1)%Z →
    wilder_at (pre ++ bars) length window (Z.of_nat (List.length pre) + i) =
    wilder_at bars length window i).
Proof. split; [apply ww_run_spec, NewWilderWindow_wf|]. intros pre i. apply wilder_at_shift. Qed.
