(* ===== verification/Structure.v ===== *)
(** Package structure: pivots, promoted swings, the per-layer trend read, level breaks and their
    classification, and the pure [Update] that composes them. *)
From S2P Require Import Prelude Float64 Market.
From Stdlib Require Import Floats.

(** * pivot.go *)

Inductive PivotKind := PivotHigh | PivotLow.
#[export] Instance PivotKind_eq_dec : EqDecision PivotKind.
Proof. solve_decision. Defined.
Definition PivotKind_String (k : PivotKind) : string :=
  match k with PivotHigh => "high" | PivotLow => "low" end.

Record Pivot := mkPivot {
  p_Kind : PivotKind; p_Price : float; p_BarIndex : nat; p_Time : Z; p_ConfirmedAt : Z;
  p_ExcursionPrice : float; p_Strength : float
}.
#[export] Instance Pivot_inhabited : Inhabited Pivot := populate (mkPivot PivotHigh 0 0 0 0 0 0).

Definition isPivotHigh (c : Candle) (left right : list Candle) : bool :=
  forallb (λ o, negb (c_High o >=? c_High c)%float) left &&
  forallb (λ o, negb (c_High o >=? c_High c)%float) right.
Definition isPivotLow (c : Candle) (left right : list Candle) : bool :=
  forallb (λ o, negb (c_Low o <=? c_Low c)%float) left &&
  forallb (λ o, negb (c_Low o <=? c_Low c)%float) right.

Definition excursion (pivotPrice : float) (side : list Candle) (isHigh : bool) : float :=
  match side with
  | [] => 0%float
  | c0 :: rest =>
      if isHigh then
        (pivotPrice - foldl (λ lowest c, if c_Low c <? lowest then c_Low c else lowest) (c_Low c0) rest)%float
      else
        (foldl (λ highest c, if c_High c >? highest then c_High c else highest) (c_High c0) rest - pivotPrice)%float
  end.
Definition weakerExcursion (pivotPrice : float) (left right : list Candle) (isHigh : bool) : float :=
  let leftExc := excursion pivotPrice left isHigh in
  let rightExc := excursion pivotPrice right isHigh in
  if (rightExc <? leftExc)%float then rightExc else leftExc.
Definition strengthFromExcursion (excursionPrice atr : float) : float :=
  if (atr <=? 0)%float then 0%float else (excursionPrice / atr)%float.
Definition atrAt (series : list float) (i : nat) : float := default 0%float (series !! i).

(** The body of the loop of [DetectPivots] at index [i], the window sides being in range. *)
Definition pivots_at (candles : list Candle) (leftBars rightBars : nat) (atrSeries : list float)
    (i : nat) : list Pivot :=
  let left := slice candles (i - leftBars) i in
  let right := slice candles (i + 1) (i + 1 + rightBars) in
  let c := candles !!! i in
  let atr := atrAt atrSeries i in
  let pivot kind price weaker :=
    mkPivot kind price i (c_Time c) (c_Time (candles !!! (i + rightBars)%nat))
      weaker (strengthFromExcursion weaker atr) in
  (if isPivotHigh c left right
   then [pivot PivotHigh (c_High c) (weakerExcursion (c_High c) left right true)] else []) ++
  (if isPivotLow c left right
   then [pivot PivotLow (c_Low c) (weakerExcursion (c_Low c) left right false)] else []).
Definition at_least_1 (n : Z) : nat := Z.to_nat (if (n <? 1)%Z then 1 else n).
Definition DetectPivots (candles : list Candle) (leftBars rightBars : Z) (atrSeries : list float) :
    list Pivot :=
  let leftBars := at_least_1 leftBars in
  let rightBars := at_least_1 rightBars in
  flat_map (pivots_at candles leftBars rightBars atrSeries)
    (seq leftBars (length candles - rightBars - leftBars)).

(** * swing.go *)

Inductive StructureLayer := StructureMicro | StructureInternal | StructureIntermediate | StructureMajor.
#[export] Instance StructureLayer_eq_dec : EqDecision StructureLayer.
Proof. solve_decision. Defined.

Record Swing := mkSwing {
  s_ID : string; s_Kind : PivotKind; s_Layer : StructureLayer; s_Time : Z; s_Price : float;
  s_SourceTimeframe : string; s_ExcursionPrice : float; s_ExcursionATR : float;
  s_BarsToConfirm : Z; s_Strength : float; s_ConfirmedAt : Z
}.
Record PromotionConfig := mkPromotionConfig {
  MinimumExcursionATR : float; InternalATR : float; IntermediateATR : float; MajorATR : float
}.
Definition swingID (tf : string) (p : Pivot) : string :=
  tf +:+ ":" +:+ PivotKind_String (p_Kind p) +:+ ":" +:+ pretty (p_Time p).
Definition PromoteSwing (p : Pivot) (tf : string) (rightBars : Z) (cfg : PromotionConfig) : option Swing :=
  if (p_Strength p <? MinimumExcursionATR cfg)%float then None
  else
    let layer :=
      if (p_Strength p >=? MajorATR cfg)%float then StructureMajor
      else if (p_Strength p >=? IntermediateATR cfg)%float then StructureIntermediate
      else if (p_Strength p >=? InternalATR cfg)%float then StructureInternal
      else StructureMicro in
    Some (mkSwing (swingID tf p) (p_Kind p) layer (p_Time p) (p_Price p) tf (p_ExcursionPrice p)
            (p_Strength p) rightBars (p_Strength p) (p_ConfirmedAt p)).

(** * classifier.go *)

Inductive SwingRelation :=
  RelationUnknown | HigherHigh | HigherLow | LowerHigh | LowerLow | EqualHigh | EqualLow.
#[export] Instance SwingRelation_eq_dec : EqDecision SwingRelation.
Proof. solve_decision. Defined.
Definition SwingRelation_String (r : SwingRelation) : string :=
  match r with
  | HigherHigh => "HH" | HigherLow => "HL" | LowerHigh => "LH" | LowerLow => "LL" | EqualHigh => "EqH" | EqualLow => "EqL"
  | RelationUnknown => "unknown"
  end.
Definition absf (v : float) : float := if (v <? 0)%float then (- v)%float else v.
Definition ClassifySwingRelation (current previous : Swing) (atr toleranceATR : float) : SwingRelation :=
  if negb (bool_decide (s_Kind current = s_Kind previous)) then RelationUnknown
  else
    let tolerance := (toleranceATR * atr)%float in
    let diff := Price_Sub (s_Price current) (s_Price previous) in
    if (absf diff <=? tolerance)%float then
      match s_Kind current with PivotHigh => EqualHigh | PivotLow => EqualLow end
    else match s_Kind current with
      | PivotHigh => if (diff >? 0)%float then HigherHigh else LowerHigh
      | PivotLow => if (diff >? 0)%float then HigherLow else LowerLow
      end.

(** * displacement.go *)

Record Displacement := mkDisplacement {
  d_Direction : string; d_StartTime : Z; d_EndTime : Z; d_RangeATR : float;
  d_BodyDominance : float; d_Strength : float
}.
Record DisplacementConfig := mkDisplacementConfig { dc_RangeATR : float; dc_BodyDominance : float }.

Definition strong_candle (cfg : DisplacementConfig) (c : Candle) : bool :=
  let r := Range c in
  if (r <=? 0)%float then false else (Body c / r >=? dc_BodyDominance cfg)%float.
(** One turn of the loop: the prefix run [sub], [None] for [continue]. *)
Definition displacement_run (sub : list Candle) (atr : float) (cfg : DisplacementConfig) :
    option Displacement :=
  let first := default zero_Candle (head sub) in
  let final := default zero_Candle (last sub) in
  let netMove := (c_Close final - c_Open first)%float in
  let rangeATR := (absf netMove / atr)%float in
  if (rangeATR <? dc_RangeATR cfg)%float then None
  else
    let strongCount := length (List.filter (strong_candle cfg) sub) in
    let bodyDominance := (f64_of_Z (Z.of_nat strongCount) / f64_of_Z (Z.of_nat (length sub)))%float in
    let minStrong := if length sub / 2 <? 1 then 1 else length sub / 2 in
    if strongCount <? minStrong then None
    else
      let direction := if (netMove <? 0)%float then Sell else Buy in
      Some (mkDisplacement direction (c_Time first) (c_Time final) rangeATR bodyDominance
              (rangeATR * bodyDominance)%float).
Definition DetectDisplacement (candles : list Candle) (from : Z) (maxBars : nat) (atr : float)
    (cfg : DisplacementConfig) : option Displacement :=
  if (atr <=? 0)%float || (from <? 0)%Z || (Z.of_nat (length candles) <=? from)%Z then None
  else
    let from := Z.to_nat from in
    let end' := if length candles <? from + maxBars then length candles else from + maxBars in
    let run := slice candles from end' in
    first_some (λ n, displacement_run (take n run) atr cfg) (length run) 1.

(** * break.go *)

Inductive BreakType := BreakWick | BreakClose | BreakDisplacement | BreakSweep | BreakFailed.
#[export] Instance BreakType_eq_dec : EqDecision BreakType.
Proof. solve_decision. Defined.
Inductive EventKind := EventNone | EventBOS | EventCHoCH.
#[export] Instance EventKind_eq_dec : EqDecision EventKind.
Proof. solve_decision. Defined.

Record StructureBreak := mkBreak {
  k_Time : Z; k_Direction : string; k_Layer : StructureLayer; k_BrokenSwingID : string;
  k_Type : BreakType; k_PenetrationPrice : float; k_PenetrationATR : float; k_CloseBeyond : bool;
  k_Displacement : bool; k_Event : EventKind; k_ConfirmedAt : Z
}.
Record BreakConfig := mkBreakConfig {
  MinimumPenetrationATR : float; SweepReclaimBars : nat; FailedBreakReclaimBars : nat;
  DisplacementMaxBars : nat; b_Displacement : DisplacementConfig
}.

Definition directionFor (level : Swing) : string :=
  match s_Kind level with PivotHigh => Buy | PivotLow => Sell end.
Definition wickBeyond (c : Candle) (level : Swing) (tol : float) : bool * float :=
  let p := match s_Kind level with
    | PivotHigh => (c_High c - s_Price level)%float
    | PivotLow => (s_Price level - c_Low c)%float
    end in ((p >? tol)%float, p).
Definition closeBeyond (c : Candle) (level : Swing) : bool :=
  match s_Kind level with
  | PivotHigh => (c_Close c >? s_Price level)%float
  | PivotLow => (c_Close c <? s_Price level)%float
  end.
Definition reclaimed (c : Candle) (level : Swing) : bool :=
  match s_Kind level with
  | PivotHigh => (c_Close c <=? s_Price level)%float
  | PivotLow => (c_Close c >=? s_Price level)%float
  end.
Definition penetrationAt (c : Candle) (level : Swing) : float :=
  match s_Kind level with
  | PivotHigh => (c_Close c - s_Price level)%float
  | PivotLow => (s_Price level - c_Close c)%float
  end.
Definition safeDiv (a b : float) : float := if (b <=? 0)%float then 0%float else (a / b)%float.

(** The first index in [[from, to]] whose candle satisfies [f]; [None] for -1. *)
Definition first_index (f : Candle → bool) (candles : list Candle) (from to : nat) : option nat :=
  first_some (λ k, if f (candles !!! k) then Some k else None) (S to - from) from.

(** The classification of the crossing found at [i]: always a break. *)
Definition resolve_break (candles : list Candle) (i : nat) (level : Swing) (atrSeries : list float)
    (cfg : BreakConfig) : StructureBreak :=
  let direction := directionFor level in
  let atr := atrAt atrSeries i in
  let penetration := snd (wickBeyond (candles !!! i) level (MinimumPenetrationATR cfg * atr)%float) in
  let reclaimWindow :=
    if SweepReclaimBars cfg <? FailedBreakReclaimBars cfg
    then FailedBreakReclaimBars cfg else SweepReclaimBars cfg in
  let lastIndex := length candles - 1 in
  let scanEnd := if lastIndex <? i + reclaimWindow then lastIndex else i + reclaimWindow in
  match first_index (λ c, closeBeyond c level) candles i scanEnd with
  | None =>
      mkBreak (c_Time (candles !!! i)) direction (s_Layer level) (s_ID level) BreakWick
        penetration (safeDiv penetration atr) false false EventNone (c_Time (candles !!! scanEnd))
  | Some closeBeyondAt =>
      let reclaimScanEnd :=
        if lastIndex <? closeBeyondAt + SweepReclaimBars cfg
        then lastIndex else closeBeyondAt + SweepReclaimBars cfg in
      let closeAtr := atrAt atrSeries closeBeyondAt in
      let closePenetration := penetrationAt (candles !!! closeBeyondAt) level in
      match first_index (λ c, reclaimed c level) candles (closeBeyondAt + 1) reclaimScanEnd with
      | Some reclaimAt =>
          let breakType :=
            if reclaimAt - closeBeyondAt <=? FailedBreakReclaimBars cfg then BreakFailed else BreakSweep in
          mkBreak (c_Time (candles !!! closeBeyondAt)) direction (s_Layer level) (s_ID level) breakType
            closePenetration (safeDiv closePenetration closeAtr) true false EventNone
            (c_Time (candles !!! reclaimAt))
      | None =>
          let hasDisp :=
            match DetectDisplacement candles (Z.of_nat closeBeyondAt) (DisplacementMaxBars cfg) closeAtr
                    (b_Displacement cfg) with
            | Some disp => bool_decide (d_Direction disp = direction)
            | None => false
            end in
          mkBreak (c_Time (candles !!! closeBeyondAt)) direction (s_Layer level) (s_ID level)
            (if hasDisp then BreakDisplacement else BreakClose)
            closePenetration (safeDiv closePenetration closeAtr) true hasDisp EventNone
            (c_Time (candles !!! reclaimScanEnd))
      end
  end.
Definition crosses (candles : list Candle) (level : Swing) (atrSeries : list float)
    (cfg : BreakConfig) (i : nat) : bool :=
  fst (wickBeyond (candles !!! i) level (MinimumPenetrationATR cfg * atrAt atrSeries i)%float).
Definition DetectBreak (candles : list Candle) (fromIndex : nat) (level : Swing)
    (atrSeries : list float) (cfg : BreakConfig) : option StructureBreak :=
  first_some
    (λ i, if crosses candles level atrSeries cfg i
          then Some (resolve_break candles i level atrSeries cfg) else None)
    (length candles - fromIndex) fromIndex.

(** * hierarchy.go *)

Inductive TrendState := TrendUnknown | TrendBullish | TrendBearish | TrendRange.
#[export] Instance TrendState_eq_dec : EqDecision TrendState.
Proof. solve_decision. Defined.
Definition TrendState_String (t : TrendState) : string :=
  match t with TrendBullish => "bullish" | TrendBearish => "bearish" | TrendRange => "range" | TrendUnknown => "unknown" end.

Record LayerState := mkLayerState {
  l_Layer : StructureLayer; l_Trend : TrendState; l_LastHigh : option Swing; l_LastLow : option Swing;
  l_ProtectedHigh : option Swing; l_ProtectedLow : option Swing; l_LastBreak : option StructureBreak
}.
Definition referenceATR (s : Swing) : float :=
  if (s_ExcursionATR s <=? 0)%float then 0%float else (s_ExcursionPrice s / s_ExcursionATR s)%float.
Definition deriveTrend (highRelation lowRelation : SwingRelation) : TrendState :=
  let bullish := bool_decide (highRelation = HigherHigh) && bool_decide (lowRelation = HigherLow) in
  let bearish := bool_decide (highRelation = LowerHigh) && bool_decide (lowRelation = LowerLow) in
  if bullish then TrendBullish else if bearish then TrendBearish else TrendRange.

(** The loop's locals: the state being built and the two running relations. *)
Definition layer_step (layer : StructureLayer) (equalTolerance : float)
    (acc : LayerState * SwingRelation * SwingRelation) (s : Swing) :
    LayerState * SwingRelation * SwingRelation :=
  let '(state, highRelation, lowRelation) := acc in
  if negb (bool_decide (s_Layer s = layer)) then acc
  else
    let relate (prev : option Swing) old :=
      match prev with
      | Some p => ClassifySwingRelation s p (referenceATR s) equalTolerance
      | None => old
      end in
    let '(highRelation, lowRelation, lastHigh, lastLow) :=
      match s_Kind s with
      | PivotHigh => (relate (l_LastHigh state) highRelation, lowRelation, Some s, l_LastLow state)
      | PivotLow => (highRelation, relate (l_LastLow state) lowRelation, l_LastHigh state, Some s)
      end in
    let trend := deriveTrend highRelation lowRelation in
    (mkLayerState (l_Layer state) trend lastHigh lastLow
       (match trend with TrendBearish => lastHigh | _ => l_ProtectedHigh state end)
       (match trend with TrendBullish => lastLow | _ => l_ProtectedLow state end)
       (l_LastBreak state), highRelation, lowRelation).
Definition empty_layer (layer : StructureLayer) : LayerState :=
  mkLayerState layer TrendUnknown None None None None None.
Definition BuildLayerState (layer : StructureLayer) (swings : list Swing) (equalTolerance : float) :
    LayerState :=
  fst (fst (foldl (layer_step layer equalTolerance) (empty_layer layer, RelationUnknown, RelationUnknown) swings)).

(** * event.go *)

Definition swing_has_id (id : string) (s : option Swing) : bool :=
  match s with Some s => bool_decide (id = s_ID s) | None => false end.
Definition ClassifyEvent (brk : StructureBreak) (before : LayerState) : EventKind :=
  if negb (bool_decide (k_Type brk = BreakClose)) && negb (bool_decide (k_Type brk = BreakDisplacement))
  then EventNone
  else match l_Trend before with
  | TrendBullish =>
      if bool_decide (k_Direction brk = Buy) then EventBOS
      else if swing_has_id (k_BrokenSwingID brk) (l_ProtectedLow before) then EventCHoCH else EventNone
  | TrendBearish =>
      if bool_decide (k_Direction brk = Sell) then EventBOS
      else if swing_has_id (k_BrokenSwingID brk) (l_ProtectedHigh before) then EventCHoCH else EventNone
  | _ => if Direction_IsValid (k_Direction brk) then EventBOS else EventNone
  end.

(** * config.go, state.go, book.go *)

Record Settings := mkSettings {
  set_Version : string; PivotLeftBars : Z; PivotRightBars : Z; Promotion : PromotionConfig;
  EqualToleranceATR : float; set_Break : BreakConfig
}.
Record StructureState := mkStructureState {
  st_Micro : LayerState; st_Internal : LayerState; st_Intermediate : LayerState;
  st_Major : LayerState; st_Swings : list Swing; st_Breaks : list StructureBreak
}.
Definition currentProtectedLevel (layer : LayerState) : option Swing :=
  match l_Trend layer with
  | TrendBullish => l_ProtectedLow layer
  | TrendBearish => l_ProtectedHigh layer
  | _ => None
  end.
(** [None] for -1. *)
Definition indexAtOrAfter (candles : list Candle) (t : Z) : option nat :=
  let lo := bsearch (length candles) (λ mid, (c_Time (candles !!! mid) <? t)%Z) in
  if lo =? length candles then None else Some lo.
Definition set_event (brk : StructureBreak) (e : EventKind) : StructureBreak :=
  mkBreak (k_Time brk) (k_Direction brk) (k_Layer brk) (k_BrokenSwingID brk) (k_Type brk)
    (k_PenetrationPrice brk) (k_PenetrationATR brk) (k_CloseBeyond brk) (k_Displacement brk) e
    (k_ConfirmedAt brk).
Definition set_lastBreak (l : LayerState) (brk : StructureBreak) : LayerState :=
  mkLayerState (l_Layer l) (l_Trend l) (l_LastHigh l) (l_LastLow l) (l_ProtectedHigh l)
    (l_ProtectedLow l) (Some brk).
(** The body of the loop over the layers: the layer afterwards and the break it appended. *)
Definition update_layer (candles : list Candle) (atrSeries : list float) (cfg : BreakConfig)
    (layer : LayerState) : LayerState * list StructureBreak :=
  match currentProtectedLevel layer with
  | None => (layer, [])
  | Some protected =>
      match indexAtOrAfter candles (s_ConfirmedAt protected) with
      | None => (layer, [])
      | Some fromIndex =>
          match DetectBreak candles fromIndex protected atrSeries cfg with
          | None => (layer, [])
          | Some brk =>
              let brk := set_event brk (ClassifyEvent brk layer) in
              (set_lastBreak layer brk, [brk])
          end
      end
  end.
Definition promoted_swings (candles : list Candle) (atrSeries : list float) (tf : string)
    (settings : Settings) : list Swing :=
  omap (λ p, PromoteSwing p tf (PivotRightBars settings) (Promotion settings))
    (DetectPivots candles (PivotLeftBars settings) (PivotRightBars settings) atrSeries).
Definition Update (candles : list Candle) (atrSeries : list float) (tf : string) (settings : Settings) :
    StructureState :=
  let swings := promoted_swings candles atrSeries tf settings in
  let build layer := BuildLayerState layer swings (EqualToleranceATR settings) in
  let upd layer := update_layer candles atrSeries (set_Break settings) (build layer) in
  let '(micro, b1) := upd StructureMicro in
  let '(internal, b2) := upd StructureInternal in
  let '(intermediate, b3) := upd StructureIntermediate in
  let '(major, b4) := upd StructureMajor in
  mkStructureState micro internal intermediate major swings (b1 ++ b2 ++ b3 ++ b4).

Definition Book := gmap string StructureState.
Definition NewBook : Book := ∅.
Definition Book_Set (b : Book) (tf : string) (state : StructureState) : Book := <[tf := state]> b.
Definition Book_Get (b : Book) (tf : string) : option StructureState := b !! tf.

(** * Lemmas: loops over a prefix *)

Definition increasing (candles : list Candle) : Prop := StronglySorted Z.lt (map c_Time candles).

Lemma sorted_times_lt candles i j :
  increasing candles → i < j < length candles →
  (c_Time (candles !!! i) < c_Time (candles !!! j))%Z.
Proof.
  intros Hs Hij. unfold increasing in Hs.
  destruct (lookup_lt_is_Some_2 candles i) as [ci Ei]; [lia|].
  destruct (lookup_lt_is_Some_2 candles j) as [cj Ej]; [lia|].
  rewrite (list_lookup_total_correct _ _ _ Ei), (list_lookup_total_correct _ _ _ Ej).
  eapply (StronglySorted_lookup_lt (map c_Time candles) i j); [done|..|lia];
    rewrite list_lookup_fmap; by simplify_option_eq.
Qed.

Lemma sorted_times_inv candles i j :
  increasing candles → i < length candles → j < length candles →
  (c_Time (candles !!! i) < c_Time (candles !!! j))%Z → i < j.
Proof.
  intros Hs Hi Hj Ht. destruct (Nat.lt_trichotomy i j) as [|[->|]]; [done|lia|].
  pose proof (sorted_times_lt _ j i Hs ltac:(lia)). lia.
Qed.

(** The binary search by time finds where the candles at or after [t] start. *)
Definition at_or_after (t : Z) (candles : list Candle) : list Candle :=
  filter (λ c, (t <= c_Time c)%Z) candles.

Lemma time_search candles t :
  increasing candles →
  let k := bsearch (length candles) (λ mid, (c_Time (candles !!! mid) <? t)%Z) in
  k <= length candles ∧ drop k candles = at_or_after t candles.
Proof.
  intros Hs. set (below := λ mid, (c_Time (candles !!! mid) <? t)%Z). cbv zeta.
  destruct (bsearch_spec_bounded (length candles) below) as (Hk & Hlo & Hhi).
  { intros i j Hij. unfold below. intros Ht. destruct (decide (i = j)) as [->|]; [done|].
    pose proof (sorted_times_lt candles i j Hs ltac:(lia)). lia. }
  set (k := bsearch (length candles) below) in *. split; [done|].
  symmetry. apply filter_suffix. intros i c Hc. pose proof (lookup_lt_Some _ _ _ Hc) as Hi.
  pose proof (list_lookup_total_correct _ _ _ Hc) as E'.
  destruct (decide (k <= i)).
  - specialize (Hhi i ltac:(lia)). unfold below in Hhi. rewrite E' in Hhi. apply Z.ltb_ge in Hhi. split; [done|lia].
  - specialize (Hlo i ltac:(lia)). unfold below in Hlo. rewrite E' in Hlo. apply Z.ltb_lt in Hlo. lia.
Qed.

Lemma atrAt_take series n i : i < n → atrAt (take n series) i = atrAt series i.
Proof. intros. unfold atrAt. by rewrite lookup_take_lt. Qed.

Lemma first_index_Some f candles from to k :
  first_index f candles from to = Some k ↔
  from <= k <= to ∧ f (candles !!! k) = true ∧ ∀ j, from <= j < k → f (candles !!! j) = false.
Proof.
  unfold first_index. rewrite first_some_Some. split.
  - intros (k' & Hk & Hf & Hn). destruct (f (candles !!! k')) eqn:E; [|done].
    injection Hf as ->. split_and!; [lia..|done|]. intros j Hj. specialize (Hn j Hj).
    by destruct (f (candles !!! j)).
  - intros (Hk & Hf & Hn). exists k. rewrite Hf. split_and!; [lia..|done|].
    intros j Hj. by rewrite Hn.
Qed.

Lemma first_index_None f candles from to :
  first_index f candles from to = None ↔ ∀ j, from <= j <= to → f (candles !!! j) = false.
Proof.
  unfold first_index. rewrite first_some_None. split; intros H j Hj.
  - specialize (H j ltac:(lia)). by destruct (f (candles !!! j)).
  - by rewrite H by lia.
Qed.

Lemma first_index_take f candles n from to :
  to < n → first_index f (take n candles) from to = first_index f candles from to.
Proof.
  intros. unfold first_index. apply first_some_ext. intros k Hk.
  by rewrite lookup_total_take by lia.
Qed.

(** * Lemmas: pivots *)

Lemma pivots_at_take candles left right series n i :
  i + right < n →
  pivots_at (take n candles) left right (take n series) i = pivots_at candles left right series i.
Proof.
  intros. unfold pivots_at.
  by rewrite !slice_take, !lookup_total_take, atrAt_take by lia.
Qed.

Lemma elem_of_pivots_at candles left right series i p :
  p ∈ pivots_at candles left right series i →
  p_BarIndex p = i ∧ p_Time p = c_Time (candles !!! i) ∧
  p_ConfirmedAt p = c_Time (candles !!! (i + right)%nat) ∧
  p_Strength p = strengthFromExcursion (p_ExcursionPrice p) (atrAt series i) ∧
  let l := slice candles (i - left) i in let r := slice candles (i + 1) (i + 1 + right) in
  match p_Kind p with
  | PivotHigh => p_Price p = c_High (candles !!! i) ∧ isPivotHigh (candles !!! i) l r = true
  | PivotLow => p_Price p = c_Low (candles !!! i) ∧ isPivotLow (candles !!! i) l r = true
  end.
Proof.
  unfold pivots_at. rewrite elem_of_app.
  destruct (isPivotHigh _ _ _) eqn:E1, (isPivotLow _ _ _) eqn:E2;
    rewrite ?list_elem_of_singleton, ?elem_of_nil; intros [H|H]; try done; subst; cbn;
    rewrite ?E1, ?E2; done.
Qed.

Lemma elem_of_DetectPivots candles left right series p :
  p ∈ DetectPivots candles left right series ↔
  at_least_1 left <= p_BarIndex p ∧ p_BarIndex p + at_least_1 right < length candles ∧
  p ∈ pivots_at candles (at_least_1 left) (at_least_1 right) series (p_BarIndex p).
Proof.
  unfold DetectPivots. rewrite list_elem_of_In, in_flat_map. split.
  - intros (i & Hi%in_seq & Hp). rewrite <- list_elem_of_In in Hp.
    pose proof (elem_of_pivots_at _ _ _ _ _ _ Hp) as [-> _]. split_and!; [lia..|done].
  - intros (Hl & Hr & Hp). exists (p_BarIndex p). rewrite in_seq, <- list_elem_of_In. split; [lia|done].
Qed.

Lemma at_least_1_pos n : 1 <= at_least_1 n.
Proof. unfold at_least_1. destruct (Z.ltb_spec n 1); lia. Qed.

(** The two window tests, as statements about the neighbours. *)
Lemma forallb_slice (f : Candle → bool) candles a b :
  forallb f (slice candles a b) = true → ∀ j, a <= j < b → j < length candles → f (candles !!! j) = true.
Proof.
  rewrite forallb_forall. intros H j Hj Hlen. apply H. apply list_elem_of_In.
  destruct (lookup_lt_is_Some_2 candles j) as [c Hc]; [done|].
  rewrite (list_lookup_total_correct _ _ _ Hc). apply (list_elem_of_lookup_2 _ (j - a)).
  rewrite lookup_slice. case_decide; [|lia]. by replace (a + (j - a)) with j by lia.
Qed.

Definition numeric (c : Candle) : bool :=
  negb (IsNaN (c_High c)) && negb (IsNaN (c_Low c)) && negb (IsNaN (c_Close c)).

Lemma pivot_dominates candles left right series p j :
  forallb numeric candles = true →
  p ∈ DetectPivots candles left right series →
  p_BarIndex p - at_least_1 left <= j <= p_BarIndex p + at_least_1 right → j ≠ p_BarIndex p →
  match p_Kind p with
  | PivotHigh => (key (c_High (candles !!! j)) < key (p_Price p))%Z
  | PivotLow => (key (p_Price p) < key (c_Low (candles !!! j)))%Z
  end.
Proof.
  intros Hnum (Hl & Hr & Hp)%elem_of_DetectPivots Hj Hne.
  apply elem_of_pivots_at in Hp as (_ & _ & _ & _ & Hp).
  assert (Hn : ∀ i, i < length candles → numeric (candles !!! i) = true).
  { intros i Hi. rewrite forallb_forall in Hnum. apply Hnum, list_elem_of_In.
    destruct (lookup_lt_is_Some_2 candles i) as [c Hc]; [done|].
    rewrite (list_lookup_total_correct _ _ _ Hc). by eapply list_elem_of_lookup_2. }
  pose proof (Hn (p_BarIndex p) ltac:(lia)) as Hi. pose proof (Hn j ltac:(lia)) as Hj'.
  unfold numeric in Hi, Hj'. bools.
  assert (Hside : j < p_BarIndex p ∨ p_BarIndex p < j) by lia.
  destruct (p_Kind p); destruct Hp as [-> Hwin]; apply andb_prop in Hwin as [HL HR].
  all: destruct Hside;
    [pose proof (forallb_slice _ _ _ _ HL j ltac:(lia) ltac:(lia)) as Hw
    |pose proof (forallb_slice _ _ _ _ HR j ltac:(lia) ltac:(lia)) as Hw].
  all: cbn beta in Hw; apply negb_true_iff in Hw; rewrite leb_num in Hw by done; lia.
Qed.

(** * Lemmas: breaks on a prefix *)

Lemma DetectDisplacement_take candles n from maxBars atr cfg :
  (from + Z.of_nat maxBars <= Z.of_nat n)%Z → (from < Z.of_nat n)%Z → n <= length candles →
  DetectDisplacement (take n candles) from maxBars atr cfg =
  DetectDisplacement candles from maxBars atr cfg.
Proof.
  intros Hb Hn Hlen. unfold DetectDisplacement. rewrite length_take, Nat.min_l by lia.
  destruct (Z.leb_spec (Z.of_nat n) from), (Z.leb_spec (Z.of_nat (length candles)) from); try lia.
  destruct (atr <=? 0)%float; [done|]. destruct (Z.ltb_spec from 0); [done|]. cbn [orb].
  destruct (Nat.ltb_spec n (Z.to_nat from + maxBars)); [lia|].
  destruct (Nat.ltb_spec (length candles) (Z.to_nat from + maxBars)); [lia|].
  by rewrite slice_take by lia.
Qed.

Lemma first_index_extend f candles n a b b' k :
  first_index f (take n candles) a b = Some k → b < n → b <= b' → first_index f candles a b' = Some k.
Proof.
  intros H Hb Hb'. rewrite first_index_take in H by done.
  apply first_index_Some in H as (Hk & Hf & Hn). apply first_index_Some. split_and!; [lia..|done|done].
Qed.

Lemma if_ltb_min a b : (if a <? b then a else b) = Nat.min a b.
Proof. destruct (Nat.ltb_spec a b); lia. Qed.
Lemma if_ltb_max a b : (if a <? b then b else a) = Nat.max a b.
Proof. destruct (Nat.ltb_spec a b); lia. Qed.

Lemma resolve_break_take candles n i level series cfg :
  increasing candles → i < n <= length candles → DisplacementMaxBars cfg <= SweepReclaimBars cfg + 1 →
  (k_ConfirmedAt (resolve_break (take n candles) i level (take n series) cfg)
     < c_Time (candles !!! (n - 1)%nat))%Z →
  resolve_break candles i level series cfg = resolve_break (take n candles) i level (take n series) cfg.
Proof.
  intros Hs Hi Hd. unfold resolve_break. rewrite !length_take, !Nat.min_l, !if_ltb_min, if_ltb_max by lia.
  set (rw := Nat.max (SweepReclaimBars cfg) (FailedBreakReclaimBars cfg)).
  assert (Ht : ∀ j, j < n → (c_Time (candles !!! j) < c_Time (candles !!! (n - 1)%nat))%Z → j < n - 1).
  { intros j Hj Hlt. apply (sorted_times_inv candles j (n - 1)); [done|lia|lia|done]. }
  destruct (first_index (λ c, closeBeyond c level) (take n candles) i _) as [k|] eqn:E1; cbn [k_ConfirmedAt].
  - rewrite (first_index_extend _ _ _ _ _ (Nat.min (length candles - 1) (i + rw)) _ E1), !if_ltb_min by lia.
    pose proof E1 as (Hk & _)%first_index_Some.
    destruct (first_index (λ c, reclaimed c level) (take n candles) (k + 1) _) as [q|] eqn:E2; cbn [k_ConfirmedAt].
    + rewrite (first_index_extend _ _ _ _ _ (Nat.min (length candles - 1) (k + SweepReclaimBars cfg)) _ E2) by lia.
      pose proof E2 as (Hq & _)%first_index_Some.
      rewrite !lookup_total_take, !atrAt_take by lia. done.
    + rewrite !lookup_total_take, !atrAt_take by lia. intros Hlt%Ht; [|lia].
      rewrite first_index_take in E2 by lia. rewrite DetectDisplacement_take by lia.
      replace (Nat.min (length candles - 1) (k + SweepReclaimBars cfg)) with
        (Nat.min (n - 1) (k + SweepReclaimBars cfg)) by lia.
      by rewrite E2.
  - rewrite !lookup_total_take, !atrAt_take by lia. intros Hlt%Ht; [|lia].
    replace (Nat.min (length candles - 1) (i + rw)) with (Nat.min (n - 1) (i + rw)) by lia.
    rewrite first_index_take in E1 by lia. by rewrite E1.
Qed.

Lemma crosses_take candles n level series cfg i :
  i < n → crosses (take n candles) level (take n series) cfg i = crosses candles level series cfg i.
Proof. intros. unfold crosses. by rewrite lookup_total_take, atrAt_take by done. Qed.

(** What [DetectBreak] promises of the crossing at [i]: the type, the index whose time the break
    carries, and the index that confirmed it. *)
Inductive break_shape (candles : list Candle) (level : Swing) (cfg : BreakConfig) (i : nat) :
    BreakType → nat → nat → Prop :=
  | shape_wick scanEnd :
      scanEnd = Nat.min (length candles - 1)
        (i + Nat.max (SweepReclaimBars cfg) (FailedBreakReclaimBars cfg)) →
      (∀ j, i <= j <= scanEnd → closeBeyond (candles !!! j) level = false) →
      break_shape candles level cfg i BreakWick i scanEnd
  | shape_reclaimed t k r :
      i <= k <= Nat.min (length candles - 1)
        (i + Nat.max (SweepReclaimBars cfg) (FailedBreakReclaimBars cfg)) →
      closeBeyond (candles !!! k) level = true →
      (∀ j, i <= j < k → closeBeyond (candles !!! j) level = false) →
      k < r < length candles → r <= k + SweepReclaimBars cfg →
      reclaimed (candles !!! r) level = true →
      (∀ j, k < j < r → reclaimed (candles !!! j) level = false) →
      t = (if r - k <=? FailedBreakReclaimBars cfg then BreakFailed else BreakSweep) →
      break_shape candles level cfg i t k r
  | shape_held t k e :
      i <= k <= Nat.min (length candles - 1)
        (i + Nat.max (SweepReclaimBars cfg) (FailedBreakReclaimBars cfg)) →
      closeBeyond (candles !!! k) level = true →
      (∀ j, i <= j < k → closeBeyond (candles !!! j) level = false) →
      e = Nat.min (length candles - 1) (k + SweepReclaimBars cfg) →
      (∀ j, k < j <= e → reclaimed (candles !!! j) level = false) →
      t = BreakClose ∨ t = BreakDisplacement →
      break_shape candles level cfg i t k e.

Lemma resolve_break_shape candles i level series cfg :
  i < length candles →
  let b := resolve_break candles i level series cfg in
  ∃ t c, break_shape candles level cfg i (k_Type b) t c ∧
    k_Time b = c_Time (candles !!! t) ∧ k_ConfirmedAt b = c_Time (candles !!! c) ∧
    k_Direction b = directionFor level ∧ k_BrokenSwingID b = s_ID level ∧ k_Layer b = s_Layer level ∧
    k_CloseBeyond b = negb (bool_decide (k_Type b = BreakWick)) ∧
    k_Displacement b = bool_decide (k_Type b = BreakDisplacement).
Proof.
  intros Hi. unfold resolve_break. rewrite !if_ltb_min, if_ltb_max.
  destruct (first_index (λ c, closeBeyond c level) _ _ _) as [k|] eqn:E1.
  - pose proof E1 as (Hk & Hck & Hnk)%first_index_Some. rewrite if_ltb_min.
    destruct (first_index (λ c, reclaimed c level) _ _ _) as [r|] eqn:E2.
    + pose proof E2 as (Hr & Hcr & Hnr)%first_index_Some.
      exists k, r. split; [|by destruct (_ <=? _)]. cbn [k_Type].
      eapply shape_reclaimed; try done; try lia. intros. apply Hnr. lia.
    + rewrite first_index_None in E2.
      exists k, (Nat.min (length candles - 1) (k + SweepReclaimBars cfg)). cbn [k_Type].
      split; [|destruct (DetectDisplacement _ _ _ _ _); [case_bool_decide|]; done].
      eapply shape_held; try done; try lia. { intros. apply E2. lia. }
      destruct (DetectDisplacement _ _ _ _ _); [case_bool_decide|]; auto.
  - rewrite first_index_None in E1. eexists i, _. split; [by eapply shape_wick|done].
Qed.

Lemma DetectBreak_Some candles from level series cfg b :
  DetectBreak candles from level series cfg = Some b ↔
  ∃ i, from <= i < length candles ∧ crosses candles level series cfg i = true ∧
    (∀ j, from <= j < i → crosses candles level series cfg j = false) ∧
    b = resolve_break candles i level series cfg.
Proof.
  unfold DetectBreak. rewrite first_some_Some. split.
  - intros (i & Hi & Hb & Hn). exists i. destruct (crosses _ _ _ _ i); [|done].
    injection Hb as <-. split_and!; [lia..|done| |done]. intros j Hj. specialize (Hn j Hj).
    by destruct (crosses _ _ _ _ j).
  - intros (i & Hi & Hc & Hn & ->). exists i. rewrite Hc. split_and!; [lia..|done|].
    intros j Hj. by rewrite Hn.
Qed.

Lemma DetectBreak_None candles from level series cfg :
  DetectBreak candles from level series cfg = None →
  ∀ i, from <= i < length candles → crosses candles level series cfg i = false.
Proof.
  unfold DetectBreak. rewrite first_some_None. intros H i Hi. specialize (H i ltac:(lia)).
  by destruct (crosses _ _ _ _ i).
Qed.

(** * Lemmas: the layer fold against a reference read *)

Definition side (layer : StructureLayer) (kind : PivotKind) (swings : list Swing) : list Swing :=
  filter (λ s, s_Layer s = layer ∧ s_Kind s = kind) swings.
Definition last_relation (tol : float) (same : list Swing) : SwingRelation :=
  match reverse same with
  | s :: p :: _ => ClassifySwingRelation s p (referenceATR s) tol
  | _ => RelationUnknown
  end.
Definition trend_of (layer : StructureLayer) (tol : float) (swings : list Swing) : TrendState :=
  match side layer PivotHigh swings, side layer PivotLow swings with
  | [], [] => TrendUnknown
  | highs, lows => deriveTrend (last_relation tol highs) (last_relation tol lows)
  end.

Lemma side_snoc layer kind swings s :
  side layer kind (swings ++ [s]) =
  if decide (s_Layer s = layer ∧ s_Kind s = kind) then side layer kind swings ++ [s]
  else side layer kind swings.
Proof.
  unfold side. rewrite filter_app, filter_cons, filter_nil. case_decide; [done|by rewrite app_nil_r].
Qed.

Lemma last_relation_snoc tol l s :
  last_relation tol (l ++ [s]) =
  match last l with Some p => ClassifySwingRelation s p (referenceATR s) tol | None => RelationUnknown end.
Proof. unfold last_relation. rewrite reverse_snoc, <- head_reverse. by destruct (reverse l). Qed.

Lemma relate_last tol l s old :
  old = last_relation tol l →
  match last l with Some p => ClassifySwingRelation s p (referenceATR s) tol | None => old end =
  last_relation tol (l ++ [s]).
Proof.
  intros ->. rewrite last_relation_snoc. destruct (last l) eqn:E; [done|].
  by apply last_None in E as ->.
Qed.

Lemma trend_of_nonempty layer tol swings s kind :
  s ∈ side layer kind swings →
  trend_of layer tol swings =
    deriveTrend (last_relation tol (side layer PivotHigh swings)) (last_relation tol (side layer PivotLow swings)).
Proof.
  unfold trend_of. intros H. destruct (side layer PivotHigh swings) eqn:E1; [|done].
  destruct (side layer PivotLow swings) eqn:E2; [|done].
  destruct kind; rewrite ?E1, ?E2 in H; by apply elem_of_nil in H.
Qed.

Definition layer_fold (layer : StructureLayer) (tol : float) (swings : list Swing) :=
  foldl (layer_step layer tol) (empty_layer layer, RelationUnknown, RelationUnknown) swings.

Record layer_reads (layer : StructureLayer) (tol : float) (swings : list Swing)
    (acc : LayerState * SwingRelation * SwingRelation) : Prop := {
  lr_high : acc.1.2 = last_relation tol (side layer PivotHigh swings);
  lr_low : acc.2 = last_relation tol (side layer PivotLow swings);
  lr_layer : l_Layer acc.1.1 = layer;
  lr_trend : l_Trend acc.1.1 = trend_of layer tol swings;
  lr_lastHigh : l_LastHigh acc.1.1 = last (side layer PivotHigh swings);
  lr_lastLow : l_LastLow acc.1.1 = last (side layer PivotLow swings);
  lr_break : l_LastBreak acc.1.1 = None;
  lr_bull : l_Trend acc.1.1 = TrendBullish → l_ProtectedLow acc.1.1 = l_LastLow acc.1.1;
  lr_bear : l_Trend acc.1.1 = TrendBearish → l_ProtectedHigh acc.1.1 = l_LastHigh acc.1.1;
}.

Lemma layer_fold_reads layer tol swings : layer_reads layer tol swings (layer_fold layer tol swings).
Proof.
  induction swings as [|s swings IH] using rev_ind; [by constructor|].
  unfold layer_fold in *. rewrite foldl_snoc.
  destruct (foldl _ _ swings) as [[st hr] lr]. destruct IH as [Hh Hl Hlay Ht HH HL Hb Hbu Hbe].
  cbn [fst snd] in *. unfold layer_step. case_bool_decide as Hlayer; cbn [negb].
  2:{ constructor; cbn [fst snd]; unfold trend_of; rewrite ?side_snoc, ?decide_False by naive_solver; done. }
  assert (Hin : ∀ k, s_Kind s = k → s ∈ side layer k (swings ++ [s])).
  { intros k Hk. unfold side. apply list_elem_of_filter. split; [done|]. set_solver. }
  pose proof (Hin _ eq_refl) as Hne. apply (trend_of_nonempty layer tol) in Hne.
  destruct (s_Kind s) eqn:Ek; [rewrite HH, (relate_last _ _ _ _ Hh)|rewrite HL, (relate_last _ _ _ _ Hl)].
  all: constructor; cbn [fst snd l_Trend l_Layer l_LastHigh l_LastLow l_LastBreak l_ProtectedLow l_ProtectedHigh].
  all: rewrite ?Hne, ?side_snoc, ?Ek, ?(decide_True (P:=_ ∧ _ = _)), ?(decide_False (P:=_ ∧ _ = _)),
    ?last_snoc by naive_solver.
  all: try done; try (by intros ->).
  - by rewrite Hl.
  - by rewrite Hh, decide_True.
Qed.

Lemma side_last layer kind swings s :
  last (side layer kind swings) = Some s → s_Layer s = layer ∧ s_Kind s = kind.
Proof.
  intros Hl%last_Some_elem_of. unfold side in Hl. by apply list_elem_of_filter in Hl as [? _].
Qed.

(** The protected level follows the trend: it is the latest low at the latest bullish read (and
    symmetrically), and survives every other read. *)
Lemma protected_step layer tol swings s :
  let old := BuildLayerState layer swings tol in
  let new := BuildLayerState layer (swings ++ [s]) tol in
  l_ProtectedLow new =
    (if bool_decide (l_Trend new = TrendBullish) then l_LastLow new else l_ProtectedLow old) ∧
  l_ProtectedHigh new =
    (if bool_decide (l_Trend new = TrendBearish) then l_LastHigh new else l_ProtectedHigh old).
Proof.
  unfold BuildLayerState. fold (layer_fold layer tol swings) (layer_fold layer tol (swings ++ [s])).
  pose proof (layer_fold_reads layer tol (swings ++ [s])) as [_ _ _ _ _ _ _ Hbu Hbe].
  unfold layer_fold in *. rewrite foldl_snoc in *.
  destruct (foldl _ _ swings) as [[st hr] lr]. unfold layer_step in *.
  destruct (negb _).
  { cbn [fst snd] in *. do 2 case_bool_decide; naive_solver. }
  destruct (s_Kind s); cbn [fst snd l_Trend l_ProtectedLow l_ProtectedHigh l_LastHigh l_LastLow];
    match goal with |- context [deriveTrend ?a ?b] => destruct (deriveTrend a b) end; done.
Qed.

(** A held break of a layer's protected level is a change of character, any other break of it is
    no event. *)
Definition held (brk : StructureBreak) : bool :=
  bool_decide (k_Type brk = BreakClose) || bool_decide (k_Type brk = BreakDisplacement).
Definition against (trend : TrendState) : string :=
  if bool_decide (trend = TrendBullish) then Sell else Buy.

Lemma ClassifyEvent_protected brk st s :
  currentProtectedLevel st = Some s → k_BrokenSwingID brk = s_ID s →
  k_Direction brk = against (l_Trend st) →
  ClassifyEvent brk st = if held brk then EventCHoCH else EventNone.
Proof.
  unfold currentProtectedLevel, ClassifyEvent, held, against. rewrite <- negb_orb.
  destruct (bool_decide (k_Type brk = BreakClose) || _); [|done]. cbn [negb].
  destruct (l_Trend st); try done; intros Hp Hid Hd;
    rewrite Hd, Hp, Hid; cbn [swing_has_id]; by rewrite (bool_decide_true (s_ID s = s_ID s)).
Qed.

Lemma protected_side layer tol swings s :
  currentProtectedLevel (BuildLayerState layer swings tol) = Some s →
  s_Layer s = layer ∧ directionFor s = against (l_Trend (BuildLayerState layer swings tol)) ∧
  l_Trend (BuildLayerState layer swings tol) ∈ [TrendBullish; TrendBearish].
Proof.
  pose proof (layer_fold_reads layer tol swings) as [_ _ _ _ HH HL _ Hbu Hbe].
  unfold BuildLayerState. fold (layer_fold layer tol swings).
  set (st := fst (fst (layer_fold layer tol swings))) in *. unfold currentProtectedLevel, directionFor.
  destruct (l_Trend st); try done.
  - rewrite (Hbu eq_refl), HL. intros [-> ->]%side_last. set_solver.
  - rewrite (Hbe eq_refl), HH. intros [-> ->]%side_last. set_solver.
Qed.

(** * Properties *)

(** Pivot detection is causal: what a prefix of the candles shows is exactly those pivots of
    the whole series that were confirmed by the last candle of the prefix. *)
Theorem pivots_causal candles left right series n final :
  increasing candles → last (take n candles) = Some final →
  DetectPivots (take n candles) left right (take n series) =
  filter (λ p, (p_ConfirmedAt p <= c_Time final)%Z) (DetectPivots candles left right series).
Proof.
  intros Hs Hlast. unfold DetectPivots.
  set (L := at_least_1 left). set (R := at_least_1 right). pose proof (at_least_1_pos right).
  rewrite length_take. set (m := Nat.min n (length candles)).
  assert (Hfin : 0 < m ∧ candles !!! (m - 1)%nat = final).
  { rewrite last_lookup, length_take in Hlast. fold m in Hlast.
    pose proof (lookup_lt_Some _ _ _ Hlast) as Hm. rewrite length_take in Hm. fold m in Hm.
    split; [lia|]. replace (m - 1) with (pred m) by lia.
    rewrite lookup_take_lt in Hlast by lia. by apply list_lookup_total_correct. }
  destruct Hfin as [Hm Hfin].
  assert (Hconf : ∀ i, i + R < length candles →
    Forall (λ p, (p_ConfirmedAt p <= c_Time final)%Z ↔ i + R < m) (pivots_at candles L R series i)).
  { intros i Hi. apply Forall_forall. intros p (_ & _ & -> & _)%elem_of_pivots_at. rewrite <- Hfin.
    destruct (decide (i + R < m)).
    - split; [done|]. intros _. destruct (decide (i + R = m - 1)) as [->|]; [lia|].
      pose proof (sorted_times_lt candles (i + R) (m - 1) Hs ltac:(lia)). lia.
    - split; [|done]. intros Hle. pose proof (sorted_times_lt candles (m - 1) (i + R) Hs ltac:(lia)). lia. }
  replace (length candles - R - L) with ((m - R - L) + (length candles - R - L - (m - R - L))) by lia.
  rewrite seq_app, flat_map_app, filter_app.
  rewrite (filter_none _ (flat_map _ (seq (L + (m - R - L)) _))), app_nil_r.
  2:{ apply Forall_forall. intros p (i & [Hi1 Hi2]%in_seq & Hp)%list_elem_of_In%in_flat_map.
      apply list_elem_of_In in Hp. specialize (Hconf i ltac:(lia)). rewrite Forall_forall in Hconf.
      rewrite (Hconf p Hp). lia. }
  rewrite filter_all.
  2:{ apply Forall_forall. intros p (i & [Hi1 Hi2]%in_seq & Hp)%list_elem_of_In%in_flat_map.
      apply list_elem_of_In in Hp. specialize (Hconf i ltac:(lia)). rewrite Forall_forall in Hconf.
      rewrite (Hconf p Hp). lia. }
  rewrite !flat_map_concat_map. f_equal. apply map_ext_in. intros i [Hi1 Hi2]%in_seq.
  apply pivots_at_take. lia.
Qed.

Definition demo_high (t : Z) (h : float) : Candle := mkCandle t h h (h - 1) (h - 0.5) 1.
Definition demo_hills : list Candle :=
  [demo_high 1 10; demo_high 2 12; demo_high 3 10; demo_high 4 9; demo_high 5 13; demo_high 6 8]%float.
Lemma demo_hills_increasing : increasing demo_hills.
Proof. unfold increasing. cbn. repeat constructor. Qed.

Lemma pivots_causal_witness :
  DetectPivots (take 5 demo_hills) 1 1 (take 5 []) =
    filter (λ p, (p_ConfirmedAt p <= 5)%Z) (DetectPivots demo_hills 1 1 []) ∧
  map p_BarIndex (DetectPivots demo_hills 1 1 []) = [1; 3; 4].
Proof.
  split; [|vm_compute; reflexivity].
  apply (pivots_causal demo_hills 1 1 [] 5 (demo_high 5 13) demo_hills_increasing). reflexivity.
Defined.

(** A pivot is a strict extremum of its whole confirmation window, so two pivots of one kind
    are never closer than the shorter side of that window. *)
Theorem pivots_separated candles left right series p q :
  forallb numeric candles = true →
  p ∈ DetectPivots candles left right series → q ∈ DetectPivots candles left right series →
  p_Kind p = p_Kind q → p_BarIndex p < p_BarIndex q →
  Nat.min (at_least_1 left) (at_least_1 right) < p_BarIndex q - p_BarIndex p ∧
  (∀ j, p_BarIndex p - at_least_1 left <= j <= p_BarIndex p + at_least_1 right → j ≠ p_BarIndex p →
    match p_Kind p with
    | PivotHigh => (key (c_High (candles !!! j)) < key (c_High (candles !!! p_BarIndex p)))%Z
    | PivotLow => (key (c_Low (candles !!! p_BarIndex p)) < key (c_Low (candles !!! j)))%Z
    end).
Proof.
  intros Hnum Hp Hq Hk Hlt.
  assert (Hprice : ∀ p, p ∈ DetectPivots candles left right series →
    p_Price p = match p_Kind p with PivotHigh => c_High (candles !!! p_BarIndex p)
                | PivotLow => c_Low (candles !!! p_BarIndex p) end).
  { intros x (_ & _ & (_ & _ & _ & _ & H)%elem_of_pivots_at)%elem_of_DetectPivots.
    by destruct (p_Kind x), H. }
  pose proof (pivot_dominates _ _ _ _ p (p_BarIndex q) Hnum Hp) as H1.
  pose proof (pivot_dominates _ _ _ _ q (p_BarIndex p) Hnum Hq) as H2.
  rewrite (Hprice _ Hp) in H1. rewrite (Hprice _ Hq) in H2. rewrite <- Hk in H2. split.
  - destruct (decide (Nat.min (at_least_1 left) (at_least_1 right) < p_BarIndex q - p_BarIndex p)); [done|].
    specialize (H1 ltac:(lia) ltac:(lia)). specialize (H2 ltac:(lia) ltac:(lia)).
    destruct (p_Kind p); lia.
  - intros j Hj Hne. pose proof (pivot_dominates _ _ _ _ p j Hnum Hp Hj Hne) as H.
    rewrite (Hprice _ Hp) in H. by destruct (p_Kind p).
Qed.

Lemma pivots_separated_witness : 1 < 4 - 1 ∧ p_BarIndex <$> filter (λ p, p_Kind p = PivotHigh)
    (DetectPivots demo_hills 1 1 []) = [1; 4].
Proof.
  split; [|vm_compute; reflexivity].
  set (ps := DetectPivots demo_hills 1 1 []).
  destruct (pivots_separated demo_hills 1 1 [] (ps !!! 0%nat) (ps !!! 2%nat)) as [H _];
    [reflexivity|apply (list_elem_of_lookup_2 _ 0); reflexivity
    |apply (list_elem_of_lookup_2 _ 2); reflexivity|reflexivity|vm_compute; lia|exact H].
Defined.

Definition layer_rank (l : StructureLayer) : nat :=
  match l with StructureMicro => 0 | StructureInternal => 1 | StructureIntermediate => 2 | StructureMajor => 3 end.

(** Promotion is monotone in strength: whatever the configured ladder, a pivot at least as
    strong as a promoted one is promoted too, to a layer at least as high. *)
Theorem promotion_monotone p q tf rightBars cfg s :
  IsNaN (p_Strength p) = false → IsNaN (p_Strength q) = false →
  (key (p_Strength p) <= key (p_Strength q))%Z →
  IsNaN (MinimumExcursionATR cfg) = false →
  PromoteSwing p tf rightBars cfg = Some s →
  ∃ s', PromoteSwing q tf rightBars cfg = Some s' ∧ layer_rank (s_Layer s) <= layer_rank (s_Layer s').
Proof.
  intros Np Nq Hle Nm. unfold PromoteSwing. rewrite !ltb_num by done.
  destruct (Z.ltb_spec (key (p_Strength p)) (key (MinimumExcursionATR cfg))); [done|].
  destruct (Z.ltb_spec (key (p_Strength q)) (key (MinimumExcursionATR cfg))); [lia|].
  intros [= <-]. eexists. split; [done|]. cbn [s_Layer].
  assert (Hup : ∀ t, (p_Strength p >=? t)%float = true → (p_Strength q >=? t)%float = true).
  { intros t. rewrite !leb_key, Np, Nq. destruct (IsNaN t); [done|]. cbn [negb andb]. lia. }
  destruct (p_Strength p >=? MajorATR cfg)%float eqn:E1; [by rewrite Hup|].
  destruct (p_Strength p >=? IntermediateATR cfg)%float eqn:E2; [rewrite (Hup _ E2); split_ifs; cbn; lia|].
  destruct (p_Strength p >=? InternalATR cfg)%float eqn:E3; [rewrite (Hup _ E3)|]; split_ifs; cbn; lia.
Qed.

Definition demo_promotion : PromotionConfig := mkPromotionConfig 0.5 1 2 3.
Definition demo_pivot (strength : float) : Pivot := mkPivot PivotHigh 10 3 100 200 1 strength.
Lemma promotion_monotone_witness :
  ∃ s', PromoteSwing (demo_pivot 2.5) "M5" 2 demo_promotion = Some s' ∧ 1 <= layer_rank (s_Layer s').
Proof.
  destruct (promotion_monotone (demo_pivot 1.5) (demo_pivot 2.5) "M5" 2 demo_promotion
    (mkSwing "M5:high:100" PivotHigh StructureInternal 100 10 "M5" 1 1.5 2 1.5 200)) as (s' & H & Hr);
    [reflexivity|reflexivity|vm_compute; discriminate|reflexivity|vm_compute; reflexivity|].
  exists s'. split; [exact H|exact Hr].
Defined.

(** A pivot of unknown strength (an ATR warm-up value is NaN) clears no threshold and is still
    promoted. *)
Lemma nan_strength_promoted :
  ∃ s, PromoteSwing (demo_pivot (strengthFromExcursion 1 nan)) "M5" 2 demo_promotion = Some s ∧
    s_Layer s = StructureMicro.
Proof. eexists. split; [vm_compute; reflexivity|reflexivity]. Qed.

(** The layer read is the reference read: the trend is derived from the last two highs and the
    last two lows of the layer alone, the last swings are the layer's last, and the protected
    level moves exactly when the trend confirms its side. *)
Theorem layer_state_reference layer swings tol :
  let st := BuildLayerState layer swings tol in
  l_Trend st = trend_of layer tol swings ∧
  l_LastHigh st = last (side layer PivotHigh swings) ∧
  l_LastLow st = last (side layer PivotLow swings) ∧
  l_Layer st = layer ∧ l_LastBreak st = None ∧
  (∀ before s, swings = before ++ [s] →
    l_ProtectedLow st = (if bool_decide (l_Trend st = TrendBullish) then l_LastLow st
                         else l_ProtectedLow (BuildLayerState layer before tol)) ∧
    l_ProtectedHigh st = (if bool_decide (l_Trend st = TrendBearish) then l_LastHigh st
                          else l_ProtectedHigh (BuildLayerState layer before tol))).
Proof.
  pose proof (layer_fold_reads layer tol swings) as [_ _ ? ? ? ? ? _ _].
  split_and!; [done..|]. intros before s ->. apply protected_step.
Qed.

(** [C25] A level crossing is classified as documented: the break reported is of the first crossing
    beyond the tolerance; it is a wick when no close goes beyond the level within the reclaim
    windows, failed or swept when a later close comes back in time, and held (close or
    displacement) when none does; and it is never confirmed by a candle that does not exist. *)
Theorem break_classified candles from level series cfg :
  match DetectBreak candles from level series cfg with
  | None => ∀ i, from <= i < length candles → crosses candles level series cfg i = false
  | Some b =>
      ∃ i t c, from <= i <= t ∧ t <= c < length candles ∧ crosses candles level series cfg i = true ∧
        (∀ j, from <= j < i → crosses candles level series cfg j = false) ∧
        break_shape candles level cfg i (k_Type b) t c ∧
        k_Time b = c_Time (candles !!! t) ∧ k_ConfirmedAt b = c_Time (candles !!! c) ∧
        k_Direction b = directionFor level ∧ k_BrokenSwingID b = s_ID level ∧ k_Layer b = s_Layer level ∧
        k_CloseBeyond b = negb (bool_decide (k_Type b = BreakWick)) ∧
        k_Displacement b = bool_decide (k_Type b = BreakDisplacement)
  end.
Proof.
  destruct (DetectBreak _ _ _ _ _) as [b|] eqn:E; [|by apply DetectBreak_None].
  apply DetectBreak_Some in E as (i & Hi & Hc & Hn & ->).
  destruct (resolve_break_shape candles i level series cfg ltac:(lia)) as (t & c & Hs & Hrest).
  exists i, t, c. assert (i <= t <= c ∧ c < length candles) as [? ?]; [|split_and!; try lia; naive_solver].
  inversion Hs; subst; lia.
Qed.

(** Break detection is causal once decided: a classification confirmed before the last candle
    of a prefix is the one every longer history gives, provided the displacement scan looks no
    further than the reclaim window (the configuration sets the two equal). *)
Theorem break_stable candles n from level series cfg b :
  increasing candles → n <= length candles →
  DisplacementMaxBars cfg <= SweepReclaimBars cfg + 1 →
  DetectBreak (take n candles) from level (take n series) cfg = Some b →
  (k_ConfirmedAt b < c_Time (candles !!! (n - 1)%nat))%Z →
  DetectBreak candles from level series cfg = Some b.
Proof.
  intros Hs Hn Hd (i & Hi & Hc & Hnone & ->)%DetectBreak_Some Hconf. rewrite length_take in Hi.
  apply DetectBreak_Some. exists i. split_and!; [lia..| | |].
  - by rewrite crosses_take in Hc by lia.
  - intros j Hj. rewrite <- (crosses_take _ n) by lia. by apply Hnone.
  - symmetry. apply resolve_break_take; [done|lia|done|done].
Qed.

Definition demo_break : BreakConfig := mkBreakConfig 0.1 1 1 1 (mkDisplacementConfig 1.5 0.55).
Definition demo_level : Swing := mkSwing "M5:high:2" PivotHigh StructureMajor 2 12 "M5" 2 3 1 3 3.
Definition demo_longer : list Candle := demo_hills ++ [demo_high 7 8; demo_high 8 20].
Definition demo_ones : list float := replicate 8 1%float.
Lemma break_stable_witness :
  ∃ b, DetectBreak demo_longer 2 demo_level demo_ones demo_break = Some b ∧ k_Type b = BreakFailed.
Proof.
  destruct (DetectBreak (take 7 demo_longer) 2 demo_level (take 7 demo_ones) demo_break) as [b|] eqn:E;
    [|vm_compute in E; discriminate E].
  exists b. split; [|vm_compute in E; injection E as <-; reflexivity].
  apply (break_stable demo_longer 7 2 demo_level demo_ones demo_break b).
  - unfold increasing. cbn. repeat constructor.
  - vm_compute; lia.
  - vm_compute; lia.
  - exact E.
  - vm_compute in E. injection E as <-. vm_compute. reflexivity.
Defined.

(** The level an established trend protects: the layer's latest low in a bullish one, its latest high in a bearish one. *)
Definition protected_level (layer : StructureLayer) (tol : float) (swings : list Swing) : option Swing :=
  match trend_of layer tol swings with
  | TrendBullish => last (side layer PivotLow swings)
  | TrendBearish => last (side layer PivotHigh swings)
  | _ => None
  end.
(** Candle [i] opens once the swing is known and trades through it by more than the minimum penetration. *)
Definition trades_through (candles : list Candle) (series : list float) (cfg : BreakConfig) (s : Swing) (i : nat) : Prop :=
  let c := candles !!! i in
  (s_ConfirmedAt s <= c_Time c)%Z ∧
  (match s_Kind s with PivotHigh => c_High c - s_Price s | PivotLow => s_Price s - c_Low c end >?
    MinimumPenetrationATR cfg * atrAt series i)%float = true.
(** What a layer says of the break of its protected level. *)
Definition break_read (candles : list Candle) (series : list float) (cfg : BreakConfig) (layer : StructureLayer) (tol : float)
    (swings : list Swing) (brk : option StructureBreak) : Prop :=
  match brk with
  | None => ∀ s i, protected_level layer tol swings = Some s → i < length candles → ¬ trades_through candles series cfg s i
  | Some brk => ∃ s i t c, protected_level layer tol swings = Some s ∧ i < length candles ∧ trades_through candles series cfg s i ∧
      (∀ j, j < i → ¬ trades_through candles series cfg s j) ∧
      break_shape candles s cfg i (k_Type brk) t c ∧ i <= t <= c ∧ c < length candles ∧
      k_Time brk = c_Time (candles !!! t) ∧ k_ConfirmedAt brk = c_Time (candles !!! c) ∧
      k_BrokenSwingID brk = s_ID s ∧ k_Layer brk = layer ∧ s_Layer s = layer ∧
      k_Direction brk = (if bool_decide (trend_of layer tol swings = TrendBullish) then Sell else Buy) ∧
      k_Event brk = (if bool_decide (k_Type brk = BreakClose ∨ k_Type brk = BreakDisplacement) then EventCHoCH else EventNone)
  end.
Lemma protected_level_spec layer tol swings :
  currentProtectedLevel (BuildLayerState layer swings tol) = protected_level layer tol swings ∧
  l_Layer (BuildLayerState layer swings tol) = layer ∧ l_Trend (BuildLayerState layer swings tol) = trend_of layer tol swings ∧
  l_LastBreak (BuildLayerState layer swings tol) = None.
Proof.
  pose proof (layer_fold_reads layer tol swings) as [_ _ Hlay Ht HH HL Hbr Hbu Hbe].
  unfold BuildLayerState. fold (layer_fold layer tol swings). set (st := fst (fst (layer_fold layer tol swings))) in *.
  split_and!; [|done..]. unfold currentProtectedLevel, protected_level. rewrite <- Ht.
  destruct (l_Trend st); [done| | |done]; [by rewrite (Hbu eq_refl)|by rewrite (Hbe eq_refl)].
Qed.
Lemma indexAtOrAfter_spec candles t :
  increasing candles →
  match indexAtOrAfter candles t with
  | Some lo => lo < length candles ∧ ∀ i, i < length candles → (t <= c_Time (candles !!! i))%Z ↔ lo <= i
  | None => ∀ i, i < length candles → ¬ (t <= c_Time (candles !!! i))%Z
  end.
Proof.
  intros Hs. unfold indexAtOrAfter.
  destruct (bsearch_spec_bounded (length candles) (λ mid, (c_Time (candles !!! mid) <? t)%Z)) as (H1 & H2 & H3).
  { intros i j Hij Hj. destruct (decide (i = j)) as [->|]; [done|]. pose proof (sorted_times_lt _ i j Hs ltac:(lia)). lia. }
  set (lo := bsearch _ _) in *. destruct (Nat.eqb_spec lo (length candles)) as [E|E].
  - intros i Hi. specialize (H2 i ltac:(lia)). lia.
  - split; [lia|]. intros i Hi. split.
    + intros Ht. apply Nat.nlt_ge. intros Hlt. specialize (H2 i Hlt). lia.
    + intros Hle. specialize (H3 i ltac:(lia)). lia.
Qed.
Lemma crosses_through candles series cfg s i :
  trades_through candles series cfg s i ↔ (s_ConfirmedAt s <= c_Time (candles !!! i))%Z ∧ crosses candles s series cfg i = true.
Proof. unfold trades_through, crosses, wickBeyond. cbn [fst]. done. Qed.
Lemma update_layer_exact candles series cfg layer swings tol :
  increasing candles →
  let r := update_layer candles series cfg (BuildLayerState layer swings tol) in
  snd r = option_list (l_LastBreak (fst r)) ∧ l_Layer (fst r) = layer ∧ l_Trend (fst r) = trend_of layer tol swings ∧
  break_read candles series cfg layer tol swings (l_LastBreak (fst r)).
Proof.
  intros Hs. cbv zeta. destruct (protected_level_spec layer tol swings) as (Hp & Hlay & Ht & Hbr).
  unfold update_layer. rewrite Hp. destruct (protected_level layer tol swings) as [s|] eqn:Es.
  2:{ cbn [fst snd]. rewrite Hbr. split_and!; [done..|]. intros s i E. by rewrite Es in E. }
  pose proof (protected_side _ _ _ _ Hp) as (Hl & Hd & _). rewrite Ht in Hd.
  pose proof (indexAtOrAfter_spec candles (s_ConfirmedAt s) Hs) as Hidx. destruct (indexAtOrAfter _ _) as [lo|].
  2:{ cbn [fst snd]. rewrite Hbr. split_and!; [done..|]. intros s' i E Hi [Hc _]. rewrite Es in E. injection E as <-. by apply (Hidx i). }
  destruct Hidx as [Hlo Hidx]. destruct (DetectBreak _ _ _ _ _) as [b|] eqn:E.
  2:{ cbn [fst snd]. rewrite Hbr. split_and!; [done..|]. intros s' i E' Hi [Hc Hx]%crosses_through. rewrite Es in E'. injection E' as <-.
      change (crosses candles s series cfg i = true) in Hx. pose proof (DetectBreak_None _ _ _ _ _ E i ltac:(split; [by apply Hidx|done])). congruence. }
  cbn [fst snd set_lastBreak l_LastBreak l_Layer l_Trend]. split_and!; [done..|].
  apply DetectBreak_Some in E as (i & Hi & Hx & Hn & ->).
  destruct (resolve_break_shape candles i s series cfg ltac:(lia)) as (t & c & Hsh & Htime & Hconf & Hdir & Hid & Hk & _).
  exists s, i, t, c. cbn [set_event k_Type k_Time k_ConfirmedAt k_BrokenSwingID k_Layer k_Direction k_Event].
  assert (i <= t <= c ∧ c < length candles) as [? ?] by (inversion Hsh; subst; lia).
  split_and!; try done; try lia.
  - by apply crosses_through; split; [apply Hidx; lia|].
  - intros j Hj [Hc Hy]%crosses_through. apply Hidx in Hc; [|lia]. change (crosses candles s series cfg j = true) in Hy. rewrite Hn in Hy by lia. done.
  - congruence.
  - rewrite Hdir, Hd. unfold against. by case_bool_decide.
  - rewrite (ClassifyEvent_protected _ _ s); [|done|done|by rewrite Hdir, Hd, Ht].
    unfold held. by repeat case_bool_decide; naive_solver.
Qed.

(** Higher highs and higher lows, and the two candles that close below the latest low. *)
Definition demo_turn : list Candle :=
  imap (λ i x, let '(o, h, l, c) := x in mkCandle (300 * Z.of_nat i) o h l c 1)
    [(10, 11, 9, 10); (11, 14, 11, 13); (12, 12, 10, 11); (12, 16, 11.5, 15); (14, 14, 11, 12); (12.5, 13.5, 11.75, 12);
     (12, 13, 10.5, 10.625); (10.625, 12, 10, 10.25); (10.25, 11, 9.875, 10)]%float.
Definition demo_structure_settings : Settings := mkSettings "v2" 1 1 (mkPromotionConfig 0.5 10 20 30) 0.125 demo_break.
