(* ===== verification/Liquidity.v ===== *)
(** Package liquidity: pools from swings and equal-level clusters, and the sweep and reclaim facts
    read off the candles. *)
From S2P Require Import Prelude Float64 Market Structure.
From Stdlib Require Import Floats.

(** * pool.go *)

Inductive LiquiditySide := LiquidityBuySide | LiquiditySellSide.
Record Pool := mkPool {
  po_ID : string; po_Side : LiquiditySide; po_Low : float; po_High : float; po_Layer : StructureLayer;
  po_Source : string; po_CreatedAt : Z; po_TouchCount : nat; po_FirstTouchAt : Z; po_LastTouchAt : Z;
  po_SweptAt : option Z; po_ReclaimedAt : option Z; po_Strength : float
}.
Definition PoolFromSwing (s : Swing) (atr toleranceATR : float) : Pool :=
  let '(side, source) :=
    match s_Kind s with
    | PivotLow => (LiquiditySellSide, "swing_low")
    | PivotHigh => (LiquidityBuySide, "swing_high")
    end in
  let band := (toleranceATR * atr)%float in
  mkPool ("pool:" +:+ s_SourceTimeframe s +:+ ":" +:+ source +:+ ":" +:+ pretty (s_Time s)) side
    (s_Price s - band)%float (s_Price s + band)%float (s_Layer s) source (s_ConfirmedAt s) 1
    (s_ConfirmedAt s) (s_ConfirmedAt s) None None (s_Strength s).

Definition sweeps (pool : Pool) (c : Candle) : bool :=
  match po_Side pool with
  | LiquidityBuySide => (c_High c >? po_High pool)%float
  | LiquiditySellSide => (c_Low c <? po_Low pool)%float
  end.
Definition reclaims (pool : Pool) (c : Candle) : bool :=
  match po_Side pool with
  | LiquidityBuySide => (c_Close c <=? po_High pool)%float
  | LiquiditySellSide => (c_Close c >=? po_Low pool)%float
  end.
(** [(0, -1, false)] is [None]. *)
Definition DetectSweep (candles : list Candle) (fromIndex : nat) (pool : Pool) : option (Z * nat) :=
  first_some (λ i, let c := candles !!! i in if sweeps pool c then Some (c_Time c, i) else None)
    (length candles - fromIndex) fromIndex.
Definition DetectReclaim (candles : list Candle) (sweptIndex reclaimBars : Z) (pool : Pool) : option Z :=
  if (sweptIndex <? 0)%Z || (Z.of_nat (length candles) <=? sweptIndex)%Z || (reclaimBars <? 0)%Z then None
  else
    let last := (Z.of_nat (length candles) - 1)%Z in
    let end' := if (last <? sweptIndex + reclaimBars)%Z then last else (sweptIndex + reclaimBars)%Z in
    first_some (λ i, let c := candles !!! i in if reclaims pool c then Some (c_Time c) else None)
      (Z.to_nat (end' + 1 - sweptIndex)) (Z.to_nat sweptIndex).

(** * equal_high_low.go *)

Definition withinToleranceOfAny (candidate : Swing) (cluster : list Swing) (tol : float) : bool :=
  existsb (λ member, Price_Distance (s_Price candidate) (s_Price member) <=? tol)%float cluster.
Definition poolFromCluster (cluster : list Swing) (kind : PivotKind) (layer : StructureLayer) : Pool :=
  let price0 := match cluster with s :: _ => s_Price s | [] => 0%float end in
  let touch0 := match cluster with s :: _ => s_ConfirmedAt s | [] => 0%Z end in
  let low := foldl (λ low s, if s_Price s <? low then s_Price s else low)%float price0 cluster in
  let high := foldl (λ high s, if s_Price s >? high then s_Price s else high)%float price0 cluster in
  let firstTouch := foldl (λ t s, if s_ConfirmedAt s <? t then s_ConfirmedAt s else t)%Z touch0 cluster in
  let lastTouch := foldl (λ t s, if t <? s_ConfirmedAt s then s_ConfirmedAt s else t)%Z touch0 cluster in
  let strengthSum := foldl (λ sum s, sum + s_Strength s)%float 0%float cluster in
  let '(side, source) :=
    match kind with
    | PivotLow => (LiquiditySellSide, "equal_low")
    | PivotHigh => (LiquidityBuySide, "equal_high")
    end in
  let n := f64_of_Z (Z.of_nat (length cluster)) in
  mkPool ("pool:" +:+ source +:+ ":" +:+ fmt_fixed 5 low +:+ ":" +:+ pretty firstTouch) side low high
    layer source firstTouch (length cluster) firstTouch lastTouch None None ((strengthSum / n) * n)%float.

(** The inner loop: the cluster grows over the later unused candidates; what it leaves is unused. *)
Definition grow_cluster (tol : float) (cluster : list Swing) (later : list Swing) :
    list Swing * list Swing :=
  foldl (λ '(cluster, unused) s,
    if withinToleranceOfAny s cluster tol then (cluster ++ [s], unused) else (cluster, unused ++ [s]))
    (cluster, []) later.
(** The outer loop over the candidates no earlier cluster has used, at most one turn each. *)
Fixpoint cluster_loop (fuel : nat) (tol : float) (unused : list Swing) : list (list Swing) :=
  match fuel, unused with
  | S fuel, s :: later =>
      let '(cluster, unused) := grow_cluster tol [s] later in
      cluster :: cluster_loop fuel tol unused
  | _, _ => []
  end.
Definition cluster_candidates (swings : list Swing) (kind : PivotKind) (layer : StructureLayer) : list Swing :=
  filter (λ s, s_Kind s = kind ∧ s_Layer s = layer) swings.
Definition ClusterEqualLevels (swings : list Swing) (kind : PivotKind) (layer : StructureLayer)
    (atr toleranceATR : float) (minTouches : Z) : list Pool :=
  let tol := (toleranceATR * atr)%float in
  let candidates := cluster_candidates swings kind layer in
  map (λ cluster, poolFromCluster cluster kind layer)
    (List.filter (λ cluster, negb (Z.of_nat (length cluster) <? minTouches)%Z)
      (cluster_loop (length candidates) tol candidates)).

(** * state.go, config.go, book.go *)

Record Config := mkConfig {
  cfg_Version : string; EqualLevelToleranceATR : float; PoolMinimumTouches : Z; SweepReclaimBars : Z
}.
Definition LiquidityState := list Pool.
Definition allLayers : list StructureLayer :=
  [StructureMicro; StructureInternal; StructureIntermediate; StructureMajor].
Definition bothKinds : list PivotKind := [PivotHigh; PivotLow].
Definition lastValue (series : list float) : float := default 0%float (last series).
Definition indexAtOrAfter (candles : list Candle) (t : Z) : option nat :=
  let lo := bsearch (length candles) (λ mid, (c_Time (candles !!! mid) <? t)%Z) in
  if lo =? length candles then None else Some lo.
Definition set_swept (p : Pool) (swept : Z) (reclaimed : option Z) : Pool :=
  mkPool (po_ID p) (po_Side p) (po_Low p) (po_High p) (po_Layer p) (po_Source p) (po_CreatedAt p)
    (po_TouchCount p) (po_FirstTouchAt p) (po_LastTouchAt p) (Some swept) reclaimed (po_Strength p).
(** The body of the last loop of [Update]. *)
Definition update_pool (candles : list Candle) (cfg : Config) (p : Pool) : Pool :=
  match indexAtOrAfter candles (po_CreatedAt p) with
  | None => p
  | Some fromIndex =>
      match DetectSweep candles fromIndex p with
      | None => p
      | Some (sweptAt, sweptIndex) =>
          match DetectReclaim candles (Z.of_nat sweptIndex) (SweepReclaimBars cfg) p with
          | Some r => set_swept p sweptAt (Some r)
          | None => set_swept p sweptAt (po_ReclaimedAt p)
          end
      end
  end.
Definition base_pools (atrSeries : list float) (swings : list Swing) (cfg : Config) : list Pool :=
  let currentATR := lastValue atrSeries in
  map (λ s, PoolFromSwing s currentATR (EqualLevelToleranceATR cfg)) swings ++
  flat_map (λ layer, flat_map (λ kind,
    ClusterEqualLevels swings kind layer currentATR (EqualLevelToleranceATR cfg) (PoolMinimumTouches cfg))
    bothKinds) allLayers.
Definition Update (candles : list Candle) (atrSeries : list float) (swings : list Swing) (cfg : Config) :
    LiquidityState :=
  map (update_pool candles cfg) (base_pools atrSeries swings cfg).

Definition Book := gmap string LiquidityState.
Definition NewBook : Book := ∅.
Definition Book_Set (b : Book) (tf : string) (state : LiquidityState) : Book := <[tf := state]> b.
Definition Book_Get (b : Book) (tf : string) : option LiquidityState := b !! tf.

(** * Lemmas: clustering *)

(** A chain: every later member was within tolerance of an earlier one when it joined. *)
Inductive chained (tol : float) : list Swing → Prop :=
  | chained_one s : chained tol [s]
  | chained_snoc c s : chained tol c → withinToleranceOfAny s c tol = true → chained tol (c ++ [s]).

Lemma grow_cluster_spec tol cluster later :
  chained tol cluster →
  let '(c, u) := grow_cluster tol cluster later in
  chained tol c ∧ c ++ u ≡ₚ cluster ++ later ∧ (∃ k, c = cluster ++ k) ∧ length u <= length later.
Proof.
  intros Hc. unfold grow_cluster.
  assert (H : ∀ u0, let '(c, u) := foldl (λ '(cluster, unused) s,
      if withinToleranceOfAny s cluster tol then (cluster ++ [s], unused) else (cluster, unused ++ [s]))
      (cluster, u0) later in
    chained tol c ∧ c ++ u ≡ₚ cluster ++ u0 ++ later ∧ (∃ k, c = cluster ++ k) ∧
    length u <= length u0 + length later).
  2:{ specialize (H []). destruct (foldl _ _ _). by cbn in H. }
  revert cluster Hc. induction later as [|s later IH]; intros cluster Hc u0; cbn [foldl].
  { split_and!; [done|by rewrite app_nil_r|by exists []; rewrite app_nil_r|cbn; lia]. }
  destruct (withinToleranceOfAny s cluster tol) eqn:E.
  - specialize (IH (cluster ++ [s]) ltac:(by constructor) u0). destruct (foldl _ _ _) as [c u].
    destruct IH as (H1 & H2 & (k & H3) & H4). split_and!; [done| | |cbn; lia].
    + rewrite H2. rewrite <- !app_assoc. cbn. apply Permutation_app_head. solve_Permutation.
    + exists (s :: k). rewrite H3, <- app_assoc. done.
  - specialize (IH cluster Hc (u0 ++ [s])). destruct (foldl _ _ _) as [c u].
    destruct IH as (H1 & H2 & H3 & H4). rewrite length_app in H4. cbn in H4.
    split_and!; [done| |done|cbn; lia]. rewrite H2, <- app_assoc. done.
Qed.

Lemma cluster_loop_spec fuel tol unused :
  length unused <= fuel →
  Forall (chained tol) (cluster_loop fuel tol unused) ∧ concat (cluster_loop fuel tol unused) ≡ₚ unused.
Proof.
  revert unused. induction fuel as [|fuel IH]; intros [|s later] Hf; cbn [cluster_loop length concat] in *;
    try (split; [constructor|done]); [lia|].
  pose proof (grow_cluster_spec tol [s] later (chained_one tol s)) as H.
  destruct (grow_cluster tol [s] later) as [c u]. destruct H as (H1 & H2 & _ & H4).
  destruct (IH u ltac:(lia)) as [IH1 IH2]. split; [by constructor|].
  cbn [concat]. by rewrite IH2, H2.
Qed.

Definition swing_numeric (s : Swing) : Prop := IsNaN (s_Price s) = false.

Lemma poolFromCluster_band cluster kind layer :
  cluster ≠ [] → Forall swing_numeric cluster →
  let p := poolFromCluster cluster kind layer in
  Forall (λ s, (key (po_Low p) <= key (s_Price s) <= key (po_High p))%Z ∧
               (po_FirstTouchAt p <= s_ConfirmedAt s <= po_LastTouchAt p)%Z) cluster ∧
  po_Low p ∈ map s_Price cluster ∧ po_High p ∈ map s_Price cluster ∧
  po_FirstTouchAt p ∈ map s_ConfirmedAt cluster ∧
  po_TouchCount p = length cluster ∧ po_CreatedAt p = po_FirstTouchAt p ∧
  po_SweptAt p = None ∧ po_ReclaimedAt p = None.
Proof.
  intros Hne Hn. destruct cluster as [|s0 cluster]; [done|]. unfold poolFromCluster.
  set (l := s0 :: cluster) in *.
  assert (Hin : ∀ {B} (f : Swing → B), f s0 ∈ map f l) by (intros; set_solver).
  assert (Hg : IsNaN (s_Price s0) = false) by (by inversion Hn).
  destruct (foldl_least (λ a b, (key a <= key b)%Z) (λ a b, (a <? b)%float) s_Price l (s_Price s0)
    (λ b, IsNaN b = false)) as (_ & _ & L1 & L2); [| | |intros; lia|done|done|].
  { done. } { intros a b ??. rewrite ltb_num by done. lia. } { intros a b ??. rewrite ltb_num by done. lia. }
  destruct (foldl_least (λ a b, (key b <= key a)%Z) (λ a b, (b <? a)%float) s_Price l (s_Price s0)
    (λ b, IsNaN b = false)) as (_ & _ & H1 & H2); [| | |intros; lia|done|done|].
  { done. } { intros a b ??. rewrite ltb_num by done. lia. } { intros a b ??. rewrite ltb_num by done. lia. }
  destruct (foldl_least (λ a b, (a <= b)%Z) (λ a b, (a <? b)%Z) s_ConfirmedAt l (s_ConfirmedAt s0)
    (λ _, True)) as (_ & _ & F1 & F2); [lia| | |intros; lia|done|by apply Forall_true|].
  { intros; lia. } { intros; lia. }
  destruct (foldl_least (λ a b, (b <= a)%Z) (λ a b, (b <? a)%Z) s_ConfirmedAt l (s_ConfirmedAt s0)
    (λ _, True)) as (_ & _ & G1 & G2); [lia| | |intros; lia|done|by apply Forall_true|].
  { intros; lia. } { intros; lia. }
  destruct kind; cbn [po_Low po_High po_FirstTouchAt po_LastTouchAt po_TouchCount po_CreatedAt po_SweptAt po_ReclaimedAt].
  all: split_and!; try done.
  all: try match goal with H : ?x = _ ∨ ?x ∈ _ |- ?x ∈ _ => destruct H as [->|]; [apply Hin|done] end.
  all: rewrite Forall_forall in *; intros s Hs; split; split; auto.
Qed.

Lemma enough_touches {A} (minTouches : Z) (cs : list (list A)) :
  List.filter (λ c, negb (Z.of_nat (length c) <? minTouches)%Z) cs =
  filter (λ c, minTouches <= Z.of_nat (length c))%Z cs.
Proof.
  induction cs as [|c cs IH]; [done|]. cbn [List.filter]. rewrite filter_cons, IH.
  case_decide; destruct (Z.ltb_spec (Z.of_nat (length c)) minTouches); try lia; done.
Qed.

(** * Lemmas: sweeps *)

(** The sweep and the reclaim of a pool as plain searches over the candles from its creation on. *)
Definition sweep_found (candles : list Candle) (p : Pool) : option (nat * Candle) :=
  list_find (λ c, sweeps p c = true) (at_or_after (po_CreatedAt p) candles).
Definition reclaim_found (candles : list Candle) (bars : Z) (p : Pool) (swept : nat) : option (nat * Candle) :=
  if (bars <? 0)%Z then None
  else list_find (λ c, reclaims p c = true)
    (take (S (Z.to_nat bars)) (drop swept (at_or_after (po_CreatedAt p) candles))).
Definition pool_read (candles : list Candle) (cfg : Config) (p : Pool) : Pool :=
  match sweep_found candles p with
  | None => p
  | Some (i, c) => set_swept p (c_Time c) (c_Time ∘ snd <$> reclaim_found candles (SweepReclaimBars cfg) p i)
  end.

Lemma update_pool_read candles cfg p :
  increasing candles → po_ReclaimedAt p = None → update_pool candles cfg p = pool_read candles cfg p.
Proof.
  intros Hs Hr. unfold update_pool, indexAtOrAfter, pool_read, sweep_found.
  destruct (time_search candles (po_CreatedAt p) Hs) as [Hk Hdrop]. cbv zeta in Hk, Hdrop.
  set (k := bsearch _ _) in *. rewrite <- Hdrop.
  destruct (Nat.eqb_spec k (length candles)) as [->|Hne]; [by rewrite drop_ge by lia|].
  unfold DetectSweep. rewrite (first_some_list_find (sweeps p) (λ c i, (c_Time c, i))) by lia.
  rewrite take_ge by (rewrite length_drop; lia).
  destruct (list_find _ (drop k candles)) as [[i c]|] eqn:E; cbn [fmap option_fmap option_map]; [|done].
  apply list_find_Some in E as (Hi & _ & _). pose proof (lookup_lt_Some _ _ _ Hi) as Hlen.
  rewrite length_drop in Hlen.
  unfold DetectReclaim, reclaim_found. rewrite <- Hdrop.
  destruct (Z.ltb_spec (Z.of_nat (k + i)) 0); [lia|].
  destruct (Z.leb_spec (Z.of_nat (length candles)) (Z.of_nat (k + i))); [lia|]. cbn [orb].
  destruct (Z.ltb_spec (SweepReclaimBars cfg) 0); [by rewrite Hr|].
  set (e := if (_ <? _)%Z then _ else _).
  assert (He : (e = Z.min (Z.of_nat (length candles) - 1) (Z.of_nat (k + i) + SweepReclaimBars cfg))%Z)
    by (unfold e; destruct (Z.ltb_spec (Z.of_nat (length candles) - 1) (Z.of_nat (k + i) + SweepReclaimBars cfg)); lia).
  rewrite He, Nat2Z.id. rewrite (first_some_list_find (reclaims p) (λ c _, c_Time c)) by lia.
  rewrite drop_drop.
  replace (take (Z.to_nat (Z.min (Z.of_nat (length candles) - 1) (Z.of_nat (k + i) + SweepReclaimBars cfg) + 1 - Z.of_nat (k + i))) (drop (k + i) candles))
    with (take (S (Z.to_nat (SweepReclaimBars cfg))) (drop (k + i) candles)).
  - destruct (list_find _ (take _ _)) as [[j d]|]; cbn; [done|by rewrite Hr].
  - destruct (decide (Z.of_nat (k + i) + SweepReclaimBars cfg <= Z.of_nat (length candles) - 1)%Z).
    + f_equal. lia.
    + rewrite !take_ge by (rewrite length_drop; lia). done.
Qed.

Lemma base_pools_fresh atr swings cfg p : p ∈ base_pools atr swings cfg → po_ReclaimedAt p = None.
Proof.
  unfold base_pools. rewrite elem_of_app. intros [H|H].
  - apply list_elem_of_In, in_map_iff in H as (s & <- & _). unfold PoolFromSwing. by destruct (s_Kind s).
  - apply list_elem_of_In, in_flat_map in H as (layer & _ & H).
    apply in_flat_map in H as (kind & _ & H). unfold ClusterEqualLevels in H.
    apply in_map_iff in H as (c & <- & _). unfold poolFromCluster. by destruct kind.
Qed.

(** * Properties *)

(** Equal-level clustering partitions the swings of one kind and layer: every one falls in
    exactly one chain of swings within tolerance of an earlier member, the pools are the chains
    with enough touches, and a pool's band and touch times are the extremes of its members. *)
Theorem equal_levels_partition swings kind layer atr toleranceATR minTouches :
  Forall swing_numeric swings →
  ∃ clusters,
    concat clusters ≡ₚ cluster_candidates swings kind layer ∧
    Forall (chained (toleranceATR * atr)%float) clusters ∧
    Forall2 (λ p cluster, p = poolFromCluster cluster kind layer ∧
        po_TouchCount p = length cluster ∧ po_CreatedAt p = po_FirstTouchAt p ∧
        po_FirstTouchAt p ∈ map s_ConfirmedAt cluster ∧
        po_Low p ∈ map s_Price cluster ∧ po_High p ∈ map s_Price cluster ∧
        Forall (λ s, (key (po_Low p) <= key (s_Price s) <= key (po_High p))%Z ∧
          (po_FirstTouchAt p <= s_ConfirmedAt s <= po_LastTouchAt p)%Z) cluster)
      (ClusterEqualLevels swings kind layer atr toleranceATR minTouches)
      (filter (λ cluster, minTouches <= Z.of_nat (length cluster))%Z clusters).
Proof.
  intros Hn. set (tol := (toleranceATR * atr)%float).
  set (cands := cluster_candidates swings kind layer).
  destruct (cluster_loop_spec (length cands) tol cands) as [Hch Hperm]; [lia|].
  set (clusters := cluster_loop (length cands) tol cands) in *.
  exists clusters. split_and!; [done..|]. unfold ClusterEqualLevels. fold tol cands clusters.
  rewrite enough_touches.
  apply Forall2_fmap_l, Forall2_same_length_lookup_2; [done|].
  intros i c c' Hc Hc'. assert (c' = c) as -> by congruence. clear Hc'.
  apply list_elem_of_lookup_2, list_elem_of_filter in Hc as [_ Hc].
  rewrite Forall_forall in Hch. pose proof (Hch c Hc) as Hchain.
  destruct (poolFromCluster_band c kind layer) as (H1 & H2 & H3 & H4 & H5 & H6 & _).
  - destruct Hchain; [done|]. by destruct c.
  - assert (Hcands : Forall swing_numeric cands).
    { rewrite Forall_forall in Hn |- *. intros s [_ Hs]%list_elem_of_filter. auto. }
    rewrite <- Hperm in Hcands. rewrite Forall_forall in Hcands |- *. intros s Hs. apply Hcands.
    apply list_elem_of_In, in_concat. exists c. by rewrite <- !list_elem_of_In.
  - split_and!; done.
Qed.

Definition demo_swing (id : string) (price : float) (at' : Z) : Swing :=
  mkSwing id PivotHigh StructureMajor at' price "M5" 1 2 2 2 at'.
Lemma equal_levels_partition_witness :
  ∃ clusters, concat clusters ≡ₚ cluster_candidates
      [demo_swing "a" 10 1; demo_swing "b" 20 2; demo_swing "c" 10.5 3] PivotHigh StructureMajor ∧
    length (filter (λ c : list Swing, 2 <= Z.of_nat (length c))%Z clusters) = 1.
Proof.
  destruct (equal_levels_partition [demo_swing "a" 10 1; demo_swing "b" 20 2; demo_swing "c" 10.5 3]
    PivotHigh StructureMajor 1 1 2) as (clusters & H1 & _ & H2).
  { repeat constructor. }
  exists clusters. split; [exact H1|].
  apply Forall2_length in H2. rewrite <- H2. vm_compute. reflexivity.
Defined.

(** Chaining is single-pass: a swing rejected before its neighbour joined is not tried again, so
    the same three prices cluster differently in another order. *)
Example clustering_is_order_dependent :
  map po_TouchCount (ClusterEqualLevels
    [demo_swing "a" 10 1; demo_swing "b" 11 2; demo_swing "c" 12 3] PivotHigh StructureMajor 1 1 2) = [3] ∧
  map po_TouchCount (ClusterEqualLevels
    [demo_swing "a" 10 1; demo_swing "c" 12 2; demo_swing "b" 11 3] PivotHigh StructureMajor 1 1 2) = [2].
Proof. vm_compute. split; reflexivity. Qed.

(** Sweeps and reclaims are what a plain scan says: a pool is swept by the first candle, of
    those at or after the pool's creation, that trades beyond its outer edge, and reclaimed by the
    first close back on its side among that candle and the configured number after it; nothing
    else of a pool ever changes. *)
Theorem update_pools_reference candles atrSeries swings cfg :
  increasing candles →
  Update candles atrSeries swings cfg = map (pool_read candles cfg) (base_pools atrSeries swings cfg).
Proof.
  intros Hs. unfold Update. apply map_ext_in. intros p Hp. apply update_pool_read; [done|].
  eapply base_pools_fresh. by apply list_elem_of_In.
Qed.

Lemma update_pools_reference_witness :
  map po_SweptAt (Update demo_hills [1%float] [demo_swing "a" 12 2] (mkConfig "v1" 0.1 2 1)) = [Some 5%Z] ∧
  map po_ReclaimedAt (Update demo_hills [1%float] [demo_swing "a" 12 2] (mkConfig "v1" 0.1 2 1)) = [Some 6%Z].
Proof.
  rewrite (update_pools_reference demo_hills [1%float] [demo_swing "a" 12 2] (mkConfig "v1" 0.1 2 1)
    demo_hills_increasing).
  vm_compute. split; reflexivity.
Defined.
