(* ===== verification/Zone.v ===== *)
(** Package zone: the seven zone builders, the displacement runs they start from, the structural
    lifecycle (invalidation with forgiven sweeps, touches, relevance, strength), and [Update]. *)
From S2P Require Import Prelude Float64 Market Structure.
From Stdlib Require Import Floats.

(** * type.go, lifecycle.go, relevance.go: data *)

Inductive Kind := KindSupply | KindDemand | KindOrderBlock | KindFVG | KindIFVG | KindBreaker | KindFlip.
#[export] Instance Kind_eq_dec : EqDecision Kind.
Proof. solve_decision. Defined.
Definition Kind_String (k : Kind) : string :=
  match k with
  | KindSupply => "supply" | KindDemand => "demand" | KindOrderBlock => "order_block"
  | KindFVG => "fvg" | KindIFVG => "ifvg" | KindBreaker => "breaker" | KindFlip => "flip"
  end.
Inductive Side := Demand | Supply.
#[export] Instance Side_eq_dec : EqDecision Side.
Proof. solve_decision. Defined.
Definition Side_Direction (s : Side) : string := match s with Demand => Buy | Supply => Sell end.
Inductive State := StateFresh | StateTouched | StatePartiallyMitigated | StateMitigated | StateInvalidated.
#[export] Instance State_eq_dec : EqDecision State.
Proof. solve_decision. Defined.
Inductive Relevance := Immediate | Nearby | Remote | Dormant.

Record Zone := mkZone {
  z_ID : string; z_Kind : Kind; z_Side : Side; z_Low : float; z_High : float;
  z_Layer : StructureLayer; z_Timeframe : string; z_OriginTime : Z; z_StructureRef : string;
  z_DisplacementRef : string; z_CreatedAt : Z; z_LastTouchedAt : option Z; z_TouchCount : Z;
  z_BreakIndex : Z; z_Strength : float; z_LegacyScore : float; z_State : State; z_Relevance : Relevance
}.
(** A zone literal of the builders: the fields they leave out are zero values. *)
Definition new_zone id kind side low high tf originTime structureRef displacementRef breakIndex strength :=
  mkZone id kind side low high StructureMicro tf originTime structureRef displacementRef originTime None 0
    (Z.of_nat breakIndex) strength 0 StateFresh Immediate.
Definition zone_id (tf : string) (kind : Kind) (time : Z) : string :=
  "zone:" +:+ tf +:+ ":" +:+ Kind_String kind +:+ ":" +:+ pretty time.

Record LifecycleConfig := mkLifecycleConfig {
  InvalidationToleranceATR : float; SweepReclaimBars : nat; MaxBreakEpisodes : Z; RetestMaxTouches : Z;
  EpsilonATR : float
}.
Record RelevanceConfig := mkRelevanceConfig { ImmediateATR : float; NearbyATR : float; RemoteATR : float }.
Record Config := mkConfig {
  cfg_Version : string; cfg_Displacement : DisplacementConfig; cfg_Lifecycle : LifecycleConfig;
  cfg_Relevance : RelevanceConfig; FlipAcceptBars : Z; FlipBandBodyFraction : float;
  FlipLevelBandATR : float; OrderBlockBodyFraction : float
}.
Definition displacementMaxBars (c : Config) : nat := SweepReclaimBars (cfg_Lifecycle c).

(** * strength.go *)

Definition clamp01 (value : float) : float :=
  if (value <? 0)%float then 0%float else if (value >? 1)%float then 1%float else value.
Definition fvgStrength (candles : list Candle) (index : nat) (low high atr : float) : float :=
  if (atr <=? 0)%float || (index <? 2) || (length candles <=? index) || (high <=? low)%float then 0%float
  else
    let gap := clamp01 ((high - low) / atr) in
    let displacement := clamp01 (Body (candles !!! (index - 1)%nat) / atr) in
    (0.6 * gap + 0.4 * displacement)%float.
Definition inversionStrength (source : Zone) (candle : Candle) (boundary atr : float) : float :=
  let bodyDominance := if (Range candle >? 0)%float then clamp01 (Body candle / Range candle) else 0%float in
  let penetration := if (atr >? 0)%float then clamp01 (abs (c_Close candle - boundary) / atr) else 0%float in
  clamp01 (0.5 * clamp01 (z_Strength source) + 0.3 * bodyDominance + 0.2 * penetration)%float.
Definition flipStrength (candles : list Candle) (from : nat) (bars : Z) (level atr : float) : float :=
  if (atr <=? 0)%float || (bars <=? 0)%Z || (Z.of_nat (length candles) <? Z.of_nat from + bars)%Z then 0%float
  else
    let body := clamp01 (Body (candles !!! from) / atr) in
    let accepted := foldl (λ acc c, acc + clamp01 (abs (c_Close c - level) / atr))%float 0%float
      (slice candles from (from + Z.to_nat bars)) in
    (0.6 * body + 0.4 * (accepted / f64_of_Z bars))%float.
Definition gapFillFraction (z : Zone) (candles : list Candle) : float :=
  let width := (z_High z - z_Low z)%float in
  if (width <=? 0)%float then 1%float
  else
    let start := Z.to_nat (z_BreakIndex z + 1) in
    clamp01 (foldl (λ fill c,
      match z_Side z with
      | Demand => if (c_Low c <? z_High z)%float then math_Max fill ((z_High z - c_Low c) / width) else fill
      | Supply => if (c_High c >? z_Low z)%float then math_Max fill ((c_High c - z_Low z) / width) else fill
      end) 0%float (drop start candles)).
Definition applyLifecycleStrength (z : Zone) (candles : list Candle) (state : State) : float :=
  if bool_decide (state = StateInvalidated) || bool_decide (state = StateMitigated) then 0%float
  else
    let strength := clamp01 (z_Strength z) in
    let strength :=
      if bool_decide (z_Kind z = KindFVG) || bool_decide (z_Kind z = KindIFVG)
      then (strength * (1 - 0.5 * gapFillFraction z candles))%float
      else match state with
        | StateTouched => (strength * 0.85)%float
        | StatePartiallyMitigated => (strength * 0.65)%float
        | _ => strength
        end in
    clamp01 strength.

(** * displacement_runs.go *)

Record displacementRun := mkRun { r_Displacement : Displacement; r_StartIndex : nat; r_EndIndex : nat }.
(** [None] for -1. *)
Definition indexOfTimeFrom (candles : list Candle) (from : nat) (t : Z) : option nat :=
  first_some (λ i, if (c_Time (candles !!! i) =? t)%Z then Some i else None) (length candles - from) from.
(** Every turn moves [i] forward, so [length candles] turns walk the whole series. *)
Fixpoint runs_loop (fuel : nat) (candles : list Candle) (atrSeries : list float) (maxBars : nat)
    (cfg : DisplacementConfig) (i : nat) : list displacementRun :=
  match fuel with
  | O => []
  | S fuel =>
      if length candles <=? i then []
      else match atrSeries !! i with
      | None => []
      | Some atr =>
          match DetectDisplacement candles (Z.of_nat i) maxBars atr cfg with
          | None => runs_loop fuel candles atrSeries maxBars cfg (S i)
          | Some d =>
              match indexOfTimeFrom candles i (d_EndTime d) with
              | None => runs_loop fuel candles atrSeries maxBars cfg (S i)
              | Some endIndex =>
                  mkRun d i endIndex :: runs_loop fuel candles atrSeries maxBars cfg (S endIndex)
              end
          end
      end
  end.
Definition detectDisplacementRuns (candles : list Candle) (atrSeries : list float) (maxBars : nat)
    (cfg : DisplacementConfig) : list displacementRun :=
  runs_loop (length candles) candles atrSeries maxBars cfg 0.

(** * demand.go, supply.go *)

Definition displacement_ref (tf : string) (run : displacementRun) : string :=
  "displacement:" +:+ tf +:+ ":" +:+ pretty (d_StartTime (r_Displacement run)) +:+ ":" +:+
    pretty (d_EndTime (r_Displacement run)).
Definition zoneFromRun (candles : list Candle) (run : displacementRun) (side : Side) (kind : Kind)
    (tf : string) (atr : float) : Zone :=
  let base := slice candles (r_StartIndex run - 3) (r_StartIndex run) in
  let first := default zero_Candle (head base) in
  let low := foldl (λ low c, if c_Low c <? low then c_Low c else low)%float (c_Low first) (tail base) in
  let high := foldl (λ high c, if c_High c >? high then c_High c else high)%float (c_High first) (tail base) in
  let origin := candles !!! (r_StartIndex run - 1)%nat in
  new_zone (zone_id tf kind (c_Time origin)) kind side low high tf (c_Time origin) ""
    (displacement_ref tf run) (r_EndIndex run) (d_Strength (r_Displacement run)).
Definition run_selected (dir : string) (run : displacementRun) : bool :=
  negb (negb (bool_decide (d_Direction (r_Displacement run) = dir)) || (r_StartIndex run <=? 0)).
Definition buildDemandZones (candles : list Candle) (runs : list displacementRun) (tf : string) (atr : float) :
    list Zone :=
  map (λ run, zoneFromRun candles run Demand KindDemand tf atr) (List.filter (run_selected Buy) runs).
Definition buildSupplyZones (candles : list Candle) (runs : list displacementRun) (tf : string) (atr : float) :
    list Zone :=
  map (λ run, zoneFromRun candles run Supply KindSupply tf atr) (List.filter (run_selected Sell) runs).

(** * order_block.go *)

Definition QualifyingBreakBody (c : Candle) (minimumFraction : float) : bool :=
  if (minimumFraction <=? 0)%float then true
  else
    let rangeSize := Range c in
    (rangeSize >? 0)%float && (Body c / rangeSize >=? minimumFraction)%float.
Definition causingBreak (breaks : list StructureBreak) (run : displacementRun) (candles : list Candle) :
    option StructureBreak :=
  if (length candles <=? r_StartIndex run) || (length candles <=? r_EndIndex run) then None
  else
    let windowStart := c_Time (candles !!! r_StartIndex run) in
    let windowEnd := c_Time (candles !!! r_EndIndex run) in
    List.find (λ b,
      (bool_decide (k_Event b = EventBOS) || bool_decide (k_Event b = EventCHoCH)) &&
      bool_decide (k_Direction b = d_Direction (r_Displacement run)) &&
      negb ((k_Time b <? windowStart)%Z || (windowEnd <? k_Time b)%Z)) breaks.
(** Backwards from [n - 1]. *)
Fixpoint lastOppositeCandle (candles : list Candle) (n : nat) (dir : string) : option nat :=
  match n with
  | O => None
  | S i =>
      let c := candles !!! i in
      if bool_decide (dir = Buy) && IsBearish c then Some i
      else if bool_decide (dir = Sell) && IsBullish c then Some i
      else lastOppositeCandle candles i dir
  end.
Definition orderBlock (candles : list Candle) (breaks : list StructureBreak) (tf : string) (atr : float)
    (cfg : Config) (run : displacementRun) : option Zone :=
  if (r_StartIndex run <=? 0) || (length candles <=? r_EndIndex run) then None
  else match causingBreak breaks run candles with
  | None => None
  | Some confirming =>
      match indexOfTimeFrom candles (r_StartIndex run) (k_Time confirming) with
      | None => None
      | Some confirmIndex =>
          if negb (QualifyingBreakBody (candles !!! confirmIndex) (OrderBlockBodyFraction cfg)) then None
          else match lastOppositeCandle candles (r_StartIndex run) (d_Direction (r_Displacement run)) with
          | None => None
          | Some originIdx =>
              let origin := candles !!! originIdx in
              let '(low, high) :=
                if (c_Open origin >? c_Close origin)%float then (c_Close origin, c_Open origin)
                else (c_Open origin, c_Close origin) in
              let side := if bool_decide (d_Direction (r_Displacement run) = Sell) then Supply else Demand in
              Some (new_zone (zone_id tf KindOrderBlock (c_Time origin)) KindOrderBlock side low high tf
                      (c_Time origin) (k_BrokenSwingID confirming) (displacement_ref tf run) (r_EndIndex run)
                      (d_Strength (r_Displacement run)))
          end
      end
  end.
Definition buildOrderBlockZones (candles : list Candle) (runs : list displacementRun)
    (breaks : list StructureBreak) (tf : string) (atr : float) (cfg : Config) : list Zone :=
  omap (orderBlock candles breaks tf atr cfg) runs.

(** * breaker.go *)

(** [close < low] ends a demand band, [close > high] a supply band. *)
Definition closed_through (side : Side) (low high : float) (c : Candle) : bool :=
  match side with Demand => (c_Close c <? low)%float | Supply => (c_Close c >? high)%float end.
Definition flipped (side : Side) : Side := match side with Demand => Supply | Supply => Demand end.
Definition breaker (candles : list Candle) (tf : string) (atr : float) (ob : Zone) : option Zone :=
  match indexOfTimeFrom candles 0 (z_OriginTime ob) with
  | None => None
  | Some originIdx =>
      let low := z_Low ob in let high := z_High ob in
      match first_some (λ i, if closed_through (z_Side ob) low high (candles !!! i) then Some i else None)
              (length candles - (originIdx + 1)) (originIdx + 1) with
      | None => None
      | Some violatedAt =>
          let flippedSide := flipped (z_Side ob) in
          let origin := candles !!! violatedAt in
          let boundary := match flippedSide with Demand => high | Supply => low end in
          Some (new_zone (zone_id tf KindBreaker (c_Time origin)) KindBreaker flippedSide low high tf
                  (c_Time origin) (z_StructureRef ob) (z_ID ob) violatedAt
                  (inversionStrength ob origin boundary atr))
      end
  end.
Definition buildBreakerZones (candles : list Candle) (obZones : list Zone) (tf : string) (atr : float) : list Zone :=
  omap (breaker candles tf atr) obZones.

(** * fvg.go *)

Definition fvgZone (low high : float) (side : Side) (origin : Candle) (tf : string) (index : nat)
    (strength : float) : Zone :=
  new_zone (zone_id tf KindFVG (c_Time origin)) KindFVG side low high tf (c_Time origin) "" "" index strength.
Definition fvg_at (candles : list Candle) (tf : string) (atr : float) (i : nat) : option Zone :=
  let older := candles !!! (i - 2)%nat in
  let cur := candles !!! i in
  if (c_High older <? c_Low cur)%float then
    Some (fvgZone (c_High older) (c_Low cur) Demand cur tf i (fvgStrength candles i (c_High older) (c_Low cur) atr))
  else if (c_Low older >? c_High cur)%float then
    Some (fvgZone (c_High cur) (c_Low older) Supply cur tf i (fvgStrength candles i (c_High cur) (c_Low older) atr))
  else None.
Definition buildFVGZones (candles : list Candle) (tf : string) (atr : float) : list Zone :=
  omap (fvg_at candles tf atr) (seq 2 (length candles - 2)).

(** * ifvg.go *)

(** A close that takes an inverted gap back: through [low] for a demand-side inversion. *)
Definition ifvg (candles : list Candle) (tf : string) (atr : float) (z : Zone) : option Zone :=
  match indexOfTimeFrom candles 0 (z_OriginTime z) with
  | None => None
  | Some originIdx =>
      let low := z_Low z in let high := z_High z in
      match first_some (λ i, if closed_through (z_Side z) low high (candles !!! i) then Some i else None)
              (length candles - (originIdx + 1)) (originIdx + 1) with
      | None => None
      | Some invertIndex =>
          let invertedSide := flipped (z_Side z) in
          if existsb (closed_through invertedSide low high) (drop (invertIndex + 1) candles) then None
          else
            let origin := candles !!! invertIndex in
            let boundary := match invertedSide with Demand => high | Supply => low end in
            Some (new_zone (zone_id tf KindIFVG (c_Time origin)) KindIFVG invertedSide low high tf
                    (c_Time origin) "" (z_ID z) invertIndex (inversionStrength z origin boundary atr))
      end
  end.
Definition buildIFVGZones (candles : list Candle) (fvgZones : list Zone) (tf : string) (atr : float) : list Zone :=
  omap (ifvg candles tf atr) fvgZones.

(** * flip.go *)

Definition acceptedBreak (candles : list Candle) (from : nat) (level : float) (dir : string) (acceptBars : Z) : bool :=
  if (acceptBars <=? 0)%Z || (Z.of_nat (length candles) <? Z.of_nat from + acceptBars)%Z then false
  else forallb (λ c,
    negb (bool_decide (dir = Buy) && (c_Close c <=? level)%float) &&
    negb (bool_decide (dir = Sell) && (c_Close c >=? level)%float))
    (slice candles from (from + Z.to_nat acceptBars)).
Definition validFlipAnchor (low high level : float) (side : Side) : bool :=
  if IsNaN low || IsNaN high || IsInf low || IsInf high then false
  else match side with
    | Demand => if (low <? level - 1e-9)%float then false else (high >? low)%float
    | Supply => if (high >? level + 1e-9)%float then false else (high >? low)%float
    end.
Definition swingByID (swings : list Swing) : gmap string Swing :=
  foldl (λ m s, <[s_ID s := s]> m) ∅ swings.
Definition flip (candles : list Candle) (byID : gmap string Swing) (tf : string) (atr : float) (cfg : Config)
    (b : StructureBreak) : option Zone :=
  match byID !! k_BrokenSwingID b with
  | None => None
  | Some swing =>
      match indexOfTimeFrom candles 0 (k_Time b) with
      | None => None
      | Some breakIdx =>
          let level := s_Price swing in
          if negb (acceptedBreak candles breakIdx level (k_Direction b) (FlipAcceptBars cfg)) then None
          else
            let side := if bool_decide (k_Direction b = Sell) then Supply else Demand in
            let band := (FlipLevelBandATR cfg * atr)%float in
            let bodyWidth := (Body (candles !!! breakIdx) * FlipBandBodyFraction cfg)%float in
            let band := if (bodyWidth >? band)%float then bodyWidth else band in
            let '(low, high) :=
              if bool_decide (k_Direction b = Buy) then (level, (level + band)%float)
              else ((level - band)%float, level) in
            if negb (validFlipAnchor low high level side) then None
            else
              let origin := candles !!! breakIdx in
              Some (new_zone
                      (zone_id tf KindFlip (c_Time origin) +:+ ":" +:+ k_Direction b +:+ ":" +:+ k_BrokenSwingID b)
                      KindFlip side low high tf (c_Time origin) (s_ID swing) "" breakIdx
                      (flipStrength candles breakIdx (FlipAcceptBars cfg) level atr))
      end
  end.
Definition buildFlipZones (candles : list Candle) (swings : list Swing) (breaks : list StructureBreak)
    (tf : string) (atr : float) (cfg : Config) : list Zone :=
  omap (flip candles (swingByID swings) tf atr cfg) breaks.

(** * lifecycle.go *)

Definition farEdge (z : Zone) : float := match z_Side z with Demand => z_Low z | Supply => z_High z end.
Definition lifecycle_tolerance (atr : float) (cfg : LifecycleConfig) : float :=
  let atrValue := if (atr <? 0)%float then 0%float else atr in
  let tolerance := (EpsilonATR cfg * atrValue)%float in
  let t := (InvalidationToleranceATR cfg * atrValue)%float in
  if (t >? tolerance)%float then t else tolerance.
Definition breached (z : Zone) (tolerance : float) (c : Candle) : bool :=
  match z_Side z with
  | Demand => (c_Close c <? farEdge z - tolerance)%float
  | Supply => (c_Close c >? farEdge z + tolerance)%float
  end.
Definition reclaims (z : Zone) (c : Candle) : bool :=
  match z_Side z with
  | Demand => (c_Close c >=? farEdge z)%float
  | Supply => (c_Close c <=? farEdge z)%float
  end.
(** The loop of [NotInvalidated]; [i] grows at every turn. *)
Fixpoint episode_loop (fuel : nat) (candles : list Candle) (z : Zone) (tolerance : float)
    (cfg : LifecycleConfig) (i : nat) (episodes : Z) : bool :=
  match fuel with
  | O => true
  | S fuel =>
      if length candles <=? i then true
      else if negb (breached z tolerance (candles !!! i)) then
        episode_loop fuel candles z tolerance cfg (S i) episodes
      else
        let end' := if length candles - 1 <? i + SweepReclaimBars cfg
                    then length candles - 1 else i + SweepReclaimBars cfg in
        match first_index (reclaims z) candles (i + 1) end' with
        | None => false
        | Some j =>
            let episodes := (episodes + 1)%Z in
            if (MaxBreakEpisodes cfg <? episodes)%Z then false
            else episode_loop fuel candles z tolerance cfg (S j) episodes
        end
  end.
Definition NotInvalidated (candles : list Candle) (fromIndex : Z) (z : Zone) (atr : float)
    (cfg : LifecycleConfig) : bool :=
  if (fromIndex <? 0)%Z || (Z.of_nat (length candles) <=? fromIndex)%Z then true
  else episode_loop (length candles) candles z (lifecycle_tolerance atr cfg) cfg (Z.to_nat fromIndex) 0.
Definition DeriveState (candles : list Candle) (fromIndex : Z) (z : Zone) (touches : Z) (atr : float)
    (cfg : LifecycleConfig) : State :=
  if negb (NotInvalidated candles fromIndex z atr cfg) then StateInvalidated
  else if (touches <=? 0)%Z then StateFresh
  else if (0 <? RetestMaxTouches cfg)%Z && (RetestMaxTouches cfg <? touches)%Z then StateMitigated
  else if (touches =? 1)%Z then StateTouched
  else StatePartiallyMitigated.

(** * relevance.go *)

Definition distanceToZone (z : Zone) (mid : float) : float :=
  if (mid <? z_Low z)%float then (z_Low z - mid)%float
  else if (mid >? z_High z)%float then (mid - z_High z)%float
  else 0%float.
Definition ClassifyRelevance (z : Zone) (mid atr : float) (cfg : RelevanceConfig) : Relevance :=
  let distance := distanceToZone z mid in
  if (atr <=? 0)%float then (if (distance <=? 0)%float then Immediate else Dormant)
  else
    let distanceATR := (distance / atr)%float in
    if (distanceATR <=? ImmediateATR cfg)%float then Immediate
    else if (distanceATR <=? NearbyATR cfg)%float then Nearby
    else if (distanceATR <=? RemoteATR cfg)%float then Remote
    else Dormant.

(** * state.go *)

Record ZoneState := mkZoneState { zs_Zones : list Zone; zs_ATR : float }.
Definition lastValue (series : list float) : float := default 0%float (last series).
Definition indexAtOrAfter (candles : list Candle) (t : Z) : option nat :=
  let lo := bsearch (length candles) (λ mid, (c_Time (candles !!! mid) <? t)%Z) in
  if lo =? length candles then None else Some lo.
Definition inside (z : Zone) (c : Candle) : bool := (c_Low c <=? z_High z)%float && (c_High c >=? z_Low z)%float.
(** The scan's locals: touches, [wasInside], the last touch. *)
Definition touch_step (z : Zone) (acc : Z * bool * option Z) (c : Candle) : Z * bool * option Z :=
  let '(touches, wasInside, lastTouchAt) := acc in
  let ins := inside z c in
  if ins && negb wasInside then ((touches + 1)%Z, ins, Some (c_Time c))
  else if ins then (touches, ins, Some (c_Time c))
  else (touches, ins, lastTouchAt).
Definition countTouches (candles : list Candle) (from : nat) (z : Zone) : Z * option Z :=
  let start := Z.max (Z.of_nat from) (z_BreakIndex z + 1) in
  if (Z.of_nat (length candles) <=? start)%Z then (0%Z, None)
  else
    let '(touches, _, lastTouchAt) :=
      foldl (touch_step z) (0%Z, false, None) (drop (Z.to_nat start) candles) in
    (touches, lastTouchAt).
(** The body of the last loop of [Update]; each assignment sees the fields set before it. *)
Definition update_zone (candles : list Candle) (currentATR : float) (cfg : Config) (z : Zone) : Zone :=
  match indexAtOrAfter candles (z_CreatedAt z) with
  | None => z
  | Some touchFrom =>
      let '(touches, lastTouchAt) := countTouches candles touchFrom z in
      let lastTouched := match lastTouchAt with Some t => Some t | None => z_LastTouchedAt z end in
      let lifecycleFrom :=
        if (z_BreakIndex z + 1 <? 0)%Z then Z.of_nat touchFrom else (z_BreakIndex z + 1)%Z in
      let z1 := mkZone (z_ID z) (z_Kind z) (z_Side z) (z_Low z) (z_High z) (z_Layer z) (z_Timeframe z)
        (z_OriginTime z) (z_StructureRef z) (z_DisplacementRef z) (z_CreatedAt z) lastTouched touches
        (z_BreakIndex z) (z_Strength z) (z_LegacyScore z) (z_State z) (z_Relevance z) in
      let state := DeriveState candles lifecycleFrom z1 touches currentATR (cfg_Lifecycle cfg) in
      mkZone (z_ID z) (z_Kind z) (z_Side z) (z_Low z) (z_High z) (z_Layer z) (z_Timeframe z)
        (z_OriginTime z) (z_StructureRef z) (z_DisplacementRef z) (z_CreatedAt z) lastTouched touches
        (z_BreakIndex z) (applyLifecycleStrength z1 candles state) (z_LegacyScore z) state
        (ClassifyRelevance z1 (c_Close (default zero_Candle (last candles))) currentATR (cfg_Relevance cfg))
  end.
Definition formed_zones (candles : list Candle) (atrSeries : list float) (swings : list Swing)
    (breaks : list StructureBreak) (tf : string) (cfg : Config) : list Zone :=
  let currentATR := lastValue atrSeries in
  let runs := detectDisplacementRuns candles atrSeries (displacementMaxBars cfg) (cfg_Displacement cfg) in
  let obZones := buildOrderBlockZones candles runs breaks tf currentATR cfg in
  let fvgZones := buildFVGZones candles tf currentATR in
  buildSupplyZones candles runs tf currentATR ++ buildDemandZones candles runs tf currentATR ++
  obZones ++ buildBreakerZones candles obZones tf currentATR ++
  fvgZones ++ buildIFVGZones candles fvgZones tf currentATR ++
  buildFlipZones candles swings breaks tf currentATR cfg.
Definition Update (candles : list Candle) (atrSeries : list float) (swings : list Swing)
    (breaks : list StructureBreak) (tf : string) (cfg : Config) : ZoneState :=
  if length candles =? 0 then mkZoneState [] 0
  else mkZoneState
    (map (update_zone candles (lastValue atrSeries) cfg) (formed_zones candles atrSeries swings breaks tf cfg))
    (lastValue atrSeries).

Definition Book := gmap string ZoneState.
Definition NewBook : Book := ∅.
Definition Book_Set (b : Book) (tf : string) (state : ZoneState) : Book := <[tf := state]> b.
Definition Book_Get (b : Book) (tf : string) : option ZoneState := b !! tf.

(** * Lemmas: displacement runs *)

Lemma DetectDisplacement_end candles i maxBars atr cfg d :
  DetectDisplacement candles (Z.of_nat i) maxBars atr cfg = Some d →
  d_StartTime d = c_Time (candles !!! i) ∧
  ∃ j, i <= j < length candles ∧ j < i + maxBars ∧ d_EndTime d = c_Time (candles !!! j).
Proof.
  unfold DetectDisplacement. destruct (_ || _) eqn:Hg; [done|].
  apply orb_false_elim in Hg as [_ Hlen%Z.leb_gt]. rewrite Nat2Z.id, if_ltb_min.
  set (run := slice candles i (Nat.min (length candles) (i + maxBars))).
  assert (Hrun : length run = Nat.min (length candles) (i + maxBars) - i)
    by (unfold run; rewrite length_slice; lia).
  intros (n & Hn & Hd & _)%first_some_Some.
  unfold displacement_run in Hd. destruct (_ <? _)%float; [done|].
  destruct (_ <? _); [done|]. injection Hd as <-. cbn [d_StartTime d_EndTime].
  assert (Hlook : ∀ k, k < n → take n run !! k = Some (candles !!! (i + k)%nat)).
  { intros k Hk. rewrite lookup_take_lt by done. unfold run. rewrite lookup_slice, decide_True by lia.
    destruct (lookup_lt_is_Some_2 candles (i + k)) as [c Hc]; [lia|].
    by rewrite (list_lookup_total_correct _ _ _ Hc). }
  rewrite head_lookup, last_lookup, length_take, Nat.min_l by lia.
  rewrite (Hlook 0), (Hlook (pred n)) by lia. cbn [default id]. rewrite Nat.add_0_r.
  split; [done|]. exists (i + pred n). split_and!; [lia..|done].
Qed.

Lemma indexOfTimeFrom_Some candles from t i :
  indexOfTimeFrom candles from t = Some i →
  from <= i < length candles ∧ c_Time (candles !!! i) = t.
Proof.
  unfold indexOfTimeFrom. intros (k & Hk & He & _)%first_some_Some.
  destruct (Z.eqb_spec (c_Time (candles !!! k)) t); [|done]. injection He as <-. split; [lia|done].
Qed.

Lemma indexOfTimeFrom_le candles from t j :
  from <= j < length candles → c_Time (candles !!! j) = t →
  ∃ i, indexOfTimeFrom candles from t = Some i ∧ i <= j.
Proof.
  intros Hj Ht. destruct (indexOfTimeFrom candles from t) as [i|] eqn:E.
  - exists i. split; [done|]. unfold indexOfTimeFrom in E.
    apply first_some_Some in E as (k & Hk & He & Hn).
    destruct (Z.eqb_spec (c_Time (candles !!! k)) t); [|done]. injection He as <-.
    destruct (decide (k <= j)); [done|]. specialize (Hn j ltac:(lia)). by rewrite Ht, Z.eqb_refl in Hn.
  - unfold indexOfTimeFrom in E. rewrite first_some_None in E. specialize (E j ltac:(lia)).
    by rewrite Ht, Z.eqb_refl in E.
Qed.

(** Where the runs found from [i] on lie, and what they leave out. *)
Fixpoint runs_cover (candles : list Candle) (atrSeries : list float) (maxBars : nat)
    (cfg : DisplacementConfig) (i : nat) (runs : list displacementRun) : Prop :=
  let silent a b := ∀ k atr, a <= k < b → k < length candles → atrSeries !! k = Some atr →
    DetectDisplacement candles (Z.of_nat k) maxBars atr cfg = None in
  match runs with
  | [] => silent i (length candles)
  | r :: rest =>
      i <= r_StartIndex r <= r_EndIndex r ∧ r_EndIndex r < length candles ∧
      r_EndIndex r < r_StartIndex r + maxBars ∧ silent i (r_StartIndex r) ∧
      (∃ atr, atrSeries !! r_StartIndex r = Some atr ∧
        DetectDisplacement candles (Z.of_nat (r_StartIndex r)) maxBars atr cfg = Some (r_Displacement r)) ∧
      c_Time (candles !!! r_EndIndex r) = d_EndTime (r_Displacement r) ∧
      runs_cover candles atrSeries maxBars cfg (S (r_EndIndex r)) rest
  end.

Lemma runs_cover_step candles series maxBars cfg i runs :
  (∀ atr, series !! i = Some atr → DetectDisplacement candles (Z.of_nat i) maxBars atr cfg = None) →
  runs_cover candles series maxBars cfg (S i) runs → runs_cover candles series maxBars cfg i runs.
Proof.
  intros Hi. destruct runs as [|r rest]; cbn [runs_cover].
  - intros H k atr Hk. destruct (decide (k = i)) as [->|]; [auto|]. apply H. lia.
  - intros (H1 & H2 & H3 & H4 & H5). split_and!; [lia..| |apply H5|apply H5|apply H5].
    intros k atr Hk. destruct (decide (k = i)) as [->|]; [auto|]. apply H4. lia.
Qed.

Lemma runs_loop_cover fuel candles series maxBars cfg i :
  length candles - i <= fuel →
  runs_cover candles series maxBars cfg i (runs_loop fuel candles series maxBars cfg i).
Proof.
  revert i. induction fuel as [|fuel IH]; intros i Hf; cbn [runs_loop].
  { intros k atr ??. lia. }
  destruct (Nat.leb_spec (length candles) i); [intros k atr ??; lia|].
  destruct (series !! i) as [atr|] eqn:Ea.
  2:{ intros k a Hk _ Hs%lookup_lt_Some. apply lookup_ge_None in Ea. lia. }
  destruct (DetectDisplacement _ _ _ _ _) as [d|] eqn:Ed.
  2:{ apply runs_cover_step; [intros a Ha; by simplify_option_eq|apply IH; lia]. }
  destruct (DetectDisplacement_end _ _ _ _ _ _ Ed) as (_ & j & Hj & Hm & Ht).
  destruct (indexOfTimeFrom_le candles i (d_EndTime d) j) as (e & Ee & Hle); [lia|done|].
  rewrite Ee. apply indexOfTimeFrom_Some in Ee as [Hei Het]. cbn [runs_cover r_StartIndex r_EndIndex r_Displacement].
  split_and!; [lia..| | |done|apply IH; lia]; [intros; lia|eauto].
Qed.

(** * Lemmas: the structural lifecycle *)

(** A zone survives from index [i], [episodes] of its budget spent: no breach, or a breach
    reclaimed in time and within the budget. *)
Inductive survives (candles : list Candle) (z : Zone) (tol : float) (cfg : LifecycleConfig) :
    nat → Z → Prop :=
  | survives_end i e : length candles <= i → survives candles z tol cfg i e
  | survives_hold i e :
      i < length candles → breached z tol (candles !!! i) = false →
      survives candles z tol cfg (S i) e → survives candles z tol cfg i e
  | survives_forgiven i e j :
      breached z tol (candles !!! i) = true → i < j < length candles → j <= i + SweepReclaimBars cfg →
      reclaims z (candles !!! j) = true → (∀ k, i < k < j → reclaims z (candles !!! k) = false) →
      (e + 1 <= MaxBreakEpisodes cfg)%Z →
      survives candles z tol cfg (S j) (e + 1)%Z → survives candles z tol cfg i e.

Lemma episode_loop_survives fuel candles z tol cfg i e :
  length candles - i <= fuel →
  episode_loop fuel candles z tol cfg i e = true ↔ survives candles z tol cfg i e.
Proof.
  revert i e. induction fuel as [|fuel IH]; intros i e Hf; cbn [episode_loop].
  { split; [intros _; constructor; lia|done]. }
  destruct (Nat.leb_spec (length candles) i); [split; [intros _; by constructor|done]|].
  destruct (breached z tol (candles !!! i)) eqn:Eb; cbn [negb].
  - rewrite if_ltb_min. destruct (first_index _ _ _ _) as [j|] eqn:Ej.
    + apply first_index_Some in Ej as (Hj & Hr & Hn).
      destruct (Z.ltb_spec (MaxBreakEpisodes cfg) (e + 1)).
      * split; [done|]. inversion 1; subst; [lia|congruence|lia].
      * rewrite IH by lia. split.
        -- intros. eapply (survives_forgiven _ _ _ _ i e j); try done; try lia. intros. apply Hn. lia.
        -- inversion 1 as [| |? ? j' ? Hj' ? Hr' Hn']; subst; [lia|congruence|].
           assert (j' = j) as ->; [|done].
           destruct (Nat.lt_trichotomy j j') as [Hlt|[|Hlt]]; [|done|].
           ++ rewrite Hn' in Hr by lia. done.
           ++ rewrite Hn in Hr' by lia. done.
    + rewrite first_index_None in Ej. split; [done|].
      inversion 1 as [| |? ? j' ? Hj' ? Hr' Hn']; subst; [lia|congruence|].
      rewrite Ej in Hr' by lia. done.
  - rewrite IH by lia. split; [by apply survives_hold|].
    inversion 1; subst; [lia|done|congruence].
Qed.

Lemma survives_forgiving candles z tol cfg cfg' i e e' :
  SweepReclaimBars cfg <= SweepReclaimBars cfg' → (MaxBreakEpisodes cfg - e <= MaxBreakEpisodes cfg' - e')%Z →
  survives candles z tol cfg i e → survives candles z tol cfg' i e'.
Proof.
  intros Hw Hm H. revert e' Hm. induction H as [| |i e j ????? ? _ IH]; intros e' Hm.
  - by constructor.
  - apply survives_hold; auto.
  - eapply survives_forgiven; [done..|lia|done|done|lia|]. apply IH. lia.
Qed.

Lemma survives_unforgiving candles z tol cfg i e :
  SweepReclaimBars cfg = 0 ∨ (MaxBreakEpisodes cfg <= e)%Z →
  survives candles z tol cfg i e ↔ ∀ k, i <= k < length candles → breached z tol (candles !!! k) = false.
Proof.
  intros Hc. split.
  - intros H. induction H as [|i e ? ? _ IH|]; intros k Hk; [lia| |exfalso; lia].
    destruct (decide (k = i)) as [->|]; [done|]. apply IH; [done|lia].
  - intros H. remember (length candles - i) as n eqn:Hn. revert i Hn H.
    induction n as [|n IH]; intros i Hn H; [constructor; lia|].
    apply survives_hold; [lia|apply H; lia|]. apply IH; [lia|]. intros. apply H. lia.
Qed.

(** * Lemmas: touches *)

(** The candles inside the band whose predecessor in the scan was not. *)
Fixpoint rising_edges (z : Zone) (wasInside : bool) (candles : list Candle) : list Candle :=
  match candles with
  | [] => []
  | c :: rest => (if inside z c && negb wasInside then [c] else []) ++ rising_edges z (inside z c) rest
  end.

Lemma touch_fold z candles touches was lastAt :
  foldl (touch_step z) (touches, was, lastAt) candles =
  ((touches + Z.of_nat (length (rising_edges z was candles)))%Z,
   default was (last (map (inside z) candles)),
   match last (filter (λ c, inside z c = true) candles) with
   | Some c => Some (c_Time c) | None => lastAt end).
Proof.
  revert touches was lastAt. induction candles as [|c cs IH]; intros touches was lastAt.
  { cbn. do 2 f_equal. lia. }
  cbn [foldl map rising_edges]. unfold touch_step at 2. rewrite length_app, filter_cons.
  destruct (inside z c) eqn:E; cbn [andb]; [destruct was|]; cbn [negb];
    rewrite IH, ?decide_True, ?decide_False by congruence; cbn [length Nat.add];
    apply pair_equal_spec; (split; [apply pair_equal_spec; split; [lia|]|]).
  all: try (by rewrite last_cons; destruct (last (map _ _))).
  all: try (by rewrite last_cons; destruct (last (filter _ _))).
  all: done.
Qed.

Lemma clamp01_range v : IsNaN (clamp01 v) = true ∨ (0 <= key (clamp01 v) <= key 1)%Z.
Proof.
  unfold clamp01. destruct (IsNaN v) eqn:E.
  - left. rewrite !ltb_key, E. rewrite andb_false_r. by cbn.
  - right. rewrite !ltb_num by done. change (key 0) with 0%Z.
    destruct (Z.ltb_spec (key v) 0); [by vm_compute|].
    destruct (Z.ltb_spec (key 1) (key v)); [by vm_compute|lia].
Qed.

(** * Lemmas: formed zones *)

(** What every builder guarantees: a numeric band, and a life that starts after the candle that
    created it. *)
Record zone_formed (candles : list Candle) (z : Zone) : Prop := {
  zf_low : IsNaN (z_Low z) = false;
  zf_high : IsNaN (z_High z) = false;
  zf_band : (key (z_Low z) <= key (z_High z))%Z;
  zf_fresh : z_TouchCount z = 0%Z ∧ z_LastTouchedAt z = None;
  zf_origin : ∃ i b, z_BreakIndex z = Z.of_nat b ∧ i <= b < length candles ∧
    z_CreatedAt z = c_Time (candles !!! i) ∧ z_OriginTime z = z_CreatedAt z;
}.

Lemma candle_at candles i : Forall candle_ok candles → i < length candles → candle_ok (candles !!! i).
Proof.
  intros Hok Hi. destruct (lookup_lt_is_Some_2 candles i Hi) as [c Hc].
  rewrite (list_lookup_total_correct _ _ _ Hc). by eapply Forall_lookup_1.
Qed.

Lemma run_formed candles run side kind tf atr :
  Forall candle_ok candles → 0 < r_StartIndex run <= r_EndIndex run → r_EndIndex run < length candles →
  zone_formed candles (zoneFromRun candles run side kind tf atr).
Proof.
  intros Hok Hs He. unfold zoneFromRun.
  set (base := slice candles (r_StartIndex run - 3) (r_StartIndex run)).
  assert (Hlen : length base = Nat.min 3 (r_StartIndex run)) by (unfold base; rewrite length_slice; lia).
  assert (Hb : Forall candle_ok base) by (unfold base, slice; by apply Forall_drop, Forall_take).
  destruct base as [|c0 base]; [cbn [length] in Hlen; lia|]. cbn [head tail default id].
  inversion Hb as [|? ? H0 Hb']; subst.
  assert (Hn : Forall (λ c, IsNaN (c_Low c) = false) base ∧ Forall (λ c, IsNaN (c_High c) = false) base).
  { split; (eapply Forall_impl; [exact Hb'|]); intros c []; by apply finite_not_nan. }
  pose proof (finite_not_nan _ (ok_low _ H0)). pose proof (finite_not_nan _ (ok_high _ H0)).
  destruct (foldl_least (λ a b, (key a <= key b)%Z) (λ a b, (a <? b)%float) c_Low base (c_Low c0)
    (λ b, IsNaN b = false)) as (L0 & L1 & _ & _); [| | |intros; lia|done|apply Hn|].
  { done. } { intros a b ??. rewrite ltb_num by done. lia. } { intros a b ??. rewrite ltb_num by done. lia. }
  destruct (foldl_least (λ a b, (key b <= key a)%Z) (λ a b, (b <? a)%float) c_High base (c_High c0)
    (λ b, IsNaN b = false)) as (U0 & U1 & _ & _); [| | |intros; lia|done|apply Hn|].
  { done. } { intros a b ??. rewrite ltb_num by done. lia. } { intros a b ??. rewrite ltb_num by done. lia. }
  constructor; cbn; try done.
  - pose proof (ok_low_open _ H0). pose proof (ok_open_high _ H0). lia.
  - exists (r_StartIndex run - 1), (r_EndIndex run). split_and!; try done; lia.
Qed.

Lemma orderBlock_formed candles breaks tf atr cfg run z :
  Forall candle_ok candles → r_StartIndex run <= r_EndIndex run →
  orderBlock candles breaks tf atr cfg run = Some z → zone_formed candles z.
Proof.
  intros Hok Hse. unfold orderBlock.
  destruct (Nat.leb_spec (r_StartIndex run) 0); [done|].
  destruct (Nat.leb_spec (length candles) (r_EndIndex run)); [done|]. cbn [orb].
  destruct (causingBreak _ _ _) as [confirming|]; [|done].
  destruct (indexOfTimeFrom _ _ _) as [ci|]; [|done]. destruct (negb _); [done|].
  destruct (lastOppositeCandle _ _ _) as [o|] eqn:Eo; [|done].
  assert (Ho : o < r_StartIndex run).
  { revert Eo. generalize (r_StartIndex run). intros n. induction n as [|n IH]; [done|].
    cbn [lastOppositeCandle]. destruct (_ && _); [intros [= ->]; lia|].
    destruct (_ && _); [intros [= ->]; lia|]. intros ?%IH. lia. }
  pose proof (candle_at candles o Hok ltac:(lia)) as Hc.
  pose proof (finite_not_nan _ (ok_open _ Hc)). pose proof (finite_not_nan _ (ok_close _ Hc)).
  destruct (c_Open (candles !!! o) >? c_Close (candles !!! o))%float eqn:E;
    rewrite ltb_num in E by done; intros [= <-]; constructor; cbn; try done; try lia.
  all: exists o, (r_EndIndex run); split_and!; try done; lia.
Qed.

(** Breakers and inverted gaps keep the band they come from. *)
Lemma inversion_formed candles z0 kind side id tf sref dref i strength :
  zone_formed candles z0 → i < length candles →
  zone_formed candles (new_zone id kind side (z_Low z0) (z_High z0) tf (c_Time (candles !!! i)) sref dref i strength).
Proof. intros [] Hi. constructor; cbn; try done. exists i, i. split_and!; try done; lia. Qed.

Lemma breaker_formed candles tf atr ob z :
  zone_formed candles ob → breaker candles tf atr ob = Some z → zone_formed candles z.
Proof.
  intros Hob. unfold breaker. destruct (indexOfTimeFrom _ _ _) as [o|]; [|done].
  destruct (first_some _ _ _) as [v|] eqn:E; [|done]. intros [= <-].
  apply inversion_formed; [done|]. apply first_some_Some in E as (k & Hk & He & _).
  destruct (closed_through _ _ _ _); [|done]. injection He as <-. lia.
Qed.

Lemma ifvg_formed candles tf atr z0 z :
  zone_formed candles z0 → ifvg candles tf atr z0 = Some z → zone_formed candles z.
Proof.
  intros Hob. unfold ifvg. destruct (indexOfTimeFrom _ _ _) as [o|]; [|done].
  destruct (first_some _ _ _) as [v|] eqn:E; [|done]. destruct (existsb _ _); [done|]. intros [= <-].
  apply inversion_formed; [done|]. apply first_some_Some in E as (k & Hk & He & _).
  destruct (closed_through _ _ _ _); [|done]. injection He as <-. lia.
Qed.

Lemma fvg_formed candles tf atr i z :
  Forall candle_ok candles → 2 <= i < length candles → fvg_at candles tf atr i = Some z →
  zone_formed candles z ∧ (key (z_Low z) < key (z_High z))%Z.
Proof.
  intros Hok Hi. unfold fvg_at.
  pose proof (candle_at candles i Hok ltac:(lia)) as Hc. pose proof (candle_at candles (i - 2) Hok ltac:(lia)) as Ho.
  pose proof (finite_not_nan _ (ok_low _ Hc)). pose proof (finite_not_nan _ (ok_high _ Hc)).
  pose proof (finite_not_nan _ (ok_low _ Ho)). pose proof (finite_not_nan _ (ok_high _ Ho)).
  rewrite !ltb_num by done.
  destruct (Z.ltb_spec (key (c_High (candles !!! (i - 2)))) (key (c_Low (candles !!! i)))).
  - intros [= <-]. split; [|done]. constructor; cbn; try done; [lia|]. exists i, i. split_and!; done || lia.
  - destruct (Z.ltb_spec (key (c_High (candles !!! i))) (key (c_Low (candles !!! (i - 2))))); [|done].
    intros [= <-]. split; [|done]. constructor; cbn; try done; [lia|]. exists i, i. split_and!; done || lia.
Qed.

Lemma flip_formed candles byID tf atr cfg b z :
  flip candles byID tf atr cfg b = Some z → zone_formed candles z ∧ z_Kind z = KindFlip.
Proof.
  unfold flip. destruct (_ !! _) as [s|]; [|done].
  destruct (indexOfTimeFrom _ _ _) as [i|] eqn:Ei; [|done]. apply indexOfTimeFrom_Some in Ei as [Hi _].
  destruct (negb (acceptedBreak _ _ _ _ _)); [done|].
  destruct (if bool_decide (k_Direction b = Buy) then _ else _) as [low high].
  destruct (validFlipAnchor low high _ _) eqn:Ev; [|done]. cbn [negb]. intros [= <-]. split; [|done].
  unfold validFlipAnchor in Ev. destruct (_ || _) eqn:Eg; [done|]. bools.
  assert (Hlt : (low <? high)%float = true) by (revert Ev; split_ifs; done).
  rewrite ltb_num in Hlt by done.
  constructor; cbn; try done; [lia|]. exists i, i. split_and!; done || lia.
Qed.

Lemma runs_cover_bounds candles series maxBars cfg i runs :
  runs_cover candles series maxBars cfg i runs →
  Forall (λ r, r_StartIndex r <= r_EndIndex r < length candles) runs.
Proof.
  revert i. induction runs as [|r rest IH]; intros i H; [constructor|]. cbn [runs_cover] in H.
  destruct H as (H1 & H2 & _ & _ & _ & _ & H). constructor; [lia|]. by eapply IH.
Qed.

Lemma Forall_omap {A B} (f : A → option B) (P : A → Prop) (Q : B → Prop) l :
  Forall P l → (∀ a b, P a → f a = Some b → Q b) → Forall Q (omap f l).
Proof.
  intros Hl Hf. apply Forall_forall. intros b (a & Ha & Hb)%list_elem_of_omap.
  rewrite Forall_forall in Hl. eauto.
Qed.

Lemma formed_zones_ok candles series swings breaks tf cfg :
  Forall candle_ok candles → Forall (zone_formed candles) (formed_zones candles series swings breaks tf cfg).
Proof.
  intros Hok. unfold formed_zones.
  set (runs := detectDisplacementRuns _ _ _ _).
  assert (Hr : Forall (λ r, r_StartIndex r <= r_EndIndex r < length candles) runs).
  { eapply (runs_cover_bounds candles series _ _ 0). apply runs_loop_cover. lia. }
  assert (Hfr : ∀ side kind dir, Forall (zone_formed candles)
    (map (λ run, zoneFromRun candles run side kind tf (lastValue series)) (List.filter (run_selected dir) runs))).
  { intros side kind dir. apply Forall_forall. intros z Hz.
    apply list_elem_of_In, in_map_iff in Hz as (r & <- & [Hin Hsel]%filter_In).
    apply list_elem_of_In in Hin. rewrite Forall_forall in Hr. specialize (Hr r Hin). cbv beta in Hr.
    unfold run_selected in Hsel. bools. destruct (Nat.leb_spec (r_StartIndex r) 0); [done|].
    apply run_formed; [done|lia|lia]. }
  assert (Hob : Forall (zone_formed candles) (buildOrderBlockZones candles runs breaks tf (lastValue series) cfg)).
  { eapply Forall_omap; [exact Hr|]. cbn beta. intros r z Hb Hz. eapply orderBlock_formed; [done| |exact Hz]. lia. }
  assert (Hfvg : Forall (zone_formed candles) (buildFVGZones candles tf (lastValue series))).
  { eapply (Forall_omap _ (λ i, 2 <= i < length candles)).
    - apply Forall_forall. intros i Hi%list_elem_of_In%in_seq. lia.
    - intros i z Hi Hz. by apply (fvg_formed candles tf (lastValue series) i z). }
  rewrite !Forall_app. split_and!; [apply Hfr|apply Hfr|done| |done| |].
  - eapply Forall_omap; [exact Hob|]. intros. by eapply breaker_formed.
  - eapply Forall_omap; [exact Hfvg|]. intros. by eapply ifvg_formed.
  - eapply (Forall_omap _ (λ _, True)); [by apply Forall_true|]. intros b z _ Hz. by apply flip_formed in Hz as [? _].
Qed.

Lemma update_zone_fields candles atr cfg z :
  let z' := update_zone candles atr cfg z in
  z_ID z' = z_ID z ∧ z_Kind z' = z_Kind z ∧ z_Side z' = z_Side z ∧ z_Low z' = z_Low z ∧
  z_High z' = z_High z ∧ z_CreatedAt z' = z_CreatedAt z ∧ z_OriginTime z' = z_OriginTime z ∧
  z_BreakIndex z' = z_BreakIndex z.
Proof.
  unfold update_zone. destruct (indexAtOrAfter _ _); [|done]. by destruct (countTouches _ _ _).
Qed.

(** The lifecycle depends on the zone's side and band only. *)
Lemma episode_loop_band fuel candles z z' tol cfg i e :
  z_Side z = z_Side z' → farEdge z = farEdge z' →
  episode_loop fuel candles z tol cfg i e = episode_loop fuel candles z' tol cfg i e.
Proof.
  intros Hs Hf. assert (Hb : ∀ c, breached z tol c = breached z' tol c)
    by (intros; unfold breached; by rewrite Hs, Hf).
  revert i e. induction fuel as [|fuel IH]; intros i e; [done|]. cbn [episode_loop].
  rewrite Hb, IH. destruct (_ <=? _); [done|]. destruct (negb _); [done|].
  replace (first_index (reclaims z) candles) with (first_index (reclaims z') candles).
  - destruct (first_index _ _ _ _); [|done]. by rewrite IH.
  - unfold reclaims. by rewrite Hs, Hf.
Qed.

Lemma DeriveState_band candles from z z' t atr cfg :
  z_Side z = z_Side z' → farEdge z = farEdge z' →
  DeriveState candles from z t atr cfg = DeriveState candles from z' t atr cfg.
Proof.
  intros. unfold DeriveState, NotInvalidated. by rewrite (episode_loop_band _ _ z z').
Qed.

(** A formed zone's life is read from the candle after its break index. *)
Lemma update_zone_life candles atr cfg z b :
  increasing candles → zone_formed candles z → z_BreakIndex z = Z.of_nat b →
  let life := drop (S b) candles in
  let z' := update_zone candles atr cfg z in
  z_TouchCount z' = Z.of_nat (length (rising_edges z false life)) ∧
  z_LastTouchedAt z' = c_Time <$> last (filter (λ c, inside z c = true) life) ∧
  z_State z' = DeriveState candles (Z.of_nat (S b)) z (z_TouchCount z') atr (cfg_Lifecycle cfg) ∧
  (z_State z' = StateInvalidated ∨ z_State z' = StateMitigated → z_Strength z' = 0%float) ∧
  (IsNaN (z_Strength z') = true ∨ (0 <= key (z_Strength z') <= key 1)%Z).
Proof.
  intros Hs Hz Hbk. pose proof Hz as [_ _ _ [_ Hlast] (i & b' & Hb' & Hi & Hc & _)].
  assert (b' = b) as -> by lia. unfold update_zone, indexAtOrAfter.
  destruct (time_search candles (z_CreatedAt z) Hs) as [Hk Hdrop]. cbv zeta in Hk, Hdrop.
  set (k := bsearch _ _) in *.
  assert (Hki : k <= i).
  { destruct (decide (k <= i)); [done|]. exfalso.
    assert (Hin : candles !!! i ∈ at_or_after (z_CreatedAt z) candles).
    { apply list_elem_of_filter. rewrite Hc. split; [lia|].
      destruct (lookup_lt_is_Some_2 candles i) as [c Hci]; [lia|].
      rewrite (list_lookup_total_correct _ _ _ Hci). by eapply list_elem_of_lookup_2. }
    rewrite <- Hdrop in Hin. apply list_elem_of_lookup in Hin as (j & Hj). rewrite lookup_drop in Hj.
    pose proof (lookup_lt_Some _ _ _ Hj).
    pose proof (sorted_times_lt candles i (k + j) Hs ltac:(lia)) as Hlt.
    rewrite (list_lookup_total_correct _ _ _ Hj) in Hlt. lia. }
  destruct (Nat.eqb_spec k (length candles)); [lia|].
  unfold countTouches. rewrite Hbk. replace (Z.max (Z.of_nat k) (Z.of_nat b + 1)) with (Z.of_nat (S b)) by lia.
  replace (Z.of_nat b + 1)%Z with (Z.of_nat (S b)) by lia.
  destruct (Z.ltb_spec (Z.of_nat (S b)) 0); [lia|]. rewrite Nat2Z.id, touch_fold.
  destruct (Z.leb_spec (Z.of_nat (length candles)) (Z.of_nat (S b))).
  - rewrite drop_ge by lia. cbn [z_TouchCount z_LastTouchedAt z_State z_Strength rising_edges length last].
    rewrite Hlast. split_and!; [done|done|by apply DeriveState_band| |].
    + unfold applyLifecycleStrength. intros [-> | ->]; done.
    + unfold applyLifecycleStrength. destruct (_ || _); [by right|]. apply clamp01_range.
  - cbn [z_TouchCount z_LastTouchedAt z_State z_Strength]. rewrite Z.add_0_l. split_and!; [done| |by apply DeriveState_band| |].
    + rewrite Hlast. by destruct (last _).
    + unfold applyLifecycleStrength. intros [-> | ->]; done.
    + unfold applyLifecycleStrength. destruct (_ || _); [by right|]. apply clamp01_range.
Qed.

(** * Properties *)

(** The displacement walk finds disjoint runs, in order, each the displacement detected at its
    own start and ending within the scan bound, and leaves no start outside the runs at which one
    could have been detected. *)
Theorem displacement_runs_cover candles atrSeries maxBars cfg :
  runs_cover candles atrSeries maxBars cfg 0 (detectDisplacementRuns candles atrSeries maxBars cfg).
Proof. apply runs_loop_cover. lia. Qed.

(** A zone stays valid exactly when every close beyond its tolerance is reclaimed within the
    sweep window and the reclaimed episodes stay within the budget; a zone whose life has not
    begun is valid. *)
Theorem not_invalidated_reference candles from z atr cfg :
  NotInvalidated candles from z atr cfg = true ↔
  (from < 0 ∨ Z.of_nat (length candles) <= from)%Z ∨
  survives candles z (lifecycle_tolerance atr cfg) cfg (Z.to_nat from) 0.
Proof.
  unfold NotInvalidated. destruct (Z.ltb_spec from 0), (Z.leb_spec (Z.of_nat (length candles)) from);
    cbn [orb]; try (split; [intros _; left; lia|done]).
  rewrite episode_loop_survives by lia. split; [auto|]. intros [?|?]; [lia|done].
Qed.

(** Forgiveness is monotone: a zone that holds still holds under a longer reclaim window and a
    larger episode budget, and with no forgiveness at all it holds exactly when no close from its
    first live candle on goes beyond the tolerance. *)
Theorem forgiveness_monotone candles from z atr cfg cfg' :
  lifecycle_tolerance atr cfg' = lifecycle_tolerance atr cfg →
  SweepReclaimBars cfg <= SweepReclaimBars cfg' → (MaxBreakEpisodes cfg <= MaxBreakEpisodes cfg')%Z →
  (NotInvalidated candles from z atr cfg = true → NotInvalidated candles from z atr cfg' = true) ∧
  (SweepReclaimBars cfg = 0 ∨ (MaxBreakEpisodes cfg <= 0)%Z → (0 <= from)%Z →
   NotInvalidated candles from z atr cfg = true ↔
   ∀ k, Z.to_nat from <= k < length candles → breached z (lifecycle_tolerance atr cfg) (candles !!! k) = false).
Proof.
  intros Ht Hw Hm. unfold NotInvalidated. rewrite Ht.
  destruct (Z.ltb_spec from 0), (Z.leb_spec (Z.of_nat (length candles)) from); cbn [orb]; try (split; [done|lia]).
  - split; [done|]. intros _ _. split; [intros _ k ?; lia|done].
  - rewrite !episode_loop_survives by lia. split; [apply survives_forgiving; lia|].
    intros Hc _. by apply survives_unforgiving.
Qed.

Definition demo_lifecycle (bars : nat) : LifecycleConfig := mkLifecycleConfig 0.5 bars 2 3 0.05.
Definition demo_zone : Zone := new_zone "z" KindDemand Demand 9%float 10%float "M5" 1 "" "" 0 1%float.
Lemma forgiveness_monotone_witness :
  NotInvalidated (take 5 demo_hills) 1 demo_zone 0.1 (demo_lifecycle 1) = true ∧
  (NotInvalidated (take 5 demo_hills) 1 demo_zone 0.1 (demo_lifecycle 1) = true →
   NotInvalidated (take 5 demo_hills) 1 demo_zone 0.1 (demo_lifecycle 6) = true).
Proof.
  split; [vm_compute; reflexivity|].
  apply (forgiveness_monotone (take 5 demo_hills) 1 demo_zone 0.1 (demo_lifecycle 1) (demo_lifecycle 6));
    [reflexivity|cbn; lia|cbn; lia].
Defined.

(** [C24] On a valid market history every zone of the update has a numeric band with its low at or
    below its high, is created at a candle no later than its break candle, and is read only from
    the candles after that: its touches are the entries into the band there, its last touch the
    last candle inside, its state the lifecycle of those, and its strength at most one and zero
    once it is invalidated or mitigated. *)
Theorem zone_update_life candles atrSeries swings breaks tf cfg :
  ValidSeries candles = true →
  Forall2 (λ z z', zone_formed candles z ∧
      z_ID z' = z_ID z ∧ z_Low z' = z_Low z ∧ z_High z' = z_High z ∧ z_Side z' = z_Side z ∧
      let life := drop (S (Z.to_nat (z_BreakIndex z))) candles in
      z_TouchCount z' = Z.of_nat (length (rising_edges z false life)) ∧
      z_LastTouchedAt z' = c_Time <$> last (filter (λ c, inside z c = true) life) ∧
      z_State z' = DeriveState candles (z_BreakIndex z + 1) z (z_TouchCount z') (lastValue atrSeries) (cfg_Lifecycle cfg) ∧
      (z_State z' = StateInvalidated ∨ z_State z' = StateMitigated → z_Strength z' = 0%float) ∧
      (IsNaN (z_Strength z') = true ∨ (0 <= key (z_Strength z') <= key 1)%Z))
    (formed_zones candles atrSeries swings breaks tf cfg)
    (zs_Zones (Update candles atrSeries swings breaks tf cfg)).
Proof.
  intros (Hok & Hs & _)%ValidSeries_from_spec.
  pose proof (formed_zones_ok candles atrSeries swings breaks tf cfg Hok) as Hf. unfold Update.
  destruct (Nat.eqb_spec (length candles) 0) as [E|_].
  { assert (Hnil : formed_zones candles atrSeries swings breaks tf cfg = []); [|rewrite Hnil; constructor].
    destruct (formed_zones _ _ _ _ _ _) as [|z zs]; [done|]. inversion Hf as [|? ? Hz _].
    destruct Hz as [_ _ _ _ (i & b & _ & ? & _)]. lia. }
  cbn [zs_Zones]. apply Forall2_fmap_r. induction Hf as [|z zs Hz _ IH]; constructor; [|done].
  pose proof (update_zone_fields candles (lastValue atrSeries) cfg z) as (H1 & _ & H3 & H4 & H5 & _).
  pose proof Hz as [_ _ _ _ (i & b & Hb & _)].
  pose proof (update_zone_life candles (lastValue atrSeries) cfg z b Hs Hz Hb) as H.
  rewrite Hb, Nat2Z.id. replace (Z.of_nat b + 1)%Z with (Z.of_nat (S b)) by lia. split_and!; done || apply H.
Qed.

Definition demo_gap : list Candle :=
  [mkCandle 1 10 11 9 10 1; mkCandle 2 10 14 10 14 1; mkCandle 3 14 15 13 15 1;
   mkCandle 4 18 19 17 18 1; mkCandle 5 18 19 17 18 1; mkCandle 6 18 18 8 9 1]%float.
Definition demo_config : Config :=
  mkConfig "v1" (mkDisplacementConfig 1.5 0.55) (demo_lifecycle 6) (mkRelevanceConfig 1 2 3) 2 0.5 0.1 0.5.
Lemma zone_update_life_witness :
  map z_ID (zs_Zones (Update demo_gap [1; 1; 1; 1; 1; 1]%float [] [] "M5" demo_config)) =
  map z_ID (formed_zones demo_gap [1; 1; 1; 1; 1; 1]%float [] [] "M5" demo_config).
Proof.
  assert (H := zone_update_life demo_gap [1; 1; 1; 1; 1; 1]%float [] [] "M5" demo_config eq_refl).
  induction H as [|z z' zs zs' (_ & Hid & _) _ IH]; [reflexivity|]. cbn [map]. rewrite Hid, IH. reflexivity.
Defined.

(** One close can invert several gaps, and an inverted gap is named by that candle alone: the
    zones differ and their identifiers do not. *)
Example inverted_gaps_alias :
  map (λ z, (z_ID z, z_Low z)) (buildIFVGZones demo_gap (buildFVGZones demo_gap "M5" 1) "M5" 1) =
  [("zone:M5:ifvg:6", 11%float); ("zone:M5:ifvg:6", 14%float); ("zone:M5:ifvg:6", 15%float)].
Proof. vm_compute. reflexivity. Qed.
