(* ===== verification/CandleEvidence.v ===== *)
(** Package candle: the candle-confirmation evidence: per-candle geometry, rejection, displacement and
    sequence evidence, and their evaluation into one score. *)
From S2P Require Import Prelude Float64 Market.
From Stdlib Require Import Floats.

(** * evidence.go: geometry *)

Record Geometry := mkGeometry {
  ge_Open : float; ge_High : float; ge_Low : float; ge_Close : float; ge_RangePrice : float;
  ge_BodyPrice : float; ge_UpperWick : float; ge_LowerWick : float; ge_BodyFraction : float;
  ge_UpperWickFraction : float; ge_LowerWickFraction : float; ge_CloseLocation : float;
  ge_BodyATR : float; ge_RangeATR : float
}.
Definition clamp (v : float) : float :=
  if (v <? 0)%float then 0%float else if (v >? 1)%float then 1%float else v.
Definition quality (v minimum strong : float) : float :=
  if (strong <=? minimum)%float then (if (v >=? minimum)%float then 1%float else 0%float)
  else clamp ((v - minimum) / (strong - minimum)).
Definition atrQuality (v minimum : float) : float :=
  if (v <=? 0)%float || (minimum <=? 0)%float then 0%float else clamp (v / (minimum * 4)).
Definition GeometryOf (c : Candle) (atr : float) : Geometry :=
  let rng := (c_High c - c_Low c)%float in
  let body := abs (c_Close c - c_Open c) in
  let upper := math_Max 0 (c_High c - math_Max (c_Open c) (c_Close c)) in
  let lower := math_Max 0 (math_Min (c_Open c) (c_Close c) - c_Low c) in
  let '(bodyFraction, upperFraction, lowerFraction, location) :=
    if (rng >? 0)%float
    then (clamp (body / rng), clamp (upper / rng), clamp (lower / rng), clamp ((c_Close c - c_Low c) / rng))
    else (0, 0, 0, 0.5)%float in
  let '(bodyATR, rangeATR) :=
    if (atr >? 0)%float then ((body / atr)%float, (math_Max 0 rng / atr)%float) else (0, 0)%float in
  mkGeometry (c_Open c) (c_High c) (c_Low c) (c_Close c) (math_Max 0 rng) body upper lower bodyFraction
    upperFraction lowerFraction location bodyATR rangeATR.
Definition Bullish (g : Geometry) : bool := (ge_Close g >? ge_Open g)%float.
Definition Bearish (g : Geometry) : bool := (ge_Close g <? ge_Open g)%float.

(** * evidence.go: the evidence record *)

Record Rejection := mkRejection {
  rj_Score : float; rj_WickFraction : float; rj_BodyFraction : float; rj_CloseLocation : float;
  rj_Patterns : list string; rj_Sweep : bool; rj_Reclaim : bool; rj_SweepPenetrationATR : option float;
  rj_ReclaimDepthATR : option float
}.
Record Displacement := mkDisplacement {
  dp_Score : float; dp_BodyATR : float; dp_RangeATR : float; dp_BodyDominance : float;
  dp_CloseLocation : float; dp_Patterns : list string; dp_Reclaim : bool; dp_Engulfing : bool;
  dp_ReclaimDepthATR : option float; dp_EngulfingQuality : option float
}.
Record Indecision := mkIndecision {
  in_Doji : bool; in_SpinningTop : bool; in_InsideBar : bool; in_BodyFraction : float;
  in_CompressionScore : float
}.
Record Sequence := mkSequence { sq_Score : float; sq_Patterns : list string; sq_Bars : Z }.
Record Evidence := mkEvidence {
  ev_Version : Z; ev_Direction : string; ev_Rejection : option Rejection;
  ev_Displacement : option Displacement; ev_Sequence : option Sequence; ev_Indecision : option Indecision;
  ev_BaseScore : float; ev_SynergyBonus : float; ev_FinalScore : float; ev_PrimaryPattern : string;
  ev_AllPatterns : list string; ev_Geometry : Geometry
}.

(** * evidence.go: configuration *)

Record RejectionConfig := mkRejectionConfig {
  WickMinimumFraction : float; WickStrongFraction : float; BodyMaximumFraction : float;
  CloseBuyMinimumLocation : float; CloseSellMaximumLocation : float; SweepEnabled : bool;
  SweepMinimumPenetrationATR : float; ReclaimEnabled : bool; ReclaimMinimumDepthATR : float
}.
Record DisplacementConfig := mkDisplacementConfig {
  BodyMinimumATR : float; RangeMinimumATR : float; BodyDominanceMinimum : float; StrongCloseBuyMinimum : float;
  StrongCloseSellMaximum : float; EngulfingEnabled : bool; EngulfingMinimumRangeATR : float; CloseBeyondLevelEnabled : bool
}.
Record SequenceConfig := mkSequenceConfig {
  DojiBodyFraction : float; FirstBodyMinimumATR : float; MiddleBodyMaximumFraction : float; RecoveryMinimumRatio : float;
  ThirdBodyMinimumATR : float; CompressionMinimumBars : Z; CompressionMaximumBars : Z; CompressionMaximumRangeATR : float;
  CompressionMaximumBodyFraction : float; CompressionBreakoutBodyATR : float
}.
Record SynergyConfig := mkSynergyConfig {
  RejectionPlusDisplacement : float; SweepPlusReclaim : float; SequencePlusDisplacement : float; MaximumBonus : float
}.
Record Config := mkConfig {
  cfg_Enabled : bool; cfg_Version : Z; cfg_Rejection : RejectionConfig; cfg_Displacement : DisplacementConfig;
  cfg_Sequences : SequenceConfig; cfg_Synergy : SynergyConfig
}.
Definition Version : Z := 2.
Definition DefaultConfig : Config :=
  mkConfig true Version (mkRejectionConfig 0.30 0.55 0.45 0.65 0.35 true 0.05 true 0.05)
    (mkDisplacementConfig 0.30 0.40 0.55 0.70 0.30 true 0.50 true)
    (mkSequenceConfig 0.10 0.30 0.30 0.50 0.25 2 4 0.80 0.35 0.30) (mkSynergyConfig 0.08 0.10 0.06 0.12).
(** The comparison with the zero configuration. *)
Definition zero_Config (c : Config) : bool :=
  let r := cfg_Rejection c in let d := cfg_Displacement c in let s := cfg_Sequences c in let y := cfg_Synergy c in
  negb (cfg_Enabled c) && (cfg_Version c =? 0)%Z &&
  forallb (λ v, v =? 0)%float
    [WickMinimumFraction r; WickStrongFraction r; BodyMaximumFraction r; CloseBuyMinimumLocation r; CloseSellMaximumLocation r;
     SweepMinimumPenetrationATR r; ReclaimMinimumDepthATR r; BodyMinimumATR d; RangeMinimumATR d; BodyDominanceMinimum d;
     StrongCloseBuyMinimum d; StrongCloseSellMaximum d; EngulfingMinimumRangeATR d; DojiBodyFraction s; FirstBodyMinimumATR s;
     MiddleBodyMaximumFraction s; RecoveryMinimumRatio s; ThirdBodyMinimumATR s; CompressionMaximumRangeATR s;
     CompressionMaximumBodyFraction s; CompressionBreakoutBodyATR s; RejectionPlusDisplacement y; SweepPlusReclaim y;
     SequencePlusDisplacement y; MaximumBonus y] &&
  negb (SweepEnabled r || ReclaimEnabled r || EngulfingEnabled d || CloseBeyondLevelEnabled d) &&
  (CompressionMinimumBars s =? 0)%Z && (CompressionMaximumBars s =? 0)%Z.
Definition or_default (v d : float) : float := if (v =? 0)%float then d else v.
Definition or_default_Z (v d : Z) : Z := if (v =? 0)%Z then d else v.
Definition normalizeConfig (c : Config) : Config :=
  let D := DefaultConfig in
  if (cfg_Version c =? 0)%Z && zero_Config c then D
  else
    let r := cfg_Rejection c in let r0 := cfg_Rejection D in
    let d := cfg_Displacement c in let d0 := cfg_Displacement D in
    let s := cfg_Sequences c in let s0 := cfg_Sequences D in
    let y := cfg_Synergy c in let y0 := cfg_Synergy D in
    mkConfig (cfg_Enabled c) (or_default_Z (cfg_Version c) (cfg_Version D))
      (mkRejectionConfig (or_default (WickMinimumFraction r) (WickMinimumFraction r0))
        (or_default (WickStrongFraction r) (WickStrongFraction r0)) (or_default (BodyMaximumFraction r) (BodyMaximumFraction r0))
        (or_default (CloseBuyMinimumLocation r) (CloseBuyMinimumLocation r0))
        (or_default (CloseSellMaximumLocation r) (CloseSellMaximumLocation r0)) (SweepEnabled r)
        (or_default (SweepMinimumPenetrationATR r) (SweepMinimumPenetrationATR r0)) (ReclaimEnabled r)
        (or_default (ReclaimMinimumDepthATR r) (ReclaimMinimumDepthATR r0)))
      (mkDisplacementConfig (or_default (BodyMinimumATR d) (BodyMinimumATR d0)) (or_default (RangeMinimumATR d) (RangeMinimumATR d0))
        (or_default (BodyDominanceMinimum d) (BodyDominanceMinimum d0)) (or_default (StrongCloseBuyMinimum d) (StrongCloseBuyMinimum d0))
        (or_default (StrongCloseSellMaximum d) (StrongCloseSellMaximum d0)) (EngulfingEnabled d)
        (or_default (EngulfingMinimumRangeATR d) (EngulfingMinimumRangeATR d0)) (CloseBeyondLevelEnabled d))
      (mkSequenceConfig (or_default (DojiBodyFraction s) (DojiBodyFraction s0))
        (or_default (FirstBodyMinimumATR s) (FirstBodyMinimumATR s0))
        (or_default (MiddleBodyMaximumFraction s) (MiddleBodyMaximumFraction s0))
        (or_default (RecoveryMinimumRatio s) (RecoveryMinimumRatio s0)) (or_default (ThirdBodyMinimumATR s) (ThirdBodyMinimumATR s0))
        (or_default_Z (CompressionMinimumBars s) (CompressionMinimumBars s0))
        (or_default_Z (CompressionMaximumBars s) (CompressionMaximumBars s0))
        (or_default (CompressionMaximumRangeATR s) (CompressionMaximumRangeATR s0))
        (or_default (CompressionMaximumBodyFraction s) (CompressionMaximumBodyFraction s0))
        (or_default (CompressionBreakoutBodyATR s) (CompressionBreakoutBodyATR s0)))
      (mkSynergyConfig (or_default (RejectionPlusDisplacement y) (RejectionPlusDisplacement y0))
        (or_default (SweepPlusReclaim y) (SweepPlusReclaim y0)) (or_default (SequencePlusDisplacement y) (SequencePlusDisplacement y0))
        (or_default (MaximumBonus y) (MaximumBonus y0))).

(** * evidence.go: the three kinds of evidence *)

Definition is_side (direction : string) : bool := bool_decide (direction = Buy) || bool_decide (direction = Sell).
(** [if cond { patterns = append(patterns, p) }]. *)
Definition pattern (cond : bool) (p : string) : list string := if cond then [p] else [].
Definition penetration (direction : string) (c : Geometry) (level atr : float) : option float :=
  if (atr <=? 0)%float then None
  else
    let v := if bool_decide (direction = Sell) then ((ge_High c - level) / atr)%float else ((level - ge_Low c) / atr)%float in
    if (v <=? 0)%float then None else Some v.
Definition reclaim (direction : string) (c : Geometry) (level atr : float) : option float :=
  if (atr <=? 0)%float then None
  else
    let v := if bool_decide (direction = Sell) then ((level - ge_Close c) / atr)%float else ((ge_Close c - level) / atr)%float in
    if (v <=? 0)%float then None else Some v.
Definition touched (g : Geometry) (low high : option float) : bool :=
  match low, high with
  | Some low, Some high => (ge_Low g <=? high + 1e-12)%float && (ge_High g >=? low - 1e-12)%float
  | _, _ => true
  end.
Definition contains (xs : list string) (x : string) : bool := bool_decide (x ∈ xs).
Definition value (v : option float) : float := default 0%float v.
Definition rejectionEvidence (g : Geometry) (direction : string) (atr level : float) (zoneLow zoneHigh : option float)
    (c : Config) : option Rejection :=
  let r := cfg_Rejection c in
  if negb (is_side direction) || negb (touched g zoneLow zoneHigh) then None
  else
    let sell := bool_decide (direction = Sell) in
    let '(directionalWick, oppositeWick) :=
      if sell then (ge_UpperWickFraction g, ge_LowerWickFraction g) else (ge_LowerWickFraction g, ge_UpperWickFraction g) in
    let sweep := if SweepEnabled r then penetration direction g level atr else None in
    let reclaimDepth := if ReclaimEnabled r then reclaim direction g level atr else None in
    let '(closeForDirection, closeMinimum) :=
      if sell then ((1 - ge_CloseLocation g)%float, (1 - CloseSellMaximumLocation r)%float)
      else (ge_CloseLocation g, CloseBuyMinimumLocation r) in
    let patterns :=
      pattern (directionalWick >=? WickMinimumFraction r)%float "wick_rejection" ++
      pattern ((ge_BodyFraction g <=? 0.30)%float && (ge_BodyPrice g >? 0)%float &&
               (directionalWick / math_Max (ge_BodyFraction g) 1e-9 >=? 2)%float && (oppositeWick <=? 0.25)%float)
        (if bool_decide (direction = Buy) then "hammer" else "shooting_star") ++
      pattern ((ge_BodyFraction g <=? 0.20)%float && (directionalWick >=? 0.66)%float && (oppositeWick <=? 0.15)%float) "pin_bar" ++
      pattern ((ge_BodyFraction g <=? 0.30)%float && (oppositeWick / math_Max (ge_BodyFraction g) 1e-9 >=? 2)%float &&
               (directionalWick <=? 0.25)%float && bool_decide (reclaimDepth ≠ None)) "inverted_hammer" ++
      pattern (bool_decide (sweep ≠ None) && bool_decide (reclaimDepth ≠ None)) "sweep_reclaim" in
    if bool_decide (patterns = []) then None
    else
      let score := clamp (0.30 * quality directionalWick (WickMinimumFraction r) (WickStrongFraction r) +
        0.20 * quality closeForDirection closeMinimum 1 + 0.15 * clamp (1 - ge_BodyFraction g / BodyMaximumFraction r) +
        0.20 * atrQuality (value reclaimDepth) (ReclaimMinimumDepthATR r) +
        0.15 * atrQuality (value sweep) (SweepMinimumPenetrationATR r))%float in
      Some (mkRejection score directionalWick (ge_BodyFraction g) (ge_CloseLocation g) patterns
        (bool_decide (sweep ≠ None)) (bool_decide (reclaimDepth ≠ None)) sweep reclaimDepth).
Definition engulfing (g : Geometry) (prior : option Geometry) (direction : string) (minimumRange : float) (enabled : bool) :
    bool * option float :=
  match prior with
  | None => (false, None)
  | Some prior =>
      if (ge_RangePrice prior <=? 0)%float || negb enabled || (ge_RangeATR g <? minimumRange)%float then (false, None)
      else
        let lo := math_Min (ge_Open g) (ge_Close g) in let hi := math_Max (ge_Open g) (ge_Close g) in
        let plo := math_Min (ge_Open prior) (ge_Close prior) in let phi := math_Max (ge_Open prior) (ge_Close prior) in
        if (lo >? plo)%float || (hi <? phi)%float then (false, None)
        else if (bool_decide (direction = Buy) && negb (Bullish g)) || (bool_decide (direction = Sell) && negb (Bearish g))
        then (false, None)
        else
          let priorOpposite := (ge_BodyFraction prior <? 0.1)%float || (bool_decide (direction = Buy) && Bearish prior) ||
            (bool_decide (direction = Sell) && Bullish prior) in
          let oppositionQuality := if priorOpposite then 1.0%float else 0.4%float in
          let bodyRatio := if (ge_BodyPrice prior >? 0)%float then (ge_BodyPrice g / ge_BodyPrice prior)%float else 1.0%float in
          let bodySizeQuality := clamp (bodyRatio / 2) in
          let location := if bool_decide (direction = Buy) then ge_CloseLocation g else (1 - ge_CloseLocation g)%float in
          (true, Some (clamp (bodySizeQuality * location * oppositionQuality)))
  end.
Definition displacementEvidence (g : Geometry) (prior : option Geometry) (direction : string) (atr level : float) (c : Config) :
    option Displacement :=
  let d := cfg_Displacement c in
  if negb (is_side direction) then None
  else
    let sell := bool_decide (direction = Sell) in
    let '(engulf, engulfQ) := engulfing g prior direction (EngulfingMinimumRangeATR d) (EngulfingEnabled d) in
    let reclaimDepth := if CloseBeyondLevelEnabled d then reclaim direction g level atr else None in
    let directional := if sell then Bearish g else Bullish g in
    let closeForDirection := if sell then (1 - ge_CloseLocation g)%float else ge_CloseLocation g in
    let strongCloseMinimum := if sell then (1 - StrongCloseSellMaximum d)%float else StrongCloseBuyMinimum d in
    let patterns :=
      pattern (directional && (closeForDirection >=? strongCloseMinimum)%float) "strong_close" ++
      pattern (directional && (ge_RangeATR g >=? RangeMinimumATR d)%float) "body_close" ++
      pattern engulf "engulfing" ++
      pattern (bool_decide (reclaimDepth ≠ None)) "strong_reclaim" ++
      pattern (directional && (ge_BodyFraction g >=? BodyDominanceMinimum d)%float && (ge_BodyATR g >=? BodyMinimumATR d)%float)
        "displacement_candle" in
    if bool_decide (patterns = []) then None
    else
      let bodyDominance := if directional then ge_BodyFraction g else 0%float in
      let score := clamp (0.30 * quality bodyDominance (BodyDominanceMinimum d) 0.85 +
        0.25 * atrQuality (ge_RangeATR g) (RangeMinimumATR d) +
        0.20 * quality (if directional then closeForDirection else 0) strongCloseMinimum 1 +
        0.15 * atrQuality (value reclaimDepth) (ReclaimMinimumDepthATR (cfg_Rejection c)) + 0.10 * value engulfQ)%float in
      Some (mkDisplacement score (ge_BodyATR g) (ge_RangeATR g) bodyDominance (ge_CloseLocation g) patterns
        (bool_decide (reclaimDepth ≠ None)) engulf reclaimDepth engulfQ).
Definition indecision (g : Geometry) (prior : option Geometry) (c : Config) : Indecision :=
  let doji := (ge_BodyFraction g <=? DojiBodyFraction (cfg_Sequences c))%float in
  mkIndecision doji
    (negb doji && (ge_BodyFraction g <=? 0.35)%float && (abs (ge_UpperWickFraction g - ge_LowerWickFraction g) <=? 0.20)%float)
    (match prior with None => false | Some p => (ge_High g <=? ge_High p)%float && (ge_Low g >=? ge_Low p)%float end)
    (ge_BodyFraction g) (clamp (1 - atrQuality (ge_RangeATR g) 0.40)).

(** * evidence.go: sequences *)

Definition zero_Geometry : Geometry := mkGeometry 0 0 0 0 0 0 0 0 0 0 0 0 0 0.
#[export] Instance Geometry_inhabited : Inhabited Geometry := populate zero_Geometry.
Definition mean_body (bars : list Geometry) : float :=
  (foldl (λ avg b, avg + ge_BodyFraction b)%float 0%float bars / f64_of_Z (Z.of_nat (length bars)))%float.
Definition sequenceScore (bars : list Geometry) (direction : string) (atr : float) (level : option float) (c : Config) : float :=
  let s := cfg_Sequences c in
  let first := bars !!! 0 in let last := bars !!! (length bars - 1) in
  let middle := slice bars 1 (length bars - 1) in
  let middle := if bool_decide (middle = []) then [bars !!! (length bars / 2)] else middle in
  let avg := mean_body middle in
  let firstMove := abs (ge_Open first - ge_Close first) in
  let recovery :=
    if (firstMove >? 0)%float then
      if bool_decide (direction = Buy) then ((ge_Close last - ge_Close first) / firstMove)%float
      else ((ge_Close first - ge_Close last) / firstMove)%float
    else 0%float in
  let reclaimQuality := match level with None => 0%float | Some l => atrQuality (value (reclaim direction last l atr)) 0.05 end in
  clamp (0.25 * atrQuality (ge_BodyATR first) (FirstBodyMinimumATR s) + 0.20 * clamp (1 - avg / MiddleBodyMaximumFraction s) +
    0.30 * atrQuality (ge_BodyATR last) (ThirdBodyMinimumATR s) + 0.15 * quality (math_Max 0 recovery) (RecoveryMinimumRatio s) 1 +
    0.10 * reclaimQuality)%float.
Definition three_bar_patterns (a b c : Geometry) (direction : string) (atr : float) (level : option float) (s : SequenceConfig) :
    list string :=
  let move := abs (ge_Open a - ge_Close a) in
  let star := (move >? 0)%float && (ge_BodyFraction b <=? MiddleBodyMaximumFraction s)%float &&
    (ge_BodyATR a >=? FirstBodyMinimumATR s)%float && (ge_BodyATR c >=? ThirdBodyMinimumATR s)%float in
  pattern (star && bool_decide (direction = Buy) && Bearish a && Bullish c &&
           ((ge_Close c - ge_Close a) / move >=? RecoveryMinimumRatio s)%float) "morning_star" ++
  pattern (star && bool_decide (direction = Sell) && Bullish a && Bearish c &&
           ((ge_Close a - ge_Close c) / move >=? RecoveryMinimumRatio s)%float) "evening_star" ++
  pattern (match level with
           | None => false
           | Some l => bool_decide (penetration direction a l atr ≠ None) && (ge_BodyFraction b <=? MiddleBodyMaximumFraction s)%float &&
               (ge_BodyATR c >=? ThirdBodyMinimumATR s)%float && (value (reclaim direction c l atr) >? 0)%float
           end) "sweep_indecision_displacement".
Definition compression_patterns (bars : list Geometry) (direction : string) (atr : float) (s : SequenceConfig) : list string :=
  let compression := take (length bars - 1) bars in
  let breakout := bars !!! (length bars - 1) in
  let n := Z.of_nat (length compression) in
  if (CompressionMinimumBars s <=? n)%Z && (n <=? CompressionMaximumBars s)%Z then
    let hi := foldl (λ hi b, math_Max hi (ge_High b)) (ge_High (compression !!! 0)) compression in
    let lo := foldl (λ lo b, math_Min lo (ge_Low b)) (ge_Low (compression !!! 0)) compression in
    let avg := mean_body compression in
    pattern ((atr >? 0)%float && ((hi - lo) / atr <=? CompressionMaximumRangeATR s)%float &&
             (avg <=? CompressionMaximumBodyFraction s)%float && (ge_BodyATR breakout >=? CompressionBreakoutBodyATR s)%float &&
             ((bool_decide (direction = Buy) && Bullish breakout && (ge_Close breakout >? hi)%float) ||
              (bool_decide (direction = Sell) && Bearish breakout && (ge_Close breakout <? lo)%float))) "compression_break"
  else [].
Definition unique (xs : list string) : list string :=
  foldl (λ out x, if contains out x then out else out ++ [x]) [] xs.
Definition sequences (bars : list Geometry) (direction : string) (atr : float) (level : option float) (c : Config) : option Sequence :=
  let s := cfg_Sequences c in
  if (length bars <? 3)%nat then None
  else
    let patterns :=
      (match bars with [a; b; c] => three_bar_patterns a b c direction atr level s | _ => [] end) ++
      compression_patterns bars direction atr s in
    if bool_decide (patterns = []) then None
    else Some (mkSequence (sequenceScore bars direction atr level c) (unique patterns) (Z.of_nat (length bars))).
(** No candidate is nil: the caller keeps those that are not. *)
Definition mergeSequences (candidates : list Sequence) : option Sequence :=
  match candidates with
  | [] => None
  | _ =>
      let patterns := flat_map sq_Patterns candidates in
      let score := foldl (λ s c, s + sq_Score c)%float 0%float candidates in
      let bars := foldl (λ b c, if (b <? sq_Bars c)%Z then sq_Bars c else b) 0%Z candidates in
      if bool_decide (patterns = []) then None
      else Some (mkSequence (score / f64_of_Z (Z.of_nat (length candidates))) (unique patterns) bars)
  end.

(** * evidence.go: the evaluation *)

Definition normalize (direction : string) : string :=
  if bool_decide (direction = "buy") || bool_decide (direction = "Buy") then Buy
  else if bool_decide (direction = "sell") || bool_decide (direction = "Sell") then Sell else direction.
Definition priority : list string :=
  ["sweep_reclaim"; "sweep_indecision_displacement"; "strong_reclaim"; "engulfing"; "morning_star"; "evening_star";
   "strong_close"; "hammer"; "shooting_star"; "pin_bar"; "wick_rejection"; "compression_break"; "displacement_candle";
   "body_close"; "inverted_hammer"].
(** The candidates of the last five, four and three bars. *)
Definition sequence_candidates (gs : list Geometry) (direction : string) (atr : float) (zoneLow zoneHigh : option float) (c : Config) :
    list Sequence :=
  let level := match zoneLow, zoneHigh with
    | Some low, Some high => if bool_decide (direction = Buy) then Some low else Some high
    | _, _ => None
    end in
  omap (λ n, if (n <=? length gs)%nat then sequences (drop (length gs - n) gs) direction atr level c else None) [5; 4; 3].
(** The weighted sum over the evidence present, and the weights in force. *)
Definition weigh {A} (score : A → float) (weight : float) (x : option A) (acc : float * float) : float * float :=
  match x with None => acc | Some a => ((acc.1 + score a * weight)%float, (acc.2 + weight)%float) end.
Definition EvaluateWithConfig (bars : list Candle) (direction : string) (atr level : float) (zoneLow zoneHigh : option float)
    (c : Config) : option Evidence :=
  let c := normalizeConfig c in
  let direction := normalize direction in
  if negb (cfg_Enabled c) || bool_decide (bars = []) || negb (is_side direction) || (atr <=? 0)%float then None
  else
    let gs := map (λ b, GeometryOf b atr) bars in
    let current := gs !!! (length gs - 1) in
    let prior := if (1 <? length gs)%nat then Some (gs !!! (length gs - 2)) else None in
    let rejection := rejectionEvidence current direction atr level zoneLow zoneHigh c in
    let displacement := displacementEvidence current prior direction atr level c in
    let ind := indecision current prior c in
    let seq := mergeSequences (sequence_candidates gs direction atr zoneLow zoneHigh c) in
    match rejection, displacement, seq with
    | None, None, None => None
    | _, _, _ =>
        let '(weighted, active) :=
          weigh sq_Score 0.25 seq (weigh dp_Score 0.45 displacement (weigh rj_Score 0.30 rejection (0, 0)%float)) in
        let base := (weighted / active)%float in
        let y := cfg_Synergy c in
        let synergy := if bool_decide (rejection ≠ None) && bool_decide (displacement ≠ None)
          then (0 + RejectionPlusDisplacement y)%float else 0%float in
        let synergy := match rejection with
          | Some r => if rj_Sweep r && rj_Reclaim r then (synergy + SweepPlusReclaim y)%float else synergy | None => synergy end in
        let synergy := if bool_decide (seq ≠ None) && bool_decide (displacement ≠ None)
          then (synergy + SequencePlusDisplacement y)%float else synergy in
        let synergy := if (synergy >? MaximumBonus y)%float then MaximumBonus y else synergy in
        let patterns := unique (default [] (rj_Patterns <$> rejection) ++ default [] (dp_Patterns <$> displacement) ++
          default [] (sq_Patterns <$> seq)) in
        let primary := default "" (List.find (contains patterns) priority) in
        Some (mkEvidence Version direction rejection displacement seq (Some ind) base synergy (math_Min 1 (base + synergy))
          primary patterns current)
    end.
Definition Evaluate (bars : list Candle) (direction : string) (atr level : float) (zoneLow zoneHigh : option float) : option Evidence :=
  EvaluateWithConfig bars direction atr level zoneLow zoneHigh DefaultConfig.

(** * Lemmas *)

Lemma clamp_bounds v : IsNaN (clamp v) = true ∨ (0 <=? clamp v)%float && (clamp v <=? 1)%float = true.
Proof.
  unfold clamp. destruct (v <? 0)%float eqn:E0; [by right|]. destruct (1 <? v)%float eqn:E1; [by right|].
  destruct (IsNaN v) eqn:N; [by left|right].
  rewrite ltb_num in E0, E1 by done. rewrite !leb_num by done. lia.
Qed.
Lemma contains_in xs x : contains xs x = true ↔ x ∈ xs.
Proof. apply bool_decide_eq_true. Qed.
Lemma unique_spec xs : NoDup (unique xs) ∧ ∀ x, x ∈ unique xs ↔ x ∈ xs.
Proof.
  enough (H : ∀ out, NoDup out → NoDup (foldl (λ out x, if contains out x then out else out ++ [x]) out xs) ∧
    ∀ x, x ∈ foldl (λ out x, if contains out x then out else out ++ [x]) out xs ↔ x ∈ out ∨ x ∈ xs).
  { destruct (H []) as [H1 H2]; [constructor|]. split; [done|]. intros x. rewrite H2. set_solver. }
  induction xs as [|y xs IH]; intros out Hn; cbn [foldl]; [set_solver|].
  unfold contains at 2 4. case_bool_decide as Hy.
  - destruct (IH out Hn) as [H1 H2]. split; [done|]. intros x. rewrite H2. set_solver.
  - destruct (IH (out ++ [y])) as [H1 H2]; [apply NoDup_app; set_solver by (repeat constructor; set_solver)|].
    split; [done|]. intros x. rewrite H2. set_solver.
Qed.
Lemma pattern_in b p x : x ∈ pattern b p → x = p.
Proof. unfold pattern. destruct b; set_solver. Qed.
(** Each kind of evidence names at least one pattern, and only patterns of the priority list. *)
Definition named (ps : list string) : Prop := ps ≠ [] ∧ ps ⊆ priority.
Lemma pattern_priority b p : p ∈ priority → pattern b p ⊆ priority.
Proof. intros Hp x ->%pattern_in. done. Qed.
Ltac patterns_named := repeat first [apply list_subseteq_app_iff_l; split | apply pattern_priority; set_solver].

Lemma rejectionEvidence_named g d atr level zl zh c r :
  rejectionEvidence g d atr level zl zh c = Some r → named (rj_Patterns r).
Proof.
  unfold rejectionEvidence. intros H. destruct (_ || _); [done|]. 
  destruct (bool_decide (d = Sell)); cbv beta iota in H;
  (case_bool_decide as E; [done|]); injection H as <-; (split; [exact E|]); cbn [rj_Patterns]; patterns_named; destruct (bool_decide (d = Buy)); apply pattern_priority; set_solver.
Qed.
Lemma displacementEvidence_named g p d atr level c r :
  displacementEvidence g p d atr level c = Some r → named (dp_Patterns r).
Proof.
  unfold displacementEvidence. intros H. destruct (negb _); [done|].
  destruct (engulfing _ _ _ _ _) as [e q].
  case_bool_decide as E; [done|]. injection H as <-. split; [exact E|]. cbn [dp_Patterns]. patterns_named.
Qed.
Lemma unique_nil xs : unique xs = [] → xs = [].
Proof.
  intros E. destruct xs as [|x xs]; [done|]. destruct (unique_spec (x :: xs)) as [_ H].
  assert (x ∈ unique (x :: xs)) as Hx by (apply H; left). rewrite E in Hx. set_solver.
Qed.
Lemma unique_in xs x : x ∈ unique xs → x ∈ xs.
Proof. apply (unique_spec xs). Qed.
Lemma sequences_named bars d atr level c s : sequences bars d atr level c = Some s → named (sq_Patterns s).
Proof.
  unfold sequences. intros H. destruct (_ <? _)%nat; [done|]. case_bool_decide as E; [done|].
  injection H as <-. cbn [sq_Patterns]. split; [by intros ?%unique_nil|].
  intros x Hx%unique_in. revert x Hx. lazymatch goal with |- ∀ x, x ∈ ?l → _ => change (l ⊆ priority) end.
  apply list_subseteq_app_iff_l. split.
  - destruct bars as [|? [|? [|? [|]]]]; try set_solver. unfold three_bar_patterns. patterns_named.
  - unfold compression_patterns. destruct (_ && _); [patterns_named|set_solver].
Qed.
Lemma mergeSequences_named cs s :
  Forall (λ c, named (sq_Patterns c)) cs → mergeSequences cs = Some s → named (sq_Patterns s).
Proof.
  intros Hcs H. destruct cs as [|c cs]; [done|]. cbn [mergeSequences] in H. case_bool_decide as E; [done|].
  injection H as <-. cbn [sq_Patterns]. split; [by intros ?%unique_nil|].
  intros x Hx%unique_in. rewrite list_elem_of_In in Hx. apply (in_flat_map _ (c :: cs)) in Hx as (y & Hy & Hx).
  rewrite Forall_forall in Hcs. apply (Hcs y); by apply list_elem_of_In.
Qed.
Lemma sequence_candidates_named gs d atr zl zh c :
  Forall (λ s, named (sq_Patterns s)) (sequence_candidates gs d atr zl zh c).
Proof.
  apply Forall_forall. intros s (n & _ & H)%list_elem_of_omap.
  destruct (_ <=? _)%nat; [|done]. by apply sequences_named in H.
Qed.
Lemma find_first_in (ps qs : list string) p :
  List.find (contains ps) qs = Some p ↔
  ∃ i, qs !! i = Some p ∧ p ∈ ps ∧ ∀ j q, (j < i)%nat → qs !! j = Some q → q ∉ ps.
Proof.
  rewrite find_first. unfold contains. setoid_rewrite bool_decide_eq_true. setoid_rewrite bool_decide_eq_false. done.
Qed.
Lemma priority_hit ps : named ps → ∃ p, List.find (contains ps) priority = Some p.
Proof.
  intros [Hn Hs]. destruct (List.find (contains ps) priority) as [p|] eqn:E; [eauto|].
  destruct ps as [|x ps]; [done|]. exfalso. apply List.find_none with (x := x) in E.
  - apply not_true_iff_false in E. apply E, contains_in. left.
  - apply list_elem_of_In, Hs. left.
Qed.

Lemma named_parts {A B C} (f : A → list string) (g : B → list string) (h : C → list string) x y z :
  (∀ a, x = Some a → named (f a)) → (∀ b, y = Some b → named (g b)) → (∀ c, z = Some c → named (h c)) →
  x ≠ None ∨ y ≠ None ∨ z ≠ None → named (default [] (f <$> x) ++ default [] (g <$> y) ++ default [] (h <$> z)).
Proof.
  intros Hf Hg Hh Hne. unfold named. rewrite !list_subseteq_app_iff_l. split.
  - intros [E1 [E2 E3]%app_nil]%app_nil. destruct x as [a|]; [by apply (Hf a eq_refl)|].
    destruct y as [b|]; [by apply (Hg b eq_refl)|]. destruct z as [c|]; [by apply (Hh c eq_refl)|]. naive_solver.
  - split_and!; [destruct x|destruct y|destruct z]; cbn; try apply list_subseteq_nil;
      [apply (Hf _ eq_refl)|apply (Hg _ eq_refl)|apply (Hh _ eq_refl)].
Qed.

(** The patterns of the evidence present. *)
Definition evidence_patterns (e : Evidence) : list string :=
  default [] (rj_Patterns <$> ev_Rejection e) ++ default [] (dp_Patterns <$> ev_Displacement e) ++
  default [] (sq_Patterns <$> ev_Sequence e).

(** Evidence is only returned when a rejection, a displacement or a sequence was seen, and then it is
    well formed: the direction is a side, the indecision reading is attached, the pattern list has every pattern of
    the parts once and no other, the primary pattern is the first of the priority list that was seen, and the final
    score does not exceed one (or is not a number). *)
Theorem evidence_shape bars direction atr level zoneLow zoneHigh c e :
  EvaluateWithConfig bars direction atr level zoneLow zoneHigh c = Some e →
  (ev_Direction e = Buy ∨ ev_Direction e = Sell) ∧ ev_Indecision e ≠ None ∧
  (ev_Rejection e ≠ None ∨ ev_Displacement e ≠ None ∨ ev_Sequence e ≠ None) ∧
  NoDup (ev_AllPatterns e) ∧ (∀ p, p ∈ ev_AllPatterns e ↔ p ∈ evidence_patterns e) ∧
  (∃ i, priority !! i = Some (ev_PrimaryPattern e) ∧ ev_PrimaryPattern e ∈ ev_AllPatterns e ∧
        ∀ j q, (j < i)%nat → priority !! j = Some q → q ∉ ev_AllPatterns e) ∧
  (IsNaN (ev_FinalScore e) = true ∨ (ev_FinalScore e <=? 1)%float = true).
Proof.
  unfold EvaluateWithConfig. intros H. destruct (_ || _) eqn:G; [done|]. bools.
  set (gs := map _ _) in H.
  set (rej := rejectionEvidence _ _ _ _ _ _ _) in H.
  set (dis := displacementEvidence _ _ _ _ _ _) in H.
  set (seq := mergeSequences _) in H.
  assert (rej ≠ None ∨ dis ≠ None ∨ seq ≠ None) as Hne by (destruct rej, dis, seq; naive_solver).
  assert (named (default [] (rj_Patterns <$> rej) ++ default [] (dp_Patterns <$> dis) ++ default [] (sq_Patterns <$> seq))) as Hn.
  { apply named_parts; [intros r; apply rejectionEvidence_named|intros r; apply displacementEvidence_named| |done].
    intros r Hr. eapply mergeSequences_named; [|exact Hr]. apply sequence_candidates_named. }
  assert (is_side (normalize direction) = true) as [D|D]%orb_prop by done; apply bool_decide_eq_true in D.
  all: clearbody rej dis seq gs.
  all: destruct (weigh _ _ _ _) as [w a], (unique_spec (default [] (rj_Patterns <$> rej) ++
    default [] (dp_Patterns <$> dis) ++ default [] (sq_Patterns <$> seq))) as [Hu Hi].
  all: assert (named (unique (default [] (rj_Patterns <$> rej) ++ default [] (dp_Patterns <$> dis) ++ default [] (sq_Patterns <$> seq))))
    as Hp by (destruct Hn; split; [by intros ?%unique_nil|intros x; rewrite Hi; auto]).
  all: apply priority_hit in Hp as [p Hp]; rewrite Hp in H; apply find_first_in in Hp as Hf.
  all: destruct rej as [r|], dis as [d|], seq as [q|]; try (exfalso; tauto); injection H as <-;
    cbn [ev_Direction ev_Rejection ev_Displacement ev_Sequence ev_Indecision ev_AllPatterns ev_PrimaryPattern ev_FinalScore].
  all: split_and!; [by auto|discriminate| |exact Hu|exact Hi| |by apply math_Min_le_l].
  all: first [by left|by right; left|by right; right|exact Hf].
Qed.

(** Six bars of a falling market that end in a sweep below 10 and a close above it. *)
Definition demo_bars : list Candle :=
  [mkCandle 0 12 12.2 11 11.2 5; mkCandle 60 11.2 11.4 10.6 10.7 5; mkCandle 120 10.7 10.9 10.4 10.5 5;
   mkCandle 180 10.5 10.6 10.2 10.3 5; mkCandle 240 10.3 10.4 10.1 10.2 5; mkCandle 300 10.2 10.9 9.5 10.8 9].
Example demo_evidence :
  (λ e, (ev_PrimaryPattern e, ev_AllPatterns e)) <$> Evaluate demo_bars "buy" 1 10 (Some 9.8%float) (Some 10.2%float) =
  Some ("sweep_reclaim", ["wick_rejection"; "sweep_reclaim"; "strong_close"; "body_close"; "engulfing"; "strong_reclaim"]).
Proof. vm_compute. reflexivity. Qed.
Definition demo_check (e : Evidence) : bool :=
  bool_decide (ev_PrimaryPattern e = "sweep_reclaim") && (0.5 <? ev_FinalScore e)%float.
Lemma evidence_shape_witness :
  ∃ e, Evaluate demo_bars "buy" 1 10 (Some 9.8%float) (Some 10.2%float) = Some e ∧ demo_check e = true ∧ ev_Indecision e ≠ None.
Proof.
  destruct (Evaluate demo_bars "buy" 1 10 (Some 9.8%float) (Some 10.2%float)) as [e|] eqn:E; [|by vm_compute in E].
  exists e. split_and!; [done| |].
  - assert (Evaluate demo_bars "buy" 1 10 (Some 9.8%float) (Some 10.2%float) ≫= (λ e, Some (demo_check e)) = Some true)
      as H by (vm_compute; reflexivity). rewrite E in H. by injection H.
  - apply (evidence_shape _ _ _ _ _ _ _ _ E).
Defined.

Lemma lookup_total_drop_last {A} `{!Inhabited A} (l : list A) k n :
  (k < n)%nat → (k < length l)%nat → (drop (length l - n) l) !!! (length (drop (length l - n) l) - S k)%nat = l !!! (length l - S k)%nat.
Proof.
  intros. rewrite length_drop, !list_lookup_total_alt, lookup_drop. do 3 f_equal. lia.
Qed.

Lemma sequence_candidates_local gs d atr zl zh c :
  sequence_candidates gs d atr zl zh c = sequence_candidates (drop (length gs - 5) gs) d atr zl zh c.
Proof.
  unfold sequence_candidates. apply omap_ext_in. intros n Hn.
  assert (3 <= n <= 5)%nat as H by set_solver by lia. rewrite length_drop, drop_drop.
  destruct (Nat.leb_spec n (length gs)) as [Hle|Hlt].
  - destruct (Nat.leb_spec n (length gs - (length gs - 5))); [|lia]. do 2 f_equal. lia.
  - destruct (Nat.leb_spec n (length gs - (length gs - 5))); [lia|done].
Qed.

(** The evidence reads the last five bars and no other: any history with these as its tail gives the same. *)
Theorem evidence_local bars direction atr level zoneLow zoneHigh c :
  EvaluateWithConfig bars direction atr level zoneLow zoneHigh c =
  EvaluateWithConfig (drop (length bars - 5) bars) direction atr level zoneLow zoneHigh c.
Proof.
  unfold EvaluateWithConfig. destruct bars as [|b bars]; [done|]. remember (b :: bars) as l eqn:El.
  assert (0 < length l)%nat as Hl by (subst; cbn; lia). clear El b bars.
  rewrite (bool_decide_false (l = [])) by (intros ->; cbn in Hl; lia).
  rewrite (bool_decide_false (drop _ l = [])) by (intros E%(f_equal length); rewrite length_drop in E; cbn in E; lia).
  destruct (_ || _); [done|]. rewrite <- skipn_map, <- (length_map (λ b, GeometryOf b atr) l).
  set (gs := map _ l). assert (0 < length gs)%nat as Hg by (unfold gs; by rewrite length_map).
  set (gs' := drop _ gs).
  assert (length gs' = Nat.min 5 (length gs)) as Hl' by (unfold gs'; rewrite length_drop; lia).
  replace (gs' !!! (length gs' - 1)) with (gs !!! (length gs - 1)) by (symmetry; apply lookup_total_drop_last; lia).
  replace (1 <? length gs')%nat with (1 <? length gs)%nat by (rewrite Hl'; apply eq_true_iff_eq; rewrite !Nat.ltb_lt; lia).
  replace (if (1 <? length gs)%nat then Some (gs' !!! (length gs' - 2)) else None)
    with (if (1 <? length gs)%nat then Some (gs !!! (length gs - 2)) else None)
    by (destruct (Nat.ltb_spec 1 (length gs)); [f_equal; symmetry; apply lookup_total_drop_last; lia|done]).
  rewrite <- (sequence_candidates_local gs). done.
Qed.
