(* ===== verification/Fib.v ===== *)
(** Package fib: retracement and extension ladders and the premium/discount dealing range of the swing pair
    that brackets the price. *)
From S2P Require Import Prelude Float64 Market Structure.
From Stdlib Require Import Floats.

(** * ladder.go *)

Inductive LevelKind := KindRetracement | KindExtension.
#[export] Instance LevelKind_eq_dec : EqDecision LevelKind.
Proof. solve_decision. Defined.
Definition retracementRatios : list float := [0.236; 0.382; 0.5; 0.618; 0.786]%float.
Definition extensionRatios : list float := [1.0; 1.272; 1.618]%float.
Record Level := mkLevel { l_Ratio : float; l_Price : float; l_Kind : LevelKind }.
Definition Ladder (low high : float) (includeExtensions : bool) : list Level :=
  let span := (high - low)%float in
  if (span <=? 0)%float then []
  else
    map (λ r, mkLevel r (high - r * span)%float KindRetracement) retracementRatios ++
    (if includeExtensions then map (λ e, mkLevel e (low + e * span)%float KindExtension) extensionRatios else []).

(** The distance of the loop of [NearestLevel]. *)
Definition level_dist (price : float) (l : Level) : float :=
  let dist := (price - l_Price l)%float in if (dist <? 0)%float then (- dist)%float else dist.
Definition nearest_step (price band : float) (allowed : list LevelKind) (best : option (Level * float)) (l : Level) :
    option (Level * float) :=
  if bool_decide (l_Kind l ∈ allowed) then
    let dist := level_dist price l in
    if (dist <=? band)%float && match best with None => true | Some (_, bestDist) => (dist <? bestDist)%float end
    then Some (l, dist) else best
  else best.
Definition nearest_band (epsilonATR atr : float) : float := ((if (epsilonATR <? 0)%float then 0 else epsilonATR) * atr)%float.
Definition allowed_kinds (kinds : list LevelKind) : list LevelKind := if bool_decide (kinds = []) then [KindRetracement] else kinds.
Definition NearestLevel (levels : list Level) (price atr epsilonATR : float) (kinds : list LevelKind) : option Level :=
  if bool_decide (levels = []) || (atr <=? 0)%float then None
  else
    let band := nearest_band epsilonATR atr in
    if (band <=? 0)%float then None
    else fst <$> foldl (nearest_step price band (allowed_kinds kinds)) None levels.

(** * dealing_range.go *)

Record Config := mkConfig { EpsilonATR : float; DeepDiscount : float; DeepPremium : float; EqHalfBand : float }.
Record DealingRange := mkDealingRange {
  dr_High : float; dr_Low : float; dr_Equilibrium : float; dr_Position : float; dr_Zone : string; dr_FibZone : string
}.
Record State := mkState { fs_Ladder : list Level; fs_Range : option DealingRange }.
Definition Book := gmap string State.
Definition NewBook : Book := ∅.
Definition Book_Set (b : Book) (tf : string) (state : State) : Book := <[tf := state]> b.
Definition Book_Get (b : Book) (tf : string) : option State := b !! tf.

Definition clamp01 (v : float) : float := if (v <? 0)%float then 0%float else if (v >? 1)%float then 1%float else v.
Definition absF (v : float) : float := if (v <? 0)%float then (- v)%float else v.
Definition minF (a b : float) : float := if (a <? b)%float then a else b.
Definition maxF (a b : float) : float := if (a >? b)%float then a else b.

Definition half_band (cfg : Config) : float := if (EqHalfBand cfg <? 0)%float then 0%float else EqHalfBand cfg.
Definition fibZoneLabel (position : float) (cfg : Config) : string :=
  let pos := clamp01 position in
  let halfBand := half_band cfg in
  if (absF (pos - 0.5) <=? halfBand)%float then "eq"
  else if (pos <=? DeepDiscount cfg)%float then "deep_discount"
  else if (pos <? 0.5)%float then "discount"
  else if (pos >=? DeepPremium cfg)%float then "deep_premium"
  else "premium".
Definition resolveFromPair (low high price : float) (cfg : Config) : option DealingRange :=
  if (high <=? low)%float then None
  else
    let position := clamp01 ((price - low) / (high - low)) in
    let eq := ((high + low) / 2)%float in
    let halfBand := half_band cfg in
    let zone := if (absF (position - 0.5) <=? halfBand)%float then "eq"
      else if (position <? 0.5)%float then "discount" else "premium" in
    Some (mkDealingRange high low eq position zone (fibZoneLabel position cfg)).

(** The prices of a pair, low first. *)
Definition pair_prices (a b : Swing) : float * float := (minF (s_Price a) (s_Price b), maxF (s_Price a) (s_Price b)).
Definition brackets (price : float) (first second : Swing) : bool :=
  let '(l, h) := pair_prices first second in
  negb (bool_decide (s_Kind first = s_Kind second)) && (l <=? price)%float && (price <=? h)%float.
(** The two loops run backwards, so the model walks the reversed list. *)
Fixpoint bracketing_loop (price : float) (latest_first : list Swing) : option (float * float) :=
  match latest_first with
  | [] => None
  | first :: earlier =>
      match List.find (brackets price first) earlier with
      | Some second => Some (pair_prices first second)
      | None => bracketing_loop price earlier
      end
  end.
Definition bracketingPair (swings : list Swing) (price : float) : option (float * float) :=
  bracketing_loop price (reverse swings).
Definition lastOpposingPair (swings : list Swing) : option (float * float) :=
  match reverse swings with
  | [] => None
  | last :: earlier => pair_prices last <$> List.find (λ item, negb (bool_decide (s_Kind item = s_Kind last))) earlier
  end.
Definition swingRangePair (swings : list Swing) (price : float) : option (float * float) :=
  match bracketingPair swings price with
  | Some p => Some p
  | None => lastOpposingPair swings
  end.
Definition LadderForPrice (swings : list Swing) (price : float) : list Level :=
  match swingRangePair swings price with
  | None => []
  | Some (low, high) => Ladder low high true
  end.
Definition Resolve (swings : list Swing) (price : float) (cfg : Config) : option DealingRange :=
  '(low, high) ← swingRangePair swings price; resolveFromPair low high price cfg.
Definition Update (candles : list Candle) (swings : list Swing) (cfg : Config) : State :=
  match last candles with
  | None => mkState [] None
  | Some c =>
      match swingRangePair swings (c_Close c) with
      | None => mkState [] None
      | Some (low, high) => mkState (Ladder low high true) (resolveFromPair low high (c_Close c) cfg)
      end
  end.

(** * Lemmas *)

Lemma clamp01_cases v :
  (IsNaN v = true ∧ clamp01 v = v) ∨ (IsNaN (clamp01 v) = false ∧ (0 <= key (clamp01 v) <= key 1)%Z).
Proof.
  unfold clamp01. destruct (IsNaN v) eqn:N.
  - left. split; [done|]. by rewrite !ltb_key, N, andb_false_r.
  - right. rewrite !ltb_num by done. rewrite key_0. pose proof (eq_refl : (0 <? key 1)%Z = true).
    destruct (Z.ltb_spec (key v) 0); [split; [done|rewrite key_0; lia]|].
    destruct (Z.ltb_spec (key 1) (key v)); split; try done; lia.
Qed.
Lemma clamp01_idem v : clamp01 (clamp01 v) = clamp01 v.
Proof.
  destruct (clamp01_cases v) as [[N E]|[N H]]; [by rewrite !E|]. unfold clamp01 at 1. rewrite !ltb_num by done. rewrite key_0.
  destruct (Z.ltb_spec (key (clamp01 v)) 0); [lia|]. destruct (Z.ltb_spec (key 1) (key (clamp01 v))); [lia|done].
Qed.

(** The dealing range reads one position in [0, 1] (a price that is not a number has none): its label is
    one of three, and the finer label refines it. *)
Lemma resolve_zone low high price cfg dr :
  resolveFromPair low high price cfg = Some dr →
  dr_Low dr = low ∧ dr_High dr = high ∧
  (IsNaN (dr_Position dr) = true ∨ (0 <=? dr_Position dr)%float && (dr_Position dr <=? 1)%float = true) ∧
  (dr_Zone dr = "eq" ↔ dr_FibZone dr = "eq") ∧
  ((DeepDiscount cfg <? 0.5)%float = true →
   (dr_Zone dr = "discount" ↔ dr_FibZone dr = "deep_discount" ∨ dr_FibZone dr = "discount") ∧
   (dr_Zone dr = "premium" ↔ dr_FibZone dr = "deep_premium" ∨ dr_FibZone dr = "premium")).
Proof.
  unfold resolveFromPair. intros H. destruct (high <=? low)%float; [done|]. injection H as <-.
  cbn [dr_Low dr_High dr_Position dr_Zone dr_FibZone]. unfold fibZoneLabel. rewrite clamp01_idem.
  set (p := clamp01 _). split_and!; [done..| | |].
  - destruct (clamp01_cases ((price - low) / (high - low))) as [[N E]|[N H]]; [left; unfold p; by rewrite E|right].
    fold p in N, H. rewrite !leb_num by done. rewrite key_0. lia.
  - split_ifs; split; done.
  - intros Hd. destruct (absF (p - 0.5) <=? half_band cfg)%float; [split; split; [done|intros [|]; done|done|intros [|]; done]|].
    assert ((p <=? DeepDiscount cfg)%float = true → (p <? 0.5)%float = true) as Hlt.
    { rewrite ltb_key in Hd. rewrite leb_key, ltb_key. change (IsNaN 0.5) with false in *.
      destruct (IsNaN p), (IsNaN (DeepDiscount cfg)); cbn [negb andb] in *; try done. lia. }
    destruct (p <=? DeepDiscount cfg)%float; [rewrite Hlt by done; naive_solver|]. split_ifs; naive_solver.
Qed.

(** ** The swing pair *)

(** [opposing swings i j]: swing [i] and the earlier swing [j] are of opposite kinds. *)
Definition opposing (swings : list Swing) (i j : nat) (a b : Swing) : Prop :=
  swings !! i = Some a ∧ swings !! j = Some b ∧ (j < i)%nat ∧ s_Kind a ≠ s_Kind b.
Definition contains_price (price : float) (pair : float * float) : Prop :=
  (pair.1 <=? price)%float = true ∧ (price <=? pair.2)%float = true.

Lemma brackets_iff price a b :
  brackets price a b = true ↔ s_Kind a ≠ s_Kind b ∧ contains_price price (pair_prices a b).
Proof.
  unfold brackets, contains_price. cbn. rewrite !andb_true_iff, negb_true_iff, bool_decide_eq_false. tauto.
Qed.
Lemma bracketing_loop_spec price l :
  match bracketing_loop price l with
  | None => ∀ i j a b, l !! i = Some a → l !! j = Some b → (i < j)%nat → brackets price a b = false
  | Some p => ∃ i j a b, l !! i = Some a ∧ l !! j = Some b ∧ (i < j)%nat ∧ brackets price a b = true ∧ p = pair_prices a b ∧
      ∀ i' j' a' b', l !! i' = Some a' → l !! j' = Some b' → (i' < j')%nat → brackets price a' b' = true →
        (i < i')%nat ∨ (i = i' ∧ j <= j')%nat
  end.
Proof.
  induction l as [|s l IH]; cbn [bracketing_loop]; [done|].
  destruct (List.find (brackets price s) l) as [b|] eqn:E.
  - apply find_first in E as (j & Hj & Hb & Hf). exists 0%nat, (S j), s, b. split_and!; [done|done|lia|done|done|].
    intros [|i'] [|j'] a' b' Ha' Hb' Hij Hbr; [lia| |lia|lia]. right. split; [done|].
    destruct (decide (j' < j)%nat) as [Hlt|]; [|lia]. cbn in Ha', Hb'. injection Ha' as ->. rewrite (Hf j' b') in Hbr by done. done.
  - pose proof (proj1 (find_miss _ _) E) as Hn.
    assert (∀ j' b', l !! j' = Some b' → brackets price s b' = false) as Hs
      by (intros j' b' Hb'; apply Hn; by eapply list_elem_of_lookup_2).
    destruct (bracketing_loop price l) as [p|].
    + destruct IH as (i & j & a & b & Ha & Hb & Hij & Hbr & -> & Hf). exists (S i), (S j), a, b. split_and!; [done|done|lia|done|done|].
      intros [|i'] [|j'] a' b' Ha' Hb' Hij' Hbr'; [lia| |lia|].
      * cbn in Ha', Hb'. injection Ha' as ->. rewrite (Hs j' b') in Hbr' by done. done.
      * destruct (Hf i' j' a' b') as [|[]]; [done|done|lia|done|lia|right; split; lia].
    + intros [|i'] [|j'] a' b' Ha' Hb' Hij'; [lia| |lia|].
      * cbn in Ha', Hb'. injection Ha' as <-. by apply (Hs j').
      * apply (IH i' j'); [done|done|lia].
Qed.
Lemma reverse_lookup_iff {A} (l : list A) i x :
  reverse l !! i = Some x ↔ (i < length l)%nat ∧ l !! (length l - S i)%nat = Some x.
Proof. rewrite reverse_lookup_Some. tauto. Qed.

Definition latest_bracket (swings : list Swing) (price : float) (i j : nat) : Prop :=
  ∀ i' j' a' b', opposing swings i' j' a' b' → contains_price price (pair_prices a' b') → (i' < i)%nat ∨ (i' = i ∧ j' <= j)%nat.
Definition no_bracket (swings : list Swing) (price : float) : Prop :=
  ∀ i j a b, opposing swings i j a b → ¬ contains_price price (pair_prices a b).

Lemma bracketingPair_spec swings price :
  match bracketingPair swings price with
  | None => no_bracket swings price
  | Some p => ∃ i j a b, opposing swings i j a b ∧ p = pair_prices a b ∧ contains_price price p ∧ latest_bracket swings price i j
  end.
Proof.
  unfold bracketingPair. pose proof (bracketing_loop_spec price (reverse swings)) as H.
  assert (∀ i j a b, opposing swings i j a b → let n := length swings in
    reverse swings !! (n - S i)%nat = Some a ∧ reverse swings !! (n - S j)%nat = Some b ∧ (n - S i < n - S j)%nat ∧ (j < i < n)%nat) as Hr.
  { intros i j a b (Hi & Hj & Hlt & _) n. pose proof (lookup_lt_Some _ _ _ Hi). unfold n. rewrite !reverse_lookup_iff.
    replace (length swings - S (length swings - S i)) with i by lia.
    replace (length swings - S (length swings - S j)) with j by lia. split_and!; try done; lia. }
  destruct (bracketing_loop _ _) as [p|].
  - destruct H as (i & j & a & b & Ha & Hb & Hij & [Hk Hc]%brackets_iff & -> & Hf).
    apply reverse_lookup_iff in Ha as [Hi Ha]. apply reverse_lookup_iff in Hb as [Hj Hb].
    exists (length swings - S i)%nat, (length swings - S j)%nat, a, b.
    split; [split_and!; [done|done|lia|done]|]. split; [done|]. split; [done|].
    intros i' j' a' b' Ho Hc'. destruct (Hr _ _ _ _ Ho) as (Ha' & Hb' & Hlt & Hn).
    destruct (Hf _ _ _ _ Ha' Hb' Hlt) as [|[]]; [|left; lia|right; lia].
    apply brackets_iff. split; [by destruct Ho as (_ & _ & _ & ?)|done].
  - intros i j a b Ho Hc. destruct (Hr _ _ _ _ Ho) as (Ha & Hb & Hlt & _). specialize (H _ _ _ _ Ha Hb Hlt).
    rewrite (proj2 (brackets_iff _ _ _)) in H; [done|]. split; [by destruct Ho as (_ & _ & _ & ?)|done].
Qed.
Definition last_opposing (swings : list Swing) (i j : nat) : Prop :=
  S i = length swings ∧ ∀ j' a b, opposing swings i j' a b → (j' <= j)%nat.
Lemma lastOpposingPair_spec swings :
  match lastOpposingPair swings with
  | None => ∀ a b, a ∈ swings → b ∈ swings → s_Kind a = s_Kind b
  | Some p => ∃ i j a b, opposing swings i j a b ∧ p = pair_prices a b ∧ last_opposing swings i j
  end.
Proof.
  unfold lastOpposingPair. destruct swings as [|s swings _] using rev_ind; [intros ? ? ?%not_elem_of_nil; done|].
  rewrite reverse_snoc. set (f := λ item, _). destruct (List.find f (reverse swings)) as [b|] eqn:E; cbn [fmap option_fmap option_map].
  - apply find_first in E as (k & Hk & Hb & Hf). apply reverse_lookup_iff in Hk as [Hk Hb'].
    unfold f in Hb, Hf. apply negb_true_iff, bool_decide_eq_false in Hb.
    exists (length swings), (length swings - S k)%nat, s, b. split; [|split; [done|]].
    + split_and!; [by rewrite list_lookup_middle|by apply lookup_app_l_Some|lia|congruence].
    + split; [rewrite length_app; cbn; lia|]. intros j' a' b' (Ha & Hb2 & Hlt & Hne).
      rewrite list_lookup_middle in Ha by done. injection Ha as <-. rewrite lookup_app_l in Hb2 by done.
      destruct (decide (j' <= length swings - S k)%nat); [done|]. exfalso. apply Hne.
      assert (reverse swings !! (length swings - S j')%nat = Some b') as Hr.
      { apply reverse_lookup_iff. split; [lia|]. by replace (length swings - S (length swings - S j')) with j' by lia. }
      apply Hf in Hr; [|lia]. apply negb_false_iff, bool_decide_eq_true in Hr. done.
  - assert (∀ x, x ∈ swings → s_Kind x = s_Kind s) as H.
    { intros x Hx. apply (proj1 (find_miss _ _)) with (x := x) in E; [|by rewrite elem_of_reverse].
      by apply negb_false_iff, bool_decide_eq_true in E. }
    intros a b Ha Hb. rewrite elem_of_app, list_elem_of_singleton in Ha, Hb.
    assert (s_Kind a = s_Kind s) as -> by (destruct Ha as [| ->]; auto). destruct Hb as [| ->]; [symmetry|]; auto.
Qed.

(** The ladder and the dealing range are read off one swing pair. The pair is of opposite kinds; it contains the
    last close when any opposite pair does, and is then the latest such pair (by its later swing, then by its earlier
    one); otherwise it is the last swing and the nearest earlier one of the other kind. There is no reading
    exactly when all swings are of one kind. *)
Theorem fib_reads_one_pair candles swings cfg c :
  last candles = Some c →
  let st := Update candles swings cfg in
  ((∀ a b, a ∈ swings → b ∈ swings → s_Kind a = s_Kind b) ∧ st = mkState [] None) ∨
  ∃ i j a b, opposing swings i j a b ∧
    let '(low, high) := pair_prices a b in
    fs_Ladder st = Ladder low high true ∧ fs_Range st = resolveFromPair low high (c_Close c) cfg ∧
    ((contains_price (c_Close c) (low, high) ∧ latest_bracket swings (c_Close c) i j) ∨
     (no_bracket swings (c_Close c) ∧ last_opposing swings i j)).
Proof.
  intros Hc st. unfold st, Update. rewrite Hc. unfold swingRangePair.
  pose proof (bracketingPair_spec swings (c_Close c)) as Hb. destruct (bracketingPair _ _) as [p|].
  - right. destruct Hb as (i & j & a & b & Ho & -> & Hp & Hl). exists i, j, a, b. split; [done|]. cbn. auto.
  - pose proof (lastOpposingPair_spec swings) as Hl. destruct (lastOpposingPair swings) as [p|]; [|by left].
    right. destruct Hl as (i & j & a & b & Ho & -> & Hl). exists i, j, a, b. split; [done|]. cbn. auto.
Qed.
Definition demo_swing (k : PivotKind) (t : Z) (p : float) : Swing := mkSwing "" k StructureMajor t p "M5" 1 1 1 1 t.
Definition demo_swings : list Swing :=
  [demo_swing PivotLow 1 90; demo_swing PivotHigh 2 110; demo_swing PivotLow 3 100; demo_swing PivotHigh 4 105].
Definition demo_candle92 : Candle := mkCandle 9 92 92 92 92 1.
Definition demo_fib : Config := mkConfig 0.15 0.382 0.618 0.05.
Lemma fib_reads_one_pair_witness :
  last [demo_candle92] = Some demo_candle92 ∧
  ∃ i j a b, opposing demo_swings i j a b ∧ latest_bracket demo_swings 92%float i j ∧
    dr_FibZone <$> fs_Range (Update [demo_candle92] demo_swings demo_fib) = Some "deep_discount".
Proof.
  split; [done|].
  destruct (fib_reads_one_pair [demo_candle92] demo_swings demo_fib demo_candle92 eq_refl)
    as [[H _]|(i & j & a & b & Ho & H)].
  - exfalso. specialize (H (demo_swing PivotLow 1 90) (demo_swing PivotHigh 2 110)).
    discriminate H; unfold demo_swings; [left|right; left].
  - exists i, j, a, b. split; [done|]. split; [|vm_compute; reflexivity].
    unfold pair_prices in H. destruct H as (_ & _ & [[_ H]|[H _]]); [done|].
    exfalso. apply (H 3%nat 0%nat (demo_swing PivotHigh 4 105) (demo_swing PivotLow 1 90)).
    + split_and!; [done|done|lia|done].
    + split; reflexivity.
Defined.

(** ** The nearest level *)

Definition qualifies (price band : float) (allowed : list LevelKind) (l : Level) : Prop :=
  l_Kind l ∈ allowed ∧ (level_dist price l <=? band)%float = true.
Lemma nearest_fold price band allowed levels :
  match foldl (nearest_step price band allowed) None levels with
  | None => ∀ l, l ∈ levels → ¬ qualifies price band allowed l
  | Some (l, d) => l ∈ levels ∧ d = level_dist price l ∧ qualifies price band allowed l ∧
      ∀ l', l' ∈ levels → qualifies price band allowed l' → (level_dist price l' <? d)%float = false
  end.
Proof.
  induction levels as [|x levels IH] using rev_ind; [set_solver|]. rewrite foldl_app. cbn [foldl].
  set (acc := foldl _ _ _) in *. unfold nearest_step, qualifies in *.
  destruct acc as [[l d]|].
  - destruct IH as (Hin & Hd & Hq & Hmin). case_bool_decide as Hk.
    2:{ split_and!; [set_solver|done|apply Hq..|]. intros l'. rewrite elem_of_app, list_elem_of_singleton. intros [?| ->] Hq'; [by apply Hmin|by destruct Hq']. }
    destruct (level_dist price x <=? band)%float eqn:Eb; cbn [andb].
    2:{ split_and!; [set_solver|done|apply Hq..|]. intros l'. rewrite elem_of_app, list_elem_of_singleton. intros [?| ->] Hq'; [by apply Hmin|destruct Hq'; congruence]. }
    destruct (level_dist price x <? d)%float eqn:Ed.
    + split_and!; [set_solver|done|done|done|]. intros l'. rewrite elem_of_app, list_elem_of_singleton. intros [Hl'| ->] Hq'.
      * specialize (Hmin l' Hl' Hq'). rewrite ltb_key in *. revert Ed Hmin. destruct (IsNaN (level_dist price l')), (IsNaN d), (IsNaN (level_dist price x)); cbn; try done. lia.
      * rewrite ltb_key, Z.ltb_irrefl. apply andb_false_r.
    + split_and!; [set_solver|done|apply Hq..|]. intros l'. rewrite elem_of_app, list_elem_of_singleton. intros [?| ->] Hq'; [by apply Hmin|done].
  - case_bool_decide as Hk; [destruct (level_dist price x <=? band)%float eqn:Eb; cbn [andb]|].
    + split_and!; [set_solver|done|done|done|]. intros l'. rewrite elem_of_app, list_elem_of_singleton. intros [Hl'| ->] Hq'; [by apply IH in Hq'|].
      rewrite ltb_key, Z.ltb_irrefl. apply andb_false_r.
    + intros l'. rewrite elem_of_app, list_elem_of_singleton. intros [?| ->]; [by apply IH|]. intros [_ ?]. congruence.
    + intros l'. rewrite elem_of_app, list_elem_of_singleton. intros [?| ->]; [by apply IH|]. intros [? _]. done.
Qed.
(** The nearest level is one of the ladder, of an allowed kind and within the band, and no such level is strictly
    nearer; there is none only when the band is empty or no level qualifies. *)
Theorem nearest_level_reference levels price atr epsilonATR kinds :
  let band := nearest_band epsilonATR atr in
  let allowed := allowed_kinds kinds in
  match NearestLevel levels price atr epsilonATR kinds with
  | Some l => l ∈ levels ∧ qualifies price band allowed l ∧
      ∀ l', l' ∈ levels → qualifies price band allowed l' → (level_dist price l' <? level_dist price l)%float = false
  | None => levels = [] ∨ (atr <=? 0)%float = true ∨ (band <=? 0)%float = true ∨ ∀ l, l ∈ levels → ¬ qualifies price band allowed l
  end.
Proof.
  intros band allowed. unfold NearestLevel. fold band allowed. case_bool_decide; [by left|]. cbn [orb].
  destruct (atr <=? 0)%float eqn:Ea; [by right; left|]. destruct (band <=? 0)%float eqn:Eb; [by right; right; left|].
  pose proof (nearest_fold price band allowed levels) as Hn. destruct (foldl _ _ _) as [[l d]|]; [|by right; right; right]. cbn.
  destruct Hn as (Hin & -> & Hq & Hmin). split; [done|]. split; [done|exact Hmin].
Qed.
Example demo_nearest :
  l_Ratio <$> NearestLevel (Ladder 90 110 true) 102.3 2 0.15 [] = Some 0.382%float ∧
  NearestLevel (Ladder 90 110 true) 110 2 0.15 [] = None ∧
  l_Ratio <$> NearestLevel (Ladder 90 110 true) 110 2 0.15 [KindExtension] = Some 1%float.
Proof. vm_compute. auto. Qed.
