(* ===== verification/KeyLevel.v ===== *)
(** Package keylevel: reaction and round-number levels clustered from swings, their wick-touch counts, and the
    role a level has after the latest closes. *)
From S2P Require Import Prelude Float64 Market Structure.
From Stdlib Require Import Floats.

(** * type.go *)

Inductive Kind := KindReaction | KindRound.
#[export] Instance Kind_eq_dec : EqDecision Kind.
Proof. solve_decision. Defined.
Definition Kind_String (k : Kind) : string := match k with KindRound => "round" | KindReaction => "reaction" end.
Record Level := mkLevel {
  l_ID : string; l_AnchorTime : Z; l_Price : float; l_Kind : Kind; l_Touches : Z; l_Band : float; l_Strength : float
}.
Record Config := mkConfig {
  ClusterATR : float; RoundStep : float; MinimumTouches : Z; MaximumClusterSpanMultiple : float
}.
Definition State := list Level.
Definition Book := gmap string State.
Definition NewBook : Book := ∅.
Definition Book_Set (b : Book) (tf : string) (state : State) : Book := <[tf := state]> b.
Definition Book_Get (b : Book) (tf : string) : option State := b !! tf.

(** * cluster.go *)

Definition lastValue (series : list float) : float := default 0%float (last series).
Definition absF (v : float) : float := if (v <? 0)%float then (- v)%float else v.
Definition maxF (a b : float) : float := if (a >? b)%float then a else b.

Definition canJoinCluster (cluster : list Swing) (s : Swing) (tolerance maxSpan : float) : bool :=
  let '(minP, maxP) := foldl (λ '(minP, maxP) item,
      let p := s_Price item in (if (p <? minP)%float then p else minP, if (p >? maxP)%float then p else maxP))
    (s_Price s, s_Price s) cluster in
  if (maxP - minP >? maxSpan)%float then false
  else forallb (λ item, negb (absF (s_Price item - s_Price s) >? tolerance)%float) cluster.
(** The loop body: the swing joins the last open cluster or opens one. *)
Definition cluster_step (tolerance maxSpan : float) (clusters : list (list Swing)) (s : Swing) : list (list Swing) :=
  match last clusters with
  | Some cluster =>
      if canJoinCluster cluster s tolerance maxSpan
      then take (length clusters - 1) clusters ++ [cluster ++ [s]]
      else clusters ++ [[s]]
  | None => clusters ++ [[s]]
  end.
Definition sorted_swings (swings : list Swing) : list Swing := sort_slice (λ a b, s_Price a <? s_Price b)%float swings.
Definition priceClusters (swings : list Swing) (tolerance maxSpan : float) : list (list Swing) :=
  foldl (cluster_step tolerance maxSpan) [] (sorted_swings swings).
Definition averagePrice (swings : list Swing) : float :=
  (foldl (λ sum s, sum + s_Price s)%float 0%float swings / f64_of_Z (Z.of_nat (length swings)))%float.

Definition zero_Swing : Swing := mkSwing "" PivotHigh StructureMicro 0 0 "" 0 0 0 0 0.
Definition reactionLevelAnchor (swings : list Swing) : Swing :=
  match swings with
  | [] => zero_Swing
  | s :: rest =>
      foldl (λ anchor swing,
        if (s_Time swing <? s_Time anchor)%Z || ((s_Time swing =? s_Time anchor)%Z && str_lt (s_ID swing) (s_ID anchor))
        then swing else anchor) s rest
  end.
Definition reactionLevelID (swings : list Swing) : string := "reaction:" +:+ s_ID (reactionLevelAnchor swings).

Definition round_touches (swings : list Swing) (price band : float) : Z :=
  Z.of_nat (length (List.filter (λ s, absF (s_Price s - price) <=? band)%float swings)).
Definition round_level (swings : list Swing) (tolerance price : float) (touches : Z) : Level :=
  mkLevel ("round:" +:+ fmt_fixed 8 price) 0 price KindRound touches tolerance (f64_of_Z touches).
Definition roundLevels (swings : list Swing) (atr roundStep tolerance : float) (minTouches : Z) : list Level :=
  match swings with
  | [] => []
  | s0 :: _ =>
      if (roundStep <=? 0)%float then []
      else
        let '(low, high) := foldl (λ '(low, high) s,
            let p := s_Price s in (if (p <? low)%float then p else low, if (p >? high)%float then p else high))
          (s_Price s0, s_Price s0) swings in
        let lowStep := (math_Floor (low / roundStep) * roundStep)%float in
        let highStep := (math_Ceil (high / roundStep) * roundStep)%float in
        let steps := wrap64 (f64_to_int64 ((highStep - lowStep) / roundStep)%float + 1) in
        let band := maxF tolerance (atr * 0.25) in
        omap (λ step,
          let price := (lowStep + f64_of_Z step * roundStep)%float in
          let touches := round_touches swings price band in
          if (touches >=? minTouches)%Z then Some (round_level swings tolerance price touches) else None)
          (seqZ 0 steps)
  end.

Definition stableMergedIdentity (a b : Level) : string * Z :=
  if bool_decide (l_Kind a = KindRound) then (l_ID a, l_AnchorTime a)
  else if bool_decide (l_Kind b = KindRound) then (l_ID b, l_AnchorTime b)
  else if negb (l_AnchorTime b =? 0)%Z && ((l_AnchorTime a =? 0)%Z || (l_AnchorTime b <? l_AnchorTime a)%Z)
  then (l_ID b, l_AnchorTime b)
  else (l_ID a, l_AnchorTime a).
Definition merge_levels (prev lvl : Level) : Level :=
  let '(id, anchorTime) := stableMergedIdentity prev lvl in
  mkLevel id anchorTime ((l_Price prev + l_Price lvl) / 2)
    (if (l_Touches lvl >? l_Touches prev)%Z then l_Kind lvl else l_Kind prev)
    (if (l_Touches lvl >? l_Touches prev)%Z then l_Touches lvl else l_Touches prev)
    (if (l_Band lvl >? l_Band prev)%float then l_Band lvl else l_Band prev)
    (if (l_Strength lvl >? l_Strength prev)%float then l_Strength lvl else l_Strength prev).
Definition dedupe_step (tolerance : float) (out : list Level) (lvl : Level) : list Level :=
  match last out with
  | Some prev =>
      if (absF (l_Price prev - l_Price lvl) <=? maxF (l_Band prev) tolerance)%float
      then take (length out - 1) out ++ [merge_levels prev lvl] else out ++ [lvl]
  | None => out ++ [lvl]
  end.
Definition dedupe (levels : list Level) (tolerance : float) : list Level :=
  foldl (dedupe_step tolerance) [] (sort_slice (λ a b, l_Price a <? l_Price b)%float levels).

(** The bar touches the band and did not close through it. *)
Definition wick_touched (lo hi : float) (c : Candle) : bool :=
  (c_Low c <=? hi)%float && (c_High c >=? lo)%float &&
  negb ((c_Open c >? hi)%float && (c_Close c <? lo)%float) &&
  negb ((c_Open c <? lo)%float && (c_Close c >? hi)%float).
(** The loop body: the episodes so far and whether one is open. *)
Definition episode_step (touched : Candle → bool) (acc : Z * bool) (c : Candle) : Z * bool :=
  ((if touched c && negb acc.2 then acc.1 + 1 else acc.1)%Z, touched c).
Definition wickTouchEpisodes (candles : list Candle) (price band : float) : Z :=
  if (band <? 0)%float then 0%Z
  else
    fst (foldl (episode_step (wick_touched (price - band) (price + band))) (0%Z, false) candles).
Definition withWickTouches (level : Level) (candles : list Candle) (tolerance : float) : Level :=
  let band := maxF (l_Band level) tolerance in
  let episodes := wickTouchEpisodes candles (l_Price level) band in
  if (episodes <=? l_Touches level)%Z then level
  else
    mkLevel (l_ID level) (l_AnchorTime level) (l_Price level) (l_Kind level) episodes (l_Band level)
      (if (f64_of_Z episodes >? l_Strength level)%float then f64_of_Z episodes else l_Strength level).
Definition reaction_level (tolerance : float) (cluster : list Swing) : Level :=
  mkLevel (reactionLevelID cluster) (s_Time (reactionLevelAnchor cluster)) (averagePrice cluster) KindReaction
    (Z.of_nat (length cluster)) tolerance (f64_of_Z (Z.of_nat (length cluster))).
Definition cluster_tolerance (atr : float) (cfg : Config) : float :=
  (atr * (if (ClusterATR cfg <? 0)%float then 0 else ClusterATR cfg))%float.
Definition cluster_span (atr : float) (cfg : Config) : float :=
  (cluster_tolerance atr cfg * (if (MaximumClusterSpanMultiple cfg <? 0)%float then 0 else MaximumClusterSpanMultiple cfg))%float.
Definition Cluster (candles : list Candle) (atr : float) (swings : list Swing) (cfg : Config) : list Level :=
  let tolerance := cluster_tolerance atr cfg in
  let maxSpan := cluster_span atr cfg in
  let reactions := map (reaction_level tolerance)
    (List.filter (λ cluster, negb (Z.of_nat (length cluster) <? MinimumTouches cfg)%Z) (priceClusters swings tolerance maxSpan)) in
  let levels := reactions ++ roundLevels swings atr (RoundStep cfg) tolerance (MinimumTouches cfg) in
  let deduped := dedupe levels tolerance in
  if bool_decide (candles = []) then deduped else map (λ l, withWickTouches l candles tolerance) deduped.
Definition Update (candles : list Candle) (atrSeries : list float) (swings : list Swing) (cfg : Config) : State :=
  Cluster candles (lastValue atrSeries) swings cfg.

(** * role.go *)

Inductive RoleKind := RoleSupport | RoleResistance | RoleAmbiguous | RoleBrokenSupport | RoleBrokenResistance.
#[export] Instance RoleKind_eq_dec : EqDecision RoleKind.
Proof. solve_decision. Defined.
Definition RoleKind_String (r : RoleKind) : string :=
  match r with
  | RoleSupport => "support" | RoleResistance => "resistance" | RoleBrokenSupport => "broken_support"
  | RoleBrokenResistance => "broken_resistance" | RoleAmbiguous => "ambiguous"
  end.
(** The closes at the end of the slice that qualify without a gap. *)
Fixpoint accepted_loop (predicate : float → bool) (latest_first : list float) : Z :=
  match latest_first with
  | c :: rest => if predicate c then (1 + accepted_loop predicate rest)%Z else 0%Z
  | [] => 0%Z
  end.
Definition acceptedCount (closes : list float) (predicate : float → bool) : Z := accepted_loop predicate (reverse closes).
Definition Role (u : Unicode) (kind : string) (bandLow bandHigh : float) (closes : list float) (breakoutAcceptBars : Z) : RoleKind :=
  let required := if (breakoutAcceptBars <? 1)%Z then 1%Z else breakoutAcceptBars in
  let above := acceptedCount closes (λ c, c >? bandHigh)%float in
  let below := acceptedCount closes (λ c, c <? bandLow)%float in
  let normalized := lower_trimmed u kind in
  let explicitSupport := contains_runes normalized (runes "support") || contains_runes normalized (runes "low") in
  let explicitResistance := contains_runes normalized (runes "resist") || contains_runes normalized (runes "high") in
  if explicitSupport then (if (below >=? required)%Z then RoleBrokenSupport else RoleSupport)
  else if explicitResistance then (if (above >=? required)%Z then RoleBrokenResistance else RoleResistance)
  else if (above >=? required)%Z then RoleBrokenResistance
  else if (below >=? required)%Z then RoleBrokenSupport
  else RoleAmbiguous.

(** * Lemmas *)

Lemma last_take_snoc {A} (l : list A) x y : last l = Some x → take (length l - 1) l ++ [y] = removelast l ++ [y] ∧ l = removelast l ++ [x].
Proof.
  destruct l as [|a l _] using rev_ind; [done|]. rewrite last_snoc, removelast_last. intros [= ->]. split; [|done].
  f_equal. rewrite length_app. cbn. rewrite Nat.add_sub. apply take_app_length.
Qed.

(** ** Clusters *)

(** A cluster as the loop builds it: each swing joined the ones before it. *)
Inductive joined (tolerance maxSpan : float) : list Swing → Prop :=
  | joined_one s : joined tolerance maxSpan [s]
  | joined_more c s : joined tolerance maxSpan c → canJoinCluster c s tolerance maxSpan = true → joined tolerance maxSpan (c ++ [s]).
Record clustered (tolerance maxSpan : float) (sorted : list Swing) (clusters : list (list Swing)) : Prop := {
  clustered_concat : concat clusters = sorted;
  clustered_joined : Forall (joined tolerance maxSpan) clusters;
  clustered_apart k c1 c2 : clusters !! k = Some c1 → clusters !! S k = Some c2 →
    ∃ s rest, c2 = s :: rest ∧ canJoinCluster c1 s tolerance maxSpan = false;
}.
Lemma cluster_fold tolerance maxSpan sorted : clustered tolerance maxSpan sorted (foldl (cluster_step tolerance maxSpan) [] sorted).
Proof.
  induction sorted as [|s sorted IH] using rev_ind; [cbn [foldl]; split; [done|constructor|intros [] ? ? H; by cbn in H]|].
  rewrite foldl_app. cbn [foldl]. set (cs := foldl _ _ _) in *. destruct IH as [Hc Hj Ha]. unfold cluster_step.
  destruct (last cs) as [c|] eqn:El; [destruct (canJoinCluster c s _ _) eqn:Ej|].
  - destruct (last_take_snoc cs c (c ++ [s]) El) as [-> E]. split.
    + rewrite E in Hc. rewrite <- Hc, !concat_app. cbn. by rewrite !app_nil_r, (assoc_L (++)).
    + rewrite E in Hj. apply Forall_app in Hj as [Hj Hl]. apply Forall_app. split; [done|].
      constructor; [|done]. apply joined_more; [|done]. by inversion Hl.
    + intros k c1 c2 H1 H2. rewrite E in Ha.
      destruct (decide (S k < length (removelast cs))%nat) as [Hk|Hk].
      { rewrite lookup_app_l in H1, H2 by lia. apply (Ha k); by apply lookup_app_l_Some. }
      pose proof (lookup_lt_Some _ _ _ H2) as Hl. rewrite length_app in Hl. cbn in Hl.
      rewrite lookup_app_l in H1 by lia. rewrite list_lookup_middle in H2 by lia. injection H2 as <-.
      destruct (Ha k c1 c) as (s' & r & -> & Hs'); [by apply lookup_app_l_Some|by rewrite list_lookup_middle by lia|].
      by exists s', (r ++ [s]).
  - split.
    + by rewrite concat_app, Hc.
    + apply Forall_app. split; [done|]. constructor; [constructor|done].
    + intros k c1 c2 H1 H2. destruct (decide (S k < length cs)%nat) as [Hk|Hk].
      { rewrite lookup_app_l in H1, H2 by lia. by apply (Ha k). }
      pose proof (lookup_lt_Some _ _ _ H2) as Hl. rewrite length_app in Hl. cbn in Hl.
      rewrite lookup_app_l in H1 by lia. rewrite list_lookup_middle in H2 by lia. injection H2 as <-.
      exists s, []. split; [done|]. rewrite last_lookup in El. replace (pred (length cs)) with k in El by lia. congruence.
  - apply last_None in El. rewrite El in *. cbn in Hc. subst sorted. cbn. split; [done|by repeat constructor|].
    intros [|[]] ? ? ? H2; done.
Qed.
Lemma canJoin_close c s tolerance maxSpan item :
  canJoinCluster c s tolerance maxSpan = true → item ∈ c → (absF (s_Price item - s_Price s) >? tolerance)%float = false.
Proof.
  unfold canJoinCluster. intros H Hi. destruct (foldl _ _ _) as [lo hi]. destruct (maxSpan <? _)%float; [done|].
  rewrite forallb_forall in H. apply list_elem_of_In in Hi. apply H in Hi. by apply negb_true_iff.
Qed.
Lemma joined_pairwise tolerance maxSpan c i j a b :
  joined tolerance maxSpan c → c !! i = Some a → c !! j = Some b → (i < j)%nat →
  (absF (s_Price a - s_Price b) >? tolerance)%float = false.
Proof.
  intros Hj. revert i j a b. induction Hj as [s|c s Hj IH Hs]; intros i j a b Ha Hb Hij.
  - pose proof (lookup_lt_Some _ _ _ Hb). cbn in *. lia.
  - pose proof (lookup_lt_Some _ _ _ Hb) as Hl. rewrite length_app in Hl. cbn in Hl. rewrite lookup_app_l in Ha by lia.
    destruct (decide (j < length c)%nat); [rewrite lookup_app_l in Hb by lia; by apply (IH i j)|].
    rewrite list_lookup_middle in Hb by lia. injection Hb as <-. apply (canJoin_close _ _ _ _ _ Hs). by eapply list_elem_of_lookup_2.
Qed.
(** The running extremes of [canJoinCluster]. *)
Lemma extremes_spec s c :
  Forall (λ x, finite (s_Price x) = true) (s :: c) →
  let '(lo, hi) := foldl (λ '(minP, maxP) item,
      let p := s_Price item in (if (p <? minP)%float then p else minP, if (p >? maxP)%float then p else maxP))
    (s_Price s, s_Price s) c in
  finite lo = true ∧ finite hi = true ∧ Forall (λ x, (key lo <= key (s_Price x) <= key hi)%Z) (s :: c).
Proof.
  intros [Hs Hc]%Forall_cons. induction c as [|x c IH] using rev_ind.
  { cbn. split_and!; [done..|]. constructor; [lia|done]. }
  apply Forall_app in Hc as [Hc Hx]. apply Forall_cons in Hx as [Hx _]. specialize (IH Hc). rewrite foldl_app. cbn [foldl].
  destruct (foldl _ _ c) as [lo hi]. destruct IH as (Hlo & Hhi & Hf).
  rewrite !ltb_num by auto with float.
  rewrite app_comm_cons, Forall_app, Forall_singleton.
  destruct (Z.ltb_spec (key (s_Price x)) (key lo)), (Z.ltb_spec (key hi) (key (s_Price x)));
    (split; [done|split; [done|split; [eapply Forall_impl; [exact Hf|]; cbn; lia|lia]]]).
Qed.
Lemma joined_span tolerance maxSpan c a b :
  joined tolerance maxSpan c → Forall (λ x, finite (s_Price x) = true) c → (2 <= length c)%nat →
  a ∈ c → b ∈ c → (s_Price a - s_Price b >? maxSpan)%float = false.
Proof.
  intros Hj Hf Hl Ha Hb. destruct Hj as [s|c s Hj Hs]; [cbn in Hl; lia|].
  assert (Forall (λ x, finite (s_Price x) = true) (s :: c)) as Hf'
    by (rewrite Forall_app, Forall_singleton in Hf; destruct Hf; by constructor).
  pose proof (extremes_spec s c Hf') as H. unfold canJoinCluster in Hs. destruct (foldl _ _ _) as [lo hi].
  destruct H as (Hlo & Hhi & Hr). destruct (maxSpan <? hi - lo)%float eqn:E; [done|].
  assert (∀ x, x ∈ c ++ [s] → finite (s_Price x) = true ∧ (key lo <= key (s_Price x) <= key hi)%Z) as Hx.
  { intros x Hx. assert (x ∈ s :: c) as Hx' by set_solver. rewrite Forall_forall in Hf', Hr. auto. }
  destruct (Hx a Ha) as [Fa Ka], (Hx b Hb) as [Fb Kb].
  rewrite ltb_key in E |- *. rewrite sub_not_nan in E |- * by done.
  pose proof (sub_mono (s_Price a) hi (s_Price b) lo Fa Hhi Fb Hlo ltac:(lia) ltac:(lia)). revert E.
  destruct (IsNaN maxSpan); [done|]. cbn. intros. lia.
Qed.

(** The clusters of key levels partition the swings in price order; any two members of a cluster are within the
    tolerance of one another, the whole cluster is no wider than the span cap, and a new cluster is opened only by a swing
    that could not join the one before. *)
Theorem price_clusters_partition swings tolerance maxSpan :
  Forall (λ s, finite (s_Price s) = true) swings →
  let clusters := priceClusters swings tolerance maxSpan in
  concat clusters = sorted_swings swings ∧ sorted_swings swings ≡ₚ swings ∧
  StronglySorted (λ a b, (s_Price b <? s_Price a)%float = false) (sorted_swings swings) ∧
  Forall (λ c, c ≠ [] ∧
    (∀ i j a b, c !! i = Some a → c !! j = Some b → (i < j)%nat → (absF (s_Price a - s_Price b) >? tolerance)%float = false) ∧
    ((2 <= length c)%nat → ∀ a b, a ∈ c → b ∈ c → (s_Price a - s_Price b >? maxSpan)%float = false)) clusters ∧
  ∀ k c1 c2, clusters !! k = Some c1 → clusters !! S k = Some c2 →
    ∃ s rest, c2 = s :: rest ∧ canJoinCluster c1 s tolerance maxSpan = false.
Proof.
  intros Hf clusters. destruct (cluster_fold tolerance maxSpan (sorted_swings swings)) as [Hc Hj Ha].
  fold (priceClusters swings tolerance maxSpan) in Hc, Hj, Ha. fold clusters in Hc, Hj, Ha.
  pose proof (sort_slice_perm (λ a b, s_Price a <? s_Price b)%float swings) as Hp.
  split_and!; [done|done| | |done].
  - apply (sort_slice_sorted _ (λ s, finite (s_Price s) = true)); [| |done].
    + intros x y Hx Hy. rewrite !ltb_num by auto with float. lia.
    + intros x y z Hx Hy Hz. rewrite !ltb_num by auto with float. lia.
  - rewrite Forall_forall in Hj |- *. intros c Hin. specialize (Hj c Hin). split_and!.
    + intros ->. by inversion Hj; destruct c.
    + intros. by eapply joined_pairwise.
    + intros Hl a b. apply (joined_span _ _ _ _ _ Hj); [|done].
      rewrite Forall_forall in Hf |- *. intros x Hx. apply Hf. rewrite <- Hp. change (x ∈ sorted_swings swings).
      rewrite <- Hc. apply list_elem_of_In, in_concat. exists c. by rewrite <- !list_elem_of_In.
Qed.
Definition demo_swing (id : string) (t : Z) (p : float) : Swing := mkSwing id PivotLow StructureMajor t p "M5" 1 1 1 1 t.
Definition demo_swings : list Swing :=
  [demo_swing "a" 10 4001; demo_swing "b" 20 4000.5; demo_swing "c" 30 4013; demo_swing "d" 40 4000; demo_swing "e" 50 4012.5].
Lemma price_clusters_partition_witness :
  map (map s_ID) (priceClusters demo_swings 1 2) = [["d"; "b"; "a"]; ["e"; "c"]] ∧
  concat (priceClusters demo_swings 1 2) = sorted_swings demo_swings.
Proof.
  split; [vm_compute; reflexivity|]. apply (price_clusters_partition demo_swings 1 2). repeat constructor.
Defined.

(** ** Deduplication *)

Lemma merge_touches a b : l_Touches (merge_levels a b) = Z.max (l_Touches a) (l_Touches b).
Proof. unfold merge_levels. destruct (stableMergedIdentity a b). cbn. destruct (Z.gtb_spec (l_Touches b) (l_Touches a)); lia. Qed.
Lemma merge_identity a b : l_ID (merge_levels a b) = l_ID a ∨ l_ID (merge_levels a b) = l_ID b.
Proof. unfold merge_levels, stableMergedIdentity. split_ifs; cbn; auto. Qed.
(** What a deduplication keeps of its input: nothing is invented and no touch count is lost. *)
Record deduped (input out : list Level) : Prop := {
  deduped_id o : o ∈ out → ∃ l, l ∈ input ∧ l_ID l = l_ID o;
  deduped_touches o : o ∈ out → ∃ l, l ∈ input ∧ l_Touches l = l_Touches o;
  deduped_covers l : l ∈ input → ∃ o, o ∈ out ∧ (l_Touches l <= l_Touches o)%Z;
}.
Lemma dedupe_fold tolerance levels : deduped levels (foldl (dedupe_step tolerance) [] levels).
Proof.
  induction levels as [|x levels IH] using rev_ind; [split; cbn; set_solver|].
  rewrite foldl_app. cbn [foldl]. set (out := foldl _ _ _) in *. destruct IH as [Hi Ht Hc]. unfold dedupe_step.
  assert (deduped (levels ++ [x]) (out ++ [x])) as Happ.
  { split; intros o; rewrite elem_of_app, list_elem_of_singleton.
    - intros [[l [??]]%Hi| ->]; [exists l|exists x]; set_solver.
    - intros [[l [??]]%Ht| ->]; [exists l|exists x]; set_solver.
    - intros [(l & ? & ?)%Hc| ->]; [exists l|exists x]; (split; [set_solver|lia]). }
  destruct (last out) as [prev|] eqn:El; [|done]. destruct (_ <=? _)%float; [|done].
  destruct (last_take_snoc out prev (merge_levels prev x) El) as [-> E].
  assert (prev ∈ out) as Hp by (rewrite E; set_solver).
  assert (∀ o, o ∈ removelast out → o ∈ out) as Hr by (intros o; rewrite E at 2; set_solver).
  split; intros o; rewrite elem_of_app, list_elem_of_singleton.
  - intros [[l [??]]%Hr%Hi| ->]; [exists l; set_solver|]. destruct (merge_identity prev x) as [-> | ->].
    + destruct (Hi prev Hp) as (l & ? & ?). exists l. set_solver.
    + exists x. set_solver.
  - intros [[l [??]]%Hr%Ht| ->]; [exists l; set_solver|]. rewrite merge_touches.
    destruct (Z.max_spec (l_Touches prev) (l_Touches x)) as [[_ ->]|[_ ->]]; [exists x; set_solver|].
    destruct (Ht prev Hp) as (l & ? & ?). exists l. set_solver.
  - intros [(l & Hl & ?)%Hc| ->].
    + rewrite E in Hl. apply elem_of_app in Hl as [Hl|Hl]; [exists l; split; [set_solver|done]|].
      apply list_elem_of_singleton in Hl as ->. exists (merge_levels prev x). rewrite merge_touches. split; [set_solver|lia].
    + exists (merge_levels prev x). rewrite merge_touches. split; [set_solver|lia].
Qed.
Lemma dedupe_spec tolerance levels : deduped levels (dedupe levels tolerance).
Proof.
  unfold dedupe. destruct (dedupe_fold tolerance (sort_slice (λ a b, l_Price a <? l_Price b)%float levels)) as [Hi Ht Hc].
  split; intros x; [intros (l & Hl & E)%Hi|intros (l & Hl & E)%Ht|rewrite <- (sort_slice_perm (λ a b, l_Price a <? l_Price b)%float levels); apply Hc];
    rewrite sort_slice_perm in Hl; eauto.
Qed.

(** ** Touch episodes *)

(** The bars at which a run of touching bars begins. *)
Definition episode_start (touched : nat → bool) (i : nat) : bool := touched i && negb (if decide (i = 0)%nat then false else touched (i - 1)%nat).
Lemma episodes_reference candles price band :
  (band <? 0)%float = false →
  wickTouchEpisodes candles price band =
  Z.of_nat (length (List.filter (episode_start (λ i, default false (wick_touched (price - band) (price + band) <$> candles !! i)))
    (seq 0 (length candles)))).
Proof.
  intros Hb. unfold wickTouchEpisodes. rewrite Hb. set (t := wick_touched _ _).
  enough (H : foldl (episode_step t) (0%Z, false) candles =
    (Z.of_nat (length (List.filter (episode_start (λ i, default false (t <$> candles !! i))) (seq 0 (length candles)))),
     default false (t <$> last candles))) by by rewrite H.
  induction candles as [|c cs IH] using rev_ind; [done|].
  rewrite foldl_app. cbn [foldl]. rewrite IH. clear IH. unfold episode_step. cbn [fst snd]. rewrite length_app, last_snoc. cbn [length fmap option_fmap option_map default].
  rewrite seq_app, List.filter_app, length_app. cbn [seq List.filter]. f_equal.
  assert (List.filter (episode_start (λ i, default false (t <$> (cs ++ [c]) !! i))) (seq 0 (length cs)) =
    List.filter (episode_start (λ i, default false (t <$> cs !! i))) (seq 0 (length cs))) as ->.
  { apply List.filter_ext_in. intros i Hi%in_seq. unfold episode_start. rewrite lookup_app_l by lia.
    case_decide; [done|]. by rewrite lookup_app_l by lia. }
  cbn [Nat.add]. set (g := λ i, default false (t <$> (cs ++ [c]) !! i)).
  assert (episode_start g (length cs) = t c && negb (default false (t <$> last cs))) as ->.
  { unfold episode_start, g. rewrite list_lookup_middle by done. cbn [fmap option_fmap option_map default]. case_decide as E.
    - apply nil_length_inv in E as ->. done.
    - rewrite lookup_app_l, last_lookup by lia. by replace (pred (length cs)) with (length cs - 1)%nat by lia. }
  destruct (t c), (default false (t <$> last cs)); cbn; lia.
Qed.

(** ** Update *)

Lemma withWickTouches_keeps l candles tol :
  l_ID (withWickTouches l candles tol) = l_ID l ∧ l_Price (withWickTouches l candles tol) = l_Price l ∧
  l_Band (withWickTouches l candles tol) = l_Band l ∧
  l_Touches (withWickTouches l candles tol) = Z.max (l_Touches l) (wickTouchEpisodes candles (l_Price l) (maxF (l_Band l) tol)).
Proof.
  unfold withWickTouches. destruct (Z.leb_spec (wickTouchEpisodes candles (l_Price l) (maxF (l_Band l) tol)) (l_Touches l)); cbn;
    split_and!; try done; lia.
Qed.
Lemma reactionLevelAnchor_in c : c ≠ [] → reactionLevelAnchor c ∈ c.
Proof.
  destruct c as [|s c]; [done|]. intros _. cbn. induction c as [|x c IH] using rev_ind; [set_solver|].
  rewrite foldl_app. cbn [foldl]. set (a := foldl _ s c) in *. destruct (_ || _); set_solver.
Qed.
(** A key level's identity is a swing's or a round price's. *)
Definition anchored (swings : list Swing) (l : Level) : Prop :=
  (∃ s, s ∈ swings ∧ l_ID l = "reaction:" +:+ s_ID s) ∨ ∃ p, l_ID l = "round:" +:+ fmt_fixed 8 p.
Lemma cluster_members swings tol span c :
  c ∈ priceClusters swings tol span → c ≠ [] ∧ ∀ s, s ∈ c → s ∈ swings.
Proof.
  intros Hc. destruct (cluster_fold tol span (sorted_swings swings)) as [Hcc Hj _]. split.
  - rewrite Forall_forall in Hj. specialize (Hj c Hc). intros ->. by inversion Hj; destruct c.
  - intros s Hs. rewrite <- (sort_slice_perm (λ a b, s_Price a <? s_Price b)%float swings). change (s ∈ sorted_swings swings).
    rewrite <- Hcc. apply list_elem_of_In, in_concat. exists c. by rewrite <- !list_elem_of_In.
Qed.
Lemma roundLevels_ok swings atr step tol min l :
  l ∈ roundLevels swings atr step tol min → (min <= l_Touches l)%Z ∧ ∃ p, l_ID l = "round:" +:+ fmt_fixed 8 p.
Proof.
  unfold roundLevels. destruct swings as [|s0 swings]; [set_solver|]. destruct (step <=? 0)%float; [set_solver|].
  destruct (foldl _ _ _) as [lo hi]. intros (k & _ & H)%list_elem_of_omap.
  destruct (Z.geb_spec (round_touches (s0 :: swings) (math_Floor (lo / step) * step + f64_of_Z k * step) (maxF tol (atr * 0.25))) min); [|done].
  injection H as <-. cbn. split; [lia|eauto].
Qed.

(** Key levels are supported by the swings and lose none of their evidence: each level has the minimum number of
    touches and the identity of a swing or of a round price, counts at least the touch episodes the candles make at its
    price, and every cluster of enough swings is answered by a level with as many touches. *)
Theorem key_levels_supported candles atrSeries swings cfg :
  let atr := lastValue atrSeries in
  let levels := Update candles atrSeries swings cfg in
  (∀ l, l ∈ levels → (MinimumTouches cfg <= l_Touches l)%Z ∧ anchored swings l ∧
    (candles ≠ [] → (wickTouchEpisodes candles (l_Price l) (maxF (l_Band l) (cluster_tolerance atr cfg)) <= l_Touches l)%Z)) ∧
  (∀ c, c ∈ priceClusters swings (cluster_tolerance atr cfg) (cluster_span atr cfg) →
    (MinimumTouches cfg <= Z.of_nat (length c))%Z → ∃ l, l ∈ levels ∧ (Z.of_nat (length c) <= l_Touches l)%Z).
Proof.
  intros atr levels. unfold levels, Update, Cluster. fold atr.
  set (tol := cluster_tolerance atr cfg). set (span := cluster_span atr cfg).
  set (input := _ ++ roundLevels _ _ _ _ _).
  assert (∀ l, l ∈ input → (MinimumTouches cfg <= l_Touches l)%Z ∧ anchored swings l) as Hin.
  { intros l [Hl|Hl]%elem_of_app.
    - apply list_elem_of_In, in_map_iff in Hl as (c & <- & [Hc Hn]%filter_In). apply list_elem_of_In in Hc.
      apply cluster_members in Hc as [Hne Hc]. apply negb_true_iff, Z.ltb_ge in Hn. split; [done|].
      left. exists (reactionLevelAnchor c). split; [by apply Hc, reactionLevelAnchor_in|done].
    - apply roundLevels_ok in Hl as [? ?]. split; [done|by right]. }
  assert (∀ c, c ∈ priceClusters swings tol span → (MinimumTouches cfg <= Z.of_nat (length c))%Z → reaction_level tol c ∈ input) as Hcov.
  { intros c Hc Hn. apply elem_of_app. left. apply list_elem_of_In, in_map, filter_In. split; [by apply list_elem_of_In|].
    apply negb_true_iff, Z.ltb_ge. lia. }
  destruct (dedupe_spec tol input) as [Hi Ht Hc]. clearbody input.
  assert (∀ l, l ∈ dedupe input tol → (MinimumTouches cfg <= l_Touches l)%Z ∧ anchored swings l) as Hd.
  { intros l Hl. destruct (Ht l Hl) as (x & Hx & <-), (Hi l Hl) as (y & Hy & E).
    split; [by apply Hin|]. destruct (Hin y Hy) as [_ Ha]. unfold anchored in *. by rewrite <- E. }
  case_bool_decide as He.
  - split; [intros l Hl; destruct (Hd l Hl); by split_and!|]. intros c Hcl Hn. apply (Hc _ (Hcov c Hcl Hn)).
  - split.
    + intros l (x & <- & Hx)%list_elem_of_In%in_map_iff. apply list_elem_of_In in Hx.
      destruct (Hd x Hx) as [Hm Ha]. destruct (withWickTouches_keeps x candles tol) as (E1 & E2 & E3 & E4).
      unfold anchored. rewrite E1, E2, E3, E4. split_and!; [lia|done|lia].
    + intros c Hcl Hn. destruct (Hc _ (Hcov c Hcl Hn)) as (o & Ho & Hle). exists (withWickTouches o candles tol).
      split; [rewrite list_elem_of_In in Ho; rewrite list_elem_of_In; exact (in_map (λ l, withWickTouches l candles tol) _ _ Ho)|].
      destruct (withWickTouches_keeps o candles tol) as (_ & _ & _ & ->). cbn in Hle. lia.
Qed.

(** * Lemmas: roles *)

Lemma acceptedCount_spec closes p n :
  (0 < n)%nat → (Z.of_nat n <= acceptedCount closes p)%Z ↔ (n <= length closes)%nat ∧ Forall (λ c, p c = true) (drop (length closes - n) closes).
Proof.
  unfold acceptedCount. rewrite <- (length_reverse closes). rewrite <- (reverse_involutive closes) at 4.
  intros Hn. generalize (reverse closes) as l. intros l.
  assert (drop (length l - n) (reverse l) = reverse (take n l)) as ->.
  { rewrite <- (take_drop n l) at 2. rewrite reverse_app. destruct (decide (n <= length l)%nat).
    - rewrite drop_app_length'; [done|]. by rewrite length_reverse, length_drop.
    - rewrite (drop_ge l), take_ge by lia. cbn. by replace (length l - n)%nat with 0%nat by lia. }
  rewrite Forall_reverse. revert l. induction n as [|n IH]; [lia|]. intros [|c l]; cbn [accepted_loop length take].
  { split; [intros; lia|intros [? _]; lia]. }
  rewrite Forall_cons. destruct (p c); [|split; [intros; lia|intros (_ & ? & _); done]].
  destruct n as [|n].
  - split; [intros _; split_and!; [lia|done|constructor]|]. intros _. assert (0 <= accepted_loop p l)%Z; [|lia].
    clear. induction l as [|x l IH]; cbn; [done|]. destruct (p x); lia.
  - rewrite Nat2Z.inj_succ, <- Z.add_1_l, <- Z.add_le_mono_l, IH by lia. split; intros [? ?]; split_and!; try done; try lia; tauto.
Qed.
(** The latest closes, as many as required and at least one, are all beyond the edge. *)
Definition accepted (closes : list float) (bars : Z) (p : float → bool) : Prop :=
  let n := Z.to_nat (Z.max 1 bars) in (n <= length closes)%nat ∧ Forall (λ c, p c = true) (drop (length closes - n) closes).
Definition named_support (u : Unicode) (kind : string) : bool :=
  contains_runes (lower_trimmed u kind) (runes "support") || contains_runes (lower_trimmed u kind) (runes "low").
Definition named_resistance (u : Unicode) (kind : string) : bool :=
  contains_runes (lower_trimmed u kind) (runes "resist") || contains_runes (lower_trimmed u kind) (runes "high").

(** A level's role: a named support or resistance keeps its role until the required number of latest closes are all
    beyond its far edge, and is then reported broken, never as the opposite role; an unnamed level is ambiguous until
    it is broken on one side. *)
Theorem role_reference u kind low high closes bars :
  let above := accepted closes bars (λ c, c >? high)%float in
  let below := accepted closes bars (λ c, c <? low)%float in
  match Role u kind low high closes bars with
  | RoleBrokenSupport => below ∧ (named_support u kind = true ∨ named_resistance u kind = false ∧ ¬ above)
  | RoleSupport => named_support u kind = true ∧ ¬ below
  | RoleBrokenResistance => above ∧ named_support u kind = false
  | RoleResistance => named_support u kind = false ∧ named_resistance u kind = true ∧ ¬ above
  | RoleAmbiguous => named_support u kind = false ∧ named_resistance u kind = false ∧ ¬ above ∧ ¬ below
  end.
Proof.
  unfold Role. fold (named_support u kind). fold (named_resistance u kind).
  assert (∀ p, (acceptedCount closes p >=? (if (bars <? 1)%Z then 1 else bars))%Z = true ↔ accepted closes bars p) as Ha.
  { intros p. unfold accepted. rewrite <- acceptedCount_spec by lia. rewrite Z.geb_le, Z2Nat.id by lia.
    destruct (Z.ltb_spec bars 1); [by rewrite Z.max_l by lia|by rewrite Z.max_r by lia]. }
  pose proof (Ha (λ c, c >? high)%float) as Hab. pose proof (Ha (λ c, c <? low)%float) as Hbe.
  destruct (_ >=? _)%Z; destruct (_ >=? _)%Z; destruct (named_support u kind), (named_resistance u kind); cbn -[accepted];
    rewrite <- ?Hab, <- ?Hbe; try tauto; intuition done.
Qed.
Example demo_role : Role ascii_unicode "Swing Low" 99 101 [100; 98; 98]%float 2 = RoleBrokenSupport ∧
  Role ascii_unicode "round" 99 101 [100; 98; 98]%float 3 = RoleAmbiguous.
Proof. split; vm_compute; reflexivity. Qed.
