(* ===== verification/Trendline.v ===== *)
(** Package trendline: causal lines through adjacent pivots, their validation touches, health and deduplication,
    and the classification of the latest bar against a line. *)
From S2P Require Import Prelude Float64 Market Structure.
From Stdlib Require Import Floats.

(** * type.go *)

Inductive Kind := KindSupport | KindResistance.
#[export] Instance Kind_eq_dec : EqDecision Kind.
Proof. solve_decision. Defined.
Definition Kind_String (k : Kind) : string := match k with KindResistance => "resistance" | KindSupport => "support" end.
Record Config := mkConfig {
  MinimumSlopeATR : float; MaximumSlopeATR : float; MinimumTouchSpacingBars : Z; MinimumSpanBars : Z;
  MinimumValidationTouchSpacingBars : Z; ValidationTouchToleranceATR : float; InvalidationPenetrationATR : float;
  CloseViolationATR : float; ApproachMinDistanceATR : float; MinimumValidationFavorableExcursionATR : float;
  ValidationReactionBars : Z; MinimumValidationTouches : Z; ExhaustionValidationTouches : Z; MaximumWickViolations : Z;
  DedupValueATR : float; DedupSlopePercent : float; InteractionBandATR : float
}.
Record ValidationTouch := mkValidationTouch {
  vt_BarIndex : nat; vt_Time : Z; vt_ProjectedLinePrice : float; vt_ActualExtreme : float; vt_TouchErrorPrice : float;
  vt_TouchErrorATR : float; vt_PenetrationPrice : float; vt_PenetrationATR : float; vt_CloseDistanceFromLine : float;
  vt_CloseDistanceATR : float; vt_FavorableExcursionPrice : float; vt_FavorableExcursionATR : float;
  vt_AdverseExcursionPrice : float; vt_AdverseExcursionATR : float; vt_ReactionBars : Z; vt_Reclaimed : bool;
  vt_RejectionStrength : float; vt_StructureConfirmed : bool; vt_ApproachDirectionValid : bool
}.

(** * lifecycle.go *)

Inductive State := StateCandidate | StateTentative | StateConfirmed | StateExhausted | StateDegraded | StateBroken.
#[export] Instance State_eq_dec : EqDecision State.
Proof. solve_decision. Defined.
Definition State_String (s : State) : string :=
  match s with
  | StateTentative => "tentative" | StateConfirmed => "confirmed" | StateExhausted => "exhausted"
  | StateDegraded => "degraded" | StateBroken => "broken" | StateCandidate => "candidate"
  end.

Record Trendline := mkTrendline {
  tl_Kind : Kind; tl_AnchorA : string; tl_AnchorB : string; tl_AnchorAIndex : nat; tl_AnchorBIndex : nat;
  tl_AnchorBConfirmedIndex : nat; tl_Slope : float; tl_Intercept : float; tl_SlopeATRPerBar : float; tl_State : State;
  tl_ValidationTouches : list ValidationTouch; tl_WickViolations : Z; tl_CloseViolations : Z; tl_BrokenAt : option Z;
  tl_ViolationReclaimed : bool; tl_SpanBars : Z; tl_Exhausted : bool
}.
(** The line's price at a candle index. *)
Definition line_at (slope intercept : float) (index : Z) : float := (slope * f64_of_Z index + intercept)%float.
Definition ValueAt (tl : Trendline) (index : Z) : float := line_at (tl_Slope tl) (tl_Intercept tl) index.
Definition Book := gmap string (list Trendline).
Definition NewBook : Book := ∅.
Definition Book_Set (b : Book) (tf : string) (state : list Trendline) : Book := <[tf := state]> b.
Definition Book_Get (b : Book) (tf : string) : option (list Trendline) := b !! tf.

(** * build.go: settings *)

Definition eps : float := 1e-12.
Definition isFinite (v : float) : bool := negb (IsNaN v) && negb (IsInf v).
Definition maxF (a b : float) : float := if (a >? b)%float then a else b.
Definition minF (a b : float) : float := if (a <? b)%float then a else b.
Definition maxI (a b : Z) : Z := if (a >? b)%Z then a else b.
Record resolvedSettings := mkResolved {
  minimumSlope : float; maximumSlope : float; minimumSpacing : Z; minimumSpan : Z; minimumValidationSpacing : Z;
  validationTolerance : float; invalidationPenetration : float; closeViolation : float; approachMinDistance : float;
  minimumFavorableExcursion : float; validationReactionBars : Z; minimumValidations : Z; exhaustionValidations : Z;
  maximumWickViolations : Z; dedupValueATR : float; dedupSlopePercent : float
}.
Definition resolveSettings (cfg : Config) (atr : float) : resolvedSettings :=
  mkResolved (maxF 0 (MinimumSlopeATR cfg) * atr) (maxF 0 (MaximumSlopeATR cfg) * atr) (maxI 1 (MinimumTouchSpacingBars cfg))
    (maxI 1 (MinimumSpanBars cfg)) (maxI 1 (MinimumValidationTouchSpacingBars cfg))
    (maxF 0 (ValidationTouchToleranceATR cfg) * atr) (maxF 0 (InvalidationPenetrationATR cfg) * atr)
    (maxF 0 (CloseViolationATR cfg) * atr) (maxF 0 (ApproachMinDistanceATR cfg) * atr)
    (maxF 0 (MinimumValidationFavorableExcursionATR cfg) * atr) (maxI 0 (ValidationReactionBars cfg))
    (maxI 1 (MinimumValidationTouches cfg)) (maxI 1 (ExhaustionValidationTouches cfg)) (maxI 0 (MaximumWickViolations cfg))
    (maxF 0 (DedupValueATR cfg)) (maxF 0 (DedupSlopePercent cfg)).
(** [sort.Float64s] on values none of which is NaN. *)
Definition sort_floats (l : list float) : list float := sort_slice PrimFloat.ltb l.
Definition medianATR (series : list float) : float :=
  let clean := List.filter (λ v, negb (IsNaN v)) series in
  if bool_decide (clean = []) then 1%float
  else
    let sorted := sort_floats clean in
    let n := length sorted in
    let at' i := default 0%float (sorted !! i) in
    let median := if Nat.odd n then at' (n / 2)%nat else ((at' (n / 2 - 1)%nat + at' (n / 2)%nat) / 2)%float in
    if negb (isFinite median) || (median <=? 0)%float then 1%float else median.

(** * lifecycle.go: health *)

Definition sideDistance (kind : Kind) (price line : float) : float :=
  match kind with KindSupport => (price - line)%float | KindResistance => (line - price)%float end.
Record scan := mkScan {
  sc_wickViolations : Z; sc_closeViolations : Z; sc_maxPenetration : float; sc_latestPenetration : float;
  sc_violationIndex : option nat; sc_unresolvedClose : option nat; sc_recovered : bool; sc_consecutive : Z; sc_maxConsecutive : Z
}.
Definition empty_scan : scan := mkScan 0 0 0 0 None None false 0 0.
(** The wick half of the loop body, then the close half. *)
Definition wick_scan (idx : nat) (penetration closeDistance : float) (settings : resolvedSettings) (s : scan) : scan :=
  let maxPen := if (penetration >? sc_maxPenetration s)%float then penetration else sc_maxPenetration s in
  if (penetration >? invalidationPenetration settings + eps)%float then
    let consecutive := (sc_consecutive s + 1)%Z in
    mkScan (sc_wickViolations s + 1) (sc_closeViolations s) maxPen penetration (Some idx) (sc_unresolvedClose s)
      (if (closeDistance >=? 0)%float then true else sc_recovered s) consecutive
      (if (consecutive >? sc_maxConsecutive s)%Z then consecutive else sc_maxConsecutive s)
  else
    mkScan (sc_wickViolations s) (sc_closeViolations s) maxPen (sc_latestPenetration s) (sc_violationIndex s)
      (sc_unresolvedClose s) (sc_recovered s) 0 (sc_maxConsecutive s).
(** A close beyond the invalid side, and a close on the valid one. *)
Definition close_violates (closeDistance : float) (settings : resolvedSettings) : bool :=
  (closeDistance <? - closeViolation settings - eps)%float.
Definition close_scan (idx : nat) (closeDistance : float) (settings : resolvedSettings) (s : scan) : scan :=
  if close_violates closeDistance settings then
    mkScan (sc_wickViolations s) (sc_closeViolations s + 1) (sc_maxPenetration s)
      (if (- closeDistance >? sc_latestPenetration s)%float then (- closeDistance)%float else sc_latestPenetration s)
      (Some idx) (Some idx) false (sc_consecutive s) (sc_maxConsecutive s)
  else if bool_decide (sc_unresolvedClose s ≠ None) && (closeDistance >=? 0)%float then
    mkScan (sc_wickViolations s) (sc_closeViolations s) (sc_maxPenetration s) (sc_latestPenetration s) (sc_violationIndex s)
      None true (sc_consecutive s) (sc_maxConsecutive s)
  else s.
Definition penetration_of (kind : Kind) (c : Candle) (line : float) : float :=
  match kind with KindSupport => maxF 0 (line - c_Low c) | KindResistance => maxF 0 (c_High c - line) end.
Definition health_step (kind : Kind) (slope intercept : float) (candles : list Candle) (settings : resolvedSettings)
    (s : scan) (idx : nat) : scan :=
  let line := line_at slope intercept (Z.of_nat idx) in
  let c := candles !!! idx in
  let closeDistance := sideDistance kind (c_Close c) line in
  close_scan idx closeDistance settings (wick_scan idx (penetration_of kind c line) closeDistance settings s).
Record health := mkHealth {
  h_state : State; h_broken : bool; h_breakIndex : option nat; h_wickViolations : Z; h_closeViolations : Z;
  h_maxPenetration : float; h_latestPenetration : float; h_violationIndex : option nat; h_violationReclaimed : bool;
  h_consecutiveViolations : Z
}.
Definition computeHealth (kind : Kind) (slope intercept : float) (candles : list Candle) (settings : resolvedSettings) (start : nat) :
    health :=
  let s := foldl (health_step kind slope intercept candles settings) empty_scan (seq start (length candles - start)) in
  let broken := bool_decide (sc_unresolvedClose s ≠ None) in
  let st := if broken then StateBroken
    else if (sc_wickViolations s >? maximumWickViolations settings)%Z then StateDegraded
    else if (sc_closeViolations s >? 0)%Z then StateDegraded else StateCandidate in
  mkHealth st broken (sc_unresolvedClose s) (sc_wickViolations s) (sc_closeViolations s) (sc_maxPenetration s)
    (sc_latestPenetration s) (sc_violationIndex s) (sc_recovered s) (sc_maxConsecutive s).

(** * build.go *)

Record pivot := mkPivot { pv_index : nat; pv_price : float; pv_confirmedIndex : nat; pv_swingID : string }.
(** The binary search gives the first candle not before [t]. *)
Definition indexOfTime (candles : list Candle) (t : Z) : option nat :=
  let lo := bsearch (length candles) (λ mid, (c_Time (candles !!! mid) <? t)%Z) in
  if (lo <? length candles)%nat && (c_Time (candles !!! lo) =? t)%Z then Some lo else None.
Definition confirmed_point (candles : list Candle) (kind : PivotKind) (s : Swing) : option pivot :=
  if negb (bool_decide (s_Kind s = kind)) then None
  else if negb (isFinite (s_Price s)) then None
  else
    idx ← indexOfTime candles (s_Time s);
    confirmedIdx ← indexOfTime candles (s_ConfirmedAt s);
    Some (mkPivot idx (s_Price s) confirmedIdx (s_ID s)).
Definition confirmedPoints (swings : list Swing) (candles : list Candle) (kind : PivotKind) : list pivot :=
  sort_slice (λ a b, pv_index a <? pv_index b)%nat (omap (confirmed_point candles kind) swings).

(** The worst penetration and the best excursion over the bars from the pivot to the end of its reaction window. *)
Definition worst_penetration (kind : Kind) (slope intercept : float) (candles : list Candle) (from to : nat) : float :=
  maxF 0 (foldl (λ maxPen idx,
    let expected := line_at slope intercept (Z.of_nat idx) in
    let d := match kind with
      | KindSupport => (expected - c_Low (candles !!! idx))%float
      | KindResistance => (c_High (candles !!! idx) - expected)%float
      end in
    if (d >? maxPen)%float then d else maxPen) 0%float (seq from (to + 1 - from))).
Definition best_excursion (kind : Kind) (lineAtPivot : float) (candles : list Candle) (from to : nat) : float :=
  let rest := seq (from + 1) (to - from) in
  match kind with
  | KindSupport =>
      let highMax := foldl (λ hi idx, if (c_High (candles !!! idx) >? hi)%float then c_High (candles !!! idx) else hi)
        (c_High (candles !!! from)) rest in
      maxF (highMax - lineAtPivot) 0
  | KindResistance =>
      let lowMin := foldl (λ lo idx, if (c_Low (candles !!! idx) <? lo)%float then c_Low (candles !!! idx) else lo)
        (c_Low (candles !!! from)) rest in
      maxF (lineAtPivot - lowMin) 0
  end.
Definition measureValidation (kind : Kind) (p : pivot) (slope intercept : float) (candles : list Candle) (atr : float)
    (settings : resolvedSettings) : option ValidationTouch :=
  let lineAtPivot := line_at slope intercept (Z.of_nat (pv_index p)) in
  let errAbs := abs (pv_price p - lineAtPivot) in
  if (errAbs >? validationTolerance settings + eps)%float then None
  else
    let reactionEnd := (pv_confirmedIndex p + Z.to_nat (validationReactionBars settings))%nat in
    if (length candles <=? reactionEnd)%nat then None
    else
      let penetration := worst_penetration kind slope intercept candles (pv_index p) reactionEnd in
      let favorable := best_excursion kind lineAtPivot candles (pv_index p) reactionEnd in
      let closeLine := line_at slope intercept (Z.of_nat reactionEnd) in
      let closeDistance := sideDistance kind (c_Close (candles !!! reactionEnd)) closeLine in
      let approachValid :=
        if (0 <? pv_index p)%nat then
          let priorLine := line_at slope intercept (Z.of_nat (pv_index p) - 1) in
          let priorDistance := sideDistance kind (c_Close (candles !!! (pv_index p - 1)%nat)) priorLine in
          (priorDistance >=? approachMinDistance settings)%float
        else false in
      let reclaimed := (closeDistance >=? 0)%float in
      let structureConfirmed := approachValid && reclaimed &&
        (penetration <=? invalidationPenetration settings + eps)%float &&
        (favorable >=? minimumFavorableExcursion settings - eps)%float in
      if negb structureConfirmed then None
      else
        let strength := minF 1 ((favorable / atr) + maxF 0 (closeDistance / atr) - (penetration / atr)) in
        Some (mkValidationTouch (pv_index p) (c_Time (candles !!! pv_index p)) lineAtPivot (pv_price p) errAbs (errAbs / atr)
          penetration (penetration / atr) closeDistance (closeDistance / atr) favorable (favorable / atr) penetration
          (penetration / atr) (Z.of_nat reactionEnd - Z.of_nat (pv_index p) + 1) reclaimed strength structureConfirmed approachValid).
(** The loop over later pivots: the touches so far and the bar of the last interaction. *)
Definition validation_step (kind : Kind) (b : pivot) (slope intercept : float) (candles : list Candle) (atr : float)
    (settings : resolvedSettings) (acc : list ValidationTouch * nat) (p : pivot) : list ValidationTouch * nat :=
  let '(validations, previousInteraction) := acc in
  if (pv_index p <=? pv_index b)%nat || (length candles <=? pv_confirmedIndex p)%nat then acc
  else if (Z.of_nat (pv_index p) - Z.of_nat previousInteraction <? minimumValidationSpacing settings)%Z then acc
  else match measureValidation kind p slope intercept candles atr settings with
    | None => acc
    | Some touch => (validations ++ [touch], pv_index p)
    end.
Definition candidateFromAnchors (kind : Kind) (a b : pivot) (points : list pivot) (candles : list Candle) (atr : float)
    (settings : resolvedSettings) : option Trendline :=
  let slope := ((pv_price b - pv_price a) / f64_of_Z (Z.of_nat (pv_index b) - Z.of_nat (pv_index a)))%float in
  if bool_decide (kind = KindSupport) && (slope <? minimumSlope settings - eps)%float then None
  else if bool_decide (kind = KindResistance) && (slope >? - minimumSlope settings + eps)%float then None
  else if (abs slope >? maximumSlope settings + eps)%float then None
  else
    let intercept := (pv_price a - slope * f64_of_Z (Z.of_nat (pv_index a)))%float in
    let '(validations, lastTouch) :=
      foldl (validation_step kind b slope intercept candles atr settings) ([], pv_index b) points in
    let spanBars := (Z.of_nat lastTouch - Z.of_nat (pv_index a))%Z in
    let hp := computeHealth kind slope intercept candles settings (pv_index b + 1) in
    let validationCount := Z.of_nat (length validations) in
    let exhausted := (validationCount >=? exhaustionValidations settings)%Z in
    let state :=
      if negb (bool_decide (h_state hp = StateBroken)) && negb (bool_decide (h_state hp = StateDegraded)) then
        if exhausted then StateExhausted
        else if (validationCount >=? minimumValidations settings)%Z && (spanBars >=? minimumSpan settings)%Z then StateConfirmed
        else StateTentative
      else h_state hp in
    let brokenAt := (λ i, c_Time (candles !!! i)) <$> h_breakIndex hp in
    Some (mkTrendline kind (pv_swingID a) (pv_swingID b) (pv_index a) (pv_index b) (pv_confirmedIndex b) slope intercept
      (slope / atr) state validations (h_wickViolations hp) (h_closeViolations hp) brokenAt (h_violationReclaimed hp) spanBars exhausted).

Definition nearDuplicate (a b : Trendline) (lastBar : Z) (atr : float) (settings : resolvedSettings) : bool :=
  if negb (bool_decide (tl_Kind a = tl_Kind b)) then false
  else if (abs (ValueAt a lastBar - ValueAt b lastBar) >? dedupValueATR settings * atr)%float then false
  else
    let denom := maxF (abs (tl_Slope a)) (maxF (abs (tl_Slope b)) eps) in
    (abs (tl_Slope a - tl_Slope b) / denom <=? dedupSlopePercent settings + eps)%float.
(** The order of the ranking: older anchors first, then the line with more validations. *)
Definition rank_less (li lj : Trendline) : bool :=
  if negb (tl_AnchorAIndex li =? tl_AnchorAIndex lj)%nat then (tl_AnchorAIndex li <? tl_AnchorAIndex lj)%nat
  else if negb (tl_AnchorBIndex li =? tl_AnchorBIndex lj)%nat then (tl_AnchorBIndex li <? tl_AnchorBIndex lj)%nat
  else (length (tl_ValidationTouches lj) <? length (tl_ValidationTouches li))%nat.
Definition kind_rank (k : Kind) : Z := match k with KindSupport => 0 | KindResistance => 1 end.
Definition report_less (lastBar : Z) (a b : Trendline) : bool :=
  if negb (bool_decide (tl_Kind a = tl_Kind b)) then (kind_rank (tl_Kind a) <? kind_rank (tl_Kind b))%Z
  else
    let va := ValueAt a lastBar in let vb := ValueAt b lastBar in
    if (va <>? vb)%float then (va <? vb)%float else (tl_Slope a <? tl_Slope b)%float.
Definition keep_step (lastBar : Z) (atr : float) (settings : resolvedSettings) (kept : list Trendline) (line : Trendline) :
    list Trendline :=
  if existsb (λ other, nearDuplicate line other lastBar atr settings) kept then kept else kept ++ [line].
Definition deduplicate (lines : list Trendline) (lastBar : Z) (atr : float) (settings : resolvedSettings) : list Trendline :=
  sort_slice (report_less lastBar) (foldl (keep_step lastBar atr settings) [] (sort_slice rank_less lines)).

Definition passes : list (PivotKind * Kind) := [(PivotLow, KindSupport); (PivotHigh, KindResistance)].
(** The lines of one pass over adjacent pivots. *)
Fixpoint adjacent_lines (kind : Kind) (all points : list pivot) (candles : list Candle) (atr : float) (settings : resolvedSettings) :
    list Trendline :=
  match points with
  | a :: (b :: _) as rest =>
      (if (Z.of_nat (pv_index b) - Z.of_nat (pv_index a) <? minimumSpacing settings)%Z then []
       else option_list (candidateFromAnchors kind a b all candles atr settings)) ++
      adjacent_lines kind all rest candles atr settings
  | _ => []
  end.
Definition candidate_lines (candles : list Candle) (swings : list Swing) (atr : float) (settings : resolvedSettings) : list Trendline :=
  flat_map (λ '(swingKind, lineKind),
    let points := confirmedPoints swings candles swingKind in
    adjacent_lines lineKind points points candles atr settings) passes.
Definition Build (candles : list Candle) (atrSeries : list float) (swings : list Swing) (cfg : Config) : list Trendline :=
  if bool_decide (candles = []) then []
  else
    let atr := medianATR atrSeries in
    if negb (isFinite atr) || (atr <=? eps)%float then []
    else
      let settings := resolveSettings cfg atr in
      let lastBar := (Z.of_nat (length candles) - 1)%Z in
      deduplicate (candidate_lines candles swings atr settings) lastBar atr settings.
Definition Update (candles : list Candle) (atrSeries : list float) (swings : list Swing) (cfg : Config) : list Trendline :=
  Build candles atrSeries swings cfg.

(** * interaction.go *)

Inductive InteractionState :=
  | InteractionNoData | InteractionFailedSupport | InteractionFailedResistance | InteractionAboveLine | InteractionBelowLine
  | InteractionApproachingSupport | InteractionApproachingResistance | InteractionReclaimedSupport
  | InteractionReclaimedResistance | InteractionTestingSupport | InteractionTestingResistance.
#[export] Instance InteractionState_eq_dec : EqDecision InteractionState.
Proof. solve_decision. Defined.
Definition InteractionState_String (s : InteractionState) : string :=
  match s with
  | InteractionFailedSupport => "FAILED_SUPPORT" | InteractionFailedResistance => "FAILED_RESISTANCE"
  | InteractionAboveLine => "ABOVE_LINE" | InteractionBelowLine => "BELOW_LINE"
  | InteractionApproachingSupport => "APPROACHING_SUPPORT" | InteractionApproachingResistance => "APPROACHING_RESISTANCE"
  | InteractionReclaimedSupport => "RECLAIMED_SUPPORT" | InteractionReclaimedResistance => "RECLAIMED_RESISTANCE"
  | InteractionTestingSupport => "TESTING_SUPPORT" | InteractionTestingResistance => "TESTING_RESISTANCE"
  | InteractionNoData => "NO_DATA"
  end.
Record Interaction := mkInteraction {
  ix_State : InteractionState; ix_LinePrice : float; ix_BandLow : float; ix_BandHigh : float; ix_ApproachDirectionValid : bool;
  ix_PreTouchDistanceATR : float; ix_ApproachBars : Z; ix_InteractionIndex : option nat; ix_InteractionTime : option Z;
  ix_RejectionReason : string
}.
(** [st := support; if tl.Kind == KindResistance { st = resistance }]. *)
Definition by_kind {A} (k : Kind) (support resistance : A) : A := match k with KindSupport => support | KindResistance => resistance end.
Definition EvaluateInteraction (candles : list Candle) (tl : Trendline) (atr : float) (cfg : Config) : Interaction :=
  match candles with
  | [] => mkInteraction InteractionNoData 0 0 0 false 0 0 None None "no_m5_data"
  | _ =>
      let atrValue := maxF atr eps in
      let interactionBand := (maxF 0 (InteractionBandATR cfg) * atrValue)%float in
      let closeViolation := (maxF 0 (CloseViolationATR cfg) * atrValue)%float in
      let minimumApproach := (maxF 0 (ApproachMinDistanceATR cfg) * atrValue)%float in
      let index := (length candles - 1)%nat in
      let linePrice := ValueAt tl (Z.of_nat index) in
      let row := candles !!! index in
      let validSideClose := sideDistance (tl_Kind tl) (c_Close row) linePrice in
      let touch := (c_Low row <=? linePrice + interactionBand)%float && (c_High row >=? linePrice - interactionBand)%float in
      let priorDistance :=
        if (0 <? index)%nat
        then sideDistance (tl_Kind tl) (c_Close (candles !!! (index - 1)%nat)) (ValueAt tl (Z.of_nat index - 1))
        else 0%float in
      let approachValid := (0 <? index)%nat && (priorDistance >=? minimumApproach)%float in
      let approachBars := if (0 <? index)%nat then 1%Z else 0%Z in
      let interaction st valid bars idx t reason :=
        mkInteraction st linePrice (linePrice - interactionBand) (linePrice + interactionBand) valid (priorDistance / atrValue)
          bars idx t reason in
      let k := tl_Kind tl in
      if (validSideClose <? - closeViolation)%float then
        interaction (by_kind k InteractionFailedSupport InteractionFailedResistance) approachValid approachBars
          (Some index) (Some (c_Time row)) "close_violation"
      else if negb touch then
        let st := if (validSideClose >=? 0)%float && (validSideClose <=? interactionBand * 2)%float
          then by_kind k InteractionApproachingSupport InteractionApproachingResistance
          else by_kind k InteractionAboveLine InteractionBelowLine in
        interaction st approachValid approachBars None None ""
      else if negb approachValid then
        interaction (by_kind k InteractionFailedSupport InteractionFailedResistance) false approachBars
          (Some index) (Some (c_Time row)) "invalid_approach_direction"
      else if (validSideClose >=? 0)%float then
        interaction (by_kind k InteractionReclaimedSupport InteractionReclaimedResistance) true 1%Z
          (Some index) (Some (c_Time row)) ""
      else
        interaction (by_kind k InteractionTestingSupport InteractionTestingResistance) true 1%Z
          (Some index) (Some (c_Time row)) "testing_without_reaction"
  end.

(** * Lemmas: health *)

Section health.
Context (kind : Kind) (slope intercept : float) (candles : list Candle) (settings : resolvedSettings).
Definition close_distance (i : nat) : float :=
  sideDistance kind (c_Close (candles !!! i)) (line_at slope intercept (Z.of_nat i)).
Definition violated (i : nat) : bool := close_violates (close_distance i) settings.
Definition pierced (i : nat) : bool :=
  (penetration_of kind (candles !!! i) (line_at slope intercept (Z.of_nat i)) >? invalidationPenetration settings + eps)%float.
(** The last violating close among [idxs] that no later close has answered. *)
Definition unresolved (idxs : list nat) (o : option nat) : Prop :=
  match o with
  | Some i => ∃ before after, idxs = before ++ i :: after ∧ violated i = true ∧
      Forall (λ j, violated j = false ∧ (close_distance j >=? 0)%float = false) after
  | None => ∀ i before after, idxs = before ++ i :: after → violated i = true →
      Exists (λ j, violated j = true ∨ (close_distance j >=? 0)%float = true) after
  end.
Record scanned (idxs : list nat) (s : scan) : Prop := {
  scanned_unresolved : unresolved idxs (sc_unresolvedClose s);
  scanned_closes : sc_closeViolations s = Z.of_nat (length (List.filter violated idxs));
  scanned_wicks : sc_wickViolations s = Z.of_nat (length (List.filter pierced idxs));
}.
Lemma wick_scan_keeps idx p d s :
  sc_unresolvedClose (wick_scan idx p d settings s) = sc_unresolvedClose s ∧
  sc_closeViolations (wick_scan idx p d settings s) = sc_closeViolations s ∧
  sc_wickViolations (wick_scan idx p d settings s) =
    (if (p >? invalidationPenetration settings + eps)%float then sc_wickViolations s + 1 else sc_wickViolations s)%Z.
Proof. unfold wick_scan. by destruct (_ <? p)%float. Qed.
Lemma app_cons_snoc {A} (l before after : list A) x i :
  l ++ [x] = before ++ i :: after → (l = before ∧ x = i ∧ after = []) ∨ ∃ after', after = after' ++ [x] ∧ l = before ++ i :: after'.
Proof.
  destruct after as [|y after _] using rev_ind; intros E.
  - left. apply app_inj_tail in E as [-> ->]. done.
  - right. rewrite app_comm_cons, (assoc_L (++)) in E. apply app_inj_tail in E as [-> ->]. eauto.
Qed.
Lemma unresolved_snoc idxs o idx :
  unresolved idxs o →
  unresolved (idxs ++ [idx])
    (if violated idx then Some idx else if bool_decide (o ≠ None) && (close_distance idx >=? 0)%float then None else o).
Proof.
  intros H. destruct (violated idx) eqn:V; [by exists idxs, []|].
  destruct o as [i|].
  - rewrite bool_decide_true by done. cbn [andb]. destruct H as (b & a & -> & Hv & Ha).
    destruct (0 <=? close_distance idx)%float eqn:E.
    + intros i' b' a' Heq Hv'. apply app_cons_snoc in Heq as [(_ & <- & _)|(a'' & -> & Heq)]; [congruence|].
      apply Exists_app. right. constructor. by right.
    + exists b, (a ++ [idx]). split_and!; [by rewrite <- (assoc_L (++))|done|]. apply Forall_app. split; [done|]. by constructor.
  - rewrite bool_decide_false by auto. cbn [andb]. intros i' b' a' Heq Hv'.
    apply app_cons_snoc in Heq as [(_ & <- & _)|(a'' & -> & Heq)]; [congruence|].
    apply Exists_app. left. by eapply H.
Qed.
Lemma health_scan idxs : scanned idxs (foldl (health_step kind slope intercept candles settings) empty_scan idxs).
Proof.
  induction idxs as [|idx idxs IH] using rev_ind.
  { split; [|done..]. intros i b a E. by destruct b. }
  rewrite foldl_app. cbn [foldl]. set (s := foldl _ _ _) in *. destruct IH as [Hu Hc Hw].
  unfold health_step. fold (close_distance idx). set (p := penetration_of _ _ _). change (penetration_of _ _ _) with p.
  destruct (wick_scan_keeps idx p (close_distance idx) s) as (E1 & E2 & E3).
  pose proof (unresolved_snoc idxs _ idx Hu) as Hs. rewrite <- E1 in Hs. unfold violated in Hs at 1.
  set (s' := wick_scan _ _ _ _ _) in *. split.
  - unfold close_scan. destruct (close_violates _ _); [done|]. destruct (_ && _); done.
  - rewrite List.filter_app, length_app. cbn [List.filter]. unfold violated at 2. unfold close_scan.
    destruct (close_violates _ _); [cbn; lia|]. destruct (_ && _); cbn; lia.
  - rewrite List.filter_app, length_app. cbn [List.filter]. unfold pierced at 2. fold p.
    replace (sc_wickViolations (close_scan idx (close_distance idx) settings s')) with (sc_wickViolations s')
      by (unfold close_scan; destruct (close_violates _ _); [done|]; by destruct (_ && _)).
    rewrite E3. destruct (_ <? p)%float; cbn; lia.
Qed.

(** The health of a line: its break is the last close beyond the invalid side that no later bar has answered by
    closing on the valid one, whatever the wicks did; a line that is not broken is degraded exactly when some close
    violated it or more wicks pierced it than allowed; the counts are the numbers of such bars. *)
Theorem health_reference start :
  let h := computeHealth kind slope intercept candles settings start in
  let idxs := seq start (length candles - start) in
  let closes := Z.of_nat (length (List.filter violated idxs)) in
  let wicks := Z.of_nat (length (List.filter pierced idxs)) in
  unresolved idxs (h_breakIndex h) ∧ h_closeViolations h = closes ∧ h_wickViolations h = wicks ∧
  (h_state h = StateBroken ↔ h_breakIndex h ≠ None) ∧
  (h_state h = StateDegraded ↔ h_breakIndex h = None ∧ ((maximumWickViolations settings < wicks)%Z ∨ (0 < closes)%Z)) ∧
  (h_state h = StateCandidate ↔ closes = 0%Z ∧ (wicks <= maximumWickViolations settings)%Z).
Proof.
  cbv zeta. unfold computeHealth. destruct (health_scan (seq start (length candles - start))) as [Hu Hc Hw].
  set (s := foldl _ _ _) in *. cbn [h_breakIndex h_state h_closeViolations h_wickViolations]. rewrite Hc, Hw.
  set (closes := Z.of_nat (length (List.filter violated _))) in *. set (wicks := Z.of_nat (length (List.filter pierced _))) in *.
  assert (sc_unresolvedClose s ≠ None → (0 < closes)%Z) as Hb.
  { destruct (sc_unresolvedClose s) as [i|]; [|done]. intros _. destruct Hu as (b & a & E & Hv & _). unfold closes.
    rewrite E, List.filter_app, length_app. cbn [List.filter]. rewrite Hv. cbn. lia. }
  split; [done|]. split; [done|]. split; [done|].
  destruct (sc_unresolvedClose s) as [i|]; [rewrite bool_decide_true by done|rewrite bool_decide_false by auto].
  { specialize (Hb ltac:(done)). split_and!; split; try done; try lia. by intros [? _]. }
  destruct (Z.gtb_spec wicks (maximumWickViolations settings)); [split_and!; split; try done; try lia; auto|].
  assert (0 <= closes)%Z by lia.
  destruct (Z.gtb_spec closes 0); split_and!; split; try done; try lia; auto.
Qed.
End health.

(** * Lemmas: the lines *)

Lemma indexOfTime_lt candles t i : indexOfTime candles t = Some i → (i < length candles)%nat ∧ c_Time (candles !!! i) = t.
Proof. unfold indexOfTime. destruct (_ && _) eqn:E; [|done]. intros [= <-]. bools. apply Nat.ltb_lt in H. lia. Qed.
Lemma confirmed_points_in_range swings candles kind :
  Forall (λ p, pv_index p < length candles ∧ pv_confirmedIndex p < length candles)%nat (confirmedPoints swings candles kind).
Proof.
  unfold confirmedPoints. rewrite sort_slice_perm. apply Forall_forall. intros p (s & _ & H)%list_elem_of_omap.
  unfold confirmed_point in H. destruct (negb _); [done|]. destruct (negb _); [done|].
  destruct (indexOfTime candles (s_Time s)) as [i|] eqn:Ei; [|done]. cbn in H.
  destruct (indexOfTime candles (s_ConfirmedAt s)) as [j|] eqn:Ej; [|done]. cbn in H. injection H as <-.
  apply indexOfTime_lt in Ei as [? _], Ej as [? _]. done.
Qed.

(** The touches of a line anchored at bar [b]: later pivots, apart by the spacing, each with its reaction window closed
    and its approach and reclaim confirmed. *)
Inductive touches_from (n : nat) (spacing : Z) (b : nat) : list ValidationTouch → nat → Prop :=
  | touches_none : touches_from n spacing b [] b
  | touches_more ts prev t :
      touches_from n spacing b ts prev → (b < vt_BarIndex t)%nat → (spacing <= Z.of_nat (vt_BarIndex t) - Z.of_nat prev)%Z →
      (Z.of_nat (vt_BarIndex t) + vt_ReactionBars t <= Z.of_nat n)%Z →
      vt_StructureConfirmed t = true → vt_ApproachDirectionValid t = true → vt_Reclaimed t = true →
      touches_from n spacing b (ts ++ [t]) (vt_BarIndex t).
Lemma measureValidation_touch kind p slope intercept candles atr settings t :
  measureValidation kind p slope intercept candles atr settings = Some t →
  vt_BarIndex t = pv_index p ∧ (Z.of_nat (vt_BarIndex t) + vt_ReactionBars t <= Z.of_nat (length candles))%Z ∧
  vt_StructureConfirmed t = true ∧ vt_ApproachDirectionValid t = true ∧ vt_Reclaimed t = true.
Proof.
  unfold measureValidation. intros H. destruct (_ <? abs _)%float; [done|].
  destruct (Nat.leb_spec (length candles) (pv_confirmedIndex p + Z.to_nat (validationReactionBars settings))); [done|].
  destruct (negb _) eqn:E; [done|]. apply negb_false_iff in E. injection H as <-. cbn.
  split_and!; [done|lia|done|by bools|by bools].
Qed.
Lemma validation_fold kind b slope intercept candles atr settings points :
  let '(ts, prev) := foldl (validation_step kind b slope intercept candles atr settings) ([], pv_index b) points in
  touches_from (length candles) (minimumValidationSpacing settings) (pv_index b) ts prev.
Proof.
  induction points as [|p points IH] using rev_ind; [constructor|].
  rewrite foldl_app. cbn [foldl]. destruct (foldl _ _ points) as [ts prev]. unfold validation_step.
  destruct (_ || _) eqn:E; [done|]. bools. apply Nat.leb_gt in H.
  destruct (Z.ltb_spec (Z.of_nat (pv_index p) - Z.of_nat prev) (minimumValidationSpacing settings)); [done|].
  destruct (measureValidation _ _ _ _ _ _ _) as [t|] eqn:Em; [|done].
  apply measureValidation_touch in Em as (Eb & ? & ? & ? & ?). rewrite <- Eb in *. by apply touches_more with prev.
Qed.

Record line_ok (candles : list Candle) (settings : resolvedSettings) (l : Trendline) : Prop := {
  line_anchors : (Z.of_nat (tl_AnchorAIndex l) + minimumSpacing settings <= Z.of_nat (tl_AnchorBIndex l) < Z.of_nat (length candles))%Z;
  line_slope : (abs (tl_Slope l) >? maximumSlope settings + eps)%float = false;
  line_touches : ∃ prev, touches_from (length candles) (minimumValidationSpacing settings) (tl_AnchorBIndex l) (tl_ValidationTouches l) prev ∧
    tl_SpanBars l = (Z.of_nat prev - Z.of_nat (tl_AnchorAIndex l))%Z;
  line_broken : tl_State l = StateBroken ↔ tl_BrokenAt l ≠ None;
  line_state : match tl_State l with
    | StateCandidate => False
    | StateConfirmed => (minimumValidations settings <= Z.of_nat (length (tl_ValidationTouches l)) < exhaustionValidations settings)%Z ∧
        (minimumSpan settings <= tl_SpanBars l)%Z
    | StateExhausted => (exhaustionValidations settings <= Z.of_nat (length (tl_ValidationTouches l)))%Z
    | StateTentative => (Z.of_nat (length (tl_ValidationTouches l)) < minimumValidations settings ∨ tl_SpanBars l < minimumSpan settings)%Z
    | StateDegraded => (maximumWickViolations settings < tl_WickViolations l ∨ 0 < tl_CloseViolations l)%Z
    | StateBroken => True
    end
}.
Lemma candidate_ok kind a b points candles atr settings l :
  candidateFromAnchors kind a b points candles atr settings = Some l →
  (Z.of_nat (pv_index a) + minimumSpacing settings <= Z.of_nat (pv_index b) < Z.of_nat (length candles))%Z →
  line_ok candles settings l.
Proof.
  unfold candidateFromAnchors. intros H Hab. destruct (_ && _); [done|]. destruct (_ && _); [done|].
  destruct (maximumSlope settings + eps <? abs _)%float eqn:Em; [done|].
  set (slope := (_ / _)%float) in *. set (intercept := (pv_price a - _)%float) in *.
  pose proof (validation_fold kind b slope intercept candles atr settings points) as Ht.
  destruct (foldl _ _ points) as [ts prev].
  pose proof (health_reference kind slope intercept candles settings (pv_index b + 1)) as Hh.
  set (h := computeHealth _ _ _ _ _ _) in *. cbv zeta in Hh. clearbody h. destruct Hh as (_ & Hc & Hw & Hb & Hd & _).
  clearbody slope intercept. injection H as <-.
  split; cbn [tl_AnchorAIndex tl_AnchorBIndex tl_Slope tl_ValidationTouches tl_SpanBars tl_State tl_BrokenAt tl_WickViolations tl_CloseViolations].
  - done.
  - done.
  - eauto.
  - destruct (bool_decide (h_state h = StateBroken)) eqn:E1; bools; cbn [negb andb].
    + rewrite E1. split; [|done]. intros _. apply Hb in E1. by destruct (h_breakIndex h).
    + assert (h_breakIndex h = None) as -> by (destruct (h_breakIndex h); [exfalso; apply E1, Hb; done|done]). cbn.
      split; [|done]. destruct (bool_decide (h_state h = StateDegraded)); cbn; [by intros ?%E1|]. by split_ifs.
  - destruct (bool_decide_reflect (h_state h = StateBroken)) as [Es|Es]; cbn [negb andb]; [by rewrite Es|].
    destruct (bool_decide_reflect (h_state h = StateDegraded)) as [Es'|Es']; cbn [negb andb].
    { rewrite Es'. apply Hd in Es' as [_ [?|?]]; [left|right]; lia. }
    destruct (Z.geb_spec (Z.of_nat (length ts)) (exhaustionValidations settings)); [lia|].
    destruct (Z.geb_spec (Z.of_nat (length ts)) (minimumValidations settings)); cbn [andb]; [|left; lia].
    destruct (Z.geb_spec (Z.of_nat prev - Z.of_nat (pv_index a)) (minimumSpan settings)); [lia|right; lia].
Qed.
Lemma adjacent_lines_ok kind all points candles atr settings :
  Forall (λ p, pv_index p < length candles ∧ pv_confirmedIndex p < length candles)%nat points →
  Forall (line_ok candles settings) (adjacent_lines kind all points candles atr settings).
Proof.
  induction 1 as [|a points Ha Hp IH]; [constructor|]. destruct points as [|b points]; [constructor|].
  cbn [adjacent_lines]. apply Forall_app. split; [|apply IH].
  destruct (Z.ltb_spec (Z.of_nat (pv_index b) - Z.of_nat (pv_index a)) (minimumSpacing settings)); [constructor|].
  destruct (candidateFromAnchors _ _ _ _ _ _ _) as [l|] eqn:E; [|constructor]. constructor; [|constructor].
  apply candidate_ok in E; [done|]. apply Forall_cons in Hp as [[? _] _]. lia.
Qed.

(** ** Deduplication *)

Record kept_of (lastBar : Z) (atr : float) (settings : resolvedSettings) (ranked kept : list Trendline) : Prop := {
  kept_sub : sublist kept ranked;
  kept_apart i j a b : kept !! i = Some a → kept !! j = Some b → (i < j)%nat → nearDuplicate b a lastBar atr settings = false;
  kept_all l : l ∈ ranked → l ∈ kept ∨ ∃ k i j, ranked !! i = Some k ∧ ranked !! j = Some l ∧ (i < j)%nat ∧ k ∈ kept ∧
    nearDuplicate l k lastBar atr settings = true;
}.
Lemma keep_fold lastBar atr settings ranked : kept_of lastBar atr settings ranked (foldl (keep_step lastBar atr settings) [] ranked).
Proof.
  induction ranked as [|l ranked IH] using rev_ind; [cbn [foldl]; split; [done|intros [] ? ? ? H; done|set_solver]|].
  rewrite foldl_app. cbn [foldl]. set (kept := foldl _ _ _) in *. destruct IH as [Hs Hap Hall]. unfold keep_step.
  assert (∀ kept' : list Trendline, (∀ x, x ∈ kept → x ∈ kept') → ∀ x, x ∈ ranked → x ∈ kept' ∨ ∃ k i j, (ranked ++ [l]) !! i = Some k ∧
    (ranked ++ [l]) !! j = Some x ∧ (i < j)%nat ∧ k ∈ kept' ∧ nearDuplicate x k lastBar atr settings = true) as Hold.
  { intros kept' Hk x [Hx|(k & i & j & Hi & Hj & Hij & Hin & Hd)]%Hall; [auto|]. right.
    exists k, i, j. split_and!; [by apply lookup_app_l_Some|by apply lookup_app_l_Some|done|auto|done]. }
  destruct (existsb _ kept) eqn:E.
  - apply existsb_exists in E as (k & Hk & Hd). apply list_elem_of_In in Hk. split.
    + by apply sublist_inserts_r.
    + done.
    + intros x [Hx|Hx]%elem_of_app; [by apply Hold|]. apply list_elem_of_singleton in Hx as ->. right.
      assert (k ∈ ranked) as Hkr by (by eapply elem_of_sublist).
      apply list_elem_of_lookup in Hkr as [i Hi]. exists k, i, (length ranked).
      split_and!; [by apply lookup_app_l_Some|by rewrite list_lookup_middle|by eapply lookup_lt_Some|done|done].
  - split.
    + by apply sublist_app.
    + intros i j a b Ha Hb Hij. pose proof (lookup_lt_Some _ _ _ Hb) as Hl. rewrite length_app in Hl. cbn in Hl.
      rewrite lookup_app_l in Ha by lia. destruct (decide (j < length kept)%nat); [rewrite lookup_app_l in Hb by lia; by apply (Hap i j)|].
      rewrite list_lookup_middle in Hb by lia. injection Hb as <-. apply not_true_iff_false. intros Hd.
      apply not_true_iff_false in E. apply E, existsb_exists. exists a. split; [|done]. apply list_elem_of_In. by eapply list_elem_of_lookup_2.
    + intros x [Hx|Hx]%elem_of_app; [apply Hold; [set_solver|done]|set_solver].
Qed.

(** Every line the engine reports is well formed: it runs from a pivot to a later one at least the minimum spacing away,
    no steeper than allowed; its validations come after the second anchor, are spaced, and each is counted only once its
    reaction window has closed inside the candles; its state is the one its counts give (a line is never left a bare
    candidate), and it is broken exactly when it has a break time. *)
Theorem trendlines_well_formed candles atrSeries swings cfg :
  Forall (line_ok candles (resolveSettings cfg (medianATR atrSeries))) (Build candles atrSeries swings cfg).
Proof.
  unfold Build. case_bool_decide; [constructor|]. destruct (_ || _); [constructor|].
  set (settings := resolveSettings _ _). unfold deduplicate. rewrite sort_slice_perm.
  set (ranked := sort_slice rank_less _). set (lastBar := (_ - 1)%Z).
  destruct (keep_fold lastBar (medianATR atrSeries) settings ranked) as [Hs _ _].
  rewrite Forall_forall. intros l Hl. apply (elem_of_sublist _ _ _ Hl) in Hs. unfold ranked in Hs. rewrite sort_slice_perm in Hs.
  apply list_elem_of_In, in_flat_map in Hs as ([sk lk] & _ & Hin). apply list_elem_of_In in Hin. revert l Hl Hin. 
  intros l _. apply Forall_forall. apply adjacent_lines_ok, confirmed_points_in_range.
Qed.

Lemma rank_less_asym x y : rank_less x y = true → rank_less y x = false.
Proof.
  unfold rank_less. rewrite (Nat.eqb_sym (tl_AnchorAIndex y)), (Nat.eqb_sym (tl_AnchorBIndex y)).
  destruct (Nat.eqb_spec (tl_AnchorAIndex x) (tl_AnchorAIndex y)), (Nat.eqb_spec (tl_AnchorBIndex x) (tl_AnchorBIndex y));
    cbn [negb]; rewrite Nat.ltb_lt, Nat.ltb_ge; lia.
Qed.
Lemma rank_less_ntrans x y z : rank_less y x = false → rank_less z y = false → rank_less z x = false.
Proof.
  unfold rank_less.
  destruct (Nat.eqb_spec (tl_AnchorAIndex y) (tl_AnchorAIndex x)), (Nat.eqb_spec (tl_AnchorAIndex z) (tl_AnchorAIndex y)),
    (Nat.eqb_spec (tl_AnchorAIndex z) (tl_AnchorAIndex x)), (Nat.eqb_spec (tl_AnchorBIndex y) (tl_AnchorBIndex x)),
    (Nat.eqb_spec (tl_AnchorBIndex z) (tl_AnchorBIndex y)), (Nat.eqb_spec (tl_AnchorBIndex z) (tl_AnchorBIndex x));
    cbn [negb]; rewrite ?Nat.ltb_ge; lia.
Qed.
(** Deduplication keeps the oldest anchors: the candidates are ranked by their anchors and, for equal ones, by more
    validations; no kept line is a near duplicate of a better ranked kept one, and every dropped line is a near
    duplicate of a kept line that ranks before it. *)
Theorem trendlines_deduplicated lines lastBar atr settings :
  ∃ ranked kept, deduplicate lines lastBar atr settings = sort_slice (report_less lastBar) kept ∧
    ranked ≡ₚ lines ∧ StronglySorted (λ a b, rank_less b a = false) ranked ∧ kept_of lastBar atr settings ranked kept.
Proof.
  exists (sort_slice rank_less lines), (foldl (keep_step lastBar atr settings) [] (sort_slice rank_less lines)).
  split_and!; [done|apply sort_slice_perm| |apply keep_fold].
  apply (sort_slice_sorted _ (λ _, True)); [intros ? ? _ _; apply rank_less_asym|intros ? ? ? _ _ _; apply rank_less_ntrans|].
  by apply Forall_true.
Qed.

(** A rising market whose low pivots are 10, 11, 12 at bars 1, 4 and 7. *)
Definition demo_bar (t : Z) (low : float) : Candle := mkCandle t (low + 0.6) (low + 1) low (low + 0.7) 1.
Definition demo_rise : list Candle :=
  map (λ '(t, l), demo_bar t l) [(0%Z, 11%float); (1%Z, 10%float); (2%Z, 11.5%float); (3%Z, 12%float); (4%Z, 11%float);
    (5%Z, 12.5%float); (6%Z, 13%float); (7%Z, 12%float); (8%Z, 13.5%float); (9%Z, 14%float)].
Definition demo_lows : list Swing :=
  map (λ '(id, t, p), mkSwing id PivotLow StructureMajor t p "M5" 1 1 1 1 (t + 1))
    [("a", 1%Z, 10%float); ("b", 4%Z, 11%float); ("c", 7%Z, 12%float)].
Definition demo_trend : Config := mkConfig 0.05 2 2 4 2 0.2 0.5 0.3 0.2 0.3 1 1 3 1 0.1 0.1 0.2.
Example demo_lines :
  map (λ l, (tl_AnchorA l, tl_AnchorB l, State_String (tl_State l), map vt_BarIndex (tl_ValidationTouches l)))
    (Build demo_rise (replicate 10 1%float) demo_lows demo_trend) = [("a", "b", "confirmed", [7])].
Proof. vm_compute. reflexivity. Qed.
Example demo_interaction :
  ix_State <$> option_map (λ l, EvaluateInteraction demo_rise l 1 demo_trend) (head (Build demo_rise (replicate 10 1%float) demo_lows demo_trend)) =
  Some InteractionAboveLine.
Proof. vm_compute. reflexivity. Qed.
