(* ===== verification/Regime.v ===== *)
(** Package regime: trend or chop from the dealing range, its directional override, and accepted breaks of the box. *)
From S2P Require Import Prelude Float64 Market Structure.
From Stdlib Require Import Floats.

(** * regime.go *)

Definition DisplacementBodyFraction : float := 0.6.
Definition DisplacementRangeATR : float := 1.0.
Record Config := mkConfig {
  ChopFilterEnabled : bool; ChopLookback : Z; ChopRangeATR : float; CoilContract : float; DirectionEnabled : bool;
  DirectionLookback : Z; MinDirectionalSwings : Z; MinDisplacementATR : float; EqualToleranceATR : float;
  BreakoutBufferATR : float; BreakoutAcceptBars : Z
}.
Record BoxBreak := mkBoxBreak {
  bb_BoxHigh : float; bb_BoxLow : float; bb_Direction : string; bb_AcceptBar : nat; bb_Coiling : bool; bb_Acceptance : string
}.
Record State := mkState {
  rs_Kind : string; rs_RangeHigh : float; rs_RangeLow : float; rs_HeightATR : float; rs_Reasons : list string;
  rs_Coiling : bool; rs_LegacyKind : string; rs_NewKind : string; rs_DirectionalDetail : string; rs_BoxBreak : option BoxBreak
}.
Definition isFinite (v : float) : bool := negb (IsNaN v) && negb (IsInf v).
Definition max1 (v : Z) : Z := if (v <? 1)%Z then 1%Z else v.
Definition max2 (v : Z) : Z := if (v <? 2)%Z then 2%Z else v.
Definition lastClose (candles : list Candle) : float :=
  match last candles with
  | None => 0%float
  | Some c => if negb (isFinite (c_Close c)) then 0%float else c_Close c
  end.
(** [sort.Float64s] on finite values. *)
Definition atrScalar (series : list float) : float :=
  let finite := sort_slice PrimFloat.ltb (List.filter isFinite series) in
  if bool_decide (finite = []) then 1%float
  else
    let mid := (length finite / 2)%nat in
    let at' i := default 0%float (finite !! i) in
    let median := if Nat.even (length finite) then ((at' (mid - 1)%nat + at' mid) / 2)%float else at' mid in
    if negb (isFinite median) || (median <=? 0)%float then 1%float else median.
Definition atr_at (series : list float) (index : nat) : float :=
  match series !! index with
  | None => 0%float
  | Some v => if negb (isFinite v) then 0%float else v
  end.
Definition envelope (candles : list Candle) : float :=
  match candles with
  | [] => 0%float
  | c0 :: rest =>
      (foldl (λ high c, math_Max high (c_High c)) (c_High c0) rest - foldl (λ low c, math_Min low (c_Low c)) (c_Low c0) rest)%float
  end.
(** The last [n] candles, [n] at least one and at most their number. *)
Definition tail_of (candles : list Candle) (n : Z) : list Candle := drop (length candles - Z.to_nat n) candles.
Definition closesInsideRange (candles : list Candle) (low high : float) (lookback : Z) : bool :=
  let required := max1 lookback in
  if (Z.of_nat (length candles) <? required)%Z then false
  else forallb (λ c, negb ((c_Close c <? low)%float || (c_Close c >? high)%float)) (tail_of candles required).
Definition isCoiling (candles : list Candle) (lookback : Z) (contract : float) : bool :=
  let required := max2 lookback in
  if (Z.of_nat (length candles) <? required)%Z then false
  else
    let window := tail_of candles required in
    let split := (length window / 2)%nat in
    let firstRange := envelope (take split window) in
    let secondRange := envelope (drop split window) in
    (firstRange >? 0)%float && (secondRange <? math_Max 0 contract * firstRange)%float.

Definition DisplacementGrade (candle : Candle) (atr : float) (direction : string) : bool :=
  let rangeSize := Range candle in
  if (rangeSize <=? 0)%float || (atr <=? 0)%float then false
  else
    let up := bool_decide (direction = "up") in
    let directional := (up && (c_Close candle >? c_Open candle)%float) || (negb up && (c_Close candle <? c_Open candle)%float) in
    directional && (Body candle >=? DisplacementBodyFraction * rangeSize)%float && (rangeSize >=? DisplacementRangeATR * atr)%float.

(** The state of the loop of [AcceptedBoxBreak]. *)
Record box_scan := mkBoxScan { bs_up : Z; bs_down : Z; bs_accepted : option BoxBreak }.
Definition accept (boxHigh boxLow : float) (coiling : bool) (acceptBars : Z) (direction : string) (holds : Z) (i : nat) (c : Candle)
    (atr : float) (accepted : option BoxBreak) : option BoxBreak :=
  if (holds =? 1)%Z && DisplacementGrade c atr direction
  then Some (mkBoxBreak boxHigh boxLow direction i coiling "displacement")
  else if (holds =? acceptBars)%Z
  then Some (mkBoxBreak boxHigh boxLow direction i coiling (pretty acceptBars +:+ " closes"))
  else accepted.
Definition above_box (boxHigh bufferATR atr : float) (c : Candle) : bool := (c_Close c >? boxHigh + bufferATR * atr)%float.
Definition below_box (boxLow bufferATR atr : float) (c : Candle) : bool := (c_Close c <? boxLow - bufferATR * atr)%float.
Definition box_step (atrSeries : list float) (boxHigh boxLow : float) (coiling : bool) (bufferATR : float) (acceptBars : Z)
    (s : box_scan) (ic : nat * Candle) : box_scan :=
  let '(i, c) := ic in
  let atr := atr_at atrSeries i in
  let up := if above_box boxHigh bufferATR atr c then (bs_up s + 1)%Z else 0%Z in
  let down := if below_box boxLow bufferATR atr c then (bs_down s + 1)%Z else 0%Z in
  let accepted := accept boxHigh boxLow coiling acceptBars "up" up i c atr (bs_accepted s) in
  mkBoxScan up down (accept boxHigh boxLow coiling acceptBars "down" down i c atr accepted).
Definition AcceptedBoxBreak (candles : list Candle) (atrSeries : list float) (boxHigh boxLow : float) (coiling : bool)
    (bufferATR : float) (acceptBars : Z) : option BoxBreak :=
  if bool_decide (candles = []) || (boxHigh <=? boxLow)%float then None
  else
    bs_accepted (foldl (box_step atrSeries boxHigh boxLow coiling (math_Max 0 bufferATR) (max1 acceptBars))
      (mkBoxScan 0 0 None) (imap pair candles)).

Record directionalResult := mkDirectional { dr_pairCount : Z; dr_label : string; dr_netDisplacement : float; dr_lookback : Z }.
(** The loop of [swingLabels]: the last swing of each kind so far. *)
Fixpoint labels_loop (swings : list Swing) (atr tol : float) (lastHigh lastLow : option Swing) : list string :=
  match swings with
  | [] => []
  | s :: rest =>
      let relation prev := match prev with Some p => SwingRelation_String (ClassifySwingRelation s p atr tol) | None => "" end in
      match s_Kind s with
      | PivotHigh => relation lastHigh :: labels_loop rest atr tol (Some s) lastLow
      | PivotLow => relation lastLow :: labels_loop rest atr tol lastHigh (Some s)
      end
  end.
Definition swingLabels (swings : list Swing) (atr tol : float) : list string := labels_loop swings atr tol None None.
(** The pairs of the ordered labels: a bearish or bullish pair is consumed whole, any other label alone. *)
Fixpoint label_pairs (ordered : list string) : list Z :=
  match ordered with
  | first :: ((second :: rest) as tail) =>
      let both a b := bool_decide (first = a) && bool_decide (second = b) in
      if both "LH" "LL" || both "LL" "LH" then (-1)%Z :: label_pairs rest
      else if both "HH" "HL" || both "HL" "HH" then 1%Z :: label_pairs rest
      else label_pairs tail
  | _ => []
  end.
Definition directionalOverride (candles : list Candle) (swings : list Swing) (atr : float) (cfg : Config) : option directionalResult :=
  if bool_decide (candles = []) || (atr <=? 0)%float then None
  else
    let lookback := max1 (DirectionLookback cfg) in
    let window := tail_of candles lookback in
    let startTime := c_Time (window !!! 0%nat) in
    let lastCandle := candles !!! (length candles - 1)%nat in
    let labels := swingLabels swings atr (EqualToleranceATR cfg) in
    let ordered := omap (λ '(s, label), if (s_Time s >=? startTime)%Z && (s_Time s <=? c_Time lastCandle)%Z then Some label else None)
      (zip swings labels) in
    let pairs := label_pairs ordered in
    let bullish := Z.of_nat (length (List.filter (λ p, p >? 0)%Z pairs)) in
    let bearish := Z.of_nat (length (List.filter (λ p, negb (p >? 0))%Z pairs)) in
    let net := ((c_Close lastCandle - c_Close (window !!! 0%nat)) / atr)%float in
    let minPairs := max1 (MinDirectionalSwings cfg) in
    let minDisp := math_Max 0 (MinDisplacementATR cfg) in
    if (bearish >=? minPairs)%Z && (bullish <=? 1)%Z && (net <=? - minDisp)%float
    then Some (mkDirectional bearish "LH/LL" net lookback)
    else if (bullish >=? minPairs)%Z && (bearish <=? 1)%Z && (net >=? minDisp)%float
    then Some (mkDirectional bullish "HH/HL" net lookback)
    else None.

Definition trend_state (close : float) (coiling : bool) (reason : string) : State :=
  mkState "trend" close close infinity [reason] coiling "trend" "trend" "" None.
Definition Classify (candles : list Candle) (atrSeries : list float) (swings : list Swing) (structureKind : string)
    (rangeHigh rangeLow : float) (hasRange : bool) (cfg : Config) : State :=
  let close := lastClose candles in
  let coiling := isCoiling candles (ChopLookback cfg) (CoilContract cfg) in
  if negb (ChopFilterEnabled cfg) then trend_state close coiling "chop filter disabled"
  else if negb hasRange then trend_state close coiling "no dealing range"
  else if (rangeHigh <=? rangeLow)%float then trend_state close coiling "invalid dealing range"
  else
    let atr := atrScalar atrSeries in
    let height := math_Max 0 (rangeHigh - rangeLow) in
    let heightATR := if (atr >? 0)%float then (height / atr)%float else infinity in
    let reasons :=
      (if (heightATR <? math_Max 0 (ChopRangeATR cfg))%float
       then ["range height " +:+ fmt_fixed 2 heightATR +:+ " ATR < " +:+ fmt_fixed 2 (ChopRangeATR cfg)] else []) ++
      (if bool_decide (structureKind = "range") && closesInsideRange candles rangeLow rangeHigh (ChopLookback cfg)
       then ["range structure held " +:+ pretty (max1 (ChopLookback cfg)) +:+ " bars"] else []) in
    let legacyKind := if bool_decide (reasons = []) then "trend" else "chop" in
    let '(newKind, directionalDetail, reasons) :=
      match directionalOverride candles swings atr cfg with
      | Some o =>
          let counted := pretty (dr_pairCount o) +:+ " " in
          let net := "net " +:+ fmt_fixed 1 (dr_netDisplacement o) +:+ " ATR" in
          let overrideReasons :=
            ("trend (directional override): " +:+ pretty (dr_pairCount o) +:+ " consecutive " +:+ dr_label o +:+ ", " +:+ net +:+
             " over " +:+ pretty (dr_lookback o) +:+ " bars") ::
            match reasons with r :: _ => ["  [" +:+ r +:+ " would have said chop]"] | [] => [] end in
          ("trend", counted +:+ dr_label o +:+ ", " +:+ net, if DirectionEnabled cfg then overrideReasons else reasons)
      | None => (legacyKind, "", reasons)
      end in
    let reasons := if bool_decide (reasons = []) then ["range expanded or broke edge"] else reasons in
    mkState (if DirectionEnabled cfg && bool_decide (newKind = "trend") then "trend" else legacyKind) rangeHigh rangeLow heightATR
      reasons coiling legacyKind newKind directionalDetail
      (AcceptedBoxBreak candles atrSeries rangeHigh rangeLow coiling (BreakoutBufferATR cfg) (BreakoutAcceptBars cfg)).

(** * Lemmas *)

(** The number of consecutive indices up to [i] at which [f] holds. *)
Fixpoint run (f : nat → bool) (i : nat) : Z :=
  if f i then match i with O => 1%Z | S i' => (run f i' + 1)%Z end else 0%Z.
Lemma run_spec f i k : run f i = k ↔
  (0 <= k <= Z.of_nat i + 1)%Z ∧ (∀ j, (j <= i)%nat → (Z.of_nat i - k < Z.of_nat j)%Z → f j = true) ∧
  ((k = Z.of_nat i + 1)%Z ∨ f (i - Z.to_nat k)%nat = false).
Proof.
  revert k. induction i as [|i IH]; intros k; cbn [run].
  - destruct (f 0%nat) eqn:E; split.
    + intros <-. split_and!; [lia|lia| |by left]. intros j Hj _. by replace j with 0%nat by lia.
    + intros (Hk & Ha & [?|Hf]); [lia|]. destruct (decide (k = 0)%Z) as [->|]; [|lia]. change (f 0%nat = false) in Hf. congruence.
    + intros <-. split_and!; [lia|lia|intros; lia|by right].
    + intros (Hk & Ha & _). destruct (decide (k = 0)%Z); [done|]. rewrite Ha in E by lia. done.
  - destruct (f (S i)) eqn:E; split.
    + intros <-. destruct (proj1 (IH _) eq_refl) as (Hk & Ha & Hf). split_and!; [lia|lia| |].
      * intros j Hj Hlt. destruct (decide (j = S i)) as [->|]; [done|]. apply Ha; lia.
      * destruct Hf as [?|Hf]; [left; lia|right]. by replace (S i - Z.to_nat (run f i + 1))%nat with (i - Z.to_nat (run f i))%nat by lia.
    + intros (Hk & Ha & Hf). assert (k ≠ 0)%Z by (intros ->; destruct Hf as [|Hf]; [lia|]; change (f (S i) = false) in Hf; congruence).
      enough (run f i = k - 1)%Z by lia. apply IH. split_and!; [lia|lia| |].
      * intros j Hj Hlt. apply Ha; lia.
      * destruct Hf as [?|Hf]; [left; lia|right]. by replace (i - Z.to_nat (k - 1))%nat with (S i - Z.to_nat k)%nat by lia.
    + intros <-. split_and!; [lia|lia|intros; lia|]. right. by rewrite Nat.sub_0_r.
    + intros (Hk & Ha & _). destruct (decide (k = 0)%Z); [done|]. rewrite Ha in E by lia. done.
Qed.

Section box.
Context (candles : list Candle) (atrSeries : list float) (boxHigh boxLow : float) (coiling : bool) (bufferATR : float) (acceptBars : Z).
Definition beyond_box (up : bool) (i : nat) : bool :=
  if up then above_box boxHigh (math_Max 0 bufferATR) (atr_at atrSeries i) (candles !!! i)
  else below_box boxLow (math_Max 0 bufferATR) (atr_at atrSeries i) (candles !!! i).
Definition direction_name (up : bool) : string := if up then "up" else "down".
(** The break is accepted at a bar: its first close beyond the box is a displacement, or enough closes have held. *)
Definition accepts (up : bool) (i : nat) : Prop :=
  run (beyond_box up) i = 1%Z ∧ DisplacementGrade (candles !!! i) (atr_at atrSeries i) (direction_name up) = true ∨
  run (beyond_box up) i = max1 acceptBars.
Definition accepted_is (up : bool) (i : nat) (b : BoxBreak) : Prop :=
  bb_BoxHigh b = boxHigh ∧ bb_BoxLow b = boxLow ∧ bb_Coiling b = coiling ∧ bb_Direction b = direction_name up ∧ bb_AcceptBar b = i ∧ accepts up i.
Definition latest_accepted (n : nat) (o : option BoxBreak) : Prop :=
  match o with
  | None => ∀ up i, (i < n)%nat → ¬ accepts up i
  | Some b => ∃ up i, (i < n)%nat ∧ accepted_is up i b ∧ (up = true → ¬ accepts false i) ∧
      ∀ up' j, (i < j < n)%nat → ¬ accepts up' j
  end.
Lemma accept_spec up i o :
  let r := accept boxHigh boxLow coiling (max1 acceptBars) (direction_name up) (run (beyond_box up) i) i (candles !!! i) (atr_at atrSeries i) o in
  (accepts up i ∧ ∃ b, r = Some b ∧ accepted_is up i b) ∨ (¬ accepts up i ∧ r = o).
Proof.
  unfold accept, accepted_is, accepts. cbv zeta.
  destruct (Z.eqb_spec (run (beyond_box up) i) 1) as [E1|E1], (DisplacementGrade _ _ _) eqn:Ed; cbn [andb];
    try (left; split; [by left|eexists; split; [done|]; split_and!; try done; by left]);
    (destruct (Z.eqb_spec (run (beyond_box up) i) (max1 acceptBars)) as [E2|E2];
      [left; split; [by right|eexists; split; [done|]; split_and!; try done; by right]|right; split; [intros [[? ?]|?]; congruence|done]]).
Qed.
Lemma box_fold n :
  (n <= length candles)%nat →
  let s := foldl (box_step atrSeries boxHigh boxLow coiling (math_Max 0 bufferATR) (max1 acceptBars)) (mkBoxScan 0 0 None)
    (take n (imap pair candles)) in
  bs_up s = match n with O => 0%Z | S i => run (beyond_box true) i end ∧
  bs_down s = match n with O => 0%Z | S i => run (beyond_box false) i end ∧ latest_accepted n (bs_accepted s).
Proof.
  induction n as [|n IH]; intros Hn; [cbn; split_and!; [done..|intros ? i Hi; by apply Nat.nlt_0_r in Hi]|].
  destruct (lookup_lt_is_Some_2 candles n) as [c Hc]; [lia|].
  assert (imap pair candles !! n = Some (n, c)) as Hp by (by rewrite list_lookup_imap, Hc).
  rewrite (take_S_r _ _ _ Hp), foldl_app. cbn [foldl]. destruct IH as (Hu & Hd & Ha); [lia|].
  set (s := foldl _ _ _) in *. unfold box_step. cbn [bs_up bs_down bs_accepted].
  pose proof (list_lookup_total_correct _ _ _ Hc) as Ec. rewrite <- Ec.
  assert ((if above_box boxHigh (math_Max 0 bufferATR) (atr_at atrSeries n) (candles !!! n) then (bs_up s + 1)%Z else 0%Z) =
    run (beyond_box true) n) as -> by (rewrite Hu; destruct n; cbn [run]; unfold beyond_box at 1; done).
  assert ((if below_box boxLow (math_Max 0 bufferATR) (atr_at atrSeries n) (candles !!! n) then (bs_down s + 1)%Z else 0%Z) =
    run (beyond_box false) n) as -> by (rewrite Hd; destruct n; cbn [run]; unfold beyond_box at 1; done).
  split; [done|]. split; [done|].
  destruct (accept_spec true n (bs_accepted s)) as [[H1 (b1 & E1 & B1)]|[H1 E1]]; cbv zeta in E1; cbn [direction_name] in E1; rewrite E1;
  destruct (accept_spec false n (Some b1)) as [[H2 (b2 & E2 & B2)]|[H2 E2]] || destruct (accept_spec false n (bs_accepted s)) as [[H2 (b2 & E2 & B2)]|[H2 E2]];
    cbv zeta in E2; cbn [direction_name] in E2; rewrite E2.
  - exists false, n. (split; [lia|]); (split; [done|]); (split; [done|intros; lia]).
  - exists true, n. (split; [lia|]); (split; [done|]); (split; [done|intros; lia]).
  - exists false, n. (split; [lia|]); (split; [done|]); (split; [done|intros; lia]).
  - destruct (bs_accepted s) as [b|].
    + destruct Ha as (up & i & Hi & Hb & Hup & Hl). exists up, i. split; [lia|]. split; [done|]. split; [done|].
      intros up' j Hj. destruct (decide (j = n)) as [->|]; [by destruct up'|]. apply Hl. lia.
    + intros up i Hi. destruct (decide (i = n)) as [->|]; [by destruct up|]. apply Ha. lia.
Qed.
End box.

(** The accepted break of a box is the latest: the last bar at which the closes beyond one edge are either a single
    displacement or have just held for the required number of bars, every run counted from its own first close; there is
    none exactly when no bar qualifies. *)
Theorem box_break_reference candles atrSeries boxHigh boxLow coiling bufferATR acceptBars :
  (boxHigh <=? boxLow)%float = false →
  latest_accepted candles atrSeries boxHigh boxLow coiling bufferATR acceptBars (length candles)
    (AcceptedBoxBreak candles atrSeries boxHigh boxLow coiling bufferATR acceptBars).
Proof.
  intros Hb. unfold AcceptedBoxBreak. rewrite Hb, orb_false_r. case_bool_decide as E; [subst; cbn; intros; lia|].
  destruct (box_fold candles atrSeries boxHigh boxLow coiling bufferATR acceptBars (length candles) ltac:(lia)) as (_ & _ & H).
  by rewrite take_ge in H by (rewrite length_imap; lia).
Qed.
Definition demo_box : list Candle :=
  [mkCandle 0 10 11 9 10 1; mkCandle 60 10 12.5 10 12.2 1; mkCandle 120 12.2 12.6 12 12.3 1; mkCandle 180 12.3 12.4 11 11.5 1].
Lemma box_break_reference_witness :
  bb_AcceptBar <$> AcceptedBoxBreak demo_box (replicate 4 4%float) 12 9 false 0 2 = Some 2%nat ∧
  latest_accepted demo_box (replicate 4 4%float) 12 9 false 0 2 4 (AcceptedBoxBreak demo_box (replicate 4 4%float) 12 9 false 0 2).
Proof. split; [vm_compute; reflexivity|]. by apply (box_break_reference demo_box (replicate 4 4%float) 12 9 false 0 2). Defined.

(** The readings that make a box of a range. *)
Definition narrow (atrSeries : list float) (rangeHigh rangeLow : float) (cfg : Config) : bool :=
  let atr := atrScalar atrSeries in
  ((if (atr >? 0) then math_Max 0 (rangeHigh - rangeLow) / atr else infinity) <? math_Max 0 (ChopRangeATR cfg))%float.
Definition held_range (candles : list Candle) (structureKind : string) (rangeHigh rangeLow : float) (cfg : Config) : bool :=
  bool_decide (structureKind = "range") && closesInsideRange candles rangeLow rangeHigh (ChopLookback cfg).
Lemma kind_chop candles atrSeries swings structureKind rangeHigh rangeLow hasRange cfg :
  rs_Kind (Classify candles atrSeries swings structureKind rangeHigh rangeLow hasRange cfg) = "chop" ↔
    ChopFilterEnabled cfg && hasRange && negb (rangeHigh <=? rangeLow)%float = true ∧
    (narrow atrSeries rangeHigh rangeLow cfg = true ∨ held_range candles structureKind rangeHigh rangeLow cfg = true) ∧
    ¬ (DirectionEnabled cfg = true ∧ directionalOverride candles swings (atrScalar atrSeries) cfg ≠ None).
Proof.
  unfold Classify. destruct (ChopFilterEnabled cfg); cbn [negb andb]; [|cbn; split; [done|intros [? _]; done]].
  destruct hasRange; cbn [negb andb]; [|cbn; split; [done|intros [? _]; done]].
  destruct (rangeHigh <=? rangeLow)%float eqn:Er; cbn [negb andb]; [cbn; split; [done|intros [? _]; done]|].
  fold (narrow atrSeries rangeHigh rangeLow cfg) (held_range candles structureKind rangeHigh rangeLow cfg).
  destruct (narrow _ _ _ _), (held_range _ _ _ _ _), (directionalOverride _ _ _ _) as [o|], (DirectionEnabled cfg);
    cbn -[String.append fmt_fixed]; repeat case_bool_decide; try done.
  all: split; [intros Hk; try (discriminate Hk)|intros (_ & Hn & Ho); try done; try (exfalso; apply Ho; by split); destruct Hn; done].
  all: split; [done|]; split; [first [by left|by right]|]; intros [? ?]; done.
Qed.
(** The regime is chop exactly when the filter is on, there is a dealing range, the range is narrow in ATR or a range
    structure held it, and no enabled directional override speaks against it; otherwise it is trend. A reading always has a
    reason, and a box break is only reported for a valid range. *)
Theorem regime_classified candles atrSeries swings structureKind rangeHigh rangeLow hasRange cfg :
  let st := Classify candles atrSeries swings structureKind rangeHigh rangeLow hasRange cfg in
  let valid := ChopFilterEnabled cfg && hasRange && negb (rangeHigh <=? rangeLow)%float in
  let override := directionalOverride candles swings (atrScalar atrSeries) cfg in
  (rs_Kind st = "trend" ∨ rs_Kind st = "chop") ∧ rs_Reasons st ≠ [] ∧
  (rs_Kind st = "chop" ↔ valid = true ∧
    (narrow atrSeries rangeHigh rangeLow cfg = true ∨ held_range candles structureKind rangeHigh rangeLow cfg = true) ∧
    ¬ (DirectionEnabled cfg = true ∧ override ≠ None)) ∧
  (rs_BoxBreak st ≠ None → valid = true).
Proof.
  cbv zeta. split_and!; [| |apply kind_chop|]; unfold Classify; destruct (ChopFilterEnabled cfg), hasRange; cbn [negb andb];
    try (cbn; auto; done); destruct (rangeHigh <=? rangeLow)%float eqn:Er; cbn [negb andb]; try (cbn; auto; done);
    destruct (directionalOverride _ _ _ _) as [o|]; cbn -[String.append fmt_fixed AcceptedBoxBreak]; try done;
    repeat case_bool_decide; cbn; try done; destruct (DirectionEnabled cfg); cbn; auto; done.
Qed.
Example demo_regime :
  rs_Kind (Classify demo_box (replicate 4 2%float) [] "range" 12 9 true (mkConfig true 2 3 0.5 true 3 2 1 0.1 0 2)) = "chop" ∧
  rs_Kind (Classify demo_box (replicate 4 0.5%float) [] "bullish" 12 9 true (mkConfig true 2 3 0.5 true 3 2 1 0.1 0 2)) = "trend".
Proof. vm_compute. auto. Qed.
