(* ===== verification/GoTime.v ===== *)
(** Package time, as far as the engine uses it: instants are Unix seconds, dates are day numbers since 1970, a zone is
    its lookup function, and dates print as "2006-01-02". *)
From S2P Require Import Prelude.

(** * Instants and UTC dates *)

Definition day_seconds : Z := 86400.
(** The UTC day number of an instant, [Truncate(24 * time.Hour)] in days. *)
Definition utc_day (t : Z) : Z := (t / day_seconds)%Z.
Definition utc_hour (t : Z) : Z := (t mod day_seconds / 3600)%Z.
(** [time.Weekday]: Sunday is 0; the epoch was a Thursday. *)
Definition weekday (day : Z) : Z := ((day + 4) mod 7)%Z.

(** * Zones *)

(** [Location.lookup]: the offset east of UTC in force at an instant, and the interval it is in force. The zone data
    is not part of the sources. *)
Record Location := mkLocation { lookup_zone : Z → Z * Z * Z; is_UTC : bool }.
Definition offset_at (z : Location) (t : Z) : Z := let '(offset, _, _) := lookup_zone z t in offset.
Definition UTC : Location := mkLocation (λ _, (0, - 2 ^ 63, 2 ^ 63))%Z true.
(** The wall clock of [t.In(zone)]: seconds since the epoch as that clock counts them. *)
Definition wall (z : Location) (t : Z) : Z := (t + offset_at z t)%Z.
Definition local_day (z : Location) (t : Z) : Z := utc_day (wall z t).
Definition local_hour (z : Location) (t : Z) : Z := utc_hour (wall z t).
(** [time.Date(..., hour, 0, 0, 0, zone).Unix()] for the calendar date with number [day]: the offset guessed from the wall
    clock is looked up again when it is not in force at the instant it gives. *)
Definition Date (z : Location) (day hour : Z) : Z :=
  let unix := (day * day_seconds + hour * 3600)%Z in
  if is_UTC z then unix
  else
    let '(offset, start, end') := lookup_zone z unix in
    if (offset =? 0)%Z then unix
    else
      let utc := (unix - offset)%Z in
      let offset := if (utc <? start)%Z || (end' <=? utc)%Z then offset_at z utc else offset in
      (unix - offset)%Z.

Lemma utc_day_bounds t : (utc_day t * day_seconds <= t < (utc_day t + 1) * day_seconds)%Z.
Proof. unfold utc_day, day_seconds. pose proof (Z.div_mod t 86400 ltac:(lia)). pose proof (Z.mod_pos_bound t 86400 ltac:(lia)). lia. Qed.
Lemma utc_hour_bounds t : (0 <= utc_hour t < 24)%Z.
Proof.
  unfold utc_hour, day_seconds. pose proof (Z.mod_pos_bound t 86400 ltac:(lia)).
  split; [apply Z.div_pos; lia|apply Z.div_lt_upper_bound; lia].
Qed.
Lemma utc_hour_spec t : (utc_day t * day_seconds + utc_hour t * 3600 <= t < utc_day t * day_seconds + utc_hour t * 3600 + 3600)%Z.
Proof.
  unfold utc_day, utc_hour, day_seconds. pose proof (Z.div_mod t 86400 ltac:(lia)).
  pose proof (Z.div_mod (t mod 86400) 3600 ltac:(lia)). pose proof (Z.mod_pos_bound (t mod 86400) 3600 ltac:(lia)). lia.
Qed.
(** Bounded offsets keep a local date within that distance of its UTC instant. *)
Definition offsets_within (z : Location) (bound : Z) : Prop := ∀ t, (- bound <= offset_at z t <= bound)%Z.
Lemma Date_bounds z day hour bound : offsets_within z bound → (0 <= bound)%Z →
  (day * day_seconds + hour * 3600 - bound <= Date z day hour <= day * day_seconds + hour * 3600 + bound)%Z.
Proof.
  intros Hb Hp. unfold Date. destruct (is_UTC z); [lia|].
  set (unix := (day * day_seconds + hour * 3600)%Z). pose proof (Hb unix) as H. unfold offset_at in H.
  destruct (lookup_zone z unix) as [[o s] e]. destruct (o =? 0)%Z; [lia|].
  pose proof (Hb (unix - o)%Z). destruct (_ || _); lia.
Qed.
Lemma offsets_UTC : offsets_within UTC 0.
Proof. intros t. cbn. lia. Qed.

(** * The proleptic Gregorian calendar *)

(** Year, month and day of a day number: years run from March, 400 of them have 146097 days. *)
Definition civil_of_doe (doe : Z) : Z * Z * Z :=
  let yoe := ((doe - doe / 1460 + doe / 36524 - doe / 146096) / 365)%Z in
  let doy := (doe - (365 * yoe + yoe / 4 - yoe / 100))%Z in
  let mp := ((5 * doy + 2) / 153)%Z in
  let m := (if mp <? 10 then mp + 3 else mp - 9)%Z in
  ((if m <=? 2 then yoe + 1 else yoe)%Z, m, (doy - (153 * mp + 2) / 5 + 1)%Z).
Definition civil_of_days (days : Z) : Z * Z * Z :=
  let z := (days + 719468)%Z in
  let '(y, m, d) := civil_of_doe (z mod 146097) in
  ((y + 400 * (z / 146097))%Z, m, d).
Definition days_of_civil (y m d : Z) : Z :=
  let y := (if m <=? 2 then y - 1 else y)%Z in
  let yoe := (y mod 400)%Z in
  let doy := ((153 * (if m >? 2 then m - 3 else m + 9) + 2) / 5 + d - 1)%Z in
  (y / 400 * 146097 + (yoe * 365 + yoe / 4 - yoe / 100 + doy) - 719468)%Z.

Lemma year_of_era_spec doe :
  (0 <= doe < 146097)%Z →
  let yoe := ((doe - doe / 1460 + doe / 36524 - doe / 146096) / 365)%Z in
  (0 <= yoe < 400)%Z ∧ (0 <= doe - (365 * yoe + yoe / 4 - yoe / 100) <= 365)%Z.
Proof.
  intros H yoe.
  assert (yoe / 100 = doe / 36524 - doe / 146096)%Z as E by (subst yoe; Z.to_euclidean_division_equations; lia).
  rewrite E. subst yoe. clear E. split; Z.to_euclidean_division_equations; lia.
Qed.
Lemma civil_of_doe_spec doe :
  (0 <= doe < 146097)%Z →
  let '(y, m, d) := civil_of_doe doe in
  let y' := (if m <=? 2 then y - 1 else y)%Z in
  let doy := ((153 * (if m >? 2 then m - 3 else m + 9) + 2) / 5 + d - 1)%Z in
  (y' * 365 + y' / 4 - y' / 100 + doy = doe ∧ 0 <= y' < 400 ∧ 1 <= m <= 12 ∧ 1 <= d <= 31)%Z.
Proof.
  intros H. destruct (year_of_era_spec doe H) as [Hy Hd]. unfold civil_of_doe. cbv zeta.
  set (yoe := ((doe - doe / 1460 + doe / 36524 - doe / 146096) / 365)%Z) in *.
  set (doy := (doe - (365 * yoe + yoe / 4 - yoe / 100))%Z) in *. set (mp := ((5 * doy + 2) / 153)%Z).
  assert (0 <= mp <= 11)%Z as Hm by (unfold mp; Z.to_euclidean_division_equations; lia).
  assert (1 <= doy - (153 * mp + 2) / 5 + 1 <= 31)%Z by (unfold mp; clearbody doy; Z.to_euclidean_division_equations; lia).
  clearbody mp. destruct (Z.ltb_spec mp 10).
  - destruct (Z.leb_spec (mp + 3) 2); [lia|]. destruct (Z.gtb_spec (mp + 3) 2); [|lia].
    replace (mp + 3 - 3)%Z with mp by lia. unfold doy in *. split_and!; lia.
  - destruct (Z.leb_spec (mp - 9) 2); [|lia]. destruct (Z.gtb_spec (mp - 9) 2); [lia|].
    replace (mp - 9 + 9)%Z with mp by lia. replace (yoe + 1 - 1)%Z with yoe by lia. unfold doy in *. split_and!; lia.
Qed.

Lemma civil_roundtrip days : let '(y, m, d) := civil_of_days days in
  days_of_civil y m d = days ∧ (1 <= m <= 12)%Z ∧ (1 <= d <= 31)%Z.
Proof.
  unfold civil_of_days. set (z := (days + 719468)%Z). pose proof (Z.mod_pos_bound z 146097 ltac:(lia)) as Hz.
  pose proof (civil_of_doe_spec (z mod 146097) Hz) as H. destruct (civil_of_doe (z mod 146097)) as [[y m] d].
  cbv zeta in H. destruct H as (H & Hy & Hm & Hd).
  set (y' := if (m <=? 2)%Z then (y - 1)%Z else y) in *.
  assert ((if (m <=? 2) then y + 400 * (z / 146097) - 1 else y + 400 * (z / 146097))%Z = (y' + (z / 146097) * 400)%Z) as E
    by (unfold y'; destruct (m <=? 2)%Z; lia).
  unfold days_of_civil. rewrite E, Z_div_plus_full, Z_mod_plus_full, (Z.div_small y'), (Z.mod_small y') by lia.
  pose proof (Z.div_mod z 146097 ltac:(lia)). split_and!; lia.
Qed.
Lemma civil_inj a b : civil_of_days a = civil_of_days b → a = b.
Proof.
  intros E. pose proof (civil_roundtrip a) as Ha. pose proof (civil_roundtrip b) as Hb. rewrite E in Ha.
  destruct (civil_of_days b) as [[y m] d]. destruct Ha as [<- _], Hb as [<- _]. done.
Qed.

(** * Format("2006-01-02") *)

Definition digit (k : Z) : Ascii.ascii := Ascii.ascii_of_N (Z.to_N (48 + k mod 10)).
Definition pad2 (n : Z) : string := String (digit (n / 10)) (String (digit n) "").
(** The year takes four digits, or as many as it needs. *)
Definition pad_year (y : Z) : string :=
  if (y <? 0)%Z then "-" +:+ (if (- y <? 10000)%Z then pad2 (- y / 100) +:+ pad2 (- y mod 100) else pretty (- y)%Z)
  else if (y <? 10000)%Z then pad2 (y / 100) +:+ pad2 (y mod 100)
  else pretty y.
Definition format_date (days : Z) : string :=
  let '(y, m, d) := civil_of_days days in pad_year y +:+ "-" +:+ pad2 m +:+ "-" +:+ pad2 d.
Example format_example : format_date (utc_day 1758844800) = "2025-09-26" ∧ format_date 0 = "1970-01-01" ∧
  format_date (-1) = "1969-12-31" ∧ format_date 19782 = "2024-02-29".
Proof. vm_compute. auto. Qed.

Definition year_of (days : Z) : Z := (civil_of_days days).1.1.
Definition common_era (days : Z) : Prop := (0 <= year_of days < 10000)%Z.
Lemma digit_inj a b : digit a = digit b → (a mod 10 = b mod 10)%Z.
Proof.
  unfold digit. intros E%(f_equal Ascii.N_of_ascii). pose proof (Z.mod_pos_bound a 10 ltac:(lia)). pose proof (Z.mod_pos_bound b 10 ltac:(lia)).
  rewrite !Ascii.N_ascii_embedding in E by lia. lia.
Qed.
Lemma two_digits a b : (0 <= a < 100)%Z → (0 <= b < 100)%Z → ((a / 10) mod 10 = (b / 10) mod 10)%Z → (a mod 10 = b mod 10)%Z → a = b.
Proof. intros. Z.to_euclidean_division_equations. lia. Qed.
(** Dates of four-digit years print apart. *)
Lemma format_date_inj a b : common_era a → common_era b → format_date a = format_date b → a = b.
Proof.
  unfold common_era, year_of, format_date. intros Ha Hb E. apply civil_inj.
  pose proof (civil_roundtrip a) as Ra. pose proof (civil_roundtrip b) as Rb.
  destruct (civil_of_days a) as [[y m] d], (civil_of_days b) as [[y' m'] d']. cbn in Ha, Hb.
  destruct Ra as (_ & ? & ?), Rb as (_ & ? & ?). unfold pad_year in E.
  destruct (Z.ltb_spec y 0), (Z.ltb_spec y' 0), (Z.ltb_spec y 10000), (Z.ltb_spec y' 10000); try lia.
  unfold pad2 in E. cbn [String.append] in E. injection E as E1 E2 E3 E4 E5 E6 E7 E8.
  apply digit_inj in E1, E2, E3, E4, E5, E6, E7, E8.
  assert (m = m') as -> by (apply two_digits; [lia|lia|done|done]).
  assert (d = d') as -> by (apply two_digits; [lia|lia|done|done]).
  assert (y / 100 = y' / 100)%Z by (apply two_digits; [Z.to_euclidean_division_equations; lia..|done|done]).
  assert (y mod 100 = y' mod 100)%Z by (apply two_digits; [Z.to_euclidean_division_equations; lia..|done|done]).
  do 2 f_equal. rewrite (Z.div_mod y 100), (Z.div_mod y' 100) by lia. lia.
Qed.
