(* ===== verification/Session.v ===== *)
(** Package session: the session calendar, finalized session, day and week levels, developing extremes, the active
    session, the weekly closure and the gaps of a bar series. *)
From S2P Require Import Prelude Float64 Market GoTime.
From Stdlib Require Import Floats.

(** * type.go *)

Definition Asia : string := "ASIA".
Definition London : string := "LONDON".
Definition NY : string := "NY".
Record Anchor := mkAnchor { a_Zone : Location; a_Hour : Z }.
Definition Anchor_at (a : Anchor) (day : Z) : Z := Date (a_Zone a) day (a_Hour a).
Record Calendar := mkCalendar { cal_Asia : Anchor; cal_London : Anchor; cal_NY : Anchor; cal_Rollover : Anchor }.
Definition quoted (s : string) : string := let q := String (Ascii.ascii_of_nat 34) "" in q +:+ s +:+ q.
Section calendar.
Local Open Scope go_scope.
Context (LoadLocation : string → result Location).
Definition build_anchor (zone : string) (hour : Z) : result Anchor :=
  guard (hour <? 0)%Z || (23 <? hour)%Z else ("session: hour " +:+ pretty hour +:+ " is not a wall-clock hour");
  match LoadLocation zone with
  | Err m => Err ("session: zone " +:+ quoted zone +:+ ": " +:+ m)
  | Ok loc => Ok (mkAnchor loc hour)
  end.
Definition NewCalendar (asiaZone : string) (asiaHour : Z) (londonZone : string) (londonHour : Z) (nyZone : string) (nyHour : Z)
    (rolloverZone : string) (rolloverHour : Z) : result Calendar :=
  let? asia := build_anchor asiaZone asiaHour in
  let? london := build_anchor londonZone londonHour in
  let? ny := build_anchor nyZone nyHour in
  let? rollover := build_anchor rolloverZone rolloverHour in
  Ok (mkCalendar asia london ny rollover).
End calendar.

Record Config := mkConfig {
  AsiaStartHour : Z; LondonStartHour : Z; NYStartHour : Z; DailyRolloverUTCHour : Z; cfg_Calendar : option Calendar
}.
Record window := mkWindow { w_name : string; w_start : Z; w_end : Z }.
Definition anchors (c : Config) : Calendar :=
  match cfg_Calendar c with
  | Some cal => cal
  | None => mkCalendar (mkAnchor UTC (AsiaStartHour c)) (mkAnchor UTC (LondonStartHour c)) (mkAnchor UTC (NYStartHour c))
              (mkAnchor UTC (DailyRolloverUTCHour c))
  end.
Definition rollover_of (c : Config) : Anchor := cal_Rollover (anchors c).
(** The opens of one session on the local dates from three days before [from] to three days after [to]. *)
Definition session_opens (from to : Z) (item : string * Anchor) : list (string * Z) :=
  let '(name, anchor) := item in
  let first := (from - 3 * day_seconds)%Z in
  let last := (to + 3 * day_seconds)%Z in
  let d0 := local_day (a_Zone anchor) first in
  map (λ d, (name, Anchor_at anchor d)) (seqZ d0 (utc_day last - d0 + 1)).
Definition sessions (c : Config) : list (string * Anchor) :=
  let cal := anchors c in [(Asia, cal_Asia cal); (London, cal_London cal); (NY, cal_NY cal)].
(** Each occurrence ends where the next one opens. *)
Fixpoint windows_of (opens : list (string * Z)) : list window :=
  match opens with
  | (name, start) :: ((_, next) :: _) as rest => mkWindow name start next :: windows_of rest
  | _ => []
  end.
Definition sorted_opens (c : Config) (from to : Z) : list (string * Z) :=
  sort_slice (λ a b, a.2 <? b.2)%Z (flat_map (session_opens from to) (sessions c)).
Definition occurrences (c : Config) (from to : Z) : list window := windows_of (sorted_opens c from to).

Record Level := mkLevel {
  l_Name : string; l_Price : float; l_Time : Z; l_Swept : bool; l_SweptAt : option Z; l_Final : bool; l_AvailableAt : Z
}.
Record State := mkState { ss_Levels : list Level; ss_Developing : list Level; ss_Active : string }.
Definition Book := gmap string State.
Definition NewBook : Book := ∅.
Definition Book_Set (b : Book) (tf : string) (state : State) : Book := <[tf := state]> b.
Definition Book_Get (b : Book) (tf : string) : option State := b !! tf.

(** * state.go: extremes *)

Definition sweeps_level (isHigh : bool) (price : float) (closedAt : Z) (c : Candle) : bool :=
  negb (c_Time c <=? closedAt)%Z && (if isHigh then (c_High c >? price)%float else (c_Low c <? price)%float).
Definition sweptAfter (candles : list Candle) (isHigh : bool) (price : float) (closedAt : Z) : option Z :=
  c_Time <$> List.find (sweeps_level isHigh price closedAt) candles.
Definition better (candles : list Candle) (isHigh : bool) (best i : nat) : nat :=
  if isHigh then (if (c_High (candles !!! i) >? c_High (candles !!! best))%float then i else best)
  else (if (c_Low (candles !!! i) <? c_Low (candles !!! best))%float then i else best).
(** The indices are never empty where this is called. *)
Definition levelFromExtreme (candles : list Candle) (indices : list nat) (name : string) (isHigh : bool) (closedAt : Z) : Level :=
  let best := match indices with i0 :: rest => foldl (better candles isHigh) i0 rest | [] => 0%nat end in
  let price := if isHigh then c_High (candles !!! best) else c_Low (candles !!! best) in
  let sweptAt := sweptAfter candles isHigh price closedAt in
  mkLevel name price (c_Time (candles !!! best)) (bool_decide (sweptAt ≠ None)) sweptAt false 0.
Definition finalLevel (l : Level) (availableAt : Z) : Level :=
  mkLevel (l_Name l) (l_Price l) (l_Time l) (l_Swept l) (l_SweptAt l) true availableAt.
Definition last_time (candles : list Candle) : Z := default 0%Z (c_Time <$> last candles).
Definition developingExtreme (candles : list Candle) (indices : list nat) (name : string) (isHigh : bool) : Level :=
  let l := levelFromExtreme candles indices name isHigh (last_time candles) in
  mkLevel (l_Name l) (l_Price l) (l_Time l) false None false 0.
Definition indices_where (f : Candle → bool) (candles : list Candle) : list nat :=
  List.filter (λ i, f (candles !!! i)) (seq 0 (length candles)).
Definition indicesIn (candles : list Candle) (start end' : Z) : list nat :=
  indices_where (λ c, (c_Time c >=? start)%Z && (c_Time c <? end')%Z) candles.

(** The inner loop of [sessionExtremes] over the windows, latest first, [left] of the two still wanted. *)
Fixpoint extremes_loop (candles : list Candle) (lastTS : Z) (name : string) (left : nat) (latest_first : list window) : list Level :=
  match left, latest_first with
  | S left', w :: rest =>
      if negb (bool_decide (w_name w = name)) || (w_end w >? lastTS)%Z then extremes_loop candles lastTS name left rest
      else
        let run := indicesIn candles (w_start w) (w_end w) in
        if bool_decide (run = []) then extremes_loop candles lastTS name left rest
        else
          finalLevel (levelFromExtreme candles run (name +:+ "_H") true (w_end w)) (w_end w) ::
          finalLevel (levelFromExtreme candles run (name +:+ "_L") false (w_end w)) (w_end w) ::
          extremes_loop candles lastTS name left' rest
  | _, _ => []
  end.
Definition first_time (candles : list Candle) : Z := default 0%Z (c_Time <$> head candles).
Definition sessionExtremes (candles : list Candle) (cfg : Config) : list Level :=
  let lastTS := last_time candles in
  let windows := occurrences cfg (first_time candles) lastTS in
  flat_map (λ name, extremes_loop candles lastTS name 2 (reverse windows)) [Asia; London; NY].

(** * state.go: trading days and weeks *)

Definition dayUTC (t : Z) : Z := utc_day t.
(** The label of a trading day is a date number. *)
Definition tradingDay (t : Z) (rollover : Anchor) : Z :=
  let label := local_day (a_Zone rollover) t in
  if (local_hour (a_Zone rollover) t >=? a_Hour rollover)%Z then (label + 1)%Z else label.
Definition dailyCloseTS (day : Z) (rollover : Anchor) : Z := Anchor_at rollover day.
Definition weekStart (t : Z) : Z := let d := dayUTC t in (d - (weekday d + 6) mod 7)%Z.
Definition covers (t : Z) (w : window) : bool := (w_start w <=? t)%Z && (t <? w_end w)%Z.
Definition in_window (candles : list Candle) (lastTS : Z) (w : window) : list Level :=
  if negb (covers lastTS w) then []
  else
    let run := indicesIn candles (w_start w) (w_end w) in
    if bool_decide (run = []) then []
    else [developingExtreme candles run (w_name w +:+ "_H") true; developingExtreme candles run (w_name w +:+ "_L") false].
Definition developingLevels (candles : list Candle) (cfg : Config) : list Level :=
  let lastTS := last_time candles in
  let today := tradingDay lastTS (rollover_of cfg) in
  let day := indices_where (λ c, tradingDay (c_Time c) (rollover_of cfg) =? today)%Z candles in
  flat_map (in_window candles lastTS) (occurrences cfg lastTS lastTS) ++
  (if bool_decide (day = []) then [] else [developingExtreme candles day "DAY_H" true; developingExtreme candles day "DAY_L" false]).
(** The distinct trading days of the candles, ascending. *)
Definition trading_days (candles : list Candle) (rollover : Anchor) : list Z :=
  merge_sort Z.le (remove_dups (map (λ c, tradingDay (c_Time c) rollover) candles)).
Definition previousDayLevels (candles : list Candle) (cfg : Config) : list Level :=
  let rollover := rollover_of cfg in
  let days := trading_days candles rollover in
  match reverse days with
  | _ :: previousDay :: _ =>
      let closeTS := dailyCloseTS previousDay rollover in
      let run := indices_where (λ c, tradingDay (c_Time c) rollover =? previousDay)%Z candles in
      [finalLevel (levelFromExtreme candles run "PDH" true closeTS) closeTS;
       finalLevel (levelFromExtreme candles run "PDL" false closeTS) closeTS]
  | _ => []
  end.
Definition previousWeekLevels (candles : list Candle) : list Level :=
  let currentWeek := (weekStart (last_time candles) * day_seconds)%Z in
  let previousWeek := ((weekStart (last_time candles) - 7) * day_seconds)%Z in
  if (first_time candles >? previousWeek)%Z then []
  else
    let week := indicesIn candles previousWeek currentWeek in
    match last week with
    | None => []
    | Some i =>
        let closedAt := c_Time (candles !!! i) in
        [finalLevel (levelFromExtreme candles week "PWH" true closedAt) closedAt;
         finalLevel (levelFromExtreme candles week "PWL" false closedAt) closedAt]
    end.
Definition activeSession (candles : list Candle) (cfg : Config) : string :=
  let lastTS := last_time candles in
  match List.find (covers lastTS) (occurrences cfg lastTS lastTS) with
  | Some w => w_name w
  | None => ""
  end.
Definition level_less (a b : Level) : bool :=
  if negb (l_Time a =? l_Time b)%Z then (l_Time a <? l_Time b)%Z
  else if negb (bool_decide (l_Name a = l_Name b)) then str_lt (l_Name a) (l_Name b)
  else (l_Price a <? l_Price b)%float.
Definition Update (candles : list Candle) (cfg : Config) : State :=
  match candles with
  | [] => mkState [] [] ""
  | _ =>
      mkState (sort_slice level_less (sessionExtremes candles cfg ++ previousDayLevels candles cfg) ++ previousWeekLevels candles)
        (developingLevels candles cfg) (activeSession candles cfg)
  end.

(** * gaps.go *)

Definition MarketClosed (c : Config) (t : Z) : bool :=
  let rollover := rollover_of c in
  let day := weekday (local_day (a_Zone rollover) t) in
  let hour := local_hour (a_Zone rollover) t in
  if (day =? 6)%Z then true
  else if (day =? 5)%Z then (hour >=? a_Hour rollover)%Z
  else if (day =? 0)%Z then (hour <? a_Hour rollover)%Z
  else false.
(** [for expected := ...; expected < next; expected += period]; [None] when the turns run out first. *)
Fixpoint gap_loop (fuel : nat) (c : Config) (expected next period : Z) : option (option Z) :=
  match fuel with
  | O => None
  | S fuel =>
      if (expected <? next)%Z then
        if negb (MarketClosed c expected) then Some (Some expected)
        else gap_loop fuel c (expected + period) next period
      else Some None
  end.
(** Each turn moves [expected] by at least one second towards [next]. *)
Definition gap_between (c : Config) (before next period : Z) : option Z :=
  if (next - before <=? period)%Z then None
  else default None (gap_loop (S (Z.to_nat (next - before))) c (before + period) next period).
Fixpoint gaps_loop (c : Config) (times : list Z) (period : Z) : list Z :=
  match times with
  | before :: ((next :: _) as rest) => option_list (gap_between c before next period) ++ gaps_loop c rest period
  | _ => []
  end.
Definition Gaps (c : Config) (times : list Z) (period : Z) : list Z :=
  if (period <=? 0)%Z then [] else gaps_loop c times period.

(** * Lemmas: the calendar *)

(** Hours are wall-clock hours and no clock is further than a day from UTC. *)
Definition anchor_ok (a : Anchor) : Prop := (0 <= a_Hour a < 24)%Z ∧ offsets_within (a_Zone a) day_seconds.
Definition calendar_ok (c : Config) : Prop :=
  let cal := anchors c in anchor_ok (cal_Asia cal) ∧ anchor_ok (cal_London cal) ∧ anchor_ok (cal_NY cal) ∧ anchor_ok (cal_Rollover cal).

Lemma session_opens_cover from to name a :
  anchor_ok a → (from <= to)%Z →
  (∃ s, (name, s) ∈ session_opens from to (name, a) ∧ s <= from)%Z ∧ (∃ s, (name, s) ∈ session_opens from to (name, a) ∧ to < s)%Z.
Proof.
  intros [Hh Ho] Hle. unfold session_opens. set (first := (from - 3 * day_seconds)%Z). set (last := (to + 3 * day_seconds)%Z).
  set (d0 := local_day (a_Zone a) first). set (dn := utc_day last).
  pose proof (utc_day_bounds (wall (a_Zone a) first)) as H0. fold (local_day (a_Zone a) first) in H0. fold d0 in H0.
  pose proof (utc_day_bounds last) as Hn. fold dn in Hn.
  pose proof (Ho first) as Of. unfold wall in H0. unfold day_seconds in *.
  assert (d0 <= dn)%Z by lia.
  split; [exists (Anchor_at a d0)|exists (Anchor_at a dn)]; split.
  - apply list_elem_of_fmap. exists d0. split; [done|]. apply elem_of_seqZ. lia.
  - pose proof (Date_bounds (a_Zone a) d0 (a_Hour a) 86400 Ho ltac:(lia)) as D. unfold day_seconds in D. unfold Anchor_at. lia.
  - apply list_elem_of_fmap. exists dn. split; [done|]. apply elem_of_seqZ. lia.
  - pose proof (Date_bounds (a_Zone a) dn (a_Hour a) 86400 Ho ltac:(lia)) as D. unfold day_seconds in D. unfold Anchor_at. lia.
Qed.
Lemma sorted_opens_sorted c from to : StronglySorted (λ a b : string * Z, (a.2 <= b.2)%Z) (sorted_opens c from to).
Proof.
  unfold sorted_opens.
  assert (H : StronglySorted (λ a b : string * Z, (b.2 <? a.2)%Z = false) (sort_slice (λ a b : string * Z, (a.2 <? b.2)%Z)
    (flat_map (session_opens from to) (sessions c)))).
  { apply (sort_slice_sorted _ (λ _, True)); [intros; lia|intros; lia|by apply Forall_true]. }
  revert H. apply StronglySorted_ind; [constructor|]. intros a l _ IH Hf. constructor; [done|].
  eapply Forall_impl; [exact Hf|]. cbn. intros. lia.
Qed.
Lemma windows_of_next opens i w w' : windows_of opens !! i = Some w → windows_of opens !! S i = Some w' → w_end w = w_start w'.
Proof.
  revert i. induction opens as [|[n s] opens IH]; intros i; [done|]. destruct opens as [|[n' s'] opens]; [done|].
  destruct i as [|i]; [|apply IH]. intros [= <-] H. cbn in H. destruct opens as [|[n'' s''] opens]; [done|]. by injection H as <-.
Qed.
Lemma windows_of_names opens w : w ∈ windows_of opens → ∃ s, (w_name w, s) ∈ opens.
Proof.
  induction opens as [|[n s] opens IH]; [set_solver|]. destruct opens as [|[n' s'] opens]; [set_solver|].
  cbn [windows_of]. intros [->|Hw]%elem_of_cons; [exists s; set_solver|]. destruct (IH Hw) as [s2 ?]. exists s2. set_solver.
Qed.
Lemma windows_of_cover opens t x y :
  StronglySorted (λ a b : string * Z, (a.2 <= b.2)%Z) opens → x ∈ opens → y ∈ opens → (x.2 <= t)%Z → (t < y.2)%Z →
  ∃ i w, windows_of opens !! i = Some w ∧ (w_start w <= t < w_end w)%Z ∧
    ∀ j w', windows_of opens !! j = Some w' → (w_start w' <= t < w_end w')%Z → j = i.
Proof.
  intros Hs. revert x. induction Hs as [|[n s] opens Hs IH Hf]; intros x Hx Hy Hxt Hyt; [set_solver|].
  destruct opens as [|[n' s'] opens].
  { apply list_elem_of_singleton in Hx as ->, Hy as ->. cbn in *. lia. }
  assert (Hlow : ∀ j w', windows_of ((n', s') :: opens) !! j = Some w' → (s' <= w_start w')%Z).
  { clear -Hs. revert n' s' Hs. induction opens as [|[n'' s''] opens IH]; intros n' s' Hs j w' Hw; [done|].
    inversion Hs as [|? ? Hs' Hf]; subst. destruct j as [|j]; [by injection Hw as <-|].
    apply IH in Hw; [|done]. inversion Hf; subst. cbn in *. lia. }
  destruct (decide (t < s')%Z) as [Hlt|Hge].
  - exists 0%nat, (mkWindow n s s'). cbn [w_start w_end]. split; [done|]. split.
    + apply elem_of_cons in Hx as [->|Hx]; [cbn in Hxt; lia|]. rewrite Forall_forall in Hf. apply Hf in Hx. cbn in *. lia.
    + intros [|j] w' Hw Ht; [done|]. cbn [windows_of] in Hw. apply Hlow in Hw. lia.
  - apply elem_of_cons in Hy as [->|Hy]; [cbn in Hyt; apply Forall_cons in Hf as [Hf _]; cbn in Hf; lia|].
    destruct (IH (n', s')) as (i & w & Hw & Ht & Hu); [left|done|cbn; lia|done|].
    exists (S i), w. split; [done|]. split; [done|]. intros [|j] w' Hw' Ht'.
    + injection Hw' as <-. cbn in Ht'. lia.
    + f_equal. by eapply Hu.
Qed.
Lemma occurrences_cover c from to t :
  calendar_ok c → (from <= t <= to)%Z →
  ∃ i w, occurrences c from to !! i = Some w ∧ (w_start w <= t < w_end w)%Z ∧
    ∀ j w', occurrences c from to !! j = Some w' → (w_start w' <= t < w_end w')%Z → j = i.
Proof.
  intros (Ha & _) Ht. unfold occurrences.
  destruct (session_opens_cover from to Asia (cal_Asia (anchors c)) Ha ltac:(lia)) as [(s1 & H1 & ?) (s2 & H2 & ?)].
  assert (∀ x, x ∈ session_opens from to (Asia, cal_Asia (anchors c)) → x ∈ sorted_opens c from to) as Hin.
  { intros x Hx. unfold sorted_opens. rewrite sort_slice_perm. apply list_elem_of_In, in_flat_map.
    exists (Asia, cal_Asia (anchors c)). split; [by left|by apply list_elem_of_In]. }
  apply (windows_of_cover _ t (Asia, s1) (Asia, s2)); [apply sorted_opens_sorted|by apply Hin|by apply Hin|cbn; lia|cbn; lia].
Qed.
Lemma occurrences_name c from to w : w ∈ occurrences c from to → w_name w = Asia ∨ w_name w = London ∨ w_name w = NY.
Proof.
  intros [s Hs]%windows_of_names. unfold sorted_opens in Hs. rewrite sort_slice_perm in Hs.
  apply list_elem_of_In, in_flat_map in Hs as ([n a] & Hin & Hs). apply list_elem_of_In, list_elem_of_fmap in Hs as (d & [= -> _] & _).
  cbn in Hin. destruct Hin as [[= <- _]|[[= <- _]|[[= <- _]|[]]]]; auto.
Qed.

(** The session occurrences partition time on any calendar: consecutive occurrences meet, every instant of the range asked
    for lies in exactly one of them, and so the active session of the latest candle is the one occurrence it falls in. *)
Theorem sessions_partition_time candles cfg t :
  calendar_ok cfg → candles ≠ [] → (first_time candles <= t <= last_time candles)%Z →
  let windows := occurrences cfg (first_time candles) (last_time candles) in
  (∀ i w w', windows !! i = Some w → windows !! S i = Some w' → w_end w = w_start w') ∧
  (∃ i w, windows !! i = Some w ∧ (w_start w <= t < w_end w)%Z ∧
    ∀ j w', windows !! j = Some w' → (w_start w' <= t < w_end w')%Z → j = i) ∧
  ∃ w, w ∈ occurrences cfg (last_time candles) (last_time candles) ∧ (w_start w <= last_time candles < w_end w)%Z ∧
    ss_Active (Update candles cfg) = w_name w ∧ (w_name w = Asia ∨ w_name w = London ∨ w_name w = NY).
Proof.
  intros Hc Hne Ht windows. split; [intros; by eapply windows_of_next|]. split; [by apply occurrences_cover|].
  set (lt := last_time candles). destruct (occurrences_cover cfg lt lt lt Hc ltac:(lia)) as (i & w & Hw & Hwt & _).
  assert (ss_Active (Update candles cfg) = activeSession candles cfg) as -> by (unfold Update; by destruct candles).
  unfold activeSession. fold lt.
  destruct (List.find (covers lt) (occurrences cfg lt lt)) as [w'|] eqn:E.
  - apply find_first in E as (k & Hk & Hf & _). unfold covers in Hf. exists w'. apply list_elem_of_lookup_2 in Hk.
    split; [done|]. split; [lia|]. split; [done|]. by eapply occurrences_name.
  - rewrite find_miss in E. assert (covers lt w = false) as Hf by (apply E; by eapply list_elem_of_lookup_2). unfold covers in Hf. lia.
Qed.

(** * Lemmas: levels *)

Definition side_price (isHigh : bool) (c : Candle) : float := if isHigh then c_High c else c_Low c.
(** [beyond] is a strictly higher high, or a strictly lower low. *)
Definition beyond (isHigh : bool) (price : float) (c : Candle) : bool :=
  if isHigh then (c_High c >? price)%float else (c_Low c <? price)%float.
Lemma better_fold candles isHigh i0 rest :
  Forall candle_ok candles → Forall (λ i, i < length candles)%nat (i0 :: rest) →
  let best := foldl (better candles isHigh) i0 rest in
  best ∈ i0 :: rest ∧ Forall (λ i, beyond isHigh (side_price isHigh (candles !!! best)) (candles !!! i) = false) (i0 :: rest).
Proof.
  intros Hok Hr. assert (Hfin : ∀ i, (i < length candles)%nat → finite (side_price isHigh (candles !!! i)) = true).
  { intros i Hi. destruct (lookup_lt_is_Some_2 candles i Hi) as [c Hc]. rewrite (list_lookup_total_correct _ _ _ Hc).
    rewrite Forall_forall in Hok. apply list_elem_of_lookup_2, Hok in Hc as []. by destruct isHigh. }
  apply Forall_cons in Hr as [H0 Hr]. induction rest as [|i rest IH] using rev_ind.
  { cbn. split; [left|]. constructor; [|done]. unfold beyond, side_price. destruct isHigh; rewrite ltb_key, Z.ltb_irrefl; apply andb_false_r. }
  apply Forall_app in Hr as [Hr Hi]. apply Forall_cons in Hi as [Hi _]. destruct (IH Hr) as [Hin Hb]. clear IH.
  rewrite foldl_app. cbn [foldl]. set (best := foldl _ _ rest) in *.
  assert (Hbest : (best < length candles)%nat) by (apply elem_of_cons in Hin as [->|Hin]; [done|]; rewrite Forall_forall in Hr; auto).
  assert (Hlt : ∀ j, (j < length candles)%nat → IsNaN (side_price isHigh (candles !!! j)) = false) by (intros; by apply finite_not_nan, Hfin).
  assert (Hmono : ∀ j, beyond isHigh (side_price isHigh (candles !!! best)) (candles !!! i) = true → (j < length candles)%nat →
    beyond isHigh (side_price isHigh (candles !!! best)) (candles !!! j) = false → beyond isHigh (side_price isHigh (candles !!! i)) (candles !!! j) = false).
  { intros j H1 Hj. pose proof (Hlt j Hj). pose proof (Hlt i Hi). pose proof (Hlt best Hbest). revert H1.
    unfold beyond, side_price in *. destruct isHigh; rewrite !ltb_num by done; lia. }
  assert (Hbet : better candles isHigh best i = if beyond isHigh (side_price isHigh (candles !!! best)) (candles !!! i) then i else best)
    by (unfold better, beyond, side_price; by destruct isHigh).
  rewrite Hbet, app_comm_cons. destruct (beyond isHigh (side_price isHigh (candles !!! best)) (candles !!! i)) eqn:E.
  - split; [set_solver|]. apply Forall_app. split.
    + rewrite Forall_forall in Hb, Hr |- *. intros j Hj. apply Hmono; [done| |auto]. apply elem_of_cons in Hj as [->|Hj]; auto.
    + constructor; [|done]. unfold beyond, side_price. destruct isHigh; rewrite ltb_key, Z.ltb_irrefl; apply andb_false_r.
  - split; [set_solver|]. apply Forall_app. split; [done|by constructor].
Qed.
Lemma sweptAfter_spec candles isHigh price closedAt :
  match sweptAfter candles isHigh price closedAt with
  | Some s => ∃ k c, candles !! k = Some c ∧ c_Time c = s ∧ (closedAt < s)%Z ∧ beyond isHigh price c = true ∧
      ∀ j c', (j < k)%nat → candles !! j = Some c' → (closedAt < c_Time c')%Z → beyond isHigh price c' = false
  | None => ∀ c, c ∈ candles → (closedAt < c_Time c)%Z → beyond isHigh price c = false
  end.
Proof.
  unfold sweptAfter. destruct (List.find _ candles) as [c|] eqn:E; cbn.
  - apply find_first in E as (k & Hk & Hs & Hf). unfold sweeps_level in Hs. fold (beyond isHigh price c) in Hs. bools.
    exists k, c. split_and!; [done|done|lia|done|]. intros j c' Hj Hc' Ht. specialize (Hf j c' Hj Hc'). unfold sweeps_level in Hf.
    fold (beyond isHigh price c') in Hf. destruct (Z.leb_spec (c_Time c') closedAt); [lia|done].
  - rewrite find_miss in E. intros c Hc Ht. specialize (E c Hc). unfold sweeps_level in E. fold (beyond isHigh price c) in E.
    destruct (Z.leb_spec (c_Time c) closedAt); [lia|done].
Qed.

(** The period a finalized level is the extreme of, and the instant it closed. *)
Inductive defining_period (cfg : Config) (candles : list Candle) : (Candle → bool) → Z → Prop :=
  | period_session w : w ∈ occurrences cfg (first_time candles) (last_time candles) →
      defining_period cfg candles (λ c, (c_Time c >=? w_start w) && (c_Time c <? w_end w))%Z (w_end w)
  | period_day p c : c ∈ candles → (p < tradingDay (c_Time c) (rollover_of cfg))%Z →
      defining_period cfg candles (λ c, tradingDay (c_Time c) (rollover_of cfg) =? p)%Z (dailyCloseTS p (rollover_of cfg))
  | period_week closedAt :
      let week := (weekStart (last_time candles) * day_seconds)%Z in (closedAt < week)%Z →
      (∃ c, c ∈ candles ∧ c_Time c = closedAt) → (∀ c, c ∈ candles → (c_Time c < week)%Z → (c_Time c <= closedAt)%Z) →
      defining_period cfg candles
        (λ c, (c_Time c >=? (weekStart (last_time candles) - 7) * day_seconds)%Z && (c_Time c <? week)%Z) closedAt.
Record finalized (candles : list Candle) (member : Candle → bool) (isHigh : bool) (closedAt : Z) (l : Level) : Prop := {
  fl_final : l_Final l = true ∧ l_AvailableAt l = closedAt;
  fl_attained : ∃ c, c ∈ candles ∧ member c = true ∧ l_Time l = c_Time c ∧ l_Price l = side_price isHigh c;
  fl_extreme c : c ∈ candles → member c = true → beyond isHigh (l_Price l) c = false;
  fl_swept : l_SweptAt l = sweptAfter candles isHigh (l_Price l) closedAt ∧ l_Swept l = bool_decide (l_SweptAt l ≠ None);
}.
Lemma elem_of_indices_where f candles i : i ∈ indices_where f candles ↔ (i < length candles)%nat ∧ f (candles !!! i) = true.
Proof.
  unfold indices_where. rewrite list_elem_of_In, filter_In, in_seq. split; [intros [? ?]; split; [lia|done]|intros [? ?]; split; [lia|done]].
Qed.
Lemma levelFromExtreme_finalized candles f name isHigh closedAt :
  Forall candle_ok candles → indices_where f candles ≠ [] →
  finalized candles f isHigh closedAt (finalLevel (levelFromExtreme candles (indices_where f candles) name isHigh closedAt) closedAt).
Proof.
  intros Hok Hne. pose proof (elem_of_indices_where f candles) as Hi. destruct (indices_where f candles) as [|i0 rest]; [done|].
  assert (Forall (λ i, i < length candles)%nat (i0 :: rest)) as Hr by (apply Forall_forall; intros i Hin; by apply Hi).
  destruct (better_fold candles isHigh i0 rest Hok Hr) as [Hin Hb]. cbv zeta in Hin, Hb.
  split; unfold levelFromExtreme; cbv zeta; set (best := foldl _ i0 rest) in *; cbn [finalLevel l_Final l_AvailableAt l_Time l_Price l_SweptAt l_Swept].
  - done.
  - apply Hi in Hin as [Hlt Hf]. exists (candles !!! best). split_and!; [|done|done|by destruct isHigh].
    destruct (lookup_lt_is_Some_2 candles best Hlt) as [c Hc]. rewrite (list_lookup_total_correct _ _ _ Hc). by eapply list_elem_of_lookup_2.
  - intros c Hc Hm. apply list_elem_of_lookup in Hc as [j Hj]. rewrite Forall_forall in Hb.
    rewrite <- (list_lookup_total_correct _ _ _ Hj) in Hm |- *. apply Hb, Hi. split; [by eapply lookup_lt_Some|done].
  - done.
Qed.
Definition level_ok (cfg : Config) (candles : list Candle) (l : Level) : Prop :=
  ∃ member isHigh closedAt, defining_period cfg candles member closedAt ∧ (closedAt <= last_time candles)%Z ∧
    finalized candles member isHigh closedAt l.
(** On the rollover clock, the rollover hour of a date is not reached before its instant. *)
Definition rollover_law (a : Anchor) : Prop :=
  ∀ d t, (d * day_seconds + a_Hour a * 3600 <= wall (a_Zone a) t)%Z → (Anchor_at a d <= t)%Z.
Lemma extremes_loop_ok cfg candles name left ws :
  Forall candle_ok candles → (∀ w, w ∈ ws → w ∈ occurrences cfg (first_time candles) (last_time candles)) →
  Forall (level_ok cfg candles) (extremes_loop candles (last_time candles) name left ws).
Proof.
  intros Hok. revert left. induction ws as [|w ws IH]; intros left Hw; [by destruct left; constructor|].
  destruct left as [|left]; [constructor|]. cbn [extremes_loop].
  assert (∀ w', w' ∈ ws → w' ∈ occurrences cfg (first_time candles) (last_time candles)) as Hw' by (intros; apply Hw; by right).
  destruct (_ || _) eqn:E; [by apply IH|]. bools. case_bool_decide as Hr; [by apply IH|].
  assert (∀ isHigh nm, level_ok cfg candles
    (finalLevel (levelFromExtreme candles (indicesIn candles (w_start w) (w_end w)) nm isHigh (w_end w)) (w_end w))) as Hl.
  { intros isHigh nm. eexists _, isHigh, (w_end w). split; [apply (period_session cfg candles w), Hw; left|]. split; [lia|].
    by apply levelFromExtreme_finalized. }
  constructor; [apply Hl|]. constructor; [apply Hl|]. by apply IH.
Qed.
Lemma time_le_last candles c : ValidSeries candles = true → c ∈ candles → (c_Time c <= last_time candles)%Z.
Proof.
  intros (_ & Hs & _)%ValidSeries_from_spec Hc. unfold last_time.
  destruct (last candles) as [l|] eqn:E; [|apply last_None in E as ->; by apply not_elem_of_nil in Hc].
  cbn. pose proof (sorted_last_max _ (c_Time l) Hs) as H. rewrite last_lookup, length_map, list_lookup_fmap, <- last_lookup, E in H.
  specialize (H eq_refl). rewrite Forall_forall in H. apply H, list_elem_of_fmap. eauto.
Qed.
Lemma trading_day_closed a t p : (0 <= a_Hour a < 24)%Z → rollover_law a → (p < tradingDay t a)%Z → (dailyCloseTS p a <= t)%Z.
Proof.
  intros Hh Hlaw Hp. apply Hlaw. unfold tradingDay, local_day, local_hour in Hp.
  pose proof (utc_hour_spec (wall (a_Zone a) t)). pose proof (utc_hour_bounds (wall (a_Zone a) t)). unfold day_seconds in *.
  destruct (Z.geb_spec (utc_hour (wall (a_Zone a) t)) (a_Hour a)); lia.
Qed.
Lemma previousDayLevels_ok cfg candles :
  ValidSeries candles = true → (0 <= a_Hour (rollover_of cfg) < 24)%Z → rollover_law (rollover_of cfg) →
  Forall (level_ok cfg candles) (previousDayLevels candles cfg).
Proof.
  intros Hv Hh Hlaw. pose proof (ValidSeries_from_spec _ _ Hv) as (Hok & _). unfold previousDayLevels.
  destruct (reverse (trading_days candles (rollover_of cfg))) as [|today [|p rest]] eqn:E; [constructor|constructor|].
  apply (f_equal reverse) in E. rewrite reverse_involutive, !reverse_cons in E.
  assert (Hmem : ∀ d, d ∈ trading_days candles (rollover_of cfg) ↔ ∃ c, c ∈ candles ∧ tradingDay (c_Time c) (rollover_of cfg) = d).
  { intros d. unfold trading_days. rewrite merge_sort_Permutation, elem_of_remove_dups, list_elem_of_fmap. naive_solver. }
  assert (Hlt : (p < today)%Z).
  { assert (NoDup (trading_days candles (rollover_of cfg))) as Hn by (unfold trading_days; rewrite merge_sort_Permutation; apply NoDup_remove_dups).
    assert (StronglySorted Z.le (trading_days candles (rollover_of cfg))) as Hs by (apply StronglySorted_merge_sort; apply _).
    rewrite E, <- (assoc_L (++)) in Hn, Hs. apply NoDup_app in Hn as (_ & _ & Hn). apply StronglySorted_app_1_r in Hs.
    cbn in Hn, Hs. inversion Hs as [|? ? _ Hf]; subst. apply Forall_cons in Hf as [? _]. apply NoDup_cons in Hn as [Hn _]. set_solver by lia. }
  assert (today ∈ trading_days candles (rollover_of cfg)) as (c & Hc & Hct)%Hmem by (rewrite E; set_solver).
  assert (p ∈ trading_days candles (rollover_of cfg)) as (cp & Hcp & Hcpt)%Hmem by (rewrite E; set_solver).
  assert (indices_where (λ c, tradingDay (c_Time c) (rollover_of cfg) =? p)%Z candles ≠ []) as Hr.
  { apply list_elem_of_lookup in Hcp as [i Hi]. intros Hnil. apply (not_elem_of_nil i). rewrite <- Hnil.
    apply elem_of_indices_where. rewrite (list_lookup_total_correct _ _ _ Hi). split; [by eapply lookup_lt_Some|lia]. }
  assert (∀ isHigh nm, level_ok cfg candles (finalLevel (levelFromExtreme candles
    (indices_where (λ c, tradingDay (c_Time c) (rollover_of cfg) =? p)%Z candles) nm isHigh (dailyCloseTS p (rollover_of cfg)))
    (dailyCloseTS p (rollover_of cfg)))) as Hl.
  { intros isHigh nm. eexists _, isHigh, _. split; [apply (period_day cfg candles p c); [done|lia]|]. split.
    - transitivity (c_Time c); [apply trading_day_closed; [done|done|lia]|by apply time_le_last].
    - by apply levelFromExtreme_finalized. }
  constructor; [apply Hl|]. constructor; [apply Hl|constructor].
Qed.
Lemma indices_where_last f candles i : last (indices_where f candles) = Some i → ∀ j, j ∈ indices_where f candles → (j <= i)%nat.
Proof.
  unfold indices_where. set (g := λ i, f (candles !!! i)). generalize (length candles) as n. intros n. clearbody g. revert i.
  induction n as [|n IH]; intros i; [done|]. rewrite seq_S, List.filter_app. cbn [List.filter Nat.add].
  destruct (g n); [|rewrite app_nil_r; apply IH]. rewrite last_snoc. intros [= <-] j [Hj|Hj]%elem_of_app.
  - apply list_elem_of_In, filter_In in Hj as [Hj%in_seq _]. lia.
  - apply list_elem_of_singleton in Hj. lia.
Qed.
Lemma previousWeekLevels_ok cfg candles : ValidSeries candles = true → Forall (level_ok cfg candles) (previousWeekLevels candles).
Proof.
  intros Hv. pose proof (ValidSeries_from_spec _ _ Hv) as (Hok & Hs & _). unfold previousWeekLevels.
  destruct (_ >? _)%Z; [constructor|]. set (week := indicesIn _ _ _).
  destruct (last week) as [i|] eqn:E; [|constructor].
  assert (Hi : i ∈ week) by (rewrite last_lookup in E; by eapply list_elem_of_lookup_2).
  pose proof Hi as Hi'. apply elem_of_indices_where in Hi' as [Hlt Hw]. destruct (lookup_lt_is_Some_2 candles i Hlt) as [c Hc].
  rewrite (list_lookup_total_correct _ _ _ Hc) in Hw |- *. pose proof (list_elem_of_lookup_2 _ _ _ Hc) as Hin.
  assert (∀ isHigh nm, level_ok cfg candles (finalLevel (levelFromExtreme candles week nm isHigh (c_Time c)) (c_Time c))) as Hl.
  { intros isHigh nm. eexists _, isHigh, _. split; [|split; [by apply time_le_last|apply levelFromExtreme_finalized; [done|]]].
    - apply period_week; [bools; lia|by exists c|].
      intros c' Hc' Ht'. apply list_elem_of_lookup in Hc' as [j Hj]. destruct (decide (j <= i)%nat) as [Hji|Hji].
      { destruct (decide (j = i)) as [->|]; [rewrite Hj in Hc; injection Hc as ->; lia|].
        enough (c_Time c' < c_Time c)%Z by lia. apply (StronglySorted_lookup_lt (map c_Time candles) j i); [done| | |lia];
        rewrite list_lookup_fmap; [by rewrite Hj|by rewrite Hc]. }
      exfalso. assert (c_Time c < c_Time c')%Z as Hlt2 by
        (apply (StronglySorted_lookup_lt (map c_Time candles) i j); [done| | |lia]; rewrite list_lookup_fmap; [by rewrite Hc|by rewrite Hj]).
      assert (j ∈ week) as Hjw by (apply elem_of_indices_where; rewrite (list_lookup_total_correct _ _ _ Hj);
        split; [by eapply lookup_lt_Some|bools; lia]).
      pose proof (indices_where_last _ _ _ E j Hjw). lia.
    - intros Hnil. change (week = []) in Hnil. rewrite Hnil in Hi. by apply not_elem_of_nil in Hi. }
  constructor; [apply Hl|]. constructor; [apply Hl|constructor].
Qed.

(** Every level the session read offers to trade from is finalized: it is the extreme of a closed session occurrence,
    trading day or week, attained by one of its candles and exceeded by none; it became available when that period closed, not
    later than the latest candle, and its sweep is the first later candle beyond it. Developing extremes are offered apart
    and are never final or swept. *)
Theorem session_levels_final candles cfg :
  ValidSeries candles = true → calendar_ok cfg → rollover_law (rollover_of cfg) →
  let st := Update candles cfg in
  Forall (level_ok cfg candles) (ss_Levels st) ∧
  Forall (λ l, l_Final l = false ∧ l_SweptAt l = None) (ss_Developing st).
Proof.
  intros Hv (_ & _ & _ & Hh & _) Hlaw st. pose proof (ValidSeries_from_spec _ _ Hv) as (Hok & _).
  assert (ss_Levels st = [] ∨ ss_Levels st = sort_slice level_less (sessionExtremes candles cfg ++ previousDayLevels candles cfg) ++
    previousWeekLevels candles) as HL by (unfold st, Update; destruct candles; [by left|by right]).
  assert (ss_Developing st = [] ∨ ss_Developing st = developingLevels candles cfg) as HD by (unfold st, Update; destruct candles; [by left|by right]).
  split.
  - destruct HL as [->| ->]; [constructor|]. apply Forall_app. split; [|by apply previousWeekLevels_ok].
    rewrite sort_slice_perm. apply Forall_app. split; [|by apply previousDayLevels_ok].
    rewrite Forall_forall. intros l (name & _ & Hl)%list_elem_of_In%in_flat_map. apply list_elem_of_In in Hl. revert l Hl. apply Forall_forall.
    apply extremes_loop_ok; [done|]. intros w. by rewrite elem_of_reverse.
  - destruct HD as [->| ->]; [constructor|]. unfold developingLevels. apply Forall_app. split.
    + rewrite Forall_forall. intros l (w & _ & Hl)%list_elem_of_In%in_flat_map. apply list_elem_of_In in Hl. unfold in_window in Hl.
      destruct (negb _); [by apply not_elem_of_nil in Hl|]. case_bool_decide; [by apply not_elem_of_nil in Hl|].
      rewrite !elem_of_cons in Hl. by destruct Hl as [->|[->|?%not_elem_of_nil]].
    + case_bool_decide; repeat constructor.
Qed.

(** * Lemmas: gaps *)

(** A missing bar of the hole between two bars that would have opened while the market was open, the first one. *)
Definition first_open (c : Config) (before next period g : Z) : Prop :=
  ∃ k, (1 <= k)%Z ∧ g = (before + k * period)%Z ∧ (g < next)%Z ∧ MarketClosed c g = false ∧
    ∀ j, (1 <= j < k)%Z → MarketClosed c (before + j * period) = true.
Lemma gap_loop_spec fuel c before next period k :
  (0 < period)%Z → (1 <= k)%Z → (Z.max 0 (next - (before + k * period)) < Z.of_nat fuel)%Z →
  (∀ j, (1 <= j < k)%Z → MarketClosed c (before + j * period) = true) →
  ∃ o, gap_loop fuel c (before + k * period) next period = Some o ∧
    match o with
    | Some g => first_open c before next period g
    | None => ∀ j, (1 <= j)%Z → (before + j * period < next)%Z → MarketClosed c (before + j * period) = true
    end.
Proof.
  intros Hp. revert k. induction fuel as [|fuel IH]; intros k Hk Hf Hc; cbn [gap_loop].
  { lia. }
  destruct (Z.ltb_spec (before + k * period) next) as [Hlt|Hge].
  - destruct (MarketClosed c (before + k * period)) eqn:Em; cbn [negb].
    + replace (before + k * period + period)%Z with (before + (k + 1) * period)%Z by lia. apply IH; [lia|lia|].
      intros j Hj. destruct (decide (j = k)) as [->|]; [done|]. apply Hc. lia.
    + eexists. split; [done|]. exists k. split_and!; [done|done|done|done|done].
  - eexists. split; [done|]. intros j Hj Hjn. destruct (decide (j < k)%Z); [apply Hc; lia|]. nia.
Qed.
Lemma gap_between_spec c before next period :
  (0 < period)%Z →
  match gap_between c before next period with
  | Some g => first_open c before next period g
  | None => ∀ j, (1 <= j)%Z → (before + j * period < next)%Z → MarketClosed c (before + j * period) = true
  end.
Proof.
  intros Hp. unfold gap_between. destruct (Z.leb_spec (next - before) period); [intros; nia|].
  destruct (gap_loop_spec (S (Z.to_nat (next - before))) c before next period 1 Hp ltac:(lia) ltac:(lia) ltac:(lia)) as (o & Ho & H').
  rewrite Z.mul_1_l in Ho. rewrite Ho. done.
Qed.
(** [C39] The gap scan stops for every positive period, and reports exactly the holes of the series: for each two neighbouring
    bars the first missing bar that would have opened in market hours, and nothing for a hole that lies in the weekly
    closure. *)
Theorem gaps_exact c times period g :
  (0 < period)%Z →
  g ∈ Gaps c times period ↔
  ∃ i before next, times !! i = Some before ∧ times !! S i = Some next ∧ first_open c before next period g.
Proof.
  intros Hp. unfold Gaps. destruct (Z.leb_spec period 0); [lia|].
  induction times as [|a times IH]; [cbn; split; [set_solver|by intros (? & ? & ? & ? & _)]|].
  destruct times as [|b times]; [cbn; split; [set_solver|by intros ([] & ? & ? & _ & ? & _)]|].
  cbn [gaps_loop]. rewrite elem_of_app, IH. pose proof (gap_between_spec c a b period Hp) as Hg. split.
  - intros [Hin|(i & x & y & Hx & Hy & Hf)]; [|by exists (S i), x, y].
    exists 0%nat, a, b. split; [done|]. split; [done|]. destruct (gap_between c a b period) as [g'|]; [|by apply not_elem_of_nil in Hin].
    apply list_elem_of_singleton in Hin as ->. done.
  - intros ([|i] & x & y & Hx & Hy & Hf); [left|right; by exists i, x, y].
    injection Hx as <-. injection Hy as <-. destruct Hf as (k & Hk & -> & Hlt & Ho & Hc).
    destruct (gap_between c a b period) as [g'|]; [|rewrite Hg in Ho by done; done].
    apply list_elem_of_singleton. destruct Hg as (k' & Hk' & -> & _ & Ho' & Hc').
    destruct (Z.lt_trichotomy k k') as [?|[->|?]]; [rewrite Hc' in Ho by lia|done|rewrite Hc in Ho' by lia]; done.
Qed.

(** * Examples *)

Definition demo_utc : Config := mkConfig 0 7 13 21 None.
Lemma demo_utc_ok : calendar_ok demo_utc ∧ rollover_law (rollover_of demo_utc).
Proof.
  split; [|intros d t; unfold Anchor_at, Date, wall; cbn; lia].
  assert (offsets_within UTC day_seconds) by (intros t; cbn; unfold day_seconds; lia).
  repeat split; try done; cbn; lia.
Qed.
(** Eight-hour bars over three days. *)
Definition demo_bars : list Candle :=
  imap (λ i p, mkCandle (Z.of_nat i * 28800) p (p + 1) (p - 1) (p + 0.5) 1) [10; 12; 11; 13; 9; 14; 10; 8; 12]%float.
Lemma sessions_partition_time_witness :
  ss_Active (Update demo_bars demo_utc) = NY ∧
  ∃ w, w ∈ occurrences demo_utc (last_time demo_bars) (last_time demo_bars) ∧
    (w_start w <= last_time demo_bars < w_end w)%Z ∧ ss_Active (Update demo_bars demo_utc) = w_name w.
Proof.
  split; [vm_compute; reflexivity|].
  destruct (sessions_partition_time demo_bars demo_utc 0 (proj1 demo_utc_ok) ltac:(done) ltac:(vm_compute; split; discriminate))
    as (_ & _ & w & H1 & H2 & H3 & _). by exists w.
Defined.
Lemma session_levels_final_witness :
  map (λ l, (l_Name l, l_AvailableAt l, l_SweptAt l)) (drop 6 (ss_Levels (Update demo_bars demo_utc))) =
    [("PDL", 162000, Some 201600); ("NY_H", 172800, None); ("NY_L", 172800, Some 201600); ("PDH", 162000, None);
     ("ASIA_H", 198000, Some 230400); ("ASIA_L", 198000, Some 201600); ("LONDON_H", 219600, Some 230400); ("LONDON_L", 219600, None)]%Z ∧
  Forall (level_ok demo_utc demo_bars) (ss_Levels (Update demo_bars demo_utc)).
Proof.
  split; [vm_compute; reflexivity|].
  apply (session_levels_final demo_bars demo_utc); [vm_compute; reflexivity|apply demo_utc_ok|apply demo_utc_ok].
Defined.
Lemma gaps_exact_witness :
  Gaps demo_utc [0; 60; 240; 300]%Z 60 = [120%Z] ∧ first_open demo_utc 60 240 60 120.
Proof.
  split; [vm_compute; reflexivity|].
  destruct (proj1 (gaps_exact demo_utc [0; 60; 240; 300]%Z 60 120 ltac:(lia)) ltac:(vm_compute; left)) as (i & b & n & Hb & Hn & H).
  destruct i as [|[|[|[|i]]]]; cbn in Hb, Hn; try discriminate; injection Hb as <-; injection Hn as <-; [|exact H|];
    destruct H as (k & Hk & E & Hlt & _); exfalso; lia.
Defined.
