(* ===== verification/Mad.v ===== *)
(** Package mad: the Asia range of a session day, the accumulation / manipulation / expansion phase read against it, and the
    affinity of a phase to a candidate. *)
From S2P Require Import Prelude Float64 Market GoTime.
From Stdlib Require Import Floats.

(** * mad.go: data *)

Definition Version : Z := 2.
Definition PhaseAccum : string := "accum".
Definition PhaseManip : string := "manip".
Definition PhaseExpand : string := "expand".
Definition PhaseUnclear : string := "unclear".
Record Config := mkConfig {
  AsiaStartHour : Z; LondonStartHour : Z; AccumMinimumRQ : float; AccumMaximumRQ : float; ExpandBreakATR : float;
  ExpandDisplacementATR : float; ExpandAcceptCloses : Z; ManipMinimumPenetrationATR : float; ManipMinimumReclaimATR : float;
  PipSize : float
}.
Record AsiaRangeSeal := mkSeal {
  ar_DayKey : string; ar_High : float; ar_Low : float; ar_Sealed : bool; ar_SealedAt : Z; ar_BarCount : Z; ar_Source : string;
  ar_UpdatedAt : Z
}.
Definition Width (r : AsiaRangeSeal) : float := math_Max 0 (ar_High r - ar_Low r).
Record Snapshot := mkSnapshot {
  sn_Phase : string; sn_Asia : option AsiaRangeSeal; sn_RangeQualityATR : option float; sn_PriceVsAsia : string;
  sn_SweepSide : string; sn_Reclaim : bool; sn_ReasonCode : string; sn_ManipulationDirection : string;
  sn_ExpansionDirection : string; sn_Confidence : float; sn_Measured : gmap string float; sn_Version : Z
}.
Record FeatureScores := mkFeatures { ft_Accum : float; ft_Manip : float; ft_Expand : float }.
Record AffinityScore := mkAffinity {
  af_PhaseScore : float; af_DirectionScore : float; af_StrategyScore : float; af_Confidence : float; af_Final : float
}.

(** * mad.go: measures *)

Definition clamp (v : float) : float := math_Max 0 (math_Min 1 v).
Definition max1 (v : Z) : Z := if (v <? 1)%Z then 1%Z else v.
Definition positive (v : float) : float := if (v >? 0)%float then v else 0%float.
Definition safe (a b : float) : float := if (b <=? 0)%float then 0.5%float else (a / b)%float.
Definition measured (m : gmap string float) (k : string) : float := default 0%float (m !! k).
Definition priceVsAsia (p : float) (a : AsiaRangeSeal) : string :=
  if (p >? ar_High a)%float then "above" else if (p <? ar_Low a)%float then "below" else "inside".
Definition displacementATR (c : list Candle) (atr : float) (lookback : nat) : float :=
  if (length c <? 2)%nat || (atr <=? 0)%float then 0%float
  else
    let k := if (length c <=? lookback)%nat then (length c - 1)%nat else lookback in
    (abs (c_Close (c !!! (length c - 1)%nat) - c_Close (c !!! (length c - 1 - k)%nat)) / atr)%float.
(** The closes at the end of the series that stay outside, on the side of [vs]. *)
Fixpoint accepted_loop (a : AsiaRangeSeal) (vs : string) (latest_first : list Candle) : Z :=
  match latest_first with
  | c :: rest =>
      let ok := if bool_decide (vs = "below") then (c_Close c <? ar_Low a)%float else (c_Close c >? ar_High a)%float in
      if ok then (1 + accepted_loop a vs rest)%Z else 0%Z
  | [] => 0%Z
  end.
Definition acceptedCloses (c : list Candle) (a : AsiaRangeSeal) (vs : string) : Z :=
  if negb (bool_decide (vs = "above")) && negb (bool_decide (vs = "below")) then 0%Z else accepted_loop a vs (reverse c).
Definition sweepReclaim (c : Candle) (a : AsiaRangeSeal) (tolerance : float) : string * bool :=
  let high := (c_High c >? ar_High a + tolerance)%float in
  let low := (c_Low c <? ar_Low a - tolerance)%float in
  if high && low then ("both", false)
  else if high then ("high", (c_Close c <=? ar_High a + tolerance)%float)
  else if low then ("low", (c_Close c >=? ar_Low a - tolerance)%float)
  else ("", false).
Definition manipQuality (c : Candle) (a : AsiaRangeSeal) (atr : float) (side : string) : float * float * float :=
  let r := (c_High c - c_Low c)%float in
  if bool_decide (side = "high")
  then ((c_High c - ar_High a) / atr, (ar_High a - c_Close c) / atr, safe (c_High c - c_Close c) r)%float
  else ((ar_Low a - c_Low c) / atr, (c_Close c - ar_Low a) / atr, safe (c_Close c - c_Low c) r)%float.
Definition manipConfidence (m : gmap string float) (c : Config) : float :=
  let p := clamp (measured m "sweep_penetration_atr" / math_Max 1e-9 (ManipMinimumPenetrationATR c * 4)) in
  let r := clamp (measured m "reclaim_depth_atr" / math_Max 1e-9 (ManipMinimumReclaimATR c * 4)) in
  clamp (0.45 * p + 0.35 * r + 0.20 * clamp (measured m "close_location")).
Definition expandConfidence (m : gmap string float) (c : Config) : float :=
  let b := clamp (measured m "break_distance_atr" / math_Max 1e-9 (ExpandBreakATR c * 3)) in
  let d := clamp (measured m "displacement_atr" / math_Max 1e-9 (ExpandDisplacementATR c)) in
  let a := clamp (measured m "accepted_closes" / f64_of_Z (max1 (ExpandAcceptCloses c) * 2)) in
  clamp (0.4 * b + 0.4 * d + 0.2 * a).
Definition accumConfidence (rq : float) (building : bool) (c : Config) : float :=
  let max := if building then 24%float else AccumMaximumRQ c in
  let mid := ((AccumMinimumRQ c + max) / 2)%float in
  let span := math_Max 1e-9 ((max - AccumMinimumRQ c) / 2) in
  clamp (1 - 0.5 * abs (rq - mid) / span).
Definition rqScore (rq : float) (building : bool) : float :=
  let max := if building then 24%float else 6%float in
  if (rq <? 0.8)%float then clamp (rq / 0.8 * 0.35)
  else if (rq <=? 2.5)%float then clamp (0.55 + (rq - 0.8) / 1.7 * 0.45)
  else if (rq <=? max)%float then clamp (1 - (rq - 2.5) / (max - 2.5) * 0.55)
  else 0.15%float.

(** * mad.go: the Asia range *)

(** The session day an instant belongs to, as a date number. *)
Definition asia_date (ts asiaStart londonStart : Z) : Z :=
  let day := utc_day ts in
  if (utc_hour ts <? londonStart)%Z || (utc_hour ts >=? 24)%Z then (day - 1)%Z
  else if (utc_hour ts <? asiaStart)%Z then (day - 1)%Z else day.
Definition AsiaDayKey (ts asiaStart londonStart : Z) : string :=
  format_date (utc_day (Date UTC (asia_date ts asiaStart londonStart) asiaStart)).
Definition asiaBounds (ts asiaStart londonStart : Z) : Z * Z :=
  let day := utc_day ts in
  if (utc_hour ts <? londonStart)%Z then (Date UTC (day - 1) asiaStart, Date UTC day londonStart)
  else if (utc_hour ts >=? asiaStart)%Z then (Date UTC day asiaStart, Date UTC (day + 1) londonStart)
  else (Date UTC (day - 1) asiaStart, Date UTC day londonStart).
Definition is_asia (session : string) : bool := bool_decide (session = "ASIA") || bool_decide (session = "asia").
Definition in_bounds (start end' : Z) (c : Candle) : bool := negb ((c_Time c <? start)%Z || (c_Time c >=? end')%Z).
Definition UpdateAsiaRangeSeal (candles : list Candle) (now : Z) (session : string) (cfg : Config) : option AsiaRangeSeal :=
  let '(start, end') := asiaBounds now (AsiaStartHour cfg) (LondonStartHour cfg) in
  match List.filter (in_bounds start end') candles with
  | [] => None
  | c0 :: rest =>
      let high := foldl (λ high c, if (c_High c >? high)%float then c_High c else high) (c_High c0) rest in
      let low := foldl (λ low c, if (c_Low c <? low)%float then c_Low c else low) (c_Low c0) rest in
      let sealed := negb (is_asia session) in
      Some (mkSeal (AsiaDayKey now (AsiaStartHour cfg) (LondonStartHour cfg)) high low sealed (if sealed then now else 0)
        (Z.of_nat (S (length rest))) "m5" now)
  end.

(** * mad.go: the phase *)

Definition unclear_snapshot (asia : option AsiaRangeSeal) (reason : string) : Snapshot :=
  mkSnapshot PhaseUnclear asia None "" "" false reason "" "" 0 ∅ Version.
(** [None] is the panic of indexing an empty candle list. *)
Definition Classify (candles : list Candle) (atr atrLong : float) (session structure : string) (asia : option AsiaRangeSeal)
    (now : Z) (cfg : Config) : option Snapshot :=
  match asia with
  | None => Some (unclear_snapshot None "asia_range_missing")
  | Some a =>
      if (Width a <=? 0)%float then Some (unclear_snapshot asia "asia_range_missing")
      else if (now >? 0)%Z && negb (bool_decide (ar_DayKey a = AsiaDayKey now (AsiaStartHour cfg) (LondonStartHour cfg)))
      then Some (unclear_snapshot asia "asia_range_stale_or_missing")
      else
        let atr := positive atr in
        if (atr <=? 0)%float then Some (unclear_snapshot asia "asia_range_missing")
        else
          let rq := (Width a / atr)%float in
          last ← last candles;
          let price := c_Close last in
          let vs := priceVsAsia price a in
          let m : gmap string float := {["session" := 0%float]} in
          let m := if (atrLong >? 0)%float then <["atr_short_long_ratio" := (atr / atrLong)%float]> m else m in
          let m := if bool_decide (vs = "above") then <["break_distance_atr" := ((price - ar_High a) / atr)%float]> m else m in
          let m := if bool_decide (vs = "below") then <["break_distance_atr" := ((ar_Low a - price) / atr)%float]> m else m in
          let m := <["displacement_atr" := displacementATR candles atr 5]> m in
          let m := <["accepted_closes" := f64_of_Z (acceptedCloses candles a vs)]> m in
          let '(side, reclaim) := sweepReclaim last a (math_Max (PipSize cfg) (atr * 0.05)) in
          let snapshot phase reason manip expand confidence m :=
            mkSnapshot phase asia (Some rq) vs side reclaim reason manip expand confidence m Version in
          if bool_decide (side = "both") then Some (snapshot PhaseUnclear "asia_double_sweep" "" "" 0%float m)
          else if negb (bool_decide (side = "")) && reclaim then
            let '(penetration, depth, location) := manipQuality last a atr side in
            let m := <["sweep_penetration_atr" := penetration]> (<["reclaim_depth_atr" := depth]> (<["close_location" := location]> m)) in
            Some (snapshot PhaseManip "asia_sweep_reclaim" (if bool_decide (side = "high") then "SELL" else "BUY") ""
              (manipConfidence m cfg) m)
          else
            let breakOK := (measured m "break_distance_atr" >=? ExpandBreakATR cfg)%float &&
              (measured m "accepted_closes" >=? f64_of_Z (max1 (ExpandAcceptCloses cfg)))%float in
            let displacedOK := (measured m "displacement_atr" >=? ExpandDisplacementATR cfg)%float in
            if ar_Sealed a && (bool_decide (vs = "above") || bool_decide (vs = "below")) && (breakOK || displacedOK) then
              Some (snapshot PhaseExpand (if breakOK then "asia_break_accepted" else "asia_strong_displacement") ""
                (if bool_decide (vs = "above") then "BUY" else "SELL") (expandConfidence m cfg) m)
            else
              let building := is_asia session && negb (ar_Sealed a) && bool_decide (vs = "inside") &&
                (rq >=? AccumMinimumRQ cfg)%float && (rq <=? 24)%float in
              let structureOK := bool_decide (structure = "range") || bool_decide (structure = "unknown") || bool_decide (structure = "") in
              let sealedRQOK := (rq >=? AccumMinimumRQ cfg)%float && (rq <=? AccumMaximumRQ cfg)%float in
              if (bool_decide (vs = "inside") || building) && structureOK && (sealedRQOK || building) then
                Some (snapshot PhaseAccum
                  (if building && (rq >? AccumMaximumRQ cfg)%float then "asia_building_accum" else "asia_box_accum") "" ""
                  (accumConfidence rq building cfg) m)
              else Some (snapshot PhaseUnclear "no_mad_signature" "" "" 0%float m)
  end.

(** * mad.go: affinity *)

Definition Features (s : Snapshot) : FeatureScores :=
  let accum := match sn_RangeQualityATR s with
    | Some rq => if bool_decide (sn_PriceVsAsia s = "inside") then rqScore rq (bool_decide (sn_Phase s = PhaseAccum)) else 0%float
    | None => 0%float
    end in
  let accum := if bool_decide (sn_Phase s = PhaseAccum) then math_Max accum 0.72 else accum in
  let manip := if sn_Reclaim s then 0.95%float else if bool_decide (sn_SweepSide s = "") then 0%float else 0.55%float in
  let manip := if bool_decide (sn_Phase s = PhaseManip) then math_Max manip 0.8 else manip in
  let m := sn_Measured s in
  let expand := math_Max (math_Min (measured m "break_distance_atr" / 0.35 * 0.6) 1) 0 in
  let expand := math_Max expand (math_Min (measured m "displacement_atr" / 1.25 * 0.85) 1) in
  let expand := math_Max expand (math_Min (measured m "accepted_closes" / 2 * 0.5) 1) in
  let expand := if bool_decide (sn_Phase s = PhaseExpand) then math_Max expand 0.78 else expand in
  mkFeatures accum manip expand.
Section affinity.
Context (u : Unicode).
Definition normalize (value : string) : list Z := lower_trimmed u value.
Definition StrategyKey (strategy : string) : string :=
  let key := normalize strategy in
  if bool_decide (key = runes "impulse_pullback") || bool_decide (key = runes "impulse_retrace") then "impulse_pullback_continuation"
  else if bool_decide (key = []) then "" else "structural_reaction".
Definition agrees (direction : string) (want : list Z) : bool :=
  negb (bool_decide (direction = "")) && bool_decide (normalize direction = want).
Definition one_if (b : bool) : float := if b then 1%float else 0%float.
Definition Affinity (snapshot : Snapshot) (direction strategy : string) : AffinityScore :=
  let features := Features snapshot in
  let want := normalize direction in
  let key := StrategyKey strategy in
  let '(phase, dir, strat) :=
    if bool_decide (sn_Phase snapshot = PhaseAccum) then
      (ft_Accum features, one_if (bool_decide (want = runes "BUY") || bool_decide (want = runes "SELL")), 0%float)
    else if bool_decide (sn_Phase snapshot = PhaseManip) then
      (ft_Manip features, one_if (agrees (sn_ManipulationDirection snapshot) want), one_if (bool_decide (key = "structural_reaction")))
    else if bool_decide (sn_Phase snapshot = PhaseExpand) then
      (ft_Expand features, one_if (agrees (sn_ExpansionDirection snapshot) want), one_if (bool_decide (key = "impulse_pullback_continuation")))
    else (0%float, 0%float, 0%float) in
  let confidence := clamp (sn_Confidence snapshot) in
  let phase := clamp phase in let dir := clamp dir in let strat := clamp strat in
  mkAffinity phase dir strat confidence (clamp (phase * dir * strat * confidence)).
End affinity.

(** * Lemmas *)

Lemma math_Max_le_l x y : IsNaN x = false → IsNaN (math_Max x y) = true ∨ (x <=? math_Max x y)%float = true.
Proof.
  intros Nx. destruct (IsNaN (math_Max x y)) eqn:N; [by left|right]. revert N. unfold math_Max. rewrite Nx.
  destruct ((x =? infinity)%float || (y =? infinity)%float).
  { intros _. rewrite leb_num by done. pose proof (key_range x). change (key infinity) with key_inf. lia. }
  destruct (IsNaN y) eqn:Ny; [done|]. cbn [orb]. intros _. split_ifs; bools; float_lia.
Qed.
Lemma math_Max_nan y : IsNaN y = true → IsNaN (math_Max 0 y) = true.
Proof. intros N. unfold math_Max. rewrite !eqb_key, N. cbn [negb andb orb]. by rewrite andb_false_r. Qed.
Lemma clamp_unit v : IsNaN (clamp v) = true ∨ (0 <=? clamp v)%float && (clamp v <=? 1)%float = true.
Proof.
  unfold clamp. destruct (math_Min_le_l 1 v eq_refl) as [N|H]; [left; by apply math_Max_nan|right].
  set (m := math_Min 1 v) in *. assert (IsNaN m = false) as N.
  { rewrite leb_key in H. destruct (IsNaN m); [done|done]. }
  unfold math_Max. rewrite !eqb_key, !ltb_key, N. change (IsNaN infinity) with false. change (IsNaN 0) with false. cbn [negb andb orb].
  rewrite leb_num in H by done. change (key infinity) with key_inf. rewrite key_0.
  assert (key 1 < key_inf)%Z by (vm_compute; reflexivity).
  destruct (Z.eqb_spec 0 key_inf); [vm_compute in e; discriminate|]. destruct (Z.eqb_spec (key m) key_inf); [lia|]. cbn [orb].
  rewrite Z.eqb_refl. cbn [andb]. destruct (Z.eqb_spec 0 (key m)); [change (Signbit 0) with false; by vm_compute|].
  destruct (Z.ltb_spec (key m) 0); [by vm_compute|]. rewrite !leb_num by done. rewrite key_0. lia.
Qed.
(** A zero factor leaves nothing positive. *)
Definition zeroish (x : float) : Prop := IsNaN x = true ∨ key x = 0%Z.
Lemma zeroish_SF x : zeroish x ↔ Prim2SF x = S754_nan ∨ ∃ s, Prim2SF x = S754_zero s.
Proof.
  unfold zeroish. rewrite is_nan_SF. unfold key. pose proof (Prim2SF_valid x) as V.
  destruct (Prim2SF x) as [s|s| |s m e] eqn:E; cbn [SF_key]; split; try naive_solver.
  - intros [?|H]; [done|]. destruct s; cbn in H; vm_compute in H; discriminate.
  - intros [?|H]; [done|]. cbn in V. apply SF_key_finite_bound in V. destruct s; cbn in H; lia.
Qed.
Lemma mul_zeroish x y : zeroish x → zeroish (x * y) ∧ zeroish (y * x).
Proof.
  rewrite !zeroish_SF, !mul_spec. intros [->|[s ->]]; destruct (Prim2SF y) as [t|t| |t m e]; cbn; split; first [by left | right; by eexists].
Qed.
Lemma clamp_zeroish x : zeroish x → (0 <? clamp x)%float = false.
Proof.
  intros [N|K].
  - unfold clamp, math_Min. rewrite N. rewrite !eqb_key, N. change (IsNaN 1) with false. cbn [negb andb orb].
    change (key 1 =? key neg_infinity)%Z with false. cbn [orb andb]. by vm_compute.
  - destruct (IsNaN x) eqn:N.
    { unfold clamp, math_Min. rewrite N, !eqb_key, N. change (IsNaN 1) with false. cbn [negb andb orb].
      change (key 1 =? key neg_infinity)%Z with false. cbn [orb andb]. by vm_compute. }
    assert (math_Min 1 x = x) as E.
    { unfold math_Min. rewrite N, !eqb_key, !ltb_key, N, K. change (IsNaN 1) with false. change (IsNaN neg_infinity) with false.
      cbn [negb andb orb]. change (key 1 =? key neg_infinity)%Z with false. change (0 =? key neg_infinity)%Z with false.
      change (IsNaN 0) with false. change (key 1 =? key 0)%Z with false. change (key 1 <? 0)%Z with false. done. }
    unfold clamp. rewrite E. unfold math_Max. rewrite N, !eqb_key, N, K. change (IsNaN infinity) with false. change (IsNaN 0) with false.
    cbn [negb andb orb]. change (key 0 =? key infinity)%Z with false. change (0 =? key infinity)%Z with false.
    change (key 0 =? key 0)%Z with true. change (key 0 =? 0)%Z with true. cbn [orb andb]. change (Signbit 0) with false.
    cbv iota. by vm_compute.
Qed.

(** What a reading of each phase has seen. *)
Definition phase_seen (s : Snapshot) : Prop :=
  (sn_Phase s = PhaseManip ∧ sn_Reclaim s = true ∧ sn_ExpansionDirection s = "" ∧
    (sn_SweepSide s = "high" ∧ sn_ManipulationDirection s = "SELL" ∨ sn_SweepSide s = "low" ∧ sn_ManipulationDirection s = "BUY")) ∨
  (sn_Phase s = PhaseExpand ∧ (∃ a, sn_Asia s = Some a ∧ ar_Sealed a = true) ∧ sn_ManipulationDirection s = "" ∧
    (sn_PriceVsAsia s = "above" ∧ sn_ExpansionDirection s = "BUY" ∨ sn_PriceVsAsia s = "below" ∧ sn_ExpansionDirection s = "SELL")) ∨
  (sn_Phase s = PhaseAccum ∧ sn_PriceVsAsia s = "inside" ∧ sn_ManipulationDirection s = "" ∧ sn_ExpansionDirection s = "") ∨
  (sn_Phase s = PhaseUnclear ∧ sn_Confidence s = 0%float ∧ sn_ManipulationDirection s = "" ∧ sn_ExpansionDirection s = "").
Lemma priceVsAsia_cases p a : priceVsAsia p a = "above" ∨ priceVsAsia p a = "below" ∨ priceVsAsia p a = "inside".
Proof. unfold priceVsAsia. split_ifs; auto. Qed.
Lemma classify_total candles atr atrLong session structure asia now cfg :
  candles ≠ [] ∨ asia = None → is_Some (Classify candles atr atrLong session structure asia now cfg).
Proof.
  intros H. unfold Classify. destruct asia as [a|]; [|by eexists].
  destruct (Width a <=? 0)%float; [by eexists|]. destruct (_ && negb _); [by eexists|].
  destruct (positive atr <=? 0)%float; [by eexists|]. cbv zeta.
  destruct (last candles) as [lastc|] eqn:E; [|apply last_None in E; by destruct H]. cbn [mbind option_bind].
  destruct (sweepReclaim _ _ _) as [side reclaim]. case_bool_decide; [by eexists|].
  destruct (negb _ && reclaim); [destruct (manipQuality _ _ _ _) as [[p d] l]; by eexists|].
  destruct (ar_Sealed a && _ && _); [by eexists|]. destruct (_ && _ && (_ || _)); by eexists.
Qed.
(** The phase is read off one consistent picture of the day's Asia range: manipulation only for a one-sided sweep that was
    reclaimed, against the sweep; expansion only from a sealed range, towards the side the price left it; accumulation only
    with the price inside; otherwise the phase is unclear, with no confidence and no direction. The confidence is between
    zero and one (or not a number). There is no reading only for a valid range without candles. *)
Theorem mad_phase_contract candles atr atrLong session structure asia now cfg :
  match Classify candles atr atrLong session structure asia now cfg with
  | Some s => sn_Asia s = asia ∧ phase_seen s ∧
      (IsNaN (sn_Confidence s) = true ∨ (0 <=? sn_Confidence s)%float && (sn_Confidence s <=? 1)%float = true)
  | None => candles = [] ∧ asia ≠ None
  end.
Proof.
  assert (Hu : ∀ r, sn_Asia (unclear_snapshot asia r) = asia ∧ phase_seen (unclear_snapshot asia r) ∧
    (IsNaN 0 = true ∨ (0 <=? 0)%float && (0 <=? 1)%float = true)).
  { intros r. split; [done|]. split; [right; right; right; done|right; done]. }
  unfold Classify. destruct asia as [a|]; [|apply Hu].
  destruct (Width a <=? 0)%float; [apply Hu|]. destruct (_ && negb _); [apply Hu|]. destruct (positive atr <=? 0)%float; [apply Hu|].
  cbv zeta. destruct (last candles) as [lastc|] eqn:E; [|apply last_None in E; done]. cbn [mbind option_bind].
  set (m := <["accepted_closes" := _]> _). clearbody m. set (rq := (Width a / positive atr)%float). clearbody rq.
  pose proof (priceVsAsia_cases (c_Close lastc) a) as Hvs. set (vs := priceVsAsia _ _) in *. clearbody vs.
  assert (Hs : let '(side, reclaim) := sweepReclaim lastc a (math_Max (PipSize cfg) (positive atr * 0.05)) in
    side = "both" ∧ reclaim = false ∨ side = "high" ∨ side = "low" ∨ side = "" ∧ reclaim = false) by (unfold sweepReclaim; split_ifs; auto).
  destruct (sweepReclaim _ _ _) as [side reclaim]. case_bool_decide as Eb.
  { split; [done|]. split; [right; right; right; done|right; done]. }
  destruct (negb (bool_decide (side = "")) && reclaim) eqn:Es.
  { bools. destruct (manipQuality _ _ _ _) as [[p d] l]. split; [done|]. split; [|apply clamp_unit].
    left. split; [done|]. split; [done|]. split; [done|]. cbn [sn_SweepSide sn_ManipulationDirection].
    destruct Hs as [[? _]|[-> | [-> | [? _]]]]; [done|left; done|right; done|done]. }
  destruct (ar_Sealed a && _ && _) eqn:Ee.
  { bools. split; [done|]. split; [|apply clamp_unit]. right; left. split; [done|]. split; [by exists a|]. split; [done|].
    cbn [sn_PriceVsAsia sn_ExpansionDirection]. destruct Hvs as [-> | [-> | ->]]; [left; done|right; done|done]. }
  set (building := is_asia session && _ && _ && _ && _). destruct (_ && _ && (_ || building)) eqn:Ea.
  - split; [done|]. split; [|apply clamp_unit]. right; right; left. split; [done|]. split; [|done]. cbn [sn_PriceVsAsia].
    bools. destruct (bool_decide_reflect (vs = "inside")) as [|Hne]; [done|]. unfold building in H. cbn in H.
    rewrite andb_false_r in H. done.
  - split; [done|]. split; [right; right; right; done|right; done].
Qed.

(** What a positive affinity takes: a phase with a side and a family, agreement with both. *)
Definition affine (u : Unicode) (s : Snapshot) (direction strategy : string) : Prop :=
  (sn_Phase s = PhaseManip ∧ agrees u (sn_ManipulationDirection s) (normalize u direction) = true ∧
    StrategyKey u strategy = "structural_reaction") ∨
  (sn_Phase s = PhaseExpand ∧ agrees u (sn_ExpansionDirection s) (normalize u direction) = true ∧
    StrategyKey u strategy = "impulse_pullback_continuation").
Lemma clamp_one_if b : clamp (one_if b) = one_if b.
Proof. destruct b; vm_compute; reflexivity. Qed.
Lemma zeroish_0 : zeroish 0.
Proof. right. reflexivity. Qed.
Lemma product_zeroish a b c d : zeroish b ∨ zeroish c → zeroish (a * b * c * d).
Proof.
  intros [H|H]; refine (proj1 (mul_zeroish _ _ _)).
  - refine (proj1 (mul_zeroish _ _ _)). exact (proj2 (mul_zeroish b a H)).
  - exact (proj2 (mul_zeroish c (a * b) H)).
Qed.
(** The affinity of a phase to a candidate is positive only when the manipulation or expansion goes the candidate's way
    and the candidate's family is the one that phase speaks for; an accumulation never supports a candidate, and for a
    lower-casing table its direction score is zero even for BUY and SELL, since the lower-cased direction is compared with
    upper-case names. Every score is between zero and one, or not a number. *)
Theorem mad_affinity_contract u s direction strategy :
  (∀ r, in_range 65 90 (ToLower u r) = false) →
  let a := Affinity u s direction strategy in
  ((0 <? af_Final a)%float = true → affine u s direction strategy) ∧
  (sn_Phase s = PhaseAccum → af_DirectionScore a = 0%float) ∧
  Forall (λ x, IsNaN x = true ∨ (0 <=? x)%float && (x <=? 1)%float = true)
    [af_PhaseScore a; af_DirectionScore a; af_StrategyScore a; af_Confidence a; af_Final a].
Proof.
  intros Hl a. assert (Hlow : ∀ x, normalize u direction = runes x → ∀ r, r ∈ runes x → in_range 65 90 r = false).
  { intros x <- r Hr. unfold normalize, lower_trimmed in Hr. apply list_elem_of_fmap in Hr as (r' & -> & _). apply Hl. }
  assert (Hno : bool_decide (normalize u direction = runes "BUY") || bool_decide (normalize u direction = runes "SELL") = false).
  { apply orb_false_iff. split; apply bool_decide_eq_false; intros E.
    - specialize (Hlow "BUY" E 66%Z ltac:(left)). done.
    - specialize (Hlow "SELL" E 83%Z ltac:(left)). done. }
  subst a. unfold Affinity. rewrite Hno.
  destruct (bool_decide_reflect (sn_Phase s = PhaseAccum)) as [Ea|Ea]; [|destruct (bool_decide_reflect (sn_Phase s = PhaseManip)) as [Em|Em];
    [|destruct (bool_decide_reflect (sn_Phase s = PhaseExpand)) as [Ee|Ee]]]; cbv zeta; cbn [af_PhaseScore af_DirectionScore af_StrategyScore af_Confidence af_Final].
  all: (split; [|split; [|do 5 (apply Forall_cons_2; [apply clamp_unit|]); constructor]]).
  - rewrite clamp_zeroish; [done|]. apply product_zeroish. left. right. by vm_compute.
  - intros _. vm_compute. reflexivity.
  - rewrite !clamp_one_if. intros Hf. left. split; [done|].
    destruct (agrees _ _ _) eqn:E1; [|rewrite clamp_zeroish in Hf; [done|apply product_zeroish; left; apply zeroish_0]].
    split; [done|]. destruct (bool_decide_reflect (StrategyKey u strategy = "structural_reaction")); [done|].
    rewrite clamp_zeroish in Hf; [done|apply product_zeroish; right; apply zeroish_0].
  - intros ?. congruence.
  - rewrite !clamp_one_if. intros Hf. right. split; [done|].
    destruct (agrees _ _ _) eqn:E1; [|rewrite clamp_zeroish in Hf; [done|apply product_zeroish; left; apply zeroish_0]].
    split; [done|]. destruct (bool_decide_reflect (StrategyKey u strategy = "impulse_pullback_continuation")); [done|].
    rewrite clamp_zeroish in Hf; [done|apply product_zeroish; right; apply zeroish_0].
  - intros ?. congruence.
  - rewrite clamp_zeroish; [done|]. apply product_zeroish. left. right. by vm_compute.
  - done.
Qed.

(** The day key names the Asia window: for the configured hours, two instants have the same key exactly when their
    session day starts at the same instant, which is the start of the window the range is read from. *)
Theorem asia_day_key asiaStart londonStart t t' :
  common_era (utc_day (asiaBounds t asiaStart londonStart).1) → common_era (utc_day (asiaBounds t' asiaStart londonStart).1) →
  AsiaDayKey t asiaStart londonStart = AsiaDayKey t' asiaStart londonStart ↔
  (asiaBounds t asiaStart londonStart).1 = (asiaBounds t' asiaStart londonStart).1.
Proof.
  assert (H : ∀ x, (asiaBounds x asiaStart londonStart).1 = Date UTC (asia_date x asiaStart londonStart) asiaStart).
  { intros x. unfold asiaBounds, asia_date. pose proof (utc_hour_bounds x).
    destruct (Z.geb_spec (utc_hour x) 24); [lia|]. rewrite orb_false_r.
    destruct (Z.ltb_spec (utc_hour x) londonStart); [done|].
    destruct (Z.geb_spec (utc_hour x) asiaStart), (Z.ltb_spec (utc_hour x) asiaStart); try lia; done. }
  rewrite !H. intros Ht Ht'. unfold AsiaDayKey. split.
  - intros E%format_date_inj; [|done..]. unfold Date in *. cbn [is_UTC UTC] in *. unfold utc_day, day_seconds in *.
    set (d := asia_date t asiaStart londonStart) in *. set (d' := asia_date t' asiaStart londonStart) in *.
    rewrite !(Z.add_comm (_ * 86400)), !Z.div_add in E by lia. lia.
  - by intros ->.
Qed.

(** * Examples *)

Definition demo_mad : Config := mkConfig 22 7 0.8 6 0.35 1.25 2 0.05 0.05 0.1.
(** Half-hour bars of one night and the morning after it, ranging between 99 and 101 and swept at 08:30. *)
Definition demo_night : list Candle :=
  map (λ i, mkCandle (79200 + i * 1800) 100 101 99 100 1) (seqZ 0 18) ++ [mkCandle 117000 100 102 99.5 100.5 1].
Definition demo_asia : option AsiaRangeSeal := UpdateAsiaRangeSeal demo_night 117000 "LONDON" demo_mad.
Definition demo_reading : option Snapshot := Classify demo_night 1 0 "LONDON" "range" demo_asia 117000 demo_mad.
Example demo_phase : (λ s, (sn_Phase s, sn_ManipulationDirection s, ar_DayKey <$> sn_Asia s)) <$> demo_reading =
  Some (PhaseManip, "SELL", Some "1970-01-01").
Proof. vm_compute. reflexivity. Qed.
Lemma mad_affinity_contract_witness :
  ∃ s, demo_reading = Some s ∧ affine ascii_unicode s "SELL" "key_level".
Proof.
  destruct demo_reading as [s|] eqn:E; [|by vm_compute in E]. exists s. split; [done|].
  apply (mad_affinity_contract ascii_unicode s "SELL" "key_level").
  - intros r. cbn. unfold in_range. destruct (Z.leb_spec 65 r), (Z.leb_spec r 90); cbn [andb]; lia.
  - assert ((λ s, (0 <? af_Final (Affinity ascii_unicode s "SELL" "key_level"))%float) <$> demo_reading = Some true) as H by (vm_compute; reflexivity).
    rewrite E in H. by injection H.
Defined.
Lemma asia_day_key_witness : AsiaDayKey 117000 22 7 = AsiaDayKey 80000 22 7 ∧ (asiaBounds 117000 22 7).1 = (asiaBounds 80000 22 7).1.
Proof.
  split; [vm_compute; reflexivity|]. apply (asia_day_key 22 7 117000 80000); [vm_compute; split; [discriminate|reflexivity]..|].
  vm_compute. reflexivity.
Defined.
