(* ===== verification/Confluence.v ===== *)
(** Package confluence: the versioned star score of a candidate's technical facts. *)
From S2P Require Import Prelude Float64.
From Stdlib Require Import Floats.

(** * score.go *)

Definition factorHTFWeight : float := 4.
Definition factorTouchWeight : float := 1.
Definition factorTouchCap : Z := 3.
Definition factorWickWeight : float := 3.
Definition factorDisplacementWeight : float := 3.
Definition factorSessionWeight : float := 2.
Definition factorStructureWeight : float := 3.
Definition factorCHoCHWeight : float := 2.
Definition factorFibWeight : float := 2.5.
(** The sum of the weights, as the constant expression lists them. *)
Definition factorScoreMax : float := 20.5.
Definition zoneScoreMax : float := 24.5.
Record Config := mkConfig {
  ScoringVersion : string; StarThreeRatio : float; StarTwoRatio : float; ZoneQualityWeight : float; MADScoreWeight : float;
  FibonacciWeight : float
}.
Definition DefaultConfig : Config := mkConfig "v1" 0.585 0.390 4.0 2.0 factorFibWeight.
Definition normalizeConfig (cfg : Config) : Config :=
  if bool_decide (ScoringVersion cfg = "") && (StarThreeRatio cfg =? 0)%float && (StarTwoRatio cfg =? 0)%float &&
     (ZoneQualityWeight cfg =? 0)%float && (MADScoreWeight cfg =? 0)%float && (FibonacciWeight cfg =? 0)%float
  then DefaultConfig else cfg.
Record Factors := mkFactors {
  f_HTFAligned : bool; f_Touches : Z; f_WickRejection : bool; f_DisplacementGrade : bool; f_SessionContext : bool;
  f_StructuralAgreement : bool; f_FibTouch : bool; f_CHoCH : bool
}.
Record ZoneQuality := mkZoneQuality { zq_Score : float; zq_Touches : Z }.
Record Score := mkScore {
  sc_Version : string; sc_SelectedStars : Z; sc_V1Stars : Z; sc_V2Stars : Z; sc_V2Raw : float; sc_RawFactorScore : float;
  sc_ZoneQualityScore : float; sc_MADBonus : float; sc_Factors : Factors
}.
Definition plus_if (b : bool) (weight score : float) : float := if b then (score + weight)%float else score.
Definition capped_touches (touches : Z) : Z :=
  let touches := if (touches <? 0)%Z then 0%Z else touches in if (touches >? factorTouchCap)%Z then factorTouchCap else touches.
Definition rawFactorScore (f : Factors) (fibWeight : float) : float :=
  let score := plus_if (f_HTFAligned f) factorHTFWeight 0 in
  let score := (score + f64_of_Z (capped_touches (f_Touches f)) * factorTouchWeight)%float in
  let score := plus_if (f_WickRejection f) factorWickWeight score in
  let score := plus_if (f_DisplacementGrade f) factorDisplacementWeight score in
  let score := plus_if (f_SessionContext f) factorSessionWeight score in
  let score := plus_if (f_StructuralAgreement f) factorStructureWeight score in
  let score := plus_if (f_CHoCH f) factorCHoCHWeight score in
  plus_if (f_FibTouch f) (math_Max 0 fibWeight) score.
Definition starsFromRatio (ratio two three : float) : Z :=
  if (ratio >=? three)%float then 3 else if (ratio >=? two)%float then 2 else 1.
Definition Evaluate (zone : ZoneQuality) (factors : Factors) (cfg : Config) (madBonus : float) : Score :=
  let cfg := normalizeConfig cfg in
  let raw := rawFactorScore factors (FibonacciWeight cfg) in
  let v1 :=
    if (zq_Score zone >? 0)%float then
      let zoneScore := plus_if (f_FibTouch factors) (FibonacciWeight cfg) (zq_Score zone) in
      starsFromRatio (zoneScore / zoneScoreMax) (8 / 20.5) (12 / 20.5)
    else starsFromRatio (raw / factorScoreMax) (8 / 20.5) (12 / 20.5) in
  let v1 := if (zq_Touches zone >? 0)%Z && (v1 >? 2)%Z then 2%Z else v1 in
  let v1 := if (v1 <? 1)%Z then 1%Z else v1 in
  let zoneQuality := (ZoneQualityWeight cfg * math_Min 1 (math_Max 0 (zq_Score zone) / zoneScoreMax))%float in
  let bonus := math_Max 0 madBonus in
  let v2Raw := (raw + zoneQuality + bonus * MADScoreWeight cfg)%float in
  let v2Max := (factorScoreMax + ZoneQualityWeight cfg + MADScoreWeight cfg)%float in
  let v2 := starsFromRatio (v2Raw / v2Max) (StarTwoRatio cfg) (StarThreeRatio cfg) in
  mkScore (ScoringVersion cfg) (if bool_decide (ScoringVersion cfg = "v2") then v2 else v1) v1 v2 v2Raw raw zoneQuality bonus factors.

(** * Lemmas *)

Lemma starsFromRatio_range r two three : (1 <= starsFromRatio r two three <= 3)%Z.
Proof. unfold starsFromRatio. split_ifs; lia. Qed.

(** The factors as a scan over every combination of facts with at most three touches. *)
Definition both : list bool := [false; true].
Definition all_factors : list Factors :=
  h ← both; t ← [0; 1; 2; 3]%Z; w ← both; d ← both; s ← both; a ← both; fib ← both; c ← both;
  [mkFactors h t w d s a fib c].
Definition capped (f : Factors) : Factors :=
  mkFactors (f_HTFAligned f) (capped_touches (f_Touches f)) (f_WickRejection f) (f_DisplacementGrade f) (f_SessionContext f)
    (f_StructuralAgreement f) (f_FibTouch f) (f_CHoCH f).
Lemma capped_range t : (0 <= capped_touches t <= 3)%Z.
Proof. unfold capped_touches, factorTouchCap. destruct (Z.ltb_spec t 0); [done|]. destruct (Z.gtb_spec t 3); lia. Qed.
Lemma capped_idem t : capped_touches (capped_touches t) = capped_touches t.
Proof. pose proof (capped_range t). unfold capped_touches at 1, factorTouchCap. destruct (Z.ltb_spec (capped_touches t) 0); [lia|]. destruct (Z.gtb_spec (capped_touches t) 3); lia. Qed.
Lemma rawFactorScore_capped f w : rawFactorScore (capped f) w = rawFactorScore f w.
Proof. unfold rawFactorScore, capped. cbn [f_HTFAligned f_Touches f_WickRejection f_DisplacementGrade f_SessionContext f_StructuralAgreement f_FibTouch f_CHoCH]. by rewrite capped_idem. Qed.
Lemma capped_in_all f : capped f ∈ all_factors.
Proof.
  pose proof (capped_range (f_Touches f)). unfold capped. set (t := capped_touches _) in *. clearbody t.
  assert (t ∈ [0; 1; 2; 3]%Z) as Ht by (rewrite !elem_of_cons; lia).
  assert (∀ b, b ∈ both) as Hb by (intros []; unfold both; set_solver).
  unfold all_factors. repeat (apply list_elem_of_bind; eexists; split; [|first [apply Hb|exact Ht]]). by apply list_elem_of_singleton.
Qed.

(** Twice the score of the facts, in integers. *)
Definition b2z (b : bool) : Z := if b then 1 else 0.
Definition points (f : Factors) : Z :=
  2 * (4 * b2z (f_HTFAligned f) + capped_touches (f_Touches f) + 3 * b2z (f_WickRejection f) + 3 * b2z (f_DisplacementGrade f) +
       2 * b2z (f_SessionContext f) + 3 * b2z (f_StructuralAgreement f) + 2 * b2z (f_CHoCH f)) + 5 * b2z (f_FibTouch f).
Definition point_stars (p : Z) : Z := if (24 <=? p)%Z then 3 else if (16 <=? p)%Z then 2 else 1.
Definition factors_agree (f : Factors) : bool :=
  let raw := rawFactorScore f factorFibWeight in
  (raw * 2 =? f64_of_Z (points f))%float && (starsFromRatio (raw / factorScoreMax) (8 / 20.5) (12 / 20.5) =? point_stars (points f))%Z.
Lemma all_factors_agree : forallb factors_agree all_factors = true.
Proof. vm_compute. reflexivity. Qed.
Lemma factors_agree_all f : factors_agree f = true.
Proof.
  pose proof all_factors_agree as H. rewrite forallb_forall in H. specialize (H (capped f)).
  rewrite <- list_elem_of_In in H. specialize (H (capped_in_all f)). unfold factors_agree in *. rewrite rawFactorScore_capped in H.
  assert (points (capped f) = points f) as E by (unfold points, capped; cbn -[Z.mul Z.add]; by rewrite capped_idem). by rewrite E in H.
Qed.

Lemma evaluate_stars zone factors cfg bonus :
  let s := Evaluate zone factors cfg bonus in
  (1 <= sc_SelectedStars s <= 3)%Z ∧ (1 <= sc_V1Stars s <= 3)%Z ∧ (1 <= sc_V2Stars s <= 3)%Z ∧
  ((0 < zq_Touches zone)%Z → (sc_V1Stars s <= 2)%Z) ∧ sc_Factors s = factors.
Proof.
  cbv zeta. unfold Evaluate. set (c := normalizeConfig cfg). clearbody c.
  cbn [sc_V1Stars sc_V2Stars sc_SelectedStars sc_Factors].
  set (v2 := starsFromRatio _ (StarTwoRatio c) (StarThreeRatio c)). pose proof (starsFromRatio_range _ _ _ : (1 <= v2 <= 3)%Z) as H2. clearbody v2.
  set (v1 := if (0 <? zq_Score zone)%float then _ else _).
  assert (1 <= v1 <= 3)%Z as H1 by (unfold v1; destruct (_ <? _)%float; apply starsFromRatio_range). clearbody v1.
  destruct (Z.gtb_spec (zq_Touches zone) 0), (Z.gtb_spec v1 2); cbn [andb];
    repeat match goal with |- context [(?a <? 1)%Z] => destruct (Z.ltb_spec a 1); try lia end; case_bool_decide; split_and!; done || lia.
Qed.

(** The stars of a candidate: both versions give one to three stars and the configured one is selected; a touched zone never
    has more than two V1 stars; and without a zone score, with the catalogue fibonacci weight, the V1 stars are those of the
    plain sum of the facts' points (touches capped at three): two stars from eight points on, three from twelve. *)
Theorem confluence_stars_reference zone factors cfg bonus :
  let s := Evaluate zone factors cfg bonus in
  let cfg := normalizeConfig cfg in
  (1 <= sc_V1Stars s <= 3)%Z ∧ (1 <= sc_V2Stars s <= 3)%Z ∧
  sc_SelectedStars s = (if bool_decide (ScoringVersion cfg = "v2") then sc_V2Stars s else sc_V1Stars s) ∧
  ((0 < zq_Touches zone)%Z → (sc_V1Stars s <= 2)%Z) ∧
  (FibonacciWeight cfg = factorFibWeight → (zq_Score zone >? 0)%float = false →
    (sc_RawFactorScore s * 2 =? f64_of_Z (points factors))%float = true ∧
    sc_V1Stars s = if (zq_Touches zone >? 0)%Z then Z.min 2 (point_stars (points factors)) else point_stars (points factors)).
Proof.
  cbv zeta. unfold Evaluate. set (c := normalizeConfig cfg). clearbody c.
  cbn [sc_V1Stars sc_V2Stars sc_SelectedStars sc_RawFactorScore].
  set (v2 := starsFromRatio _ (StarTwoRatio c) (StarThreeRatio c)). pose proof (starsFromRatio_range _ _ _ : (1 <= v2 <= 3)%Z) as H2. clearbody v2.
  set (v1 := if (0 <? zq_Score zone)%float then _ else _).
  assert (1 <= v1 <= 3)%Z as H1 by (unfold v1; destruct (_ <? _)%float; apply starsFromRatio_range).
  assert (FibonacciWeight c = factorFibWeight → (0 <? zq_Score zone)%float = false →
    (rawFactorScore factors (FibonacciWeight c) * 2 =? f64_of_Z (points factors))%float = true ∧ v1 = point_stars (points factors)) as Hp.
  { intros Hf Hz. unfold v1. rewrite Hz, Hf. pose proof (factors_agree_all factors) as Ha. unfold factors_agree in Ha.
    apply andb_prop in Ha as [Ha Hb]. split; [done|]. by apply Z.eqb_eq in Hb. }
  clearbody v1. set (raw := rawFactorScore _ _) in *. clearbody raw.
  destruct (Z.gtb_spec (zq_Touches zone) 0), (Z.gtb_spec v1 2); cbn [andb];
    repeat match goal with |- context [(?a <? 1)%Z] => destruct (Z.ltb_spec a 1); try lia end;
    (split; [lia|]; split; [lia|]; split; [done|]; split; [intros; lia|]; intros Hf Hz; destruct (Hp Hf Hz) as [Hr Hv]; split; [done|lia]).
Qed.
Example demo_stars : sc_V1Stars (Evaluate (mkZoneQuality 0 0) (mkFactors true 1 true false false false true false) DefaultConfig 0) = 2%Z ∧
  sc_V1Stars (Evaluate (mkZoneQuality 0 0) (mkFactors true 1 true false false true true false) DefaultConfig 0) = 3%Z.
Proof. vm_compute. auto. Qed.
