(* ===== verification/Momentum.v ===== *)
(** Package momentum: the state of price momentum, from the velocity of the closes measured in ATR. *)
From S2P Require Import Prelude Float64 Market Indicator.
From Stdlib Require Import Floats.

(** * momentum.go *)

Inductive MomentumState := Neutral | Bull | Bear.
Record MomentumConfig := mkMomentumConfig { mo_Lookback : Z; mo_BullThreshold : float; mo_BearThreshold : float }.
Record MomentumResult := mkMomentumResult {
  mr_State : MomentumState; mr_Velocity : float; mr_Acceleration : float; mr_Lookback : Z
}.
Definition velocityAt (candles : list Candle) (atr : list float) (index n : Z) : float :=
  if (index <? n)%Z || (index <? 0)%Z || (Z.of_nat (length candles) <=? index)%Z then 0%float
  else
    let atrValue := AtrAt atr index 0 in
    if (atrValue <=? 0)%float then 0%float
    else
      let delta := (c_Close (candles !!! Z.to_nat index) - c_Close (candles !!! Z.to_nat (index - n)))%float in
      if IsNaN delta || IsInf delta then 0%float else (delta / (f64_of_Z n * atrValue))%float.
(** A nil ATR series is [None]. *)
Definition Classify (candles : list Candle) (atr : option (list float)) (cfg : MomentumConfig) : MomentumResult :=
  let n := if (mo_Lookback cfg <? 1)%Z then 1%Z else mo_Lookback cfg in
  if length candles <? 2 then mkMomentumResult Neutral 0 0 n
  else
    let atr := match atr with None => SimpleATR candles 14 | Some atr => atr end in
    let idx := (Z.of_nat (length candles) - 1)%Z in
    let v := velocityAt candles atr idx n in
    let prev := (idx - n)%Z in
    let a := if (n <=? prev)%Z then ((v - velocityAt candles atr prev n) / f64_of_Z n)%float else 0%float in
    let state := if (v >=? mo_BullThreshold cfg)%float then Bull
                 else if (v <=? mo_BearThreshold cfg)%float then Bear else Neutral in
    mkMomentumResult state v a n.

(** * Lemmas *)

