(* ===== verification/Reaction.v ===== *)
(** Package reaction: whether the latest bars show a confirmed reaction off a price band, a touch followed by a
    recognised rejection pattern. *)
From S2P Require Import Prelude Float64 Market.
From Stdlib Require Import Floats.

(** * reaction.go *)

Definition TypeWickRejection : string := "wick_rejection".
Definition TypeSweepReclaim : string := "sweep_reclaim".
Definition TypeRejectionCHoCH : string := "rejection_choch".
Definition TypeStrongReclaim : string := "strong_reclaim".
Definition TypeEngulfing : string := "engulfing".
Definition epsilon : float := 1e-12.

Record Grab := mkGrab { gr_Index : Z; gr_Grade : string }.
Record Params := mkParams {
  p_Direction : string; p_Low : float; p_High : float; p_TouchLookback : Z; p_ConfirmLookback : Z; p_Grabs : list Grab;
  p_HasCHoCH : bool; p_ATR : float; p_EngulfingMinimumRangeATR : float; p_MinIndex : Z
}.
Record Confirmation := mkConfirmation { cf_Type : string; cf_TouchIndex : nat; cf_ConfirmationIndex : nat }.

Definition fabs (v : float) : float := if (v <? 0)%float then (- v)%float else v.
Definition maxFloat (a b : float) : float := if (a >? b)%float then a else b.
Definition minFloat (a b : float) : float := if (a <? b)%float then a else b.

Definition bandTouched (c : Candle) (low high : float) : bool :=
  (c_Low c <=? high + epsilon)%float && (c_High c >=? low - epsilon)%float.
Definition wickRejection (c : Candle) (direction : string) : bool :=
  let rng := (c_High c - c_Low c)%float in
  if (rng <=? 0)%float then false
  else
    let body := fabs (c_Close c - c_Open c) in
    let upper := (c_High c - maxFloat (c_Open c) (c_Close c))%float in
    let lower := (minFloat (c_Open c) (c_Close c) - c_Low c)%float in
    let lowerThird := (c_Low c + rng / 3)%float in
    let upperThird := (c_High c - rng / 3)%float in
    if bool_decide (direction = "SELL")
    then (upper >=? body)%float && (c_Close c <? c_Open c)%float && (c_Close c <=? lowerThird)%float
    else (lower >=? body)%float && (c_Close c >? c_Open c)%float && (c_Close c >=? upperThird)%float.
Definition WickRejection (c : Candle) (direction : string) : bool := wickRejection c direction.
Definition strongReclaim (c : Candle) (direction : string) (low high : float) : bool :=
  if bool_decide (direction = "BUY")
  then (c_Low c <? low - epsilon)%float && ((c_Close c >=? low - epsilon)%float && (c_Close c >? c_Open c)%float)
  else (c_High c >? high + epsilon)%float && ((c_Close c <=? high + epsilon)%float && (c_Close c <? c_Open c)%float).
Definition engulfing (c prior : Candle) (direction : string) (atr minimumRangeATR : float) : bool :=
  let bodyLow := minFloat (c_Open c) (c_Close c) in let bodyHigh := maxFloat (c_Open c) (c_Close c) in
  let priorBodyLow := minFloat (c_Open prior) (c_Close prior) in let priorBodyHigh := maxFloat (c_Open prior) (c_Close prior) in
  if (bodyLow >? priorBodyLow)%float || (bodyHigh <? priorBodyHigh)%float then false
  else
    let priorRange := maxFloat (c_High prior - c_Low prior) epsilon in
    let priorBodyFraction := (fabs (c_Close prior - c_Open prior) / priorRange)%float in
    let priorBullish := (c_Close prior >? c_Open prior + epsilon)%float in
    let priorBearish := (c_Close prior <? c_Open prior - epsilon)%float in
    let priorOpposite := (priorBodyFraction <? 0.1)%float || (bool_decide (direction = "BUY") && priorBearish) ||
      (bool_decide (direction = "SELL") && priorBullish) in
    if negb priorOpposite then false
    else if (atr >? 0)%float && (c_High c - c_Low c <? maxFloat 0 minimumRangeATR * atr)%float then false
    else if bool_decide (direction = "BUY") then (c_Close c >? c_Open c)%float
    else (c_Close c <? c_Open c)%float.

(** The searched windows: a lookback below one is one, and the confirmation window defaults to the touch window. *)
Definition touch_lookback (p : Params) : Z := if (p_TouchLookback p <? 1)%Z then 1%Z else p_TouchLookback p.
Definition confirm_lookback (p : Params) : Z := if (p_ConfirmLookback p >? 0)%Z then p_ConfirmLookback p else touch_lookback p.
Definition earliest (last lookback : Z) (p : Params) : Z := Z.max (Z.max 0 (p_MinIndex p)) (last - lookback + 1).
(** The grade of each bar with a grab: the last grab given for a bar counts. *)
Definition grabGrade (grabs : list Grab) (confirmEarliest last : Z) : gmap Z string :=
  foldl (λ m g, if (confirmEarliest <=? gr_Index g)%Z && (gr_Index g <=? last)%Z then <[gr_Index g := gr_Grade g]> m else m) ∅ grabs.
(** The pattern of a bar, the switch of the loop; the empty string when it has none. *)
Definition pattern (candles : list Candle) (p : Params) (grades : gmap Z string) (ci : nat) : string :=
  let bar := candles !!! ci in
  let grade := default "" (grades !! Z.of_nat ci) in
  if bool_decide (grade = "A") || bool_decide (grade = "B") then TypeSweepReclaim
  else if wickRejection bar (p_Direction p) && p_HasCHoCH p then TypeRejectionCHoCH
  else if strongReclaim bar (p_Direction p) (p_Low p) (p_High p) then TypeStrongReclaim
  else if wickRejection bar (p_Direction p) then TypeWickRejection
  else if (0 <? ci)%nat && engulfing bar (candles !!! (ci - 1)%nat) (p_Direction p) (p_ATR p) (p_EngulfingMinimumRangeATR p)
  then TypeEngulfing
  else "".
(** The loop from the latest bar down. *)
Fixpoint confirm_loop (candles : list Candle) (p : Params) (grades : gmap Z string) (touches : list nat) (bars : list nat) : option Confirmation :=
  match bars with
  | [] => None
  | ci :: bars =>
      match last (List.filter (λ ti, ti <=? ci)%nat touches) with
      | None => confirm_loop candles p grades touches bars
      | Some touchIndex =>
          let confirmation := pattern candles p grades ci in
          if bool_decide (confirmation = "") then confirm_loop candles p grades touches bars
          else Some (mkConfirmation confirmation touchIndex ci)
      end
  end.
(** The bars of a window that starts at [from]. *)
Definition window (from : Z) (n : nat) : list nat := seq (Z.to_nat from) (n - Z.to_nat from).
(** [None] is the panic of [make] with a negative capacity, when the structure is only touchable after the next bar. *)
Definition Evaluate (candles : list Candle) (p : Params) : option (option Confirmation) :=
  let n := length candles in
  if (n =? 0)%nat then Some None
  else
    let last := (Z.of_nat n - 1)%Z in
    let touchEarliest := earliest last (touch_lookback p) p in
    let confirmEarliest := earliest last (confirm_lookback p) p in
    if (last - touchEarliest + 1 <? 0)%Z then None
    else
      let touches := List.filter (λ i, bandTouched (candles !!! i) (p_Low p) (p_High p)) (window touchEarliest n) in
      Some (if (length touches =? 0)%nat then None
            else confirm_loop candles p (grabGrade (p_Grabs p) confirmEarliest last) touches (reverse (window confirmEarliest n))).

(** * Lemmas *)

(** [latest t] is the last touch not after the bar. *)
Definition latest_touch (touched : nat → Prop) (t ci : nat) : Prop := touched t ∧ t ≤ ci ∧ ∀ t', touched t' → t' ≤ ci → t' ≤ t.
Definition in_window (from : Z) (n i : nat) : Prop := (from <= Z.of_nat i)%Z ∧ i < n.
Lemma elem_of_window from n i : (0 <= from)%Z → i ∈ window from n ↔ in_window from n i.
Proof. intros. unfold window, in_window. rewrite elem_of_seq. lia. Qed.

(** The bar confirms: a touch before it or on it, and a pattern. *)
Record confirms (candles : list Candle) (p : Params) (c : Confirmation) : Prop := {
  co_window : in_window (earliest (Z.of_nat (length candles) - 1) (confirm_lookback p) p) (length candles) (cf_ConfirmationIndex c);
  co_touch : latest_touch (λ i, in_window (earliest (Z.of_nat (length candles) - 1) (touch_lookback p) p) (length candles) i ∧
    bandTouched (candles !!! i) (p_Low p) (p_High p) = true) (cf_TouchIndex c) (cf_ConfirmationIndex c);
  co_pattern : cf_Type c = pattern candles p (grabGrade (p_Grabs p)
    (earliest (Z.of_nat (length candles) - 1) (confirm_lookback p) p) (Z.of_nat (length candles) - 1)) (cf_ConfirmationIndex c);
  co_type : cf_Type c ≠ "";
}.

Lemma last_touch touches ci t :
  StronglySorted lt touches →
  last (List.filter (λ ti, ti <=? ci) touches) = Some t ↔ latest_touch (λ i, i ∈ touches) t ci.
Proof.
  intros Hs. assert (Hin : ∀ x, x ∈ List.filter (λ ti, ti <=? ci) touches ↔ x ∈ touches ∧ x ≤ ci).
  { intros x. by rewrite !list_elem_of_In, filter_In, Nat.leb_le. }
  assert (Hsf : StronglySorted lt (List.filter (λ ti, ti <=? ci) touches)).
  { clear Hin. induction Hs as [|x l Hs IH Hf]; cbn; [constructor|]. destruct (x <=? ci); [|done]. constructor; [done|].
    rewrite Forall_forall in *. intros y [Hy _]%list_elem_of_In%filter_In. apply Hf. by apply list_elem_of_In. }
  assert (Hl : ∀ x, last (List.filter (λ ti, ti <=? ci) touches) = Some x → ∀ y, y ∈ List.filter (λ ti, ti <=? ci) touches → y ≤ x).
  { revert Hsf. generalize (List.filter (λ ti, ti <=? ci) touches). intros l Hsf x Hx y Hy.
    apply last_Some in Hx as [l' ->]. apply elem_of_app in Hy as [Hy|Hy%list_elem_of_singleton]; [|lia].
    apply StronglySorted_app in Hsf as (Hc & _ & _). specialize (Hc y x Hy ltac:(set_solver)). lia. }
  split.
  - intros E. pose proof (Hl t E) as Hm. apply last_Some_elem_of in E. apply Hin in E as [? ?]. split_and!; [done|done|].
    intros t' ? ?. apply Hm, Hin. done.
  - intros (Ht & Hle & Hm). destruct (last _) as [t'|] eqn:E.
    + pose proof (Hl t' eq_refl t (proj2 (Hin t) (conj Ht Hle))). apply last_Some_elem_of, Hin in E as [H1 H2].
      specialize (Hm t' H1 H2). f_equal. lia.
    + apply last_None in E. pose proof (proj2 (Hin t) (conj Ht Hle)) as H. rewrite E in H. by apply not_elem_of_nil in H.
Qed.

(** The loop over bars in descending order finds the first that has a touch and a pattern. *)
Lemma confirm_loop_spec candles p grades touches bars :
  StronglySorted lt touches → StronglySorted gt bars →
  match confirm_loop candles p grades touches bars with
  | Some c => cf_ConfirmationIndex c ∈ bars ∧ latest_touch (λ i, i ∈ touches) (cf_TouchIndex c) (cf_ConfirmationIndex c) ∧
      cf_Type c = pattern candles p grades (cf_ConfirmationIndex c) ∧ cf_Type c ≠ "" ∧
      ∀ ci t, ci ∈ bars → latest_touch (λ i, i ∈ touches) t ci → pattern candles p grades ci ≠ "" → ci ≤ cf_ConfirmationIndex c
  | None => ∀ ci t, ci ∈ bars → latest_touch (λ i, i ∈ touches) t ci → pattern candles p grades ci = ""
  end.
Proof.
  intros Hs Hb. induction Hb as [|ci bars Hb IH Hf]; cbn [confirm_loop]; [by intros ci t ?%not_elem_of_nil|].
  assert (Hskip : (∀ t, latest_touch (λ i, i ∈ touches) t ci → pattern candles p grades ci = "") →
    match confirm_loop candles p grades touches bars with
    | Some c => cf_ConfirmationIndex c ∈ ci :: bars ∧ latest_touch (λ i, i ∈ touches) (cf_TouchIndex c) (cf_ConfirmationIndex c) ∧
        cf_Type c = pattern candles p grades (cf_ConfirmationIndex c) ∧ cf_Type c ≠ "" ∧
        ∀ ci' t, ci' ∈ ci :: bars → latest_touch (λ i, i ∈ touches) t ci' → pattern candles p grades ci' ≠ "" → ci' ≤ cf_ConfirmationIndex c
    | None => ∀ ci' t, ci' ∈ ci :: bars → latest_touch (λ i, i ∈ touches) t ci' → pattern candles p grades ci' = ""
    end).
  { intros Hno. destruct (confirm_loop _ _ _ _ _) as [c|].
    - destruct IH as (? & ? & ? & ? & Hm). split_and!; [by right|done..|]. intros ci' t [->|Hi]%elem_of_cons; [|by eauto].
      intros Ht Hp. by rewrite (Hno t Ht) in Hp.
    - intros ci' t [->|Hi]%elem_of_cons; eauto. }
  destruct (last (List.filter _ touches)) as [t|] eqn:El.
  2:{ apply Hskip. intros t Ht. apply (last_touch touches ci t Hs) in Ht. congruence. }
  case_bool_decide as Ep; [by apply Hskip|]. apply (last_touch touches ci t Hs) in El. cbn.
  split_and!; [by left|done|done|done|]. intros ci' t' [->|Hi]%elem_of_cons _ _; [done|].
  rewrite Forall_forall in Hf. specialize (Hf ci' Hi). lia.
Qed.

Lemma seq_sorted from n : StronglySorted lt (seq from n).
Proof.
  revert from. induction n as [|n IH]; intros from; cbn; constructor; [apply IH|]. apply Forall_forall. intros x ?%elem_of_seq. lia.
Qed.
Lemma reverse_sorted l : StronglySorted lt l → StronglySorted gt (reverse l).
Proof.
  induction 1 as [|x l Hs IH Hf]; [constructor|]. rewrite reverse_cons. apply StronglySorted_app. split_and!; [|done|repeat constructor].
  intros y z Hy ->%list_elem_of_singleton. rewrite elem_of_reverse in Hy. rewrite Forall_forall in Hf. specialize (Hf y Hy). lia.
Qed.
Lemma latest_touch_ext (P Q : nat → Prop) t ci : (∀ i, P i ↔ Q i) → latest_touch P t ci ↔ latest_touch Q t ci.
Proof. intros E. unfold latest_touch. rewrite E. by setoid_rewrite E. Qed.
Lemma earliest_nonneg last lookback p : (0 <= earliest last lookback p)%Z.
Proof. unfold earliest. lia. Qed.

(** The search, in full. *)
Lemma Evaluate_spec candles p :
  match Evaluate candles p with
  | None => candles ≠ [] ∧ (Z.of_nat (length candles) < p_MinIndex p)%Z
  | Some None => ∀ c, ¬ confirms candles p c
  | Some (Some c) => confirms candles p c ∧ (p_MinIndex p <= Z.of_nat (cf_TouchIndex c) <= Z.of_nat (cf_ConfirmationIndex c))%Z ∧
      ∀ c', confirms candles p c' → c' = c ∨ cf_ConfirmationIndex c' < cf_ConfirmationIndex c
  end.
Proof.
  unfold Evaluate. destruct (Nat.eqb_spec (length candles) 0) as [E0|Hn].
  { intros c [[_ Hw] _ _ _]. lia. }
  set (lastz := (Z.of_nat (length candles) - 1)%Z). set (te := earliest lastz (touch_lookback p) p). set (ce := earliest lastz (confirm_lookback p) p).
  destruct (Z.ltb_spec (lastz - te + 1) 0) as [Hp|Hp].
  { split; [by intros ->|]. unfold te, earliest, touch_lookback in Hp. destruct (Z.ltb_spec (p_TouchLookback p) 1); lia. }
  set (touches := List.filter _ (window te (length candles))).
  assert (Ht : ∀ i, i ∈ touches ↔ in_window te (length candles) i ∧ bandTouched (candles !!! i) (p_Low p) (p_High p) = true).
  { intros i. unfold touches. rewrite <- (elem_of_window te (length candles) i (earliest_nonneg _ _ _)).
    by rewrite !list_elem_of_In, filter_In. }
  assert (Hco : ∀ c, confirms candles p c ↔ cf_ConfirmationIndex c ∈ reverse (window ce (length candles)) ∧
    latest_touch (λ i, i ∈ touches) (cf_TouchIndex c) (cf_ConfirmationIndex c) ∧
    cf_Type c = pattern candles p (grabGrade (p_Grabs p) ce lastz) (cf_ConfirmationIndex c) ∧ cf_Type c ≠ "").
  { intros c. rewrite elem_of_reverse, (elem_of_window ce _ _ (earliest_nonneg _ _ _)), (latest_touch_ext _ _ _ _ Ht).
    split; [by intros []|by intros (? & ? & ? & ?)]. }
  destruct (Nat.eqb_spec (length touches) 0) as [Et|_].
  { apply nil_length_inv in Et. intros c (_ & (Hi & _) & _)%Hco. rewrite Et in Hi. by apply not_elem_of_nil in Hi. }
  pose proof (confirm_loop_spec candles p (grabGrade (p_Grabs p) ce lastz) touches (reverse (window ce (length candles)))
    (filter_sorted _ _ _ (seq_sorted _ _)) (reverse_sorted _ (seq_sorted _ _))) as H.
  destruct (confirm_loop _ _ _ _ _) as [c|].
  - destruct H as (Hi & Hl & Hty & Hne & Hm). split; [by apply Hco|]. split.
    { destruct Hl as (Hi' & Hle & _). apply Ht in Hi' as [[Hw _] _]. unfold te, earliest in Hw. lia. }
    intros c' (Hi' & Hl' & Hty' & Hne')%Hco. rewrite Hty' in Hne'. pose proof (Hm _ _ Hi' Hl' Hne') as Hle.
    destruct (decide (cf_ConfirmationIndex c' = cf_ConfirmationIndex c)) as [E|]; [left|right; lia].
    destruct c as [ty t ci], c' as [ty' t' ci']. cbn in *. subst ci' ty ty'. f_equal.
    destruct Hl as (? & ? & Hl), Hl' as (? & ? & Hl'). pose proof (Hl t' ltac:(done) ltac:(done)). pose proof (Hl' t ltac:(done) ltac:(done)). lia.
  - intros c (Hi & Hl & Hty & Hne)%Hco. rewrite Hty in Hne. by specialize (H _ _ Hi Hl).
Qed.

(** * Theorems *)

(** The reaction reported is the latest one: a bar of the confirmation window with a pattern, together with the latest
    touch of the band in the touch window that is not after it, and no later bar of the window is such a bar; none is
    reported exactly when there is no such bar. Both are at or after the first bar that may react. The evaluation panics
    exactly when that first bar lies beyond the next one. *)
Theorem reaction_is_latest candles p :
  match Evaluate candles p with
  | None => candles ≠ [] ∧ (Z.of_nat (length candles) < p_MinIndex p)%Z
  | Some None => ∀ c, ¬ confirms candles p c
  | Some (Some c) => confirms candles p c ∧ (p_MinIndex p <= Z.of_nat (cf_TouchIndex c) <= Z.of_nat (cf_ConfirmationIndex c))%Z ∧
      ∀ c', confirms candles p c' → c' = c ∨ cf_ConfirmationIndex c' < cf_ConfirmationIndex c
  end.
Proof. apply Evaluate_spec. Qed.

(** A demand band touched by the second bar and rejected by the third. *)
Definition demo_bars : list Candle :=
  [mkCandle 0 10 10.5 9.8 10.2 1; mkCandle 60 10.2 10.3 9.0 9.2 1; mkCandle 120 9.2 9.6 8.8 9.5 1; mkCandle 180 9.5 9.7 9.4 9.45 1].
Example demo_reaction :
  Evaluate demo_bars (mkParams "BUY" 8.9 9.1 3 0 [] false 0 0 0) = Some (Some (mkConfirmation TypeStrongReclaim 2 2)) ∧
  Evaluate demo_bars (mkParams "BUY" 8.9 9.1 3 0 [] false 0 0 5) = None.
Proof. split; vm_compute; reflexivity. Qed.
