(* ===== verification/Barrier.v ===== *)
(** Package barrier: the opposing-structure book of the tracked zones, merged per side and reconciled across sides. *)
From S2P Require Import Prelude Float64.
From Stdlib Require Import Floats Ascii.

(** * barrier.go: data *)

Definition Buy : string := "buy".
Definition Sell : string := "sell".
Inductive Tier := TierLevel | TierZone | TierMajor.
Definition rank (t : Tier) : Z := match t with TierLevel => 1 | TierZone => 2 | TierMajor => 3 end.
Record Zone := mkZone {
  z_Timeframe : string; z_Side : string; z_Low : float; z_High : float; z_ATR : float; z_Score : float; z_Touches : Z;
  z_Live : bool; z_ID : string; z_State : string; z_OriginTime : Z; z_CreatedAt : Z; z_LastTouchedAt : option Z
}.
Record Member := mkMember {
  m_ID : string; m_Timeframe : string; m_Low : float; m_High : float; m_State : string; m_Touches : Z; m_Strength : float;
  m_OriginTime : Z; m_CreatedAt : Z; m_LastTouchedAt : option Z
}.
Record Barrier := mkBarrier {
  b_Side : string; b_Low : float; b_High : float; b_Tier : Tier; b_Score : float; b_Touches : Z;
  b_SourceTimeframes : list string; b_Members : list Member
}.
Record Config := mkConfig { Timeframes : list string; PipSize : float; MaxWidthATR : float; MaxWidthPips : float }.
Definition DefaultTimeframes : list string := ["M5"; "M15"; "H1"].
Definition crossSideOverlapRatio : float := 0.5.
Definition crossSideMaxDropFraction : float := 0.34.

(** * strings.ToUpper on ASCII text, strconv.Atoi *)

Definition upper_byte (a : Ascii.ascii) : Ascii.ascii :=
  let n := Ascii.nat_of_ascii a in if (97 <=? n)%nat && (n <=? 122)%nat then Ascii.ascii_of_nat (n - 32) else a.
Fixpoint ToUpper (s : string) : string := match s with EmptyString => EmptyString | String a s => String (upper_byte a) (ToUpper s) end.
Definition digit (a : Ascii.ascii) : option Z :=
  let n := Z.of_nat (Ascii.nat_of_ascii a) in if (48 <=? n)%Z && (n <=? 57)%Z then Some (n - 48)%Z else None.
Fixpoint digits (s : string) (acc : Z) : option Z :=
  match s with EmptyString => Some acc | String a s => match digit a with None => None | Some d => digits s (acc * 10 + d)%Z end end.
Definition unsigned (s : string) : option Z := match s with EmptyString => None | _ => digits s 0 end.
Definition Atoi (s : string) : option Z :=
  let value := match s with
    | String "-"%char rest => Z.opp <$> unsigned rest
    | String "+"%char rest => unsigned rest
    | _ => unsigned s
    end in
  match value with Some v => if (- 2 ^ 63 <=? v)%Z && (v <? 2 ^ 63)%Z then Some v else None | None => None end.

(** * barrier.go: operations *)

Definition meetsExecutionWidth (z : Zone) (cfg : Config) : bool :=
  let width := (z_High z - z_Low z)%float in
  if IsNaN width || IsInf width || (width <=? 0)%float || (PipSize cfg <=? 0)%float || (z_ATR z <=? 0)%float then false
  else negb ((width / z_ATR z >? MaxWidthATR cfg)%float || (width / PipSize cfg >? MaxWidthPips cfg)%float).
Definition bandsOverlap (aLow aHigh bLow bHigh : float) : bool := (math_Min aHigh bHigh >=? math_Max aLow bLow)%float.
Definition tfRank (tf : string) : Z :=
  match ToUpper tf with
  | String unit (String _ _ as rest) =>
      match Atoi rest with
      | None => 0
      | Some value =>
          if bool_decide (unit = "M"%char) then value else if bool_decide (unit = "H"%char) then wrap64 (value * 60) else 0
      end
  | _ => 0
  end%Z.
Definition tf_less (a b : string) : bool := let ra := tfRank a in let rb := tfRank b in if (ra =? rb)%Z then str_lt a b else (ra <? rb)%Z.
(** The set's elements in any order; the sort makes the order immaterial. *)
Definition unionTimeframes (a b : list string) : list string := sort_slice tf_less (remove_dups (a ++ b)).

Definition scope (cfg : Config) : list string := match Timeframes cfg with [] => DefaultTimeframes | tfs => tfs end.
Definition admitted (cfg : Config) (z : Zone) : bool :=
  z_Live z && (bool_decide (z_Side z = Buy) || bool_decide (z_Side z = Sell)) &&
  bool_decide (ToUpper (z_Timeframe z) ∈ map ToUpper (scope cfg)) && meetsExecutionWidth z cfg.
Definition member_of (z : Zone) : Member :=
  mkMember (z_ID z) (ToUpper (z_Timeframe z)) (z_Low z) (z_High z) (z_State z) (z_Touches z) (z_Score z) (z_OriginTime z)
    (z_CreatedAt z) (z_LastTouchedAt z).
Definition barrier_of (z : Zone) : Barrier :=
  mkBarrier (z_Side z) (z_Low z) (z_High z) TierZone (z_Score z) (z_Touches z) [ToUpper (z_Timeframe z)] [member_of z].

Definition band_less (a b : Barrier) : bool :=
  if negb (b_Low a =? b_Low b)%float then (b_Low a <? b_Low b)%float else (b_High a <? b_High b)%float.
Definition merge (side : string) (prev b : Barrier) : Barrier :=
  mkBarrier side (math_Min (b_Low prev) (b_Low b)) (math_Max (b_High prev) (b_High b))
    (if (rank (b_Tier b) >? rank (b_Tier prev))%Z then b_Tier b else b_Tier prev) (math_Max (b_Score prev) (b_Score b))
    (if (b_Touches b <? b_Touches prev)%Z then b_Touches b else b_Touches prev)
    (unionTimeframes (b_SourceTimeframes prev) (b_SourceTimeframes b)) (b_Members prev ++ b_Members b).
Definition merge_step (side : string) (merged : list Barrier) (b : Barrier) : list Barrier :=
  match last merged with
  | None => merged ++ [b]
  | Some prev =>
      if negb (bandsOverlap (b_Low prev) (b_High prev) (b_Low b) (b_High b)) then merged ++ [b]
      else take (length merged - 1) merged ++ [merge side prev b]
  end.
Definition merge_side (barriers : list Barrier) (side : string) : list Barrier :=
  foldl (merge_step side) [] (sort_slice band_less (List.filter (λ b, bool_decide (b_Side b = side)) barriers)).
Definition mergeSameSide (barriers : list Barrier) : list Barrier := flat_map (merge_side barriers) [Buy; Sell].

Definition overlapRatio (overlap width : float) : float :=
  let width := math_Max 0 width in
  if (width >? 0)%float then (overlap / width)%float else if (overlap >? 0)%float then 1%float else 0%float.
Definition conflict_ratio (first second : Barrier) : float :=
  let overlap := math_Max 0 (math_Min (b_High first) (b_High second) - math_Max (b_Low first) (b_Low second)) in
  math_Max (overlapRatio overlap (b_High first - b_Low first)) (overlapRatio overlap (b_High second - b_Low second)).
Definition conflicting (first second : Barrier) : bool :=
  negb (bool_decide (b_Side second = b_Side first)) && negb (conflict_ratio first second <? crossSideOverlapRatio)%float.
Definition stronger (first second : Barrier) : bool :=
  (rank (b_Tier first) >? rank (b_Tier second))%Z ||
  ((rank (b_Tier first) =? rank (b_Tier second))%Z && (b_Score first >=? b_Score second)%float).
(** The inner loop over the later barriers, up to the one that drops this. *)
Fixpoint against (i : nat) (first : Barrier) (later : list (nat * Barrier)) (drop : gset nat) : gset nat :=
  match later with
  | [] => drop
  | (j, second) :: later =>
      if bool_decide (j ∈ drop) || negb (conflicting first second) then against i first later drop
      else if stronger first second then against i first later ({[j]} ∪ drop) else {[i]} ∪ drop
  end.
Fixpoint cross_loop (indexed : list (nat * Barrier)) (drop : gset nat) : gset nat :=
  match indexed with
  | [] => drop
  | (i, first) :: later => cross_loop later (if bool_decide (i ∈ drop) then drop else against i first later drop)
  end.
Definition with_index (barriers : list Barrier) : list (nat * Barrier) := zip (seq 0 (length barriers)) barriers.
Definition resolveCrossSide (barriers : list Barrier) : list Barrier :=
  let drop := cross_loop (with_index barriers) ∅ in
  if (length barriers =? 0)%nat ||
     (f64_of_Z (Z.of_nat (size drop)) / f64_of_Z (Z.of_nat (length barriers)) >? crossSideMaxDropFraction)%float
  then barriers
  else map snd (List.filter (λ p, negb (bool_decide (p.1 ∈ drop))) (with_index barriers)).
Definition Build (zones : list Zone) (cfg : Config) : list Barrier :=
  resolveCrossSide (mergeSameSide (map barrier_of (List.filter (admitted cfg) zones))).

(** * Specification *)

(** A band of finite prices with room inside. *)
Definition band (low high : float) : Prop := finite low = true ∧ finite high = true ∧ (low <? high)%float = true.
Definition within (low high p : float) : Prop := (low <=? p)%float = true ∧ (p <=? high)%float = true.
(** A wall is the union of its members' bands, with no gap, as weak in touches as its weakest member and as strong in score and
    timeframes as all of them. *)
Record wall (b : Barrier) : Prop := {
  w_band : band (b_Low b) (b_High b);
  w_members : Forall (λ m, band (m_Low m) (m_High m)) (b_Members b);
  w_cover : ∀ p, finite p = true → within (b_Low b) (b_High b) p ↔ ∃ m, m ∈ b_Members b ∧ within (m_Low m) (m_High m) p;
  w_touches : (∃ m, m ∈ b_Members b ∧ m_Touches m = b_Touches b) ∧ Forall (λ m, (b_Touches b <= m_Touches m)%Z) (b_Members b);
  w_timeframes : ∀ tf, tf ∈ b_SourceTimeframes b ↔ ∃ m, m ∈ b_Members b ∧ m_Timeframe m = tf;
}.

(** * Lemmas *)

Lemma admitted_band cfg z : admitted cfg z = true → band (z_Low z) (z_High z).
Proof.
  unfold admitted, meetsExecutionWidth. intros [_ H]%andb_true_iff.
  destruct (IsNaN (z_High z - z_Low z)) eqn:N; [done|]. destruct (IsInf (z_High z - z_Low z)) eqn:I; [done|]. cbn [orb] in H.
  destruct (z_High z - z_Low z <=? 0)%float eqn:P; [done|].
  assert (F : finite (z_High z - z_Low z) = true) by (unfold finite; by rewrite N, I).
  destruct (sub_finite _ _ F) as [Fh Fl]. split; [done|]. split; [done|].
  rewrite leb_num, key_0 in P by auto with float. apply Z.leb_gt in P.
  rewrite ltb_num by auto with float. apply Z.ltb_lt. by apply sub_pos_iff.
Qed.

Lemma wall_of cfg z : admitted cfg z = true → wall (barrier_of z).
Proof.
  intros Hb%admitted_band. split; cbn.
  - done.
  - by apply Forall_singleton.
  - intros p _. split; [intros Hp; exists (member_of z); split; [by left|done]|].
    intros (m & ->%list_elem_of_singleton & Hp). exact Hp.
  - split; [exists (member_of z); split; [by left|done]|]. repeat constructor. cbn. lia.
  - intros tf. rewrite list_elem_of_singleton. split; [intros ->; exists (member_of z); split; [by left|done]|].
    intros (m & ->%list_elem_of_singleton & <-). done.
Qed.

Lemma elem_of_unionTimeframes a b tf : tf ∈ unionTimeframes a b ↔ tf ∈ a ∨ tf ∈ b.
Proof. unfold unionTimeframes. by rewrite sort_slice_perm, elem_of_remove_dups, elem_of_app. Qed.

Lemma merged_wall side a b :
  wall a → wall b → (key (b_Low a) <= key (b_Low b))%Z → bandsOverlap (b_Low a) (b_High a) (b_Low b) (b_High b) = true →
  wall (merge side a b) ∧ key (b_Low (merge side a b)) = key (b_Low a).
Proof.
  intros [(La & Ha & Ba) Ma Ca Ta Fa] [(Lb & Hb & Bb) Mb Cb Tb Fb] Hle Ho.
  rewrite ltb_num in Ba, Bb by auto with float. unfold bandsOverlap in Ho.
  rewrite leb_num, math_Max_key, math_Min_key in Ho by auto with float.
  assert (Hlow : key (b_Low (merge side a b)) = key (b_Low a)) by (cbn; rewrite math_Min_key by done; lia).
  split; [|done]. split.
  - cbn. split; [auto with float|]. split; [auto with float|]. rewrite ltb_num, math_Max_key, math_Min_key by auto with float. lia.
  - cbn. by apply Forall_app.
  - intros p Hp. cbn [b_Members merge]. setoid_rewrite elem_of_app.
    transitivity (within (b_Low a) (b_High a) p ∨ within (b_Low b) (b_High b) p).
    + unfold within. cbn. rewrite !leb_num, math_Max_key, math_Min_key by auto with float. lia.
    + rewrite (Ca p Hp), (Cb p Hp). naive_solver.
  - cbn [b_Members b_Touches merge]. destruct Ta as [(ma & Hma & Ea) Ta], Tb as [(mb & Hmb & Eb) Tb]. split.
    + destruct (Z.ltb_spec (b_Touches b) (b_Touches a)); [exists mb|exists ma]; (split; [apply elem_of_app; auto|done]).
    + apply Forall_app. split; (eapply Forall_impl; [eassumption|]); cbn; intros m Hm; destruct (Z.ltb_spec (b_Touches b) (b_Touches a)); lia.
  - intros tf. cbn [b_SourceTimeframes b_Members merge]. rewrite elem_of_unionTimeframes, Fa, Fb. setoid_rewrite elem_of_app. naive_solver.
Qed.

(** The merge of walls in the order of their low edges: nothing is lost and the result is separated. *)
Definition below (a b : Barrier) : Prop := (key (b_High a) < key (b_Low b))%Z.
Record merged_of (side : string) (done merged : list Barrier) : Prop := {
  mo_walls : Forall wall merged;
  mo_side : Forall (λ b, b_Side b = side) done → Forall (λ b, b_Side b = side) merged;
  mo_members : concat (map b_Members merged) = concat (map b_Members done);
  mo_below : StronglySorted below merged;
  mo_last : ∀ l, last merged = Some l → ∃ d, d ∈ done ∧ key (b_Low l) = key (b_Low d);
}.
Lemma merge_step_spec side done_ merged b :
  merged_of side done_ merged → wall b → (∀ d, d ∈ done_ → (key (b_Low d) <= key (b_Low b))%Z) →
  merged_of side (done_ ++ [b]) (merge_step side merged b).
Proof.
  intros [Hw Hs Hm Hb Hl] Wb Hle. unfold merge_step. destruct (last merged) as [prev|] eqn:E.
  2:{ apply last_None in E. subst merged. split; cbn.
    - by apply Forall_singleton.
    - intros Hf. apply Forall_app in Hf as [_ Hf]. exact Hf.
    - by rewrite map_app, concat_app, <- Hm.
    - repeat constructor.
    - intros l [= <-]. exists b. split; [apply elem_of_app; right; by left|done]. }
  apply last_Some in E as [front ->]. destruct (Hl prev eq_refl) as (d & Hd & Ed).
  apply Forall_app in Hw as [Hwf Hwp]. apply Forall_cons in Hwp as [Wp _]. specialize (Hle d Hd). rewrite <- Ed in Hle.
  assert (Hlb : ∃ d, d ∈ done_ ++ [b] ∧ key (b_Low b) = key (b_Low d)) by (exists b; split; [apply elem_of_app; right; by left|done]).
  pose proof (w_band _ Wp) as (Lp & Hp & Bp). pose proof (w_band _ Wb) as (Lb & Hbb & Bb).
  destruct (negb (bandsOverlap _ _ _ _)) eqn:O.
  - apply negb_true_iff in O. unfold bandsOverlap in O. rewrite leb_num, math_Max_key, math_Min_key in O by auto with float.
    rewrite ltb_num in Bb by auto with float. split.
    + rewrite !Forall_app, !Forall_singleton. done.
    + intros Hf. apply Forall_app in Hf as [Hf1 Hf2]. apply Forall_app. split; [by apply Hs|done].
    + rewrite !map_app, !concat_app in *. rewrite <- Hm. by rewrite <- !app_assoc.
    + apply StronglySorted_app. split_and!; [|exact Hb|repeat constructor]. intros x y Hx ->%list_elem_of_singleton. unfold below.
      apply StronglySorted_app in Hb as (Hc & _ & _). apply elem_of_app in Hx as [Hx|Hx%list_elem_of_singleton].
      * specialize (Hc x prev Hx ltac:(by left)). unfold below in Hc. lia.
      * subst x. lia.
    + intros l. rewrite last_snoc. intros [= <-]. exact Hlb.
  - apply negb_false_iff in O. destruct (merged_wall side prev b Wp Wb Hle O) as [Wm Km].
    rewrite length_app. cbn [length]. replace (length front + 1 - 1) with (length front) by lia. rewrite take_app_length. split.
    + by rewrite Forall_app, Forall_singleton.
    + intros Hf. apply Forall_app in Hf as [Hf1 Hf2]. apply Hs in Hf1. apply Forall_app in Hf1 as [? _].
      apply Forall_app. split; [done|]. by apply Forall_singleton.
    + rewrite !map_app, !concat_app in *. rewrite <- Hm. cbn. by rewrite !app_nil_r, <- !app_assoc.
    + apply StronglySorted_app in Hb as (Hc & Hb & _). apply StronglySorted_app. split_and!; [|done|repeat constructor].
      intros x y Hx ->%list_elem_of_singleton. unfold below. rewrite Km. apply (Hc x prev Hx). by left.
    + intros l. rewrite last_snoc. intros [= <-]. exists d. split; [apply elem_of_app; by left|]. by rewrite Km.
Qed.
Lemma merge_fold side rest done_ merged :
  merged_of side done_ merged → Forall wall rest → StronglySorted (λ a b, (key (b_Low a) <= key (b_Low b))%Z) (done_ ++ rest) →
  merged_of side (done_ ++ rest) (foldl (merge_step side) merged rest).
Proof.
  revert done_ merged. induction rest as [|b rest IH]; intros done_ merged Hm Hw Hs; cbn [foldl]; [by rewrite app_nil_r|].
  apply Forall_cons in Hw as [Wb Hw]. pose proof Hs as (Hc & _ & _)%StronglySorted_app.
  replace (done_ ++ b :: rest) with ((done_ ++ [b]) ++ rest) in * by by rewrite <- app_assoc.
  apply IH; [|done|done]. apply merge_step_spec; [done|done|]. intros d Hd. apply Hc; [done|by left].
Qed.

Lemma band_less_sorted l :
  Forall wall l → StronglySorted (λ a b, (key (b_Low a) <= key (b_Low b))%Z) (sort_slice band_less l).
Proof.
  intros Hw. assert (Hk : ∀ x y, wall x → wall y → band_less x y =
    (key (b_Low x) <? key (b_Low y))%Z || ((key (b_Low x) =? key (b_Low y))%Z && (key (b_High x) <? key (b_High y))%Z)).
  { intros x y [(? & ? & _) _ _ _ _] [(? & ? & _) _ _ _ _]. unfold band_less. rewrite eqb_num, !ltb_num by auto with float.
    destruct (Z.eqb_spec (key (b_Low x)) (key (b_Low y))) as [->|]; cbn; [by rewrite Z.ltb_irrefl|by rewrite orb_false_r]. }
  pose proof (sort_slice_sorted band_less wall) as Hs.
  assert (Hss : StronglySorted (λ a b, band_less b a = false) (sort_slice band_less l)).
  { apply Hs; [| |done].
    - intros x y Wx Wy. rewrite !Hk by done. lia.
    - intros x y z Wx Wy Wz. rewrite !Hk by done. lia. }
  assert (Hws : Forall wall (sort_slice band_less l)) by by rewrite sort_slice_perm.
  clear Hs. induction Hss as [|a s Hss IH Hf]; [constructor|]. apply Forall_cons in Hws as [Wa Hws]. constructor; [by apply IH|].
  rewrite Forall_forall in *. intros b Hb. specialize (Hf b Hb). rewrite Hk in Hf by auto. lia.
Qed.
Lemma merge_side_spec barriers side :
  Forall wall barriers →
  let cs := List.filter (λ b, bool_decide (b_Side b = side)) barriers in
  ∃ sorted, sorted ≡ₚ cs ∧ merged_of side sorted (merge_side barriers side).
Proof.
  intros Hw cs. exists (sort_slice band_less cs). split; [apply sort_slice_perm|].
  assert (Hwc : Forall wall cs).
  { rewrite Forall_forall in *. intros b [Hb _]%list_elem_of_In%filter_In. apply Hw. by apply list_elem_of_In. }
  apply (merge_fold side (sort_slice band_less cs) [] []); [split; [by apply Forall_nil|done|done|apply SSorted_nil|done]|by rewrite sort_slice_perm|by apply band_less_sorted].
Qed.

(** The cross-side pass. *)
Definition too_many (barriers : list Barrier) (drop : gset nat) : bool :=
  (f64_of_Z (Z.of_nat (size drop)) / f64_of_Z (Z.of_nat (length barriers)) >? crossSideMaxDropFraction)%float.
(** [k] conflicts with another of the indexed barriers. *)
Definition conflicts_in (indexed : list (nat * Barrier)) (k : nat) : Prop :=
  ∃ p q, p ∈ indexed ∧ q ∈ indexed ∧ conflicting p.2 q.2 = true ∧ (k = p.1 ∨ k = q.1).
Lemma against_spec i first later drop :
  i ∉ drop → i ∉ later.*1 →
  drop ⊆ against i first later drop ∧
  (∀ k, k ∈ against i first later drop → k ∈ drop ∨ conflicts_in ((i, first) :: later) k) ∧
  (i ∉ against i first later drop → ∀ q, q ∈ later → q.1 ∉ against i first later drop → conflicting first q.2 = false).
Proof.
  revert drop. induction later as [|[j second] later IH]; intros drop Hi Hni; cbn [against].
  { split_and!; [done|auto|intros _ q Hq; by apply not_elem_of_nil in Hq]. }
  rewrite fmap_cons, not_elem_of_cons in Hni. destruct Hni as [Hij Hni]. cbn in Hij.
  assert (Hw : ∀ k, conflicts_in ((i, first) :: later) k → conflicts_in ((i, first) :: (j, second) :: later) k).
  { intros k (p & q & Hp & Hq & ?). exists p, q. split_and!; [set_solver..|tauto|tauto]. }
  assert (Hc : ∀ k, conflicting first second = true → k = i ∨ k = j → conflicts_in ((i, first) :: (j, second) :: later) k).
  { intros k E Hk. exists (i, first), (j, second). split_and!; [by left|by right; left|done|done]. }
  case_bool_decide as Ej; cbn [orb].
  - destruct (IH drop Hi Hni) as (Hs & Hk & Hn). split_and!; [done|intros k Hk'; destruct (Hk k Hk'); auto|].
    intros Hi' q [->|Hq]%elem_of_cons; [|by auto]. cbn. intros Hj. by apply Hs in Ej.
  - destruct (conflicting first second) eqn:E; cbn [negb orb].
    + destruct (stronger first second).
      * destruct (IH ({[j]} ∪ drop) ltac:(set_solver) Hni) as (Hs & Hk & Hn). split_and!; [set_solver| |].
        -- intros k Hk'. destruct (Hk k Hk') as [[->%elem_of_singleton|]%elem_of_union|]; auto.
        -- intros Hi' q [->|Hq]%elem_of_cons; [|by auto]. cbn. intros Hj. exfalso. apply Hj, Hs. set_solver.
      * split_and!; [set_solver| |set_solver]. intros k [->%elem_of_singleton|]%elem_of_union; auto.
    + destruct (IH drop Hi Hni) as (Hs & Hk & Hn). split_and!; [done|intros k Hk'; destruct (Hk k Hk'); auto|].
      intros Hi' q [->|Hq]%elem_of_cons; [done|by auto].
Qed.
Lemma cross_loop_spec indexed drop :
  NoDup indexed.*1 →
  drop ⊆ cross_loop indexed drop ∧
  (∀ k, k ∈ cross_loop indexed drop → k ∈ drop ∨ conflicts_in indexed k) ∧
  (∀ m n p q, indexed !! m = Some p → indexed !! n = Some q → m < n → p.1 ∉ cross_loop indexed drop → q.1 ∉ cross_loop indexed drop →
    conflicting p.2 q.2 = false).
Proof.
  revert drop. induction indexed as [|[i first] later IH]; intros drop Hnd; cbn [cross_loop]; [by split_and!; auto|].
  rewrite fmap_cons in Hnd. apply NoDup_cons in Hnd as [Hni Hnd]. cbn in Hni.
  assert (Hw : ∀ k, conflicts_in later k → conflicts_in ((i, first) :: later) k).
  { intros k (p & q & Hp & Hq & ?). exists p, q. split_and!; [set_solver..|tauto|tauto]. }
  set (drop' := if bool_decide (i ∈ drop) then drop else against i first later drop).
  assert (Hd : drop ⊆ drop' ∧ (∀ k, k ∈ drop' → k ∈ drop ∨ conflicts_in ((i, first) :: later) k) ∧
    (i ∉ drop' → ∀ q, q ∈ later → q.1 ∉ drop' → conflicting first q.2 = false)).
  { unfold drop'. case_bool_decide; [split_and!; [done|auto|done]|by apply against_spec]. }
  clearbody drop'. destruct Hd as (Hs & Hk & Hn), (IH drop' Hnd) as (Hs' & Hk' & Hn'). split_and!; [set_solver| |].
  - intros k Hin. destruct (Hk' k Hin) as [Hin'|]; [|auto]. destruct (Hk k Hin'); auto.
  - intros [|m] [|n] p q Hp Hq Hmn; [lia| |lia|].
    + cbn in Hp, Hq. injection Hp as <-. cbn. intros Hi Hq'. apply Hn; [set_solver|by eapply list_elem_of_lookup_2|set_solver].
    + cbn in Hp, Hq. apply (Hn' m n); [done|done|lia].
Qed.
Lemma lookup_with_index barriers k p : with_index barriers !! k = Some p ↔ p.1 = k ∧ barriers !! k = Some p.2.
Proof.
  unfold with_index. destruct p as [i b]. rewrite lookup_zip_Some. cbn. split.
  - intros [[-> _]%lookup_seq Hb]. done.
  - intros [-> Hb]. split; [|done]. apply lookup_seq. split; [done|]. by apply lookup_lt_Some in Hb.
Qed.

Lemma filter_map_barriers (side : string) zones :
  List.filter (λ b, bool_decide (b_Side b = side)) (map barrier_of zones) =
  map barrier_of (List.filter (λ z, bool_decide (z_Side z = side)) zones).
Proof. induction zones as [|z zones IH]; cbn; [done|]. case_bool_decide; cbn; by rewrite IH. Qed.
Lemma members_of_barriers zones : concat (map b_Members (map barrier_of zones)) = map member_of zones.
Proof. induction zones as [|z zones IH]; cbn; [done|]. by rewrite IH. Qed.

(** One side of the book. *)
Lemma merge_side_walls cfg zones side :
  let raw := List.filter (admitted cfg) zones in
  let walls := merge_side (map barrier_of raw) side in
  Forall wall walls ∧ Forall (λ b, b_Side b = side) walls ∧ StronglySorted below walls ∧
  concat (map b_Members walls) ≡ₚ map member_of (List.filter (λ z, bool_decide (z_Side z = side)) raw).
Proof.
  intros raw walls. assert (Hw : Forall wall (map barrier_of raw)).
  { apply Forall_fmap, Forall_forall. intros z [_ Hz]%in_filter. by eapply wall_of. }
  destruct (merge_side_spec _ side Hw) as (sorted & Hp & [H1 H2 H3 H4 _]). fold walls in H1, H2, H3, H4. split_and!; [done| |done|].
  - apply H2. rewrite Hp. apply Forall_forall. intros b [_ Hb%bool_decide_eq_true]%in_filter. done.
  - rewrite H3. rewrite <- members_of_barriers, <- filter_map_barriers.
    rewrite <- !flat_map_concat_map. by apply Permutation_flat_map.
Qed.

(** * Theorems *)

(** The walls of a book are the unions of its admitted zones: per side every admitted zone is a member of exactly one wall,
    a wall covers exactly the prices its members cover, without a gap, with the least of their touches and all of their
    timeframes, and two walls of a side have room between them. *)
Theorem walls_are_unions cfg zones :
  let raw := List.filter (admitted cfg) zones in
  let walls := mergeSameSide (map barrier_of raw) in
  Forall wall walls ∧
  (∀ side, side = Buy ∨ side = Sell →
    concat (map b_Members (List.filter (λ b, bool_decide (b_Side b = side)) walls)) ≡ₚ
    map member_of (List.filter (λ z, bool_decide (z_Side z = side)) raw)) ∧
  (∀ i j a b, walls !! i = Some a → walls !! j = Some b → (i < j)%nat → b_Side a = b_Side b → (b_High a <? b_Low b)%float = true).
Proof.
  intros raw walls. destruct (merge_side_walls cfg zones Buy) as (B1 & B2 & B3 & B4), (merge_side_walls cfg zones Sell) as (S1 & S2 & S3 & S4).
  fold raw in B1, B2, B3, B4, S1, S2, S3, S4. set (wb := merge_side _ Buy) in *. set (ws := merge_side _ Sell) in *.
  assert (E : walls = wb ++ ws) by (unfold walls, mergeSameSide; cbn; by rewrite app_nil_r).
  assert (Hside : ∀ side other l, Forall (λ b, b_Side b = other) l → side ≠ other →
    List.filter (λ b, bool_decide (b_Side b = side)) l = []).
  { intros side other l Hl Hn. apply filter_Forall_false. eapply Forall_impl; [exact Hl|]. cbn. intros b <-.
    by apply bool_decide_false. }
  assert (Hsame : ∀ side l, Forall (λ b, b_Side b = side) l → List.filter (λ b, bool_decide (b_Side b = side)) l = l).
  { intros side l Hl. apply filter_Forall_true. eapply Forall_impl; [exact Hl|]. cbn. intros b <-. by apply bool_decide_true. }
  assert (Hord : ∀ l i j a b, Forall wall l → StronglySorted below l → l !! i = Some a → l !! j = Some b → (i < j)%nat → (b_High a <? b_Low b)%float = true).
  { intros l i j a b Hw Hs Ha Hb Hij. pose proof (Forall_lookup_1 _ _ _ _ Hw Ha) as [(_ & Fa & _) _ _ _ _].
    pose proof (Forall_lookup_1 _ _ _ _ Hw Hb) as [(Fb & _ & _) _ _ _ _]. rewrite ltb_num by auto with float. apply Z.ltb_lt.
    rewrite <- (take_drop (S i) l) in Hs. apply StronglySorted_app in Hs as (Hc & _ & _). apply Hc.
    - apply (list_elem_of_lookup_2 _ i). rewrite lookup_take_lt by lia. done.
    - apply (list_elem_of_lookup_2 _ (j - S i)). rewrite lookup_drop. by replace (S i + (j - S i))%nat with j by lia. }
  rewrite E. split_and!; [by apply Forall_app| |].
  - intros side Hor. rewrite List.filter_app, map_app, concat_app. destruct Hor as [-> | ->].
    + rewrite (Hsame Buy wb B2), (Hside Buy Sell ws S2) by done. by rewrite app_nil_r.
    + rewrite (Hsame Sell ws S2), (Hside Sell Buy wb B2) by done. done.
  - intros i j a b Ha Hb Hij Hs. apply lookup_app_Some in Ha as [Ha|[Hi Ha]], Hb as [Hb|[Hj Hb]].
    + by eapply (Hord wb).
    + apply (Forall_lookup_1 _ _ _ _ B2) in Ha. apply (Forall_lookup_1 _ _ _ _ S2) in Hb. rewrite Ha, Hb in Hs. done.
    + apply lookup_lt_Some in Hb. lia.
    + eapply (Hord ws); [done|done|exact Ha|exact Hb|lia].
Qed.

(** The cross-side pass leaves no conflict or leaves everything: a barrier is only dropped for an opposing one that overlaps
    at least half of one of the two, no two kept barriers conflict, and when more than the allowed share would go the book is
    returned as it was. *)
Theorem cross_side_resolved barriers :
  ∃ drop : gset nat,
    (∀ k, k ∈ drop → ∃ i j a b, barriers !! i = Some a ∧ barriers !! j = Some b ∧ conflicting a b = true ∧ (k = i ∨ k = j)) ∧
    (∀ i j a b, barriers !! i = Some a → barriers !! j = Some b → (i < j)%nat → i ∉ drop → j ∉ drop → conflicting a b = false) ∧
    resolveCrossSide barriers = (if bool_decide (barriers = []) || too_many barriers drop then barriers
      else map snd (List.filter (λ p, negb (bool_decide (p.1 ∈ drop))) (with_index barriers))).
Proof.
  assert (Hnd : NoDup (with_index barriers).*1) by (unfold with_index; rewrite fst_zip by (rewrite length_seq; lia); apply NoDup_seq).
  destruct (cross_loop_spec (with_index barriers) ∅ Hnd) as (_ & Hk & Hn). exists (cross_loop (with_index barriers) ∅). split_and!.
  - intros k Hin. destruct (Hk k Hin) as [?|(p & q & Hp & Hq & Hc & Hpq)]; [set_solver|].
    apply list_elem_of_lookup in Hp as [m Hm], Hq as [n Hn']. apply lookup_with_index in Hm as [? Hm], Hn' as [? Hn'].
    exists p.1, q.1, p.2, q.2. subst. done.
  - intros i j a b Ha Hb Hij Hi Hj. exact (Hn i j (i, a) (j, b) (proj2 (lookup_with_index _ i (i, a)) (conj eq_refl Ha)) (proj2 (lookup_with_index _ j (j, b)) (conj eq_refl Hb)) Hij Hi Hj).
  - unfold resolveCrossSide. fold (too_many barriers (cross_loop (with_index barriers) ∅)).
    destruct barriers as [|b0 barriers]; [done|]. cbn [length Nat.eqb bool_decide]. rewrite (bool_decide_false (_ :: _ = [])) by done. cbn [orb].
    reflexivity.
Qed.
