(* ===== verification/FloatDiv.v ===== *)
(** Division of binary64 numbers: the quotient of a number by one at least as large lies between zero and one. *)
From S2P Require Import Prelude Float64.
From Stdlib Require Import Floats SpecFloat.

(** The location of a remainder, in quarters of a unit. *)
Definition loc_code (l : location) : Z :=
  match l with loc_Exact => 0 | loc_Inexact Lt => 1 | loc_Inexact Eq => 2 | loc_Inexact Gt => 3 end.
Lemma loc_code_range l : (0 <= loc_code l <= 3)%Z.
Proof. destruct l as [|[]]; cbn; lia. Qed.
Lemma located m l : (0 <= m)%Z → shr_record_of_loc m l = shr_at (4 * m + loc_code l) 2.
Proof.
  intros Hm. unfold shr_at, half_units, sticky. change (2 ^ 2)%Z with 4%Z. pose proof (loc_code_range l) as Hl.
  replace (2 * (4 * m + loc_code l) / 4)%Z with (2 * m + loc_code l / 2)%Z.
  2:{ replace (2 * (4 * m + loc_code l))%Z with (2 * loc_code l + (2 * m) * 4)%Z by lia. rewrite Z.div_add by lia.
      replace (2 * loc_code l / 4)%Z with (loc_code l / 2)%Z; [lia|]. change 4%Z with (2 * 2)%Z. by rewrite Z.div_mul_cancel_l by lia. }
  replace (2 * (4 * m + loc_code l) mod 4)%Z with (2 * loc_code l mod 4)%Z.
  2:{ replace (2 * (4 * m + loc_code l))%Z with (2 * loc_code l + (2 * m) * 4)%Z by lia. by rewrite Z.mod_add by lia. }
  rewrite Z.odd_add, Z.odd_mul. cbn [Z.odd andb xorb].
  assert (E : ((2 * m + loc_code l / 2) / 2 = m)%Z).
  { symmetry. apply (Z.div_unique_pos _ _ _ (loc_code l / 2)); [|lia]. split; [apply Z.div_pos; lia|apply Z.div_lt_upper_bound; lia]. }
  rewrite E. by destruct l as [|[]].
Qed.
Lemma shr_located m l e n :
  (0 <= m)%Z → shr (shr_record_of_loc m l) e n = (shr_at (4 * m + loc_code l) (2 + Z.max 0 n), (e + Z.max 0 n)%Z).
Proof.
  intros Hm. pose proof (loc_code_range l) as Hl. rewrite located by done. destruct n as [|p|p]; cbn [shr].
  1,3: by rewrite !Z.max_l, !Z.add_0_r by lia.
  rewrite iter_pos_iter, <- (positive_nat_Z p). f_equal; [|lia]. induction (Pos.to_nat p) as [|k IH]; [done|].
  change (Nat.iter (S k) shr_1 ?x) with (shr_1 (Nat.iter k shr_1 x)). rewrite IH, shr_1_at by lia. f_equal. lia.
Qed.

Lemma Zdigits2_le m k : (0 <= m)%Z → (0 <= k)%Z → (m <= 2 ^ k)%Z → (Zdigits2 m <= k + 1)%Z.
Proof.
  intros Hm Hk Hle. destruct m as [|p|p]; cbn [Zdigits2]; [lia| |lia]. pose proof (log2_digits p) as H.
  assert (Z.log2 (Zpos p) <= k)%Z; [|lia]. rewrite <- (Z.log2_pow2 k) by done. by apply Z.log2_le_mono.
Qed.
(** A located quotient of at most one rounds to at most one. *)
Lemma round_unit m e l :
  (0 <= m)%Z → (e < 0)%Z → (4 * m + loc_code l <= 4 * 2 ^ (- e))%Z →
  binary_round_aux prec emax false m e l ≠ S754_nan ∧ (0 <= SF_key (binary_round_aux prec emax false m e l) <= 2 ^ 1074)%Z.
Proof.
  intros Hm He Hle. pose proof (loc_code_range l) as Hl. remember (binary_round_aux prec emax false m e l) as R eqn:ER.
  unfold binary_round_aux, shr_fexp at 1 in ER. rewrite shr_located in ER by done.
  set (n := (fexp prec emax (Zdigits2 m + e) - e)%Z) in *. set (f := (e + Z.max 0 n)%Z) in *.
  assert (Hd : (Zdigits2 m <= - e + 1)%Z) by (apply Zdigits2_le; lia).
  assert (Hf : (f <= 0)%Z) by (unfold f, n, fexp, SpecFloat.emin; change prec with 53%Z; change emax with 1024%Z; lia).
  assert (Hf' : (-1074 <= f)%Z) by (unfold f, n, fexp, SpecFloat.emin; change prec with 53%Z; change emax with 1024%Z; lia).
  cbn beta iota in ER. rewrite round_nearest_even_at in ER. set (m1 := rne _ _) in ER.
  assert (Hm1 : (0 <= m1 <= 2 ^ (- f))%Z).
  { unfold m1. split; [apply rne_bound_below; lia|]. apply rne_bound; [lia|apply Z.pow_nonneg; lia|].
    rewrite <- Z.pow_add_r by lia. replace (- f + (2 + Z.max 0 n))%Z with (2 + - e)%Z by (unfold f; lia). rewrite Z.pow_add_r by lia. lia. }
  unfold shr_fexp in ER. rewrite shr_located in ER by lia. set (k := Z.max 0 _) in ER. cbn beta iota in ER. cbn [loc_code] in ER. rewrite Z.add_0_r in ER.
  set (m2 := shr_m (shr_at (4 * m1) (2 + k))) in ER. assert (Hm2 : (0 <= m2)%Z ∧ (m2 * 2 ^ k <= m1)%Z).
  { unfold m2, shr_at, half_units. cbn [shr_m]. assert (Hk : (0 < 2 ^ k)%Z) by (apply Z.pow_pos_nonneg; lia).
    rewrite Z.div_div, Z.pow_add_r by (try apply Z.pow_nonzero; lia). change (2 ^ 2)%Z with 4%Z.
    replace (2 * (4 * m1))%Z with (m1 * 8)%Z by lia. replace (4 * 2 ^ k * 2)%Z with (2 ^ k * 8)%Z by lia. rewrite Z.div_mul_cancel_r by lia.
    split; [apply Z.div_pos; lia|]. rewrite Z.mul_comm. apply Z.mul_div_le. lia. }
  destruct Hm2 as [Hp Hm2]. subst R. destruct m2 as [|q|q]; [split; [done|change (SF_key _) with 0%Z; split; [done|apply Z.pow_nonneg; lia]]| |lia].
  assert (Hkf : (Zpos q * 2 ^ (f + k + 1074) <= 2 ^ 1074)%Z).
  { replace (f + k + 1074)%Z with (k + (f + 1074))%Z by lia. rewrite Z.pow_add_r, Z.mul_assoc by lia.
    transitivity (2 ^ (- f) * 2 ^ (f + 1074))%Z; [|rewrite <- Z.pow_add_r by lia; apply Z.pow_le_mono_r; lia].
    apply Z.mul_le_mono_nonneg_r; [apply Z.pow_nonneg; lia|lia]. }
  assert (Hle2 : (f + k <= 0)%Z).
  { destruct (decide (f + k <= 0)%Z) as [|Hgt]; [done|]. exfalso. assert (2 ^ 1075 <= 2 ^ (f + k + 1074))%Z by (apply Z.pow_le_mono_r; lia).
    assert (2 ^ 1074 < 2 ^ 1075)%Z by (apply Z.pow_lt_mono_r; lia).
    assert (0 < 2 ^ (f + k + 1074))%Z by (apply Z.pow_pos_nonneg; lia). assert (1 * 2 ^ (f + k + 1074) <= Zpos q * 2 ^ (f + k + 1074))%Z
      by (apply Z.mul_le_mono_nonneg_r; lia). lia. }
  destruct (Z.leb_spec (f + k) (emax - prec)) as [_|Hbad]; [|change (emax - prec)%Z with 971%Z in Hbad; lia].
  split; [done|]. cbn [SF_key SpecFloat.cond_Zopp]. split; [|done]. apply Z.mul_nonneg_nonneg; [lia|apply Z.pow_nonneg; lia].
Qed.

(** The quotient of a number by one at least as large. *)
Lemma div_unit x y :
  finite x = true → finite y = true → (0 <= key x <= key y)%Z → (0 < key y)%Z →
  finite (x / y) = true ∧ (0 <= key (x / y) <= key 1)%Z.
Proof.
  intros Hx Hy Hxy Hy0. assert (G : IsNaN (x / y) = false ∧ (0 <= key (x / y) <= key 1)%Z).
  2:{ destruct G as [N K]. split; [|done]. by apply (finite_between 0 1). }
  change (key 1) with (2 ^ 1074)%Z. assert (H1 : (0 <= 2 ^ 1074)%Z) by (apply Z.pow_nonneg; lia).
  rewrite <- (not_true_iff_false (IsNaN _)), is_nan_SF. unfold key in *. rewrite div_spec. unfold SF64div.
  pose proof (Prim2SF_valid x) as Vx. pose proof (Prim2SF_valid y) as Vy. apply finite_SF in Hx, Hy.
  destruct Hy as [[sy Ey]|(sy & my & ey & Ey)]; rewrite Ey in *; [by apply Z.lt_irrefl in Hy0|].
  destruct Hx as [[sx Ex]|(sx & mx & ex & Ex)]; rewrite Ex in *; cbn [SFdiv]; [split; [done|cbn [SF_key]; split; [lia|exact H1]]|].
  assert (Hpow : ∀ m e, (-1074 <= e)%Z → (0 < Zpos m * 2 ^ (e + 1074))%Z) by (intros; apply Z.mul_pos_pos; [lia|apply Z.pow_pos_nonneg; lia]).
  cbn in Vx, Vy. apply bounded_inv in Vx, Vy. cbn [SF_key] in Hxy, Hy0.
  destruct sy; cbn [SpecFloat.cond_Zopp] in Hxy, Hy0; [pose proof (Hpow my ey); lia|].
  destruct sx; cbn [SpecFloat.cond_Zopp] in Hxy; [pose proof (Hpow mx ex); lia|]. clear Hpow. cbn [xorb]. unfold SFdiv_core_binary.
  set (e := Z.min _ _). assert (Hlog : (Zdigits2 (Zpos mx) + ex <= Zdigits2 (Zpos my) + ey)%Z).
  { cbn [Zdigits2]. pose proof (log2_digits mx). pose proof (log2_digits my). destruct Hxy as [_ Hxy]. apply Z.log2_le_mono in Hxy.
    rewrite !Z.log2_mul_pow2 in Hxy by lia. lia. }
  assert (He : (e < 0)%Z) by (unfold e, fexp, SpecFloat.emin; change prec with 53%Z; change emax with 1024%Z; lia).
  assert (Hs : (0 <= ex - ey - e)%Z) by (unfold e; lia).
  replace (match (ex - ey - e)%Z with Z0 => _ | Zpos _ => _ | Zneg _ => _ end) with (Zpos mx * 2 ^ (ex - ey - e))%Z.
  2:{ rewrite <- Z.shiftl_mul_pow2 by lia. destruct (ex - ey - e)%Z eqn:E; [by rewrite Z.shiftl_0_r|done|lia]. }
  assert (Hq : (Zpos mx * 2 ^ (ex - ey - e) <= Zpos my * 2 ^ (- e))%Z).
  { apply (Z.mul_le_mono_pos_r _ _ (2 ^ (ey + 1074))); [apply Z.pow_pos_nonneg; lia|]. rewrite <- !Z.mul_assoc, <- !Z.pow_add_r by lia.
    destruct Hxy as [_ Hxy]. apply (Z.mul_le_mono_nonneg_r _ _ (2 ^ (- e))) in Hxy; [|apply Z.pow_nonneg; lia].
    rewrite <- !Z.mul_assoc, <- !Z.pow_add_r in Hxy by lia. replace (ex - ey - e + (ey + 1074))%Z with (ex + 1074 + - e)%Z by lia.
    by replace (- e + (ey + 1074))%Z with (ey + 1074 + - e)%Z by lia. }
  set (m' := (Zpos mx * 2 ^ (ex - ey - e))%Z) in *.
  assert (Hm' : (0 <= m')%Z) by (unfold m'; apply Z.mul_nonneg_nonneg; [lia|apply Z.pow_nonneg; lia]). clearbody m'.
  pose proof (Z_div_mod m' (Zpos my) ltac:(done)) as Hdm. destruct (Z.div_eucl m' (Zpos my)) as [q r]. destruct Hdm as [-> Hr].
  cbn beta iota. apply round_unit; [nia|done|].
  pose proof (loc_code_range (new_location (Zpos my) r)). destruct (decide (r = 0)%Z) as [->|Hr0].
  - assert (E : loc_code (new_location (Zpos my) 0) = 0%Z) by (unfold new_location, new_location_even, new_location_odd; by destruct (Z.even _)).
    rewrite E. nia.
  - assert (q < 2 ^ (- e))%Z by nia. lia.
Qed.
