(* ===== verification/Quality.v ===== *)
(** Package quality: how a strategy's dimensions become its overall score, and the shapes the dimensions are measured with. *)
From S2P Require Import Prelude Float64 FloatDiv Market.
From S2P Require Barrier.
From Stdlib Require Import Floats.

(** * quality.go: the model *)

Definition Prefix_ : string := "score_".
Definition ModelVersionKey : string := "quality_model_version".
Record Model := mkModel { m_name : string; m_dimensions : gmap string float; m_order : list string; m_measurements : gmap string float }.
Definition New (name : string) : Model := mkModel name ∅ [] ∅.
Definition Name (m : Model) : string := m_name m.
Definition Clamp01 (x : float) : float := (if negb (finite x) || (x <? 0) then 0 else if x >? 1 then 1 else x)%float.
Definition has_prefix (name : string) : bool := String.prefix Prefix_ name.
(** [None] where the code panics. *)
Definition Score (m : Model) (name : string) (value : float) : option Model :=
  let key := Prefix_ +:+ name in
  match m_dimensions m !! key with
  | Some _ => None
  | None => Some (mkModel (m_name m) (<[key := Clamp01 value]> (m_dimensions m)) (m_order m ++ [key]) (m_measurements m))
  end.
Definition Measure (m : Model) (name : string) (value : float) : option Model :=
  if bool_decide (name = ModelVersionKey) || has_prefix name then None
  else Some (if finite value then mkModel (m_name m) (m_dimensions m) (m_order m) (<[name := value]> (m_measurements m)) else m).
Definition dimension (m : Model) (key : string) : float := default 0%float (m_dimensions m !! key).
Definition Overall (m : Model) : float :=
  match m_order m with
  | [] => 0%float
  | order => (foldl (λ sum key, sum + dimension m key) 0 order / f64_of_Z (Z.of_nat (length order)))%float
  end.
(** What follows the last occurrence of [sub]. *)
Fixpoint after_last (sub s : string) : option string :=
  match s with
  | EmptyString => None
  | String _ rest =>
      match after_last sub rest with
      | Some t => Some t
      | None => if String.prefix sub s then Some (String.substring (String.length sub) (String.length s - String.length sub) s) else None
      end
  end.
Definition Version (m : Model) : option Z :=
  text ← after_last ".v" (m_name m); n ← Barrier.Atoi text; if (n <? 1)%Z then None else Some n.
Definition version_entry (m : Model) : gmap string float :=
  match Version m with Some v => {[ModelVersionKey := f64_of_Z v]} | None => ∅ end.
Definition Components (m : Model) : gmap string float := m_dimensions m ∪ (version_entry m ∪ m_measurements m).
Definition Dimensions (m : Model) : list string := m_order m.
(** [false] where an error is returned. *)
Definition Verify (overall : float) (components : gmap string float) : bool :=
  let names := List.filter has_prefix (sorted_keys components) in
  match names with
  | [] => false
  | _ =>
      let value name := default 0%float (components !! name) in
      forallb (λ name, finite (value name) && negb (value name <? 0)%float && negb (value name >? 1)%float) names &&
      negb (abs (foldl (λ sum name, sum + value name) 0 names / f64_of_Z (Z.of_nat (length names)) - overall) >? 1e-9)%float
  end.

(** * quality.go, reaction.go: the shapes *)

Definition Ramp (x lo hi : float) : float := if negb (finite x) || negb (hi >? lo)%float then 0%float else Clamp01 ((x - lo) / (hi - lo)).
Definition Fall (x lo hi : float) : float := if negb (finite x) || negb (hi >? lo)%float then 0%float else (1 - Clamp01 ((x - lo) / (hi - lo)))%float.
Definition Peak (x a b c d : float) : float :=
  (if negb (finite x) || negb ((a <? b) && (b <=? c) && (c <? d)) then 0
   else if (x <=? a) || (x >=? d) then 0
   else if x <? b then (x - a) / (b - a)
   else if x <=? c then 1
   else (d - x) / (d - c))%float.
Definition Room (rewardDistance riskDistance : float) (structural : bool) : float :=
  if negb structural || negb (finite rewardDistance) || negb (finite riskDistance) || negb (riskDistance >? 0)%float || (rewardDistance <=? 0)%float
  then 0%float else Ramp (rewardDistance / riskDistance) 1 3.
Definition CloseStrength (c : Candle) (buy : bool) : float :=
  let r := Range c in
  if negb (r >? 0)%float then 0%float
  else if buy then Clamp01 ((c_Close c - c_Low c) / r) else Clamp01 ((c_High c - c_Close c) / r).
Definition RejectionWick (c : Candle) (buy : bool) : float :=
  let r := Range c in
  if negb (r >? 0)%float then 0%float
  else if buy then Clamp01 ((math_Min (c_Open c) (c_Close c) - c_Low c) / r) else Clamp01 ((c_High c - math_Max (c_Open c) (c_Close c)) / r).
(** A bar that overlaps the band and does not open on one side of it and close on the other. *)
Definition visits (lo hi : float) (b : Candle) : bool :=
  ((c_Low b <=? hi) && (c_High b >=? lo) &&
   negb (((c_Open b >? hi) && (c_Close b <? lo)) || ((c_Open b <? lo) && (c_Close b >? hi))))%float.
Definition bad_band (price band : float) : bool := negb (finite price) || negb (finite band) || (band <? 0)%float.
Definition visit_step (visited : Candle → bool) (s : Z * bool) (b : Candle) : Z * bool :=
  (if visited b && negb s.2 then (s.1 + 1)%Z else s.1, visited b).
Definition Episodes (bars : list Candle) (price band : float) : Z :=
  match bars with
  | [] => 0
  | _ => if bad_band price band then 0 else fst (foldl (visit_step (visits (price - band)%float (price + band)%float)) (0, false) bars)
  end%Z.
Definition FirstVisit (bars : list Candle) (price band : float) : Z :=
  if bad_band price band then -1
  else match list_find (λ b, visits (price - band)%float (price + band)%float b = true) bars with Some (i, _) => Z.of_nat i | None => -1 end.
Definition closed_past (price band : float) (buy : bool) (b : Candle) : bool :=
  if buy then (c_Close b <? price - 2 * band)%float else (c_Close b >? price + 2 * band)%float.
Definition ClosesThrough (bars : list Candle) (price band : float) (buy : bool) : nat := length (List.filter (closed_past price band buy) bars).
Definition RejectionScore (bars : list Candle) (touchIndex confirmIndex : Z) (buy : bool) : float :=
  if (touchIndex <? 0)%Z || (touchIndex >=? Z.of_nat (length bars))%Z || (confirmIndex <? 0)%Z || (confirmIndex >=? Z.of_nat (length bars))%Z
  then 0%float
  else (0.5 * Ramp (RejectionWick (bars !!! Z.to_nat touchIndex) buy) 0.2 0.6 + 0.5 * Ramp (CloseStrength (bars !!! Z.to_nat confirmIndex) buy) 0.5 0.9)%float.
Definition LocationScore (price reference atr : float) : float :=
  if negb (atr >? 0)%float || negb (finite price) || negb (finite reference) then 0%float else Fall (abs (price - reference) / atr) 0.25 1.5.
Definition StructureScore (buy : bool) (localTrend : string) (choch htfAligned : bool) : float :=
  let up := bool_decide (localTrend = "up") in let down := bool_decide (localTrend = "down") in
  let with_ := (buy && up) || (negb buy && down) in let against := (buy && down) || (negb buy && up) in
  (if with_ then if htfAligned then 1 else 0.7
   else if against && choch then if htfAligned then 0.9 else 0.7
   else if against then if htfAligned then 0.3 else 0.1
   else if htfAligned then 0.6 else 0.5)%float.
Definition GeometryRoom (reference invalidation target : float) (structural : bool) : float * float :=
  let risk := abs (reference - invalidation) in let reward := abs (target - reference) in
  (Room reward risk structural, if (risk >? 0)%float && finite reward then (reward / risk)%float else 0%float).

(** * Lemmas: integers and sums as floats *)

Lemma rnd_int n : (0 <= n < 2 ^ 53)%Z → rnd (n * 2 ^ 1074) = (n * 2 ^ 1074)%Z.
Proof.
  intros Hn. destruct (decide (n = 0)%Z) as [->|]; [apply rnd_0|]. unfold rnd. assert (0 < 2 ^ 1074)%Z by (apply Z.pow_pos_nonneg; lia).
  destruct (Z.ltb_spec (n * 2 ^ 1074) 0); [nia|]. unfold rnd_pos, ulp_exp. rewrite Z.log2_mul_pow2 by lia.
  assert (Z.log2 n < 53)%Z by (apply Z.log2_lt_pow2; lia). pose proof (Z.log2_nonneg n).
  set (u := Z.max 0 (1074 + Z.log2 n - 52)). replace (2 ^ 1074)%Z with (2 ^ (1074 - u) * 2 ^ u)%Z by (rewrite <- Z.pow_add_r by (unfold u; lia); f_equal; lia).
  rewrite Z.mul_assoc, rne_exact by (unfold u; lia). done.
Qed.
Lemma sat_int n : (0 <= n < 2 ^ 53)%Z → sat (n * 2 ^ 1074) = (n * 2 ^ 1074)%Z.
Proof.
  intros Hn. apply sat_id. assert (0 < 2 ^ 1074)%Z by (apply Z.pow_pos_nonneg; lia). unfold overflow_key.
  change 2098%Z with (1024 + 1074)%Z. rewrite Z.pow_add_r by lia. assert (2 ^ 53 <= 2 ^ 1024)%Z by (apply Z.pow_le_mono_r; lia).
  generalize dependent (2 ^ 1074)%Z. generalize dependent (2 ^ 1024)%Z. intros X Y. nia.
Qed.
Lemma int_key n : (0 <= n < 2 ^ 53)%Z → key (f64_of_Z n) = (n * 2 ^ 1074)%Z ∧ finite (f64_of_Z n) = true.
Proof.
  intros Hn. unfold f64_of_Z. assert (E : binary_normalize prec emax n 0 false = Prim2SF (PrimFloat.of_uint63 (Uint63.of_Z n))).
  { rewrite of_uint63_spec, Uint63.of_Z_spec, Z.mod_small; [done|]. split; [lia|]. transitivity (2 ^ 53)%Z; [lia|by vm_compute]. }
  destruct (binary_normalize_key n 0 ltac:(lia)) as [Hnan Hk]. rewrite E in Hnan, Hk. rewrite E, SF2Prim_Prim2SF.
  change (0 + 1074)%Z with 1074%Z in Hk. rewrite rnd_int, sat_int in Hk by done. split; [exact Hk|]. apply finite_key. split.
  - apply not_true_iff_false. by rewrite is_nan_SF.
  - unfold key. rewrite Hk. unfold key_inf. change 2200%Z with (1126 + 1074)%Z. rewrite Z.pow_add_r by lia.
    assert (0 < 2 ^ 1074)%Z by (apply Z.pow_pos_nonneg; lia). assert (2 ^ 53 <= 2 ^ 1126)%Z by (apply Z.pow_le_mono_r; lia).
    generalize dependent (2 ^ 1074)%Z. generalize dependent (2 ^ 1126)%Z. intros. nia.
Qed.

(** A number between zero and one. *)
Definition unit_score (x : float) : Prop := finite x = true ∧ (0 <= key x <= key 1)%Z.
Lemma key_1 : key 1 = (2 ^ 1074)%Z.
Proof. by vm_compute. Qed.
Lemma unit_0 : unit_score 0.
Proof. split; [done|]. split; vm_compute; discriminate. Qed.
Lemma unit_clamp x : unit_score (Clamp01 x).
Proof.
  unfold Clamp01. destruct (finite x) eqn:F; cbn [negb orb]; [|apply unit_0]. pose proof (finite_not_nan _ F) as N.
  rewrite !ltb_num by (done || reflexivity). change (key 0) with 0%Z. destruct (Z.ltb_spec (key x) 0); [apply unit_0|].
  destruct (Z.ltb_spec (key 1) (key x)); [split; [done|rewrite key_1; split; [apply Z.pow_nonneg; lia|lia]]|]. split; [done|lia].
Qed.
Lemma clamp_id x : unit_score x → Clamp01 x = x.
Proof.
  intros [F K]. unfold Clamp01. pose proof (finite_not_nan _ F) as N. rewrite F, !ltb_num by (done || reflexivity). change (key 0) with 0%Z.
  destruct (Z.ltb_spec (key x) 0); [lia|]. destruct (Z.ltb_spec (key 1) (key x)); [lia|done].
Qed.
Lemma sum_unit {A} (f : A → float) l : (∀ a, a ∈ l → unit_score (f a)) → (Z.of_nat (length l) < 2 ^ 53)%Z →
  let s := foldl (λ sum a, sum + f a)%float 0%float l in finite s = true ∧ (0 <= key s <= Z.of_nat (length l) * 2 ^ 1074)%Z.
Proof.
  cbv zeta. induction l as [|a l IH] using rev_ind; intros Hl Hn; [split; [done|cbn; lia]|].
  rewrite foldl_app. cbn [foldl]. rewrite length_app in *. cbn [length] in *.
  destruct IH as [F K]; [intros; apply Hl; set_solver|lia|]. destruct (Hl a) as [Fa Ka]; [set_solver|]. rewrite key_1 in Ka.
  set (s := foldl _ _ _) in *. assert (0 < 2 ^ 1074)%Z by (apply Z.pow_pos_nonneg; lia).
  assert (Hk : (0 <= key (s + f a) <= Z.of_nat (length l + 1) * 2 ^ 1074)%Z).
  { rewrite key_add by done. split; [rewrite <- (sat_id 0) by done; rewrite <- rnd_0; apply sat_mono, rnd_mono; lia|].
    rewrite <- (sat_int (Z.of_nat (length l + 1))), <- (rnd_int (Z.of_nat (length l + 1))) by lia. apply sat_mono, rnd_mono.
    generalize dependent (2 ^ 1074)%Z. intros X. rewrite Nat2Z.inj_add. nia. }
  split; [|done]. destruct (int_key (Z.of_nat (length l + 1)) ltac:(lia)) as [KI FI].
  apply (finite_between 0 (f64_of_Z (Z.of_nat (length l + 1)))); [done|done|by apply add_not_nan|rewrite KI; exact Hk].
Qed.
Lemma overall_unit (f : string → float) l : l ≠ [] → (∀ a, a ∈ l → unit_score (f a)) → (Z.of_nat (length l) < 2 ^ 53)%Z →
  unit_score (foldl (λ sum a, sum + f a) 0 l / f64_of_Z (Z.of_nat (length l)))%float.
Proof.
  intros Hne Hl Hn. destruct (sum_unit f l Hl Hn) as [F K]. destruct (int_key (Z.of_nat (length l)) ltac:(lia)) as [KI FI].
  apply div_unit; [done|done|rewrite KI; exact K|]. rewrite KI. assert (0 < length l) by (destruct l; [done|cbn; lia]).
  apply Z.mul_pos_pos; [lia|apply Z.pow_pos_nonneg; lia].
Qed.

Lemma quotient_unit p q : finite q = true → IsNaN p = false → (0 < key p)%Z → (key p <= key q)%Z → unit_score (p / q).
Proof.
  intros Fq Np H1 H2. assert (Fp : finite p = true) by (apply (finite_between 0 q); [done|done|done|rewrite key_0; lia]).
  apply div_unit; [done|done|lia|lia].
Qed.

(** * Lemmas: the life of a model *)

Inductive op := OpScore (name : string) (value : float) | OpMeasure (name : string) (value : float).
Definition apply_op (m : Model) (o : op) : option Model :=
  match o with OpScore name value => Score m name value | OpMeasure name value => Measure m name value end.
Fixpoint run (m : Model) (ops : list op) : option Model := match ops with [] => Some m | o :: rest => m ← apply_op m o; run m rest end.
Definition scored (ops : list op) : list string := omap (λ o, match o with OpScore name _ => Some name | _ => None end) ops.
Definition measured (ops : list op) : list (string * float) := omap (λ o, match o with OpMeasure name value => Some (name, value) | _ => None end) ops.
Definition well_named (p : string * float) : Prop := p.1 ≠ ModelVersionKey ∧ has_prefix p.1 = false.
(** The dimensions are the scored names in order, each between zero and one; the measurements are finite and named apart. *)
Record model_ok (m : Model) : Prop := {
  mo_order : NoDup (m_order m);
  mo_keys : ∀ key, key ∈ m_order m ↔ is_Some (m_dimensions m !! key);
  mo_prefix : ∀ key, key ∈ m_order m → has_prefix key = true;
  mo_unit : ∀ key x, m_dimensions m !! key = Some x → unit_score x;
  mo_measures : ∀ name x, m_measurements m !! name = Some x → finite x = true ∧ well_named (name, x)
}.
Lemma prefix_app s : has_prefix (Prefix_ +:+ s) = true.
Proof. unfold has_prefix, Prefix_. cbn. by destruct s. Qed.
Lemma apply_ok m o m' : model_ok m → apply_op m o = Some m' → model_ok m'.
Proof.
  intros H. destruct o as [name value|name value]; cbn [apply_op]; unfold Score, Measure.
  - destruct (m_dimensions m !! _) eqn:E; [done|]. intros Hm. injection Hm as <-. destruct H as [H1 H2 H3 H4 H5]. split; cbn [m_order m_dimensions m_measurements].
    + apply NoDup_app. split_and!; [done| |apply NoDup_singleton]. intros k Hk ->%list_elem_of_singleton. apply H2 in Hk as [x Hx]. congruence.
    + intros k. rewrite elem_of_app, list_elem_of_singleton, H2, lookup_insert_is_Some. destruct (decide (k = Prefix_ +:+ name)); naive_solver.
    + intros k [Hk| ->%list_elem_of_singleton]%elem_of_app; [by apply H3|apply prefix_app].
    + intros k x [[<- <-]|[_ Hx]]%lookup_insert_Some; [apply unit_clamp|by eapply H4].
    + done.
  - destruct (bool_decide _ || _) eqn:E; [done|]. apply orb_false_iff in E as [E1%bool_decide_eq_false E2]. intros Hm. injection Hm as <-.
    destruct (finite value) eqn:F; [|done]. destruct H as [H1 H2 H3 H4 H5]. split; cbn [m_order m_dimensions m_measurements]; try done.
    intros k x [[<- <-]|[_ Hx]]%lookup_insert_Some; [done|by eapply H5].
Qed.
Lemma run_ok ops : ∀ m m', model_ok m → run m ops = Some m' → model_ok m'.
Proof.
  induction ops as [|o ops IH]; intros m m' H; cbn [run]; [intros E; by injection E as <-|].
  destruct (apply_op m o) as [m1|] eqn:E; [|done]. cbn [mbind option_bind]. apply IH. by eapply apply_ok.
Qed.
Lemma new_ok name : model_ok (New name).
Proof.
  split; cbn; [constructor| |by intros ? ?%not_elem_of_nil|by intros ? ? ?%lookup_empty_Some|by intros ? ? ?%lookup_empty_Some].
  intros k. rewrite lookup_empty. split; [by intros ?%not_elem_of_nil|by intros [? ?]].
Qed.
Lemma run_order ops : ∀ m m', run m ops = Some m' → m_order m' = m_order m ++ map (String.append Prefix_) (scored ops).
Proof.
  induction ops as [|o ops IH]; intros m m'; cbn [run scored omap list_omap map]; [intros E; injection E as <-; by rewrite app_nil_r|].
  destruct (apply_op m o) as [m1|] eqn:E; [|done]. cbn [mbind option_bind]. intros ->%IH. destruct o as [name value|name value]; cbn [apply_op] in E; unfold Score, Measure in E.
  - destruct (m_dimensions m !! _); [done|]. injection E as <-. cbn [m_order map]. by rewrite <- app_assoc.
  - destruct (bool_decide _ || _); [done|]. injection E as <-. by destruct (finite value).
Qed.
(** A run panics only for a repeated dimension or a reserved measurement name. *)
Lemma ops_run_total ops : ∀ m, model_ok m →
  (is_Some (run m ops) ↔
   NoDup (map (String.append Prefix_) (scored ops)) ∧ (∀ k, k ∈ map (String.append Prefix_) (scored ops) → k ∉ m_order m) ∧ Forall well_named (measured ops)).
Proof.
  induction ops as [|o ops IH]; intros m Hok; cbn [run scored measured omap list_omap map].
  { split; [intros _; split_and!; [constructor|by intros ? ?%not_elem_of_nil|constructor]|by eexists]. }
  destruct (apply_op m o) as [m1|] eqn:E; cbn [mbind option_bind].
  - rewrite (IH m1) by (by eapply apply_ok). destruct o as [name value|name value]; cbn [apply_op] in E; unfold Score, Measure in E.
    + destruct (m_dimensions m !! _) eqn:El; [done|]. injection E as <-. cbn [m_order map]. change (omap _ ops) with (scored ops) at 2. rewrite NoDup_cons.
      assert (Hni : Prefix_ +:+ name ∉ m_order m) by (rewrite (mo_keys m Hok), El; by intros [? ?]). split.
      * intros (H1 & H2 & H3). split_and!; [|done| |done]; [intros Hin; specialize (H2 _ Hin); set_solver|].
        intros k [->|Hk]%elem_of_cons; [done|]. specialize (H2 k Hk). set_solver.
      * intros ([H1 H1'] & H2 & H3). split_and!; [done| |done]. intros k Hk. specialize (H2 k ltac:(by right)).
        rewrite elem_of_app, list_elem_of_singleton. intros [?| ->]; [done|]. by apply H1.
    + destruct (bool_decide _ || _) eqn:Eb; [done|]. apply orb_false_iff in Eb as [E1%bool_decide_eq_false E2]. injection E as <-.
      rewrite Forall_cons. assert (Ho : m_order (if finite value then mkModel (m_name m) (m_dimensions m) (m_order m) (<[name:=value]> (m_measurements m)) else m) = m_order m)
        by (by destruct (finite value)). rewrite Ho. unfold well_named at 2. naive_solver.
  - split; [by intros [? ?]|]. intros (H1 & H2 & H3). destruct o as [name value|name value]; cbn [apply_op] in E; unfold Score, Measure in E.
    + destruct (m_dimensions m !! _) eqn:El; [|done]. destruct (H2 (Prefix_ +:+ name)); [by left|]. apply (mo_keys m Hok). by eexists.
    + destruct (bool_decide _ || _) eqn:Eb; [|done]. apply Forall_cons in H3 as [[Hn Hp] _]. cbn [fst] in Hn, Hp.
      apply orb_true_iff in Eb as [Eb%bool_decide_eq_true|Eb]; [done|congruence].
Qed.

Lemma run_overall name ops m : run (New name) ops = Some m → (Z.of_nat (length (scored ops)) < 2 ^ 53)%Z → unit_score (Overall m).
Proof.
  intros Hm Hn. pose proof (run_ok _ _ _ (new_ok name) Hm) as [H1 H2 H3 H4 H5]. pose proof (run_order _ _ _ Hm) as Ho. cbn [New m_order app] in Ho.
  unfold Overall. destruct (m_order m) as [|k0 rest] eqn:Eo; [apply unit_0|]. rewrite <- Eo in *. apply (overall_unit (dimension m)).
  - by rewrite Eo.
  - intros k [x Hx]%H2. unfold dimension. rewrite Hx. by eapply H4.
  - rewrite Ho, length_map. exact Hn.
Qed.
(** The names of a run decide whether it succeeds. *)
Definition names_ok (ops : list op) : bool :=
  bool_decide (NoDup (scored ops)) && forallb (λ p : string * float, negb (bool_decide (p.1 = ModelVersionKey)) && negb (has_prefix p.1)) (measured ops).
Lemma run_named name ops : names_ok ops = true → (Z.of_nat (length (scored ops)) < 2 ^ 53)%Z →
  ∃ m, run (New name) ops = Some m ∧ unit_score (Overall m).
Proof.
  unfold names_ok. rewrite andb_true_iff, bool_decide_eq_true, forallb_forall. intros [Hd Hm] Hn.
  assert (Hs : is_Some (run (New name) ops)); [|destruct Hs as [m Hs]; exists m; split; [done|by eapply run_overall]].
  apply ops_run_total; [apply new_ok|]. split_and!.
  - change map with (@fmap list _). apply NoDup_fmap_2; [|done]. intros a b H. by injection H.
  - intros k _. apply not_elem_of_nil.
  - apply Forall_forall. intros p Hp%list_elem_of_In. specialize (Hm p Hp). rewrite andb_true_iff, !negb_true_iff, bool_decide_eq_false in Hm. exact Hm.
Qed.
Lemma run_app ops1 : ∀ ops2 m, run m (ops1 ++ ops2) = run m ops1 ≫= λ m, run m ops2.
Proof. induction ops1 as [|o ops1 IH]; intros ops2 m; cbn [run app]; [done|]. destruct (apply_op m o); cbn [mbind option_bind]; [apply IH|done]. Qed.

(** * Theorems *)

(** A model, whatever was scored and measured: scoring panics exactly when a dimension is scored twice or a measurement takes
    a reserved name; the dimensions are the scored ones in order; every one published is a finite number between zero and one
    whatever was passed for it, and so is the overall score; every other published component is a finite measurement or the
    version. *)
Theorem quality_sound name ops :
  (is_Some (run (New name) ops) ↔ NoDup (map (String.append Prefix_) (scored ops)) ∧ Forall well_named (measured ops)) ∧
  ∀ m, run (New name) ops = Some m → (Z.of_nat (length (scored ops)) < 2 ^ 53)%Z →
    Dimensions m = map (String.append Prefix_) (scored ops) ∧ unit_score (Overall m) ∧
    (∀ k, k ∈ Dimensions m → ∃ x, Components m !! k = Some x ∧ unit_score x) ∧
    (∀ k x, Components m !! k = Some x → k ∉ Dimensions m →
       has_prefix k = false ∧ (k = ModelVersionKey ∧ (∃ v, Version m = Some v ∧ x = f64_of_Z v) ∨ k ≠ ModelVersionKey ∧ finite x = true)).
Proof.
  split.
  { rewrite ops_run_total by apply new_ok. cbn [New m_order]. split; [naive_solver|]. intros [H1 H2]. split_and!; [done| |done]. intros k _. apply not_elem_of_nil. }
  intros m Hm Hn. pose proof (run_ok _ _ _ (new_ok name) Hm) as Hok. pose proof (run_order _ _ _ Hm) as Ho. cbn [New m_order app] in Ho.
  destruct Hok as [H1 H2 H3 H4 H5]. split_and!; [exact Ho| | |].
  - by eapply run_overall.
  - intros k [x Hx]%H2. exists x. split; [|by eapply H4]. unfold Components. by apply lookup_union_Some_l.
  - intros k x Hx Hk. assert (Hd : m_dimensions m !! k = None) by (apply eq_None_not_Some; by rewrite <- H2).
    unfold Components in Hx. rewrite lookup_union_r in Hx by done. unfold version_entry in Hx. destruct (Version m) as [v|] eqn:Ev.
    + apply lookup_union_Some_raw in Hx as [Hx|[Hx1 Hx2]].
      * apply lookup_singleton_Some in Hx as [<- <-]. split; [done|]. left. split; [done|]. by exists v.
      * apply lookup_singleton_None in Hx1. destruct (H5 _ _ Hx2) as (F & Hne & Hp). split; [exact Hp|]. right. split; [exact Hne|exact F].
    + rewrite (left_id_L ∅ (∪)) in Hx. destruct (H5 _ _ Hx) as (F & Hne & Hp). split; [exact Hp|]. right. split; [exact Hne|exact F].
Qed.

(** Every shape a dimension is measured with gives a number between zero and one, whatever it is given: ramps, falls, rooms, wicks
    and close strengths for any arguments, a trapezoid for any finite corners whose flanks have a finite width. *)
Theorem shapes_bounded :
  (∀ x lo hi, unit_score (Ramp x lo hi) ∧ unit_score (Fall x lo hi)) ∧
  (∀ x a b c d, finite a = true → finite d = true → finite (b - a) = true → finite (d - c) = true → unit_score (Peak x a b c d)) ∧
  (∀ reward risk structural, unit_score (Room reward risk structural)) ∧
  (∀ c buy, unit_score (CloseStrength c buy) ∧ unit_score (RejectionWick c buy)) ∧
  (∀ price reference atr, unit_score (LocationScore price reference atr)) ∧
  (∀ buy trend choch aligned, unit_score (StructureScore buy trend choch aligned)) ∧
  ∀ reference invalidation target structural, unit_score (GeometryRoom reference invalidation target structural).1.
Proof.
  assert (Hramp : ∀ x lo hi, unit_score (Ramp x lo hi)) by (intros; unfold Ramp; destruct (_ || _); [apply unit_0|apply unit_clamp]).
  assert (Hfall : ∀ x lo hi, unit_score (Fall x lo hi)).
  { intros x lo hi. unfold Fall. destruct (_ || _); [apply unit_0|]. destruct (unit_clamp ((x - lo) / (hi - lo))) as [F K]. set (c := Clamp01 _) in *.
    assert (N : IsNaN (1 - c) = false) by (by apply sub_not_nan). assert (K' : (0 <= key (1 - c) <= key 1)%Z).
    { split; [|apply sub_nonneg_r; done || lia]. apply Z.nlt_ge. rewrite sub_neg_iff by done. lia. }
    split; [|exact K']. by apply (finite_between 0 1). }
  assert (Hroom : ∀ reward risk structural, unit_score (Room reward risk structural)).
  { intros. unfold Room. destruct (_ || _); [apply unit_0|apply Hramp]. }
  assert (H1 : unit_score 1) by (split; [done|rewrite key_1; split; [apply Z.pow_nonneg; lia|lia]]).
  split_and!; [intros; by split| |done| | | |intros; apply Hroom].
  - intros x a b c d Fa Fd Fba Fdc. unfold Peak. destruct (finite x) eqn:Fx; cbn [negb orb]; [|apply unit_0].
    destruct (_ && _ && _) eqn:Hord; cbn [negb]; [|apply unit_0]. apply andb_true_iff in Hord as [[Hab Hbc]%andb_true_iff Hcd].
    destruct (sub_finite _ _ Fba) as [Fb _]. destruct (sub_finite _ _ Fdc) as [_ Fc].
    destruct (_ || _) eqn:Hout; [apply unit_0|]. apply orb_false_iff in Hout as [Hxa Hxd].
    rewrite leb_num in Hxa, Hxd by eauto with float. rewrite ltb_num in Hab, Hcd by eauto with float. rewrite leb_num in Hbc by eauto with float.
    rewrite ltb_num, leb_num by eauto with float. destruct (Z.ltb_spec (key x) (key b)); [|destruct (Z.leb_spec (key x) (key c)); [done|]].
    + apply quotient_unit; [done|by apply sub_not_nan|apply sub_pos_iff; done || lia|apply sub_mono; done || lia].
    + apply quotient_unit; [done|by apply sub_not_nan|apply sub_pos_iff; done || lia|apply sub_mono; done || lia].
  - intros c buy. unfold CloseStrength, RejectionWick. split; (destruct (negb _); [apply unit_0|]); destruct buy; apply unit_clamp.
  - intros. unfold LocationScore. destruct (_ || _); [apply unit_0|apply Hfall].
  - intros buy trend choch aligned. unfold StructureScore.
    destruct (_ || _); [|destruct (_ && choch); [|destruct (_ || _)]]; destruct aligned; (split; [done|split; vm_compute; discriminate]).
Qed.

Example demo_quality :
  option_map (λ m, (Overall m, Version m, Dimensions m, Components m !! "touches")) (run (New "key_level.quality.v1")
    [OpScore "room" 0.5; OpMeasure "touches" 3; OpScore "rejection" 2; OpScore "structure" nan; OpMeasure "width" nan; OpScore "freshness" 0.5]) =
  Some (0.5%float, Some 1%Z, ["score_room"; "score_rejection"; "score_structure"; "score_freshness"], Some 3%float).
Proof. vm_compute. reflexivity. Qed.
