(* ===== verification/TechniqueBars.v ===== *)
(** Package techniquezone, the readings of the bars: ATR, fractal swings, structure breaks and key levels. *)
From S2P Require Import Prelude Float64 Market.
From Stdlib Require Import Floats.

(** * techniquezone.go: data *)

Record Swing := mkSwing { s_Index : nat; s_Kind : string; s_Price : float; s_Label : string; s_ConfirmedIndex : nat }.
Record Leg := mkLeg { lg_Start : nat; lg_End : nat; lg_Direction : string; lg_Size : float }.
Record Break := mkBreak { bk_Kind : string; bk_Direction : string; bk_Level : float; bk_Index : nat }.
Record Level := mkLevel { l_Price : float; l_Kind : string; l_Touches : Z; l_Band : float; l_Strength : float }.
#[export] Instance Leg_inhabited : Inhabited Leg := populate (mkLeg 0 0 "" 0).

(** * math_utils *)

Definition sum_floats (l : list float) : float := foldl PrimFloat.add 0%float l.
(** The true range of a bar after [prev]'s close. *)
Definition true_range (prev : option Candle) (b : Candle) : float :=
  let r := (c_High b - c_Low b)%float in
  match prev with
  | None => r
  | Some p => math_Max r (math_Max (abs (c_High b - c_Close p)) (abs (c_Low b - c_Close p)))
  end.
Definition true_ranges (bars : list Candle) : list float :=
  imap (λ i b, true_range (if (i =? 0)%nat then None else bars !! (i - 1)%nat) b) bars.
Definition atr_lo (length : Z) (i : nat) : Z := let lo := (Z.of_nat i - length + 1)%Z in if (lo <? 0)%Z then 0%Z else lo.
Definition atr_value (tr : list float) (length : Z) (i : nat) : float :=
  let lo := atr_lo length i in (sum_floats (slice tr (Z.to_nat lo) (S i)) / f64_of_Z (Z.of_nat i - lo + 1))%float.
Definition ATRSeries (bars : list Candle) (length : Z) : list float :=
  map (atr_value (true_ranges bars) length) (seq 0 (List.length bars)).
Definition usable_atr (v fallback : float) : float := if IsNaN v || IsInf v || (v <=? 0)%float then fallback else v.
Definition atrAt (atr : list float) (index : Z) (fallback : float) : float :=
  if (length atr =? 0)%nat then fallback
  else
    let index := if (index <? 0)%Z then 0%Z else index in
    let index := if (index >? Z.of_nat (length atr) - 1)%Z then (Z.of_nat (length atr) - 1)%Z else index in
    usable_atr (nth (Z.to_nat index) atr 0%float) fallback.
Definition sort_floats (l : list float) : list float := sort_slice PrimFloat.ltb l.
Definition ATRScalar (atr : list float) (fallback : float) : float :=
  let clean := sort_floats (List.filter (λ v, negb (IsNaN v)) atr) in
  let n := length clean in
  if (n =? 0)%nat then fallback
  else
    let at_ i := nth i clean 0%float in
    usable_atr (if (n mod 2 =? 1)%nat then at_ (n / 2)%nat else ((at_ (n / 2 - 1)%nat + at_ (n / 2)%nat) / 2)%float) fallback.
Definition bodyFraction (b : Candle) : float :=
  let span := (c_High b - c_Low b)%float in if (span <=? 0)%float then 0%float else (abs (c_Close b - c_Open b) / span)%float.
Definition candleDirection (b : Candle) : string :=
  if (c_Close b >? c_Open b)%float then "up" else if (c_Close b <? c_Open b)%float then "down" else "".

(** * pysum.go: Neumaier's compensated sum *)

Definition py_step (acc : float * float) (x : float) : float * float :=
  let '(result, compensation) := acc in
  let t := (result + x)%float in
  (t, if (abs result >=? abs x)%float then (compensation + ((result - t) + x))%float else (compensation + ((x - t) + result))%float).
Definition pySum (values : list float) : float :=
  let '(result, compensation) := foldl py_step (0%float, 0%float) values in
  if negb (compensation =? 0)%float && negb (IsInf compensation) && negb (IsNaN compensation) then (result + compensation)%float else result.

(** * swings.py *)

Definition range_high (bars : list Candle) (from to_ : nat) : float :=
  foldl (λ m c, if (c_High c >? m)%float then c_High c else m) (c_High (bars !!! from)) (slice bars from to_).
Definition range_low (bars : list Candle) (from to_ : nat) : float :=
  foldl (λ m c, if (c_Low c <? m)%float then c_Low c else m) (c_Low (bars !!! from)) (slice bars from to_).
(** The fractals of bar [i]: a high or a low that no neighbour within [n] bars passes and no earlier one reaches. *)
Definition fractals_at (bars : list Candle) (n i : nat) : list Swing :=
  let high := c_High (bars !!! i) in let low := c_Low (bars !!! i) in let earlier := slice bars (i - n) i in
  (if (high =? range_high bars (i - n) (i + n + 1))%float && forallb (λ c, c_High c <? high)%float earlier
   then [mkSwing i "high" high "" (i + n)] else []) ++
  (if (low =? range_low bars (i - n) (i + n + 1))%float && forallb (λ c, c_Low c >? low)%float earlier
   then [mkSwing i "low" low "" (i + n)] else []).
Definition swing_less (a b : Swing) : bool :=
  if negb (s_Index a =? s_Index b)%nat then (s_Index a <? s_Index b)%nat else str_lt (s_Kind a) (s_Kind b).
(** [asOf] below zero means no cut-off. *)
Definition fractalCandidates (bars : list Candle) (n : nat) (asOf : Z) : list Swing :=
  sort_slice swing_less (flat_map (λ i,
    if (asOf >=? 0)%Z && (Z.of_nat (i + n) >? asOf)%Z then [] else fractals_at bars n i) (seq n (length bars - n - n))).
Definition zigzag_threshold (atr : list float) (pct atrMult : float) (last c : Swing) : float :=
  math_Max (abs (s_Price last) * math_Max 0 pct) (atrAt atr (Z.of_nat (s_Index c)) 0 * math_Max 0 atrMult).
Definition more_extreme (c last : Swing) : bool :=
  (bool_decide (s_Kind c = "high") && (s_Price c >? s_Price last)%float) || (bool_decide (s_Kind c = "low") && (s_Price c <? s_Price last)%float).
(** The confirmed swings, the latest first. *)
Definition zigzag_step (atr : list float) (pct atrMult : float) (confirmed : list Swing) (c : Swing) : list Swing :=
  match confirmed with
  | [] => [c]
  | last :: rest =>
      if bool_decide (s_Kind c = s_Kind last) then (if more_extreme c last then c :: rest else confirmed)
      else if (abs (s_Price c - s_Price last) >=? zigzag_threshold atr pct atrMult last c)%float then c :: confirmed else confirmed
  end.
Definition zigzagFilter (candidates : list Swing) (atr : list float) (pct atrMult : float) : list Swing :=
  reverse (foldl (zigzag_step atr pct atrMult) [] candidates).
Definition with_label (s : Swing) (label : string) : Swing := mkSwing (s_Index s) (s_Kind s) (s_Price s) label (s_ConfirmedIndex s).
Definition higher (price : float) (last : option float) : bool := match last with None => true | Some p => (price >? p)%float end.
Fixpoint label_loop (swings : list Swing) (lastHigh lastLow : option float) : list Swing :=
  match swings with
  | [] => []
  | s :: rest =>
      if bool_decide (s_Kind s = "high")
      then with_label s (if higher (s_Price s) lastHigh then "HH" else "LH") :: label_loop rest (Some (s_Price s)) lastLow
      else with_label s (if higher (s_Price s) lastLow then "HL" else "LL") :: label_loop rest lastHigh (Some (s_Price s))
  end.
Definition labelSwings (swings : list Swing) : list Swing := label_loop swings None None.
(** [atr] is [None] for a nil slice. *)
Definition atr_or (bars : list Candle) (atr : option (list float)) : list float := default (ATRSeries bars 14) atr.
Definition FindSwings (bars : list Candle) (fractalN : nat) (zigzagPct zigzagATRMult : float) (atr : option (list float)) (asOf : Z) : list Swing :=
  if (length bars <? fractalN * 2 + 1)%nat then []
  else labelSwings (zigzagFilter (fractalCandidates bars fractalN asOf) (atr_or bars atr) zigzagPct zigzagATRMult).

(** * structure.py *)

Definition of_kind (kind : string) (swings : list Swing) : list Swing := List.filter (λ s, bool_decide (s_Kind s = kind)) swings.
(** The last two of a list, the latest first. *)
Definition last_two (l : list Swing) : option (Swing * Swing) := match reverse l with a :: b :: _ => Some (a, b) | _ => None end.
Definition has_label (label : string) (swings : list Swing) : bool := existsb (λ s, bool_decide (s_Label s = label)) swings.
Definition label_trend (items : list Swing) : string :=
  let tail := drop (length items - 4) items in
  if has_label "HH" tail && has_label "HL" tail then "up"
  else if has_label "LH" tail && has_label "LL" tail then "down" else "range".
Definition MarketStructure (items : list Swing) : string :=
  match last_two (of_kind "high" items), last_two (of_kind "low" items) with
  | Some (h1, h2), Some (l1, l2) =>
      if (s_Price h1 >? s_Price h2)%float && (s_Price l1 >? s_Price l2)%float then "up"
      else if (s_Price h1 <? s_Price h2)%float && (s_Price l1 <? s_Price l2)%float then "down"
      else label_trend items
  | _, _ => label_trend items
  end.
Definition breakKind (trend direction : string) : string :=
  if bool_decide (trend = "up") || bool_decide (trend = "down") then (if bool_decide (trend = direction) then "BOS" else "CHoCH") else "BOS".
Definition lastOfKind (prior : list Swing) (kind : string) : option Swing := last (of_kind kind prior).
(** The levels broken so far, a map keyed by direction and price: a NaN key is never found again. *)
Definition brokenKey : Type := string * float.
Definition already (broken : list brokenKey) (key : brokenKey) : bool :=
  existsb (λ k, bool_decide (k.1 = key.1) && (k.2 =? key.2)%float) broken.
Definition emit_one (prior : list Swing) (trend direction kind : string) (beyond : float → bool) (i : nat) (state : list brokenKey * list Break) :
    list brokenKey * list Break :=
  match lastOfKind prior kind with
  | None => state
  | Some s =>
      let key := (direction, s_Price s) in
      if beyond (s_Price s) && negb (already state.1 key)
      then (key :: state.1, state.2 ++ [mkBreak (breakKind trend direction) direction (s_Price s) i]) else state
  end.
Definition emitBreaks (prior : list Swing) (trend : string) (close : float) (i : nat) (state : list brokenKey * list Break) : list brokenKey * list Break :=
  emit_one prior trend "down" "low" (λ p, close <? p)%float i (emit_one prior trend "up" "high" (λ p, close >? p)%float i state).
Definition prior_to (swings : list Swing) (i : nat) : list Swing := List.filter (λ s, s_Index s <? i)%nat swings.
Definition breaksLookahead (swings : list Swing) (bars : list Candle) : list Break :=
  let trend := MarketStructure swings in
  snd (foldl (λ state p, emitBreaks (prior_to swings p.1) trend (c_Close p.2) p.1 state) ([], []) (imap pair bars)).
(** The loop over the confirmation pointer: the swings confirmed at bar [i], and the rest. *)
Fixpoint confirm_upto (ordered : list Swing) (fractalN i : nat) (confirmed : list Swing) : list Swing * list Swing :=
  match ordered with
  | [] => (confirmed, [])
  | s :: rest => if (s_Index s + fractalN <=? i)%nat then confirm_upto rest fractalN i (confirmed ++ [s]) else (confirmed, ordered)
  end.
Definition causal_step (fractalN : nat) (state : (list Swing * list Swing) * (list brokenKey * list Break)) (p : nat * Candle) :
    (list Swing * list Swing) * (list brokenKey * list Break) :=
  let '((confirmed, ordered), breaks) := state in
  let '(confirmed, ordered) := confirm_upto ordered fractalN p.1 confirmed in
  let prior := prior_to confirmed p.1 in
  ((confirmed, ordered), emitBreaks prior (MarketStructure prior) (c_Close p.2) p.1 breaks).
Definition by_index (a b : Swing) : bool := (s_Index a <? s_Index b)%nat.
Definition breaksCausal (swings : list Swing) (bars : list Candle) (fractalN : nat) : list Break :=
  let ordered := sort_slice by_index swings in
  snd (snd (foldl (causal_step fractalN) (([], ordered), ([], [])) (imap pair bars))).
Definition StructureBreaks (swings : list Swing) (bars : list Candle) (causal : bool) (fractalN : nat) : list Break :=
  if negb causal then breaksLookahead swings bars else breaksCausal swings bars fractalN.

(** * levels.py *)

Definition canJoinCluster (cluster : list Swing) (s : Swing) (tolerance maxSpan : float) : bool :=
  let '(lo, hi) := foldl (λ '(lo, hi) c, (math_Min lo (s_Price c), math_Max hi (s_Price c))) (s_Price s, s_Price s) cluster in
  if (hi - lo >? maxSpan)%float then false else forallb (λ c, abs (s_Price c - s_Price s) <=? tolerance)%float cluster.
Definition cluster_step (tolerance maxSpan : float) (clusters : list (list Swing)) (s : Swing) : list (list Swing) :=
  match last clusters with
  | Some c => if canJoinCluster c s tolerance maxSpan then take (length clusters - 1) clusters ++ [c ++ [s]] else clusters ++ [[s]]
  | None => clusters ++ [[s]]
  end.
Definition priceClusters (swings : list Swing) (tolerance maxSpanMultiple : float) : list (list Swing) :=
  foldl (cluster_step tolerance (tolerance * math_Max 0 maxSpanMultiple)) [] (sort_slice (λ a b, s_Price a <? s_Price b)%float swings).
Definition round_touches (swings : list Swing) (atr : list float) (price tolerance : float) : Z :=
  Z.of_nat (length (List.filter (λ s, abs (s_Price s - price) <=? math_Max tolerance (atrAt atr (Z.of_nat (s_Index s)) 1 * 0.25))%float swings)).
Definition roundLevels (swings : list Swing) (atr : list float) (step tolerance : float) (minTouches : Z) : list Level :=
  match swings with
  | [] => []
  | s0 :: _ =>
      if (step <=? 0)%float then []
      else
        let '(lo, hi) := foldl (λ '(lo, hi) s, (math_Min lo (s_Price s), math_Max hi (s_Price s))) (s_Price s0, s_Price s0) swings in
        let low := (math_Floor (lo / step) * step)%float in let high := (math_Ceil (hi / step) * step)%float in
        let steps := wrap64 (f64_to_int64 ((high - low) / step)%float + 1) in
        omap (λ k,
          let price := (low + f64_of_Z k * step)%float in let touches := round_touches swings atr price tolerance in
          if (touches >=? minTouches)%Z then Some (mkLevel price "round" touches tolerance (f64_of_Z touches)) else None)
          (seqZ 0 steps)
  end.
Definition wick_touched (lo hi : float) (b : Candle) : bool :=
  let touched := (c_Low b <=? hi)%float && (c_High b >=? lo)%float in
  if touched then
    if (c_Open b >? hi)%float && (c_Close b <? lo)%float then false
    else if (c_Open b <? lo)%float && (c_Close b >? hi)%float then false else touched
  else touched.
(** The episodes so far, and whether the last bar touched. *)
Definition episode_step (touched : Candle → bool) (acc : Z * bool) (b : Candle) : Z * bool :=
  ((if touched b && negb acc.2 then acc.1 + 1 else acc.1)%Z, touched b).
Definition wickTouchEpisodes (bars : list Candle) (price band : float) : Z :=
  if (length bars =? 0)%nat || (band <? 0)%float then 0%Z
  else fst (foldl (episode_step (wick_touched (price - band) (price + band))) (0%Z, false) bars).
Definition withWickTouches (l : Level) (bars : list Candle) (tolerance : float) : Level :=
  let band := math_Max (l_Band l) tolerance in
  let episodes := wickTouchEpisodes bars (l_Price l) band in
  if (episodes <=? l_Touches l)%Z then l
  else mkLevel (l_Price l) (l_Kind l) episodes (l_Band l) (math_Max (l_Strength l) (f64_of_Z episodes)).
Definition reaction_level (tolerance : float) (c : list Swing) : Level :=
  let n := Z.of_nat (length c) in mkLevel (pySum (map s_Price c) / f64_of_Z n) "reaction" n tolerance (f64_of_Z n).
Definition merge_levels (prev l : Level) : Level :=
  mkLevel ((l_Price prev + l_Price l) / 2) (if (l_Touches prev >=? l_Touches l)%Z then l_Kind prev else l_Kind l)
    (Z.max (l_Touches prev) (l_Touches l)) (math_Max (l_Band prev) (l_Band l)) (math_Max (l_Strength prev) (l_Strength l)).
Definition dedupe_step (tolerance : float) (deduped : list Level) (l : Level) : list Level :=
  match last deduped with
  | Some prev =>
      if (abs (l_Price prev - l_Price l) <=? math_Max (l_Band l) tolerance)%float
      then take (length deduped - 1) deduped ++ [merge_levels prev l] else deduped ++ [l]
  | None => deduped ++ [l]
  end.
Definition KeyLevels (swings : list Swing) (atr : list float) (clusterATR roundStep : float) (minTouches : Z) (maxSpanMultiple : float)
    (bars : list Candle) : list Level :=
  let tolerance := (ATRScalar atr 1 * math_Max 0 clusterATR)%float in
  let clusters := List.filter (λ c : list Swing, Z.of_nat (length c) >=? minTouches)%Z (priceClusters swings tolerance maxSpanMultiple) in
  let levels := map (reaction_level tolerance) clusters ++ roundLevels swings atr roundStep tolerance minTouches in
  let deduped := foldl (dedupe_step tolerance) [] (sort_slice (λ a b, l_Price a <? l_Price b)%float levels) in
  if (0 <? length bars)%nat then map (λ l, withWickTouches l bars tolerance) deduped else deduped.

(** * Lemmas *)

Lemma length_true_ranges bars : length (true_ranges bars) = length bars.
Proof. apply length_imap. Qed.
Lemma true_ranges_take bars k : true_ranges (take k bars) = take k (true_ranges bars).
Proof.
  apply list_eq. intros i. unfold true_ranges. rewrite list_lookup_imap. destruct (decide (i < k)%nat) as [Hi|Hi].
  - rewrite !lookup_take_lt, list_lookup_imap by lia. done.
  - rewrite (lookup_take_ge bars k i), (lookup_take_ge (imap _ _) k i) by lia. done.
Qed.
Lemma ATRSeries_take bars length_ k : ATRSeries (take k bars) length_ = take k (ATRSeries bars length_).
Proof.
  unfold ATRSeries. rewrite length_take. replace (seq 0 (k `min` length bars)) with (take k (seq 0 (length bars))) by (by rewrite take_seq).
  change map with (@fmap list _). rewrite <- fmap_take. apply list_fmap_ext. intros j i Hj. apply lookup_take_Some in Hj as [Hj Hk].
  apply lookup_seq in Hj as [-> Hj]. cbn. unfold atr_value. rewrite true_ranges_take, slice_take by lia. done.
Qed.
Lemma length_ATRSeries bars length_ : length (ATRSeries bars length_) = length bars.
Proof. unfold ATRSeries. by rewrite length_map, length_seq. Qed.

Lemma bars_atrAt_take atr k i fallback : (i < k)%nat → (k <= length atr)%nat → atrAt (take k atr) (Z.of_nat i) fallback = atrAt atr (Z.of_nat i) fallback.
Proof.
  intros Hi Hk. unfold atrAt. rewrite length_take, Nat.min_l by lia. destruct (Nat.eqb_spec k 0); [lia|].
  destruct (Nat.eqb_spec (length atr) 0); [lia|]. destruct (Z.ltb_spec (Z.of_nat i) 0); [lia|].
  destruct (Z.gtb_spec (Z.of_nat i) (Z.of_nat k - 1)); [lia|]. destruct (Z.gtb_spec (Z.of_nat i) (Z.of_nat (length atr) - 1)); [lia|].
  f_equal. rewrite Nat2Z.id. rewrite !nth_lookup, lookup_take_lt by done. done.
Qed.

Lemma fractals_at_take bars k n i : (i + n < k)%nat → (k <= length bars)%nat → fractals_at (take k bars) n i = fractals_at bars n i.
Proof.
  intros Hi Hk. unfold fractals_at, range_high, range_low. rewrite !slice_take, !lookup_total_take by lia. done.
Qed.
Lemma fractals_index bars n i s : s ∈ fractals_at bars n i → s_Index s = i.
Proof.
  unfold fractals_at. intros [H|H]%elem_of_app; revert H; destruct (_ && _); intros H; try (by apply not_elem_of_nil in H);
    by apply list_elem_of_singleton in H as ->.
Qed.
Lemma candidates_take bars n k :
  (k <= length bars)%nat → fractalCandidates bars n (Z.of_nat k - 1) = fractalCandidates (take k bars) n (-1) ∨ k = 0%nat.
Proof.
  intros Hk. destruct (decide (k = 0%nat)) as [|Hk0]; [by right|left]. unfold fractalCandidates. f_equal.
  rewrite length_take, Nat.min_l by done. set (m := (k - n - n)%nat).
  replace (length bars - n - n)%nat with (m + (length bars - n - n - m))%nat by lia.
  rewrite seq_app, flat_map_app. etrans; [|apply app_nil_r]. f_equal.
  - rewrite !flat_map_concat_map. f_equal. apply map_ext_in. intros i Hi%in_seq.
    destruct (Z.geb_spec (Z.of_nat k - 1) 0); [|lia]. cbn [andb Z.geb Z.compare].
    destruct (Z.gtb_spec (Z.of_nat (i + n)) (Z.of_nat k - 1)); [lia|]. by rewrite fractals_at_take by lia.
  - rewrite flat_map_concat_map. apply concat_nil_Forall. apply Forall_map, Forall_forall. intros i Hi%list_elem_of_In%in_seq. cbn [compose].
    destruct (Z.geb_spec (Z.of_nat k - 1) 0); [|lia]. cbn [andb].
    destruct (Z.gtb_spec (Z.of_nat (i + n)) (Z.of_nat k - 1)); [done|lia].
Qed.

(** The zigzag reads the ATR at the candidates only. *)
Lemma zigzagFilter_ext candidates atr atr' pct atrMult :
  (∀ s, s ∈ candidates → atrAt atr (Z.of_nat (s_Index s)) 0 = atrAt atr' (Z.of_nat (s_Index s)) 0) →
  zigzagFilter candidates atr pct atrMult = zigzagFilter candidates atr' pct atrMult.
Proof.
  intros He. unfold zigzagFilter. f_equal. generalize (@nil Swing).
  induction candidates as [|c candidates IH]; intros acc; cbn; [done|].
  assert (E : zigzag_step atr pct atrMult acc c = zigzag_step atr' pct atrMult acc c).
  { unfold zigzag_step, zigzag_threshold. destruct acc; [done|]. by rewrite (He c) by (by left). }
  rewrite E. apply IH. intros s Hs. apply He. by right.
Qed.
Lemma candidates_index bars n asOf s : s ∈ fractalCandidates bars n asOf → (n <= s_Index s)%nat ∧ (s_Index s + n < length bars)%nat.
Proof.
  unfold fractalCandidates. rewrite sort_slice_perm, list_elem_of_In, in_flat_map. intros (i & Hi%in_seq & Hs).
  destruct (_ && _); [done|]. apply list_elem_of_In, fractals_index in Hs as ->. lia.
Qed.

(** What the zigzag and the labels keep of a list of swings. *)
Lemma labels_erased swings h l :
  map (λ s, (s_Index s, s_Kind s, s_Price s)) (label_loop swings h l) = map (λ s, (s_Index s, s_Kind s, s_Price s)) swings.
Proof. revert h l. induction swings as [|s swings IH]; intros h l; cbn; [done|]. case_bool_decide; cbn; by rewrite IH. Qed.
Definition alternating (kinds : list string) : Prop := ∀ i a b, kinds !! i = Some a → kinds !! S i = Some b → a ≠ b.
Lemma alternating_cons k l : alternating l → (∀ x, head l = Some x → k ≠ x) → alternating (k :: l).
Proof.
  intros Hl Hk [|i] a b; cbn; [intros [= <-] Hb; apply Hk; by destruct l|apply Hl].
Qed.
Lemma alternating_reverse l : alternating l → alternating (reverse l).
Proof.
  intros Hl i a b Ha Hb. pose proof (lookup_lt_Some _ _ _ Hb) as Hlt. rewrite length_reverse in Hlt.
  rewrite reverse_lookup in Ha, Hb by lia. intros E. apply (Hl _ _ _ Hb) with (2 := eq_sym E).
  by replace (S (length l - S (S i))) with (length l - S i)%nat by lia.
Qed.
Lemma zigzag_alternates candidates atr pct atrMult : alternating (map s_Kind (zigzagFilter candidates atr pct atrMult)).
Proof.
  unfold zigzagFilter. change map with (@fmap list _). rewrite fmap_reverse. apply alternating_reverse.
  assert (H0 : alternating (s_Kind <$> @nil Swing)) by done. revert H0. generalize (@nil Swing).
  induction candidates as [|c candidates IH]; intros acc Hacc; cbn [foldl]; [done|]. apply IH. unfold zigzag_step.
  destruct acc as [|lst rest]; [by intros [|i] a b; cbn|].
  assert (Hr : alternating (s_Kind <$> rest) ∧ ∀ x, head (s_Kind <$> rest) = Some x → s_Kind lst ≠ x).
  { split; [intros i a b Ha Hb; by apply (Hacc (S i))|]. intros x Hx. apply (Hacc 0%nat); [done|]. by destruct rest. }
  case_bool_decide as E.
  - destruct (more_extreme c lst); [|done]. rewrite fmap_cons. apply alternating_cons; [apply Hr|]. rewrite E. apply Hr.
  - destruct (_ <=? _)%float; [|done]. rewrite fmap_cons. apply alternating_cons; [done|]. cbn. by intros x [= <-].
Qed.
Lemma zigzag_subset candidates atr pct atrMult s : s ∈ zigzagFilter candidates atr pct atrMult → s ∈ candidates.
Proof.
  unfold zigzagFilter. rewrite elem_of_reverse.
  cut (∀ acc, s ∈ foldl (zigzag_step atr pct atrMult) acc candidates → s ∈ acc ∨ s ∈ candidates).
  { intros H Hs. destruct (H [] Hs) as [?%not_elem_of_nil|]; done. }
  induction candidates as [|c candidates IH]; intros acc; cbn [foldl]; [by left|]. intros [Hs|]%IH; [|right; by right].
  assert (s ∈ c :: acc) as [->|]%elem_of_cons; [|right; by left|by left].
  revert Hs. unfold zigzag_step. destruct acc as [|lst rest]; [done|].
  case_bool_decide; [destruct (more_extreme c lst)|destruct (_ <=? _)%float]; set_solver.
Qed.

(** A running maximum that is a number is passed by no element. *)
Lemma fold_max_spec (f : Candle → float) l m :
  let r := foldl (λ m c, if (f c >? m)%float then f c else m) m l in
  IsNaN r = false → IsNaN m = false ∧ (key m <= key r)%Z ∧ ∀ c, c ∈ l → (f c >? r)%float = false.
Proof.
  cbv zeta. revert m. induction l as [|c l IH]; intros m; cbn [foldl]; intros Hr; [split_and!; [done|done|by intros c ?%not_elem_of_nil]|].
  destruct (IH _ Hr) as (Nm & Km & Hl). clear IH. rewrite ltb_key in *.
  destruct (IsNaN m) eqn:M; [exfalso; cbn -[IsNaN] in Nm; congruence|]. destruct (IsNaN (f c)) eqn:C; cbn [negb andb] in *.
  - split_and!; [done|done|]. intros x [->|Hx]%elem_of_cons; [|by apply Hl]. rewrite ltb_key, C. by rewrite andb_false_r.
  - destruct (Z.ltb_spec (key m) (key (f c))).
    + split_and!; [done|lia|]. intros x [->|Hx]%elem_of_cons; [|by apply Hl]. rewrite ltb_num by done. lia.
    + split_and!; [done|lia|]. intros x [->|Hx]%elem_of_cons; [|by apply Hl]. rewrite ltb_num by done. lia.
Qed.
Lemma fold_min_spec (f : Candle → float) l m :
  let r := foldl (λ m c, if (f c <? m)%float then f c else m) m l in
  IsNaN r = false → IsNaN m = false ∧ (key r <= key m)%Z ∧ ∀ c, c ∈ l → (f c <? r)%float = false.
Proof.
  cbv zeta. revert m. induction l as [|c l IH]; intros m; cbn [foldl]; intros Hr; [split_and!; [done|done|by intros c ?%not_elem_of_nil]|].
  destruct (IH _ Hr) as (Nm & Km & Hl). clear IH. rewrite ltb_key in *.
  destruct (IsNaN m) eqn:M; [exfalso; rewrite andb_false_r in Nm; cbn -[IsNaN] in Nm; congruence|]. destruct (IsNaN (f c)) eqn:C; cbn [negb andb] in *.
  - split_and!; [done|done|]. intros x [->|Hx]%elem_of_cons; [|by apply Hl]. by rewrite ltb_key, C.
  - destruct (Z.ltb_spec (key (f c)) (key m)).
    + split_and!; [done|lia|]. intros x [->|Hx]%elem_of_cons; [|by apply Hl]. rewrite ltb_num by done. lia.
    + split_and!; [done|lia|]. intros x [->|Hx]%elem_of_cons; [|by apply Hl]. rewrite ltb_num by done. lia.
Qed.

(** A swing of the bars: the extreme of its neighbourhood, the first to reach it, known [n] bars later. *)
Definition fractal (bars : list Candle) (n : nat) (s : Swing) : Prop :=
  (n <= s_Index s)%nat ∧ (s_ConfirmedIndex s = s_Index s + n)%nat ∧ (s_ConfirmedIndex s < length bars)%nat ∧
  ((s_Kind s = "high" ∧ s_Price s = c_High (bars !!! s_Index s) ∧
    (∀ c, c ∈ slice bars (s_Index s - n) (s_Index s + n + 1) → (c_High c >? s_Price s)%float = false) ∧
    (∀ c, c ∈ slice bars (s_Index s - n) (s_Index s) → (c_High c <? s_Price s)%float = true)) ∨
   (s_Kind s = "low" ∧ s_Price s = c_Low (bars !!! s_Index s) ∧
    (∀ c, c ∈ slice bars (s_Index s - n) (s_Index s + n + 1) → (c_Low c <? s_Price s)%float = false) ∧
    (∀ c, c ∈ slice bars (s_Index s - n) (s_Index s) → (c_Low c >? s_Price s)%float = true))).
Lemma eqb_not_nan_r x y : (x =? y)%float = true → IsNaN x = false ∧ IsNaN y = false ∧ key x = key y.
Proof. rewrite eqb_key. destruct (IsNaN x), (IsNaN y); cbn; try done. by intros ->%Z.eqb_eq. Qed.
Lemma not_above_eq x y z : (x =? y)%float = true → (z >? y)%float = false → (z >? x)%float = false.
Proof. intros (Nx & Ny & E)%eqb_not_nan_r. rewrite !ltb_key, Nx, Ny, E. done. Qed.
Lemma not_below_eq x y z : (x =? y)%float = true → (z <? y)%float = false → (z <? x)%float = false.
Proof. intros (Nx & Ny & E)%eqb_not_nan_r. rewrite !ltb_key, Nx, Ny, E. done. Qed.
Lemma candidates_fractal bars n asOf s :
  s ∈ fractalCandidates bars n asOf → fractal bars n s ∧ ((0 <= asOf)%Z → (Z.of_nat (s_ConfirmedIndex s) <= asOf)%Z).
Proof.
  intros Hs. pose proof (candidates_index _ _ _ _ Hs) as [Hlo Hhi]. revert Hs. unfold fractalCandidates.
  rewrite sort_slice_perm, list_elem_of_In, in_flat_map. intros (i & Hi%in_seq & Hs).
  destruct (_ && _) eqn:G; [done|]. apply list_elem_of_In in Hs. pose proof (fractals_index _ _ _ _ Hs) as Ei. rewrite <- Ei in *. clear Ei i.
  assert (Hc : s_ConfirmedIndex s = (s_Index s + n)%nat).
  { revert Hs. unfold fractals_at. by intros [[_ ->]%elem_of_when|[_ ->]%elem_of_when]%elem_of_app. }
  split; [|intros Ha; rewrite Hc; apply andb_false_iff in G as [G|G]; [rewrite Z.geb_leb in G; apply Z.leb_gt in G|rewrite Z.gtb_ltb in G; apply Z.ltb_ge in G]; lia].
  split; [done|]. split; [done|]. split; [lia|]. revert Hs. unfold fractals_at. intros [H|H]%elem_of_app; [left|right].
  - apply elem_of_when in H as [[B1 B2]%andb_true_iff H].
    assert (Ek : s_Kind s = "high") by by rewrite H. assert (Ep : s_Price s = c_High (bars !!! s_Index s)) by by rewrite H at 1.
    split; [done|]. split; [done|]. rewrite Ep. unfold range_high in B1. pose proof (eqb_not_nan_r _ _ B1) as (_ & Nr & _).
    split; [|intros c Hc'; rewrite forallb_forall in B2; by apply B2, list_elem_of_In].
    intros c Hc'. destruct (fold_max_spec c_High _ _ Nr) as (_ & _ & Hm). eapply not_above_eq; [exact B1|by apply Hm].
  - apply elem_of_when in H as [[B1 B2]%andb_true_iff H].
    assert (Ek : s_Kind s = "low") by by rewrite H. assert (Ep : s_Price s = c_Low (bars !!! s_Index s)) by by rewrite H at 1.
    split; [done|]. split; [done|]. rewrite Ep. unfold range_low in B1. pose proof (eqb_not_nan_r _ _ B1) as (_ & Nr & _).
    split; [|intros c Hc'; rewrite forallb_forall in B2; by apply B2, list_elem_of_In].
    intros c Hc'. destruct (fold_min_spec c_Low _ _ Nr) as (_ & _ & Hm). eapply not_below_eq; [exact B1|by apply Hm].
Qed.

(** Insertion sort on indices commutes with a filter. *)
#[local] Arguments by_index : simpl never.
Lemma by_index_sorted l : StronglySorted (λ a b, by_index b a = false) (sort_slice by_index l).
Proof.
  apply (sort_slice_sorted by_index (λ _, True)); unfold by_index; [|intros x y z _ _ _|by apply Forall_true].
  - intros x y _ _. destruct (Nat.ltb_spec (s_Index x) (s_Index y)), (Nat.ltb_spec (s_Index y) (s_Index x)); done || lia.
  - rewrite !Nat.ltb_ge. lia.
Qed.
Lemma insert_filter (Q : Swing → bool) x l :
  StronglySorted (λ a b, by_index b a = false) l → List.filter Q (sort_insert by_index x l) = (if Q x then sort_insert by_index x (List.filter Q l) else List.filter Q l).
Proof.
  induction 1 as [|y l Hs IH Hf]; cbn; [done|]. destruct (by_index y x) eqn:E; cbn; rewrite ?IH.
  - destruct (Q x), (Q y); cbn; rewrite ?E; done.
  - destruct (Q x); [|done]. destruct (Q y) eqn:Qy; cbn; [by rewrite E|].
    destruct (List.filter Q l) as [|z r] eqn:F; [done|]. cbn.
    assert (Hz : z ∈ List.filter Q l) by (rewrite F; by left). apply list_elem_of_In, filter_In in Hz as [Hz%list_elem_of_In _].
    rewrite Forall_forall in Hf. specialize (Hf z Hz). unfold by_index in *. rewrite Nat.ltb_ge in *.
    destruct (Nat.ltb_spec (s_Index z) (s_Index x)); [lia|done].
Qed.
Lemma sort_filter (Q : Swing → bool) l : List.filter Q (sort_slice by_index l) = sort_slice by_index (List.filter Q l).
Proof.
  induction l as [|x l IH]; [done|]. cbn [sort_slice foldr List.filter]. fold (sort_slice by_index l).
  rewrite insert_filter by apply by_index_sorted. rewrite IH. by destruct (Q x).
Qed.

(** Up to bar [k] the loop reads the swings confirmed by then only. *)
Lemma confirm_upto_filter n k i o c :
  StronglySorted (λ a b, by_index b a = false) o → (i < k)%nat →
  confirm_upto (List.filter (λ s, s_Index s + n <? k)%nat o) n i c =
    ((confirm_upto o n i c).1, List.filter (λ s, s_Index s + n <? k)%nat (confirm_upto o n i c).2) ∧
  StronglySorted (λ a b, by_index b a = false) (confirm_upto o n i c).2.
Proof.
  intros Ho Hi. revert c. induction Ho as [|s o Ho IH Hf]; intros c; [split; [done|constructor]|]. cbn [confirm_upto].
  destruct (Nat.leb_spec (s_Index s + n) i).
  - cbn [List.filter]. destruct (Nat.ltb_spec (s_Index s + n) k); [|lia]. cbn [confirm_upto].
    destruct (Nat.leb_spec (s_Index s + n) i); [apply IH|lia].
  - split; [|cbn; by constructor]. cbn [fst snd List.filter]. destruct (Nat.ltb_spec (s_Index s + n) k).
    + cbn [confirm_upto]. destruct (Nat.leb_spec (s_Index s + n) i); [lia|done].
    + replace (List.filter _ o) with (@nil Swing); [done|]. symmetry. apply filter_Forall_false. eapply Forall_impl; [exact Hf|].
      intros y Hy. apply Nat.ltb_ge in Hy. apply Nat.ltb_ge. lia.
Qed.
Lemma causal_filter n k ps : ∀ c o b, StronglySorted (λ a b, by_index b a = false) o → Forall (λ p : nat * Candle, (p.1 < k)%nat) ps →
  (foldl (causal_step n) ((c, List.filter (λ s, s_Index s + n <? k)%nat o), b) ps).2 = (foldl (causal_step n) ((c, o), b) ps).2.
Proof.
  induction ps as [|p ps IH]; intros c o b Ho Hps; [done|]. apply Forall_cons in Hps as [Hp Hps]. cbn [foldl].
  unfold causal_step at 2 4. destruct (confirm_upto_filter n k p.1 o c Ho Hp) as [E S]. rewrite E.
  destruct (confirm_upto o n p.1 c) as [c' o']. cbn [fst snd] in *. by apply IH.
Qed.

(** One bar appends breaks of that bar only. *)
Lemma causal_step_appends n st p : ∃ bs, (causal_step n st p).2.2 = st.2.2 ++ bs ∧ Forall (λ b, bk_Index b = p.1) bs.
Proof.
  destruct st as [[c o] [br out]]. unfold causal_step. destruct (confirm_upto o n p.1 c) as [c' o']. cbn [snd].
  set (prior := prior_to c' p.1). unfold emitBreaks.
  assert (H : ∀ d k f br out, ∃ bs, (emit_one prior (MarketStructure prior) d k f p.1 (br, out)).2 = out ++ bs ∧ Forall (λ b, bk_Index b = p.1) bs).
  { intros d k f br' out'. unfold emit_one. destruct (lastOfKind prior k) as [s|]; [|exists []; by rewrite app_nil_r].
    destruct (_ && _); [|exists []; by rewrite app_nil_r]. eexists. split; [done|by apply Forall_singleton]. }
  destruct (H "up" "high" (λ q, c_Close p.2 >? q)%float br out) as (b1 & E1 & F1).
  destruct (emit_one _ _ "up" _ _ _ _) as [br1 out1]. cbn in E1. subst out1.
  destruct (H "down" "low" (λ q, c_Close p.2 <? q)%float br1 (out ++ b1)) as (b2 & E2 & F2).
  exists (b1 ++ b2). rewrite E2, app_assoc. split; [done|by apply Forall_app].
Qed.
Lemma causal_loop_appends n (Q : nat → Prop) ps : Forall (λ p : nat * Candle, Q p.1) ps → ∀ st,
  ∃ bs, (foldl (causal_step n) st ps).2.2 = st.2.2 ++ bs ∧ Forall (λ b, Q (bk_Index b)) bs.
Proof.
  induction 1 as [|p ps Hp Hps IH]; intros st; cbn [foldl]; [exists []; by rewrite app_nil_r|].
  destruct (causal_step_appends n st p) as (b1 & E1 & F1). destruct (IH (causal_step n st p)) as (b2 & E2 & F2).
  exists (b1 ++ b2). rewrite E2, E1, app_assoc. split; [done|]. apply Forall_app. split; [|done].
  eapply Forall_impl; [exact F1|]. by intros b ->.
Qed.
Lemma imap_pair_bounds {A} (l : list A) (f : nat → nat) : Forall (λ p : nat * A, ∃ i, p.1 = f i ∧ (i < length l)%nat) (imap (λ i, pair (f i)) l).
Proof.
  apply Forall_lookup. intros i p. rewrite list_lookup_imap. intros (x & Hx & ->)%fmap_Some. exists i. split; [done|].
  by eapply lookup_lt_Some.
Qed.

(** * Theorems *)

Definition demo_zig (t : Z) (low high : float) : Candle := mkCandle t low high low high 1.
Definition demo_zigzag : list Candle :=
  [demo_zig 1 10 11; demo_zig 2 12 13; demo_zig 3 11 12; demo_zig 4 14 15; demo_zig 5 13 14; demo_zig 6 12 13; demo_zig 7 8 9].

(** The technique swings never look ahead: with a cut-off they are exactly the swings of the bars up to it, judged with the
    ATR of those bars, whatever came later; with or without one, each is a fractal extreme, known once its neighbourhood has
    closed, and highs and lows alternate. *)
Theorem technique_swings_causal bars n pct mult length_ k :
  (0 < k <= length bars)%nat →
  let atr := Some (ATRSeries bars length_) in
  FindSwings bars n pct mult atr (Z.of_nat k - 1) = FindSwings (take k bars) n pct mult (Some (ATRSeries (take k bars) length_)) (-1) ∧
  ∀ asOf, alternating (map s_Kind (FindSwings bars n pct mult atr asOf)) ∧
    Forall (λ s, fractal bars n s ∧ ((0 <= asOf)%Z → (Z.of_nat (s_ConfirmedIndex s) <= asOf)%Z)) (FindSwings bars n pct mult atr asOf).
Proof.
  intros Hk atr. split.
  - unfold FindSwings, atr. cbn [atr_or default]. rewrite ATRSeries_take, length_take, Nat.min_l by lia.
    destruct (candidates_take bars n k) as [E|]; [lia| |lia].
    destruct (Nat.ltb_spec (length bars) (n * 2 + 1)), (Nat.ltb_spec k (n * 2 + 1)); [done|lia| |].
    + rewrite E. unfold fractalCandidates. rewrite length_take, Nat.min_l by lia. by replace (k - n - n)%nat with 0%nat by lia.
    + rewrite E. unfold labelSwings. f_equal. apply zigzagFilter_ext. intros s Hs%candidates_index. rewrite length_take in Hs.
      cbn. rewrite bars_atrAt_take; [done|lia|rewrite length_ATRSeries; lia].
  - intros asOf. unfold FindSwings. destruct (_ <? _)%nat; [split; [done|by apply Forall_nil]|]. unfold labelSwings.
    set (z := zigzagFilter _ _ _ _). pose proof (labels_erased z None None) as He. split.
    + replace (map s_Kind (label_loop z None None)) with (map s_Kind z); [apply zigzag_alternates|].
      apply (f_equal (map (λ p : nat * string * float, p.1.2))) in He. rewrite !map_map in He. by symmetry.
    + assert (Hz : Forall (λ s, fractal bars n s ∧ ((0 <= asOf)%Z → (Z.of_nat (s_ConfirmedIndex s) <= asOf)%Z)) z).
      { apply Forall_forall. intros s Hs%zigzag_subset. by apply candidates_fractal. }
      clearbody z. clear He. generalize (@None float) at 1. generalize (@None float).
      induction Hz as [|s z Hs Hz IH]; intros h l; cbn [label_loop]; [by apply Forall_nil|].
      case_bool_decide; apply Forall_cons; (split; [exact Hs|apply IH]).
Qed.
Lemma technique_swings_causal_witness :
  ∃ bars, map s_Label (FindSwings bars 1 0 0 (Some (ATRSeries bars 14)) 5) = ["HH"; "HL"; "HH"] ∧
    FindSwings bars 1 0 0 (Some (ATRSeries bars 14)) 5 = FindSwings (take 6 bars) 1 0 0 (Some (ATRSeries (take 6 bars) 14)) (-1).
Proof.
  exists demo_zigzag. split; [vm_compute; reflexivity|].
  apply (technique_swings_causal demo_zigzag 1 0 0 14 6). split; apply Nat.ltb_lt; reflexivity.
Defined.

(** The causal structure breaks never look ahead: the breaks up to bar [k] are those found from the first [k] bars and the
    swings confirmed within them. *)
Theorem technique_breaks_stable swings bars n k :
  List.filter (λ b, bk_Index b <? k)%nat (StructureBreaks swings bars true n) =
    StructureBreaks (List.filter (λ s, s_Index s + n <? k)%nat swings) (take k bars) true n.
Proof.
  unfold StructureBreaks, breaksCausal. cbn [negb]. rewrite <- sort_filter.
  rewrite <- (take_drop k bars) at 1. rewrite imap_app, foldl_app.
  rewrite (causal_filter n k); [|apply by_index_sorted|].
  2: { eapply Forall_impl; [apply (imap_pair_bounds (take k bars) id)|]. intros p (i & -> & Hi). rewrite length_take in Hi. cbn. lia. }
  set (ps := imap pair (take k bars)).
  destruct (causal_loop_appends n (λ i, i < k)%nat ps) with (st := ((@nil Swing, sort_slice by_index swings), (@nil brokenKey, @nil Break))) as (b1 & E1 & F1).
  { eapply Forall_impl; [apply (imap_pair_bounds (take k bars) id)|]. intros p (i & -> & Hi). rewrite length_take in Hi. cbn. lia. }
  destruct (causal_loop_appends n (λ i, k <= i)%nat (imap (pair ∘ Nat.add (length (take k bars))) (drop k bars)))
    with (st := foldl (causal_step n) ((@nil Swing, sort_slice by_index swings), (@nil brokenKey, @nil Break)) ps) as (b2 & E2 & F2).
  { eapply Forall_impl; [apply (imap_pair_bounds (drop k bars) (Nat.add (length (take k bars))))|]. intros p (i & -> & Hi).
    rewrite length_drop in Hi. rewrite length_take. lia. }
  change (imap (λ n, pair (length (take k bars) + n)%nat) (drop k bars)) with (imap (pair ∘ Nat.add (length (take k bars))) (drop k bars)).
  rewrite E2, List.filter_app. cbn [snd] in E1. rewrite E1. cbn [app].
  rewrite (filter_Forall_true _ b1), (filter_Forall_false _ b2), app_nil_r; [done|..]; eapply Forall_impl; try done; intros b Hb; [|by apply Nat.ltb_lt].
  by apply Nat.ltb_ge.
Qed.
