(* ===== verification/TechniqueZones.v ===== *)
(** Package techniquezone, the zones drawn from the bars: displacement legs, supply and demand, order blocks, breakers, flip
    zones, fair-value gaps, mitigation and same-side merging. *)
From S2P Require Import Prelude Float64 Market TechniqueBars.
From Stdlib Require Import Floats.

(** * techniquezone.go: the zone *)

(** [z_BreakKind] is empty and [z_BreakIndex] -1 for a zone without a break. *)
Record Zone := mkZone {
  z_Bottom : float; z_Top : float; z_Side : string; z_OriginIndex : Z; z_Touches : Z; z_Mitigated : bool;
  z_Source : string; z_Sources : list string; z_BreakKind : string; z_BreakIndex : Z; z_Score : float; z_ScoreReasons : list string
}.
Definition Low (z : Zone) : float := z_Bottom z.
Definition High (z : Zone) : float := z_Top z.
Definition newZone (bottom top : float) (side : string) (origin : Z) (source : string) : Zone :=
  let '(bottom, top) := if (bottom >? top)%float then (top, bottom) else (bottom, top) in
  mkZone bottom top side origin 0 false source (if bool_decide (source = "") then [] else [source]) "" (-1) 0 [].
Definition set_break (z : Zone) (kind : string) (index : Z) : Zone :=
  mkZone (z_Bottom z) (z_Top z) (z_Side z) (z_OriginIndex z) (z_Touches z) (z_Mitigated z) (z_Source z) (z_Sources z)
    kind index (z_Score z) (z_ScoreReasons z).
Definition set_touches (z : Zone) (touches : Z) (mitigated : bool) : Zone :=
  mkZone (z_Bottom z) (z_Top z) (z_Side z) (z_OriginIndex z) touches mitigated (z_Source z) (z_Sources z)
    (z_BreakKind z) (z_BreakIndex z) (z_Score z) (z_ScoreReasons z).
Definition set_sources (z : Zone) (sources : list string) : Zone :=
  mkZone (z_Bottom z) (z_Top z) (z_Side z) (z_OriginIndex z) (z_Touches z) (z_Mitigated z) (z_Source z) sources
    (z_BreakKind z) (z_BreakIndex z) (z_Score z) (z_ScoreReasons z).
Definition side_of (direction : string) : string := if bool_decide (direction = "up") then "demand" else "supply".

(** * Displacement legs *)

Definition leg_size (bars : list Candle) (start end_ : nat) (dir : string) : float :=
  let open := c_Open (bars !!! start) in let close := c_Close (bars !!! end_) in
  if bool_decide (dir = "up") then (close - open)%float else (open - close)%float.
Definition strong_count (bars : list Candle) (bodyFrac : float) (start end_ : nat) : nat :=
  length (List.filter (λ b, bodyFraction b >=? bodyFrac)%float (slice bars start (S end_))).
(** [run] is the run under way, [None] for a start of -1 with no direction. *)
Definition appendLeg (bars : list Candle) (atr : list float) (k bodyFrac : float) (legs : list Leg) (run : option (nat * string)) (end_ : nat) : list Leg :=
  match run with
  | None => legs
  | Some (start, dir) =>
      if (end_ <? start)%nat then legs
      else
        let size := leg_size bars start end_ dir in
        if (size <? atrAt atr (Z.of_nat end_) 1 * k)%float then legs
        else if (strong_count bars bodyFrac start end_ <? Nat.max 1 ((end_ - start + 1) / 2))%nat then legs
        else legs ++ [mkLeg start end_ dir size]
  end.
Definition displacement_step (bars : list Candle) (atr : list float) (k bodyFrac : float)
    (state : list Leg * option (nat * string)) (p : nat * Candle) : list Leg * option (nat * string) :=
  let '(legs, run) := state in let '(i, b) := p in let cur := candleDirection b in
  if bool_decide (cur = "") then (appendLeg bars atr k bodyFrac legs run (i - 1), None)
  else
    match run with
    | None => (legs, Some (i, cur))
    | Some (_, dir) => if bool_decide (cur ≠ dir) then (appendLeg bars atr k bodyFrac legs run (i - 1), Some (i, cur)) else (legs, run)
    end.
Definition Displacement (bars : list Candle) (atr : option (list float)) (k bodyFrac : float) : list Leg :=
  match bars with
  | [] => []
  | _ =>
      let atr := atr_or bars atr in
      let '(legs, run) := foldl (displacement_step bars atr k bodyFrac) ([], None) (imap pair bars) in
      appendLeg bars atr k bodyFrac legs run (length bars - 1)
  end.

(** * Supply, demand and order blocks *)

Definition band_of (bars : list Candle) : float * float :=
  match bars with
  | [] => (0, 0)%float
  | b :: _ => (foldl (λ lo b, math_Min lo (c_Low b)) (c_Low b) bars, foldl (λ hi b, math_Max hi (c_High b)) (c_High b) bars)
  end.
Definition supply_demand_of (bars : list Candle) (leg : Leg) : option Zone :=
  if (lg_Start leg =? 0)%nat then None
  else
    let '(lo, hi) := band_of (slice bars (lg_Start leg - 3) (lg_Start leg)) in
    Some (set_break (newZone lo hi (side_of (lg_Direction leg)) (Z.of_nat (lg_Start leg) - 1) "supply_demand") "" (Z.of_nat (lg_End leg))).
Definition SupplyDemand (bars : list Candle) (legs : list Leg) : list Zone := omap (supply_demand_of bars) legs.

Definition BOSBreaks (breaks : list Break) : list Break := List.filter (λ b, bool_decide (bk_Kind b = "BOS")) breaks.
Definition causes (leg : Leg) (b : Break) : bool :=
  (bool_decide (bk_Kind b = "BOS") || bool_decide (bk_Kind b = "CHoCH")) && bool_decide (bk_Direction b = lg_Direction leg) &&
  (lg_Start leg <=? bk_Index b)%nat && (bk_Index b <=? lg_End leg)%nat.
Definition causingBOS (leg : Leg) (breaks : list Break) : option Break := List.find (causes leg) breaks.
(** The loop down from the bar before [n]. *)
Fixpoint last_direction (bars : list Candle) (dir : string) (n : nat) : option nat :=
  match n with
  | O => None
  | S i => if bool_decide (candleDirection (bars !!! i) = dir) then Some i else last_direction bars dir i
  end.
Definition lastOppositeCandle (bars : list Candle) (leg : Leg) : option nat :=
  last_direction bars (if bool_decide (lg_Direction leg = "up") then "down" else "up") (lg_Start leg).
Definition zoneBand (b : Candle) (width : string) : float * float :=
  if bool_decide (width = "range") then (c_Low b, c_High b)
  else (math_Min (c_Open b) (c_Close b), math_Max (c_Open b) (c_Close b)).
Definition order_block_of (bars : list Candle) (breaks : list Break) (zoneWidth : string) (leg : Leg) : option Zone :=
  match causingBOS leg breaks with
  | None => None
  | Some bos =>
      match lastOppositeCandle bars leg with
      | None => None
      | Some origin =>
          let '(bottom, top) := zoneBand (bars !!! origin) zoneWidth in
          Some (set_break (newZone bottom top (side_of (lg_Direction leg)) (Z.of_nat origin) "order_block") (bk_Kind bos) (Z.of_nat (bk_Index bos)))
      end
  end.
Definition OrderBlocks (bars : list Candle) (legs : list Leg) (breaks : list Break) (zoneWidth : string) : list Zone :=
  omap (order_block_of bars breaks zoneWidth) legs.

(** * Breakers and flip zones *)

Definition violates (z : Zone) (b : Candle) : bool :=
  (bool_decide (z_Side z = "demand") && (c_Close b <? Low z)%float) || (bool_decide (z_Side z = "supply") && (c_Close b >? High z)%float).
Definition breakerViolation (z : Zone) (bars : list Candle) : option nat :=
  let from := Z.to_nat (Z.max 0 (z_OriginIndex z + 1)) in
  first_some (λ i, if violates z (bars !!! i) then Some i else None) (length bars - from) from.
Definition flip_side (side : string) : string := if bool_decide (side = "demand") then "supply" else "demand".
Definition breaker_of (bars : list Candle) (z : Zone) : list Zone :=
  match breakerViolation z bars with
  | None => [z]
  | Some v =>
      [set_touches z (Z.max (z_Touches z) 1) true;
       set_break (newZone (Low z) (High z) (flip_side (z_Side z)) (Z.of_nat v) "breaker") "breaker" (Z.of_nat v)]
  end.
Definition BreakerBlocks (blocks : list Zone) (bars : list Candle) : list Zone := flat_map (breaker_of bars) blocks.

Definition round6 (v : float) : float := (math_Round (v * 1e6) / 1e6)%float.
Definition beyond (dir : string) (price : float) (b : Candle) : bool :=
  negb (bool_decide (dir = "up") && negb (c_Close b >? price)%float) && negb (bool_decide (dir = "down") && negb (c_Close b <? price)%float).
Definition accepted (bars : list Candle) (required index : nat) (price : float) (dir : string) : bool :=
  if (length bars <? index + required)%nat then false else forallb (beyond dir price) (slice bars index (index + required)).
Definition flip_eps : float := 1e-9.
(** The zone of a break at a level, [None] where the code finds it invalid. *)
Definition flip_of (bars : list Candle) (bandBodyFraction : float) (item : Break) (level : Level) : option Zone :=
  let up := bool_decide (bk_Direction item = "up") in let side := side_of (bk_Direction item) in
  let band := math_Max (l_Band level) 0 in
  let '(bottom, top) := if up then (l_Price level, (l_Price level + band)%float) else ((l_Price level - band)%float, l_Price level) in
  let row := bars !!! bk_Index item in
  let width := math_Max (top - bottom) (abs (c_Close row - c_Open row) * bandBodyFraction) in
  let '(bottom, top) := if up then (bottom, (bottom + width)%float) else ((top - width)%float, top) in
  let z := set_break (newZone bottom top side (Z.of_nat (bk_Index item)) "flip_zone") (bk_Kind item) (Z.of_nat (bk_Index item)) in
  let invalid := IsNaN (z_Bottom z) || IsInf (z_Bottom z) || IsNaN (z_Top z) || IsInf (z_Top z) ||
    (bool_decide (side = "demand") && (z_Bottom z <? l_Price level - flip_eps)%float) ||
    (bool_decide (side = "supply") && (z_Top z >? l_Price level + flip_eps)%float) || (z_Top z - z_Bottom z <=? 0)%float in
  if invalid then None else Some z.
Definition flip_level_step (bars : list Candle) (bandBodyFraction : float) (item : Break) (state : list brokenKey * list Zone) (level : Level) :
    list brokenKey * list Zone :=
  if (abs (bk_Level item - l_Price level) >? math_Max (l_Band level) 0)%float then state
  else
    let key := (side_of (bk_Direction item), round6 (l_Price level)) in
    if already state.1 key then state
    else match flip_of bars bandBodyFraction item level with Some z => (key :: state.1, state.2 ++ [z]) | None => state end.
Definition flip_break_step (levels : list Level) (bars : list Candle) (required : nat) (maxBreakAge : Z) (bandBodyFraction : float)
    (state : list brokenKey * list Zone) (item : Break) : list brokenKey * list Zone :=
  if (maxBreakAge >=? 0)%Z && (Z.of_nat (length bars) - 1 - Z.of_nat (bk_Index item) >? maxBreakAge)%Z then state
  else if negb (accepted bars required (bk_Index item) (bk_Level item) (bk_Direction item)) then state
  else foldl (flip_level_step bars bandBodyFraction item) state levels.
Definition FlipZones (levels : list Level) (breaks : list Break) (bars : list Candle) (acceptBars maxBreakAge : Z) (bandBodyFraction : float) : list Zone :=
  snd (foldl (flip_break_step levels bars (Z.to_nat (Z.max 1 acceptBars)) maxBreakAge bandBodyFraction) ([], []) breaks).

(** * Gaps and mitigation *)

Definition gap_at (bars : list Candle) (i : nat) : list Zone :=
  let older := bars !!! (i - 2)%nat in let cur := bars !!! i in
  (if (c_High older <? c_Low cur)%float then [newZone (c_High older) (c_Low cur) "demand" (Z.of_nat i) "bullish_fvg"] else []) ++
  (if (c_Low older >? c_High cur)%float then [newZone (c_High cur) (c_Low older) "supply" (Z.of_nat i) "bearish_fvg"] else []).
Definition FVG (bars : list Candle) : list Zone := flat_map (gap_at bars) (seq 2 (length bars - 2)).

Definition touches_zone (z : Zone) (b : Candle) : bool := (c_Low b <=? z_Top z)%float && (c_High b >=? z_Bottom z)%float.
Definition touch_start (z : Zone) : nat :=
  Z.to_nat (Z.max 0 ((if (z_BreakIndex z >=? 0)%Z then z_BreakIndex z else z_OriginIndex z) + 1)).
Definition touch_end (bars : list Candle) (cutoff : Z) : nat :=
  if (cutoff >=? 0)%Z then Nat.min (Z.to_nat cutoff) (length bars) else length bars.
Definition touch_count (z : Zone) (bars : list Candle) (cutoff : Z) : Z :=
  fst (foldl (episode_step (touches_zone z)) (0%Z, false) (slice bars (touch_start z) (touch_end bars cutoff))).
Definition mitigate (bars : list Candle) (cutoff : Z) (z : Zone) : Zone :=
  let final := Z.max (touch_count z bars cutoff) (z_Touches z) in set_touches z final (z_Mitigated z || (final >? 0)%Z).
Definition MarkMitigation (zones : list Zone) (bars : list Candle) (cutoff : Z) : list Zone := map (mitigate bars cutoff) zones.

(** * Merging *)

Definition sources_of (z : Zone) : list string :=
  match z_Sources z with [] => if bool_decide (z_Source z = "") then [] else [z_Source z] | l => l end.
Definition add_source (out : list string) (s : string) : list string :=
  if bool_decide (s = "") || existsb (λ o, bool_decide (o = s)) out then out else out ++ [s].
Definition uniqueSources (zs : list Zone) : list string := foldl (λ out z, foldl add_source out (sources_of z)) [] zs.
Definition AsSingleZones (zones : list Zone) : list Zone := map (λ z, set_sources z (uniqueSources [z])) zones.

Definition overlapRatio (a b : Zone) : float :=
  let overlap := (math_Min (High a) (High b) - math_Max (Low a) (Low b))%float in
  if (overlap <=? 0)%float then 0%float
  else
    let smaller := math_Min (High a - Low a) (High b - Low b) in
    if (smaller <=? 0)%float then (if (Low a <=? High b)%float && (Low b <=? High a)%float then 1 else 0)%float else (overlap / smaller)%float.
(** A group is its first zone and the others in the order they joined. *)
Definition group : Type := Zone * list Zone.
Definition members (g : group) : list Zone := g.1 :: g.2.
Definition envelope (g : group) : float * float :=
  (foldl (λ lo z, math_Min lo (Low z)) (Low g.1) (members g), foldl (λ hi z, math_Max hi (High z)) (High g.1) (members g)).
Definition mergedWidth (g : group) : float := let '(lo, hi) := envelope g in (hi - lo)%float.
Definition zone_less (x y : Zone) : bool :=
  if negb (bool_decide (z_Side x = z_Side y)) then str_lt (z_Side x) (z_Side y)
  else if (Low x <>? Low y)%float then (Low x <? Low y)%float else (High x <? High y)%float.
Definition join (g : group) (z : Zone) : group := (g.1, g.2 ++ [z]).
Definition can_join (minOverlap maxWidth : float) (z : Zone) (g : group) : bool :=
  bool_decide (z_Side g.1 = z_Side z) && existsb (λ m, overlapRatio z m >=? minOverlap)%float (members g) &&
  negb ((maxWidth >=? 0)%float && (mergedWidth (join g z) >? maxWidth)%float).
Fixpoint place (minOverlap maxWidth : float) (z : Zone) (groups : list group) : list group :=
  match groups with
  | [] => [(z, [])]
  | g :: rest => if can_join minOverlap maxWidth z g then join g z :: rest else g :: place minOverlap maxWidth z rest
  end.
Definition sourceScores (s : string) : float :=
  if bool_decide (s = "order_block") then 3 else if bool_decide (s = "breaker") then 2
  else if bool_decide (s = "flip_zone") then 2 else if bool_decide (s = "supply_demand") then 1.5
  else if bool_decide (s = "bullish_fvg") then 1 else if bool_decide (s = "bearish_fvg") then 1 else 0.
Definition sourceScoreCap : float := 5.
Definition source_value (z : Zone) (s : string) : float :=
  if bool_decide (s = "order_block") && bool_decide (z_BreakKind z = "") then 0%float else sourceScores s.
Definition sourceQuality (z : Zone) : float :=
  math_Min (foldl (λ total s, let v := source_value z s in if (v <=? 0)%float then total else (total + v)%float) 0%float (sources_of z)) sourceScoreCap.
Definition compositeZone (g : group) : Zone :=
  match g.2 with
  | [] => set_sources g.1 (uniqueSources [g.1])
  | rest =>
      let best := foldl (λ best z, if (sourceQuality z >? sourceQuality best)%float then z else best) g.1 rest in
      let earliest := foldl (λ e z, if (z_OriginIndex z <? z_OriginIndex e)%Z then z else e) g.1 rest in
      let touches := foldl (λ t z, if (z_Touches z <? t)%Z then z_Touches z else t) (z_Touches g.1) (members g) in
      let '(lo, hi) := envelope g in
      let out := newZone lo hi (z_Side g.1) (z_OriginIndex earliest) (z_Source best) in
      set_break (set_sources (set_touches out touches (touches >? 0)%Z) (uniqueSources (members g))) (z_BreakKind best) (z_BreakIndex best)
  end.
(** [maxWidth] below zero means no bound. *)
Definition merge_groups (zones : list Zone) (minOverlap maxWidth : float) : list group :=
  foldl (λ groups z, place minOverlap maxWidth z groups) [] (sort_slice zone_less zones).
Definition MergeZones (zones : list Zone) (minOverlap maxWidth : float) : list Zone :=
  map compositeZone (merge_groups zones minOverlap maxWidth).

(** * Lemmas: displacement legs *)

Section legs.
Context (bars : list Candle) (atr : list float) (k bodyFrac : float).
Notation "'D' j" := (candleDirection (bars !!! j)) (at level 10, j at level 9).

(** Bars [s] to [e] run in direction [d], the bar before does not. *)
Definition runs (s e : nat) (d : string) : Prop :=
  d ≠ "" ∧ (s <= e)%nat ∧ (∀ j, (s <= j <= e)%nat → D j = d) ∧ (s = 0%nat ∨ D (s - 1)%nat ≠ d).
Definition qualifies (s e : nat) (d : string) : bool :=
  negb (leg_size bars s e d <? atrAt atr (Z.of_nat e) 1 * k)%float &&
  negb (strong_count bars bodyFrac s e <? Nat.max 1 ((e - s + 1) / 2))%nat.
Definition leg_of (s e : nat) (d : string) : Leg := mkLeg s e d (leg_size bars s e d).

Lemma appendLeg_Some legs s d e :
  (s <= e)%nat → appendLeg bars atr k bodyFrac legs (Some (s, d)) e = if qualifies s e d then legs ++ [leg_of s e d] else legs.
Proof.
  intros H. unfold appendLeg, qualifies. destruct (Nat.ltb_spec e s); [lia|]. destruct (_ <? _)%float; [done|]. by destruct (_ <? _)%nat.
Qed.

(** The state of the loop before bar [i]: the legs of the runs that ended, and the run under way. *)
Definition ended (i s e : nat) (d : string) : Prop := runs s e d ∧ (S e < i)%nat ∧ D (S e) ≠ d.
Definition legs_exact (P : nat → nat → string → Prop) (legs : list Leg) : Prop :=
  (∀ l, l ∈ legs ↔ ∃ s e d, l = leg_of s e d ∧ P s e d ∧ qualifies s e d = true) ∧
  StronglySorted (λ a b, lg_End a < lg_Start b)%nat legs.
Definition scan_inv (i : nat) (st : list Leg * option (nat * string)) : Prop :=
  legs_exact (ended i) st.1 ∧
  match st.2 with
  | None => i = 0%nat ∨ (0 < i)%nat ∧ D (i - 1)%nat = ""
  | Some (s, d) => (s < i)%nat ∧ runs s (i - 1) d
  end.

Lemma runs_unique s s' e d d' : runs s e d → runs s' e d' → s = s' ∧ d = d'.
Proof.
  intros (Hd & Hle & Hr & Hs) (Hd' & Hle' & Hr' & Hs').
  assert (d = d') as <- by (rewrite <- (Hr e), <- (Hr' e); lia || done). split; [|done].
  destruct (lt_eq_lt_dec s s') as [[H|]|H]; [|done|].
  - destruct Hs' as [->|Hs']; [lia|]. destruct Hs'. apply Hr. lia.
  - destruct Hs as [->|Hs]; [lia|]. destruct Hs. apply Hr'. lia.
Qed.
Lemma ended_0 s e d : ¬ ended 0 s e d.
Proof. intros (_ & ? & _). lia. Qed.
(** The run up to the bar before [i] joins the ended ones when bar [i] leaves its direction. *)
Lemma ended_S i s e d : ended (S i) s e d ↔ ended i s e d ∨ (S e = i ∧ runs s e d ∧ D i ≠ d).
Proof.
  unfold ended. split.
  - intros (Hr & He & Hd). destruct (decide (S e = i)) as [<-|]; [by right|left]. split_and!; [done|lia|done].
  - intros [(Hr & He & Hd)|(<- & Hr & Hd)]; split_and!; done || lia.
Qed.
Lemma legs_exact_ext (P Q : nat → nat → string → Prop) legs : (∀ s e d, P s e d ↔ Q s e d) → legs_exact P legs → legs_exact Q legs.
Proof.
  intros He [H Hs]. split; [|done]. intros l. rewrite H. split; intros (s & e & d & -> & Hp & Hq); exists s, e, d; by rewrite ?He in *.
Qed.
Lemma legs_exact_append (P : nat → nat → string → Prop) legs s e d :
  legs_exact P legs → runs s e d → (∀ s' e' d', P s' e' d' → (e' < s)%nat) →
  legs_exact (λ s' e' d', P s' e' d' ∨ (s' = s ∧ e' = e ∧ d' = d)) (appendLeg bars atr k bodyFrac legs (Some (s, d)) e).
Proof.
  intros [H Hs] (Hd & Hle & Hr & Hl) Hb. rewrite appendLeg_Some by done. destruct (qualifies s e d) eqn:Q.
  - split.
    + intros l. rewrite elem_of_app, list_elem_of_singleton, H. split.
      * intros [(s' & e' & d' & -> & Hp & Hq)| ->]; [exists s', e', d'|exists s, e, d]; naive_solver.
      * intros (s' & e' & d' & -> & [Hp|(-> & -> & ->)] & Hq); [left; by exists s', e', d'|by right].
    + apply StronglySorted_app_r; [done|]. apply Forall_forall. intros l (s' & e' & d' & -> & Hp & _)%H. cbn. by eapply Hb.
  - split; [|done]. intros l. rewrite H. split.
    + intros (s' & e' & d' & -> & Hp & Hq). exists s', e', d'. naive_solver.
    + intros (s' & e' & d' & -> & [Hp|(-> & -> & ->)] & Hq); [by exists s', e', d'|congruence].
Qed.

(** No ended run reaches into the one under way. *)
Lemma ended_before i s e d s' d' : ended i s e d → runs s' (i - 1) d' → (e < s')%nat.
Proof.
  intros ((Hd & Hle & Hr & Hl) & He & Hn) (Hd' & Hle' & Hr' & Hl'). destruct (decide (e < s')%nat) as [|Hn']; [done|exfalso].
  assert (E : d = d') by (rewrite <- (Hr e), <- (Hr' e); lia || done). subst d'. apply Hn, Hr'. lia.
Qed.
Lemma close_run i s d legs :
  legs_exact (ended i) legs → runs s (i - 1) d → (s < i)%nat → D i ≠ d →
  legs_exact (ended (S i)) (appendLeg bars atr k bodyFrac legs (Some (s, d)) (i - 1)).
Proof.
  intros Hl Hr Hs Hd. eapply legs_exact_ext; [|apply legs_exact_append; [exact Hl|exact Hr|]].
  - intros s' e' d'. cbn beta. rewrite ended_S. split.
    + intros [H|(-> & -> & ->)]; [by left|right]. split; [lia|done].
    + intros [H|(He & Hr' & _)]; [by left|right]. replace (i - 1)%nat with e' in * by lia.
      destruct (runs_unique _ _ _ _ _ Hr Hr') as [-> ->]. done.
  - intros s' e' d' H. eapply ended_before; [exact H|exact Hr].
Qed.
Lemma keep_run i legs : legs_exact (ended i) legs → (∀ s d, runs s (i - 1) d → (s < i)%nat → D i = d) → legs_exact (ended (S i)) legs.
Proof.
  intros Hl Hd. eapply legs_exact_ext; [|exact Hl]. intros s e d. rewrite ended_S. split; [by left|].
  intros [H|(He & Hr & Hn)]; [done|]. destruct Hn. apply (Hd s); [by replace (i - 1)%nat with e by lia|]. destruct Hr. lia.
Qed.

Lemma scan_step i st : scan_inv i st → scan_inv (S i) (displacement_step bars atr k bodyFrac st (i, bars !!! i)).
Proof.
  destruct st as [legs run]. intros [Hl Hrun]. cbn [fst snd] in *. unfold displacement_step.
  set (cur := candleDirection (bars !!! i)). assert (Ec : D i = cur) by done. clearbody cur.
  assert (Hnone : (run = None) → ∀ s d, runs s (i - 1) d → (s < i)%nat → False).
  { intros -> s d (Hd & Hle & Hr & _) Hlt. destruct Hrun as [->|[Hi Hlast]]; [lia|]. apply Hd. rewrite <- (Hr (i - 1)%nat) by lia. done. }
  case_bool_decide as E.
  - split; cbn [fst snd]; [|right; split; [lia|]; cbn; rewrite Nat.sub_0_r; congruence].
    destruct run as [[s d]|]; [destruct Hrun as [Hs Hr]; apply close_run; try done; destruct Hr as [Hd _]; congruence|].
    cbn [appendLeg]. apply keep_run; [done|]. intros s d H1 H2. by destruct (Hnone eq_refl s d).
  - destruct run as [[s d]|].
    + destruct Hrun as [Hs Hr]. case_bool_decide as Ed; split; cbn [fst snd].
      * apply close_run; congruence.
      * split; [lia|]. cbn. rewrite Nat.sub_0_r. destruct Hr as (Hd & Hle & Hr & _). split_and!; [done|lia|intros j Hj; by replace j with i by lia|].
        right. rewrite Hr by lia. congruence.
      * apply keep_run; [done|]. intros s' d' H _. destruct (runs_unique _ _ _ _ _ Hr H) as [_ <-]. congruence.
      * destruct Hr as (Hd & Hle & Hr & Hl'). split; [lia|]. cbn. rewrite Nat.sub_0_r.
        split_and!; [done|lia| |done]. intros j Hj. destruct (decide (j = i)) as [->|]; [congruence|apply Hr; lia].
    + split; cbn [fst snd]; [apply keep_run; [done|]; intros s d H1 H2; by destruct (Hnone eq_refl s d)|].
      split; [lia|]. cbn. rewrite Nat.sub_0_r. split_and!; [done|lia|intros j Hj; by replace j with i by lia|].
      destruct Hrun as [->|[Hi Hlast]]; [by left|right; congruence].
Qed.
Lemma scan_loop n i st : scan_inv i st → scan_inv (i + n) (foldl (displacement_step bars atr k bodyFrac) st (map (λ j, (j, bars !!! j)) (seq i n))).
Proof.
  revert i st. induction n as [|n IH]; intros i st H; cbn [seq map foldl]; [by rewrite Nat.add_0_r|].
  rewrite Nat.add_succ_r. apply (IH (S i)). by apply scan_step.
Qed.
End legs.

Lemma imap_pair_seq (bars : list Candle) : imap pair bars = map (λ j, (j, bars !!! j)) (seq 0 (length bars)).
Proof.
  apply list_eq. intros i. rewrite list_lookup_imap. change map with (@fmap list _). rewrite list_lookup_fmap.
  destruct (decide (i < length bars)%nat) as [Hi|Hi].
  - rewrite lookup_seq_lt by done. destruct (lookup_lt_is_Some_2 bars i Hi) as [b Hb]. rewrite Hb. cbn.
    by rewrite (list_lookup_total_correct _ _ _ Hb).
  - rewrite (lookup_ge_None_2 bars i), (lookup_ge_None_2 (seq _ _) i) by (rewrite ?length_seq; lia). done.
Qed.

(** A maximal run of the bars in one direction. *)
Definition maximal (bars : list Candle) (s e : nat) (d : string) : Prop :=
  runs bars s e d ∧ (e < length bars)%nat ∧ (S e = length bars ∨ candleDirection (bars !!! S e) ≠ d).
Lemma displacement_loop bars atr k bodyFrac :
  scan_inv bars atr k bodyFrac (length bars) (foldl (displacement_step bars atr k bodyFrac) ([], None) (imap pair bars)).
Proof.
  rewrite imap_pair_seq. apply (scan_loop bars atr k bodyFrac (length bars) 0). split; [|by left]. split; [|constructor].
  intros l. split; [by intros ?%not_elem_of_nil|]. intros (s & e & d & _ & H & _). by apply ended_0 in H.
Qed.
Lemma displacement_exact bars atr k bodyFrac :
  let legs := Displacement bars atr k bodyFrac in let series := atr_or bars atr in
  (∀ l, l ∈ legs ↔ ∃ s e d, l = leg_of bars s e d ∧ maximal bars s e d ∧ qualifies bars series k bodyFrac s e d = true) ∧
  StronglySorted (λ a b, lg_End a < lg_Start b)%nat legs.
Proof.
  cbv zeta. unfold Displacement. destruct bars as [|b0 bars']; [|set (bars := b0 :: bars')].
  { split; [|constructor]. intros l. split; [by intros ?%not_elem_of_nil|]. intros (s & e & d & _ & (_ & He & _) & _). cbn in He. lia. }
  set (series := atr_or bars atr). assert (Hn : (0 < length bars)%nat) by (cbn; lia). clearbody bars. clear b0 bars'.
  pose proof (displacement_loop bars series k bodyFrac) as [Hl Hrun]. destruct (foldl _ _ _) as [legs run]. cbn [fst snd] in *.
  destruct run as [[s d]|].
  - destruct Hrun as [Hs Hr]. pose proof (legs_exact_append _ _ _ _ _ _ _ _ _ Hl Hr (λ s' e' d' H, ended_before _ _ _ _ _ _ _ H Hr)) as Ha.
    eapply legs_exact_ext; [|exact Ha]. intros s' e' d'. cbn beta. split.
    + intros [(Hr' & He & Hd)|(-> & -> & ->)]; [split; [done|]; split; [lia|by right]|split; [done|]; split; [lia|left; lia]].
    + intros (Hr' & He & Hd). destruct (decide (S e' = length bars)); [right|left; split; [done|]; split; [lia|by destruct Hd]].
      replace e' with (length bars - 1)%nat in * by lia. by destruct (runs_unique _ _ _ _ _ _ Hr Hr') as [-> ->].
  - cbn [appendLeg]. eapply legs_exact_ext; [|exact Hl]. intros s e d. split.
    + intros (Hr & He & Hd). split; [done|]. split; [lia|by right].
    + intros (Hr & He & Hd). split; [done|]. destruct Hrun as [?|[_ Hlast]]; [lia|].
      destruct (decide (S e = length bars)); [|split; [lia|by destruct Hd]]. exfalso. destruct Hr as (Hne & Hle & Hr & _).
      apply Hne. rewrite <- (Hr (length bars - 1)%nat) by lia. done.
Qed.

(** * Lemmas: mitigation and breakers *)

(** The bars at which a touching episode begins. *)
Definition begins (touched : Candle → bool) (l : list Candle) (prev : bool) : nat → bool :=
  λ i, touched (l !!! i) && negb (if (i =? 0)%nat then prev else touched (l !!! (i - 1)%nat)).
Lemma episodes_count touched l : ∀ n prev,
  foldl (episode_step touched) (n, prev) l =
  ((n + Z.of_nat (length (List.filter (begins touched l prev) (seq 0 (length l)))))%Z, from_option touched prev (last l)).
Proof.
  induction l as [|b l IH]; intros n prev; [cbn; f_equal; lia|].
  cbn [foldl]. unfold episode_step at 2. cbn [fst snd]. rewrite IH, last_cons. f_equal; [|by destruct (last l)].
  assert (E : length (List.filter (begins touched (b :: l) prev) (seq 1 (length l))) =
              length (List.filter (begins touched l (touched b)) (seq 0 (length l)))).
  { rewrite <- seq_shift, filter_map_swap, length_map. f_equal. apply filter_ext. intros i. unfold begins. cbn [Nat.eqb].
    rewrite Nat.sub_succ, Nat.sub_0_r. by destruct i as [|i]; cbn; rewrite ?Nat.sub_0_r. }
  cbn [length seq List.filter]. change (begins touched (b :: l) prev 0) with (touched b && negb prev).
  destruct (touched b && negb prev); cbn [length]; rewrite E; lia.
Qed.

(** * Lemmas: merging *)

(** The running minimum and maximum of finite numbers. *)
Lemma fold_Min_spec {A} (f : A → float) l x :
  finite x = true → Forall (λ a, finite (f a) = true) l →
  let r := foldl (λ m a, math_Min m (f a)) x l in
  finite r = true ∧ (key r <= key x)%Z ∧ Forall (λ a, key r <= key (f a))%Z l ∧ (key r = key x ∨ Exists (λ a, key r = key (f a)) l).
Proof.
  intros Hx Hl. revert x Hx. induction Hl as [|a l Ha Hl IH]; intros x Hx; cbn [foldl]; [split_and!; [done|lia|by apply Forall_nil|by left]|].
  destruct (IH (math_Min x (f a))) as (F & K & H & E); [by apply math_Min_finite|]. rewrite math_Min_key in K, E by done.
  split_and!; [done|lia|apply Forall_cons; split; [lia|done]|]. rewrite Exists_cons. destruct E as [E|E]; [|by right; right].
  destruct (Z.min_spec (key x) (key (f a))) as [[_ M]|[_ M]]; rewrite M in E; [by left|right; by left].
Qed.
Lemma fold_Max_spec {A} (f : A → float) l x :
  finite x = true → Forall (λ a, finite (f a) = true) l →
  let r := foldl (λ m a, math_Max m (f a)) x l in
  finite r = true ∧ (key x <= key r)%Z ∧ Forall (λ a, key (f a) <= key r)%Z l ∧ (key r = key x ∨ Exists (λ a, key r = key (f a)) l).
Proof.
  intros Hx Hl. revert x Hx. induction Hl as [|a l Ha Hl IH]; intros x Hx; cbn [foldl]; [split_and!; [done|lia|by apply Forall_nil|by left]|].
  destruct (IH (math_Max x (f a))) as (F & K & H & E); [by apply math_Max_finite|]. rewrite math_Max_key in K, E by done.
  split_and!; [done|lia|apply Forall_cons; split; [lia|done]|]. rewrite Exists_cons. destruct E as [E|E]; [|by right; right].
  destruct (Z.max_spec (key x) (key (f a))) as [[_ M]|[_ M]]; rewrite M in E; [right; by left|by left].
Qed.

(** What a group satisfies: one side, each joiner overlaps one before it, and the width bound. *)
Definition group_ok (minOverlap maxWidth : float) (g : group) : Prop :=
  (∀ z, z ∈ g.2 → z_Side z = z_Side g.1) ∧
  (∀ i z, g.2 !! i = Some z → ∃ m, m ∈ g.1 :: take i g.2 ∧ (overlapRatio z m >=? minOverlap)%float = true) ∧
  (g.2 = [] ∨ (maxWidth >=? 0)%float = false ∨ (mergedWidth g >? maxWidth)%float = false).
Lemma join_ok minOverlap maxWidth z g :
  can_join minOverlap maxWidth z g = true → group_ok minOverlap maxWidth g → group_ok minOverlap maxWidth (join g z).
Proof.
  intros [[Hs Hex]%andb_true_iff Hw]%andb_true_iff (H1 & H2 & H3). apply bool_decide_eq_true in Hs.
  unfold join. split_and!; cbn [fst snd].
  - intros y [Hy| ->%list_elem_of_singleton]%elem_of_app; [by apply H1|done].
  - intros i y Hi. apply lookup_app_Some in Hi as [Hi|[Hlen Hi]].
    + rewrite take_app_le by (apply lookup_lt_Some in Hi; lia). by apply H2.
    + destruct (i - length g.2)%nat eqn:E; [|done]. injection Hi as <-. replace i with (length g.2) by lia.
      rewrite take_app_length. apply existsb_exists in Hex as (m & Hm & Ho). exists m. by split; [apply list_elem_of_In|].
  - right. apply negb_true_iff, andb_false_iff in Hw as [Hw|Hw]; [by left|by right].
Qed.
Lemma place_spec minOverlap maxWidth z groups :
  concat (map members (place minOverlap maxWidth z groups)) ≡ₚ z :: concat (map members groups) ∧
  (Forall (group_ok minOverlap maxWidth) groups → Forall (group_ok minOverlap maxWidth) (place minOverlap maxWidth z groups)).
Proof.
  induction groups as [|g groups [IH1 IH2]]; cbn [place map concat].
  { split; [done|]. intros _. apply Forall_singleton. split_and!; cbn; [by intros ? ?%not_elem_of_nil|done|by left]. }
  destruct (can_join minOverlap maxWidth z g) eqn:E; cbn [map concat].
  - split; [|intros [Hg Hr]%Forall_cons; apply Forall_cons; split; [by apply join_ok|done]].
    change (members (join g z)) with (members g ++ [z]). rewrite <- app_assoc, (Permutation_app_comm [z]), app_assoc. symmetry. apply Permutation_cons_append.
  - split; [rewrite IH1; symmetry; apply Permutation_middle|]. intros [Hg Hr]%Forall_cons. apply Forall_cons. auto.
Qed.
Lemma merge_groups_spec zones minOverlap maxWidth :
  let groups := merge_groups zones minOverlap maxWidth in
  concat (map members groups) ≡ₚ zones ∧ Forall (group_ok minOverlap maxWidth) groups.
Proof.
  cbv zeta. unfold merge_groups. set (l := sort_slice zone_less zones). rewrite <- (sort_slice_perm zone_less zones). fold l.
  assert (H : ∀ groups, Forall (group_ok minOverlap maxWidth) groups →
    concat (map members (foldl (λ gs z, place minOverlap maxWidth z gs) groups l)) ≡ₚ concat (map members groups) ++ l ∧
    Forall (group_ok minOverlap maxWidth) (foldl (λ gs z, place minOverlap maxWidth z gs) groups l)).
  { clearbody l. induction l as [|z l IH]; intros groups Hg; cbn [foldl]; [by rewrite app_nil_r|].
    destruct (place_spec minOverlap maxWidth z groups) as [P F]. destruct (IH (place minOverlap maxWidth z groups)) as [P' F']; [auto|].
    split; [|done]. rewrite P', P. by rewrite <- Permutation_middle. }
  destruct (H []) as [P F]; [by apply Forall_nil|]. done.
Qed.

(** What the composite of a group carries. *)
Definition finite_zone (z : Zone) : bool := finite (z_Bottom z) && finite (z_Top z) && (z_Bottom z <=? z_Top z)%float.
Definition encloses (c z : Zone) : Prop := (key (z_Bottom c) <= key (z_Bottom z) ∧ key (z_Top z) <= key (z_Top c))%Z.
Lemma newZone_ordered bottom top side origin source :
  finite bottom = true → finite top = true → (key bottom <= key top)%Z →
  z_Bottom (newZone bottom top side origin source) = bottom ∧ z_Top (newZone bottom top side origin source) = top.
Proof. intros Hb Ht Hk. unfold newZone. destruct (bottom >? top)%float eqn:E; [|done]. float_lia. Qed.
Lemma composite_spec g :
  (z_Side (compositeZone g) = z_Side g.1) ∧
  (Forall (λ z, finite_zone z = true) (members g) → Forall (encloses (compositeZone g)) (members g) ∧
    Exists (λ z, key (z_Bottom z) = key (z_Bottom (compositeZone g))) (members g) ∧
    Exists (λ z, key (z_Top z) = key (z_Top (compositeZone g))) (members g)) ∧
  Forall (λ z, z_Touches (compositeZone g) <= z_Touches z)%Z (members g).
Proof.
  unfold compositeZone. destruct g as [z0 [|z1 rest]]; cbn [fst snd].
  { split_and!; [done| |by repeat apply Forall_cons_2; [cbn; lia|apply Forall_nil]].
    intros _. split_and!; [apply Forall_singleton; split; cbn; lia|by apply Exists_cons; left..]. }
  unfold envelope. cbn [fst]. set (ms := members (z0, z1 :: rest)). set (lo := foldl _ (Low z0) ms). set (hi := foldl _ (High z0) ms).
  set (t := foldl _ (z_Touches z0) ms).
  assert (Ht : Forall (λ z, t <= z_Touches z)%Z ms).
  { destruct (foldl_least Z.le Z.ltb z_Touches ms (z_Touches z0) (λ _, True)) as (_ & _ & H & _);
      [intros; lia|intros; lia|intros; lia|intros; lia|done|by apply Forall_true|exact H]. }
  split_and!; [unfold newZone; by destruct (_ >? _)%float| |].
  - intros Hf. assert (F0 : finite_zone z0 = true) by (by apply Forall_cons in Hf as [? _]).
    assert (Hb : Forall (λ z, finite (Low z) = true) ms) by (eapply Forall_impl; [exact Hf|]; intros z [[? _]%andb_true_iff _]%andb_true_iff; done).
    assert (Hh : Forall (λ z, finite (High z) = true) ms) by (eapply Forall_impl; [exact Hf|]; intros z [[_ ?]%andb_true_iff _]%andb_true_iff; done).
    unfold finite_zone in F0. bools.
    destruct (fold_Min_spec Low ms (Low z0)) as (Fl & Kl & Al & El); [done|done|].
    destruct (fold_Max_spec High ms (High z0)) as (Fh & Kh & Ah & Eh); [done|done|]. fold lo in Fl, Kl, Al, El. fold hi in Fh, Kh, Ah, Eh.
    unfold Low, High in Kl, Kh. destruct (newZone_ordered lo hi (z_Side z0) (z_OriginIndex (foldl (λ e z, if (z_OriginIndex z <? z_OriginIndex e)%Z then z else e) z0 (z1 :: rest)))
      (z_Source (foldl (λ best z, if (sourceQuality z >? sourceQuality best)%float then z else best) z0 (z1 :: rest)))) as [Eb Et]; [done|done|float_lia|].
    split_and!.
    + apply Forall_forall. intros z Hz. rewrite Forall_forall in Al, Ah. unfold encloses. cbn [z_Bottom z_Top set_break set_sources set_touches].
      rewrite Eb, Et. split; [by apply Al|by apply Ah].
    + cbn [z_Bottom set_break set_sources set_touches]. rewrite Eb. destruct El as [El|El]; [by apply Exists_cons; left|].
      eapply Exists_impl; [exact El|]. by intros z ->.
    + cbn [z_Top set_break set_sources set_touches]. rewrite Et. destruct Eh as [Eh|Eh]; [by apply Exists_cons; left|].
      eapply Exists_impl; [exact Eh|]. by intros z ->.
  - exact Ht.
Qed.

(** * Lemmas: flip zones *)

Definition flip_key (p : Break * Level) : brokenKey := (side_of (bk_Direction p.1), round6 (l_Price p.2)).
(** What makes a break at a level a flip. *)
Definition flip_qualifies (bars : list Candle) (required : nat) (maxBreakAge : Z) (p : Break * Level) : bool :=
  negb ((maxBreakAge >=? 0)%Z && (Z.of_nat (length bars) - 1 - Z.of_nat (bk_Index p.1) >? maxBreakAge)%Z) &&
  accepted bars required (bk_Index p.1) (bk_Level p.1) (bk_Direction p.1) &&
  negb (abs (bk_Level p.1 - l_Price p.2) >? math_Max (l_Band p.2) 0)%float.
(** The zones are those of [origins], one per key, and every qualifying pair of [pairs] has its key among them. *)
Definition flips_of (bars : list Candle) (frac : float) (required : nat) (age : Z) (pairs origins : list (Break * Level))
    (st : list brokenKey * list Zone) : Prop :=
  Forall2 (λ p z, flip_of bars frac p.1 p.2 = Some z) origins st.2 ∧ st.1 = reverse (map flip_key origins) ∧
  Forall (λ p, p ∈ pairs ∧ flip_qualifies bars required age p = true) origins ∧
  (∀ i j a b, (i < j)%nat → origins !! i = Some a → origins !! j = Some b → already [flip_key a] (flip_key b) = false) ∧
  (∀ p, p ∈ pairs → flip_qualifies bars required age p = true → is_Some (flip_of bars frac p.1 p.2) → IsNaN (round6 (l_Price p.2)) = false →
    ∃ o, o ∈ origins ∧ already [flip_key o] (flip_key p) = true).
Lemma already_true keys key : already keys key = true ↔ ∃ k, k ∈ keys ∧ already [k] key = true.
Proof.
  unfold already. rewrite existsb_exists. split; intros (k & Hk & H).
  - exists k. split; [by apply list_elem_of_In|]. cbn. by rewrite H.
  - exists k. split; [by apply list_elem_of_In|]. cbn in H. by rewrite orb_false_r in H.
Qed.
Lemma flips_skip bars frac required age pairs origins st p :
  flips_of bars frac required age pairs origins st →
  (flip_qualifies bars required age p = true → is_Some (flip_of bars frac p.1 p.2) → already st.1 (flip_key p) = true) →
  flips_of bars frac required age (pairs ++ [p]) origins st.
Proof.
  intros (H1 & H2 & H3 & H4 & H5) Hp. split_and!; [done|done| |done|].
  - eapply Forall_impl; [exact H3|]. intros q [Hq Hf]. split; [|done]. apply elem_of_app. by left.
  - intros q [Hq| ->%list_elem_of_singleton]%elem_of_app Hf Hs Hn; [by apply H5|].
    specialize (Hp Hf Hs). apply already_true in Hp as (kk & Hk & Ha). rewrite H2, elem_of_reverse in Hk.
    change map with (@fmap list _) in Hk. apply list_elem_of_fmap in Hk as (o & -> & Ho). by exists o.
Qed.
Lemma flips_level bars frac required age pairs origins st item level :
  flips_of bars frac required age pairs origins st →
  negb ((age >=? 0)%Z && (Z.of_nat (length bars) - 1 - Z.of_nat (bk_Index item) >? age)%Z) &&
    accepted bars required (bk_Index item) (bk_Level item) (bk_Direction item) = true →
  ∃ origins', flips_of bars frac required age (pairs ++ [(item, level)]) origins' (flip_level_step bars frac item st level).
Proof.
  intros Hst Hq. pose proof Hst as (H1 & H2 & H3 & H4 & H5). unfold flip_level_step.
  destruct (abs _ >? _)%float eqn:Near.
  { exists origins. apply flips_skip; [done|]. unfold flip_qualifies. cbn [fst snd]. by rewrite Near, andb_false_r. }
  assert (Q : flip_qualifies bars required age (item, level) = true) by (unfold flip_qualifies; cbn [fst snd]; by rewrite Hq, Near).
  change (side_of (bk_Direction item), round6 (l_Price level)) with (flip_key (item, level)).
  destruct (already st.1 _) eqn:A; [exists origins; by apply flips_skip|].
  destruct (flip_of bars frac item level) as [z|] eqn:F.
  2: { exists origins. apply flips_skip; [done|]. intros _ []. cbn in *. congruence. }
  exists (origins ++ [(item, level)]). split_and!; cbn [fst snd].
  - apply Forall2_app; [done|by apply Forall2_cons].
  - rewrite map_app, reverse_app, H2. done.
  - apply Forall_app. split; [|by apply Forall_singleton; split; [apply elem_of_app; right; apply list_elem_of_singleton|]].
    eapply Forall_impl; [exact H3|]. intros q [Hq' Hf]. split; [|done]. apply elem_of_app. by left.
  - intros i j a b Hij Ha [Hb|[Hlen Hb]]%lookup_app_Some.
    + rewrite lookup_app_l in Ha by (apply lookup_lt_Some in Hb; lia). by eapply H4.
    + destruct (j - length origins)%nat eqn:E; [|done]. injection Hb as <-. rewrite lookup_app_l in Ha by lia.
      apply not_true_iff_false. intros Ht. apply not_true_iff_false in A. apply A. apply already_true. exists (flip_key a).
      split; [|done]. rewrite H2. apply elem_of_reverse. change map with (@fmap list _). apply list_elem_of_fmap. exists a.
      split; [done|]. by eapply list_elem_of_lookup_2.
  - intros q [Hq'| ->%list_elem_of_singleton]%elem_of_app Hf Hs Hn.
    + destruct (H5 q Hq' Hf Hs Hn) as (o & Ho & Ha). exists o. split; [apply elem_of_app; by left|done].
    + exists (item, level). split; [apply elem_of_app; right; by apply list_elem_of_singleton|].
      unfold already, flip_key in *. cbn [existsb fst snd] in *. rewrite bool_decide_true by done. rewrite eqb_num by done. by rewrite Z.eqb_refl.
Qed.
Lemma flips_break bars frac required age levels pairs origins st item :
  flips_of bars frac required age pairs origins st →
  ∃ origins', flips_of bars frac required age (pairs ++ map (pair item) levels) origins' (flip_break_step levels bars required age frac st item).
Proof.
  intros Hst. unfold flip_break_step.
  destruct (negb ((age >=? 0)%Z && (Z.of_nat (length bars) - 1 - Z.of_nat (bk_Index item) >? age)%Z) &&
    accepted bars required (bk_Index item) (bk_Level item) (bk_Direction item)) eqn:Q.
  - apply andb_true_iff in Q as [Q1 Q2]. rewrite (proj1 (negb_true_iff _) Q1), Q2. cbn [negb].
    revert pairs origins st Hst. induction levels as [|level levels IH]; intros pairs origins st Hst; cbn [foldl map].
    { exists origins. by rewrite app_nil_r. }
    destruct (flips_level _ _ _ _ _ _ _ item level Hst) as [o' H']; [by rewrite Q1, Q2|].
    destruct (IH _ _ _ H') as [o'' H'']. exists o''. by rewrite <- app_assoc in H''.
  - assert (E : (if (age >=? 0)%Z && (Z.of_nat (length bars) - 1 - Z.of_nat (bk_Index item) >? age)%Z then st
      else if negb (accepted bars required (bk_Index item) (bk_Level item) (bk_Direction item)) then st
      else foldl (flip_level_step bars frac item) st levels) = st).
    { destruct (_ && (_ >? _)%Z); [done|]. cbn [negb andb] in Q. by rewrite Q. }
    rewrite E. exists origins. revert pairs Hst. induction levels as [|level levels IH]; intros pairs Hst; cbn [map]; [by rewrite app_nil_r|].
    change ((item, level) :: ?l) with ([(item, level)] ++ l). rewrite app_assoc. apply IH; [|].
    + destruct (_ && (_ >? _)%Z); [done|]. cbn [negb andb] in Q. by rewrite Q.
    + apply flips_skip; [done|]. unfold flip_qualifies. cbn [fst snd]. rewrite Q. done.
Qed.
Lemma flip_of_spec bars frac item level z :
  flip_of bars frac item level = Some z →
  finite (z_Bottom z) = true ∧ finite (z_Top z) = true ∧ z_Side z = side_of (bk_Direction item) ∧
  z_OriginIndex z = Z.of_nat (bk_Index item) ∧ (z_Top z - z_Bottom z <=? 0)%float = false ∧
  (z_Side z = "demand" → (z_Bottom z <? l_Price level - flip_eps)%float = false) ∧
  (z_Side z = "supply" → (z_Top z >? l_Price level + flip_eps)%float = false).
Proof.
  unfold flip_of. destruct (if bool_decide _ then (l_Price level, _) else _) as [b t]. destruct (if bool_decide _ then (b, _) else _) as [b' t'].
  set (z0 := set_break _ _ _). assert (Es : z_Side z0 = side_of (bk_Direction item)) by (unfold z0, newZone; by destruct (_ >? _)%float).
  assert (Eo : z_OriginIndex z0 = Z.of_nat (bk_Index item)) by (unfold z0, newZone; by destruct (_ >? _)%float).
  clearbody z0. destruct (_ || _) eqn:I; [done|]. intros [= ->]. bools. unfold finite. rewrite <- Es in *.
  split_and!; try done; try (by apply andb_true_iff; split; apply negb_true_iff).
  - intros E. rewrite bool_decide_true in * by done. done.
  - intros E. rewrite (bool_decide_true (z_Side z = "supply")) in * by done. done.
Qed.

(** * Theorems *)

(** The displacement legs are exactly the maximal runs of bars in one direction that travel far enough for the ATR at their
    end and have enough strong bodies, in order and disjoint. *)
Theorem technique_legs_exact bars atr k bodyFrac :
  let legs := Displacement bars atr k bodyFrac in let series := atr_or bars atr in
  (∀ l, l ∈ legs ↔ ∃ s e d, l = leg_of bars s e d ∧ maximal bars s e d ∧ qualifies bars series k bodyFrac s e d = true) ∧
  StronglySorted (λ a b, lg_End a < lg_Start b)%nat legs.
Proof. apply displacement_exact. Qed.

(** Mitigation counts touching episodes: a zone's touches are the larger of those it had and the number of bars, after its
    break or else its origin and before the cut-off, that touch it and do not follow a touching bar of that range; it is
    mitigated once it has any, and nothing else of it changes. *)
Theorem technique_mitigation_counts bars cutoff z :
  let touched := touches_zone z in let from := touch_start z in let range := slice bars from (touch_end bars cutoff) in
  let episodes := Z.of_nat (length (List.filter (λ i, touched (bars !!! i) && ((i =? from)%nat || negb (touched (bars !!! (i - 1)%nat))))
                    (seq from (length range)))) in
  mitigate bars cutoff z = set_touches z (Z.max episodes (z_Touches z)) (z_Mitigated z || (0 <? Z.max episodes (z_Touches z))%Z).
Proof.
  cbv zeta. unfold mitigate, touch_count. rewrite episodes_count. cbn [fst]. rewrite Z.add_0_l, Z.gtb_ltb.
  set (from := touch_start z). set (end_ := touch_end bars cutoff).
  replace (length (List.filter (begins _ _ _) _)) with (length (List.filter (λ i, touches_zone z (bars !!! i) &&
    ((i =? from)%nat || negb (touches_zone z (bars !!! (i - 1)%nat)))) (seq from (length (slice bars from end_))))); [done|].
  replace (seq from (length (slice bars from end_))) with (map (Nat.add from) (seq 0 (length (slice bars from end_)))).
  2: { apply list_eq. intros i. change map with (@fmap list _). rewrite list_lookup_fmap.
       destruct (decide (i < length (slice bars from end_))%nat).
       - by rewrite !lookup_seq_lt.
       - by rewrite !lookup_ge_None_2 by (rewrite length_seq; lia). }
  rewrite filter_map_swap, length_map. f_equal. apply filter_ext_in. intros i Hi%in_seq.
  assert (L : ∀ j, (j <= i)%nat → slice bars from end_ !!! j = bars !!! (from + j)%nat).
  { intros j Hj. rewrite !list_lookup_total_alt. f_equal. rewrite lookup_slice. rewrite length_slice in Hi. by rewrite decide_True by lia. }
  unfold begins. rewrite L by done. destruct (Nat.eqb_spec i 0) as [->|].
  - rewrite Nat.add_0_r, Nat.eqb_refl. done.
  - destruct (Nat.eqb_spec (from + i) from); [lia|]. rewrite L by lia. by replace (from + (i - 1))%nat with (from + i - 1)%nat by lia.
Qed.

(** A zone price closed through is dead and flips: the first bar after the origin that closes beyond the far side leaves the
    zone touched and mitigated beside a breaker of the same band on the other side, born at that bar; a zone never closed
    through stays as it is. *)
Theorem technique_breaker_flips blocks bars :
  BreakerBlocks blocks bars = flat_map (λ z,
    match list_find (λ i, violates z (bars !!! i) = true)
            (seq (Z.to_nat (Z.max 0 (z_OriginIndex z + 1))) (length bars - Z.to_nat (Z.max 0 (z_OriginIndex z + 1)))) with
    | None => [z]
    | Some (_, v) => [set_touches z (Z.max (z_Touches z) 1) true;
                      set_break (newZone (Low z) (High z) (flip_side (z_Side z)) (Z.of_nat v) "breaker") "breaker" (Z.of_nat v)]
    end) blocks.
Proof.
  unfold BreakerBlocks. rewrite !flat_map_concat_map. f_equal. apply map_ext. intros z. unfold breaker_of, breakerViolation.
  set (from := Z.to_nat _). generalize (length bars - from)%nat as n. intros n.
  assert (E : first_some (λ i, if violates z (bars !!! i) then Some i else None) n from =
    snd <$> list_find (λ i, violates z (bars !!! i) = true) (seq from n)).
  { clearbody from. revert from. induction n as [|n IH]; intros from; cbn [first_some seq list_find]; [done|].
    destruct (violates z (bars !!! from)) eqn:V; [by rewrite decide_True|]. rewrite decide_False by congruence. rewrite IH.
    by destruct (list_find _ _) as [[]|]. }
  rewrite E. by destruct (list_find _ _) as [[]|].
Qed.

(** Flip zones come from accepted breaks at levels and nowhere else: there is one zone per side and rounded price, each a
    finite band of positive width whose edge at the level does not pass it by more than the tolerance, and every accepted,
    recent enough break near a level has its zone unless the band would be invalid. *)
Theorem technique_flips_exact levels breaks bars acceptBars maxBreakAge frac :
  let required := Z.to_nat (Z.max 1 acceptBars) in
  let pairs := flat_map (λ item, map (pair item) levels) breaks in
  ∃ origins keys, flips_of bars frac required maxBreakAge pairs origins (keys, FlipZones levels breaks bars acceptBars maxBreakAge frac) ∧
    Forall (λ z, finite (z_Bottom z) = true ∧ finite (z_Top z) = true ∧ (z_Top z - z_Bottom z <=? 0)%float = false ∧
      ∃ level, level ∈ levels ∧ (z_Side z = "demand" → (z_Bottom z <? l_Price level - flip_eps)%float = false) ∧
        (z_Side z = "supply" → (z_Top z >? l_Price level + flip_eps)%float = false))
      (FlipZones levels breaks bars acceptBars maxBreakAge frac).
Proof.
  cbv zeta. unfold FlipZones. set (required := Z.to_nat _).
  assert (H : ∀ pairs origins st, flips_of bars frac required maxBreakAge pairs origins st →
    ∃ origins', flips_of bars frac required maxBreakAge (pairs ++ flat_map (λ item, map (pair item) levels) breaks) origins'
      (foldl (flip_break_step levels bars required maxBreakAge frac) st breaks)).
  { induction breaks as [|item breaks IH]; intros pairs origins st Hst; cbn [flat_map foldl]; [exists origins; by rewrite app_nil_r|].
    destruct (flips_break _ _ _ _ levels _ _ _ item Hst) as [o' H']. destruct (IH _ _ _ H') as [o'' H'']. exists o''. by rewrite <- app_assoc in H''. }
  destruct (H [] [] ([], [])) as [origins Ho].
  { split_and!; [by apply Forall2_nil|done|by apply Forall_nil|by intros ? ? ? ? _ ?|by intros ? ?%not_elem_of_nil]. }
  cbn [app] in Ho. destruct (foldl _ _ breaks) as [keys zones]. exists origins, keys. split; [exact Ho|]. destruct Ho as (H1 & _ & H3 & _). cbn [snd] in *.
  apply Forall_lookup. intros i z Hz. destruct (Forall2_lookup_r _ _ _ _ _ H1 Hz) as ([item level] & Hp & Hf).
  destruct (flip_of_spec _ _ _ _ _ Hf) as (F1 & F2 & _ & _ & F5 & F6 & F7). split_and!; [done..|]. exists level. split_and!; [|done..].
  rewrite Forall_lookup in H3. destruct (H3 _ _ Hp) as [Hin _]. apply list_elem_of_In, in_flat_map in Hin as (it & _ & Hin).
  apply in_map_iff in Hin as (lv & [= -> ->] & Hin). by apply list_elem_of_In.
Qed.

(** Merging partitions the zones: every zone is in exactly one group, a group has one side, each later member overlaps an
    earlier one enough, and no group of several passes the width bound; a group's zone has its side, no more touches than any
    member, and, the bands being finite, is the least band around its members. *)
Theorem technique_merge_partitions zones minOverlap maxWidth :
  ∃ groups, MergeZones zones minOverlap maxWidth = map compositeZone groups ∧ concat (map members groups) ≡ₚ zones ∧
    Forall (group_ok minOverlap maxWidth) groups ∧
    Forall (λ g, Forall (λ z, z_Side (compositeZone g) = z_Side z ∧ z_Touches (compositeZone g) <= z_Touches z)%Z (members g) ∧
      (Forall (λ z, finite_zone z = true) (members g) → Forall (encloses (compositeZone g)) (members g) ∧
        Exists (λ z, key (z_Bottom z) = key (z_Bottom (compositeZone g))) (members g) ∧
        Exists (λ z, key (z_Top z) = key (z_Top (compositeZone g))) (members g))) groups.
Proof.
  exists (merge_groups zones minOverlap maxWidth). destruct (merge_groups_spec zones minOverlap maxWidth) as [P F].
  split_and!; [done|done|done|]. eapply Forall_impl; [exact F|]. intros g (H1 & _ & _).
  destruct (composite_spec g) as (Hs & He & Ht). split; [|done]. rewrite Forall_forall in Ht. apply Forall_forall. intros z Hz.
  split; [|by apply Ht]. rewrite Hs. apply elem_of_cons in Hz as [->|Hz]; [done|]. symmetry. by apply H1.
Qed.
