(* ===== verification/TechniqueInstances.v ===== *)
(** Package techniquezone, the technique instances: which structures of a timeframe still stand, the candle-range technique, and
    what each instance was derived from. *)
From S2P Require Import Prelude Float64 Market TechniqueBars TechniqueZones.
From S2P Require Structure Zone Reaction.
From Stdlib Require Import Floats.

(** * techniquezone.go: data *)

Record TechniqueSettings := mkTechniqueSettings {
  PipSize : float; EpsilonATRFrac : float; MaxZoneATR : float; FVGMaxATR : float; FVGMinPips : float; FVGEntryMaxWidthPrice : float;
  MomentumBodyFrac : float; RetestMaxTouches : Z; InvalidationToleranceATR : float; SweepReclaimBars : Z; MaxBreakEpisodes : Z;
  IgnoreProximity : bool
}.
Record Instance_ := mkInstance {
  in_Technique : string; in_Side : string; in_Low : float; in_High : float; in_Sources : list string; in_OriginIndex : Z;
  in_TouchableFrom : Z; in_Touches : Z; in_Mitigated : bool; in_EntryClipped : bool; in_StructuralLow : float;
  in_StructuralHigh : float; in_BodyFrac : float; in_HasBOS : bool; in_Score : float; in_ZoneScore : float; in_H1Time : Z;
  in_Timeframe : string; in_OriginTime : Z
}.
Definition set_band (i : Instance_) (low high structuralLow structuralHigh : float) : Instance_ :=
  mkInstance (in_Technique i) (in_Side i) low high (in_Sources i) (in_OriginIndex i) (in_TouchableFrom i) (in_Touches i)
    (in_Mitigated i) true structuralLow structuralHigh (in_BodyFrac i) (in_HasBOS i) (in_Score i) (in_ZoneScore i) (in_H1Time i)
    (in_Timeframe i) (in_OriginTime i).
Definition set_body (i : Instance_) (bodyFrac : float) (hasBOS : bool) : Instance_ :=
  mkInstance (in_Technique i) (in_Side i) (in_Low i) (in_High i) (in_Sources i) (in_OriginIndex i) (in_TouchableFrom i) (in_Touches i)
    (in_Mitigated i) (in_EntryClipped i) (in_StructuralLow i) (in_StructuralHigh i) bodyFrac hasBOS (in_Score i) (in_ZoneScore i)
    (in_H1Time i) (in_Timeframe i) (in_OriginTime i).

Definition tEpsilon (s : TechniqueSettings) (atr : float) : float := math_Max (PipSize s) (EpsilonATRFrac s * math_Max 0 atr).
Definition zoneSideToTradeSide (side : string) : string := if bool_decide (side = "demand") then "buy" else "sell".

(** * The life of a structure *)

Definition tolerance (s : TechniqueSettings) (atr : float) : float :=
  math_Max (tEpsilon s atr) (InvalidationToleranceATR s * math_Max atr 0).
Definition closes_beyond (side : string) (low high tol : float) (b : Candle) : bool :=
  if bool_decide (side = "buy") then (c_Close b <? low - tol)%float else (c_Close b >? high + tol)%float.
Definition closes_back (side : string) (low high : float) (b : Candle) : bool :=
  if bool_decide (side = "buy") then (c_Close b >=? low)%float else (c_Close b <=? high)%float.
(** The loop of [notInvalidated]; [index] grows at every turn, so the number of bars is enough fuel. *)
Fixpoint break_episodes (fuel : nat) (beyond back : Candle → bool) (reclaimWindow : nat) (maxEpisodes : Z) (bars : list Candle)
    (index : nat) (episodes : Z) : bool :=
  match fuel with
  | O => true
  | S fuel =>
      if (length bars <=? index)%nat then true
      else if negb (beyond (bars !!! index)) then break_episodes fuel beyond back reclaimWindow maxEpisodes bars (S index) episodes
      else
        let end_ := Nat.min (length bars) (index + 1 + reclaimWindow) in
        match first_some (λ p, if back (bars !!! p) then Some p else None) (end_ - (index + 1)) (index + 1) with
        | None => false
        | Some reclaimedAt =>
            if (episodes + 1 >? maxEpisodes)%Z then false
            else break_episodes fuel beyond back reclaimWindow maxEpisodes bars (S reclaimedAt) (episodes + 1)
        end
  end.
Definition notInvalidated (side : string) (low high : float) (bars : list Candle) (originIndex : Z) (atr : float) (s : TechniqueSettings) : bool :=
  if (length bars =? 0)%nat || (originIndex <? 0)%Z then true
  else break_episodes (length bars) (closes_beyond side low high (tolerance s atr)) (closes_back side low high)
         (Z.to_nat (Z.max 0 (SweepReclaimBars s))) (MaxBreakEpisodes s) bars (Z.to_nat (Z.max 0 (originIndex + 1))) 0.
Definition zoneIsSpent (mitigated : bool) (touches : Z) (side : string) (low high : float) (bars : list Candle) (originIndex : Z)
    (atr : float) (s : TechniqueSettings) : bool :=
  if negb mitigated then false
  else if (RetestMaxTouches s <=? 0)%Z || (touches <=? 0)%Z then true
  else if (touches >? RetestMaxTouches s)%Z then true
  else negb (notInvalidated side low high bars originIndex atr s).
Definition proximalRetest (side : string) (low high price atr : float) (s : TechniqueSettings) : bool :=
  let e := tEpsilon s atr in
  let proximal := if bool_decide (side = "buy") then high else low in
  (abs (price - proximal) <=? e)%float || ((low - e <=? price)%float && (price <=? high + e)%float).
Definition widthWithinATR (low high atr maxATR : float) : bool :=
  if (atr <=? 0)%float then true else (high - low <=? math_Max 0 maxATR * atr)%float.
Definition fills (side : string) (low high : float) (b : Candle) : bool :=
  if bool_decide (side = "buy") then (c_Low b <=? low)%float else (c_High b >=? high)%float.
Definition fvgNotFullyFilled (side : string) (low high : float) (bars : list Candle) (originIndex : Z) : bool :=
  if (length bars =? 0)%nat || (originIndex <? 0)%Z then true
  else forallb (λ b, negb (fills side low high b)) (drop (Z.to_nat (originIndex + 1)) bars).

(** * Instances of zones *)

(** The clipped band, [None] where the zone stays as it is. *)
Definition optimizeTechniqueEntry (z : Zone) (maxWidth : float) : option (float * float) :=
  let low := Low z in let high := High z in
  if IsNaN low || IsInf low || IsNaN high || IsInf high || (high <=? low)%float then None
  else if IsNaN maxWidth || IsInf maxWidth || (maxWidth <=? 0)%float then None
  else if (high - low <=? maxWidth + 1e-12)%float then None
  else if bool_decide (z_Side z = "supply") then Some (low, (low + maxWidth)%float) else Some ((high - maxWidth)%float, high).
Definition instanceFromZone (z : Zone) (technique : string) (entryMax : float) : Instance_ :=
  let inst := mkInstance technique (zoneSideToTradeSide (z_Side z)) (Low z) (High z) (sources_of z) (z_OriginIndex z)
    (Z.max (z_OriginIndex z) (z_BreakIndex z) + 1) (z_Touches z) (z_Mitigated z) false 0 0 0 false (sourceQuality z) (z_Score z) 0 "" 0 in
  if (bool_decide (technique = "supply_demand") || bool_decide (technique = "order_block") || bool_decide (technique = "fvg")) &&
     (entryMax >? 0)%float
  then match optimizeTechniqueEntry z entryMax with
       | Some (low, high) => set_band inst low high (Low z) (High z)
       | None => inst
       end
  else inst.
Definition obBodyFrac (bars : list Candle) (origin : Z) : float :=
  if (origin <? 0)%Z || (origin >=? Z.of_nat (length bars))%Z then 0%float
  else let b := bars !!! Z.to_nat origin in (abs (c_Close b - c_Open b) / math_Max (c_High b - c_Low b) 1e-9)%float.
(** The first close beyond the far side of a gap, and the trade side it inverts the gap to. *)
Definition inverts (z : Zone) (b : Candle) : option string :=
  if bool_decide (z_Side z = "demand") && (c_Close b <? Low z)%float then Some "sell"
  else if bool_decide (z_Side z = "supply") && (c_Close b >? High z)%float then Some "buy" else None.
Definition inversion (z : Zone) (bars : list Candle) : option (string * nat) :=
  let from := Z.to_nat (z_OriginIndex z + 1) in
  first_some (λ i, (λ side, (side, i)) <$> inverts z (bars !!! i)) (length bars - from) from.
Definition against (tradeSide : string) (z : Zone) (b : Candle) : bool :=
  (bool_decide (tradeSide = "buy") && (c_Close b <? Low z)%float) || (bool_decide (tradeSide = "sell") && (c_Close b >? High z)%float).
Definition ifvg_of (bars : list Candle) (entryMax : float) (z : Zone) : option Instance_ :=
  if (z_OriginIndex z <? 0)%Z then None
  else
    match inversion z bars with
    | None => None
    | Some (tradeSide, invertIndex) =>
        if existsb (against tradeSide z) (drop (S invertIndex) bars) then None
        else
          let zLo := Low z in let zHi := High z in
          let inst := mkInstance "ifvg" tradeSide zLo zHi ["ifvg"] (Z.of_nat invertIndex) (Z.of_nat invertIndex + 1) 0 false false 0 0 0 false
            0 0 0 "" 0 in
          Some (if (entryMax >? 0)%float && negb (IsNaN entryMax) && negb (IsInf entryMax) && (zHi - zLo >? entryMax + 1e-12)%float
                then (if bool_decide (tradeSide = "sell") then set_band inst zLo (zLo + entryMax) zLo zHi
                      else set_band inst (zHi - entryMax) zHi zLo zHi)
                else inst)
    end.
Definition discoverIFVG (fvgZones : list Zone) (bars : list Candle) (entryMax : float) : list Instance_ := omap (ifvg_of bars entryMax) fvgZones.

Definition validateInstance (i : Instance_) (bars : list Candle) (price atr : float) (s : TechniqueSettings) : bool :=
  if zoneIsSpent (in_Mitigated i) (in_Touches i) (in_Side i) (in_Low i) (in_High i) bars (in_OriginIndex i) atr s then false
  else if negb (notInvalidated (in_Side i) (in_Low i) (in_High i) bars (in_OriginIndex i) atr s) then false
  else if negb (IgnoreProximity s) && negb (proximalRetest (in_Side i) (in_Low i) (in_High i) price atr s) then false
  else
    let fvg := bool_decide (in_Technique i = "fvg") in
    if fvg && (in_High i - in_Low i <? FVGMinPips s * PipSize s)%float then false
    else if fvg && negb (fvgNotFullyFilled (in_Side i) (in_Low i) (in_High i) bars (in_OriginIndex i)) then false
    else if negb (widthWithinATR (in_Low i) (in_High i) atr (if fvg then FVGMaxATR s else MaxZoneATR s)) then false
    else if bool_decide (in_Technique i = "order_block") && ((in_BodyFrac i <? MomentumBodyFrac s)%float || negb (in_HasBOS i)) then false
    else true.

(** [strings.HasSuffix]. *)
Definition has_suffix (s suffix : string) : bool :=
  (String.length suffix <=? String.length s)%nat &&
  bool_decide (String.substring (String.length s - String.length suffix) (String.length suffix) s = suffix).
Definition has_source (z : Zone) (source : string) : bool :=
  bool_decide (z_Source z = source) || existsb (λ s, bool_decide (s = source)) (z_Sources z).
Definition is_gap (z : Zone) : bool := existsb (λ s, has_suffix s "_fvg") (z_Sources z).
(** The order blocks, the supply and demand zones, and the gaps. *)
Definition SourceViews (zones : list Zone) : list Zone * list Zone * list Zone :=
  (List.filter (λ z, has_source z "order_block") zones, List.filter (λ z, has_source z "supply_demand") zones, List.filter is_gap zones).
Definition spent (bars : list Candle) (atr : float) (s : TechniqueSettings) (z : Zone) : bool :=
  zoneIsSpent (z_Mitigated z) (z_Touches z) (zoneSideToTradeSide (z_Side z)) (Low z) (High z) bars (z_OriginIndex z) atr s.
Definition pending (sdZones obZones fvgZones : list Zone) (bars : list Candle) (atr : float) (s : TechniqueSettings) : list Instance_ :=
  let entryMax := FVGEntryMaxWidthPrice s in
  map (λ z, instanceFromZone z "supply_demand" entryMax) (List.filter (λ z, negb (spent bars atr s z)) sdZones) ++
  map (λ z, let i := instanceFromZone z "order_block" entryMax in set_body i (obBodyFrac bars (in_OriginIndex i)) true)
    (List.filter (λ z, negb (bool_decide (z_BreakKind z = "") || spent bars atr s z)) obZones) ++
  map (λ z, instanceFromZone z "fvg" entryMax) (List.filter (λ z, negb (spent bars atr s z)) fvgZones) ++
  discoverIFVG fvgZones bars entryMax.
Definition CollectInstances (sdZones obZones fvgZones : list Zone) (bars : list Candle) (price atr : float) (s : TechniqueSettings) : list Instance_ :=
  List.filter (λ i, validateInstance i bars price atr s) (pending sdZones obZones fvgZones bars atr s).
Definition last_close (bars : list Candle) : float := c_Close (bars !!! (length bars - 1)%nat).
Definition InstancesFromScoredZones (scored : list Zone) (bars : list Candle) (atr : float) (s : TechniqueSettings) : list Instance_ :=
  if (length bars =? 0)%nat then []
  else let '(obV, sdV, fvgV) := SourceViews scored in CollectInstances sdV obV fvgV bars (last_close bars) atr s.
Definition InstancesFromScoredZonesAsOf (scored : list Zone) (bars : list Candle) (atr : list float) (asOf : Z) (s : TechniqueSettings) : list Instance_ :=
  if (asOf <? 2)%Z || (asOf >? Z.of_nat (length bars))%Z || (asOf >? Z.of_nat (length atr))%Z then []
  else
    let n := Z.to_nat asOf in let prefix := take n bars in
    let zones := map (λ z, set_touches z 0 false) (List.filter (λ z, z_OriginIndex z <? asOf)%Z scored) in
    let '(obV, sdV, fvgV) := SourceViews (MarkMitigation zones prefix (Z.max 0 (Z.of_nat (length prefix) - 1))) in
    CollectInstances sdV obV fvgV prefix (last_close prefix) (ATRScalar (take n atr) 1) s.

(** * The chain in one call *)

Record ChainSettings := mkChainSettings {
  ATRLength : Z; SwingFractalN : nat; ZigzagPct : float; ZigzagATRMult : float; DisplacementATRMult : float;
  cs_MomentumBodyFrac : float; ZoneWidth : string; CausalStructure : bool
}.
Definition ProductionChainSettings : ChainSettings := mkChainSettings 14 2 0 1 1.5 0.6 "body" false.
Definition ProductionTechniqueSettings : TechniqueSettings := mkTechniqueSettings 0.1 0.05 3 2 1 5 0.6 30 0.5 6 2 false.
Definition chain_swings (bars : list Candle) (c : ChainSettings) : list Swing :=
  FindSwings bars (SwingFractalN c) (ZigzagPct c) (ZigzagATRMult c) (Some (ATRSeries bars (ATRLength c)))
    (if CausalStructure c then Z.of_nat (length bars) - 1 else -1)%Z.
Definition chain_breaks (bars : list Candle) (c : ChainSettings) : list Break :=
  StructureBreaks (chain_swings bars c) bars (CausalStructure c) (SwingFractalN c).
Definition chain_legs (bars : list Candle) (c : ChainSettings) : list Leg :=
  Displacement bars (Some (ATRSeries bars (ATRLength c))) (DisplacementATRMult c) (cs_MomentumBodyFrac c).
Definition chain_zones (bars : list Candle) (c : ChainSettings) : list Zone :=
  BreakerBlocks (SupplyDemand bars (chain_legs bars c)) bars ++
  BreakerBlocks (OrderBlocks bars (chain_legs bars c) (chain_breaks bars c) (ZoneWidth c)) bars ++ FVG bars.
Definition TechniqueInstances (bars : list Candle) (c : ChainSettings) (s : TechniqueSettings) : list Instance_ :=
  if (length bars =? 0)%nat then []
  else
    let marked := MarkMitigation (AsSingleZones (chain_zones bars c)) bars (Z.max 0 (Z.of_nat (length bars) - 1)) in
    let '(obV, sdV, fvgV) := SourceViews marked in
    CollectInstances sdV obV fvgV bars (last_close bars) (ATRScalar (ATRSeries bars (ATRLength c)) 1) s.

(** * The candle-range technique *)

Record CRTSettings := mkCRTSettings {
  MinATR : float; ReclaimBars : Z; EntryMaxWidthPrice : float; H1LookbackBars : Z; ReactionLookbackBars : Z
}.
Definition ProductionCRTSettings : CRTSettings := mkCRTSettings 1.5 6 5 3 3.
Definition sweeps_range (side : string) (rangeLow rangeHigh : float) (b : Candle) : bool :=
  (bool_decide (side = "buy") && (c_Low b <? rangeLow)%float) || (bool_decide (side = "sell") && (c_High b >? rangeHigh)%float).
Definition reclaims_range (side : string) (rangeLow rangeHigh : float) (b : Candle) : bool :=
  (bool_decide (side = "buy") && (c_Close b >=? rangeLow)%float) || (bool_decide (side = "sell") && (c_Close b <=? rangeHigh)%float).
(** The last sweep among the latest bars. *)
Definition crt_sweep (execBars : list Candle) (reclaim : nat) (side : string) (rangeLow rangeHigh : float) : option nat :=
  last (List.filter (λ i, sweeps_range side rangeLow rangeHigh (execBars !!! i))
    (seq (length execBars - reclaim - 5) (length execBars - (length execBars - reclaim - 5)))).
Definition crt_reclaimed (execBars : list Candle) (reclaim : nat) (side : string) (rangeLow rangeHigh : float) (sweepIndex : nat) : bool :=
  existsb (reclaims_range side rangeLow rangeHigh) (slice execBars sweepIndex (Nat.min (length execBars) (sweepIndex + reclaim + 1))).
Definition wrong_half (side : string) (price mid : float) : bool :=
  (bool_decide (side = "buy") && (price >? mid)%float) || (bool_decide (side = "sell") && (price <? mid)%float).
(** Whether there is a structural reaction off the range. With no minimum index the search never panics. *)
Definition crt_reacts (execBars : list Candle) (s : CRTSettings) (side : string) (rangeLow rangeHigh : float) : bool :=
  let direction := if bool_decide (side = "sell") then "SELL" else "BUY" in
  match Reaction.Evaluate execBars (Reaction.mkParams direction rangeLow rangeHigh (ReactionLookbackBars s) 0 [] false 0 0 0) with
  | Some (Some _) => true
  | _ => false
  end.
Definition crt_instance (s : CRTSettings) (side : string) (rowPos : nat) (row : Candle) : Instance_ :=
  let rangeHigh := c_High row in let rangeLow := c_Low row in
  let inst := mkInstance "crt" side rangeLow rangeHigh ["crt"] (Z.of_nat rowPos) 0 0 false false rangeLow rangeHigh 0 false 0 0 (c_Time row) "" 0 in
  if (rangeHigh - rangeLow >? EntryMaxWidthPrice s + 1e-12)%float && (EntryMaxWidthPrice s >? 0)%float
  then (if bool_decide (side = "sell") then set_band inst (rangeHigh - EntryMaxWidthPrice s) rangeHigh rangeLow rangeHigh
        else set_band inst rangeLow (rangeLow + EntryMaxWidthPrice s) rangeLow rangeHigh)
  else inst.
Definition crt_qualifies (execBars : list Candle) (s : CRTSettings) (side : string) (row : Candle) : bool :=
  let reclaim := Z.to_nat (Z.max 1 (ReclaimBars s)) in let rangeHigh := c_High row in let rangeLow := c_Low row in
  match crt_sweep execBars reclaim side rangeLow rangeHigh with
  | None => false
  | Some sweepIndex =>
      crt_reclaimed execBars reclaim side rangeLow rangeHigh sweepIndex &&
      negb (wrong_half side (last_close execBars) ((rangeHigh + rangeLow) / 2)) && crt_reacts execBars s side rangeLow rangeHigh
  end.
Definition crt_side (execBars : list Candle) (s : CRTSettings) (rowPos : nat) (row : Candle) (state : list string * list Instance_) (side : string) :
    list string * list Instance_ :=
  if bool_decide (side ∈ state.1) then state
  else if crt_qualifies execBars s side row then (side :: state.1, state.2 ++ [crt_instance s side rowPos row]) else state.
(** One hourly candle, the latest first; once both sides are found the loop has ended. *)
Definition crt_row (h1Bars execBars : list Candle) (h1ATR : float) (s : CRTSettings) (state : list string * list Instance_) (rowPos : nat) :
    list string * list Instance_ :=
  if (2 <=? length state.1)%nat then state
  else
    let row := h1Bars !!! rowPos in
    if (c_High row - c_Low row <? MinATR s * h1ATR)%float then state
    else foldl (crt_side execBars s rowPos row) state ["buy"; "sell"].
Definition DiscoverCRT (h1Bars execBars : list Candle) (h1ATR : float) (s : CRTSettings) : list Instance_ :=
  if (length h1Bars =? 0)%nat || (length execBars =? 0)%nat || (h1ATR <=? 0)%float then []
  else
    let start := (length h1Bars - Z.to_nat (Z.max 1 (H1LookbackBars s)))%nat in
    snd (foldl (crt_row h1Bars execBars h1ATR s) ([], []) (reverse (seq start (length h1Bars - start)))).
Definition CollectCRT (h1Bars execBars : list Candle) (h1ATR execATR : float) (crt : CRTSettings) (s : TechniqueSettings) : list Instance_ :=
  let price := match execBars with [] => 0%float | _ => last_close execBars end in
  List.filter (λ i, validateInstance i execBars price execATR s) (DiscoverCRT h1Bars execBars h1ATR crt).

(** * provenance.go *)

Definition legDirection (side : string) : string := if bool_decide (side = "buy") then "up" else "down".
Definition LegOfSupplyDemand (legs : list Leg) (originIndex : Z) (side : string) : option Leg :=
  List.find (λ leg, bool_decide (lg_Direction leg = legDirection side) && (Z.of_nat (lg_Start leg) - 1 =? originIndex)%Z) legs.
(** [lastOppositeCandle], -1 for none. *)
Definition origin_index (bars : list Candle) (leg : Leg) : Z := from_option Z.of_nat (-1)%Z (lastOppositeCandle bars leg).
Fixpoint LegOfOrderBlock (bars : list Candle) (legs : list Leg) (breaks : list Break) (originIndex : Z) (side : string) : option (Leg * Break) :=
  match legs with
  | [] => None
  | leg :: legs =>
      if negb (bool_decide (lg_Direction leg = legDirection side)) then LegOfOrderBlock bars legs breaks originIndex side
      else
        match causingBOS leg breaks with
        | Some bos => if (origin_index bars leg =? originIndex)%Z then Some (leg, bos) else LegOfOrderBlock bars legs breaks originIndex side
        | None => LegOfOrderBlock bars legs breaks originIndex side
        end
  end.
Definition BrokenSwing (swings : list Swing) (brk : Break) : option Swing :=
  let kind := if bool_decide (bk_Direction brk = "down") then "low" else "high" in
  List.find (λ s, bool_decide (s_Kind s = kind) && (s_Index s <? bk_Index brk)%nat && (s_Price s =? bk_Level brk)%float) (reverse swings).
Definition LegContaining (legs : list Leg) (index : Z) (direction : string) : option Leg :=
  List.find (λ leg, bool_decide (lg_Direction leg = direction) && (Z.of_nat (lg_Start leg) <=? index)%Z && (index <=? Z.of_nat (lg_End leg))%Z) legs.
Record Gap := mkGap { Older : Z; Middle : Z; Newest : Z }.
Definition sameBand (aLow aHigh bLow bHigh : float) : bool := (abs (aLow - bLow) <? 1e-6)%float && (abs (aHigh - bHigh) <? 1e-6)%float.
Definition GapOfFVG (bars : list Candle) (originIndex : Z) (side : string) (low high : float) : option Gap :=
  if (originIndex <? 2)%Z || (originIndex >=? Z.of_nat (length bars))%Z then None
  else
    let i := Z.to_nat originIndex in let older := bars !!! (i - 2)%nat in let cur := bars !!! i in
    let gap := mkGap (originIndex - 2) (originIndex - 1) originIndex in
    if bool_decide (side = "buy") && (c_High older <? c_Low cur)%float && sameBand (c_High older) (c_Low cur) low high then Some gap
    else if bool_decide (side = "sell") && (c_Low older >? c_High cur)%float && sameBand (c_High cur) (c_Low older) low high then Some gap
    else None.
Definition first_inverting (bars : list Candle) (gapSide : string) (low high : float) (g : nat) : option nat :=
  first_some (λ i, if (bool_decide (gapSide = "buy") && (c_Close (bars !!! i) <? low)%float) ||
    (bool_decide (gapSide = "sell") && (c_Close (bars !!! i) >? high)%float) then Some i else None) (length bars - S g) (S g).
Definition ParentGapOfIFVG (bars : list Candle) (invertIndex : Z) (tradeSide : string) (low high : float) : option Gap :=
  if (invertIndex <=? 2)%Z || (invertIndex >=? Z.of_nat (length bars))%Z then None
  else
    let gapSide := if bool_decide (tradeSide = "buy") then "sell" else "buy" in
    first_some (λ g, match GapOfFVG bars (Z.of_nat g) gapSide low high with
      | Some gap => if bool_decide (first_inverting bars gapSide low high g = Some (Z.to_nat invertIndex)) then Some gap else None
      | None => None
      end) (Z.to_nat invertIndex - 2) 2.

(** * Lemmas: the life of a structure *)

(** The structure as a zone of the structural lifecycle, and its forgiveness. *)
Definition band_zone (side : string) (low high : float) : Zone.Zone :=
  Zone.new_zone "" Zone.KindDemand (if bool_decide (side = "buy") then Zone.Demand else Zone.Supply) low high "" 0 "" "" 0 0.
Definition forgiveness (s : TechniqueSettings) : Zone.LifecycleConfig :=
  Zone.mkLifecycleConfig 0 (Z.to_nat (Z.max 0 (SweepReclaimBars s))) (MaxBreakEpisodes s) 0 0.
Lemma break_episodes_loop fuel side low high tol s bars i e :
  break_episodes fuel (closes_beyond side low high tol) (closes_back side low high) (Z.to_nat (Z.max 0 (SweepReclaimBars s)))
    (MaxBreakEpisodes s) bars i e = Zone.episode_loop fuel bars (band_zone side low high) tol (forgiveness s) i e.
Proof.
  revert i e. induction fuel as [|fuel IH]; intros i e; cbn [break_episodes Zone.episode_loop]; [done|].
  destruct (Nat.leb_spec (length bars) i); [done|].
  assert (Eb : Zone.breached (band_zone side low high) tol (bars !!! i) = closes_beyond side low high tol (bars !!! i)).
  { unfold Zone.breached, Zone.farEdge, closes_beyond. cbn. by case_bool_decide. }
  rewrite Eb. destruct (closes_beyond _ _ _ _ _); cbn [negb]; [|apply IH].
  assert (Er : Structure.first_index (Zone.reclaims (band_zone side low high)) bars (i + 1)
      (if (length bars - 1 <? i + Zone.SweepReclaimBars (forgiveness s))%nat then (length bars - 1)%nat else (i + Zone.SweepReclaimBars (forgiveness s))%nat) =
    first_some (λ p, if closes_back side low high (bars !!! p) then Some p else None)
      (Nat.min (length bars) (i + 1 + Z.to_nat (Z.max 0 (SweepReclaimBars s))) - (i + 1)) (i + 1)).
  { unfold Structure.first_index. cbn [forgiveness Zone.SweepReclaimBars].
    replace (S (if (_ <? _)%nat then _ else _) - (i + 1))%nat with
      (Nat.min (length bars) (i + 1 + Z.to_nat (Z.max 0 (SweepReclaimBars s))) - (i + 1))%nat.
    - apply first_some_ext. intros k _. unfold Zone.reclaims, Zone.farEdge, closes_back. cbn. by case_bool_decide.
    - destruct (Nat.ltb_spec (length bars - 1) (i + Z.to_nat (Z.max 0 (SweepReclaimBars s)))); lia. }
  rewrite Er. destruct (first_some _ _ _) as [j|]; [|done]. cbn [forgiveness Zone.MaxBreakEpisodes]. rewrite Z.gtb_ltb.
  destruct (_ <? _)%Z; [done|]. apply IH.
Qed.

(** * Lemmas: the candle-range technique *)

Definition crt_ok (h1Bars execBars : list Candle) (h1ATR : float) (s : CRTSettings) (r : nat) (side : string) : bool :=
  let row := h1Bars !!! r in negb (c_High row - c_Low row <? MinATR s * h1ATR)%float && crt_qualifies execBars s side row.
(** The state after the (row, side) pairs of [P]. *)
Definition crt_sides : list string := ["buy"; "sell"].
Definition crt_inv (ok : nat → string → bool) (inst : string → nat → Instance_) (P : nat → string → Prop) (st : list string * list Instance_) : Prop :=
  NoDup st.1 ∧ (∀ side, side ∈ st.1 ↔ side ∈ crt_sides ∧ ∃ r, P r side ∧ ok r side = true) ∧
  (∀ i, i ∈ st.2 ↔ ∃ side r, side ∈ crt_sides ∧ P r side ∧ ok r side = true ∧ i = inst side r ∧
    ∀ r', P r' side → (r < r')%nat → ok r' side = false).
Lemma crt_inv_ext ok inst (P Q : nat → string → Prop) st : (∀ r side, P r side ↔ Q r side) → crt_inv ok inst P st → crt_inv ok inst Q st.
Proof.
  intros He (H1 & H2 & H3). split; [done|]. split.
  - intros side. rewrite H2. split; intros [Hs (r & Hr & Ho)]; (split; [done|]); exists r; by rewrite He in *.
  - intros i. rewrite H3. split; intros (side & r & Hs & Hp & Ho & -> & Hm); exists side, r; (split_and!; [done|by apply He|done|done|]);
      intros r' Hr'; by apply Hm, He.
Qed.
Lemma crt_inv_skip ok inst P st r side :
  crt_inv ok inst P st → (∀ r', P r' side → (r < r')%nat) → (side ∈ st.1 ∨ ok r side = false) →
  crt_inv ok inst (λ r' side', P r' side' ∨ (r' = r ∧ side' = side)) st.
Proof.
  intros (H1 & H2 & H3) Hlt Hskip. split; [done|]. split.
  - intros side'. rewrite H2. split; [intros [Hs (r' & Hr & Ho)]; split; [done|]; exists r'; by split; [left|]|].
    intros [Hs (r' & [Hr|[-> ->]] & Ho)]; [split; [done|]; by exists r'|]. destruct Hskip as [Hin|Hf]; [by apply H2 in Hin|congruence].
  - intros i. rewrite H3. split.
    + intros (side' & r' & Hs & Hp & Ho & -> & Hm). exists side', r'. split_and!; [done|by left|done|done|].
      intros r'' [Hr|[-> ->]] Hl; [by apply Hm|]. specialize (Hlt _ Hp). lia.
    + intros (side' & r' & Hs & [Hp|[-> ->]] & Ho & -> & Hm).
      * exists side', r'. split_and!; try done. intros r'' Hr. apply Hm. by left.
      * destruct Hskip as [Hin|Hf]; [|congruence]. apply H2 in Hin as (_ & r' & Hr' & Ho').
        rewrite (Hm r') in Ho'; [done|by left|by apply Hlt].
Qed.
Lemma crt_inv_add ok inst P st r side :
  crt_inv ok inst P st → (∀ r', P r' side → (r < r')%nat) → side ∈ crt_sides → side ∉ st.1 → ok r side = true →
  crt_inv ok inst (λ r' side', P r' side' ∨ (r' = r ∧ side' = side)) (side :: st.1, st.2 ++ [inst side r]).
Proof.
  intros (H1 & H2 & H3) Hlt Hs Hn Ho. split; [by apply NoDup_cons|]. split.
  - intros side'. cbn [fst snd]. rewrite elem_of_cons, H2. split.
    + intros [->|[Hs' (r' & Hr & Ho')]]; (split; [done|]); [exists r|exists r']; naive_solver.
    + intros [Hs' (r' & [Hr|[-> ->]] & Ho')]; [right; split; [done|]; by exists r'|by left].
  - intros i. cbn [fst snd]. rewrite elem_of_app, list_elem_of_singleton, H3. split.
    + intros [(side' & r' & Hs' & Hp & Ho' & -> & Hm)| ->].
      * exists side', r'. split_and!; [done|by left|done|done|]. intros r'' [Hr|[-> ->]] Hl; [by apply Hm|]. specialize (Hlt _ Hp). lia.
      * exists side, r. split_and!; [done|by right|done|done|]. intros r'' [Hr|[-> _]] Hl; [|lia].
        destruct (ok r'' side) eqn:E; [|done]. destruct Hn. apply H2. split; [done|]. by exists r''.
    + intros (side' & r' & Hs' & [Hp|[-> ->]] & Ho' & -> & Hm); [left|by right].
      exists side', r'. split_and!; try done. intros r'' Hr. apply Hm. by left.
Qed.

Section crt.
Context (h1Bars execBars : list Candle) (h1ATR : float) (s : CRTSettings).
Definition crt_state := crt_inv (crt_ok h1Bars execBars h1ATR s) (λ side r, crt_instance s side r (h1Bars !!! r)).
Lemma crt_side_inv P st r side :
  crt_state P st → (∀ r', P r' side → (r < r')%nat) → side ∈ crt_sides →
  (c_High (h1Bars !!! r) - c_Low (h1Bars !!! r) <? MinATR s * h1ATR)%float = false →
  crt_state (λ r' side', P r' side' ∨ (r' = r ∧ side' = side)) (crt_side execBars s r (h1Bars !!! r) st side).
Proof.
  intros Hi Hlt Hs Hr. unfold crt_side. case_bool_decide as Hin; [apply crt_inv_skip; auto|].
  destruct (crt_qualifies execBars s side (h1Bars !!! r)) eqn:E.
  - apply crt_inv_add; try done. unfold crt_ok. by rewrite Hr, E.
  - apply crt_inv_skip; [done|done|]. right. unfold crt_ok. by rewrite E, andb_false_r.
Qed.
Lemma crt_row_inv P st r :
  crt_state P st → (∀ r' side, P r' side → (r < r')%nat) →
  crt_state (λ r' side', P r' side' ∨ (r' = r ∧ side' ∈ crt_sides)) (crt_row h1Bars execBars h1ATR s st r).
Proof.
  intros Hi Hlt.
  assert (Hext : ∀ st', crt_state (λ r' side', (P r' side' ∨ (r' = r ∧ side' = "buy")) ∨ (r' = r ∧ side' = "sell")) st' →
    crt_state (λ r' side', P r' side' ∨ (r' = r ∧ side' ∈ crt_sides)) st').
  { intros st'. apply crt_inv_ext. intros r' side'. unfold crt_sides. set_solver. }
  assert (Hskip : ∀ st', crt_state P st' → (∀ side, side ∈ crt_sides → side ∈ st'.1 ∨ crt_ok h1Bars execBars h1ATR s r side = false) →
    crt_state (λ r' side', P r' side' ∨ (r' = r ∧ side' ∈ crt_sides)) st').
  { intros st' Hst Hs. apply Hext. apply crt_inv_skip; [apply crt_inv_skip; [done|by intros r'; apply Hlt|apply Hs; set_solver]| |apply Hs; set_solver].
    intros r' [H|[_ ?]]; [by eapply Hlt|done]. }
  unfold crt_row. destruct (Nat.leb_spec 2 (length st.1)) as [Hlen|].
  { apply Hskip; [done|]. intros side Hside. left. destruct Hi as (Hn & Hf & _).
    assert (Hsub : st.1 ≡ₚ crt_sides); [|by rewrite Hsub].
    apply submseteq_length_Permutation; [|done]. apply NoDup_submseteq; [done|]. intros x Hx. by apply Hf in Hx as [? _]. }
  destruct (_ <? _)%float eqn:Hr.
  { apply Hskip; [done|]. intros side _. right. unfold crt_ok. by rewrite Hr. }
  apply Hext. cbn [foldl]. apply crt_side_inv; [apply crt_side_inv; [done|by intros r'; apply Hlt|set_solver|done]| |set_solver|done].
  intros r' [Hp|[_ ?]]; [by eapply Hlt|done].
Qed.
Lemma crt_rows_inv rows : ∀ P st,
  crt_state P st → StronglySorted gt rows → (∀ r, r ∈ rows → ∀ r' side, P r' side → (r < r')%nat) →
  crt_state (λ r' side', P r' side' ∨ (r' ∈ rows ∧ side' ∈ crt_sides)) (foldl (crt_row h1Bars execBars h1ATR s) st rows).
Proof.
  induction rows as [|r rows IH]; intros P st Hi Hs Hlt; cbn [foldl].
  { eapply crt_inv_ext; [|exact Hi]. intros r' side'. set_solver. }
  inversion Hs as [|? ? Hs' Hf]; subst. eapply crt_inv_ext; [|apply (IH _ _ (crt_row_inv P st r Hi ltac:(apply Hlt; by left))); [done|]].
  - intros r' side'. cbn beta. rewrite elem_of_cons. tauto.
  - intros r0 Hr0 r' side [H|[-> _]]; [by eapply (Hlt r0); [by right|]|]. rewrite Forall_forall in Hf. by apply Hf.
Qed.
End crt.

(** * Lemmas: where instances come from *)

Definition finite_bars (bars : list Candle) : Prop := Forall (λ b, finite (c_High b) = true ∧ finite (c_Low b) = true) bars.
(** What marking and splitting keep of a zone. *)
Definition same_shape (z z' : Zone) : Prop :=
  z_Bottom z = z_Bottom z' ∧ z_Top z = z_Top z' ∧ z_Side z = z_Side z' ∧ z_OriginIndex z = z_OriginIndex z' ∧ z_Source z = z_Source z'.
Lemma same_shape_refl z : same_shape z z.
Proof. done. Qed.
Lemma newZone_fields bottom top side origin source :
  z_Side (newZone bottom top side origin source) = side ∧ z_OriginIndex (newZone bottom top side origin source) = origin ∧
  z_Source (newZone bottom top side origin source) = source ∧
  z_Sources (newZone bottom top side origin source) = (if bool_decide (source = "") then [] else [source]).
Proof. unfold newZone. by destruct (_ >? _)%float. Qed.

(** A zone of one named source. *)
Definition sourced (source : string) (z : Zone) : Prop := z_Source z = source ∧ z_Sources z = [source].
Lemma supply_demand_sourced bars leg z : supply_demand_of bars leg = Some z → sourced "supply_demand" z.
Proof.
  unfold supply_demand_of. destruct (_ =? _)%nat; [done|]. destruct (band_of _) as [lo hi]. intros [= <-].
  split; cbn [z_Source z_Sources set_break]; apply newZone_fields.
Qed.
Lemma order_block_sourced bars breaks width leg z : order_block_of bars breaks width leg = Some z → sourced "order_block" z.
Proof.
  unfold order_block_of. destruct (causingBOS _ _); [|done]. destruct (lastOppositeCandle _ _); [|done]. destruct (zoneBand _ _).
  intros [= <-]. split; cbn [z_Source z_Sources set_break]; apply newZone_fields.
Qed.
Lemma gap_sourced bars i z : z ∈ gap_at bars i → sourced "bullish_fvg" z ∨ sourced "bearish_fvg" z.
Proof. unfold gap_at. intros [[_ ->]%elem_of_when|[_ ->]%elem_of_when]%elem_of_app; [left|right]; split; apply newZone_fields. Qed.
Lemma breakers_shape P blocks bars z :
  (∀ b, b ∈ blocks → sourced P b) → z ∈ BreakerBlocks blocks bars →
  (sourced P z ∧ ∃ b, b ∈ blocks ∧ same_shape z b) ∨ sourced "breaker" z.
Proof.
  intros Hb Hz. unfold BreakerBlocks in Hz. apply list_elem_of_In, in_flat_map in Hz as (b & Hin & Hz).
  apply list_elem_of_In in Hin, Hz. specialize (Hb b Hin). unfold breaker_of in Hz. destruct (breakerViolation b bars) as [v|].
  - apply elem_of_cons in Hz as [->|Hz]; [left; split; [exact Hb|]; by exists b|]. apply list_elem_of_singleton in Hz as ->. right.
    split; cbn [z_Source z_Sources set_break]; apply newZone_fields.
  - apply list_elem_of_singleton in Hz as ->. left. split; [exact Hb|]. by exists b.
Qed.

(** The zones of the chain by their source. *)
Lemma chain_sd bars c z : z ∈ chain_zones bars c → z_Source z = "supply_demand" → ∃ leg z', leg ∈ chain_legs bars c ∧
  supply_demand_of bars leg = Some z' ∧ same_shape z z'.
Proof.
  unfold chain_zones. intros [Hz|[Hz|Hz]%elem_of_app]%elem_of_app Hs.
  - apply (breakers_shape "supply_demand") in Hz as [[_ (b & Hb & Hsh)]|[Hb _]]; [|congruence|].
    + unfold SupplyDemand in Hb. apply list_elem_of_omap in Hb as (leg & Hl & Hb). by exists leg, b.
    + intros b (leg & _ & H)%list_elem_of_omap. by eapply supply_demand_sourced.
  - apply (breakers_shape "order_block") in Hz as [[[Hb _] _]|[Hb _]]; [congruence|congruence|].
    intros b (leg & _ & H)%list_elem_of_omap. by eapply order_block_sourced.
  - unfold FVG in Hz. apply list_elem_of_In, in_flat_map in Hz as (i & _ & Hz). apply list_elem_of_In, gap_sourced in Hz as [[E _]|[E _]]; congruence.
Qed.
Lemma chain_ob bars c z : z ∈ chain_zones bars c → z_Source z = "order_block" → ∃ leg z', leg ∈ chain_legs bars c ∧
  order_block_of bars (chain_breaks bars c) (ZoneWidth c) leg = Some z' ∧ same_shape z z'.
Proof.
  unfold chain_zones. intros [Hz|[Hz|Hz]%elem_of_app]%elem_of_app Hs.
  - apply (breakers_shape "supply_demand") in Hz as [[[Hb _] _]|[Hb _]]; [congruence|congruence|].
    intros b (leg & _ & H)%list_elem_of_omap. by eapply supply_demand_sourced.
  - apply (breakers_shape "order_block") in Hz as [[_ (b & Hb & Hsh)]|[Hb _]]; [|congruence|].
    + unfold OrderBlocks in Hb. apply list_elem_of_omap in Hb as (leg & Hl & Hb). by exists leg, b.
    + intros b (leg & _ & H)%list_elem_of_omap. by eapply order_block_sourced.
  - unfold FVG in Hz. apply list_elem_of_In, in_flat_map in Hz as (i & _ & Hz). apply list_elem_of_In, gap_sourced in Hz as [[E _]|[E _]]; congruence.
Qed.
Lemma chain_gap bars c z : z ∈ chain_zones bars c → z_Source z = "bullish_fvg" ∨ z_Source z = "bearish_fvg" → z ∈ FVG bars.
Proof.
  unfold chain_zones. intros [Hz|[Hz|Hz]%elem_of_app]%elem_of_app Hs; [exfalso|exfalso|done].
  - apply (breakers_shape "supply_demand") in Hz as [[[Hb _] _]|[Hb _]]; [destruct Hs; congruence|destruct Hs; congruence|].
    intros b (leg & _ & H)%list_elem_of_omap. by eapply supply_demand_sourced.
  - apply (breakers_shape "order_block") in Hz as [[[Hb _] _]|[Hb _]]; [destruct Hs; congruence|destruct Hs; congruence|].
    intros b (leg & _ & H)%list_elem_of_omap. by eapply order_block_sourced.
Qed.
Lemma chain_sourced bars c z : z ∈ chain_zones bars c → ∃ s, sourced s z ∧ s ∈ ["supply_demand"; "order_block"; "breaker"; "bullish_fvg"; "bearish_fvg"].
Proof.
  unfold chain_zones. intros [Hz|[Hz|Hz]%elem_of_app]%elem_of_app.
  - apply (breakers_shape "supply_demand") in Hz as [[Hb _]|Hb]; [eexists; split; [exact Hb|set_solver]..|].
    intros b (leg & _ & H)%list_elem_of_omap. by eapply supply_demand_sourced.
  - apply (breakers_shape "order_block") in Hz as [[Hb _]|Hb]; [eexists; split; [exact Hb|set_solver]..|].
    intros b (leg & _ & H)%list_elem_of_omap. by eapply order_block_sourced.
  - unfold FVG in Hz. apply list_elem_of_In, in_flat_map in Hz as (i & _ & Hz).
    apply list_elem_of_In, gap_sourced in Hz as [Hb|Hb]; eexists; (split; [exact Hb|set_solver]).
Qed.

(** The marked population: a zone of the chain with its sources spelled out and its touches counted. *)
Lemma marked_shape bars c cutoff z :
  z ∈ MarkMitigation (AsSingleZones (chain_zones bars c)) bars cutoff →
  ∃ z0 s, z0 ∈ chain_zones bars c ∧ same_shape z z0 ∧ z_Source z0 = s ∧ z_Sources z = [s] ∧
    s ∈ ["supply_demand"; "order_block"; "breaker"; "bullish_fvg"; "bearish_fvg"].
Proof.
  unfold MarkMitigation, AsSingleZones. change map with (@fmap list _).
  intros (z1 & -> & (z0 & -> & Hz)%list_elem_of_fmap)%list_elem_of_fmap. destruct (chain_sourced _ _ _ Hz) as (s & [Hs Hss] & Hin).
  exists z0, s. split_and!; [done|done|done| |done]. cbn [z_Sources mitigate set_touches set_sources]. unfold mitigate. cbn.
  unfold sources_of. rewrite Hss. cbn. unfold add_source. cbn. rewrite orb_false_r, bool_decide_false; [done|].
  intros ->. revert Hin. set_solver.
Qed.
Lemma has_source_single z s source : z_Source z = s → z_Sources z = [s] → has_source z source = true → s = source.
Proof. unfold has_source. intros -> ->. cbn. rewrite orb_false_r, orb_diag. by intros ?%bool_decide_eq_true. Qed.

(** The structural band of an instance, before any entry clipping. *)
Definition structural (i : Instance_) : float * float :=
  if in_EntryClipped i then (in_StructuralLow i, in_StructuralHigh i) else (in_Low i, in_High i).
Lemma instance_fields z technique entryMax :
  let i := instanceFromZone z technique entryMax in
  in_Technique i = technique ∧ in_Side i = zoneSideToTradeSide (z_Side z) ∧ in_OriginIndex i = z_OriginIndex z ∧
  structural i = (z_Bottom z, z_Top z).
Proof.
  cbv zeta. unfold instanceFromZone. destruct (_ && _); [|done]. destruct (optimizeTechniqueEntry z entryMax) as [[lo hi]|]; done.
Qed.
Lemma leg_direction bars c leg : leg ∈ chain_legs bars c → legDirection (zoneSideToTradeSide (side_of (lg_Direction leg))) = lg_Direction leg.
Proof.
  intros H. unfold chain_legs in H. apply displacement_exact in H as (s & e & d & -> & ((Hd & Hle & Hr & _) & _) & _). cbn [leg_of lg_Direction].
  specialize (Hr e ltac:(lia)). unfold candleDirection in Hr. destruct (_ >? _)%float; [by subst|]. destruct (_ <? _)%float; [by subst|]. by subst.
Qed.
(** What provenance gives back of an instance. *)
Definition derived (bars : list Candle) (c : ChainSettings) (i : Instance_) : Prop :=
  let '(lo, hi) := structural i in let origin := in_OriginIndex i in let side := in_Side i in
  (in_Technique i = "supply_demand" ∧ ∃ leg z, LegOfSupplyDemand (chain_legs bars c) origin side = Some leg ∧
     supply_demand_of bars leg = Some z ∧ (lo, hi) = (z_Bottom z, z_Top z)) ∨
  (in_Technique i = "order_block" ∧ ∃ leg bos z, LegOfOrderBlock bars (chain_legs bars c) (chain_breaks bars c) origin side = Some (leg, bos) ∧
     order_block_of bars (chain_breaks bars c) (ZoneWidth c) leg = Some z ∧ z_BreakIndex z = Z.of_nat (bk_Index bos) ∧ (lo, hi) = (z_Bottom z, z_Top z)) ∨
  (in_Technique i = "fvg" ∧ GapOfFVG bars origin side lo hi = Some (mkGap (origin - 2) (origin - 1) origin)) ∨
  (in_Technique i = "ifvg" ∧ is_Some (ParentGapOfIFVG bars origin side lo hi)).

Lemma supply_demand_same bars leg leg' z :
  supply_demand_of bars leg = Some z → lg_Start leg' = lg_Start leg → lg_Direction leg' = lg_Direction leg →
  ∃ z', supply_demand_of bars leg' = Some z' ∧ z_Bottom z' = z_Bottom z ∧ z_Top z' = z_Top z.
Proof.
  unfold supply_demand_of. intros H -> ->. destruct (_ =? _)%nat; [done|]. destruct (band_of _) as [lo hi]. injection H as <-.
  eexists. split; [done|]. done.
Qed.
Lemma leg_of_sd_found legs leg bars z :
  leg ∈ legs → legDirection (zoneSideToTradeSide (side_of (lg_Direction leg))) = lg_Direction leg → supply_demand_of bars leg = Some z →
  ∃ leg' z', LegOfSupplyDemand legs (z_OriginIndex z) (zoneSideToTradeSide (z_Side z)) = Some leg' ∧ supply_demand_of bars leg' = Some z' ∧
    z_Bottom z' = z_Bottom z ∧ z_Top z' = z_Top z.
Proof.
  intros Hl Hd Hz. assert (Hf : z_Side z = side_of (lg_Direction leg) ∧ z_OriginIndex z = (Z.of_nat (lg_Start leg) - 1)%Z ∧ lg_Start leg ≠ 0%nat).
  { revert Hz. unfold supply_demand_of. destruct (Nat.eqb_spec (lg_Start leg) 0); [done|]. destruct (band_of _) as [lo hi]. intros [= <-].
    cbn [set_break z_Side z_OriginIndex]. split_and!; [apply newZone_fields..|done]. }
  destruct Hf as (Hs & Ho & Hn). rewrite Hs, Ho. unfold LegOfSupplyDemand. rewrite Hd.
  destruct (List.find _ legs) as [leg'|] eqn:F.
  - pose proof F as F'. apply List.find_some in F' as [_ F']. apply andb_true_iff in F' as [D%bool_decide_eq_true O%Z.eqb_eq].
    destruct (supply_demand_same bars leg leg' z Hz) as (z' & Hz' & E); [lia|done|]. by exists leg', z'.
  - rewrite find_miss in F. specialize (F leg Hl). by rewrite bool_decide_true, Z.eqb_refl in F.
Qed.
Lemma leg_of_ob_found legs leg bars breaks width z :
  leg ∈ legs → legDirection (zoneSideToTradeSide (side_of (lg_Direction leg))) = lg_Direction leg → order_block_of bars breaks width leg = Some z →
  ∃ leg' bos z', LegOfOrderBlock bars legs breaks (z_OriginIndex z) (zoneSideToTradeSide (z_Side z)) = Some (leg', bos) ∧
    order_block_of bars breaks width leg' = Some z' ∧ z_BreakIndex z' = Z.of_nat (bk_Index bos) ∧ z_Bottom z' = z_Bottom z ∧ z_Top z' = z_Top z.
Proof.
  intros Hl Hd Hz. revert Hz. unfold order_block_of at 1. destruct (causingBOS leg breaks) as [bos|] eqn:B; [|done].
  destruct (lastOppositeCandle bars leg) as [origin|] eqn:O; [|done]. destruct (zoneBand (bars !!! origin) width) as [bottom top] eqn:W.
  intros [= <-]. cbn [set_break z_Side z_OriginIndex]. destruct (newZone_fields bottom top (side_of (lg_Direction leg)) (Z.of_nat origin) "order_block") as (Es & Eo & _).
  rewrite Es, Eo. induction legs as [|l legs IH]; [by apply not_elem_of_nil in Hl|]. cbn [LegOfOrderBlock]. rewrite Hd in *. case_bool_decide as D; cbn [negb].
  - destruct (causingBOS l breaks) as [bos'|] eqn:B'.
    + destruct (Z.eqb_spec (origin_index bars l) (Z.of_nat origin)) as [E|E].
      * exists l, bos'. unfold order_block_of. rewrite B'. unfold origin_index in E. destruct (lastOppositeCandle bars l) as [o'|]; cbn in E; [|lia].
        apply Nat2Z.inj in E as ->. rewrite W. eexists. split_and!; [done|done|done|by rewrite D..].
      * apply elem_of_cons in Hl as [<-|Hl]; [unfold origin_index in E; rewrite O in E; done|]. by apply IH.
    + apply elem_of_cons in Hl as [<-|Hl]; [congruence|]. by apply IH.
  - apply elem_of_cons in Hl as [<-|Hl]; [done|]. by apply IH.
Qed.

Lemma same_band_refl lo hi : finite lo = true → finite hi = true → sameBand lo hi lo hi = true.
Proof.
  assert (H : ∀ x, finite x = true → (abs (x - x) <? 1e-6)%float = true).
  { intros x Hx. pose proof (sub_not_nan x x Hx Hx) as N. rewrite ltb_num; [|by rewrite IsNaN_abs|done]. rewrite key_abs.
    pose proof (sub_pos_iff x x Hx Hx). pose proof (sub_neg_iff x x Hx Hx). assert (key (x - x) = 0)%Z as -> by lia. done. }
  intros Hl Hh. unfold sameBand. by rewrite !H.
Qed.
Lemma finite_at bars i : finite_bars bars → (i < length bars)%nat → finite (c_High (bars !!! i)) = true ∧ finite (c_Low (bars !!! i)) = true.
Proof.
  intros Hb Hi. unfold finite_bars in Hb. rewrite Forall_lookup in Hb. destruct (lookup_lt_is_Some_2 bars i Hi) as [b E].
  rewrite (list_lookup_total_correct _ _ _ E). by eapply Hb.
Qed.
Lemma gap_found bars i z :
  finite_bars bars → (2 <= i < length bars)%nat → z ∈ gap_at bars i →
  z_OriginIndex z = Z.of_nat i ∧ (z_Side z = "demand" ∨ z_Side z = "supply") ∧
  GapOfFVG bars (Z.of_nat i) (zoneSideToTradeSide (z_Side z)) (z_Bottom z) (z_Top z) =
    Some (mkGap (Z.of_nat i - 2) (Z.of_nat i - 1) (Z.of_nat i)).
Proof.
  intros Hb Hi. destruct (finite_at bars i Hb) as [Fh Fl]; [lia|]. destruct (finite_at bars (i - 2) Hb) as [Gh Gl]; [lia|].
  unfold GapOfFVG. destruct (Z.ltb_spec (Z.of_nat i) 2); [lia|]. destruct (Z.geb_spec (Z.of_nat i) (Z.of_nat (length bars))); [lia|].
  rewrite Nat2Z.id. cbn [orb]. unfold gap_at. intros [[G ->]%elem_of_when|[G ->]%elem_of_when]%elem_of_app.
  - assert (Hk : (key (c_High (bars !!! (i - 2)%nat)) <= key (c_Low (bars !!! i)))%Z) by float_lia.
    destruct (newZone_ordered (c_High (bars !!! (i - 2)%nat)) (c_Low (bars !!! i)) "demand" (Z.of_nat i) "bullish_fvg" Gh Fl Hk) as [-> ->].
    destruct (newZone_fields (c_High (bars !!! (i - 2)%nat)) (c_Low (bars !!! i)) "demand" (Z.of_nat i) "bullish_fvg") as (-> & -> & _).
    split_and!; [done|by left|]. cbn [zoneSideToTradeSide]. rewrite G, same_band_refl by done. done.
  - assert (Hk : (key (c_High (bars !!! i)) <= key (c_Low (bars !!! (i - 2)%nat)))%Z) by float_lia.
    destruct (newZone_ordered (c_High (bars !!! i)) (c_Low (bars !!! (i - 2)%nat)) "supply" (Z.of_nat i) "bearish_fvg" Fh Gl Hk) as [-> ->].
    destruct (newZone_fields (c_High (bars !!! i)) (c_Low (bars !!! (i - 2)%nat)) "supply" (Z.of_nat i) "bearish_fvg") as (-> & -> & _).
    split_and!; [done|by right|]. cbn [zoneSideToTradeSide]. rewrite G, same_band_refl by done. done.
Qed.
(** An inverted gap has its parent. *)
Lemma inverts_alt z b :
  z_Side z = "demand" ∨ z_Side z = "supply" →
  inverts z b = if (bool_decide (zoneSideToTradeSide (z_Side z) = "buy") && (c_Close b <? Low z)%float) ||
    (bool_decide (zoneSideToTradeSide (z_Side z) = "sell") && (c_Close b >? High z)%float)
  then Some (if bool_decide (z_Side z = "demand") then "sell" else "buy") else None.
Proof. unfold inverts, zoneSideToTradeSide. intros [-> | ->]; repeat (case_bool_decide; try done); cbn; try done; by destruct (_ <? _)%float. Qed.
Lemma inversion_first z bars side v low high :
  (0 <= z_OriginIndex z)%Z → (z_Side z = "demand" ∨ z_Side z = "supply") → low = Low z → high = High z →
  inversion z bars = Some (side, v) →
  side = (if bool_decide (z_Side z = "demand") then "sell" else "buy") ∧ (z_OriginIndex z < Z.of_nat v)%Z ∧ (v < length bars)%nat ∧
  first_inverting bars (zoneSideToTradeSide (z_Side z)) low high (Z.to_nat (z_OriginIndex z)) = Some v.
Proof.
  intros Ho Hs -> -> Hi. unfold inversion in Hi. apply first_some_Some in Hi as (k & Hk & Hv & Hn).
  rewrite inverts_alt in Hv by done. destruct (_ || _) eqn:E in Hv; [|done]. cbn in Hv. injection Hv as <- <-.
  split_and!; [done|lia|lia|]. unfold first_inverting. apply first_some_Some. exists k. split_and!; [lia..| |].
  - by rewrite E.
  - intros j Hj. specialize (Hn j ltac:(lia)). rewrite inverts_alt in Hn by done. destruct (_ || _) in Hn |- *; done.
Qed.
Lemma parent_gap_found bars i z side v :
  finite_bars bars → (2 <= i < length bars)%nat → z ∈ gap_at bars i → inversion z bars = Some (side, v) →
  is_Some (ParentGapOfIFVG bars (Z.of_nat v) side (z_Bottom z) (z_Top z)).
Proof.
  intros Hb Hi Hz Hv. destruct (gap_found bars i z Hb Hi Hz) as (Ho & Hs & Hg).
  destruct (inversion_first z bars side v (z_Bottom z) (z_Top z)) as (-> & Hlt & Hvl & Hf); [lia|done..|].
  rewrite Ho in *. rewrite Nat2Z.id in Hf.
  assert (Hside : (if bool_decide ((if bool_decide (z_Side z = "demand") then "sell" else "buy") = "buy") then "sell" else "buy") =
    zoneSideToTradeSide (z_Side z)) by (by destruct Hs as [-> | ->]).
  unfold ParentGapOfIFVG. destruct (Z.leb_spec (Z.of_nat v) 2); [lia|]. destruct (Z.geb_spec (Z.of_nat v) (Z.of_nat (length bars))); [lia|].
  cbn [orb]. rewrite Hside, Nat2Z.id. apply not_eq_None_Some. intros Hn. rewrite first_some_None in Hn. specialize (Hn i ltac:(lia)).
  cbn beta in Hn. rewrite Hg, Hf, bool_decide_true in Hn; done.
Qed.

(** * Theorems *)

(** A technique structure lives by the same rule as a zone of the analysis: it is still valid exactly when every close beyond
    its tolerance is reclaimed in time and the reclaimed episodes stay within the budget. *)
Theorem technique_life_is_zone_life side low high bars originIndex atr s :
  notInvalidated side low high bars originIndex atr s = true ↔
  bars = [] ∨ (originIndex < 0)%Z ∨
  Zone.survives bars (band_zone side low high) (tolerance s atr) (forgiveness s) (Z.to_nat (originIndex + 1)) 0.
Proof.
  unfold notInvalidated. destruct (Nat.eqb_spec (length bars) 0) as [E|E].
  { apply nil_length_inv in E as ->. split; [by left|done]. }
  destruct (Z.ltb_spec originIndex 0); cbn [orb]; [split; [intros _; right; by left|done]|].
  rewrite break_episodes_loop, Zone.episode_loop_survives, Z.max_r by lia. split; [by right; right|].
  intros [->|[?|?]]; [done|lia|done].
Qed.

(** The candle-range instances are, per side, that of the latest of the recent hourly candles that is tall enough and was swept,
    reclaimed, left in the right half and reacted to; there is none where no candle qualifies. *)
Theorem crt_latest_per_side h1Bars execBars h1ATR s :
  let out := DiscoverCRT h1Bars execBars h1ATR s in
  if (length h1Bars =? 0)%nat || (length execBars =? 0)%nat || (h1ATR <=? 0)%float then out = []
  else
    let recent r := (length h1Bars - Z.to_nat (Z.max 1 (H1LookbackBars s)) <= r < length h1Bars)%nat in
    ∀ i, i ∈ out ↔ ∃ side r, side ∈ crt_sides ∧ recent r ∧ crt_ok h1Bars execBars h1ATR s r side = true ∧
      i = crt_instance s side r (h1Bars !!! r) ∧ ∀ r', recent r' → (r < r')%nat → crt_ok h1Bars execBars h1ATR s r' side = false.
Proof.
  cbv zeta. unfold DiscoverCRT. destruct (_ || _) eqn:G; [done|]. set (start := (length h1Bars - _)%nat).
  set (rows := reverse (seq start (length h1Bars - start))).
  assert (Hrows : ∀ r, r ∈ rows ↔ (start <= r < length h1Bars)%nat).
  { intros r. unfold rows. rewrite elem_of_reverse, elem_of_seq. lia. }
  pose proof (crt_rows_inv h1Bars execBars h1ATR s rows (λ _ _, False) ([], [])) as H. destruct H as (_ & _ & H3).
  - split; [apply NoDup_nil_2|]. split; [intros side|intros i]; (split; [by intros ?%not_elem_of_nil|]); naive_solver.
  - apply Reaction.reverse_sorted, Reaction.seq_sorted.
  - done.
  - intros i. rewrite H3. split; intros (side & r & Hs & Hr & Ho & -> & Hm); exists side, r.
    + destruct Hr as [[]|[Hr _]]. apply Hrows in Hr. split; [done|]. split; [exact Hr|]. split_and!; [done|done|]. intros r' Hr' Hl. apply Hm; [|done]. right. split; [by apply Hrows|done].
    + split; [done|]. split; [right; split; [by apply Hrows|done]|]. split_and!; [done|done|]. intros r' [[]|[Hr' _]] Hl. by apply Hm; [apply Hrows|].
Qed.

(** [C37] Every instance the chain publishes can be traced back: the displacement leg of a supply or demand zone, the leg and the
    break of an order block and the three candles of a gap are recovered, and cutting the zone from the recovered leg again
    gives the instance's structural band; an inverted gap has its parent gap. *)
Theorem provenance_total bars c s i :
  finite_bars bars → i ∈ TechniqueInstances bars c s → derived bars c i.
Proof.
  intros Hb. unfold TechniqueInstances. destruct (_ =? _)%nat; [by intros ?%not_elem_of_nil|].
  set (marked := MarkMitigation _ _ _). unfold SourceViews, CollectInstances. rewrite in_filter. intros [Hp _]. revert Hp. unfold pending.
  rewrite !elem_of_app. change map with (@fmap list _).
  assert (Hm : ∀ z, z ∈ marked → ∃ z0 src, z0 ∈ chain_zones bars c ∧ same_shape z z0 ∧ z_Source z0 = src ∧ z_Sources z = [src] ∧
    src ∈ ["supply_demand"; "order_block"; "breaker"; "bullish_fvg"; "bearish_fvg"]) by (intros z; apply marked_shape).
  assert (Hgap : ∀ z, z ∈ List.filter is_gap marked → ∃ j, (2 <= j < length bars)%nat ∧ ∃ z0, z0 ∈ gap_at bars j ∧ same_shape z z0).
  { intros z [Hz Hg]%in_filter. destruct (Hm z Hz) as (z0 & src & Hz0 & Hsh & Hsrc & Hss & Hin).
    assert (Hf : z0 ∈ FVG bars).
    { apply (chain_gap bars c); [done|]. rewrite Hsrc. unfold is_gap in Hg. rewrite Hss in Hg. cbn [existsb] in Hg. rewrite orb_false_r in Hg.
      repeat (apply elem_of_cons in Hin as [->|Hin]; [first [by left|by right|by vm_compute in Hg]|]). by apply not_elem_of_nil in Hin. }
    unfold FVG in Hf. apply list_elem_of_In, in_flat_map in Hf as (j & Hj%in_seq & Hf). exists j. split; [lia|]. exists z0.
    split; [by apply list_elem_of_In|done]. }
  intros [Hi|[Hi|[Hi|Hi]]].
  - apply list_elem_of_fmap in Hi as (z & -> & [Hz _]%in_filter). apply in_filter in Hz as [Hz Hsd].
    destruct (Hm z Hz) as (z0 & src & Hz0 & Hsh & Hsrc & Hss & _). destruct Hsh as (E1 & E2 & E3 & E4 & E5).
    apply (has_source_single z src) in Hsd as ->; [|congruence|done].
    destruct (chain_sd bars c z0 Hz0 Hsrc) as (leg & z' & Hl & Hz' & F1 & F2 & F3 & F4 & F5).
    destruct (leg_of_sd_found _ leg bars z' Hl (leg_direction _ _ _ Hl) Hz') as (leg' & z'' & G1 & G2 & G3 & G4).
    destruct (instance_fields z "supply_demand" (FVGEntryMaxWidthPrice s)) as (It & Is & Io & Ib).
    unfold derived. rewrite Ib, It, Is, Io. left. split; [done|]. exists leg', z''. rewrite E3, E4, F3, F4. split_and!; [done|done|congruence].
  - apply list_elem_of_fmap in Hi as (z & -> & [Hz _]%in_filter). apply in_filter in Hz as [Hz Hsd].
    destruct (Hm z Hz) as (z0 & src & Hz0 & Hsh & Hsrc & Hss & _). destruct Hsh as (E1 & E2 & E3 & E4 & E5).
    apply (has_source_single z src) in Hsd as ->; [|congruence|done].
    destruct (chain_ob bars c z0 Hz0 Hsrc) as (leg & z' & Hl & Hz' & F1 & F2 & F3 & F4 & F5).
    destruct (leg_of_ob_found _ leg bars _ _ z' Hl (leg_direction _ _ _ Hl) Hz') as (leg' & bos & z'' & G1 & G2 & G3 & G4 & G5).
    destruct (instance_fields z "order_block" (FVGEntryMaxWidthPrice s)) as (It & Is & Io & Ib).
    unfold derived. change (structural (set_body ?i ?b ?h)) with (structural i). cbn [in_Technique in_OriginIndex in_Side set_body].
    rewrite Ib, It, Is, Io. right. left. split; [done|]. exists leg', bos, z''. rewrite E3, E4, F3, F4. split_and!; [done|done|done|congruence].
  - apply list_elem_of_fmap in Hi as (z & -> & [Hz _]%in_filter). destruct (Hgap z Hz) as (j & Hj & z0 & Hz0 & E1 & E2 & E3 & E4 & _).
    destruct (gap_found bars j z0 Hb Hj Hz0) as (Ho & _ & Hg).
    destruct (instance_fields z "fvg" (FVGEntryMaxWidthPrice s)) as (It & Is & Io & Ib).
    unfold derived. rewrite Ib, It, Is, Io. right. right. left. split; [done|]. by rewrite E1, E2, E3, E4, Ho.
  - unfold discoverIFVG in Hi. apply list_elem_of_omap in Hi as (z & Hz & Hi). destruct (Hgap z Hz) as (j & Hj & z0 & Hz0 & E1 & E2 & E3 & E4 & _).
    unfold ifvg_of in Hi. destruct (_ <? _)%Z; [done|]. destruct (inversion z bars) as [[side v]|] eqn:Hv; [|done].
    destruct (existsb _ _); [done|]. injection Hi as <-.
    assert (Hv' : inversion z0 bars = Some (side, v)).
    { rewrite <- Hv. unfold inversion, inverts, Low, High. by rewrite E1, E2, E3, E4. }
    pose proof (parent_gap_found bars j z0 side v Hb Hj Hz0 Hv') as Hpg. rewrite <- E1, <- E2 in Hpg.
    unfold derived. destruct (_ && _); [destruct (bool_decide _)|]; right; right; right; (split; [done|exact Hpg]).
Qed.

Definition demo_bar (t : Z) (open high low close : float) : Candle := mkCandle t open high low close 1.
Definition demo_rally : list Candle :=
  [demo_bar 0 9.5 10 9 9.25; demo_bar 1 9.5 12 9.5 11.75; demo_bar 2 11.75 13 11 12.5; demo_bar 3 12.5 14 12 13.5; demo_bar 4 13.5 14 13 13.25].
Definition demo_technique : TechniqueSettings := mkTechniqueSettings 0.125 0.0625 3 2 1 5 0.625 30 0.5 6 2 true.
Definition demo_instance : Instance_ :=
  default (instanceFromZone (newZone 0 0 "" 0 "") "" 0) (TechniqueInstances demo_rally ProductionChainSettings demo_technique !! 0%nat).
Lemma provenance_total_witness :
  in_Technique demo_instance = "supply_demand" ∧ (in_Low demo_instance, in_High demo_instance) = (9, 10)%float ∧
  derived demo_rally ProductionChainSettings demo_instance.
Proof.
  split; [vm_compute; reflexivity|]. split; [vm_compute; reflexivity|].
  apply (provenance_total demo_rally ProductionChainSettings demo_technique demo_instance).
  - unfold finite_bars, demo_rally. repeat (apply Forall_cons; split; [split; reflexivity|]). apply Forall_nil. exact I.
  - apply (list_elem_of_lookup_2 _ 0). vm_compute. reflexivity.
Defined.

(** The reading as of the present forgets the touch of a structure the last bar closed through: the marks of the breaker step are
    zeroed and the recount leaves out the last bar. *)
Definition demo_break : list Candle := demo_rally ++ [demo_bar 5 13.25 13.5 8.5 8.75].
Definition demo_scored : list Zone := MarkMitigation (AsSingleZones (chain_zones demo_break ProductionChainSettings)) demo_break 5.
Example as_of_present_forgets_break :
  let atr := ATRSeries demo_break 14 in
  map (λ i, (in_Technique i, in_Touches i, in_Mitigated i)) (InstancesFromScoredZones demo_scored demo_break (ATRScalar atr 1) demo_technique) =
    [("supply_demand", 1%Z, true); ("supply_demand", 0%Z, false); ("ifvg", 0%Z, false)] ∧
  map (λ i, (in_Technique i, in_Touches i, in_Mitigated i)) (InstancesFromScoredZonesAsOf demo_scored demo_break atr 6 demo_technique) =
    [("supply_demand", 0%Z, false); ("supply_demand", 0%Z, false); ("ifvg", 0%Z, false)].
Proof. split; vm_compute; reflexivity. Qed.
