(* ===== verification/TechniqueScore.v ===== *)
(** Package techniquezone, the pools of equal swings and the grabs of their liquidity (liquidity.go), and the multi-factor score of
    a zone (zonescore.go). *)
From S2P Require Import Prelude Float64 Market TechniqueBars TechniqueZones TechniqueInstances.
From Stdlib Require Import Floats.

(** * liquidity.go *)

Record Pool := mkPool { p_Side : string; p_Level : float; p_Band : float; p_Touches : nat; p_LastIndex : nat }.
Record Grab := mkGrab {
  g_Index : nat; g_Direction : string; g_Grade : string; g_Pool : Pool; g_ReactionDisplacement : bool; g_Inducement : bool
}.
Definition clusterPools (swings : list Swing) (side : string) (band maxClusterSpanMultiple : float) : list Pool :=
  omap (λ cluster : list Swing,
    if (length cluster <? 2)%nat then None
    else Some (mkPool side (pySum (map s_Price cluster) / f64_of_Z (Z.of_nat (length cluster))) band (length cluster)
           (foldl (λ l s, if (l <? s_Index s)%nat then s_Index s else l) 0%nat cluster)))
    (priceClusters swings band maxClusterSpanMultiple).
Definition appendLoneExtreme (pools : list Pool) (pool : Pool) : list Pool :=
  if existsb (λ e, abs (p_Level e - p_Level pool) <=? math_Max (p_Band e) (p_Band pool))%float pools then pools else pools ++ [pool].
Definition extreme_of (better : float → float → bool) (swings : list Swing) : option Swing :=
  match swings with
  | [] => None
  | s :: rest => Some (foldl (λ e s, if better (s_Price s) (s_Price e) then s else e) s rest)
  end.
Definition append_extreme (side : string) (better : float → float → bool) (band : float) (swings : list Swing) (pools : list Pool) : list Pool :=
  match extreme_of better swings with
  | None => pools
  | Some e => appendLoneExtreme pools (mkPool side (s_Price e) band 1 (s_Index e))
  end.
Definition pool_less (a b : Pool) : bool :=
  if (p_Level a <>? p_Level b)%float then (p_Level a <? p_Level b)%float else str_lt (p_Side a) (p_Side b).
Definition LiquidityPools (swings : list Swing) (bars : list Candle) (equalTolATR : float) (atr : option (list float))
    (maxClusterSpanMultiple : float) : list Pool :=
  match swings with
  | [] => []
  | _ =>
      let band := (ATRScalar (atr_or bars atr) 1 * math_Max 0 equalTolATR)%float in
      let highs := of_kind "high" swings in let lows := of_kind "low" swings in
      let pools := clusterPools highs "buy" band maxClusterSpanMultiple ++ clusterPools lows "sell" band maxClusterSpanMultiple in
      sort_slice pool_less (append_extreme "sell" PrimFloat.ltb band lows (append_extreme "buy" (λ a b, a >? b)%float band highs pools))
  end.

Definition hasReactionDisplacement (index : nat) (direction : string) (legs : list Leg) (sweepReactBars : Z) : bool :=
  let wanted := if bool_decide (direction = "bull") then "up" else "down" in
  let window := Z.max 0 sweepReactBars in
  existsb (λ leg, bool_decide (lg_Direction leg = wanted) &&
    (0 <=? Z.of_nat (lg_Start leg) - Z.of_nat index)%Z && (Z.of_nat (lg_Start leg) - Z.of_nat index <=? window)%Z) legs.
Definition grabGrade (bars : list Candle) (index : nat) (level : float) (direction : string) (legs : list Leg) (sweepBodyFrac : float)
    (sweepReactBars : Z) : string :=
  let row := bars !!! index in
  let tolerance := (math_Max (c_High row - c_Low row) 0 * 0.1)%float in
  let '(clean, marginal) :=
    if bool_decide (direction = "bear") then (c_Close row <? level, c_Close row <=? level + tolerance)%float
    else (c_Close row >? level, c_Close row >=? level - tolerance)%float in
  if (clean : bool) then
    if (bodyFraction row >=? sweepBodyFrac)%float && hasReactionDisplacement index direction legs sweepReactBars then "A" else "B"
  else if (marginal : bool) then "C" else "".
Definition zone_width (z : Zone) : float := math_Max (High z - Low z) 0.
(** The pool lies in the zone or within [tolerance] beyond its far side. *)
Definition pool_at_zone (tolerance : float) (z : Zone) (pool : Pool) : bool :=
  (bool_decide (z_Side z = "demand") && bool_decide (p_Side pool = "sell") && (Low z - tolerance <=? p_Level pool)%float && (p_Level pool <=? High z)%float) ||
  (bool_decide (z_Side z = "supply") && bool_decide (p_Side pool = "buy") && (Low z <=? p_Level pool)%float && (p_Level pool <=? High z + tolerance)%float).
Definition isInducement (pool : Pool) (zones : list Zone) (atr : list float) (inducementBandATR pipSize : float) : bool :=
  if negb (p_Touches pool =? 2)%nat then false
  else if (p_Band pool >? ATRScalar atr 1 * math_Max 0 inducementBandATR)%float then false
  else existsb (λ z, pool_at_zone (math_Max (zone_width z) pipSize) z pool) zones.
(** The direction a bar grabs a pool in, [None] when it does not trade through it. *)
Definition grab_direction (bar : Candle) (pool : Pool) : option string :=
  let tolerance := math_Max (p_Band pool) 0 in
  if bool_decide (p_Side pool = "buy") && (c_High bar >? p_Level pool + tolerance)%float then Some "bear"
  else if bool_decide (p_Side pool = "sell") && (c_Low bar <? p_Level pool - tolerance)%float then Some "bull" else None.
Definition grab_of (bars : list Candle) (legs : list Leg) (zones : list Zone) (atr : list float) (sweepBodyFrac : float) (sweepReactBars : Z)
    (inducementBandATR pipSize : float) (i : nat) (bar : Candle) (pool : Pool) : option Grab :=
  match grab_direction bar pool with
  | None => None
  | Some direction =>
      let grade := grabGrade bars i (p_Level pool) direction legs sweepBodyFrac sweepReactBars in
      if bool_decide (grade = "") then None
      else Some (mkGrab i direction grade pool (hasReactionDisplacement i direction legs sweepReactBars)
             (isInducement pool zones atr inducementBandATR pipSize))
  end.
Definition LiquidityGrabs (bars : list Candle) (pools : list Pool) (legs : list Leg) (zones : list Zone) (atr : option (list float))
    (sweepBodyFrac : float) (sweepReactBars : Z) (inducementBandATR pipSize : float) : list Grab :=
  flat_map (λ p, omap (grab_of bars legs zones (atr_or bars atr) sweepBodyFrac sweepReactBars inducementBandATR pipSize p.1 p.2) pools)
    (imap pair bars).

(** * zonescore.go *)

Definition freshScore : float := 3.
Definition singleTouchScore : float := 1.
Definition keyLevelScore : float := 2.
Definition roundNumberScore : float := 1.
Definition liquidityScore : float := 2.
Definition htfScore : float := 3.
Definition sessionLevelScr : float := 2.
Definition pdPositionScore : float := 2.
Definition grabAScore : float := 2.
Definition trendlineScore : float := 1.5.
Record SessionRef := mkSessionRef { sr_Name : string; sr_Price : float; sr_Swept : bool; sr_AvailableAt : Z }.
Record ScoreInputs := mkScoreInputs {
  si_Levels : list Level; si_Pools : list Pool; si_RoundStep : float; si_HTFZones : list Zone; si_Sessions : list SessionRef;
  si_HasEq : bool; si_Equilibrium : float; si_Grabs : list Grab; si_LineValues : list float; si_HasBarIndex : bool; si_PipSize : float
}.

Definition sourceReason (source : string) : string :=
  if bool_decide (source = "order_block") then "OB" else if bool_decide (source = "breaker") then "breaker"
  else if bool_decide (source = "flip_zone") then "flip" else if bool_decide (source = "supply_demand") then "S/D"
  else if has_suffix source "_fvg" then "FVG" else source.
Definition source_step (z : Zone) (acc : float * list string) (source : string) : float * list string :=
  let value := source_value z source in if (value <=? 0)%float then acc else ((acc.1 + value)%float, acc.2 ++ [sourceReason source]).
Definition sourceScoreOf (z : Zone) : float * list string :=
  let '(total, reasons) := foldl (source_step z) (0%float, []) (sources_of z) in (math_Min total sourceScoreCap, reasons).
Definition zoneOverlapsLevel (z : Zone) (level : Level) : bool :=
  let band := math_Max (l_Band level) 0 in
  if (band =? 0)%float then (Low z <=? l_Price level)%float && (l_Price level <=? High z)%float
  else (Low z <=? l_Price level + band)%float && (High z >=? l_Price level - band)%float.
Definition roundNumberInside (z : Zone) (step : float) : option float :=
  if (step <=? 0)%float then None
  else let first := (math_Ceil (Low z / step) * step)%float in if (first <=? High z)%float then Some first else None.
Definition hasLiquidityConfluence (z : Zone) (pools : list Pool) (pipSize : float) : bool :=
  existsb (λ pool,
    let tolerance := math_Max (p_Band pool) (math_Max (zone_width z) pipSize) in
    (bool_decide (z_Side z = "demand") && bool_decide (p_Side pool = "sell") && (Low z - tolerance <=? p_Level pool)%float && (p_Level pool <=? Low z)%float) ||
    (bool_decide (z_Side z = "supply") && bool_decide (p_Side pool = "buy") && (High z <=? p_Level pool)%float && (p_Level pool <=? High z + tolerance)%float)) pools.
Definition isLowSessionLevel (name : string) : bool := has_suffix name "_L" || bool_decide (name = "PDL") || bool_decide (name = "PWL").
Definition isHighSessionLevel (name : string) : bool := has_suffix name "_H" || bool_decide (name = "PDH") || bool_decide (name = "PWH").
(** Whether a session level lies in the zone or within [tolerance] beyond its far side. *)
Definition low_level_at (z : Zone) (tolerance price : float) : bool :=
  ((Low z <=? price)%float && (price <=? High z)%float) || ((Low z - tolerance <=? price)%float && (price <=? Low z)%float).
Definition high_level_at (z : Zone) (tolerance price : float) : bool :=
  ((Low z <=? price)%float && (price <=? High z)%float) || ((High z <=? price)%float && (price <=? High z + tolerance)%float).
Definition session_step (z : Zone) (tolerance : float) (result : list string) (level : SessionRef) : list string :=
  let name := sr_Name level in
  if sr_Swept level then result
  else if existsb (λ n, bool_decide (n = name)) result then result
  else
    let result := if bool_decide (z_Side z = "demand") && isLowSessionLevel name && low_level_at z tolerance (sr_Price level) then result ++ [name] else result in
    if bool_decide (z_Side z = "supply") && isHighSessionLevel name && high_level_at z tolerance (sr_Price level) then result ++ [name] else result.
Definition sessionLevelConfluences (z : Zone) (sessions : list SessionRef) (pipSize : float) : list string :=
  foldl (session_step z (math_Max (zone_width z) pipSize)) [] sessions.
Definition PoolPointsIntoZone (z : Zone) (pool : Pool) (pipSize : float) : bool :=
  pool_at_zone (math_Max (p_Band pool) (math_Max (zone_width z) pipSize)) z pool.
Definition hasGradeAGrab (z : Zone) (grabs : list Grab) (pipSize : float) : bool :=
  existsb (λ g,
    bool_decide (g_Grade g = "A") && negb (g_Inducement g) &&
    ((bool_decide (z_Side z = "demand") && bool_decide (g_Direction g = "bull")) || (bool_decide (z_Side z = "supply") && bool_decide (g_Direction g = "bear"))) &&
    PoolPointsIntoZone z (g_Pool g) pipSize) grabs.

(** [strconv.FormatFloat(v, 'f', -1, 64)]: the fewest digits that name no other number. *)
Definition floor_decimal (num den : Z) (q : Z) : Z := if (0 <=? q)%Z then (num / (den * 10 ^ q))%Z else (num * 10 ^ (- q) / den)%Z.
(** [c * 10^q] against [num / den]. *)
Definition compare_decimal (c q num den : Z) : comparison :=
  if (0 <=? q)%Z then (c * 10 ^ q * den ?= num)%Z else (c * den ?= num * 10 ^ (- q))%Z.
Fixpoint decimal_point (fuel : nat) (num den : Z) : Z :=
  match fuel with
  | O => 0
  | S fuel => if (den <=? num)%Z then Z.of_nat (String.length (pretty (num / den)%Z)) else (decimal_point fuel (10 * num) den - 1)%Z
  end.
(** A carry leaves zeros behind. *)
Fixpoint strip_zeros (fuel : nat) (c q : Z) : Z * Z :=
  match fuel with
  | O => (c, q)
  | S fuel => if (c mod 10 =? 0)%Z then strip_zeros fuel (c / 10) (q + 1) else (c, q)
  end.
Definition shortest_digits (m : positive) (e : Z) : Z * Z :=
  let '(unit_, den) := if (2 <=? e)%Z then (2 ^ (e - 2), 1)%Z else (1, 2 ^ (2 - e))%Z in
  let value := (4 * Zpos m * unit_)%Z in
  let upper := ((4 * Zpos m + 2) * unit_)%Z in
  let lower := ((4 * Zpos m - (if (Zpos m =? 2 ^ 52)%Z && (-1074 <? e)%Z then 1 else 2)) * unit_)%Z in
  let inclusive := Z.even (Zpos m) in
  let dp := decimal_point 400 value den in
  let at_ n :=
    let q := (dp - Z.of_nat n)%Z in let down := floor_decimal value den q in
    let okdown := match compare_decimal down q lower den with Gt => true | Eq => inclusive | Lt => false end in
    let okup := match compare_decimal (down + 1) q upper den with Lt => true | Eq => inclusive | Gt => false end in
    let half := compare_decimal (2 * down + 1) q (2 * value) den in
    if okdown && okup then Some (match half with Lt => (down + 1, q) | Gt => (down, q) | Eq => (if Z.even down then down else down + 1, q) end)%Z
    else if okdown then Some (down, q) else if okup then Some (down + 1, q)%Z else None in
  let '(c, q) := default (0, 0)%Z (first_some at_ 18 1) in strip_zeros 18 c q.
Definition numberText (value : float) : string :=
  let sign (s : bool) := if s then "-" else "" in
  match Prim2SF value with
  | S754_nan => "NaN"
  | S754_infinity s => if s then "-Inf" else "+Inf"
  | S754_zero s => sign s +:+ "0"
  | S754_finite s m e =>
      let '(c, q) := shortest_digits m e in
      sign s +:+ (if (0 <=? q)%Z then pretty (c * 10 ^ q)%Z else decimal (Z.to_nat (- q)) c)
  end.
Example numberText_example :
  map numberText [4100; 1.085; 0.1; -2.5; 1e22; 0; 4132.61; 1e-7; 123456.789]%float =
  ["4100"; "1.085"; "0.1"; "-2.5"; "10000000000000000000000"; "0"; "4132.61"; "0.0000001"; "123456.789"].
Proof. vm_compute. reflexivity. Qed.

(** The facts a zone is scored on, in the order of the code: weight and reason. *)
Definition touch_facts (z : Zone) : list (float * string) :=
  if (z_Touches z =? 0)%Z then [(freshScore, "fresh")] else if (z_Touches z =? 1)%Z then [(singleTouchScore, "1 touch")] else [].
Definition position_facts (z : Zone) (i : ScoreInputs) : list (float * string) :=
  if si_HasEq i then
    if bool_decide (z_Side z = "demand") && (High z <=? si_Equilibrium i)%float then [(pdPositionScore, "discount")]
    else if bool_decide (z_Side z = "supply") && (Low z >=? si_Equilibrium i)%float then [(pdPositionScore, "premium")] else []
  else [].
Definition add_facts (acc : float * list string) (facts : list (float * string)) : float * list string :=
  foldl (λ acc f, ((acc.1 + f.1)%float, acc.2 ++ [f.2])) acc facts.
Definition flag (b : bool) (weight : float) (reason : string) : list (float * string) := if b then [(weight, reason)] else [].
Definition context_facts (z : Zone) (i : ScoreInputs) : list (float * string) :=
  flag (existsb (zoneOverlapsLevel z) (si_Levels i)) keyLevelScore "key level" ++
  match roundNumberInside z (si_RoundStep i) with Some round => [(roundNumberScore, "round " +:+ numberText round)] | None => [] end ++
  flag (hasLiquidityConfluence z (si_Pools i) (si_PipSize i)) liquidityScore "liquidity pool" ++
  map (λ name, (sessionLevelScr, name)) (sessionLevelConfluences z (si_Sessions i) (si_PipSize i)) ++
  position_facts z i ++
  flag (hasGradeAGrab z (si_Grabs i) (si_PipSize i)) grabAScore "sweep A" ++
  flag (existsb (λ h, bool_decide (z_Side z = z_Side h) && (Low z >=? Low h)%float && (High z <=? High h)%float) (si_HTFZones i)) htfScore "HTF zone" ++
  flag (si_HasBarIndex i && existsb (λ v, (Low z <=? v)%float && (v <=? High z)%float) (si_LineValues i)) trendlineScore "TL confluence".
Definition set_score (z : Zone) (score : float) (reasons : list string) : Zone :=
  mkZone (z_Bottom z) (z_Top z) (z_Side z) (z_OriginIndex z) (z_Touches z) (z_Mitigated z) (z_Source z) (z_Sources z)
    (z_BreakKind z) (z_BreakIndex z) score reasons.
Definition scoreZone (z : Zone) (i : ScoreInputs) : Zone :=
  let '(score, reasons) := add_facts (0%float, []) (touch_facts z) in
  let '(sourceScore, sourceReasons) := sourceScoreOf z in
  let '(score, reasons) := add_facts ((score + sourceScore)%float, reasons ++ sourceReasons) (context_facts z i) in
  set_score z score reasons.
Definition score_less (a b : Zone) : bool :=
  if (z_Score a <>? z_Score b)%float then (z_Score a >? z_Score b)%float
  else if negb (z_Touches a =? z_Touches b)%Z then (z_Touches a <? z_Touches b)%Z else (Low a <? Low b)%float.
Definition ScoreZones (zones : list Zone) (i : ScoreInputs) : list Zone := sort_slice score_less (map (λ z, scoreZone z i) zones).

(** * Lemmas *)

(** Clusters: consecutive swings by price, pairwise within the tolerance. *)
Definition cluster_ok (tolerance maxSpan : float) (c : list Swing) : Prop :=
  c ≠ [] ∧ ∀ i s, c !! i = Some s → (0 < i)%nat → canJoinCluster (take i c) s tolerance maxSpan = true.
Lemma cluster_step_spec tolerance maxSpan clusters s :
  Forall (cluster_ok tolerance maxSpan) clusters →
  Forall (cluster_ok tolerance maxSpan) (cluster_step tolerance maxSpan clusters s) ∧
  concat (cluster_step tolerance maxSpan clusters s) = concat clusters ++ [s].
Proof.
  intros Hc. assert (Hnew : Forall (cluster_ok tolerance maxSpan) (clusters ++ [[s]]) ∧ concat (clusters ++ [[s]]) = concat clusters ++ [s]).
  { split; [|by rewrite concat_app]. apply Forall_app. split; [done|]. apply Forall_singleton. split; [done|]. by intros [|i] x Hx Hi; [lia|]. }
  unfold cluster_step. destruct (last clusters) as [c|] eqn:E; [|done]. destruct (canJoinCluster c s tolerance maxSpan) eqn:J; [|done].
  apply last_Some in E as [l ->]. rewrite length_app. cbn [length]. replace (length l + 1 - 1)%nat with (length l) by lia.
  rewrite take_app_length. apply Forall_app in Hc as [Hl [Hne Hc]%Forall_singleton]. split.
  - apply Forall_app. split; [done|]. apply Forall_singleton. split; [by destruct c|]. intros i x Hi Hpos.
    apply lookup_app_Some in Hi as [Hi|[Hlen Hi]].
    + rewrite take_app_le by (apply lookup_lt_Some in Hi; lia). by apply Hc.
    + destruct (i - length c)%nat eqn:F; [|done]. injection Hi as <-. replace i with (length c) by lia. by rewrite take_app_length.
  - rewrite !concat_app. cbn. by rewrite !app_nil_r, app_assoc.
Qed.
Lemma priceClusters_spec swings tolerance maxSpanMultiple :
  Forall (cluster_ok tolerance (tolerance * math_Max 0 maxSpanMultiple)) (priceClusters swings tolerance maxSpanMultiple) ∧
  concat (priceClusters swings tolerance maxSpanMultiple) ≡ₚ swings.
Proof.
  unfold priceClusters. set (span := (tolerance * _)%float). set (l := sort_slice _ swings).
  assert (H : ∀ l cs, Forall (cluster_ok tolerance span) cs →
    Forall (cluster_ok tolerance span) (foldl (cluster_step tolerance span) cs l) ∧ concat (foldl (cluster_step tolerance span) cs l) = concat cs ++ l).
  { clear l. induction l as [|s l IH]; intros cs Hcs; cbn [foldl]; [by rewrite app_nil_r|].
    destruct (cluster_step_spec tolerance span cs s Hcs) as [F C]. destruct (IH _ F) as [F' C']. split; [done|]. by rewrite C', C, <- app_assoc. }
  destruct (H l []) as [F C]; [by apply Forall_nil|]. split; [done|]. rewrite C. cbn. apply sort_slice_perm.
Qed.

(** Where a pool comes from: a cluster of two or more swings, or an extreme on its own. *)
Definition pool_source (swings : list Swing) (band tolerance span : float) (kind side : string) (p : Pool) : Prop :=
  p_Side p = side ∧ p_Band p = band ∧
  ((∃ c, c ⊆+ of_kind kind swings ∧ cluster_ok tolerance span c ∧ (2 <= length c)%nat ∧ p_Touches p = length c ∧
      p_Level p = (pySum (map s_Price c) / f64_of_Z (Z.of_nat (length c)))%float) ∨
   (∃ s, s ∈ of_kind kind swings ∧ p_Touches p = 1%nat ∧ p_Level p = s_Price s ∧ p_LastIndex p = s_Index s)).
Lemma concat_submseteq {A} (c : list A) (cs : list (list A)) : c ∈ cs → c ⊆+ concat cs.
Proof.
  induction cs as [|d cs IH]; [by intros ?%not_elem_of_nil|]. intros [->|H]%elem_of_cons; cbn; [apply submseteq_inserts_r; done|].
  apply submseteq_inserts_l. auto.
Qed.
Lemma clusterPools_source swings side band mult kind p :
  p ∈ clusterPools (of_kind kind swings) side band mult → pool_source swings band band (band * math_Max 0 mult) kind side p.
Proof.
  unfold clusterPools. intros (c & Hc & Hp)%list_elem_of_omap. destruct (priceClusters_spec (of_kind kind swings) band mult) as [F C].
  destruct (Nat.ltb_spec (length c) 2); [done|]. injection Hp as <-. split_and!; [done|done|]. left. exists c. split_and!; [|by eapply Forall_forall in F|done..].
  rewrite <- C. by apply concat_submseteq.
Qed.
Lemma extreme_in better swings e : extreme_of better swings = Some e → e ∈ swings.
Proof.
  destruct swings as [|s rest]; [done|]. cbn. intros [= <-].
  assert (H : ∀ s0, foldl (λ e s, if better (s_Price s) (s_Price e) then s else e) s0 rest ∈ s0 :: rest); [|apply H].
  induction rest as [|x rest IH]; intros s0; cbn [foldl]; [by left|]. destruct (better _ _); [specialize (IH x)|specialize (IH s0)]; set_solver.
Qed.
Lemma extreme_best (better : float → float → bool) (R : Z → Z → Prop) swings e :
  PreOrder R → (∀ x y, finite x = true → finite y = true → if better x y then R (key y) (key x) else R (key x) (key y)) →
  Forall (λ s, finite (s_Price s) = true) swings → extreme_of better swings = Some e → Forall (λ s, R (key (s_Price s)) (key (s_Price e))) swings.
Proof.
  intros HR Hb Hf. destruct swings as [|s rest]; [done|]. cbn. intros [= <-].
  apply Forall_cons in Hf as [Hs Hf]. revert s Hs. induction Hf as [|x rest Hx Hf IH]; intros s Hs; cbn [foldl]; [by apply Forall_singleton|].
  specialize (Hb (s_Price x) (s_Price s) Hx Hs). destruct (better (s_Price x) (s_Price s)).
  - specialize (IH x Hx). apply Forall_cons in IH as [H1 H2]. repeat (apply Forall_cons; split); [|done|done]. by etrans.
  - specialize (IH s Hs). apply Forall_cons in IH as [H1 H2]. repeat (apply Forall_cons; split); [done| |done]. by etrans.
Qed.
Lemma append_extreme_spec side better band swings pools :
  let out := append_extreme side better band swings pools in
  (∀ p, p ∈ pools → p ∈ out) ∧
  (∀ p, p ∈ out → p ∈ pools ∨ ∃ e, e ∈ swings ∧ p = mkPool side (s_Price e) band 1 (s_Index e)) ∧
  ∀ e, extreme_of better swings = Some e → ∃ p, p ∈ out ∧ (p = mkPool side (s_Price e) band 1 (s_Index e) ∨
    (abs (p_Level p - s_Price e) <=? math_Max (p_Band p) band)%float = true).
Proof.
  cbv zeta. unfold append_extreme. destruct (extreme_of better swings) as [e|] eqn:E; [|split_and!; [done|by left|done]].
  pose proof (extreme_in _ _ _ E) as Hin. unfold appendLoneExtreme. destruct (existsb _ pools) eqn:X; split_and!.
  - done.
  - by left.
  - intros e' [= <-]. apply existsb_exists in X as (p & Hp & Hn). exists p. split; [by apply list_elem_of_In|by right].
  - intros p Hp. apply elem_of_app. by left.
  - intros p [Hp| ->%list_elem_of_singleton]%elem_of_app; [by left|right; by exists e].
  - intros e' [= <-]. eexists. split; [apply elem_of_app; right; by apply list_elem_of_singleton|by left].
Qed.

(** * Theorems *)

(** Every liquidity pool is a cluster of two or more equal highs or lows, pairwise within the band, or the lone extreme of its
    side, and the highest high and the lowest low are always at a pool. *)
Theorem technique_pools_sound swings bars tol atr mult :
  Forall (λ s, finite (s_Price s) = true) swings →
  let pools := LiquidityPools swings bars tol atr mult in
  let band := (ATRScalar (atr_or bars atr) 1 * math_Max 0 tol)%float in let span := (band * math_Max 0 mult)%float in
  Forall (λ p, pool_source swings band band span "high" "buy" p ∨ pool_source swings band band span "low" "sell" p) pools ∧
  (∀ s, s ∈ of_kind "high" swings → ∃ e p, e ∈ of_kind "high" swings ∧ (key (s_Price s) <= key (s_Price e))%Z ∧ p ∈ pools ∧
    (p_Level p = s_Price e ∨ (abs (p_Level p - s_Price e) <=? math_Max (p_Band p) band)%float = true)) ∧
  (∀ s, s ∈ of_kind "low" swings → ∃ e p, e ∈ of_kind "low" swings ∧ (key (s_Price e) <= key (s_Price s))%Z ∧ p ∈ pools ∧
    (p_Level p = s_Price e ∨ (abs (p_Level p - s_Price e) <=? math_Max (p_Band p) band)%float = true)).
Proof.
  intros Hf. cbv zeta. unfold LiquidityPools. destruct swings as [|s0 swings0]; [split_and!; [by apply Forall_nil|by intros ? ?%not_elem_of_nil..]|].
  set (swings := s0 :: swings0) in *. clearbody swings. set (band := (ATRScalar _ 1 * _)%float). set (span := (band * _)%float).
  set (highs := of_kind "high" swings). set (lows := of_kind "low" swings).
  set (base := clusterPools highs "buy" band mult ++ clusterPools lows "sell" band mult).
  destruct (append_extreme_spec "buy" (λ a b, a >? b)%float band highs base) as (A1 & A2 & A3). set (up := append_extreme "buy" _ _ _ _) in *.
  destruct (append_extreme_spec "sell" PrimFloat.ltb band lows up) as (B1 & B2 & B3). set (out := append_extreme "sell" _ _ _ _) in *.
  assert (Hk : ∀ kind, Forall (λ s, finite (s_Price s) = true) (of_kind kind swings)).
  { intros kind. apply Forall_forall. intros x [Hx _]%in_filter. rewrite Forall_forall in Hf. by apply Hf. }
  split_and!.
  - apply Forall_forall. intros p. rewrite sort_slice_perm. intros Hp. apply B2 in Hp as [Hp|(e & He & ->)].
    + apply A2 in Hp as [Hp|(e & He & ->)].
      * apply elem_of_app in Hp as [Hp|Hp]; [left|right]; by apply clusterPools_source.
      * left. split_and!; [done|done|]. right. by exists e.
    + right. split_and!; [done|done|]. right. by exists e.
  - intros s Hs. assert (Hne : is_Some (extreme_of (λ a b, a >? b)%float highs)) by (destruct highs; [by apply not_elem_of_nil in Hs|by eexists]).
    destruct Hne as [e He]. destruct (A3 e He) as (p & Hp & Hc). exists e, p. split_and!; [by eapply extreme_in| |rewrite sort_slice_perm; by apply B1|].
    + assert (HF : Forall (λ s, key (s_Price s) <= key (s_Price e))%Z highs); [|rewrite Forall_forall in HF; by apply HF].
      eapply (extreme_best (λ a b, a >? b)%float Z.le); [apply _| |apply Hk|exact He]. intros x y Hx Hy. destruct (x >? y)%float eqn:E; float_lia.
    + destruct Hc as [->|Hc]; [by left|by right].
  - intros s Hs. assert (Hne : is_Some (extreme_of PrimFloat.ltb lows)) by (destruct lows; [by apply not_elem_of_nil in Hs|by eexists]).
    destruct Hne as [e He]. destruct (B3 e He) as (p & Hp & Hc). exists e, p. split_and!; [by eapply extreme_in| |rewrite sort_slice_perm; done|].
    + assert (HF : Forall (λ s, key (s_Price e) <= key (s_Price s))%Z lows); [|rewrite Forall_forall in HF; by apply HF].
      eapply (extreme_best PrimFloat.ltb (λ a b, b <= a)%Z); [split; red; lia| |apply Hk|exact He]. intros x y Hx Hy. destruct (x <? y)%float eqn:E; float_lia.
    + destruct Hc as [->|Hc]; [by left|by right].
Qed.
Definition demo_swing (index : nat) (kind : string) (price : float) : Swing := mkSwing index kind price "" (index + 1).
Definition demo_swings : list Swing :=
  [demo_swing 1 "high" 20; demo_swing 2 "low" 10; demo_swing 3 "high" 20.125; demo_swing 4 "low" 12; demo_swing 5 "high" 25].
Lemma technique_pools_sound_witness :
  map (λ p, (p_Side p, p_Level p, p_Touches p)) (LiquidityPools demo_swings [] 0.25 (Some [1%float]) 2) =
    [("sell", 10%float, 1%nat); ("buy", 20.0625%float, 2%nat); ("buy", 25%float, 1%nat)] ∧
  ∃ e p, e ∈ of_kind "high" demo_swings ∧ (key 20 <= key (s_Price e))%Z ∧ p ∈ LiquidityPools demo_swings [] 0.25 (Some [1%float]) 2.
Proof.
  split; [vm_compute; reflexivity|].
  destruct (technique_pools_sound demo_swings [] 0.25 (Some [1%float]) 2) as (_ & H & _).
  - repeat (apply Forall_cons; split; [reflexivity|]). apply Forall_nil. exact I.
  - destruct (H (demo_swing 1 "high" 20)) as (e & p & He & Hk & Hp & _); [left|]. exists e, p. split; [exact He|]. split; [exact Hk|exact Hp].
Defined.

(** Scoring keeps every zone as it is drawn and orders the zones: by score, then by fewer touches, then from below; the score of
    a zone reads nothing of its former score. *)
Theorem score_zones_ordered zones i :
  Forall (λ z, IsNaN (z_Score (scoreZone z i)) = false ∧ IsNaN (Low z) = false) zones →
  ScoreZones zones i ≡ₚ map (λ z, scoreZone z i) zones ∧
  StronglySorted (λ a b, (key (z_Score b) < key (z_Score a))%Z ∨ (key (z_Score a) = key (z_Score b) ∧
    ((z_Touches a < z_Touches b)%Z ∨ (z_Touches a = z_Touches b ∧ key (Low a) <= key (Low b))%Z))) (ScoreZones zones i) ∧
  Forall (λ z, ∀ score reasons, scoreZone (set_score z score reasons) i = scoreZone z i ∧
    set_score (scoreZone z i) (z_Score z) (z_ScoreReasons z) = z) zones.
Proof.
  intros Hn. split; [apply sort_slice_perm|]. split.
  - assert (Hs : StronglySorted (λ a b, score_less b a = false) (ScoreZones zones i)).
    { apply (sort_slice_sorted score_less (λ z, IsNaN (z_Score z) = false ∧ IsNaN (Low z) = false)).
      - intros x y [X1 X2] [Y1 Y2]. unfold score_less. float_keys. intros H.
        repeat case_match; bools; lia.
      - intros x y z [X1 X2] [Y1 Y2] [Z1 Z2]. unfold score_less. float_keys. intros H1 H2.
        repeat case_match; bools; lia.
      - apply Forall_map. eapply Forall_impl; [exact Hn|]. intros z [H1 H2]. split; [done|]. cbn [compose]. unfold scoreZone.
        destruct (add_facts _ _), (sourceScoreOf z), (add_facts _ _). done. }
    assert (Hall : Forall (λ z, IsNaN (z_Score z) = false ∧ IsNaN (Low z) = false) (ScoreZones zones i)).
    { unfold ScoreZones. rewrite sort_slice_perm. apply Forall_map. eapply Forall_impl; [exact Hn|]. intros z [H1 H2]. split; [done|].
      cbn [compose]. unfold scoreZone. destruct (add_facts _ _), (sourceScoreOf z), (add_facts _ _). done. }
    clear Hn. induction Hs as [|z l Hs IH Hf]; [constructor|]. apply Forall_cons in Hall as [[Z1 Z2] Hall]. constructor; [by apply IH|].
    rewrite Forall_forall in *. intros y Hy. specialize (Hf y Hy). destruct (Hall y Hy) as [Y1 Y2]. unfold score_less in Hf. float_keys.
    repeat case_match; bools; lia.
  - apply Forall_forall. intros z _ score reasons. split; [|by destruct z; unfold scoreZone; destruct (add_facts _ _), (sourceScoreOf _), (add_facts _ _)].
    by destruct z.
Qed.
Definition demo_inputs : ScoreInputs :=
  mkScoreInputs [mkLevel 10 "reaction" 3 0.5 3] [] 5 [] [mkSessionRef "ASIA_L" 9.5 false 0] true 15 [] [] false 0.125.
Definition demo_zones : list Zone := [newZone 19 20.5 "supply" 7 "order_block"; newZone 9 10 "demand" 3 "supply_demand"].
Lemma score_zones_ordered_witness :
  map z_ScoreReasons (ScoreZones demo_zones demo_inputs) =
    [["fresh"; "S/D"; "key level"; "round 10"; "ASIA_L"; "discount"]; ["fresh"; "round 20"; "premium"]] ∧
  ScoreZones demo_zones demo_inputs ≡ₚ map (λ z, scoreZone z demo_inputs) demo_zones.
Proof.
  split; [vm_compute; reflexivity|]. apply (score_zones_ordered demo_zones demo_inputs).
  repeat (apply Forall_cons; split; [split; vm_compute; reflexivity|]). apply Forall_nil. exact I.
Defined.
