(* ===== verification/TechniqueCompat.v ===== *)
(** Package techniquezone, compat.go: the retest and entry-zone readings the frozen detectors call with their own defaults. *)
From S2P Require Import Prelude Float64 Market TechniqueBars TechniqueZones.
From Stdlib Require Import Floats.

(** * compat.go *)

Record CompatConfig := mkCompatConfig {
  cc_PipSize : float; DisplacementBodyFraction : float; DisplacementATRMult : float; FractalN : nat; ATRLength : Z;
  LevelClusterATR : float; RoundStep : float; MaximumClusterSpanMultiple : float
}.
Definition compatTolerance (bars : list Candle) (pipSize : float) : float :=
  match bars with
  | [] => 0%float
  | b :: rest =>
      let '(low, high) := foldl (λ '(low, high) bar, (math_Min low (c_Low bar), math_Max high (c_High bar))) (c_Low b, c_High b) rest in
      math_Max ((high - low) * 0.003) pipSize
  end.
Definition closes (above : bool) (price : float) (b : Candle) : bool :=
  if above then (c_Close b >? price)%float else (c_Close b <? price)%float.
(** The run of closes beyond, and the bar at which the last run reached the required length. *)
Definition run_step (above : bool) (price : float) (required : nat) (state : nat * option nat) (p : nat * Candle) : nat * option nat :=
  if closes above price p.2 then (S state.1, if (S state.1 =? required)%nat then Some p.1 else state.2) else (0%nat, state.2).
Definition lastConsecutiveBreakIndex (bars : list Candle) (price : float) (required : nat) (above : bool) : option nat :=
  snd (foldl (run_step above price required) (0%nat, None) (imap pair bars)).
(** The later of the two breaks; the downward one when only it exists, or on a tie. *)
Definition latest_break (up down : option nat) : option (nat * string) :=
  match up, down with
  | Some u, None => Some (u, "buy")
  | Some u, Some d => if (d <? u)%nat then Some (u, "buy") else Some (d, "sell")
  | None, Some d => Some (d, "sell")
  | None, None => None
  end.
Definition retest_at (price tolerance : float) (direction : string) (i : nat) (bar : Candle) : option Zone :=
  if negb ((c_Low bar - tolerance <=? price)%float && (price <=? c_High bar + tolerance)%float) then None
  else if bool_decide (direction = "buy") && (c_Close bar >=? price)%float
  then Some (newZone (price - tolerance) (price + tolerance) "demand" (Z.of_nat i) "retest_support")
  else if bool_decide (direction = "sell") && (c_Close bar <=? price)%float
  then Some (newZone (price - tolerance) (price + tolerance) "supply" (Z.of_nat i) "retest_resistance")
  else None.
Definition FindRetest (bars : list Candle) (price : float) (minConsecutiveCloses : Z) (pipSize : float) : option Zone :=
  if (length bars <? 3)%nat then None
  else
    let tolerance := compatTolerance bars pipSize in
    let required := Z.to_nat (Z.max 1 minConsecutiveCloses) in
    match latest_break (lastConsecutiveBreakIndex bars price required true) (lastConsecutiveBreakIndex bars price required false) with
    | None => None
    | Some (breakIndex, direction) =>
        first_some (λ i, retest_at price tolerance direction i (bars !!! i)) (length bars - S breakIndex) (S breakIndex)
    end.
Definition average_range (bars : list Candle) (i : nat) : float :=
  (foldl (λ sum b, sum + (c_High b - c_Low b)) 0 (slice bars (i - 9) (S i)) / f64_of_Z (Z.of_nat i - Z.of_nat (i - 9) + 1))%float.
Definition legacy_block_at (bars : list Candle) (i : nat) : list Zone :=
  let prev := bars !!! (i - 1)%nat in let cur := bars !!! i in
  if (abs (c_Close cur - c_Open cur) <? average_range bars i)%float then []
  else
    (if (c_Close cur >? c_Open cur)%float && (c_Close prev <? c_Open prev)%float
     then [newZone (c_Low prev) (c_High prev) "demand" (Z.of_nat i - 1) "bullish_ob"] else []) ++
    (if (c_Close cur <? c_Open cur)%float && (c_Close prev >? c_Open prev)%float
     then [newZone (c_Low prev) (c_High prev) "supply" (Z.of_nat i - 1) "bearish_ob"] else []).
Definition legacyOrderBlocks (bars : list Candle) : list Zone := flat_map (legacy_block_at bars) (seq 1 (length bars - 1)).
Definition compat_swings (bars : list Candle) (compat : CompatConfig) : list Swing :=
  FindSwings bars (FractalN compat) 0 0 (Some (ATRSeries bars (ATRLength compat))) (-1).
Definition compatOrderBlocks (bars : list Candle) (compat : CompatConfig) : list Zone :=
  let breaks := StructureBreaks (compat_swings bars compat) bars false (FractalN compat) in
  let legs := Displacement bars (Some (ATRSeries bars (ATRLength compat))) (DisplacementATRMult compat) (DisplacementBodyFraction compat) in
  match OrderBlocks bars legs breaks "body" with
  | [] => legacyOrderBlocks bars
  | zones => MarkMitigation zones bars (Z.of_nat (length bars))
  end.
Definition compatFlipZones (bars : list Candle) (compat : CompatConfig) (pipSize : float) : list Zone :=
  let pipSize := if (cc_PipSize compat >? 0)%float then cc_PipSize compat else pipSize in
  let levels := KeyLevels (compat_swings bars compat) (ATRSeries bars (ATRLength compat)) (LevelClusterATR compat) (RoundStep compat) 1
    (MaximumClusterSpanMultiple compat) [] in
  omap (λ level, FindRetest bars (l_Price level) 1 pipSize) levels.
Definition price_in (tolerance price : float) (z : Zone) : bool := (Low z - tolerance <=? price)%float && (price <=? High z + tolerance)%float.
Definition EntryZone (bars : list Candle) (price : float) (direction : string) (pipSize : float) (compat : CompatConfig) : Zone :=
  let tolerance := compatTolerance bars pipSize in
  let zones := compatOrderBlocks bars compat ++ compatFlipZones bars compat pipSize ++ FVG bars in
  let side := if bool_decide (direction = "BUY") then "demand" else "supply" in
  match List.find (price_in tolerance price) (reverse zones) with
  | Some z => z
  | None => newZone (price - tolerance) (price + tolerance) side (-1) side
  end.
Definition DetectorATR (bars : list Candle) (length_ : Z) (fallback : float) : float :=
  if (length_ <? 1)%Z || (Z.of_nat (length bars) <? length_)%Z then fallback
  else
    let tr := true_ranges bars in let n := Z.to_nat length_ in
    let alpha := (1 / f64_of_Z length_)%float in
    let value := foldl (λ value r, (1 - alpha) * value + alpha * r)%float (sum_floats (take n tr) / f64_of_Z length_)%float (drop n tr) in
    usable_atr value fallback.

(** * Lemmas *)

(** Bar [i] completes a run of exactly [required] closes beyond the price. *)
Definition completes (bars : list Candle) (above : bool) (price : float) (required i : nat) : Prop :=
  (required <= S i)%nat ∧ (i < length bars)%nat ∧ (∀ j, (S i - required <= j <= i)%nat → closes above price (bars !!! j) = true) ∧
  ((S i - required)%nat = 0%nat ∨ closes above price (bars !!! (i - required)%nat) = false).
(** The state before bar [i]: the run under way and the last completed one. *)
Definition run_inv (bars : list Candle) (above : bool) (price : float) (required i : nat) (st : nat * option nat) : Prop :=
  (st.1 <= i)%nat ∧ (∀ j, (i - st.1 <= j < i)%nat → closes above price (bars !!! j) = true) ∧
  (st.1 = i ∨ closes above price (bars !!! (i - st.1 - 1)%nat) = false) ∧
  match st.2 with
  | Some l => completes bars above price required l ∧ (l < i)%nat ∧ ∀ j, (l < j < i)%nat → ¬ completes bars above price required j
  | None => ∀ j, (j < i)%nat → ¬ completes bars above price required j
  end.
Lemma run_step_inv bars above price required i st :
  (0 < required)%nat → (i < length bars)%nat → run_inv bars above price required i st →
  run_inv bars above price required (S i) (run_step above price required st (i, bars !!! i)).
Proof.
  intros Hr Hi (H1 & H2 & H3 & H4). destruct st as [run last]. cbn [fst snd] in *. unfold run_step. cbn [fst snd].
  destruct (closes above price (bars !!! i)) eqn:C.
  - assert (Hc : completes bars above price required i ↔ S run = required).
    { split.
      - intros (A1 & _ & A3 & A4). destruct (Nat.lt_trichotomy (S run) required) as [Hlt|[|Hgt]]; [|done|]; exfalso.
        + destruct H3 as [->|H3]; [lia|]. rewrite A3 in H3; [done|lia].
        + destruct A4 as [A4|A4]; [lia|]. rewrite H2 in A4; [done|lia].
      - intros <-. split_and!; [lia|done| |].
        + intros j Hj. destruct (decide (j = i)) as [->|]; [done|]. apply H2. lia.
        + destruct H3 as [->|H3]; [left; lia|]. destruct (decide (run = i)); [left; lia|right]. by replace (i - S run)%nat with (i - run - 1)%nat by lia. }
    split_and!; cbn [fst snd]; [lia| |destruct H3 as [->|H3]; [by left|right]; replace (S i - S run - 1)%nat with (i - run - 1)%nat by lia; done|].
    { intros j Hj. destruct (decide (j = i)) as [->|]; [done|]. apply H2. lia. }
    destruct (Nat.eqb_spec (S run) required) as [E|E].
    + split_and!; [by apply Hc|lia|]. intros j Hj. lia.
    + destruct last as [l|].
      * destruct H4 as (A & B & D). split_and!; [done|lia|]. intros j Hj. destruct (decide (j = i)) as [->|]; [by rewrite Hc|]. apply D. lia.
      * intros j Hj. destruct (decide (j = i)) as [->|]; [by rewrite Hc|]. apply H4. lia.
  - assert (Hc : ¬ completes bars above price required i).
    { intros (A1 & _ & A3 & _). rewrite A3 in C; [done|lia]. }
    split_and!; cbn [fst snd]; [lia|intros j Hj; lia|right; by replace (S i - 0 - 1)%nat with i by lia|].
    destruct last as [l|].
    + destruct H4 as (A & B & D). split_and!; [done|lia|]. intros j Hj. destruct (decide (j = i)) as [->|]; [done|]. apply D. lia.
    + intros j Hj. destruct (decide (j = i)) as [->|]; [done|]. apply H4. lia.
Qed.
(** The last bar satisfying a property of indices, none where none does. *)
Definition last_such (P : nat → Prop) (r : option nat) : Prop :=
  match r with Some l => P l ∧ ∀ j, P j → (j <= l)%nat | None => ∀ j, ¬ P j end.
Lemma last_break_spec bars price required above :
  (0 < required)%nat → last_such (completes bars above price required) (lastConsecutiveBreakIndex bars price required above).
Proof.
  intros Hr. unfold lastConsecutiveBreakIndex. rewrite imap_pair_seq.
  assert (H : ∀ n i st, (i + n = length bars)%nat → run_inv bars above price required i st →
    run_inv bars above price required (length bars) (foldl (run_step above price required) st (map (λ j, (j, bars !!! j)) (seq i n)))).
  { induction n as [|n IH]; intros i st E Hst; cbn [seq map foldl]; [by replace (length bars) with i by lia|].
    apply IH; [lia|]. apply run_step_inv; [done|lia|done]. }
  destruct (H (length bars) 0%nat (0%nat, None)) as (_ & _ & _ & H4); [lia|split_and!; [done|intros j Hj; cbn in Hj; lia|by left|intros j Hj; exfalso; lia]|].
  destruct (snd _) as [l|]; cbn.
  - destruct H4 as (A & B & D). split; [done|]. intros j Hj. destruct (decide (j <= l)%nat); [done|]. exfalso. destruct (D j); [|done].
    destruct Hj as (_ & ? & _). lia.
  - intros j Hj. destruct (H4 j); [|done]. by destruct Hj as (_ & ? & _).
Qed.

(** * Theorems *)

(** A retest follows the latest completed break of the price on either side: the first later bar that trades at the level and
    closes back on the broken side; without such a break or such a bar there is none. *)
Theorem find_retest_exact bars price minCloses pipSize z :
  (3 <= length bars)%nat →
  let required := Z.to_nat (Z.max 1 minCloses) in let tol := compatTolerance bars pipSize in
  FindRetest bars price minCloses pipSize = Some z ↔
  ∃ up down b direction i,
    last_such (completes bars true price required) up ∧ last_such (completes bars false price required) down ∧
    latest_break up down = Some (b, direction) ∧ (b < i < length bars)%nat ∧
    retest_at price tol direction i (bars !!! i) = Some z ∧ ∀ j, (b < j < i)%nat → retest_at price tol direction j (bars !!! j) = None.
Proof.
  intros Hlen. cbv zeta. unfold FindRetest. destruct (Nat.ltb_spec (length bars) 3); [lia|]. set (required := Z.to_nat _).
  assert (Hr : (0 < required)%nat) by (unfold required; lia).
  pose proof (last_break_spec bars price required true Hr) as Hu. pose proof (last_break_spec bars price required false Hr) as Hd.
  assert (Huniq : ∀ P r r', last_such P r → last_such P r' → r = r').
  { intros P [l|] [l'|]; cbn; [|naive_solver..]. intros [A B] [A' B']. f_equal. pose proof (B _ A'). pose proof (B' _ A). lia. }
  split.
  - intros HF. destruct (latest_break _ _) as [[b direction]|] eqn:L; [|done]. apply first_some_Some in HF as (i & Hi & Hz & Hn).
    eexists _, _, b, direction, i. split_and!; [exact Hu|exact Hd|done|lia|lia|done|]. intros j Hj. apply Hn. lia.
  - intros (up & down & b & direction & i & Hu' & Hd' & L & Hi & Hz & Hn).
    rewrite <- (Huniq _ _ _ Hu Hu'), <- (Huniq _ _ _ Hd Hd') in L. rewrite L. apply first_some_Some. exists i.
    split_and!; [lia..|done|]. intros j Hj. apply Hn. lia.
Qed.
Definition demo_close (t : Z) (low close high : float) : Candle := mkCandle t close high low close 1.
Definition demo_retest : list Candle := [demo_close 1 8 9 10; demo_close 2 9 11 12; demo_close 3 11 13 14; demo_close 4 9.5 10.5 12; demo_close 5 10 12 13].
Lemma find_retest_exact_witness :
  option_map (λ z, (z_Side z, z_OriginIndex z)) (FindRetest demo_retest 10 1 0.125) = Some ("demand", 3%Z) ∧
  ∃ up down b direction i, last_such (completes demo_retest true 10 1) up ∧ last_such (completes demo_retest false 10 1) down ∧
    latest_break up down = Some (b, direction) ∧ (b < i < 5)%nat.
Proof.
  split; [vm_compute; reflexivity|].
  destruct (FindRetest demo_retest 10 1 0.125) as [z|] eqn:E; [|vm_compute in E; discriminate E].
  destruct (find_retest_exact demo_retest 10 1 0.125 z) as [H _]; [repeat constructor|].
  destruct (H E) as (up & down & b & direction & i & H1 & H2 & H3 & H4 & _). exists up, down, b, direction, i.
  split; [exact H1|]. split; [exact H2|]. split; [exact H3|exact H4].
Defined.
