(* ===== verification/TechniqueState.v ===== *)
(** Package engine, technique_zones.go: the technique population that replaces the zone families it has exact geometry for. *)
From S2P Require Import Prelude Float64 Market Structure Zone.
From S2P Require TechniqueBars TechniqueZones.
From S2P Require Import TechniqueInstances.
From Stdlib Require Import Floats.

(** * technique_zones.go *)

Record TechniqueZoneSettings := mkTechniqueZoneSettings { WindowBars : Z; Technique : TechniqueSettings }.
Definition productionTechniqueZoneSettings : TechniqueZoneSettings := mkTechniqueZoneSettings 400 ProductionTechniqueSettings.
Definition techniqueChain : ChainSettings := ProductionChainSettings.
(** The families with technique geometry. *)
Definition replaced (k : Kind) : bool :=
  match k with KindSupply | KindDemand | KindOrderBlock | KindFVG | KindIFVG => true | _ => false end.
Definition instance_kind (i : Instance_) : Kind :=
  let technique := in_Technique i in
  if bool_decide (technique = "supply_demand") then (if bool_decide (in_Side i = "buy") then KindDemand else KindSupply)
  else if bool_decide (technique = "order_block") then KindOrderBlock
  else if bool_decide (technique = "fvg") then KindFVG
  else if bool_decide (technique = "ifvg") then KindIFVG else KindSupply.
Definition techniqueInstanceZone (i : Instance_) (bars : list Candle) : Zone :=
  let '(low, high) := if in_EntryClipped i then (in_StructuralLow i, in_StructuralHigh i) else (in_Low i, in_High i) in
  let originTime := if (0 <=? in_OriginIndex i)%Z && (in_OriginIndex i <? Z.of_nat (length bars))%Z
    then c_Time (bars !!! Z.to_nat (in_OriginIndex i)) else 0%Z in
  mkZone ("technique:" +:+ in_Technique i +:+ ":" +:+ in_Side i +:+ ":" +:+ pretty originTime +:+ ":" +:+ fmt_fixed 6 low +:+ ":" +:+ fmt_fixed 6 high)
    (instance_kind i) (if bool_decide (in_Side i = "buy") then Demand else Supply) low high StructureIntermediate tf_M5 originTime "" ""
    originTime None (in_Touches i) 0 1 (in_Score i) (if (in_Touches i >? 0)%Z then StateTouched else StateFresh) Immediate.
Definition technique_window (candles : list Candle) (windowBars : Z) : list Candle :=
  if (Z.of_nat (length candles) >? windowBars)%Z then drop (length candles - Z.to_nat windowBars) candles else candles.
Definition techniqueZoneState (candles : list Candle) (original : ZoneState) (s : TechniqueZoneSettings) : ZoneState :=
  if (length candles <? 10)%nat || (WindowBars s <? 50)%Z then original
  else
    let bars := technique_window candles (WindowBars s) in
    let instances := TechniqueInstances bars techniqueChain (Technique s) in
    mkZoneState (List.filter (λ z, negb (replaced (z_Kind z))) (zs_Zones original) ++ map (λ i, techniqueInstanceZone i bars) instances) (zs_ATR original).

(** * Lemmas *)

Lemma instance_replaced i : replaced (instance_kind i) = true.
Proof. unfold instance_kind. by repeat case_bool_decide. Qed.
Lemma zone_of_instance_kind i bars : z_Kind (techniqueInstanceZone i bars) = instance_kind i.
Proof. unfold techniqueInstanceZone. by destruct (in_EntryClipped i). Qed.
Lemma technique_window_app older candles n :
  (n <= Z.of_nat (length candles))%Z → (0 <= n)%Z → technique_window (older ++ candles) n = technique_window candles n.
Proof.
  intros Hn H0. unfold technique_window. rewrite length_app.
  destruct (Z.gtb_spec (Z.of_nat (length older + length candles)) n), (Z.gtb_spec (Z.of_nat (length candles)) n); try lia.
  - rewrite drop_app_ge by lia. f_equal. lia.
  - rewrite drop_app_ge by lia. replace (_ - _ - _)%nat with 0%nat by lia. done.
  - destruct older; [done|cbn in *; lia].
Qed.

(** The techniques the chain publishes. *)
Lemma chain_techniques bars c t i :
  i ∈ TechniqueInstances bars c t → in_Technique i ∈ ["supply_demand"; "order_block"; "fvg"; "ifvg"].
Proof.
  unfold TechniqueInstances. destruct (_ =? _)%nat; [by intros ?%not_elem_of_nil|]. unfold SourceViews, CollectInstances. rewrite in_filter. intros [Hp _].
  revert Hp. unfold pending. rewrite !elem_of_app. change map with (@fmap list _). intros [Hi|[Hi|[Hi|Hi]]].
  - apply list_elem_of_fmap in Hi as (z & -> & _). destruct (instance_fields z "supply_demand" (FVGEntryMaxWidthPrice t)) as (-> & _). set_solver.
  - apply list_elem_of_fmap in Hi as (z & -> & _). cbn [set_body in_Technique].
    destruct (instance_fields z "order_block" (FVGEntryMaxWidthPrice t)) as (-> & _). set_solver.
  - apply list_elem_of_fmap in Hi as (z & -> & _). destruct (instance_fields z "fvg" (FVGEntryMaxWidthPrice t)) as (-> & _). set_solver.
  - unfold discoverIFVG in Hi. apply list_elem_of_omap in Hi as (z & _ & Hi). unfold ifvg_of in Hi. destruct (_ <? _)%Z; [done|].
    destruct (inversion z bars) as [[side v]|]; [|done]. destruct (existsb _ _); [done|]. injection Hi as <-.
    destruct (_ && _); [destruct (bool_decide _)|]; cbn; set_solver.
Qed.
(** A zone drawn from an instance, field by field. *)
Record drawn_from (bars : list Candle) (i : Instance_) (z : Zone) : Prop := {
  dr_family : in_Technique i = "supply_demand" ∧ in_Side i = "buy" ∧ z_Kind z = KindDemand ∨
    in_Technique i = "supply_demand" ∧ in_Side i ≠ "buy" ∧ z_Kind z = KindSupply ∨
    in_Technique i = "order_block" ∧ z_Kind z = KindOrderBlock ∨ in_Technique i = "fvg" ∧ z_Kind z = KindFVG ∨
    in_Technique i = "ifvg" ∧ z_Kind z = KindIFVG;
  dr_side : z_Side z = if decide (in_Side i = "buy") then Demand else Supply;
  dr_band : if in_EntryClipped i then z_Low z = in_StructuralLow i ∧ z_High z = in_StructuralHigh i else z_Low z = in_Low i ∧ z_High z = in_High i;
  dr_origin : ((0 <= in_OriginIndex i < Z.of_nat (length bars))%Z → z_OriginTime z = c_Time (bars !!! Z.to_nat (in_OriginIndex i))) ∧
    (¬ (0 <= in_OriginIndex i < Z.of_nat (length bars))%Z → z_OriginTime z = 0%Z) ∧ z_CreatedAt z = z_OriginTime z;
  dr_name : z_ID z = "technique:" +:+ in_Technique i +:+ ":" +:+ in_Side i +:+ ":" +:+ pretty (z_OriginTime z) +:+ ":" +:+ fmt_fixed 6 (z_Low z) +:+
    ":" +:+ fmt_fixed 6 (z_High z);
  dr_life : z_TouchCount z = in_Touches i ∧ z_LegacyScore z = in_Score i ∧ (z_State z = StateTouched ↔ (0 < in_Touches i)%Z) ∧
    (z_State z = StateFresh ↔ (in_Touches i <= 0)%Z) ∧ z_LastTouchedAt z = None;
  dr_rest : z_Layer z = StructureIntermediate ∧ z_Timeframe z = tf_M5 ∧ z_Strength z = 1%float ∧ z_Relevance z = Immediate
}.
Lemma technique_zone_drawn bars i :
  in_Technique i ∈ ["supply_demand"; "order_block"; "fvg"; "ifvg"] → drawn_from bars i (techniqueInstanceZone i bars).
Proof.
  intros Ht. unfold techniqueInstanceZone. set (t := if (_ && _)%bool then c_Time _ else 0%Z).
  assert (Eo : ((0 <= in_OriginIndex i < Z.of_nat (length bars))%Z → t = c_Time (bars !!! Z.to_nat (in_OriginIndex i))) ∧
    (¬ (0 <= in_OriginIndex i < Z.of_nat (length bars))%Z → t = 0%Z)).
  { unfold t. destruct (Z.leb_spec 0 (in_OriginIndex i)), (Z.ltb_spec (in_OriginIndex i) (Z.of_nat (length bars))); cbn; split; intros; done || lia. }
  assert (El : ∀ k, (if (in_Touches i >? 0)%Z then StateTouched else StateFresh) = k →
    (k = StateTouched ↔ (0 < in_Touches i)%Z) ∧ (k = StateFresh ↔ (in_Touches i <= 0)%Z)).
  { intros k <-. destruct (Z.gtb_spec (in_Touches i) 0); split; split; intros; done || lia. }
  assert (Ek : in_Technique i = "supply_demand" ∧ in_Side i = "buy" ∧ instance_kind i = KindDemand ∨
    in_Technique i = "supply_demand" ∧ in_Side i ≠ "buy" ∧ instance_kind i = KindSupply ∨
    in_Technique i = "order_block" ∧ instance_kind i = KindOrderBlock ∨ in_Technique i = "fvg" ∧ instance_kind i = KindFVG ∨
    in_Technique i = "ifvg" ∧ instance_kind i = KindIFVG).
  { unfold instance_kind. clear -Ht. repeat (apply elem_of_cons in Ht as [Ht|Ht]); [..|by apply not_elem_of_nil in Ht];
      repeat case_bool_decide; try congruence; tauto. }
  destruct (El _ eq_refl) as [El1 El2].
  destruct (in_EntryClipped i) eqn:Ec; (split; [exact Ek|cbn; by case_bool_decide; case_decide|rewrite Ec; done| | |split_and!; done|done]);
    [split_and!; [apply Eo|apply Eo|done]|done|split_and!; [apply Eo|apply Eo|done]|done].
Qed.

(** * Theorems *)

(** [C36] The technique population takes the place of exactly the families it has geometry for. With a usable window the zones of the
    other families, breakers and flips, stay as they are and in order; the rest of the state is one zone for each instance the chain
    finds in the last candles of the window, in its order, with the instance's family, side, band (the structural one where the
    entry was clipped), origin candle, touches and score; candles before the window change nothing. With less than ten candles or a
    window under fifty the state is the one there was. *)
Theorem technique_population_replaced candles original s :
  let out := techniqueZoneState candles original s in
  ((length candles < 10)%nat ∨ (WindowBars s < 50)%Z → out = original) ∧
  ((10 <= length candles)%nat → (50 <= WindowBars s)%Z →
   let bars := drop (length candles - Z.to_nat (WindowBars s)) candles in
   (∃ drawn, zs_Zones out = filter (λ z, z_Kind z = KindBreaker ∨ z_Kind z = KindFlip) (zs_Zones original) ++ drawn ∧
      Forall2 (drawn_from bars) (TechniqueInstances bars ProductionChainSettings (Technique s)) drawn) ∧
   zs_ATR out = zs_ATR original ∧
   ((WindowBars s <= Z.of_nat (length candles))%Z → ∀ older, techniqueZoneState (older ++ candles) original s = out)).
Proof.
  cbv zeta. split.
  { intros H. unfold techniqueZoneState. destruct (Nat.ltb_spec (length candles) 10), (Z.ltb_spec (WindowBars s) 50); try done. lia. }
  intros Hc Hw.
  assert (H : ∀ candles, (10 <= length candles)%nat → techniqueZoneState candles original s =
    mkZoneState (List.filter (λ z, negb (replaced (z_Kind z))) (zs_Zones original) ++
      map (λ i, techniqueInstanceZone i (technique_window candles (WindowBars s)))
        (TechniqueInstances (technique_window candles (WindowBars s)) techniqueChain (Technique s))) (zs_ATR original)).
  { intros l Hl. unfold techniqueZoneState. destruct (Nat.ltb_spec (length l) 10); [lia|]. destruct (Z.ltb_spec (WindowBars s) 50); [lia|done]. }
  assert (Ew : technique_window candles (WindowBars s) = drop (length candles - Z.to_nat (WindowBars s)) candles).
  { unfold technique_window. destruct (Z.gtb_spec (Z.of_nat (length candles)) (WindowBars s)); [done|].
    by replace (length candles - Z.to_nat (WindowBars s))%nat with 0%nat by lia. }
  split_and!.
  - rewrite H, Ew by done. cbn [zs_Zones]. eexists. split.
    + f_equal. clear. induction (zs_Zones original) as [|z l IH]; [done|]. cbn [List.filter]. rewrite filter_cons, IH.
      destruct (z_Kind z); first [rewrite decide_True by auto|rewrite decide_False by (intros [?|?]; done)]; done.
    + apply Forall2_fmap_r, Forall_Forall2_diag, Forall_forall. intros i Hi. apply technique_zone_drawn. by eapply chain_techniques.
  - by rewrite H.
  - intros Hl older. rewrite !H by (rewrite ?length_app; lia). by rewrite technique_window_app by lia.
Qed.
Definition demo_candles : list Candle := map (λ k, demo_bar (300 * Z.of_nat k) 20 21 19 20) (seq 1 6) ++ map (λ b, mkCandle (3000 + c_Time b) (c_Open b) (c_High b) (c_Low b) (c_Close b) 1) demo_rally.
Definition demo_state_settings : TechniqueZoneSettings := mkTechniqueZoneSettings 50 demo_technique.
Definition demo_breaker : Zone := new_zone "b" KindBreaker Demand 1 2 tf_M5 0 "" "" 0 1.
Definition demo_gap : Zone := new_zone "g" KindFVG Demand 3 4 tf_M5 0 "" "" 0 1.
Lemma technique_population_replaced_witness :
  map (λ z, (z_Kind z, z_Low z)) (zs_Zones (techniqueZoneState demo_candles (mkZoneState [demo_gap; demo_breaker] 1) demo_state_settings)) =
    [(KindBreaker, 1); (KindFVG, 10)]%float ∧
  ∃ drawn, zs_Zones (techniqueZoneState demo_candles (mkZoneState [demo_gap; demo_breaker] 1) demo_state_settings) = demo_breaker :: drawn.
Proof.
  split; [vm_compute; reflexivity|].
  destruct (technique_population_replaced demo_candles (mkZoneState [demo_gap; demo_breaker] 1) demo_state_settings) as [_ H].
  destruct (H ltac:(apply Nat.leb_le; reflexivity) ltac:(apply Z.leb_le; reflexivity)) as ((drawn & E & _) & _). exists drawn. exact E.
Defined.
