(* ===== verification/StructuralFacts.v ===== *)
(** Package structuralconfluence, facts and their independence: which structures derive from one underlying event. *)
From S2P Require Import Prelude Float64 Market TechniqueBars.
From S2P Require Import TechniqueInstances.
From Stdlib Require Import Floats.

(** * fact.go *)

Definition Buy : string := "buy".
Definition Sell : string := "sell".
Definition SourceSupplyDemand : string := "supply_demand".
Definition SourceOrderBlock : string := "order_block".
Definition SourceFVG : string := "fvg".
Definition SourceIFVG : string := "ifvg".
Definition SourceCRT : string := "crt".
Definition UnverifiedOriginOutsideWindow : string := "origin_outside_window".
Definition UnverifiedSupplyDemandLeg : string := "supply_demand_leg_not_found".
Definition UnverifiedOrderBlockLeg : string := "order_block_leg_not_found".
Definition UnverifiedBrokenSwing : string := "order_block_broken_swing_not_found".
Definition UnverifiedGap : string := "fvg_gap_not_found".
Definition UnverifiedParentGap : string := "ifvg_parent_gap_not_found".
Definition UnverifiedCRT : string := "crt_instance_embeds_reaction".
Definition UnverifiedTechnique : string := "unknown_technique".
Definition UnverifiedNoAtoms : string := "no_provenance_atoms".

Record Fact := mkFact {
  f_ID : string; f_Source : string; f_Side : string; f_Low : float; f_High : float; f_StructuralLow : float; f_StructuralHigh : float;
  f_FormedAt : Z; f_AvailableAt : Z; f_SourceTimes : list Z; f_Atoms : list string; f_ParentID : string; f_Verified : bool;
  f_UnverifiedReason : string; f_Touches : Z; f_Mitigated : bool; f_Score : float
}.
Definition set_atoms (f : Fact) (atoms : list string) : Fact :=
  mkFact (f_ID f) (f_Source f) (f_Side f) (f_Low f) (f_High f) (f_StructuralLow f) (f_StructuralHigh f) (f_FormedAt f) (f_AvailableAt f)
    (f_SourceTimes f) atoms (f_ParentID f) (f_Verified f) (f_UnverifiedReason f) (f_Touches f) (f_Mitigated f) (f_Score f).
(** The elements that differ from the one before. The in-place filter of the code never overwrites an element it still reads. *)
Fixpoint distinct {A} `{EqDecision A} (prev : option A) (l : list A) : list A :=
  match l with
  | [] => []
  | a :: rest => if bool_decide (prev = Some a) then distinct (Some a) rest else a :: distinct (Some a) rest
  end.
Definition normalised (f : Fact) : Fact :=
  set_atoms f (List.filter (λ a, negb (bool_decide (a = ""))) (distinct None (sort_strings (f_Atoms f)))).
Definition Overlap (aLow aHigh bLow bHigh : float) : float * float * float :=
  let low := math_Max aLow bLow in let high := math_Min aHigh bHigh in (low, high, (high - low)%float).

(** * independence.go *)

Record Group := mkGroup { gr_Representative : string; gr_Members : list string }.
Definition dedupe_step (state : list string * list Fact * nat) (f : Fact) : list string * list Fact * nat :=
  let '(seen, out, dups) := state in
  if bool_decide (f_ID f ∈ seen) then (seen, out, S dups) else (f_ID f :: seen, out ++ [normalised f], dups).
Definition id_less (a b : Fact) : bool := str_lt (f_ID a) (f_ID b).
Definition Dedupe (facts : list Fact) : list Fact * nat :=
  let '(_, out, dups) := foldl dedupe_step ([], [], 0%nat) facts in (sort_slice id_less out, dups).

(** Union-find with path halving; the smaller index is the root, so a parent is never above its child and the number of the
    node is enough fuel. *)
Fixpoint uf_find (fuel : nat) (parent : list nat) (i : nat) : list nat * nat :=
  match fuel with
  | O => (parent, i)
  | S fuel =>
      let p := parent !!! i in
      if (p =? i)%nat then (parent, i)
      else let gp := parent !!! p in uf_find fuel (<[i := gp]> parent) gp
  end.
Definition find (parent : list nat) (i : nat) : list nat * nat := uf_find (S i) parent i.
Definition union (parent : list nat) (a b : nat) : list nat :=
  let '(parent, ra) := find parent a in let '(parent, rb) := find parent b in
  if (ra =? rb)%nat then parent else if (ra <? rb)%nat then <[rb := ra]> parent else <[ra := rb]> parent.
Definition keys_of (f : Fact) : list string := match f_Atoms f with [] => ["self:" +:+ f_ID f] | atoms => atoms end.
Definition atom_step (i : nat) (state : gmap string nat * list nat) (a : string) : gmap string nat * list nat :=
  match state.1 !! a with
  | Some j => (state.1, union state.2 i j)
  | None => (<[a := i]> state.1, state.2)
  end.
Definition fact_step (state : gmap string nat * list nat) (p : nat * Fact) : gmap string nat * list nat :=
  foldl (atom_step p.1) state (keys_of p.2).
Definition linked (verified : list Fact) : list nat := snd (foldl fact_step (∅, seq 0 (length verified)) (imap pair verified)).
Definition member_step (state : gmap nat (list string) * list nat) (p : nat * Fact) : gmap nat (list string) * list nat :=
  let '(parent, root) := find state.2 p.1 in (<[root := default [] (state.1 !! root) ++ [f_ID p.2]]> state.1, parent).
Definition group_of (ids : list string) : Group := let ids := sort_strings ids in mkGroup (default "" (head ids)) ids.
Definition verified_of (facts : list Fact) : list Fact := List.filter f_Verified (Dedupe facts).1.
(** The map is listed in any order: the groups are sorted by representatives, which differ. *)
Definition Groups (facts : list Fact) : list Group :=
  let verified := verified_of facts in
  let members := (foldl member_step (∅, linked verified) (imap pair verified)).1 in
  sort_slice (λ a b, str_lt (gr_Representative a) (gr_Representative b)) (map (λ p : nat * list string, group_of p.2) (map_to_list members)).
Definition IndependentCount (facts : list Fact) : nat := length (Groups facts).
Definition Dependent (a b : Fact) : bool :=
  let a := normalised a in let b := normalised b in
  if negb (f_Verified a) || negb (f_Verified b) then false
  else existsb (λ y, bool_decide (y ∈ f_Atoms a)) (f_Atoms b).

(** * Lemmas: union-find *)

(** The root of a node, following parents down. *)
Inductive rooted (parent : list nat) : nat → nat → Prop :=
  | rooted_self i : parent !! i = Some i → rooted parent i i
  | rooted_step i j r : parent !! i = Some j → (j < i)%nat → rooted parent j r → rooted parent i r.
Definition uf_ok (parent : list nat) : Prop := ∀ i p, parent !! i = Some p → (p <= i)%nat.

Lemma rooted_unique parent i r r' : rooted parent i r → rooted parent i r' → r = r'.
Proof.
  intros H. revert r'. induction H as [i Hi|i j r Hi Hj _ IH]; inversion 1; subst; simplify_eq; [done|lia|lia|by apply IH].
Qed.
Lemma rooted_exists parent i : uf_ok parent → (i < length parent)%nat → ∃ r, rooted parent i r ∧ (r <= i)%nat.
Proof.
  intros Hok. induction i as [i IH] using lt_wf_ind. intros Hi. destruct (lookup_lt_is_Some_2 parent i Hi) as [p Hp].
  pose proof (Hok i p Hp). destruct (decide (p = i)) as [->|]; [exists i; split; [by constructor|done]|].
  destruct (IH p) as (r & Hr & Hle); [lia|lia|]. exists r. split; [|lia]. eapply rooted_step; [exact Hp|lia|exact Hr].
Qed.
Lemma rooted_le parent i r : rooted parent i r → (r <= i)%nat ∧ parent !! r = Some r.
Proof. induction 1; [done|]. split; [lia|naive_solver]. Qed.
Lemma rooted_lt parent i r : rooted parent i r → (i < length parent)%nat.
Proof. intros H. destruct H; eapply lookup_lt_Some; done. Qed.

(** Replacing a parent by the grandparent moves no node to another root. *)
Lemma halve_rooted parent i p gp j s :
  parent !! i = Some p → (p < i)%nat → parent !! p = Some gp → uf_ok parent →
  rooted parent j s → rooted (<[i := gp]> parent) j s.
Proof.
  intros Hi Hp Hg Hok. revert s. induction j as [j IH] using lt_wf_ind. intros s H. pose proof (Hok _ _ Hg). pose proof (lookup_lt_Some _ _ _ Hi).
  destruct (decide (j = i)) as [->|Hj].
  - inversion H as [|? q ? Hq Hlt Hr]; subst; simplify_eq; [lia|].
    apply rooted_step with gp; [by apply list_lookup_insert_eq|lia|]. apply IH; [lia|].
    inversion Hr as [|? g ? Hg' Hlt' Hr']; subst; simplify_eq; done.
  - inversion H as [? Hs|? q ? Hq Hlt Hr]; subst.
    + apply rooted_self. by rewrite list_lookup_insert_ne.
    + apply rooted_step with q; [by rewrite list_lookup_insert_ne|done|]. by apply IH.
Qed.
Definition same_roots (parent parent' : list nat) : Prop :=
  uf_ok parent' ∧ length parent' = length parent ∧ ∀ j s, rooted parent j s → rooted parent' j s.
Lemma same_roots_iff parent parent' j s : uf_ok parent → same_roots parent parent' → rooted parent' j s ↔ rooted parent j s.
Proof.
  intros Hok (Hok' & Hl & Hr). split; [|apply Hr]. intros H. pose proof (rooted_lt _ _ _ H) as Hlt. rewrite Hl in Hlt.
  destruct (rooted_exists parent j Hok Hlt) as (s' & Hs' & _). by rewrite (rooted_unique _ _ _ _ H (Hr _ _ Hs')).
Qed.
Lemma same_roots_refl parent : uf_ok parent → same_roots parent parent.
Proof. done. Qed.
Lemma same_roots_trans p1 p2 p3 : same_roots p1 p2 → same_roots p2 p3 → same_roots p1 p3.
Proof. intros (A1 & A2 & A3) (B1 & B2 & B3). split_and!; [done|congruence|auto]. Qed.
Lemma uf_find_spec fuel parent i :
  uf_ok parent → (i < length parent)%nat → (i < fuel)%nat →
  same_roots parent (uf_find fuel parent i).1 ∧ rooted parent i (uf_find fuel parent i).2.
Proof.
  revert parent i. induction fuel as [|fuel IH]; intros parent i Hok Hi Hf; [lia|]. cbn [uf_find].
  destruct (lookup_lt_is_Some_2 parent i Hi) as [p Hp]. rewrite (list_lookup_total_correct _ _ _ Hp). pose proof (Hok _ _ Hp) as Hle.
  destruct (Nat.eqb_spec p i) as [->|Hne]; [split; [done|by constructor]|].
  destruct (lookup_lt_is_Some_2 parent p) as [gp Hg]; [lia|]. rewrite (list_lookup_total_correct _ _ _ Hg). pose proof (Hok _ _ Hg) as Hle'.
  assert (Hs : same_roots parent (<[i := gp]> parent)).
  { split_and!; [|apply length_insert|intros j s; apply (halve_rooted _ _ p gp); [done|lia|done|done]].
    intros j q. destruct (decide (j = i)) as [->|]; [rewrite list_lookup_insert_eq by done; intros [= <-]; lia|].
    rewrite list_lookup_insert_ne by done. apply Hok. }
  destruct (IH (<[i := gp]> parent) gp) as [H1 H2]; [apply Hs|rewrite length_insert; lia|lia|].
  split; [by eapply same_roots_trans|]. apply (same_roots_iff parent _ _ _ Hok Hs) in H2.
  eapply rooted_step; [exact Hp|lia|]. destruct (decide (gp = p)) as [->|]; [done|]. eapply rooted_step; [exact Hg|lia|done].
Qed.

(** Union joins two classes and leaves the others. *)
Definition same (parent : list nat) (i j : nat) : Prop := ∃ r, rooted parent i r ∧ rooted parent j r.
Lemma link_rooted parent ra rb j s :
  uf_ok parent → parent !! ra = Some ra → parent !! rb = Some rb → (ra < rb)%nat →
  rooted parent j s → rooted (<[rb := ra]> parent) j (if decide (s = rb) then ra else s).
Proof.
  intros Hok Ha Hb Hlt. pose proof (lookup_lt_Some _ _ _ Hb). induction 1 as [i Hi|i q r Hi Hq Hr IH].
  - case_decide as E; [subst; apply rooted_step with ra; [by apply list_lookup_insert_eq|lia|]|];
      apply rooted_self; rewrite list_lookup_insert_ne by lia; done.
  - destruct (decide (i = rb)) as [->|]; [simplify_eq; lia|]. apply rooted_step with q; [by rewrite list_lookup_insert_ne|done|done].
Qed.
Lemma link_same parent ra rb i j :
  uf_ok parent → parent !! ra = Some ra → parent !! rb = Some rb → (ra < rb)%nat → (i < length parent)%nat → (j < length parent)%nat →
  same (<[rb := ra]> parent) i j ↔ same parent i j ∨ (rooted parent i ra ∧ rooted parent j rb) ∨ (rooted parent i rb ∧ rooted parent j ra).
Proof.
  intros Hok Ha Hb Hlt Hi Hj. destruct (rooted_exists parent i Hok Hi) as (ri & Hri & _). destruct (rooted_exists parent j Hok Hj) as (rj & Hrj & _).
  pose proof (link_rooted _ _ _ _ _ Hok Ha Hb Hlt Hri) as Hi'. pose proof (link_rooted _ _ _ _ _ Hok Ha Hb Hlt Hrj) as Hj'.
  assert (U : ∀ x r r', rooted parent x r → rooted parent x r' → r = r') by (intros; by eapply rooted_unique).
  split.
  - intros (r & H1 & H2). pose proof (rooted_unique _ _ _ _ H1 Hi'). pose proof (rooted_unique _ _ _ _ H2 Hj'). subst r.
    destruct (decide (ri = rb)), (decide (rj = rb)); subst; [left; by exists rb|right; right; done|right; left; done|left; by exists rj].
  - intros [(r & H1 & H2)|[[H1 H2]|[H1 H2]]].
    + pose proof (U _ _ _ H1 Hri). pose proof (U _ _ _ H2 Hrj). subst. by eexists.
    + pose proof (U _ _ _ H1 Hri). pose proof (U _ _ _ H2 Hrj). subst. rewrite decide_False in Hi' by lia. rewrite decide_True in Hj' by done. by exists ri.
    + pose proof (U _ _ _ H1 Hri). pose proof (U _ _ _ H2 Hrj). subst. rewrite decide_True in Hi' by done. rewrite decide_False in Hj' by lia. by exists rj.
Qed.
Lemma union_spec parent a b :
  uf_ok parent → (a < length parent)%nat → (b < length parent)%nat →
  uf_ok (union parent a b) ∧ length (union parent a b) = length parent ∧
  ∀ i j, (i < length parent)%nat → (j < length parent)%nat →
    same (union parent a b) i j ↔ same parent i j ∨ (same parent i a ∧ same parent j b) ∨ (same parent i b ∧ same parent j a).
Proof.
  intros Hok Ha Hb. unfold union, find. destruct (uf_find_spec (S a) parent a Hok Ha) as [S1 R1]; [lia|].
  destruct (uf_find (S a) parent a) as [p1 ra]. cbn [fst snd] in *. pose proof S1 as (Hok1 & L1 & _).
  destruct (uf_find_spec (S b) p1 b Hok1) as [S2 R2]; [lia|lia|]. destruct (uf_find (S b) p1 b) as [p2 rb]. cbn [fst snd] in *.
  apply (same_roots_iff parent p1 b rb Hok S1) in R2. assert (S3 : same_roots parent p2) by (by eapply same_roots_trans). pose proof S3 as (Hok2 & L2 & _).
  assert (Hs : ∀ i j, same p2 i j ↔ same parent i j) by (intros; unfold same; setoid_rewrite (same_roots_iff parent p2); done).
  assert (Hra : p2 !! ra = Some ra) by (apply (same_roots_iff parent p2 a ra Hok S3), rooted_le in R1 as [_ ?]; done).
  assert (Hrb : p2 !! rb = Some rb) by (apply (same_roots_iff parent p2 b rb Hok S3), rooted_le in R2 as [_ ?]; done).
  assert (Hwith : ∀ x r y, rooted parent y r → same parent x y ↔ rooted parent x r).
  { intros x r y Hy. split; [intros (r' & H1 & H2); by rewrite (rooted_unique _ _ _ _ Hy H2)|]. intros H. by exists r. }
  assert (Hlink : ∀ lo hi, (lo < hi)%nat → p2 !! lo = Some lo → p2 !! hi = Some hi →
    uf_ok (<[hi := lo]> p2) ∧ length (<[hi := lo]> p2) = length parent ∧ ∀ i j, (i < length parent)%nat → (j < length parent)%nat →
      same (<[hi := lo]> p2) i j ↔ same parent i j ∨ (rooted parent i lo ∧ rooted parent j hi) ∨ (rooted parent i hi ∧ rooted parent j lo)).
  { intros lo hi Hlt Hlo Hhi. split_and!; [|by rewrite length_insert|].
    - intros x q. destruct (decide (x = hi)) as [->|]; [rewrite list_lookup_insert_eq by (eapply lookup_lt_Some; done); intros [= <-]; lia|].
      rewrite list_lookup_insert_ne by done. apply Hok2.
    - intros i j Hi Hj. rewrite link_same by (done || lia). by rewrite Hs, !(same_roots_iff parent p2). }
  destruct (Nat.eqb_spec ra rb) as [->|Hne]; [|destruct (Nat.ltb_spec ra rb)].
  - split_and!; [done|done|]. intros i j Hi Hj. rewrite Hs, !(Hwith _ _ a R1), !(Hwith _ _ b R2). split; [by left|]. intros [?|[[? ?]|[? ?]]]; [done|exists rb; done|exists rb; done].
  - destruct (Hlink ra rb) as (A & B & C); [done..|]. split_and!; [done|done|]. intros i j Hi Hj. rewrite (C i j) by done.
    by rewrite !(Hwith _ _ a R1), !(Hwith _ _ b R2).
  - destruct (Hlink rb ra) as (A & B & C); [lia|done..|]. split_and!; [done|done|]. intros i j Hi Hj. rewrite (C i j) by done.
    rewrite !(Hwith _ _ a R1), !(Hwith _ _ b R2). tauto.
Qed.

(** * Lemmas: groups *)

Lemma same_refl parent i : uf_ok parent → (i < length parent)%nat → same parent i i.
Proof. intros Hok Hi. destruct (rooted_exists parent i Hok Hi) as (r & Hr & _). by exists r. Qed.
Lemma same_sym parent i j : same parent i j → same parent j i.
Proof. intros (r & H1 & H2). by exists r. Qed.
Lemma same_trans parent i j k : same parent i j → same parent j k → same parent i k.
Proof. intros (r & H1 & H2) (r' & H3 & H4). exists r. split; [done|]. by rewrite (rooted_unique _ _ _ _ H2 H3). Qed.

(** Indices with a common atom among the occurrences [P]. *)
Definition share (P : nat → string → Prop) (i j : nat) : Prop := ∃ a, P i a ∧ P j a.
(** Roots are the classes of the atoms seen, and an owner has its atom. *)
Definition atoms_inv (n : nat) (P : nat → string → Prop) (st : gmap string nat * list nat) : Prop :=
  uf_ok st.2 ∧ length st.2 = n ∧ (∀ a j, st.1 !! a = Some j → P j a) ∧ (∀ i a, P i a → (i < n)%nat ∧ is_Some (st.1 !! a)) ∧
  ∀ i j, (i < n)%nat → (j < n)%nat → same st.2 i j ↔ rtc (share P) i j.
Lemma share_sym P : Symmetric (share P).
Proof. intros i j (a & H1 & H2). by exists a. Qed.
Lemma rtc_share_sym P i j : rtc (share P) i j → rtc (share P) j i.
Proof. induction 1 as [|i k j H _ IH]; [done|]. eapply rtc_r; [exact IH|by apply share_sym]. Qed.
Lemma rtc_share_mono (P Q : nat → string → Prop) i j : (∀ k a, P k a → Q k a) → rtc (share P) i j → rtc (share Q) i j.
Proof. intros H. apply rtc_subrel. intros x y (a & H1 & H2). exists a. auto. Qed.
(** A relation of the union-find that holds of linked indices holds along chains of them. *)
Lemma rtc_same parent n (P : nat → string → Prop) :
  uf_ok parent → length parent = n → (∀ i a, P i a → (i < n)%nat) → (∀ i j, share P i j → same parent i j) →
  ∀ i j, (i < n)%nat → rtc (share P) i j → same parent i j.
Proof.
  intros Hok Hl Hb Hs i j Hi Hr. induction Hr as [i|i k j (a & H1 & H2) _ IH]; [apply same_refl; [done|lia]|].
  eapply same_trans; [apply Hs; by exists a|]. apply IH. by eapply Hb.
Qed.
Lemma atom_step_inv n P st i a :
  (i < n)%nat → atoms_inv n P st → atoms_inv n (λ k b, P k b ∨ (k = i ∧ b = a)) (atom_step i st a).
Proof.
  intros Hi (H1 & H2 & H3 & H4 & H5). destruct st as [owner parent]. cbn [fst snd] in *. unfold atom_step. cbn [fst snd].
  set (P' := λ k b, P k b ∨ (k = i ∧ b = a)). assert (Hb : ∀ k b, P' k b → (k < n)%nat) by (intros k b [Hp|[-> _]]; [by eapply H4|done]).
  assert (Hmono : ∀ k b, P k b → P' k b) by (intros; by left).
  destruct (owner !! a) as [j|] eqn:E.
  - pose proof (H3 _ _ E) as Hj. assert (Hjn : (j < n)%nat) by (by eapply H4). destruct (union_spec parent i j H1) as (U1 & U2 & U3); [lia|lia|].
    assert (Hij : share P' i j) by (exists a; split; [by right|by left]).
    split_and!; cbn [fst snd]; [done|lia|by intros b k Hk; left; apply H3| |].
    + intros k b [Hp|[-> ->]]; [by apply H4|by split; [|exists j]].
    + intros x y Hx Hy. split.
      * rewrite U3 by lia. intros [Hs|[[Hx' Hy']|[Hx' Hy']]].
        -- eapply rtc_share_mono; [exact Hmono|]. by apply H5.
        -- etrans; [eapply rtc_share_mono; [exact Hmono|]; apply H5; [done| |exact Hx']; done|]. eapply rtc_l; [exact Hij|].
           apply rtc_share_sym. eapply rtc_share_mono; [exact Hmono|]. by apply H5.
        -- etrans; [eapply rtc_share_mono; [exact Hmono|]; apply H5; [done| |exact Hx']; done|]. eapply rtc_l; [apply share_sym, Hij|].
           apply rtc_share_sym. eapply rtc_share_mono; [exact Hmono|]. by apply H5.
      * apply (rtc_same _ n P'); [done|lia|done| |done]. intros k l (b & Hk & Hl). pose proof (Hb _ _ Hk). pose proof (Hb _ _ Hl).
        apply U3; [lia|lia|]. destruct Hk as [Hk|[-> ->]], Hl as [Hl|[-> Hl]].
        -- left. apply H5; [done|done|]. apply rtc_once. by exists b.
        -- subst b. right. right. split; [apply H5; [done|done|]; apply rtc_once; by exists a|apply same_refl; [done|lia]].
        -- right. left. split; [apply same_refl; [done|lia]|]. apply H5; [done|done|]. apply rtc_once. by exists a.
        -- left. apply same_refl; [done|lia].
  - split_and!; cbn [fst snd]; [done|done| | |].
    + intros b k [[<- <-]|[_ Hk]]%lookup_insert_Some; [by right|left; by apply H3].
    + intros k b [Hp|[-> ->]]; [split; [by eapply H4|]|split; [done|by rewrite lookup_insert_eq]].
      apply H4 in Hp as [_ ?]. destruct (decide (b = a)) as [->|]; [by rewrite lookup_insert_eq|by rewrite lookup_insert_ne].
    + intros x y Hx Hy. rewrite H5 by done. split; [apply rtc_share_mono; done|].
      intros Hr. apply H5; [done|done|]. revert Hr. apply (rtc_same _ n P'); [done|lia|done| |done].
      intros k l (b & Hk & Hl). pose proof (Hb _ _ Hk). pose proof (Hb _ _ Hl).
      assert (Hno : ∀ m, ¬ P m a) by (intros m [_ [? Hm]]%H4; congruence).
      destruct Hk as [Hk|[-> ->]], Hl as [Hl|[-> Hl]]; [apply H5; [done|done|]; apply rtc_once; by exists b| | |apply same_refl; [done|lia]].
      * subst b. by destruct (Hno k).
      * by destruct (Hno l).
Qed.
Lemma atoms_inv_ext n (P Q : nat → string → Prop) st : (∀ i a, P i a ↔ Q i a) → atoms_inv n P st → atoms_inv n Q st.
Proof.
  intros He (H1 & H2 & H3 & H4 & H5). split_and!; [done|done|intros a j Hj; by apply He, H3|intros i a Hi; by apply H4, He|].
  intros i j Hi Hj. rewrite H5 by done. split; apply rtc_share_mono; intros k a; apply He.
Qed.
Lemma atoms_loop n i atoms P st :
  (i < n)%nat → atoms_inv n P st → atoms_inv n (λ k b, P k b ∨ (k = i ∧ b ∈ atoms)) (foldl (atom_step i) st atoms).
Proof.
  intros Hi. revert P st. induction atoms as [|a atoms IH]; intros P st H; cbn [foldl].
  - eapply atoms_inv_ext; [|exact H]. intros k b. rewrite elem_of_nil. tauto.
  - eapply atoms_inv_ext; [|apply (IH _ _ (atom_step_inv n P st i a Hi H))]. intros k b. cbn beta. rewrite elem_of_cons. tauto.
Qed.
(** The atoms of the facts of a list, by index. *)
Definition has_atom (V : list Fact) (i : nat) (a : string) : Prop := ∃ f, V !! i = Some f ∧ a ∈ keys_of f.
Lemma facts_loop n V done_ st :
  (length done_ + length V <= n)%nat → atoms_inv n (has_atom done_) st →
  atoms_inv n (has_atom (done_ ++ V)) (foldl fact_step st (imap (λ k, pair (length done_ + k)%nat) V)).
Proof.
  revert done_ st. induction V as [|f V IH]; intros dn st Hn H; cbn [imap foldl]; [by rewrite app_nil_r|].
  cbn [length] in Hn. replace (dn ++ f :: V) with ((dn ++ [f]) ++ V) by (by rewrite <- app_assoc).
  replace (imap (compose (λ k, pair (length dn + k)%nat) S) V) with (imap (λ k, pair (length (dn ++ [f]) + k)%nat) V).
  2: { apply imap_ext. intros k x _. cbn. rewrite length_app. cbn. f_equal. lia. }
  apply IH; [rewrite length_app; cbn; lia|]. unfold fact_step. cbn [fst snd]. rewrite Nat.add_0_r.
  eapply atoms_inv_ext; [|apply (atoms_loop n (length dn) (keys_of f) (has_atom dn) st); [lia|exact H]]. intros i a. cbn beta. unfold has_atom. split.
  - intros [(g & Hg & Ha)|[-> Ha]]; [exists g; split; [by apply lookup_app_l_Some|done]|]. exists f. by rewrite list_lookup_middle.
  - intros (g & [Hg|[Hl Hg]]%lookup_app_Some & Ha); [left; by exists g|]. right.
    apply list_lookup_singleton_Some in Hg as [? ->]. split; [lia|done].
Qed.
Lemma linked_spec V :
  uf_ok (linked V) ∧ length (linked V) = length V ∧
  ∀ i j, (i < length V)%nat → (j < length V)%nat → same (linked V) i j ↔ rtc (share (has_atom V)) i j.
Proof.
  unfold linked. pose proof (facts_loop (length V) V [] (∅, seq 0 (length V))) as H. cbn [length app] in H.
  destruct H as (H1 & H2 & _ & _ & H5); [lia| |done].
  split_and!; cbn [fst snd].
  - intros i p Hp. apply lookup_seq in Hp as [-> Hp]. lia.
  - apply length_seq.
  - intros a j. by rewrite lookup_empty.
  - intros i a (f & Hf & _). done.
  - intros i j Hi Hj. split.
    + intros (r & H1 & H2). assert (Hr : ∀ x s, rooted (seq 0 (length V)) x s → x = s).
      { intros x s Hx. destruct Hx as [|x q s Hq Hlt _]; [done|]. apply lookup_seq in Hq as [-> _]. lia. }
      rewrite (Hr _ _ H1), (Hr _ _ H2). done.
    + intros Hr. destruct Hr as [|i k j (a & (f & Hf & _) & _)]; [|done]. exists x. split; constructor; apply lookup_seq; lia.
Qed.

(** The facts of each root, in order; halving along the way moves no root. *)
Definition class (parent : list nat) (V : list Fact) (r : nat) : list string :=
  map (λ p : nat * Fact, f_ID p.2) (List.filter (λ p, (find parent p.1).2 =? r)%nat (imap pair V)).
Lemma find_root parent i r : uf_ok parent → (i < length parent)%nat → (find parent i).2 = r ↔ rooted parent i r.
Proof.
  intros Hok Hi. destruct (uf_find_spec (S i) parent i Hok Hi) as [_ R]; [lia|]. split; [by intros <-|].
  intros H. by eapply rooted_unique.
Qed.
Lemma map_values_app (m : gmap nat (list string)) r x :
  concat (map_to_list (<[r := default [] (m !! r) ++ [x]]> m)).*2 ≡ₚ concat (map_to_list m).*2 ++ [x].
Proof.
  destruct (m !! r) as [l|] eqn:E; cbn [default from_option].
  - rewrite <- insert_delete_eq, map_to_list_insert by apply lookup_delete_eq.
    rewrite <- (map_to_list_delete m r l E). cbn. rewrite <- !app_assoc. apply Permutation_app_head, Permutation_app_comm.
  - rewrite map_to_list_insert by done. cbn. apply Permutation_cons_append.
Qed.
Definition members_inv (parent : list nat) (V : list Fact) (st : gmap nat (list string) * list nat) : Prop :=
  same_roots parent st.2 ∧ (∀ r, default [] (st.1 !! r) = class parent V r) ∧ (∀ r, st.1 !! r ≠ Some []) ∧
  concat (map_to_list st.1).*2 ≡ₚ map f_ID V.
Lemma member_step_inv parent V f st :
  uf_ok parent → (length V < length parent)%nat → members_inv parent V st →
  members_inv parent (V ++ [f]) (member_step st (length V, f)).
Proof.
  intros Hok Hl (H1 & H2 & H3 & H4). destruct st as [m p]. cbn [fst snd] in *. unfold member_step. cbn [fst snd]. pose proof H1 as (Hok' & Hl' & _).
  destruct (uf_find_spec (S (length V)) p (length V) Hok') as [S1 R1]; [lia|lia|]. unfold find. destruct (uf_find _ p (length V)) as [p' root].
  cbn [fst snd] in *. apply (same_roots_iff parent p _ _ Hok H1) in R1. split_and!; cbn [fst snd].
  - by eapply same_roots_trans.
  - intros r. unfold class. rewrite imap_app, List.filter_app, map_app. cbn [imap List.filter compose]. rewrite Nat.add_0_r. fold (class parent V r).
    cbn [fst]. destruct (Nat.eqb_spec (find parent (length V)).2 r) as [E|E].
    + apply (find_root parent) in E; [|done|done]. rewrite (rooted_unique _ _ _ _ E R1). rewrite lookup_insert_eq. cbn. by rewrite H2.
    + rewrite lookup_insert_ne; [cbn; by rewrite app_nil_r|]. intros ->. apply E. by apply find_root.
  - intros r. destruct (decide (r = root)) as [->|]; [rewrite lookup_insert_eq; by destruct (default _ _)|by rewrite lookup_insert_ne].
  - rewrite map_values_app, H4. by rewrite map_app.
Qed.
Lemma members_spec V :
  members_inv (linked V) V (foldl member_step (∅, linked V) (imap pair V)).
Proof.
  destruct (linked_spec V) as (Hok & Hl & _). set (parent := linked V) in *.
  assert (H : ∀ todo dn st, (length dn + length todo <= length parent)%nat → members_inv parent dn st →
    members_inv parent (dn ++ todo) (foldl member_step st (imap (λ k, pair (length dn + k)%nat) todo))).
  { induction todo as [|f todo IH]; intros dn st Hn Hst; cbn [imap foldl]; [by rewrite app_nil_r|]. cbn [length] in Hn.
    replace (dn ++ f :: todo) with ((dn ++ [f]) ++ todo) by (by rewrite <- app_assoc).
    replace (imap (compose (λ k, pair (length dn + k)%nat) S) todo) with (imap (λ k, pair (length (dn ++ [f]) + k)%nat) todo).
    2: { apply imap_ext. intros k x _. cbn. rewrite length_app. cbn. f_equal. lia. }
    apply IH; [rewrite length_app; cbn; lia|]. rewrite Nat.add_0_r. apply member_step_inv; [done|lia|done]. }
  apply (H V [] (∅, parent)); [cbn; lia|]. split_and!; cbn [fst snd]; [done|done|by intros r; rewrite lookup_empty|by rewrite map_to_list_empty].
Qed.

(** Sorting by a string key. *)
Lemma sort_by_key_sorted {A} (key : A → string) l :
  StronglySorted (λ a b, str_lt (key b) (key a) = false) (sort_slice (λ a b, str_lt (key a) (key b)) l).
Proof.
  apply (sort_slice_sorted _ (λ _, True)); [|intros x y z _ _ _ H1 H2|by apply Forall_true].
  - intros x y _ _ Hxy. apply not_true_iff_false. intros Hyx. pose proof (str_lt_trans _ _ _ Hxy Hyx) as Hc. by rewrite str_lt_irrefl in Hc.
  - by apply (str_le_trans _ (key y)).
Qed.
Lemma sorted_strict {A} (key : A → string) l :
  NoDup (map key l) → StronglySorted (λ a b, str_lt (key b) (key a) = false) l → StronglySorted (λ a b, str_lt (key a) (key b) = true) l.
Proof.
  intros Hnd Hs. induction Hs as [|x l Hs IH Hf]; [constructor|]. cbn in Hnd. apply NoDup_cons in Hnd as [Hn Hnd]. constructor; [by apply IH|].
  rewrite Forall_forall in *. intros y Hy. specialize (Hf y Hy). cbn in Hf. destruct (str_lt_total (key x) (key y)) as [|[E|]]; [done| |congruence].
  destruct Hn. rewrite E. change map with (@fmap list _). by apply list_elem_of_fmap_2.
Qed.
Lemma sort_by_key_strict {A} (key : A → string) l :
  NoDup (map key l) → StronglySorted (λ a b, str_lt (key a) (key b) = true) (sort_slice (λ a b, str_lt (key a) (key b)) l).
Proof.
  intros Hnd. apply sorted_strict; [|apply sort_by_key_sorted]. change map with (@fmap list _) in *. by rewrite sort_slice_perm.
Qed.

(** Dedupe keeps the first fact of each identity. *)
Definition first_of (l : list Fact) (g : Fact) : Prop :=
  ∃ i f, l !! i = Some f ∧ g = normalised f ∧ ∀ j h, (j < i)%nat → l !! j = Some h → f_ID h ≠ f_ID f.
Definition dedupe_inv (l : list Fact) (st : list string * list Fact * nat) : Prop :=
  NoDup (map f_ID st.1.2) ∧ (∀ g, g ∈ st.1.2 ↔ first_of l g) ∧ (st.2 + length st.1.2 = length l)%nat.
Lemma facts_dedupe_spec facts :
  NoDup (map f_ID (Dedupe facts).1) ∧ StronglySorted (λ a b, str_lt (f_ID a) (f_ID b) = true) (Dedupe facts).1 ∧
  (∀ g, g ∈ (Dedupe facts).1 ↔ first_of facts g) ∧
  ((Dedupe facts).2 + length (Dedupe facts).1 = length facts)%nat.
Proof.
  unfold Dedupe.
  assert (H : ∀ todo dn seen out dups, (∀ x, x ∈ seen ↔ x ∈ map f_ID dn) → NoDup (map f_ID out) → (∀ x, x ∈ map f_ID out ↔ x ∈ seen) →
    (∀ g, g ∈ out ↔ first_of dn g) →
    (dups + length out = length dn)%nat →
    dedupe_inv (dn ++ todo) (foldl dedupe_step (seen, out, dups) todo)).
  { induction todo as [|f todo IH]; intros dn seen out dups Hseen Hnd Hids Hout Hlen; cbn [foldl]; [by rewrite app_nil_r|].
    replace (app dn (f :: todo)) with ((dn ++ [f]) ++ todo) by (by rewrite <- app_assoc).
    assert (Hold : ∀ g, first_of (dn ++ [f]) g ↔ g ∈ out ∨ ((f_ID f ∉ seen) ∧ g = normalised f)).
    { intros g. rewrite Hout. split.
      - intros (i & h & Hi & -> & Hm). apply lookup_app_Some in Hi as [Hi|[Hl Hi]].
        + left. exists i, h. split_and!; [done|done|]. intros j k Hj Hk. apply (Hm j); [done|]. by apply lookup_app_l_Some.
        + right. apply list_lookup_singleton_Some in Hi as [? ->]. split; [|done]. rewrite Hseen. change map with (@fmap list _).
          intros (k & Hk & Hin)%list_elem_of_fmap. apply list_elem_of_lookup in Hin as [j Hj]. apply (Hm j k); [apply lookup_lt_Some in Hj; lia|by apply lookup_app_l_Some|done].
      - intros [(i & h & Hi & -> & Hm)|[Hn ->]].
        + exists i, h. split_and!; [by apply lookup_app_l_Some|done|]. intros j k Hj Hk. apply (Hm j); [done|].
          rewrite lookup_app_l in Hk; [done|]. apply lookup_lt_Some in Hi. lia.
        + exists (length dn), f. split_and!; [by rewrite list_lookup_middle|done|]. intros j k Hj Hk E. apply Hn. rewrite Hseen.
          rewrite lookup_app_l in Hk by done. rewrite <- E. change map with (@fmap list _). apply list_elem_of_fmap. exists k.
          split; [done|]. by eapply list_elem_of_lookup_2. }
    cbn [dedupe_step]. case_bool_decide as Hin.
    - apply IH; [|done|done| |rewrite length_app; cbn; lia].
      + intros x. rewrite map_app, elem_of_app, Hseen. cbn. rewrite list_elem_of_singleton. split; [by left|]. intros [?| ->]; [done|by apply Hseen].
      + intros g. rewrite Hold. split; [by left|]. intros [?|[? _]]; done.
    - apply IH; [| | | |rewrite !length_app; cbn; lia].
      + intros x. rewrite map_app, elem_of_app, elem_of_cons, Hseen. cbn. rewrite list_elem_of_singleton. tauto.
      + rewrite map_app. apply NoDup_app. split_and!; [done| |apply NoDup_singleton]. intros x Hx ->%list_elem_of_singleton. by apply Hids in Hx.
      + intros x. rewrite map_app, elem_of_app, Hids. cbn. rewrite list_elem_of_singleton, elem_of_cons. tauto.
      + intros g. rewrite elem_of_app, list_elem_of_singleton, Hold. tauto. }
  destruct (H facts [] [] [] 0%nat) as (Hnd & Hg & Hl); [done|apply NoDup_nil_2|done| |done|].
  { intros g. split; [by intros ?%not_elem_of_nil|]. by intros (i & f & ? & _). }
  cbn [app] in *. destruct (foldl _ _ facts) as [[seen out] dups]. cbn [fst snd] in *.
  assert (Hp : sort_slice id_less out ≡ₚ out) by apply sort_slice_perm. split_and!.
  - change map with (@fmap list _) in *. by rewrite Hp.
  - by apply (sort_by_key_strict f_ID).
  - intros g. by rewrite Hp.
  - by rewrite Hp.
Qed.

Lemma verified_NoDup facts : NoDup (map f_ID (verified_of facts)).
Proof.
  destruct (facts_dedupe_spec facts) as (H & _). unfold verified_of. change map with (@fmap list _) in *.
  eapply sublist_NoDup; [exact H|]. generalize (Dedupe facts).1. intros l.
  induction l as [|x l IH]; cbn; [constructor|]. destruct (f_Verified x); cbn; by constructor.
Qed.
Lemma map_index_inj (l : list Fact) i j f g : NoDup (map f_ID l) → l !! i = Some f → l !! j = Some g → f_ID f = f_ID g → i = j.
Proof.
  intros H Hi Hj E. apply (NoDup_lookup (map f_ID l) i j (f_ID f)); [done| |]; change map with (@fmap list _); rewrite list_lookup_fmap;
    [by rewrite Hi|rewrite Hj; cbn; by rewrite E].
Qed.
Lemma elem_of_class V r x :
  x ∈ class (linked V) V r ↔ ∃ i f, V !! i = Some f ∧ f_ID f = x ∧ rooted (linked V) i r.
Proof.
  destruct (linked_spec V) as (Hok & Hl & _). unfold class. change map with (@fmap list _). rewrite list_elem_of_fmap. split.
  - intros ([i f] & -> & Hin). apply list_elem_of_In, filter_In in Hin as [Hin Hr]. apply list_elem_of_In, elem_of_lookup_imap in Hin as (k & g & [= -> ->] & Hk).
    apply Nat.eqb_eq in Hr. cbn [fst] in Hr. exists k, g. split_and!; [done|done|]. apply find_root; [done|rewrite Hl; by eapply lookup_lt_Some|done].
  - intros (i & f & Hi & <- & Hr). exists (i, f). split; [done|]. apply list_elem_of_In, filter_In. split.
    + apply list_elem_of_In, elem_of_lookup_imap. by exists i, f.
    + apply Nat.eqb_eq. cbn [fst]. apply find_root; [done|rewrite Hl; by eapply lookup_lt_Some|done].
Qed.
(** Heads of disjoint lists differ. *)
Lemma NoDup_heads (l : list Group) :
  NoDup (concat (map gr_Members l)) → Forall (λ g, head (gr_Members g) = Some (gr_Representative g)) l → NoDup (map gr_Representative l).
Proof.
  intros Hnd. induction 1 as [|g l Hg Hl IH]; cbn in *; [constructor|]. apply NoDup_app in Hnd as (_ & Hd & Hnd). constructor; [|by apply IH].
  change map with (@fmap list _). intros (h & E & Hin)%list_elem_of_fmap. rewrite Forall_forall in Hl. specialize (Hl h Hin).
  apply (Hd (gr_Representative g)); [apply head_Some_elem_of; done|]. apply list_elem_of_In, in_concat. exists (gr_Members h).
  split; [apply in_map; by apply list_elem_of_In|]. apply list_elem_of_In. rewrite E. by apply head_Some_elem_of.
Qed.
Lemma concat_perm {A} (l l' : list (list A)) : l ≡ₚ l' → concat l ≡ₚ concat l'.
Proof. induction 1; cbn; [done|by f_equiv|by rewrite !app_assoc, (Permutation_app_comm y x)|by etrans]. Qed.
(** The chains of facts with a common key, and those of their indices. *)
Definition linked_by (V : list Fact) (f g : Fact) : Prop := f ∈ V ∧ g ∈ V ∧ ∃ k, k ∈ keys_of f ∧ k ∈ keys_of g.
Lemma chain_index V i j f g : NoDup (map f_ID V) → V !! i = Some f → V !! j = Some g → rtc (share (has_atom V)) i j ↔ rtc (linked_by V) f g.
Proof.
  intros Hnd Hi Hj. split.
  - intros H. revert f Hi. induction H as [|i k j (a & (f1 & Hf1 & Ha1) & (f2 & Hf2 & Ha2)) _ IH]; intros f Hi; simplify_eq; [done|].
    eapply rtc_l; [|by apply IH]. split_and!; [by eapply list_elem_of_lookup_2..|by exists a].
  - intros H. revert i Hi. induction H as [|f k g (H1 & H2 & a & Ha1 & Ha2) _ IH]; intros i Hi.
    + by rewrite (map_index_inj V i j _ _ Hnd Hi Hj eq_refl).
    + apply list_elem_of_lookup in H2 as [m Hm]. eapply rtc_l; [|by apply IH]. exists a. split; [by exists f|by exists k].
Qed.
Lemma groups_members V r l :
  (foldl member_step (∅, linked V) (imap pair V)).1 !! r = Some l ↔ l = class (linked V) V r ∧ l ≠ [].
Proof.
  destruct (members_spec V) as (_ & H2 & H3 & _). specialize (H2 r). specialize (H3 r). split.
  - intros E. rewrite E in *. cbn in H2. split; [done|]. by intros ->.
  - intros [-> Hn]. destruct (_ !! r) as [l'|]; cbn in H2; [by subst|]. by rewrite <- H2 in Hn.
Qed.

(** [C27] The verified facts of a list fall into the connected components of "share a provenance atom": every verified fact (the
    first of its identity) is in exactly one group, two are in the same group exactly when a chain of facts with a common atom
    links them, each group lists its members in order and is represented by the least, and the groups are in order. *)
Theorem groups_are_components facts :
  concat (map gr_Members (Groups facts)) ≡ₚ map f_ID (verified_of facts) ∧ NoDup (map f_ID (verified_of facts)) ∧
  Forall (λ g, StronglySorted str_le (gr_Members g) ∧ head (gr_Members g) = Some (gr_Representative g)) (Groups facts) ∧
  StronglySorted (λ a b, str_lt (gr_Representative a) (gr_Representative b) = true) (Groups facts) ∧
  ∀ f g, f ∈ verified_of facts → g ∈ verified_of facts →
    (∃ gr, gr ∈ Groups facts ∧ f_ID f ∈ gr_Members gr ∧ f_ID g ∈ gr_Members gr) ↔ rtc (linked_by (verified_of facts)) f g.
Proof.
  set (V := verified_of facts). pose proof (verified_NoDup facts) as Hnd. fold V in Hnd. destruct (linked_spec V) as (Hok & Hl & Hsame).
  destruct (members_spec V) as (_ & _ & _ & Hcat). unfold Groups. fold V. set (M := (foldl member_step _ _).1) in *.
  set (L := map (λ p : nat * list string, group_of p.2) (map_to_list M)).
  assert (HL : concat (map gr_Members L) ≡ₚ map f_ID V).
  { rewrite <- Hcat. unfold L. clear. induction (map_to_list M) as [|[r l] ms IH]; cbn; [done|]. by rewrite sort_strings_perm, IH. }
  assert (HG : concat (map gr_Members (sort_slice (λ a b, str_lt (gr_Representative a) (gr_Representative b)) L)) ≡ₚ map f_ID V).
  { rewrite <- HL. apply concat_perm. change map with (@fmap list _). by rewrite sort_slice_perm. }
  assert (HR : Forall (λ g, StronglySorted str_le (gr_Members g) ∧ head (gr_Members g) = Some (gr_Representative g)) L).
  { apply Forall_forall. unfold L. change map with (@fmap list _). intros g ((r & l) & -> & Hin)%list_elem_of_fmap.
    apply elem_of_map_to_list, groups_members in Hin as [_ Hne]. unfold group_of. cbn [snd gr_Members gr_Representative].
    split; [apply sort_strings_sorted|].
    pose proof (sort_strings_perm l) as Hp. destruct (sort_strings l); [by apply Permutation_nil in Hp|done]. }
  split_and!; [done|done|by rewrite sort_slice_perm| |].
  - apply (sort_by_key_strict gr_Representative). apply NoDup_heads; [by rewrite HL|].
    eapply Forall_impl; [exact HR|]. by intros g [_ ?].
  - intros f g Hf Hg. apply list_elem_of_lookup in Hf as [i Hi], Hg as [j Hj].
    rewrite <- (chain_index V i j f g), <- Hsame by (done || by eapply lookup_lt_Some). split.
    + intros (gr & Hin & Hfm & Hgm). rewrite sort_slice_perm in Hin. unfold L in Hin. change map with (@fmap list _) in Hin.
      apply list_elem_of_fmap in Hin as ((r & l) & -> & Hin). apply elem_of_map_to_list, groups_members in Hin as [-> _]. cbn in Hfm, Hgm.
      rewrite sort_strings_perm in Hfm, Hgm. apply elem_of_class in Hfm as (i' & f' & Hi' & E1 & R1), Hgm as (j' & g' & Hj' & E2 & R2).
      rewrite <- (map_index_inj V i' i f' f Hnd Hi' Hi E1), <- (map_index_inj V j' j g' g Hnd Hj' Hj E2). by exists r.
    + intros (r & R1 & R2). exists (group_of (class (linked V) V r)).
      assert (Hm : ∀ k h, V !! k = Some h → rooted (linked V) k r → f_ID h ∈ gr_Members (group_of (class (linked V) V r))).
      { intros k h Hk Hr. cbn. rewrite sort_strings_perm. apply elem_of_class. by exists k, h. }
      split_and!; [|by eapply Hm|by eapply Hm]. rewrite sort_slice_perm. unfold L. change map with (@fmap list _).
      apply list_elem_of_fmap. exists (r, class (linked V) V r). split; [done|]. apply elem_of_map_to_list, groups_members. split; [done|].
      intros E. specialize (Hm i f Hi R1). rewrite E in Hm. by apply not_elem_of_nil in Hm.
Qed.
