(* ===== verification/StructuralRegions.v ===== *)
(** Package structuralconfluence, regions: the price intervals enough independent structures support, whatever order they came in. *)
From S2P Require Import Prelude Float64 Market StructuralFacts.
From S2P Require TechniqueBars.
From Stdlib Require Import Floats.

(** * region.go *)

Definition NoCutoff : Z := 2 ^ 63 - 1.
Definition RejectSingleIndependentOrigin : string := "single_independent_origin".
Definition RejectOverlapTooNarrow : string := "overlap_too_narrow".
Definition RejectProvenanceUnverified : string := "provenance_unverified".
Definition RejectNotYetAvailable : string := "structure_not_yet_available".

Record Params := mkParams { MinimumFacts : Z; MinimumWidth : float }.
Record Segment := mkSegment { sg_Low : float; sg_High : float; sg_Active : list string; sg_Groups : Z }.
Record Region := mkRegion {
  rg_Side : string; rg_Low : float; rg_High : float; rg_Support : list string; rg_Groups : list Group; rg_MinGroups : Z;
  rg_Segments : list Segment; rg_EpisodeID : string
}.
Definition Width (r : Region) : float := (rg_High r - rg_Low r)%float.
Definition Contains (r : Region) (price : float) : bool := (price >=? rg_Low r)%float && (price <=? rg_High r)%float.
Record Reject := mkReject { rj_Reason : string; rj_Low : float; rj_High : float; rj_FactIDs : list string }.

Definition uniqueSorted (l : list string) : list string := distinct None (sort_strings l).
Definition NUL : string := String Ascii.zero "".

(** The three cases of the switch over a fact of the side; a fact without width is in none. *)
Definition is_unverified (side : string) (f : Fact) : bool := bool_decide (f_Side f = side) && negb (f_Verified f).
Definition is_late (side : string) (asOf : Z) (f : Fact) : bool :=
  bool_decide (f_Side f = side) && f_Verified f && (f_AvailableAt f >? asOf)%Z.
Definition is_usable (side : string) (asOf : Z) (f : Fact) : bool :=
  bool_decide (f_Side f = side) && f_Verified f && negb (f_AvailableAt f >? asOf)%Z && (f_High f >? f_Low f)%float.
Definition usable (facts : list Fact) (side : string) (asOf : Z) : list Fact := List.filter (is_usable side asOf) (Dedupe facts).1.

Fixpoint distinct_floats (prev : option float) (l : list float) : list float :=
  match l with
  | [] => []
  | b :: rest =>
      if match prev with Some p => (b =? p)%float | None => false end then distinct_floats (Some b) rest
      else b :: distinct_floats (Some b) rest
  end.
Definition bounds_of (facts : list Fact) : list float :=
  distinct_floats None (TechniqueBars.sort_floats (concat (map (λ f, [f_Low f; f_High f]) facts))).

Record elementary := mkElementary { el_seg : Segment; el_qualify : bool; el_covering : list Fact }.
Definition covers (lo hi : float) (f : Fact) : bool := (f_Low f <=? lo)%float && (f_High f >=? hi)%float.
Definition elementary_of (facts : list Fact) (minimum : Z) (p : float * float) : option elementary :=
  let '(lo, hi) := p in
  match List.filter (covers lo hi) facts with
  | [] => None
  | cover =>
      let groups := Z.of_nat (length (Groups cover)) in
      Some (mkElementary (mkSegment lo hi (sort_strings (map f_ID cover)) groups) (groups >=? minimum)%Z cover)
  end.
Definition elementaries (facts : list Fact) (minimum : Z) : list elementary :=
  omap (elementary_of facts minimum) (zip (bounds_of facts) (tail (bounds_of facts))).

(** The elements that continue a run of quality [q] that ends at [high], and the others. *)
Fixpoint take_run (q : bool) (high : float) (l : list elementary) : list elementary * list elementary :=
  match l with
  | e :: rest =>
      if bool_decide (el_qualify e = q) && (sg_Low (el_seg e) =? high)%float
      then let '(run, rest) := take_run q (sg_High (el_seg e)) rest in (e :: run, rest)
      else ([], l)
  | [] => ([], [])
  end.
(** Every turn takes an element, so the number of elements is enough fuel. *)
Fixpoint split_runs (fuel : nat) (l : list elementary) : list (elementary * list elementary) :=
  match fuel, l with
  | S fuel, e :: rest => let '(run, rest) := take_run (el_qualify e) (sg_High (el_seg e)) rest in (e, run) :: split_runs fuel rest
  | _, _ => []
  end.
Definition runs (l : list elementary) : list (elementary * list elementary) := split_runs (length l) l.

Section regions.
(** The hexadecimal SHA-256 digest. *)
Context (hash : string → string).

Definition EpisodeID (side : string) (support : list string) : string :=
  "cz3:" +:+ side +:+ ":" +:+ String.substring 0 16 (hash (side +:+ NUL +:+ String.concat NUL (sort_strings support))).
Inductive outcome :=
  | Dropped
  | Rejected (r : Reject)
  | Confirmed (r : Region).
Definition run_low (run : elementary * list elementary) : float := sg_Low (el_seg run.1).
Definition run_high (run : elementary * list elementary) : float := sg_High (el_seg (List.last run.2 run.1)).
Definition run_active (run : elementary * list elementary) : list string := concat (map (λ e, sg_Active (el_seg e)) (run.1 :: run.2)).
Definition judge_run (side : string) (p : Params) (run : elementary * list elementary) : outcome :=
  let lo := run_low run in let hi := run_high run in let elems := run.1 :: run.2 in
  if negb (el_qualify run.1)
  then (if existsb (λ e, (2 <=? length (sg_Active (el_seg e)))%nat) elems
        then Rejected (mkReject RejectSingleIndependentOrigin lo hi (uniqueSorted (run_active run))) else Dropped)
  else
    let support := uniqueSorted (run_active run) in
    if negb (hi - lo >? MinimumWidth p)%float then Rejected (mkReject RejectOverlapTooNarrow lo hi support)
    else
      Confirmed (mkRegion side lo hi support (Groups (concat (map el_covering elems)))
        (foldl (λ m e, if (sg_Groups (el_seg e) <? m)%Z then sg_Groups (el_seg e) else m) (2 ^ 31 - 1)%Z elems)
        (map el_seg elems) (EpisodeID side support)).
Definition region_less (a b : Region) : bool :=
  if (rg_Low a <>? rg_Low b)%float then (rg_Low a <? rg_Low b)%float else (rg_High a <? rg_High b)%float.
Definition the_minimum (p : Params) : Z := if (MinimumFacts p <? 1)%Z then 1 else MinimumFacts p.
Definition judged (facts : list Fact) (side : string) (asOf : Z) (p : Params) : list outcome :=
  map (judge_run side p) (runs (elementaries (usable facts side asOf) (the_minimum p))).
Definition first_rejects (facts : list Fact) (side : string) (asOf : Z) : list Reject :=
  let all := (Dedupe facts).1 in
  let unverified := map f_ID (List.filter (is_unverified side) all) in
  let late := map f_ID (List.filter (is_late side asOf) all) in
  (match unverified with [] => [] | _ => [mkReject RejectProvenanceUnverified 0 0 unverified] end) ++
  (match late with [] => [] | _ => [mkReject RejectNotYetAvailable 0 0 late] end).
Definition Find (facts : list Fact) (side : string) (asOf : Z) (p : Params) : list Region * list Reject :=
  let outcomes := judged facts side asOf p in
  (sort_slice region_less (omap (λ o, match o with Confirmed r => Some r | _ => None end) outcomes),
   first_rejects facts side asOf ++ omap (λ o, match o with Rejected r => Some r | _ => None end) outcomes).
End regions.

(** * Lemmas: the bounds *)

Definition flt_lt (a b : float) : Prop := (a <? b)%float = true.
Definition number (x : float) : Prop := IsNaN x = false.
Lemma distinct_floats_spec l :
  Forall number l → StronglySorted (λ a b, (b <? a)%float = false) l → ∀ prev,
  match prev with Some p => number p ∧ Forall (λ b, (b <? p)%float = false) l | None => True end →
  Forall number (distinct_floats prev l) ∧ StronglySorted flt_lt (distinct_floats prev l) ∧
  match prev with Some p => Forall (flt_lt p) (distinct_floats prev l) | None => True end ∧
  (∀ b, b ∈ distinct_floats prev l → b ∈ l) ∧
  ∀ b, b ∈ l → (∃ c, c ∈ distinct_floats prev l ∧ key c = key b) ∨ match prev with Some p => key b = key p | None => False end.
Proof.
  intros Hn Hs. induction Hs as [|a l Hs IH Hf]; intros prev Hp; cbn [distinct_floats].
  { split_and!; [constructor|constructor|by destruct prev|done|]. by intros b ?%not_elem_of_nil. }
  apply Forall_cons in Hn as [Ha Hn]. specialize (IH Hn).
  destruct (IH (Some a)) as (N & S & L & I & C); [by split|]. set (d := distinct_floats (Some a) l) in *.
  assert (Hkeep : Forall number (a :: d) ∧ StronglySorted flt_lt (a :: d) ∧ (∀ b, b ∈ a :: d → b ∈ a :: l) ∧
    ∀ b, b ∈ a :: l → ∃ c, c ∈ a :: d ∧ key c = key b).
  { split_and!; [by constructor|by constructor| |].
    - intros b [-> | Hb]%elem_of_cons; [by left|right; by apply I].
    - intros b [-> | Hb]%elem_of_cons; [exists a; split; [by left|done]|]. destruct (C b Hb) as [(c & Hc & E)|E]; [exists c; split; [by right|done]|].
      exists a. split; [by left|done]. }
  destruct Hkeep as (K1 & K2 & K3 & K4). destruct prev as [p|]; [|split_and!; [done..|intros b Hb; left; by apply K4]].
  destruct Hp as [Hp Hlp]. apply Forall_cons in Hlp as [Hap Hlp].
  destruct (a =? p)%float eqn:E.
  - rewrite eqb_num in E by done. apply Z.eqb_eq in E. split_and!; [done|done| |intros b Hb; right; by apply I|].
    + eapply Forall_impl; [exact L|]. unfold flt_lt. cbn. intros c Hc. rewrite ltb_key in *. unfold number in *.
      rewrite Ha, Hp, E in *. done.
    + intros b [-> | Hb]%elem_of_cons; [by right|]. destruct (C b Hb) as [?| ->]; [by left|by right].
  - split_and!; [done|done| |done|intros b Hb; left; by apply K4].
    assert (Hpa : flt_lt p a). { unfold flt_lt. rewrite ltb_num, eqb_num in * by done. apply Z.ltb_ge in Hap. apply Z.eqb_neq in E. apply Z.ltb_lt. lia. }
    constructor; [done|]. rewrite Forall_forall in L, N |- *. intros c Hc. specialize (L c Hc). unfold flt_lt in *.
    rewrite ltb_num in * by (done || by apply N). apply Z.ltb_lt in L, Hpa. apply Z.ltb_lt. lia.
Qed.

Definition bounded (f : Fact) : Prop := number (f_Low f) ∧ number (f_High f).
Lemma usable_bounded facts side asOf f : f ∈ usable facts side asOf → bounded f ∧ flt_lt (f_Low f) (f_High f).
Proof.
  intros H. apply list_elem_of_In, filter_In in H as [_ H]. unfold is_usable in H. apply andb_true_iff in H as [_ H].
  pose proof H as H'. rewrite ltb_key in H'. apply andb_true_iff in H' as [H' _]. apply andb_true_iff in H' as [H1 H2].
  split; [split; by apply negb_true_iff|done].
Qed.
Lemma bounds_spec facts :
  Forall bounded facts →
  Forall number (bounds_of facts) ∧ StronglySorted flt_lt (bounds_of facts) ∧
  (∀ b, b ∈ bounds_of facts → ∃ f, f ∈ facts ∧ (b = f_Low f ∨ b = f_High f)) ∧
  ∀ f, f ∈ facts → (∃ c, c ∈ bounds_of facts ∧ key c = key (f_Low f)) ∧ (∃ c, c ∈ bounds_of facts ∧ key c = key (f_High f)).
Proof.
  intros Hb. set (l := concat (map (λ f, [f_Low f; f_High f]) facts)).
  assert (Hin : ∀ b, b ∈ l ↔ ∃ f, f ∈ facts ∧ (b = f_Low f ∨ b = f_High f)).
  { intros b. unfold l. rewrite list_elem_of_In, in_concat. split.
    - intros (x & Hx & Hbx). apply in_map_iff in Hx as (f & <- & Hf). exists f. split; [by apply list_elem_of_In|]. destruct Hbx as [|[|[]]]; auto.
    - intros (f & Hf & E). exists [f_Low f; f_High f]. split; [apply (in_map (λ f, [f_Low f; f_High f])); by apply list_elem_of_In|].
      destruct E as [-> | ->]; cbn; auto. }
  assert (Hn : Forall number (TechniqueBars.sort_floats l)).
  { unfold TechniqueBars.sort_floats. rewrite sort_slice_perm. apply Forall_forall. intros b (f & Hf & E)%Hin.
    rewrite Forall_forall in Hb. destruct (Hb f Hf). by destruct E as [-> | ->]. }
  destruct (distinct_floats_spec (TechniqueBars.sort_floats l) Hn) with (prev := @None float) as (N & S & _ & I & C); [|done|].
  { unfold TechniqueBars.sort_floats in *. rewrite sort_slice_perm in Hn. apply (sort_slice_sorted _ number); [| |done]; unfold number.
    - intros x y Hx Hy. rewrite !ltb_num by done. intros ?%Z.ltb_lt. apply Z.ltb_ge. lia.
    - intros x y z Hx Hy Hz. rewrite !ltb_num by done. intros H1%Z.ltb_ge H2%Z.ltb_ge. apply Z.ltb_ge. lia. }
  fold (bounds_of facts) in *. unfold bounds_of. fold l. split_and!; [done|done| |].
  - intros b Hb'. apply Hin. apply I in Hb'. unfold TechniqueBars.sort_floats in Hb'. by rewrite sort_slice_perm in Hb'.
  - assert (H : ∀ b, b ∈ l → ∃ c, c ∈ distinct_floats None (TechniqueBars.sort_floats l) ∧ key c = key b).
    { intros b Hb'. destruct (C b) as [?|[]]; [|done]. unfold TechniqueBars.sort_floats. by rewrite sort_slice_perm. }
    intros f Hf. split; apply H; apply Hin; exists f; auto.
Qed.

(** Two neighbours of the bounds, and what lies between them. *)
Definition neighbours (facts : list Fact) (lo hi : float) : Prop := (lo, hi) ∈ zip (bounds_of facts) (tail (bounds_of facts)).
Lemma zip_tail_split (l : list float) lo hi :
  Forall number l → StronglySorted flt_lt l → (lo, hi) ∈ zip l (tail l) →
  lo ∈ l ∧ hi ∈ l ∧ (key lo < key hi)%Z ∧ ∀ c, c ∈ l → (key c <= key lo)%Z ∨ (key hi <= key c)%Z.
Proof.
  intros Hn Hs. induction Hs as [|a l Hs IH Hf]; cbn; [by intros ?%not_elem_of_nil|]. apply Forall_cons in Hn as [Ha Hn].
  assert (Hlt : ∀ c, c ∈ l → (key a < key c)%Z).
  { intros c Hc. rewrite Forall_forall in Hf, Hn. specialize (Hf c Hc). unfold flt_lt in Hf. rewrite ltb_num in Hf by (done || by apply Hn). lia. }
  destruct l as [|b l]; cbn [zip_with]; [by intros ?%not_elem_of_nil|]. intros [[= -> ->]|H]%elem_of_cons.
  - split_and!; [by left|right; by left|apply Hlt; by left|]. intros c [-> | [-> | Hc]%elem_of_cons]%elem_of_cons; [lia|lia|].
    right. apply StronglySorted_inv in Hs as [_ Hs]. rewrite Forall_forall in Hs. specialize (Hs c Hc). unfold flt_lt in Hs. rewrite ltb_key in Hs. lia.
  - destruct (IH Hn H) as (H1 & H2 & H3 & H4). split_and!; [by right|by right|done|]. intros c [-> | Hc]%elem_of_cons; [|by apply H4].
    left. specialize (Hlt lo H1). lia.
Qed.
Lemma zip_tail_exists (l : list float) x a b :
  Forall number l → StronglySorted flt_lt l → a ∈ l → b ∈ l → (key a < key x < key b)%Z → (∀ c, c ∈ l → key c ≠ key x) →
  ∃ lo hi, (lo, hi) ∈ zip l (tail l) ∧ (key lo < key x < key hi)%Z.
Proof.
  intros Hn Hs. revert a b. induction Hs as [|c l Hs IH Hf]; intros a b Ha Hb Hx Hne; [by apply not_elem_of_nil in Ha|].
  apply Forall_cons in Hn as [Hc Hn].
  assert (Hlt : ∀ d, d ∈ l → (key c < key d)%Z).
  { intros d Hd. rewrite Forall_forall in Hf, Hn. specialize (Hf d Hd). unfold flt_lt in Hf. rewrite ltb_num in Hf by (done || by apply Hn). lia. }
  apply elem_of_cons in Hb as [-> | Hb].
  { exfalso. apply elem_of_cons in Ha as [-> | Ha]; [lia|]. specialize (Hlt _ Ha). lia. }
  destruct l as [|d l]; [by apply not_elem_of_nil in Hb|]. cbn [tail zip_with]. assert (Hd : key d ≠ key x) by (apply Hne; right; by left).
  destruct (decide (key x < key d)%Z) as [Hxd|Hxd].
  - exists c, d. split; [by left|]. split; [|lia]. apply elem_of_cons in Ha as [-> | Ha]; [lia|]. specialize (Hlt _ Ha). lia.
  - destruct (IH Hn d b) as (lo & hi & Hin & Hk); [by left|done|lia|intros e He; apply Hne; by right|]. exists lo, hi. split; [by right|done].
Qed.

(** The facts strictly over a price. *)
Definition over (x : float) (f : Fact) : bool := (f_Low f <? x)%float && (x <? f_High f)%float.
Definition off_bounds (facts : list Fact) (x : float) : Prop := number x ∧ ∀ f, f ∈ facts → key (f_Low f) ≠ key x ∧ key (f_High f) ≠ key x.
Lemma covers_over facts lo hi x :
  Forall bounded facts → neighbours facts lo hi → number x → (key lo < key x < key hi)%Z →
  List.filter (covers lo hi) facts = List.filter (over x) facts.
Proof.
  intros Hb Hz Hx Hk. destruct (bounds_spec facts Hb) as (N & S & I & C). destruct (zip_tail_split _ _ _ N S Hz) as (H1 & H2 & H3 & H4).
  apply filter_ext_in. intros f Hf. apply list_elem_of_In in Hf. destruct (C f Hf) as [(c & Hc & Ec) (d & Hd & Ed)].
  rewrite Forall_forall in Hb. rewrite Forall_forall in N. destruct (Hb f Hf) as [B1 B2]. specialize (H4 c Hc) as Hc4. specialize (H4 d Hd) as Hd4.
  unfold covers, over. rewrite !leb_num, !ltb_num by (done || by apply N).
  destruct (Z.leb_spec (key (f_Low f)) (key lo)), (Z.ltb_spec (key (f_Low f)) (key x)), (Z.leb_spec (key hi) (key (f_High f))),
    (Z.ltb_spec (key x) (key (f_High f))); cbn; try done; lia.
Qed.

(** * Lemmas: the elementary intervals *)

Definition el_low (e : elementary) : float := sg_Low (el_seg e).
Definition el_high (e : elementary) : float := sg_High (el_seg e).
Lemma elementaries_spec facts minimum e :
  Forall bounded facts → e ∈ elementaries facts minimum →
  number (el_low e) ∧ number (el_high e) ∧ (key (el_low e) < key (el_high e))%Z ∧ el_covering e ≠ [] ∧
  sg_Active (el_seg e) = sort_strings (map f_ID (el_covering e)) ∧ sg_Groups (el_seg e) = Z.of_nat (length (Groups (el_covering e))) ∧
  el_qualify e = (sg_Groups (el_seg e) >=? minimum)%Z ∧ neighbours facts (el_low e) (el_high e) ∧
  ∀ x, number x → (key (el_low e) < key x < key (el_high e))%Z → el_covering e = List.filter (over x) facts.
Proof.
  intros Hb (p & Hp & He)%list_elem_of_omap. destruct p as [lo hi]. unfold elementary_of in He.
  destruct (bounds_spec facts Hb) as (N & S & I & C). destruct (zip_tail_split _ _ _ N S Hp) as (H1 & H2 & H3 & _). rewrite Forall_forall in N.
  destruct (List.filter (covers lo hi) facts) as [|c cs] eqn:E; [done|]. injection He as <-. cbn [el_low el_high el_seg sg_Low sg_High el_covering sg_Active sg_Groups el_qualify].
  split_and!; [by apply N|by apply N|done|done|done|done|done|done|]. intros x Hx Hk. rewrite <- E. by apply covers_over.
Qed.
Lemma elementary_cover facts minimum e : e ∈ elementaries facts minimum → el_covering e = List.filter (covers (el_low e) (el_high e)) facts.
Proof.
  intros ([lo hi] & _ & He)%list_elem_of_omap. unfold elementary_of in He. destruct (List.filter (covers lo hi) facts) as [|c cs] eqn:E; [done|].
  injection He as <-. cbn [el_low el_high el_seg sg_Low sg_High el_covering]. by rewrite E.
Qed.
Lemma elementary_exists facts minimum x :
  Forall bounded facts → off_bounds facts x → List.filter (over x) facts ≠ [] →
  ∃ e, e ∈ elementaries facts minimum ∧ (key (el_low e) < key x < key (el_high e))%Z ∧ el_covering e = List.filter (over x) facts.
Proof.
  intros Hb [Hx Hoff] Hne. destruct (bounds_spec facts Hb) as (N & S & I & C).
  destruct (List.filter (over x) facts) as [|f fs] eqn:E; [done|].
  assert (Hf : f ∈ facts ∧ over x f = true). { rewrite !list_elem_of_In, <- filter_In, E. by left. }
  destruct Hf as [Hf Ho]. destruct (C f Hf) as [(a & Ha & Ea) (b & Hb' & Eb)]. unfold over in Ho. rewrite !ltb_key in Ho.
  destruct (zip_tail_exists (bounds_of facts) x a b) as (lo & hi & Hz & Hk); [done..|lia| |].
  { intros c Hc. destruct (I c Hc) as (g & Hg & [-> | ->]); by apply Hoff. }
  pose proof (covers_over facts lo hi x Hb Hz Hx Hk) as Hcov. rewrite E in Hcov.
  eexists. split; [|split].
  - apply list_elem_of_omap. exists (lo, hi). split; [exact Hz|]. unfold elementary_of. rewrite Hcov. reflexivity.
  - done.
  - done.
Qed.

Definition precedes (a b : elementary) : Prop := (key (el_high a) <= key (el_low b))%Z.
Lemma elementaries_sorted facts minimum : Forall bounded facts → StronglySorted precedes (elementaries facts minimum).
Proof.
  intros Hb. destruct (bounds_spec facts Hb) as (N & S & _ & _). unfold elementaries. revert N S. generalize (bounds_of facts). intros l N S.
  assert (Hz : StronglySorted (λ p q : float * float, (key p.2 <= key q.1)%Z) (zip l (tail l))).
  { induction S as [|a l S IH Hf]; cbn; [constructor|]. apply Forall_cons in N as [Ha N]. destruct l as [|b l]; [constructor|].
    cbn [zip_with]. constructor; [by apply IH|]. apply Forall_forall. intros [lo hi] Hin. cbn [fst snd].
    destruct (zip_tail_split _ _ _ N S Hin) as (H1 & _ & _ & _). apply elem_of_cons in H1 as [-> | H1]; [done|].
    apply StronglySorted_inv in S as [_ Hlt]. rewrite Forall_forall in Hlt. specialize (Hlt lo H1). unfold flt_lt in Hlt. rewrite ltb_key in Hlt. lia. }
  assert (Hel : ∀ p e, elementary_of facts minimum p = Some e → el_low e = p.1 ∧ el_high e = p.2).
  { intros [lo hi] e. unfold elementary_of. destruct (List.filter _ facts); [done|]. by intros [= <-]. }
  induction Hz as [|p z Hz IH Hf]; cbn; [constructor|]. destruct (elementary_of facts minimum p) as [e|] eqn:E; [|done].
  constructor; [done|]. apply Forall_forall. intros e' (q & Hq & Eq)%list_elem_of_omap. rewrite Forall_forall in Hf. specialize (Hf q Hq).
  destruct (Hel _ _ E) as [_ E2], (Hel _ _ Eq) as [E1 _]. unfold precedes. by rewrite E2, E1.
Qed.

(** * Lemmas: runs *)

(** Each element of a run starts where the one before ends. *)
Fixpoint contiguous (high : float) (l : list elementary) : Prop :=
  match l with [] => True | e :: rest => (el_low e =? high)%float = true ∧ contiguous (el_high e) rest end.
Definition run_ok (run : elementary * list elementary) : Prop :=
  Forall (λ e, el_qualify e = el_qualify run.1) run.2 ∧ contiguous (el_high run.1) run.2.
Lemma take_run_spec q high l :
  (take_run q high l).1 ++ (take_run q high l).2 = l ∧ Forall (λ e, el_qualify e = q) (take_run q high l).1 ∧
  contiguous high (take_run q high l).1 ∧ (length (take_run q high l).2 <= length l)%nat.
Proof.
  revert high. induction l as [|e l IH]; intros high; cbn [take_run]; [done|]. case_bool_decide as Hq; cbn [andb]; [|split_and!; [done|done|done|done]].
  destruct (sg_Low (el_seg e) =? high)%float eqn:E; [|split_and!; done]. specialize (IH (sg_High (el_seg e))).
  destruct (take_run q (sg_High (el_seg e)) l) as [run rest]. cbn [fst snd] in *. destruct IH as (H1 & H2 & H3 & H4).
  split_and!; [cbn; by rewrite H1|by constructor|cbn; by split|cbn; lia].
Qed.
Lemma runs_spec l :
  concat (map (λ r : elementary * list elementary, r.1 :: r.2) (runs l)) = l ∧ Forall run_ok (runs l).
Proof.
  unfold runs. assert (H : ∀ n l, (length l <= n)%nat →
    concat (map (λ r : elementary * list elementary, r.1 :: r.2) (split_runs n l)) = l ∧ Forall run_ok (split_runs n l)); [|by apply H].
  clear l. induction n as [|n IH]; intros [|e l] Hn; cbn [split_runs]; [done|cbn in Hn; lia|done|].
  destruct (take_run_spec (el_qualify e) (sg_High (el_seg e)) l) as (H1 & H2 & H3 & H4). destruct (take_run _ _ l) as [run rest]. cbn [fst snd] in *.
  cbn in Hn. destruct (IH rest) as [H5 H6]; [lia|]. split; [cbn; by rewrite H5, H1|]. constructor; [by split|done].
Qed.
Definition el_ok (e : elementary) : Prop := number (el_low e) ∧ number (el_high e) ∧ (key (el_low e) < key (el_high e))%Z.
Lemma run_span e r :
  Forall el_ok (e :: r) → contiguous (el_high e) r →
  number (run_low (e, r)) ∧ number (run_high (e, r)) ∧
  (∀ d, d ∈ e :: r → (key (run_low (e, r)) <= key (el_low d))%Z ∧ (key (el_high d) <= key (run_high (e, r)))%Z) ∧
  ∀ x, (key (run_low (e, r)) < key x < key (run_high (e, r)))%Z → (∀ d, d ∈ e :: r → key (el_low d) ≠ key x ∧ key (el_high d) ≠ key x) →
    ∃ d, d ∈ e :: r ∧ (key (el_low d) < key x < key (el_high d))%Z.
Proof.
  unfold run_low, run_high. cbn [fst snd]. fold (el_low e). revert e. induction r as [|e' r IH]; intros e Hf Hc; apply Forall_cons in Hf as [(Hl & Hh & Hlt) Hf].
  - cbn [List.last]. fold (el_high e). split_and!; [done|done|by intros d ->%list_elem_of_singleton|]. intros x Hx _. exists e. split; [by left|done].
  - destruct Hc as [Heq Hc]. destruct (IH e' Hf Hc) as (H1 & H2 & H3 & H4).
    replace (List.last (e' :: r) e) with (List.last r e') by (clear; revert e e'; induction r; intros; cbn in *; [done|]; destruct r; done || naive_solver).
    rewrite eqb_num in Heq by done. apply Z.eqb_eq in Heq.
    assert (Hle : (key (el_low e') <= key (sg_High (el_seg (List.last r e'))))%Z).
    { destruct (H3 e') as [_ ?]; [by left|]. apply Forall_cons in Hf as [(_ & _ & ?) _]. lia. }
    split_and!; [done|done| |].
    + intros d [-> | Hd]%elem_of_cons; [split; lia|]. destruct (H3 d Hd). split; lia.
    + intros x Hx Hne. destruct (decide (key x < key (el_high e))%Z); [exists e; split; [by left|lia]|].
      destruct (Hne e) as [_ ?]; [by left|]. destruct (H4 x) as (d & Hd & Hk); [lia|intros d Hd; apply Hne; by right|]. exists d. split; [by right|done].
Qed.

Lemma distinct_sorted l : StronglySorted str_le l → ∀ prev,
  match prev with Some p => Forall (str_le p) l | None => True end →
  StronglySorted (λ a b, str_lt a b = true) (distinct prev l) ∧
  match prev with Some p => Forall (λ a, str_lt p a = true) (distinct prev l) | None => True end ∧
  ∀ a, a ∈ l ↔ a ∈ distinct prev l ∨ (a ∈ l ∧ prev = Some a).
Proof.
  induction 1 as [|a l Hs IH Hf]; intros prev Hp; cbn [distinct].
  { split_and!; [constructor|by destruct prev|]. intros a. split; [by intros ?%not_elem_of_nil|]. by intros [?|[? _]]. }
  destruct (IH (Some a) Hf) as (S & L & C). case_bool_decide as E.
  - subst prev. split_and!; [done|done|]. intros b. rewrite !elem_of_cons, (C b). split; [|naive_solver].
    intros [-> | [?|[? ?]]]; naive_solver.
  - assert (Hcons : ∀ b, b ∈ a :: l ↔ b ∈ a :: distinct (Some a) l). { intros b. rewrite !elem_of_cons, (C b). naive_solver. }
    split_and!; [by constructor| |intros b; rewrite (Hcons b); naive_solver]. destruct prev as [q|]; [|done]. apply Forall_cons in Hp as [Hq Hp].
    assert (Hqa : str_lt q a = true) by (apply str_le_lt in Hq as [?|?]; [done|congruence]). constructor; [done|].
    eapply Forall_impl; [exact L|]. cbn. intros b. by apply str_lt_trans.
Qed.
Lemma uniqueSorted_spec l : StronglySorted (λ a b, str_lt a b = true) (uniqueSorted l) ∧ ∀ a, a ∈ uniqueSorted l ↔ a ∈ l.
Proof.
  destruct (distinct_sorted (sort_strings l) (sort_strings_sorted l) None I) as (S & _ & C). split; [done|].
  intros a. unfold uniqueSorted. rewrite <- (sort_strings_perm l) at 2. rewrite (C a). naive_solver.
Qed.
Lemma fold_min_le {A} (k : A → Z) l m d : d ∈ l → (foldl (λ m e, if (k e <? m)%Z then k e else m) m l <= k d)%Z.
Proof.
  assert (H : ∀ l m, (foldl (λ m e, if (k e <? m)%Z then k e else m) m l <= m)%Z).
  { clear. intros l. induction l as [|e l IH]; intros m; cbn; [done|]. specialize (IH (if (k e <? m)%Z then k e else m)).
    destruct (Z.ltb_spec (k e) m); lia. }
  revert m. induction l as [|e l IH]; intros m; [by intros ?%not_elem_of_nil|]. intros [-> | Hd]%elem_of_cons; cbn; [|by apply IH].
  specialize (H l (if (k e <? m)%Z then k e else m)). destruct (Z.ltb_spec (k e) m); lia.
Qed.
Lemma first_rejects_reason facts side asOf :
  Forall (λ j, rj_Reason j = RejectProvenanceUnverified ∨ rj_Reason j = RejectNotYetAvailable) (first_rejects facts side asOf).
Proof. unfold first_rejects. apply Forall_app. split; (destruct (map f_ID _); constructor; [cbn; auto|constructor]). Qed.

(** * Theorems *)

Section region_theorems.
Context (hash : string → string) (facts : list Fact) (side : string) (asOf : Z) (p : Params).
Let U := usable facts side asOf.
Let E := elementaries U (the_minimum p).

Lemma U_bounded : Forall bounded U.
Proof. apply Forall_forall. intros f Hf. by apply (usable_bounded facts side asOf) in Hf as [? _]. Qed.
Lemma E_ok e : e ∈ E → el_ok e.
Proof. intros He. apply elementaries_spec in He as (H1 & H2 & H3 & _); [done|apply U_bounded]. Qed.
Lemma run_elements r : r ∈ runs E → Forall el_ok (r.1 :: r.2) ∧ (∀ d, d ∈ r.1 :: r.2 → d ∈ E ∧ el_qualify d = el_qualify r.1) ∧ contiguous (el_high r.1) r.2.
Proof.
  intros Hr. destruct (runs_spec E) as [Hc Hf]. rewrite Forall_forall in Hf. destruct (Hf r Hr) as [Hq Hcont].
  assert (Hin : ∀ d, d ∈ r.1 :: r.2 → d ∈ E).
  { intros d Hd. rewrite <- Hc. apply list_elem_of_In, in_concat. exists (r.1 :: r.2). split; [|by apply list_elem_of_In].
    apply in_map_iff. exists r. split; [done|]. by apply list_elem_of_In. }
  split_and!; [|intros d Hd; split; [by apply Hin|]|done].
  - apply Forall_forall. intros d Hd. by apply E_ok, Hin.
  - apply elem_of_cons in Hd as [-> | Hd]; [done|]. rewrite Forall_forall in Hq. by apply Hq.
Qed.
Lemma run_of_element e : e ∈ E → ∃ r, r ∈ runs E ∧ e ∈ r.1 :: r.2.
Proof.
  intros He. destruct (runs_spec E) as [Hc _]. rewrite <- Hc in He. apply list_elem_of_In, in_concat in He as (l & Hl & He).
  apply in_map_iff in Hl as (r & <- & Hr). exists r. split; by apply list_elem_of_In.
Qed.
(** A price inside a run lies in one of its elements, whose covering facts are those over the price. *)
Lemma run_at r x :
  r ∈ runs E → off_bounds U x → (key (run_low r) < key x < key (run_high r))%Z →
  ∃ d, d ∈ r.1 :: r.2 ∧ (key (el_low d) < key x < key (el_high d))%Z ∧ el_covering d = List.filter (over x) U.
Proof.
  intros Hr [Hx Hoff] Hk. destruct (run_elements r Hr) as (Hok & Hin & Hc). destruct r as [e r]. cbn [fst snd] in *.
  destruct (run_span e r Hok Hc) as (_ & _ & _ & Hex). destruct (Hex x Hk) as (d & Hd & Hkd).
  - intros d Hd. destruct (Hin d Hd) as [HE _]. apply elementaries_spec in HE as (_ & _ & _ & _ & _ & _ & _ & Hz & _); [|apply U_bounded].
    destruct (bounds_spec U U_bounded) as (N & S & I & _). destruct (zip_tail_split _ _ _ N S Hz) as (H1 & H2 & _).
    split; [destruct (I _ H1) as (f & Hf & [-> | ->])|destruct (I _ H2) as (f & Hf & [-> | ->])]; by apply Hoff.
  - exists d. split_and!; [done|lia..|]. destruct (Hin d Hd) as [HE _].
    apply elementaries_spec in HE as (_ & _ & _ & _ & _ & _ & _ & _ & Hcov); [by apply Hcov|apply U_bounded].
Qed.
Lemma inside_keys lo hi x : number lo → number hi → number x → (lo <? x)%float && (x <? hi)%float = true ↔ (key lo < key x < key hi)%Z.
Proof. unfold number. intros H1 H2 H3. rewrite !ltb_num by done. lia. Qed.
Lemma run_numbers r : r ∈ runs E → number (run_low r) ∧ number (run_high r).
Proof. intros Hr. destruct (run_elements r Hr) as (Hok & _ & Hc). destruct r as [e r]. by destruct (run_span e r Hok Hc) as (? & ? & _). Qed.
Lemma elem_of_regions g : g ∈ (Find hash facts side asOf p).1 ↔ ∃ r, r ∈ runs E ∧ judge_run hash side p r = Confirmed g.
Proof.
  unfold Find, judged. cbn [fst]. rewrite sort_slice_perm, list_elem_of_omap. fold U. fold E. change map with (@fmap list _). split.
  - intros (o & (r & -> & Hr)%list_elem_of_fmap & Ho). exists r. split; [done|]. destruct (judge_run hash side p r); by simplify_eq.
  - intros (r & Hr & Ho). exists (Confirmed g). split; [|done]. rewrite <- Ho. by apply list_elem_of_fmap_2.
Qed.
Lemma elem_of_narrow j :
  rj_Reason j = RejectOverlapTooNarrow → j ∈ (Find hash facts side asOf p).2 ↔ ∃ r, r ∈ runs E ∧ judge_run hash side p r = Rejected j.
Proof.
  intros Hj. unfold Find, judged. cbn [snd]. rewrite elem_of_app, list_elem_of_omap. fold U. fold E. change map with (@fmap list _). split.
  - intros [H|(o & (r & -> & Hr)%list_elem_of_fmap & Ho)]; [|exists r; split; [done|]; destruct (judge_run hash side p r); by simplify_eq].
    pose proof (first_rejects_reason facts side asOf) as Hf. rewrite Forall_forall in Hf. specialize (Hf j H). rewrite Hj in Hf. by destruct Hf.
  - intros (r & Hr & Ho). right. exists (Rejected j). split; [|done]. rewrite <- Ho. by apply list_elem_of_fmap_2.
Qed.
Lemma judge_qualify r :
  el_qualify r.1 = true →
  (∃ g, judge_run hash side p r = Confirmed g ∧ rg_Low g = run_low r ∧ rg_High g = run_high r ∧ rg_Segments g = map el_seg (r.1 :: r.2)) ∨
  (∃ j, judge_run hash side p r = Rejected j ∧ rj_Reason j = RejectOverlapTooNarrow ∧ rj_Low j = run_low r ∧ rj_High j = run_high r).
Proof. intros Hq. unfold judge_run. rewrite Hq. cbn [negb]. destruct (_ >? _)%float; cbn [negb]; [left|right]; by eexists. Qed.
Lemma judge_narrow r j : judge_run hash side p r = Rejected j → rj_Reason j = RejectOverlapTooNarrow → el_qualify r.1 = true ∧ rj_Low j = run_low r ∧ rj_High j = run_high r.
Proof.
  unfold judge_run. destruct (el_qualify r.1); cbn [negb].
  - destruct (_ >? _)%float; cbn [negb]; [done|]. by intros [= <-].
  - destruct (existsb _ _); [|done]. intros [= <-]. done.
Qed.
Lemma judge_confirmed r g : judge_run hash side p r = Confirmed g →
  el_qualify r.1 = true ∧ rg_Low g = run_low r ∧ rg_High g = run_high r ∧ rg_Segments g = map el_seg (r.1 :: r.2).
Proof. unfold judge_run. destruct (el_qualify r.1); cbn [negb]; [|destruct (existsb _ _); done]. destruct (_ >? _)%float; cbn [negb]; [|done]. by intros [= <-]. Qed.

(** [C26] At every price that is no bound of a usable fact, the price lies inside a confluence region, or inside an overlap rejected
    only for its width, exactly when the facts over that price come from at least the required number of independent sources. *)
Theorem regions_exact x :
  off_bounds U x →
  (the_minimum p <= Z.of_nat (length (Groups (List.filter (over x) U))))%Z ↔
  (∃ g, g ∈ (Find hash facts side asOf p).1 ∧ (rg_Low g <? x)%float && (x <? rg_High g)%float = true) ∨
  (∃ j, j ∈ (Find hash facts side asOf p).2 ∧ rj_Reason j = RejectOverlapTooNarrow ∧ (rj_Low j <? x)%float && (x <? rj_High j)%float = true).
Proof.
  intros Hoff. pose proof (proj1 Hoff) as Hx. assert (Hq : ∀ r, r ∈ runs E → el_qualify r.1 = true → (run_low r <? x)%float && (x <? run_high r)%float = true →
    (the_minimum p <= Z.of_nat (length (Groups (List.filter (over x) U))))%Z).
  { intros r Hr Hq Hk. destruct (run_numbers r Hr). apply inside_keys in Hk; [|done..]. destruct (run_at r x Hr Hoff Hk) as (d & Hd & _ & Hcov).
    destruct (run_elements r Hr) as (_ & Hin & _). destruct (Hin d Hd) as [HE Hdq].
    apply elementaries_spec in HE as (_ & _ & _ & _ & _ & Hg & Hqd & _); [|apply U_bounded]. rewrite <- Hcov, <- Hg. rewrite Hdq, Hq in Hqd. lia. }
  split.
  - intros Hm. assert (Hne : List.filter (over x) U ≠ []).
    { intros Hnil. rewrite Hnil in Hm. replace (Groups []) with (@nil Group) in Hm by reflexivity. unfold the_minimum in Hm. cbn [length] in Hm. destruct (Z.ltb_spec (MinimumFacts p) 1); lia. }
    destruct (elementary_exists U (the_minimum p) x U_bounded Hoff Hne) as (e & He & Hk & Hcov). destruct (run_of_element e He) as (r & Hr & Her).
    destruct (run_elements r Hr) as (Hok & Hin & Hc). destruct (Hin e Her) as [_ Hqe].
    pose proof (elementaries_spec U (the_minimum p) e U_bounded He) as (_ & _ & _ & _ & _ & Hg & Hqd & _).
    assert (Hqr : el_qualify r.1 = true) by (rewrite <- Hqe, Hqd, Hg, Hcov; lia).
    assert (Hins : (run_low r <? x)%float && (x <? run_high r)%float = true).
    { destruct (run_numbers r Hr). apply inside_keys; [done..|]. destruct r as [d r]. destruct (run_span d r Hok Hc) as (_ & _ & Hsp & _).
      destruct (Hsp e Her). lia. }
    destruct (judge_qualify r Hqr) as [(g & Hg' & E1 & E2 & _)|(j & Hj & E0 & E1 & E2)].
    + left. exists g. split; [apply elem_of_regions; by exists r|]. by rewrite E1, E2.
    + right. exists j. split_and!; [apply elem_of_narrow; [done|]; by exists r|done|]. by rewrite E1, E2.
  - intros [(g & Hg & Hk)|(j & Hj & Hr & Hk)].
    + apply elem_of_regions in Hg as (r & Hr & Hg). apply judge_confirmed in Hg as (Hqr & E1 & E2 & _). rewrite E1, E2 in Hk. by apply (Hq r).
    + apply elem_of_narrow in Hj as (r & Hr' & Hj); [|done]. destruct (judge_narrow r j Hj Hr) as (Hqr & E1 & E2). rewrite E1, E2 in Hk. by apply (Hq r).
Qed.

Lemma runs_sorted_aux (rs : list (elementary * list elementary)) :
  StronglySorted precedes (concat (map (λ r, r.1 :: r.2) rs)) → StronglySorted (λ a b, (key (run_high a) <= key (run_low b))%Z) rs.
Proof.
  induction rs as [|r rs IH]; intros H; [constructor|]. cbn [map concat] in H. apply StronglySorted_app in H as (Hx & _ & H).
  constructor; [by apply IH|]. apply Forall_forall. intros r' Hr'. apply (Hx (List.last r.2 r.1) r'.1).
  - clear. destruct r as [e r]. cbn [fst snd]. revert e. induction r as [|d r IH]; intros e; [by left|]. right.
    replace (List.last (d :: r) e) with (List.last r d); [apply IH|]. clear IH. revert d e. induction r as [|c r IH]; intros d e; [done|].
    cbn. destruct r; [done|]. apply (IH d e).
  - apply list_elem_of_In, in_concat. exists (r'.1 :: r'.2). split; [|by left]. apply (in_map (λ r, r.1 :: r.2)). by apply list_elem_of_In.
Qed.
Lemma StronglySorted_weaken {A} (R R' : A → A → Prop) l : (∀ a b, R a b → R' a b) → StronglySorted R l → StronglySorted R' l.
Proof. intros H. induction 1; constructor; [done|]. by eapply Forall_impl; eauto. Qed.
Lemma sort_slice_id {A} (less : A → A → bool) l : StronglySorted (λ a b, less b a = false) l → sort_slice less l = l.
Proof.
  induction 1 as [|x l Hs IH Hf]; [done|]. cbn. fold (sort_slice less l). rewrite IH. destruct l as [|y l]; [done|]. cbn.
  apply Forall_cons in Hf as [-> _]. done.
Qed.
Lemma regions_in_order :
  StronglySorted (λ a b, (rg_High a <=? rg_Low b)%float = true) (Find hash facts side asOf p).1.
Proof.
  destruct (runs_spec E) as [Hc _]. pose proof (elementaries_sorted U (the_minimum p) U_bounded) as Hs. fold E in Hs. rewrite <- Hc in Hs.
  apply runs_sorted_aux in Hs. unfold Find, judged. cbn [fst]. fold U. fold E. assert (Hin : ∀ r, r ∈ runs E → r ∈ runs E) by done. revert Hs Hin.
  generalize (runs E) at 1 2 4 as rs. intros rs Hs Hin.
  assert (H : StronglySorted (λ a b, (rg_High a <=? rg_Low b)%float = true ∧ region_less b a = false)
    (omap (λ o, match o with Confirmed r => Some r | _ => None end) (map (judge_run hash side p) rs))).
  { induction Hs as [|r rs Hs IH Hf]; cbn; [constructor|]. destruct (judge_run hash side p r) as [| |g] eqn:Eg; try (apply IH; intros; apply Hin; by right).
    constructor; [apply IH; intros; apply Hin; by right|]. apply Forall_forall. intros g' (o & Ho & Eo)%list_elem_of_omap.
    change map with (@fmap list _) in Ho. apply list_elem_of_fmap in Ho as (r' & -> & Hr'). destruct (judge_run hash side p r') as [| |g''] eqn:Eg'; [done|done|]. injection Eo as ->.
    rewrite Forall_forall in Hf. specialize (Hf r' Hr'). assert (Hr : r ∈ runs E) by (apply Hin; by left). assert (Hr2 : r' ∈ runs E) by (apply Hin; by right).
    apply judge_confirmed in Eg as (_ & E1 & E2 & _), Eg' as (_ & E3 & E4 & _). unfold region_less. rewrite E1, E2, E3, E4.
    destruct (run_numbers r Hr) as [N1 N2], (run_numbers r' Hr2) as [N3 N4]. rewrite leb_num by done.
    destruct (run_elements r Hr) as (Hok & _ & Hcont). destruct r as [e r]. destruct (run_span e r Hok Hcont) as (_ & _ & Hsp & _).
    destruct (Hsp e) as [Hlo Hhi]; [by left|]. apply Forall_cons in Hok as [(_ & _ & Hlt) _].
    rewrite eqb_num, ltb_num by done. cbn in Hlo, Hhi, Hlt. destruct (Z.eqb_spec (key (run_low r')) (key (run_low (e, r)))); cbn; lia. }
  rewrite sort_slice_id; (eapply StronglySorted_weaken; [|exact H]; by intros a b [? ?]).
Qed.

(** The regions of a side lie one after the other. Each is strictly wider than the minimum width and is a chain of contiguous
    segments from its low to its high, each of them supported by at least the required number of independent sources, which bounds
    the reported support from above; its supporting facts are those active in a segment, each once and in order, and name the episode. *)
Theorem regions_sound :
  StronglySorted (λ a b, (rg_High a <=? rg_Low b)%float = true) (Find hash facts side asOf p).1 ∧
  ∀ g, g ∈ (Find hash facts side asOf p).1 →
    (Width g >? MinimumWidth p)%float = true ∧ rg_Side g = side ∧
    (∃ first rest, rg_Segments g = map el_seg (first :: rest) ∧ contiguous (el_high first) rest ∧ rg_Low g = el_low first ∧
      rg_High g = el_high (List.last rest first)) ∧
    (∀ s, s ∈ rg_Segments g → (the_minimum p <= sg_Groups s)%Z ∧ (rg_MinGroups g <= sg_Groups s)%Z ∧ (sg_Low s <? sg_High s)%float = true ∧
      ∀ id, id ∈ sg_Active s ↔ ∃ f, f ∈ U ∧ covers (sg_Low s) (sg_High s) f = true ∧ f_ID f = id) ∧
    (∀ id, id ∈ rg_Support g ↔ ∃ s, s ∈ rg_Segments g ∧ id ∈ sg_Active s) ∧
    StronglySorted (λ a b, str_lt a b = true) (rg_Support g) ∧ rg_EpisodeID g = EpisodeID hash side (rg_Support g).
Proof.
  split; [apply regions_in_order|]. intros g Hg. apply elem_of_regions in Hg as (r & Hr & Hg).
  destruct (run_elements r Hr) as (Hok & Hin & Hc). unfold judge_run in Hg. destruct (el_qualify r.1) eqn:Hq; cbn [negb] in Hg; [|by destruct (existsb _ _)].
  destruct (run_high r - run_low r >? MinimumWidth p)%float eqn:Hw; cbn [negb] in Hg; [|done]. injection Hg as <-.
  destruct (uniqueSorted_spec (run_active r)) as [Hsort Hmem].
  cbn [Width rg_Low rg_High rg_Side rg_Segments rg_Support rg_EpisodeID rg_MinGroups]. split_and!; [done|done|by exists r.1, r.2| | |done|done].
  - intros s Hs. apply list_elem_of_In, (in_map_iff el_seg (r.1 :: r.2)) in Hs as (d & <- & Hd%list_elem_of_In). destruct (Hin d Hd) as [HE Hdq].
    pose proof HE as HE'. apply elementaries_spec in HE as (Hl & Hh & Hlt & Hne & Ha & Hgr & Hqd & Hz & Hcov); [|apply U_bounded].
    split_and!; [rewrite Hdq in Hqd; lia| |unfold el_low, el_high, number in *; rewrite ltb_num by done; lia|].
    + exact (fold_min_le (λ e, sg_Groups (el_seg e)) (r.1 :: r.2) _ d Hd).
    + intros id. apply elementary_cover in HE'. rewrite Ha, sort_strings_perm, HE'. change map with (@fmap list _). rewrite list_elem_of_fmap. split.
      * intros (f & -> & Hf). apply list_elem_of_In, filter_In in Hf as [Hf Hcf]. exists f. split_and!; [by apply list_elem_of_In|done|done].
      * intros (f & Hf & Hcf & <-). exists f. split; [done|]. apply list_elem_of_In, filter_In. split; [by apply list_elem_of_In|done].
  - intros id. rewrite Hmem. unfold run_active. rewrite list_elem_of_In, in_concat. split.
    + intros (l & Hl & Hid). apply in_map_iff in Hl as (d & <- & Hd). exists (el_seg d). split; [|by apply list_elem_of_In].
      apply list_elem_of_In. exact (in_map el_seg (r.1 :: r.2) d Hd).
    + intros (s & Hs & Hid). apply list_elem_of_In, (in_map_iff el_seg (r.1 :: r.2)) in Hs as (d & <- & Hd). exists (sg_Active (el_seg d)). split; [|by apply list_elem_of_In].
      exact (in_map (λ e, sg_Active (el_seg e)) (r.1 :: r.2) d Hd).
Qed.
End region_theorems.

(** * Which facts the regions depend on *)

(** Facts of one identity are one fact. *)
Definition consistent (l : list Fact) : Prop := ∀ f g, f ∈ l → g ∈ l → f_ID f = f_ID g → f = g.
Lemma first_of_consistent l g : consistent l → first_of l g ↔ ∃ f, f ∈ l ∧ g = normalised f.
Proof.
  intros Hc. split.
  - intros (i & f & Hi & -> & _). exists f. split; [by eapply list_elem_of_lookup_2|done].
  - intros (f & Hf & ->). apply list_elem_of_lookup in Hf as [i Hi]. revert f Hi. induction i as [i IH] using lt_wf_ind. intros f Hi.
    destruct (decide (Exists (λ h, f_ID h = f_ID f) (take i l))) as [Hex|Hno].
    + apply Exists_exists in Hex as (h & Hh & Eh). apply list_elem_of_lookup in Hh as [j Hj]. apply lookup_take_Some in Hj as [Hj Hlt].
      assert (h = f) as -> by (apply Hc; [by eapply list_elem_of_lookup_2|by eapply list_elem_of_lookup_2|done]). by apply (IH j).
    + exists i, f. split_and!; [done|done|]. intros j h Hj Hh E. apply Hno, Exists_exists. exists h. split; [|done].
      apply (list_elem_of_lookup_2 _ j). by apply lookup_take_Some.
Qed.
(** A list strictly sorted by identity is determined by its elements. *)
Lemma strictly_sorted_unique (l l' : list Fact) :
  StronglySorted (λ a b, str_lt (f_ID a) (f_ID b) = true) l → StronglySorted (λ a b, str_lt (f_ID a) (f_ID b) = true) l' →
  (∀ f, f ∈ l ↔ f ∈ l') → l = l'.
Proof.
  assert (Hnd : ∀ l, StronglySorted (λ a b, str_lt (f_ID a) (f_ID b) = true) l → NoDup l).
  { induction 1 as [|x k Hs IH Hf]; constructor; [|done]. intros Hx. rewrite Forall_forall in Hf. specialize (Hf x Hx). cbn in Hf. by rewrite str_lt_irrefl in Hf. }
  intros Hs Hs' Heq. apply (StronglySorted_unique_strong (λ a b, str_lt (f_ID a) (f_ID b) = true)); [|done|done|].
  - intros x y _ _ H1 H2. pose proof (str_lt_trans _ _ _ H1 H2) as Hc. by rewrite str_lt_irrefl in Hc.
  - apply NoDup_Permutation; auto.
Qed.
Lemma filter_strictly_sorted {A} (R : A → A → Prop) (t : A → bool) l : StronglySorted R l → StronglySorted R (List.filter t l).
Proof.
  induction 1 as [|x l Hs IH Hf]; cbn; [constructor|]. destruct (t x); [|done]. constructor; [done|].
  rewrite Forall_forall in *. intros y Hy. apply list_elem_of_In, filter_In in Hy as [Hy _]. apply Hf. by apply list_elem_of_In.
Qed.
Definition relevant (side : string) (asOf : Z) (f : Fact) : Prop := f_Side f = side ∧ f_Verified f = true ∧ (f_AvailableAt f <= asOf)%Z.
Lemma usable_relevant l l' side asOf :
  consistent l → consistent l' → (∀ f, relevant side asOf f → f ∈ l ↔ f ∈ l') → usable l side asOf = usable l' side asOf.
Proof.
  intros Hc Hc' Heq. unfold usable. destruct (facts_dedupe_spec l) as (_ & S & M & _), (facts_dedupe_spec l') as (_ & S' & M' & _).
  apply strictly_sorted_unique; [by apply filter_strictly_sorted..|]. intros g. rewrite !list_elem_of_In, !filter_In, <- !list_elem_of_In, M, M'.
  rewrite !first_of_consistent by done. split; intros [(f & Hf & ->) Hu]; (split; [|done]); exists f; (split; [|done]);
    apply Heq; try done; unfold is_usable in Hu; cbn in Hu; case_bool_decide; destruct (f_Verified f) eqn:Ev; try done; (split_and!; [done|done|]);
    destruct (Z.gtb_spec (f_AvailableAt f) asOf); cbn in Hu; done || lia.
Qed.

(** The regions of a side as of a time depend only on the verified facts of the side that were available by then: not on their order
    or repetition, nor on any fact that became available later, provided facts of one identity are the same fact. *)
Theorem regions_depend_on_available hash l l' side asOf p :
  consistent l → consistent l' → (∀ f, relevant side asOf f → f ∈ l ↔ f ∈ l') →
  (Find hash l side asOf p).1 = (Find hash l' side asOf p).1.
Proof. intros Hc Hc' Heq. unfold Find, judged. cbn [fst]. by rewrite (usable_relevant l l' side asOf). Qed.

(** * Witnesses *)

Definition example_fact (id source : string) (low high : float) (atoms : list string) (available : Z) : Fact :=
  mkFact id source Buy low high low high 0 available [] atoms "" true "" 0 false 1.
Definition example_facts : list Fact :=
  [example_fact "b" "fvg" 11 13 ["gap:60"] 200; example_fact "a" "supply_demand" 10 12 ["leg:up:120"] 100;
   example_fact "c" "order_block" 9 11.75 ["leg:up:120"; "break:up:180"] 150; example_fact "b" "fvg" 11 13 ["gap:60"] 200].
Definition example_late : Fact := example_fact "d" "ifvg" 10 12 ["inversion:240"] 300.
Definition example_params : Params := mkParams 2 0.1.

(** The leg shared by two of the facts counts once: between 11 and 12 the structures are two sources. *)
Example regions_example :
  map (λ g, (rg_Low g, rg_High g, rg_Support g, rg_MinGroups g)) (Find id example_facts Buy 200 example_params).1 =
    [(11, 12, ["a"; "b"; "c"], 2%Z)]%float ∧
  map (λ j, (rj_Reason j, rj_Low j, rj_High j, rj_FactIDs j)) (Find id example_facts Buy 200 example_params).2 =
    [(RejectSingleIndependentOrigin, 9, 11, ["a"; "c"])]%float.
Proof. split; vm_compute; reflexivity. Qed.

Lemma regions_exact_witness :
  ∃ g, g ∈ (Find id example_facts Buy 200 example_params).1 ∧ (rg_Low g <? 11.5)%float && (11.5 <? rg_High g)%float = true.
Proof.
  assert (Hoff : off_bounds (usable example_facts Buy 200) 11.5).
  { split; [reflexivity|]. intros f Hf. apply list_elem_of_In in Hf. vm_compute in Hf.
    repeat (destruct Hf as [<-|Hf]; [split; vm_compute; discriminate|]). destruct Hf. }
  destruct (proj1 (regions_exact id example_facts Buy 200 example_params 11.5 Hoff)) as [H|(j & Hj & Hr & _)]; [vm_compute; discriminate|exact H|].
  exfalso. apply list_elem_of_In in Hj. vm_compute in Hj. destruct Hj as [<-|[]]. vm_compute in Hr. discriminate.
Defined.
Lemma regions_depend_on_available_witness :
  (Find id (reverse (example_late :: example_facts)) Buy 200 example_params).1 = (Find id example_facts Buy 200 example_params).1.
Proof.
  assert (Hin : ∀ f, relevant Buy 200 f → f ∈ reverse (example_late :: example_facts) ↔ f ∈ example_facts).
  { intros f (_ & _ & H). rewrite elem_of_reverse, elem_of_cons. split; [|by right]. intros [-> | ?]; [|done]. exfalso. cbn in H. lia. }
  assert (Hc : consistent (example_late :: example_facts)).
  { intros f g Hf Hg. apply list_elem_of_In in Hf, Hg. cbn [In] in Hf, Hg. unfold example_facts in Hf, Hg. cbn [In] in Hf, Hg.
    repeat (destruct Hf as [<-|Hf]); try destruct Hf; repeat (destruct Hg as [<-|Hg]); try destruct Hg; try reflexivity; cbn; intros E; discriminate E. }
  apply regions_depend_on_available; [| |exact Hin].
  - intros f g Hf Hg. rewrite elem_of_reverse in Hf, Hg. by apply Hc.
  - intros f g Hf Hg. by apply Hc; right.
Defined.
