(* ===== verification/StructuralDerive.v ===== *)
(** Package structuralconfluence, derivation: from the instances of a zone chain to facts with their provenance and the time they
    became confirmable. *)
From S2P Require Import Prelude Float64 Market TechniqueBars TechniqueZones.
From S2P Require Import TechniqueInstances StructuralFacts.
From Stdlib Require Import Floats.

(** * derive.go *)

(** [Bars] and what the zone chain computed from them. *)
Record Frame := mkFrame { fr_Bars : list Candle; fr_Legs : list Leg; fr_Breaks : list Break; fr_Swings : list Swing; fr_PeriodSeconds : Z }.
(** The open time of a bar; an index out of range panics, [None] here. *)
Definition open_ (f : Frame) (i : Z) : option Z := if (i <? 0)%Z then None else c_Time <$> (fr_Bars f !! Z.to_nat i).
Definition closeOf (f : Frame) (i : Z) : option Z := (λ t, t + fr_PeriodSeconds f)%Z <$> open_ f i.
Definition inRange (f : Frame) (i : Z) : bool := (i >=? 0)%Z && (i <? Z.of_nat (length (fr_Bars f)))%Z.
Definition legDirectionOf (side : string) : string := if bool_decide (side = Buy) then "up" else "down".
Definition legAtom (f : Frame) (leg : Leg) : option string :=
  (λ t, "leg:" +:+ lg_Direction leg +:+ ":" +:+ pretty t) <$> open_ f (Z.of_nat (lg_Start leg)).
Definition structuralBounds (i : Instance_) : float * float :=
  if in_EntryClipped i then (in_StructuralLow i, in_StructuralHigh i) else (in_Low i, in_High i).
Definition FactID (source side : string) (originOpen : Z) (structuralLow structuralHigh : float) : string :=
  source +:+ ":" +:+ side +:+ ":" +:+ pretty originOpen +:+ ":" +:+ fmt_fixed 6 structuralLow +:+ ":" +:+ fmt_fixed 6 structuralHigh.
(** The candles of the range that are bars of the frame. *)
Definition candleAtoms (f : Frame) (from to : Z) : list string :=
  omap (λ k : nat, let i := (from + Z.of_nat k)%Z in
    if inRange f i then (λ t, "candle:" +:+ pretty t) <$> open_ f i else None) (seq 0 (Z.to_nat (to - from + 1))).
Definition gapAtom (f : Frame) (g : Gap) : option string := (λ t, "gap:" +:+ pretty t) <$> open_ f (Older g).

(** What a technique contributes: the atoms, the times of the source candles, the bar it became confirmable on and its parent; or
    why it cannot be verified. [None] is a panic. *)
Record provenance := mkProvenance { pv_atoms : list string; pv_times : list Z; pv_available : Z; pv_parent : string }.
Definition times_of (f : Frame) (l : list Z) : option (list Z) := mapM (open_ f) l.
Definition leg_atoms (f : Frame) (leg : option Leg) : option (list string) :=
  match leg with Some leg => (λ a, [a]) <$> legAtom f leg | None => Some [] end.
Definition supply_demand_provenance (f : Frame) (i : Instance_) : option (string + provenance) :=
  match LegOfSupplyDemand (fr_Legs f) (in_OriginIndex i) (in_Side i) with
  | None => Some (inl UnverifiedSupplyDemandLeg)
  | Some leg =>
      let start := Z.of_nat (lg_Start leg) in let end_ := Z.of_nat (lg_End leg) in
      atom ← legAtom f leg; times ← times_of f [in_OriginIndex i; start; end_];
      Some (inr (mkProvenance (atom :: candleAtoms f (Z.max 0 (start - 3)) end_) times end_ ""))
  end.
Definition order_block_provenance (f : Frame) (i : Instance_) : option (string + provenance) :=
  match LegOfOrderBlock (fr_Bars f) (fr_Legs f) (fr_Breaks f) (in_OriginIndex i) (in_Side i) with
  | None => Some (inl UnverifiedOrderBlockLeg)
  | Some (leg, brk) =>
      match BrokenSwing (fr_Swings f) brk with
      | None => Some (inl UnverifiedBrokenSwing)
      | Some swing =>
          let start := Z.of_nat (lg_Start leg) in let end_ := Z.of_nat (lg_End leg) in let at_ := Z.of_nat (bk_Index brk) in
          let confirmed := if inRange f (Z.of_nat (s_ConfirmedIndex swing)) then Z.of_nat (s_ConfirmedIndex swing) else Z.of_nat (s_Index swing) in
          atom ← legAtom f leg; broke ← open_ f at_; times ← times_of f [in_OriginIndex i; start; end_; at_; Z.of_nat (s_Index swing)];
          Some (inr (mkProvenance
            ([atom; "break:" +:+ bk_Direction brk +:+ ":" +:+ pretty broke] ++ candleAtoms f (in_OriginIndex i) (in_OriginIndex i) ++ candleAtoms f start end_)
            times (Z.max end_ (Z.max at_ confirmed)) ""))
      end
  end.
Definition fvg_provenance (f : Frame) (i : Instance_) (sLow sHigh : float) : option (string + provenance) :=
  match GapOfFVG (fr_Bars f) (in_OriginIndex i) (in_Side i) sLow sHigh with
  | None => Some (inl UnverifiedGap)
  | Some gap =>
      atom ← gapAtom f gap; legs ← leg_atoms f (LegContaining (fr_Legs f) (Middle gap) (legDirectionOf (in_Side i)));
      times ← times_of f [Older gap; Middle gap; Newest gap];
      Some (inr (mkProvenance ([atom] ++ candleAtoms f (Older gap) (Newest gap) ++ legs) times (Newest gap) ""))
  end.
Definition ifvg_provenance (f : Frame) (i : Instance_) (sLow sHigh : float) : option (string + provenance) :=
  match ParentGapOfIFVG (fr_Bars f) (in_OriginIndex i) (in_Side i) sLow sHigh with
  | None => Some (inl UnverifiedParentGap)
  | Some gap =>
      let parentSide := if bool_decide (in_Side i = Buy) then Sell else Buy in
      atom ← gapAtom f gap; inverted ← open_ f (in_OriginIndex i);
      parent_leg ← leg_atoms f (LegContaining (fr_Legs f) (Middle gap) (legDirectionOf parentSide));
      own_leg ← leg_atoms f (LegContaining (fr_Legs f) (in_OriginIndex i) (legDirectionOf (in_Side i)));
      newest ← open_ f (Newest gap); times ← times_of f [Older gap; Middle gap; Newest gap; in_OriginIndex i];
      Some (inr (mkProvenance
        ([atom; "inversion:" +:+ pretty inverted] ++ candleAtoms f (Older gap) (Newest gap) ++ candleAtoms f (in_OriginIndex i) (in_OriginIndex i) ++
         parent_leg ++ own_leg)
        times (in_OriginIndex i) (FactID SourceFVG parentSide newest sLow sHigh)))
  end.
Definition provenance_of (f : Frame) (i : Instance_) (sLow sHigh : float) : option (string + provenance) :=
  if bool_decide (in_Technique i = SourceSupplyDemand) then supply_demand_provenance f i
  else if bool_decide (in_Technique i = SourceOrderBlock) then order_block_provenance f i
  else if bool_decide (in_Technique i = SourceFVG) then fvg_provenance f i sLow sHigh
  else if bool_decide (in_Technique i = SourceIFVG) then ifvg_provenance f i sLow sHigh
  else Some (inl UnverifiedTechnique).
Definition sort_times (l : list Z) : list Z := sort_slice Z.ltb l.
Definition fact_of (i : Instance_) (id : string) (formed available : Z) (times : list Z) (atoms : list string) (parent : string) (verified : bool)
    (reason : string) : Fact :=
  let '(sLow, sHigh) := structuralBounds i in
  mkFact id (in_Technique i) (in_Side i) (in_Low i) (in_High i) sLow sHigh formed available times atoms parent verified reason
    (in_Touches i) (in_Mitigated i) (in_ZoneScore i).
Definition derive (f : Frame) (i : Instance_) : option Fact :=
  let '(sLow, sHigh) := structuralBounds i in
  let anonymous := FactID (in_Technique i) (in_Side i) 0 sLow sHigh in
  if bool_decide (in_Technique i = SourceCRT) then Some (fact_of i anonymous 0 0 [] [] "" false UnverifiedCRT)
  else if negb (inRange f (in_OriginIndex i)) then Some (fact_of i anonymous 0 0 [] [] "" false UnverifiedOriginOutsideWindow)
  else
    formed ← open_ f (in_OriginIndex i);
    let id := FactID (in_Technique i) (in_Side i) formed sLow sHigh in
    found ← provenance_of f i sLow sHigh;
    match found with
    | inl reason => Some (fact_of i id formed 0 [] [] "" false reason)
    | inr (mkProvenance [] _ _ parent) => Some (fact_of i id formed 0 [] [] parent false UnverifiedNoAtoms)
    | inr (mkProvenance atoms times available parent) =>
        closes ← closeOf f available; Some (fact_of i id formed closes (sort_times times) atoms parent true "")
    end.
Definition derive_step (seen : list string) (out : list Fact) (fact : Fact) : list string * list Fact :=
  if bool_decide (f_ID fact ∈ seen) then (seen, out) else (f_ID fact :: seen, out ++ [normalised fact]).
Fixpoint derive_all (f : Frame) (instances : list Instance_) (seen : list string) (out : list Fact) : option (list Fact) :=
  match instances with
  | [] => Some out
  | i :: rest => fact ← derive f i; let '(seen, out) := derive_step seen out fact in derive_all f rest seen out
  end.
Definition DeriveFacts (f : Frame) (instances : list Instance_) : option (list Fact) := sort_slice id_less <$> derive_all f instances [] [].

(** * Lemmas *)

(** The bars in time order, and the chain's indices bars of the frame. *)
Definition frame_ok (f : Frame) : Prop :=
  (∀ i j a b, (i <= j)%nat → fr_Bars f !! i = Some a → fr_Bars f !! j = Some b → (c_Time a <= c_Time b)%Z) ∧
  Forall (λ l, (lg_Start l <= lg_End l < length (fr_Bars f))%nat) (fr_Legs f) ∧
  Forall (λ b, (bk_Index b < length (fr_Bars f))%nat) (fr_Breaks f).

Section derive_lemmas.
Context (f : Frame) (Hf : frame_ok f).

Definition bar_index (i : Z) : Prop := (0 <= i < Z.of_nat (length (fr_Bars f)))%Z.
Lemma inRange_index i : inRange f i = true ↔ bar_index i.
Proof. unfold inRange, bar_index. lia. Qed.
Lemma open_total i : bar_index i → is_Some (open_ f i).
Proof.
  unfold bar_index, open_. intros H. destruct (Z.ltb_spec i 0); [lia|]. destruct (lookup_lt_is_Some_2 (fr_Bars f) (Z.to_nat i)) as [b Hb]; [lia|].
  rewrite Hb. by eexists.
Qed.
Lemma open_mono i j s t : (i <= j)%Z → open_ f i = Some s → open_ f j = Some t → (s <= t)%Z.
Proof.
  unfold open_. destruct (Z.ltb_spec i 0); [done|]. destruct (Z.ltb_spec j 0); [done|]. intros Hij (a & Ha & ->)%fmap_Some (b & Hb & ->)%fmap_Some.
  destruct Hf as [Ht _]. apply (Ht (Z.to_nat i) (Z.to_nat j)); [lia|done|done].
Qed.
Lemma times_total l : Forall bar_index l → is_Some (times_of f l).
Proof. intros H. unfold times_of. apply mapM_is_Some. eapply Forall_impl; [exact H|]. cbn. apply open_total. Qed.
Lemma times_before l ts available c :
  times_of f l = Some ts → Forall (λ i, i <= available)%Z l → closeOf f available = Some c → Forall (λ t, t + fr_PeriodSeconds f <= c)%Z ts.
Proof.
  unfold times_of, closeOf. intros Ht%mapM_Some Hl (t & Ho & ->)%fmap_Some. revert Hl. induction Ht as [|i s l ts Hi Ht IH]; intros Hl; [constructor|].
  apply Forall_cons in Hl as [Hi' Hl]. constructor; [|by apply IH]. pose proof (open_mono i available s t Hi' Hi Ho). lia.
Qed.
Lemma legAtom_total leg : leg ∈ fr_Legs f → is_Some (legAtom f leg).
Proof.
  intros H. destruct Hf as (_ & Hl & _). rewrite Forall_forall in Hl. specialize (Hl leg H). unfold legAtom.
  apply fmap_is_Some, open_total. unfold bar_index. lia.
Qed.
Lemma leg_atoms_total o : (∀ leg, o = Some leg → leg ∈ fr_Legs f) → is_Some (leg_atoms f o).
Proof. intros H. destruct o as [leg|]; cbn; [|by eexists]. apply fmap_is_Some, legAtom_total. by apply H. Qed.
Lemma LegContaining_in legs i d leg : LegContaining legs i d = Some leg → leg ∈ legs.
Proof. intros H. apply find_some in H as [H _]. by apply list_elem_of_In. Qed.
Lemma last_direction_lt bars d n i : last_direction bars d n = Some i → (i < n)%nat.
Proof. induction n as [|n IH]; cbn; [done|]. case_bool_decide; [intros [= <-]; lia|]. intros Hi%IH. lia. Qed.
Lemma LegOfOrderBlock_spec bars legs breaks origin side leg brk :
  LegOfOrderBlock bars legs breaks origin side = Some (leg, brk) → leg ∈ legs ∧ brk ∈ breaks ∧ origin_index bars leg = origin.
Proof.
  induction legs as [|l legs IH]; cbn [LegOfOrderBlock]; [done|]. case_bool_decide; cbn [negb]; [|intros (? & ? & ?)%IH; split_and!; [by right|done|done]].
  destruct (causingBOS l breaks) as [b|] eqn:E; [|intros (? & ? & ?)%IH; split_and!; [by right|done|done]].
  destruct (Z.eqb_spec (origin_index bars l) origin); [|intros (? & ? & ?)%IH; split_and!; [by right|done|done]].
  intros [= <- <-]. split_and!; [by left| |done]. apply find_some in E as [E _]. by apply list_elem_of_In.
Qed.
Lemma GapOfFVG_spec bars origin side lo hi gap :
  GapOfFVG bars origin side lo hi = Some gap → gap = mkGap (origin - 2) (origin - 1) origin ∧ (2 <= origin < Z.of_nat (length bars))%Z.
Proof.
  unfold GapOfFVG. destruct (Z.ltb_spec origin 2); [done|]. destruct (Z.geb_spec origin (Z.of_nat (length bars))); [done|]. cbn [orb].
  cbv zeta. destruct (_ && _ && _); [intros [= <-]; split; [done|lia]|]. destruct (_ && _ && _); [intros [= <-]; split; [done|lia]|done].
Qed.
Lemma ParentGapOfIFVG_spec bars origin side lo hi gap :
  ParentGapOfIFVG bars origin side lo hi = Some gap →
  ∃ g, gap = mkGap (g - 2) (g - 1) g ∧ (2 <= g < origin)%Z ∧ (origin < Z.of_nat (length bars))%Z.
Proof.
  unfold ParentGapOfIFVG. destruct (Z.leb_spec origin 2); [done|]. destruct (Z.geb_spec origin (Z.of_nat (length bars))); [done|]. cbn [orb].
  cbv zeta. intros (k & Hk & Hg & _)%first_some_Some. destruct (GapOfFVG bars (Z.of_nat k) _ lo hi) as [gap'|] eqn:E; [|done].
  case_bool_decide; [|done]. injection Hg as <-. apply GapOfFVG_spec in E as [-> _]. exists (Z.of_nat k). split_and!; [done|lia..].
Qed.

(** What a technique that is recovered promises: atoms, times of bars no later than the one it became confirmable on, a bar of the frame. *)
Definition good (r : string + provenance) : Prop :=
  match r with
  | inl reason => reason ≠ ""
  | inr pv => pv_atoms pv ≠ [] ∧ bar_index (pv_available pv) ∧
      ∀ c, closeOf f (pv_available pv) = Some c → Forall (λ t, t + fr_PeriodSeconds f <= c)%Z (pv_times pv)
  end.
Lemma sd_good i : bar_index (in_OriginIndex i) → ∃ r, supply_demand_provenance f i = Some r ∧ good r.
Proof.
  intros Hi. unfold supply_demand_provenance. destruct (LegOfSupplyDemand _ _ _) as [leg|] eqn:E; [|by eexists].
  apply find_some in E as [Hl E]. apply list_elem_of_In in Hl. apply andb_true_iff in E as [_ E]. pose proof (proj1 (proj2 Hf)) as Hlegs.
  rewrite Forall_forall in Hlegs. specialize (Hlegs leg Hl). destruct (legAtom_total leg Hl) as [a ->]. cbn [mbind option_bind].
  destruct (times_total [in_OriginIndex i; Z.of_nat (lg_Start leg); Z.of_nat (lg_End leg)]) as [ts Ht]; [unfold bar_index in *; repeat constructor; lia|].
  rewrite Ht. eexists. split; [reflexivity|]. split_and!; [done|unfold bar_index; cbn; lia|]. intros c Hc. cbn in Hc |- *.
  eapply times_before; [exact Ht| |exact Hc]. repeat constructor; lia.
Qed.
Lemma ob_good i : bar_index (in_OriginIndex i) → ∃ r, order_block_provenance f i = Some r ∧ good r.
Proof.
  intros Hi. unfold order_block_provenance. destruct (LegOfOrderBlock _ _ _ _ _) as [[leg brk]|] eqn:E; [|by eexists].
  apply LegOfOrderBlock_spec in E as (Hl & Hb & Ho). destruct (BrokenSwing _ _) as [sw|] eqn:Es; [|by eexists].
  apply find_some in Es as [_ Es]. apply andb_true_iff in Es as [Es _]. apply andb_true_iff in Es as [_ Es]. apply Nat.ltb_lt in Es.
  destruct (legAtom_total leg Hl) as [a Ha]. destruct Hf as (_ & Hlegs & Hbrks). rewrite Forall_forall in Hlegs. specialize (Hlegs leg Hl).
  rewrite Forall_forall in Hbrks. specialize (Hbrks brk Hb). cbv zeta. rewrite Ha. cbn [mbind option_bind].
  destruct (open_total (Z.of_nat (bk_Index brk))) as [t ->]; [unfold bar_index; lia|]. cbn [mbind option_bind].
  assert (Hor : (in_OriginIndex i <= Z.of_nat (lg_End leg))%Z).
  { unfold origin_index in Ho. unfold bar_index in Hi. destruct (lastOppositeCandle _ _) as [k|] eqn:Ek; cbn in Ho; [|lia].
    unfold lastOppositeCandle in Ek. apply last_direction_lt in Ek. lia. }
  destruct (times_total [in_OriginIndex i; Z.of_nat (lg_Start leg); Z.of_nat (lg_End leg); Z.of_nat (bk_Index brk); Z.of_nat (s_Index sw)]) as [ts Ht];
    [unfold bar_index in *; repeat constructor; lia|]. rewrite Ht. cbn [mbind option_bind].
  set (conf := if inRange f (Z.of_nat (s_ConfirmedIndex sw)) then _ else _).
  assert (Hconf : bar_index conf) by (unfold conf; destruct (inRange f _) eqn:Er; [by apply inRange_index|unfold bar_index; lia]).
  eexists. split; [reflexivity|]. split_and!; [done|unfold bar_index in *; cbn; lia|]. intros c Hc. cbn in Hc |- *.
  eapply times_before; [exact Ht| |exact Hc]. repeat constructor; lia.
Qed.
Lemma fvg_good i lo hi : ∃ r, fvg_provenance f i lo hi = Some r ∧ good r.
Proof.
  unfold fvg_provenance. destruct (GapOfFVG _ _ _ _ _) as [gap|] eqn:E; [|by eexists]. apply GapOfFVG_spec in E as [-> Hr].
  unfold gapAtom. cbn [Older Middle Newest]. destruct (open_total (in_OriginIndex i - 2)) as [t ->]; [unfold bar_index; lia|].
  cbn [fmap option_fmap option_map mbind option_bind].
  destruct (leg_atoms_total (LegContaining (fr_Legs f) (in_OriginIndex i - 1) (legDirectionOf (in_Side i)))) as [la ->]; [intros leg; apply LegContaining_in|].
  cbn [mbind option_bind]. destruct (times_total [in_OriginIndex i - 2; in_OriginIndex i - 1; in_OriginIndex i]%Z) as [ts Ht];
    [unfold bar_index; repeat constructor; lia|]. rewrite Ht. cbn [mbind option_bind].
  eexists. split; [reflexivity|]. split_and!; [done|unfold bar_index; cbn; lia|]. intros c Hc. cbn in Hc |- *.
  eapply times_before; [exact Ht| |exact Hc]. repeat constructor; lia.
Qed.
Lemma ifvg_good i lo hi : ∃ r, ifvg_provenance f i lo hi = Some r ∧ good r.
Proof.
  unfold ifvg_provenance. destruct (ParentGapOfIFVG _ _ _ _ _) as [gap|] eqn:E; [|by eexists]. apply ParentGapOfIFVG_spec in E as (g & -> & Hg & Hr).
  unfold gapAtom. cbn [Older Middle Newest]. destruct (open_total (g - 2)) as [t ->]; [unfold bar_index; lia|].
  cbn [fmap option_fmap option_map mbind option_bind]. destruct (open_total (in_OriginIndex i)) as [t' Ht']; [unfold bar_index; lia|]. rewrite Ht'.
  cbn [mbind option_bind]. cbv zeta.
  destruct (leg_atoms_total (LegContaining (fr_Legs f) (g - 1) (legDirectionOf (if bool_decide (in_Side i = Buy) then Sell else Buy)))) as [la ->];
    [intros leg; apply LegContaining_in|]. cbn [mbind option_bind].
  destruct (leg_atoms_total (LegContaining (fr_Legs f) (in_OriginIndex i) (legDirectionOf (in_Side i)))) as [lb ->]; [intros leg; apply LegContaining_in|].
  cbn [mbind option_bind]. destruct (open_total g) as [tg ->]; [unfold bar_index; lia|]. cbn [mbind option_bind].
  destruct (times_total [g - 2; g - 1; g; in_OriginIndex i]%Z) as [ts Ht]; [unfold bar_index; repeat constructor; lia|]. rewrite Ht. cbn [mbind option_bind].
  eexists. split; [reflexivity|]. split_and!; [done|unfold bar_index; cbn; lia|]. intros c Hc. cbn in Hc |- *.
  eapply times_before; [exact Ht| |exact Hc]. repeat constructor; lia.
Qed.
Lemma provenance_good i lo hi : bar_index (in_OriginIndex i) → ∃ r, provenance_of f i lo hi = Some r ∧ good r.
Proof.
  intros Hi. unfold provenance_of. case_bool_decide; [by apply sd_good|]. case_bool_decide; [by apply ob_good|].
  case_bool_decide; [apply fvg_good|]. case_bool_decide; [apply ifvg_good|by eexists].
Qed.

(** On a frame whose legs and breaks lie in its bars, every instance becomes a fact without a panic. A verified fact has provenance and
    is available no earlier than the close of each of the candles it was built from; any other names the reason it is not verified. *)
Theorem derive_total_and_causal i :
  ∃ fact, derive f i = Some fact ∧
    (f_Verified fact = true → f_Atoms fact ≠ [] ∧ Forall (λ t, t + fr_PeriodSeconds f <= f_AvailableAt fact)%Z (f_SourceTimes fact)) ∧
    (f_Verified fact = false → f_UnverifiedReason fact ≠ "") ∧ (in_Technique i = SourceCRT → f_Verified fact = false).
Proof.
  unfold derive, fact_of. destruct (structuralBounds i) as [lo hi]. case_bool_decide as Hcrt; [by eexists|].
  destruct (inRange f (in_OriginIndex i)) eqn:Hr; cbn [negb]; [|by eexists]. apply inRange_index in Hr.
  destruct (open_total _ Hr) as [t ->]. cbn [mbind option_bind]. destruct (provenance_good i lo hi Hr) as ([reason|[atoms times available parent]] & -> & Hg);
    cbn [mbind option_bind]; [by eexists|]. destruct Hg as (Ha & Hb & Ht). cbn in Ha, Hb, Ht. destruct atoms as [|a atoms]; [done|].
  destruct (open_total available Hb) as [c Hc]. assert (Hclose : closeOf f available = Some (c + fr_PeriodSeconds f)%Z) by (unfold closeOf; by rewrite Hc).
  rewrite Hclose. cbn [mbind option_bind]. eexists. split; [reflexivity|]. split_and!; [|done|done]. intros _. cbn. split; [done|].
  unfold sort_times. rewrite sort_slice_perm. by apply Ht.
Qed.
End derive_lemmas.

(** * Witness *)

Definition demo_frame : Frame :=
  mkFrame demo_rally (chain_legs demo_rally ProductionChainSettings) (chain_breaks demo_rally ProductionChainSettings)
    (chain_swings demo_rally ProductionChainSettings) 60.
Example derived_facts_example :
  option_map (map (λ x, (f_ID x, f_SourceTimes x, f_AvailableAt x, f_Atoms x)))
    (DeriveFacts demo_frame [demo_instance; demo_instance]) =
  Some [("supply_demand:buy:0:9.000000:10.000000", [0; 1; 3]%Z, 63%Z, ["candle:0"; "candle:1"; "candle:2"; "candle:3"; "leg:up:1"])].
Proof. vm_compute. reflexivity. Qed.
Lemma demo_frame_ok : frame_ok demo_frame.
Proof.
  split_and!.
  - intros i j a b Hij Ha Hb. apply (lookup_lt_Some) in Hb as Hj. cbn in Hj.
    do 5 (destruct i as [|i]; [do 5 (destruct j as [|j]; [first [lia|cbn in Ha, Hb; injection Ha as <-; injection Hb as <-; cbn; lia]|]); lia|]). lia.
  - replace (fr_Legs demo_frame) with [mkLeg 1 3 "up" (lg_Size (chain_legs demo_rally ProductionChainSettings !!! 0%nat))] by (vm_compute; reflexivity).
    repeat constructor; cbn; lia.
  - replace (fr_Breaks demo_frame) with (@nil Break) by (vm_compute; reflexivity). constructor.
Qed.
Lemma derive_total_and_causal_witness :
  ∃ fact, derive demo_frame demo_instance = Some fact ∧ f_Verified fact = true ∧ Forall (λ t, t + 60 <= f_AvailableAt fact)%Z (f_SourceTimes fact).
Proof.
  destruct (derive_total_and_causal demo_frame demo_frame_ok demo_instance) as (fact & Hd & Hv & _). exists fact. split; [exact Hd|].
  assert (Hver : option_map f_Verified (derive demo_frame demo_instance) = Some true) by (vm_compute; reflexivity).
  rewrite Hd in Hver. injection Hver as Hver. split; [exact Hver|]. exact (proj2 (Hv Hver)).
Defined.
