(* ===== verification/ScalpContacts.v ===== *)
(** Package techniquezone, scalp.go, first half: the contacts of a range's edges, their clusters and touch episodes, and how an edge
    breaks and is taken back. *)
From S2P Require Import Prelude Float64 Market TechniqueBars.
From Stdlib Require Import Floats.

(** * Data *)

Definition scalpEpsilon : float := 1e-9.
Definition RangeStateNoRange : string := "no_range".
Definition RangeStateProvisional : string := "provisional_range".
Definition RangeStateConfirmed : string := "confirmed_range".
Definition RangeStatePostImpulse : string := "post_impulse_range".
Definition RangeStateBroken : string := "broken_range".
Definition scalpSessionNames : list string :=
  ["ASIA_H"; "ASIA_L"; "LONDON_H"; "LONDON_L"; "NY_H"; "NY_L"; "PDH"; "PDL"; "PWH"; "PWL"].

Record ScalpConfig := mkScalpConfig {
  Lookback : Z; ClusterATR : float; ClusterMinAbs : float; ClusterPipMult : float; MinimumTouches : Z; MinimumWickFraction : float;
  EntryToleranceATR : float; MaximumEdgeWidthATR : float; MinimumWidthATR : float; MaximumWidthATR : float; MinimumRoomATR : float;
  BreakCloses : Z; MinimumInsideCloses : Z; InsideLookbackBars : Z; RecentBreakoutLookback : Z; RecentBreakoutBufferATR : float;
  RecentBreakoutMinSpanATR : float; FallbackEnabled : bool; FallbackMinConfirmations : Z; FallbackMinWidthATR : float;
  FallbackMaxWidthATR : float; FallbackWickFraction : float; ProvisionalEnabled : bool; PostImpulseEnabled : bool;
  PostImpulseMinDisplaceATR : float; PostImpulseMaxContractATR : float; PostImpulseMinInside : Z; PostImpulseLookbackBars : Z;
  PostImpulseRecentBars : Z; sc_PipSize : float; sc_RoundStep : float
}.
Record BrokenBarrier := mkBrokenBarrier {
  bb_Side : string; bb_Level : float; bb_Low : float; bb_High : float; bb_Tolerance : float; bb_Touches : nat; bb_WickRejections : nat;
  bb_FirstTouchIndex : nat; bb_LastTouchIndex : nat; bb_BreakIndex : Z; bb_BreakCloses : Z
}.
Record scalpContact := mkContact {
  ct_index : nat; ct_price : float; ct_wickFraction : float; ct_rejected : bool; ct_bodyHold : bool; ct_source : string
}.

(** * Contacts *)

(** The last positive value, nought when the last number is not positive. *)
Fixpoint last_positive (rev_series : list float) : float :=
  match rev_series with
  | [] => 0%float
  | v :: rest => if negb (IsNaN v) && negb (IsInf v) then (if (v >? 0)%float then v else 0%float) else last_positive rest
  end.
Definition lastPositive (series : list float) : float := last_positive (reverse series).
Definition max_high (bars : list Candle) (m : float) : float := foldl (λ m b, math_Max m (c_High b)) m bars.
Definition min_low (bars : list Candle) (m : float) : float := foldl (λ m b, math_Min m (c_Low b)) m bars.
Definition recentBreakoutDisplacement (bars : list Candle) (atrValue : float) (cfg : ScalpConfig) : bool :=
  let breakCloses := Z.max 1 (BreakCloses cfg) in let n := Z.of_nat (length bars) in
  if (n <? breakCloses + 6)%Z || (atrValue <=? 0)%float then false
  else
    let priorEnd := (n - breakCloses)%Z in let priorStart := Z.max 0 (priorEnd - RecentBreakoutLookback cfg) in
    if (priorStart >=? priorEnd)%Z then false
    else
      match slice bars (Z.to_nat priorStart) (Z.to_nat priorEnd), drop (Z.to_nat priorEnd) bars with
      | p :: prior, r :: recent =>
          let priorHigh := max_high prior (c_High p) in let priorLow := min_low prior (c_Low p) in
          let up := forallb (λ b, c_Close b >? priorHigh + RecentBreakoutBufferATR cfg * atrValue)%float (r :: recent) in
          let down := forallb (λ b, c_Close b <? priorLow - RecentBreakoutBufferATR cfg * atrValue)%float (r :: recent) in
          if negb up && negb down then false
          else ((max_high recent (c_High r) - min_low recent (c_Low r)) / atrValue >=? RecentBreakoutMinSpanATR cfg)%float
      | _, _ => false
      end.
Definition median_of (sorted : list float) : float :=
  let n := length sorted in
  if Nat.even n then ((nth (n / 2 - 1) sorted 0 + nth (n / 2) sorted 0) / 2)%float else nth (n / 2) sorted 0%float.
Definition scalpClusterTolerance (atrValue : float) (frame : list Candle) (cfg : ScalpConfig) : float :=
  let atrComponent := (atrValue * math_Max 0 (ClusterATR cfg))%float in
  let candleNoise :=
    if (0 <? length frame)%nat && (atrComponent >? 0)%float
    then math_Min (median_of (sort_floats (map (λ b, c_High b - c_Low b)%float frame)) * 0.10) atrComponent else 0%float in
  let pip := math_Max scalpEpsilon (sc_PipSize cfg) in
  math_Max scalpEpsilon (math_Max (math_Max 0 (ClusterMinAbs cfg)) (math_Max atrComponent (math_Max (pip * math_Max 0 (ClusterPipMult cfg)) candleNoise))).

(** The contact of a bar with the resistance above it and with the support below it. *)
Definition bar_span (b : Candle) : float := (c_High b - c_Low b)%float.
Definition upper_contact (micro : bool) (minimumWick : float) (index : nat) (b : Candle) : list scalpContact :=
  let span := bar_span b in
  let fraction := (math_Max 0 (c_High b - math_Max (c_Open b) (c_Close b)) / span)%float in
  let rejected := (fraction >=? minimumWick)%float && (c_Close b <? c_High b)%float in
  let hold := (c_Close b >=? c_High b - span * 0.15)%float && (c_Close b <=? c_Open b)%float in
  if rejected || micro then [mkContact index (c_High b) fraction rejected hold (if rejected then "wick" else "swing")] else [].
Definition lower_contact (micro : bool) (minimumWick : float) (index : nat) (b : Candle) : list scalpContact :=
  let span := bar_span b in
  let fraction := (math_Max 0 (math_Min (c_Open b) (c_Close b) - c_Low b) / span)%float in
  let rejected := (fraction >=? minimumWick)%float && (c_Close b >? c_Low b)%float in
  let hold := (c_Close b <=? c_Low b + span * 0.15)%float && (c_Close b >=? c_Open b)%float in
  if rejected || micro then [mkContact index (c_Low b) fraction rejected hold (if rejected then "wick" else "swing")] else [].
Definition is_micro (swings : list Swing) (local : nat) (kind : string) : bool :=
  existsb (λ s, (s_Index s =? local)%nat && bool_decide (s_Kind s = kind)) swings.
(** The contacts of a side, in bar order; [local] counts in the frame and [offset] is its first bar. *)
Definition scalpContacts (frame : list Candle) (offset : nat) (atrTail : option (list float)) (minimumWick : float) (side : string) : list scalpContact :=
  let swings := FindSwings frame 1 0 0 atrTail (-1) in
  concat (imap (λ local b,
    if IsNaN (bar_span b) || (bar_span b <=? scalpEpsilon)%float then []
    else if bool_decide (side = "resistance") then upper_contact (is_micro swings local "high") minimumWick (local + offset) b
    else lower_contact (is_micro swings local "low") minimumWick (local + offset) b) frame).

(** * Clusters and episodes *)

Definition contact_less (a b : scalpContact) : bool :=
  if (ct_price a <>? ct_price b)%float then (ct_price a <? ct_price b)%float else (ct_index a <? ct_index b)%nat.
Definition joins (tolerance : float) (current : list scalpContact) (c : scalpContact) : bool :=
  let low := foldl (λ m x, math_Min m (ct_price x)) (ct_price c) current in
  let high := foldl (λ m x, math_Max m (ct_price x)) (ct_price c) current in
  let center := (pySum (map ct_price current) / f64_of_Z (Z.of_nat (length current)))%float in
  (abs (ct_price c - center) <=? tolerance)%float && (high - low <=? 2 * tolerance)%float.
(** The clusters found, the current one first. *)
Definition contact_step (tolerance : float) (clusters : list (list scalpContact)) (c : scalpContact) : list (list scalpContact) :=
  match clusters with
  | current :: rest => if joins tolerance current c then (current ++ [c]) :: rest else [c] :: clusters
  | [] => [[c]]
  end.
Definition clusterContacts (contacts : list scalpContact) (tolerance : float) : list (list scalpContact) :=
  reverse (foldl (contact_step tolerance) [] (sort_slice contact_less contacts)).
Definition episodeBetter (a b : scalpContact) : bool :=
  if negb (Bool.eqb (ct_rejected a) (ct_rejected b)) then ct_rejected a
  else if negb (Bool.eqb (ct_bodyHold a) (ct_bodyHold b)) then ct_bodyHold a
  else if (ct_wickFraction a <>? ct_wickFraction b)%float then (ct_wickFraction a >? ct_wickFraction b)%float
  else (ct_index a <? ct_index b)%nat.
Definition episode_step (episodes : list (scalpContact * list scalpContact)) (c : scalpContact) : list (scalpContact * list scalpContact) :=
  match episodes with
  | (first, more) :: rest =>
      if (ct_index c <=? ct_index (List.last more first) + 1)%nat then (first, more ++ [c]) :: rest else (c, []) :: episodes
  | [] => [(c, [])]
  end.
Definition best_contact (episode : scalpContact * list scalpContact) : scalpContact :=
  foldl (λ best c, if episodeBetter c best then c else best) episode.1 episode.2.
Definition contact_order (a b : scalpContact) : bool := (ct_index a <? ct_index b)%nat.
Definition raw_episodes (cluster : list scalpContact) : list (scalpContact * list scalpContact) :=
  reverse (foldl episode_step [] (sort_slice contact_order cluster)).
Definition touchEpisodes (cluster : list scalpContact) : list scalpContact := map best_contact (raw_episodes cluster).
Definition sources_of (episodes : list scalpContact) : list string :=
  match sort_strings (remove_dups (map ct_source episodes)) with [] => ["wick_cluster"] | l => l end.

(** * Breaks *)

Definition accepted_close (level tolerance : float) (side : string) (b : Candle) : bool :=
  if bool_decide (side = "support") then (c_Close b <? level - tolerance)%float else (c_Close b >? level + tolerance)%float.
Definition run_step_of (accepted : Candle → bool) (acc : nat * nat) (b : Candle) : nat * nat :=
  let '(current, longest) := acc in
  let current := if accepted b then S current else 0%nat in (current, if (longest <? current)%nat then current else longest).
Definition maxAcceptedCloseRun (bars : list Candle) (level tolerance : float) (side : string) (start : nat) : nat :=
  snd (foldl (run_step_of (accepted_close level tolerance side)) (0%nat, 0%nat) (drop start bars)).
Fixpoint accepted_break (accepted : Candle → bool) (closes : Z) (bars : list Candle) (i : nat) (run : Z) : Z :=
  match bars with
  | [] => -1
  | b :: rest =>
      if negb (accepted b) then accepted_break accepted closes rest (S i) 0
      else if (run + 1 >=? closes)%Z then Z.of_nat i else accepted_break accepted closes rest (S i) (run + 1)
  end.
Definition acceptedRunBreakIndex (bars : list Candle) (level tolerance : float) (side : string) (start : nat) (closes : Z) : Z :=
  accepted_break (accepted_close level tolerance side) closes (drop start bars) start 0.
Definition inside_close (b : BrokenBarrier) (c : Candle) : bool :=
  if bool_decide (bb_Side b = "support") then (c_Close c >=? bb_Level b + bb_Tolerance b)%float else (c_Close c <=? bb_Level b - bb_Tolerance b)%float.
Record break_state := mkBreakState { bs_reclaimed : bool; bs_latest : Z; bs_out : Z; bs_in : Z }.
Definition break_step (accepted inside : Candle → bool) (need reclaimCloses : Z) (s : break_state) (p : Z * Candle) : break_state :=
  let out := if accepted p.2 then (bs_out s + 1)%Z else 0%Z in
  let in_ := if inside p.2 then (bs_in s + 1)%Z else 0%Z in
  if negb (bs_reclaimed s) && (in_ >=? reclaimCloses)%Z then mkBreakState true (bs_latest s) out in_
  else if bs_reclaimed s && (out >=? need)%Z then mkBreakState false p.1 out in_
  else mkBreakState (bs_reclaimed s) (bs_latest s) out in_.
Definition break_run (bars : list Candle) (b : BrokenBarrier) (reclaimCloses : Z) : break_state :=
  let from := Z.to_nat (bb_BreakIndex b + 1) in
  foldl (break_step (accepted_close (bb_Level b) (bb_Tolerance b) (bb_Side b)) (inside_close b) (Z.max 1 (bb_BreakCloses b)) reclaimCloses)
    (mkBreakState false (bb_BreakIndex b) 0 0) (imap (λ i c, (Z.of_nat (from + i), c)) (drop from bars)).
Definition BreakStatus (bars : list Candle) (b : BrokenBarrier) (reclaimCloses : Z) : bool * Z :=
  if (bb_BreakIndex b <? 0)%Z || (reclaimCloses <? 1)%Z then (false, bb_BreakIndex b)
  else let s := break_run bars b reclaimCloses in (bs_reclaimed s, bs_latest s).
Definition BreakReclaimed (bars : list Candle) (b : BrokenBarrier) (closes : Z) : bool := (BreakStatus bars b closes).1.

(** * Lemmas: runs of closes *)

Section runs.
Context (P : nat → bool) (start : nat).

(** [n] consecutive bars, the last one [i], none before [start]. *)
Definition run_ends (n i : nat) : Prop := (start + n <= S i)%nat ∧ ∀ j, (S i - n <= j <= i)%nat → P j = true.
(** The run that ends before [i] has [c] bars. *)
Definition run_length (i c : nat) : Prop :=
  (start + c <= i)%nat ∧ (∀ j, (i - c <= j < i)%nat → P j = true) ∧ (start + c = i ∨ P (i - c - 1)%nat = false).
Lemma run_length_start : run_length start 0.
Proof. split_and!; [lia|intros j Hj; lia|left; lia]. Qed.
Lemma run_length_step i c : run_length i c → run_length (S i) (if P i then S c else 0).
Proof.
  intros (H1 & H2 & H3). destruct (P i) eqn:E.
  - split_and!; [lia| |destruct H3 as [H3|H3]; [left; lia|right; by replace (S i - S c - 1)%nat with (i - c - 1)%nat by lia]].
    intros j Hj. destruct (decide (j = i)) as [->|]; [done|]. apply H2. lia.
  - split_and!; [lia|intros j Hj; lia|right; by replace (S i - 0 - 1)%nat with i by lia].
Qed.
Lemma run_length_ends i c n : run_length (S i) c → (1 <= n)%nat → run_ends n i ↔ (n <= c)%nat.
Proof.
  intros (H1 & H2 & H3) Hn. split.
  - intros [A B]. destruct (Nat.le_gt_cases n c); [done|]. destruct H3 as [H3|H3]; [lia|]. rewrite B in H3; [done|lia].
  - intros Hc. split; [lia|]. intros j Hj. apply H2. lia.
Qed.
End runs.

Section acceptance.
Context (bars : list Candle) (accepted : Candle → bool).
Let P (i : nat) : bool := accepted (bars !!! i).

Lemma drop_total i : (i < length bars)%nat → drop i bars = bars !!! i :: drop (S i) bars.
Proof. intros H. destruct (lookup_lt_is_Some_2 bars i H) as [b Hb]. rewrite (list_lookup_total_correct _ _ _ Hb). by apply drop_S. Qed.
Lemma accepted_break_spec start closes i c :
  (1 <= closes)%nat → (i <= length bars)%nat → run_length P start i c → (c < closes)%nat →
  let r := accepted_break accepted (Z.of_nat closes) (drop i bars) i (Z.of_nat c) in
  (r = (-1)%Z ∧ ∀ j, (i <= j < length bars)%nat → ¬ run_ends P start closes j) ∨
  ∃ k, r = Z.of_nat k ∧ (i <= k < length bars)%nat ∧ run_ends P start closes k ∧ ∀ j, (i <= j < k)%nat → ¬ run_ends P start closes j.
Proof.
  intros Hcl. cbv zeta. remember (length bars - i)%nat as m eqn:Em. revert i c Em. induction m as [|m IH]; intros i c Em Hi Hc Hlt.
  - left. rewrite drop_ge by lia. split; [done|]. intros j Hj. lia.
  - rewrite drop_total by lia. cbn [accepted_break]. pose proof (run_length_step P start i c Hc) as Hs. unfold P in Hs at 2. fold P in Hs.
    assert (Hext : ∀ r, (∀ j, (S i <= j < r)%nat → ¬ run_ends P start closes j) → ¬ run_ends P start closes i → ∀ j, (i <= j < r)%nat → ¬ run_ends P start closes j).
    { intros r Hr Hn j Hj. destruct (decide (j = i)) as [->|]; [done|]. apply Hr. lia. }
    destruct (accepted (bars !!! i)) eqn:Ea; cbn [negb].
    + destruct (Z.geb_spec (Z.of_nat c + 1) (Z.of_nat closes)).
      * right. exists i. split_and!; [done|lia|lia| |intros j Hj; lia]. apply (run_length_ends P start i (S c)); [done|done|lia].
      * assert (Hno : ¬ run_ends P start closes i) by (rewrite (run_length_ends P start i (S c)) by done; lia).
        replace (Z.of_nat c + 1)%Z with (Z.of_nat (S c)) by lia.
        destruct (IH (S i) (S c)) as [[E Hn]|(k & E & Hk & Hr & Hn)]; [lia|lia|done|lia| |].
        -- left. split; [done|]. intros j Hj. apply (Hext (length bars)); [done|done|lia].
        -- right. exists k. split_and!; [done|lia|lia|done|]. intros j Hj. apply (Hext k); [done|done|lia].
    + assert (Hno : ¬ run_ends P start closes i) by (rewrite (run_length_ends P start i 0) by done; lia).
      destruct (IH (S i) 0%nat) as [[E Hn]|(k & E & Hk & Hr & Hn)]; [lia|lia|done|lia| |].
      -- left. split; [done|]. intros j Hj. apply (Hext (length bars)); [done|done|lia].
      -- right. exists k. split_and!; [done|lia|lia|done|]. intros j Hj. apply (Hext k); [done|done|lia].
Qed.
Lemma longest_run_spec start closes i c longest :
  (1 <= closes)%nat → (start <= i <= length bars)%nat → run_length P start i c → (closes <= longest ↔ ∃ j, (start <= j < i)%nat ∧ run_ends P start closes j)%nat →
  (closes <= snd (foldl (run_step_of accepted) (c, longest) (drop i bars)) ↔ ∃ j, (start <= j < length bars)%nat ∧ run_ends P start closes j)%nat.
Proof.
  intros Hcl. remember (length bars - i)%nat as m eqn:Em. revert i c longest Em. induction m as [|m IH]; intros i c longest Em Hi Hc Hl.
  - rewrite drop_ge by lia. cbn. by replace (length bars) with i by lia.
  - rewrite drop_total by lia. cbn [foldl]. unfold run_step_of at 2. pose proof (run_length_step P start i c Hc) as Hs. unfold P in Hs at 2. fold P in Hs.
    set (c' := if accepted (bars !!! i) then S c else 0%nat) in *. apply IH; [lia|lia|done|].
    pose proof (run_length_ends P start i c' closes Hs Hcl) as He. split.
    + destruct (Nat.ltb_spec longest c'); intros Hle.
      * exists i. split; [lia|]. by apply He.
      * apply Hl in Hle as (j & Hj & Hr). exists j. split; [lia|done].
    + intros (j & Hj & Hr). destruct (decide (j = i)) as [->|].
      * apply He in Hr. destruct (Nat.ltb_spec longest c'); lia.
      * assert (closes <= longest)%nat by (apply Hl; exists j; split; [lia|done]). destruct (Nat.ltb_spec longest c'); lia.
Qed.
End acceptance.

(** * Theorems *)

(** An edge is broken, in that its longest accepted run from the first touch reaches the required closes, exactly when the break bar is found; it
    is then the first bar that completes such a run. *)
Theorem accepted_break_exact bars level tolerance side start closes :
  (1 <= closes)%nat → (start <= length bars)%nat →
  let ends i := run_ends (λ i, accepted_close level tolerance side (bars !!! i)) start closes i in
  let r := acceptedRunBreakIndex bars level tolerance side start (Z.of_nat closes) in
  (r = (-1)%Z ∧ (maxAcceptedCloseRun bars level tolerance side start < closes)%nat ∧ ∀ j, (start <= j < length bars)%nat → ¬ ends j) ∨
  (∃ k, r = Z.of_nat k ∧ (closes <= maxAcceptedCloseRun bars level tolerance side start)%nat ∧ (start <= k < length bars)%nat ∧ ends k ∧
    ∀ j, (start <= j < k)%nat → ¬ ends j).
Proof.
  intros Hc Hs. cbv zeta. set (accepted := accepted_close level tolerance side).
  pose proof (longest_run_spec bars accepted start closes start 0 0 Hc) as Hl. destruct Hl as [L1 L2]; [lia|apply run_length_start|split; [lia|intros (j & ? & _); lia]|].
  assert (E : maxAcceptedCloseRun bars level tolerance side start = snd (foldl (run_step_of accepted) (0, 0)%nat (drop start bars))) by done.
  rewrite E. unfold acceptedRunBreakIndex. fold accepted.
  destruct (accepted_break_spec bars accepted start closes start 0 Hc Hs (run_length_start _ _)) as [[R Hn]|(k & R & Hk & Hr & Hn)]; [lia| |].
  - left. split_and!; [done| |done]. destruct (Nat.le_gt_cases closes (snd (foldl (run_step_of accepted) (0, 0)%nat (drop start bars)))) as [Hle|]; [|done].
    apply L1 in Hle as (j & Hj & Hr). by destruct (Hn j).
  - right. exists k. split_and!; [done| |lia|lia|done|done]. apply L2. by exists k.
Qed.

Section break_status.
Context (bars : list Candle) (b : BrokenBarrier) (need reclaim : nat) (Hneed : (1 <= need)%nat) (Hreclaim : (1 <= reclaim)%nat).
Let accepted (i : nat) : bool := accepted_close (bb_Level b) (bb_Tolerance b) (bb_Side b) (bars !!! i).
Let inside (i : nat) : bool := inside_close b (bars !!! i).

(** What the events up to a bar say: an edge out since the bar its retirement completed has not been reclaimed since; an edge taken back was
    reclaimed after that bar and not retired since. *)
Definition edge_out (from : nat) (latest i : Z) : Prop :=
  (latest = Z.of_nat from - 1 ∨ ∃ l, latest = Z.of_nat l ∧ (from <= l)%nat ∧ run_ends accepted from need l)%Z ∧ (latest < i)%Z ∧
  ∀ r, (latest < Z.of_nat r < i)%Z → ¬ run_ends inside from reclaim r.
Definition edge_back (from : nat) (latest i : Z) : Prop :=
  ∃ r, (latest < Z.of_nat r < i)%Z ∧ edge_out from latest (Z.of_nat r) ∧ run_ends inside from reclaim r ∧
    ∀ k, (Z.of_nat r < Z.of_nat k < i)%Z → ¬ run_ends accepted from need k.
Definition status_ok (from : nat) (s : break_state) (i : nat) : Prop :=
  (∃ c, bs_out s = Z.of_nat c ∧ run_length accepted from i c) ∧ (∃ c, bs_in s = Z.of_nat c ∧ run_length inside from i c) ∧
  if bs_reclaimed s then edge_back from (bs_latest s) (Z.of_nat i) else edge_out from (bs_latest s) (Z.of_nat i).
Definition the_step : break_state → Z * Candle → break_state :=
  break_step (accepted_close (bb_Level b) (bb_Tolerance b) (bb_Side b)) (inside_close b) (Z.of_nat need) (Z.of_nat reclaim).
Lemma status_step from s i :
  (from <= i < length bars)%nat → status_ok from s i → status_ok from (the_step s (Z.of_nat i, bars !!! i)) (S i).
Proof.
  intros Hi ((c & Hout & Hc) & (d & Hin & Hd) & Hs). unfold the_step, break_step. cbn [fst snd]. fold (accepted i). fold (inside i).
  pose proof (run_length_step _ _ _ _ Hc) as Hc'. pose proof (run_length_step _ _ _ _ Hd) as Hd'.
  set (c' := if accepted i then S c else 0%nat) in *. set (d' := if inside i then S d else 0%nat) in *.
  replace (if accepted i then (bs_out s + 1)%Z else 0%Z) with (Z.of_nat c') by (unfold c'; destruct (accepted i); lia).
  replace (if inside i then (bs_in s + 1)%Z else 0%Z) with (Z.of_nat d') by (unfold d'; destruct (inside i); lia).
  pose proof (run_length_ends _ _ _ _ need Hc' Hneed) as Ea. pose proof (run_length_ends _ _ _ _ reclaim Hd' Hreclaim) as Ei.
  assert (H1 : ∃ k, Z.of_nat c' = Z.of_nat k ∧ run_length accepted from (S i) k) by (by exists c').
  assert (H2 : ∃ k, Z.of_nat d' = Z.of_nat k ∧ run_length inside from (S i) k) by (by exists d').
  destruct (bs_reclaimed s) eqn:Er; cbn [negb andb].
  - destruct Hs as (r & Hr & Ho & Hri & Hn). destruct (Z.geb_spec (Z.of_nat c') (Z.of_nat need)).
    + split_and!; [done|done|]. cbn [bs_reclaimed bs_latest]. split_and!; [right; exists i; split_and!; [done|lia|apply Ea; lia]|lia|intros k Hk; lia].
    + split_and!; [done|done|]. cbn [bs_reclaimed bs_latest]. exists r. split_and!; [lia|lia|done|done|].
      intros k Hk. destruct (decide (k = i)) as [->|]; [rewrite Ea; lia|]. apply Hn. lia.
  - destruct Hs as (Hl & Hlt & Hn). destruct (Z.geb_spec (Z.of_nat d') (Z.of_nat reclaim)).
    + split_and!; [done|done|]. cbn [bs_reclaimed bs_latest]. exists i. split_and!; [lia|lia|split_and!; done|apply Ei; lia|intros k Hk; lia].
    + split_and!; [done|done|]. cbn [bs_reclaimed bs_latest]. split_and!; [done|lia|].
      intros k Hk. destruct (decide (k = i)) as [->|]; [rewrite Ei; lia|]. apply Hn. lia.
Qed.
Lemma status_loop from s :
  (from <= length bars)%nat → status_ok from s from →
  status_ok from (foldl the_step s (imap (λ i c, (Z.of_nat (from + i), c)) (drop from bars))) (length bars).
Proof.
  intros Hf Hs.
  assert (H : ∀ m i s, (m = length bars - i)%nat → (from <= i <= length bars)%nat → status_ok from s i →
    status_ok from (foldl the_step s (imap (λ k c, (Z.of_nat (i + k), c)) (drop i bars))) (length bars)).
  { clear s Hs. induction m as [|m IH]; intros i s Em Hi Hs.
    - rewrite drop_ge by lia. cbn. by replace (length bars) with i by lia.
    - rewrite drop_total by lia. cbn [imap foldl]. rewrite Nat.add_0_r.
      replace (imap (compose (λ k c, (Z.of_nat (i + k), c)) S) (drop (S i) bars)) with (imap (λ k c, (Z.of_nat (S i + k), c)) (drop (S i) bars)).
      2: { apply imap_ext. intros k x _. cbn. do 2 f_equal. lia. }
      apply IH; [lia|lia|]. apply status_step; [lia|done]. }
  by apply (H (length bars - from)%nat).
Qed.
End break_status.

(** The reading of a broken edge follows the alternation of its events. Retired, the edge has seen no run of enough inside closes since the
    bar on which the current retirement completed; restored, it was reclaimed by such a run after that bar, and no accepted run has
    completed since. Either way that bar is the first break or one that completed a later accepted run. *)
Theorem break_status_exact bars b reclaim :
  (0 <= bb_BreakIndex b < Z.of_nat (length bars))%Z → (1 <= reclaim)%nat →
  let from := Z.to_nat (bb_BreakIndex b + 1) in let need := Z.to_nat (Z.max 1 (bb_BreakCloses b)) in
  let '(reclaimed, latest) := BreakStatus bars b (Z.of_nat reclaim) in
  if reclaimed then edge_back bars b need reclaim from latest (Z.of_nat (length bars)) else edge_out bars b need reclaim from latest (Z.of_nat (length bars)).
Proof.
  intros Hb Hr. cbv zeta. set (from := Z.to_nat (bb_BreakIndex b + 1)). set (need := Z.to_nat (Z.max 1 (bb_BreakCloses b))).
  unfold BreakStatus. destruct (Z.ltb_spec (bb_BreakIndex b) 0); [lia|]. destruct (Z.ltb_spec (Z.of_nat reclaim) 1); [lia|]. cbn [orb].
  pose proof (status_loop bars b need reclaim ltac:(unfold need; lia) Hr from (mkBreakState false (bb_BreakIndex b) 0 0)) as H'.
  unfold break_run. fold from. unfold the_step in H'. replace (Z.of_nat need) with (Z.max 1 (bb_BreakCloses b)) in H' by (unfold need; lia).
  destruct H' as (_ & _ & H'); [unfold from; lia| |exact H'].
  split_and!; [exists 0%nat; split; [done|apply run_length_start]..|]. cbn [bs_reclaimed bs_latest].
  split_and!; [left; unfold from; lia|unfold from; lia|intros r Hrr; unfold from in Hrr; lia].
Qed.
Definition demo_edge_bar (t : Z) (close : float) : Candle := mkCandle t close (close + 1) (close - 1) close 1.
Definition demo_edge_bars : list Candle :=
  imap (λ i c, demo_edge_bar (Z.of_nat i) c) [100; 103; 103; 99; 98; 98; 103; 104; 99]%float.
Definition demo_edge : BrokenBarrier := mkBrokenBarrier "resistance" 101 100 102 1 3 2 0 0 2 2.
(** Broken at bar 2, taken back at bar 4, broken again at bar 7. *)
Lemma break_status_exact_witness :
  BreakStatus demo_edge_bars demo_edge 2 = (false, 7%Z) ∧ BreakReclaimed (take 6 demo_edge_bars) demo_edge 2 = true ∧
  edge_out demo_edge_bars demo_edge 2 2 3 7 9.
Proof.
  split; [vm_compute; reflexivity|]. split; [vm_compute; reflexivity|].
  refine (_ (break_status_exact demo_edge_bars demo_edge 2 _ _)); [|split; [discriminate|reflexivity]|repeat constructor].
  assert (E : BreakStatus demo_edge_bars demo_edge (Z.of_nat 2) = (false, 7%Z)) by (vm_compute; reflexivity).
  rewrite E. exact (fun H => H).
Defined.

(** * Clusters *)

Definition finite_contacts (l : list scalpContact) : Prop := Forall (λ c, finite (ct_price c) = true) l.
Lemma fold_max_price (l : list scalpContact) m :
  finite_contacts l → finite m = true →
  let r := foldl (λ m x, math_Max m (ct_price x)) m l in
  finite r = true ∧ (key m <= key r)%Z ∧ ∀ x, x ∈ l → (key (ct_price x) <= key r)%Z.
Proof.
  cbv zeta. intros Hl. revert m. induction Hl as [|c l Hc Hl IH]; intros m Hm; cbn [foldl]; [split_and!; [done|done|by intros x ?%not_elem_of_nil]|].
  destruct (IH (math_Max m (ct_price c))) as (H1 & H2 & H3); [by apply math_Max_finite|]. rewrite math_Max_key in H2 by done.
  split_and!; [done|lia|]. intros x [-> | Hx]%elem_of_cons; [lia|by apply H3].
Qed.
Lemma fold_min_price (l : list scalpContact) m :
  finite_contacts l → finite m = true →
  let r := foldl (λ m x, math_Min m (ct_price x)) m l in
  finite r = true ∧ (key r <= key m)%Z ∧ ∀ x, x ∈ l → (key r <= key (ct_price x))%Z.
Proof.
  cbv zeta. intros Hl. revert m. induction Hl as [|c l Hc Hl IH]; intros m Hm; cbn [foldl]; [split_and!; [done|done|by intros x ?%not_elem_of_nil]|].
  destruct (IH (math_Min m (ct_price c))) as (H1 & H2 & H3); [by apply math_Min_finite|]. rewrite math_Min_key in H2 by done.
  split_and!; [done|lia|]. intros x [-> | Hx]%elem_of_cons; [lia|by apply H3].
Qed.
Definition cluster_fits (tolerance : float) (c : list scalpContact) : Prop :=
  c ≠ [] ∧ ∀ x y, x ∈ c → y ∈ c → (ct_price y - ct_price x <=? 2 * tolerance)%float = true.
Lemma joins_span tolerance current c :
  finite_contacts (c :: current) → joins tolerance current c = true →
  ∀ x y, x ∈ c :: current → y ∈ c :: current → (ct_price y - ct_price x <=? 2 * tolerance)%float = true.
Proof.
  intros Hf Hj x y Hx Hy. pose proof Hf as Hf'. apply Forall_cons in Hf as [Hc Hf]. unfold joins in Hj. apply andb_true_iff in Hj as [_ Hj].
  destruct (fold_max_price current (ct_price c) Hf Hc) as (M1 & M2 & M3), (fold_min_price current (ct_price c) Hf Hc) as (N1 & N2 & N3).
  unfold finite_contacts in Hf'. rewrite Forall_forall in Hf'. pose proof (Hf' x Hx) as Fx. pose proof (Hf' y Hy) as Fy. cbn beta in Fx, Fy.
  rewrite leb_key in Hj |- *. apply andb_true_iff in Hj as [Hn Hk]. apply andb_true_iff in Hn as [_ Hn]. rewrite Hn, sub_not_nan by done. cbn [negb andb].
  apply Z.leb_le in Hk. apply Z.leb_le. etrans; [|exact Hk]. apply sub_mono; [done..| |].
  - apply elem_of_cons in Hy as [-> | Hy]; [done|by apply M3].
  - apply elem_of_cons in Hx as [-> | Hx]; [done|by apply N3].
Qed.

(** Clustering cuts the contacts, in price order, into consecutive groups, no two prices of a group further apart than twice the tolerance. *)
Theorem clusters_bounded contacts tolerance :
  finite_contacts contacts → (0 <=? 2 * tolerance)%float = true →
  concat (clusterContacts contacts tolerance) = sort_slice contact_less contacts ∧ Forall (cluster_fits tolerance) (clusterContacts contacts tolerance).
Proof.
  intros Hf Ht. unfold clusterContacts. set (sorted := sort_slice contact_less contacts).
  assert (Hs : finite_contacts sorted) by (unfold finite_contacts, sorted; by rewrite sort_slice_perm).
  assert (H : ∀ todo acc, finite_contacts (concat (reverse acc) ++ todo) → Forall (cluster_fits tolerance) acc →
    concat (reverse (foldl (contact_step tolerance) acc todo)) = concat (reverse acc) ++ todo ∧ Forall (cluster_fits tolerance) (foldl (contact_step tolerance) acc todo)).
  { induction todo as [|c todo IH]; intros acc Hc Ha; cbn [foldl]; [by rewrite app_nil_r|].
    assert (Hone : finite (ct_price c) = true → cluster_fits tolerance [c]).
    { intros Hfc. split; [done|]. intros x y ->%list_elem_of_singleton ->%list_elem_of_singleton. rewrite leb_key in Ht |- *.
      rewrite sub_not_nan by done. apply andb_true_iff in Ht as [Hn Hk]. apply andb_true_iff in Hn as [_ Hn]. rewrite Hn. cbn [negb andb].
      apply Z.leb_le in Hk. apply Z.leb_le. rewrite key_0 in Hk. destruct (key_repr (ct_price c) Hfc). rewrite key_sub, Z.sub_diag, rnd_0 by done. done. }
    assert (Hfc : finite (ct_price c) = true) by (apply Forall_app in Hc as [_ Hc]; by apply Forall_cons in Hc as [? _]).
    unfold contact_step at 2 4. destruct acc as [|current rest].
    - destruct (IH [[c]]) as [E F]; [done|by repeat constructor; apply Hone|]. rewrite E. split; [done|done].
    - destruct (joins tolerance current c) eqn:J.
      + assert (Ecat : concat (reverse ((current ++ [c]) :: rest)) = concat (reverse (current :: rest)) ++ [c]).
        { rewrite !reverse_cons, !concat_app. cbn. by rewrite !app_nil_r, app_assoc. }
        destruct (IH ((current ++ [c]) :: rest)) as [E F]; [rewrite Ecat, <- app_assoc; exact Hc| |rewrite E, Ecat, <- app_assoc; done].
        apply Forall_cons in Ha as [[Hne Hcur] Ha]. constructor; [|done]. split; [by destruct current|].
        assert (Hfcur : finite_contacts (c :: current)).
        { constructor; [done|]. unfold finite_contacts in Hc. rewrite reverse_cons, concat_app, !Forall_app in Hc. destruct Hc as [[_ Hc] _]. cbn in Hc. by rewrite app_nil_r in Hc. }
        intros x y Hx Hy. apply (joins_span tolerance current c Hfcur J); [clear -Hx|clear -Hy]; set_solver.
      + assert (Ecat : concat (reverse ([c] :: current :: rest)) = concat (reverse (current :: rest)) ++ [c]).
        { rewrite (reverse_cons _ [c]), concat_app. cbn. done. }
        destruct (IH ([c] :: current :: rest)) as [E F]; [rewrite Ecat, <- app_assoc; exact Hc| |rewrite E, Ecat, <- app_assoc; done].
        constructor; [by apply Hone|done]. }
  destruct (H sorted []) as [E F]; [done|constructor|]. split; [exact E|]. apply Forall_reverse. exact F.
Qed.
