(* ===== verification/ScalpRange.v ===== *)
(** Package techniquezone, scalp.go, second half: the barriers made of the clusters, the fallback edge, and the best local range with
    its state. *)
From S2P Require Import Prelude Float64 Market TechniqueBars ScalpContacts.
From S2P Require Import TechniqueScore.
From S2P Require Barrier.
From Stdlib Require Import Floats.

(** * Data *)

Record ScalpBarrier := mkScalpBarrier {
  sb_Side : string; sb_Level : float; sb_Low : float; sb_High : float; sb_Touches : nat; sb_WickRejections : nat; sb_AcceptedCloses : nat;
  sb_LastTouchIndex : nat; sb_FirstTouchIndex : nat; sb_BodyHolds : nat; sb_Age : nat; sb_Tags : list string; sb_Score : float;
  sb_Grade : string; sb_ConfidenceGrade : string; sb_Sources : list string; sb_ClassName : string; sb_Fallback : bool;
  sb_Invalidated : bool; sb_Tested : bool
}.
Record ScalpRange_ := mkScalpRange {
  sr_Lower : ScalpBarrier; sr_Upper : ScalpBarrier; sr_Equilibrium : float; sr_WidthATR : float; sr_Quality : float; sr_State : string;
  sr_InsideCloses : nat; sr_OneSided : bool; sr_PostImpulse : bool
}.
Record ScalpLine := mkScalpLine { sl_Kind : string; sl_Broken : bool; sl_Touches : Z; sl_Value : float }.
Record ScalpStructure := mkScalpStructure {
  ss_Barriers : list ScalpBarrier; ss_Broken : list BrokenBarrier; ss_Range : option ScalpRange_; ss_State : string
}.

(** * Barriers *)

(** [strings.ToLower] on the text of the tags, whose only letters are ASCII. *)
Definition lower_byte (a : Ascii.ascii) : Ascii.ascii :=
  let n := Ascii.nat_of_ascii a in if (65 <=? n)%nat && (n <=? 90)%nat then Ascii.ascii_of_nat (n + 32) else a.
Fixpoint ToLower (s : string) : string := match s with EmptyString => EmptyString | String a s => String (lower_byte a) (ToLower s) end.
(** [math.RoundToEven]. *)
Definition math_RoundToEven : float → float :=
  round_with (λ _ m e, (e <? 0)%Z && ((2 ^ (- e) <? half_part m e)%Z || ((2 ^ (- e) =? half_part m e)%Z && Z.odd (int_part m e)))).
Definition session_tags (level tolerance : float) (sessions : list SessionRef) : list string :=
  omap (λ s, let name := Barrier.ToUpper (TechniqueScore.sr_Name s) in
    if bool_decide (name ∈ scalpSessionNames) && (abs (TechniqueScore.sr_Price s - level) <=? tolerance)%float then Some ("session " +:+ name) else None) sessions.
Definition uniqueTags (tags : list string) : list string :=
  snd (foldl (λ '(seen, out) tag, if bool_decide (tag ≠ "") && bool_decide (ToLower tag ∉ seen) then (ToLower tag :: seen, out ++ [tag]) else (seen, out))
    ([], []) tags).
Definition barrierTags (side : string) (level : float) (touches wicks : nat) (tolerance : float) (sessions : list SessionRef) (lines : list ScalpLine)
    (regimeHigh regimeLow : float) (hasRegime : bool) (roundStep : float) : list string :=
  uniqueTags (
    ["micro ×" +:+ pretty (Z.of_nat touches); "wick ×" +:+ pretty (Z.of_nat wicks)] ++
    session_tags level tolerance sessions ++
    (if hasRegime then
       (if bool_decide (side = "resistance") && (abs (regimeHigh - level) <=? tolerance)%float then ["box-top"] else []) ++
       (if bool_decide (side = "support") && (abs (regimeLow - level) <=? tolerance)%float then ["box-bottom"] else [])
     else []) ++
    omap (λ l, if sl_Broken l || bool_decide (sl_Kind l ≠ side) then None
               else if (abs (sl_Value l - level) <=? tolerance)%float then Some ("TL " +:+ side +:+ " ×" +:+ pretty (sl_Touches l)) else None) lines ++
    (if (roundStep >? 0)%float && (abs (math_RoundToEven (level / roundStep) * roundStep - level) <=? tolerance)%float then ["round"] else [])).
(** The value at three decimals, read back: the exact value rounded half to even, then the nearest float. The quotient is correctly
    rounded, hence that float, for less than 2^53 thousandths; scores are at most 15 points and two points per bar away from nought. *)
Definition pythonRound3 (value : float) : float :=
  match Prim2SF value with
  | S754_finite s m e =>
      let scaled := (Zpos m * 1000)%Z in
      let q := (f64_of_Z (if (0 <=? e)%Z then scaled * 2 ^ e else rne scaled (- e))%Z / 1000)%float in
      if s then (- q)%float else q
  | _ => value
  end.
Definition barrierScore (touches wicks acceptedCloses : nat) (confluences : Z) (lastTouch barCount bodyHolds : nat) (fallback : bool) : float :=
  let score := (math_Min 5 (f64_of_Z (Z.of_nat touches)) * 1.2)%float in
  let score := (score + math_Min 4 (f64_of_Z (Z.of_nat wicks)))%float in
  let score := (score + math_Min 3 (f64_of_Z (Z.of_nat bodyHolds)) * 0.5)%float in
  let score := (score + math_Min 3 (f64_of_Z (Z.max 0 confluences)) * 0.75)%float in
  let score := if (Z.of_nat lastTouch >=? Z.of_nat barCount - 3)%Z then (score + 1)%float else score in
  let score := (score - f64_of_Z (Z.of_nat acceptedCloses) * 2)%float in
  let score := if fallback then (score * 0.65)%float else score in
  math_Max 0 (pythonRound3 score).
Definition barrierGrade (score : float) (touches wicks : nat) (tags : list string) : string :=
  let structural := existsb (λ t, String.prefix "session " t || String.prefix "TL " t || bool_decide (t = "box-top") || bool_decide (t = "box-bottom")) tags in
  if (score >=? 8)%float && (3 <=? touches)%nat && ((2 <=? wicks)%nat || structural) then "A"
  else if (score >=? 4)%float && (2 <=? touches)%nat then "B"
  else if (score >? 0)%float then "C" else "invalid".
Definition barrierClass (grade : string) (tags : list string) : string :=
  if existsb (String.prefix "session ") tags then "major"
  else if bool_decide (grade = "A") then "structural" else if bool_decide (grade = "B") then "local" else "micro".
Definition barrier_less (a b : ScalpBarrier) : bool :=
  if bool_decide (sb_Side a ≠ sb_Side b) then str_lt (sb_Side a) (sb_Side b)
  else if (sb_Level a <>? sb_Level b)%float then (sb_Level a <? sb_Level b)%float
  else (- sb_Score a <? - sb_Score b)%float.
Definition barrierRankGreater (a b : ScalpBarrier) : bool :=
  if negb (Bool.eqb (sb_Fallback a) (sb_Fallback b)) then negb (sb_Fallback a)
  else if (sb_Score a <>? sb_Score b)%float then (sb_Score a >? sb_Score b)%float
  else if negb (sb_Touches a =? sb_Touches b)%nat then (sb_Touches b <? sb_Touches a)%nat
  else if negb (sb_WickRejections a =? sb_WickRejections b)%nat then (sb_WickRejections b <? sb_WickRejections a)%nat
  else if negb (sb_LastTouchIndex a =? sb_LastTouchIndex b)%nat then (sb_LastTouchIndex b <? sb_LastTouchIndex a)%nat
  else (- sb_Level a >? - sb_Level b)%float.
(** The barriers kept, the last one first. *)
Definition keep_barrier (tolerance : float) (kept : list ScalpBarrier) (b : ScalpBarrier) : list ScalpBarrier :=
  match kept with
  | last :: rest =>
      if bool_decide (sb_Side last = sb_Side b) && (abs (sb_Level last - sb_Level b) <=? tolerance)%float
      then (if barrierRankGreater b last then b :: rest else kept) else b :: kept
  | [] => [b]
  end.
Definition dedupBarriers (barriers : list ScalpBarrier) (tolerance : float) : list ScalpBarrier :=
  reverse (foldl (keep_barrier tolerance) [] (sort_slice barrier_less barriers)).
(** What a cluster becomes: nothing, an edge price accepted beyond, or a barrier. *)
Inductive cluster_outcome :=
  | Ignored
  | Broke (b : BrokenBarrier)
  | Holds (b : ScalpBarrier).
Record scalp_inputs := mkScalpInputs {
  in_bars : list Candle; in_sessions : list SessionRef; in_lines : list ScalpLine; in_regimeHigh : float; in_regimeLow : float;
  in_hasRegime : bool; in_clusterTolerance : float; in_entryTolerance : float; in_maxEdgeWidth : float
}.
Definition judge_cluster (i : scalp_inputs) (cfg : ScalpConfig) (side : string) (cluster : list scalpContact) : cluster_outcome :=
  let bars := in_bars i in let episodes := touchEpisodes cluster in let touches := length episodes in
  match episodes, last episodes with
  | first :: _, Some lst =>
      if (Z.of_nat touches <? Z.max 2 (MinimumTouches cfg))%Z then Ignored
      else
        let wicks := length (List.filter ct_rejected episodes) in let holds := length (List.filter ct_bodyHold episodes) in
        let level := (pySum (map ct_price episodes) / f64_of_Z (Z.of_nat touches))%float in
        if (wicks <? 2)%nat then Ignored
        else
          let accepted := maxAcceptedCloseRun bars level (in_entryTolerance i) side (ct_index first) in
          let breakCloses := Z.max 1 (BreakCloses cfg) in let halfWidth := math_Min (in_entryTolerance i) (in_maxEdgeWidth i / 2) in
          if (Z.of_nat accepted >=? breakCloses)%Z
          then Broke (mkBrokenBarrier side level (level - halfWidth) (level + halfWidth) (in_entryTolerance i) touches wicks (ct_index first)
                 (ct_index lst) (acceptedRunBreakIndex bars level (in_entryTolerance i) side (ct_index first) breakCloses) breakCloses)
          else
            let tags := barrierTags side level touches wicks (in_clusterTolerance i) (in_sessions i) (in_lines i) (in_regimeHigh i) (in_regimeLow i)
              (in_hasRegime i) (sc_RoundStep cfg) in
            let score := barrierScore touches wicks accepted (Z.of_nat (length tags) - 2) (ct_index lst) (length bars) holds false in
            let grade := barrierGrade score touches wicks tags in
            Holds (mkScalpBarrier side level (level - halfWidth) (level + halfWidth) touches wicks accepted (ct_index lst) (ct_index first) holds
              (length bars - 1 - ct_index lst) tags score grade grade (sources_of episodes) (barrierClass grade tags) false false true)
  | _, _ => Ignored
  end.
Definition broken_less (a b : BrokenBarrier) : bool :=
  if negb (bb_BreakIndex a =? bb_BreakIndex b)%Z then (bb_BreakIndex a <? bb_BreakIndex b)%Z
  else if bool_decide (bb_Side a ≠ bb_Side b) then str_lt (bb_Side a) (bb_Side b) else (bb_Level a <? bb_Level b)%float.

(** * The fallback edge *)

(** The extreme of the bars by [better]: the first bar no later one betters. *)
Definition arg_best (better : Candle → Candle → bool) (bars : list Candle) : option (nat * Candle) :=
  foldl (λ best p, match best with None => Some p | Some (i, b) => if better p.2 b then Some p else best end) None (imap pair bars).
(** The level and frame index of the fallback edge: the extreme of the bars since the opposite edge was first touched, or the extreme beyond
    the price among them when that one is not. *)
Definition fallback_level (support : bool) (frame relevant : list Candle) (relevantStart : nat) (price : float) : option (float * nat) :=
  let value := if support then c_Low else c_High in
  let better (a b : Candle) := if support then (value a <? value b)%float else (value a >? value b)%float in
  match arg_best better relevant with
  | None => None
  | Some (k, b) =>
      if negb (if support then (value b >=? price)%float else (value b <=? price)%float) then Some (value b, (k + relevantStart)%nat)
      else
        let beyond (p : nat * Candle) := if support then (value p.2 <? price - scalpEpsilon)%float else (value p.2 >? price + scalpEpsilon)%float in
        match foldl (λ best p, if beyond p && match best with None => true | Some (_, l) => if support then (value p.2 <? l)%float else (value p.2 >? l)%float end
                     then Some (p.1, value p.2) else best) None (imap pair relevant) with
        | None => None
        | Some (k, level) =>
            Some (level, from_option fst (k + relevantStart)%nat
              (List.find (λ p : nat * Candle, (relevantStart <=? p.1)%nat && (value p.2 =? level)%float) (imap pair frame)))
        end
  end.
Definition fallback_touch (support : bool) (level tolerance : float) (b : Candle) : bool :=
  if (bar_span b <=? scalpEpsilon)%float then false
  else if support then (c_Low b <=? level + tolerance)%float && (c_High b >=? level - tolerance)%float
  else (c_High b >=? level - tolerance)%float && (c_Low b <=? level + tolerance)%float.
Definition fallback_reject (support : bool) (level tolerance fraction : float) (b : Candle) : bool :=
  fallback_touch support level tolerance b &&
  (if support then (((math_Min (c_Open b) (c_Close b) - c_Low b) / bar_span b >=? fraction)%float && (c_Close b >? level)%float)
   else (((c_High b - math_Max (c_Open b) (c_Close b)) / bar_span b >=? fraction)%float && (c_Close b <? level)%float)).
Definition closes_inside (lower upper : float) (b : Candle) : bool :=
  (lower - scalpEpsilon <=? c_Close b)%float && (c_Close b <=? upper + scalpEpsilon)%float.
Definition count {A} (t : A → bool) (l : list A) : nat := length (List.filter t l).
Definition fallbackBarrier (support : bool) (frame : list Candle) (offset : nat) (bars : list Candle) (atrValue entryTolerance maxEdgeWidth price : float)
    (sessions : list SessionRef) (opposite : list ScalpBarrier) (cfg : ScalpConfig) : option ScalpBarrier :=
  match frame, opposite with
  | [], _ | _, [] => None
  | _, opp :: _ =>
      let relevantStart := Nat.min (length frame) (sb_FirstTouchIndex opp - offset) in
      let relevant := if (relevantStart <? length frame)%nat then drop relevantStart frame else frame in
      match fallback_level support frame relevant relevantStart price with
      | None => None
      | Some (level, extremeIndex) =>
          let width := abs (sb_Level opp - level) in
          if (width <? atrValue * FallbackMinWidthATR cfg)%float || (width >? atrValue * FallbackMaxWidthATR cfg)%float then None
          else
            let absIndex := (extremeIndex + offset)%nat in let tolerance := entryTolerance in
            let touches := count (fallback_touch support level tolerance) frame in
            let wicks := count (fallback_reject support level tolerance (FallbackWickFraction cfg)) frame in
            let sessionOverlap := existsb (λ s, bool_decide (Barrier.ToUpper (TechniqueScore.sr_Name s) ∈ scalpSessionNames) &&
              (abs (TechniqueScore.sr_Price s - level) <=? tolerance)%float) sessions in
            let inside := count (closes_inside (math_Min level (sb_Level opp)) (math_Max level (sb_Level opp))) frame in
            let confirmations := (Nat.b2n (2 <=? touches)%nat + Nat.b2n (1 <=? wicks)%nat + Nat.b2n sessionOverlap +
              Nat.b2n (Z.of_nat inside >=? Z.max 3 (MinimumInsideCloses cfg))%Z)%nat in
            if (Z.of_nat confirmations <? Z.max 1 (FallbackMinConfirmations cfg))%Z then None
            else
              let halfWidth := math_Min entryTolerance (maxEdgeWidth / 2) in
              let tags := ["fallback_local_extreme"; "micro ×" +:+ pretty (Z.of_nat (Nat.max 1 touches)); "wick ×" +:+ pretty (Z.of_nat wicks)] ++
                (if sessionOverlap then ["session overlap"] else []) in
              let score := barrierScore (Nat.max 1 touches) wicks 0 (Z.b2z sessionOverlap) absIndex (length bars) 0 true in
              let grade := if (2 <=? confirmations)%nat && (score >=? 3)%float then "B" else "C" in
              Some (mkScalpBarrier (if support then "support" else "resistance") level (level - halfWidth) (level + halfWidth) (Nat.max 1 touches) wicks 0
                absIndex absIndex 0 (length bars - 1 - absIndex) tags score grade grade ["fallback_local_extreme"] "micro" true false (2 <=? touches)%nat)
      end
  end.

(** * The best range *)

Definition firstNonEmpty (values : list string) : string := default "" (List.find (λ v, bool_decide (v ≠ "")) values).
Definition executableEdge (b : ScalpBarrier) : bool :=
  let grade := Barrier.ToUpper (firstNonEmpty [sb_ConfidenceGrade b; sb_Grade b; "C"]) in
  let good := bool_decide (grade = "A") || bool_decide (grade = "B") in
  if sb_Invalidated b || bool_decide (grade = "INVALID") then false
  else if sb_Fallback b
  then good && ((2 <=? sb_Touches b)%nat || (1 <=? sb_WickRejections b)%nat || existsb (String.prefix "session") (sb_Tags b))
  else good.
(** [bars[from:]] for [from] at least nought; past the end it panics, [None] here. *)
Definition tail_from {A} (l : list A) (from : Z) : option (list A) :=
  if (from >? Z.of_nat (length l))%Z then None else Some (drop (Z.to_nat from) l).
Definition insideCloses (bars : list Candle) (lower upper : float) (lookback : Z) : option nat :=
  count (closes_inside lower upper) <$> tail_from bars (Z.max 0 (Z.of_nat (length bars) - lookback)).
(** The first element of an empty window panics. *)
Definition isPostImpulse (bars : list Candle) (atrValue lower upper : float) (cfg : ScalpConfig) : option bool :=
  let n := Z.of_nat (length bars) in
  if (n <? 8)%Z || (atrValue <=? 0)%float then Some false
  else
    window ← tail_from bars (Z.max 0 (n - Z.min (PostImpulseLookbackBars cfg) n));
    w ← head window;
    let maxClose := foldl (λ m b, math_Max m (c_Close b)) (c_Close w) window in
    let minClose := foldl (λ m b, math_Min m (c_Close b)) (c_Close w) window in
    if ((maxClose - minClose) / atrValue <? PostImpulseMinDisplaceATR cfg)%float then Some false
    else
      recent ← tail_from bars (n - Z.min (PostImpulseRecentBars cfg) n);
      r ← head recent;
      let high := max_high recent (c_High r) in let low := min_low recent (c_Low r) in
      if ((high - low) / atrValue >? PostImpulseMaxContractATR cfg)%float then Some false
      else Some (Z.of_nat (count (closes_inside lower upper) recent) >=? PostImpulseMinInside cfg)%Z.
Definition abGrade (b : ScalpBarrier) : bool := bool_decide (sb_ConfidenceGrade b = "A") || bool_decide (sb_ConfidenceGrade b = "B").
(** The state a pair of edges deserves, none when it is no range. *)
Definition range_state (cfg : ScalpConfig) (lower upper : ScalpBarrier) (insideEnough postImpulse : bool) : option string :=
  let lowerOK := executableEdge lower in let upperOK := executableEdge upper in
  let bothStrong := lowerOK && upperOK && negb (sb_Fallback lower) && negb (sb_Fallback upper) in
  let oneFallback := xorb (sb_Fallback lower) (sb_Fallback upper) && (lowerOK || upperOK) in
  let rejectionOK := (1 <=? sb_WickRejections lower)%nat || (1 <=? sb_WickRejections upper)%nat || (1 <=? sb_BodyHolds lower)%nat || (1 <=? sb_BodyHolds upper)%nat in
  if bothStrong && insideEnough && rejectionOK then Some (if postImpulse then RangeStatePostImpulse else RangeStateConfirmed)
  else if ProvisionalEnabled cfg && oneFallback && insideEnough && rejectionOK then Some RangeStateProvisional
  else if ProvisionalEnabled cfg && (lowerOK || upperOK) && insideEnough && rejectionOK &&
    ((sb_Fallback lower && abGrade upper) || (sb_Fallback upper && abGrade lower) || (abGrade lower && abGrade upper))
  then Some (if postImpulse then RangeStatePostImpulse else RangeStateProvisional)
  else None.
Definition minimum_width (cfg : ScalpConfig) : float := math_Max (math_Max 0 (MinimumWidthATR cfg)) (2 * math_Max 0 (MinimumRoomATR cfg)).
Definition fits (cfg : ScalpConfig) (price atr : float) (lower upper : ScalpBarrier) : bool :=
  let width := (sb_Level upper - sb_Level lower)%float in let widthATR := (width / atr)%float in
  let eq := ((sb_Level lower + sb_Level upper) / 2)%float in
  negb (width <=? 0)%float &&
  ((minimum_width cfg <=? widthATR)%float && (widthATR <=? math_Max (minimum_width cfg) (MaximumWidthATR cfg))%float) &&
  negb ((price <? sb_Low lower - scalpEpsilon)%float || (price >? sb_High upper + scalpEpsilon)%float) &&
  negb (math_Min (eq - sb_Level lower) (sb_Level upper - eq) / atr <? math_Max 0 (MinimumRoomATR cfg))%float.
(** The range of a pair, [Some None] when the pair is no range and [None] for a panic. *)
Definition pair_range (cfg : ScalpConfig) (price atr : float) (bars : list Candle) (lower upper : ScalpBarrier) : option (option ScalpRange_) :=
  if negb (fits cfg price atr lower upper) then Some None
  else
    inside ← insideCloses bars (sb_Level lower) (sb_Level upper) (InsideLookbackBars cfg);
    postImpulse ← if PostImpulseEnabled cfg then isPostImpulse bars atr (sb_Level lower) (sb_Level upper) cfg else Some false;
    match range_state cfg lower upper (Z.of_nat inside >=? Z.max 1 (MinimumInsideCloses cfg))%Z postImpulse with
    | None => Some None
    | Some state =>
        let breakCloses := Z.max 1 (BreakCloses cfg) in
        if (Z.of_nat (sb_AcceptedCloses lower) >=? breakCloses)%Z || (Z.of_nat (sb_AcceptedCloses upper) >=? breakCloses)%Z then Some None
        else
          let quality := (sb_Score lower + sb_Score upper)%float in
          let quality := if bool_decide (state = RangeStateProvisional) then (quality * 0.75)%float else quality in
          let quality := if bool_decide (state = RangeStatePostImpulse) then (quality * 0.85)%float else quality in
          Some (Some (mkScalpRange lower upper ((sb_Level lower + sb_Level upper) / 2) ((sb_Level upper - sb_Level lower) / atr) quality state inside
            (sb_Fallback lower || sb_Fallback upper) (bool_decide (state = RangeStatePostImpulse))))
    end.
Definition state_rank (state : string) : nat :=
  if bool_decide (state = RangeStateConfirmed) then 0 else if bool_decide (state = RangeStatePostImpulse) then 1 else 2.
Definition rangeBefore (a b : ScalpRange_) (price : float) : bool :=
  let da := abs (price - sr_Equilibrium a) in let db := abs (price - sr_Equilibrium b) in
  if negb (state_rank (sr_State a) =? state_rank (sr_State b))%nat then (state_rank (sr_State a) <? state_rank (sr_State b))%nat
  else if (sr_Quality a <>? sr_Quality b)%float then (sr_Quality a >? sr_Quality b)%float
  else if (da <>? db)%float then (da <? db)%float
  else if (sr_WidthATR a <>? sr_WidthATR b)%float then (sr_WidthATR a <? sr_WidthATR b)%float
  else if (sb_Level (sr_Lower a) <>? sb_Level (sr_Lower b))%float then (sb_Level (sr_Lower a) <? sb_Level (sr_Lower b))%float
  else (sb_Level (sr_Upper a) <? sb_Level (sr_Upper b))%float.
Definition is_support (price : float) (b : ScalpBarrier) : bool :=
  bool_decide (sb_Side b = "support") && negb (sb_Invalidated b) && (sb_Low b <=? price + scalpEpsilon)%float.
Definition is_resistance (price : float) (b : ScalpBarrier) : bool :=
  bool_decide (sb_Side b = "resistance") && negb (sb_Invalidated b) && (sb_High b >=? price - scalpEpsilon)%float.
Definition pairs_of (barriers : list ScalpBarrier) (price : float) : list (ScalpBarrier * ScalpBarrier) :=
  concat (map (λ l, map (pair l) (List.filter (is_resistance price) barriers)) (List.filter (is_support price) barriers)).
Definition range_candidates (cfg : ScalpConfig) (price atr : float) (bars : list Candle) (barriers : list ScalpBarrier) : option (list ScalpRange_) :=
  omap id <$> mapM (λ p, pair_range cfg price atr bars p.1 p.2) (pairs_of barriers price).
Definition best_of (price : float) (first : ScalpRange_) (rest : list ScalpRange_) : ScalpRange_ :=
  foldl (λ best c, if rangeBefore c best price then c else best) first rest.
Definition bestRangeWithState (barriers : list ScalpBarrier) (price atr : float) (cfg : ScalpConfig) (bars : list Candle) : option (option ScalpRange_ * string) :=
  if (atr <=? 0)%float then Some (None, RangeStateNoRange)
  else
    candidates ← range_candidates cfg price atr bars barriers;
    match candidates with
    | [] => Some (None, RangeStateNoRange)
    | c :: rest => let best := best_of price c rest in Some (Some best, sr_State best)
    end.

(** * The builder *)

Definition inputs_of (bars : list Candle) (sessions : list SessionRef) (lines : list ScalpLine) (regimeHigh regimeLow : float) (hasRegime : bool)
    (frame : list Candle) (atrValue : float) (cfg : ScalpConfig) : scalp_inputs :=
  let entryTolerance := math_Max scalpEpsilon (atrValue * math_Max 0 (EntryToleranceATR cfg)) in
  mkScalpInputs bars sessions lines regimeHigh regimeLow hasRegime (scalpClusterTolerance atrValue frame cfg) entryTolerance
    (math_Max entryTolerance (atrValue * math_Max 0.05 (MaximumEdgeWidthATR cfg))).
Definition outcomes_of (i : scalp_inputs) (cfg : ScalpConfig) (frame : list Candle) (offset : nat) (atr : list float) : list cluster_outcome :=
  let atrTail := if (length frame <=? length atr)%nat then Some (drop (length atr - length frame) atr) else None in
  let minimumWick := math_Max 0 (math_Min 1 (MinimumWickFraction cfg)) in
  concat (map (λ side, map (judge_cluster i cfg side) (clusterContacts (scalpContacts frame offset atrTail minimumWick side) (in_clusterTolerance i)))
    ["support"; "resistance"]).
Definition with_fallback (i : scalp_inputs) (cfg : ScalpConfig) (frame : list Candle) (offset : nat) (atrValue current : float)
    (barriers : list ScalpBarrier) : list ScalpBarrier :=
  let supports := List.filter (λ b, bool_decide (sb_Side b = "support")) barriers in
  let resistances := List.filter (λ b, bool_decide (sb_Side b ≠ "support")) barriers in
  let added support opposite :=
    match fallbackBarrier support frame offset (in_bars i) atrValue (in_entryTolerance i) (in_maxEdgeWidth i) current (in_sessions i) opposite cfg with
    | Some b => barriers ++ [b] | None => barriers end in
  if negb (FallbackEnabled cfg) then barriers
  else match supports, resistances with
       | [], _ :: _ => added true resistances
       | _ :: _, [] => added false supports
       | _, _ => barriers
       end.
Definition BuildScalpStructure (bars : list Candle) (atr : list float) (sessions : list SessionRef) (lines : list ScalpLine) (regimeHigh regimeLow : float)
    (hasRegime : bool) (cfg : ScalpConfig) : option ScalpStructure :=
  let atrValue := lastPositive atr in
  match last bars with
  | None => Some (mkScalpStructure [] [] None RangeStateNoRange)
  | Some lst =>
      if (atrValue <=? 0)%float then Some (mkScalpStructure [] [] None RangeStateNoRange)
      else
        let offset := (length bars - Z.to_nat (Z.max 5 (Lookback cfg)))%nat in let frame := drop offset bars in
        let i := inputs_of bars sessions lines regimeHigh regimeLow hasRegime frame atrValue cfg in
        let outcomes := outcomes_of i cfg frame offset atr in
        let barriers := dedupBarriers (omap (λ o, match o with Holds b => Some b | _ => None end) outcomes) (in_clusterTolerance i) in
        let broken := sort_slice broken_less (omap (λ o, match o with Broke b => Some b | _ => None end) outcomes) in
        if recentBreakoutDisplacement bars atrValue cfg then Some (mkScalpStructure barriers broken None RangeStateBroken)
        else
          let barriers := dedupBarriers (with_fallback i cfg frame offset atrValue (c_Close lst) barriers) (in_clusterTolerance i) in
          best ← bestRangeWithState barriers (c_Close lst) atrValue cfg bars;
          Some (mkScalpStructure barriers broken best.1 best.2)
  end.

(** * Lemmas: the order of ranges *)

(** The quantities of a range are numbers. *)
Definition orderly (price : float) (r : ScalpRange_) : Prop :=
  IsNaN (sr_Quality r) = false ∧ IsNaN (abs (price - sr_Equilibrium r)) = false ∧ IsNaN (sr_WidthATR r) = false ∧
  IsNaN (sb_Level (sr_Lower r)) = false ∧ IsNaN (sb_Level (sr_Upper r)) = false.
Definition range_keys (price : float) (r : ScalpRange_) : list Z :=
  [Z.of_nat (state_rank (sr_State r)); (- key (sr_Quality r))%Z; key (abs (price - sr_Equilibrium r)); key (sr_WidthATR r);
   key (sb_Level (sr_Lower r)); key (sb_Level (sr_Upper r))].
Lemma rangeBefore_keys price a b : orderly price a → orderly price b → rangeBefore a b price = lex_lt (range_keys price a) (range_keys price b).
Proof.
  intros (A1 & A2 & A3 & A4 & A5) (B1 & B2 & B3 & B4 & B5). unfold rangeBefore, range_keys. cbn [lex_lt].
  rewrite !eqb_num, !ltb_num by done.
  destruct (Nat.eqb_spec (state_rank (sr_State a)) (state_rank (sr_State b))) as [E|E], (Z.eqb_spec (Z.of_nat (state_rank (sr_State a))) (Z.of_nat (state_rank (sr_State b)))); try lia; cbn [negb].
  - destruct (Z.eqb_spec (key (sr_Quality a)) (key (sr_Quality b))), (Z.eqb_spec (- key (sr_Quality a)) (- key (sr_Quality b))); try lia; cbn [negb].
    + repeat match goal with |- context [(?x =? ?y)%Z] => destruct (Z.eqb_spec x y); cbn [negb] end; try done; lia.
    + destruct (Z.ltb_spec (key (sr_Quality b)) (key (sr_Quality a))), (Z.ltb_spec (- key (sr_Quality a)) (- key (sr_Quality b))); done || lia.
  - destruct (Nat.ltb_spec (state_rank (sr_State a)) (state_rank (sr_State b))), (Z.ltb_spec (Z.of_nat (state_rank (sr_State a))) (Z.of_nat (state_rank (sr_State b)))); done || lia.
Qed.
Lemma best_of_spec price first rest :
  Forall (orderly price) (first :: rest) →
  best_of price first rest ∈ first :: rest ∧ ∀ c, c ∈ first :: rest → rangeBefore c (best_of price first rest) price = false.
Proof.
  intros H. apply (foldl_lex_best (λ a b, rangeBefore a b price) (range_keys price) (orderly price)); [|done]. apply rangeBefore_keys.
Qed.

Lemma elem_of_pairs barriers price l u :
  (l, u) ∈ pairs_of barriers price ↔ (l ∈ barriers ∧ is_support price l = true) ∧ u ∈ barriers ∧ is_resistance price u = true.
Proof.
  unfold pairs_of. rewrite list_elem_of_In, in_concat. split.
  - intros (x & Hx & Hin). apply in_map_iff in Hx as (l' & <- & Hl). apply in_map_iff in Hin as (u' & [= -> ->] & Hu).
    apply filter_In in Hl as [? ?], Hu as [? ?]. rewrite !list_elem_of_In. done.
  - rewrite !list_elem_of_In. intros ([Hl Hs] & Hu & Hr). exists (map (pair l) (List.filter (is_resistance price) barriers)). split.
    + apply (in_map (λ l, map (pair l) (List.filter (is_resistance price) barriers))). by apply filter_In.
    + apply in_map. by apply filter_In.
Qed.
Lemma elem_of_candidates cfg price atr bars barriers cs c :
  range_candidates cfg price atr bars barriers = Some cs →
  c ∈ cs ↔ ∃ l u, (l, u) ∈ pairs_of barriers price ∧ pair_range cfg price atr bars l u = Some (Some c).
Proof.
  unfold range_candidates. intros (os & Hm & ->)%fmap_Some. apply mapM_Some in Hm. rewrite list_elem_of_omap. split.
  - intros (o & Ho & E). unfold id in E. subst o. apply list_elem_of_lookup in Ho as [i Hi]. destruct (Forall2_lookup_r _ _ _ _ _ Hm Hi) as ([l u] & Hp & Epr).
    exists l, u. split; [by eapply list_elem_of_lookup_2|done].
  - intros (l & u & Hp & E). apply list_elem_of_lookup in Hp as [i Hi]. destruct (Forall2_lookup_l _ _ _ _ _ Hm Hi) as (o & Ho & E').
    cbn in E'. rewrite E in E'. injection E' as <-. exists (Some c). split; [by eapply list_elem_of_lookup_2|done].
Qed.
(** What makes a pair of edges the range [r]. *)
Definition range_of_pair (cfg : ScalpConfig) (price atr : float) (bars : list Candle) (barriers : list ScalpBarrier) (r : ScalpRange_) : Prop :=
  sr_Lower r ∈ barriers ∧ sr_Upper r ∈ barriers ∧ is_support price (sr_Lower r) = true ∧ is_resistance price (sr_Upper r) = true ∧
  fits cfg price atr (sr_Lower r) (sr_Upper r) = true ∧
  insideCloses bars (sb_Level (sr_Lower r)) (sb_Level (sr_Upper r)) (InsideLookbackBars cfg) = Some (sr_InsideCloses r) ∧
  (Z.max 1 (MinimumInsideCloses cfg) <= Z.of_nat (sr_InsideCloses r))%Z ∧
  (∃ post, range_state cfg (sr_Lower r) (sr_Upper r) true post = Some (sr_State r)) ∧
  (Z.of_nat (sb_AcceptedCloses (sr_Lower r)) < Z.max 1 (BreakCloses cfg))%Z ∧ (Z.of_nat (sb_AcceptedCloses (sr_Upper r)) < Z.max 1 (BreakCloses cfg))%Z.
Lemma range_state_needs_inside cfg l u post : range_state cfg l u false post = None.
Proof. unfold range_state. rewrite !andb_false_r. done. Qed.
Lemma pair_range_spec cfg price atr bars barriers l u r :
  (l, u) ∈ pairs_of barriers price → pair_range cfg price atr bars l u = Some (Some r) → range_of_pair cfg price atr bars barriers r ∧ sr_Lower r = l ∧ sr_Upper r = u.
Proof.
  intros Hp%elem_of_pairs. destruct Hp as ([Hl Hsl] & Hu & Hru). unfold pair_range. destruct (fits cfg price atr l u) eqn:Hf; [|done]. cbn [negb].
  destruct (insideCloses bars (sb_Level l) (sb_Level u) (InsideLookbackBars cfg)) as [inside|] eqn:Hi; [|done]. cbn [mbind option_bind].
  destruct (if PostImpulseEnabled cfg then _ else _) as [post|]; [|done]. cbn [mbind option_bind].
  destruct (Z.geb_spec (Z.of_nat inside) (Z.max 1 (MinimumInsideCloses cfg))) as [Hin|Hin]; [|by rewrite range_state_needs_inside].
  destruct (range_state cfg l u true post) as [st|] eqn:Es; [|done].
  destruct (Z.geb_spec (Z.of_nat (sb_AcceptedCloses l)) (Z.max 1 (BreakCloses cfg))); [done|].
  destruct (Z.geb_spec (Z.of_nat (sb_AcceptedCloses u)) (Z.max 1 (BreakCloses cfg))); [done|]. cbn [orb].
  intros [= <-]. split; [|done]. split_and!; cbn [sr_Lower sr_Upper sr_InsideCloses sr_State]; try done; [by exists post].
Qed.

(** * Theorems *)

(** The range returned pairs a support with a resistance around the price whose width, room and inside closes meet the settings, neither edge
    accepted through, and its state is the one the pair deserves; no other pair ranks before it: better state, then quality, then nearer
    equilibrium, narrower, and lower edges. Without a range there is no such pair. *)
Theorem best_range_exact barriers price atr cfg bars result state :
  bestRangeWithState barriers price atr cfg bars = Some (result, state) → (atr <=? 0)%float = false →
  (∀ l u c, (l, u) ∈ pairs_of barriers price → pair_range cfg price atr bars l u = Some (Some c) → orderly price c) →
  match result with
  | None => state = RangeStateNoRange ∧ ∀ l u c, (l, u) ∈ pairs_of barriers price → pair_range cfg price atr bars l u ≠ Some (Some c)
  | Some r => state = sr_State r ∧ range_of_pair cfg price atr bars barriers r ∧
      ∀ l u c, (l, u) ∈ pairs_of barriers price → pair_range cfg price atr bars l u = Some (Some c) → rangeBefore c r price = false
  end.
Proof.
  intros Hb Ha Ho. unfold bestRangeWithState in Hb. rewrite Ha in Hb. destruct (range_candidates cfg price atr bars barriers) as [cs|] eqn:Ec; [|done].
  cbn [mbind option_bind] in Hb. pose proof (λ c, elem_of_candidates cfg price atr bars barriers cs c Ec) as Hin. destruct cs as [|c cs].
  - injection Hb as <- <-. split; [done|]. intros l u c Hp E. destruct (Hin c) as [_ H]. by destruct (not_elem_of_nil c); apply H; exists l, u.
  - injection Hb as <- <-. assert (Hor : Forall (orderly price) (c :: cs)).
    { apply Forall_forall. intros d Hd. apply Hin in Hd as (l & u & Hp & E). by eapply Ho. }
    destruct (best_of_spec price c cs Hor) as [Hm Hbest]. split_and!; [done| |].
    + apply Hin in Hm as (l & u & Hp & E). by apply (pair_range_spec _ _ _ _ barriers) in E as (? & _ & _).
    + intros l u d Hp E. apply Hbest, Hin. by exists l, u.
Qed.

Definition windows_ok (cfg : ScalpConfig) : Prop :=
  (0 <= InsideLookbackBars cfg)%Z ∧ (0 < PostImpulseLookbackBars cfg)%Z ∧ (0 < PostImpulseRecentBars cfg)%Z.
Lemma tail_from_Some {A} (l : list A) from : (from <= Z.of_nat (length l))%Z → tail_from l from = Some (drop (Z.to_nat from) l).
Proof. intros H. unfold tail_from. destruct (Z.gtb_spec from (Z.of_nat (length l))); [lia|done]. Qed.
Lemma tail_head {A} (l : list A) from : (0 <= from < Z.of_nat (length l))%Z → ∃ x, head (drop (Z.to_nat from) l) = Some x.
Proof.
  intros H. destruct (drop (Z.to_nat from) l) as [|x r] eqn:E; [|by eexists]. apply (f_equal length) in E. rewrite length_drop in E. cbn in E. lia.
Qed.
Lemma post_impulse_total bars atr lower upper cfg : windows_ok cfg → is_Some (isPostImpulse bars atr lower upper cfg).
Proof.
  intros (_ & H1 & H2). unfold isPostImpulse. destruct (Z.ltb_spec (Z.of_nat (length bars)) 8); [by eexists|]. destruct (atr <=? 0)%float; [by eexists|]. cbn [orb].
  rewrite (tail_from_Some bars (Z.max 0 (Z.of_nat (length bars) - Z.min (PostImpulseLookbackBars cfg) (Z.of_nat (length bars))))) by lia.
  cbn [mbind option_bind].
  destruct (tail_head bars (Z.max 0 (Z.of_nat (length bars) - Z.min (PostImpulseLookbackBars cfg) (Z.of_nat (length bars))))) as [w ->]; [lia|]. cbn [mbind option_bind].
  destruct (_ <? PostImpulseMinDisplaceATR cfg)%float; [by eexists|]. rewrite tail_from_Some by lia. cbn [mbind option_bind].
  destruct (tail_head bars (Z.of_nat (length bars) - Z.min (PostImpulseRecentBars cfg) (Z.of_nat (length bars)))) as [r ->]; [lia|]. cbn [mbind option_bind].
  destruct (_ >? PostImpulseMaxContractATR cfg)%float; by eexists.
Qed.
Lemma pair_range_total cfg price atr bars l u : windows_ok cfg → is_Some (pair_range cfg price atr bars l u).
Proof.
  intros Hw. unfold pair_range. destruct (negb _); [by eexists|]. unfold insideCloses. rewrite tail_from_Some by (destruct Hw; lia). cbn [fmap option_fmap option_map mbind option_bind].
  assert (Hp : is_Some (if PostImpulseEnabled cfg then isPostImpulse bars atr (sb_Level l) (sb_Level u) cfg else Some false))
    by (destruct (PostImpulseEnabled cfg); [by apply post_impulse_total|by eexists]).
  destruct Hp as [post ->]. cbn [mbind option_bind]. destruct (range_state _ _ _ _ _); [|by eexists]. destruct (_ || _); by eexists.
Qed.
Lemma best_range_total barriers price atr cfg bars : windows_ok cfg → is_Some (bestRangeWithState barriers price atr cfg bars).
Proof.
  intros Hw. unfold bestRangeWithState. destruct (atr <=? 0)%float; [by eexists|]. unfold range_candidates.
  destruct (mapM (λ p, pair_range cfg price atr bars p.1 p.2) (pairs_of barriers price)) as [os|] eqn:E.
  - cbn [fmap option_fmap option_map mbind option_bind]. destruct (omap id os); by eexists.
  - exfalso. apply mapM_None in E. apply Exists_exists in E as ([l u] & _ & E). cbn in E. destruct (pair_range_total cfg price atr bars l u Hw) as [? E']. congruence.
Qed.
Lemma best_range_kind barriers price atr cfg bars result state :
  bestRangeWithState barriers price atr cfg bars = Some (result, state) →
  match result with
  | None => state = RangeStateNoRange
  | Some r => state = sr_State r ∧ state ∈ [RangeStateConfirmed; RangeStatePostImpulse; RangeStateProvisional] ∧ sr_Lower r ∈ barriers ∧ sr_Upper r ∈ barriers
  end.
Proof.
  unfold bestRangeWithState. destruct (atr <=? 0)%float; [by intros [= <- <-]|]. destruct (range_candidates cfg price atr bars barriers) as [cs|] eqn:Ec; [|done].
  cbn [mbind option_bind]. destruct cs as [|c cs]; [by intros [= <- <-]|]. intros [= <- <-].
  assert (Hm : best_of price c cs ∈ c :: cs).
  { clear. unfold best_of. cut (∀ b, b ∈ c :: cs → foldl (λ best d, if rangeBefore d best price then d else best) b cs ∈ c :: cs); [intros H; apply H; by left|].
    assert (Hsub : ∀ d, d ∈ cs → d ∈ c :: cs) by (intros; by right). revert Hsub. generalize (c :: cs) as all. intros all.
    induction cs as [|d cs IH]; intros Hsub b Hb; cbn [foldl]; [done|]. apply IH; [intros e He; apply Hsub; by right|]. destruct (rangeBefore d b price); [apply Hsub; by left|done]. }
  apply (elem_of_candidates cfg price atr bars barriers _ _ Ec) in Hm as (l & u & Hp & E).
  apply (pair_range_spec _ _ _ _ barriers) in E as ((H1 & H2 & _ & _ & _ & _ & _ & (post & Hst) & _) & _); [|done]. split_and!; [done| |done|done].
  unfold range_state in Hst. revert Hst. repeat case_match; intros Eq; try discriminate Eq; injection Eq as <-; repeat first [by left|right].
Qed.

(** With windows of at least one bar the builder returns for every input. A range is reported exactly in the confirmed, post-impulse and
    provisional states, and its two edges are among the barriers reported. *)
Theorem scalp_build_total bars atr sessions lines regimeHigh regimeLow hasRegime cfg :
  windows_ok cfg →
  ∃ s, BuildScalpStructure bars atr sessions lines regimeHigh regimeLow hasRegime cfg = Some s ∧
    match ss_Range s with
    | None => ss_State s = RangeStateNoRange ∨ ss_State s = RangeStateBroken
    | Some r => ss_State s = sr_State r ∧ ss_State s ∈ [RangeStateConfirmed; RangeStatePostImpulse; RangeStateProvisional] ∧
        sr_Lower r ∈ ss_Barriers s ∧ sr_Upper r ∈ ss_Barriers s
    end.
Proof.
  intros Hw. unfold BuildScalpStructure. destruct (last bars) as [lst|]; [|eexists; split; [done|]; by left]. cbv zeta.
  destruct (lastPositive atr <=? 0)%float; [eexists; split; [done|]; by left|].
  destruct (recentBreakoutDisplacement bars (lastPositive atr) cfg); [eexists; split; [done|]; by right|].
  match goal with |- context [bestRangeWithState ?b ?p ?a ?c ?l] => destruct (best_range_total b p a c l Hw) as [[result state] Hb]; rewrite Hb end.
  cbn [mbind option_bind]. apply best_range_kind in Hb. eexists. split; [reflexivity|]. cbn [ss_Range ss_State ss_Barriers fst snd].
  destruct result; [exact Hb|by left].
Qed.

(** * Witnesses *)

Definition is_Some_b {A} (o : option A) : bool := match o with Some _ => true | None => false end.

Definition demo_config (displacement : float) (recent : Z) : ScalpConfig :=
  mkScalpConfig 60 0.25 0 3 2 0.25 0.125 1 1 12 0.25 2 4 24 20 0.5 1.5 true 2 1 10 0.25 true true displacement 5 4 24 recent 0.125 0.
(** A market that trades between 10 and 14, rejected three times at each edge. *)
Definition demo_wave (t : Z) (top : bool) : Candle :=
  if top then mkCandle t 12 14 11.5 12.25 1 else mkCandle t 12 12.5 10 11.75 1.
Definition demo_range_bars : list Candle :=
  imap (λ i b, match b with Some top => demo_wave (Z.of_nat i) top | None => mkCandle (Z.of_nat i) 12 12.5 11.5 12 1 end)
    [None; None; Some true; None; None; Some false; None; None; Some true; None; None; Some false; None; None; Some true; None; None; Some false; None; None].
Definition demo_atr : list float := replicate 20 1%float.

(** Nothing checks the window of the post-impulse test: set to nought bars, an ordinary range makes the builder index an empty slice. *)
Example empty_post_impulse_window_panics :
  option_map ss_State (BuildScalpStructure demo_range_bars demo_atr [] [] 0 0 true (demo_config 0.25 6)) = Some RangeStatePostImpulse ∧
  BuildScalpStructure demo_range_bars demo_atr [] [] 0 0 true (demo_config 0.25 0) = None.
Proof. split; vm_compute; reflexivity. Qed.
Lemma scalp_build_total_witness :
  ∃ s r, BuildScalpStructure demo_range_bars demo_atr [] [] 0 0 true (demo_config 3 6) = Some s ∧ ss_Range s = Some r ∧
    ss_State s = RangeStateConfirmed ∧ sr_Lower r ∈ ss_Barriers s ∧ sr_Upper r ∈ ss_Barriers s.
Proof.
  destruct (scalp_build_total demo_range_bars demo_atr [] [] 0 0 true (demo_config 3 6)) as (s & Hs & H); [repeat split; discriminate|].
  assert (Hr : option_map (λ s, (ss_State s, is_Some_b (ss_Range s)))
    (BuildScalpStructure demo_range_bars demo_atr [] [] 0 0 true (demo_config 3 6)) = Some (RangeStateConfirmed, true)) by (vm_compute; reflexivity).
  rewrite Hs in Hr. injection Hr as Hst Hr. destruct (ss_Range s) as [r|] eqn:Er; [|discriminate Hr]. exists s, r.
  destruct H as (_ & _ & H1 & H2). split; [exact Hs|]. split; [exact Er|]. split; [exact Hst|]. split; [exact H1|exact H2].
Defined.
Definition demo_edges : list ScalpBarrier :=
  match BuildScalpStructure demo_range_bars demo_atr [] [] 0 0 true (demo_config 3 6) with Some s => ss_Barriers s | None => [] end.
Lemma best_range_exact_witness :
  ∃ r, bestRangeWithState demo_edges 12 1 (demo_config 3 6) demo_range_bars = Some (Some r, RangeStateConfirmed) ∧
    range_of_pair (demo_config 3 6) 12 1 demo_range_bars demo_edges r.
Proof.
  destruct (bestRangeWithState demo_edges 12 1 (demo_config 3 6) demo_range_bars) as [[result state]|] eqn:E; [|vm_compute in E; discriminate E].
  assert (Ho : ∀ l u c, (l, u) ∈ pairs_of demo_edges 12 → pair_range (demo_config 3 6) 12 1 demo_range_bars l u = Some (Some c) → orderly 12 c).
  { intros l u c Hp Hc. apply list_elem_of_In in Hp. vm_compute in Hp.
    repeat (destruct Hp as [Hp|Hp]; [injection Hp as <- <-; vm_compute in Hc; injection Hc as <-; repeat split; reflexivity|]). destruct Hp. }
  pose proof (best_range_exact demo_edges 12 1 (demo_config 3 6) demo_range_bars result state E eq_refl Ho) as H.
  assert (Hst : option_map (λ p, (is_Some_b p.1, p.2)) (bestRangeWithState demo_edges 12 1 (demo_config 3 6) demo_range_bars) = Some (true, RangeStateConfirmed))
    by (vm_compute; reflexivity).
  rewrite E in Hst. injection Hst as Hsome Hs. destruct result as [r|]; [|discriminate Hsome].
  cbn [snd] in Hs. subst state. exists r. split; [reflexivity|exact (proj1 (proj2 H))].
Defined.
