(* ===== verification/LegacyRead.v ===== *)
(** Package legacyread and the data of context/legacy.go: the detector-contract read of a timeframe's window, its scoring against the
    higher timeframes, and the read of the whole symbol. *)
From S2P Require Import Prelude Float64 Market TechniqueBars TechniqueZones.
From S2P Require Import TechniqueInstances TechniqueScore TechniqueCompat ScalpContacts ScalpRange.
From S2P Require Structure Fib Regime Momentum Trendline Session.
From Stdlib Require Import Floats.

(** * context/legacy.go *)

(** The two lazy fields, functions of the engine's settings and of the frames that are called on first use, are not part of this
    record. *)
Record LegacyFrame := mkLegacyFrame {
  lf_Bars : list Candle; lf_ATR : list float; lf_DetectorATR : float; lf_Compat : CompatConfig; lf_Swings : list Swing; lf_Structure : string;
  lf_Breaks : list Break; lf_Levels : list Level; lf_SwingLevels : list Level; lf_ContractZones : list Zone; lf_Legs : list Leg;
  lf_Zones : list Zone; lf_TechniqueZones : list Zone; lf_OrderBlocks : list Zone; lf_Pools : list Pool; lf_Grabs : list Grab;
  lf_Sessions : list SessionRef; lf_Trendlines : list Trendline.Trendline; lf_Barriers : list ScalpBarrier; lf_ScalpRange : option ScalpRange_;
  lf_ScalpState : string; lf_ScalpBroken : list BrokenBarrier; lf_Range : option Fib.DealingRange; lf_FibLadder : list Fib.Level;
  lf_Regime : option Regime.State; lf_Momentum : Momentum.MomentumState; lf_MomentumVelocity : float; lf_MomentumAcceleration : float
}.
Definition set_scored (f : LegacyFrame) (zones technique orderBlocks : list Zone) : LegacyFrame :=
  mkLegacyFrame (lf_Bars f) (lf_ATR f) (lf_DetectorATR f) (lf_Compat f) (lf_Swings f) (lf_Structure f) (lf_Breaks f) (lf_Levels f) (lf_SwingLevels f)
    (lf_ContractZones f) (lf_Legs f) zones technique orderBlocks (lf_Pools f) (lf_Grabs f) (lf_Sessions f) (lf_Trendlines f) (lf_Barriers f)
    (lf_ScalpRange f) (lf_ScalpState f) (lf_ScalpBroken f) (lf_Range f) (lf_FibLadder f) (lf_Regime f) (lf_Momentum f) (lf_MomentumVelocity f)
    (lf_MomentumAcceleration f).
Record LegacyRead := mkLegacyRead { lr_LocalStructure : string; lr_HTFBias : string; lr_AllowCounterTrend : bool }.
Definition Read_Direction (r : LegacyRead) : string :=
  let bias := if lr_AllowCounterTrend r && (bool_decide (lr_LocalStructure r = "up") || bool_decide (lr_LocalStructure r = "down"))
    then lr_LocalStructure r else lr_HTFBias r in
  if bool_decide (bias = "up") then Market.Buy else if bool_decide (bias = "down") then Market.Sell else "".
Definition AlignedWithHTF (r : LegacyRead) (direction : string) : bool :=
  (bool_decide (direction = Market.Buy) && bool_decide (lr_HTFBias r = "up")) || (bool_decide (direction = Market.Sell) && bool_decide (lr_HTFBias r = "down")).

(** * legacyread.go *)

Record Config := mkConfig {
  cf_ATRLength : Z; cf_FractalN : nat; cf_ZigzagPct : float; cf_ZigzagATRMult : float; WindowBars : gmap string Z; HTFOrder : list string;
  MinPrimaryHTFWarmupBars : Z; AllowCounterTrend : bool; cf_LevelClusterATR : float; LevelMinimumTouches : Z; FrameLevelMinimumTouches : Z;
  cf_MaximumClusterSpanMultiple : float; cf_DisplacementATRMult : float; MomentumBodyFraction : float; cf_ZoneWidth : string;
  cf_ZoneMergeOverlap : float; MaximumMergedZoneATR : float; FlipAcceptBars : Z; FlipMaximumBreakAgeBars : Z; FlipBandBodyFraction : float;
  EqualToleranceATR : float; InducementBandATR : float; SweepBodyFraction : float; SweepReactBars : Z; FrozenSessionWindows : bool;
  cf_PipSize : float; cf_RoundStep : float; Scalp : ScalpConfig; Compat : CompatConfig; FibConfig : Fib.Config; RegimeConfig : Regime.Config;
  MomentumConfig : Momentum.MomentumConfig; SessionConfig : Session.Config; TrendlineConfig : Trendline.Config
}.
Record Staged := mkStaged { st_frame : LegacyFrame; st_input : ScoreInputs; st_unscored : list Zone; st_techniqueUnscored : list Zone }.

Definition hasSource (z : Zone) (source : string) : bool := bool_decide (z_Source z = source) || existsb (λ s, bool_decide (s = source)) (z_Sources z).
Definition orderBlockView (zones : list Zone) : list Zone := List.filter (λ z, hasSource z "order_block") zones.
Definition finalized (levels : list Session.Level) (bars : list Candle) : list Session.Level :=
  let last := from_option c_Time 0%Z (last bars) in
  List.filter (λ l, Session.l_Final l && (Session.l_AvailableAt l <=? last)%Z) levels.
Definition sessionLevels (candles bars : list Candle) (cfg : Config) : list Session.Level :=
  let source := if FrozenSessionWindows cfg then bars else candles in
  match source with [] => [] | _ => finalized (Session.ss_Levels (Session.Update source (SessionConfig cfg))) source end.
Definition is_weekly (l : Session.Level) : bool := bool_decide (Session.l_Name l = "PWH") || bool_decide (Session.l_Name l = "PWL").
(** The last [n] elements when there are more. *)
Definition last_n {A} (n : Z) (l : list A) : list A := if (n >? 0)%Z && (Z.of_nat (length l) >? n)%Z then drop (length l - Z.to_nat n) l else l.
Definition window_of (tf : string) (cfg : Config) : Z := default 0%Z (WindowBars cfg !! tf).
Definition Weekly (candles : list Candle) (tf : string) (cfg : Config) : list Session.Level :=
  let bars := if FrozenSessionWindows cfg then last_n (window_of tf cfg) candles else candles in
  match bars with
  | [] => []
  | _ => List.filter is_weekly (finalized (Session.ss_Levels (Session.Update bars (SessionConfig cfg))) bars)
  end.
Definition session_ref (l : Session.Level) : SessionRef :=
  mkSessionRef (Session.l_Name l) (Session.l_Price l) (Session.l_Swept l) (Session.l_AvailableAt l).
(** A technique swing as a canonical one; the other fields of the structure keep their zero values. *)
Definition swing_kind (s : Swing) : Structure.PivotKind := if bool_decide (s_Kind s = "low") then Structure.PivotLow else Structure.PivotHigh.
Definition canonical_swing (bars : list Candle) (i : nat) (s : Swing) : Structure.Swing :=
  let confirmed := if (length bars <=? s_ConfirmedIndex s)%nat then s_Index s else s_ConfirmedIndex s in
  Structure.mkSwing ("legacy:" +:+ pretty (Z.of_nat (s_Index s)) +:+ ":" +:+ pretty (Z.of_nat i)) (swing_kind s) Structure.StructureMicro
    (c_Time (bars !!! s_Index s)) (s_Price s) "" 0 0 0 0 (c_Time (bars !!! confirmed)).
Definition scalp_line (last : Z) (l : Trendline.Trendline) : ScalpLine :=
  mkScalpLine (Trendline.Kind_String (Trendline.tl_Kind l)) (bool_decide (is_Some (Trendline.tl_BrokenAt l)))
    (2 + Z.of_nat (length (Trendline.tl_ValidationTouches l))) (Trendline.ValueAt l last).
Definition with_levels (i : ScoreInputs) (levels : list Level) : ScoreInputs :=
  mkScoreInputs levels (si_Pools i) (si_RoundStep i) (si_HTFZones i) (si_Sessions i) (si_HasEq i) (si_Equilibrium i) (si_Grabs i) (si_LineValues i)
    (si_HasBarIndex i) (si_PipSize i).
Definition with_htf (i : ScoreInputs) (higher : list Zone) : ScoreInputs :=
  mkScoreInputs (si_Levels i) (si_Pools i) (si_RoundStep i) higher (si_Sessions i) (si_HasEq i) (si_Equilibrium i) (si_Grabs i) (si_LineValues i)
    (si_HasBarIndex i) (si_PipSize i).
Definition scaled_scalp (cfg : Config) : ScalpConfig :=
  let s := Scalp cfg in
  mkScalpConfig (Lookback s) (ClusterATR s) (ClusterMinAbs s) (ClusterPipMult s) (MinimumTouches s) (MinimumWickFraction s) (EntryToleranceATR s)
    (MaximumEdgeWidthATR s) (MinimumWidthATR s) (MaximumWidthATR s) (MinimumRoomATR s) (BreakCloses s) (MinimumInsideCloses s) (InsideLookbackBars s)
    (RecentBreakoutLookback s) (RecentBreakoutBufferATR s) (RecentBreakoutMinSpanATR s) (FallbackEnabled s) (FallbackMinConfirmations s)
    (FallbackMinWidthATR s) (FallbackMaxWidthATR s) (FallbackWickFraction s) (ProvisionalEnabled s) (PostImpulseEnabled s) (PostImpulseMinDisplaceATR s)
    (PostImpulseMaxContractATR s) (PostImpulseMinInside s) (PostImpulseLookbackBars s) (PostImpulseRecentBars s) (cf_PipSize cfg) (cf_RoundStep cfg).
Definition zero_compat : CompatConfig := mkCompatConfig 0 0 0 0 0 0 0 0.
Definition empty_frame : LegacyFrame :=
  mkLegacyFrame [] [] 0 zero_compat [] "range" [] [] [] [] [] [] [] [] [] [] [] [] [] None "" [] None [] None Momentum.Neutral 0 0.
Definition empty_inputs : ScoreInputs := mkScoreInputs [] [] 0 [] [] false 0 [] [] false 0.
(** What is computed of the window before the zones. *)
Record basis := mkBasis {
  ba_atr : list float; ba_swings : list Swing; ba_breaks : list Break; ba_canonical : list Structure.Swing; ba_lines : list Trendline.Trendline;
  ba_legs : list Leg; ba_pools : list Pool; ba_range : option Fib.DealingRange; ba_regime : Regime.State; ba_momentum : Momentum.MomentumResult;
  ba_structure : string; ba_price : float
}.
Definition basis_of (bars : list Candle) (cfg : Config) : basis :=
  let atr := ATRSeries bars (cf_ATRLength cfg) in
  let swings := FindSwings bars (cf_FractalN cfg) (cf_ZigzagPct cfg) (cf_ZigzagATRMult cfg) (Some atr) (-1) in
  let canonical := imap (canonical_swing bars) swings in let price := last_close bars in
  let range := Fib.Resolve canonical price (FibConfig cfg) in
  let '(rangeHigh, rangeLow) := match range with Some d => (Fib.dr_High d, Fib.dr_Low d) | None => (0%float, 0%float) end in
  mkBasis atr swings (StructureBreaks swings bars false (cf_FractalN cfg)) canonical (Trendline.Build bars atr canonical (TrendlineConfig cfg))
    (Displacement bars (Some atr) (cf_DisplacementATRMult cfg) (MomentumBodyFraction cfg))
    (LiquidityPools swings bars (EqualToleranceATR cfg) (Some atr) (cf_MaximumClusterSpanMultiple cfg)) range
    (Regime.Classify bars atr canonical (MarketStructure swings) rangeHigh rangeLow (bool_decide (is_Some range)) (RegimeConfig cfg))
    (Momentum.Classify bars (Some atr) (MomentumConfig cfg)) (MarketStructure swings) price.
Definition max_merged (b : basis) (cfg : Config) : float :=
  (ATRScalar (ba_atr b) 1 * (if (0 >? MaximumMergedZoneATR cfg)%float then 0 else MaximumMergedZoneATR cfg))%float.
Definition cutoff (bars : list Candle) : Z := Z.max 0 (Z.of_nat (length bars) - 1).
Definition Stage (candles : list Candle) (tf : string) (weekly : list Session.Level) (cfg : Config) : option Staged :=
  let bars := last_n (window_of tf cfg) candles in
  match bars with
  | [] => Some (mkStaged empty_frame empty_inputs [] [])
  | _ =>
      let b := basis_of bars cfg in let last := (Z.of_nat (length bars) - 1)%Z in
      let frameTouches := if (FrameLevelMinimumTouches cfg >? 0)%Z then FrameLevelMinimumTouches cfg else LevelMinimumTouches cfg in
      let levels := KeyLevels (ba_swings b) (ba_atr b) (cf_LevelClusterATR cfg) (cf_RoundStep cfg) frameTouches (cf_MaximumClusterSpanMultiple cfg) bars in
      let supplyDemand := BreakerBlocks (SupplyDemand bars (ba_legs b)) bars in
      let orderBlocks := BreakerBlocks (OrderBlocks bars (ba_legs b) (ba_breaks b) (cf_ZoneWidth cfg)) bars in
      let flips_of levels := FlipZones levels (ba_breaks b) bars (FlipAcceptBars cfg) (FlipMaximumBreakAgeBars cfg) (FlipBandBodyFraction cfg) in
      let gaps := FVG bars in
      let sessions := map session_ref (List.filter (λ l, negb (is_weekly l)) (sessionLevels candles bars cfg)) ++ map session_ref weekly in
      let merged zones := MarkMitigation (MergeZones zones (cf_ZoneMergeOverlap cfg) (max_merged b cfg)) bars (cutoff bars) in
      let unscored := merged (supplyDemand ++ orderBlocks ++ flips_of levels ++ gaps) in
      let grabs := LiquidityGrabs bars (ba_pools b) (ba_legs b) unscored (Some (ba_atr b)) (SweepBodyFraction cfg) (SweepReactBars cfg)
        (InducementBandATR cfg) (cf_PipSize cfg) in
      let input := mkScoreInputs levels (ba_pools b) (cf_RoundStep cfg) [] sessions (bool_decide (is_Some (ba_range b)))
        (from_option Fib.dr_Equilibrium 0%float (ba_range b)) grabs
        (omap (λ l, match Trendline.tl_BrokenAt l with None => Some (Trendline.ValueAt l last) | Some _ => None end) (ba_lines b)) true (cf_PipSize cfg) in
      let zones := ScoreZones unscored input in
      let techniqueUnscored := MarkMitigation (AsSingleZones (supplyDemand ++ orderBlocks ++ gaps)) bars (cutoff bars) in
      let swingLevels := KeyLevels (ba_swings b) (ba_atr b) (cf_LevelClusterATR cfg) (cf_RoundStep cfg) (LevelMinimumTouches cfg)
        (cf_MaximumClusterSpanMultiple cfg) [] in
      let contractBlocks := BreakerBlocks (OrderBlocks bars (ba_legs b) (BOSBreaks (ba_breaks b)) (cf_ZoneWidth cfg)) bars in
      let contract := merged (supplyDemand ++ contractBlocks ++ flips_of swingLevels ++ gaps) in
      result ← BuildScalpStructure bars (ba_atr b) sessions (map (scalp_line last) (ba_lines b)) (Regime.rs_RangeHigh (ba_regime b))
        (Regime.rs_RangeLow (ba_regime b)) true (scaled_scalp cfg);
      Some (mkStaged
        (mkLegacyFrame bars (ba_atr b) (DetectorATR bars (cf_ATRLength cfg) 1) (Compat cfg) (ba_swings b) (ba_structure b) (ba_breaks b) levels swingLevels
          (ScoreZones contract (with_levels input swingLevels)) (ba_legs b) zones (ScoreZones techniqueUnscored input) (orderBlockView zones) (ba_pools b) grabs
          sessions (ba_lines b) (ss_Barriers result) (ss_Range result) (ss_State result) (ss_Broken result) (ba_range b)
          (Fib.LadderForPrice (ba_canonical b) (ba_price b)) (Some (ba_regime b)) (Momentum.mr_State (ba_momentum b))
          (Momentum.mr_Velocity (ba_momentum b)) (Momentum.mr_Acceleration (ba_momentum b)))
        input unscored techniqueUnscored)
  end.

(** The timeframes with a frame, the highest first and by name among equals. *)
Definition tf_minutes (tf : string) : Z := default 0%Z (Minutes tf).
Definition tf_before (a b : string) : bool :=
  if negb (tf_minutes a =? tf_minutes b)%Z then (tf_minutes a >? tf_minutes b)%Z else str_lt a b.
Definition highest_first {A} (m : gmap string A) : list string := sort_slice tf_before (map_to_list m).*1.
Definition finish (s : Staged) (higher : list Zone) : LegacyFrame :=
  let frame := st_frame s in let input := with_htf (st_input s) higher in
  let rescored (unscored zones : list Zone) := match higher, unscored with _ :: _, _ :: _ => ScoreZones zones input | _, _ => zones end in
  let zones := rescored (st_unscored s) (lf_Zones frame) in
  set_scored frame zones (rescored (st_techniqueUnscored s) (lf_TechniqueZones frame))
    (match higher, st_unscored s with _ :: _, _ :: _ => orderBlockView zones | _, _ => lf_OrderBlocks frame end).
Definition complete_step (staged : gmap string Staged) (acc : list Zone * gmap string LegacyFrame) (tf : string) : list Zone * gmap string LegacyFrame :=
  match staged !! tf with
  | None => acc
  | Some s => let frame := finish s acc.1 in (acc.1 ++ lf_Zones frame, <[tf := frame]> acc.2)
  end.
Definition Complete (staged : gmap string Staged) : gmap string LegacyFrame :=
  snd (foldl (complete_step staged) ([], ∅) (highest_first staged)).

#[export] Instance MomentumState_eq_dec : EqDecision Momentum.MomentumState.
Proof. solve_decision. Defined.
Definition frameBias (f : LegacyFrame) : string :=
  if bool_decide (lf_Structure f = "up") && negb (bool_decide (lf_Momentum f = Momentum.Bear)) then "up"
  else if bool_decide (lf_Structure f = "down") && negb (bool_decide (lf_Momentum f = Momentum.Bull)) then "down"
  else match lf_Momentum f with Momentum.Bull => "up" | Momentum.Bear => "down" | Momentum.Neutral => "range" end.
Definition decided (frames : gmap string LegacyFrame) (tf : string) : option string :=
  match frames !! tf with
  | Some f => let bias := frameBias f in if bool_decide (bias ≠ "range") then Some bias else None
  | None => None
  end.
Definition htfBias (frames : gmap string LegacyFrame) (cfg : Config) : string :=
  let cold := match HTFOrder cfg with
    | [] => false
    | tf :: _ => match frames !! tf with Some f => (Z.of_nat (length (lf_Bars f)) <? MinPrimaryHTFWarmupBars cfg)%Z | None => true end
    end in
  if cold then "unknown"
  else default "range" (head (omap (decided frames) (HTFOrder cfg ++ highest_first frames))).
Definition Read (frames : gmap string LegacyFrame) (primary : string) (cfg : Config) : LegacyRead :=
  mkLegacyRead (from_option lf_Structure "range" (frames !! primary)) (htfBias frames cfg) (AllowCounterTrend cfg).

(** * Lemmas *)

Lemma tf_before_irrefl a : tf_before a a = false.
Proof. unfold tf_before. rewrite Z.eqb_refl. apply str_lt_irrefl. Qed.
Lemma tf_before_asym a b : tf_before a b = true → tf_before b a = false.
Proof.
  unfold tf_before. destruct (Z.eqb_spec (tf_minutes a) (tf_minutes b)), (Z.eqb_spec (tf_minutes b) (tf_minutes a)); try lia; cbn [negb]; [|lia].
  intros H. apply not_true_iff_false. intros H'. pose proof (str_lt_trans _ _ _ H H') as Hc. by rewrite str_lt_irrefl in Hc.
Qed.
Lemma tf_before_ntrans a b c : tf_before b a = false → tf_before c b = false → tf_before c a = false.
Proof.
  unfold tf_before. destruct (Z.eqb_spec (tf_minutes b) (tf_minutes a)), (Z.eqb_spec (tf_minutes c) (tf_minutes b)), (Z.eqb_spec (tf_minutes c) (tf_minutes a));
    try lia; cbn [negb]; try lia. intros H1 H2. by apply (str_le_trans a b c).
Qed.
Lemma tf_before_total a b : tf_before a b = false → tf_before b a = false → a = b.
Proof.
  unfold tf_before. destruct (Z.eqb_spec (tf_minutes a) (tf_minutes b)), (Z.eqb_spec (tf_minutes b) (tf_minutes a)); try lia; cbn [negb]; [|lia].
  intros H1 H2. destruct (str_lt_total a b) as [|[|]]; [congruence|done|congruence].
Qed.
Lemma highest_first_spec {A} (m : gmap string A) :
  NoDup (highest_first m) ∧ StronglySorted (λ a b, tf_before b a = false) (highest_first m) ∧ ∀ tf, tf ∈ highest_first m ↔ is_Some (m !! tf).
Proof.
  unfold highest_first. split_and!.
  - rewrite sort_slice_perm. apply NoDup_fst_map_to_list.
  - apply (sort_slice_sorted tf_before (λ _, True)); [intros x y _ _; apply tf_before_asym|intros x y z _ _ _; apply tf_before_ntrans|by apply Forall_true].
  - intros tf. rewrite sort_slice_perm, list_elem_of_fmap. split.
    + intros ([k v] & -> & H%elem_of_map_to_list). by exists v.
    + intros [v Hv]. exists (tf, v). split; [done|]. by apply elem_of_map_to_list.
Qed.
(** The order depends on the set of timeframes only. *)
Lemma highest_first_unique {A B} (m : gmap string A) (m' : gmap string B) : (∀ tf, is_Some (m !! tf) ↔ is_Some (m' !! tf)) → highest_first m = highest_first m'.
Proof.
  intros H. destruct (highest_first_spec m) as (N & S & I), (highest_first_spec m') as (N' & S' & I').
  apply (StronglySorted_unique_strong (λ a b, tf_before b a = false)); [|done|done|].
  - intros x y _ _ H1 H2. by apply tf_before_total.
  - apply NoDup_Permutation; [done|done|]. intros tf. by rewrite I, I'.
Qed.

(** The stage returns for every window as long as the scalp windows hold at least one bar. *)
Lemma Stage_total candles tf weekly cfg : windows_ok (scaled_scalp cfg) → is_Some (Stage candles tf weekly cfg).
Proof.
  intros Hw. unfold Stage. destruct (last_n _ _) as [|c bars]; [by eexists|]. cbv zeta.
  match goal with |- context [BuildScalpStructure ?a ?b ?c ?d ?e ?f ?g ?h] => destruct (scalp_build_total a b c d e f g h Hw) as (s & -> & _) end.
  by eexists.
Qed.

(** * Theorems *)

(** The zones of the frames that come before a timeframe. *)
Definition zones_above (frames : gmap string LegacyFrame) (order : list string) (tf : string) : list Zone :=
  concat (map (λ t, from_option lf_Zones [] (frames !! t)) (List.filter (λ t, tf_before t tf) order)).

(** The state after the timeframes of a prefix of the order. *)
Definition finished (staged : gmap string Staged) (dn : list string) (acc : list Zone * gmap string LegacyFrame) : Prop :=
  acc.1 = concat (map (λ t, from_option lf_Zones [] (acc.2 !! t)) dn) ∧ (∀ t, is_Some (acc.2 !! t) → t ∈ dn) ∧
  ∀ t, t ∈ dn → acc.2 !! t = (λ s, finish s (zones_above acc.2 dn t)) <$> staged !! t.
Lemma zones_above_ext (f f' : gmap string LegacyFrame) l l' t :
  List.filter (λ u, tf_before u t) l = List.filter (λ u, tf_before u t) l' → (∀ u, u ∈ l → f !! u = f' !! u) → zones_above f l t = zones_above f' l' t.
Proof.
  intros Hl Hf. unfold zones_above. rewrite <- Hl. f_equal. apply map_ext_in. intros u Hu. apply filter_In in Hu as [Hu _].
  rewrite Hf; [done|]. by apply list_elem_of_In.
Qed.
Lemma finished_step staged dn u acc :
  finished staged dn acc → u ∉ dn → is_Some (staged !! u) → (∀ t, t ∈ dn → tf_before t u = true) → finished staged (dn ++ [u]) (complete_step staged acc u).
Proof.
  intros (H1 & H2 & H3) Hu [s Hs] Hlt. unfold complete_step. rewrite Hs. set (frame := finish s acc.1).
  assert (Hold : ∀ t, t ∈ dn → <[u := frame]> acc.2 !! t = acc.2 !! t) by (intros t Ht; rewrite lookup_insert_ne; [done|by intros ->]).
  assert (Hall : List.filter (λ t, tf_before t u) (dn ++ [u]) = dn).
  { rewrite List.filter_app. cbn. rewrite tf_before_irrefl, app_nil_r. apply filter_Forall_true, Forall_forall. intros t Ht. by apply Hlt. }
  assert (Hzones : map (λ t, from_option lf_Zones [] (<[u := frame]> acc.2 !! t)) dn = map (λ t, from_option lf_Zones [] (acc.2 !! t)) dn).
  { apply map_ext_in. intros t Ht. rewrite Hold; [done|]. by apply list_elem_of_In. }
  split_and!; cbn [fst snd].
  - rewrite map_app, concat_app, Hzones, <- H1. cbn [map concat]. rewrite lookup_insert_eq. cbn. by rewrite app_nil_r.
  - intros t Ht. destruct (decide (t = u)) as [->|]; [apply elem_of_app; right; by left|]. rewrite lookup_insert_ne in Ht by done.
    apply elem_of_app. left. by apply H2.
  - intros t [Ht| ->%list_elem_of_singleton]%elem_of_app.
    + rewrite Hold, H3 by done. destruct (staged !! t); [|done]. cbn. do 2 f_equal. apply zones_above_ext; [|intros x Hx; by rewrite Hold].
      rewrite List.filter_app. cbn. rewrite (tf_before_asym t u) by (by apply Hlt). by rewrite app_nil_r.
    + rewrite lookup_insert_eq, Hs. cbn. do 2 f_equal. unfold zones_above. by rewrite Hall, Hzones.
Qed.
Lemma finished_all staged : finished staged (highest_first staged) (foldl (complete_step staged) ([], ∅) (highest_first staged)).
Proof.
  destruct (highest_first_spec staged) as (Hnd & Hs & Hin).
  assert (H : ∀ todo dn acc, dn ++ todo = highest_first staged → finished staged dn acc →
    finished staged (dn ++ todo) (foldl (complete_step staged) acc todo)).
  { induction todo as [|u todo IH]; intros dn acc E Hf; cbn [foldl]; [by rewrite app_nil_r|].
    replace (app dn (u :: todo)) with ((dn ++ [u]) ++ todo) in E |- * by (by rewrite <- app_assoc). apply IH; [done|].
    rewrite <- E, <- app_assoc in Hnd, Hs. apply NoDup_app in Hnd as (_ & Hd & _). apply StronglySorted_app in Hs as (Hlt & _ & _).
    apply finished_step; [done| | |].
    - intros Hu. apply (Hd u Hu). by left.
    - apply Hin. rewrite <- E, !elem_of_app. left. right. by left.
    - intros t Ht. specialize (Hlt t u Ht ltac:(by left)). cbn in Hlt. destruct (tf_before t u) eqn:Et; [done|].
      exfalso. apply (Hd t Ht). rewrite (tf_before_total t u) by done. by left. }
  apply (H (highest_first staged) [] ([], ∅)); [done|]. split_and!; [done|intros t Ht; by destruct Ht|by intros t ?%not_elem_of_nil].
Qed.

(** Every staged timeframe is finished, and no other. Its zones, technique zones and order-block view are those of its stage scored against
    exactly the zones of the finished frames of the higher timeframes, the highest first; everything else is as staged. *)
Theorem complete_exact staged tf :
  let frames := Complete staged in
  frames !! tf = (λ s, finish s (zones_above frames (highest_first staged) tf)) <$> staged !! tf.
Proof.
  cbv zeta. destruct (finished_all staged) as (_ & H2 & H3). fold (Complete staged) in *.
  destruct (highest_first_spec staged) as (_ & _ & Hin). destruct (staged !! tf) as [s|] eqn:E.
  - rewrite H3; [by rewrite E|]. apply Hin. by rewrite E.
  - cbn. destruct (Complete staged !! tf) as [f|] eqn:Ef; [|done]. assert (Ht : tf ∈ highest_first staged) by (apply H2; by rewrite Ef).
    apply Hin in Ht as [? Ht]. congruence.
Qed.
