(* ===== verification/Context.v ===== *)
(** Package context: the combined market reading the strategies are given. Each timeframe's frame is assembled from that
    timeframe's own analysis, with its regime and its MAD phase; the primary timeframe's fields are repeated at the top. The
    detector-contract reads of [legacy.go] are nil in what [Build] returns; the worker fills them. *)
From S2P Require Import Structure Liquidity Zone Trendline KeyLevel Session Fib Regime Mad Momentum.
From S2P Require Import Prelude Float64 Market.
From S2P Require LegacyRead.
From Stdlib Require Import Floats.

(** * market.go: data *)

Record BiasContext := mkBias {
  bi_Direction : string; bi_Layer : Structure.StructureLayer; bi_Trend : Structure.TrendState
}.
Record TimeframeContext := mkTimeframeContext {
  tc_Timeframe : string; tc_Candles : list Candle; tc_Structure : Structure.StructureState;
  tc_Liquidity : Liquidity.LiquidityState; tc_Zones : Zone.ZoneState; tc_Trendline : list Trendline.Trendline;
  tc_KeyLevel : KeyLevel.State; tc_Session : Session.State; tc_Fib : Fib.State; tc_Regime : Regime.State;
  tc_MAD : Mad.Snapshot; tc_Momentum : Momentum.MomentumResult; tc_Geometry : Market.Geometry;
  tc_Legacy : option LegacyRead.LegacyFrame
}.
(** The primary timeframe's fields of [MarketContext]; [None] while they keep their zero values. *)
Record View := mkView {
  vw_Timeframe : string; vw_Structure : Structure.StructureState; vw_Liquidity : Liquidity.LiquidityState;
  vw_Zones : Zone.ZoneState; vw_Trendline : list Trendline.Trendline; vw_KeyLevel : KeyLevel.State; vw_Fib : Fib.State;
  vw_Bias : BiasContext; vw_ATR : float; vw_Session : Session.State; vw_Regime : Regime.State; vw_MAD : Mad.Snapshot
}.
Record MarketContext := mkMarketContext {
  mx_Symbol : string; mx_Timeframes : gmap string TimeframeContext; mx_Primary : option View;
  mx_Legacy : option LegacyRead.LegacyRead
}.
Record TimeframeInput := mkTimeframeInput {
  ti_Candles : list Candle; ti_Structure : Structure.StructureState; ti_Liquidity : Liquidity.LiquidityState;
  ti_Zones : Zone.ZoneState; ti_Trendline : list Trendline.Trendline; ti_KeyLevel : KeyLevel.State;
  ti_Session : Session.State; ti_Fib : Fib.State; ti_ATR : float; ti_ATRSeries : list float;
  ti_RegimeConfig : Regime.Config; ti_MADConfig : Mad.Config; ti_MADAsia : option Mad.AsiaRangeSeal;
  ti_Momentum : Momentum.MomentumResult; ti_Geometry : Market.Geometry
}.

(** * market.go: the bias a structure gives *)

Definition zero_Bias : BiasContext := mkBias "" Structure.StructureMicro Structure.TrendUnknown.
Fixpoint first_bias (layers : list Structure.LayerState) : BiasContext :=
  match layers with
  | [] => zero_Bias
  | layer :: rest =>
      match Structure.l_Trend layer with
      | Structure.TrendBullish => mkBias Buy (Structure.l_Layer layer) Structure.TrendBullish
      | Structure.TrendBearish => mkBias Sell (Structure.l_Layer layer) Structure.TrendBearish
      | _ => first_bias rest
      end
  end.
Definition bias_layers (state : Structure.StructureState) : list Structure.LayerState :=
  [Structure.st_Major state; Structure.st_Intermediate state; Structure.st_Internal state; Structure.st_Micro state].
Definition DeriveBias (state : Structure.StructureState) : BiasContext := first_bias (bias_layers state).
Definition StructureLayer_String (l : Structure.StructureLayer) : string :=
  match l with
  | Structure.StructureMicro => "micro" | Structure.StructureInternal => "internal"
  | Structure.StructureIntermediate => "intermediate" | Structure.StructureMajor => "major"
  end.

(** * market.go: the context *)

Definition lastCandleTime (candles : list Candle) : Z := from_option c_Time 0%Z (last candles).
Definition structure_kind (state : Structure.StructureState) : string :=
  Structure.TrendState_String (bi_Trend (DeriveBias state)).
Definition regime_of (input : TimeframeInput) : Regime.State :=
  let '(rangeHigh, rangeLow, hasRange) :=
    match Fib.fs_Range (ti_Fib input) with
    | Some r => (Fib.dr_High r, Fib.dr_Low r, true)
    | None => (0%float, 0%float, false)
    end in
  Regime.Classify (ti_Candles input) (ti_ATRSeries input) (Structure.st_Swings (ti_Structure input))
    (structure_kind (ti_Structure input)) rangeHigh rangeLow hasRange (ti_RegimeConfig input).
(** The copy of the MAD configuration with the instrument's pip size, which only the range seal is given. *)
Definition seal_config (input : TimeframeInput) : Mad.Config :=
  let c := ti_MADConfig input in
  if (g_PipSize (ti_Geometry input) >? 0)%float then
    Mad.mkConfig (Mad.AsiaStartHour c) (Mad.LondonStartHour c) (Mad.AccumMinimumRQ c) (Mad.AccumMaximumRQ c)
      (Mad.ExpandBreakATR c) (Mad.ExpandDisplacementATR c) (Mad.ExpandAcceptCloses c) (Mad.ManipMinimumPenetrationATR c)
      (Mad.ManipMinimumReclaimATR c) (g_PipSize (ti_Geometry input))
  else c.
Definition asia_of (input : TimeframeInput) : option Mad.AsiaRangeSeal :=
  match ti_MADAsia input with
  | Some asia => Some asia
  | None =>
      if bool_decide (ti_Candles input = []) then None
      else Mad.UpdateAsiaRangeSeal (ti_Candles input) (lastCandleTime (ti_Candles input))
        (Session.ss_Active (ti_Session input)) (seal_config input)
  end.
(** [None] is the panic of [mad.Classify]. *)
Definition mad_of (input : TimeframeInput) : option Mad.Snapshot :=
  Mad.Classify (ti_Candles input) (ti_ATR input) 0 (Session.ss_Active (ti_Session input))
    (structure_kind (ti_Structure input)) (asia_of input) (lastCandleTime (ti_Candles input)) (ti_MADConfig input).
Definition build_frame (tf : string) (input : TimeframeInput) : option TimeframeContext :=
  madState ← mad_of input;
  Some (mkTimeframeContext tf (ti_Candles input) (ti_Structure input) (ti_Liquidity input) (ti_Zones input)
    (ti_Trendline input) (ti_KeyLevel input) (ti_Session input) (ti_Fib input) (regime_of input) madState
    (ti_Momentum input) (ti_Geometry input) None).
(** The loop over the timeframes, whose order does not show: each frame reads its own input only. *)
Definition build_frames (perTimeframe : gmap string TimeframeInput) : option (gmap string TimeframeContext) :=
  let frames := map_imap (λ tf input, Some (build_frame tf input)) perTimeframe in
  if bool_decide (map_Forall (λ _ (frame : option TimeframeContext), is_Some frame) frames) then Some (omap id frames) else None.
Definition primary_view (primary : string) (input : TimeframeInput) (frame : TimeframeContext) : View :=
  mkView primary (ti_Structure input) (ti_Liquidity input) (ti_Zones input) (ti_Trendline input) (ti_KeyLevel input)
    (ti_Fib input) (DeriveBias (ti_Structure input)) (ti_ATR input) (ti_Session input) (tc_Regime frame) (tc_MAD frame).
Definition Build (symbol primary : string) (perTimeframe : gmap string TimeframeInput) : option MarketContext :=
  timeframes ← build_frames perTimeframe;
  Some (mkMarketContext symbol timeframes
    (input ← perTimeframe !! primary; frame ← timeframes !! primary; Some (primary_view primary input frame)) None).

(** The fields of the primary view the engine reads, zero before there is one. *)
Definition zero_Snapshot : Mad.Snapshot := Mad.mkSnapshot "" None None "" "" false "" "" "" 0 ∅ 0.
Definition mx_Bias (ctx : MarketContext) : BiasContext := from_option vw_Bias zero_Bias (mx_Primary ctx).
Definition mx_MAD (ctx : MarketContext) : Mad.Snapshot := from_option vw_MAD zero_Snapshot (mx_Primary ctx).

(** * Lemmas *)

Lemma first_bias_valid layers : Direction_IsValid (bi_Direction (first_bias layers)) = true ∨ bi_Direction (first_bias layers) = "".
Proof. induction layers as [|l layers IH]; cbn; [by right|]. destruct (Structure.l_Trend l); cbn; auto. Qed.
Lemma layer_named l : StructureLayer_String l ≠ "".
Proof. by destruct l. Qed.

(** A layer that has decided, and the direction of its trend. *)
Definition decided (l : Structure.LayerState) : bool :=
  match Structure.l_Trend l with Structure.TrendBullish | Structure.TrendBearish => true | _ => false end.
Definition layer_bias (l : Structure.LayerState) : BiasContext :=
  mkBias (if bool_decide (Structure.l_Trend l = Structure.TrendBullish) then Buy else Sell) (Structure.l_Layer l) (Structure.l_Trend l).
Lemma first_bias_find layers : first_bias layers = from_option layer_bias zero_Bias (List.find decided layers).
Proof.
  induction layers as [|l layers IH]; [done|]. cbn [first_bias List.find]. unfold decided, layer_bias in *.
  destruct (Structure.l_Trend l) eqn:E; try done; cbn; by rewrite E.
Qed.
Lemma structure_kind_cases state : structure_kind state ∈ ["bullish"; "bearish"; "unknown"].
Proof.
  unfold structure_kind, DeriveBias. rewrite first_bias_find. destruct (List.find decided (bias_layers state)) as [l|] eqn:E; cbn; [|set_solver].
  apply List.find_some in E as [_ Hd]. unfold decided in Hd. destruct (Structure.l_Trend l); set_solver.
Qed.

Lemma build_frames_lookup per frames tf :
  build_frames per = Some frames → frames !! tf = per !! tf ≫= build_frame tf ∧ (is_Some (per !! tf) → is_Some (frames !! tf)).
Proof.
  unfold build_frames. cbv zeta. case_bool_decide as Hall; [|done]. intros [= <-].
  rewrite lookup_omap, map_lookup_imap. destruct (per !! tf) as [input|] eqn:E; cbn; [|by split; [|intros [? ?]]].
  assert (Hs : is_Some (build_frame tf input)) by (apply (Hall tf); by rewrite map_lookup_imap, E).
  destruct Hs as [f Hf]. rewrite Hf. cbn. split; [done|]. by exists f.
Qed.
Lemma build_frame_Some tf input :
  ti_Candles input ≠ [] ∨ ti_MADAsia input = None → is_Some (build_frame tf input).
Proof.
  intros H. unfold build_frame, mad_of.
  pose proof (Mad.classify_total (ti_Candles input) (ti_ATR input) 0 (Session.ss_Active (ti_Session input))
    (structure_kind (ti_Structure input)) (asia_of input) (lastCandleTime (ti_Candles input)) (ti_MADConfig input)) as Ht.
  destruct Ht as [s Hs]; [|rewrite Hs; by eexists].
  destruct H as [H|H]; [by left|]. unfold asia_of. rewrite H. case_bool_decide; [by right|]. by left.
Qed.
Lemma build_frames_Some per :
  map_Forall (λ _ input, ti_Candles input ≠ [] ∨ ti_MADAsia input = None) per → is_Some (build_frames per).
Proof.
  intros H. unfold build_frames. cbv zeta. rewrite bool_decide_true; [by eexists|].
  intros tf o. rewrite map_lookup_imap. destruct (per !! tf) as [input|] eqn:E; [|done]. intros [= <-].
  by apply build_frame_Some, (H tf).
Qed.

(** * Theorems *)

(** The bias is the trend of the highest layer that has one: the layers above it are undecided, ranging layers among
    them, and without a decided layer there is no direction. So the structure label the regime and the MAD phase are given
    is never the label of a range. *)
Theorem bias_of_highest_layer state :
  match bi_Direction (DeriveBias state) with
  | "" => DeriveBias state = zero_Bias ∧ ∀ l, l ∈ bias_layers state → decided l = false
  | _ => ∃ i l, bias_layers state !! i = Some l ∧ decided l = true ∧ DeriveBias state = layer_bias l ∧
      ∀ j l', j < i → bias_layers state !! j = Some l' → decided l' = false
  end ∧ structure_kind state ≠ "range".
Proof.
  split.
  - unfold DeriveBias. rewrite first_bias_find. destruct (List.find decided (bias_layers state)) as [l|] eqn:E; cbn [from_option].
    + apply find_first in E as (i & Hi & Hd & Hj). unfold layer_bias at 1. cbn [bi_Direction].
      assert (H : ∃ i l0, bias_layers state !! i = Some l0 ∧ decided l0 = true ∧ layer_bias l = layer_bias l0 ∧
        ∀ j l', j < i → bias_layers state !! j = Some l' → decided l' = false) by (exists i, l; auto).
      by case_bool_decide.
    + split; [done|]. exact (proj1 (find_miss _ _) E).
  - intros E. pose proof (structure_kind_cases state) as H. rewrite E in H. set_solver.
Qed.

(** What a frame repeats of its input. *)
Definition repeats (tf : string) (input : TimeframeInput) (f : TimeframeContext) : Prop :=
  tc_Timeframe f = tf ∧ tc_Candles f = ti_Candles input ∧ tc_Structure f = ti_Structure input ∧
  tc_Liquidity f = ti_Liquidity input ∧ tc_Zones f = ti_Zones input ∧ tc_Trendline f = ti_Trendline input ∧
  tc_KeyLevel f = ti_KeyLevel input ∧ tc_Session f = ti_Session input ∧ tc_Fib f = ti_Fib input ∧
  tc_Momentum f = ti_Momentum input ∧ tc_Geometry f = ti_Geometry input ∧ tc_Legacy f = None.
Lemma build_frame_repeats tf input f :
  build_frame tf input = Some f → repeats tf input f ∧ tc_Regime f = regime_of input ∧ mad_of input = Some (tc_MAD f).
Proof. unfold build_frame. destruct (mad_of input) as [m|]; [|done]. cbn. intros [= <-]. done. Qed.

(** Timeframes are never mixed. The context has a frame for exactly the timeframes it was given, each repeating its own
    input and nothing else: the same input gives the same frame whatever the other timeframes hold. The top-level fields are
    those of the primary timeframe and of its frame, or all zero without one; and as long as a given Asia range comes with
    candles, the context is always built. *)
Theorem context_keeps_timeframes_apart symbol primary per :
  (map_Forall (λ _ input, ti_Candles input ≠ [] ∨ ti_MADAsia input = None) per → is_Some (Build symbol primary per)) ∧
  ∀ ctx, Build symbol primary per = Some ctx →
    dom (mx_Timeframes ctx) = dom per ∧
    (∀ tf f, mx_Timeframes ctx !! tf = Some f → ∃ input, per !! tf = Some input ∧ repeats tf input f) ∧
    (∀ symbol' primary' per' ctx' tf, Build symbol' primary' per' = Some ctx' → per' !! tf = per !! tf →
      mx_Timeframes ctx' !! tf = mx_Timeframes ctx !! tf) ∧
    match per !! primary, mx_Primary ctx with
    | Some input, Some v => vw_Structure v = ti_Structure input ∧ vw_Bias v = DeriveBias (ti_Structure input) ∧
        vw_ATR v = ti_ATR input ∧ ∃ f, mx_Timeframes ctx !! primary = Some f ∧ vw_Regime v = tc_Regime f ∧ vw_MAD v = tc_MAD f ∧
          vw_Zones v = tc_Zones f ∧ vw_Liquidity v = tc_Liquidity f ∧ vw_Fib v = tc_Fib f ∧ vw_Session v = tc_Session f
    | None, None => mx_MAD ctx = zero_Snapshot ∧ mx_Bias ctx = zero_Bias
    | _, _ => False
    end.
Proof.
  split.
  { intros H. apply build_frames_Some in H as [frames Hf]. unfold Build. rewrite Hf. by eexists. }
  unfold Build. intros ctx. destruct (build_frames per) as [frames|] eqn:Hf; [|done]. cbn. intros [= <-]. cbn [mx_Timeframes mx_Primary].
  pose proof (λ tf, build_frames_lookup per frames tf Hf) as Hl. split_and!.
  - apply set_eq. intros tf. rewrite !elem_of_dom. destruct (Hl tf) as [E Hs]. split; [|done]. rewrite E.
    destruct (per !! tf); [by eexists|intros [? ?]; done].
  - intros tf f Hff. destruct (Hl tf) as [E _]. rewrite E in Hff. destruct (per !! tf) as [input|]; [|done].
    exists input. split; [done|]. by apply build_frame_repeats.
  - intros symbol' primary' per' ctx' tf. destruct (build_frames per') as [frames'|] eqn:Hf'; [|done]. cbn. intros [= <-] Hp.
    cbn [mx_Timeframes]. destruct (build_frames_lookup per' frames' tf Hf') as [-> _]. rewrite Hp. by destruct (Hl tf) as [-> _].
  - destruct (Hl primary) as [E Hs]. destruct (per !! primary) as [input|] eqn:Ep; cbn; [|by unfold mx_MAD, mx_Bias].
    destruct Hs as [f Hff]; [by eexists|]. rewrite Hff. cbn. rewrite E in Hff.
    apply build_frame_repeats in Hff as [(?&?&?&?&?&?&?&?&?&?&?&?) _]. split_and!; [done..|]. exists f. by split_and!.
Qed.

(** A timeframe's regime is chop exactly when the filter is on, the bracketing swings give a dealing range, that range is
    narrow in ATR, and no enabled directional override speaks against it. The other reading of chop, a range structure that
    held its closes, never applies: the label it needs is not among those a derived bias has. Nor does a MAD phase of
    accumulation rest on one. *)
Theorem context_regime_is_width symbol primary per ctx tf f input :
  Build symbol primary per = Some ctx → mx_Timeframes ctx !! tf = Some f → per !! tf = Some input →
  (Regime.rs_Kind (tc_Regime f) = "chop" ↔
    ∃ r, Fib.fs_Range (ti_Fib input) = Some r ∧ Regime.ChopFilterEnabled (ti_RegimeConfig input) = true ∧
      (Fib.dr_High r <=? Fib.dr_Low r)%float = false ∧
      Regime.narrow (ti_ATRSeries input) (Fib.dr_High r) (Fib.dr_Low r) (ti_RegimeConfig input) = true ∧
      ¬ (Regime.DirectionEnabled (ti_RegimeConfig input) = true ∧
        Regime.directionalOverride (ti_Candles input) (Structure.st_Swings (ti_Structure input))
          (Regime.atrScalar (ti_ATRSeries input)) (ti_RegimeConfig input) ≠ None)).
Proof.
  unfold Build. destruct (build_frames per) as [frames|] eqn:Hf; [|done]. cbn. intros [= <-] Hff Hi. cbn [mx_Timeframes] in Hff.
  destruct (build_frames_lookup per frames tf Hf) as [E _]. rewrite Hff, Hi in E. cbn in E. symmetry in E.
  apply build_frame_repeats in E as (_ & -> & _). unfold regime_of.
  assert (Hh : ∀ lo hi, Regime.held_range (ti_Candles input) (structure_kind (ti_Structure input)) lo hi (ti_RegimeConfig input) = false).
  { intros lo hi. unfold Regime.held_range. rewrite bool_decide_false; [done|]. intros Er.
    pose proof (structure_kind_cases (ti_Structure input)) as H. rewrite Er in H. set_solver. }
  destruct (Fib.fs_Range (ti_Fib input)) as [r|].
  - rewrite Regime.kind_chop, Hh, !andb_true_iff, negb_true_iff. split.
    + intros (((? & _) & ?) & [?|?] & ?); [|done]. exists r. auto.
    + intros (r' & [= <-] & ? & ? & ? & ?). auto 10.
  - rewrite Regime.kind_chop, !andb_true_iff. split; [intros (((_ & ?) & _) & _); done|]. intros (r & ? & _). done.
Qed.
