(* ===== verification/Opportunity.v ===== *)
(** Package opportunity: the candidate, its contract, its identity, first observation, and the
    alignment of its prices to the instrument's tick. *)
From S2P Require Import Prelude Float64 Market CandleEvidence.
From Stdlib Require Import Floats.

(** * candidate.go: data *)

Record EntryZone := mkEntryZone { en_Low : float; en_High : float }.
Record StructureZone := mkStructureZone {
  sz_Timeframe : string; sz_Low : float; sz_High : float; sz_FormedAt : Z
}.
Record StrategyQuality := mkQuality { q_Overall : float; q_Components : gmap string float }.
Record AnalysisProvenance := mkProvenance {
  pv_StructureVersion : string; pv_LiquidityVersion : string; pv_ZoneVersion : string;
  pv_ConfigVersion : Z; pv_ConfigFingerprint : string
}.
Record Identity := mkIdentity {
  id_Strategy : string; id_StrategyVersion : string; id_Symbol : string; id_Direction : string;
  id_SetupKey : string
}.
Record ReactionConfirmation := mkReaction {
  rc_ZoneID : string; rc_TouchBarTime : Z; rc_ConfirmationBarTime : Z; rc_ReactionType : string;
  rc_Pattern : string
}.
Record HigherTimeframeBias := mkHigherTimeframeBias {
  hb_Timeframe : string; hb_Direction : string; hb_Layer : string; hb_ReferenceTime : Z
}.
Record MADContext := mkMADContext {
  mc_Version : Z; mc_Phase : string; mc_Confidence : float; mc_Affinity : float; mc_Direction : string;
  mc_SweepSide : string; mc_Reclaim : bool; mc_RangeQualityATR : option float;
  mc_BreakDistanceATR : option float; mc_DisplacementATR : option float; mc_AcceptanceCloses : option Z;
  mc_SweepPenetrationATR : option float; mc_ReclaimDepthATR : option float; mc_ReasonCode : string
}.
Record ConfluenceFactors := mkFactors {
  fa_HTFAligned : bool; fa_Touches : Z; fa_WickRejection : bool; fa_DisplacementGrade : bool;
  fa_SessionContext : bool; fa_StructuralAgreement : bool; fa_FibTouch : bool; fa_CHoCH : bool
}.
Record FibonacciLevelProvenance := mkFibLevel {
  fl_Ratio : float; fl_Price : float; fl_Kind : string; fl_DistanceATR : float
}.
Record LiquidityGrabProvenance := mkGrab { gr_PoolID : string; gr_SweptAt : Z; gr_ReclaimedAt : Z }.
Record ConfluenceContext := mkConfluence {
  cx_Version : string; cx_SelectedStars : Z; cx_V1Stars : Z; cx_V2Stars : Z; cx_V2Raw : float;
  cx_RawFactorScore : float; cx_ZoneQualityScore : float; cx_MADBonus : float;
  cx_Factors : ConfluenceFactors; cx_FibLevel : option FibonacciLevelProvenance;
  cx_GradeAGrab : option LiquidityGrabProvenance
}.
Record TechnicalContext := mkTechnical {
  t_ATR : float; t_ReferencePrice : float; t_ReferenceTime : Z; t_BiasDirection : string;
  t_BiasLayer : string; t_HigherTimeframes : list HigherTimeframeBias;
  t_Confirmation : option ReactionConfirmation; t_CandleEvidence : option CandleEvidence.Evidence;
  t_MAD : option MADContext; t_Confluence : option ConfluenceContext
}.
Record StopEnvelope := mkStopEnvelope {
  se_FloorPips : float; se_CapPips : float; se_DesiredMinimumPips : float; se_Source : string
}.
(** [Target] is a price level and [Evidence] a code, one field each. *)
Record Candidate := mkCandidate {
  ca_ID : string; ca_Strategy : string; ca_StrategyVersion : string; ca_Symbol : string;
  ca_ObservedTimeframe : string; ca_StructureTimeframe : string; ca_Structure : option StructureZone;
  ca_Direction : string; ca_StructuralID : string; ca_Entry : EntryZone; ca_Invalidation : PriceLevel;
  ca_Targets : list PriceLevel; ca_Evidence : list string; ca_Quality : StrategyQuality;
  ca_FormedAt : Z; ca_CreatedAt : Z; ca_ExpiresAt : Z; ca_Provenance : AnalysisProvenance;
  ca_Technical : option TechnicalContext; ca_Reaction : option ReactionConfirmation;
  ca_DetectorConfluence : option ConfluenceContext; ca_StopEnvelope : option StopEnvelope
}.

(** * candidate.go: identity *)

Definition NUL : string := String Ascii.zero EmptyString.
Definition canonical (i : Identity) : string :=
  "opportunity/v1" +:+ NUL +:+ id_Strategy i +:+ NUL +:+ id_StrategyVersion i +:+ NUL +:+ id_Symbol i
    +:+ NUL +:+ id_Direction i +:+ NUL +:+ id_SetupKey i.
Definition identity_incomplete (i : Identity) : bool :=
  bool_decide (id_Strategy i = "") || bool_decide (id_StrategyVersion i = "") ||
  bool_decide (id_Symbol i = "") || negb (Direction_IsValid (id_Direction i)) ||
  bool_decide (id_SetupKey i = "").
(** [hash] is the hexadecimal SHA-256 digest. *)
Definition DeterministicID (hash : string → string) (i : Identity) : result string :=
  if identity_incomplete i
  then Err "opportunity: deterministic identity requires strategy, strategy version, symbol, direction, and setup key"
  else Ok ("opp_" +:+ hash (canonical i)).

(** * candidate.go: the contract *)

Definition finite (v : float) : bool := negb (IsNaN v) && negb (IsInf v).
Definition ReactionPatterns : list string :=
  ["wick_rejection"; "rejection_choch"; "strong_reclaim"; "engulfing"; "sweep_reclaim"].
Definition is_pattern (p : string) : bool := bool_decide (p ∈ ReactionPatterns).

(** An error of [Validate], or none. The checks of each block, in the code's order. *)
Definition check (bad : bool) (msg : string) : option string := if bad then Some msg else None.
Fixpoint first_error (checks : list (option string)) : option string :=
  match checks with
  | [] => None
  | Some e :: _ => Some e
  | None :: rest => first_error rest
  end.

Definition geometry_error (c : Candidate) : option string :=
  let invalidation := pl_Price (ca_Invalidation c) in
  let low := en_Low (ca_Entry c) in let high := en_High (ca_Entry c) in
  if bool_decide (ca_Direction c = Buy) then
    first_error [
      check (invalidation >=? low)%float "opportunity: BUY invalidation must be below entry.low";
      check (existsb (λ t, pl_Price t <=? high)%float (ca_Targets c)) "opportunity: BUY targets must be above entry.high"]
  else if bool_decide (ca_Direction c = Sell) then
    first_error [
      check (invalidation <=? high)%float "opportunity: SELL invalidation must be above entry.high";
      check (existsb (λ t, pl_Price t >=? low)%float (ca_Targets c)) "opportunity: SELL targets must be below entry.low"]
  else None.
Definition reaction_error (c : Candidate) : option string :=
  match ca_Reaction c with
  | None => None
  | Some r =>
      check (bool_decide (rc_ZoneID r = "") || negb (bool_decide (rc_ReactionType r = "rejection")) ||
             (negb (bool_decide (rc_Pattern r = "")) && negb (is_pattern (rc_Pattern r))) ||
             (rc_TouchBarTime r <? 0)%Z || (rc_ConfirmationBarTime r <? rc_TouchBarTime r)%Z ||
             (ca_CreatedAt c <? rc_ConfirmationBarTime r)%Z)
        "opportunity: confirmed reaction needs a causal touch and closed confirmation bar"
  end.
Definition confluence_error (x : ConfluenceContext) : option string :=
  let stars n := ((n <? 1) || (3 <? n))%Z in
  first_error [
    check (negb (bool_decide (cx_Version x = "v1")) && negb (bool_decide (cx_Version x = "v2")))
      "opportunity: confluence scoring version must be v1 or v2";
    check (stars (cx_SelectedStars x) || stars (cx_V1Stars x) || stars (cx_V2Stars x) ||
           (fa_Touches (cx_Factors x) <? 0)%Z || negb (finite (cx_V2Raw x)) ||
           negb (finite (cx_RawFactorScore x)) || negb (finite (cx_ZoneQualityScore x)) ||
           negb (finite (cx_MADBonus x)) || (cx_MADBonus x <? 0)%float)
      "opportunity: confluence facts are invalid"].
Fixpoint higher_error (createdAt : Z) (seen : list string) (hs : list HigherTimeframeBias) : option string :=
  match hs with
  | [] => None
  | h :: rest =>
      if negb (bool_decide (hb_Timeframe h = tf_M15)) && negb (bool_decide (hb_Timeframe h = tf_H1)) &&
         negb (bool_decide (hb_Timeframe h = tf_H4))
      then Some "opportunity: higher timeframe must be M15, H1 or H4"
      else if bool_decide (hb_Timeframe h ∈ seen) || negb (Direction_IsValid (hb_Direction h)) ||
              bool_decide (hb_Layer h = "") || (hb_ReferenceTime h <? 0)%Z || (createdAt <? hb_ReferenceTime h)%Z
      then Some "opportunity: higher timeframe needs distinct causal confirmed structure"
      else higher_error createdAt (hb_Timeframe h :: seen) rest
  end.
Definition technical_error (c : Candidate) : option string :=
  match ca_Technical c with
  | None => None
  | Some t =>
      first_error [
        check (negb (finite (t_ATR t)) || (t_ATR t <=? 0)%float || negb (finite (t_ReferencePrice t)) ||
               (t_ReferencePrice t <=? 0)%float || (t_ReferenceTime t <? 0)%Z)
          "opportunity: technical context needs finite positive ATR and reference price";
        check (negb (bool_decide (t_BiasDirection t = "")) && negb (Direction_IsValid (t_BiasDirection t)))
          "opportunity: technical bias direction must be BUY or SELL when present";
        match t_Confluence t with None => None | Some x => confluence_error x end;
        higher_error (ca_CreatedAt c) [] (t_HigherTimeframes t)]
  end.
Definition envelope_error (c : Candidate) : option string :=
  match ca_StopEnvelope c with
  | None => None
  | Some e =>
      check (negb (finite (se_FloorPips e)) || negb (finite (se_CapPips e)) ||
             negb (finite (se_DesiredMinimumPips e)) || (se_FloorPips e <=? 0)%float ||
             (se_CapPips e <? se_FloorPips e)%float || (se_DesiredMinimumPips e <? se_FloorPips e)%float ||
             bool_decide (se_Source e = ""))
        "opportunity: stop envelope needs a positive floor, a cap at or above the floor, and a desired minimum at or above the floor"
  end.
Definition timeframe_unknown (tf : string) : bool := match Minutes tf with Some _ => false | None => true end.
Definition Validate (c : Candidate) : option string :=
  let low := en_Low (ca_Entry c) in let high := en_High (ca_Entry c) in
  first_error [
    check (bool_decide (ca_ID c = "")) "opportunity: candidate ID is required";
    check (bool_decide (ca_Strategy c = "") || bool_decide (ca_StrategyVersion c = ""))
      "opportunity: candidate strategy and strategy version are required";
    check (bool_decide (ca_Symbol c = "") || negb (Direction_IsValid (ca_Direction c)))
      "opportunity: candidate symbol and BUY/SELL direction are required";
    check (negb (bool_decide (ca_ObservedTimeframe c = "")) && timeframe_unknown (ca_ObservedTimeframe c))
      "opportunity: observed timeframe is invalid";
    check (negb (bool_decide (ca_StructureTimeframe c = "")) && timeframe_unknown (ca_StructureTimeframe c))
      "opportunity: structure timeframe is invalid";
    match ca_Structure c with
    | None => None
    | Some s => first_error [
        check (timeframe_unknown (sz_Timeframe s)) "opportunity: structure zone timeframe is invalid";
        check (negb (finite (sz_Low s)) || negb (finite (sz_High s)) || (sz_Low s >? sz_High s)%float)
          "opportunity: structure zone must be a finite low-to-high range"]
    end;
    check (negb (finite low) || negb (finite high) || (low >? high)%float)
      "opportunity: entry must be a finite low-to-high range";
    check (low =? high)%float "opportunity: entry band must have positive width";
    check (negb (finite (pl_Price (ca_Invalidation c)))) "opportunity: invalidation price must be finite";
    check (bool_decide (ca_Targets c = []) || bool_decide (ca_Evidence c = []))
      "opportunity: at least one technical target and evidence fact are required";
    check (existsb (λ t, negb (finite (pl_Price t))) (ca_Targets c)) "opportunity: target prices must be finite";
    geometry_error c;
    check (existsb (λ e, bool_decide (e = "")) (ca_Evidence c)) "opportunity: evidence codes must be non-empty";
    check ((ca_FormedAt c <? 0)%Z || (ca_CreatedAt c <? 0)%Z)
      "opportunity: formation and creation times must be non-negative";
    check (ca_CreatedAt c <? ca_FormedAt c)%Z "opportunity: formation must not follow creation";
    check (ca_ExpiresAt c <=? ca_CreatedAt c)%Z "opportunity: expiry must be after creation";
    check (negb (finite (q_Overall (ca_Quality c)))) "opportunity: quality must be finite";
    check (existsb (λ '(name, value), bool_decide (name = "") || negb (finite value))
             (map_to_list (q_Components (ca_Quality c))))
      "opportunity: quality components need non-empty names and finite values";
    reaction_error c;
    technical_error c;
    check (let p := ca_Provenance c in
           bool_decide (pv_StructureVersion p = "") || bool_decide (pv_LiquidityVersion p = "") ||
           bool_decide (pv_ZoneVersion p = "") || (pv_ConfigVersion p <=? 0)%Z ||
           bool_decide (pv_ConfigFingerprint p = ""))
      "opportunity: complete analytical and configuration provenance is required";
    envelope_error c].

(** * candidate.go: first observation *)

Definition set_times (c : Candidate) (formed created expires : Z) : Candidate :=
  mkCandidate (ca_ID c) (ca_Strategy c) (ca_StrategyVersion c) (ca_Symbol c) (ca_ObservedTimeframe c)
    (ca_StructureTimeframe c) (ca_Structure c) (ca_Direction c) (ca_StructuralID c) (ca_Entry c)
    (ca_Invalidation c) (ca_Targets c) (ca_Evidence c) (ca_Quality c) formed created expires
    (ca_Provenance c) (ca_Technical c) (ca_Reaction c) (ca_DetectorConfluence c) (ca_StopEnvelope c).
(** A candidate returned beside an error is not used, so it is dropped here. *)
Definition AtFirstObservation (c : Candidate) (observedAt : Z) : result Candidate :=
  if (observedAt <? 0)%Z then Err "opportunity: first observation time must be non-negative"
  else
    let ttl := wrap64 (ca_ExpiresAt c - ca_CreatedAt c) in
    if (ttl <=? 0)%Z then Err "opportunity: strategy expiry window must be positive"
    else
      let formed := if (ca_FormedAt c =? 0)%Z then ca_CreatedAt c else ca_FormedAt c in
      let formed := if (observedAt <? formed)%Z then observedAt else formed in
      let c' := set_times c formed observedAt (wrap64 (observedAt + ttl)) in
      match Validate c' with None => Ok c' | Some e => Err e end.

(** * geometry.go *)

Definition geometryScale (g : Market.Geometry) : float := mul10 (Z.to_nat (g_PriceDigits g)) 1.
Definition tickSize (g : Market.Geometry) : float := (1 / geometryScale g)%float.
Definition set_prices (c : Candidate) (entry : EntryZone) (invalid : float) (targets : list PriceLevel) : Candidate :=
  mkCandidate (ca_ID c) (ca_Strategy c) (ca_StrategyVersion c) (ca_Symbol c) (ca_ObservedTimeframe c)
    (ca_StructureTimeframe c) (ca_Structure c) (ca_Direction c) (ca_StructuralID c) entry
    (mkPriceLevel invalid (pl_Label (ca_Invalidation c))) targets (ca_Evidence c) (ca_Quality c)
    (ca_FormedAt c) (ca_CreatedAt c) (ca_ExpiresAt c) (ca_Provenance c) (ca_Technical c) (ca_Reaction c)
    (ca_DetectorConfluence c) (ca_StopEnvelope c).
Definition normalize_entry (g : Market.Geometry) (e : EntryZone) : EntryZone :=
  let low := FloorToTick g (en_Low e) in
  let high := CeilToTick g (en_High e) in
  mkEntryZone low (if (low >=? high)%float then CeilToTick g (low + tickSize g) else high).
Definition normalize_invalid (g : Market.Geometry) (buy : bool) (e : EntryZone) (price : float) : float :=
  if buy then
    let p := FloorToTick g price in
    if (p >=? en_Low e)%float then FloorToTick g (en_Low e - tickSize g) else p
  else
    let p := CeilToTick g price in
    if (p <=? en_High e)%float then CeilToTick g (en_High e + tickSize g) else p.
Definition normalize_target (g : Market.Geometry) (buy : bool) (e : EntryZone) (t : PriceLevel) : PriceLevel :=
  let price :=
    if buy then
      let p := FloorToTick g (pl_Price t) in
      if (p <=? en_High e)%float then CeilToTick g (en_High e + tickSize g) else p
    else
      let p := CeilToTick g (pl_Price t) in
      if (p >=? en_Low e)%float then FloorToTick g (en_Low e - tickSize g) else p in
  mkPriceLevel price (pl_Label t).
Definition NormalizeGeometry (c : Candidate) (g : Market.Geometry) : result Candidate :=
  if bool_decide (g_Symbol g = "") || (g_PipSize g <=? 0)%float then Ok c
  else if negb (bool_decide (ca_Symbol c = g_Symbol g)) then
    Err ("opportunity: geometry symbol " +:+ g_Symbol g +:+ " does not match candidate symbol " +:+ ca_Symbol c)
  else
    let entry := normalize_entry g (ca_Entry c) in
    let go buy :=
      let c' := set_prices c entry (normalize_invalid g buy entry (pl_Price (ca_Invalidation c)))
                  (map (normalize_target g buy entry) (ca_Targets c)) in
      match Validate c' with
      | None => Ok c'
      | Some e => Err ("opportunity: normalized candidate is invalid: " +:+ e)
      end in
    if bool_decide (ca_Direction c = Buy) then go true
    else if bool_decide (ca_Direction c = Sell) then go false
    else Err "opportunity: cannot normalize invalid direction".

(** * Lemmas: the contract *)

Lemma first_error_None checks : first_error checks = None ↔ Forall (λ e, e = None) checks.
Proof.
  induction checks as [|[e|] rest IH]; cbn [first_error].
  - split; [constructor|done].
  - split; [done|]. by inversion 1.
  - rewrite IH. split; [by constructor|by inversion 1].
Qed.
Lemma check_None bad msg : check bad msg = None ↔ bad = false.
Proof. destruct bad; cbn; split; done. Qed.

Lemma existsb_false {A} (f : A → bool) l : existsb f l = false ↔ Forall (λ x, f x = false) l.
Proof.
  induction l as [|a l IH]; cbn [existsb]; [split; [constructor|done]|].
  rewrite orb_false_iff, IH, Forall_cons. done.
Qed.

(** What a candidate that passed [Validate] is, for the consumer. *)
Record candidate_sound (c : Candidate) : Prop := {
  cs_id : ca_ID c ≠ "" ∧ ca_Strategy c ≠ "" ∧ ca_StrategyVersion c ≠ "" ∧ ca_Symbol c ≠ "";
  cs_entry : finite (en_Low (ca_Entry c)) = true ∧ finite (en_High (ca_Entry c)) = true ∧
    (key (en_Low (ca_Entry c)) < key (en_High (ca_Entry c)))%Z;
  cs_invalidation : finite (pl_Price (ca_Invalidation c)) = true;
  cs_targets : ca_Targets c ≠ [] ∧ Forall (λ t, finite (pl_Price t) = true) (ca_Targets c);
  cs_sides :
    ca_Direction c = Buy ∧ (key (pl_Price (ca_Invalidation c)) < key (en_Low (ca_Entry c)))%Z ∧
      Forall (λ t, (key (en_High (ca_Entry c)) < key (pl_Price t))%Z) (ca_Targets c) ∨
    ca_Direction c = Sell ∧ (key (en_High (ca_Entry c)) < key (pl_Price (ca_Invalidation c)))%Z ∧
      Forall (λ t, (key (pl_Price t) < key (en_Low (ca_Entry c)))%Z) (ca_Targets c);
  cs_evidence : ca_Evidence c ≠ [] ∧ Forall (λ e, e ≠ "") (ca_Evidence c);
  cs_times : (0 <= ca_FormedAt c <= ca_CreatedAt c)%Z ∧ (ca_CreatedAt c < ca_ExpiresAt c)%Z;
  cs_reaction : ∀ r, ca_Reaction c = Some r →
    (0 <= rc_TouchBarTime r <= rc_ConfirmationBarTime r)%Z ∧ (rc_ConfirmationBarTime r <= ca_CreatedAt c)%Z;
  cs_technical : ∀ t, ca_Technical c = Some t →
    finite (t_ATR t) = true ∧ (0 < key (t_ATR t))%Z ∧
    NoDup (map hb_Timeframe (t_HigherTimeframes t)) ∧
    Forall (λ h, (0 <= hb_ReferenceTime h <= ca_CreatedAt c)%Z ∧ Direction_IsValid (hb_Direction h) = true)
      (t_HigherTimeframes t);
  cs_envelope : ∀ e, ca_StopEnvelope c = Some e →
    (0 < key (se_FloorPips e))%Z ∧ (key (se_FloorPips e) <= key (se_CapPips e))%Z ∧
    (key (se_FloorPips e) <= key (se_DesiredMinimumPips e))%Z;
}.

Lemma finite_num x : finite x = true → IsNaN x = false.
Proof. apply finite_not_nan. Qed.

Lemma geometry_error_None c :
  Direction_IsValid (ca_Direction c) = true → geometry_error c = None →
  finite (en_Low (ca_Entry c)) = true → finite (en_High (ca_Entry c)) = true →
  finite (pl_Price (ca_Invalidation c)) = true → Forall (λ t, finite (pl_Price t) = true) (ca_Targets c) →
  ca_Direction c = Buy ∧ (key (pl_Price (ca_Invalidation c)) < key (en_Low (ca_Entry c)))%Z ∧
    Forall (λ t, (key (en_High (ca_Entry c)) < key (pl_Price t))%Z) (ca_Targets c) ∨
  ca_Direction c = Sell ∧ (key (en_High (ca_Entry c)) < key (pl_Price (ca_Invalidation c)))%Z ∧
    Forall (λ t, (key (pl_Price t) < key (en_Low (ca_Entry c)))%Z) (ca_Targets c).
Proof.
  intros Hd Hg Hl%finite_num Hh%finite_num Hi%finite_num Ht. unfold geometry_error in Hg.
  unfold Direction_IsValid in Hd. case_bool_decide as Hb; [left|]; [|case_bool_decide as Hs; [right|done]].
  all: rewrite first_error_None, !Forall_cons, !check_None, existsb_false, leb_num in Hg by done.
  all: destruct Hg as (H1 & H2 & _); split_and!; [done|lia|].
  all: rewrite Forall_forall in *; intros t Hin; specialize (H2 t Hin); specialize (Ht t Hin);
    apply finite_num in Ht; rewrite leb_num in H2 by done; lia.
Qed.

Lemma higher_error_None created seen hs :
  higher_error created seen hs = None →
  NoDup (map hb_Timeframe hs) ∧ Forall (λ h, hb_Timeframe h ∉ seen) hs ∧
  Forall (λ h, (0 <= hb_ReferenceTime h <= created)%Z ∧ Direction_IsValid (hb_Direction h) = true) hs.
Proof.
  revert seen. induction hs as [|h hs IH]; intros seen; cbn [higher_error map];
    [intros _; split_and!; constructor|].
  destruct (_ && _); [done|]. destruct (_ || _) eqn:E; [done|]. intros (H1 & H2 & H3)%IH. bools.
  split_and!.
  - constructor; [|done]. intros (h' & Heq & Hin)%list_elem_of_fmap. rewrite Forall_forall in H2.
    apply (H2 h' Hin). rewrite <- Heq. set_solver.
  - constructor; [done|]. eapply Forall_impl; [exact H2|]. set_solver.
  - constructor; [|done]. split; [lia|done].
Qed.

Lemma technical_error_None c t :
  technical_error c = None → ca_Technical c = Some t →
  finite (t_ATR t) = true ∧ (0 < key (t_ATR t))%Z ∧
  NoDup (map hb_Timeframe (t_HigherTimeframes t)) ∧
  Forall (λ h, (0 <= hb_ReferenceTime h <= ca_CreatedAt c)%Z ∧ Direction_IsValid (hb_Direction h) = true)
    (t_HigherTimeframes t).
Proof.
  unfold technical_error. intros H Ht. rewrite Ht in H.
  rewrite first_error_None, !Forall_cons, !check_None in H. destruct H as (H1 & _ & _ & H4 & _).
  bools. apply higher_error_None in H4 as (Hn & _ & Hf). split_and!; try done.
  pose proof (finite_num (t_ATR t) ltac:(done)). rewrite leb_num in * by done. change (key 0) with 0%Z in *. lia.
Qed.

Lemma envelope_error_None c e :
  envelope_error c = None → ca_StopEnvelope c = Some e →
  (0 < key (se_FloorPips e))%Z ∧ (key (se_FloorPips e) <= key (se_CapPips e))%Z ∧
  (key (se_FloorPips e) <= key (se_DesiredMinimumPips e))%Z.
Proof.
  unfold envelope_error. intros H He. rewrite He in H. rewrite check_None in H. bools.
  repeat match goal with H : finite _ = true |- _ => apply finite_num in H end.
  rewrite leb_num, !ltb_num in * by done. change (key 0) with 0%Z in *. lia.
Qed.

Lemma Validate_quality c : Validate c = None → finite (q_Overall (ca_Quality c)) = true.
Proof.
  unfold Validate. cbv zeta. rewrite first_error_None, !Forall_cons, !check_None.
  intros (_ & _ & _ & _ & _ & _ & _ & _ & _ & _ & _ & _ & _ & _ & _ & _ & Hq & _). by bools.
Qed.
Lemma Validate_sound_aux c : Validate c = None → candidate_sound c.
Proof.
  unfold Validate. cbv zeta. rewrite first_error_None, !Forall_cons, !check_None, !existsb_false.
  intros (Hid & Hst & Hsy & _ & _ & _ & Hen & Hw & Hinv & Hne & Htf & Hgeo & Hev & Ht0 & Ht1 & Ht2 & _ & _ & Hre &
    Hte & _ & Hse & _).
  bools.
  assert (HT : Forall (λ t, finite (pl_Price t) = true) (ca_Targets c)).
  { eapply Forall_impl; [exact Htf|]. cbn. intros t ?%negb_false_iff. done. }
  pose proof (finite_num (en_Low (ca_Entry c)) ltac:(done)) as Nl.
  pose proof (finite_num (en_High (ca_Entry c)) ltac:(done)) as Nh.
  rewrite eqb_num in Hw by done.
  match goal with H : (en_High _ <? en_Low _)%float = false |- _ => rewrite ltb_num in H by done end.
  constructor; try done.
  - split_and!; try done. lia.
  - by apply geometry_error_None.
  - split; [done|]. eapply Forall_impl; [exact Hev|]. cbn. intros e ?%bool_decide_eq_false. done.
  - lia.
  - intros r Hr. unfold reaction_error in Hre. rewrite Hr, check_None in Hre. bools. lia.
  - intros t. by apply technical_error_None.
  - intros e. by apply envelope_error_None.
Qed.

(** * Lemmas: identity *)

(** NUL-terminated prefixes without NUL of their own can be read back. *)
Fixpoint no_nul (s : string) : bool :=
  match s with EmptyString => true | String c s => negb (bool_decide (c = Ascii.zero)) && no_nul s end.

Lemma nul_split a b s t :
  no_nul a = true → no_nul b = true → a +:+ NUL +:+ s = b +:+ NUL +:+ t → a = b ∧ s = t.
Proof.
  revert b. induction a as [|c a IH]; intros [|d b] Ha Hb H; cbn in *; simplify_eq; try done.
  bools. destruct (IH b) as [-> ->]; done.
Qed.

Definition identity_fields_clean (i : Identity) : bool :=
  no_nul (id_Strategy i) && no_nul (id_StrategyVersion i) && no_nul (id_Symbol i).

Lemma valid_direction_clean d : Direction_IsValid d = true → no_nul d = true.
Proof. unfold Direction_IsValid. intros [?|?]%orb_prop; bools; subst; done. Qed.

Lemma canonical_inj i j :
  identity_fields_clean i = true → identity_fields_clean j = true →
  Direction_IsValid (id_Direction i) = true → Direction_IsValid (id_Direction j) = true →
  canonical i = canonical j → i = j.
Proof.
  unfold identity_fields_clean. intros Hi Hj Di%valid_direction_clean Dj%valid_direction_clean H. bools.
  destruct i, j. unfold canonical in H. cbn [id_Strategy id_StrategyVersion id_Symbol id_Direction id_SetupKey] in *.
  apply nul_split in H as [_ H]; [|done|done].
  apply nul_split in H as [-> H]; [|done|done].
  apply nul_split in H as [-> H]; [|done|done].
  apply nul_split in H as [-> H]; [|done|done].
  apply nul_split in H as [-> ->]; done.
Qed.

Lemma app_inj_l (p s t : string) : p +:+ s = p +:+ t → s = t.
Proof. induction p; cbn; [done|]. intros [= ?]. auto. Qed.

(** * Properties *)

(** [C30] A candidate that passes [Validate] can be traded as drawn: its entry band has positive
    width, its invalidation lies strictly on the losing side and every target strictly on the
    winning side of the band, its times are ordered formation, creation, expiry, its confirmations
    and higher-timeframe reads are no later than its creation, and its stop envelope is ordered. *)
Theorem validated_candidate_sound c : Validate c = None → candidate_sound c.
Proof. apply Validate_sound_aux. Qed.

Definition demo_candidate (id : string) (structural : string) (dir : string) (quality : float) : Candidate :=
  let buy := bool_decide (dir = Buy) in
  mkCandidate id "supply" "v1" "XAU" tf_M5 "" None dir structural (mkEntryZone 100 101)
    (mkPriceLevel (if buy then 98 else 103) "zone_far_edge") [mkPriceLevel (if buy then 105 else 95) "tp1"]
    ["fvg_present"] (mkQuality quality ∅) 50 100 1000 (mkProvenance "v2" "v1" "v1" 3 "abc")
    (Some (mkTechnical 1 100.5 100 "" "" [] None None None None)) None None None.
Lemma validated_candidate_sound_witness :
  candidate_sound (demo_candidate "opp_1" "" Buy 0.5) ∧ candidate_sound (demo_candidate "opp_2" "" Sell 0.5).
Proof.
  split; [apply (validated_candidate_sound (demo_candidate "opp_1" "" Buy 0.5))
         |apply (validated_candidate_sound (demo_candidate "opp_2" "" Sell 0.5))]; vm_compute; reflexivity.
Defined.

(** An opportunity ID identifies the setup: two identities whose fields carry no NUL byte get
    the same ID only if they are the same identity or the digest itself collides on two different
    inputs; an incomplete identity gets no ID. *)
Theorem identity_injective hash i j id :
  identity_fields_clean i = true → identity_fields_clean j = true →
  DeterministicID hash i = Ok id → DeterministicID hash j = Ok id →
  i = j ∨ (canonical i ≠ canonical j ∧ hash (canonical i) = hash (canonical j)).
Proof.
  intros Ci Cj. unfold DeterministicID.
  destruct (identity_incomplete i) eqn:Ei; [done|]. destruct (identity_incomplete j) eqn:Ej; [done|].
  unfold identity_incomplete in *. bools.
  intros [= <-] [= Hh%eq_sym].
  destruct (decide (canonical i = canonical j)); [left; by apply canonical_inj|right; done].
Qed.

Definition demo_identity (setup : string) : Identity := mkIdentity "supply" "v1" "XAU" Sell setup.
Lemma identity_injective_witness :
  ∃ id, DeterministicID (λ s, s) (demo_identity "zone:1") = Ok id ∧
    DeterministicID (λ s, s) (demo_identity "zone:2") ≠ Ok id.
Proof.
  destruct (DeterministicID (λ s, s) (demo_identity "zone:1")) as [id|] eqn:E; [|discriminate E].
  exists id. split; [reflexivity|]. intros H.
  destruct (identity_injective (λ s, s) (demo_identity "zone:1") (demo_identity "zone:2") id
    eq_refl eq_refl E H) as [Heq|[Hne Heq]]; [discriminate Heq|exact (Hne Heq)].
Defined.

(** First observation re-anchors a candidate and nothing else: a candidate it returns is
    valid, is created at the observing bar, was formed no later, expires after its own unchanged
    time to live, and keeps every other field; it fails only on a negative time, a non-positive
    time to live or an invalid result. *)
Theorem first_observation c observedAt :
  in_int64 (ca_ExpiresAt c - ca_CreatedAt c) → in_int64 (observedAt + (ca_ExpiresAt c - ca_CreatedAt c)) →
  match AtFirstObservation c observedAt with
  | Ok c' =>
      Validate c' = None ∧ ca_CreatedAt c' = observedAt ∧
      (ca_ExpiresAt c' - ca_CreatedAt c' = ca_ExpiresAt c - ca_CreatedAt c)%Z ∧
      (ca_FormedAt c' <= observedAt)%Z ∧
      (ca_FormedAt c' = Z.min observedAt (if ca_FormedAt c =? 0 then ca_CreatedAt c else ca_FormedAt c))%Z ∧
      set_times c' (ca_FormedAt c) (ca_CreatedAt c) (ca_ExpiresAt c) = c
  | Err _ =>
      (observedAt < 0)%Z ∨ (ca_ExpiresAt c <= ca_CreatedAt c)%Z ∨
      is_Some (Validate (set_times c (Z.min observedAt (if ca_FormedAt c =? 0 then ca_CreatedAt c else ca_FormedAt c)%Z)
        observedAt (observedAt + (ca_ExpiresAt c - ca_CreatedAt c))%Z))
  end.
Proof.
  intros H1 H2. unfold AtFirstObservation. rewrite (wrap64_id _ H1), (wrap64_id _ H2).
  destruct (Z.ltb_spec observedAt 0); [by left|].
  destruct (Z.leb_spec (ca_ExpiresAt c - ca_CreatedAt c) 0); [right; left; lia|].
  set (f := if (ca_FormedAt c =? 0)%Z then ca_CreatedAt c else ca_FormedAt c).
  replace (if (observedAt <? f)%Z then observedAt else f) with (Z.min observedAt f)
    by (destruct (Z.ltb_spec observedAt f); lia).
  destruct (Validate _) as [e|] eqn:E; [right; right; by eexists|].
  destruct c; cbn in *. split_and!; try done; lia.
Qed.

Lemma first_observation_witness :
  ∃ c', AtFirstObservation (demo_candidate "opp_1" "" Buy 0.5) 200 = Ok c' ∧ (ca_ExpiresAt c' = 1100)%Z.
Proof.
  pose proof (first_observation (demo_candidate "opp_1" "" Buy 0.5) 200) as H.
  destruct (AtFirstObservation (demo_candidate "opp_1" "" Buy 0.5) 200) as [c'|] eqn:E;
    [|vm_compute in E; discriminate E].
  exists c'. split; [reflexivity|].
  destruct H as (_ & Hc & Ht & _); [split; vm_compute; congruence|split; vm_compute; congruence|].
  change (ca_ExpiresAt (demo_candidate "opp_1" "" Buy 0.5)) with 1000%Z in Ht.
  change (ca_CreatedAt (demo_candidate "opp_1" "" Buy 0.5)) with 100%Z in Ht. lia.
Defined.

(** Tick alignment changes prices only: what it returns for a configured instrument is a valid
    candidate whose identity, times, evidence, quality and policy fields are the input's, with the
    same number of targets and labels; a candidate of another symbol or without a direction is
    refused. *)
Theorem normalize_geometry_prices_only c g c' :
  NormalizeGeometry c g = Ok c' → g_Symbol g ≠ "" → (g_PipSize g <=? 0)%float = false →
  candidate_sound c' ∧ ca_Symbol c = g_Symbol g ∧ Direction_IsValid (ca_Direction c) = true ∧
  map pl_Label (ca_Targets c') = map pl_Label (ca_Targets c) ∧
  set_prices c' (ca_Entry c) (pl_Price (ca_Invalidation c)) (ca_Targets c) = c.
Proof.
  unfold NormalizeGeometry. intros H Hs Hp. rewrite bool_decide_false, Hp in H by done. cbn [orb] in H.
  case_bool_decide as Hsym; [|done]. cbn [negb] in H.
  set (e := normalize_entry g (ca_Entry c)) in H.
  assert (Hgo : ∀ buy, match Validate (set_prices c e (normalize_invalid g buy e (pl_Price (ca_Invalidation c)))
      (map (normalize_target g buy e) (ca_Targets c))) with
    | None => Ok (set_prices c e (normalize_invalid g buy e (pl_Price (ca_Invalidation c)))
      (map (normalize_target g buy e) (ca_Targets c)))
    | Some m => Err ("opportunity: normalized candidate is invalid: " +:+ m) end = Ok c' →
    candidate_sound c' ∧ map pl_Label (ca_Targets c') = map pl_Label (ca_Targets c) ∧
    set_prices c' (ca_Entry c) (pl_Price (ca_Invalidation c)) (ca_Targets c) = c).
  { intros buy. clear H. destruct (Validate _) eqn:E; [done|]. intros [= <-]. split; [by apply Validate_sound_aux|].
    destruct c as [? ? ? ? ? ? ? ? ? ? [p l] ? ? ? ? ? ? ? ? ? ? ?]; cbn [ca_Targets ca_Entry ca_Invalidation set_prices pl_Price pl_Label] in *.
    split; [|done]. rewrite map_map. apply map_ext. done. }
  unfold Direction_IsValid. cbv zeta in H.
  destruct (bool_decide (ca_Direction c = Buy)); [|destruct (bool_decide (ca_Direction c = Sell)); [|done]].
  - destruct (Hgo true H) as (? & ? & ?). done.
  - destruct (Hgo false H) as (? & ? & ?). done.
Qed.

Definition demo_geometry : Market.Geometry := Market.mkGeometry "XAU" "XAUUSD" 0.1 2.
Lemma normalize_geometry_prices_only_witness :
  ∃ c', NormalizeGeometry (demo_candidate "opp_1" "" Buy 0.5) demo_geometry = Ok c' ∧ candidate_sound c'.
Proof.
  destruct (NormalizeGeometry (demo_candidate "opp_1" "" Buy 0.5) demo_geometry) as [c'|] eqn:E;
    [|vm_compute in E; discriminate E].
  exists c'. split; [reflexivity|].
  apply (normalize_geometry_prices_only (demo_candidate "opp_1" "" Buy 0.5) demo_geometry c' E);
    [discriminate|reflexivity].
Defined.
