(* ===== verification/Detector.v ===== *)
(** Package strategyutil, legacy_detect.go: the decision steps the detectors share over the detector-contract frame: which zones are
    candidates, the best one and its entry band, the liquidity grabs, the confirmed reaction, and the qualification of a decision. *)
From S2P Require Import Prelude Float64 Market TechniqueBars TechniqueZones.
From S2P Require Import TechniqueScore TechniqueCompat LegacyRead.
From S2P Require Structure Fib Confluence Reaction Opportunity.
From Stdlib Require Import Floats.

(** * helpers.go: parameters *)

(** A value of a parameter map, and an item of a list in it, of the types the readers tell apart. *)
Inductive Item := IFloat (v : float) | IInt (v : Z) | IString (v : string) | IOther.
Inductive Param :=
  | PFloat (v : float)
  | PInt (v : Z)
  | PBool (v : bool)
  | PString (v : string)
  | PList (v : list Item)
  | PStrings (v : list string)
  | POther.
Definition Params := gmap string Param.
Definition item_string (i : Item) : option string := match i with IString s => Some s | _ => None end.
Definition item_number (i : Item) : option float := match i with IFloat v => Some v | IInt n => Some (f64_of_Z n) | _ => None end.
(** The readers fail with a message; [None] here. *)
Definition Float (params : Params) (key : string) : option float :=
  match params !! key with Some (PFloat v) => Some v | Some (PInt v) => Some (f64_of_Z v) | _ => None end.
Definition math_Trunc : float → float := round_with (λ _ _ _, false).
Definition Int (params : Params) (key : string) : option Z :=
  v ← Float params key; if (v <>? math_Trunc v)%float then None else Some (f64_to_int64 v).

(** * legacy_detect.go: settings *)

Definition legacyEpsilon : float := 1e-9.
Record LegacyDetectorSettings := mkSettings {
  ds_PipSize : float; MaximumEntryATR : float; MaximumZoneWidthATR : float; ProximalBandATR : float; ds_FVGEntryMaxWidthPrice : float;
  ConfluenceFloor : Z; ConfluenceCfg : Confluence.Config; FibonacciEnabled : bool; FibonacciEpsilonATR : float; ReactionLookbackBars : Z;
  EngulfingMinimumRangeATR : float; ds_RetestMaxTouches : Z; MaximumZoneTouches : Z; HigherTimeframes : list string; FrozenSessionContext : bool
}.
Definition higher_timeframe (seen : list string) (item : option string) : option string :=
  match item with
  | Some tf => match Minutes tf with Some m => if (m <=? 5)%Z || bool_decide (tf ∈ seen) then None else Some tf | None => None end
  | None => None
  end.
Fixpoint higher_list (seen : list string) (items : list (option string)) : option (list string) :=
  match items with
  | [] => Some []
  | item :: rest => tf ← higher_timeframe seen item; tfs ← higher_list (tf :: seen) rest; Some (tf :: tfs)
  end.
Definition parseHigherTimeframes (raw : Param) : option (list string) :=
  match raw with PList items => higher_list [] (map item_string items) | PStrings names => higher_list [] (map Some names) | _ => None end.
(** An optional parameter: [default] when absent, an error when present and unreadable. *)
Definition optional {A} (params : Params) (key : string) (default : A) (read : Param → option A) : option A :=
  match params !! key with None => Some default | Some raw => read raw end.
Definition ParseLegacyDetectorSettings (params : Params) : option LegacyDetectorSettings :=
  pip ← Float params "pip_size"; entry ← Float params "maximum_entry_atr"; width ← Float params "maximum_zone_width_atr";
  proximal ← Float params "proximal_band_atr"; fvg ← Float params "fvg_entry_max_width_price";
  three ← Float params "confluence_star_three_ratio"; two ← Float params "confluence_star_two_ratio";
  quality ← Float params "confluence_zone_quality_weight"; mad ← Float params "confluence_mad_score_weight";
  fibWeight ← Float params "fibonacci_confluence_weight"; fibEpsilon ← Float params "fibonacci_epsilon_atr";
  engulfing ← Float params "engulfing_minimum_range_atr"; floor ← Int params "confluence_floor"; lookback ← Int params "reaction_lookback_bars";
  retest ← optional params "technique_retest_max_touches" 30%Z (λ _, Int params "technique_retest_max_touches");
  touches ← optional params "maximum_zone_touches" 0%Z (λ _, n ← Int params "maximum_zone_touches"; if (n <? 0)%Z then None else Some n);
  higher ← optional params "higher_timeframes" [] parseHigherTimeframes;
  frozen ← optional params "frozen_session_context" false (λ raw, match raw with PBool b => Some b | _ => None end);
  version ← match params !! "confluence_scoring_version" with Some (PString v) => if bool_decide (v = "") then None else Some v | _ => None end;
  fib ← match params !! "fibonacci_enabled" with Some (PBool b) => Some b | _ => None end;
  if (pip <=? 0)%float || (entry <=? 0)%float || (proximal <? 0)%float || (width <? 0)%float || (fvg <? 0)%float || (floor <? 1)%Z ||
     (lookback <? 1)%Z || (engulfing <? 0)%float || (fibEpsilon <? 0)%float then None
  else Some (mkSettings pip entry width proximal fvg floor (Confluence.mkConfig version three two quality mad fibWeight) fib fibEpsilon lookback engulfing
    retest touches higher frozen).

(** * legacy_detect.go: the detector *)

Record LegacyDetector := mkDetector {
  d_Frame : LegacyFrame; d_Read : LegacyRead; d_Direction : string; d_Price : float; d_ATR : float; d_Settings : LegacyDetectorSettings
}.
(** [read] and [frame] are the read of the context and the frame of the timeframe, absent before the engine made them. *)
Definition NewLegacyDetector (read : option LegacyRead) (frame : option LegacyFrame) (direction : string) (settings : LegacyDetectorSettings) :
    option LegacyDetector :=
  match read, frame with
  | Some read, Some frame =>
      match last (lf_Bars frame) with
      | Some b => if (length (lf_Bars frame) <? 5)%nat then None
                  else Some (mkDetector frame read direction (c_Close b) (if (lf_DetectorATR frame >? 0)%float then lf_DetectorATR frame else 1) settings)
      | None => None
      end
  | _, _ => None
  end.
Definition NewLegacyDetectorForFrame (read : option LegacyRead) (frame : option LegacyFrame) (settings : LegacyDetectorSettings) : option LegacyDetector :=
  NewLegacyDetector read frame "" settings.
Definition WithDirection (d : LegacyDetector) (direction : string) : LegacyDetector :=
  mkDetector (d_Frame d) (d_Read d) direction (d_Price d) (d_ATR d) (d_Settings d).
Definition is_buy (d : LegacyDetector) : bool := bool_decide (d_Direction d = Market.Buy).
Definition is_sell (d : LegacyDetector) : bool := bool_decide (d_Direction d = Market.Sell).
Definition d_side (d : LegacyDetector) : string := if is_buy d then "demand" else "supply".

(** Keys of a Go map over floats: equal numbers, and NaN equal to nothing. *)
Definition zone_key : Type := float * float * string.
Definition key_of (z : Zone) : zone_key := (math_Round (Low z * 1e6) / 1e6, math_Round (High z * 1e6) / 1e6, z_Source z)%float.
Definition same_key (a b : zone_key) : bool := (a.1.1 =? b.1.1)%float && (a.1.2 =? b.1.2)%float && bool_decide (a.2 = b.2).
Definition add_candidate (side : string) (out : list Zone) (z : Zone) : list Zone :=
  if negb (bool_decide (z_Side z = side)) || existsb (λ o, same_key (key_of o) (key_of z)) out then out else out ++ [z].
Definition CandidateZones (d : LegacyDetector) : list Zone :=
  foldl (add_candidate (d_side d)) [] (lf_Zones (d_Frame d) ++ lf_OrderBlocks (d_Frame d)).
Definition inside_zone (d : LegacyDetector) (z : Zone) : bool := (Low z <=? d_Price d)%float && (d_Price d <=? High z)%float.
Definition EntryValid (d : LegacyDetector) (z : Zone) : bool :=
  let maxDistance := (math_Max 0 (d_ATR d) * math_Max 0 (MaximumEntryATR (d_Settings d)))%float in
  if is_sell d then
    if (d_Price d >? High z + legacyEpsilon)%float then false
    else ((if inside_zone d z then 0 else Low z - d_Price d) <=? maxDistance + legacyEpsilon)%float
  else
    if (d_Price d <? Low z - legacyEpsilon)%float then false
    else ((if inside_zone d z then 0 else d_Price d - High z) <=? maxDistance + legacyEpsilon)%float.
Definition LevelValid (d : LegacyDetector) (level : float) : bool :=
  if is_buy d then (level <=? d_Price d + legacyEpsilon)%float else (level >=? d_Price d - legacyEpsilon)%float.
Definition ZoneDistance (d : LegacyDetector) (z : Zone) : float :=
  if inside_zone d z then 0%float else if is_buy d then abs (d_Price d - High z) else abs (Low z - d_Price d).
Definition ZoneKey (d : LegacyDetector) (z : Zone) : float :=
  if is_buy d then (if (High z <=? d_Price d + legacyEpsilon)%float then High z else Low z)
  else if (Low z >=? d_Price d - legacyEpsilon)%float then Low z else High z.
Definition set_zone_band (z : Zone) (bottom top : float) : Zone :=
  mkZone bottom top (z_Side z) (z_OriginIndex z) (z_Touches z) (z_Mitigated z) (z_Source z) (z_Sources z) (z_BreakKind z) (z_BreakIndex z)
    (z_Score z) (z_ScoreReasons z).

(** The texts that name an imbalance, on runes. *)
Fixpoint split_runes (sep : Z) (rs : list Z) : list (list Z) :=
  match rs with
  | [] => [[]]
  | r :: rest =>
      if (r =? sep)%Z then [] :: split_runes sep rest
      else match split_runes sep rest with w :: ws => (r :: w) :: ws | [] => [[r]] end
  end.
Definition has_rune_suffix (rs suffix : list Z) : bool := bool_decide (drop (length rs - length suffix) rs = suffix).
Definition imbalance_text (u : Unicode) (token : string) : bool :=
  let text := map (λ r, if (r =? 45)%Z || (r =? 43)%Z then 95%Z else r) (lower_trimmed u token) in
  bool_decide (text ≠ []) &&
  (bool_decide (text ∈ map runes ["fvg"; "ifvg"; "imbalance"; "bullish_fvg"; "bearish_fvg"; "fvg_ifvg"]) ||
   existsb (λ part, bool_decide (part ∈ map runes ["fvg"; "ifvg"; "imbalance"])) (split_runes 95 text) ||
   has_rune_suffix text (runes "_fvg")).
Definition isFVGImbalance (u : Unicode) (z : Zone) (structuralKind : string) : bool :=
  existsb (imbalance_text u) ([z_Source z] ++ z_Sources z ++ (if bool_decide (structuralKind = "") then [] else [structuralKind])).
Definition OptimizeImbalanceEntryZone (u : Unicode) (z : Zone) (direction : string) (maxWidthPrice : float) (structuralKind : string) : Zone * bool :=
  if negb (isFVGImbalance u z structuralKind) then (z, false)
  else
    let low := Low z in let high := High z in
    if IsNaN low || IsNaN high || (high <=? low)%float || IsNaN maxWidthPrice || (maxWidthPrice <=? 0)%float then (z, false)
    else if (high - low <=? maxWidthPrice + 1e-12)%float then (z, false)
    else if bool_decide (direction = Market.Sell) || bool_decide (z_Side z = "supply") then (set_zone_band z low (low + maxWidthPrice), true)
    else (set_zone_band z (high - maxWidthPrice) high, true).
Section detector.
Context (u : Unicode).

Definition proximalIfWide (d : LegacyDetector) (z : Zone) : Zone * bool :=
  let '(z, fvgClipped) := OptimizeImbalanceEntryZone u z (d_Direction d) (ds_FVGEntryMaxWidthPrice (d_Settings d)) "" in
  let maxWidth := (math_Max 0 (MaximumZoneWidthATR (d_Settings d)) * math_Max 0 (d_ATR d))%float in
  if (maxWidth <=? 0)%float || (High z - Low z <=? maxWidth)%float then (z, fvgClipped)
  else
    let band := math_Max legacyEpsilon (ProximalBandATR (d_Settings d) * math_Max 0 (d_ATR d)) in
    if is_sell d then (set_zone_band z (z_Bottom z) (math_Min (High z) (Low z + band)), true)
    else (set_zone_band z (math_Max (Low z) (High z - band)) (z_Top z), true).
Definition better_zone (d : LegacyDetector) (z best : Zone) : bool :=
  if (z_Score z <>? z_Score best)%float then (z_Score z >? z_Score best)%float
  else if (ZoneDistance d z <>? ZoneDistance d best)%float then (ZoneDistance d z <? ZoneDistance d best)%float
  else (Low z <? Low best)%float.
Definition best_zone (d : LegacyDetector) (first : Zone) (rest : list Zone) : Zone :=
  foldl (λ best z, if better_zone d z best then z else best) first rest.
(** The zone with its entry band and whether that was clipped. *)
Definition BestValidZone (d : LegacyDetector) (zones : list Zone) : option (Zone * bool) :=
  match List.filter (EntryValid d) zones with
  | [] => None
  | first :: rest => Some (proximalIfWide d (best_zone d first rest))
  end.
Definition level_reachable (d : LegacyDetector) (l : Level) : bool :=
  negb ((is_buy d && (l_Price l >? d_Price d + legacyEpsilon)%float) || (is_sell d && (l_Price l <? d_Price d - legacyEpsilon)%float)).
Definition level_distance (d : LegacyDetector) (l : Level) : float := abs (l_Price l - d_Price d).
Definition NearestLevel (d : LegacyDetector) : option Level :=
  foldl (λ best l,
    if negb (level_reachable d l) then best
    else match best with
         | None => Some l
         | Some b => if (level_distance d l <? level_distance d b)%float then Some l else best
         end) None (lf_Levels (d_Frame d)).
Definition LevelsByDistance (d : LegacyDetector) : list Level :=
  sort_slice (λ a b, level_distance d a <? level_distance d b)%float (lf_Levels (d_Frame d)).
Definition EntryZoneAt (d : LegacyDetector) (level : float) : Zone :=
  EntryZone (lf_Bars (d_Frame d)) level (d_Direction d) (ds_PipSize (d_Settings d)) (lf_Compat (d_Frame d)).
Definition grabKinds (d : LegacyDetector) : string * string := if is_buy d then ("bull", "sell") else ("bear", "buy").
Definition grab_matches (d : LegacyDetector) (g : Grab) : bool :=
  bool_decide (g_Direction g = (grabKinds d).1) && bool_decide (p_Side (g_Pool g) = (grabKinds d).2).
Definition grab_in_zone (d : LegacyDetector) (z : Zone) (g : Grab) : bool :=
  let width := math_Max (High z - Low z) 0 in
  let tolerance := math_Max (p_Band (g_Pool g)) (math_Max width (ds_PipSize (d_Settings d))) in let level := p_Level (g_Pool g) in
  (bool_decide (z_Side z = "demand") && bool_decide (p_Side (g_Pool g) = "sell") && (Low z - tolerance <=? level)%float && (level <=? High z)%float) ||
  (bool_decide (z_Side z = "supply") && bool_decide (p_Side (g_Pool g) = "buy") && (Low z <=? level)%float && (level <=? High z + tolerance)%float).
Definition ZoneGrab (d : LegacyDetector) (z : Zone) : option Grab :=
  List.find (λ g, grab_matches d g && grab_in_zone d z g) (reverse (lf_Grabs (d_Frame d))).
Definition LevelGrab (d : LegacyDetector) (levelPrice levelBand : float) : option Grab :=
  List.find (λ g, grab_matches d g &&
    (abs (p_Level (g_Pool g) - levelPrice) <=? math_Max (p_Band (g_Pool g)) (math_Max levelBand legacyEpsilon))%float) (reverse (lf_Grabs (d_Frame d))).
Definition RecentCHoCH (d : LegacyDetector) (lookback : Z) : bool :=
  let earliest := Z.max 0 (Z.of_nat (length (lf_Bars (d_Frame d))) - Z.max 1 lookback - 1) in
  existsb (λ b, bool_decide (bk_Kind b = "CHoCH") && bool_decide (bk_Direction b = if is_buy d then "up" else "down") &&
    (Z.of_nat (bk_Index b) >=? earliest)%Z) (lf_Breaks (d_Frame d)).

Record LegacyConfirmation := mkLegacyConfirmation {
  lc_Type : string; lc_TouchIndex : nat; lc_ConfirmationIndex : nat; lc_TouchTime : Z; lc_ConfirmationTime : Z
}.
(** [None] is the panic of a structure touchable only after the next bar. *)
Definition reactionFrom (d : LegacyDetector) (low high : float) (grab : option Grab) (touchLookback confirmationLookback minIndex : Z) :
    option (option LegacyConfirmation) :=
  let bars := lf_Bars (d_Frame d) in
  match Reaction.Evaluate bars (Reaction.mkParams (d_Direction d) low high (Z.max 1 touchLookback) (Z.max 1 confirmationLookback)
    (match grab with Some g => [Reaction.mkGrab (Z.of_nat (g_Index g)) (g_Grade g)] | None => [] end)
    (RecentCHoCH d confirmationLookback) (d_ATR d) (EngulfingMinimumRangeATR (d_Settings d)) minIndex) with
  | None => None
  | Some None => Some None
  | Some (Some c) =>
      Some (Some (mkLegacyConfirmation (Reaction.cf_Type c) (Reaction.cf_TouchIndex c) (Reaction.cf_ConfirmationIndex c)
        (c_Time (bars !!! Reaction.cf_TouchIndex c)) (c_Time (bars !!! Reaction.cf_ConfirmationIndex c))))
  end.
Definition detector_lookback (d : LegacyDetector) : Z := Z.max 1 (ReactionLookbackBars (d_Settings d)).
Definition ReactionWithLookbacks (d : LegacyDetector) (low high : float) (grab : option Grab) (touchLookback confirmationLookback : Z) :=
  reactionFrom d low high grab touchLookback confirmationLookback 0.
Definition Reaction_ (d : LegacyDetector) (low high : float) (grab : option Grab) :=
  ReactionWithLookbacks d low high grab (detector_lookback d) (detector_lookback d).
Definition ReactionFrom (d : LegacyDetector) (low high : float) (grab : option Grab) (minIndex : Z) :=
  reactionFrom d low high grab (detector_lookback d) (detector_lookback d) minIndex.
Definition ZoneReaction (d : LegacyDetector) (z : Zone) :=
  ReactionFrom d (Low z) (High z) (ZoneGrab d z) (Z.max (z_OriginIndex z) (z_BreakIndex z) + 1).

(** * legacy_detect.go: qualification *)

Record LegacyResult := mkResult {
  r_Direction : string; r_Level : float; r_Zone : Zone; r_StructuralLow : float; r_StructuralHigh : float; r_Confluence : Confluence.Score;
  r_Stars : Z; r_FibTouch : bool
}.
Definition set_wick_choch (f : Confluence.Factors) : Confluence.Factors :=
  Confluence.mkFactors (Confluence.f_HTFAligned f) (Confluence.f_Touches f) true (Confluence.f_DisplacementGrade f) (Confluence.f_SessionContext f)
    (Confluence.f_StructuralAgreement f) (Confluence.f_FibTouch f) true.
Definition set_fib (f : Confluence.Factors) : Confluence.Factors :=
  Confluence.mkFactors (Confluence.f_HTFAligned f) (Confluence.f_Touches f) (Confluence.f_WickRejection f) (Confluence.f_DisplacementGrade f)
    (Confluence.f_SessionContext f) (Confluence.f_StructuralAgreement f) true (Confluence.f_CHoCH f).
Definition FactorsForConfirmation (f : Confluence.Factors) (confirmationType : string) : Confluence.Factors :=
  if bool_decide (confirmationType = Reaction.TypeRejectionCHoCH) then set_wick_choch f else f.
Definition HTFAligned (d : LegacyDetector) : bool := AlignedWithHTF (d_Read d) (d_Direction d).
Definition price_swing (s : Swing) : Structure.Swing := Structure.mkSwing "" (swing_kind s) Structure.StructureMicro 0 (s_Price s) "" 0 0 0 0 0.
Definition fibTouch (d : LegacyDetector) (level : float) : bool :=
  if negb (FibonacciEnabled (d_Settings d)) || (d_ATR d <=? 0)%float then false
  else
    let ladder := match lf_FibLadder (d_Frame d) with [] => Fib.LadderForPrice (map price_swing (lf_Swings (d_Frame d))) level | l => l end in
    bool_decide (is_Some (Fib.NearestLevel ladder level (d_ATR d) (FibonacciEpsilonATR (d_Settings d)) [])).
Definition Finish (d : LegacyDetector) (level : float) (z : Zone) (factors : Confluence.Factors) (structuralKind : string)
    (structuralLow structuralHigh : option float) : option LegacyResult :=
  let rawLow := default (Low z) structuralLow in let rawHigh := default (High z) structuralHigh in
  let '(z, wasClipped) := OptimizeImbalanceEntryZone u z (d_Direction d) (ds_FVGEntryMaxWidthPrice (d_Settings d)) structuralKind in
  let '(outLow, outHigh) :=
    if wasClipped then (rawLow, rawHigh)
    else match structuralLow, structuralHigh with Some low, Some high => (low, high) | _, _ => (Low z, High z) end in
  if negb (LevelValid d level) || negb (EntryValid d z) then None
  else
    let touched := fibTouch d level in
    let factors := if touched then set_fib factors else factors in
    let score := Confluence.Evaluate (Confluence.mkZoneQuality (z_Score z) (z_Touches z)) factors (ConfluenceCfg (d_Settings d)) 0 in
    if (Confluence.sc_SelectedStars score <? ConfluenceFloor (d_Settings d))%Z then None
    else Some (mkResult (d_Direction d) level z outLow outHigh score (Confluence.sc_SelectedStars score) touched).
Definition StrongBodyBreak (d : LegacyDetector) (bodyFraction : float) : bool :=
  match last (lf_Bars (d_Frame d)) with
  | None => false
  | Some bar =>
      let span := (c_High bar - c_Low bar)%float in
      if (span <=? 0)%float then false
      else
        let bodyOK := (abs (c_Close bar - c_Open bar) >=? math_Max 0 bodyFraction * span)%float in
        let directionOK := if is_buy d then (c_Close bar >? c_Open bar)%float else (c_Close bar <? c_Open bar)%float in
        if negb bodyOK || negb directionOK then false
        else match last (of_kind (if is_buy d then "high" else "low") (lf_Swings (d_Frame d))) with
             | None => true
             | Some s => if is_buy d then (c_Close bar >? s_Price s)%float else (c_Close bar <? s_Price s)%float
             end
  end.
Definition Rejection (d : LegacyDetector) : bool :=
  match last (lf_Bars (d_Frame d)) with
  | None => false
  | Some bar =>
      let span := (c_High bar - c_Low bar)%float in
      if (span <=? 0)%float then false
      else
        let body := abs (c_Close bar - c_Open bar) in
        let upper := (c_High bar - math_Max (c_Open bar) (c_Close bar))%float in
        let lower := (math_Min (c_Open bar) (c_Close bar) - c_Low bar)%float in
        if is_sell d then (upper >=? body)%float && (c_Close bar <? c_Open bar)%float && (c_Close bar <=? c_Low bar + span / 3)%float
        else (lower >=? body)%float && (c_Close bar >? c_Open bar)%float && (c_Close bar >=? c_High bar - span / 3)%float
  end.
Definition ConfluenceContext_of (r : LegacyResult) : Opportunity.ConfluenceContext :=
  let s := r_Confluence r in let f := Confluence.sc_Factors s in
  Opportunity.mkConfluence (Confluence.sc_Version s) (Confluence.sc_SelectedStars s) (Confluence.sc_V1Stars s) (Confluence.sc_V2Stars s)
    (Confluence.sc_V2Raw s) (Confluence.sc_RawFactorScore s) (Confluence.sc_ZoneQualityScore s) (Confluence.sc_MADBonus s)
    (Opportunity.mkFactors (Confluence.f_HTFAligned f) (Confluence.f_Touches f) (Confluence.f_WickRejection f) (Confluence.f_DisplacementGrade f)
      (Confluence.f_SessionContext f) (Confluence.f_StructuralAgreement f) (Confluence.f_FibTouch f) (Confluence.f_CHoCH f)) None None.
Definition ZoneID (d : LegacyDetector) (z : Zone) : string :=
  let bars := lf_Bars (d_Frame d) in
  let origin := if (z_OriginIndex z >=? 0)%Z && (z_OriginIndex z <? Z.of_nat (length bars))%Z then c_Time (bars !!! Z.to_nat (z_OriginIndex z)) else 0%Z in
  "zone:" +:+ z_Side z +:+ ":" +:+ z_Source z +:+ ":" +:+ pretty origin.
Definition LevelID (l : Level) : string := "level:" +:+ l_Kind l +:+ ":" +:+ fmt_fixed 8 (l_Price l).
End detector.

(** * Lemmas *)

(** The bounds of a zone are finite numbers in order. *)
Definition band_ok (z : Zone) : Prop := finite (Low z) = true ∧ finite (High z) = true ∧ (key (Low z) <= key (High z))%Z.
Definition within (z' z : Zone) : Prop := band_ok z' ∧ (key (Low z) <= key (Low z'))%Z ∧ (key (High z') <= key (High z))%Z.
Lemma within_refl z : band_ok z → within z z.
Proof. intros H. split; [done|lia]. Qed.
Lemma within_trans a b c : within a b → within b c → within a c.
Proof. intros (H1 & H2 & H3) (_ & H4 & H5). split; [done|lia]. Qed.
Lemma optimize_within u z direction maxWidth kind :
  band_ok z → finite maxWidth = true → within (OptimizeImbalanceEntryZone u z direction maxWidth kind).1 z.
Proof.
  intros Hz Hm. pose proof Hz as (Hl & Hh & Hle). unfold OptimizeImbalanceEntryZone. destruct (negb _); [by apply within_refl|].
  destruct (_ || _ || _ || _ || _) eqn:Hg; [by apply within_refl|]. destruct (High z - Low z <=? maxWidth + 1e-12)%float eqn:Hw; [by apply within_refl|].
  apply orb_false_iff in Hg as [Hg Hpos]. rewrite leb_num in Hpos by (eauto with float). rewrite key_0 in Hpos. apply Z.leb_gt in Hpos.
  assert (Heps : finite 1e-12 = true) by reflexivity. assert (Hek : (0 <= key 1e-12)%Z) by (vm_compute; discriminate).
  assert (Hk : (key maxWidth < key (High z - Low z))%Z).
  { rewrite leb_num in Hw by (apply sub_not_nan || apply add_not_nan; done). apply Z.leb_gt in Hw. pose proof (add_nonneg_r maxWidth 1e-12 Hm Heps Hek). lia. }
  pose proof (room_exact (High z) (Low z) maxWidth Hh Hl Hm Hk) as Hroom.
  destruct (bool_decide (direction = Market.Sell) || bool_decide (z_Side z = "supply")); cbn [fst]; unfold within, band_ok, Low, High, set_zone_band in *;
    cbn [z_Bottom z_Top].
  - pose proof (add_under _ _ _ Hl Hm Hh Hroom). pose proof (add_nonneg_r (z_Bottom z) maxWidth Hl Hm ltac:(lia)).
    assert (finite (z_Bottom z + maxWidth) = true) by (apply (finite_between (z_Bottom z) (z_Top z)); [done|done|by apply add_not_nan|lia]).
    split_and!; [done|done|lia|lia|lia].
  - pose proof (sub_over _ _ _ Hl Hm Hh Hroom). pose proof (sub_nonneg_r (z_Top z) maxWidth Hh Hm ltac:(lia)).
    assert (finite (z_Top z - maxWidth) = true) by (apply (finite_between (z_Bottom z) (z_Top z)); [done|done|by apply sub_not_nan|lia]).
    split_and!; [done|done|lia|lia|lia].
Qed.
Lemma math_Min_num x y : IsNaN x = false → IsNaN y = false → IsNaN (math_Min x y) = false ∧ key (math_Min x y) = Z.min (key x) (key y).
Proof.
  intros Nx Ny. unfold math_Min. rewrite Nx, Ny. rewrite !eqb_num, ltb_num by (done || reflexivity). change (key neg_infinity) with (- key_inf)%Z.
  change (key 0) with 0%Z. pose proof (key_range x). pose proof (key_range y). cbn [orb].
  destruct (Z.eqb_spec (key x) (- key_inf)); cbn [orb]; [split; [done|change (key neg_infinity) with (- key_inf)%Z; lia]|].
  destruct (Z.eqb_spec (key y) (- key_inf)); [split; [done|change (key neg_infinity) with (- key_inf)%Z; lia]|].
  destruct (Z.eqb_spec (key x) 0); cbn [andb].
  - destruct (Z.eqb_spec (key x) (key y)); [destruct (Signbit x); split; done || lia|]. destruct (Z.ltb_spec (key x) (key y)); split; done || lia.
  - destruct (Z.ltb_spec (key x) (key y)); split; done || lia.
Qed.
Lemma math_Max_num x y : IsNaN x = false → IsNaN y = false → IsNaN (math_Max x y) = false ∧ key (math_Max x y) = Z.max (key x) (key y).
Proof.
  intros Nx Ny. unfold math_Max. rewrite Nx, Ny. rewrite !eqb_num, ltb_num by (done || reflexivity). change (key infinity) with key_inf.
  change (key 0) with 0%Z. pose proof (key_range x). pose proof (key_range y). cbn [orb].
  destruct (Z.eqb_spec (key x) key_inf); cbn [orb]; [split; [done|change (key infinity) with key_inf; lia]|].
  destruct (Z.eqb_spec (key y) key_inf); [split; [done|change (key infinity) with key_inf; lia]|].
  destruct (Z.eqb_spec (key x) 0); cbn [andb].
  - destruct (Z.eqb_spec (key x) (key y)); [destruct (Signbit x); split; done || lia|]. destruct (Z.ltb_spec (key y) (key x)); split; done || lia.
  - destruct (Z.ltb_spec (key y) (key x)); split; done || lia.
Qed.
Lemma math_Min_infinity x : finite x = true → finite (math_Min infinity x) = true ∧ key (math_Min infinity x) = key x.
Proof.
  intros H. destruct (math_Min_num infinity x eq_refl (finite_not_nan _ H)) as [N K]. change (key infinity) with key_inf in K.
  pose proof (key_range x). rewrite Z.min_r in K by lia. split; [|done]. by apply (finite_between x x); [..|lia].
Qed.
Lemma math_Max_infinity x : finite x = true → finite (math_Max neg_infinity x) = true ∧ key (math_Max neg_infinity x) = key x.
Proof.
  intros H. destruct (math_Max_num neg_infinity x eq_refl (finite_not_nan _ H)) as [N K]. change (key neg_infinity) with (- key_inf)%Z in K.
  pose proof (key_range x). rewrite Z.max_r in K by lia. split; [|done]. by apply (finite_between x x); [..|lia].
Qed.
Lemma fold_Min_infinity {A} (f : A → float) l : l ≠ [] → (∀ a, a ∈ l → finite (f a) = true) →
  let r := foldl (λ m a, math_Min m (f a)) infinity l in finite r = true ∧ (∀ a, a ∈ l → (key r <= key (f a))%Z) ∧ ∃ a, a ∈ l ∧ key r = key (f a).
Proof.
  intros Hne Hf. cbv zeta. destruct l as [|p l]; [done|]. cbn [foldl]. destruct (math_Min_infinity (f p)) as [F K]; [apply Hf; by left|].
  destruct (fold_Min_spec f l (math_Min infinity (f p)) F) as (H0 & H1 & H2 & H3); [apply Forall_forall; intros q Hq; apply Hf; by right|].
  rewrite K in H1, H3. rewrite Forall_forall in H2. split_and!; [done|intros q [->|Hq]%elem_of_cons; [done|by apply H2]|].
  destruct H3 as [E|E]; [exists p; split; [by left|done]|]. apply Exists_exists in E as (q & Hq & E). exists q. split; [by right|done].
Qed.
Lemma fold_Max_infinity {A} (f : A → float) l : l ≠ [] → (∀ a, a ∈ l → finite (f a) = true) →
  let r := foldl (λ m a, math_Max m (f a)) neg_infinity l in finite r = true ∧ (∀ a, a ∈ l → (key (f a) <= key r)%Z) ∧ ∃ a, a ∈ l ∧ key r = key (f a).
Proof.
  intros Hne Hf. cbv zeta. destruct l as [|p l]; [done|]. cbn [foldl]. destruct (math_Max_infinity (f p)) as [F K]; [apply Hf; by left|].
  destruct (fold_Max_spec f l (math_Max neg_infinity (f p)) F) as (H0 & H1 & H2 & H3); [apply Forall_forall; intros q Hq; apply Hf; by right|].
  rewrite K in H1, H3. rewrite Forall_forall in H2. split_and!; [done|intros q [->|Hq]%elem_of_cons; [done|by apply H2]|].
  destruct H3 as [E|E]; [exists p; split; [by left|done]|]. apply Exists_exists in E as (q & Hq & E). exists q. split; [by right|done].
Qed.
(** The settings of the entry band are numbers. *)
Definition bands_ok (d : LegacyDetector) : Prop :=
  finite (ds_FVGEntryMaxWidthPrice (d_Settings d)) = true ∧ finite (ProximalBandATR (d_Settings d) * math_Max 0 (d_ATR d)) = true.
Lemma proximal_within u d z : band_ok z → bands_ok d → within (proximalIfWide u d z).1 z.
Proof.
  intros Hz [Hf Hb]. unfold proximalIfWide.
  pose proof (optimize_within u z (d_Direction d) (ds_FVGEntryMaxWidthPrice (d_Settings d)) "" Hz Hf) as Hw.
  destruct (OptimizeImbalanceEntryZone u z (d_Direction d) (ds_FVGEntryMaxWidthPrice (d_Settings d)) "") as [z' clipped]. cbn [fst] in Hw.
  destruct (_ || _); [exact Hw|]. apply (within_trans _ z'); [|exact Hw]. destruct Hw as [(Hl & Hh & Hle) _].
  assert (Heps : finite legacyEpsilon = true) by reflexivity. assert (Hek : (0 <= key legacyEpsilon)%Z) by (vm_compute; discriminate).
  set (band := math_Max legacyEpsilon _) in *. assert (Hfb : finite band = true) by (by apply math_Max_finite).
  assert (Hp : (0 <= key band)%Z) by (unfold band; rewrite math_Max_key by done; lia).
  destruct (is_sell d); cbn [fst]; unfold within, band_ok, Low, High, set_zone_band in *; cbn [z_Bottom z_Top].
  - pose proof (add_nonneg_r (z_Bottom z') band Hl Hfb Hp). destruct (math_Min_num (z_Top z') (z_Bottom z' + band)) as [N K];
      [eauto with float|by apply add_not_nan|]. assert (finite (math_Min (z_Top z') (z_Bottom z' + band)) = true)
      by (apply (finite_between (z_Bottom z') (z_Top z')); [done|done|done|lia]). split_and!; [done|done|lia|lia|lia].
  - pose proof (sub_nonneg_r (z_Top z') band Hh Hfb Hp). destruct (math_Max_num (z_Bottom z') (z_Top z' - band)) as [N K];
      [eauto with float|by apply sub_not_nan|]. assert (finite (math_Max (z_Bottom z') (z_Top z' - band)) = true)
      by (apply (finite_between (z_Bottom z') (z_Top z')); [done|done|done|lia]). split_and!; [done|done|lia|lia|lia].
Qed.

(** The order of zones, as a comparison of integers. *)
Definition zone_keys (d : LegacyDetector) (z : Zone) : list Z := [(- key (z_Score z))%Z; key (ZoneDistance d z); key (Low z)].
Definition ranked (d : LegacyDetector) (z : Zone) : Prop :=
  IsNaN (z_Score z) = false ∧ IsNaN (ZoneDistance d z) = false ∧ IsNaN (Low z) = false.
Lemma better_zone_keys d a b : ranked d a → ranked d b → better_zone d a b = lex_lt (zone_keys d a) (zone_keys d b).
Proof.
  intros (A1 & A2 & A3) (B1 & B2 & B3). unfold better_zone, zone_keys. cbn [lex_lt]. rewrite !eqb_num, !ltb_num by done.
  destruct (Z.eqb_spec (key (z_Score a)) (key (z_Score b))), (Z.eqb_spec (- key (z_Score a)) (- key (z_Score b))); try lia; cbn [negb].
  - repeat match goal with |- context [(?x =? ?y)%Z] => destruct (Z.eqb_spec x y); cbn [negb] end; try done; lia.
  - destruct (Z.ltb_spec (key (z_Score b)) (key (z_Score a))), (Z.ltb_spec (- key (z_Score a)) (- key (z_Score b))); done || lia.
Qed.
Lemma reactionFrom_spec d low high grab touchLookback confirmationLookback minIndex c :
  reactionFrom d low high grab touchLookback confirmationLookback minIndex = Some (Some c) →
  (minIndex <= Z.of_nat (lc_TouchIndex c))%Z ∧ lc_TouchIndex c ≤ lc_ConfirmationIndex c < length (lf_Bars (d_Frame d)) ∧
  Reaction.bandTouched (lf_Bars (d_Frame d) !!! lc_TouchIndex c) low high = true ∧
  (∀ i, lc_TouchIndex c < i ≤ lc_ConfirmationIndex c → Reaction.bandTouched (lf_Bars (d_Frame d) !!! i) low high = false) ∧
  lc_TouchTime c = c_Time (lf_Bars (d_Frame d) !!! lc_TouchIndex c) ∧
  lc_ConfirmationTime c = c_Time (lf_Bars (d_Frame d) !!! lc_ConfirmationIndex c).
Proof.
  unfold reactionFrom. set (p := Reaction.mkParams _ _ _ _ _ _ _ _ _ _).
  pose proof (Reaction.Evaluate_spec (lf_Bars (d_Frame d)) p) as H. destruct (Reaction.Evaluate _ p) as [[r|]|]; try done.
  intros E. injection E as <-. cbn. destruct H as ([[Hw Hn] Ht _ _] & Hm & _). destruct Ht as ([[Ht1 Ht2] Hb] & Hle & Hlast).
  unfold p in Hm; cbn [Reaction.p_MinIndex] in Hm. split_and!; [lia|lia|lia|exact Hb| |done|done].
  intros i Hi. apply not_true_iff_false. intros Hbi.
  assert (i ≤ Reaction.cf_TouchIndex r); [|lia]. apply Hlast; [|lia]. split; [|exact Hbi]. split; [|lia]. lia.
Qed.
Lemma optimize_unclipped u z direction maxWidth kind :
  (OptimizeImbalanceEntryZone u z direction maxWidth kind).2 = false → (OptimizeImbalanceEntryZone u z direction maxWidth kind).1 = z.
Proof.
  unfold OptimizeImbalanceEntryZone. destruct (negb _); [done|]. destruct (_ || _ || _ || _ || _); [done|].
  destruct (_ <=? _)%float; [done|]. by destruct (bool_decide (direction = Market.Sell) || bool_decide (z_Side z = "supply")).
Qed.
Lemma proximal_unclipped u d z : (proximalIfWide u d z).2 = false → (proximalIfWide u d z).1 = z.
Proof.
  unfold proximalIfWide. pose proof (optimize_unclipped u z (d_Direction d) (ds_FVGEntryMaxWidthPrice (d_Settings d)) "") as Hu.
  destruct (OptimizeImbalanceEntryZone u z (d_Direction d) (ds_FVGEntryMaxWidthPrice (d_Settings d)) "") as [z' clipped].
  destruct (_ || _); [exact Hu|]. by destruct (is_sell d).
Qed.
Lemma elem_of_valid d zones z : z ∈ List.filter (EntryValid d) zones ↔ z ∈ zones ∧ EntryValid d z = true.
Proof. by rewrite !list_elem_of_In, filter_In. Qed.

(** * Theorems *)

(** The zone a detector enters is the best of the valid ones: the highest score, on a tie the nearest to the price,
    then the lowest; it reports none exactly when no zone is valid. Its entry band lies inside that zone, in order, and
    is the zone itself unless it was clipped, which is recorded. *)
Theorem best_valid_zone_exact u d zones :
  bands_ok d → (∀ z, z ∈ zones → EntryValid d z = true → ranked d z ∧ band_ok z) →
  match BestValidZone u d zones with
  | None => ∀ z, z ∈ zones → EntryValid d z = false
  | Some (entry, clipped) => ∃ z, z ∈ zones ∧ EntryValid d z = true ∧ within entry z ∧ (clipped = false → entry = z) ∧
      ∀ o, o ∈ zones → EntryValid d o = true → lex_lt (zone_keys d o) (zone_keys d z) = false
  end.
Proof.
  intros Hb Hz. unfold BestValidZone. pose proof (elem_of_valid d zones) as Hv. destruct (List.filter (EntryValid d) zones) as [|first rest].
  - intros z Hin. apply not_true_iff_false. intros He. by apply (not_elem_of_nil z), Hv.
  - assert (Hg : Forall (ranked d) (first :: rest)) by (apply Forall_forall; intros z [Hin He]%Hv; by apply Hz).
    destruct (foldl_lex_best (better_zone d) (zone_keys d) (ranked d) first rest (better_zone_keys d) Hg) as [Hm Hbest].
    fold (best_zone d first rest) in Hm, Hbest. set (z := best_zone d first rest) in *. pose proof (proj1 (Hv z) Hm) as [Hin He].
    pose proof (proximal_within u d z (proj2 (Hz z Hin He)) Hb) as Hw. pose proof (proximal_unclipped u d z) as Hu.
    destruct (proximalIfWide u d z) as [entry clipped]. exists z. split_and!; [done..|]. intros o Ho Heo.
    rewrite <- better_zone_keys by (by apply Hz). by apply Hbest, Hv.
Qed.

(** A zone's reaction never uses the bars that formed it: a confirmed reaction touches the zone's band on a bar after
    both the zone's origin and its break, is confirmed on that bar or a later one that exists, and carries those bars'
    times; no later bar up to the confirmation touches the band. *)
Theorem zone_reaction_after_formation d z c :
  ZoneReaction d z = Some (Some c) →
  (Z.max (z_OriginIndex z) (z_BreakIndex z) < Z.of_nat (lc_TouchIndex c))%Z ∧
  lc_TouchIndex c ≤ lc_ConfirmationIndex c < length (lf_Bars (d_Frame d)) ∧
  Reaction.bandTouched (lf_Bars (d_Frame d) !!! lc_TouchIndex c) (Low z) (High z) = true ∧
  (∀ i, lc_TouchIndex c < i ≤ lc_ConfirmationIndex c → Reaction.bandTouched (lf_Bars (d_Frame d) !!! i) (Low z) (High z) = false) ∧
  lc_TouchTime c = c_Time (lf_Bars (d_Frame d) !!! lc_TouchIndex c) ∧
  lc_ConfirmationTime c = c_Time (lf_Bars (d_Frame d) !!! lc_ConfirmationIndex c).
Proof.
  intros (H1 & H2 & H3 & H4 & H5 & H6)%reactionFrom_spec. split_and!; [lia|lia|lia|done..].
Qed.

(** Two demand zones under the price, touched by the third bar and rejected by the last. *)
Definition demo_bars : list Candle := Reaction.demo_bars ++ [mkCandle 240 9.45 9.6 9.3 9.5 1].
Definition demo_zone (bottom top score : float) (source : string) : Zone := mkZone bottom top "demand" 0 0 false source [source] "" (-1) score [].
Definition demo_zones : list Zone := [demo_zone 8.5 9.25 6 "sd"; demo_zone 8.875 9.125 8 "ob"; demo_zone 12 13 9 "sd"].
Definition demo_frame : LegacyFrame :=
  mkLegacyFrame demo_bars [] 1 (mkCompatConfig 0.125 0.5 1 2 14 0.5 10 3) [] "up" [] [] [] [] [] demo_zones [] [] [] [] [] [] [] None "" [] None [] None
    Momentum.Neutral 0 0.
Definition demo_settings : LegacyDetectorSettings :=
  mkSettings 0.125 2 0.125 0.0625 0.5 1 Confluence.DefaultConfig false 0.5 5 0.5 30 0 [] false.
Definition demo_detector : LegacyDetector := mkDetector demo_frame (mkLegacyRead "up" "up" false) "BUY" 9.5 1 demo_settings.
Lemma best_valid_zone_exact_witness :
  bands_ok demo_detector ∧ map (EntryValid demo_detector) (CandidateZones demo_detector) = [true; true; false] ∧
  ∃ entry, BestValidZone ascii_unicode demo_detector (CandidateZones demo_detector) = Some (entry, true) ∧ (Low entry, High entry) = (9.0625, 9.125)%float ∧
    ∃ z, within entry z ∧ z_Source z = "ob".
Proof.
  assert (Hb : bands_ok demo_detector) by (split; vm_compute; reflexivity). split; [exact Hb|]. split; [vm_compute; reflexivity|].
  pose proof (best_valid_zone_exact ascii_unicode demo_detector (CandidateZones demo_detector) Hb) as H.
  assert (Hz : ∀ z, z ∈ CandidateZones demo_detector → EntryValid demo_detector z = true → ranked demo_detector z ∧ band_ok z).
  { intros z Hz _. apply list_elem_of_In in Hz. vm_compute in Hz.
    repeat (destruct Hz as [Hz|Hz]; [subst z; repeat split; vm_compute; (reflexivity || discriminate)|]). destruct Hz. }
  specialize (H Hz). assert (E : option_map (λ r, (r.2, (Low r.1, High r.1), z_Source r.1)) (BestValidZone ascii_unicode demo_detector (CandidateZones demo_detector))
    = Some (true, (9.0625, 9.125)%float, "ob")) by (vm_compute; reflexivity).
  destruct (BestValidZone ascii_unicode demo_detector (CandidateZones demo_detector)) as [[entry clipped]|]; [|discriminate E].
  injection E as Ec El Eh Es. cbn in Ec, El, Eh, Es. exists entry. split; [by rewrite Ec|]. split; [by rewrite El, Eh|].
  destruct H as (z & Hin & Hv & Hw & Hu & Hbest). exists z. split; [exact Hw|].
  apply list_elem_of_In in Hin. vm_compute in Hin. destruct Hin as [<-|[<-|[<-|[]]]]; [|reflexivity|vm_compute in Hv; discriminate Hv].
  exfalso. specialize (Hbest (demo_zone 8.875 9.125 8 "ob")). vm_compute in Hbest. discriminate Hbest; [|reflexivity]. apply list_elem_of_In. right. left. reflexivity.
Defined.
Lemma zone_reaction_after_formation_witness :
  ∃ c, ZoneReaction demo_detector (demo_zone 8.875 9.125 8 "ob") = Some (Some c) ∧ lc_Type c = Reaction.TypeWickRejection ∧ lc_TouchIndex c = 2 ∧
    (Z.max 0 (-1) < Z.of_nat (lc_TouchIndex c))%Z.
Proof.
  destruct (ZoneReaction demo_detector (demo_zone 8.875 9.125 8 "ob")) as [[c|]|] eqn:E; [|vm_compute in E; discriminate E..].
  exists c. pose proof (zone_reaction_after_formation demo_detector _ c E) as (H & _). vm_compute in E. injection E as <-.
  split; [reflexivity|]. split; [reflexivity|]. split; [reflexivity|exact H].
Defined.
