(* ===== verification/TechniqueDecision.v ===== *)
(** Package strategyutil, technique_decision.go: the technique publishers. One technique's best confirmed reaction, the confluence
    bands where distinct techniques overlap, and the instances of higher timeframes bound to the execution frame. *)
From S2P Require Import Prelude Float64 Market TechniqueBars TechniqueZones TechniqueInstances.
From S2P Require Import TechniqueScore TechniqueCompat LegacyRead Detector.
From S2P Require Structure Confluence Reaction Opportunity ScalpRange.
From Stdlib Require Import Floats.

(** * technique_decision.go: data *)

Definition techniqueMergeOverlap : float := 0.5.
Definition techniqueMaxMergedATR : float := 3.
Definition techniqueConfluenceBump : float := 2.5.
Definition techniqueStarTwoScore : float := 8.
Definition TechniqueSupplyDemand : string := "supply_demand".
Definition TechniqueOrderBlock : string := "order_block".
Definition TechniqueFVG : string := "fvg".
Definition TechniqueIFVG : string := "ifvg".
Definition TechniqueCRT : string := "crt".

Record ConfluenceBand := mkBand {
  bd_Low : float; bd_High : float; bd_Side : string; bd_Tags : list string; bd_Score : float; bd_Touches : Z; bd_Members : list nat
}.
Record QualityGeometry := mkGeometry { g_Reference : float; g_Invalidation : float; g_Target : float; g_Structural : bool; g_ATR : float }.
(** [Score] is the strategy's quality model of the decision: it is called with the decision it is a field of. *)
Record TechniqueDecision := mkDecision {
  td_Technique : string; td_Direction : string; td_Instance : option Instance_; td_Band : option ConfluenceBand; td_Detector : LegacyDetector;
  td_Confirmation : option LegacyConfirmation; td_Result : LegacyResult; td_ID : string; td_FormedAt : Z; td_ConfirmedAt : Z;
  td_Score : option (QualityGeometry → Opportunity.StrategyQuality)
}.
Definition EntryLow (d : TechniqueDecision) : float := Low (r_Zone (td_Result d)).
Definition EntryHigh (d : TechniqueDecision) : float := High (r_Zone (td_Result d)).
Definition band_ID (b : ConfluenceBand) (pipSize atr : float) : string :=
  let step := (pipSize * 40)%float in
  let stable := (if step >? 0 then ScalpRange.math_RoundToEven (math_Max 0 atr / step) * step else 0)%float in
  let bucket := math_Max (pipSize * 10) (stable * 0.25) in
  let mid := ((bd_Low b + bd_High b) / 2)%float in
  let mid := (if bucket >? 0 then ScalpRange.math_RoundToEven (mid / bucket) * bucket else mid)%float in
  "confluence:" +:+ bd_Side b +:+ ":" +:+ String.concat "+" (bd_Tags b) +:+ ":" +:+ fmt_fixed 6 mid.

(** * technique_decision.go: confluence bands *)

Definition overlapRatio (aLow aHigh bLow bHigh : float) : float :=
  let overlap := (math_Min aHigh bHigh - math_Max aLow bLow)%float in
  if (overlap <=? 0)%float then 0%float
  else
    let smaller := math_Min (aHigh - aLow) (bHigh - bLow) in
    if (smaller <=? 0)%float then (if (aLow <=? bHigh)%float && (bLow <=? aHigh)%float then 1 else 0)%float
    else (overlap / smaller)%float.
(** A cluster holds its members with their positions in the list of instances. *)
Record cluster := mkCluster { cl_side : string; cl_members : list (nat * Instance_) }.
Definition hull_low (l : list (nat * Instance_)) : float := foldl (λ m p, math_Min m (in_Low p.2)) infinity l.
Definition hull_high (l : list (nat * Instance_)) : float := foldl (λ m p, math_Max m (in_High p.2)) neg_infinity l.
Definition accepts (maxWidth : float) (side : string) (item : Instance_) (c : cluster) : bool :=
  let cLow := hull_low (cl_members c) in let cHigh := hull_high (cl_members c) in
  bool_decide (cl_side c = side) && negb (overlapRatio cLow cHigh (in_Low item) (in_High item) <? techniqueMergeOverlap)%float &&
  negb (math_Max cHigh (in_High item) - math_Min cLow (in_Low item) >? maxWidth)%float.
Fixpoint place (maxWidth : float) (side : string) (p : nat * Instance_) (clusters : list cluster) : list cluster :=
  match clusters with
  | [] => [mkCluster side [p]]
  | c :: rest => if accepts maxWidth side p.2 c then mkCluster (cl_side c) (cl_members c ++ [p]) :: rest else c :: place maxWidth side p rest
  end.
Definition band_less (a b : nat * Instance_) : bool :=
  if (in_Low a.2 <>? in_Low b.2)%float then (in_Low a.2 <? in_Low b.2)%float else (in_High a.2 <? in_High b.2)%float.
Definition of_side (instances : list Instance_) (side : string) : list (nat * Instance_) :=
  sort_slice band_less (List.filter (λ p, bool_decide (in_Side p.2 = side)) (imap pair instances)).
Definition clusters_of (instances : list Instance_) (maxWidth : float) : list cluster :=
  foldl (λ clusters side, foldl (λ cs p, place maxWidth side p cs) clusters (of_side instances side)) [] ["buy"; "sell"].
Definition techniques_of (l : list (nat * Instance_)) : list string := sort_strings (remove_dups (map (λ p, in_Technique p.2) l)).
Definition band_of (c : cluster) : option ConfluenceBand :=
  let tags := techniques_of (cl_members c) in
  if (length tags <? 2)%nat then None
  else Some (mkBand (hull_low (cl_members c)) (hull_high (cl_members c)) (cl_side c) tags
    (foldl (λ m p, math_Max m (in_ZoneScore p.2)) neg_infinity (cl_members c) + techniqueConfluenceBump * f64_of_Z (Z.of_nat (length tags - 1)))%float
    (foldl (λ t p, if (in_Touches p.2 >? t)%Z then in_Touches p.2 else t) 0%Z (cl_members c)) (map fst (cl_members c))).
Definition BuildConfluenceBands (instances : list Instance_) (maxWidth : float) : list ConfluenceBand :=
  omap band_of (clusters_of instances maxWidth).
Definition bandCovers (b : ConfluenceBand) (i : Instance_) : bool :=
  bool_decide (in_Side i = bd_Side b) && (overlapRatio (bd_Low b) (bd_High b) (in_Low i) (in_High i) >=? techniqueMergeOverlap)%float.

(** * technique_decision.go: the source *)

Record TechniqueSource := mkSource {
  ts_Detector : LegacyDetector; ts_Instances : list Instance_; ts_HigherInstances : list Instance_; ts_RetestMaxTouches : Z;
  ts_MaximumZoneTouches : Z; ts_FrozenFormationReaction : bool
}.
(** A frame of the context with the technique instances it yields, when the engine gave it a source of them. *)
Record FrameView := mkFrameView { fv_Frame : LegacyFrame; fv_Techniques : option (list Instance_) }.
(** The first bar that opens at or after a time, the number of bars when there is none. *)
Definition bar_from (bars : list Candle) (t : Z) : nat := default (length bars) (Structure.indexAtOrAfter bars t).
Definition boundTouchableFrom (i : Instance_) (higherBars execBars : list Candle) (tf : string) : Z :=
  let formed := (in_TouchableFrom i - 1)%Z in
  match Minutes tf with
  | Some minutes =>
      if (in_TouchableFrom i <=? 0)%Z || (formed >=? Z.of_nat (length higherBars))%Z then 0%Z
      else Z.of_nat (bar_from execBars (c_Time (higherBars !!! Z.to_nat formed) + minutes * 60))
  | None => 0%Z
  end.
Definition bind_instance (i : Instance_) (index touchable : Z) (tf : string) (originTime : Z) : Instance_ :=
  mkInstance (in_Technique i) (in_Side i) (in_Low i) (in_High i) (in_Sources i) index touchable (in_Touches i) (in_Mitigated i) (in_EntryClipped i)
    (in_StructuralLow i) (in_StructuralHigh i) (in_BodyFrac i) (in_HasBOS i) (in_Score i) (in_ZoneScore i) (in_H1Time i) tf originTime.
Definition bind_one (bars execBars : list Candle) (tf : string) (i : Instance_) : option Instance_ :=
  if (in_OriginIndex i <? 0)%Z || (in_OriginIndex i >=? Z.of_nat (length bars))%Z then None
  else
    let originTime := c_Time (bars !!! Z.to_nat (in_OriginIndex i)) in
    let index := bar_from execBars originTime in
    if (length execBars <=? index)%nat || (c_Time (execBars !!! 0%nat) >? originTime)%Z then None
    else Some (bind_instance i (Z.of_nat index) (boundTouchableFrom i bars execBars tf) tf originTime).
Definition higherInstances (frames : gmap string FrameView) (execBars : list Candle) (timeframes : list string) : list Instance_ :=
  match execBars with
  | [] => []
  | _ =>
      concat (map (λ tf, match frames !! tf with
        | Some (mkFrameView frame (Some instances)) => omap (bind_one (lf_Bars frame) execBars tf) instances
        | _ => []
        end) timeframes)
  end.
Definition NewTechniqueSource (read : option LegacyRead) (frames : gmap string FrameView) (tf : string) (settings : LegacyDetectorSettings) :
    option TechniqueSource :=
  view ← frames !! tf;
  base ← NewLegacyDetectorForFrame read (Some (fv_Frame view)) settings;
  instances ← fv_Techniques view;
  let higher := higherInstances frames (lf_Bars (d_Frame base)) (HigherTimeframes settings) in
  if (length instances =? 0)%nat && (length higher =? 0)%nat then None
  else Some (mkSource base instances higher (ds_RetestMaxTouches settings) (MaximumZoneTouches settings) false).

(** * technique_decision.go: decisions *)

Definition instanceZone (i : Instance_) : Zone :=
  mkZone (in_Low i) (in_High i) (if bool_decide (in_Side i = "buy") then "demand" else "supply") (in_OriginIndex i) (in_Touches i) (in_Mitigated i)
    (in_Technique i) (in_Sources i) "" (-1) (in_ZoneScore i) [].
Definition instanceDirection (i : Instance_) : string := if bool_decide (in_Side i = "buy") then Market.Buy else Market.Sell.
Definition instanceID (i : Instance_) (d : LegacyDetector) : string :=
  let bars := lf_Bars (d_Frame d) in
  let origin :=
    if bool_decide (in_Technique i = TechniqueCRT) then in_H1Time i
    else if (in_OriginIndex i >=? 0)%Z && (in_OriginIndex i <? Z.of_nat (length bars))%Z then c_Time (bars !!! Z.to_nat (in_OriginIndex i)) else 0%Z in
  let id := "technique:" +:+ in_Technique i +:+ ":" +:+ in_Side i +:+ ":" +:+ pretty origin in
  if bool_decide (in_Timeframe i = "") then id else id +:+ "@" +:+ in_Timeframe i.
Definition confirmationFactors (s : TechniqueSource) (d : LegacyDetector) (z : Zone) (confirmationType : string) : Confluence.Factors :=
  if ts_FrozenFormationReaction s then
    FactorsForConfirmation (Confluence.mkFactors (HTFAligned d) (z_Touches z) true (z_Score z >=? techniqueStarTwoScore)%float false true false false)
      confirmationType
  else
    FactorsForConfirmation (Confluence.mkFactors (HTFAligned d) (z_Touches z) (bool_decide (confirmationType = Reaction.TypeWickRejection))
      (bool_decide (confirmationType = Reaction.TypeEngulfing)) false
      (bool_decide (confirmationType = Reaction.TypeSweepReclaim) || bool_decide (confirmationType = Reaction.TypeStrongReclaim)) false false) confirmationType.
Definition spent (s : TechniqueSource) (i : Instance_) : bool :=
  (in_Mitigated i && ((ts_RetestMaxTouches s <=? 0)%Z || (in_Touches i >? ts_RetestMaxTouches s)%Z)) ||
  ((ts_MaximumZoneTouches s >? 0)%Z && (in_Touches i >? ts_MaximumZoneTouches s)%Z).
Section decisions.
Context (u : Unicode).

(** [None] is the panic of a structure touchable only after the next bar. *)
Definition publish (s : TechniqueSource) (i : Instance_) : option (option TechniqueDecision) :=
  if spent s i then Some None
  else
    let direction := instanceDirection i in let d := WithDirection (ts_Detector s) direction in let z := instanceZone i in
    let '(structLow, structHigh) := if in_EntryClipped i then (in_StructuralLow i, in_StructuralHigh i) else (Low z, High z) in
    if negb (EntryValid d z) then Some None
    else
      confirmation ← ReactionFrom d structLow structHigh (ZoneGrab d z) (if ts_FrozenFormationReaction s then 0 else in_TouchableFrom i);
      Some (
        conf ← confirmation;
        result ← Finish u d (ZoneKey d z) z (confirmationFactors s d z (lc_Type conf)) (in_Technique i) (Some structLow) (Some structHigh);
        Some (mkDecision (in_Technique i) direction (Some i) None d (Some conf) result (instanceID i d) 0 0 None)).
Definition Bands (s : TechniqueSource) : list ConfluenceBand :=
  BuildConfluenceBands (ts_Instances s)
    (techniqueMaxMergedATR * math_Max (d_ATR (ts_Detector s)) (math_Max (ds_PipSize (d_Settings (ts_Detector s))) 1e-12))%float.
Definition decision_distance (d : TechniqueDecision) : float := ZoneDistance (td_Detector d) (r_Zone (td_Result d)).
Definition decision_stars (d : TechniqueDecision) : Z := r_Stars (td_Result d).
(** The best decision so far with its distance. *)
Definition better_decision (d : TechniqueDecision) (best : option TechniqueDecision) : bool :=
  match best with
  | None => true
  | Some b => (decision_stars d >? decision_stars b)%Z ||
      ((decision_stars d =? decision_stars b)%Z && (decision_distance d <? decision_distance b)%float)
  end.
Fixpoint best_published (s : TechniqueSource) (wanted : Instance_ → bool) (l : list Instance_) (best : option TechniqueDecision) :
    option (option TechniqueDecision) :=
  match l with
  | [] => Some best
  | i :: rest =>
      if negb (wanted i) then best_published s wanted rest best
      else
        match publish s i with
        | None => None
        | Some None => best_published s wanted rest best
        | Some (Some d) => best_published s wanted rest (if better_decision d best then Some d else best)
        end
  end.
Definition bestTechnique (s : TechniqueSource) (technique : string) (skipCovered : bool) : option (option TechniqueDecision) :=
  let bands := if skipCovered then Bands s else [] in
  best_published s (λ i, bool_decide (in_Technique i = technique) && negb (existsb (λ b, bandCovers b i) bands)) (ts_Instances s) None.
Definition Technique (s : TechniqueSource) (technique : string) := bestTechnique s technique false.
Definition TechniqueExcludingConfluenceCoverage (s : TechniqueSource) (technique : string) := bestTechnique s technique true.
Definition HigherTechnique (s : TechniqueSource) (technique : string) : option (option TechniqueDecision) :=
  best_published s (λ i, bool_decide (in_Technique i = technique)) (ts_HigherInstances s) None.
Definition band_zone (b : ConfluenceBand) : Zone :=
  mkZone (bd_Low b) (bd_High b) (if bool_decide (bd_Side b = "sell") then "supply" else "demand") 0 0 false "confluence" (bd_Tags b) "" (-1) (bd_Score b) [].
Definition publish_band (s : TechniqueSource) (b : ConfluenceBand) : option (option TechniqueDecision) :=
  let direction := if bool_decide (bd_Side b = "sell") then Market.Sell else Market.Buy in
  let d := WithDirection (ts_Detector s) direction in let z := band_zone b in
  if negb (EntryValid d z) then Some None
  else
    confirmation ← Reaction_ d (bd_Low b) (bd_High b) (ZoneGrab d z);
    Some (
      conf ← confirmation;
      let factors := FactorsForConfirmation (Confluence.mkFactors (HTFAligned d) (bd_Touches b) true (bd_Score b >=? techniqueStarTwoScore)%float false
        true false false) (lc_Type conf) in
      result ← Finish u d (ZoneKey d z) z factors (String.concat "+" (bd_Tags b)) (Some (Low z)) (Some (High z));
      Some (mkDecision "confluence_zone" direction None (Some b) d (Some conf) result
        (band_ID b (ds_PipSize (d_Settings (ts_Detector s))) (d_ATR (ts_Detector s))) 0 0 None)).
Fixpoint best_band (s : TechniqueSource) (l : list ConfluenceBand) (best : option TechniqueDecision) : option (option TechniqueDecision) :=
  match l with
  | [] => Some best
  | b :: rest =>
      match publish_band s b with
      | None => None
      | Some None => best_band s rest best
      | Some (Some d) =>
          best_band s rest (if match best with None => true | Some o => (decision_stars d >? decision_stars o)%Z end then Some d else best)
      end
  end.
Definition ConfluenceZone (s : TechniqueSource) : option (option TechniqueDecision) := best_band s (Bands s) None.
End decisions.

(** * Lemmas: confluence bands *)

(** What a cluster satisfies: its members are of its side, and a second member kept its hull within the width. *)
Definition cluster_ok (maxWidth : float) (c : cluster) : Prop :=
  cl_members c ≠ [] ∧ (∀ p, p ∈ cl_members c → in_Side p.2 = cl_side c) ∧ (cl_side c = "buy" ∨ cl_side c = "sell") ∧
  (length (cl_members c) = 1 ∨ (hull_high (cl_members c) - hull_low (cl_members c) >? maxWidth)%float = false).
Lemma place_band_spec maxWidth side p clusters :
  in_Side p.2 = side → (side = "buy" ∨ side = "sell") →
  concat (map cl_members (place maxWidth side p clusters)) ≡ₚ p :: concat (map cl_members clusters) ∧
  (Forall (cluster_ok maxWidth) clusters → Forall (cluster_ok maxWidth) (place maxWidth side p clusters)).
Proof.
  intros Hs Hsd. induction clusters as [|c rest [IH1 IH2]]; cbn [place map concat].
  { split; [done|]. intros _. apply Forall_singleton. split_and!; cbn; [done|by intros q ->%list_elem_of_singleton|done|by left]. }
  destruct (accepts maxWidth side p.2 c) eqn:E; cbn [map concat cl_members].
  - split; [rewrite <- app_assoc; symmetry; apply Permutation_middle|]. intros [Hc Hr]%Forall_cons. apply Forall_cons. split; [|done].
    destruct Hc as (Hne & Hm & Hside & Hw). apply andb_true_iff in E as [[E1 E2]%andb_true_iff E3]. apply bool_decide_eq_true in E1.
    split_and!; cbn [cl_members cl_side]; [by destruct (cl_members c)| |done|].
    + intros q [Hq| ->%list_elem_of_singleton]%elem_of_app; [by apply Hm|congruence].
    + right. unfold hull_high, hull_low. rewrite !foldl_app. cbn [foldl]. by apply negb_true_iff in E3.
  - split; [rewrite IH1; symmetry; apply Permutation_middle|]. intros [Hc Hr]%Forall_cons. apply Forall_cons. auto.
Qed.
Lemma elem_of_side instances side p : p ∈ of_side instances side ↔ instances !! p.1 = Some p.2 ∧ in_Side p.2 = side.
Proof.
  unfold of_side. rewrite sort_slice_perm, list_elem_of_In, filter_In, <- list_elem_of_In, bool_decide_eq_true, elem_of_lookup_imap.
  split; [intros [(i & x & -> & Hi) Hs]; done|]. intros [Hi Hs]. split; [|done]. exists p.1, p.2. by destruct p.
Qed.
Lemma side_clusters maxWidth side l clusters :
  (side = "buy" ∨ side = "sell") → Forall (λ p, in_Side p.2 = side) l → Forall (cluster_ok maxWidth) clusters →
  concat (map cl_members (foldl (λ cs p, place maxWidth side p cs) clusters l)) ≡ₚ concat (map cl_members clusters) ++ l ∧
  Forall (cluster_ok maxWidth) (foldl (λ cs p, place maxWidth side p cs) clusters l).
Proof.
  intros Hs Hl. revert clusters. induction Hl as [|p l Hp Hl IH]; intros clusters Hc; cbn [foldl]; [by rewrite app_nil_r|].
  destruct (place_band_spec maxWidth side p clusters Hp Hs) as [P F]. destruct (IH _ (F Hc)) as [P' F']. split; [|done].
  rewrite P', P. by rewrite <- Permutation_middle.
Qed.
Lemma clusters_spec instances maxWidth :
  concat (map cl_members (clusters_of instances maxWidth)) ≡ₚ of_side instances "buy" ++ of_side instances "sell" ∧
  Forall (cluster_ok maxWidth) (clusters_of instances maxWidth).
Proof.
  unfold clusters_of. cbn [foldl]. assert (Ha : ∀ side, Forall (λ p, in_Side p.2 = side) (of_side instances side)).
  { intros side. apply Forall_forall. by intros p [_ ?]%elem_of_side. }
  destruct (side_clusters maxWidth "buy" (of_side instances "buy") []) as [P1 F1]; [by left|done|constructor|].
  destruct (side_clusters maxWidth "sell" (of_side instances "sell") _ (or_intror eq_refl) (Ha "sell") F1) as [P2 F2].
  split; [|done]. by rewrite P2, P1.
Qed.
Lemma filter_map_NoDup {A B} (g : A → B) (f : A → bool) l : NoDup (map g l) → NoDup (map g (List.filter f l)).
Proof.
  induction l as [|x l IH]; cbn [map List.filter]; [done|]. intros [Hx Hl]%NoDup_cons. destruct (f x); [|by apply IH].
  cbn [map]. apply NoDup_cons. split; [|by apply IH]. intros Hin. apply Hx. apply list_elem_of_In, in_map_iff in Hin as (y & <- & Hy).
  apply filter_In in Hy as [Hy _]. by apply list_elem_of_In, in_map.
Qed.
Lemma sides_NoDup instances : NoDup (map fst (of_side instances "buy" ++ of_side instances "sell")).
Proof.
  assert (Hs : ∀ side, NoDup (map fst (of_side instances side))).
  { intros side. unfold of_side. rewrite (Permutation_map fst (sort_slice_perm _ _)). apply filter_map_NoDup.
    replace (map fst (imap pair instances)) with (seq 0 (length instances)); [apply NoDup_seq|].
    change map with (@fmap list _). rewrite fmap_imap. apply list_eq. intros i. rewrite list_lookup_imap. cbn.
    destruct (instances !! i) eqn:E; cbn; [rewrite lookup_seq_lt by (by eapply lookup_lt_Some); done|rewrite lookup_seq_ge; [done|by apply lookup_ge_None_1]]. }
  rewrite map_app. apply NoDup_app. split_and!; [apply Hs| |apply Hs].
  intros i Hb Hse. apply list_elem_of_In, in_map_iff in Hb as ([i1 x] & E1 & H1%list_elem_of_In%elem_of_side).
  apply list_elem_of_In, in_map_iff in Hse as ([i2 y] & E2 & H2%list_elem_of_In%elem_of_side). cbn in *. subst.
  destruct H1 as [Hx Sx], H2 as [Hy Sy]. rewrite Hx in Hy. injection Hy as ->. congruence.
Qed.
Lemma omap_NoDup {A B C} (f : A → option B) (g : A → list C) (h : B → list C) l :
  (∀ x y, f x = Some y → h y = g x) → NoDup (concat (map g l)) → NoDup (concat (map h (omap f l))).
Proof.
  intros Hf. assert (Hin : ∀ l c, c ∈ concat (map h (omap f l)) → c ∈ concat (map g l)).
  { clear l. induction l as [|x l IH]; intros c; cbn [omap list_omap map concat]; [done|]. rewrite elem_of_app. destruct (f x) as [y|] eqn:E.
    - cbn [map concat]. rewrite elem_of_app, (Hf x y E). intros [?|?]; [by left|by right; apply IH].
    - intros ?. right. by apply IH. }
  induction l as [|x l IH]; cbn [omap list_omap map concat]; [done|]. intros (H1 & H2 & H3)%NoDup_app. destruct (f x) as [y|] eqn:E; [|by apply IH].
  cbn [map concat]. rewrite (Hf x y E). apply NoDup_app. split_and!; [done| |by apply IH]. intros c Hc Hc'. by apply (H2 c Hc), Hin.
Qed.
Lemma elem_of_techniques l t : t ∈ techniques_of l ↔ ∃ p, p ∈ l ∧ in_Technique p.2 = t.
Proof.
  unfold techniques_of. rewrite sort_strings_perm, elem_of_remove_dups, list_elem_of_In, in_map_iff.
  split; intros (p & H1 & H2); exists p; [split; [by apply list_elem_of_In|done]|split; [done|by apply list_elem_of_In]].
Qed.
Lemma techniques_NoDup l : NoDup (techniques_of l).
Proof. unfold techniques_of. rewrite sort_strings_perm. apply NoDup_remove_dups. Qed.
Lemma hull_low_spec l : l ≠ [] → (∀ p, p ∈ l → finite (in_Low p.2) = true) →
  (∀ p, p ∈ l → (key (hull_low l) <= key (in_Low p.2))%Z) ∧ ∃ p, p ∈ l ∧ key (hull_low l) = key (in_Low p.2).
Proof. intros Hne Hf. by destruct (fold_Min_infinity (λ p : nat * Instance_, in_Low p.2) l Hne Hf) as (_ & ? & ?). Qed.
Lemma hull_high_spec l : l ≠ [] → (∀ p, p ∈ l → finite (in_High p.2) = true) →
  (∀ p, p ∈ l → (key (in_High p.2) <= key (hull_high l))%Z) ∧ ∃ p, p ∈ l ∧ key (hull_high l) = key (in_High p.2).
Proof. intros Hne Hf. by destruct (fold_Max_infinity (λ p : nat * Instance_, in_High p.2) l Hne Hf) as (_ & ? & ?). Qed.

(** * Lemmas: decisions *)

Lemma finish_spec u d level z factors kind low high r :
  Finish u d level z factors kind low high = Some r →
  r_Zone r = (OptimizeImbalanceEntryZone u z (d_Direction d) (ds_FVGEntryMaxWidthPrice (d_Settings d)) kind).1 ∧
  EntryValid d (r_Zone r) = true ∧ (ConfluenceFloor (d_Settings d) <= r_Stars r)%Z ∧ r_Direction r = d_Direction d.
Proof.
  unfold Finish. destruct (OptimizeImbalanceEntryZone _ _ _ _ _) as [z' clipped]. destruct (if clipped then _ else _) as [outLow outHigh].
  destruct (_ || _) eqn:Hv; [done|]. apply orb_false_iff in Hv as [_ Hv%negb_false_iff].
  match goal with |- (if ?b then None else Some ?x) = _ → _ => destruct b eqn:Hf; [done|]; intros H; injection H as <- end. cbn [r_Zone r_Stars r_Direction].
  split_and!; [done|done|by apply Z.ltb_ge|done].
Qed.
(** A valid entry has a distance, for a detector with a direction. *)
Lemma entry_distance d z : EntryValid d z = true → is_sell d = negb (is_buy d) → IsNaN (ZoneDistance d z) = false.
Proof.
  unfold EntryValid, ZoneDistance. intros H E. rewrite E in H.
  destruct (is_buy d); cbn [negb] in H; (match type of H with (if ?b then false else _) = true => destruct b; [done|] end); destruct (inside_zone d z); try done; rewrite IsNaN_abs;
    rewrite leb_key in H; apply andb_true_iff in H as [[H _]%andb_true_iff _]; by apply negb_true_iff.
Qed.
Lemma directed d i : is_sell (WithDirection d (instanceDirection i)) = negb (is_buy (WithDirection d (instanceDirection i))).
Proof. unfold is_sell, is_buy, WithDirection, instanceDirection. cbn. by destruct (bool_decide (in_Side i = "buy")). Qed.

(** What a published decision is. *)
Definition structural_band (i : Instance_) : float * float :=
  if in_EntryClipped i then (in_StructuralLow i, in_StructuralHigh i) else (Low (instanceZone i), High (instanceZone i)).
Record published (u : Unicode) (s : TechniqueSource) (i : Instance_) (dec : TechniqueDecision) (conf : LegacyConfirmation) : Prop := {
  pu_fresh : spent s i = false;
  pu_detector : td_Detector dec = WithDirection (ts_Detector s) (instanceDirection i);
  pu_technique : td_Technique dec = in_Technique i ∧ td_Instance dec = Some i ∧ td_Direction dec = instanceDirection i;
  pu_confirmation : td_Confirmation dec = Some conf;
  pu_entry : EntryValid (td_Detector dec) (instanceZone i) = true ∧ EntryValid (td_Detector dec) (r_Zone (td_Result dec)) = true;
  pu_zone : r_Zone (td_Result dec) = (OptimizeImbalanceEntryZone u (instanceZone i) (instanceDirection i)
    (ds_FVGEntryMaxWidthPrice (d_Settings (ts_Detector s))) (in_Technique i)).1;
  pu_stars : (ConfluenceFloor (d_Settings (ts_Detector s)) <= decision_stars dec)%Z;
  pu_reaction : ∃ grab, ReactionFrom (td_Detector dec) (structural_band i).1 (structural_band i).2 grab
    (if ts_FrozenFormationReaction s then 0 else in_TouchableFrom i) = Some (Some conf)
}.
Lemma publish_spec u s i dec : publish u s i = Some (Some dec) → ∃ conf, published u s i dec conf.
Proof.
  unfold publish. destruct (spent s i) eqn:Hs; [done|]. fold (structural_band i).
  destruct (structural_band i) as [low high] eqn:Eb. destruct (EntryValid _ _) eqn:Hv; [|done]. cbn [negb].
  set (g := ZoneGrab _ _). destruct (ReactionFrom _ low high g _) as [[conf|]|] eqn:Er; try done.
  cbn [mbind option_bind]. set (z := instanceZone i) in *.
  destruct (Finish u _ _ z _ _ _ _) as [result|] eqn:Ef; [|done]. cbn [mbind option_bind].
  intros H. injection H as <-. apply finish_spec in Ef as (E1 & E2 & E3 & _). exists conf.
  split; cbn [td_Detector td_Technique td_Instance td_Direction td_Confirmation td_Result]; try done.
  exists g. by rewrite Eb.
Qed.
Lemma publish_total u s i :
  (ts_FrozenFormationReaction s = true ∨ in_TouchableFrom i <= Z.of_nat (length (lf_Bars (d_Frame (ts_Detector s)))))%Z → publish u s i ≠ None.
Proof.
  intros Ht. unfold publish. destruct (spent s i); [done|]. destruct (if in_EntryClipped i then _ else _) as [low high].
  destruct (EntryValid _ _); [|done]. cbn [negb]. unfold ReactionFrom, reactionFrom. set (p := Reaction.mkParams _ _ _ _ _ _ _ _ _ _).
  pose proof (Reaction.Evaluate_spec (lf_Bars (d_Frame (WithDirection (ts_Detector s) (instanceDirection i)))) p) as H.
  destruct (Reaction.Evaluate _ p) as [[c|]|]; [done..|]. destruct H as [_ H]. unfold p in H. cbn in H.
  destruct Ht as [E|Ht]; [rewrite E in H; lia|]. destruct (ts_FrozenFormationReaction s); lia.
Qed.
Lemma publish_distance u s i dec : publish u s i = Some (Some dec) → IsNaN (decision_distance dec) = false.
Proof.
  intros (conf & H)%publish_spec. unfold decision_distance. destruct H as [_ Hd _ _ [_ He] _ _ _]. rewrite Hd in *.
  apply entry_distance; [exact He|apply directed].
Qed.

(** The first bar at or after a time separates the bars, whose times increase. *)
Lemma bar_from_spec bars t :
  Structure.increasing bars → bar_from bars t <= length bars ∧
  ∀ j, j < length bars → (bar_from bars t <= j ↔ (t <= c_Time (bars !!! j))%Z).
Proof.
  intros Hs. destruct (Structure.time_search bars t Hs) as [Hk Hd]. unfold bar_from, Structure.indexAtOrAfter.
  set (k := bsearch _ _) in *. assert (E : default (length bars) (if k =? length bars then None else Some k) = k)
    by (destruct (Nat.eqb_spec k (length bars)); [by subst|done]). rewrite E. split; [done|]. intros j Hj.
  assert (Hl : bars !! j = Some (bars !!! j)) by (by apply list_lookup_lookup_total_lt). split; intros H.
  - assert (Hin : bars !!! j ∈ drop k bars) by (apply list_elem_of_lookup; exists (j - k); rewrite lookup_drop; by replace (k + (j - k)) with j by lia).
    rewrite Hd in Hin. by apply list_elem_of_filter in Hin as [? _].
  - destruct (decide (k <= j)); [done|]. exfalso. assert (Hin : bars !!! j ∈ drop k bars) by (rewrite Hd; apply list_elem_of_filter; split; [done|by eapply list_elem_of_lookup_2]).
    apply list_elem_of_lookup in Hin as (m & Hm). rewrite lookup_drop in Hm. pose proof (lookup_lt_Some _ _ _ Hm).
    pose proof (Structure.sorted_times_lt bars j (k + m) Hs ltac:(lia)) as Hlt. apply list_lookup_total_correct in Hm. rewrite Hm in Hlt. lia.
Qed.

(** The order of decisions: more stars, then nearer, as a comparison of integers. *)
Definition decision_keys (d : TechniqueDecision) : list Z := [(- decision_stars d)%Z; key (decision_distance d)].
Lemma better_keys d b : IsNaN (decision_distance d) = false → IsNaN (decision_distance b) = false →
  better_decision d (Some b) = lex_lt (decision_keys d) (decision_keys b).
Proof.
  intros Nd Nb. unfold better_decision, decision_keys. cbn [lex_lt]. rewrite ltb_num by done. rewrite Z.gtb_ltb.
  destruct (Z.ltb_spec (decision_stars b) (decision_stars d)), (Z.eqb_spec (decision_stars d) (decision_stars b)),
    (Z.eqb_spec (- decision_stars d) (- decision_stars b)), (Z.ltb_spec (- decision_stars d) (- decision_stars b)); try lia; cbn; try done.
  destruct (Z.eqb_spec (key (decision_distance d)) (key (decision_distance b))), (Z.ltb_spec (key (decision_distance d)) (key (decision_distance b))); done || lia.
Qed.
(** The loop over the instances, from the best decision [best] of those seen. *)
Definition the_best (u : Unicode) (s : TechniqueSource) (l : list Instance_) (best : option TechniqueDecision) : Prop :=
  match best with
  | None => ∀ i, i ∈ l → publish u s i = Some None
  | Some b => (∃ i, i ∈ l ∧ publish u s i = Some (Some b)) ∧
      ∀ i d, i ∈ l → publish u s i = Some (Some d) → lex_lt (decision_keys d) (decision_keys b) = false
  end.
Lemma best_published_spec u s wanted l : ∀ seen best,
  (∀ i, i ∈ l → wanted i = true → publish u s i ≠ None) → the_best u s seen best →
  ∃ r, best_published u s wanted l best = Some r ∧ the_best u s (seen ++ List.filter wanted l) r.
Proof.
  induction l as [|i l IH]; intros seen best Ht Hb; cbn [best_published List.filter]; [exists best; by rewrite app_nil_r|].
  assert (Ht' : ∀ j, j ∈ l → wanted j = true → publish u s j ≠ None) by (intros j ?; apply Ht; by right).
  destruct (wanted i) eqn:Hw; cbn [negb]; [|by apply IH]. pose proof (Ht i (list_elem_of_here _ _) Hw) as Hi.
  replace (seen ++ i :: List.filter wanted l) with ((seen ++ [i]) ++ List.filter wanted l) by (by rewrite <- app_assoc).
  destruct (publish u s i) as [[d|]|] eqn:Ep; [| |done].
  - apply IH; [done|]. destruct best as [b|]; [|cbn [the_best]].
    + destruct Hb as [(j & Hj & Ej) Hbest]. rewrite better_keys by (by eapply publish_distance).
      destruct (lex_lt (decision_keys d) (decision_keys b)) eqn:El; cbn [the_best].
      * split; [exists i; split; [set_solver|done]|]. intros k d' [Hk| ->%list_elem_of_singleton]%elem_of_app Ek.
        { apply not_true_iff_false. intros Hlt. specialize (Hbest k d' Hk Ek). by rewrite (lex_trans _ _ _ Hlt El) in Hbest. }
        rewrite Ep in Ek. injection Ek as <-. apply lex_irrefl.
      * split; [exists j; split; [set_solver|done]|]. intros k d' [Hk| ->%list_elem_of_singleton]%elem_of_app Ek; [by eapply Hbest|].
        rewrite Ep in Ek. by injection Ek as <-.
    + split; [exists i; split; [set_solver|done]|]. intros k d' [Hk| ->%list_elem_of_singleton]%elem_of_app Ek.
      { cbn in Hb. rewrite (Hb k Hk) in Ek. done. }
      rewrite Ep in Ek. injection Ek as <-. apply lex_irrefl.
  - apply IH; [done|]. destruct best as [b|]; cbn [the_best] in Hb |- *.
    + destruct Hb as [(j & Hj & Ej) Hbest]. split; [exists j; split; [set_solver|done]|].
      intros k d' [Hk| ->%list_elem_of_singleton]%elem_of_app Ek; [by eapply Hbest|congruence].
    + intros k [Hk| ->%list_elem_of_singleton]%elem_of_app; [by apply Hb|done].
Qed.

(** * Theorems *)

(** The confluence bands: each is built from instances of one side, of at least two techniques, named by its tags without
    repetition; no instance is in two bands or twice in one; a band is never wider than the limit; and over finite prices it is the
    hull of its members. *)
Theorem confluence_bands_sound instances maxWidth :
  NoDup (concat (map bd_Members (BuildConfluenceBands instances maxWidth))) ∧
  ∀ b, b ∈ BuildConfluenceBands instances maxWidth → ∃ members : list (nat * Instance_),
    bd_Members b = map fst members ∧ (∀ p, p ∈ members → instances !! p.1 = Some p.2 ∧ in_Side p.2 = bd_Side b) ∧
    (bd_Side b = "buy" ∨ bd_Side b = "sell") ∧ (2 <= length (bd_Tags b)) ∧ NoDup (bd_Tags b) ∧
    (∀ t, t ∈ bd_Tags b ↔ ∃ p, p ∈ members ∧ in_Technique p.2 = t) ∧ (bd_High b - bd_Low b >? maxWidth)%float = false ∧
    ((∀ p, p ∈ members → finite (in_Low p.2) = true ∧ finite (in_High p.2) = true) →
      (∀ p, p ∈ members → (key (bd_Low b) <= key (in_Low p.2) ∧ key (in_High p.2) <= key (bd_High b))%Z) ∧
      (∃ p, p ∈ members ∧ key (bd_Low b) = key (in_Low p.2)) ∧ (∃ p, p ∈ members ∧ key (bd_High b) = key (in_High p.2))).
Proof.
  destruct (clusters_spec instances maxWidth) as [P F]. split.
  - apply (omap_NoDup band_of (λ c, map fst (cl_members c)) bd_Members).
    { unfold band_of. intros c b. destruct (_ <? _); [done|]. intros H. by injection H as <-. }
    rewrite <- (map_map cl_members (map fst)), <- concat_map. rewrite (Permutation_map fst P). apply sides_NoDup.
  - intros b (c & Hc & Hb)%list_elem_of_omap. assert (Hin : ∀ p, p ∈ cl_members c → p ∈ of_side instances "buy" ++ of_side instances "sell").
    { intros p Hp. rewrite <- P. apply list_elem_of_In, in_concat. exists (cl_members c). split; [by apply in_map, list_elem_of_In|by apply list_elem_of_In]. }
    rewrite Forall_forall in F. destruct (F c Hc) as (Hne & Hm & Hs & Hw). unfold band_of in Hb.
    destruct (Nat.ltb_spec (length (techniques_of (cl_members c))) 2) as [|Hl]; [done|]. injection Hb as <-.
    exists (cl_members c). cbn [bd_Members bd_Side bd_Tags bd_High bd_Low]. split_and!; [done| |done|done|apply techniques_NoDup|intros t; apply elem_of_techniques| |].
    + intros p Hp. split; [|by apply Hm]. by specialize (Hin p Hp) as [[? _]%elem_of_side|[? _]%elem_of_side]%elem_of_app.
    + destruct Hw as [Hw|]; [|done]. exfalso. destruct (cl_members c) as [|p [|]]; try done. vm_compute in Hl. lia.
    + intros Hf. destruct (hull_low_spec (cl_members c) Hne) as [L1 L2]; [intros p Hp; by apply Hf|].
      destruct (hull_high_spec (cl_members c) Hne) as [H1 H2]; [intros p Hp; by apply Hf|]. split_and!; auto.
Qed.

(** A technique's decision is the best confirmed reaction among its own instances, and the search never panics while no
    instance becomes touchable after the next bar: it reports none exactly when none of them is published, otherwise a
    published one with the most stars and, among those, none nearer. Instances of other techniques do not matter. *)
Theorem technique_decision_exact u s technique :
  (∀ i, i ∈ ts_Instances s → in_TouchableFrom i <= Z.of_nat (length (lf_Bars (d_Frame (ts_Detector s)))))%Z →
  match Technique u s technique with
  | None => False
  | Some None => ∀ i, i ∈ ts_Instances s → in_Technique i = technique → publish u s i = Some None
  | Some (Some best) =>
      (∃ i, i ∈ ts_Instances s ∧ in_Technique i = technique ∧ publish u s i = Some (Some best)) ∧
      ∀ i d, i ∈ ts_Instances s → in_Technique i = technique → publish u s i = Some (Some d) →
        (decision_stars d < decision_stars best ∨
         decision_stars d = decision_stars best ∧ key (decision_distance best) <= key (decision_distance d))%Z
  end.
Proof.
  intros Ht. unfold Technique, bestTechnique. set (wanted := λ i, _).
  assert (Hw : ∀ i, wanted i = true ↔ in_Technique i = technique) by (intros i; unfold wanted; cbn; by rewrite andb_true_r, bool_decide_eq_true).
  destruct (best_published_spec u s wanted (ts_Instances s) [] None) as (r & -> & Hr).
  { intros i Hi _. apply publish_total. right. by apply Ht. }
  { by intros i Hi%not_elem_of_nil. }
  cbn [app] in Hr. assert (Hin : ∀ i, i ∈ List.filter wanted (ts_Instances s) ↔ i ∈ ts_Instances s ∧ in_Technique i = technique)
    by (intros i; by rewrite in_filter, Hw). destruct r as [best|]; cbn in Hr.
  - destruct Hr as [(i & [Hi Hti]%Hin & Ei) Hb]. split; [by exists i|]. intros j d Hj Htj Ej.
    specialize (Hb j d (proj2 (Hin j) (conj Hj Htj)) Ej). unfold decision_keys in Hb. cbn [lex_lt] in Hb.
    destruct (Z.eqb_spec (- decision_stars d) (- decision_stars best)).
    + right. destruct (Z.eqb_spec (key (decision_distance d)) (key (decision_distance best))); [lia|]. apply Z.ltb_ge in Hb. lia.
    + left. apply Z.ltb_ge in Hb. lia.
  - intros i Hi Hti. by apply Hr, Hin.
Qed.

(** [C8] What a published decision is: the instance is not spent by its touches; the entry band lies inside the instance's band and
    is still valid for entry; it has the stars asked for; and its reaction touches the structure's band at a bar not before the
    first one that may (the bars that formed the structure are excluded), is confirmed at that bar or later, and no bar in
    between touches the band again. *)
Theorem published_decision_sound u s i dec :
  publish u s i = Some (Some dec) → ts_FrozenFormationReaction s = false → band_ok (instanceZone i) →
  finite (ds_FVGEntryMaxWidthPrice (d_Settings (ts_Detector s))) = true →
  (in_Mitigated i = true → 0 < ts_RetestMaxTouches s ∧ in_Touches i <= ts_RetestMaxTouches s)%Z ∧
  (0 < ts_MaximumZoneTouches s → in_Touches i <= ts_MaximumZoneTouches s)%Z ∧
  within (r_Zone (td_Result dec)) (instanceZone i) ∧ EntryValid (td_Detector dec) (r_Zone (td_Result dec)) = true ∧
  (ConfluenceFloor (d_Settings (ts_Detector s)) <= decision_stars dec)%Z ∧
  ∃ conf, td_Confirmation dec = Some conf ∧ (in_TouchableFrom i <= Z.of_nat (lc_TouchIndex conf))%Z ∧
    lc_TouchIndex conf ≤ lc_ConfirmationIndex conf < length (lf_Bars (d_Frame (ts_Detector s))) ∧
    Reaction.bandTouched (lf_Bars (d_Frame (ts_Detector s)) !!! lc_TouchIndex conf) (structural_band i).1 (structural_band i).2 = true ∧
    ∀ j, lc_TouchIndex conf < j ≤ lc_ConfirmationIndex conf →
      Reaction.bandTouched (lf_Bars (d_Frame (ts_Detector s)) !!! j) (structural_band i).1 (structural_band i).2 = false.
Proof.
  intros (conf & H)%publish_spec Hfr Hb Hf. destruct H as [Hs Hd _ Hc [_ He] Hz Hst (grab & Hr)]. rewrite Hfr in Hr.
  unfold spent in Hs. apply orb_false_iff in Hs as [Hm Hx]. split; [|split].
  - intros Em. rewrite Em in Hm. cbn in Hm. apply orb_false_iff in Hm as [? ?]. lia.
  - intros ?. apply andb_false_iff in Hx as [?|?]; lia.
  - split_and!; [rewrite Hz; by apply optimize_within|done|done|]. exists conf.
    apply reactionFrom_spec in Hr as (H1 & H2 & H3 & H4 & _). rewrite Hd in H2, H3, H4. done.
Qed.

(** A higher timeframe's instance is bound to the execution frame without looking ahead: its origin is the first execution
    bar that opens at or after the higher bar it formed on, which is inside the window, and the first bar that may react opens
    at or after the close of the higher bar that completed the structure; the band is unchanged. *)
Theorem higher_instances_anchored bars execBars tf i b minutes :
  bind_one bars execBars tf i = Some b → Minutes tf = Some minutes → Structure.increasing execBars →
  (0 < in_TouchableFrom i <= Z.of_nat (length bars))%Z →
  (in_Low b = in_Low i ∧ in_High b = in_High i ∧ in_Technique b = in_Technique i ∧ in_Timeframe b = tf) ∧
  (∃ k, in_OriginIndex b = Z.of_nat k ∧ k < length execBars ∧ in_OriginTime b = c_Time (bars !!! Z.to_nat (in_OriginIndex i)) ∧
    (in_OriginTime b <= c_Time (execBars !!! k))%Z ∧ ∀ j, j < k → (c_Time (execBars !!! j) < in_OriginTime b)%Z) ∧
  (0 <= in_TouchableFrom b <= Z.of_nat (length execBars))%Z ∧
  ∀ j, j < length execBars →
    ((in_TouchableFrom b <= Z.of_nat j)%Z ↔
     (c_Time (bars !!! Z.to_nat (in_TouchableFrom i - 1)) + minutes * 60 <= c_Time (execBars !!! j))%Z).
Proof.
  intros Hb Hmin Hs Ht. unfold bind_one in Hb. destruct (_ || _) eqn:E1; [done|]. destruct (_ || _) eqn:E2 in Hb; [done|].
  injection Hb as <-. cbn. apply orb_false_iff in E2 as [E2%Nat.leb_gt _].
  destruct (bar_from_spec execBars (c_Time (bars !!! Z.to_nat (in_OriginIndex i))) Hs) as [_ Ho].
  assert (Hbound : boundTouchableFrom i bars execBars tf = Z.of_nat (bar_from execBars (c_Time (bars !!! Z.to_nat (in_TouchableFrom i - 1)) + minutes * 60))).
  { unfold boundTouchableFrom. rewrite Hmin. destruct (Z.leb_spec (in_TouchableFrom i) 0); [lia|].
    destruct (Z.geb_spec (in_TouchableFrom i - 1) (Z.of_nat (length bars))); [lia|done]. }
  rewrite Hbound. set (close := (_ + minutes * 60)%Z). destruct (bar_from_spec execBars close Hs) as [Hc1 Hc2]. split_and!; try done; try lia.
  - eexists. split_and!; [done|done|done|by apply Ho|]. intros j Hj. apply Z.nle_gt. intros Hle. apply Ho in Hle; lia.
  - intros j Hj. rewrite <- Hc2 by done. lia.
Qed.

(** Two order blocks and a gap under the price. *)
Definition demo_instance (technique : string) (low high score : float) : Instance_ :=
  mkInstance technique "buy" low high [technique] 0 1 0 false false 0 0 0 false 0 score 0 "" 0.
Definition demo_source : TechniqueSource :=
  mkSource demo_detector [demo_instance "fvg" 8.875 9.125 4; demo_instance "order_block" 8.5 9.25 4; demo_instance "order_block" 8.875 9.125 9] [] 30 0 false.
Lemma technique_decision_exact_witness :
  ∃ best, Technique ascii_unicode demo_source "order_block" = Some (Some best) ∧ (EntryLow best, EntryHigh best) = (8.5, 9.25)%float ∧
    ∀ i d, i ∈ ts_Instances demo_source → in_Technique i = "order_block" → publish ascii_unicode demo_source i = Some (Some d) →
      (decision_stars d < decision_stars best ∨
       decision_stars d = decision_stars best ∧ key (decision_distance best) <= key (decision_distance d))%Z.
Proof.
  pose proof (technique_decision_exact ascii_unicode demo_source "order_block") as H.
  assert (Ht : ∀ i, i ∈ ts_Instances demo_source → (in_TouchableFrom i <= Z.of_nat (length (lf_Bars (d_Frame (ts_Detector demo_source)))))%Z).
  { intros i Hi. apply list_elem_of_In in Hi. cbn in Hi. destruct Hi as [<-|[<-|[<-|[]]]]; vm_compute; discriminate. }
  specialize (H Ht). assert (E : match Technique ascii_unicode demo_source "order_block" with Some (Some b) => Some (EntryLow b, EntryHigh b) | _ => None end
    = Some (8.5, 9.25)%float) by (vm_compute; reflexivity).
  destruct (Technique ascii_unicode demo_source "order_block") as [[best|]|]; [|discriminate E..]. injection E as E1 E2.
  exists best. split; [reflexivity|]. split; [by rewrite E1, E2|exact (proj2 H)].
Defined.
Lemma published_decision_sound_witness :
  ∃ dec conf, publish ascii_unicode demo_source (demo_instance "order_block" 8.875 9.125 9) = Some (Some dec) ∧ td_Confirmation dec = Some conf ∧
    (1 <= Z.of_nat (lc_TouchIndex conf))%Z ∧ lc_TouchIndex conf ≤ lc_ConfirmationIndex conf < 5.
Proof.
  destruct (publish ascii_unicode demo_source (demo_instance "order_block" 8.875 9.125 9)) as [[dec|]|] eqn:E; [|vm_compute in E; discriminate E..].
  destruct (published_decision_sound ascii_unicode demo_source (demo_instance "order_block" 8.875 9.125 9) dec E eq_refl) as (_ & _ & _ & _ & _ & conf & H1 & H2 & H3 & _).
  - split; [reflexivity|]. split; [reflexivity|]. vm_compute. discriminate.
  - reflexivity.
  - exists dec, conf. split; [reflexivity|]. split; [exact H1|]. split; [exact H2|exact H3].
Defined.
(** A gap of the 15-minute frame bound to 5-minute bars. *)
Definition demo_higher : list Candle := map (λ k, mkCandle (900 * Z.of_nat k) 10 11 9 10 1) (seq 0 4).
Definition demo_exec : list Candle := map (λ k, mkCandle (300 * Z.of_nat k) 10 11 9 10 1) (seq 0 12).
Lemma higher_instances_anchored_witness :
  ∃ b, bind_one demo_higher demo_exec "M15" (mkInstance "fvg" "buy" 9 10 [] 1 3 0 false false 0 0 0 false 0 0 0 "" 0) = Some b ∧
    in_OriginIndex b = 3%Z ∧ in_TouchableFrom b = 9%Z ∧ (0 <= in_TouchableFrom b <= 12)%Z.
Proof.
  set (i := mkInstance "fvg" "buy" 9 10 [] 1 3 0 false false 0 0 0 false 0 0 0 "" 0).
  destruct (bind_one demo_higher demo_exec "M15" i) as [b|] eqn:E; [|vm_compute in E; discriminate E].
  exists b. split; [reflexivity|].
  assert (Hs : Structure.increasing demo_exec) by (unfold Structure.increasing; vm_compute; repeat constructor).
  destruct (higher_instances_anchored demo_higher demo_exec "M15" i b 15 E eq_refl Hs) as (_ & _ & H & _); [vm_compute; split; [reflexivity|discriminate]|].
  vm_compute in E. injection E as <-. split; [reflexivity|]. split; [reflexivity|exact H].
Defined.
Example demo_bands :
  map (λ b, (bd_Tags b, bd_Members b, bd_Score b)) (BuildConfluenceBands (ts_Instances demo_source) 3) = [(["fvg"; "order_block"], [1; 0; 2]%nat, 11.5%float)].
Proof. vm_compute. reflexivity. Qed.
