(* ===== verification/StopBudget.v ===== *)
(** Package strategyutil, stop_budget.go, reaction_stop.go, reaction.go, technique.go: where a stop goes, whether the instrument's stop
    envelope admits it, and the parameters of both. *)
From S2P Require Import Prelude Float64 Market LegacyRead Detector.
From Stdlib Require Import Floats.

(** * reaction.go, technique.go: parameters *)

Record ReactionConfig := mkReactionConfig { LookbackBars : Z; EngulfingMinimumRangeATR : float }.
Definition ParseReactionConfig (params : Params) : option ReactionConfig :=
  lookback ← Int params "reaction_lookback_bars";
  if (lookback <? 1)%Z then None
  else engulfing ← Float params "engulfing_minimum_range_atr"; if (engulfing <? 0)%float then None else Some (mkReactionConfig lookback engulfing).
Record TechniqueGeometry := mkTechniqueGeometry {
  tg_PipSize : float; EpsilonATRFraction : float; MaximumZoneATR : float; EntryMaxWidthPrice : float; tg_MomentumBodyFraction : float
}.
Definition optional_number (params : Params) (key : string) : option float :=
  optional params key 0%float (λ raw, Float {[key := raw]} key).
Definition ParseTechniqueGeometry (params : Params) : option TechniqueGeometry :=
  epsilon ← Float params "epsilon_atr_fraction"; maxZone ← Float params "maximum_zone_atr"; entryMax ← Float params "entry_max_width_price";
  if (epsilon <? 0)%float || (maxZone <=? 0)%float || (entryMax <=? 0)%float then None
  else
    momentum ← optional_number params "momentum_body_fraction"; pip ← optional_number params "pip_size";
    Some (mkTechniqueGeometry pip epsilon maxZone entryMax momentum).

(** * stop_budget.go *)

Definition StopBudgetStructuralEvidence : string := "stop_budget_structural".
Definition StopBudgetFloorEvidence : string := "stop_budget_floor".
Definition StopBudgetDeepEntryEvidence : string := "stop_budget_deep_entry".
(** The counter of refusals, when one is set, is passed beside the budget. *)
Record StopBudget_ := mkStopBudget { MaxPips : float; MinPips : float; PipSize : float; DeepEntryMinimumWidthPips : float }.
Definition Refusals : Type := option Z.
Definition counted (n : Z) (r : Refusals) : Refusals := option_map (λ k, k + n)%Z r.
Definition TakeStopBudgetRefusals (count : Z) : Z * Z := (count, 0%Z).
Definition CountUnswept (count : Z) : Z := (count + 1)%Z.
Definition TakeUnsweptRefusals (count : Z) : Z * Z := (count, 0%Z).
Definition positive_number (params : Params) (key : string) : option float :=
  optional params key 0%float (λ _, v ← Float params key; if negb (v >? 0)%float || IsInf v then None else Some v).
Definition ParseStopBudget (params : Params) : option StopBudget_ :=
  max ← positive_number params "execution_stop_max_pips"; min ← positive_number params "execution_stop_min_pips";
  pip ← positive_number params "execution_pip_size"; deep ← positive_number params "deep_entry_minimum_width_pips";
  if ((max >? 0)%float && (min >? max)%float) || (((max >? 0)%float || (min >? 0)%float) && negb (pip >? 0)%float) then None
  else Some (mkStopBudget max min pip deep).
Definition Active (b : StopBudget_) : bool := (PipSize b >? 0)%float && ((MaxPips b >? 0)%float || (MinPips b >? 0)%float).
Definition risk_pips (b : StopBudget_) (reference invalidation : float) : float := (abs (reference - invalidation) / PipSize b)%float.
(** The evidence code, whether to publish, and the refusals. *)
Definition Apply (b : StopBudget_) (refusals : Refusals) (reference invalidation : float) : string * bool * Refusals :=
  if negb (Active b) then ("", true, refusals)
  else
    let risk := risk_pips b reference invalidation in
    if (MaxPips b >? 0)%float && (risk >? MaxPips b + 1e-9)%float then ("", false, counted 1 refusals)
    else if (MinPips b >? 0)%float && (risk <? MinPips b)%float then (StopBudgetFloorEvidence, true, refusals)
    else (StopBudgetStructuralEvidence, true, refusals).
(** The edge within the cap, on the tick. *)
Definition deep_edge (b : StopBudget_) (sell : bool) (invalidation : float) : float :=
  let cap := (MaxPips b * PipSize b)%float in let tick := (PipSize b / 10)%float in
  (if sell then math_Ceil ((invalidation - cap) / tick - 1e-6) * tick else math_Floor ((invalidation + cap) / tick + 1e-6) * tick)%float.
Definition Fit (b : StopBudget_) (refusals : Refusals) (direction : string) (low high invalidation : float) :
    option (float * float * string) * Refusals :=
  let sell := bool_decide (direction = Market.Sell) in
  let '(whole, fits, refusals) := Apply b refusals (if sell then low else high) invalidation in
  if (fits : bool) then (Some (low, high, whole), refusals)
  else
    let refusals := counted (-1) refusals in
    let refuse := (None, counted 1 refusals) in
    if negb (DeepEntryMinimumWidthPips b >? 0)%float || negb (MaxPips b >? 0)%float || negb (PipSize b >? 0)%float then refuse
    else
      let deep := deep_edge b sell invalidation in
      if (if sell then (high <? deep)%float else (low >? deep)%float) then refuse
      else
        let newLow := if sell then math_Max low deep else low in let newHigh := if sell then high else math_Min high deep in
        if (newHigh - newLow <? DeepEntryMinimumWidthPips b * PipSize b - 1e-9)%float then refuse
        else (Some (newLow, newHigh, StopBudgetDeepEntryEvidence), refusals).

(** * reaction_stop.go *)

Definition ReactionExtremeEvidence : string := "invalidation_beyond_reaction_extreme".
Definition reaction_bars (bars : list Candle) (conf : LegacyConfirmation) : list Candle :=
  take (lc_ConfirmationIndex conf + 1 - lc_TouchIndex conf) (drop (lc_TouchIndex conf) bars).
(** The price and whether the reaction's extreme set it. *)
Definition ReactionAnchoredInvalidation (bars : list Candle) (conf : option LegacyConfirmation) (direction : string) (structLow structHigh buffer : float) :
    float * bool :=
  let sell := bool_decide (direction = Market.Sell) in
  let structural := (if sell then structHigh + buffer else structLow - buffer)%float in
  match conf with
  | None => (structural, false)
  | Some conf =>
      if (length bars <=? lc_ConfirmationIndex conf)%nat || (lc_ConfirmationIndex conf <? lc_TouchIndex conf)%nat then (structural, false)
      else if sell then
        let extreme := foldl (λ m b, math_Max m (c_High b)) neg_infinity (reaction_bars bars conf) in
        if IsInf extreme || IsNaN extreme || negb (extreme >? structHigh)%float then (structural, false) else ((extreme + buffer)%float, true)
      else
        let extreme := foldl (λ m b, math_Min m (c_Low b)) infinity (reaction_bars bars conf) in
        if IsInf extreme || IsNaN extreme || negb (extreme <? structLow)%float then (structural, false) else ((extreme - buffer)%float, true)
  end.

(** * Theorems *)

Lemma elem_of_reaction_bars bars conf b : lc_ConfirmationIndex conf < length bars → lc_TouchIndex conf ≤ lc_ConfirmationIndex conf →
  b ∈ reaction_bars bars conf ↔ ∃ i, lc_TouchIndex conf ≤ i ≤ lc_ConfirmationIndex conf ∧ bars !!! i = b.
Proof.
  intros Hl Ht. unfold reaction_bars. rewrite list_elem_of_lookup. split.
  - intros (k & Hk). apply lookup_take_Some in Hk as [Hk Hlt]. rewrite lookup_drop in Hk. exists (lc_TouchIndex conf + k).
    split; [lia|by apply list_lookup_total_correct].
  - intros (i & Hi & <-). exists (i - lc_TouchIndex conf). apply lookup_take_Some. rewrite lookup_drop. split; [|lia].
    replace (lc_TouchIndex conf + (i - lc_TouchIndex conf)) with i by lia. apply list_lookup_lookup_total_lt. lia.
Qed.
Lemma reaction_bars_ne bars conf : lc_ConfirmationIndex conf < length bars → lc_TouchIndex conf ≤ lc_ConfirmationIndex conf → reaction_bars bars conf ≠ [].
Proof.
  intros Hl Ht E. apply (not_elem_of_nil (bars !!! lc_TouchIndex conf)). rewrite <- E. apply elem_of_reaction_bars; [done|done|].
  exists (lc_TouchIndex conf). split; [lia|done].
Qed.
(** The stop of a confirmed reaction lies beyond the structure and beyond every price the bars of the reaction traded, by the
    buffer, on the losing side of the trade; it is reported as anchored exactly when some bar of the reaction traded beyond the
    structure. *)
Theorem reaction_stop_beyond bars conf direction structLow structHigh buffer :
  finite structLow = true → finite structHigh = true → finite buffer = true → Forall (λ b, finite (c_Low b) = true ∧ finite (c_High b) = true) bars →
  lc_TouchIndex conf ≤ lc_ConfirmationIndex conf → lc_ConfirmationIndex conf < length bars →
  let '(price, anchored) := ReactionAnchoredInvalidation bars (Some conf) direction structLow structHigh buffer in
  let window i := lc_TouchIndex conf ≤ i ≤ lc_ConfirmationIndex conf in
  if bool_decide (direction = Market.Sell) then
    (key (structHigh + buffer) <= key price)%Z ∧ (∀ i, window i → (key (c_High (bars !!! i) + buffer) <= key price)%Z) ∧
    (anchored = true ↔ ∃ i, window i ∧ (key structHigh < key (c_High (bars !!! i)))%Z)
  else
    (key price <= key (structLow - buffer))%Z ∧ (∀ i, window i → (key price <= key (c_Low (bars !!! i) - buffer))%Z) ∧
    (anchored = true ↔ ∃ i, window i ∧ (key (c_Low (bars !!! i)) < key structLow)%Z).
Proof.
  intros Fl Fh Fb Hf Ht Hl. pose proof (elem_of_reaction_bars bars conf) as Hin. pose proof (reaction_bars_ne bars conf Hl Ht) as Hne.
  assert (Hfin : ∀ b, b ∈ reaction_bars bars conf → finite (c_Low b) = true ∧ finite (c_High b) = true).
  { intros b (i & Hi & <-)%Hin; [|done|done]. rewrite Forall_forall in Hf. apply Hf. apply list_elem_of_lookup_2 with i.
    apply list_lookup_lookup_total_lt. lia. }
  assert (Hfi : ∀ i, lc_TouchIndex conf ≤ i ≤ lc_ConfirmationIndex conf → finite (c_Low (bars !!! i)) = true ∧ finite (c_High (bars !!! i)) = true)
    by (intros i Hi; apply Hfin, Hin; [done|done|by exists i]).
  assert (Hinf : ∀ x, finite x = true → IsInf x || IsNaN x = false) by (intros x F; unfold finite in F; bools; apply orb_false_iff; done).
  unfold ReactionAnchoredInvalidation. destruct (Nat.leb_spec (length bars) (lc_ConfirmationIndex conf)); [lia|].
  destruct (Nat.ltb_spec (lc_ConfirmationIndex conf) (lc_TouchIndex conf)); [lia|]. cbn [orb]. destruct (bool_decide (direction = Market.Sell)).
  - destruct (fold_Max_infinity c_High (reaction_bars bars conf) Hne) as (F & Hmax & a & Ha & Ea); [by intros; apply Hfin|].
    set (extreme := foldl _ _ _) in *. rewrite Hinf by done. cbn [orb]. rewrite ltb_num by eauto with float. apply Hin in Ha as (k & Hk & <-); [|done..].
    destruct (Z.ltb_spec (key structHigh) (key extreme)); cbn [negb]; split_and!.
    + apply add_mono; done || lia.
    + intros i Hi. apply add_mono; try done; [by apply Hfi|apply Hmax, Hin; [done..|by exists i]].
    + split; [intros _; exists k; split; [done|lia]|done].
    + lia.
    + intros i Hi. apply add_mono; try done; [by apply Hfi|]. transitivity (key extreme); [apply Hmax, Hin; [done..|by exists i]|lia].
    + split; [done|]. intros (i & Hi & Hlt). assert (key (c_High (bars !!! i)) <= key extreme)%Z by (apply Hmax, Hin; [done..|by exists i]). lia.
  - destruct (fold_Min_infinity c_Low (reaction_bars bars conf) Hne) as (F & Hmin & a & Ha & Ea); [by intros; apply Hfin|].
    set (extreme := foldl _ _ _) in *. rewrite Hinf by done. cbn [orb]. rewrite ltb_num by eauto with float. apply Hin in Ha as (k & Hk & <-); [|done..].
    destruct (Z.ltb_spec (key extreme) (key structLow)); cbn [negb]; split_and!.
    + apply sub_mono; done || lia.
    + intros i Hi. apply sub_mono; try done; [by apply Hfi|apply Hmin, Hin; [done..|by exists i]].
    + split; [intros _; exists k; split; [done|lia]|done].
    + lia.
    + intros i Hi. apply sub_mono; try done; [by apply Hfi|]. transitivity (key extreme); [lia|apply Hmin, Hin; [done..|by exists i]].
    + split; [done|]. intros (i & Hi & Hlt). assert (key extreme <= key (c_Low (bars !!! i)))%Z by (apply Hmin, Hin; [done..|by exists i]). lia.
Qed.
Lemma reaction_stop_beyond_witness :
  let conf := mkLegacyConfirmation "wick_rejection" 2 4 120 240 in
  ReactionAnchoredInvalidation demo_bars (Some conf) "BUY" 8.875 9.125 0.125 = ((8.8 - 0.125)%float, true) ∧
  (key (8.8 - 0.125) <= key (8.875 - 0.125))%Z.
Proof.
  cbv zeta. pose proof (reaction_stop_beyond demo_bars (mkLegacyConfirmation "wick_rejection" 2 4 120 240) "BUY" 8.875 9.125 0.125) as H.
  assert (E : ReactionAnchoredInvalidation demo_bars (Some (mkLegacyConfirmation "wick_rejection" 2 4 120 240)) "BUY" 8.875 9.125 0.125 =
    ((8.8 - 0.125)%float, true)) by (vm_compute; reflexivity).
  rewrite E in H. split; [exact E|].
  assert (Hf : Forall (λ b, finite (c_Low b) = true ∧ finite (c_High b) = true) demo_bars)
    by (repeat (apply Forall_cons; split; [split; reflexivity|]); apply Forall_nil; exact I).
  specialize (H eq_refl eq_refl eq_refl Hf ltac:(cbn; lia) ltac:(cbn; lia)). exact (proj1 H).
Defined.

(** The budget a band was published under: whole, or cut at the edge [deep]. *)
Record fitted (b : StopBudget_) (sell : bool) (deep low high invalidation l h : float) (code : string) : Prop := {
  ft_whole : code ≠ StopBudgetDeepEntryEvidence →
    let risk := (abs ((if sell then low else high) - invalidation) / PipSize b)%float in
    let budget := (PipSize b >? 0)%float = true ∧ ((MaxPips b >? 0)%float = true ∨ (MinPips b >? 0)%float = true) in
    l = low ∧ h = high ∧ (budget → (MaxPips b >? 0)%float = true → (risk >? MaxPips b + 1e-9)%float = false) ∧
    (code = StopBudgetFloorEvidence ↔ budget ∧ (MinPips b >? 0)%float = true ∧ (risk <? MinPips b)%float = true) ∧ (code = "" ↔ ¬ budget);
  ft_deep : code = StopBudgetDeepEntryEvidence → (PipSize b >? 0)%float = true ∧ (MaxPips b >? 0)%float = true ∧
    (DeepEntryMinimumWidthPips b >? 0)%float = true ∧
    (abs ((if sell then low else high) - invalidation) / PipSize b >? MaxPips b + 1e-9)%float = true ∧
    (if sell then h = high ∧ l = math_Max low deep ∧ (high <? deep)%float = false
     else l = low ∧ h = math_Min high deep ∧ (low >? deep)%float = false) ∧
    (h - l <? DeepEntryMinimumWidthPips b * PipSize b - 1e-9)%float = false
}.
Lemma Active_spec b : Active b = true ↔ (PipSize b >? 0)%float = true ∧ ((MaxPips b >? 0)%float = true ∨ (MinPips b >? 0)%float = true).
Proof. unfold Active. by rewrite andb_true_iff, orb_true_iff. Qed.
Lemma counted_back r : counted 1 (counted (-1) (counted 1 r)) = counted 1 r.
Proof. destruct r as [n|]; [|done]. cbn. f_equal. lia. Qed.
Lemma counted_cancel r : counted (-1) (counted 1 r) = r.
Proof. destruct r as [n|]; [|done]. cbn. f_equal. lia. Qed.
(** [C32] Fitting a band to the stop budget either publishes it and leaves the count of refusals as it was, or refuses it and counts one
    refusal. A band is published whole when the stop from its near edge is within the cap (with the floor's mark exactly when it
    is below the floor, and no mark exactly when there is no budget), and otherwise only cut: the far edge stays, the near edge
    becomes the one the cap reaches from the stop, rounded to the tenth of a pip inside the cap, or stays when that is deeper, and
    the rest is wide enough. It is refused only when its stop is wider than the cap and a cut is turned off, would lie beyond the
    far edge, or would leave too narrow a band. The invalidation is never moved: the published band is a function of it. *)
Theorem budget_fit_exact b refusals direction low high invalidation :
  let sell := bool_decide (direction = Market.Sell) in
  let cap := (MaxPips b * PipSize b)%float in let tick := (PipSize b / 10)%float in
  let deep := (if sell then math_Ceil ((invalidation - cap) / tick - 1e-6) * tick else math_Floor ((invalidation + cap) / tick + 1e-6) * tick)%float in
  match Fit b refusals direction low high invalidation with
  | (Some (l, h, code), refusals') => refusals' = refusals ∧ fitted b sell deep low high invalidation l h code
  | (None, refusals') => refusals' = counted 1 refusals ∧ (PipSize b >? 0)%float = true ∧ (MaxPips b >? 0)%float = true ∧
      (abs ((if sell then low else high) - invalidation) / PipSize b >? MaxPips b + 1e-9)%float = true ∧
      ((DeepEntryMinimumWidthPips b >? 0)%float = false ∨
       (if sell then high <? deep else low >? deep)%float = true ∨
       ((if sell then high - math_Max low deep else math_Min high deep - low) <? DeepEntryMinimumWidthPips b * PipSize b - 1e-9)%float = true)
  end.
Proof.
  intros sell cap tick deep. unfold Fit, Apply. fold sell. set (near := if sell then low else high). fold (risk_pips b near invalidation).
  change (deep_edge b sell invalidation) with deep. pose proof (Active_spec b) as HA.
  destruct (Active b) eqn:Ea; cbn [negb].
  2:{ split; [done|]. split; intros Hc; [|discriminate Hc]. cbv zeta. rewrite <- HA. split_and!; [done|done|done| |split; [by intros _ ?|done]]. split; [done|by intros [? _]]. }
  destruct ((MaxPips b >? 0)%float && (risk_pips b near invalidation >? MaxPips b + 1e-9)%float) eqn:Ecap.
  2:{ destruct ((MinPips b >? 0)%float && (risk_pips b near invalidation <? MinPips b)%float) eqn:Efl; (split; [done|]); split; intros Hc; try discriminate Hc;
      cbv zeta; fold near; fold (risk_pips b near invalidation); rewrite <- HA; (split_and!; [done|done| | |by split]); [intros _ Hm; by rewrite Hm in Ecap| |intros _ Hm; by rewrite Hm in Ecap|].
      - apply andb_true_iff in Efl as [? ?]. by split.
      - split; [done|]. intros (_ & H1 & H2). by rewrite H1, H2 in Efl. }
  apply andb_true_iff in Ecap as [Hmax Hrisk]. rewrite counted_back, counted_cancel. pose proof (proj1 HA eq_refl) as [Hpip _].
  destruct (DeepEntryMinimumWidthPips b >? 0)%float eqn:Ed; [|split_and!; auto]. rewrite Hmax, Hpip. cbn [negb orb].
  destruct (if sell then (high <? deep)%float else (low >? deep)%float) eqn:Eout; [split_and!; auto; right; left; by destruct sell|].
  destruct (_ - _ <? _)%float eqn:Ew; [split_and!; auto; right; right; by destruct sell|]. split; [done|]. split; [done|]. intros _.
  split_and!; try done. by destruct sell.
Qed.
(** Gold at 2000, pips of 0.1: a 60-pip stop under a 40-pip cap is cut to a deeper band; a 90-pip one is refused. *)
Example demo_fit :
  Fit (mkStopBudget 40 10 0.1 5) (Some 0%Z) "BUY" 2000 2004 1998 = (Some (2000, 2002, StopBudgetDeepEntryEvidence), Some 0%Z)%float ∧
  Fit (mkStopBudget 40 10 0.1 5) (Some 0%Z) "BUY" 2005 2007 1998 = (None, Some 1%Z) ∧
  Fit (mkStopBudget 40 10 0.1 5) (Some 0%Z) "BUY" 2000 2001.5 1998 = (Some (2000, 2001.5, StopBudgetStructuralEvidence), Some 0%Z)%float.
Proof. vm_compute. done. Qed.
