(* ===== verification/TechniqueCandidate.v ===== *)
(** Package strategyutil, technique_candidate.go, technique_quality.go and the candidate builder of helpers.go: from a technique's decision
    to the opportunity that is published. *)
From S2P Require Import Prelude Float64 Market TechniqueBars TechniqueZones TechniqueInstances.
From S2P Require Import TechniqueScore LegacyRead Detector TechniqueDecision StopBudget.
From S2P Require Quality Opportunity Reaction Confluence Liquidity ScalpRange.
From Stdlib Require Import Floats.

(** * helpers.go *)

Definition Clamp01 (value : float) : float := if (value <? 0)%float then 0%float else if (value >? 1)%float then 1%float else value.
(** The nearest unswept pool at least the minimum distance away: its price. *)
Definition opposing_step (direction : string) (from minimumDistance : float) (best : option (float * float)) (p : Liquidity.Pool) : option (float * float) :=
  let sell := bool_decide (direction = Market.Sell) in
  let wanted := match Liquidity.po_Side p with Liquidity.LiquiditySellSide => sell | Liquidity.LiquidityBuySide => negb sell end in
  if negb wanted || bool_decide (is_Some (Liquidity.po_SweptAt p)) then best
  else
    let price := if sell then Liquidity.po_Low p else Liquidity.po_High p in
    let distance := if sell then (from - price)%float else (price - from)%float in
    if (distance >=? minimumDistance)%float && (distance <? from_option snd infinity best)%float then Some (price, distance) else best.
Definition OpposingLiquidity (pools : list Liquidity.Pool) (direction : string) (from minimumDistance : float) : option float :=
  match foldl (opposing_step direction from minimumDistance) None pools with
  | Some (price, distance) => if IsInf distance && (distance >? 0)%float then None else Some price
  | None => None
  end.
Record CandidateSpec := mkCandidateSpec {
  cd_ID : string; cd_Version : string; cd_SetupKey : string; cd_Symbol : string; cd_Direction : string; cd_EntryLow : float; cd_EntryHigh : float;
  cd_Invalidation : float; cd_InvalidationLabel : string; cd_Target : float; cd_TargetLabel : string; cd_Evidence : list string;
  cd_Quality : Opportunity.StrategyQuality; cd_FormedAt : Z; cd_ConfirmedAt : Z; cd_ExpiryHours : float; cd_Fingerprint : string
}.
Section candidates.
(** The hexadecimal SHA-256 digest. *)
Context (hash : string → string).

Definition Candidate (spec : CandidateSpec) : result Opportunity.Candidate :=
  match Opportunity.DeterministicID hash
    (Opportunity.mkIdentity (cd_ID spec) (cd_Version spec) (cd_Symbol spec) (cd_Direction spec) (cd_SetupKey spec)) with
  | Err e => Err e
  | Ok id =>
      let c := Opportunity.mkCandidate id (cd_ID spec) (cd_Version spec) (cd_Symbol spec) "" "" None (cd_Direction spec) (cd_SetupKey spec)
        (Opportunity.mkEntryZone (cd_EntryLow spec) (cd_EntryHigh spec)) (mkPriceLevel (cd_Invalidation spec) (cd_InvalidationLabel spec))
        [mkPriceLevel (cd_Target spec) (cd_TargetLabel spec)] (cd_Evidence spec) (cd_Quality spec) (cd_FormedAt spec) (cd_ConfirmedAt spec)
        (wrap64 (cd_ConfirmedAt spec + f64_to_int64 (cd_ExpiryHours spec * 3600)))
        (Opportunity.mkProvenance "v2" "v1" "v1" 3 (cd_Fingerprint spec)) None None None None in
      match Opportunity.Validate c with None => Ok c | Some e => Err e end
  end.

(** * technique_quality.go *)

(** The dimensions in order; a panic is [None]. *)
Definition scores (m : option Quality.Model) (l : list (string * float)) : option Quality.Model :=
  foldl (λ m p, m ← m; Quality.Score m p.1 p.2) m l.
Definition measures (m : option Quality.Model) (l : list (string * float)) : option Quality.Model :=
  foldl (λ m p, m ← m; Quality.Measure m p.1 p.2) m l.
Definition SharedReactionDimensions (m : option Quality.Model) (dec : TechniqueDecision) (g : QualityGeometry) : option Quality.Model :=
  let d := td_Detector dec in let buy := bool_decide (td_Direction dec = Market.Buy) in
  let rejection := match td_Confirmation dec with
    | Some c => Quality.RejectionScore (lf_Bars (d_Frame d)) (Z.of_nat (lc_TouchIndex c)) (Z.of_nat (lc_ConfirmationIndex c)) buy
    | None => 0%float
    end in
  let '(room, rewardRisk) := Quality.GeometryRoom (g_Reference g) (g_Invalidation g) (g_Target g) (g_Structural g) in
  let m := scores m [("rejection", rejection); ("entry_location", Quality.LocationScore (d_Price d) (g_Reference g) (g_ATR g))] in
  let m := if (g_ATR g >? 0)%float then measures m [("entry_chase_atr", abs (d_Price d - g_Reference g) / g_ATR g)%float] else m in
  let m := scores m [("structure", Quality.StructureScore buy (lf_Structure (d_Frame d)) (RecentCHoCH d (Z.max 1 (ReactionLookbackBars (d_Settings d))))
    (HTFAligned d)); ("room", room)] in
  measures m [("room_reward_risk", rewardRisk)].
Definition departure_of (bars : list Candle) (buy : bool) (lo hi : float) (start stop : nat) : float :=
  foldl (λ best b, if buy then math_Max best (c_High b - hi) else math_Max best (lo - c_Low b)) 0%float (take (stop - start) (drop start bars)).
(** The departure in ATR, the width in ATR and the touches; NaN where there is no measurement. *)
Definition zone_measures (dec : TechniqueDecision) (g : QualityGeometry) : float * float * float :=
  match td_Instance dec with
  | Some inst =>
      if (g_ATR g >? 0)%float then
        let '(lo, hi) := if (in_StructuralHigh inst >? in_StructuralLow inst)%float && (in_StructuralLow inst >? 0)%float
          then (in_StructuralLow inst, in_StructuralHigh inst) else (in_Low inst, in_High inst) in
        let bars := lf_Bars (d_Frame (td_Detector dec)) in
        let end_ := match td_Confirmation dec with Some c => Nat.min (length bars) (lc_TouchIndex c) | None => length bars end in
        let start := Z.max 0 (in_OriginIndex inst) in let stop := Z.min (Z.of_nat end_) (start + 9) in
        (if (start <? stop)%Z
         then (departure_of bars (bool_decide (td_Direction dec = Market.Buy)) lo hi (Z.to_nat start) (Z.to_nat stop) / g_ATR g)%float else nan,
         ((hi - lo) / g_ATR g)%float, f64_of_Z (in_Touches inst))
      else (nan, nan, nan)
  | None => (nan, nan, nan)
  end.
Definition ZoneFamilyQuality (name : string) (dec : TechniqueDecision) (g : QualityGeometry) : option Opportunity.StrategyQuality :=
  let '(departure, width, touches) := zone_measures dec g in
  let m := scores (Some (Quality.New (name +:+ ".quality.v1"))) [("zone_departure", Quality.Ramp departure 1 3);
    ("zone_precision", Quality.Peak width 0.1 0.4 1.5 3.5); ("zone_freshness", Quality.Fall touches 1 5)] in
  let m := measures m [("zone_departure_atr", departure); ("zone_width_atr", width); ("zone_touches", touches)] in
  m ← SharedReactionDimensions m dec g; Some (Opportunity.mkQuality (Quality.Overall m) (Quality.Components m)).

(** * technique_candidate.go *)

Record TechniqueSpec := mkTechniqueSpec {
  tp_ID : string; tp_Version : string; tp_ZoneEvidence : string; tp_ConfirmedEvidence : string; tp_InvalidationLabel : string;
  tp_InvalidationBufferATR : float; tp_MinimumTargetDistanceATR : float; tp_ExpiryHours : float; tp_Fingerprint : string;
  tp_Target : option (TechniqueDecision → float * string); tp_RequireStructuralTarget : bool; tp_Versions : Opportunity.AnalysisProvenance;
  tp_AnchorToReaction : bool; tp_StopBudget : StopBudget_; tp_PublishStructure : bool
}.
Definition structLowOrHigh (direction : string) (structLow structHigh buffer : float) : float :=
  if bool_decide (direction = Market.Sell) then (structHigh + buffer)%float else (structLow - buffer)%float.
Definition techniqueFallbackTargetR : float := 2.
Definition target_step (sell : bool) (reference minimum : float) (best : float * float) (p : Pool) : float * float :=
  if negb (bool_decide (p_Side p = if sell then "sell" else "buy")) then best
  else
    let distance := if sell then (reference - p_Level p)%float else (p_Level p - reference)%float in
    if (distance >=? minimum)%float && (distance <? best.2)%float then (p_Level p, distance) else best.
Definition nearestOpposingTarget (d : LegacyDetector) (direction : string) (reference invalidation minimum : float) : option (float * string) :=
  let sell := bool_decide (direction = Market.Sell) in
  let '(best, distance) := foldl (target_step sell reference minimum) (0%float, infinity) (lf_Pools (d_Frame d)) in
  if negb (distance =? infinity)%float then Some (best, "nearest_opposing_liquidity")
  else
    let risk := abs (reference - invalidation) in
    if (risk <=? 0)%float then None
    else Some ((if sell then reference - techniqueFallbackTargetR * risk else reference + techniqueFallbackTargetR * risk)%float, "fixed_reward_risk").
Definition instance_timeframe (dec : TechniqueDecision) : string := from_option in_Timeframe "" (td_Instance dec).
Definition techniqueEvidence (dec : TechniqueDecision) (spec : TechniqueSpec) : list string :=
  [tp_ZoneEvidence spec; tp_ConfirmedEvidence spec] ++
  (if bool_decide (instance_timeframe dec = "") then [] else ["htf_zone_" +:+ ScalpRange.ToLower (instance_timeframe dec)]).
Definition structureZone (dec : TechniqueDecision) (inst : Instance_) (low high : float) : Opportunity.StructureZone :=
  let bars := lf_Bars (d_Frame (td_Detector dec)) in
  let formedAt := if (in_OriginTime inst =? 0)%Z && (in_OriginIndex inst >=? 0)%Z && (in_OriginIndex inst <? Z.of_nat (length bars))%Z
    then c_Time (bars !!! Z.to_nat (in_OriginIndex inst)) else in_OriginTime inst in
  Opportunity.mkStructureZone (if bool_decide (in_Timeframe inst = "") then tf_M5 else in_Timeframe inst) low high formedAt.
Definition ReactionFactors (confirmationType : string) (htfAligned : bool) (touches : Z) (sessionSweep : bool) : Confluence.Factors :=
  Confluence.mkFactors htfAligned touches (bool_decide (confirmationType = Reaction.TypeWickRejection))
    (bool_decide (confirmationType = Reaction.TypeEngulfing)) sessionSweep
    (bool_decide (confirmationType = Reaction.TypeSweepReclaim) || bool_decide (confirmationType = Reaction.TypeStrongReclaim)) false false.
(** The candidate with what a decision adds to it. *)
Definition with_decision (c : Opportunity.Candidate) (dec : TechniqueDecision) (spec : TechniqueSpec) : Opportunity.Candidate :=
  let r := td_Result dec in
  Opportunity.mkCandidate (Opportunity.ca_ID c) (Opportunity.ca_Strategy c) (Opportunity.ca_StrategyVersion c) (Opportunity.ca_Symbol c)
    (Opportunity.ca_ObservedTimeframe c) (instance_timeframe dec)
    (match td_Instance dec with
     | Some inst => if tp_PublishStructure spec then Some (structureZone dec inst (r_StructuralLow r) (r_StructuralHigh r)) else Opportunity.ca_Structure c
     | None => Opportunity.ca_Structure c
     end) (Opportunity.ca_Direction c) (td_ID dec) (Opportunity.ca_Entry c) (Opportunity.ca_Invalidation c) (Opportunity.ca_Targets c)
    (Opportunity.ca_Evidence c) (Opportunity.ca_Quality c) (Opportunity.ca_FormedAt c) (Opportunity.ca_CreatedAt c) (Opportunity.ca_ExpiresAt c)
    (if bool_decide (Opportunity.pv_StructureVersion (tp_Versions spec) = "")
     then Opportunity.mkProvenance "v2" "v1" "v1" 3 (tp_Fingerprint spec) else tp_Versions spec) (Opportunity.ca_Technical c)
    (match td_Confirmation dec with
     | Some conf => Some (Opportunity.mkReaction (td_ID dec) (lc_TouchTime conf) (lc_ConfirmationTime conf) "rejection" (lc_Type conf))
     | None => Opportunity.ca_Reaction c
     end) (Some (ConfluenceContext_of r)) (Opportunity.ca_StopEnvelope c).
(** The opportunity, or none, with the refusals counted by the stop budget. *)
Definition TechniqueCandidate (symbol : string) (dec : TechniqueDecision) (spec : TechniqueSpec) (refusals : Refusals) :
    option Opportunity.Candidate * Refusals :=
  let d := td_Detector dec in let atr := d_ATR d in let r := td_Result dec in let direction := td_Direction dec in
  let low := EntryLow dec in let high := EntryHigh dec in let structLow := r_StructuralLow r in let structHigh := r_StructuralHigh r in
  let buffer := (tp_InvalidationBufferATR spec * atr)%float in
  let reference := if bool_decide (direction = Market.Sell) then low else high in
  let '(invalidation, anchored) :=
    if tp_AnchorToReaction spec then ReactionAnchoredInvalidation (lf_Bars (d_Frame d)) (td_Confirmation dec) direction structLow structHigh buffer
    else (structLowOrHigh direction structLow structHigh buffer, false) in
  let '(budgetCode, publish, refusals) := Apply (tp_StopBudget spec) refusals reference invalidation in
  if negb publish then (None, refusals)
  else
    let target := match tp_Target spec with
      | Some f => Some (f dec)
      | None =>
          t ← nearestOpposingTarget d direction reference invalidation (tp_MinimumTargetDistanceATR spec * atr);
          if tp_RequireStructuralTarget spec && negb (bool_decide (t.2 = "nearest_opposing_liquidity")) then None else Some t
      end in
    (t ← target;
     let '(formedAt, confirmedAt, setupKey) := match td_Confirmation dec with
       | Some c => (lc_TouchTime c, lc_ConfirmationTime c,
           "zone:" +:+ td_ID dec +:+ ":rejection:" +:+ pretty (lc_TouchTime c) +:+ ":" +:+ pretty (lc_ConfirmationTime c))
       | None => (td_FormedAt dec, td_ConfirmedAt dec, "zone:" +:+ td_ID dec +:+ ":break:" +:+ pretty (td_ConfirmedAt dec))
       end in
     let evidence := techniqueEvidence dec spec ++ (if (anchored : bool) then [ReactionExtremeEvidence] else []) ++
       (if bool_decide (budgetCode = "") then [] else [budgetCode]) in
     let geometry := mkGeometry reference invalidation t.1 (negb (bool_decide (t.2 = "fixed_reward_risk"))) atr in
     scored ← match td_Score dec with Some f => Some (f geometry) | None => ZoneFamilyQuality (tp_ID spec) dec geometry end;
     match Candidate (mkCandidateSpec (tp_ID spec) (tp_Version spec) setupKey symbol direction low high invalidation (tp_InvalidationLabel spec) t.1 t.2
       evidence scored formedAt confirmedAt (tp_ExpiryHours spec) (tp_Fingerprint spec)) with
     | Ok c => Some (with_decision c dec spec)
     | Err _ => None
     end, refusals).

(** * technique_decision.go: the confirmed technique of a strategy *)

Definition with_frozen (s : TechniqueSource) (frozen : bool) : TechniqueSource :=
  mkSource (ts_Detector s) (ts_Instances s) (ts_HigherInstances s) (ts_RetestMaxTouches s) (ts_MaximumZoneTouches s) frozen.
(** The decisions in order; [None] is a panic of one of them. *)
Definition confirmed_decisions (u : Unicode) (s : TechniqueSource) (technique : string) : option (list TechniqueDecision) :=
  if bool_decide (technique = "confluence_zone") then dec ← ConfluenceZone u s; Some (option_list dec)
  else dec ← Technique u s technique; higher ← HigherTechnique u s technique; Some (option_list dec ++ option_list higher).
Fixpoint publish_decisions (symbol direction : string) (spec : TechniqueSpec) (decisions : list TechniqueDecision) (refusals : Refusals) :
    list Opportunity.Candidate * Refusals :=
  match decisions with
  | [] => ([], refusals)
  | dec :: rest =>
      if negb (bool_decide (direction = "")) && negb (bool_decide (td_Direction dec = direction)) then publish_decisions symbol direction spec rest refusals
      else
        let '(candidate, refusals) := TechniqueCandidate symbol dec spec refusals in
        let '(out, refusals) := publish_decisions symbol direction spec rest refusals in
        (option_list candidate ++ out, refusals)
  end.
Definition confirmedTechnique (u : Unicode) (symbol : string) (read : option LegacyRead) (frames : gmap string FrameView) (settings : LegacyDetectorSettings)
    (technique direction : string) (spec : TechniqueSpec) (frozen : bool) (refusals : Refusals) : option (list Opportunity.Candidate * Refusals) :=
  match NewTechniqueSource read frames tf_M5 settings with
  | None => Some ([], refusals)
  | Some source =>
      decisions ← confirmed_decisions u (with_frozen source frozen) technique; Some (publish_decisions symbol direction spec decisions refusals)
  end.
Definition ConfirmedTechnique u symbol read frames settings technique direction spec refusals :=
  confirmedTechnique u symbol read frames settings technique direction spec false refusals.
Definition ConfirmedFrozenTechnique u symbol read frames settings technique direction spec refusals :=
  confirmedTechnique u symbol read frames settings technique direction spec true refusals.
End candidates.

(** * Lemmas: quality *)

Definition score_ops (l : list (string * float)) : list Quality.op := map (λ p, Quality.OpScore p.1 p.2) l.
Definition measure_ops (l : list (string * float)) : list Quality.op := map (λ p, Quality.OpMeasure p.1 p.2) l.
Lemma fold_None {A B} (f : A → B → option A) l : foldl (λ m p, m ← m; f m p) None l = None.
Proof. by induction l. Qed.
Lemma scores_run m l : scores m l = (m ≫= λ m, Quality.run m (score_ops l)).
Proof.
  unfold scores. revert m. induction l as [|p l IH]; intros [m|]; cbn [foldl mbind option_bind Quality.run score_ops map Quality.apply_op];
    [done|done| |apply fold_None].
  destruct (Quality.Score m p.1 p.2) as [m0|]; [apply (IH (Some m0))|apply fold_None].
Qed.
Lemma measures_run m l : measures m l = (m ≫= λ m, Quality.run m (measure_ops l)).
Proof.
  unfold measures. revert m. induction l as [|p l IH]; intros [m|]; cbn [foldl mbind option_bind Quality.run measure_ops map Quality.apply_op];
    [done|done| |apply fold_None].
  destruct (Quality.Measure m p.1 p.2) as [m0|]; [apply (IH (Some m0))|apply fold_None].
Qed.
Lemma run_then m a b : (Quality.run m a ≫= λ m, Quality.run m b) = Quality.run m (a ++ b).
Proof. by rewrite Quality.run_app. Qed.
(** The dimensions every confirmed reaction shares, as operations on the model. *)
Definition shared_ops (dec : TechniqueDecision) (g : QualityGeometry) : list Quality.op :=
  let d := td_Detector dec in let buy := bool_decide (td_Direction dec = Market.Buy) in
  let rejection := match td_Confirmation dec with
    | Some c => Quality.RejectionScore (lf_Bars (d_Frame d)) (Z.of_nat (lc_TouchIndex c)) (Z.of_nat (lc_ConfirmationIndex c)) buy
    | None => 0%float
    end in
  let '(room, rewardRisk) := Quality.GeometryRoom (g_Reference g) (g_Invalidation g) (g_Target g) (g_Structural g) in
  score_ops [("rejection", rejection); ("entry_location", Quality.LocationScore (d_Price d) (g_Reference g) (g_ATR g))] ++
  measure_ops (if (g_ATR g >? 0)%float then [("entry_chase_atr", abs (d_Price d - g_Reference g) / g_ATR g)%float] else []) ++
  score_ops [("structure", Quality.StructureScore buy (lf_Structure (d_Frame d)) (RecentCHoCH d (Z.max 1 (ReactionLookbackBars (d_Settings d))))
    (HTFAligned d)); ("room", room)] ++ measure_ops [("room_reward_risk", rewardRisk)].
Lemma shared_run m dec g : SharedReactionDimensions m dec g = (m ≫= λ m, Quality.run m (shared_ops dec g)).
Proof.
  unfold SharedReactionDimensions, shared_ops. destruct (Quality.GeometryRoom _ _ _ _) as [room rewardRisk].
  destruct m as [m|]; rewrite !measures_run, !scores_run; destruct (g_ATR g >? 0)%float; rewrite ?measures_run, ?scores_run; cbn [mbind option_bind]; try done;
    rewrite !run_then; done.
Qed.
Lemma family_run name dec g :
  ∃ m, ZoneFamilyQuality name dec g = Some (Opportunity.mkQuality (Quality.Overall m) (Quality.Components m)) ∧ Quality.unit_score (Quality.Overall m).
Proof.
  unfold ZoneFamilyQuality. destruct (zone_measures dec g) as [[departure width] touches]. rewrite shared_run, !measures_run, !scores_run. cbn [mbind option_bind].
  rewrite !run_then. match goal with |- context [Quality.run (Quality.New ?n) ?o] => destruct (Quality.run_named n o) as (m & -> & Hm) end;
    [unfold shared_ops; destruct (Quality.GeometryRoom _ _ _ _), (g_ATR g >? 0)%float; done..|]. cbn [mbind option_bind]. by exists m.
Qed.

(** * Theorems *)

(** The zone family's quality model never panics, and the overall quality it publishes is a finite number between zero and one,
    whatever the decision and its geometry. *)
Theorem zone_family_quality_total name dec g :
  ∃ q, ZoneFamilyQuality name dec g = Some q ∧ Quality.unit_score (Opportunity.q_Overall q).
Proof. destruct (family_run name dec g) as (m & -> & Hm). by eexists. Qed.

Lemma candidate_spec hash spec c : Candidate hash spec = Ok c →
  Opportunity.candidate_sound c ∧ Opportunity.ca_Direction c = cd_Direction spec ∧ Opportunity.ca_Symbol c = cd_Symbol spec ∧
  Opportunity.ca_Entry c = Opportunity.mkEntryZone (cd_EntryLow spec) (cd_EntryHigh spec) ∧
  Opportunity.ca_Invalidation c = mkPriceLevel (cd_Invalidation spec) (cd_InvalidationLabel spec) ∧
  Opportunity.ca_FormedAt c = cd_FormedAt spec ∧ Opportunity.ca_CreatedAt c = cd_ConfirmedAt spec ∧ Opportunity.ca_Technical c = None ∧
  Opportunity.ca_Evidence c = cd_Evidence spec.
Proof.
  unfold Candidate. destruct (Opportunity.DeterministicID _ _) as [id|]; [|done]. destruct (Opportunity.Validate _) eqn:E; [done|].
  intros H. injection H as <-. split; [by apply Opportunity.Validate_sound_aux|done].
Qed.
(** The fields a decision adds keep a sound candidate sound, when its reaction is timed as the candidate is. *)
Lemma candidate_target hash spec c : Candidate hash spec = Ok c →
  Opportunity.ca_Targets c = [mkPriceLevel (cd_Target spec) (cd_TargetLabel spec)] ∧
  Opportunity.ca_Quality c = cd_Quality spec.
Proof.
  unfold Candidate. destruct (Opportunity.DeterministicID _ _) as [id|]; [|done]. destruct (Opportunity.Validate _) eqn:E; [done|].
  intros H. by injection H as <-.
Qed.
Lemma with_decision_sound c dec spec :
  Opportunity.candidate_sound c →
  (∀ conf, td_Confirmation dec = Some conf → Opportunity.ca_FormedAt c = lc_TouchTime conf ∧ Opportunity.ca_CreatedAt c = lc_ConfirmationTime conf) →
  Opportunity.candidate_sound (with_decision c dec spec).
Proof.
  intros [H1 H2 H3 H4 H5 H6 H7 H8 H9 H10] Ht. split; cbn; try done. intros r Hr. destruct (td_Confirmation dec) as [conf|]; [|by apply H8].
  injection Hr as <-. cbn. destruct (Ht conf eq_refl) as [E1 E2]. lia.
Qed.
(** The stop asked for, and the reference edge the risk is measured from. *)
Definition near_edge (dec : TechniqueDecision) : float := if bool_decide (td_Direction dec = Market.Sell) then EntryLow dec else EntryHigh dec.
Definition asked_stop (dec : TechniqueDecision) (spec : TechniqueSpec) : float :=
  let d := td_Detector dec in let r := td_Result dec in let buffer := (tp_InvalidationBufferATR spec * d_ATR d)%float in
  if tp_AnchorToReaction spec
  then (ReactionAnchoredInvalidation (lf_Bars (d_Frame d)) (td_Confirmation dec) (td_Direction dec) (r_StructuralLow r) (r_StructuralHigh r) buffer).1
  else structLowOrHigh (td_Direction dec) (r_StructuralLow r) (r_StructuralHigh r) buffer.
Lemma technique_candidate_built hash symbol dec spec refusals c refusals' :
  TechniqueCandidate hash symbol dec spec refusals = (Some c, refusals') →
  refusals' = refusals ∧
  (Active (tp_StopBudget spec) = true → (MaxPips (tp_StopBudget spec) >? 0)%float = true →
    (risk_pips (tp_StopBudget spec) (near_edge dec) (asked_stop dec spec) >? MaxPips (tp_StopBudget spec) + 1e-9)%float = false) ∧
  ∃ built c0, Candidate hash built = Ok c0 ∧ c = with_decision c0 dec spec ∧ cd_Direction built = td_Direction dec ∧
    cd_EntryLow built = EntryLow dec ∧ cd_EntryHigh built = EntryHigh dec ∧ cd_Invalidation built = asked_stop dec spec ∧
    ∀ conf, td_Confirmation dec = Some conf → cd_FormedAt built = lc_TouchTime conf ∧ cd_ConfirmedAt built = lc_ConfirmationTime conf.
Proof.
  unfold TechniqueCandidate. cbv zeta. fold (near_edge dec). set (pair := if tp_AnchorToReaction spec then _ else _).
  assert (Ep : pair.1 = asked_stop dec spec) by (unfold pair, asked_stop; by destruct (tp_AnchorToReaction spec)).
  destruct pair as [invalidation anchored]. cbn in Ep. subst invalidation.
  destruct (Apply _ _ _ _) as [[code publish] refused] eqn:Ea. destruct publish; cbn [negb]; [|done].
  assert (Hap : refused = refusals ∧ (Active (tp_StopBudget spec) = true → (MaxPips (tp_StopBudget spec) >? 0)%float = true →
    (risk_pips (tp_StopBudget spec) (near_edge dec) (asked_stop dec spec) >? MaxPips (tp_StopBudget spec) + 1e-9)%float = false)).
  { unfold Apply in Ea. destruct (Active _); cbn [negb] in Ea; [|by injection Ea as _ <-]. match type of Ea with (if ?b then _ else _) = _ => destruct b eqn:Eg; [done|] end.
    split; [by match type of Ea with (if ?b then _ else _) = _ => destruct b end; injection Ea as _ <-|]. intros _ Hmax. by rewrite Hmax in Eg. }
  destruct Hap as [-> Hcap]. intros Hc.
  match type of Hc with (?e, _) = _ => destruct e as [c'|] eqn:Eb; [|done] end. injection Hc as <- <-. split; [done|]. split; [done|].
  destruct (match tp_Target spec with Some _ => _ | None => _ end) as [t|]; [|done]. cbn [mbind option_bind] in Eb.
  destruct (match td_Confirmation dec with Some _ => _ | None => _ end) as [[formedAt confirmedAt] setupKey] eqn:Et.
  destruct (match td_Score dec with Some _ => _ | None => _ end) as [scored|]; [|done]. cbn [mbind option_bind] in Eb.
  destruct (Candidate hash _) as [c0|] eqn:Ec; [|done]. injection Eb as <-. eexists _, c0. split_and!; [exact Ec|done..|].
  intros conf Ef. rewrite Ef in Et. by injection Et as <- <- _.
Qed.
(** The nearest pool of one side at least a distance away, whatever order the pools are in. *)
Definition pool_distance (sell : bool) (reference : float) (p : Pool) : float := if sell then (reference - p_Level p)%float else (p_Level p - reference)%float.
Record nearest_pool (pools : list Pool) (sell : bool) (reference minimum : float) (p : Pool) : Prop := {
  np_pool : p ∈ pools ∧ p_Side p = if sell then "sell" else "buy";
  np_away : (pool_distance sell reference p >=? minimum)%float = true;
  np_nearest : ∀ q, q ∈ pools → p_Side q = (if sell then "sell" else "buy") → (pool_distance sell reference q >=? minimum)%float = true →
    (pool_distance sell reference p <=? pool_distance sell reference q)%float = true
}.
Lemma target_fold sell reference minimum pools : ∀ best,
  IsNaN best.2 = false →
  let r := foldl (target_step sell reference minimum) best pools in
  IsNaN r.2 = false ∧ (key r.2 <= key best.2)%Z ∧
  (r = best ∨ ∃ p, p ∈ pools ∧ p_Side p = (if sell then "sell" else "buy") ∧ (pool_distance sell reference p >=? minimum)%float = true ∧
    r = (p_Level p, pool_distance sell reference p)) ∧
  ∀ q, q ∈ pools → p_Side q = (if sell then "sell" else "buy") → (pool_distance sell reference q >=? minimum)%float = true →
    (key r.2 <= key (pool_distance sell reference q))%Z.
Proof.
  induction pools as [|p pools IH]; intros best Hb; cbn [foldl]; [split_and!; [done|lia|by left|by intros q ?%not_elem_of_nil]|].
  assert (Hs : let b := target_step sell reference minimum best p in IsNaN b.2 = false ∧ (key b.2 <= key best.2)%Z ∧
    (b = best ∨ p_Side p = (if sell then "sell" else "buy") ∧ (pool_distance sell reference p >=? minimum)%float = true ∧
      b = (p_Level p, pool_distance sell reference p)) ∧
    (p_Side p = (if sell then "sell" else "buy") → (pool_distance sell reference p >=? minimum)%float = true → (key b.2 <= key (pool_distance sell reference p))%Z)).
  { unfold target_step. cbv zeta. fold (pool_distance sell reference p). case_bool_decide as Hside; cbn [negb]; [|split_and!; [done|lia|by left|done]].
    destruct (pool_distance sell reference p >=? minimum)%float eqn:Em; cbn [andb]; [|split_and!; [done|lia|by left|done]].
    assert (Nd : IsNaN (pool_distance sell reference p) = false) by (rewrite leb_key in Em; by destruct (IsNaN (pool_distance _ _ _)); [rewrite andb_false_r in Em|]).
    destruct (_ <? best.2)%float eqn:El; rewrite ltb_num in El by done; cbn [snd]; [split_and!; [done|lia|by right|lia]|split_and!; [done|lia|by left|lia]]. }
  cbv zeta in Hs. destruct Hs as (H1 & H2 & H3 & H4). destruct (IH _ H1) as (I1 & I2 & I3 & I4). split_and!; [done|lia| |].
  - destruct I3 as [->|(q & Hq & ?)]; [|right; exists q; split; [by right|done]]. destruct H3 as [->|?]; [by left|right; exists p; split; [by left|done]].
  - intros q [->|Hq]%elem_of_cons Hside Hm; [specialize (H4 Hside Hm); lia|by apply I4].
Qed.
Lemma nearest_target_pool d direction reference invalidation minimum t :
  nearestOpposingTarget d direction reference invalidation minimum = Some (t, "nearest_opposing_liquidity") →
  ∃ p, nearest_pool (lf_Pools (d_Frame d)) (bool_decide (direction = Market.Sell)) reference minimum p ∧ t = p_Level p.
Proof.
  unfold nearestOpposingTarget. set (sell := bool_decide _). cbv zeta.
  destruct (target_fold sell reference minimum (lf_Pools (d_Frame d)) (0%float, infinity) eq_refl) as (N & _ & H & Hall).
  destruct (foldl _ _ _) as [best distance]. cbn [snd] in *. destruct (distance =? infinity)%float eqn:Ei; cbn [negb].
  { destruct (_ <=? 0)%float; [done|]. by intros [= ]. }
  intros [= <-]. destruct H as [[= _ ->]|(p & Hp & Hside & Hm & [= -> ->])]; [done|]. exists p. split; [|done]. split; [done|done|].
  intros q Hq Hqs Hqm. rewrite leb_num; [apply Z.leb_le; auto|done|].
  rewrite leb_key in Hqm. destruct (IsNaN (pool_distance sell reference q)); [by rewrite andb_false_r in Hqm|done].
Qed.
(** A strategy that asks for a structural target gets the price of a pool, never a multiple of the risk. *)
Lemma technique_candidate_structural hash symbol dec spec refusals c refusals' :
  TechniqueCandidate hash symbol dec spec refusals = (Some c, refusals') → tp_Target spec = None → tp_RequireStructuralTarget spec = true →
  ∃ t, nearestOpposingTarget (td_Detector dec) (td_Direction dec) (near_edge dec) (asked_stop dec spec)
      (tp_MinimumTargetDistanceATR spec * d_ATR (td_Detector dec))%float = Some (t, "nearest_opposing_liquidity") ∧
    Opportunity.ca_Targets c = [mkPriceLevel t "nearest_opposing_liquidity"].
Proof.
  unfold TechniqueCandidate. cbv zeta. fold (near_edge dec). set (pair := if tp_AnchorToReaction spec then _ else _).
  assert (Ep : pair.1 = asked_stop dec spec) by (unfold pair, asked_stop; by destruct (tp_AnchorToReaction spec)).
  destruct pair as [invalidation anchored]. cbn in Ep. subst invalidation.
  destruct (Apply _ _ _ _) as [[code publish] refused]. destruct publish; cbn [negb]; [|done]. intros Hc Ht Hr. rewrite Ht, Hr in Hc. cbn [andb] in Hc.
  match type of Hc with (?e, _) = _ => destruct e as [c'|] eqn:Eb; [|done] end. injection Hc as <- <-.
  destruct (nearestOpposingTarget _ _ _ _ _) as [[t label]|] eqn:En; cbn [mbind option_bind snd] in Eb; [|done].
  destruct (bool_decide (label = "nearest_opposing_liquidity")) eqn:El; cbn [negb mbind option_bind] in Eb; [|done]. apply bool_decide_eq_true in El as ->.
  destruct (match td_Confirmation dec with Some _ => _ | None => _ end) as [[formedAt confirmedAt] setupKey].
  destruct (match td_Score dec with Some _ => _ | None => _ end) as [scored|]; [|done]. cbn [mbind option_bind] in Eb.
  destruct (Candidate hash _) as [c0|] eqn:Ec; [|done]. injection Eb as <-. exists t. split; [done|]. apply candidate_target in Ec as [Et _]. exact Et.
Qed.
(** [C7] An opportunity built from a technique's decision satisfies the candidate contract: positive entry width, the stop strictly
    beyond the entry on the losing side, every target strictly beyond it on the winning side, causal times. Its entry is the
    decision's band, its identity the structure's, its stop the reaction's or the structure's as the strategy asks, its times those
    of the reaction; the instrument's stop cap holds from the near edge, and no refusal was counted. *)
Theorem technique_candidate_sound hash symbol dec spec refusals c refusals' :
  TechniqueCandidate hash symbol dec spec refusals = (Some c, refusals') →
  let d := td_Detector dec in let r := td_Result dec in
  let buffer := (tp_InvalidationBufferATR spec * d_ATR d)%float in
  let near := if bool_decide (td_Direction dec = Market.Sell) then EntryLow dec else EntryHigh dec in
  let stop := if tp_AnchorToReaction spec
    then (ReactionAnchoredInvalidation (lf_Bars (d_Frame d)) (td_Confirmation dec) (td_Direction dec) (r_StructuralLow r) (r_StructuralHigh r) buffer).1
    else structLowOrHigh (td_Direction dec) (r_StructuralLow r) (r_StructuralHigh r) buffer in
  Opportunity.candidate_sound c ∧ refusals' = refusals ∧ Opportunity.ca_Direction c = td_Direction dec ∧
  Opportunity.ca_Entry c = Opportunity.mkEntryZone (EntryLow dec) (EntryHigh dec) ∧ Opportunity.ca_StructuralID c = td_ID dec ∧
  pl_Price (Opportunity.ca_Invalidation c) = stop ∧
  (∀ conf, td_Confirmation dec = Some conf → Opportunity.ca_FormedAt c = lc_TouchTime conf ∧ Opportunity.ca_CreatedAt c = lc_ConfirmationTime conf) ∧
  (Active (tp_StopBudget spec) = true → (MaxPips (tp_StopBudget spec) >? 0)%float = true →
    (risk_pips (tp_StopBudget spec) near stop >? MaxPips (tp_StopBudget spec) + 1e-9)%float = false).
Proof.
  intros H d r buffer near stop. destruct (technique_candidate_built _ _ _ _ _ _ _ H) as (-> & Hcap & built & c0 & Ec & -> & B1 & B2 & B3 & B4 & Ht).
  apply candidate_spec in Ec as (Hs & E1 & E2 & E3 & E4 & E5 & E6 & _). cbn in E1, E3, E4, E5, E6.
  assert (Htimes : ∀ conf, td_Confirmation dec = Some conf → Opportunity.ca_FormedAt c0 = lc_TouchTime conf ∧ Opportunity.ca_CreatedAt c0 = lc_ConfirmationTime conf).
  { intros conf Ef. by rewrite E5, E6; apply Ht. }
  split_and!; [by apply with_decision_sound|done|cbn; congruence|cbn; congruence|done|cbn; rewrite E4; exact B4|exact Htimes|exact Hcap].
Qed.
Lemma publish_decisions_from hash symbol direction spec decisions : ∀ refusals cs refusals',
  publish_decisions hash symbol direction spec decisions refusals = (cs, refusals') →
  length cs ≤ length decisions ∧ ∀ c, c ∈ cs → ∃ dec, dec ∈ decisions ∧ (direction = "" ∨ td_Direction dec = direction) ∧
    Opportunity.candidate_sound c ∧ Opportunity.ca_Direction c = td_Direction dec ∧ Opportunity.ca_StructuralID c = td_ID dec.
Proof.
  induction decisions as [|dec rest IH]; intros refusals cs refusals'; cbn [publish_decisions].
  { intros [= <- _]. split; [done|]. by intros c ?%not_elem_of_nil. }
  destruct (negb _ && negb _) eqn:Ed.
  { intros H. destruct (IH _ _ _ H) as [Hl Hc]. split; [cbn; lia|]. intros c (d & ? & ?)%Hc. exists d. split; [by right|done]. }
  destruct (TechniqueCandidate _ _ dec spec refusals) as [candidate r1] eqn:Ec. destruct (publish_decisions _ _ _ _ rest r1) as [out r2] eqn:Er.
  intros [= <- _]. destruct (IH _ _ _ Er) as [Hl Hc]. split; [destruct candidate; cbn; lia|]. intros c [Hin|(d & ? & ?)%Hc]%elem_of_app; [|exists d; split; [by right|done]].
  destruct candidate as [c'|]; [|by apply not_elem_of_nil in Hin]. apply list_elem_of_singleton in Hin as ->. exists dec. split; [by left|]. split.
  { rewrite andb_false_iff, !negb_false_iff, !bool_decide_eq_true in Ed. done. }
  destruct (technique_candidate_built _ _ _ _ _ _ _ Ec) as (_ & _ & built & c0 & Eb & -> & B1 & B2 & B3 & B4 & Ht).
  apply candidate_spec in Eb as (Hs & E1 & E2 & E3 & E4 & E5 & E6 & _). split_and!; [|cbn; congruence|done]. apply with_decision_sound; [done|].
  intros conf Ef. by rewrite E5, E6; apply Ht.
Qed.
(** A strategy's confirmed technique yields at most one opportunity of the execution frame and one of the higher ones, each one sound, of
    the side asked for and named after the decision of the frame it publishes. *)
Theorem confirmed_technique_sound hash u symbol read frames settings technique direction spec frozen refusals cs refusals' :
  confirmedTechnique hash u symbol read frames settings technique direction spec frozen refusals = Some (cs, refusals') →
  length cs ≤ 2 ∧ ∀ c, c ∈ cs → Opportunity.candidate_sound c ∧ (direction = "" ∨ Opportunity.ca_Direction c = direction) ∧
    ∃ source decisions dec, NewTechniqueSource read frames tf_M5 settings = Some source ∧
      confirmed_decisions u (with_frozen source frozen) technique = Some decisions ∧ dec ∈ decisions ∧ Opportunity.ca_StructuralID c = td_ID dec.
Proof.
  unfold confirmedTechnique. destruct (NewTechniqueSource read frames tf_M5 settings) as [source|].
  2: { intros [= <- _]. split; [cbn; lia|]. by intros c ?%not_elem_of_nil. }
  destruct (confirmed_decisions u (with_frozen source frozen) technique) as [decisions|] eqn:Ed; [|done]. cbn [mbind option_bind]. intros [= H].
  assert (Hlen : length decisions ≤ 2).
  { unfold confirmed_decisions in Ed. destruct (bool_decide _).
    - destruct (ConfluenceZone _ _) as [o|]; [|done]. injection Ed as <-. destruct o; cbn; lia.
    - destruct (Technique _ _ _) as [o|]; [|done]. destruct (HigherTechnique _ _ _) as [o'|]; [|done]. injection Ed as <-. destruct o, o'; cbn; lia. }
  destruct (publish_decisions_from _ _ _ _ _ _ _ _ H) as [Hl Hc]. split; [lia|]. intros c (dec & ? & ? & ? & E & ?)%Hc. rewrite E.
  split; [done|]. split; [done|]. by exists source, decisions, dec.
Qed.
(** The order block of the demonstration, published with a stop under the reaction's low. *)
Definition demo_spec : TechniqueSpec :=
  mkTechniqueSpec "demand" "1.0.0" "demand_zone" "demand_rejection" "demand_broken" 0.125 1 4 "fp" None false (Opportunity.mkProvenance "" "" "" 0 "")
    true (mkStopBudget 50 10 0.0625 0) true.
Lemma technique_candidate_sound_witness :
  ∃ dec c, publish ascii_unicode demo_source (demo_instance "order_block" 8.875 9.125 9) = Some (Some dec) ∧
    TechniqueCandidate (λ s, s) "XAUUSD" dec demo_spec (Some 0%Z) = (Some c, Some 0%Z) ∧ Opportunity.candidate_sound c ∧
    Opportunity.ca_Evidence c = ["demand_zone"; "demand_rejection"; ReactionExtremeEvidence; StopBudgetFloorEvidence].
Proof.
  destruct (publish ascii_unicode demo_source (demo_instance "order_block" 8.875 9.125 9)) as [[dec|]|] eqn:E; [|vm_compute in E; discriminate E..].
  exists dec. destruct (TechniqueCandidate (λ s, s) "XAUUSD" dec demo_spec (Some 0%Z)) as [[c|] r] eqn:Ec;
    [|vm_compute in E; injection E as <-; vm_compute in Ec; discriminate Ec].
  pose proof (technique_candidate_sound _ _ _ _ _ _ _ Ec) as (H & Hr & _). exists c. rewrite Hr. split; [reflexivity|]. split; [reflexivity|].
  split; [exact H|]. vm_compute in E. injection E as <-. vm_compute in Ec. injection Ec as <- _. reflexivity.
Defined.
