(* ===== verification/LevelEpisode.v ===== *)
(** Package strategyutil, level_episode.go: the two sequences a price level can host, a sweep that is reclaimed and turns the structure, and
    a break that is accepted, retested and rejected. *)
From S2P Require Import Prelude Float64 Market.
From S2P Require Indicator.
From Stdlib Require Import Floats.

(** * Data *)

Definition LevelReasonSweepTooDeep : string := "sweep_too_deep".
Definition LevelReasonAccepted : string := "accepted_not_swept".
Definition LevelReasonReclaimExpired : string := "reclaim_window_expired".
Definition LevelReasonReclaimLost : string := "reclaim_lost".
Definition LevelReasonNoStructure : string := "no_structure_reference".
Definition LevelReasonMSSExpired : string := "mss_window_expired".
Definition LevelReasonMSSQuality : string := "mss_quality_insufficient".
Definition LevelReasonATRUnavailable : string := "atr_unavailable".
Definition LevelReasonBreakFailed : string := "break_failed".
Definition LevelReasonRetestNotRejected : string := "retest_not_rejected".
Definition LevelReasonStaleRetest : string := "stale_retest".
Definition LevelReasonNoRetest : string := "no_retest".
Definition levelBarSeconds : Z := 300.

Record LevelSweepParams := mkSweepParams {
  sp_PipSize : float; MinSweepPips : float; MinSweepATR : float; MaxSweepPips : float; MinReclaimPips : float; MinReclaimATR : float;
  ReclaimMaxBars : Z; sp_AcceptanceCloses : Z; PivotBars : nat; LookbackBars : Z; MSSMaxBars : Z; MinMSSBody : float; MinMSSDisplacement : float;
  MinMSSCloseStrength : float; sp_ConfirmationMaxAge : Z; sp_MinWickRatio : float; RequireOrigin : bool
}.
Record LevelEpisode := mkEpisode {
  ep_Sweep : nat; ep_Reclaim : nat; ep_Confirm : nat; ep_Extreme : nat; ep_ShiftLevel : float; ep_ShiftPivot : nat; ep_BodyRatio : float;
  ep_DisplacementATR : float; ep_CloseStrength : float; ep_WickRejection : bool; ep_Depth : float
}.
Record LevelRejection := mkRejection { rj_Reason : string; rj_Sweep : nat }.

(** * Sweeps *)

Definition is_pivot_high (bars : list Candle) (n p : nat) : bool :=
  forallb (λ k, negb ((c_High (bars !!! (p - k)%nat) >=? c_High (bars !!! p)) || (c_High (bars !!! (p + k)%nat) >=? c_High (bars !!! p)))%float) (seq 1 n).
Definition PivotHighs (bars : list Candle) (n : nat) : list nat := List.filter (is_pivot_high bars n) (seq n (length bars - 2 * n)).
Definition barsBetween (bars : list Candle) (from to : nat) : Z := Z.quot (c_Time (bars !!! to) - c_Time (bars !!! from)) levelBarSeconds.
(** A reading of the volatility window: the cache it fills never changes one. *)
Definition reading (atr : Indicator.WilderWindow) (i : nat) : option float := fst (Indicator.ww_At atr (Z.of_nat i)).

Inductive episode_outcome :=
  | episodePending
  | episodeVoid (reason : string) (resume : nat)
  | episodeConfirmed (e : LevelEpisode).
Inductive reclaim_outcome :=
  | Reclaimed (r : nat)
  | Unavailable (j : nat)
  | AcceptedAt (j : nat)
  | Unreclaimed.
Section sweeps.
Context (bars : list Candle) (atr : Indicator.WilderWindow) (level : float) (p : LevelSweepParams).

Definition reclaim_buffer (a : float) : float := math_Max (MinReclaimPips p * sp_PipSize p) (MinReclaimATR p * a).
Fixpoint reclaim_loop (s0 : nat) (l : list nat) (below : Z) : reclaim_outcome :=
  match l with
  | [] => Unreclaimed
  | j :: rest =>
      if negb (barsBetween bars s0 j <=? ReclaimMaxBars p)%Z then Unreclaimed
      else
        match reading atr j with
        | None => Unavailable j
        | Some a =>
            if (c_Close (bars !!! j) >=? level + reclaim_buffer a)%float then Reclaimed j
            else
              let below := if (c_Close (bars !!! j) <? level)%float then (below + 1)%Z else 0%Z in
              if (sp_AcceptanceCloses p >? 0)%Z && (below >=? sp_AcceptanceCloses p)%Z then AcceptedAt j else reclaim_loop s0 rest below
        end
  end.
Definition lowest (s0 r : nat) : nat :=
  foldl (λ e j, if (c_Low (bars !!! j) <? c_Low (bars !!! e))%float then j else e) s0 (seq s0 (S r - s0)).
Definition wick_rejected (s0 r : nat) : bool :=
  existsb (λ j, (c_Close (bars !!! j) >? c_Open (bars !!! j))%float && (LowerWickRatio (bars !!! j) >=? sp_MinWickRatio p)%float) (seq s0 (S r - s0)).
(** The most recent pivot that qualifies, over the pivots from the latest. *)
Fixpoint structure_level (rev_pivots : list nat) (extreme j : nat) : option (float * nat) :=
  match rev_pivots with
  | [] => None
  | pv :: rest =>
      if (j <=? pv + PivotBars p)%nat || (extreme <=? pv)%nat then structure_level rest extreme j
      else if (Z.of_nat pv <? Z.of_nat extreme - LookbackBars p)%Z then None
      else if (c_High (bars !!! pv) >? level)%float then Some (c_High (bars !!! pv), pv)
      else structure_level rest extreme j
  end.
Definition structureLevel (extreme j : nat) : option (float * nat) := structure_level (reverse (PivotHighs bars (PivotBars p))) extreme j.
Definition shift_quality (c : Candle) (a : float) : bool :=
  (c_Close c >? c_Open c)%float && negb (BodyRatio c <? MinMSSBody p)%float && negb ((c_Close c - c_Open c) / a <? MinMSSDisplacement p)%float &&
  negb (CloseLocation c <? MinMSSCloseStrength p)%float.
Inductive shift_outcome :=
  | Shifted (j pivot : nat) (shift a : float)
  | Lost (j : nat)
  | Unshifted (anyReference sawBreak : bool).
Fixpoint shift_loop (r extreme : nat) (l : list nat) (anyReference sawBreak : bool) : shift_outcome :=
  match l with
  | [] => Unshifted anyReference sawBreak
  | j :: rest =>
      if negb (barsBetween bars r j <=? MSSMaxBars p)%Z then Unshifted anyReference sawBreak
      else
        let c := bars !!! j in
        if (c_Close c <? level)%float then Lost j
        else
          match structureLevel extreme j with
          | None => shift_loop r extreme rest anyReference sawBreak
          | Some (shift, pivot) =>
              if negb (c_Close c >? shift)%float then shift_loop r extreme rest true sawBreak
              else
                match reading atr j with
                | None => shift_loop r extreme rest true sawBreak
                | Some a => if shift_quality c a then Shifted j pivot shift a else shift_loop r extreme rest true true
                end
          end
  end.
(** The bars from [j] to the last. *)
Definition from_bar (j : nat) : list nat := seq j (length bars - j).
Definition asOf : nat := length bars - 1.
Definition runSweep (s0 : nat) : episode_outcome :=
  match reclaim_loop s0 (from_bar s0) 0 with
  | Unavailable j => episodeVoid LevelReasonATRUnavailable (j + 1)
  | AcceptedAt j => episodeVoid LevelReasonAccepted (j + 1)
  | Unreclaimed =>
      if (barsBetween bars s0 asOf <? ReclaimMaxBars p)%Z then episodePending
      else episodeVoid LevelReasonReclaimExpired
        (match List.find (λ j, (c_Close (bars !!! j) >=? level)%float) (from_bar (s0 + 1)) with Some j => j + 1 | None => asOf + 1 end)
  | Reclaimed r =>
      let extreme := lowest s0 r in
      let depth := (level - c_Low (bars !!! extreme))%float in
      if (MaxSweepPips p >? 0)%float && (depth >? MaxSweepPips p * sp_PipSize p)%float then episodeVoid LevelReasonSweepTooDeep (r + 1)
      else
        match shift_loop r extreme (from_bar (r + 1)) false false with
        | Lost j => episodeVoid LevelReasonReclaimLost j
        | Shifted j pivot shift a =>
            let c := bars !!! j in
            episodeConfirmed (mkEpisode s0 r j extreme shift pivot (BodyRatio c) ((c_Close c - c_Open c) / a)%float (CloseLocation c) (wick_rejected s0 r) depth)
        | Unshifted anyReference sawBreak =>
            if (barsBetween bars r asOf <? MSSMaxBars p)%Z then episodePending
            else episodeVoid (if negb anyReference then LevelReasonNoStructure else if sawBreak then LevelReasonMSSQuality else LevelReasonMSSExpired) (r + 1)
        end
  end.
Definition sweeps_at (i : nat) : bool :=
  match reading atr i with
  | None => false
  | Some a =>
      (c_Low (bars !!! i) <? level - math_Max (MinSweepPips p * sp_PipSize p) (MinSweepATR p * a))%float &&
      negb (RequireOrigin p && negb (c_Close (bars !!! (i - 1)%nat) >=? level)%float)
  end.
(** Every turn moves forward; [None] when the fuel runs out. *)
Fixpoint sweep_loop (fuel i to_ : nat) (episodes : list LevelEpisode) (rejections : list LevelRejection) : option (list LevelEpisode * list LevelRejection) :=
  match fuel with
  | O => None
  | S fuel =>
      if (to_ <? i)%nat then Some (episodes, rejections)
      else if negb (sweeps_at i) then sweep_loop fuel (i + 1) to_ episodes rejections
      else
        match runSweep i with
        | episodePending => sweep_loop fuel (asOf + 1) to_ episodes rejections
        | episodeVoid reason resume => sweep_loop fuel resume to_ episodes (rejections ++ [mkRejection reason i])
        | episodeConfirmed e =>
            sweep_loop fuel (ep_Confirm e + 1) to_
              (if (barsBetween bars (ep_Confirm e) asOf <=? sp_ConfirmationMaxAge p)%Z then episodes ++ [e] else episodes) rejections
        end
  end.
Definition FindLevelSweeps (from to_ : Z) : option (list LevelEpisode * list LevelRejection) :=
  let to_ := Z.min to_ (Z.of_nat (length bars) - 1) in
  if (to_ <? 0)%Z then Some ([], []) else sweep_loop (length bars + 2) (Z.to_nat (Z.max 1 from)) (Z.to_nat to_) [] [].
End sweeps.

(** * Retests *)

Record LevelRetestParams := mkRetestParams {
  rp_PipSize : float; rp_AcceptanceCloses : nat; RetestMaxBars : Z; BandBelow : float; BandAbove : float; rp_MinWickRatio : float;
  rp_ConfirmationMaxAge : Z
}.
Record LevelRetest := mkRetest {
  rt_Break : nat; rt_AcceptEnd : nat; rt_Retest : nat; rt_Confirm : nat; rt_RetestLow : float; rt_Engulfing : bool; rt_WickRejection : bool
}.
Inductive retest_outcome :=
  | RetestPending
  | RetestRefused (reason : string)
  | RetestConfirmed (r : LevelRetest).
Inductive touch_outcome :=
  | Touched (j : nat)
  | Failed
  | Untouched.
Section retests.
Context (bars : list Candle) (level : float) (p : LevelRetestParams).

Definition bandLow : float := (level - BandBelow p)%float.
Definition bandHigh : float := (level + BandAbove p)%float.
Fixpoint touch_loop (need : nat) (l : list nat) : touch_outcome :=
  match l with
  | [] => Untouched
  | j :: rest =>
      if negb (barsBetween bars need j <=? RetestMaxBars p)%Z then Untouched
      else if (c_Close (bars !!! j) <? bandLow)%float then Failed
      else if (c_Low (bars !!! j) <=? bandHigh)%float then Touched j
      else touch_loop need rest
  end.
Definition wick_at (j : nat) : bool :=
  let c := bars !!! j in (c_Close c >? bandHigh)%float && (c_Close c >? c_Open c)%float && (LowerWickRatio c >=? rp_MinWickRatio p)%float.
Definition engulf_at (j : nat) : bool :=
  let c := bars !!! j in let b := bars !!! (j - 1)%nat in
  (0 <? j)%nat && (c_Close b <? c_Open b)%float && (c_Close c >? c_Open c)%float && (c_Close c >=? c_Open b)%float && (c_Open c <=? c_Close b)%float &&
  (c_Close c >? level)%float.
Definition rejects_at (j : nat) : bool := wick_at j || engulf_at j.
Definition retest_of (breakIdx need touch j : nat) : LevelRetest :=
  let low := c_Low (bars !!! touch) in
  mkRetest breakIdx need touch j (if (c_Low (bars !!! j) <? low)%float then c_Low (bars !!! j) else low) (engulf_at j && negb (wick_at j)) (wick_at j).
Definition FindLevelRetest (breakIdx : nat) : retest_outcome :=
  let last := (length bars - 1)%nat in let need := (breakIdx + rp_AcceptanceCloses p)%nat in
  match List.find (λ j, (last <? j)%nat || negb (c_Close (bars !!! j) >? level)%float) (seq (breakIdx + 1) (rp_AcceptanceCloses p)) with
  | Some j => if (last <? j)%nat then RetestPending else RetestRefused LevelReasonBreakFailed
  | None =>
      match touch_loop need (seq (need + 1) (length bars - (need + 1))) with
      | Failed => RetestRefused LevelReasonBreakFailed
      | Untouched => if (barsBetween bars need last <? RetestMaxBars p)%Z then RetestPending else RetestRefused LevelReasonNoRetest
      | Touched touch =>
          if rejects_at touch then RetestConfirmed (retest_of breakIdx need touch touch)
          else if (last <? touch + 1)%nat then RetestPending
          else if rejects_at (touch + 1) then RetestConfirmed (retest_of breakIdx need touch (touch + 1))
          else if existsb (λ j, (c_Low (bars !!! j) <=? bandHigh)%float) (seq (touch + 2) (length bars - (touch + 2)))
          then RetestRefused LevelReasonStaleRetest
          else RetestRefused LevelReasonRetestNotRejected
      end
  end.
End retests.

(** * Lemmas: the reclaim *)

Section lemmas.
Context (bars : list Candle) (atr : Indicator.WilderWindow) (level : float) (p : LevelSweepParams).
Notation "'close' j" := (c_Close (bars !!! j)) (at level 10, j at level 9).
Definition is_below (j : nat) : bool := (close j <? level)%float.
Definition reclaims_at (j : nat) : Prop := ∃ a, reading atr j = Some a ∧ (close j >=? level + reclaim_buffer p a)%float = true.
(** No run of closes beyond the level as long as acceptance asks for lies between [s0] and [j]. *)
Definition not_accepted (s0 j : nat) : Prop :=
  ∀ k n, Z.of_nat n = sp_AcceptanceCloses p → (0 < n) → s0 ≤ k → k + n ≤ j → ∃ m, k ≤ m < k + n ∧ is_below m = false.
(** [below] closes in a row before [j] are beyond the level, and the one before them is not. *)
Definition run_before (s0 j : nat) (below : Z) : Prop :=
  (0 <= below <= Z.of_nat j - Z.of_nat s0)%Z ∧ ((Z.of_nat j - below = Z.of_nat s0)%Z ∨ ∃ m, (Z.of_nat m = Z.of_nat j - below - 1)%Z ∧ s0 ≤ m ∧ is_below m = false).
Lemma not_accepted_step s0 j below :
  s0 ≤ j → not_accepted s0 j → run_before s0 j below → ((sp_AcceptanceCloses p <= 0)%Z ∨ (below + 1 < sp_AcceptanceCloses p)%Z ∨ is_below j = false) →
  not_accepted s0 (S j).
Proof.
  intros Hs Hn [Hb Hr] Hlt k n En Hn0 Hk Hle. destruct (decide (k + n ≤ j)) as [|Hgt]; [by apply Hn|].
  destruct (is_below j) eqn:Ej; [|exists j; split; [lia|done]]. destruct Hlt as [?|[Hlt|?]]; [lia| |done].
  destruct Hr as [Hr|(m & Em & Hm & Hbm)]; [lia|]. exists m. split; [lia|done].
Qed.
Lemma run_before_step s0 j below :
  s0 ≤ j → run_before s0 j below → run_before s0 (S j) (if is_below j then below + 1 else 0)%Z.
Proof.
  intros Hs [Hb Hr]. destruct (is_below j) eqn:Ej; split; try lia.
  - destruct Hr as [Hr|(m & Em & Hm & Hbm)]; [left; lia|right]. exists m. split; [lia|done].
  - right. exists j. split; [lia|]. split; [lia|done].
Qed.
(** What the reclaim loop finds, from bar [j] with the counter of a run. *)
Lemma reclaim_loop_spec s0 n : ∀ j below, s0 ≤ j → not_accepted s0 j → run_before s0 j below → (below < Z.max 1 (sp_AcceptanceCloses p))%Z ∨ (sp_AcceptanceCloses p <= 0)%Z →
  match reclaim_loop bars atr level p s0 (seq j n) below with
  | Reclaimed r => j ≤ r < j + n ∧ reclaims_at r ∧ (barsBetween bars s0 r <= ReclaimMaxBars p)%Z ∧ not_accepted s0 r ∧
      (∀ i, j ≤ i < r → is_Some (reading atr i) ∧ ¬ reclaims_at i)
  | Unavailable k => j ≤ k < j + n ∧ reading atr k = None
  | AcceptedAt k => j ≤ k < j + n ∧ is_below k = true
  | Unreclaimed => True
  end.
Proof.
  induction n as [|n IH]; intros j below Hs Hn Hr Hb; cbn [seq reclaim_loop]; [done|].
  destruct (Z.leb_spec (barsBetween bars s0 j) (ReclaimMaxBars p)) as [Hbb|]; cbn [negb]; [|done].
  destruct (reading atr j) as [a|] eqn:Ea; [|split; [lia|done]].
  destruct (close j >=? level + reclaim_buffer p a)%float eqn:Ec.
  { split; [lia|]. split; [by exists a|]. split; [done|]. split; [done|]. intros i Hi. lia. }
  assert (Hnr : ¬ reclaims_at j) by (intros (a' & Ea' & Hc); rewrite Ea in Ea'; injection Ea' as <-; congruence).
  change (c_Close (bars !!! j) <? level)%float with (is_below j). set (below' := (if is_below j then below + 1 else 0)%Z) in *.
  destruct ((sp_AcceptanceCloses p >? 0)%Z && (below' >=? sp_AcceptanceCloses p)%Z) eqn:Eacc.
  { split; [lia|]. destruct (is_below j) eqn:Eb; [done|]. unfold below' in Eacc. lia. }
  assert (Hn' : not_accepted s0 (S j)).
  { apply (not_accepted_step s0 j below); [done|done|done|]. unfold below' in Eacc. destruct (is_below j); [|by right; right]. lia. }
  specialize (IH (S j) below' ltac:(lia) Hn' (run_before_step s0 j below Hs Hr) ltac:(lia)).
  destruct (reclaim_loop bars atr level p s0 (seq (S j) n) below') as [r|k|k|]; [|destruct IH; split; [lia|done]|destruct IH; split; [lia|done]|done].
  destruct IH as (H1 & H2 & H3 & H4 & H5). split_and!; try done; try lia. intros i Hi. destruct (decide (i = j)) as [->|]; [|apply H5; lia].
  split; [by eexists|done].
Qed.

(** * Lemmas: the structure shift *)

Lemma elem_of_pivots n q : q ∈ PivotHighs bars n ↔ (n ≤ q ∧ q + n < length bars) ∧
  ∀ k, 1 ≤ k ≤ n → (c_High (bars !!! (q - k)%nat) >=? c_High (bars !!! q))%float = false ∧ (c_High (bars !!! (q + k)%nat) >=? c_High (bars !!! q))%float = false.
Proof.
  unfold PivotHighs. rewrite in_filter, elem_of_seq. unfold is_pivot_high. rewrite forallb_forall. split.
  - intros [Hq Hk]. split; [lia|]. intros k Hk'. specialize (Hk k). rewrite in_seq in Hk. specialize (Hk ltac:(lia)).
    apply negb_true_iff, orb_false_iff in Hk as [? ?]. done.
  - intros [Hq Hk]. split; [lia|]. intros k Hk'%in_seq. destruct (Hk k ltac:(lia)) as [-> ->]. done.
Qed.
Definition reference_of (extreme j : nat) (shift : float) (pivot : nat) : Prop :=
  pivot ∈ PivotHighs bars (PivotBars p) ∧ pivot + PivotBars p < j ∧ pivot < extreme ∧ (Z.of_nat extreme - LookbackBars p <= Z.of_nat pivot)%Z ∧
  shift = c_High (bars !!! pivot) ∧ (c_High (bars !!! pivot) >? level)%float = true.
Lemma structure_level_spec l extreme j shift pivot :
  structure_level bars level p l extreme j = Some (shift, pivot) → pivot ∈ l ∧ pivot + PivotBars p < j ∧ pivot < extreme ∧
  (Z.of_nat extreme - LookbackBars p <= Z.of_nat pivot)%Z ∧ shift = c_High (bars !!! pivot) ∧ (c_High (bars !!! pivot) >? level)%float = true.
Proof.
  induction l as [|pv l IH]; cbn [structure_level]; [done|].
  destruct ((j <=? pv + PivotBars p) || (extreme <=? pv)) eqn:E1; [intros H%IH; destruct H; split; [by right|done]|].
  apply orb_false_iff in E1 as [E1%Nat.leb_gt E2%Nat.leb_gt]. destruct (Z.ltb_spec (Z.of_nat pv) (Z.of_nat extreme - LookbackBars p)); [done|].
  destruct (c_High (bars !!! pv) >? level)%float eqn:E3; [|intros Hs%IH; destruct Hs; split; [by right|done]].
  intros Hs. injection Hs as <- <-. split; [by left|done].
Qed.
Lemma structureLevel_spec extreme j shift pivot : structureLevel bars level p extreme j = Some (shift, pivot) → reference_of extreme j shift pivot.
Proof. intros H%structure_level_spec. by rewrite elem_of_reverse in H. Qed.
Lemma shift_loop_spec r extreme n : ∀ j anyReference sawBreak,
  match shift_loop bars atr level p r extreme (seq j n) anyReference sawBreak with
  | Shifted c pivot shift a => j ≤ c < j + n ∧ (∀ i, j ≤ i ≤ c → is_below i = false) ∧ (barsBetween bars r c <= MSSMaxBars p)%Z ∧
      reference_of extreme c shift pivot ∧ (close c >? shift)%float = true ∧ reading atr c = Some a ∧ shift_quality p (bars !!! c) a = true
  | Lost c => j ≤ c < j + n ∧ is_below c = true
  | Unshifted _ _ => True
  end.
Proof.
  induction n as [|n IH]; intros j anyReference sawBreak; cbn [seq shift_loop]; [done|].
  destruct (Z.leb_spec (barsBetween bars r j) (MSSMaxBars p)); cbn [negb]; [|done].
  change (c_Close (bars !!! j) <? level)%float with (is_below j). destruct (is_below j) eqn:Eb; [split; [lia|done]|].
  assert (Hnext : ∀ x y, match shift_loop bars atr level p r extreme (seq (S j) n) x y with
    | Shifted c pivot shift a => j ≤ c < j + S n ∧ (∀ i, j ≤ i ≤ c → is_below i = false) ∧ (barsBetween bars r c <= MSSMaxBars p)%Z ∧
        reference_of extreme c shift pivot ∧ (close c >? shift)%float = true ∧ reading atr c = Some a ∧ shift_quality p (bars !!! c) a = true
    | Lost c => j ≤ c < j + S n ∧ is_below c = true
    | Unshifted _ _ => True
    end).
  { intros x y. specialize (IH (S j) x y). destruct (shift_loop _ _ _ _ _ _ _ _ _) as [c pivot shift a|c|]; [|destruct IH; split; [lia|done]|done].
    destruct IH as (H1 & H2 & H3). split; [lia|]. split; [|done]. intros i Hi. destruct (decide (i = j)) as [->|]; [done|]. apply H2. lia. }
  destruct (structureLevel bars level p extreme j) as [[shift pivot]|] eqn:Es; [|apply Hnext].
  destruct (c_Close (bars !!! j) >? shift)%float eqn:Ec; cbn [negb]; [|apply Hnext]. destruct (reading atr j) as [a|] eqn:Ea; [|apply Hnext].
  destruct (shift_quality p (bars !!! j) a) eqn:Eq; [|apply Hnext]. split; [lia|]. split; [intros i Hi; by replace i with j by lia|].
  split; [done|]. split; [by apply structureLevel_spec|done].
Qed.
Lemma lowest_spec s0 r : s0 ≤ r → (∀ i, s0 ≤ i ≤ r → IsNaN (c_Low (bars !!! i)) = false) →
  s0 ≤ lowest bars s0 r ≤ r ∧ ∀ i, s0 ≤ i ≤ r → (key (c_Low (bars !!! lowest bars s0 r)) <= key (c_Low (bars !!! i)))%Z.
Proof.
  intros Hs Hn. unfold lowest. set (n := S r - s0). assert (Hgen : ∀ n e lo, s0 ≤ lo → lo + n ≤ S r → s0 ≤ e ≤ r →
    (∀ i, s0 ≤ i < lo → (key (c_Low (bars !!! e)) <= key (c_Low (bars !!! i)))%Z) →
    let m := foldl (λ e j, if (c_Low (bars !!! j) <? c_Low (bars !!! e))%float then j else e) e (seq lo n) in
    s0 ≤ m ≤ r ∧ ∀ i, s0 ≤ i < lo + n → (key (c_Low (bars !!! m)) <= key (c_Low (bars !!! i)))%Z).
  { clear n. induction n as [|n IH]; intros e lo Hlo Hle He Hmin; cbn [seq foldl]; [split; [done|intros i Hi; apply Hmin; lia]|].
    rewrite ltb_num by (apply Hn; lia). destruct (Z.ltb_spec (key (c_Low (bars !!! lo))) (key (c_Low (bars !!! e)))).
    - destruct (IH lo (S lo)) as [H1 H2]; [lia|lia|lia| |split; [done|intros i Hi; apply H2; lia]].
      intros i Hi. destruct (decide (i = lo)) as [->|]; [lia|]. specialize (Hmin i ltac:(lia)). lia.
    - destruct (IH e (S lo)) as [H1 H2]; [lia|lia|lia| |split; [done|intros i Hi; apply H2; lia]].
      intros i Hi. destruct (decide (i = lo)) as [->|]; [lia|]. apply Hmin. lia. }
  destruct (Hgen n s0 s0) as [H1 H2]; [lia|unfold n; lia|lia|intros i Hi; lia|]. split; [done|]. intros i Hi. apply H2. unfold n. lia.
Qed.
Lemma lowest_range s0 r : s0 ≤ r → s0 ≤ lowest bars s0 r ≤ r.
Proof.
  intros Hs. unfold lowest. assert (Hgen : ∀ n e lo, s0 ≤ lo → lo + n ≤ S r → s0 ≤ e ≤ r →
    s0 ≤ foldl (λ e j, if (c_Low (bars !!! j) <? c_Low (bars !!! e))%float then j else e) e (seq lo n) ≤ r).
  { induction n as [|n IH]; intros e lo Hlo Hle He; cbn [seq foldl]; [done|]. apply IH; [lia|lia|]. destruct (_ <? _)%float; lia. }
  apply Hgen; lia.
Qed.
End lemmas.

(** What a confirmed episode is. *)
Record episode_ok (bars : list Candle) (atr : Indicator.WilderWindow) (level : float) (p : LevelSweepParams) (e : LevelEpisode) : Prop := {
  eo_order : ep_Sweep e ≤ ep_Extreme e ≤ ep_Reclaim e ∧ ep_Reclaim e < ep_Confirm e < length bars;
  eo_sweep : sweeps_at bars atr level p (ep_Sweep e) = true;
  eo_reclaim : reclaims_at bars atr level p (ep_Reclaim e) ∧ (∀ i, ep_Sweep e ≤ i < ep_Reclaim e → ¬ reclaims_at bars atr level p i) ∧
    (barsBetween bars (ep_Sweep e) (ep_Reclaim e) <= ReclaimMaxBars p)%Z;
  eo_not_accepted : not_accepted bars level p (ep_Sweep e) (ep_Reclaim e);
  eo_extreme : (∀ i, ep_Sweep e ≤ i ≤ ep_Reclaim e → IsNaN (c_Low (bars !!! i)) = false) →
    ∀ i, ep_Sweep e ≤ i ≤ ep_Reclaim e → (key (c_Low (bars !!! ep_Extreme e)) <= key (c_Low (bars !!! i)))%Z;
  eo_depth : ep_Depth e = (level - c_Low (bars !!! ep_Extreme e))%float ∧
    ((MaxSweepPips p >? 0)%float = true → (ep_Depth e >? MaxSweepPips p * sp_PipSize p)%float = false);
  eo_held : ∀ i, ep_Reclaim e < i ≤ ep_Confirm e → (c_Close (bars !!! i) <? level)%float = false;
  eo_shift : reference_of bars level p (ep_Extreme e) (ep_Confirm e) (ep_ShiftLevel e) (ep_ShiftPivot e) ∧
    (c_Close (bars !!! ep_Confirm e) >? ep_ShiftLevel e)%float = true ∧ (barsBetween bars (ep_Reclaim e) (ep_Confirm e) <= MSSMaxBars p)%Z;
  eo_quality : ∃ a, reading atr (ep_Confirm e) = Some a ∧ shift_quality p (bars !!! ep_Confirm e) a = true
}.
Lemma runSweep_spec bars atr level p s0 :
  s0 < length bars →
  match runSweep bars atr level p s0 with
  | episodePending => True
  | episodeVoid _ resume => s0 < resume
  | episodeConfirmed e => ep_Sweep e = s0 ∧ (sweeps_at bars atr level p s0 = true → episode_ok bars atr level p e) ∧ s0 < ep_Confirm e
  end.
Proof.
  intros Hs. unfold runSweep, from_bar, asOf. pose proof (reclaim_loop_spec bars atr level p s0 (length bars - s0) s0 0) as H.
  specialize (H ltac:(lia)). specialize (H ltac:(intros k n En Hn Hk Hle; lia)). specialize (H ltac:(split; [lia|left; lia]) ltac:(lia)).
  destruct (reclaim_loop _ _ _ _ _ _ _) as [r|j|j|]; [|destruct H; lia..|].
  - destruct H as (Hr & Hrec & Hb & Hna & Hno). set (extreme := lowest bars s0 r). destruct (_ && _) eqn:Edeep; [lia|].
    pose proof (shift_loop_spec bars atr level p r extreme (length bars - (r + 1)) (r + 1) false false) as Hsh.
    destruct (shift_loop _ _ _ _ _ _ _ _ _) as [c pivot shift a|c|any saw]; [|destruct Hsh; lia|by destruct (_ <? _)%Z; [|lia]].
    destruct Hsh as (Hc & Hheld & Hb2 & Href & Hclose & Ha & Hq). cbn. split; [done|]. split; [|lia]. intros Hsw. pose proof (lowest_range bars s0 r ltac:(lia)) as Hext.
    split; cbn [ep_Sweep ep_Reclaim ep_Confirm ep_Extreme ep_ShiftLevel ep_ShiftPivot ep_Depth].
    + fold extreme in Hext. lia.
    + done.
    + split; [done|]. split; [|done]. intros i Hi. by apply Hno.
    + done.
    + intros Hn. apply (lowest_spec bars s0 r); [lia|done].
    + split; [done|]. intros Em. by rewrite Em in Edeep.
    + intros i Hi. apply Hheld. lia.
    + done.
    + by exists a.
  - destruct (_ <? _)%Z; [done|]. destruct (List.find _ _) as [j|] eqn:Ef; [|lia]. apply find_some in Ef as [Hin%in_seq _]. lia.
Qed.
(** The episodes of a pass follow one another. *)
Fixpoint in_order (from : nat) (l : list LevelEpisode) : Prop :=
  match l with [] => True | e :: rest => from ≤ ep_Sweep e ∧ in_order (S (ep_Confirm e)) rest end.
Lemma in_order_app from l e : in_order from l → Forall (λ x, ep_Sweep x < ep_Confirm x ∧ ep_Confirm x < ep_Sweep e) l → from ≤ ep_Sweep e → in_order from (l ++ [e]).
Proof.
  revert from. induction l as [|x l IH]; intros from; cbn; [by intros|]. intros [H1 H2] [[H3 H4] H5]%Forall_cons Hle. split; [done|]. apply IH; [done|done|lia].
Qed.
Lemma sweep_loop_spec bars atr level p fuel : ∀ i to_ episodes rejections,
  to_ < length bars → S to_ < fuel + i → 0 < fuel → 1 ≤ i →
  Forall (episode_ok bars atr level p) episodes → Forall (λ e, ep_Confirm e < i) episodes → in_order 1 episodes →
  Forall (λ e, (barsBetween bars (ep_Confirm e) (asOf bars) <= sp_ConfirmationMaxAge p)%Z) episodes →
  ∃ es rs, sweep_loop bars atr level p fuel i to_ episodes rejections = Some (es, rs) ∧ Forall (episode_ok bars atr level p) es ∧ in_order 1 es ∧
    Forall (λ e, (barsBetween bars (ep_Confirm e) (asOf bars) <= sp_ConfirmationMaxAge p)%Z) es.
Proof.
  induction fuel as [|fuel IH]; intros i to_ episodes rejections Hto Hf H0 Hi Hok Hlt Hord Hage; [lia|]. cbn [sweep_loop].
  destruct (Nat.ltb_spec to_ i); [by exists episodes, rejections|].
  assert (Hmono : ∀ k, i ≤ k → Forall (λ e, ep_Confirm e < k) episodes) by (intros k Hk; eapply Forall_impl; [exact Hlt|]; cbn; lia).
  destruct (sweeps_at bars atr level p i) eqn:Es; cbn [negb]; [|apply IH; try done; try lia; apply Hmono; lia].
  pose proof (runSweep_spec bars atr level p i ltac:(lia)) as Hr. destruct (runSweep bars atr level p i) as [|reason resume|e].
  - apply IH; try done; try (unfold asOf; lia). apply Hmono. unfold asOf. lia.
  - apply IH; try done; try lia. apply Hmono. lia.
  - destruct Hr as (Hse & He & Hlt'). specialize (He Es). apply IH; try done; try lia; destruct (Z.leb_spec (barsBetween bars (ep_Confirm e) (asOf bars)) (sp_ConfirmationMaxAge p)).
    + apply Forall_app. split; [done|]. by constructor.
    + done.
    + apply Forall_app. split; [apply Hmono; lia|]. constructor; [lia|constructor].
    + apply Hmono. lia.
    + apply in_order_app; [done| |lia]. rewrite Forall_forall in *. intros x Hx. specialize (Hok x Hx) as [Hox _ _ _ _ _ _ _ _]. specialize (Hlt x Hx). cbn in Hlt. lia.
    + done.
    + apply Forall_app. split; [done|]. by constructor.
    + done.
Qed.

(** * Theorems *)

(** [C33] The scan of a level for stop runs always ends, and every episode it reports is one: the sweep trades through the level by the
    threshold; the first close back past the buffer is inside the window, with no run of closes beyond the level as long as
    acceptance before it; the extreme is the lowest low of the run and no deeper than the cap; no close loses the level again before
    the shift; and the shift closes beyond a pivot confirmed before it that precedes the extreme, with the quality asked for. The
    episodes come in order without overlap, and none is older than the age limit. *)
Theorem level_sweeps_sound bars atr level p from to_ :
  ∃ episodes rejections, FindLevelSweeps bars atr level p from to_ = Some (episodes, rejections) ∧
    Forall (episode_ok bars atr level p) episodes ∧ in_order 1 episodes ∧
    Forall (λ e, (barsBetween bars (ep_Confirm e) (asOf bars) <= sp_ConfirmationMaxAge p)%Z) episodes.
Proof.
  unfold FindLevelSweeps. destruct (Z.ltb_spec (Z.min to_ (Z.of_nat (length bars) - 1)) 0); [by exists [], []|].
  apply sweep_loop_spec; try done; lia.
Qed.

(** The first bar that touches the band, of those followed. *)
Definition first_touch (bars : list Candle) (level : float) (p : LevelRetestParams) (need from t : nat) : Prop :=
  from ≤ t < length bars ∧
  (∀ j, from ≤ j ≤ t → (barsBetween bars need j <= RetestMaxBars p)%Z ∧ (c_Close (bars !!! j) <? bandLow level p)%float = false) ∧
  (∀ j, from ≤ j < t → (c_Low (bars !!! j) <=? bandHigh level p)%float = false) ∧ (c_Low (bars !!! t) <=? bandHigh level p)%float = true.
Lemma touch_loop_spec bars level p need n : ∀ from t, from + n = Nat.max from (length bars) →
  touch_loop bars level p need (seq from n) = Touched t ↔ first_touch bars level p need from t.
Proof.
  induction n as [|n IH]; intros from t Hn; cbn [seq touch_loop].
  { split; [done|]. intros [Ht _]. lia. }
  destruct (Z.leb_spec (barsBetween bars need from) (RetestMaxBars p)) as [Hb|Hb]; cbn [negb].
  2:{ split; [done|]. intros (Ht & Hc & _). destruct (Hc from ltac:(lia)). lia. }
  destruct (c_Close (bars !!! from) <? bandLow level p)%float eqn:Ec.
  { split; [done|]. intros (Ht & Hc & _). destruct (Hc from ltac:(lia)). congruence. }
  destruct (c_Low (bars !!! from) <=? bandHigh level p)%float eqn:El.
  { split.
    - intros H. injection H as <-. split_and!; [lia|lia|intros j Hj; by replace j with from by lia|intros j Hj; lia|done].
    - intros (Ht & _ & Hb' & _). destruct (decide (t = from)) as [->|]; [done|]. rewrite Hb' in El by lia. done. }
  rewrite IH by lia. unfold first_touch. split.
  - intros (Ht & Hc & Hno & Hl). split_and!; [lia|lia| | |done]; intros j Hj; (destruct (decide (j = from)) as [->|]; [done|]); [apply Hc|apply Hno]; lia.
  - intros (Ht & Hc & Hno & Hl). assert (t ≠ from) by (intros ->; congruence). split_and!; [lia|lia| | |done]; intros j Hj; [apply Hc|apply Hno]; lia.
Qed.
(** [C34] A retest is confirmed exactly when the break was accepted (every close of the acceptance bars beyond the level), the first bar
    inside the band afterwards came in time with no close through the band before it, and that bar or the next one rejects the
    level, the earlier of the two; a later touch is never a second chance. *)
Theorem level_retest_exact bars level p breakIdx r :
  FindLevelRetest bars level p breakIdx = RetestConfirmed r ↔
  ∃ touch confirm, let need := breakIdx + rp_AcceptanceCloses p in
    (∀ j, breakIdx < j ≤ need → j < length bars ∧ (c_Close (bars !!! j) >? level)%float = true) ∧
    first_touch bars level p need (need + 1) touch ∧ confirm < length bars ∧ rejects_at bars level p confirm = true ∧
    (confirm = touch ∨ confirm = touch + 1 ∧ rejects_at bars level p touch = false) ∧ r = retest_of bars level p breakIdx need touch confirm.
Proof.
  unfold FindLevelRetest. set (need := breakIdx + rp_AcceptanceCloses p). set (last := length bars - 1).
  assert (Hacc : List.find (λ j, (last <? j) || negb (c_Close (bars !!! j) >? level)%float) (seq (breakIdx + 1) (rp_AcceptanceCloses p)) = None ↔
    ∀ j, breakIdx < j ≤ need → j ≤ last ∧ (c_Close (bars !!! j) >? level)%float = true).
  { rewrite find_miss. split.
    - intros H j Hj. specialize (H j). rewrite elem_of_seq in H. specialize (H ltac:(unfold need in Hj; lia)).
      apply orb_false_iff in H as [H1%Nat.ltb_ge H2%negb_false_iff]. done.
    - intros H j Hj%elem_of_seq. destruct (H j ltac:(unfold need; lia)) as [H1 H2]. rewrite H2, orb_false_r. apply Nat.ltb_ge. lia. }
  pose proof (touch_loop_spec bars level p need (length bars - (need + 1)) (need + 1)) as Htouch.
  split.
  - destruct (List.find _ _) as [j|]; [by destruct (_ <? _)|]. destruct Hacc as [Hacc _]. specialize (Hacc eq_refl).
    destruct (touch_loop _ _ _ _ _) as [touch| |]; [|done|by destruct (_ <? _)%Z].
    pose proof (proj1 (Htouch touch ltac:(lia)) eq_refl) as Hft. pose proof Hft as (Hr & _).
    assert (Hacc' : ∀ j, breakIdx < j ≤ need → j < length bars ∧ (c_Close (bars !!! j) >? level)%float = true).
    { intros j Hj. destruct (Hacc j Hj). split; [unfold last in *; lia|done]. }
    destruct (rejects_at bars level p touch) eqn:E1.
    + intros H. injection H as <-. exists touch, touch. cbv zeta. split_and!; [done|done|lia|done|by left|done].
    + destruct (Nat.ltb_spec last (touch + 1)); [done|]. destruct (rejects_at bars level p (touch + 1)) eqn:E2; [|by destruct (existsb _ _)].
      intros H1. injection H1 as <-. exists touch, (touch + 1). cbv zeta. split_and!; [done|done|unfold last in *; lia|done|by right|done].
  - intros (touch & confirm & Ha & Ht & Hc & Hrej & Hwhich & ->). fold need in Ha, Ht. destruct Hacc as [_ Hacc].
    assert (Ha' : ∀ j, breakIdx < j ≤ need → j ≤ last ∧ (c_Close (bars !!! j) >? level)%float = true).
    { intros j Hj. destruct (Ha j Hj). split; [unfold last; lia|done]. }
    rewrite (Hacc Ha'). pose proof Ht as (Hr & _). apply (Htouch touch ltac:(lia)) in Ht. rewrite Ht.
    destruct Hwhich as [->|[-> Hno]]; [by rewrite Hrej|]. rewrite Hno, Hrej. destruct (Nat.ltb_spec last (touch + 1)); [unfold last in *; lia|done].
Qed.

(** A break above 100 at the second bar, one accepting close, a dip into the band and a rejection with a long lower wick. *)
Definition demo_retest_bars : list Candle := map (λ '(k, (o, h, l, c)), mkCandle (300 * k)%Z o h l c 1)
  [(0%Z, (98, 99, 97, 98.5)%float); (1%Z, (98.5, 102, 98, 101.5)%float); (2%Z, (101.5, 103, 101, 102.5)%float); (3%Z, (102, 102.5, 99.5, 102.25)%float)].
Example demo_level_retest :
  FindLevelRetest demo_retest_bars 100 (mkRetestParams 0.1 1 6 1 1 0.5 2) 1 = RetestConfirmed (mkRetest 1 2 3 3 99.5 false true).
Proof. vm_compute. reflexivity. Qed.
