(* ===== verification/StrategyView.v ===== *)
(** What a strategy reads of the market context (context/market.go), and the small readers of package strategyutil over it: config_parse.go,
    detector_behavior.go, session_momentum.go and LastBar of helpers.go. *)
From S2P Require Import Prelude Float64 Market LegacyRead Detector.
From S2P Require Indicator Session Regime Structure Liquidity.
From Stdlib Require Import Floats.

(** * context/market.go: the fields the strategies read *)

Record StrategyFrame := mkFrame {
  sf_Candles : list Candle; sf_Regime : Regime.State; sf_Legacy : option LegacyFrame; sf_Session : Session.State; sf_Pools : list Liquidity.Pool
}.
Definition with_candles (f : StrategyFrame) (l : list Candle) : StrategyFrame := mkFrame l (sf_Regime f) (sf_Legacy f) (sf_Session f) (sf_Pools f).
Record StrategyContext := mkContext {
  sx_Symbol : string; sx_Frames : gmap string StrategyFrame; sx_BiasDirection : string; sx_Legacy : option LegacyRead; sx_Session : Session.State
}.
Definition frame_legacy (ctx : StrategyContext) (tf : string) : option LegacyFrame := f ← sx_Frames ctx !! tf; sf_Legacy f.
(** [NewLegacyDetector] over the context. *)
Definition context_detector (ctx : StrategyContext) (tf direction : string) (settings : LegacyDetectorSettings) : option LegacyDetector :=
  NewLegacyDetector (sx_Legacy ctx) (frame_legacy ctx tf) direction settings.
Definition htf_aligned (ctx : StrategyContext) (direction : string) : bool :=
  match sx_Legacy ctx with Some r => AlignedWithHTF r direction | None => false end.

(** * helpers.go *)

Definition LastBar (ctx : StrategyContext) (tf : string) : option Candle := f ← sx_Frames ctx !! tf; last (sf_Candles f).

(** * config_parse.go *)

(** The fields are filled in the order of their keys; the values are kept under them. *)
Definition ParseNumbers (params : Params) (floats ints : list string) : option (gmap string float * gmap string Z) :=
  fs ← mapM (λ k, v ← Float params k; Some (k, v)) (sort_strings floats);
  ns ← mapM (λ k, v ← Int params k; Some (k, v)) (sort_strings ints);
  Some (list_to_map fs, list_to_map ns).
Definition ParseSymbols (params : Params) : option (list string) :=
  match params !! "symbols" with None => Some [] | Some (PList l) => mapM item_string l | Some _ => None end.
Definition SymbolAllowed (scope : list string) (symbol : string) : bool := (length scope =? 0)%nat || existsb (λ s, bool_decide (s = symbol)) scope.
Definition TradingDay (unix rolloverUTCHour : Z) : Z := Z.quot (unix - rolloverUTCHour * 3600) 86400.

(** * detector_behavior.go *)

Definition regimeOf (f : StrategyFrame) : option Regime.State := match sf_Legacy f with Some l => lf_Regime l | None => Some (sf_Regime f) end.
Definition InChop (f : option StrategyFrame) : bool :=
  match f with
  | Some f => match regimeOf f with Some r => bool_decide (Regime.rs_Kind r = "chop") | None => false end
  | None => false
  end.
Definition StructuralDirection (ctx : StrategyContext) : string :=
  match sx_Legacy ctx with Some r => Read_Direction r | None => sx_BiasDirection ctx end.

(** * session_momentum.go *)

Definition levelBarSeconds : Z := 300.
Definition boundary (at_ : Z) (names : list string) (levels : list Session.Level) : Z :=
  foldl (λ m l, if negb (Session.l_Final l) || (Session.l_AvailableAt l >? at_)%Z then m
    else if bool_decide (Session.l_Name l ∈ names) && (Session.l_AvailableAt l >? m)%Z then Session.l_AvailableAt l else m) 0%Z levels.
(** The candles up to the first that opens after [at_]. *)
Fixpoint until {A} (stop : A → bool) (l : list A) : list A :=
  match l with [] => [] | x :: rest => if stop x then [] else x :: until stop rest end.
(** The positions of the first candle of the session and of the last that closed in it. *)
Definition session_span (londonOpen nyOpen : Z) (l : list Candle) : option (nat * nat) :=
  match list_find (λ c, (londonOpen <= c_Time c)%Z) l, last (List.filter (λ p, (c_Time p.2 + levelBarSeconds <=? nyOpen)%Z) (imap pair l)) with
  | Some (first, _), Some (last, _) => if (last <? first)%nat then None else Some (first, last)
  | _, _ => None
  end.
Definition SessionMomentum (ctx : StrategyContext) (at_ : Z) : option (string * float) :=
  if negb (bool_decide (Session.ss_Active (sx_Session ctx) = Session.NY)) then None
  else
    let levels := Session.ss_Levels (sx_Session ctx) in
    let londonOpen := boundary at_ ["ASIA_H"; "ASIA_L"] levels in let nyOpen := boundary at_ ["LONDON_H"; "LONDON_L"] levels in
    if (londonOpen =? 0)%Z || (nyOpen =? 0)%Z || (nyOpen <=? londonOpen)%Z || (at_ <? nyOpen)%Z then None
    else
      m5 ← sx_Frames ctx !! tf_M5; m15 ← sx_Frames ctx !! tf_M15;
      let bars := until (λ c, (c_Time c >? at_)%Z) (sf_Candles m5) in
      span ← session_span londonOpen nyOpen bars;
      let closed := until (λ c, (c_Time c + 15 * 60 >? nyOpen)%Z) (sf_Candles m15) in
      let window := Indicator.NewWilderWindow closed 14 140 in
      if negb (Indicator.Enough window) then None
      else
        atr ← fst (Indicator.ww_At window (Z.of_nat (length closed) - 1));
        let net := ((c_Close (bars !!! span.2) - c_Open (bars !!! span.1)) / atr)%float in
        if (net =? 0)%float || IsNaN net || IsInf net then None
        else Some (if (net >? 0)%float then Market.Buy else Market.Sell, net).
(** The evidence code and the component. *)
Definition SessionMomentumEvidence (ctx : StrategyContext) (at_ : Z) (direction : string) (minimumATR : float) : option (string * float) :=
  '(dir, net) ← SessionMomentum ctx at_;
  let component := if negb (bool_decide (dir = direction)) then (- abs net)%float else abs net in
  Some (if (abs net <? minimumATR)%float then "" else if bool_decide (dir = direction) then "session_momentum_aligned" else "session_momentum_opposed",
        component).

(** * Theorems *)

Lemma until_app {A} (stop : A → bool) l later : Forall (λ x, stop x = true) later → until stop (l ++ later) = until stop l.
Proof.
  intros Hl. induction l as [|x l IH]; cbn; [|by rewrite IH]. destruct later as [|y later]; [done|]. cbn. apply Forall_cons in Hl as [-> _]. done.
Qed.
Lemma boundary_app at_ names levels later :
  Forall (λ l, (at_ < Session.l_AvailableAt l)%Z) later → boundary at_ names (levels ++ later) = boundary at_ names levels.
Proof.
  intros Hl. unfold boundary. rewrite foldl_app. generalize (foldl (λ (m : Z) (l : Session.Level), if negb (Session.l_Final l) || (Session.l_AvailableAt l >? at_)%Z then m
    else if bool_decide (Session.l_Name l ∈ names) && (Session.l_AvailableAt l >? m)%Z then Session.l_AvailableAt l else m) 0%Z levels). intros m.
  induction Hl as [|l later H Hl IH]; cbn [foldl]; [done|]. replace (Session.l_AvailableAt l >? at_)%Z with true by lia. by rewrite orb_true_r.
Qed.
(** The context as more of the market becomes known: later candles and levels. *)
Definition later_frame (f : StrategyFrame) (more : list Candle) : StrategyFrame := with_candles f (sf_Candles f ++ more).
Definition later_context (ctx : StrategyContext) (more : gmap string (list Candle)) (levels : list Session.Level) : StrategyContext :=
  mkContext (sx_Symbol ctx) (map_imap (λ tf f, Some (later_frame f (default [] (more !! tf)))) (sx_Frames ctx)) (sx_BiasDirection ctx) (sx_Legacy ctx)
    (Session.mkState (Session.ss_Levels (sx_Session ctx) ++ levels) (Session.ss_Developing (sx_Session ctx)) (Session.ss_Active (sx_Session ctx))).
(** The London move is read from what was known at the confirming candle: candles that open later and levels that become available
    later change neither the reading nor the evidence. *)
Theorem session_momentum_causal ctx at_ more levels direction minimumATR :
  (∀ tf l c, more !! tf = Some l → c ∈ l → (at_ < c_Time c)%Z) → Forall (λ l, (at_ < Session.l_AvailableAt l)%Z) levels →
  SessionMomentum (later_context ctx more levels) at_ = SessionMomentum ctx at_ ∧
  SessionMomentumEvidence (later_context ctx more levels) at_ direction minimumATR = SessionMomentumEvidence ctx at_ direction minimumATR.
Proof.
  intros Hm Hl. assert (E : SessionMomentum (later_context ctx more levels) at_ = SessionMomentum ctx at_).
  { unfold SessionMomentum. cbn [later_context sx_Session Session.ss_Active Session.ss_Levels sx_Frames]. rewrite !boundary_app by done. cbv zeta.
    set (lo := boundary at_ ["ASIA_H"; "ASIA_L"] _). set (ny := boundary at_ ["LONDON_H"; "LONDON_L"] _).
    destruct (negb _); [done|]. destruct (_ || _) eqn:Eg; [done|]. apply orb_false_iff in Eg as [_ Eat]. apply Z.ltb_ge in Eat.
    assert (Hlate : ∀ tf, Forall (λ c, (at_ < c_Time c)%Z) (default [] (more !! tf))).
    { intros tf. destruct (more !! tf) as [l|] eqn:El; [|constructor]. apply Forall_forall. intros c Hc. by eapply Hm. }
    rewrite !map_lookup_imap. destruct (sx_Frames ctx !! tf_M5) as [m5|]; cbn [mbind option_bind]; [|done].
    destruct (sx_Frames ctx !! tf_M15) as [m15|]; cbn [mbind option_bind]; [|done]. cbn [later_frame with_candles sf_Candles].
    rewrite !until_app; [done|eapply Forall_impl; [apply Hlate|]; cbn; intros; lia..]. }
  split; [done|]. unfold SessionMomentumEvidence. by rewrite E.
Qed.

(** A London session that climbs a tenth per bar. *)
Definition climbing (period : Z) (n : nat) : list Candle :=
  map (λ k, let o := (100 + 0.125 * f64_of_Z (Z.of_nat k))%float in mkCandle (36000 + period * Z.of_nat k) o (o + 0.25) (o - 0.25) (o + 0.125) 1) (seq 0 n).
Definition demo_state : Session.State :=
  Session.mkState [Session.mkLevel "ASIA_L" 99 30000 false None true 36000; Session.mkLevel "LONDON_H" 110 50000 false None true 54000] [] Session.NY.
Definition demo_regime : Regime.State := Regime.mkState "trend" 0 0 0 [] false "" "" "" None.
Definition demo_frame (bars : list Candle) : StrategyFrame := mkFrame bars demo_regime None demo_state [].
Definition demo_context : StrategyContext :=
  mkContext "XAUUSD" {[ tf_M5 := demo_frame (climbing 300 62); tf_M15 := demo_frame (climbing 900 20) ]} "" None demo_state.
Lemma session_momentum_causal_witness :
  let more : gmap string (list Candle) := {[ tf_M5 := [mkCandle 54900 90 91 80 85 1] ]} in
  from_option fst "" (SessionMomentum demo_context 54000) = "BUY" ∧
  SessionMomentum (later_context demo_context more [Session.mkLevel "LONDON_H" 120 55000 false None true 56000]) 54000 = SessionMomentum demo_context 54000.
Proof.
  cbv zeta. split; [vm_compute; reflexivity|].
  refine (proj1 (session_momentum_causal demo_context 54000 _ _ Market.Buy 1 _ _)).
  - intros tf l c [<- <-]%lookup_singleton_Some Hc. apply list_elem_of_singleton in Hc as ->. reflexivity.
  - repeat constructor.
Defined.
