(* ===== verification/Crt.v ===== *)
(** Package strategy/crt, model.go, primitives.go and detect.go: a closed H1 candle gives a range, an M5 candle sweeps an edge of it, an
    M5 close reclaims it, a later M5 close shifts the structure, and entry, stop and target follow. Both directions run the same
    detector: SELL reads the mirrored candles and is reflected back. *)
From S2P Require Import Prelude Float64 Market.
From S2P Require Indicator Structure LevelEpisode.
From Stdlib Require Import Floats.

(** * config.go: the technical contract *)

Definition ConfirmationMSS : string := "mss".
Definition ConfirmationSweepReclaim : string := "sweep_reclaim".
Definition EntryMSSRetest : string := "mss_retest".
Definition EntryReclaimRetest : string := "reclaim_retest".
Record Config := mkConfig {
  MinimumH1RangeATR : float; ATRLength : Z; ATRWindowBars : Z; SweepWindowH1Periods : Z; MinimumSweepPips : float; MinimumSweepATR : float;
  MinimumReclaimPips : float; MinimumReclaimATR : float; ReclaimMaxBars : Z; ConfirmationMode : string; StructurePivotBars : Z;
  StructureLookbackBars : Z; MSSMaxBars : Z; MinimumMSSBodyRatio : float; MinimumMSSDisplacement : float; MinimumMSSCloseStrength : float;
  ConfirmationMaxAgeBars : Z; ConfirmationBufferPips : float; EntryModel : string; EntryDepthATR : float; EntryToleranceATR : float;
  EntryMaxWidthPrice : float; InvalidationBufferATR : float; MinimumTargetRoomATR : float; MinimumRewardRisk : float;
  ExecutionStopMaxPips : float; ExpiryHours : float; PipSize : float
}.

(** The pivot width is at least one once the configuration is validated. *)
Definition pivotBars (cfg : Config) : nat := Z.to_nat (StructurePivotBars cfg).

(** * model.go *)

Record Anchor := mkAnchor { an_OpenTime : Z; an_CloseTime : Z; an_High : float; an_Low : float; an_ATR : float; an_RangeATR : float }.
Definition Width (a : Anchor) : float := (an_High a - an_Low a)%float.
Definition Mid (a : Anchor) : float := ((an_High a + an_Low a) / 2)%float.
Record Sweep := mkSweep { sw_BarTime : Z; sw_Threshold : float; sw_ExtremePrice : float; sw_ExtremeTime : Z; sw_Depth : float; sw_DepthATR : float }.
Record Reclaim := mkReclaim { rc_BarTime : Z; rc_Close : float; rc_Depth : float; rc_DepthATR : float; rc_BarsAfterSweep : Z }.
Record StructureShift := mkShift {
  sh_Level : float; sh_LevelTime : Z; sh_BarTime : Z; sh_Close : float; sh_BodyRatio : float; sh_DisplacementATR : float;
  sh_CloseStrength : float; sh_BarsAfterReclaim : Z
}.
Record Setup := mkSetup {
  su_Direction : string; su_Anchor : Anchor; su_Sweep : Sweep; su_Reclaim : Reclaim; su_Shift : option StructureShift; su_ConfirmedAt : Z;
  su_ConfirmationAge : Z; su_DoubleRaidResolved : bool; su_EntryLow : float; su_EntryHigh : float; su_Stop : float; su_Target : float;
  su_TargetKind : string; su_M5ATR : float; su_RiskPips : float; su_RewardPips : float; su_TechnicalRR : float; su_WickRejection : bool
}.
Definition TargetOppositeRange : string := "opposite_h1_range".
Definition TargetNearestSwingHigh : string := "nearest_structure".
Record Rejection := mkRejection { rj_Reason : string; rj_Direction : string; rj_AnchorTime : Z; rj_SweepTime : Z }.
Record Analysis := mkAnalysis { EvaluatedAt : Z; Anchors : Z; Setups : list Setup; Rejections : list Rejection }.
Definition ReasonInvalidCandles : string := "invalid_candles".
Definition ReasonInsufficientH1History : string := "insufficient_h1_history".
Definition ReasonInsufficientM5History : string := "insufficient_m5_history".
Definition ReasonH1RangeBelowMinimum : string := "h1_range_below_minimum".
Definition ReasonM5ATRUnavailable : string := "m5_atr_unavailable".
Definition ReasonReclaimWindowExpired : string := "reclaim_window_expired".
Definition ReasonReclaimOvershoot : string := "reclaim_overshoot".
Definition ReasonReclaimLost : string := "reclaim_lost".
Definition ReasonNoStructureReference : string := "no_structure_reference".
Definition ReasonMSSWindowExpired : string := "mss_window_expired".
Definition ReasonMSSQualityInsufficient : string := "mss_quality_insufficient".
Definition ReasonBothExtremesRaided : string := "both_extremes_raided_ambiguous".
Definition ReasonTargetAlreadyReached : string := "target_already_reached".
Definition ReasonInvalidatedAfterConfirm : string := "invalidated_after_confirmation".
Definition ReasonPriceThroughEntry : string := "price_through_entry".
Definition ReasonDegenerateEntryBand : string := "degenerate_entry_band".
Definition ReasonInvalidStopGeometry : string := "invalid_stop_geometry".
Definition ReasonInsufficientTargetRoom : string := "insufficient_target_room".
Definition ReasonRewardRiskBelowMinimum : string := "reward_risk_below_minimum".
Definition ReasonRiskExceedsEnvelope : string := "risk_exceeds_execution_envelope".
Definition ReasonConfluenceBelowFloor : string := "confluence_below_floor".
Definition ReasonSupersededByOpposite : string := "superseded_by_opposite_confirmation".

(** * primitives.go *)

Definition m5Seconds : Z := 300.
Definition h1Seconds : Z := 3600.
Definition newATRWindow (bars : list Candle) (length window : Z) : Indicator.WilderWindow := Indicator.NewWilderWindow bars length window.
Definition firstAtOrAfter (bars : list Candle) (t : Z) : nat := bsearch (length bars) (λ i, negb (c_Time (bars !!! i) >=? t)%Z).
Definition is_pivot (bars : list Candle) (n p : nat) : bool :=
  forallb (λ k, negb ((c_High (bars !!! (p - k)%nat) >=? c_High (bars !!! p)) || (c_High (bars !!! (p + k)%nat) >=? c_High (bars !!! p)))%float) (seq 1 n).
Definition pivotHighs (bars : list Candle) (n : nat) : list nat := List.filter (is_pivot bars n) (seq n (length bars - 2 * n)).
Definition rangeOf (c : Candle) : float := (c_High c - c_Low c)%float.
Definition bodyRatio (c : Candle) : float := BodyRatio c.
Definition closeStrength (c : Candle) : float := CloseLocation c.
Definition bullishWickRejection (c : Candle) : bool :=
  let r := rangeOf c in
  if (r <=? 0)%float then false
  else
    let body := abs (c_Close c - c_Open c)%float in let lower := (math_Min (c_Open c) (c_Close c) - c_Low c)%float in
    (lower >=? body)%float && (c_Close c >? c_Open c)%float && (c_Close c >=? c_High c - r / 3)%float.

(** * detect.go: one direction, in its bullish orientation *)

(** The whole number of M5 periods between two bars. *)
Definition barsBetween (bars : list Candle) (from to : nat) : Z := Z.quot (c_Time (bars !!! to) - c_Time (bars !!! from)) m5Seconds.
(** A reading of the volatility window: the cache it fills never changes one. *)
Definition reading (atr : Indicator.WilderWindow) (i : nat) : option float := fst (Indicator.ww_At atr (Z.of_nat i)).
Record episode := mkEpisode {
  e_s0 : nat; e_r : nat; e_m : nat; e_shift : option StructureShift; e_level : float; e_levelIndex : nat; e_extreme : nat
}.
Inductive episode_outcome :=
  | episodePending
  | episodeVoid (reason : string) (resumeAt : nat)
  | episodeConfirmed (e : episode).
Inductive reclaim_outcome :=
  | Reclaimed (r : nat)
  | Overshot (j : nat)
  | Unavailable (j : nat)
  | Unreclaimed.
Inductive shift_outcome :=
  | Shifted (j : nat) (level : float) (pivot : nat) (atr : float)
  | LostAt (j : nat)
  | ReachedAt (j : nat)
  | Unshifted (anyReference sawBreakWithoutQuality : bool).
Section detector.
(** The oriented candles up to the evaluated one, the windows of the plain ones, the direction asked for. *)
Context (cfg : Config) (dir : string) (h1 m5 : list Candle) (h1ATR m5ATR : Indicator.WilderWindow) (evalClose : Z).
Definition asOf : nat := length m5 - 1.
Definition pivots : list nat := pivotHighs m5 (pivotBars cfg).
(** The bars from [j] to the evaluated one. *)
Definition from_bar (j : nat) : list nat := seq j (length m5 - j).
Definition sweepThreshold (i : nat) : option float :=
  a ← reading m5ATR i; Some (math_Max (MinimumSweepPips cfg * PipSize cfg) (MinimumSweepATR cfg * a)).
Definition reclaimBuffer (i : nat) : option float :=
  a ← reading m5ATR i; Some (math_Max (MinimumReclaimPips cfg * PipSize cfg) (MinimumReclaimATR cfg * a)).
(** The low is beyond the anchor's low by the threshold; the high beyond its high. *)
Definition raids (anchor : Anchor) (i : nat) : bool :=
  match sweepThreshold i with Some thr => (c_Low (m5 !!! i) <? an_Low anchor - thr)%float | None => false end.
Definition raids_opposite (anchor : Anchor) (i : nat) : bool :=
  match sweepThreshold i with Some thr => (c_High (m5 !!! i) >? an_High anchor + thr)%float | None => false end.
Definition window_end (anchor : Anchor) : Z := (an_CloseTime anchor + SweepWindowH1Periods cfg * h1Seconds)%Z.
Fixpoint raid_loop (anchor : Anchor) (l : list nat) : option nat :=
  match l with
  | [] => None
  | i :: rest => if negb (c_Time (m5 !!! i) <? window_end anchor)%Z then None else if raids anchor i then Some i else raid_loop anchor rest
  end.
Definition firstRaid (anchor : Anchor) (from : nat) : option nat := raid_loop anchor (from_bar from).
Definition reject (reason : string) (anchor : Anchor) (sweepIndex : nat) (out : Analysis) : Analysis :=
  mkAnalysis (EvaluatedAt out) (Anchors out) (Setups out)
    (Rejections out ++ [mkRejection reason dir (an_OpenTime anchor) (if (sweepIndex <? length m5)%nat then c_Time (m5 !!! sweepIndex) else 0%Z)]).
Definition anchorAt (a : nat) (out : Analysis) : option Anchor * Analysis :=
  match reading h1ATR a with
  | None => (None, out)
  | Some atr =>
      let c := h1 !!! a in let width := (c_High c - c_Low c)%float in
      let rangeATR := if (width >? 0)%float then (width / atr)%float else 0%float in
      let anchor := mkAnchor (c_Time c) (c_Time c + h1Seconds) (c_High c) (c_Low c) atr rangeATR in
      if (width <=? 0)%float || (rangeATR <? MinimumH1RangeATR cfg)%float then
        (None, match firstRaid anchor (firstAtOrAfter m5 (an_CloseTime anchor)) with
               | Some s0 => reject ReasonH1RangeBelowMinimum anchor s0 out
               | None => out
               end)
      else (Some anchor, out)
  end.

(** The reclaim of a run that began at [s0]. *)
Fixpoint reclaim_loop (anchor : Anchor) (s0 : nat) (l : list nat) : reclaim_outcome :=
  match l with
  | [] => Unreclaimed
  | j :: rest =>
      let c := m5 !!! j in
      if negb (barsBetween m5 s0 j <=? ReclaimMaxBars cfg)%Z then Unreclaimed
      else if (c_Close c >? an_High anchor)%float then Overshot j
      else
        match reclaimBuffer j with
        | None => Unavailable j
        | Some buffer =>
            if (c_Close c >=? an_Low anchor + buffer)%float && (c_Close c <=? an_High anchor)%float then Reclaimed j
            else reclaim_loop anchor s0 rest
        end
  end.
(** The most recent pivot that qualifies, over the pivots from the latest. *)
Fixpoint structure_level (rev_pivots : list nat) (anchor : Anchor) (extreme j : nat) : option (float * nat) :=
  match rev_pivots with
  | [] => None
  | p :: rest =>
      if (j <=? p + pivotBars cfg)%nat || (extreme <=? p)%nat then structure_level rest anchor extreme j
      else if (Z.of_nat p <? Z.of_nat extreme - StructureLookbackBars cfg)%Z then None
      else
        let level := c_High (m5 !!! p) in
        if (level >? an_Low anchor)%float && (level <? an_High anchor)%float then Some (level, p) else structure_level rest anchor extreme j
  end.
Definition structureLevel (anchor : Anchor) (extreme j : nat) : option (float * nat) := structure_level (reverse pivots) anchor extreme j.
Definition shift_quality (c : Candle) (a : float) : bool :=
  negb (negb (c_Close c >? c_Open c)%float || (bodyRatio c <? MinimumMSSBodyRatio cfg)%float ||
    ((c_Close c - c_Open c) / a <? MinimumMSSDisplacement cfg)%float || (closeStrength c <? MinimumMSSCloseStrength cfg)%float).
Fixpoint shift_loop (anchor : Anchor) (r extreme : nat) (l : list nat) (anyReference sawBreak : bool) : shift_outcome :=
  match l with
  | [] => Unshifted anyReference sawBreak
  | j :: rest =>
      let c := m5 !!! j in
      if negb (barsBetween m5 r j <=? MSSMaxBars cfg)%Z then Unshifted anyReference sawBreak
      else if (c_Close c <? an_Low anchor)%float then LostAt j
      else if (c_Close c >? an_High anchor)%float then ReachedAt j
      else
        match structureLevel anchor extreme j with
        | None => shift_loop anchor r extreme rest anyReference sawBreak
        | Some (level, p) =>
            if negb (c_Close c >? level + ConfirmationBufferPips cfg * PipSize cfg)%float then shift_loop anchor r extreme rest true sawBreak
            else
              match reading m5ATR j with
              | None => shift_loop anchor r extreme rest true sawBreak
              | Some a => if shift_quality c a then Shifted j level p a else shift_loop anchor r extreme rest true true
              end
        end
  end.
(** The lowest low of the bars from [from] to [to], the first of them. *)
Definition lowest (from to : nat) : nat :=
  foldl (λ e j, if (c_Low (m5 !!! j) <? c_Low (m5 !!! e))%float then j else e) from (seq from (S to - from)).
Definition runEpisode (anchor : Anchor) (s0 : nat) : episode_outcome :=
  match reclaim_loop anchor s0 (from_bar s0) with
  | Overshot j => episodeVoid ReasonReclaimOvershoot (j + 1)
  | Unavailable j => episodeVoid ReasonM5ATRUnavailable (j + 1)
  | Unreclaimed =>
      if (barsBetween m5 s0 asOf <? ReclaimMaxBars cfg)%Z then episodePending
      else episodeVoid ReasonReclaimWindowExpired
        (match List.find (λ j, (c_Close (m5 !!! j) >=? an_Low anchor)%float) (from_bar (s0 + 1)) with Some j => j + 1 | None => asOf + 1 end)
  | Reclaimed r =>
      let extreme := lowest s0 r in
      if bool_decide (ConfirmationMode cfg = ConfirmationSweepReclaim) then episodeConfirmed (mkEpisode s0 r r None 0 0 extreme)
      else
        match shift_loop anchor r extreme (from_bar (r + 1)) false false with
        | LostAt j => episodeVoid ReasonReclaimLost j
        | ReachedAt j => episodeVoid ReasonTargetAlreadyReached (j + 1)
        | Shifted j level p a =>
            let c := m5 !!! j in
            episodeConfirmed (mkEpisode s0 r j
              (Some (mkShift level (c_Time (m5 !!! p)) (c_Time c) (c_Close c) (bodyRatio c) ((c_Close c - c_Open c) / a)%float (closeStrength c)
                (barsBetween m5 r j))) level p extreme)
        | Unshifted anyReference sawBreak =>
            if (barsBetween m5 r asOf <? MSSMaxBars cfg)%Z then episodePending
            else episodeVoid (if negb anyReference then ReasonNoStructureReference else if sawBreak then ReasonMSSQualityInsufficient
              else ReasonMSSWindowExpired) (r + 1)
        end
  end.
(** The last raid of the opposite extreme before the sweep. *)
Definition last_opposite (anchor : Anchor) (i0 s0 : nat) : option nat := last (List.filter (raids_opposite anchor) (seq i0 (s0 - i0))).
Definition opposite_during (anchor : Anchor) (s0 m : nat) : bool := existsb (raids_opposite anchor) (seq s0 (S m - s0)).
(** The nearest swing that stands between, and whether one does. *)
Definition target_step (anchor : Anchor) (entryTop : float) (best : float * bool) (p : nat) : float * bool :=
  if (asOf <? p + pivotBars cfg)%nat then best
  else
    let level := c_High (m5 !!! p) in
    if negb ((level >? entryTop)%float && (level <? an_High anchor)%float) || (best.2 && (level >=? best.1)%float) then best
    else if existsb (λ k, (c_High (m5 !!! k) >? level)%float) (from_bar (p + 1)) then best
    else (level, true).
Definition target (anchor : Anchor) (entryTop : float) : float * string :=
  let '(best, found) := foldl (target_step anchor entryTop) (an_High anchor, false) pivots in
  if (found : bool) then (best, TargetNearestSwingHigh) else (an_High anchor, TargetOppositeRange).
Definition entry_band (anchor : Anchor) (level atr : float) : float * float :=
  let pip := PipSize cfg in
  let depth := math_Max pip (EntryDepthATR cfg * atr) in let tolerance := math_Max pip (EntryToleranceATR cfg * atr) in
  let '(lower, upper) := if bool_decide (EntryModel cfg = EntryMSSRetest) then (math_Max (level - depth) (an_Low anchor), (level + tolerance)%float)
    else ((an_Low anchor - tolerance)%float, (an_Low anchor + tolerance)%float) in
  (if (upper - lower >? EntryMaxWidthPrice cfg)%float then (upper - EntryMaxWidthPrice cfg)%float else lower, upper).
(** The double raid, the objective and the life of the thesis since: the reason of a refusal, or whether a double raid was resolved. *)
Definition thesis (anchor : Anchor) (i0 : nat) (ep : episode) : string + bool :=
  let m := e_m ep in let s0 := e_s0 ep in
  if opposite_during anchor s0 m then inl ReasonBothExtremesRaided
  else
    let before := last_opposite anchor i0 s0 in
    let closedBack := match before with
      | Some lob => existsb (λ k, (c_Close (m5 !!! k) <=? an_High anchor)%float) (seq lob (s0 - lob))
      | None => true
      end in
    if negb closedBack then inl ReasonBothExtremesRaided
    else if existsb (λ k, (c_High (m5 !!! k) >=? an_High anchor)%float) (from_bar s0) then inl ReasonTargetAlreadyReached
    else
      let extreme := c_Low (m5 !!! lowest i0 m) in
      if existsb (λ k, (c_Close (m5 !!! k) <? an_Low anchor)%float || (c_Low (m5 !!! k) <? extreme)%float) (from_bar (m + 1))
      then inl ReasonInvalidatedAfterConfirm
      else inr (match before with Some _ => true | None => false end).
Definition finalize (anchor : Anchor) (i0 : nat) (ep : episode) : string + Setup :=
  let m := e_m ep in let s0 := e_s0 ep in
  match reading m5ATR m with
  | None => inl ReasonM5ATRUnavailable
  | Some atr =>
      match thesis anchor i0 ep with
      | inl reason => inl reason
      | inr resolved =>
          let pip := PipSize cfg in let extremeIdx := lowest i0 m in let extreme := c_Low (m5 !!! extremeIdx) in
          let '(lower, upper) := entry_band anchor (e_level ep) atr in
          let last := c_Close (m5 !!! asOf) in
          if negb (upper >? lower)%float then inl ReasonDegenerateEntryBand
          else if (last <? lower)%float || (last >=? an_High anchor)%float then
            inl (if (last >=? an_High anchor)%float then ReasonTargetAlreadyReached else ReasonPriceThroughEntry)
          else
            let stop := (extreme - math_Max pip (InvalidationBufferATR cfg * atr))%float in
            if negb (stop <? extreme)%float || negb (stop <? lower)%float then inl ReasonInvalidStopGeometry
            else
              let '(tgt, targetKind) := target anchor upper in
              let reward := (tgt - upper)%float in let risk := (upper - stop)%float in
              if negb (reward >? 0)%float || (reward <? MinimumTargetRoomATR cfg * atr)%float then inl ReasonInsufficientTargetRoom
              else
                let riskPips := (risk / pip)%float in let rewardPips := (reward / pip)%float in
                if (ExecutionStopMaxPips cfg >? 0)%float && (riskPips >? ExecutionStopMaxPips cfg)%float then inl ReasonRiskExceedsEnvelope
                else
                  let rr := (reward / risk)%float in
                  if (rr <? MinimumRewardRisk cfg)%float then inl ReasonRewardRiskBelowMinimum
                  else
                    let wick := existsb (λ k, bullishWickRejection (m5 !!! k)) (seq s0 (S (e_r ep) - s0)) in
                    let reclaimBar := m5 !!! e_r ep in
                    let sweepATR := default atr (reading m5ATR s0) in
                    inr (mkSetup dir anchor
                      (mkSweep (c_Time (m5 !!! s0)) (default 0%float (sweepThreshold s0)) extreme (c_Time (m5 !!! extremeIdx)) (an_Low anchor - extreme)
                        ((an_Low anchor - extreme) / sweepATR))
                      (mkReclaim (c_Time reclaimBar) (c_Close reclaimBar) (c_Close reclaimBar - an_Low anchor)
                        ((c_Close reclaimBar - an_Low anchor) / sweepATR) (Z.of_nat (e_r ep) - Z.of_nat s0))
                      (e_shift ep) (c_Time (m5 !!! m)) (barsBetween m5 m asOf) resolved lower upper stop tgt targetKind atr riskPips rewardPips rr wick)
      end
  end.
(** Every turn moves forward; [None] when the fuel runs out. *)
Fixpoint anchor_loop (fuel : nat) (anchor : Anchor) (i0 i : nat) (best : option Setup) (out : Analysis) : option (option Setup * Analysis) :=
  match fuel with
  | O => None
  | S fuel =>
      if (asOf <? i)%nat || negb (c_Time (m5 !!! i) <? window_end anchor)%Z then Some (best, out)
      else if negb (raids anchor i) then anchor_loop fuel anchor i0 (i + 1) best out
      else
        match runEpisode anchor i with
        | episodePending => anchor_loop fuel anchor i0 (asOf + 1) best out
        | episodeVoid reason resume => anchor_loop fuel anchor i0 resume best (reject reason anchor i out)
        | episodeConfirmed ep =>
            let '(best, out) :=
              if (barsBetween m5 (e_m ep) asOf <=? ConfirmationMaxAgeBars cfg)%Z then
                match finalize anchor i0 ep with
                | inl reason => (best, reject reason anchor (e_s0 ep) out)
                | inr setup => (Some setup, out)
                end
              else (best, out) in
            anchor_loop fuel anchor i0 (e_m ep + 1) best out
        end
  end.
End detector.

(** * detect.go: both directions *)

(** A setup of the mirrored candles in the prices of the plain ones. *)
Definition reflected (s : Setup) : Setup :=
  let a := su_Anchor s in let w := su_Sweep s in let r := su_Reclaim s in
  mkSetup (su_Direction s) (mkAnchor (an_OpenTime a) (an_CloseTime a) (- an_Low a) (- an_High a) (an_ATR a) (an_RangeATR a))
    (mkSweep (sw_BarTime w) (sw_Threshold w) (- sw_ExtremePrice w) (sw_ExtremeTime w) (sw_Depth w) (sw_DepthATR w))
    (mkReclaim (rc_BarTime r) (- rc_Close r) (rc_Depth r) (rc_DepthATR r) (rc_BarsAfterSweep r))
    ((λ h, mkShift (- sh_Level h) (sh_LevelTime h) (sh_BarTime h) (- sh_Close h) (sh_BodyRatio h) (sh_DisplacementATR h) (sh_CloseStrength h)
      (sh_BarsAfterReclaim h)) <$> su_Shift s) (su_ConfirmedAt s) (su_ConfirmationAge s) (su_DoubleRaidResolved s) (- su_EntryHigh s) (- su_EntryLow s)
    (- su_Stop s) (- su_Target s) (su_TargetKind s) (su_M5ATR s) (su_RiskPips s) (su_RewardPips s) (su_TechnicalRR s) (su_WickRejection s).
Definition toOriginal (dir : string) (s : Setup) : Setup := if bool_decide (dir = Market.Sell) then reflected s else s.
Section detect.
Context (cfg : Config) (h1 m5 : list Candle) (h1ATR m5ATR : Indicator.WilderWindow) (evalClose : Z).
Definition oriented (dir : string) (bars : list Candle) : list Candle := if bool_decide (dir = Market.Sell) then Mirror bars else bars.
Definition add_setup (s : Setup) (out : Analysis) : Analysis := mkAnalysis (EvaluatedAt out) (Anchors out) (Setups out ++ [s]) (Rejections out).
Definition count_anchor (out : Analysis) : Analysis := mkAnalysis (EvaluatedAt out) (Anchors out + 1) (Setups out) (Rejections out).
Definition scanAnchor (dir : string) (anchor : Anchor) (out : Analysis) : option Analysis :=
  let bars := oriented dir m5 in let i0 := firstAtOrAfter bars (an_CloseTime anchor) in
  '(best, out) ← anchor_loop cfg dir bars m5ATR (length bars + 2) anchor i0 i0 None out;
  Some (match best with Some s => add_setup (toOriginal dir s) out | None => out end).
Definition horizon : Z :=
  (SweepWindowH1Periods cfg * h1Seconds + (ReclaimMaxBars cfg + MSSMaxBars cfg + ConfirmationMaxAgeBars cfg + 1) * m5Seconds)%Z.
(** The anchors from the latest, [n] of them left. *)
Fixpoint scan (dir : string) (n : nat) (out : Analysis) : option Analysis :=
  match n with
  | O => Some out
  | S a =>
      if (c_Time (oriented dir h1 !!! a) + h1Seconds + horizon <=? evalClose)%Z then Some out
      else
        let out := if bool_decide (dir = Market.Buy) then count_anchor out else out in
        match anchorAt cfg dir (oriented dir h1) (oriented dir m5) h1ATR m5ATR a out with
        | (None, out) => scan dir a out
        | (Some anchor, out) => out ← scanAnchor dir anchor out; scan dir a out
        end
  end.
End detect.
(** One direction per anchor: the later confirmation, neither when both confirm at once. *)
Definition opposed (i : nat) (s : Setup) (j : nat) (other : Setup) : bool :=
  negb ((i =? j)%nat || negb (an_OpenTime (su_Anchor other) =? an_OpenTime (su_Anchor s))%Z || bool_decide (su_Direction other = su_Direction s)).
Definition superseded (setups : list Setup) (i : nat) (s : Setup) : bool :=
  existsb (λ p, opposed i s p.1 p.2 && (su_ConfirmedAt p.2 >? su_ConfirmedAt s)%Z) (imap pair setups).
Definition tied (setups : list Setup) (i : nat) (s : Setup) : bool :=
  existsb (λ p, opposed i s p.1 p.2 && (su_ConfirmedAt p.2 =? su_ConfirmedAt s)%Z) (imap pair setups).
Definition opposing_rejection (reason : string) (s : Setup) : Rejection :=
  mkRejection reason (su_Direction s) (an_OpenTime (su_Anchor s)) (sw_BarTime (su_Sweep s)).
Definition resolveOpposing (out : Analysis) : Analysis :=
  let setups := Setups out in
  mkAnalysis (EvaluatedAt out) (Anchors out)
    (omap (λ p, if tied setups p.1 p.2 || superseded setups p.1 p.2 then None else Some p.2) (imap pair setups))
    (Rejections out ++ omap (λ p, if tied setups p.1 p.2 then Some (opposing_rejection ReasonBothExtremesRaided p.2)
      else if superseded setups p.1 p.2 then Some (opposing_rejection ReasonSupersededByOpposite p.2) else None) (imap pair setups)).
Definition setup_less (a b : Setup) : bool :=
  if negb (su_ConfirmedAt a =? su_ConfirmedAt b)%Z then (su_ConfirmedAt a >? su_ConfirmedAt b)%Z
  else if negb (an_OpenTime (su_Anchor a) =? an_OpenTime (su_Anchor b))%Z then (an_OpenTime (su_Anchor a) >? an_OpenTime (su_Anchor b))%Z
  else str_lt (su_Direction a) (su_Direction b).
Definition refused (evaluated : Z) (reason : string) : Analysis := mkAnalysis evaluated 0 [] [mkRejection reason "" 0 0].
Definition closed_h1 (h1 : list Candle) (evalClose : Z) : list Candle :=
  take (bsearch (length h1) (λ i, negb (c_Time (h1 !!! i) + h1Seconds >? evalClose)%Z)) h1.
Definition detectAsOf (cfg : Config) (inH1 inM5 : list Candle) (asOf : Z) : option Analysis :=
  if (asOf <? 0)%Z || (Z.of_nat (length inM5) <=? asOf)%Z then Some (refused 0 ReasonInvalidCandles)
  else
    let m5 := take (S (Z.to_nat asOf)) inM5 in
    let evalClose := (c_Time (m5 !!! Z.to_nat asOf) + m5Seconds)%Z in
    let h1 := closed_h1 inH1 evalClose in
    if negb (ValidSeries h1) || negb (ValidSeries m5) then Some (refused evalClose ReasonInvalidCandles)
    else
      let h1ATR := newATRWindow h1 (ATRLength cfg) (ATRWindowBars cfg) in let m5ATR := newATRWindow m5 (ATRLength cfg) (ATRWindowBars cfg) in
      if negb (Indicator.Enough h1ATR) then Some (refused evalClose ReasonInsufficientH1History)
      else if negb (Indicator.Enough m5ATR) then Some (refused evalClose ReasonInsufficientM5History)
      else
        let out := mkAnalysis evalClose 0 [] [] in
        out ← scan cfg h1 m5 h1ATR m5ATR evalClose Market.Buy (length h1) out;
        out ← scan cfg h1 m5 h1ATR m5ATR evalClose Market.Sell (length h1) out;
        let out := resolveOpposing out in
        Some (mkAnalysis (EvaluatedAt out) (Anchors out) (sort_slice setup_less (Setups out)) (Rejections out)).
Definition DetectAsOf := detectAsOf.
Definition Detect (cfg : Config) (inH1 inM5 : list Candle) : option Analysis := detectAsOf cfg inH1 inM5 (Z.of_nat (length inM5) - 1).

(** * Lemmas: an episode *)

Section lemmas.
Context (cfg : Config) (dir : string) (m5 : list Candle) (m5ATR : Indicator.WilderWindow) (anchor : Anchor).
Notation "'close' j" := (c_Close (m5 !!! j)) (at level 10, j at level 9).
Notation "'high' j" := (c_High (m5 !!! j)) (at level 10, j at level 9).
Notation "'low' j" := (c_Low (m5 !!! j)) (at level 10, j at level 9).
Definition reclaims_at (j : nat) : Prop :=
  ∃ b, reclaimBuffer cfg m5ATR j = Some b ∧ (close j >=? an_Low anchor + b)%float = true ∧ (close j <=? an_High anchor)%float = true.
Lemma crt_reclaim_loop_spec s0 n : ∀ j,
  match reclaim_loop cfg m5 m5ATR anchor s0 (seq j n) with
  | Reclaimed r => j ≤ r < j + n ∧ reclaims_at r ∧ (barsBetween m5 s0 r <= ReclaimMaxBars cfg)%Z ∧
      (∀ i, j ≤ i < r → ¬ reclaims_at i) ∧ (∀ i, j ≤ i ≤ r → (close i >? an_High anchor)%float = false)
  | Overshot k | Unavailable k => j ≤ k < j + n
  | Unreclaimed => True
  end.
Proof.
  induction n as [|n IH]; intros j; cbn [seq reclaim_loop]; [done|].
  destruct (Z.leb_spec (barsBetween m5 s0 j) (ReclaimMaxBars cfg)); cbn [negb]; [|done].
  destruct (close j >? an_High anchor)%float eqn:Eo; [lia|]. destruct (reclaimBuffer cfg m5ATR j) as [b|] eqn:Eb; [|lia].
  destruct ((close j >=? an_Low anchor + b)%float && (close j <=? an_High anchor)%float) eqn:Er.
  - apply andb_true_iff in Er as [E1 E2]. split; [lia|]. split; [by exists b|]. split; [done|]. split; [intros i Hi; lia|].
    intros i Hi. by replace i with j by lia.
  - assert (Hn : ¬ reclaims_at j) by (intros (b' & Eb' & H1 & H2); rewrite Eb in Eb'; injection Eb' as <-; by rewrite H1, H2 in Er).
    specialize (IH (S j)). destruct (reclaim_loop _ _ _ _ _ _) as [r|k|k|]; [|lia|lia|done].
    destruct IH as (H1 & H2 & H3 & H4 & H5). split_and!; [lia|lia|done|done| |]; intros i Hi; (destruct (decide (i = j)) as [->|]; [done|]); [apply H4|apply H5]; lia.
Qed.
(** A swing the shift may break: confirmed before the shift's bar, before the extreme, within the lookback, inside the range. *)
Definition reference_of (extreme j : nat) (level : float) (p : nat) : Prop :=
  p ∈ pivotHighs m5 (pivotBars cfg) ∧ p + pivotBars cfg < j ∧ p < extreme ∧
  (Z.of_nat extreme - StructureLookbackBars cfg <= Z.of_nat p)%Z ∧ level = high p ∧ (level >? an_Low anchor)%float = true ∧
  (level <? an_High anchor)%float = true.
Lemma crt_structure_level_spec l extreme j level p : structure_level cfg m5 l anchor extreme j = Some (level, p) →
  p ∈ l ∧ p + pivotBars cfg < j ∧ p < extreme ∧ (Z.of_nat extreme - StructureLookbackBars cfg <= Z.of_nat p)%Z ∧ level = high p ∧
  (level >? an_Low anchor)%float = true ∧ (level <? an_High anchor)%float = true.
Proof.
  induction l as [|q l IH]; cbn [structure_level]; [done|].
  destruct ((j <=? q + pivotBars cfg) || (extreme <=? q)) eqn:E1; [intros H%IH; destruct H; split; [by right|done]|].
  apply orb_false_iff in E1 as [E1%Nat.leb_gt E2%Nat.leb_gt]. destruct (Z.ltb_spec (Z.of_nat q) (Z.of_nat extreme - StructureLookbackBars cfg)); [done|].
  cbv zeta. destruct ((high q >? an_Low anchor)%float && (high q <? an_High anchor)%float) eqn:E3; [|intros Hs%IH; destruct Hs; split; [by right|done]].
  apply andb_true_iff in E3 as [E3 E4]. intros Hs. injection Hs as <- <-. split; [by left|done].
Qed.
Lemma crt_structureLevel_spec extreme j level p : structureLevel cfg m5 anchor extreme j = Some (level, p) → reference_of extreme j level p.
Proof. intros H%crt_structure_level_spec. by rewrite elem_of_reverse in H. Qed.
Definition inside (j : nat) : Prop := (close j <? an_Low anchor)%float = false ∧ (close j >? an_High anchor)%float = false.
(** The shift a bar makes. *)
Definition shifts_at (r extreme j : nat) (level : float) (p : nat) (a : float) : Prop :=
  (∀ i, r < i ≤ j → inside i) ∧ (barsBetween m5 r j <= MSSMaxBars cfg)%Z ∧ reference_of extreme j level p ∧
  (close j >? level + ConfirmationBufferPips cfg * PipSize cfg)%float = true ∧ reading m5ATR j = Some a ∧ shift_quality cfg (m5 !!! j) a = true.
Lemma crt_shift_loop_spec r extreme n : ∀ j x y, (∀ i, r < i < j → inside i) → r < j →
  match shift_loop cfg m5 m5ATR anchor r extreme (seq j n) x y with
  | Shifted c level p a => j ≤ c < j + n ∧ shifts_at r extreme c level p a
  | LostAt c | ReachedAt c => j ≤ c < j + n
  | Unshifted _ _ => True
  end.
Proof.
  induction n as [|n IH]; intros j x y Hin Hr; cbn [seq shift_loop]; [done|].
  destruct (Z.leb_spec (barsBetween m5 r j) (MSSMaxBars cfg)); cbn [negb]; [|done].
  destruct (close j <? an_Low anchor)%float eqn:E1; [lia|]. destruct (close j >? an_High anchor)%float eqn:E2; [lia|].
  assert (Hin' : ∀ i, r < i < S j → inside i) by (intros i Hi; destruct (decide (i = j)) as [->|]; [done|apply Hin; lia]).
  assert (Hnext : ∀ x y, match shift_loop cfg m5 m5ATR anchor r extreme (seq (S j) n) x y with
    | Shifted c level p a => j ≤ c < j + S n ∧ shifts_at r extreme c level p a
    | LostAt c | ReachedAt c => j ≤ c < j + S n
    | Unshifted _ _ => True
    end).
  { intros x' y'. specialize (IH (S j) x' y' Hin' ltac:(lia)). destruct (shift_loop _ _ _ _ _ _ _ _ _); try done; try lia. destruct IH. split; [lia|done]. }
  destruct (structureLevel cfg m5 anchor extreme j) as [[level p]|] eqn:Es; [|apply Hnext].
  destruct (close j >? level + _)%float eqn:Ec; cbn [negb]; [|apply Hnext]. destruct (reading m5ATR j) as [a|] eqn:Ea; [|apply Hnext].
  destruct (shift_quality cfg (m5 !!! j) a) eqn:Eq; [|apply Hnext]. split; [lia|]. split_and!; try done.
  - intros i Hi. apply Hin'. lia.
  - by apply crt_structureLevel_spec.
Qed.
Lemma lowest_is from to : lowest m5 from to = LevelEpisode.lowest m5 from to.
Proof. done. Qed.

(** What a confirmed episode is. *)
Record episode_ok (ep : episode) : Prop := {
  ek_order : e_s0 ep ≤ e_extreme ep ≤ e_r ep ∧ e_r ep ≤ e_m ep < length m5;
  ek_reclaim : reclaims_at (e_r ep) ∧ (barsBetween m5 (e_s0 ep) (e_r ep) <= ReclaimMaxBars cfg)%Z ∧
    (∀ i, e_s0 ep ≤ i < e_r ep → ¬ reclaims_at i) ∧ ∀ i, e_s0 ep ≤ i ≤ e_r ep → (close i >? an_High anchor)%float = false;
  ek_shift : if bool_decide (ConfirmationMode cfg = ConfirmationSweepReclaim) then e_m ep = e_r ep ∧ e_shift ep = None
    else e_r ep < e_m ep ∧ ∃ a, shifts_at (e_r ep) (e_extreme ep) (e_m ep) (e_level ep) (e_levelIndex ep) a ∧
      e_shift ep = Some (mkShift (e_level ep) (c_Time (m5 !!! e_levelIndex ep)) (c_Time (m5 !!! e_m ep)) (close (e_m ep)) (bodyRatio (m5 !!! e_m ep))
        ((close (e_m ep) - c_Open (m5 !!! e_m ep)) / a)%float (closeStrength (m5 !!! e_m ep)) (barsBetween m5 (e_r ep) (e_m ep)))
}.
Lemma runEpisode_spec s0 : s0 < length m5 →
  match runEpisode cfg m5 m5ATR anchor s0 with
  | episodePending => True
  | episodeVoid _ resume => s0 < resume
  | episodeConfirmed ep => e_s0 ep = s0 ∧ s0 ≤ e_m ep ∧ episode_ok ep
  end.
Proof.
  intros Hs. unfold runEpisode, from_bar, asOf. pose proof (crt_reclaim_loop_spec s0 (length m5 - s0) s0) as H.
  destruct (reclaim_loop _ _ _ _ _ _) as [r|j|j|]; [|lia|lia|].
  - destruct H as (Hr & Hrec & Hb & Hno & Hov). pose proof (LevelEpisode.lowest_range m5 s0 r ltac:(lia)) as Hext.
    destruct (bool_decide (ConfirmationMode cfg = ConfirmationSweepReclaim)) eqn:Em.
    + split; [done|]. cbn. split; [lia|]. split; cbn; [|done|by rewrite Em]. rewrite lowest_is. lia.
    + pose proof (crt_shift_loop_spec r (lowest m5 s0 r) (length m5 - (r + 1)) (r + 1) false false) as Hsh.
      specialize (Hsh ltac:(intros; lia) ltac:(lia)).
      destruct (shift_loop _ _ _ _ _ _ _ _ _) as [c level p a|c|c|x y]; [|lia|lia|].
      * destruct Hsh as [Hc Hsh]. split; [done|]. cbn. split; [lia|]. split; cbn; [|done|].
        { rewrite lowest_is. lia. }
        rewrite Em. split; [lia|]. by exists a.
      * destruct (_ <? _)%Z; [done|lia].
  - destruct (_ <? _)%Z; [done|]. destruct (List.find _ _) as [j|] eqn:Ef; [|lia]. apply find_some in Ef as [Hin%in_seq _]. lia.
Qed.

(** * Lemmas: the target *)

(** A confirmed swing between the entry and the opposite edge that nothing has traded through. *)
Definition stands (entryTop : float) (p : nat) : Prop :=
  p + pivotBars cfg ≤ asOf m5 ∧ (high p >? entryTop)%float = true ∧ (high p <? an_High anchor)%float = true ∧
  ∀ k, p < k < length m5 → (high k >? high p)%float = false.
Definition nearest_of (entryTop : float) (l : list nat) (best : float * bool) : Prop :=
  if best.2 then (∃ p, p ∈ l ∧ stands entryTop p ∧ best.1 = high p) ∧ (∀ q, q ∈ l → stands entryTop q → (key best.1 <= key (high q))%Z)
  else best.1 = an_High anchor ∧ ∀ q, q ∈ l → ¬ stands entryTop q.
Lemma target_step_spec entryTop l best p :
  nearest_of entryTop l best → nearest_of entryTop (l ++ [p]) (target_step cfg m5 anchor entryTop best p).
Proof.
  intros Hb. assert (Hkeep : ¬ stands entryTop p ∨ best.2 = true ∧ (key best.1 <= key (high p))%Z → nearest_of entryTop (l ++ [p]) best).
  { intros Hp. unfold nearest_of in *. destruct best as [b [|]]; cbn in *.
    - destruct Hb as [(q & Hq & Hs & ->) Hmin]. split; [exists q; split; [apply elem_of_app; by left|done]|].
      intros r [Hr| ->%list_elem_of_singleton]%elem_of_app Hs'; [by apply Hmin|]. destruct Hp as [Hp|[_ Hp]]; [by destruct Hp|done].
    - destruct Hb as [-> Hno]. split; [done|]. intros r [Hr| ->%list_elem_of_singleton]%elem_of_app Hs'; [by eapply Hno|].
      destruct Hp as [Hp|[Hp _]]; [by apply Hp|done]. }
  unfold target_step. destruct (Nat.ltb_spec (asOf m5) (p + pivotBars cfg)).
  { apply Hkeep. left. intros (H1 & _). lia. }
  cbv zeta. destruct ((high p >? entryTop)%float && (high p <? an_High anchor)%float) eqn:E1; cbn [negb orb].
  2:{ apply Hkeep. left. intros (_ & H1 & H2 & _). by rewrite H1, H2 in E1. }
  apply andb_true_iff in E1 as [E1 E2]. destruct (best.2 && (high p >=? best.1)%float) eqn:E3.
  { apply Hkeep. right. apply andb_true_iff in E3 as [E3 E4]. split; [done|]. rewrite leb_key in E4. bools. by apply Z.leb_le. }
  destruct (existsb _ (from_bar m5 (p + 1))) eqn:E4.
  { apply Hkeep. left. intros (_ & _ & _ & Hk). apply existsb_exists in E4 as (k & Hin%in_seq & Ek). rewrite (Hk k) in Ek by lia. done. }
  assert (Hst : stands entryTop p).
  { split_and!; [lia|done|done|]. intros k Hk. apply Bool.not_true_is_false. intros Ek.
    assert (existsb (λ k, (high k >? high p)%float) (from_bar m5 (p + 1)) = true); [|congruence]. apply existsb_exists. exists k. split; [apply in_seq; lia|done]. }
  unfold nearest_of. cbn. split; [exists p; split; [apply elem_of_app; right; by left|done]|].
  intros q [Hq| ->%list_elem_of_singleton]%elem_of_app Hs; [|lia]. unfold nearest_of in Hb. destruct best as [b [|]]; cbn in *.
  - destruct Hb as [(r & _ & (_ & _ & Hr & _) & ->) Hmin]. specialize (Hmin q Hq Hs). apply ltb_nums in Hr as (N1 & _ & _).
    apply ltb_nums in E2 as (N2 & _ & _). rewrite leb_num in E3 by done. apply Z.leb_gt in E3. lia.
  - by destruct Hb as [_ Hno]; destruct (Hno q Hq).
Qed.
Lemma target_spec entryTop t kind : target cfg m5 anchor entryTop = (t, kind) →
  (kind = TargetOppositeRange ∧ t = an_High anchor ∧ ∀ q, q ∈ pivots cfg m5 → ¬ stands entryTop q) ∨
  (kind = TargetNearestSwingHigh ∧ (∃ p, p ∈ pivots cfg m5 ∧ stands entryTop p ∧ t = high p) ∧
   ∀ q, q ∈ pivots cfg m5 → stands entryTop q → (key t <= key (high q))%Z).
Proof.
  unfold target. assert (H : ∀ l pre best, nearest_of entryTop pre best → nearest_of entryTop (pre ++ l) (foldl (target_step cfg m5 anchor entryTop) best l)).
  { induction l as [|p l IH]; intros pre best Hb; cbn [foldl]; [by rewrite app_nil_r|].
    rewrite cons_middle, app_assoc. by apply IH, target_step_spec. }
  specialize (H (pivots cfg m5) [] (an_High anchor, false)). cbn [app] in H. specialize (H ltac:(split; [done|by intros q ?%not_elem_of_nil])).
  destruct (foldl _ _ _) as [b [|]]; unfold nearest_of in H; cbn in H; intros [= <- <-]; [right; split; [done|exact H]|left; split_and!; [done|done|by apply H]].
Qed.

(** * Lemmas: a finalized setup *)

(** What a setup of the bullish orientation is, for the anchor and the first bar [i0] after it. *)
Record setup_ok (i0 : nat) (ep : episode) (s : Setup) : Prop := {
  so_names : su_Direction s = dir ∧ su_Anchor s = anchor ∧ su_Shift s = e_shift ep ∧ su_ConfirmedAt s = c_Time (m5 !!! e_m ep) ∧
    sw_BarTime (su_Sweep s) = c_Time (m5 !!! e_s0 ep) ∧ rc_BarTime (su_Reclaim s) = c_Time (m5 !!! e_r ep) ∧ rc_Close (su_Reclaim s) = close (e_r ep) ∧
    su_ConfirmationAge s = barsBetween m5 (e_m ep) (asOf m5) ∧ reading m5ATR (e_m ep) = Some (su_M5ATR s);
  so_raids : (∀ k, e_s0 ep ≤ k ≤ e_m ep → raids_opposite cfg m5 m5ATR anchor k = false) ∧
    (su_DoubleRaidResolved s = true ↔ ∃ k, i0 ≤ k < e_s0 ep ∧ raids_opposite cfg m5 m5ATR anchor k = true) ∧
    (∀ k, i0 ≤ k < e_s0 ep → raids_opposite cfg m5 m5ATR anchor k = true → ∃ j, k ≤ j < e_s0 ep ∧ (close j <=? an_High anchor)%float = true);
  so_untouched : ∀ k, e_s0 ep ≤ k < length m5 → (high k >=? an_High anchor)%float = false;
  so_extreme : ∃ x, i0 ≤ x ≤ e_m ep ∧ sw_ExtremePrice (su_Sweep s) = low x ∧ sw_ExtremeTime (su_Sweep s) = c_Time (m5 !!! x) ∧
    ((∀ k, i0 ≤ k ≤ e_m ep → IsNaN (low k) = false) → ∀ k, i0 ≤ k ≤ e_m ep → (key (low x) <= key (low k))%Z);
  so_alive : ∀ k, e_m ep < k < length m5 → (close k <? an_Low anchor)%float = false ∧ (low k <? sw_ExtremePrice (su_Sweep s))%float = false;
  so_entry : (su_EntryLow s, su_EntryHigh s) = entry_band cfg anchor (e_level ep) (su_M5ATR s) ∧
    (close (asOf m5) <? su_EntryLow s)%float = false ∧ (close (asOf m5) >=? an_High anchor)%float = false;
  so_order : (su_Stop s <? sw_ExtremePrice (su_Sweep s))%float = true ∧ (su_Stop s <? su_EntryLow s)%float = true ∧
    (su_EntryLow s <? su_EntryHigh s)%float = true ∧ (su_Target s - su_EntryHigh s >? 0)%float = true;
  so_stop : su_Stop s = (sw_ExtremePrice (su_Sweep s) - math_Max (PipSize cfg) (InvalidationBufferATR cfg * su_M5ATR s))%float;
  so_target : (su_Target s, su_TargetKind s) = target cfg m5 anchor (su_EntryHigh s);
  so_reward : (su_Target s - su_EntryHigh s <? MinimumTargetRoomATR cfg * su_M5ATR s)%float = false ∧
    su_RiskPips s = ((su_EntryHigh s - su_Stop s) / PipSize cfg)%float ∧ su_RewardPips s = ((su_Target s - su_EntryHigh s) / PipSize cfg)%float ∧
    su_TechnicalRR s = ((su_Target s - su_EntryHigh s) / (su_EntryHigh s - su_Stop s))%float ∧
    (su_TechnicalRR s <? MinimumRewardRisk cfg)%float = false ∧
    ((ExecutionStopMaxPips cfg >? 0)%float = true → (su_RiskPips s >? ExecutionStopMaxPips cfg)%float = false)
}.
Lemma last_opposite_spec i0 s0 :
  match last_opposite cfg m5 m5ATR anchor i0 s0 with
  | Some k => i0 ≤ k < s0 ∧ raids_opposite cfg m5 m5ATR anchor k = true ∧ ∀ j, i0 ≤ j < s0 → raids_opposite cfg m5 m5ATR anchor j = true → j ≤ k
  | None => ∀ j, i0 ≤ j < s0 → raids_opposite cfg m5 m5ATR anchor j = false
  end.
Proof.
  unfold last_opposite. remember (s0 - i0) as n eqn:En. assert (H : ∀ n, match last (List.filter (raids_opposite cfg m5 m5ATR anchor) (seq i0 n)) with
    | Some k => i0 ≤ k < i0 + n ∧ raids_opposite cfg m5 m5ATR anchor k = true ∧ ∀ j, i0 ≤ j < i0 + n → raids_opposite cfg m5 m5ATR anchor j = true → j ≤ k
    | None => ∀ j, i0 ≤ j < i0 + n → raids_opposite cfg m5 m5ATR anchor j = false
    end).
  { clear. induction n as [|n IH]; [cbn; intros; lia|]. rewrite seq_S, List.filter_app. cbn [List.filter].
    destruct (raids_opposite cfg m5 m5ATR anchor (i0 + n)) eqn:E.
    - rewrite last_snoc. split; [lia|]. split; [done|]. intros; lia.
    - rewrite app_nil_r. destruct (last _) as [k|].
      + destruct IH as (H1 & H2 & H3). split; [lia|]. split; [done|]. intros j Hj Ej. destruct (decide (j = i0 + n)) as [->|]; [congruence|]. apply H3; [lia|done].
      + intros j Hj. destruct (decide (j = i0 + n)) as [->|]; [done|]. apply IH. lia. }
  specialize (H n). destruct (last _) as [k|].
  - destruct H as (H1 & H2 & H3). split; [lia|]. split; [done|]. intros j Hj. apply H3. lia.
  - intros j Hj. apply H. lia.
Qed.
Lemma thesis_spec i0 ep resolved : thesis cfg m5 m5ATR anchor i0 ep = inr resolved →
  ((∀ k, e_s0 ep ≤ k ≤ e_m ep → raids_opposite cfg m5 m5ATR anchor k = false) ∧
   (resolved = true ↔ ∃ k, i0 ≤ k < e_s0 ep ∧ raids_opposite cfg m5 m5ATR anchor k = true) ∧
   (∀ k, i0 ≤ k < e_s0 ep → raids_opposite cfg m5 m5ATR anchor k = true → ∃ j, k ≤ j < e_s0 ep ∧ (close j <=? an_High anchor)%float = true)) ∧
  (∀ k, e_s0 ep ≤ k < length m5 → (high k >=? an_High anchor)%float = false) ∧
  (∀ k, e_m ep < k < length m5 → (close k <? an_Low anchor)%float = false ∧ (low k <? low (lowest m5 i0 (e_m ep)))%float = false).
Proof.
  unfold thesis. destruct (opposite_during cfg m5 m5ATR anchor (e_s0 ep) (e_m ep)) eqn:Eo; [done|].
  pose proof (last_opposite_spec i0 (e_s0 ep)) as Hl. set (before := last_opposite _ _ _ _ _ _) in *.
  destruct (match before with Some _ => _ | None => _ end) eqn:Ec; cbn [negb]; [|done].
  destruct (existsb _ (from_bar m5 (e_s0 ep))) eqn:Et; [done|]. destruct (existsb _ (from_bar m5 (e_m ep + 1))) eqn:Ei; [done|].
  intros [= <-]. split_and!.
  - intros k Hk. apply (existsb_miss _ _ k Eo). apply in_seq. lia.
  - destruct before as [k|]; (split; [|done || (intros (j & Hj & Ej); by rewrite Hl in Ej)]); [|done]. intros _. exists k. by destruct Hl as (? & ? & _).
  - intros k Hk Ek. destruct before as [lob|]; [|by rewrite Hl in Ek]. destruct Hl as (Hlob & _ & Hmax).
    apply existsb_exists in Ec as (j & Hj%in_seq & Ej). exists j. split; [|done]. specialize (Hmax k Hk Ek). lia.
  - intros k Hk. apply (existsb_miss _ _ k Et). apply in_seq. lia.
  - intros k Hk. apply (existsb_miss _ _ k) in Ei; [by apply orb_false_iff in Ei|]. apply in_seq. lia.
Qed.
Lemma finalize_spec i0 ep s : i0 ≤ e_s0 ep ≤ e_m ep → finalize cfg dir m5 m5ATR anchor i0 ep = inr s → setup_ok i0 ep s.
Proof.
  intros Hi. unfold finalize. destruct (reading m5ATR (e_m ep)) as [atr|] eqn:Ea; [|done].
  destruct (thesis cfg m5 m5ATR anchor i0 ep) as [|resolved] eqn:Eth; [done|]. destruct (thesis_spec _ _ _ Eth) as (Hraids & Hun & Hal).
  cbv zeta. destruct (entry_band cfg anchor (e_level ep) atr) as [lower upper] eqn:Eb.
  destruct (upper >? lower)%float eqn:E1; cbn [negb]; [|done].
  destruct ((close (asOf m5) <? lower)%float || (close (asOf m5) >=? an_High anchor)%float) eqn:E2; [done|]. apply orb_false_iff in E2 as [E2 E2'].
  set (stop := (c_Low _ - _)%float). destruct (negb (stop <? low (lowest m5 i0 (e_m ep)))%float || negb (stop <? lower)%float) eqn:E3; [done|].
  apply orb_false_iff in E3 as [E3%negb_false_iff E3'%negb_false_iff]. destruct (target cfg m5 anchor upper) as [tgt kind] eqn:Et.
  destruct (negb (tgt - upper >? 0)%float || (tgt - upper <? MinimumTargetRoomATR cfg * atr)%float) eqn:E4; [done|].
  apply orb_false_iff in E4 as [E4%negb_false_iff E4'].
  destruct ((ExecutionStopMaxPips cfg >? 0)%float && ((upper - stop) / PipSize cfg >? ExecutionStopMaxPips cfg)%float) eqn:E5; [done|].
  destruct ((tgt - upper) / (upper - stop) <? MinimumRewardRisk cfg)%float eqn:E6; [done|]. intros [= <-].
  split; cbn [su_Direction su_Anchor su_Sweep su_Reclaim su_Shift su_ConfirmedAt su_ConfirmationAge su_DoubleRaidResolved su_EntryLow su_EntryHigh su_Stop
    su_Target su_TargetKind su_M5ATR su_RiskPips su_RewardPips su_TechnicalRR sw_BarTime sw_ExtremePrice sw_ExtremeTime rc_BarTime rc_Close].
  - done.
  - done.
  - done.
  - exists (lowest m5 i0 (e_m ep)). split; [apply (LevelEpisode.lowest_range m5); lia|]. split_and!; [done|done|].
    intros Hn. apply (LevelEpisode.lowest_spec m5 i0 (e_m ep)); [lia|done].
  - done.
  - split; [by rewrite Eb|done].
  - done.
  - done.
  - done.
  - split_and!; try done. intros Em. by rewrite Em in E5.
Qed.

(** * Lemmas: an anchor *)

(** A setup found at the anchor: its episode sweeps the edge inside the window and its confirmation is fresh. *)
Definition anchor_setup (i0 : nat) (s : Setup) : Prop :=
  ∃ ep, episode_ok ep ∧ i0 ≤ e_s0 ep ≤ e_m ep ∧ raids cfg m5 m5ATR anchor (e_s0 ep) = true ∧ (c_Time (m5 !!! e_s0 ep) < window_end cfg anchor)%Z ∧
    (barsBetween m5 (e_m ep) (asOf m5) <= ConfirmationMaxAgeBars cfg)%Z ∧ setup_ok i0 ep s.
(** Only rejections are added. *)
Definition same_but_rejections (out out' : Analysis) : Prop :=
  EvaluatedAt out' = EvaluatedAt out ∧ Anchors out' = Anchors out ∧ Setups out' = Setups out ∧ ∃ more, Rejections out' = Rejections out ++ more.
Lemma crt_same_refl out : same_but_rejections out out.
Proof. split_and!; try done. exists []. by rewrite app_nil_r. Qed.
Lemma same_reject reason i out : same_but_rejections out (reject dir m5 reason anchor i out).
Proof. split_and!; try done. by eexists. Qed.
Lemma crt_same_trans a b c : same_but_rejections a b → same_but_rejections b c → same_but_rejections a c.
Proof.
  intros (H1 & H2 & H3 & more & H4) (H1' & H2' & H3' & more' & H4'). split_and!; try congruence. exists (more ++ more'). by rewrite H4', H4, app_assoc.
Qed.
Lemma anchor_loop_spec fuel i0 : ∀ i best out,
  m5 ≠ [] → i0 ≤ i → length m5 < fuel + i → 0 < fuel → (∀ s, best = Some s → anchor_setup i0 s) →
  ∃ best' out', anchor_loop cfg dir m5 m5ATR fuel anchor i0 i best out = Some (best', out') ∧ (∀ s, best' = Some s → anchor_setup i0 s) ∧
    same_but_rejections out out'.
Proof.
  induction fuel as [|fuel IH]; intros i best out Hne Hi Hf H0 Hb; [lia|]. assert (0 < length m5) by (destruct m5; [done|cbn; lia]).
  cbn [anchor_loop]. destruct ((asOf m5 <? i) || negb (c_Time (m5 !!! i) <? window_end cfg anchor)%Z) eqn:Ew.
  { exists best, out. split_and!; [done|done|apply crt_same_refl]. }
  apply orb_false_iff in Ew as [Ew%Nat.ltb_ge Et%negb_false_iff%Z.ltb_lt]. unfold asOf in Ew.
  destruct (raids cfg m5 m5ATR anchor i) eqn:Er; cbn [negb]; [|apply IH; try done; lia].
  pose proof (runEpisode_spec i ltac:(lia)) as Hep. destruct (runEpisode cfg m5 m5ATR anchor i) as [|reason resume|ep].
  - apply IH; try done; unfold asOf; lia.
  - destruct (IH resume best (reject dir m5 reason anchor i out)) as (b' & o' & E & H1 & H2); try done; try lia.
    exists b', o'. split_and!; [done|done|]. eapply crt_same_trans; [apply same_reject|done].
  - destruct Hep as (Es & Hsm & Hok). destruct (Z.leb_spec (barsBetween m5 (e_m ep) (asOf m5)) (ConfirmationMaxAgeBars cfg)) as [Hage|]; [|apply IH; try done; lia].
    destruct (finalize cfg dir m5 m5ATR anchor i0 ep) as [reason|s] eqn:Ef.
    + destruct (IH (e_m ep + 1) best (reject dir m5 reason anchor (e_s0 ep) out)) as (b' & o' & E & H1 & H2); try done; try lia.
      exists b', o'. split_and!; [done|done|]. eapply crt_same_trans; [apply same_reject|done].
    + apply IH; try done; try lia. intros s' [= <-]. exists ep. split; [done|]. split; [lia|]. split; [congruence|]. split; [congruence|]. split; [done|].
      apply finalize_spec; [lia|done].
Qed.
End lemmas.

(** * Lemmas: both directions *)

Section detection.
Context (cfg : Config) (h1 m5 : list Candle) (h1ATR m5ATR : Indicator.WilderWindow) (evalClose : Z).
(** The anchor of the [a]-th H1 candle, wide enough against its volatility. *)
Definition anchor_of (dir : string) (a : nat) (anchor : Anchor) : Prop :=
  let c := oriented dir h1 !!! a in
  ∃ atr, reading h1ATR a = Some atr ∧ anchor = mkAnchor (c_Time c) (c_Time c + h1Seconds) (c_High c) (c_Low c) atr ((c_High c - c_Low c) / atr)%float ∧
    (c_High c - c_Low c >? 0)%float = true ∧ ((c_High c - c_Low c) / atr <? MinimumH1RangeATR cfg)%float = false.
(** A setup of the analysis: the reflection of one found at an anchor in the orientation of its direction. *)
Definition found (dir : string) (a : nat) (s : Setup) : Prop :=
  ∃ anchor s', a < length h1 ∧ anchor_of dir a anchor ∧ s = toOriginal dir s' ∧
    anchor_setup cfg dir (oriented dir m5) m5ATR anchor (firstAtOrAfter (oriented dir m5) (an_CloseTime anchor)) s'.
Lemma length_oriented dir bars : length (oriented dir bars) = length bars.
Proof. unfold oriented, Mirror. case_bool_decide; [by rewrite length_map|done]. Qed.
Lemma anchorAt_spec dir a out anchor out' :
  IsNaN (c_High (oriented dir h1 !!! a) - c_Low (oriented dir h1 !!! a)) = false →
  anchorAt cfg dir (oriented dir h1) (oriented dir m5) h1ATR m5ATR a out = (anchor, out') →
  same_but_rejections out out' ∧ ∀ x, anchor = Some x → anchor_of dir a x.
Proof.
  intros Hn. unfold anchorAt. destruct (reading h1ATR a) as [atr|] eqn:Ea; [|intros [= <- <-]; split; [apply crt_same_refl|done]].
  set (c := oriented dir h1 !!! a) in *. cbv zeta. set (w := (c_High c - c_Low c)%float) in *.
  destruct (_ || _) eqn:Eb.
  - intros [= <- <-]. split; [|done]. destruct (firstRaid _ _ _ _ _); [apply same_reject|apply crt_same_refl].
  - intros [= <- <-]. split; [apply crt_same_refl|]. intros x [= <-]. apply orb_false_iff in Eb as [E1 E2].
    assert (Hw : (w >? 0)%float = true).
    { rewrite leb_num in E1 by done. rewrite ltb_num by done. apply Z.leb_gt in E1. by apply Z.ltb_lt. }
    rewrite Hw in *. exists atr. split_and!; done.
Qed.
Lemma scan_spec dir n : ∀ out, n ≤ length h1 → m5 ≠ [] →
  (∀ a, a < length h1 → IsNaN (c_High (oriented dir h1 !!! a) - c_Low (oriented dir h1 !!! a)) = false) →
  ∃ out' new, scan cfg h1 m5 h1ATR m5ATR evalClose dir n out = Some out' ∧ EvaluatedAt out' = EvaluatedAt out ∧
    Setups out' = Setups out ++ map snd new ∧ Forall (λ p, p.1 < n ∧ found dir p.1 p.2) new ∧ StronglySorted (λ p q, q.1 < p.1) new.
Proof.
  induction n as [|a IH]; intros out Hn Hne Hnan; cbn [scan].
  { exists out, []. cbn. rewrite app_nil_r. split_and!; try done; constructor. }
  destruct (_ <=? _)%Z; [exists out, []; cbn; rewrite app_nil_r; split_and!; try done; constructor|].
  set (out1 := if bool_decide (dir = Market.Buy) then _ else _).
  assert (EvaluatedAt out1 = EvaluatedAt out ∧ Setups out1 = Setups out) as [E1 E1'] by (unfold out1; case_bool_decide; done).
  destruct (anchorAt _ _ _ _ _ _ _ _) as [anchor out2] eqn:Ea. apply anchorAt_spec in Ea as [(E2 & _ & E2' & _) Hanchor]; [|apply Hnan; lia].
  assert (Hrest : ∀ out3, EvaluatedAt out3 = EvaluatedAt out → (∃ pre, Setups out3 = Setups out ++ map snd pre ∧ Forall (λ p, p.1 = a ∧ found dir p.1 p.2) pre ∧ length pre ≤ 1) →
    ∃ out' new, scan cfg h1 m5 h1ATR m5ATR evalClose dir a out3 = Some out' ∧ EvaluatedAt out' = EvaluatedAt out ∧
      Setups out' = Setups out ++ map snd new ∧ Forall (λ p, p.1 < S a ∧ found dir p.1 p.2) new ∧ StronglySorted (λ p q, q.1 < p.1) new).
  { intros out3 E3 (pre & Epre & Hpre & Hlen). destruct (IH out3 ltac:(lia) Hne Hnan) as (out' & new & Es & Ee & Eset & Hnew & Hsort).
    exists out', (pre ++ new). split_and!; [done|congruence| | |].
    - by rewrite Eset, Epre, map_app, app_assoc.
    - apply Forall_app. split; [eapply Forall_impl; [exact Hpre|]; intros p [-> ?]; split; [lia|done]|].
      eapply Forall_impl; [exact Hnew|]. intros p [? ?]. split; [lia|done].
    - destruct pre as [|p [|]]; [done| |cbn in Hlen; lia]. cbn. constructor; [done|]. apply Forall_cons in Hpre as [[-> _] _].
      eapply Forall_impl; [exact Hnew|]. intros q [? _]. done. }
  destruct anchor as [anchor|].
  2:{ apply Hrest; [congruence|]. exists []. cbn. rewrite app_nil_r. split_and!; [congruence|constructor|lia]. }
  unfold scanAnchor. set (bars := oriented dir m5). set (i0 := firstAtOrAfter bars (an_CloseTime anchor)).
  destruct (anchor_loop_spec cfg dir bars m5ATR anchor (length bars + 2) i0 i0 None out2) as (best & out3 & E3 & Hbest & Hs); try done; try lia.
  { intros E. apply Hne. apply length_zero_iff_nil. rewrite <- (length_oriented dir). fold bars. by rewrite E. }
  rewrite E3. cbn [mbind option_bind]. destruct Hs as (S1 & _ & S3 & _). destruct best as [s|]; apply Hrest; cbn; try congruence.
  - exists [(a, toOriginal dir s)]. cbn. split_and!; [congruence| |lia]. repeat constructor. exists anchor, s. cbn. split_and!; [lia|by apply Hanchor|done|by apply Hbest].
  - exists []. cbn. rewrite app_nil_r. split_and!; [congruence|constructor|lia].
Qed.
End detection.

(** * Lemmas: the whole detection *)

Lemma valid_oriented dir bars : ValidSeries bars = true → ValidSeries (oriented dir bars) = true.
Proof. unfold oriented. case_bool_decide; [|done]. unfold ValidSeries. by rewrite ValidSeries_from_mirror. Qed.
Lemma valid_bar bars k : ValidSeries bars = true → k < length bars → candle_ok (bars !!! k).
Proof.
  intros (H & _)%ValidSeries_from_spec Hk. rewrite Forall_forall in H. apply H. apply (list_elem_of_lookup_2 _ k). by apply list_lookup_lookup_total_lt.
Qed.
Lemma valid_times bars i j : ValidSeries bars = true → i < j < length bars → (c_Time (bars !!! i) < c_Time (bars !!! j))%Z.
Proof. intros (_ & H & _)%ValidSeries_from_spec. by apply Structure.sorted_times_lt. Qed.
Lemma oriented_time dir bars k : k < length bars → c_Time (oriented dir bars !!! k) = c_Time (bars !!! k).
Proof.
  intros Hk. unfold oriented. case_bool_decide; [|done]. unfold Mirror.
  destruct (lookup_lt_is_Some_2 bars k Hk) as [c Ec]. rewrite (list_lookup_total_correct _ _ _ Ec).
  rewrite (list_lookup_total_correct (map Mirror_candle bars) k (Mirror_candle c)); [done|]. change map with (@fmap list _). by rewrite list_lookup_fmap, Ec.
Qed.
Definition dedup_setups (setups : list Setup) : list Setup :=
  omap (λ p, if tied setups p.1 p.2 || superseded setups p.1 p.2 then None else Some p.2) (imap pair setups).
(** The setups of one direction, with the positions of their anchors, the latest first. *)
Definition direction_setups (cfg : Config) (h1 m5 : list Candle) (dir : string) (l : list (nat * Setup)) : Prop :=
  let w bars := newATRWindow bars (ATRLength cfg) (ATRWindowBars cfg) in
  Forall (λ p, found cfg h1 m5 (w h1) (w m5) dir p.1 p.2) l ∧ StronglySorted (λ p q, q.1 < p.1) l.
Lemma detect_spec cfg inH1 inM5 asOf : ∃ out, detectAsOf cfg inH1 inM5 asOf = Some out ∧
  (Setups out = [] ∨ (0 <= asOf < Z.of_nat (length inM5))%Z ∧
   let m5 := take (S (Z.to_nat asOf)) inM5 in let h1 := closed_h1 inH1 (EvaluatedAt out) in
   EvaluatedAt out = (c_Time (m5 !!! Z.to_nat asOf) + m5Seconds)%Z ∧ ValidSeries h1 = true ∧ ValidSeries m5 = true ∧
   ∃ buys sells, direction_setups cfg h1 m5 Market.Buy buys ∧ direction_setups cfg h1 m5 Market.Sell sells ∧
     Setups out = sort_slice setup_less (dedup_setups (map snd (buys ++ sells)))).
Proof.
  unfold detectAsOf. destruct ((asOf <? 0)%Z || (Z.of_nat (length inM5) <=? asOf)%Z) eqn:Er; [eexists; split; [done|by left]|].
  apply orb_false_iff in Er as [E1%Z.ltb_ge E2%Z.leb_gt]. set (m5 := take _ inM5). cbv zeta. set (evalClose := (_ + m5Seconds)%Z). set (h1 := closed_h1 inH1 evalClose).
  destruct (ValidSeries h1) eqn:V1; [|eexists; split; [done|by left]]. destruct (ValidSeries m5) eqn:V2; [|eexists; split; [done|by left]]. cbn [negb orb].
  destruct (Indicator.Enough (newATRWindow h1 _ _)); [|eexists; split; [done|by left]]. destruct (Indicator.Enough (newATRWindow m5 _ _)); [|eexists; split; [done|by left]].
  cbn [negb]. set (w1 := newATRWindow h1 _ _). set (w5 := newATRWindow m5 _ _). assert (Hne : m5 ≠ []).
  { intros E. assert (length m5 = 0) by by rewrite E. unfold m5 in *. rewrite length_take in *. lia. }
  assert (Hnan : ∀ dir a, a < length h1 → IsNaN (c_High (oriented dir h1 !!! a) - c_Low (oriented dir h1 !!! a)) = false).
  { intros dir a Ha. pose proof (valid_bar (oriented dir h1) a ltac:(by apply valid_oriented) ltac:(by rewrite length_oriented)) as Hc. apply sub_not_nan; by destruct Hc. }
  destruct (scan_spec cfg h1 m5 w1 w5 evalClose Market.Buy (length h1) (mkAnalysis evalClose 0 [] []) ltac:(lia) Hne (Hnan _)) as (o1 & buys & Es1 & Ee1 & Set1 & F1 & S1).
  rewrite Es1. cbn [mbind option_bind].
  destruct (scan_spec cfg h1 m5 w1 w5 evalClose Market.Sell (length h1) o1 ltac:(lia) Hne (Hnan _)) as (o2 & sells & Es2 & Ee2 & Set2 & F2 & S2).
  rewrite Es2. cbn [mbind option_bind]. eexists. split; [done|]. right. split; [lia|]. cbn [EvaluatedAt resolveOpposing Setups]. rewrite Ee2, Ee1. cbn [EvaluatedAt].
  fold h1. split_and!; [done|done|done|]. exists buys, sells. split_and!.
  - split; [|done]. eapply Forall_impl; [exact F1|]. by intros p [_ ?].
  - split; [|done]. eapply Forall_impl; [exact F2|]. by intros p [_ ?].
  - unfold dedup_setups. by rewrite Set2, Set1, map_app.
Qed.
Lemma closed_h1_closed h1 t k : ValidSeries (closed_h1 h1 t) = true → k < length (closed_h1 h1 t) → (c_Time (closed_h1 h1 t !!! k) + h1Seconds <= t)%Z.
Proof.
  intros Hv Hk. set (c := closed_h1 h1 t) in *. pose proof (bsearch_before (length h1) (λ i, negb (c_Time (h1 !!! i) + h1Seconds >? t)%Z)) as Hb.
  assert (Hlen : length c = Nat.min (bsearch (length h1) (λ i, negb (c_Time (h1 !!! i) + h1Seconds >? t)%Z)) (length h1)) by apply length_take.
  destruct (bsearch _ _) as [|n] eqn:En; [lia|].
  assert (Hn : n < length h1 → (c_Time (c !!! n) + h1Seconds <= t)%Z).
  { intros Hn. unfold c, closed_h1. rewrite En, lookup_total_take by lia. apply negb_true_iff in Hb. lia. }
  destruct (decide (n < length h1)) as [Hl|Hl].
  - destruct (decide (k = n)) as [->|]; [by apply Hn|]. pose proof (valid_times c k n Hv ltac:(lia)). specialize (Hn Hl). lia.
  - exfalso. pose proof (bsearch_le (length h1) (λ i, negb (c_Time (h1 !!! i) + h1Seconds >? t)%Z)). lia.
Qed.
Lemma first_at_or_after bars t k : ValidSeries bars = true → firstAtOrAfter bars t ≤ k < length bars → (t <= c_Time (bars !!! k))%Z.
Proof.
  intros Hv Hk. destruct (bsearch_spec_bounded (length bars) (λ i, negb (c_Time (bars !!! i) >=? t)%Z)) as (_ & _ & H).
  { intros i j Hij Hj. apply negb_true_iff in Hj. apply negb_true_iff. destruct (decide (i = j)) as [->|]; [done|].
    pose proof (valid_times bars i j Hv ltac:(lia)). lia. }
  specialize (H k Hk). cbn beta in H. apply negb_false_iff in H. lia.
Qed.
(** What a published setup says in the prices of the plain candles. *)
Record setup_sound (cfg : Config) (h1 m5 : list Candle) (evaluated : Z) (s : Setup) : Prop := {
  ss_found : (su_Direction s = Market.Buy ∨ su_Direction s = Market.Sell) ∧
    let w bars := newATRWindow bars (ATRLength cfg) (ATRWindowBars cfg) in ∃ a, found cfg h1 m5 (w h1) (w m5) (su_Direction s) a s;
  ss_anchor : ∃ c, c ∈ h1 ∧ c_Time c = an_OpenTime (su_Anchor s) ∧ (c_Time c + h1Seconds <= evaluated)%Z ∧
    an_High (su_Anchor s) = c_High c ∧ an_Low (su_Anchor s) = c_Low c;
  ss_times : (an_CloseTime (su_Anchor s) <= sw_BarTime (su_Sweep s) < window_end cfg (su_Anchor s))%Z ∧
    (sw_BarTime (su_Sweep s) <= rc_BarTime (su_Reclaim s) <= su_ConfirmedAt s)%Z ∧ (su_ConfirmedAt s < evaluated)%Z ∧
    (ConfirmationMode cfg ≠ ConfirmationSweepReclaim → (rc_BarTime (su_Reclaim s) < su_ConfirmedAt s)%Z ∧ is_Some (su_Shift s));
  ss_prices : (key (su_EntryLow s) < key (su_EntryHigh s))%Z ∧
    if bool_decide (su_Direction s = Market.Sell)
    then (key (sw_ExtremePrice (su_Sweep s)) < key (su_Stop s))%Z ∧ (key (su_EntryHigh s) < key (su_Stop s))%Z ∧
      (key (an_Low (su_Anchor s)) <= key (su_Target s) < key (su_EntryLow s))%Z
    else (key (su_Stop s) < key (sw_ExtremePrice (su_Sweep s)))%Z ∧ (key (su_Stop s) < key (su_EntryLow s))%Z ∧
      (key (su_EntryHigh s) < key (su_Target s) <= key (an_High (su_Anchor s)))%Z;
  ss_reward : (su_TechnicalRR s <? MinimumRewardRisk cfg)%float = false ∧
    ((ExecutionStopMaxPips cfg >? 0)%float = true → (su_RiskPips s >? ExecutionStopMaxPips cfg)%float = false)
}.
Lemma target_within cfg m5 anchor top t kind :
  (∀ k, k < length m5 → finite (c_High (m5 !!! k)) = true) → finite (an_High anchor) = true →
  target cfg m5 anchor top = (t, kind) → finite t = true ∧ (key t <= key (an_High anchor))%Z.
Proof.
  intros Hf Fh H. destruct (target_spec _ _ _ _ _ _ H) as [(_ & -> & _)|(_ & (p & Hp & (_ & _ & Hlt & _) & ->) & _)]; [split; [done|lia]|].
  apply ltb_nums in Hlt as (_ & _ & Hlt). split; [|lia]. apply Hf. apply LevelEpisode.elem_of_pivots in Hp. lia.
Qed.
(** A setup of the bullish orientation, in the prices of that orientation. *)
Lemma bull_sound cfg dir m5 m5ATR anchor s :
  ValidSeries m5 = true → finite (an_High anchor) = true →
  anchor_setup cfg dir m5 m5ATR anchor (firstAtOrAfter m5 (an_CloseTime anchor)) s →
  su_Direction s = dir ∧ su_Anchor s = anchor ∧
  (an_CloseTime anchor <= sw_BarTime (su_Sweep s) < window_end cfg anchor)%Z ∧ (sw_BarTime (su_Sweep s) <= rc_BarTime (su_Reclaim s) <= su_ConfirmedAt s)%Z ∧
  (su_ConfirmedAt s <= c_Time (m5 !!! asOf m5))%Z ∧
  (ConfirmationMode cfg ≠ ConfirmationSweepReclaim → (rc_BarTime (su_Reclaim s) < su_ConfirmedAt s)%Z ∧ is_Some (su_Shift s)) ∧
  (key (su_EntryLow s) < key (su_EntryHigh s))%Z ∧ (key (su_Stop s) < key (sw_ExtremePrice (su_Sweep s)))%Z ∧ (key (su_Stop s) < key (su_EntryLow s))%Z ∧
  (key (su_EntryHigh s) < key (su_Target s) <= key (an_High anchor))%Z ∧ (su_TechnicalRR s <? MinimumRewardRisk cfg)%float = false ∧
  ((ExecutionStopMaxPips cfg >? 0)%float = true → (su_RiskPips s >? ExecutionStopMaxPips cfg)%float = false).
Proof.
  intros Hv Fh (ep & [Hord _ Hsh] & Hi & _ & Hw & _ & [N _ _ _ _ _ O _ T R]).
  destruct N as (N1 & N2 & N3 & N4 & N5 & N6 & _). destruct O as (O1 & O2 & O3 & O4). destruct R as (_ & _ & _ & _ & R5 & R6).
  assert (Htm : ∀ i j, i ≤ j < length m5 → (c_Time (m5 !!! i) <= c_Time (m5 !!! j))%Z).
  { intros i j Hij. destruct (decide (i = j)) as [->|]; [lia|]. pose proof (valid_times m5 i j Hv ltac:(lia)). lia. }
  destruct (target_within cfg m5 anchor (su_EntryHigh s) (su_Target s) (su_TargetKind s)) as [Ft Ht]; [|done|done|].
  { intros k Hk. by destruct (valid_bar m5 k Hv Hk). }
  apply ltb_nums in O1 as (_ & _ & O1), O2 as (_ & _ & O2), O3 as (_ & _ & O3). apply (sub_pos_key _ _ Ft) in O4.
  rewrite N4, N5, N6. split_and!; try done.
  - apply first_at_or_after; [done|lia].
  - apply Htm. lia.
  - apply Htm. lia.
  - apply Htm. unfold asOf. lia.
  - intros Hm. rewrite bool_decide_false in Hsh by done. destruct Hsh as (Hlt & a & _ & Es). split; [apply valid_times; [done|lia]|].
    rewrite N3, Es. by eexists.
Qed.
Lemma oriented_lookup dir bars k : k < length bars → oriented dir bars !!! k = if bool_decide (dir = Market.Sell) then Mirror_candle (bars !!! k) else bars !!! k.
Proof.
  intros Hk. unfold oriented. case_bool_decide; [|done]. unfold Mirror. destruct (lookup_lt_is_Some_2 bars k Hk) as [c Ec].
  rewrite (list_lookup_total_correct _ _ _ Ec). apply list_lookup_total_correct. change map with (@fmap list _). by rewrite list_lookup_fmap, Ec.
Qed.
Lemma found_sound cfg h1 m5 evaluated dir a s :
  let w bars := newATRWindow bars (ATRLength cfg) (ATRWindowBars cfg) in
  (dir = Market.Buy ∨ dir = Market.Sell) → ValidSeries h1 = true → ValidSeries m5 = true → m5 ≠ [] →
  evaluated = (c_Time (m5 !!! asOf m5) + m5Seconds)%Z → (∀ k, k < length h1 → (c_Time (h1 !!! k) + h1Seconds <= evaluated)%Z) →
  found cfg h1 m5 (w h1) (w m5) dir a s → su_Direction s = dir ∧ setup_sound cfg h1 m5 evaluated s.
Proof.
  intros w Hdir V1 V5 Hne He Hcl Hf. pose proof Hf as (anchor & s' & Ha & (atr & _ & -> & _) & -> & Hs).
  set (c := oriented dir h1 !!! a) in *. set (anchor := mkAnchor _ _ _ _ _ _) in *.
  assert (Hc : candle_ok c) by (apply valid_bar; [by apply valid_oriented|by rewrite length_oriented]).
  assert (Hin : h1 !!! a ∈ h1) by (apply (list_elem_of_lookup_2 _ a); by apply list_lookup_lookup_total_lt).
  destruct (bull_sound cfg dir (oriented dir m5) (w m5) anchor s' (valid_oriented dir m5 V5) (ok_high _ Hc) Hs) as (B1 & B2 & B3 & B4 & B5 & B6 & B7 & B8 & B9 & B10 & B11 & B12).
  assert (Et : c_Time c = c_Time (h1 !!! a)) by by apply oriented_time.
  assert (B5' : (su_ConfirmedAt s' < evaluated)%Z).
  { rewrite He. unfold asOf in *. rewrite length_oriented, oriented_time in B5; [unfold m5Seconds; lia|]. destruct m5; [done|cbn; lia]. }
  pose proof (oriented_lookup dir h1 a Ha) as El. fold c in El. unfold toOriginal in *.
  destruct (bool_decide (dir = Market.Sell)) eqn:Ed.
  - cbn [reflected su_Direction]. split; [done|]. split; cbn [reflected su_Direction su_Anchor su_Sweep su_Reclaim su_Shift su_ConfirmedAt su_EntryLow su_EntryHigh
      su_Stop su_Target su_TechnicalRR su_RiskPips an_OpenTime an_CloseTime an_High an_Low sw_BarTime sw_ExtremePrice rc_BarTime]; rewrite ?B1, ?B2.
    + split; [done|]. by exists a.
    + exists (h1 !!! a). unfold anchor. cbn. rewrite Et, El. cbn. rewrite !opp_opp. split_and!; try done. by apply Hcl.
    + split; [exact B3|]. split; [exact B4|]. split; [exact B5'|]. intros Hm. destruct (B6 Hm) as [? [sh ->]]. split; [done|by eexists].
    + rewrite !key_opp, Ed. unfold anchor in *. cbn [an_Low an_High] in *. split_and!; lia.
    + done.
  - split; [done|]. split; rewrite ?B1, ?B2.
    + split; [done|]. by exists a.
    + exists (h1 !!! a). unfold anchor. cbn. rewrite Et, El. split_and!; try done. by apply Hcl.
    + done.
    + rewrite Ed. done.
    + done.
Qed.

(** * Theorems *)

(** [C9] The detection always ends, and every setup it reports is one: its anchor is an H1 candle closed by the evaluated bar and wide
    enough; the sweep comes in the anchor's window, the reclaim not before it, the confirmation not before the reclaim and strictly
    after it when a shift is asked for, all on closed bars; stop, entry and target lie in this order (reversed for SELL), the stop
    beyond the extreme of the manipulation, the target within the anchor's range; reward and risk are within the limits. The episode
    behind it is the one its conditions describe, in the orientation of its direction. *)
Theorem crt_setup_sound cfg h1 m5 asOf :
  ∃ out, detectAsOf cfg h1 m5 asOf = Some out ∧
  ∀ s, s ∈ Setups out → setup_sound cfg (closed_h1 h1 (EvaluatedAt out)) (take (S (Z.to_nat asOf)) m5) (EvaluatedAt out) s.
Proof.
  destruct (detect_spec cfg h1 m5 asOf) as (out & E & H). exists out. split; [done|]. intros s Hs.
  destruct H as [H|(Hr & He & V1 & V5 & buys & sells & [F1 _] & [F2 _] & Hset)]; [by rewrite H in Hs; apply not_elem_of_nil in Hs|].
  set (bars := take _ m5) in *. assert (Hlen : length bars = S (Z.to_nat asOf)) by (unfold bars; rewrite length_take; lia).
  assert (He' : EvaluatedAt out = (c_Time (bars !!! Crt.asOf bars) + m5Seconds)%Z) by (rewrite He; unfold Crt.asOf; do 3 f_equal; lia).
  assert (Hcl : ∀ k, k < length (closed_h1 h1 (EvaluatedAt out)) → (c_Time (closed_h1 h1 (EvaluatedAt out) !!! k) + h1Seconds <= EvaluatedAt out)%Z)
    by (intros k; by apply closed_h1_closed).
  assert (Hfs : ∀ dir l, (dir = Market.Buy ∨ dir = Market.Sell) →
    Forall (λ p, found cfg (closed_h1 h1 (EvaluatedAt out)) bars (newATRWindow (closed_h1 h1 (EvaluatedAt out)) (ATRLength cfg) (ATRWindowBars cfg))
      (newATRWindow bars (ATRLength cfg) (ATRWindowBars cfg)) dir p.1 p.2) l → s ∈ map snd l → setup_sound cfg (closed_h1 h1 (EvaluatedAt out)) bars (EvaluatedAt out) s).
  { intros dir l Hd F (p & <- & Hp%list_elem_of_In)%list_elem_of_In%in_map_iff. rewrite Forall_forall in F. apply F in Hp.
    assert (Hne : bars ≠ []) by (intros Eb; by rewrite Eb in Hlen).
    apply (found_sound cfg _ bars _ dir p.1 p.2 Hd V1 V5 Hne He' Hcl Hp). }
  rewrite Hset, sort_slice_perm in Hs. unfold dedup_setups in Hs. apply list_elem_of_omap in Hs as ([i x] & Hin & Hx). cbn in Hx.
  destruct (_ || _); [done|]. injection Hx as ->. apply list_elem_of_lookup in Hin as (k & Hk). rewrite list_lookup_imap in Hk.
  apply fmap_Some in Hk as (x & Hk & [= -> <-]). apply list_elem_of_lookup_2 in Hk. rewrite map_app in Hk.
  apply elem_of_app in Hk as [Hk|Hk]; [eapply (Hfs Market.Buy)|eapply (Hfs Market.Sell)]; eauto.
Qed.
(** The anchors of one direction's setups are all different. *)
Lemma same_anchor cfg h1 m5 dir l i j p q :
  ValidSeries h1 = true → direction_setups cfg h1 m5 dir l → l !! i = Some p → l !! j = Some q →
  an_OpenTime (su_Anchor p.2) = an_OpenTime (su_Anchor q.2) → (dir = Market.Buy ∨ dir = Market.Sell) → i = j.
Proof.
  intros V [F S] Hp Hq E Hd. rewrite Forall_lookup in F. assert (Ht : ∀ k r, l !! k = Some r → r.1 < length h1 ∧ an_OpenTime (su_Anchor r.2) = c_Time (h1 !!! r.1)).
  { intros k r Hr. destruct (F k r Hr) as (anchor & s' & Ha & (atr & _ & -> & _) & -> & Hs). split; [done|].
    destruct Hs as (ep & _ & _ & _ & _ & _ & [(_ & Ea & _) _ _ _ _ _ _ _ _ _]). unfold toOriginal.
    destruct (bool_decide _); cbn; rewrite Ea; cbn; by rewrite oriented_time. }
  destruct (Ht i p Hp) as [H1 E1]. destruct (Ht j q Hq) as [H2 E2]. rewrite E1, E2 in E.
  assert (Hlt : ∀ i j p q, i < j → l !! i = Some p → l !! j = Some q → q.1 < p.1).
  { intros i' j' p' q' Hij Hp' Hq'. by eapply (StronglySorted_lookups (λ p q, q.1 < p.1)); eauto. }
  destruct (Nat.lt_trichotomy i j) as [Hij|[|Hij]]; [exfalso|done|exfalso].
  - pose proof (Hlt _ _ _ _ Hij Hp Hq). pose proof (valid_times h1 q.1 p.1 V ltac:(lia)). lia.
  - pose proof (Hlt _ _ _ _ Hij Hq Hp). pose proof (valid_times h1 p.1 q.1 V ltac:(lia)). lia.
Qed.

Lemma setup_less_asym x y : setup_less x y = true → setup_less y x = false.
Proof.
  unfold setup_less. destruct (Z.eqb_spec (su_ConfirmedAt x) (su_ConfirmedAt y)), (Z.eqb_spec (su_ConfirmedAt y) (su_ConfirmedAt x)); cbn; try lia.
  destruct (Z.eqb_spec (an_OpenTime (su_Anchor x)) (an_OpenTime (su_Anchor y))), (Z.eqb_spec (an_OpenTime (su_Anchor y)) (an_OpenTime (su_Anchor x))); cbn; try lia.
  intros H. apply Bool.not_true_is_false. intros H'. pose proof (str_lt_trans _ _ _ H H') as Hi. by rewrite str_lt_irrefl in Hi.
Qed.
Lemma setup_less_trans x y z : setup_less y x = false → setup_less z y = false → setup_less z x = false.
Proof.
  unfold setup_less. destruct (Z.eqb_spec (su_ConfirmedAt y) (su_ConfirmedAt x)), (Z.eqb_spec (su_ConfirmedAt z) (su_ConfirmedAt y)),
    (Z.eqb_spec (su_ConfirmedAt z) (su_ConfirmedAt x)); cbn; try lia.
  destruct (Z.eqb_spec (an_OpenTime (su_Anchor y)) (an_OpenTime (su_Anchor x))), (Z.eqb_spec (an_OpenTime (su_Anchor z)) (an_OpenTime (su_Anchor y))),
    (Z.eqb_spec (an_OpenTime (su_Anchor z)) (an_OpenTime (su_Anchor x))); cbn; try lia.
  apply (str_le_trans (su_Direction x) (su_Direction y) (su_Direction z)).
Qed.
Lemma anchors_distinct cfg h1 m5 asOf out :
  detectAsOf cfg h1 m5 asOf = Some out →
  NoDup (map (λ s, an_OpenTime (su_Anchor s)) (Setups out)) ∧
  StronglySorted (λ a b, (su_ConfirmedAt b < su_ConfirmedAt a)%Z ∨ (su_ConfirmedAt a = su_ConfirmedAt b ∧ an_OpenTime (su_Anchor b) < an_OpenTime (su_Anchor a))%Z)
    (Setups out).
Proof.
  intros E. destruct (detect_spec cfg h1 m5 asOf) as (out' & E' & H). rewrite E in E'. injection E' as <-.
  destruct H as [->|(_ & _ & V1 & _ & buys & sells & F1 & F2 & Hset)]; [split; constructor|].
  set (all := map snd (buys ++ sells)) in *. set (f := λ s, an_OpenTime (su_Anchor s)).
  assert (Hnd : NoDup (map f (dedup_setups all))).
  { set (keep := λ p, negb (tied all p.1 p.2 || superseded all p.1 p.2)).
    assert (Ed : dedup_setups all = map snd (List.filter keep (imap pair all))).
    { unfold dedup_setups, keep. induction (imap pair all) as [|p l IH]; cbn; [done|]. destruct (_ || _); cbn; [done|by f_equal]. }
    rewrite Ed, map_map. pose proof (StronglySorted_imap all 0) as Hs. cbn in Hs. change (λ (i : nat) (x : Setup), (i, x)) with (@pair nat Setup) in Hs.
    apply (StronglySorted_NoDup_map (λ p q : nat * Setup, p.1 < q.1)).
    { by apply filter_sorted. }
    assert (Hmem : ∀ p, p ∈ List.filter keep (imap pair all) → (∃ r, (buys ++ sells) !! p.1 = Some r ∧ r.2 = p.2) ∧ p ∈ imap pair all ∧ keep p = true).
    { intros p [Hp Hk]%in_filter. split; [|done]. apply list_elem_of_lookup in Hp as (k & Hk'). rewrite list_lookup_imap in Hk'.
      apply fmap_Some in Hk' as (x & Hx & ->). cbn. unfold all in Hx. change map with (@fmap list _) in Hx. rewrite list_lookup_fmap in Hx.
      apply fmap_Some in Hx as (r & Hr & ->). by exists r. }
    intros p q Hp Hq Hlt Heq. apply Hmem in Hp as ((r & Hr & Er) & Hp & Kp), Hq as ((r' & Hr' & Er') & Hq & Kq).
    assert (Hdir : ∀ dir l k x, direction_setups cfg (closed_h1 h1 (EvaluatedAt out)) (take (S (Z.to_nat asOf)) m5) dir l → l !! k = Some x → su_Direction x.2 = dir).
    { intros dir l k x [F _] Hx. rewrite Forall_lookup in F. destruct (F k x Hx) as (anchor & s' & _ & _ & -> & (ep & _ & _ & _ & _ & _ & [(Ed' & _) _ _ _ _ _ _ _ _ _])).
      unfold toOriginal. by destruct (bool_decide _); cbn. }
    assert (Hop : opposed p.1 p.2 q.1 q.2 = true ∧ opposed q.1 q.2 p.1 p.2 = true).
    { assert (Hne : su_Direction p.2 ≠ su_Direction q.2).
      { rewrite <- Er, <- Er' in *. apply lookup_app_Some in Hr as [Hr|[Lr Hr]], Hr' as [Hr'|[Lr' Hr']].
        - pose proof (same_anchor _ _ _ _ _ _ _ _ _ V1 F1 Hr Hr' Heq ltac:(by left)). lia.
        - rewrite (Hdir _ _ _ _ F1 Hr), (Hdir _ _ _ _ F2 Hr'). done.
        - apply lookup_lt_Some in Hr'. lia.
        - pose proof (same_anchor _ _ _ _ _ _ _ _ _ V1 F2 Hr Hr' Heq ltac:(by right)). lia. }
      unfold opposed, f in *. rewrite Heq, Z.eqb_refl, !bool_decide_false by congruence. split; apply negb_true_iff; rewrite !orb_false_r; apply Nat.eqb_neq; lia. }
    destruct Hop as [Hop Hop']. unfold keep in *. apply negb_true_iff, orb_false_iff in Kp as [Tp Sp], Kq as [Tq Sq].
    pose proof (existsb_miss _ _ q Tp ltac:(by apply list_elem_of_In)) as T1. pose proof (existsb_miss _ _ q Sp ltac:(by apply list_elem_of_In)) as S1.
    pose proof (existsb_miss _ _ p Sq ltac:(by apply list_elem_of_In)) as S2. cbn beta in *. rewrite Hop in T1, S1. rewrite Hop' in S2. cbn [andb] in *. lia. }
  rewrite Hset. split; [by rewrite sort_slice_perm|].
  assert (Hle : StronglySorted (λ a b, setup_less b a = false) (sort_slice setup_less (dedup_setups all))).
  { apply (sort_slice_sorted setup_less (λ _, True)); [intros x y _ _; apply setup_less_asym|intros x y z _ _ _; apply setup_less_trans|by apply Forall_forall]. }
  assert (Hnd' : NoDup (map f (sort_slice setup_less (dedup_setups all)))) by by rewrite sort_slice_perm.
  clear -Hle Hnd'. induction Hle as [|a l Hs IH Ha]; constructor.
  - apply IH. cbn in Hnd'. by apply NoDup_cons in Hnd' as [_ ?].
  - rewrite Forall_forall in *. intros b Hb. specialize (Ha b Hb). cbn in Hnd'. apply NoDup_cons in Hnd' as [Hni _].
    assert (f a ≠ f b) by (intros Ef; apply Hni; rewrite Ef; change map with (@fmap list _); by apply list_elem_of_fmap_2).
    unfold setup_less, f in *. repeat case_match; lia.
Qed.

(** The two scans of an accepted history, and what is left of them. *)
Lemma detect_accepted cfg inH1 inM5 asOf :
  let m5 := take (S (Z.to_nat asOf)) inM5 in
  let evaluated := (c_Time (m5 !!! Z.to_nat asOf) + m5Seconds)%Z in
  let h1 := closed_h1 inH1 evaluated in
  let w1 := newATRWindow h1 (ATRLength cfg) (ATRWindowBars cfg) in
  let w5 := newATRWindow m5 (ATRLength cfg) (ATRWindowBars cfg) in
  (0 <= asOf < Z.of_nat (length inM5))%Z → ValidSeries h1 = true → ValidSeries m5 = true →
  Indicator.Enough w1 = true → Indicator.Enough w5 = true →
  ∃ buy all, scan cfg h1 m5 w1 w5 evaluated Market.Buy (length h1) (mkAnalysis evaluated 0 [] []) = Some buy ∧
    scan cfg h1 m5 w1 w5 evaluated Market.Sell (length h1) buy = Some all ∧
    let out := resolveOpposing all in
    detectAsOf cfg inH1 inM5 asOf =
      Some (mkAnalysis (EvaluatedAt out) (Anchors out) (sort_slice setup_less (Setups out)) (Rejections out)).
Proof.
  intros m5 evaluated h1 w1 w5 Ha V1 V5 N1 N5.
  assert (Hne : m5 ≠ []).
  { intros E. assert (length m5 = 0) by by rewrite E. unfold m5 in *. rewrite length_take in *. lia. }
  assert (Hnan : ∀ dir a, a < length h1 → IsNaN (c_High (oriented dir h1 !!! a) - c_Low (oriented dir h1 !!! a)) = false).
  { intros dir a Hlt. pose proof (valid_bar (oriented dir h1) a ltac:(by apply valid_oriented) ltac:(by rewrite length_oriented)) as Hc. apply sub_not_nan; by destruct Hc. }
  destruct (scan_spec cfg h1 m5 w1 w5 evaluated Market.Buy (length h1) (mkAnalysis evaluated 0 [] []) ltac:(lia) Hne (Hnan _)) as (buy & _ & E1 & _).
  destruct (scan_spec cfg h1 m5 w1 w5 evaluated Market.Sell (length h1) buy ltac:(lia) Hne (Hnan _)) as (all & _ & E2 & _).
  exists buy, all. split_and!; [done..|]. unfold detectAsOf.
  rewrite (proj2 (orb_false_iff _ _)) by lia. fold m5. fold evaluated. fold h1. rewrite V1, V5. cbn [negb orb].
  fold w1 w5. rewrite N1, N5. cbn [negb]. rewrite E1. cbn [mbind option_bind]. by rewrite E2.
Qed.
Lemma opposed_spec (l : list Setup) i j a b :
  l !! i = Some a → l !! j = Some b →
  opposed i a j b = true ↔ an_OpenTime (su_Anchor b) = an_OpenTime (su_Anchor a) ∧ su_Direction b ≠ su_Direction a.
Proof.
  intros Hi Hj. unfold opposed. rewrite negb_true_iff, !orb_false_iff, negb_false_iff, Z.eqb_eq, bool_decide_eq_false, Nat.eqb_neq.
  split; [tauto|]. intros [E Hd]. split_and!; [|done..]. intros ->. congruence.
Qed.
(** Being beaten, or met, by a setup of the other direction at one's anchor. *)
Lemma rivals_spec (f : Z → Z → bool) (l : list Setup) i s :
  l !! i = Some s →
  existsb (λ p, opposed i s p.1 p.2 && f (su_ConfirmedAt p.2) (su_ConfirmedAt s)) (imap pair l) = true ↔
  ∃ o, o ∈ l ∧ an_OpenTime (su_Anchor o) = an_OpenTime (su_Anchor s) ∧ su_Direction o ≠ su_Direction s ∧
    f (su_ConfirmedAt o) (su_ConfirmedAt s) = true.
Proof.
  intros Hi. rewrite existsb_exists. split.
  - intros ([j o] & Hin%list_elem_of_In & [Ho Hf]%andb_true_iff). cbn in *.
    apply list_elem_of_lookup in Hin as (k & Hk). rewrite list_lookup_imap in Hk. apply fmap_Some in Hk as (x & Hk & [= -> <-]).
    apply (opposed_spec l) in Ho as [Ho Hd]; [|done..]. exists o. split_and!; [by eapply list_elem_of_lookup_2|done..].
  - intros (o & (j & Hj)%list_elem_of_lookup & Ho & Hd & Hf). exists (j, o). split.
    + apply list_elem_of_In. apply list_elem_of_lookup. exists j. by rewrite list_lookup_imap, Hj.
    + cbn. rewrite Hf, andb_true_r. by apply (opposed_spec l).
Qed.

(** [o] is a setup of the other direction at the anchor of [s]. *)
Definition rival (l : list Setup) (o s : Setup) : Prop :=
  o ∈ l ∧ an_OpenTime (su_Anchor o) = an_OpenTime (su_Anchor s) ∧ su_Direction o ≠ su_Direction s.
Lemma resolveOpposing_exact all :
  let out := resolveOpposing all in
  (∀ s, s ∈ Setups out ↔ s ∈ Setups all ∧ ∀ o, rival (Setups all) o s → (su_ConfirmedAt o < su_ConfirmedAt s)%Z) ∧
  (∀ s, s ∈ Setups all → (∃ o, rival (Setups all) o s ∧ su_ConfirmedAt o = su_ConfirmedAt s) →
    opposing_rejection ReasonBothExtremesRaided s ∈ Rejections out) ∧
  (∀ s, s ∈ Setups all → (∀ o, rival (Setups all) o s → su_ConfirmedAt o ≠ su_ConfirmedAt s) →
    (∃ o, rival (Setups all) o s ∧ (su_ConfirmedAt s < su_ConfirmedAt o)%Z) → opposing_rejection ReasonSupersededByOpposite s ∈ Rejections out).
Proof.
  cbn [Setups Rejections resolveOpposing].
  assert (Ht : ∀ i s, Setups all !! i = Some s → tied (Setups all) i s = true ↔ ∃ o, rival (Setups all) o s ∧ su_ConfirmedAt o = su_ConfirmedAt s).
  { intros i s Hi. unfold tied. rewrite (rivals_spec (λ a b, a =? b)%Z) by done. unfold rival. setoid_rewrite Z.eqb_eq. naive_solver. }
  assert (Hs : ∀ i s, Setups all !! i = Some s → superseded (Setups all) i s = true ↔ ∃ o, rival (Setups all) o s ∧ (su_ConfirmedAt s < su_ConfirmedAt o)%Z).
  { intros i s Hi. unfold superseded. rewrite (rivals_spec (λ a b, a >? b)%Z) by done. unfold rival. setoid_rewrite Z.gtb_lt. naive_solver. }
  assert (Hin : ∀ i s, (i, s) ∈ imap pair (Setups all) ↔ Setups all !! i = Some s).
  { intros i s. rewrite list_elem_of_lookup. split.
    - intros (k & Hk). rewrite list_lookup_imap in Hk. by apply fmap_Some in Hk as (x & Hk & [= -> <-]).
    - intros Hi. exists i. by rewrite list_lookup_imap, Hi. }
  split_and!.
  - intros s. rewrite list_elem_of_omap. split.
    + intros ([i x] & Hi%Hin & Hx). cbn in Hx. destruct (_ || _) eqn:Eor; [done|]. injection Hx as ->.
      split; [by eapply list_elem_of_lookup_2|]. apply orb_false_iff in Eor as [Et Ess].
      apply not_true_iff_false in Et, Ess. rewrite (Ht i s Hi) in Et. rewrite (Hs i s Hi) in Ess.
      intros o Ho. destruct (Z.lt_trichotomy (su_ConfirmedAt o) (su_ConfirmedAt s)) as [|[|]]; [done|exfalso..]; eauto.
    + intros [(i & Hi)%list_elem_of_lookup Hall]. exists (i, s). rewrite Hin. split; [done|]. cbn.
      rewrite (proj2 (orb_false_iff _ _)); [done|]. split; apply not_true_iff_false.
      * rewrite (Ht i s Hi). intros (o & Ho & ?). specialize (Hall o Ho). lia.
      * rewrite (Hs i s Hi). intros (o & Ho & ?). specialize (Hall o Ho). lia.
  - intros s (i & Hi)%list_elem_of_lookup Htie. apply elem_of_app. right. apply list_elem_of_omap. exists (i, s).
    rewrite Hin. split; [done|]. cbn. by rewrite (proj2 (Ht i s Hi) Htie).
  - intros s (i & Hi)%list_elem_of_lookup Hnot Hsup. apply elem_of_app. right. apply list_elem_of_omap. exists (i, s).
    rewrite Hin. split; [done|]. cbn. rewrite (proj2 (Hs i s Hi) Hsup). destruct (tied _ _ _) eqn:Et; [|done].
    apply (Ht i s Hi) in Et as (o & Ho & ?). by destruct (Hnot o Ho).
Qed.

(** [C11] An analysis keeps one direction per anchor. Of the setups the BUY and the SELL scan find in an accepted history, those are
    reported whose rivals, the setups of the opposite direction at the same anchor, were all confirmed earlier: of two directions
    that confirm at an anchor the later is kept, and neither when they confirm at once. One not reported is refused, as ambiguous
    when a rival was confirmed at the same time and as superseded otherwise. So no two reported setups share an anchor, and they
    come ordered by confirmation, then anchor, the latest first. *)
Theorem crt_one_per_anchor cfg inH1 inM5 asOf out :
  detectAsOf cfg inH1 inM5 asOf = Some out →
  NoDup (map (λ s, an_OpenTime (su_Anchor s)) (Setups out)) ∧
  StronglySorted (λ a b, (su_ConfirmedAt b < su_ConfirmedAt a)%Z ∨ (su_ConfirmedAt a = su_ConfirmedAt b ∧ an_OpenTime (su_Anchor b) < an_OpenTime (su_Anchor a))%Z)
    (Setups out) ∧
  let m5 := take (S (Z.to_nat asOf)) inM5 in
  let evaluated := (c_Time (m5 !!! Z.to_nat asOf) + m5Seconds)%Z in
  let h1 := closed_h1 inH1 evaluated in
  let w1 := newATRWindow h1 (ATRLength cfg) (ATRWindowBars cfg) in
  let w5 := newATRWindow m5 (ATRLength cfg) (ATRWindowBars cfg) in
  (0 <= asOf < Z.of_nat (length inM5))%Z → ValidSeries h1 = true → ValidSeries m5 = true →
  Indicator.Enough w1 = true → Indicator.Enough w5 = true →
  ∃ buy all, scan cfg h1 m5 w1 w5 evaluated Market.Buy (length h1) (mkAnalysis evaluated 0 [] []) = Some buy ∧
    scan cfg h1 m5 w1 w5 evaluated Market.Sell (length h1) buy = Some all ∧
    let rival o s := o ∈ Setups all ∧ an_OpenTime (su_Anchor o) = an_OpenTime (su_Anchor s) ∧ su_Direction o ≠ su_Direction s in
    let refusal reason s := mkRejection reason (su_Direction s) (an_OpenTime (su_Anchor s)) (sw_BarTime (su_Sweep s)) in
    (∀ s, s ∈ Setups out ↔ s ∈ Setups all ∧ ∀ o, rival o s → (su_ConfirmedAt o < su_ConfirmedAt s)%Z) ∧
    (∀ s, s ∈ Setups all → (∃ o, rival o s ∧ su_ConfirmedAt o = su_ConfirmedAt s) → refusal ReasonBothExtremesRaided s ∈ Rejections out) ∧
    (∀ s, s ∈ Setups all → (∀ o, rival o s → su_ConfirmedAt o ≠ su_ConfirmedAt s) →
      (∃ o, rival o s ∧ (su_ConfirmedAt s < su_ConfirmedAt o)%Z) → refusal ReasonSupersededByOpposite s ∈ Rejections out).
Proof.
  intros E. destruct (anchors_distinct cfg inH1 inM5 asOf out E) as [H1 H2]. split_and!; [done..|].
  intros m5 evaluated h1 w1 w5 Ha V1 V5 N1 N5.
  destruct (detect_accepted cfg inH1 inM5 asOf Ha V1 V5 N1 N5) as (buy & all & Eb & Es & Eo).
  exists buy, all. split; [done|]. split; [done|]. rewrite E in Eo. injection Eo as ->. cbn [Setups Rejections].
  destruct (resolveOpposing_exact all) as (R1 & R2 & R3). split_and!; [|exact R2|exact R3].
  intros s. rewrite sort_slice_perm. apply R1.
Qed.

Lemma closed_h1_later h1 later t : Structure.increasing (h1 ++ later) → Forall (λ c, (t < c_Time c + h1Seconds)%Z) later →
  closed_h1 (h1 ++ later) t = closed_h1 h1 t.
Proof.
  intros Hs Hl. unfold closed_h1. set (f := λ i, negb (c_Time ((h1 ++ later) !!! i) + h1Seconds >? t)%Z). set (g := λ i, negb (c_Time (h1 !!! i) + h1Seconds >? t)%Z).
  assert (Hfg : ∀ i, i < length h1 → f i = g i) by (intros i Hi; unfold f, g; by rewrite lookup_total_app_l).
  assert (Hmono : ∀ i j, i ≤ j < length (h1 ++ later) → f j = true → f i = true).
  { intros i j Hij Hj. destruct (decide (i = j)) as [->|]; [done|]. pose proof (Structure.sorted_times_lt _ i j Hs ltac:(lia)). unfold f in *. lia. }
  destruct (bsearch_spec_bounded (length (h1 ++ later)) f Hmono) as (K1 & K2 & K3).
  destruct (bsearch_spec_bounded (length h1) g) as (L1 & L2 & L3).
  { intros i j Hij Hj. rewrite <- Hfg in * by lia. apply (Hmono i j); [rewrite length_app; lia|done]. }
  set (k := bsearch (length (h1 ++ later)) f) in *. set (k' := bsearch (length h1) g) in *. rewrite length_app in *.
  assert (Hk : k ≤ length h1).
  { destruct (decide (k ≤ length h1)) as [|Hgt]; [done|]. exfalso. specialize (K2 (length h1) ltac:(lia)). unfold f in K2.
    rewrite lookup_total_app_r in K2 by lia. rewrite Forall_forall in Hl. specialize (Hl (later !!! (length h1 - length h1))).
    assert (later !!! (length h1 - length h1) ∈ later) by (apply (list_elem_of_lookup_2 _ (length h1 - length h1)), list_lookup_lookup_total_lt; lia).
    specialize (Hl ltac:(done)). cbn in Hl. lia. }
  assert (k = k') as ->; [|by rewrite take_app_le].
  destruct (Nat.lt_trichotomy k k') as [Hlt|[|Hlt]]; [exfalso|done|exfalso].
  - specialize (L2 k Hlt). rewrite <- Hfg in L2 by lia. rewrite K3 in L2 by lia. done.
  - specialize (K2 k' Hlt). rewrite Hfg in K2 by lia. rewrite L3 in K2 by lia. done.
Qed.
(** [C10] The future is never read: with later M5 candles, and later H1 candles that close after the evaluated bar, the analysis as of a
    bar is the analysis of the history that ends at that bar. *)
Theorem crt_causal cfg h1 m5 laterH1 laterM5 asOf :
  (0 <= asOf < Z.of_nat (length m5))%Z → Structure.increasing (h1 ++ laterH1) →
  Forall (λ c, (c_Time (m5 !!! Z.to_nat asOf) + m5Seconds < c_Time c + h1Seconds)%Z) laterH1 →
  detectAsOf cfg (h1 ++ laterH1) (m5 ++ laterM5) asOf = Detect cfg h1 (take (S (Z.to_nat asOf)) m5).
Proof.
  intros Ha Hs Hl. unfold Detect, detectAsOf. rewrite length_app, length_take.
  replace (Z.of_nat (S (Z.to_nat asOf) `min` length m5) - 1)%Z with asOf by lia.
  destruct (Z.ltb_spec asOf 0); [lia|]. cbn [orb]. destruct (Z.leb_spec (Z.of_nat (length m5 + length laterM5)) asOf); [lia|].
  destruct (Z.leb_spec (Z.of_nat (S (Z.to_nat asOf) `min` length m5)) asOf); [lia|].
  rewrite take_app_le, take_take, Nat.min_id by lia. cbv zeta. rewrite lookup_total_take by lia. by rewrite closed_h1_later.
Qed.

(** A range of 100 to 110; a dip to 98, a close back inside, and a close over the swing at 104.8. *)
Definition demo_config : Config :=
  mkConfig 0.5 2 3 2 1 0.1 1 0.05 6 ConfirmationMSS 1 12 6 0.5 0.5 0.6 2 0 EntryMSSRetest 0.5 0.1 50 0.25 0.5 0.5 0 4 0.1.
Definition bar_of (t : Z) (x : float * float * float * float) : Candle := let '(o, h, l, c) := x in mkCandle t o h l c 1.
Definition demo_h1 : list Candle :=
  imap (λ i x, bar_of (3600 * Z.of_nat i) x) [(104, 109, 101, 105); (105, 110, 100, 104); (104, 110, 100, 105)]%float.
Definition demo_m5 : list Candle :=
  imap (λ i x, bar_of (10800 + 300 * Z.of_nat i) x)
    [(105, 106, 104, 105); (104, 104, 102, 102.5); (102.5, 104.75, 102, 102.75); (102.75, 103, 100.5, 101); (101, 101.5, 98, 100.5);
     (100.5, 102, 100.25, 101.75); (101.75, 105.5, 101.5, 105.25)]%float.
Definition demo_summary (out : option Analysis) : option (list (string * Z * Z * Z * float * float * string) * list string) :=
  (λ o, (map (λ s, (su_Direction s, an_OpenTime (su_Anchor s), sw_BarTime (su_Sweep s), su_ConfirmedAt s, sw_ExtremePrice (su_Sweep s), su_Target s, su_TargetKind s))
    (Setups o), map rj_Reason (Rejections o))) <$> out.
Example demo_crt :
  demo_summary (Detect demo_config demo_h1 demo_m5) =
    Some ([("BUY", 7200%Z, 12000%Z, 12600%Z, 98%float, 110%float, TargetOppositeRange)], []).
Proof. vm_compute. reflexivity. Qed.
(** The same picture upside down is the SELL. *)
Example demo_crt_sell :
  demo_summary (Detect demo_config (Mirror demo_h1) (Mirror demo_m5)) =
    Some ([("SELL", 7200%Z, 12000%Z, 12600%Z, (-98)%float, (-110)%float, TargetOppositeRange)], []).
Proof. vm_compute. reflexivity. Qed.
Lemma crt_one_per_anchor_witness :
  match detectAsOf demo_config demo_h1 demo_m5 6 with
  | Some out => length (Setups out) = 1 ∧ ∃ all, length (Setups all) = 1 ∧
      ∀ s, s ∈ Setups out ↔ s ∈ Setups all ∧ ∀ o, rival (Setups all) o s → (su_ConfirmedAt o < su_ConfirmedAt s)%Z
  | None => False
  end.
Proof.
  assert (H : match detectAsOf demo_config demo_h1 demo_m5 6 with Some out => length (Setups out) = 1 | None => False end) by (vm_compute; reflexivity).
  destruct (detectAsOf demo_config demo_h1 demo_m5 6) as [out|] eqn:E; [|destruct H]. split; [exact H|].
  destruct (crt_one_per_anchor demo_config demo_h1 demo_m5 6 out E) as (_ & _ & D).
  destruct (D ltac:(split; [lia|reflexivity]) ltac:(vm_compute; reflexivity) ltac:(vm_compute; reflexivity)
    ltac:(vm_compute; reflexivity) ltac:(vm_compute; reflexivity)) as (buy & all & Eb & Es & R & _).
  exists all. split; [|exact R].
  vm_compute in Eb. injection Eb as <-. vm_compute in Es. injection Es as <-. reflexivity.
Defined.
Lemma crt_causal_witness :
  let later_h1 := [bar_of 10800 (105, 130, 90, 95)%float] in let later_m5 := [bar_of 12900 (105.25, 120, 80, 100)%float] in
  detectAsOf demo_config (demo_h1 ++ later_h1) (demo_m5 ++ later_m5) 6 = Detect demo_config demo_h1 demo_m5.
Proof.
  cbv zeta. apply (crt_causal demo_config demo_h1 demo_m5 [bar_of 10800 (105, 130, 90, 95)%float] [bar_of 12900 (105.25, 120, 80, 100)%float] 6).
  - split; [lia|reflexivity].
  - unfold Structure.increasing. cbn. repeat constructor.
  - repeat constructor.
Defined.
