(* ===== verification/CrtStrategy.v ===== *)
(** Package strategy/crt, config.go, quality.go and crt.go: the parameters the strategy accepts, the score of a setup, and the opportunity
    built from each setup of the detection in Crt. *)
From S2P Require Import Prelude Float64 Market LegacyRead Detector StrategyView Crt.
From S2P Require ScalpRange TechniqueCandidate Quality Opportunity Confluence.
From Stdlib Require Import Floats.

(** * config.go *)

(** The first condition that fails refuses the configuration; the messages are left out. *)
Definition validate (c : Config) : bool :=
  forallb negb [
    (MinimumH1RangeATR c <=? 0)%float; (ATRLength c <? 2)%Z; (ATRWindowBars c <? ATRLength c + 1)%Z;
    ((SweepWindowH1Periods c <? 1)%Z || (SweepWindowH1Periods c >? 3)%Z);
    ((MinimumSweepPips c <? 0)%float || (MinimumSweepATR c <? 0)%float || ((MinimumSweepPips c =? 0)%float && (MinimumSweepATR c =? 0)%float));
    ((MinimumReclaimPips c <? 0)%float || (MinimumReclaimATR c <? 0)%float);
    ((ReclaimMaxBars c <? 0)%Z || (ReclaimMaxBars c >? 24)%Z);
    negb (bool_decide (ConfirmationMode c = ConfirmationMSS)) && negb (bool_decide (ConfirmationMode c = ConfirmationSweepReclaim));
    ((StructurePivotBars c <? 1)%Z || (StructurePivotBars c >? 5)%Z); (StructureLookbackBars c <? StructurePivotBars c + 1)%Z;
    ((MSSMaxBars c <? 0)%Z || (MSSMaxBars c >? 48)%Z);
    ((MinimumMSSBodyRatio c <? 0)%float || (MinimumMSSBodyRatio c >? 1)%float || (MinimumMSSCloseStrength c <? 0)%float ||
      (MinimumMSSCloseStrength c >? 1)%float);
    ((MinimumMSSDisplacement c <? 0)%float || (ConfirmationBufferPips c <? 0)%float);
    ((ConfirmationMaxAgeBars c <? 0)%Z || (ConfirmationMaxAgeBars c >? 12)%Z);
    negb (bool_decide (EntryModel c = EntryMSSRetest)) && negb (bool_decide (EntryModel c = EntryReclaimRetest));
    bool_decide (EntryModel c = EntryMSSRetest) && negb (bool_decide (ConfirmationMode c = ConfirmationMSS));
    ((EntryDepthATR c <=? 0)%float || (EntryToleranceATR c <? 0)%float); (EntryMaxWidthPrice c <=? 0)%float; (InvalidationBufferATR c <=? 0)%float;
    ((MinimumTargetRoomATR c <? 0)%float || (MinimumRewardRisk c <=? 0)%float); (ExecutionStopMaxPips c <? 0)%float; (ExpiryHours c <=? 0)%float;
    (PipSize c <=? 0)%float].
Definition string_param (params : Params) (key : string) : option string := match params !! key with Some (PString s) => Some s | _ => None end.
Definition parseConfig (params : Params) : option Config :=
  range ← Float params "minimum_h1_range_atr"; sweepPips ← Float params "minimum_sweep_pips"; sweepATR ← Float params "minimum_sweep_atr";
  reclaimPips ← Float params "minimum_reclaim_pips"; reclaimATR ← Float params "minimum_reclaim_atr"; body ← Float params "minimum_mss_body_ratio";
  displacement ← Float params "minimum_mss_displacement_atr"; strength ← Float params "minimum_mss_close_strength";
  buffer ← Float params "confirmation_buffer_pips"; depth ← Float params "entry_depth_atr"; tolerance ← Float params "entry_tolerance_atr";
  width ← Float params "entry_max_width_price"; invalidation ← Float params "invalidation_buffer_atr"; room ← Float params "minimum_target_room_atr";
  rr ← Float params "minimum_reward_risk"; expiry ← Float params "expiry_hours"; pip ← Float params "pip_size";
  atrLength ← Int params "atr_length"; atrWindow ← Int params "atr_window_bars"; periods ← Int params "sweep_window_h1_periods";
  reclaimMax ← Int params "reclaim_max_bars"; pivots ← Int params "structure_pivot_bars"; lookback ← Int params "structure_lookback_bars";
  mssMax ← Int params "mss_max_bars"; age ← Int params "confirmation_max_age_bars";
  mode ← string_param params "confirmation_mode"; entry ← string_param params "entry_model";
  cap ← optional params "execution_stop_max_pips" 0%float (λ _, v ← Float params "execution_stop_max_pips"; if (v >? 0)%float then Some v else None);
  let c := mkConfig range atrLength atrWindow periods sweepPips sweepATR reclaimPips reclaimATR reclaimMax mode pivots lookback mssMax body displacement
    strength age buffer entry depth tolerance width invalidation room rr cap expiry pip in
  if validate c then Some c else None.

(** * quality.go *)

Definition QualityModel : string := "crt.quality.v1".
Record qualityContext := mkQualityContext { qc_price : float; qc_localTrend : string; qc_choch : bool; qc_htfAligned : bool }.
Definition score (setup : Setup) (qc : qualityContext) : list (string * float) :=
  let buy := bool_decide (su_Direction setup = Market.Buy) in let a := su_Anchor setup in let r := su_Reclaim setup in
  let shift := match su_Shift setup with
    | Some h => let v := Quality.Ramp (sh_DisplacementATR h) 0.3 1.2 in if (sh_BarsAfterReclaim h <? 1)%Z then (v * 0.5)%float else v
    | None => 0%float
    end in
  let reference := if buy then su_EntryHigh setup else su_EntryLow setup in
  let position :=
    if (Width a >? 0)%float then
      let p := ((reference - an_Low a) / Width a)%float in if buy then p else (1 - p)%float
    else nan in
  [("range_validity", Quality.Peak (an_RangeATR a) 0.6 1.2 3.5 7); ("sweep_depth", Quality.Peak (sw_DepthATR (su_Sweep setup)) 0.05 0.2 1 2.5);
   ("reclaim", (0.5 * Quality.Ramp (rc_DepthATR r) 0.05 0.6 + 0.5 * Quality.Fall (f64_of_Z (rc_BarsAfterSweep r)) 0 12)%float);
   ("structure_shift", shift); ("range_position", Quality.Fall position 0.25 0.7);
   ("entry_location", Quality.LocationScore (qc_price qc) reference (su_M5ATR setup));
   ("structure", Quality.StructureScore buy (qc_localTrend qc) (qc_choch qc) (qc_htfAligned qc));
   ("room", (Quality.GeometryRoom reference (su_Stop setup) (su_Target setup) true).1)].

(** * crt.go *)

Definition ID : string := "crt".
Definition Version : string := "v3".
Definition reactionPattern : string := "sweep_reclaim".
Record Strategy := mkStrategy { st_cfg : Config; st_detector : LegacyDetectorSettings; st_fingerprint : string }.
Definition New (id : string) (params : Params) (fingerprint : string) : option Strategy :=
  if negb (bool_decide (id = ID)) then None
  else cfg ← parseConfig params; detector ← ParseLegacyDetectorSettings params; Some (mkStrategy cfg detector fingerprint).
Definition RequiredTimeframes : list string := [tf_M5].
Definition factors (ctx : StrategyContext) (setup : Setup) : Confluence.Factors :=
  Confluence.mkFactors (htf_aligned ctx (su_Direction setup)) 0 (su_WickRejection setup) false false (bool_decide (is_Some (su_Shift setup))) false false.
Definition confluenceContext (s : Confluence.Score) : Opportunity.ConfluenceContext :=
  let f := Confluence.sc_Factors s in
  Opportunity.mkConfluence (Confluence.sc_Version s) (Confluence.sc_SelectedStars s) (Confluence.sc_V1Stars s) (Confluence.sc_V2Stars s)
    (Confluence.sc_V2Raw s) (Confluence.sc_RawFactorScore s) (Confluence.sc_ZoneQualityScore s) (Confluence.sc_MADBonus s)
    (Opportunity.mkFactors (Confluence.f_HTFAligned f) (Confluence.f_Touches f) (Confluence.f_WickRejection f) (Confluence.f_DisplacementGrade f)
      (Confluence.f_SessionContext f) (Confluence.f_StructuralAgreement f) (Confluence.f_FibTouch f) (Confluence.f_CHoCH f)) None None.
Definition side_of (direction : string) : string := ScalpRange.ToLower direction.
Definition structural_id (setup : Setup) : string := "technique:crt:" +:+ side_of (su_Direction setup) +:+ ":" +:+ pretty (an_OpenTime (su_Anchor setup)).
Definition evidence_of (setup : Setup) : list string :=
  ["h1_impulse_range"; "m5_range_sweep_reclaim"] ++ (match su_Shift setup with Some _ => ["m5_crt_structure_shift"] | None => [] end) ++
  (if su_DoubleRaidResolved setup then ["m5_crt_double_raid_resolved"] else []).
Definition measurements (setup : Setup) : list (string * float) :=
  let a := su_Anchor setup in
  [("h1_range_atr", an_RangeATR a); ("entry_range_position", ((su_EntryHigh setup - an_Low a) / math_Max (Width a) 1e-12)%float);
   ("sweep_depth_atr", sw_DepthATR (su_Sweep setup)); ("reclaim_depth_atr", rc_DepthATR (su_Reclaim setup)); ("technical_rr", su_TechnicalRR setup);
   ("technical_risk_pips", su_RiskPips setup)] ++
  match su_Shift setup with
  | Some h => [("mss_displacement_atr", sh_DisplacementATR h); ("mss_body_ratio", sh_BodyRatio h); ("mss_close_strength", sh_CloseStrength h)]
  | None => []
  end.
Definition quality_context (s : Strategy) (ctx : StrategyContext) (setup : Setup) : qualityContext :=
  let localTrend := match frame_legacy ctx tf_M5 with Some l => lf_Structure l | None => "" end in
  let aligned := Confluence.f_HTFAligned (factors ctx setup) in
  match context_detector ctx tf_M5 (su_Direction setup) (st_detector s) with
  | Some d => mkQualityContext (d_Price d) localTrend (RecentCHoCH d (Z.max 1 (ReactionLookbackBars (st_detector s)))) aligned
  | None => mkQualityContext 0 localTrend false aligned
  end.
(** The model of a setup's measurements and dimensions; a panic is [None]. *)
Definition model_of (s : Strategy) (ctx : StrategyContext) (setup : Setup) : option Quality.Model :=
  Quality.run (Quality.New QualityModel) (TechniqueCandidate.measure_ops (measurements setup) ++
    TechniqueCandidate.score_ops (score setup (quality_context s ctx setup))).
(** What the setup adds to the candidate built from its prices. *)
Definition with_setup (c : Opportunity.Candidate) (id : string) (touch confirmation : Z) (pattern : string) (confluence : Opportunity.ConfluenceContext) :
    Opportunity.Candidate :=
  Opportunity.mkCandidate (Opportunity.ca_ID c) (Opportunity.ca_Strategy c) (Opportunity.ca_StrategyVersion c) (Opportunity.ca_Symbol c)
    (Opportunity.ca_ObservedTimeframe c) (Opportunity.ca_StructureTimeframe c) (Opportunity.ca_Structure c) (Opportunity.ca_Direction c) id
    (Opportunity.ca_Entry c) (Opportunity.ca_Invalidation c) (Opportunity.ca_Targets c) (Opportunity.ca_Evidence c) (Opportunity.ca_Quality c)
    (Opportunity.ca_FormedAt c) (Opportunity.ca_CreatedAt c) (Opportunity.ca_ExpiresAt c) (Opportunity.ca_Provenance c) (Opportunity.ca_Technical c)
    (Some (Opportunity.mkReaction id touch confirmation "rejection" pattern)) (Some confluence) (Opportunity.ca_StopEnvelope c).
Section strategy.
(** The hexadecimal SHA-256 digest. *)
Context (hash : string → string).
(** [None] is a panic of the quality model; [Some None] a refusal. *)
Definition candidate (s : Strategy) (ctx : StrategyContext) (setup : Setup) : option (option Opportunity.Candidate) :=
  let total := Confluence.Evaluate (Confluence.mkZoneQuality 0 0) (factors ctx setup) (ConfluenceCfg (st_detector s)) 0 in
  if (Confluence.sc_SelectedStars total <? ConfluenceFloor (st_detector s))%Z then Some None
  else
    model ← model_of s ctx setup;
    Some (match TechniqueCandidate.Candidate hash (TechniqueCandidate.mkCandidateSpec ID Version
        ("crt:" +:+ side_of (su_Direction setup) +:+ ":" +:+ pretty (an_OpenTime (su_Anchor setup)) +:+ ":" +:+ pretty (sw_BarTime (su_Sweep setup)) +:+
         ":" +:+ pretty (su_ConfirmedAt setup))
        (sx_Symbol ctx) (su_Direction setup) (su_EntryLow setup) (su_EntryHigh setup) (su_Stop setup) "crt_sweep_extreme_lost" (su_Target setup)
        (su_TargetKind setup) (evidence_of setup) (Opportunity.mkQuality (Quality.Overall model) (Quality.Components model)) (sw_BarTime (su_Sweep setup))
        (su_ConfirmedAt setup) (ExpiryHours (st_cfg s)) (st_fingerprint s)) with
      | Ok c => Some (with_setup c (structural_id setup) (sw_BarTime (su_Sweep setup)) (su_ConfirmedAt setup) reactionPattern (confluenceContext total))
      | Err _ => None
      end).
(** The setups kept, with their candidates, and the rejections of the others. *)
Fixpoint publish_loop (s : Strategy) (ctx : StrategyContext) (setups : list Setup) : option (list (Setup * Opportunity.Candidate) * list Rejection) :=
  match setups with
  | [] => Some ([], [])
  | setup :: rest =>
      c ← candidate s ctx setup; '(kept, rejections) ← publish_loop s ctx rest;
      Some (match c with
        | Some c => ((setup, c) :: kept, rejections)
        | None => (kept, opposing_rejection ReasonConfluenceBelowFloor setup :: rejections)
        end)
  end.
Definition Analyze (s : Strategy) (ctx : StrategyContext) : option (Analysis * list Opportunity.Candidate) :=
  match sx_Frames ctx !! tf_M5, sx_Frames ctx !! tf_H1 with
  | Some m5, Some h1 =>
      match sf_Candles m5 with
      | [] => Some (mkAnalysis 0 0 [] [], [])
      | _ =>
          a ← Detect (st_cfg s) (sf_Candles h1) (sf_Candles m5); '(kept, rejections) ← publish_loop s ctx (Setups a);
          Some (mkAnalysis (EvaluatedAt a) (Anchors a) (map fst kept) (Rejections a ++ rejections), map snd kept)
      end
  | _, _ => Some (mkAnalysis 0 0 [] [], [])
  end.
Definition Evaluate (s : Strategy) (ctx : StrategyContext) : option (list Opportunity.Candidate) := snd <$> Analyze s ctx.
End strategy.

(** * Theorems *)

Lemma with_setup_within c id touch confirmation pattern confluence :
  Opportunity.candidate_sound c → (0 <= touch <= confirmation)%Z → (confirmation <= Opportunity.ca_CreatedAt c)%Z →
  Opportunity.candidate_sound (with_setup c id touch confirmation pattern confluence).
Proof. intros [H1 H2 H3 H4 H5 H6 H7 H8 H9 H10] Ht Hc. split; cbn; try done. intros r [= <-]. cbn. lia. Qed.
Lemma with_setup_sound c id touch confirmation pattern confluence :
  Opportunity.candidate_sound c → Opportunity.ca_FormedAt c = touch → Opportunity.ca_CreatedAt c = confirmation →
  Opportunity.candidate_sound (with_setup c id touch confirmation pattern confluence).
Proof. intros H <- <-. destruct (Opportunity.cs_times c H). by apply with_setup_within; [|lia..]. Qed.
Lemma model_total s ctx setup : ∃ m, model_of s ctx setup = Some m ∧ Quality.unit_score (Quality.Overall m).
Proof. apply Quality.run_named; unfold measurements; by destruct (su_Shift setup). Qed.
(** The opportunity that stands for a setup. *)
Record published_as (s : Strategy) (ctx : StrategyContext) (setup : Setup) (c : Opportunity.Candidate) : Prop := {
  pa_sound : Opportunity.candidate_sound c;
  pa_prices : Opportunity.ca_Direction c = su_Direction setup ∧ Opportunity.ca_Entry c = Opportunity.mkEntryZone (su_EntryLow setup) (su_EntryHigh setup) ∧
    pl_Price (Opportunity.ca_Invalidation c) = su_Stop setup ∧ map pl_Price (Opportunity.ca_Targets c) = [su_Target setup];
  pa_identity : Opportunity.ca_StructuralID c = structural_id setup ∧ Opportunity.ca_Symbol c = sx_Symbol ctx;
  pa_times : Opportunity.ca_FormedAt c = sw_BarTime (su_Sweep setup) ∧ Opportunity.ca_CreatedAt c = su_ConfirmedAt setup;
  pa_quality : Quality.unit_score (Opportunity.q_Overall (Opportunity.ca_Quality c));
  pa_stars : (ConfluenceFloor (st_detector s) <=
    Confluence.sc_SelectedStars (Confluence.Evaluate (Confluence.mkZoneQuality 0 0) (factors ctx setup) (ConfluenceCfg (st_detector s)) 0))%Z
}.
Lemma crt_candidate_total hash s ctx setup : ∃ r, candidate hash s ctx setup = Some r ∧ ∀ c, r = Some c → published_as s ctx setup c.
Proof.
  unfold candidate. destruct (Z.ltb_spec (Confluence.sc_SelectedStars (Confluence.Evaluate (Confluence.mkZoneQuality 0 0) (factors ctx setup)
    (ConfluenceCfg (st_detector s)) 0)) (ConfluenceFloor (st_detector s))) as [|Hst]; [by exists None|].
  destruct (model_total s ctx setup) as (m & -> & Hu). cbn [mbind option_bind]. eexists. split; [done|]. intros c.
  destruct (TechniqueCandidate.Candidate _ _) as [c0|] eqn:Ec; [|done]. intros [= <-].
  destruct (TechniqueCandidate.candidate_spec _ _ _ Ec) as (C1 & C2 & C3 & C4 & C5 & C6 & C7 & _). destruct (TechniqueCandidate.candidate_target _ _ _ Ec) as [C8 C9].
  cbn in C2, C3, C4, C5, C6, C7, C8, C9. split.
  - by apply with_setup_sound.
  - cbn. rewrite C2, C4, C5, C8. done.
  - cbn. by rewrite C3.
  - cbn. by rewrite C6, C7.
  - cbn. by rewrite C9.
  - done.
Qed.
Lemma publish_loop_total hash s ctx setups : ∃ kept rejections, publish_loop hash s ctx setups = Some (kept, rejections) ∧
  Forall (λ p, published_as s ctx p.1 p.2) kept ∧ sublist (map fst kept) setups ∧ length kept + length rejections = length setups.
Proof.
  induction setups as [|setup setups (kept & rejections & E & Hk & Hsub & Hl)]; cbn [publish_loop].
  { exists [], []. split_and!; try done; constructor. }
  destruct (crt_candidate_total hash s ctx setup) as (r & -> & Hr). rewrite E. cbn [mbind option_bind]. destruct r as [c|].
  - exists ((setup, c) :: kept), rejections. split_and!; [done|constructor; [by apply Hr|done]|by constructor|cbn; lia].
  - exists kept, (opposing_rejection ReasonConfluenceBelowFloor setup :: rejections). split_and!; [done|done|by constructor|cbn; lia].
Qed.
(** [C12] The strategy never panics, whatever the candles, and publishes one opportunity per setup it keeps: it satisfies the candidate
    contract, has the setup's entry, stop, target and times, a quality between zero and one and the stars asked for. The setups it
    keeps are among those of the detection, in their order, so sound by it, and every other one is accounted for by a rejection. *)
Theorem crt_strategy_sound hash s ctx :
  ∃ a cs, Analyze hash s ctx = Some (a, cs) ∧ Forall2 (published_as s ctx) (Setups a) cs ∧
  ∀ m5 h1 d, sx_Frames ctx !! tf_M5 = Some m5 → sx_Frames ctx !! tf_H1 = Some h1 → sf_Candles m5 ≠ [] →
    Detect (st_cfg s) (sf_Candles h1) (sf_Candles m5) = Some d →
    sublist (Setups a) (Setups d) ∧ length (Setups a) + length (Rejections a) = length (Setups d) + length (Rejections d).
Proof.
  unfold Analyze. destruct (sx_Frames ctx !! tf_M5) as [m5|]; [|by eexists _, _; split; [done|split; [constructor|done]]].
  destruct (sx_Frames ctx !! tf_H1) as [h1|]; [|by eexists _, _; split; [done|split; [constructor|done]]].
  destruct (sf_Candles m5) as [|b bars] eqn:Eb; [by eexists _, _; split; [done|split; [constructor|intros ? ? ? [= <-]; by rewrite Eb]]|].
  destruct (detect_spec (st_cfg s) (sf_Candles h1) (b :: bars) (Z.of_nat (length (b :: bars)) - 1)) as (d & Ed & _). fold (Detect (st_cfg s) (sf_Candles h1) (b :: bars)) in Ed.
  rewrite Ed. cbn [mbind option_bind]. destruct (publish_loop_total hash s ctx (Setups d)) as (kept & rejections & -> & Hk & Hsub & Hl). cbn [mbind option_bind].
  eexists _, _. split; [done|]. cbn [Setups Rejections]. split.
  - clear -Hk. induction Hk; cbn; by constructor.
  - intros m5' h1' d' [= <-] [= <-] _ Ed'. rewrite Eb, Ed in Ed'. injection Ed' as <-. split; [done|]. rewrite length_app, length_map. lia.
Qed.

Lemma quot_bound (d n k : Z) : (0 < k)%Z → (Z.quot d k <= n)%Z → (0 <= n)%Z → (k | d)%Z → (d <= n * k)%Z.
Proof. intros Hk Hq Hn [q ->]. rewrite Z.quot_mul in Hq by lia. nia. Qed.
(** The scan stops at the first anchor that is too old and loses nothing: on candles of the M5 grid, under an accepted configuration,
    every setup an anchor can yield is found while the anchor is younger than the horizon. *)
Theorem crt_old_anchors_spent cfg dir m5 atr anchor i0 s :
  validate cfg = true → (∀ k, k < length m5 → (m5Seconds | c_Time (m5 !!! k))%Z) → (m5Seconds | an_CloseTime anchor)%Z →
  anchor_setup cfg dir m5 atr anchor i0 s →
  (c_Time (m5 !!! asOf m5) + m5Seconds < an_CloseTime anchor + horizon cfg)%Z.
Proof.
  intros Hv Hg Ha (ep & [Hord Hrec Hsh] & Hi & _ & Hw & Hage & _). unfold validate in Hv. cbn [forallb] in Hv. rewrite !andb_true_iff, !negb_true_iff in Hv.
  assert (HR : (0 <= ReclaimMaxBars cfg)%Z) by lia. assert (HM : (0 <= MSSMaxBars cfg)%Z) by lia. assert (HA : (0 <= ConfirmationMaxAgeBars cfg)%Z) by lia. clear Hv.
  assert (Hd : ∀ i j, i < length m5 → j < length m5 → (m5Seconds | c_Time (m5 !!! j) - c_Time (m5 !!! i))%Z) by (intros; apply Z.divide_sub_r; by apply Hg).
  unfold asOf in *. unfold barsBetween in *. destruct Hrec as (_ & Hrb & _).
  apply quot_bound in Hrb; [|done|done|apply Hd; lia]. apply quot_bound in Hage; [|done|done|apply Hd; lia].
  assert (Hmb : (c_Time (m5 !!! e_m ep) - c_Time (m5 !!! e_r ep) <= MSSMaxBars cfg * m5Seconds)%Z).
  { destruct (bool_decide _); [destruct Hsh as [-> _]; unfold m5Seconds; lia|]. destruct Hsh as (_ & a & (_ & Hb & _) & _). unfold barsBetween in Hb.
    apply quot_bound in Hb; [done|done|done|apply Hd; lia]. }
  assert (Hs : (c_Time (m5 !!! e_s0 ep) + m5Seconds <= window_end cfg anchor)%Z).
  { assert (m5Seconds | window_end cfg anchor - c_Time (m5 !!! e_s0 ep))%Z as [q Hq].
    { apply Z.divide_sub_r; [|apply Hg; lia]. unfold window_end. apply Z.divide_add_r; [done|]. exists (SweepWindowH1Periods cfg * 12)%Z. unfold h1Seconds, m5Seconds. lia. }
    unfold m5Seconds in *. lia. }
  unfold window_end, horizon, m5Seconds, h1Seconds in *. lia.
Qed.
Lemma crt_old_anchors_spent_witness :
  let m5 := demo_m5 in let w := newATRWindow m5 2 3 in let anchor := mkAnchor 7200 10800 110 100 10 1 in
  validate demo_config = true ∧ (∃ s, anchor_setup demo_config Market.Buy m5 w anchor 0 s) ∧
  (c_Time (m5 !!! asOf m5) + m5Seconds < an_CloseTime anchor + horizon demo_config)%Z.
Proof.
  cbv zeta. assert (Hv : validate demo_config = true) by (vm_compute; reflexivity).
  destruct (anchor_loop_spec demo_config Market.Buy demo_m5 (newATRWindow demo_m5 2 3) (mkAnchor 7200 10800 110 100 10 1) 9 0 0 None (mkAnalysis 0 0 [] []))
    as (best & out & E & Hb & _); [discriminate|lia|cbn; lia|lia|intros s Hs; discriminate Hs|].
  assert (Hne : match anchor_loop demo_config Market.Buy demo_m5 (newATRWindow demo_m5 2 3) 9 (mkAnchor 7200 10800 110 100 10 1) 0 0 None (mkAnalysis 0 0 [] []) with
    Some (Some _, _) => True | _ => False end) by (vm_compute; exact I).
  rewrite E in Hne. destruct best as [s|]; [|destruct Hne]. specialize (Hb s eq_refl). split; [exact Hv|]. split; [exists s; exact Hb|].
  refine (crt_old_anchors_spent demo_config Market.Buy demo_m5 _ _ 0 s Hv _ _ Hb).
  - intros k Hk. exists (36 + Z.of_nat k)%Z. change (length demo_m5) with 7 in Hk. do 7 (destruct k as [|k]; [reflexivity|]). lia.
  - exists 36%Z. reflexivity.
Defined.
(** The demonstration's opportunity. *)
Definition demo_detector_settings : LegacyDetectorSettings :=
  mkSettings 0.1 1 3 1 50 0 (Confluence.mkConfig "v1" 0.585 0.39 4 2 0.5) false 0.1 6 0.5 30 0 [] false.
Definition demo_strategy_context : StrategyContext :=
  mkContext "XAUUSD" {[ tf_M5 := demo_frame demo_m5; tf_H1 := demo_frame demo_h1 ]} "" None demo_state.
Example demo_crt_candidate :
  (λ cs, map (λ c, (Opportunity.ca_Direction c, Opportunity.ca_StructuralID c, Opportunity.ca_Evidence c, Opportunity.ca_CreatedAt c)) cs) <$>
    Evaluate (λ s, "id:" +:+ s) (mkStrategy demo_config demo_detector_settings "f") demo_strategy_context =
  Some [("BUY", "technique:crt:buy:7200", ["h1_impulse_range"; "m5_range_sweep_reclaim"; "m5_crt_structure_shift"], 12600%Z)].
Proof. vm_compute. reflexivity. Qed.
