(* ===== verification/SweepEvidence.v ===== *)
(** Package strategyutil, sweep_evidence.go: finalized liquidity that was traded through and closed back, as evidence for a direction. *)
From S2P Require Import Prelude Float64 Market TechniqueInstances TechniqueScore LegacyRead Detector.
From S2P Require Structure.
From Stdlib Require Import Floats.

Definition SweepSession : string := "session".
Definition SweepEqual : string := "equal".
Definition SweepSwing : string := "swing".
Definition m5SecondsEvidence : Z := 300.
Record LiquiditySweep := mkSweep {
  ls_Kind : string; ls_Name : string; ls_Level : float; ls_SellSide : bool; ls_AvailableAt : Z; ls_SweepTime : Z; ls_ReclaimTime : Z;
  ls_PenetrationATR : float
}.
Definition Supports (s : LiquiditySweep) (direction : string) : bool :=
  (ls_SellSide s && bool_decide (direction = Market.Buy)) || (negb (ls_SellSide s) && bool_decide (direction = Market.Sell)).
Definition sweepRank (kind : string) : Z :=
  if bool_decide (kind = SweepSession) then 0 else if bool_decide (kind = SweepEqual) then 1 else 2.
Definition sweep_less (a b : LiquiditySweep) : bool :=
  if negb (sweepRank (ls_Kind a) =? sweepRank (ls_Kind b))%Z then (sweepRank (ls_Kind a) <? sweepRank (ls_Kind b))%Z
  else if negb (ls_SweepTime a =? ls_SweepTime b)%Z then (ls_SweepTime a <? ls_SweepTime b)%Z
  else (ls_Level a <? ls_Level b)%float.
(** The same price event. *)
Definition same_event (tolerance : float) (kept s : LiquiditySweep) : bool :=
  Bool.eqb (ls_SellSide kept) (ls_SellSide s) && (abs (ls_Level kept - ls_Level s) <=? tolerance)%float &&
  (abs (f64_of_Z (ls_SweepTime kept - ls_SweepTime s)) <=? f64_of_Z (2 * m5SecondsEvidence))%float.
Definition dedupe_step (tolerance : float) (out : list LiquiditySweep) (s : LiquiditySweep) : list LiquiditySweep :=
  if existsb (λ kept, same_event tolerance kept s) out then out else out ++ [s].
Definition dedupeSweeps (sweeps : list LiquiditySweep) (tolerance : float) : list LiquiditySweep :=
  foldl (dedupe_step tolerance) [] (sort_slice sweep_less sweeps).

Section sweeps.
Context (d : LegacyDetector).
Definition bars : list Candle := lf_Bars (d_Frame d).
Definition window : Z := Z.max 1 (ReactionLookbackBars (d_Settings d)).
Definition is_low (name : string) : bool := has_suffix name "_L" || bool_decide (name = "PDL") || bool_decide (name = "PWL").
Definition is_high (name : string) : bool := has_suffix name "_H" || bool_decide (name = "PDH") || bool_decide (name = "PWH").
Definition depth_at (low : bool) (price : float) (k : nat) : float :=
  if low then (price - c_Low (bars !!! k))%float else (c_High (bars !!! k) - price)%float.
Definition closes_back (low : bool) (price : float) (r : nat) : bool :=
  if low then (c_Close (bars !!! r) >=? price)%float else (c_Close (bars !!! r) <=? price)%float.
(** The bars from [k] that open at or before [to_]. *)
Fixpoint upto (to_ : Z) (l : list nat) : list nat :=
  match l with [] => [] | k :: rest => if (c_Time (bars !!! k) <=? to_)%Z then k :: upto to_ rest else [] end.
Definition from_bar (k : nat) : list nat := seq k (length bars - k).
(** The first breach of a level decides it. *)
Definition level_sweep (to_ : Z) (level : SessionRef) : option LiquiditySweep :=
  if (sr_AvailableAt level <=? 0)%Z || (sr_AvailableAt level >? to_)%Z then None
  else
    let low := is_low (sr_Name level) in
    if negb low && negb (is_high (sr_Name level)) then None
    else
      let start := bsearch (length bars) (λ i, negb (c_Time (bars !!! i) >=? sr_AvailableAt level)%Z) in
      k ← List.find (λ k, negb (depth_at low (sr_Price level) k <=? ds_PipSize (d_Settings d))%float) (upto to_ (from_bar start));
      r ← List.find (closes_back low (sr_Price level)) (upto to_ (seq k (Z.to_nat (Z.min (window + 1) (Z.of_nat (length bars) - Z.of_nat k)))));
      Some (mkSweep SweepSession (sr_Name level) (sr_Price level) low (sr_AvailableAt level) (c_Time (bars !!! k)) (c_Time (bars !!! r))
        (depth_at low (sr_Price level) k / math_Max (d_ATR d) 1e-12)%float).
Definition sessionSweeps (to_ : Z) : list LiquiditySweep := omap (level_sweep to_) (lf_Sessions (d_Frame d)).
Definition pool_sweep (to_ : Z) (grab : Grab) : option LiquiditySweep :=
  let pool := g_Pool grab in
  if g_Inducement grab || (negb (bool_decide (g_Grade grab = "A")) && negb (bool_decide (g_Grade grab = "B"))) ||
     (length bars <=? g_Index grab)%nat || (c_Time (bars !!! g_Index grab) >? to_)%Z then None
  else if (g_Index grab <=? p_LastIndex pool)%nat then None
  else
    let available := if (0 <? p_LastIndex pool)%nat && (p_LastIndex pool <? length bars)%nat then c_Time (bars !!! p_LastIndex pool) else 0%Z in
    let kind := if (2 <=? p_Touches pool)%nat then SweepEqual else SweepSwing in
    let bar := bars !!! g_Index grab in
    let depth := if bool_decide (p_Side pool = "buy") then (c_High bar - p_Level pool)%float else (p_Level pool - c_Low bar)%float in
    Some (mkSweep kind (kind +:+ "_pool") (p_Level pool) (bool_decide (p_Side pool = "sell")) available (c_Time bar) (c_Time bar)
      (math_Max 0 depth / math_Max (d_ATR d) 1e-12)%float).
Definition poolSweeps (to_ : Z) : list LiquiditySweep := omap (pool_sweep to_) (lf_Grabs (d_Frame d)).
Definition SweepsSupporting (direction : string) (from to_ : Z) : list LiquiditySweep :=
  dedupeSweeps (List.filter (λ s, Supports s direction && (ls_SweepTime s >=? from)%Z && (ls_ReclaimTime s <=? to_)%Z)
    (sessionSweeps to_ ++ poolSweeps to_)) (d_ATR d * ProximalBandATR (d_Settings d)).
Definition SessionSweepBetween (from to_ : Z) : bool :=
  FrozenSessionContext (d_Settings d) || existsb (λ s, bool_decide (ls_Kind s = SweepSession)) (SweepsSupporting (d_Direction d) from to_).
Definition SessionSweepContext (conf : option LegacyConfirmation) : bool :=
  FrozenSessionContext (d_Settings d) ||
  match conf with
  | Some conf =>
      if (lc_TouchIndex conf <? 1)%nat || (length bars <=? lc_ConfirmationIndex conf)%nat then false
      else
        let first := Z.to_nat (Z.max 0 (Z.of_nat (lc_TouchIndex conf) - window)) in
        SessionSweepBetween (c_Time (bars !!! first)) (c_Time (bars !!! (lc_TouchIndex conf - 1)%nat))
  | None => false
  end.
End sweeps.

(** * Lemmas *)

Section lemmas.
Context (d : LegacyDetector).
#[local] Abbreviation bars := (bars d).
Lemma find_upto to_ f n : ∀ a k, List.find f (upto d to_ (seq a n)) = Some k →
  a ≤ k < a + n ∧ (c_Time (bars !!! k) <= to_)%Z ∧ f k = true ∧ ∀ j, a ≤ j < k → f j = false ∧ (c_Time (bars !!! j) <= to_)%Z.
Proof.
  induction n as [|n IH]; intros a k; cbn [seq upto]; [done|]. destruct (Z.leb_spec (c_Time (bars !!! a)) to_); [|done]. cbn [List.find].
  destruct (f a) eqn:E.
  - intros [= <-]. split_and!; try done; try lia; intros; lia.
  - intros (H1 & H2 & H3 & H4)%IH. split_and!; try done; try lia. intros j Hj. destruct (decide (j = a)) as [->|]; [done|]. apply H4. lia.
Qed.
Lemma find_upto_first to_ f n a k :
  a ≤ k < a + n → f k = true → (∀ j, a ≤ j < k → f j = false) → (∀ j, a ≤ j ≤ k → (c_Time (bars !!! j) <= to_)%Z) →
  List.find f (upto d to_ (seq a n)) = Some k.
Proof.
  revert a. induction n as [|n IH]; intros a Hk Hf Hj Ht; [lia|]. cbn [seq upto]. rewrite (proj2 (Z.leb_le _ _)) by (apply Ht; lia). cbn [List.find].
  destruct (decide (a = k)) as [->|]; [by rewrite Hf|]. rewrite Hj by lia. apply IH; [lia|done|..]; intros; [apply Hj|apply Ht]; lia.
Qed.
(** What a session level's name says of its side. *)
Definition named_low (name : string) : Prop := (∃ session, name = session +:+ "_L") ∨ name = "PDL" ∨ name = "PWL".
Definition named_high (name : string) : Prop := (∃ session, name = session +:+ "_H") ∨ name = "PDH" ∨ name = "PWH".
(** A session level swept at [k] and reclaimed at [r]: it was final before; [k] is the first candle since then to trade through it by
    more than a pip, and [r] the first from there, within the reaction lookback, to close back on its own side. *)
Record level_swept (to_ : Z) (level : SessionRef) (low : bool) (k r : nat) : Prop := {
  lv_known : level ∈ lf_Sessions (d_Frame d) ∧ (0 < sr_AvailableAt level <= to_)%Z;
  lv_side : if low then named_low (sr_Name level) else named_high (sr_Name level) ∧ ¬ named_low (sr_Name level);
  lv_order : k ≤ r < length bars ∧ (Z.of_nat r <= Z.of_nat k + Z.max 1 (ReactionLookbackBars (d_Settings d)))%Z ∧
    (sr_AvailableAt level <= c_Time (bars !!! k))%Z ∧ (c_Time (bars !!! r) <= to_)%Z;
  lv_breach : let through j := if low then (sr_Price level - c_Low (bars !!! j))%float else (c_High (bars !!! j) - sr_Price level)%float in
    (through k <=? ds_PipSize (d_Settings d))%float = false ∧
    ∀ j, j < k → (sr_AvailableAt level <= c_Time (bars !!! j))%Z → (through j <=? ds_PipSize (d_Settings d))%float = true;
  lv_back : let back j := if low then (c_Close (bars !!! j) >=? sr_Price level)%float else (c_Close (bars !!! j) <=? sr_Price level)%float in
    back r = true ∧ ∀ j, k ≤ j < r → back j = false
}.
Definition session_event (to_ : Z) (s : LiquiditySweep) : Prop :=
  ∃ level low k r, level_swept to_ level low k r ∧
    s = mkSweep SweepSession (sr_Name level) (sr_Price level) low (sr_AvailableAt level) (c_Time (bars !!! k)) (c_Time (bars !!! r))
      ((if low then sr_Price level - c_Low (bars !!! k) else c_High (bars !!! k) - sr_Price level) / math_Max (d_ATR d) 1e-12)%float.
(** A grab of grade A or B, no inducement, of a pool older than its candle. *)
Definition pool_event (to_ : Z) (s : LiquiditySweep) : Prop :=
  ∃ g, let pool := g_Pool g in let bar := bars !!! g_Index g in
    g ∈ lf_Grabs (d_Frame d) ∧ g_Inducement g = false ∧ (g_Grade g = "A" ∨ g_Grade g = "B") ∧ p_LastIndex pool < g_Index g < length bars ∧
    (c_Time bar <= to_)%Z ∧
    let kind := if (2 <=? p_Touches pool)%nat then SweepEqual else SweepSwing in
    s = mkSweep kind (kind +:+ "_pool") (p_Level pool) (bool_decide (p_Side pool = "sell"))
      (if decide (p_LastIndex pool = 0) then 0%Z else c_Time (bars !!! p_LastIndex pool)) (c_Time bar) (c_Time bar)
      (math_Max 0 (if decide (p_Side pool = "buy") then c_High bar - p_Level pool else p_Level pool - c_Low bar) / math_Max (d_ATR d) 1e-12)%float.
Lemma substring_all (x : string) : String.substring 0 (String.length x) x = x.
Proof. induction x as [|c x IH]; cbn; [done|]. by rewrite IH. Qed.
Lemma suffix_spec (x suffix : string) : has_suffix x suffix = true ↔ ∃ pre, x = pre +:+ suffix.
Proof.
  unfold has_suffix. rewrite andb_true_iff, Nat.leb_le, bool_decide_eq_true. split.
  - intros [Hl He]. revert Hl He. remember (String.length x - String.length suffix) as n eqn:En. revert x En.
    induction n as [|n IH]; intros x En Hl He.
    + exists "". rewrite <- He. replace (String.length suffix) with (String.length x) by lia. by rewrite substring_all.
    + destruct x as [|c x]; [done|]. cbn [String.length String.substring] in *. destruct (IH x) as (pre & ->); [lia|lia|done|]. by exists (String c pre).
  - intros (pre & ->). induction pre as [|c pre IH].
    + change ("" +:+ suffix) with suffix. rewrite Nat.sub_diag. split; [done|]. apply substring_all.
    + destruct IH as [Hl He]. change (String c pre +:+ suffix) with (String c (pre +:+ suffix)). cbn [String.length]. split; [lia|]. replace (S (String.length (pre +:+ suffix)) - String.length suffix)
        with (S (String.length (pre +:+ suffix) - String.length suffix)) by lia. exact He.
Qed.
Lemma is_low_spec name : is_low name = true ↔ named_low name.
Proof. unfold is_low, named_low. rewrite !orb_true_iff, suffix_spec, !bool_decide_eq_true. tauto. Qed.
Lemma is_high_spec name : is_high name = true ↔ named_high name.
Proof. unfold is_high, named_high. rewrite !orb_true_iff, suffix_spec, !bool_decide_eq_true. tauto. Qed.
Section ordered.
Hypothesis Hs : Structure.increasing bars.
Lemma bars_upto i j to_ : i ≤ j < length bars → (c_Time (bars !!! j) <= to_)%Z → (c_Time (bars !!! i) <= to_)%Z.
Proof. intros Hij Ht. destruct (decide (i = j)) as [->|]; [done|]. pose proof (Structure.sorted_times_lt _ i j Hs ltac:(lia)). lia. Qed.
Lemma level_start t : let start := bsearch (length bars) (λ i, negb (c_Time (bars !!! i) >=? t)%Z) in
  start ≤ length bars ∧ ∀ i, i < length bars → (t <= c_Time (bars !!! i))%Z ↔ start ≤ i.
Proof.
  intros start. destruct (bsearch_spec_bounded (length bars) (λ i, negb (c_Time (bars !!! i) >=? t)%Z)) as (H1 & H2 & H3).
  { intros i j Hij Hj. apply negb_true_iff in Hj. apply negb_true_iff. destruct (decide (i = j)) as [->|]; [done|].
    pose proof (Structure.sorted_times_lt _ i j Hs ltac:(lia)). lia. }
  split; [done|]. intros i Hi. split.
  - intros Ht. apply Nat.nlt_ge. intros Hlt. specialize (H2 i Hlt). apply negb_true_iff in H2. lia.
  - intros Hle. specialize (H3 i ltac:(lia)). apply negb_false_iff in H3. lia.
Qed.
Lemma level_sweep_spec to_ level s :
  level ∈ lf_Sessions (d_Frame d) →
  level_sweep d to_ level = Some s ↔ ∃ low k r, level_swept to_ level low k r ∧
    s = mkSweep SweepSession (sr_Name level) (sr_Price level) low (sr_AvailableAt level) (c_Time (bars !!! k)) (c_Time (bars !!! r))
      ((if low then sr_Price level - c_Low (bars !!! k) else c_High (bars !!! k) - sr_Price level) / math_Max (d_ATR d) 1e-12)%float.
Proof.
  intros Hin. unfold level_sweep. destruct (level_start (sr_AvailableAt level)) as [L1 L2].
  set (start := bsearch _ _) in *. unfold from_bar. split.
  - destruct (_ || _) eqn:E1; [done|]. apply orb_false_iff in E1 as [E1 E1']. destruct (negb (is_low _) && negb (is_high _)) eqn:E2; [done|]. cbv zeta.
    destruct (List.find _ (upto d to_ (seq start _))) as [k|] eqn:Ek; [|done]. cbn [mbind option_bind].
    destruct (List.find _ (upto d to_ (seq k _))) as [r|] eqn:Er; [|done]. cbn [mbind option_bind]. intros [= <-].
    apply find_upto in Ek as (K1 & K2 & K3 & K4), Er as (R1 & R2 & R3 & R4). exists (is_low (sr_Name level)), k, r.
    split; [|unfold depth_at; by destruct (is_low _)]. apply negb_true_iff in K3. unfold window in R1. split.
    + split; [done|lia].
    + destruct (is_low _) eqn:El; [by apply is_low_spec|]. cbn in E2. apply negb_false_iff in E2. split; [by apply is_high_spec|].
      rewrite <- is_low_spec. congruence.
    + split_and!; [lia..| |done]. apply L2; lia.
    + unfold depth_at in *. split; [by destruct (is_low _)|]. intros j Hj Hav. destruct (K4 j) as [H _]; [split; [apply L2; lia|done]|].
      apply negb_false_iff in H. by destruct (is_low _).
    + unfold closes_back in *. split; [by destruct (is_low _)|]. intros j Hj. destruct (R4 j Hj) as [H _]. by destruct (is_low _).
  - intros (low & k & r & [[_ Hav] Hside (Ho1 & Ho2 & Ho3 & Ho4) [Hb1 Hb2] [Hc1 Hc2]] & ->).
    destruct (_ || _) eqn:E1; [lia|]. clear E1. cbv zeta.
    assert (El : is_low (sr_Name level) = low).
    { destruct low; [by apply is_low_spec|]. apply not_true_iff_false. rewrite is_low_spec. apply Hside. }
    rewrite El. assert (E2 : negb low && negb (is_high (sr_Name level)) = false).
    { destruct low; [done|]. cbn. apply negb_false_iff, is_high_spec. apply Hside. }
    rewrite E2. rewrite (find_upto_first to_ _ _ start k).
    + cbn [mbind option_bind]. rewrite (find_upto_first to_ _ _ k r).
      * cbn [mbind option_bind]. unfold depth_at. by destruct low.
      * unfold window. lia.
      * unfold closes_back. by destruct low.
      * intros j Hj. specialize (Hc2 j Hj). unfold closes_back. by destruct low.
      * intros j Hj. apply (bars_upto j r); [lia|done].
    + assert (start ≤ k) by (apply L2; [lia|done]). lia.
    + unfold depth_at. apply negb_true_iff. by destruct low.
    + intros j Hj. apply negb_false_iff. specialize (Hb2 j ltac:(lia) ltac:(apply L2; lia)). unfold depth_at. by destruct low.
    + intros j Hj. apply (bars_upto j r); [lia|done].
Qed.
Lemma sessionSweeps_spec to_ s : s ∈ sessionSweeps d to_ ↔ session_event to_ s.
Proof.
  unfold sessionSweeps, session_event. rewrite list_elem_of_omap. split.
  - intros (level & Hl & E). exists level. by apply level_sweep_spec.
  - intros (level & low & k & r & H & E). exists level. pose proof (lv_known _ _ _ _ _ H) as [Hl _]. split; [done|].
    apply level_sweep_spec; [done|]. by exists low, k, r.
Qed.
End ordered.
Lemma pool_sweep_spec to_ g s :
  g ∈ lf_Grabs (d_Frame d) → pool_sweep d to_ g = Some s ↔
  let pool := g_Pool g in let bar := bars !!! g_Index g in
  g ∈ lf_Grabs (d_Frame d) ∧ g_Inducement g = false ∧ (g_Grade g = "A" ∨ g_Grade g = "B") ∧ p_LastIndex pool < g_Index g < length bars ∧
  (c_Time bar <= to_)%Z ∧
  let kind := if (2 <=? p_Touches pool)%nat then SweepEqual else SweepSwing in
  s = mkSweep kind (kind +:+ "_pool") (p_Level pool) (bool_decide (p_Side pool = "sell"))
    (if decide (p_LastIndex pool = 0) then 0%Z else c_Time (bars !!! p_LastIndex pool)) (c_Time bar) (c_Time bar)
    (math_Max 0 (if decide (p_Side pool = "buy") then c_High bar - p_Level pool else p_Level pool - c_Low bar) / math_Max (d_ATR d) 1e-12)%float.
Proof.
  intros Hg. cbv zeta. unfold pool_sweep. cbv zeta.
  assert (Hd : bool_decide (p_Side (g_Pool g) = "buy") = if decide (p_Side (g_Pool g) = "buy") then true else false) by (case_bool_decide; by case_decide).
  assert (Ha : p_LastIndex (g_Pool g) < length bars → (if (0 <? p_LastIndex (g_Pool g))%nat && (p_LastIndex (g_Pool g) <? length bars)%nat then c_Time (bars !!! p_LastIndex (g_Pool g)) else 0%Z) =
    if decide (p_LastIndex (g_Pool g) = 0) then 0%Z else c_Time (bars !!! p_LastIndex (g_Pool g))).
  { clear Hd. intros Hl. case_decide as E; [by rewrite E|]. rewrite (proj2 (Nat.ltb_lt _ _)), (proj2 (Nat.ltb_lt _ _)) by lia. done. }
  split.
  - destruct (_ || _ || _ || _) eqn:E1; [done|]. rewrite !orb_false_iff in E1. destruct E1 as [[[E1 E2] E3%Nat.leb_gt] E4].
    destruct (Nat.leb_spec (g_Index g) (p_LastIndex (g_Pool g))) as [|Hl]; [done|]. intros [= <-]. rewrite Ha by lia. rewrite Hd.
    apply andb_false_iff in E2. rewrite !negb_false_iff, !bool_decide_eq_true in E2.
    split_and!; [done|done|done|lia|lia|lia|by destruct (decide (p_Side (g_Pool g) = "buy"))].
  - intros (_ & H1 & H2 & H3 & H4 & ->). rewrite H1. cbn [orb].
    assert (E2 : negb (bool_decide (g_Grade g = "A")) && negb (bool_decide (g_Grade g = "B")) = false).
    { apply andb_false_iff. rewrite !negb_false_iff, !bool_decide_eq_true. done. }
    rewrite E2, (proj2 (Nat.leb_gt _ _)) by lia. cbn [orb]. destruct (Z.gtb_spec (c_Time (bars !!! g_Index g)) to_); [lia|].
    rewrite (proj2 (Nat.leb_gt _ _)) by lia. rewrite Ha by lia. rewrite Hd. by destruct (decide (p_Side (g_Pool g) = "buy")).
Qed.
Lemma poolSweeps_spec to_ s : s ∈ poolSweeps d to_ ↔ pool_event to_ s.
Proof.
  unfold poolSweeps, pool_event. rewrite list_elem_of_omap. split.
  - intros (g & Hg & E). exists g. by apply pool_sweep_spec.
  - intros (g & H). exists g. split; [apply H|]. apply pool_sweep_spec; [apply H|exact H].
Qed.
(** The kept sweep that stands for another one: itself, or the same event and not ranked after it. *)
Definition stands_for (tolerance : float) (y x : LiquiditySweep) : Prop := y = x ∨ same_event tolerance y x = true ∧ sweep_less x y = false.
Lemma sweep_dedupe_fold tolerance l : ∀ out pre,
  (∀ x, x ∈ pre → ∃ y, y ∈ out ∧ stands_for tolerance y x) → out ⊆ pre → StronglySorted (λ a b, sweep_less b a = false) (pre ++ l) →
  ForallOrdPairs (λ a b, same_event tolerance a b = false) out →
  let res := foldl (dedupe_step tolerance) out l in
  (∀ x, x ∈ pre ++ l → ∃ y, y ∈ res ∧ stands_for tolerance y x) ∧ res ⊆ pre ++ l ∧ ForallOrdPairs (λ a b, same_event tolerance a b = false) res.
Proof.
  induction l as [|a l IH]; intros out pre Hcov Hsub Hs Hp; cbn [foldl]; cbv zeta.
  { rewrite app_nil_r. split; [|done]. intros x Hx. destruct (Hcov x Hx) as (y & ? & ?). by exists y. }
  assert (Hord : ∀ y, y ∈ pre → sweep_less a y = false).
  { intros y Hy. apply list_elem_of_lookup in Hy as (i & Hi). apply (StronglySorted_lookups _ _ i (length pre) y a Hs); [by eapply lookup_lt_Some| |].
    - apply lookup_app_l_Some, Hi.
    - by rewrite lookup_app_r, Nat.sub_diag by lia. }
  rewrite cons_middle, app_assoc in Hs |- *. destruct (existsb (λ kept, same_event tolerance kept a) out) eqn:E;
    (assert (Ed : dedupe_step tolerance out a = if existsb (λ kept, same_event tolerance kept a) out then out else out ++ [a]) by done); rewrite E in Ed; rewrite Ed;
    apply IH; try done.
  - intros x [Hx| ->%list_elem_of_singleton]%elem_of_app; [by apply Hcov|]. apply existsb_exists in E as (y & Hy%list_elem_of_In & Es).
    exists y. split; [done|]. right. split; [done|]. by apply Hord, Hsub.
  - intros x Hx. apply elem_of_app. left. by apply Hsub.
  - intros x [Hx| ->%list_elem_of_singleton]%elem_of_app.
    + destruct (Hcov x Hx) as (y & ? & ?). exists y. split; [apply elem_of_app; by left|done].
    + exists a. split; [apply elem_of_app; right; by left|by left].
  - intros x [Hx|Hx]%elem_of_app; apply elem_of_app; [left; by apply Hsub|by right].
  - clear -Hp E. induction Hp as [|y out Hy Hp IHp]; cbn; [repeat constructor|]. cbn in E. apply orb_false_iff in E as [E1 E2].
    constructor; [|by apply IHp]. apply Forall_app. split; [done|by repeat constructor].
Qed.
Lemma sweep_less_ranks a b : sweep_less b a = false → (sweepRank (ls_Kind a) <= sweepRank (ls_Kind b))%Z.
Proof. unfold sweep_less. destruct (Z.eqb_spec (sweepRank (ls_Kind b)) (sweepRank (ls_Kind a))); cbn [negb]; lia. Qed.
Definition sweep_key (s : LiquiditySweep) : list Z := [sweepRank (ls_Kind s); ls_SweepTime s; key (ls_Level s)].
Lemma sweep_less_key a b : IsNaN (ls_Level a) = false → IsNaN (ls_Level b) = false → sweep_less a b = lex_lt (sweep_key a) (sweep_key b).
Proof. intros Na Nb. unfold sweep_less. rewrite ltb_num by done. unfold sweep_key. cbn [lex_lt].
  destruct (_ =? _)%Z, (_ =? _)%Z; cbn [negb]; try done. destruct (Z.eqb_spec (key (ls_Level a)) (key (ls_Level b))); [|done]. apply Z.ltb_ge. lia.
Qed.
End lemmas.

(** One price event, as two sweeps tell it: the same side, nearby levels, candles no more than two setup candles apart. *)
Definition one_event (tolerance : float) (a b : LiquiditySweep) : Prop :=
  ls_SellSide a = ls_SellSide b ∧ (abs (ls_Level a - ls_Level b) <=? tolerance)%float = true ∧
  (abs (f64_of_Z (ls_SweepTime a - ls_SweepTime b)) <=? 600)%float = true.
Lemma same_event_spec tolerance a b : same_event tolerance a b = true ↔ one_event tolerance a b.
Proof.
  unfold same_event, one_event. rewrite !andb_true_iff, Bool.eqb_true_iff. change (f64_of_Z (2 * m5SecondsEvidence)) with (f64_of_Z 600).
  replace (f64_of_Z 600) with 600%float by (vm_compute; reflexivity). tauto.
Qed.
Lemma rank_kinds r s : (sweepRank (ls_Kind r) <= sweepRank (ls_Kind s))%Z →
  (ls_Kind s = SweepSession → ls_Kind r = SweepSession) ∧ (ls_Kind s = SweepEqual → ls_Kind r = SweepSession ∨ ls_Kind r = SweepEqual).
Proof.
  intros H. split; intros E; rewrite E in H; [change (sweepRank SweepSession) with 0%Z in H|change (sweepRank SweepEqual) with 1%Z in H];
    revert H; unfold sweepRank; case_bool_decide as E1; [by auto|case_bool_decide; intros; lia|by auto|case_bool_decide as E2; [by auto|intros; lia]].
Qed.
Lemma Supports_spec s direction :
  Supports s direction = true ↔ if ls_SellSide s then direction = Market.Buy else direction = Market.Sell.
Proof. unfold Supports. destruct (ls_SellSide s); cbn; rewrite ?orb_false_r, bool_decide_eq_true; done. Qed.

(** * Theorems *)


(** The detector as its frame's candles go on. *)
Definition set_market (f : LegacyFrame) (bars : list Candle) (sessions : list SessionRef) (grabs : list Grab) : LegacyFrame :=
  mkLegacyFrame bars (lf_ATR f) (lf_DetectorATR f) (lf_Compat f) (lf_Swings f) (lf_Structure f) (lf_Breaks f) (lf_Levels f) (lf_SwingLevels f)
    (lf_ContractZones f) (lf_Legs f) (lf_Zones f) (lf_TechniqueZones f) (lf_OrderBlocks f) (lf_Pools f) grabs sessions (lf_Trendlines f) (lf_Barriers f)
    (lf_ScalpRange f) (lf_ScalpState f) (lf_ScalpBroken f) (lf_Range f) (lf_FibLadder f) (lf_Regime f) (lf_Momentum f) (lf_MomentumVelocity f)
    (lf_MomentumAcceleration f).
Definition set_frame (d : LegacyDetector) (f : LegacyFrame) : LegacyDetector := mkDetector f (d_Read d) (d_Direction d) (d_Price d) (d_ATR d) (d_Settings d).
Definition go_on (d : LegacyDetector) (later : list Candle) (sessions : list SessionRef) (grabs : list Grab) : LegacyDetector :=
  let f := d_Frame d in set_frame d (set_market f (lf_Bars f ++ later) (lf_Sessions f ++ sessions) (lf_Grabs f ++ grabs)).
Lemma upto_seq_app d d' to_ later m : ∀ a,
  bars d' = bars d ++ later → Forall (λ c, (to_ < c_Time c)%Z) later → a + m ≤ length (bars d') →
  upto d' to_ (seq a m) = upto d to_ (seq a (Nat.min m (length (bars d) - a))).
Proof.
  induction m as [|m IH]; intros a Hb Hl Ha; [done|]. cbn [seq upto]. destruct (decide (a < length (bars d))) as [Hlt|Hge].
  - rewrite Hb, lookup_total_app_l by done. destruct (length (bars d) - a) as [|k] eqn:Ek; [lia|]. cbn [Nat.min seq upto].
    destruct (_ <=? _)%Z; [|done]. f_equal. rewrite IH by (done || lia). do 3 f_equal. lia.
  - replace (length (bars d) - a) with 0 by lia. rewrite Nat.min_0_r. cbn [seq upto]. rewrite Hb in Ha |- *. rewrite length_app in Ha.
    rewrite lookup_total_app_r by lia. rewrite Forall_lookup in Hl.
    specialize (Hl (a - length (bars d)) (later !!! (a - length (bars d))) ltac:(apply list_lookup_lookup_total_lt; lia)).
    by destruct (Z.leb_spec (c_Time (later !!! (a - length (bars d)))) to_); [lia|].
Qed.
(** A sweep is a fact of the past: candles that open after [to_], session levels that become known after it and grabs on later
    candles change neither the sweeps reported nor the session context of a reaction already confirmed. *)
Theorem sweep_evidence_causal d later sessions grabs direction from to_ :
  Structure.increasing (bars d ++ later) → Forall (λ c, (to_ < c_Time c)%Z) later → Forall (λ l, (to_ < sr_AvailableAt l)%Z) sessions →
  Forall (λ g, g_Index g < length (bars d)) (lf_Grabs (d_Frame d)) → Forall (λ g, length (bars d) ≤ g_Index g) grabs →
  SweepsSupporting (go_on d later sessions grabs) direction from to_ = SweepsSupporting d direction from to_ ∧
  SessionSweepBetween (go_on d later sessions grabs) from to_ = SessionSweepBetween d from to_.
Proof.
  intros Hs Hl Hss Hg Hg'. set (d' := go_on d later sessions grabs). assert (Hb : bars d' = bars d ++ later) by done.
  assert (Hlev : ∀ level, level_sweep d' to_ level = level_sweep d to_ level).
  { intros level. unfold level_sweep. change (window d') with (window d). change (d_Settings d') with (d_Settings d). change (d_ATR d') with (d_ATR d).
    destruct ((sr_AvailableAt level <=? 0)%Z || (sr_AvailableAt level >? to_)%Z) eqn:Eav; [done|]. cbv zeta. destruct (_ && _); [done|].
    assert (Est : bsearch (length (bars d')) (λ i, negb (c_Time (bars d' !!! i) >=? sr_AvailableAt level)%Z) =
      bsearch (length (bars d)) (λ i, negb (c_Time (bars d !!! i) >=? sr_AvailableAt level)%Z)).
    { rewrite Hb, length_app, bsearch_extend.
      - apply bsearch_loop_ext. intros i Hi. by rewrite lookup_total_app_l.
      - intros i j Hij Hj. destruct (decide (i = j)) as [->|]; [done|]. rewrite <- length_app in Hij. pose proof (Structure.sorted_times_lt _ i j Hs ltac:(lia)). lia.
      - intros i Hi. rewrite lookup_total_app_r by lia. rewrite Forall_lookup in Hl. specialize (Hl (i - length (bars d)) (later !!! (i - length (bars d)))).
        rewrite negb_false_iff, Z.geb_le. apply Z.lt_le_incl. apply Z.le_lt_trans with to_; [lia|]. apply Hl, list_lookup_lookup_total_lt. lia. }
    rewrite Est. set (start := bsearch (length (bars d)) _). assert (Hst : start ≤ length (bars d)) by apply bsearch_le.
    unfold from_bar. rewrite (upto_seq_app d d' to_ later) by (rewrite ?Hb, ?length_app; done || lia).
    rewrite Hb, length_app, Nat.min_r by lia.
    assert (Hdep : ∀ low price k, k < length (bars d) → depth_at d' low price k = depth_at d low price k ∧ closes_back d' low price k = closes_back d low price k ∧
      c_Time (bars d' !!! k) = c_Time (bars d !!! k)) by (intros; unfold depth_at, closes_back; by rewrite Hb, lookup_total_app_l).
    assert (Hfind : ∀ f g a n, a + n ≤ length (bars d) → (∀ k, k < length (bars d) → f k = g k) → List.find f (upto d to_ (seq a n)) = List.find g (upto d to_ (seq a n))).
    { intros f g a n Hn Hfg. revert a Hn. induction n as [|n IH]; intros a Hn; cbn [seq upto]; [done|].
      destruct (c_Time (bars d !!! a) <=? to_)%Z; [|done]. cbn [List.find]. rewrite Hfg by lia. destruct (g a); [done|]. apply IH. lia. }
    rewrite (Hfind _ (λ k, negb (depth_at d (is_low (sr_Name level)) (sr_Price level) k <=? ds_PipSize (d_Settings d))%float)) by
      (lia || (intros; by rewrite (proj1 (Hdep _ _ _ ltac:(done))))).
    destruct (List.find _ (upto d to_ (seq start _))) as [k|] eqn:Ek; [|done]. cbn [mbind option_bind]. apply find_upto in Ek as (Hk & _).
    rewrite (upto_seq_app d d' to_ later) by (rewrite ?Hb, ?length_app; done || lia).
    rewrite (Hfind _ (closes_back d (is_low (sr_Name level)) (sr_Price level))) by (lia || (intros; by apply Hdep)).
    replace (Nat.min _ (length (bars d) - k)) with (Z.to_nat (Z.min (window d + 1) (Z.of_nat (length (bars d)) - Z.of_nat k))) by lia.
    destruct (List.find _ (upto d to_ (seq k _))) as [r|] eqn:Er; [|done]. cbn [mbind option_bind]. apply find_upto in Er as (Hr & _).
    destruct (Hdep (is_low (sr_Name level)) (sr_Price level) k ltac:(lia)) as (-> & _ & E1). destruct (Hdep false 0%float r ltac:(lia)) as (_ & _ & E2).
    by rewrite <- Hb, E1, E2. }
  assert (Hses : sessionSweeps d' to_ = sessionSweeps d to_).
  { unfold sessionSweeps. change (lf_Sessions (d_Frame d')) with (lf_Sessions (d_Frame d) ++ sessions). rewrite omap_app.
    rewrite (list_omap_ext _ (level_sweep d to_) (lf_Sessions (d_Frame d)) (lf_Sessions (d_Frame d))).
    - rewrite <- app_nil_r. f_equal. clear -Hss. induction Hss as [|l sessions H Hss IH]; [done|]. cbn. unfold level_sweep at 1.
      replace (sr_AvailableAt l >? to_)%Z with true by lia. by rewrite orb_true_r.
    - apply Forall_Forall2_diag, Forall_forall. intros level _. apply Hlev. }
  assert (Hpool : poolSweeps d' to_ = poolSweeps d to_).
  { unfold poolSweeps. change (lf_Grabs (d_Frame d')) with (lf_Grabs (d_Frame d) ++ grabs). rewrite omap_app.
    rewrite (list_omap_ext _ (pool_sweep d to_) (lf_Grabs (d_Frame d)) (lf_Grabs (d_Frame d))).
    - rewrite <- app_nil_r. f_equal. rewrite Forall_forall in Hg'. clearbody d'. clear -Hg' Hb Hl. induction grabs as [|g grabs IH]; [done|]. cbn.
      assert (E : pool_sweep d' to_ g = None); [|rewrite E; apply IH; intros; apply Hg'; by right].
      unfold pool_sweep. destruct (g_Inducement g || _); [done|]. cbn [orb]. rewrite Hb, length_app. specialize (Hg' g ltac:(by left)).
      destruct (Nat.leb_spec (length (bars d) + length later) (g_Index g)); [done|]. cbn [orb]. rewrite lookup_total_app_r by lia. rewrite Forall_lookup in Hl.
      specialize (Hl (g_Index g - length (bars d)) (later !!! (g_Index g - length (bars d))) ltac:(apply list_lookup_lookup_total_lt; lia)).
      by destruct (Z.gtb_spec (c_Time (later !!! (g_Index g - length (bars d)))) to_); [|lia].
    - apply Forall_Forall2_diag. eapply Forall_impl; [exact Hg|]. cbn. intros g Hgi. unfold pool_sweep. change (d_ATR d') with (d_ATR d).
      rewrite Hb, length_app, lookup_total_app_l by done. rewrite !(proj2 (Nat.leb_gt _ (g_Index g))) by lia.
      destruct (_ || _); [done|]. destruct (Nat.leb_spec (g_Index g) (p_LastIndex (g_Pool g))); [done|].
      rewrite !(proj2 (Nat.ltb_lt (p_LastIndex (g_Pool g)) _)) by lia.
      rewrite lookup_total_app_l by lia. done. }
  assert (E : ∀ direction, SweepsSupporting d' direction from to_ = SweepsSupporting d direction from to_) by (intros; unfold SweepsSupporting; by rewrite Hses, Hpool).
  split; [apply E|]. unfold SessionSweepBetween. change (d_Direction d') with (d_Direction d). by rewrite E.
Qed.

(** A session low taken by the third candle and reclaimed by the fourth, with a graded grab of an older pool at the same price and candle. *)
Definition demo_pool : TechniqueScore.Pool := TechniqueScore.mkPool "sell" 8.9375 0.125 2 1.
Definition demo_sweep_detector : LegacyDetector :=
  set_frame demo_detector (set_market demo_frame demo_bars [mkSessionRef "ASIA_L" 9 false 60] [TechniqueScore.mkGrab 2 "up" "A" demo_pool true false]).
Lemma sweep_evidence_causal_witness :
  let d' := go_on demo_sweep_detector [mkCandle 360 9.5 9.6 8.5 9.4 1] [mkSessionRef "ASIA_H" 9.5625 false 360] [TechniqueScore.mkGrab 5 "up" "A" demo_pool true false] in
  SweepsSupporting d' "BUY" 0 300 = SweepsSupporting demo_sweep_detector "BUY" 0 300 ∧ length (poolSweeps d' 400) = 2 ∧
  SessionSweepBetween d' 0 300 = true.
Proof.
  destruct (sweep_evidence_causal demo_sweep_detector [mkCandle 360 9.5 9.6 8.5 9.4 1] [mkSessionRef "ASIA_H" 9.5625 false 360]
    [TechniqueScore.mkGrab 5 "up" "A" demo_pool true false] "BUY" 0 300) as [H1 H2].
  - repeat (constructor; try (cbn; lia)).
  - repeat constructor.
  - repeat constructor.
  - repeat (constructor; try (cbn; lia)).
  - repeat (constructor; try (cbn; lia)).
  - cbv zeta. split; [exact H1|]. split; [vm_compute; reflexivity|]. rewrite H2. vm_compute. reflexivity.
Defined.
