(* ===== verification/ScalpContext.v ===== *)
(** Package strategyutil, scalpcontext.go: what the scalp strategies share — the context of the setup candles, the stop and the target of
    the ladder, the dealing position and the confirmation on one-minute candles. *)
From S2P Require Import Prelude Float64 Market.
From S2P Require Structure Fib TechniqueCandidate Opportunity.
From Stdlib Require Import Floats.

Record ScalpContextConfig := mkContextConfig {
  PipSize : float; ContextMaxAgeSeconds : Z; ContextATRBars : Z; ActiveRangeBars : Z; ConfirmationWindowBars : Z
}.
Record ScalpContext_ := mkScalpContext {
  cx_ATR : float; cx_M1ATR : float; cx_Price : float; cx_CloseAt : Z; cx_ActiveLow : float; cx_ActiveHigh : float; cx_BuyRoomPips : float;
  cx_SellRoomPips : float
}.
Definition tailCandles (bars : list Candle) (n : Z) : list Candle :=
  if (n >? 0)%Z && (Z.of_nat (length bars) >? n)%Z then drop (length bars - Z.to_nat n) bars else bars.
(** The sums run in the order of the candles. *)
Definition sum_of (f : Candle → float) (l : list Candle) : float := foldl (λ s b, s + f b)%float 0%float l.
Definition SetupATR (m5 : list Candle) (size : Z) (pip : float) : float :=
  let fallback := math_Max (pip * 50) pip in
  if (length m5 <? 2)%nat then fallback
  else
    let window := tailCandles m5 size in let n := f64_of_Z (Z.of_nat (length window)) in
    let atr := (sum_of c_High window / n - sum_of c_Low window / n)%float in
    if (atr <=? 0)%float || IsNaN atr then fallback else atr.
(** The true range of the candle at [i]; the first has no candle before it. *)
Definition range_at (m1 : list Candle) (i : nat) : float :=
  let b := m1 !!! i in let r := (c_High b - c_Low b)%float in
  match i with
  | O => r
  | S p => let prev := c_Close (m1 !!! p) in math_Max r (math_Max (abs (c_High b - prev)) (abs (c_Low b - prev)))
  end.
Definition M1ATR (m1 : list Candle) (size : Z) (pip : float) : float :=
  let fallback := math_Max (pip * 3) pip in
  if (length m1 <? 15)%nat then fallback
  else
    let n := length (tailCandles m1 size) in let start := length m1 - n in
    let v := (foldl (λ s i, s + range_at m1 i) 0 (seq start n) / f64_of_Z (Z.of_nat n))%float in
    if (v >? 0)%float && negb (IsNaN v) && negb (IsInf v) then v else fallback.
(** The candle of the boundary, looked for backwards among those that open at or after it. *)
Fixpoint boundary_loop (m1 : list Candle) (boundary : Z) (n : nat) : option nat :=
  match n with
  | O => None
  | S i => let t := c_Time (m1 !!! i) in if (t <? boundary)%Z then None else if (t =? boundary)%Z then Some i else boundary_loop m1 boundary i
  end.
Definition active_low (active : list Candle) : float := foldl (λ m b, math_Min m (c_Low b)) (c_Low (active !!! 0%nat)) (drop 1 active).
Definition active_high (active : list Candle) : float := foldl (λ m b, math_Max m (c_High b)) (c_High (active !!! 0%nat)) (drop 1 active).
Definition snapshot_index (cfg : ScalpContextConfig) (m5 m1All : list Candle) (now : Z) : nat :=
  let lastOpen := c_Time (m5 !!! (length m5 - 1)%nat) in
  if (now - lastOpen <=? ContextMaxAgeSeconds cfg)%Z then default (length m1All - 1) (boundary_loop m1All (lastOpen + 300) (length m1All))
  else length m1All - 1.
Definition BuildScalpContext (cfg : ScalpContextConfig) (m5 m1All : list Candle) (now : Z) : option ScalpContext_ :=
  if (length m5 =? 0)%nat || (length m1All =? 0)%nat then None
  else
    let idx := snapshot_index cfg m5 m1All now in let price := c_Close (m1All !!! idx) in
    if IsNaN price || IsInf price || (price <=? 0)%float then None
    else
      let active := tailCandles m5 (ActiveRangeBars cfg) in let low := active_low active in let high := active_high active in
      if (high <=? low)%float then None
      else
        let pip := PipSize cfg in
        Some (mkScalpContext (SetupATR m5 (ContextATRBars cfg) pip)
          (M1ATR (tailCandles (take (S idx) m1All) (ConfirmationWindowBars cfg)) (ContextATRBars cfg) pip) price (c_Time (m1All !!! idx) + 60) low high
          ((high - price) / pip) ((price - low) / pip)).
Definition ScalpBuffer (m1ATR m1ATRMultiple pip maximumSpreadPips spreadMultiple : float) : float :=
  math_Max (m1ATR * m1ATRMultiple) (pip * maximumSpreadPips * spreadMultiple).
Definition ScalpStopPips (structural minimum maximum : float) : option float :=
  let value := abs structural in
  if (value <=? 0)%float || (maximum <? minimum)%float || (value >? maximum)%float then None else Some (math_Max value minimum).
(** The rung is worth its costs and fits in the room. *)
Definition rung_refused (roomPips stop minNet rr : float) : bool := (stop * rr <? minNet)%float || (stop * rr >? roomPips)%float.
Definition ScalpTarget (direction : string) (worst roomPips stop minNet pip : float) (ladder : list float) : option (float * float) :=
  if (pip <=? 0)%float || (stop <=? 0)%float then None
  else
    rr ← List.find (λ rr, negb (rung_refused roomPips stop minNet rr)) ladder;
    let targetPips := (stop * rr)%float in
    Some (if bool_decide (direction = Market.Buy) then worst + targetPips * pip else worst - targetPips * pip, targetPips)%float.
Definition fractal_swing (kind : Structure.PivotKind) (price : float) (time : Z) : Structure.Swing :=
  Structure.mkSwing "" kind Structure.StructureMicro time price "" 0 0 0 0 0.
Definition fractal_swings (m15 : list Candle) (i : nat) : list Structure.Swing :=
  let around := slice m15 (i - 2) (i + 3) in let b := m15 !!! i in
  let hi := foldl (λ m c, math_Max m (c_High c)) (c_High (m15 !!! (i - 2)%nat)) around in
  let lo := foldl (λ m c, math_Min m (c_Low c)) (c_Low (m15 !!! (i - 2)%nat)) around in
  (if (c_High b >=? hi)%float then [fractal_swing Structure.PivotHigh (c_High b) (c_Time b)] else []) ++
  (if (c_Low b <=? lo)%float then [fractal_swing Structure.PivotLow (c_Low b) (c_Time b)] else []).
Definition ScalpDealingPosition (m15 : list Candle) (price : float) (cfg : Fib.Config) : option float :=
  if (length m15 <? 5)%nat then None
  else
    dealing ← Fib.Resolve (concat (map (fractal_swings m15) (seq 2 (length m15 - 4)))) price cfg; Some (Fib.dr_Position dealing).
Record M1Confirmation := mkM1Confirmation { mc_Close : float; mc_Time : Z }.
Definition confirms_m1 (direction : string) (level tol : float) (bar : Candle) : bool :=
  if bool_decide (direction = Market.Buy) then
    (c_Close bar >? c_Open bar)%float && ((c_Low bar <=? level + tol)%float && (c_Close bar >? level)%float)
  else (c_Close bar <? c_Open bar)%float && ((c_High bar >=? level - tol)%float && (c_Close bar <? level)%float).
Definition ConfirmM1Execution (m1 : list Candle) (direction : string) (level tolerance : float) (lookback : Z) : option M1Confirmation :=
  if (length m1 =? 0)%nat then None
  else
    let window := Z.to_nat (Z.max 1 (Z.min lookback (Z.of_nat (length m1)))) in let tol := math_Max 0 tolerance in
    bar ← List.find (confirms_m1 direction level tol) (take window (reverse m1)); Some (mkM1Confirmation (c_Close bar) (c_Time bar)).

(** * Lemmas *)

Lemma ScalpStopPips_spec structural minimum maximum :
  IsNaN structural = false → finite minimum = true → finite maximum = true →
  match ScalpStopPips structural minimum maximum with
  | Some stop => finite stop = true ∧ key stop = Z.max (Z.abs (key structural)) (key minimum) ∧ (0 < key stop <= key maximum)%Z
  | None => key structural = 0%Z ∨ (key maximum < key minimum)%Z ∨ (key maximum < Z.abs (key structural))%Z
  end.
Proof.
  intros Ns Fm FM. pose proof Fm as [Nm Km]%finite_key. pose proof FM as [NM KM]%finite_key. unfold ScalpStopPips. cbv zeta.
  assert (Na : IsNaN (abs structural) = false) by by rewrite IsNaN_abs.
  rewrite leb_num, !ltb_num, key_0, key_abs by done. destruct (Z.leb_spec (Z.abs (key structural)) 0); cbn [orb]; [left; lia|].
  destruct (Z.ltb_spec (key maximum) (key minimum)); cbn [orb]; [by right; left|].
  destruct (Z.ltb_spec (key maximum) (Z.abs (key structural))); [by right; right|].
  assert (Fa : finite (abs structural) = true) by (apply finite_key; rewrite key_abs; split; [done|lia]).
  rewrite (math_Max_finite _ _ Fa Fm), (math_Max_key _ _ Fa Fm), key_abs. split_and!; [done|done|lia|lia].
Qed.
Lemma ScalpTarget_spec direction worst roomPips stop minNet pip ladder :
  match ScalpTarget direction worst roomPips stop minNet pip ladder with
  | Some (price, pips) => ∃ worse rr better, ladder = worse ++ rr :: better ∧ Forall (λ r, rung_refused roomPips stop minNet r = true) worse ∧
      rung_refused roomPips stop minNet rr = false ∧ pips = (stop * rr)%float ∧
      price = (if bool_decide (direction = Market.Buy) then worst + pips * pip else worst - pips * pip)%float
  | None => (pip <=? 0)%float = true ∨ (stop <=? 0)%float = true ∨ Forall (λ r, rung_refused roomPips stop minNet r = true) ladder
  end.
Proof.
  unfold ScalpTarget. destruct (pip <=? 0)%float; [by left|]. destruct (stop <=? 0)%float; [by right; left|]. cbn [orb].
  destruct (List.find _ ladder) as [rr|] eqn:E; cbn [mbind option_bind].
  - apply find_split in E as (worse & better & -> & Hrr & Hw). apply negb_true_iff in Hrr. exists worse, rr, better. split_and!; try done.
    eapply Forall_impl; [exact Hw|]. cbn. intros r. apply negb_false_iff.
  - right; right. apply Forall_forall. intros r Hr. apply negb_false_iff. by apply (proj1 (find_miss _ _) E).
Qed.
Lemma boundary_loop_spec m1 i n :
  Structure.increasing m1 → i < n ≤ length m1 → boundary_loop m1 (c_Time (m1 !!! i)) n = Some i.
Proof.
  intros Hs. induction n as [|n IH]; intros Hn; [lia|]. cbn [boundary_loop]. destruct (decide (n = i)) as [->|Hne].
  - by rewrite Z.ltb_irrefl, Z.eqb_refl.
  - pose proof (Structure.sorted_times_lt m1 i n Hs ltac:(lia)). destruct (Z.ltb_spec (c_Time (m1 !!! n)) (c_Time (m1 !!! i))); [lia|].
    destruct (Z.eqb_spec (c_Time (m1 !!! n)) (c_Time (m1 !!! i))); [lia|]. apply IH. lia.
Qed.

(** The order of a scalp: a stop that covers the structure within the book, and the first rung of the ladder that is worth its costs. *)
Definition scalp_book (direction : string) (worst structural minimum maximum room minNet pip : float) (ladder : list float) (c : Opportunity.Candidate) : Prop :=
  ∃ stop worse rr better, ScalpStopPips structural minimum maximum = Some stop ∧
    pl_Price (Opportunity.ca_Invalidation c) = (if bool_decide (direction = Market.Sell) then worst + stop * pip else worst - stop * pip)%float ∧
    (finite minimum = true → finite maximum = true →
      (key minimum <= key stop <= key maximum)%Z ∧ (0 < key stop)%Z ∧ (Z.abs (key structural) <= key stop)%Z) ∧
    ladder = worse ++ rr :: better ∧ Forall (λ r, rung_refused room stop minNet r = true) worse ∧ rung_refused room stop minNet rr = false ∧
    map pl_Price (Opportunity.ca_Targets c) =
      [if bool_decide (direction = Market.Buy) then worst + stop * rr * pip else worst - stop * rr * pip]%float.
Lemma ScalpStopPips_nan structural minimum maximum stop :
  IsNaN structural = true → finite minimum = true → ScalpStopPips structural minimum maximum = Some stop → IsNaN stop = true.
Proof.
  intros N Fm. unfold ScalpStopPips. cbv zeta. destruct (_ || _); [done|]. intros [= <-]. unfold math_Max. rewrite IsNaN_abs, N.
  assert (E : (abs structural =? infinity)%float = false) by (rewrite eqb_key, IsNaN_abs, N; done). rewrite E.
  apply finite_key in Fm as [Nm Km]. assert (E' : (minimum =? infinity)%float = false) by (rewrite eqb_key; change (key infinity) with key_inf; lia).
  by rewrite E'.
Qed.
Lemma scalp_book_built hash spec c direction worst structural minimum maximum room minNet pip ladder stop target :
  ScalpStopPips structural minimum maximum = Some stop → ScalpTarget direction worst room stop minNet pip ladder = Some target →
  TechniqueCandidate.Candidate hash spec = Ok c →
  TechniqueCandidate.cd_Invalidation spec = (if bool_decide (direction = Market.Sell) then worst + stop * pip else worst - stop * pip)%float →
  TechniqueCandidate.cd_Target spec = target.1 → scalp_book direction worst structural minimum maximum room minNet pip ladder c.
Proof.
  intros Est Et Ec Ei Ep. pose proof (ScalpTarget_spec direction worst room stop minNet pip ladder) as Ht. rewrite Et in Ht. destruct target as [price pips].
  destruct Ht as (worse & rr & better & Hl & Hw & Hr & -> & Hp). cbn in Ep.
  destruct (TechniqueCandidate.candidate_spec _ _ _ Ec) as (C1 & _ & _ & _ & C5 & _). destruct (TechniqueCandidate.candidate_target _ _ _ Ec) as [C8 _].
  assert (Einv : pl_Price (Opportunity.ca_Invalidation c) = TechniqueCandidate.cd_Invalidation spec) by by rewrite C5.
  exists stop, worse, rr, better. split_and!; [done|by rewrite Einv| |done..|rewrite C8; cbn; by rewrite Ep, Hp].
  intros Fm FM. destruct (IsNaN structural) eqn:N.
  - exfalso. pose proof (Opportunity.cs_invalidation _ C1) as F. rewrite Einv, Ei in F. revert F. unfold Opportunity.finite.
    pose proof (mul_nan_l _ pip (ScalpStopPips_nan _ _ _ _ N Fm Est)) as Ns. destruct (bool_decide (direction = Market.Sell)); [rewrite (add_nan_r _ _ Ns)|rewrite (sub_nan_r _ _ Ns)]; done.
  - pose proof (ScalpStopPips_spec structural _ _ N Fm FM) as H. rewrite Est in H. lia.
Qed.

(** * Theorems *)

(** While the latest five-minute candle is younger than the freshness limit, the snapshot is that of the first one-minute candle
    after its close: the evaluation at any later minute, and whatever one-minute candles came since, give the same context. Its
    price lies in no guessed range: the corridor is the extremes of the setup candles and has a positive width. *)
Theorem scalp_context_frozen cfg m5 m1 i now now' :
  Structure.increasing m1 → i < length m1 → c_Time (m1 !!! i) = (c_Time (m5 !!! (length m5 - 1)%nat) + 300)%Z →
  (now - c_Time (m5 !!! (length m5 - 1)%nat) <= ContextMaxAgeSeconds cfg)%Z →
  (now' - c_Time (m5 !!! (length m5 - 1)%nat) <= ContextMaxAgeSeconds cfg)%Z →
  BuildScalpContext cfg m5 m1 now = BuildScalpContext cfg m5 (take (S i) m1) now' ∧
  ∀ x, BuildScalpContext cfg m5 m1 now = Some x → cx_Price x = c_Close (m1 !!! i) ∧ cx_CloseAt x = (c_Time (m1 !!! i) + 60)%Z ∧
    (cx_ActiveHigh x <=? cx_ActiveLow x)%float = false ∧ (cx_Price x <=? 0)%float = false ∧ finite (cx_Price x) = true.
Proof.
  intros Hs Hi Ht Hn Hn'. assert (E1 : snapshot_index cfg m5 m1 now = i).
  { unfold snapshot_index. replace (_ <=? _)%Z with true by lia. rewrite <- Ht, (boundary_loop_spec m1 i) by (done || lia). done. }
  assert (Hlk : take (S i) m1 !!! i = m1 !!! i) by (apply lookup_total_take; lia). assert (Hlen : length (take (S i) m1) = S i) by (rewrite length_take; lia).
  assert (E2 : snapshot_index cfg m5 (take (S i) m1) now' = i).
  { unfold snapshot_index. replace (_ <=? _)%Z with true by lia. rewrite <- Ht, <- Hlk at 1. rewrite (boundary_loop_spec (take (S i) m1) i); [done| |lia].
    unfold Structure.increasing. change map with (@fmap list _) in *. rewrite fmap_take. by apply StronglySorted_take. }
  unfold BuildScalpContext. rewrite E1, E2, Hlk, take_take, Nat.min_id, Hlen. rewrite (proj2 (Nat.eqb_neq (length m1) 0)) by lia. cbn [Nat.eqb]. split; [done|].
  destruct (length m5 =? 0); [done|]. cbn [orb]. cbv zeta. destruct (_ || _) eqn:Ep; [done|]. destruct (active_high _ <=? _)%float eqn:Ea; [done|].
  intros x [= <-]. cbn. rewrite !orb_false_iff in Ep. destruct Ep as [[Ep1 Ep2] Ep3]. split_and!; try done. unfold finite. by rewrite Ep1, Ep2.
Qed.
(** The confirming candle of a level: the newest of the lookback that closes its way and on the right side of the level. *)
Definition confirming (m1 : list Candle) (direction : string) (level tolerance : float) (lookback : Z) (n : nat) : Prop :=
  n < length m1 ∧ (Z.of_nat (length m1) - Z.of_nat n <= Z.max 1 lookback)%Z ∧ confirms_m1 direction level (math_Max 0 tolerance) (m1 !!! n) = true.
(** An entry is confirmed by the newest candle of the lookback that touched the level within the tolerance, closed in the direction
    of the trade and beyond the level; when none of them did there is no confirmation. *)
Theorem confirm_m1_latest m1 direction level tolerance lookback :
  match ConfirmM1Execution m1 direction level tolerance lookback with
  | Some c => ∃ n, confirming m1 direction level tolerance lookback n ∧ (∀ j, confirming m1 direction level tolerance lookback j → j ≤ n) ∧
      c = mkM1Confirmation (c_Close (m1 !!! n)) (c_Time (m1 !!! n)) ∧
      (direction = Market.Buy → (key level < key (mc_Close c))%Z) ∧ (direction ≠ Market.Buy → (key (mc_Close c) < key level)%Z)
  | None => ∀ j, ¬ confirming m1 direction level tolerance lookback j
  end.
Proof.
  unfold ConfirmM1Execution. destruct (Nat.eqb_spec (length m1) 0) as [E0|E0]; [intros j (? & _); lia|].
  cbv zeta. set (w := Z.to_nat (Z.max 1 (Z.min lookback (Z.of_nat (length m1))))). set (f := confirms_m1 direction level (math_Max 0 tolerance)).
  assert (Hlk : ∀ k, k < length m1 → take w (reverse m1) !! k = if decide (k < w) then Some (m1 !!! (length m1 - 1 - k)) else None).
  { intros k Hk. destruct (decide (k < w)) as [Hw|Hw]; [|apply lookup_ge_None; rewrite length_take; lia].
    rewrite lookup_take_lt, reverse_lookup by lia. replace (length m1 - S k) with (length m1 - 1 - k) by lia. apply list_lookup_lookup_total_lt. lia. }
  assert (Hc : ∀ n, confirming m1 direction level tolerance lookback n ↔ n < length m1 ∧ length m1 - 1 - n < w ∧ f (m1 !!! n) = true).
  { intros n. unfold confirming. fold f. unfold w. split; intros (H1 & H2 & H3); split_and!; try done; lia. }
  destruct (List.find f (take w (reverse m1))) as [bar|] eqn:E; cbn [mbind option_bind].
  - apply find_first in E as (k & Hk & Hf & Hm). assert (Hkl : k < length m1).
    { apply lookup_lt_Some in Hk. rewrite length_take, length_reverse in Hk. lia. }
    rewrite Hlk in Hk by done. destruct (decide (k < w)); [|done]. injection Hk as <-. exists (length m1 - 1 - k). rewrite Hc. split_and!; try done; try lia.
    + intros j (H1 & H2 & H3)%Hc. destruct (decide (j ≤ length m1 - 1 - k)); [done|].
      assert (Hj := Hm (length m1 - 1 - j) (m1 !!! j) ltac:(lia)). rewrite Hj in H3; [done|]. rewrite Hlk by lia. rewrite decide_True by lia. do 2 f_equal. lia.
    + intros ->. unfold f, confirms_m1 in Hf. rewrite bool_decide_true in Hf by done. rewrite !andb_true_iff in Hf. by destruct Hf as (_ & _ & (_ & _ & ?)%ltb_nums).
    + intros Hd. unfold f, confirms_m1 in Hf. rewrite bool_decide_false in Hf by done. rewrite !andb_true_iff in Hf. by destruct Hf as (_ & _ & (_ & _ & ?)%ltb_nums).
  - intros j (H1 & H2 & H3)%Hc. pose proof (proj1 (find_miss _ _) E (m1 !!! j)) as Hj. rewrite H3 in Hj. discriminate Hj.
    apply list_elem_of_lookup. exists (length m1 - 1 - j). rewrite Hlk by lia. rewrite decide_True by lia. do 2 f_equal. lia.
Qed.

(** Three setup candles, and the minutes around the close of the last. *)
Definition demo_setup : list Candle := [mkCandle 0 100 102 99 101 1; mkCandle 300 101 103 100 102 1; mkCandle 600 102 104 101 103 1].
Definition demo_minutes : list Candle := map (λ n : nat, mkCandle (60 * Z.of_nat n) 102 103 101 (102.5 + 0.0625 * f64_of_Z (Z.of_nat n)) 1) (seq 0 19).
Definition demo_scalp_config : ScalpContextConfig := mkContextConfig 0.125 600 2 3 15.
Lemma scalp_context_frozen_witness :
  BuildScalpContext demo_scalp_config demo_setup demo_minutes 1080 = BuildScalpContext demo_scalp_config demo_setup (take 16 demo_minutes) 900 ∧
  ∃ x, BuildScalpContext demo_scalp_config demo_setup demo_minutes 1080 = Some x ∧ cx_CloseAt x = 960%Z ∧ cx_BuyRoomPips x = 4.5%float.
Proof.
  assert (Hs : Structure.increasing demo_minutes) by (unfold Structure.increasing; apply (bool_decide_unpack _); vm_compute; exact I).
  destruct (scalp_context_frozen demo_scalp_config demo_setup demo_minutes 15 1080 900 Hs) as [H _];
    [apply (bool_decide_unpack _); vm_compute; exact I|vm_compute; reflexivity|vm_compute; discriminate|vm_compute; discriminate|].
  split; [exact H|]. eexists. split; [vm_compute; reflexivity|]. split; vm_compute; reflexivity.
Defined.
