(* ===== verification/RangeScalp.v ===== *)
(** Package strategy/rangescalp: an edge probe of a sideways range, the replay that spaces and caps the signals of a trading day, and the
    opportunity of the probe. *)
From S2P Require Import Prelude Float64 Market GoTime Detector StrategyView ScalpContext.
From S2P Require Indicator TechniqueCandidate Quality Opportunity.
From Stdlib Require Import Floats.

(** * config.go *)

Record Config := mkConfig {
  Symbols : list string; PipSize : float; StopMinimumPips : float; StopMaximumPips : float; MinimumNetTargetPips : float; RangeLookbackBars : Z;
  MaximumEfficiencyRatio : float; MinimumRangeATR : float; MaximumRangeATR : float; EdgeFraction : float; StopBufferATR : float; EntryWidthPips : float;
  CooldownBars : Z; MaximumSignalsPerDay : Z; ExpiryMinutes : float; ATRLength : Z; ATRWindowBars : Z; TradingDayRolloverHour : Z;
  RewardRiskLadder : list float
}.
(** The first condition that fails refuses the configuration; the messages are left out. *)
Definition validate (c : Config) : bool :=
  forallb negb [
    (PipSize c <=? 0)%float; ((StopMinimumPips c <=? 0) || (StopMaximumPips c <? StopMinimumPips c))%float; (MinimumNetTargetPips c <? 0)%float;
    (RangeLookbackBars c <? 5)%Z; ((MaximumEfficiencyRatio c <=? 0) || (MaximumEfficiencyRatio c >? 1))%float;
    ((MinimumRangeATR c <=? 0) || (MaximumRangeATR c <=? MinimumRangeATR c))%float; ((EdgeFraction c <=? 0) || (EdgeFraction c >=? 0.5))%float;
    (StopBufferATR c <? 0)%float; (EntryWidthPips c <=? 0)%float; ((CooldownBars c <? 1) || (MaximumSignalsPerDay c <? 1))%Z; (ExpiryMinutes c <=? 0)%float;
    ((ATRLength c <? 2) || (ATRWindowBars c <=? ATRLength c))%Z; ((TradingDayRolloverHour c <? 0) || (TradingDayRolloverHour c >? 23))%Z].
(** The ladder of both scalp strategies: a list of positive numbers, not empty. *)
Definition parse_ladder (params : Params) : option (list float) :=
  match params !! "reward_risk_ladder" with
  | Some (PList (item :: items)) => mapM (λ i, v ← item_number i; if (v <=? 0)%float then None else Some v) (item :: items)
  | _ => None
  end.
Definition parseConfig (params : Params) : option Config :=
  '(floats, ints) ← ParseNumbers params
    ["pip_size"; "stop_minimum_pips"; "stop_maximum_pips"; "minimum_net_target_pips"; "maximum_efficiency_ratio"; "minimum_range_atr";
     "maximum_range_atr"; "edge_fraction"; "stop_buffer_atr"; "entry_width_pips"; "expiry_minutes"]
    ["range_lookback_bars"; "cooldown_bars"; "maximum_signals_per_day"; "atr_length"; "atr_window_bars"; "trading_day_rollover_utc_hour"];
  symbols ← ParseSymbols params; ladder ← parse_ladder params;
  let f k := default 0%float (floats !! k) in let n k := default 0%Z (ints !! k) in
  let c := mkConfig symbols (f "pip_size") (f "stop_minimum_pips") (f "stop_maximum_pips") (f "minimum_net_target_pips") (n "range_lookback_bars")
    (f "maximum_efficiency_ratio") (f "minimum_range_atr") (f "maximum_range_atr") (f "edge_fraction") (f "stop_buffer_atr") (f "entry_width_pips")
    (n "cooldown_bars") (n "maximum_signals_per_day") (f "expiry_minutes") (n "atr_length") (n "atr_window_bars") (n "trading_day_rollover_utc_hour") ladder in
  if validate c then Some c else None.

(** * rangescalp.go *)

Definition ID : string := "range_scalp".
Definition Version : string := "v1".
Definition QualityModel : string := "range_scalp.quality.v1".
Record Strategy := mkStrategy { st_cfg : Config; st_fingerprint : string }.
Definition New (id : string) (params : Params) (fingerprint : string) : option Strategy :=
  if negb (bool_decide (id = ID)) then None else cfg ← parseConfig params; Some (mkStrategy cfg fingerprint).
Definition RequiredTimeframes : list string := [tf_M5].
Record signal := mkSignal {
  sg_Direction : string; sg_Index : Z; sg_High : float; sg_Low : float; sg_Width : float; sg_ATR : float; sg_Efficiency : float; sg_ProbeDepthATR : float;
  sg_SignalHigh : float; sg_SignalLow : float; sg_Close : float
}.
Section signals.
Context (cfg : Config) (bars : list Candle).
Definition bar (i : Z) : Candle := bars !!! Z.to_nat i.
(** The cache the window fills never changes a reading. *)
Definition atr_at (i : Z) : option float := fst (Indicator.ww_At (Indicator.NewWilderWindow bars (ATRLength cfg) (ATRWindowBars cfg)) i).
(** The positions of the range before [k], after its first. *)
Definition range_rest (k : Z) : list Z := seqZ (k - RangeLookbackBars cfg + 1) (RangeLookbackBars cfg - 1).
Definition range_high (k : Z) : float := foldl (λ m i, math_Max m (c_High (bar i))) (c_High (bar (k - RangeLookbackBars cfg))) (range_rest k).
Definition range_low (k : Z) : float := foldl (λ m i, math_Min m (c_Low (bar i))) (c_Low (bar (k - RangeLookbackBars cfg))) (range_rest k).
Definition path_length (k : Z) : float := foldl (λ p i, p + abs (c_Close (bar i) - c_Close (bar (i - 1))))%float 0%float (range_rest k).
Definition signalAt (k : Z) : option signal :=
  let lb := RangeLookbackBars cfg in
  if (k <? lb + 1)%Z || (k >=? Z.of_nat (length bars))%Z then None
  else
    a ← atr_at (k - 1);
    let hi := range_high k in let lo := range_low k in let width := (hi - lo)%float in
    if (width <? MinimumRangeATR cfg * a)%float || (width >? MaximumRangeATR cfg * a)%float then None
    else
      let path := path_length k in
      if (path <=? 0)%float then None
      else
        let efficiency := (abs (c_Close (bar (k - 1)) - c_Close (bar (k - lb))) / path)%float in
        if (efficiency >=? MaximumEfficiencyRatio cfg)%float then None
        else
          let b := bar k in let upper := (hi - EdgeFraction cfg * width)%float in let lower := (lo + EdgeFraction cfg * width)%float in
          if negb ((c_Close b >? lower)%float && (c_Close b <? upper)%float) then None
          else
            let sell := (c_High b >=? upper)%float in let buy := (c_Low b <=? lower)%float in
            if Bool.eqb sell buy then None
            else Some (mkSignal (if sell then Market.Sell else Market.Buy) k hi lo width a efficiency
              (if sell then (c_High b - upper) / a else (lower - c_Low b) / a)%float (c_High b) (c_Low b) (c_Close b)).
Definition hit (k : Z) : bool := bool_decide (is_Some (signalAt k)).
Definition day_of (k : Z) : Z := TradingDay (c_Time (bar k)) (TradingDayRolloverHour cfg).
(** The first bar of the trading day of [k]: back from [k] while the bar before is of that day. *)
Fixpoint first_loop (day : Z) (k : nat) : nat :=
  match k with O => O | S p => if (day_of (Z.of_nat p) =? day)%Z then first_loop day p else k end.
Definition first_of_day (k : Z) : Z := Z.of_nat (first_loop (day_of k) (Z.to_nat k)).
Definition replay_start (k : Z) : Z :=
  let start := (first_of_day k - CooldownBars cfg)%Z in
  if (start <? RangeLookbackBars cfg + 1)%Z then (RangeLookbackBars cfg + 1)%Z else start.
(** The last signal that fired, and how many of the day did. *)
Definition replay_step (day : Z) (s : Z * Z) (j : Z) : Z * Z :=
  let '(lastFired, firedToday) := s in
  if negb (hit j) || (j - lastFired <? CooldownBars cfg)%Z then s
  else if (day_of j =? day)%Z then if (firedToday >=? MaximumSignalsPerDay cfg)%Z then s else (j, firedToday + 1)%Z
  else (j, firedToday).
Definition replay (day start k : Z) : Z * Z := foldl (replay_step day) (- 2 ^ 30, 0)%Z (seqZ start (k - start)).
Definition allowed (k : Z) : bool :=
  let '(lastFired, firedToday) := replay (day_of k) (replay_start k) k in
  negb ((k - lastFired <? CooldownBars cfg)%Z || (firedToday >=? MaximumSignalsPerDay cfg)%Z).
(** The signal the strategy acts on at the bar [k]. *)
Definition fired (k : Z) : option signal := sig ← signalAt k; if allowed k then Some sig else None.
End signals.

Definition side_of (direction : string) : string := if bool_decide (direction = Market.Sell) then "sell" else "buy".
(** The entry edge farthest from the stop, and the distance to the stop behind the probe or the range, in pips. *)
Definition structure_of (cfg : Config) (sig : signal) (zoneLow zoneHigh : float) : float * float :=
  if bool_decide (sg_Direction sig = Market.Sell) then
    let stopPrice := (math_Max (sg_SignalHigh sig) (sg_High sig) + StopBufferATR cfg * sg_ATR sig)%float in (zoneLow, ((stopPrice - zoneLow) / PipSize cfg)%float)
  else
    let stopPrice := (math_Min (sg_SignalLow sig) (sg_Low sig) - StopBufferATR cfg * sg_ATR sig)%float in (zoneHigh, ((zoneHigh - stopPrice) / PipSize cfg)%float).
(** A plan has its entry between its stop and its target. *)
Definition misplaced (direction : string) (invalidation zoneLow zoneHigh : float) : bool :=
  (bool_decide (direction = Market.Buy) && negb ((invalidation <? zoneLow)%float && (zoneLow <? zoneHigh)%float)) ||
  (bool_decide (direction = Market.Sell) && negb ((invalidation >? zoneHigh)%float && (zoneHigh >? zoneLow)%float)).
Definition quality_ops (cfg : Config) (sig : signal) (time : Z) : list Quality.op :=
  TechniqueCandidate.score_ops [("sideways", (1 - sg_Efficiency sig / MaximumEfficiencyRatio cfg)%float); ("edge_probe", sg_ProbeDepthATR sig)] ++
  TechniqueCandidate.measure_ops [("range_width_atr", (sg_Width sig / sg_ATR sig)%float); ("efficiency_ratio", sg_Efficiency sig);
    ("range_midpoint", ((sg_High sig + sg_Low sig) / 2)%float); ("range_high", sg_High sig); ("range_low", sg_Low sig); ("utc_hour", f64_of_Z (utc_hour time))].
Section strategy.
(** The hexadecimal SHA-256 digest. *)
Context (hash : string → string).
(** [None] is a panic of the quality model; [Some None] a refusal. *)
Definition candidate (s : Strategy) (ctx : StrategyContext) (bars : list Candle) (sig : signal) : option (option Opportunity.Candidate) :=
  let cfg := st_cfg s in let pip := PipSize cfg in let half := (EntryWidthPips cfg * pip / 2)%float in
  let zoneLow := (sg_Close sig - half)%float in let zoneHigh := (sg_Close sig + half)%float in
  let '(worst, structural) := structure_of cfg sig zoneLow zoneHigh in
  match ScalpStopPips structural (StopMinimumPips cfg) (StopMaximumPips cfg) with
  | None => Some None
  | Some stop =>
      let invalidation := if bool_decide (sg_Direction sig = Market.Sell) then (worst + stop * pip)%float else (worst - stop * pip)%float in
      if misplaced (sg_Direction sig) invalidation zoneLow zoneHigh then Some None
      else
        match ScalpTarget (sg_Direction sig) worst infinity stop (MinimumNetTargetPips cfg) pip (RewardRiskLadder cfg) with
        | None => Some None
        | Some (targetPrice, _) =>
            let t := c_Time (bar bars (sg_Index sig)) in
            model ← Quality.run (Quality.New QualityModel) (quality_ops cfg sig t);
            Some (match TechniqueCandidate.Candidate hash (TechniqueCandidate.mkCandidateSpec ID Version
                ("range_scalp:" +:+ side_of (sg_Direction sig) +:+ ":" +:+ pretty t) (sx_Symbol ctx) (sg_Direction sig) zoneLow zoneHigh invalidation
                "range_edge_lost" targetPrice "scalp_ladder" ["m5_range_sideways"; "m5_range_edge_probe"; "m5_range_close_inside"]
                (Opportunity.mkQuality (Quality.Overall model) (Quality.Components model)) t t (ExpiryMinutes cfg / 60)%float (st_fingerprint s)) with
              | Ok c => Some c
              | Err _ => None
              end)
        end
  end.
Definition Evaluate (s : Strategy) (ctx : StrategyContext) : option (list Opportunity.Candidate) :=
  if negb (SymbolAllowed (Symbols (st_cfg s)) (sx_Symbol ctx)) then Some []
  else
    match sx_Frames ctx !! tf_M5 with
    | Some m5 =>
        let bars := sf_Candles m5 in
        if (length bars =? 0)%nat then Some []
        else
          match fired (st_cfg s) bars (Z.of_nat (length bars) - 1) with
          | Some sig => c ← candidate s ctx bars sig; Some (option_list c)
          | None => Some []
          end
    | None => Some []
    end.
End strategy.

(** * Lemmas: the replay *)

Section replays.
Context (cfg : Config) (bars : list Candle).
#[local] Abbreviation hit := (hit cfg bars).
#[local] Abbreviation day_of := (day_of cfg bars).
#[local] Abbreviation replay := (replay cfg bars).
Lemma first_loop_down day a b : a ≤ b → (∀ p, a ≤ p < b → day_of (Z.of_nat p) = day) → first_loop cfg bars day b = first_loop cfg bars day a.
Proof.
  intros Hab Hd. induction Hab as [|b Hab IH]; [done|]. cbn [first_loop]. rewrite (Hd b) by lia. rewrite Z.eqb_refl. apply IH. intros p Hp. apply Hd. lia.
Qed.
Lemma first_loop_le day k : first_loop cfg bars day k ≤ k.
Proof. induction k as [|k IH]; cbn [first_loop]; [done|]. destruct (_ =? _)%Z; lia. Qed.
Lemma range_replay_next day start k : (start <= k)%Z → replay day start (k + 1) = replay_step cfg bars day (replay day start k) k.
Proof.
  intros H. unfold RangeScalp.replay. replace (k + 1 - start)%Z with (k - start + 1)%Z by lia. rewrite seqZ_app, foldl_app by lia. cbn [seqZ].
  replace (start + (k - start))%Z with k by lia. done.
Qed.
(** Neither the last signal nor the count goes back. *)
Lemma replay_mono day start k k' : (start <= k <= k')%Z → (- 2 ^ 30 < start)%Z →
  ((replay day start k).1 < k)%Z ∧ ((replay day start k).1 <= (replay day start k').1)%Z ∧ ((replay day start k).2 <= (replay day start k').2)%Z.
Proof.
  intros [H1 H2] Hs.
  assert (Hlt : ∀ n : nat, ((replay day start (start + Z.of_nat n)).1 < start + Z.of_nat n)%Z ∧ (0 <= (replay day start (start + Z.of_nat n)).2)%Z).
  { intros n. induction n as [|n [IH IH']].
    - replace (start + Z.of_nat 0)%Z with start by lia. unfold RangeScalp.replay. rewrite Z.sub_diag. assert (E : seqZ start 0 = []) by done. rewrite E. cbn [foldl fst snd]. lia.
    - replace (start + Z.of_nat (S n))%Z with (start + Z.of_nat n + 1)%Z by lia. rewrite range_replay_next by lia.
      destruct (replay day start _) as [l f]. cbn in IH, IH'. unfold replay_step. destruct (_ || _); [cbn; lia|]. destruct (_ =? _)%Z; [|cbn; lia].
      destruct (_ >=? _)%Z; cbn; lia. }
  pose proof (proj1 (Hlt (Z.to_nat (k - start)))) as Hk. replace (start + Z.of_nat (Z.to_nat (k - start)))%Z with k in Hk by lia. split; [done|].
  replace k' with (k + Z.of_nat (Z.to_nat (k' - k)))%Z by lia. generalize (Z.to_nat (k' - k)) as n. clear H2. intros n.
  induction n as [|n IH]; [rewrite Z.add_0_r; lia|]. replace (k + Z.of_nat (S n))%Z with (k + Z.of_nat n + 1)%Z by lia. rewrite range_replay_next by lia.
  pose proof (proj1 (Hlt (Z.to_nat (k + Z.of_nat n - start)))) as Hb. replace (start + Z.of_nat (Z.to_nat (k + Z.of_nat n - start)))%Z with (k + Z.of_nat n)%Z in Hb by lia.
  destruct (replay day start (k + Z.of_nat n)) as [l f]. cbn in IH, Hb. unfold replay_step. destruct (_ || _); [cbn; lia|]. destruct (_ =? _)%Z; [|cbn; lia].
  destruct (_ >=? _)%Z; cbn; lia.
Qed.
Lemma fired_spec k sig : fired cfg bars k = Some sig →
  signalAt cfg bars k = Some sig ∧ (RangeLookbackBars cfg + 1 <= k < Z.of_nat (length bars))%Z ∧
  let r := replay (day_of k) (replay_start cfg bars k) k in (CooldownBars cfg <= k - r.1)%Z ∧ (r.2 < MaximumSignalsPerDay cfg)%Z.
Proof.
  unfold fired. destruct (signalAt cfg bars k) as [s|] eqn:E; [|done]. cbn [mbind option_bind]. unfold allowed.
  destruct (RangeScalp.replay _ _ _ _ _) as [l f]. destruct (_ || _) eqn:Eb; [done|]. intros [= ->]. split; [done|]. split.
  - unfold signalAt in E. cbv zeta in E. destruct (_ || _) eqn:Er in E; [done|]. lia.
  - cbn. lia.
Qed.
(** A signal that fired is the last one of the replay of any later bar of its day, and counted in it. *)
Lemma fired_counts k k' sig : (1 <= CooldownBars cfg)%Z → (1 <= RangeLookbackBars cfg)%Z → fired cfg bars k = Some sig → (k < k')%Z →
  (∀ p, (k <= p <= k')%Z → day_of p = day_of k) →
  let day := day_of k in let start := replay_start cfg bars k in
  replay_start cfg bars k' = start ∧ (k <= (replay day start k').1)%Z ∧ ((replay day start k).2 + 1 <= (replay day start k').2)%Z.
Proof.
  intros Hc Hlb Hf Hkk' Hp day start. apply fired_spec in Hf as (Hs & Hk & Hr). cbv zeta in Hr.
  assert (Est : replay_start cfg bars k' = start).
  { unfold start, replay_start, first_of_day. rewrite (Hp k') by lia. rewrite (first_loop_down _ (Z.to_nat k) (Z.to_nat k')); [done|lia|].
    intros p Hpp. apply Hp. lia. }
  split; [done|]. assert (Hsk : (start <= k)%Z ∧ (- 2 ^ 30 < start)%Z).
  { unfold start, replay_start, first_of_day. pose proof (first_loop_le (day_of k) (Z.to_nat k)). destruct (Z.ltb_spec (Z.of_nat (first_loop cfg bars (day_of k) (Z.to_nat k)) - CooldownBars cfg) (RangeLookbackBars cfg + 1)); lia. }
  fold day start in Hr. destruct Hsk as [Hsk Hst].
  assert (E : replay day start (k + 1) = (k, (replay day start k).2 + 1)%Z).
  { rewrite range_replay_next by done. destruct (replay day start k) as [l f]. cbn [fst snd] in Hr |- *. unfold replay_step, RangeScalp.hit. rewrite Hs, bool_decide_true by eauto. cbn [negb orb].
    replace (k - l <? CooldownBars cfg)%Z with false by lia. rewrite Z.eqb_refl. by replace (f >=? MaximumSignalsPerDay cfg)%Z with false by lia. }
  destruct (replay_mono day start (k + 1) k') as (_ & H1 & H2); [lia|done|]. rewrite E in H1, H2. done.
Qed.
End replays.

(** * Lemmas: what a signal reads *)

Definition at_index (i : Z) (s : signal) : signal :=
  mkSignal (sg_Direction s) i (sg_High s) (sg_Low s) (sg_Width s) (sg_ATR s) (sg_Efficiency s) (sg_ProbeDepthATR s) (sg_SignalHigh s) (sg_SignalLow s)
    (sg_Close s).
Lemma foldl_shift {A} (f g : A → Z → A) d a n s :
  (∀ m i, (a <= i < a + n)%Z → f m (d + i)%Z = g m i) → foldl f s (seqZ (d + a) n) = foldl g s (seqZ a n).
Proof.
  intros H. rewrite <- fmap_add_seqZ, foldl_fmap. generalize s. assert (Hin : ∀ i, i ∈ seqZ a n → (a <= i < a + n)%Z) by (intros i; apply elem_of_seqZ).
  induction (seqZ a n) as [|i l IH]; intros m; cbn [foldl]; [done|]. rewrite H by (apply Hin; by left). apply IH. intros j Hj. apply Hin. by right.
Qed.
Lemma signalAt_agree cfg l1 l2 d k :
  (1 <= RangeLookbackBars cfg)%Z → (RangeLookbackBars cfg + 1 <= k)%Z → (0 <= d)%Z →
  (∀ i, (k - RangeLookbackBars cfg <= i <= k)%Z → bar l1 (d + i) = bar l2 i) → atr_at cfg l1 (d + (k - 1)) = atr_at cfg l2 (k - 1) →
  (d + k < Z.of_nat (length l1))%Z → (k < Z.of_nat (length l2))%Z →
  signalAt cfg l1 (d + k) = at_index (d + k) <$> signalAt cfg l2 k.
Proof.
  intros Hlb Hk Hd Hb Ha H1 H2. unfold signalAt. cbv zeta. rewrite !(proj2 (Z.ltb_ge _ (RangeLookbackBars cfg + 1))) by lia.
  replace (d + k >=? Z.of_nat (length l1))%Z with false by lia. replace (k >=? Z.of_nat (length l2))%Z with false by lia. cbn [orb].
  replace (d + k - 1)%Z with (d + (k - 1))%Z by lia. rewrite Ha. destruct (atr_at cfg l2 (k - 1)) as [a|]; cbn [mbind option_bind fmap option_fmap]; [|done].
  replace (d + k - RangeLookbackBars cfg)%Z with (d + (k - RangeLookbackBars cfg))%Z by lia.
  assert (Eh : range_high cfg l1 (d + k) = range_high cfg l2 k ∧ range_low cfg l1 (d + k) = range_low cfg l2 k ∧ path_length cfg l1 (d + k) = path_length cfg l2 k).
  { unfold range_high, range_low, path_length, range_rest.
    replace (d + k - RangeLookbackBars cfg)%Z with (d + (k - RangeLookbackBars cfg))%Z by lia. rewrite (Hb (k - RangeLookbackBars cfg)%Z) by lia.
    replace (d + (k - RangeLookbackBars cfg) + 1)%Z with (d + (k - RangeLookbackBars cfg + 1))%Z by lia.
    split_and!; apply foldl_shift; intros m i Hi; [by rewrite Hb by lia..|]. replace (d + i - 1)%Z with (d + (i - 1))%Z by lia. by rewrite !Hb by lia. }
  destruct Eh as (-> & -> & ->). rewrite !Hb by lia. destruct (_ || _); [done|]. destruct (path_length cfg l2 k <=? 0)%float; [done|]. destruct (_ >=? _)%float; [done|].
  destruct (negb (_ && _)); [done|]. destruct (Bool.eqb _ _); [done|]. done.
Qed.
Lemma bar_app bars later i : (i < Z.of_nat (length bars))%Z → 0 < length bars → bar (bars ++ later) i = bar bars i.
Proof. intros Hi Hl. unfold bar. apply lookup_total_app_l. lia. Qed.
Lemma bar_shift pre bars i : (0 <= i)%Z → bar (pre ++ bars) (Z.of_nat (length pre) + i) = bar bars i.
Proof. intros Hi. unfold bar. rewrite lookup_total_app_r by lia. f_equal. lia. Qed.
Lemma signal_index cfg bars k s : signalAt cfg bars k = Some s → at_index k s = s.
Proof.
  unfold signalAt. cbv zeta. destruct (_ || _); [done|]. destruct (atr_at _ _ _) as [a|]; [|done]. cbn [mbind option_bind]. destruct (_ || _); [done|].
  destruct (_ <=? _)%float; [done|]. destruct (_ >=? _)%float; [done|]. destruct (negb _); [done|]. destruct (Bool.eqb _ _); [done|]. by intros [= <-].
Qed.
Lemma signalAt_app cfg bars later k : (1 <= RangeLookbackBars cfg)%Z → (k < Z.of_nat (length bars))%Z →
  signalAt cfg (bars ++ later) k = signalAt cfg bars k.
Proof.
  intros Hlb Hk. destruct (Z.ltb_spec k (RangeLookbackBars cfg + 1)) as [Hs|Hs].
  { unfold signalAt. cbv zeta. by rewrite (proj2 (Z.ltb_lt k (RangeLookbackBars cfg + 1))) by lia. }
  pose proof (signalAt_agree cfg (bars ++ later) bars 0 k) as H. rewrite !Z.add_0_l in H. rewrite H; try done; try lia.
  - destruct (signalAt cfg bars k) as [s|] eqn:E; [|done]. cbn. f_equal. by eapply signal_index.
  - intros i Hi. rewrite Z.add_0_l. apply bar_app; lia.
  - unfold atr_at. rewrite !Indicator.wilder_at_new. apply Indicator.wilder_at_app. lia.
  - rewrite length_app. lia.
Qed.
Lemma first_loop_ext cfg l1 l2 day n : (∀ p, p < n → day_of cfg l1 (Z.of_nat p) = day_of cfg l2 (Z.of_nat p)) → first_loop cfg l1 day n = first_loop cfg l2 day n.
Proof. induction n as [|n IH]; intros H; cbn [first_loop]; [done|]. rewrite H by lia. rewrite IH; [done|]. intros p Hp. apply H. lia. Qed.
Lemma fired_app cfg bars later k : (1 <= RangeLookbackBars cfg)%Z → (0 <= k < Z.of_nat (length bars))%Z → fired cfg (bars ++ later) k = fired cfg bars k.
Proof.
  intros Hlb Hk. unfold fired. rewrite signalAt_app by lia. destruct (signalAt cfg bars k) as [s|]; [|done]. cbn [mbind option_bind].
  assert (Hd : ∀ p, (p <= k)%Z → day_of cfg (bars ++ later) p = day_of cfg bars p) by (intros p Hp; unfold day_of; rewrite bar_app by lia; done).
  assert (Ea : allowed cfg (bars ++ later) k = allowed cfg bars k).
  { unfold allowed. rewrite Hd by lia. assert (Es : replay_start cfg (bars ++ later) k = replay_start cfg bars k).
    { unfold replay_start, first_of_day. rewrite Hd by lia. rewrite (first_loop_ext _ _ bars); [done|]. intros p Hp. apply Hd. lia. }
    rewrite Es. assert (Er : ∀ st, foldl (replay_step cfg (bars ++ later) (day_of cfg bars k)) st (seqZ (replay_start cfg bars k) (k - replay_start cfg bars k)) =
      foldl (replay_step cfg bars (day_of cfg bars k)) st (seqZ (replay_start cfg bars k) (k - replay_start cfg bars k))).
    { intros st. apply (foldl_shift _ _ 0). intros [l f] j Hj. rewrite Z.add_0_l. unfold replay_step, hit. rewrite signalAt_app, Hd by lia. done. }
    unfold replay. by rewrite Er. }
  by rewrite Ea.
Qed.
Lemma validate_bounds cfg : validate cfg = true → (5 <= RangeLookbackBars cfg)%Z ∧ (1 <= CooldownBars cfg)%Z ∧ (1 <= MaximumSignalsPerDay cfg)%Z ∧
  (2 <= ATRLength cfg < ATRWindowBars cfg)%Z.
Proof. unfold validate. cbn [forallb]. rewrite !andb_true_iff, !negb_true_iff. lia. Qed.
Lemma day_between cfg bars k k' p : Structure.increasing bars → (0 <= k)%Z → (k <= p <= k')%Z → (k' < Z.of_nat (length bars))%Z →
  day_of cfg bars k = day_of cfg bars k' → day_of cfg bars p = day_of cfg bars k.
Proof.
  intros Hs H0 Hp Hl Hd. assert (Hle : ∀ i j, (0 <= i <= j)%Z → (j < Z.of_nat (length bars))%Z → (day_of cfg bars i <= day_of cfg bars j)%Z).
  { intros i j Hi Hj. unfold day_of, TradingDay, bar. apply Z.quot_le_mono; [lia|]. destruct (decide (i = j)) as [->|]; [done|].
    pose proof (Structure.sorted_times_lt bars (Z.to_nat i) (Z.to_nat j) Hs ltac:(lia)). lia. }
  pose proof (Hle k p). pose proof (Hle p k'). lia.
Qed.

(** * Theorems *)

(** [C17] The signals of a trading day keep their distance and their number: evaluated at each close, the strategy acts on what the replay
    of the whole day would, whatever candles come after, two signals of one trading day are at least the cooldown apart, and no
    trading day has more than the cap. *)
Theorem range_scalp_throttle cfg bars :
  validate cfg = true → Structure.increasing bars →
  (∀ later k, (0 <= k < Z.of_nat (length bars))%Z → fired cfg (bars ++ later) k = fired cfg bars k) ∧
  (∀ k k', (0 <= k < k')%Z → (k' < Z.of_nat (length bars))%Z → day_of cfg bars k = day_of cfg bars k' →
    is_Some (fired cfg bars k) → is_Some (fired cfg bars k') → (CooldownBars cfg <= k' - k)%Z) ∧
  (∀ day ks, StronglySorted Z.lt ks →
    Forall (λ k, (0 <= k < Z.of_nat (length bars))%Z ∧ day_of cfg bars k = day ∧ is_Some (fired cfg bars k)) ks →
    (Z.of_nat (length ks) <= MaximumSignalsPerDay cfg)%Z).
Proof.
  intros Hv Hs. destruct (validate_bounds cfg Hv) as (Hlb & Hc & Hm & _).
  assert (Hcount : ∀ k k', (0 <= k < k')%Z → (k' < Z.of_nat (length bars))%Z → day_of cfg bars k = day_of cfg bars k' → is_Some (fired cfg bars k) →
    replay_start cfg bars k' = replay_start cfg bars k ∧ (k <= (replay cfg bars (day_of cfg bars k) (replay_start cfg bars k) k').1)%Z ∧
    ((replay cfg bars (day_of cfg bars k) (replay_start cfg bars k) k).2 + 1 <= (replay cfg bars (day_of cfg bars k) (replay_start cfg bars k) k').2)%Z).
  { intros k k' Hk Hk' Hd [sig Hf]. apply (fired_counts cfg bars k k' sig); try done; try lia. intros p Hp. by apply (day_between cfg bars k k'); try lia. }
  split; [intros later k Hk; apply fired_app; lia|]. split.
  - intros k k' Hk Hk' Hd Hf [sig' Hf']. destruct (Hcount k k' Hk Hk' Hd Hf) as (Est & H1 & _). apply fired_spec in Hf' as (_ & _ & Hr). cbv zeta in Hr.
    rewrite Est, <- Hd in Hr. lia.
  - intros day ks Hsort Hall. destruct ks as [|k ks]; [cbn; lia|]. apply Forall_cons in Hall as [(Hk & Hkd & Hkf) Hall].
    apply StronglySorted_inv in Hsort as [Hsort Hlt].
    assert (H : (Z.of_nat (length ks) + (replay cfg bars day (replay_start cfg bars k) k).2 < MaximumSignalsPerDay cfg)%Z).
    { revert k Hk Hkd Hkf Hlt. induction ks as [|k' ks IH]; intros k Hk Hkd [sig Hkf] Hlt; cbn [length].
      - destruct (fired_spec _ _ _ _ Hkf) as (_ & _ & Hr). cbv zeta in Hr. rewrite Hkd in Hr. lia.
      - apply Forall_cons in Hall as [(Hk' & Hkd' & Hkf') Hall]. apply Forall_cons in Hlt as [Hlt _]. apply StronglySorted_inv in Hsort as [Hsort Hlt'].
        specialize (IH Hsort Hall k' Hk' Hkd' Hkf' Hlt'). destruct (Hcount k k' ltac:(lia) ltac:(lia) ltac:(congruence) ltac:(by eauto)) as (Est & _ & H2).
        rewrite Est in IH. rewrite Hkd in H2. lia. }
    assert (0 <= (replay cfg bars day (replay_start cfg bars k) k).2)%Z; [|cbn [length]; lia].
    clear. unfold replay. assert (Hz : (0 <= (- 2 ^ 30, 0)%Z.2)%Z) by done. revert Hz. generalize (- 2 ^ 30, 0)%Z as st.
    induction (seqZ _ _) as [|j l IH]; intros [lf f] Hf; cbn [foldl]; [done|]. apply IH. unfold replay_step. cbn in Hf. destruct (_ || _); [done|].
    destruct (_ =? _)%Z; [|done]. destruct (_ >=? _)%Z; cbn; lia.
Qed.

(** What the opportunity of a signal is: its stop behind the probe within the book, its target the first rung that pays. *)
Record published_as (s : Strategy) (ctx : StrategyContext) (bars : list Candle) (sig : signal) (c : Opportunity.Candidate) : Prop := {
  pa_sound : Opportunity.candidate_sound c;
  pa_signal : Opportunity.ca_Direction c = sg_Direction sig ∧ Opportunity.ca_Symbol c = sx_Symbol ctx ∧
    Opportunity.ca_FormedAt c = c_Time (bar bars (sg_Index sig)) ∧ Opportunity.ca_CreatedAt c = c_Time (bar bars (sg_Index sig));
  pa_book : let cfg := st_cfg s in let zone := Opportunity.ca_Entry c in
    let '(worst, structural) := structure_of cfg sig (Opportunity.en_Low zone) (Opportunity.en_High zone) in
    scalp_book (sg_Direction sig) worst structural (StopMinimumPips cfg) (StopMaximumPips cfg) infinity (MinimumNetTargetPips cfg) (PipSize cfg) (RewardRiskLadder cfg) c;
  pa_quality : Quality.unit_score (Opportunity.q_Overall (Opportunity.ca_Quality c))
}.
Lemma range_candidate_total hash s ctx bars sig : ∃ r, candidate hash s ctx bars sig = Some r ∧ ∀ c, r = Some c → published_as s ctx bars sig c.
Proof.
  unfold candidate. cbv zeta. set (zl := (sg_Close sig - _)%float). set (zh := (sg_Close sig + _)%float).
  destruct (structure_of (st_cfg s) sig zl zh) as [worst structural] eqn:Es.
  destruct (ScalpStopPips _ _ _) as [stop|] eqn:Est; [|by exists None]. destruct (misplaced _ _ _ _); [by exists None|].
  destruct (ScalpTarget _ _ _ _ _ _ _) as [[price pips]|] eqn:Et; [|by exists None].
  destruct (Quality.run_named QualityModel (quality_ops (st_cfg s) sig (c_Time (bar bars (sg_Index sig))))) as (m & -> & Hm); [done..|].
  cbn [mbind option_bind]. eexists. split; [done|]. intros c. destruct (TechniqueCandidate.Candidate _ _) as [c0|] eqn:Ec; [|done]. intros [= <-].
  pose proof (scalp_book_built _ _ _ _ _ _ _ _ _ _ _ _ _ _ Est Et Ec eq_refl eq_refl) as Hb.
  destruct (TechniqueCandidate.candidate_spec _ _ _ Ec) as (C1 & C2 & C3 & C4 & C5 & C6 & C7 & _). destruct (TechniqueCandidate.candidate_target _ _ _ Ec) as [_ C9].
  split; [done|by rewrite C2, C3, C6, C7| |by rewrite C9].
  cbv zeta. rewrite C4. cbn [Opportunity.en_Low Opportunity.en_High TechniqueCandidate.cd_EntryLow TechniqueCandidate.cd_EntryHigh]. by rewrite Es.
Qed.
(** The strategy never panics, whatever the candles, and publishes at most one opportunity: the one of the signal that fired on the
    latest candle. It satisfies the candidate contract; its stop stands behind the probe or the range, widened to the minimum of the
    book and never beyond its maximum, and its target is the first rung of the ladder worth its costs. *)
Theorem range_scalp_sound hash s ctx :
  ∃ cs, Evaluate hash s ctx = Some cs ∧ length cs ≤ 1 ∧
  ∀ c, c ∈ cs → ∃ m5 sig, sx_Frames ctx !! tf_M5 = Some m5 ∧ SymbolAllowed (Symbols (st_cfg s)) (sx_Symbol ctx) = true ∧
    fired (st_cfg s) (sf_Candles m5) (Z.of_nat (length (sf_Candles m5)) - 1) = Some sig ∧ published_as s ctx (sf_Candles m5) sig c.
Proof.
  assert (Hnil : ∃ cs : list Opportunity.Candidate, Some [] = Some cs ∧ length cs ≤ 1 ∧ ∀ c, c ∈ cs → False).
  { exists []. split_and!; [done|cbn; lia|]. by intros c ?%not_elem_of_nil. }
  unfold Evaluate. destruct (SymbolAllowed _ _); cbn [negb]; [|naive_solver]. destruct (sx_Frames ctx !! tf_M5) as [m5|]; [|naive_solver].
  cbv zeta. destruct (_ =? 0); [naive_solver|]. destruct (fired _ _ _) as [sig|] eqn:E; [|naive_solver].
  destruct (range_candidate_total hash s ctx (sf_Candles m5) sig) as (r & -> & Hr). cbn [mbind option_bind]. eexists. split; [done|]. split; [destruct r; cbn; lia|].
  intros c Hc. exists m5, sig. split_and!; try done. destruct r as [c'|]; [|by apply not_elem_of_nil in Hc]. apply list_elem_of_singleton in Hc as ->. by apply Hr.
Qed.
(** * Lemmas: older candles *)

Section older.
Context (cfg : Config) (pre bars : list Candle).
Hypothesis Hv : validate cfg = true.
Local Abbreviation d := (Z.of_nat (length pre)).
Lemma signalAt_older j : (Z.max (RangeLookbackBars cfg + 1) (ATRWindowBars cfg) <= j < Z.of_nat (length bars))%Z →
  signalAt cfg (pre ++ bars) (d + j) = at_index (d + j) <$> signalAt cfg bars j.
Proof.
  intros Hj. destruct (validate_bounds cfg Hv) as (Hlb & _). apply signalAt_agree; try lia.
  - intros i Hi. apply bar_shift. lia.
  - unfold atr_at. rewrite !Indicator.wilder_at_new. apply Indicator.wilder_at_shift; lia.
  - rewrite length_app. lia.
Qed.
Lemma day_older p : (0 <= p)%Z → day_of cfg (pre ++ bars) (d + p) = day_of cfg bars p.
Proof. intros Hp. unfold day_of. by rewrite bar_shift. Qed.
Lemma first_older day n : 0 < first_loop cfg bars day n → first_loop cfg (pre ++ bars) day (length pre + n) = length pre + first_loop cfg bars day n.
Proof.
  induction n as [|n IH]; cbn [first_loop]; [lia|]. rewrite Nat.add_succ_r. cbn [first_loop].
  replace (Z.of_nat (length pre + n)) with (d + Z.of_nat n)%Z by lia. rewrite day_older by lia. destruct (_ =? _)%Z; [done|lia].
Qed.
Definition shifted (r r' : Z * Z) : Prop := r'.2 = r.2 ∧ (r'.1 = d + r.1 ∨ r'.1 = - 2 ^ 30 ∧ r.1 = - 2 ^ 30)%Z.
Lemma replay_older day start n r r' : (CooldownBars cfg <= 2 ^ 30)%Z → (Z.max (RangeLookbackBars cfg + 1) (ATRWindowBars cfg) <= start)%Z →
  (start + n <= Z.of_nat (length bars))%Z → shifted r r' →
  shifted (foldl (replay_step cfg bars day) r (seqZ start n)) (foldl (replay_step cfg (pre ++ bars) day) r' (seqZ (d + start) n)).
Proof.
  intros Hc Hs Hn. rewrite <- fmap_add_seqZ, foldl_fmap. destruct (validate_bounds cfg Hv) as (Hlb & _).
  assert (Hin : ∀ j, j ∈ seqZ start n → (start <= j < Z.of_nat (length bars))%Z) by (intros j Hj%elem_of_seqZ; lia).
  revert r r'. induction (seqZ start n) as [|j l IH]; intros r r' Hr; cbn [foldl]; [done|]. apply IH; [intros i Hi; apply Hin; by right|].
  specialize (Hin j ltac:(by left)). destruct r as [lf f], r' as [lf' f'], Hr as [Ef Hl]. cbn in Ef, Hl. subst f'. unfold replay_step, hit.
  rewrite signalAt_older, day_older by lia.
  replace (bool_decide (is_Some (at_index (d + j) <$> signalAt cfg bars j))) with (bool_decide (is_Some (signalAt cfg bars j)))
    by (apply bool_decide_ext; by rewrite fmap_is_Some).
  assert (Eg : (d + j - lf' <? CooldownBars cfg)%Z = (j - lf <? CooldownBars cfg)%Z) by lia. rewrite Eg. unfold shifted. destruct (_ || _); [done|].
  destruct (_ =? _)%Z; [destruct (_ >=? _)%Z; [done|]|]; cbn; (split; [done|by left]).
Qed.
Lemma fired_older k : (CooldownBars cfg <= 2 ^ 30)%Z → (0 <= k < Z.of_nat (length bars))%Z →
  (Z.max (RangeLookbackBars cfg + 1) (ATRWindowBars cfg) <= first_of_day cfg bars k - CooldownBars cfg)%Z →
  fired cfg (pre ++ bars) (d + k) = at_index (d + k) <$> fired cfg bars k.
Proof.
  intros Hc Hk Hf. destruct (validate_bounds cfg Hv) as (Hlb & Hc1 & _). pose proof (first_loop_le cfg bars (day_of cfg bars k) (Z.to_nat k)) as Hle.
  unfold first_of_day in Hf. unfold fired. rewrite signalAt_older by lia. destruct (signalAt cfg bars k) as [sig|]; cbn [mbind option_bind fmap option_fmap]; [|done].
  assert (Es : replay_start cfg bars k = (first_of_day cfg bars k - CooldownBars cfg)%Z ∧
    replay_start cfg (pre ++ bars) (d + k) = (d + (first_of_day cfg bars k - CooldownBars cfg))%Z).
  { unfold replay_start, first_of_day. rewrite day_older by lia. replace (Z.to_nat (d + k)) with (length pre + Z.to_nat k) by lia. rewrite first_older by lia.
    split; [|rewrite Nat2Z.inj_add]; (destruct (Z.ltb_spec (Z.of_nat (first_loop cfg bars (day_of cfg bars k) (Z.to_nat k)) - CooldownBars cfg) (RangeLookbackBars cfg + 1))
      || idtac); try lia; match goal with |- (if ?b then _ else _) = _ => destruct b eqn:?; lia end. }
  destruct Es as [Es Es']. unfold allowed, replay. rewrite Es, Es', day_older by lia. unfold first_of_day in *.
  set (start := (Z.of_nat _ - CooldownBars cfg)%Z) in *. replace (d + k - (d + start))%Z with (k - start)%Z by lia.
  destruct (replay_older (day_of cfg bars k) start (k - start) (- 2 ^ 30, 0)%Z (- 2 ^ 30, 0)%Z) as [H1 H2]; [done|lia|lia|split; [done|by right]|].
  destruct (foldl (replay_step cfg bars _) _ _) as [lf f]. destruct (foldl (replay_step cfg (pre ++ bars) _) _ _) as [lf' f']. cbn in H1, H2. subst f'.
  assert (Eg : (d + k - lf' <? CooldownBars cfg)%Z = (k - lf <? CooldownBars cfg)%Z) by lia. rewrite Eg. by destruct (negb _).
Qed.
End older.
(** [C18] The answer does not depend on how much history the engine holds: once the candles hold the trading day, one cooldown before it,
    and the range and volatility windows behind that, older candles change nothing. *)
Theorem range_scalp_history hash s ctx pre bars frame :
  validate (st_cfg s) = true → bars ≠ [] → (CooldownBars (st_cfg s) <= 2 ^ 30)%Z →
  let k := (Z.of_nat (length bars) - 1)%Z in let cfg := st_cfg s in
  (Z.max (RangeLookbackBars cfg + 1) (ATRWindowBars cfg) <= first_of_day cfg bars k - CooldownBars cfg)%Z →
  let with_bars l := mkContext (sx_Symbol ctx) (<[tf_M5 := with_candles frame l]> (sx_Frames ctx)) (sx_BiasDirection ctx)
    (sx_Legacy ctx) (sx_Session ctx) in
  Evaluate hash s (with_bars (pre ++ bars)) = Evaluate hash s (with_bars bars).
Proof.
  intros Hv Hne Hc k cfg Hf with_bars. subst cfg k. assert (Hl : 0 < length bars) by (by destruct bars; cbn; [|lia]).
  unfold Evaluate. cbn [with_bars sx_Symbol sx_Frames]. destruct (SymbolAllowed _ _); cbn [negb]; [|done]. rewrite !lookup_insert_eq. cbn [with_candles sf_Candles]. cbv zeta.
  rewrite length_app. rewrite !(proj2 (Nat.eqb_neq _ 0)) by lia.
  replace (Z.of_nat (length pre + length bars) - 1)%Z with (Z.of_nat (length pre) + (Z.of_nat (length bars) - 1))%Z by lia.
  rewrite fired_older by (done || lia). destruct (fired (st_cfg s) bars _) as [sig|] eqn:E; cbn [fmap option_fmap]; [|done].
  apply fired_spec in E as (E & _). apply signal_index in E. rewrite <- E. unfold candidate, structure_of, quality_ops. cbn [at_index sg_Index sg_Close sg_Direction
    sg_SignalHigh sg_High sg_SignalLow sg_Low sg_ATR sg_Efficiency sg_ProbeDepthATR sg_Width option_map]. by rewrite bar_shift by lia.
Qed.

(** A range probed on every candle, at its top and at its bottom in turn; the trading day turns at the fourteenth. *)
Definition demo_config : Config :=
  mkConfig [] 0.125 4 40 2 5 0.5 0.5 20 0.25 0.25 1 3 8 15 2 3 0 [2; 1]%float.
Definition demo_probe (n : nat) : Candle :=
  let t := (86400 + 300 * (Z.of_nat n - 13))%Z in
  if Nat.even n then mkCandle t 100.5 101 100.375 100.5625 1 else mkCandle t 100.5 100.625 100 100.4375 1.
Definition demo_probes (n : nat) : list Candle := map demo_probe (seq 0 n).
Definition demo_strategy : Strategy := mkStrategy demo_config "f".
Definition demo_range_context (bars : list Candle) : StrategyContext :=
  mkContext "XAUUSD" {[ tf_M5 := demo_frame bars ]} "" None demo_state.
Lemma demo_probes_increasing : Structure.increasing (demo_probes 20).
Proof. unfold Structure.increasing. apply (bool_decide_unpack _). vm_compute. exact I. Qed.
(** Across the turn of the day the distance is not kept: the replay of the new day starts one cooldown before it and loses the phase of the
    day before, so the thirteenth and the fourteenth candle both fire, three candles of cooldown notwithstanding. *)
Example range_scalp_turn_of_day :
  CooldownBars demo_config = 3%Z ∧ map (λ k, bool_decide (is_Some (fired demo_config (demo_probes 20) k))) [12; 13]%Z = [true; true] ∧
  map (λ n, length <$> Evaluate (λ s, "id:" +:+ s) demo_strategy (demo_range_context (demo_probes n))) [13; 14; 15] = [Some 1; Some 1; Some 0].
Proof. split_and!; vm_compute; reflexivity. Qed.
Lemma range_scalp_throttle_witness :
  validate demo_config = true ∧ List.filter (λ k, bool_decide (is_Some (fired demo_config (demo_probes 20) k))) (seqZ 0 20) = [6; 9; 12; 13; 16; 19]%Z ∧
  (Z.of_nat (length [13; 16; 19]%Z) <= MaximumSignalsPerDay demo_config)%Z.
Proof.
  split; [vm_compute; reflexivity|]. split; [vm_compute; reflexivity|].
  destruct (range_scalp_throttle demo_config (demo_probes 20)) as (_ & _ & H); [vm_compute; reflexivity|exact demo_probes_increasing|].
  apply (H 1%Z).
  - repeat constructor.
  - repeat (apply Forall_cons; split; [split; [split; [discriminate|reflexivity]|split; [vm_compute; reflexivity|apply (bool_decide_unpack _); vm_compute; exact I]]|]).
    apply Forall_nil. exact I.
Defined.
Lemma range_scalp_history_witness :
  let older := [mkCandle 0 90 95 85 92 1] in
  Evaluate (λ s, "id:" +:+ s) demo_strategy (demo_range_context (older ++ demo_probes 14)) =
    Evaluate (λ s, "id:" +:+ s) demo_strategy (demo_range_context (demo_probes 14)) ∧
  length <$> Evaluate (λ s, "id:" +:+ s) demo_strategy (demo_range_context (demo_probes 14)) = Some 1.
Proof.
  split; [|vm_compute; reflexivity].
  refine (range_scalp_history (λ s, "id:" +:+ s) demo_strategy (mkContext "XAUUSD" ∅ "" None demo_state) [mkCandle 0 90 95 85 92 1] (demo_probes 14)
    (demo_frame []) _ _ _ _).
  - vm_compute. reflexivity.
  - discriminate.
  - discriminate.
  - vm_compute. discriminate.
Defined.
