(* ===== verification/ImpulseRetrace.v ===== *)
(** Package strategy/impulseretrace: a displacement candle, the replay that lets the first of each cluster stand, and the opportunity of its
    first retrace. *)
From S2P Require Import Prelude Float64 Market GoTime Detector StrategyView ScalpContext.
From S2P Require Indicator TechniqueCandidate Quality Opportunity ScalpRange RangeScalp Session.
From Stdlib Require Import Floats.

(** * config.go *)

Record Config := mkConfig {
  Symbols : list string; PipSize : float; StopMinimumPips : float; StopMaximumPips : float; MinimumNetTargetPips : float; ImpulseBodyATR : float;
  RetraceFraction : float; StopBufferATR : float; EntryWidthPips : float; EntryWindowMinutes : float; CooldownBars : Z; ATRLength : Z; ATRWindowBars : Z;
  RewardRiskLadder : list float
}.
(** The first condition that fails refuses the configuration; the messages are left out. *)
Definition validate (c : Config) : bool :=
  forallb negb [
    (PipSize c <=? 0)%float; ((StopMinimumPips c <=? 0) || (StopMaximumPips c <? StopMinimumPips c))%float; (MinimumNetTargetPips c <? 0)%float;
    (ImpulseBodyATR c <=? 0)%float; ((RetraceFraction c <=? 0) || (RetraceFraction c >=? 1))%float; (StopBufferATR c <? 0)%float;
    (EntryWidthPips c <=? 0)%float; (EntryWindowMinutes c <=? 0)%float; (CooldownBars c <? 1)%Z; ((ATRLength c <? 2) || (ATRWindowBars c <=? ATRLength c))%Z].
Definition parseConfig (params : Params) : option Config :=
  '(floats, ints) ← ParseNumbers params
    ["pip_size"; "stop_minimum_pips"; "stop_maximum_pips"; "minimum_net_target_pips"; "impulse_body_atr"; "retrace_fraction"; "stop_buffer_atr";
     "entry_width_pips"; "entry_window_minutes"] ["cooldown_bars"; "atr_length"; "atr_window_bars"];
  symbols ← ParseSymbols params; ladder ← RangeScalp.parse_ladder params;
  let f k := default 0%float (floats !! k) in let n k := default 0%Z (ints !! k) in
  let c := mkConfig symbols (f "pip_size") (f "stop_minimum_pips") (f "stop_maximum_pips") (f "minimum_net_target_pips") (f "impulse_body_atr")
    (f "retrace_fraction") (f "stop_buffer_atr") (f "entry_width_pips") (f "entry_window_minutes") (n "cooldown_bars") (n "atr_length")
    (n "atr_window_bars") ladder in
  if validate c then Some c else None.

(** * impulseretrace.go *)

Definition ID : string := "impulse_retrace".
Definition Version : string := "v1".
Definition QualityModel : string := "impulse_retrace.quality.v1".
Definition m5Minutes : float := 5.
Definition cooldownReplayBars : Z := 288.
Record Strategy := mkStrategy { st_cfg : Config; st_fingerprint : string }.
Definition New (id : string) (params : Params) (fingerprint : string) : option Strategy :=
  if negb (bool_decide (id = ID)) then None else cfg ← parseConfig params; Some (mkStrategy cfg fingerprint).
Definition RequiredTimeframes : list string := [tf_M5].
Section impulses.
Context (cfg : Config) (bars : list Candle).
Definition bar (i : Z) : Candle := bars !!! Z.to_nat i.
(** The cache the window fills never changes a reading. *)
Definition atr_at (i : Z) : option float := fst (Indicator.ww_At (Indicator.NewWilderWindow bars (ATRLength cfg) (ATRWindowBars cfg)) i).
Definition impulseAt (k : Z) : option (string * float) :=
  if (k <? 1)%Z || (k >=? Z.of_nat (length bars))%Z then None
  else
    a ← atr_at (k - 1);
    let body := (c_Close (bar k) - c_Open (bar k))%float in
    if (abs body <? ImpulseBodyATR cfg * a)%float then None else Some (if (body >? 0)%float then Market.Buy else Market.Sell, a).
Definition hit (k : Z) : bool := bool_decide (is_Some (impulseAt k)).
Definition replay_start (k : Z) : Z := if (k - cooldownReplayBars <? 1)%Z then 1%Z else (k - cooldownReplayBars)%Z.
Definition replay_step (lastFired j : Z) : Z := if hit j && (j - lastFired >=? CooldownBars cfg)%Z then j else lastFired.
Definition replay (start k : Z) : Z := foldl replay_step (- 2 ^ 30)%Z (seqZ start (k - start)).
(** The impulse the strategy acts on at the bar [k]. *)
Definition fired (k : Z) : option (string * float) :=
  i ← impulseAt k; if (k - replay (replay_start k) k <? CooldownBars cfg)%Z then None else Some i.
End impulses.

(** The entry band at the retrace, the edge of it farthest from the stop, and the distance to the stop behind the impulse, in pips. *)
Definition plan_of (cfg : Config) (direction : string) (b : Candle) (atr : float) : float * float * float * float :=
  let width := (EntryWidthPips cfg * PipSize cfg)%float in let span := (c_High b - c_Low b)%float in
  if bool_decide (direction = Market.Buy) then
    let limit := (c_High b - RetraceFraction cfg * span)%float in let zoneHigh := (limit + width)%float in
    (limit, zoneHigh, zoneHigh, ((zoneHigh - (c_Low b - StopBufferATR cfg * atr)) / PipSize cfg)%float)
  else
    let limit := (c_Low b + RetraceFraction cfg * span)%float in let zoneLow := (limit - width)%float in
    (zoneLow, limit, zoneLow, ((c_High b + StopBufferATR cfg * atr - zoneLow) / PipSize cfg)%float).
Definition body_atr (b : Candle) (atr : float) : float := (abs (c_Close b - c_Open b) / atr)%float.
Definition quality_ops (cfg : Config) (b : Candle) (atr : float) : list Quality.op :=
  TechniqueCandidate.score_ops [("impulse_strength", ((body_atr b atr - ImpulseBodyATR cfg) / 2)%float)] ++
  TechniqueCandidate.measure_ops [("impulse_body_atr", body_atr b atr); ("retrace_fraction", RetraceFraction cfg);
    ("utc_hour", f64_of_Z (utc_hour (c_Time b)))].
Definition evidence_of (activeSession : string) : list string :=
  let label := ScalpRange.ToLower activeSession in
  ["m5_impulse_bar"; "m5_retrace_limit"] ++ (if bool_decide (label = "") then [] else ["session_" +:+ label]).
Section strategy.
(** The hexadecimal SHA-256 digest. *)
Context (hash : string → string).
(** [None] is a panic of the quality model; [Some None] a refusal. *)
Definition candidate (s : Strategy) (ctx : StrategyContext) (activeSession : string) (b : Candle) (direction : string) (atr : float) :
    option (option Opportunity.Candidate) :=
  let cfg := st_cfg s in let pip := PipSize cfg in
  if (c_High b - c_Low b <=? 0)%float then Some None
  else
    let '(zoneLow, zoneHigh, worst, structural) := plan_of cfg direction b atr in
    match ScalpStopPips structural (StopMinimumPips cfg) (StopMaximumPips cfg) with
    | None => Some None
    | Some stop =>
        let invalidation := if bool_decide (direction = Market.Sell) then (worst + stop * pip)%float else (worst - stop * pip)%float in
        if RangeScalp.misplaced direction invalidation zoneLow zoneHigh then Some None
        else
          match ScalpTarget direction worst infinity stop (MinimumNetTargetPips cfg) pip (RewardRiskLadder cfg) with
          | None => Some None
          | Some (targetPrice, _) =>
              model ← Quality.run (Quality.New QualityModel) (quality_ops cfg b atr);
              Some (match TechniqueCandidate.Candidate hash (TechniqueCandidate.mkCandidateSpec ID Version
                  ("impulse_retrace:" +:+ RangeScalp.side_of direction +:+ ":" +:+ pretty (c_Time b)) (sx_Symbol ctx) direction zoneLow zoneHigh invalidation
                  "impulse_origin_lost" targetPrice "scalp_ladder" (evidence_of activeSession)
                  (Opportunity.mkQuality (Quality.Overall model) (Quality.Components model)) (c_Time b) (c_Time b)
                  ((EntryWindowMinutes cfg + m5Minutes) / 60)%float (st_fingerprint s)) with
                | Ok c => Some c
                | Err _ => None
                end)
          end
    end.
Definition Evaluate (s : Strategy) (ctx : StrategyContext) : option (list Opportunity.Candidate) :=
  if negb (SymbolAllowed (Symbols (st_cfg s)) (sx_Symbol ctx)) then Some []
  else
    match sx_Frames ctx !! tf_M5 with
    | Some m5 =>
        let bars := sf_Candles m5 in let k := (Z.of_nat (length bars) - 1)%Z in
        if (length bars =? 0)%nat then Some []
        else
          match fired (st_cfg s) bars k with
          | Some (direction, a) => c ← candidate s ctx (Session.ss_Active (sf_Session m5)) (bar bars k) direction a; Some (option_list c)
          | None => Some []
          end
    | None => Some []
    end.
End strategy.

(** * Lemmas: the replay *)

Section replays.
Context (cfg : Config) (bars : list Candle).
Lemma impulse_replay_next start k : (start <= k)%Z → replay cfg bars start (k + 1) = replay_step cfg bars (replay cfg bars start k) k.
Proof.
  intros H. unfold replay. replace (k + 1 - start)%Z with (k - start + 1)%Z by lia. rewrite seqZ_app, foldl_app by lia. cbn [seqZ].
  replace (start + (k - start))%Z with k by lia. done.
Qed.
Lemma replay_empty start : replay cfg bars start start = (- 2 ^ 30)%Z.
Proof. unfold replay. by rewrite Z.sub_diag. Qed.
(** Induction over the bars of a replay. *)
Lemma replay_ind (P : Z → Z → Prop) start k : (start <= k)%Z → (∀ l, replay cfg bars start start = l → P start l) →
  (∀ j l, (start <= j < k)%Z → P j l → P (j + 1)%Z (replay_step cfg bars l j)) → P k (replay cfg bars start k).
Proof.
  intros Hk H0 Hs. assert (H : ∀ n : nat, (start + Z.of_nat n <= k)%Z → P (start + Z.of_nat n)%Z (replay cfg bars start (start + Z.of_nat n))).
  { induction n as [|n IH]; intros Hn; [rewrite Z.add_0_r; by apply H0|]. replace (start + Z.of_nat (S n))%Z with (start + Z.of_nat n + 1)%Z by lia.
    rewrite impulse_replay_next by lia. apply Hs; [lia|]. apply IH. lia. }
  replace k with (start + Z.of_nat (Z.to_nat (k - start)))%Z by lia. apply H. lia.
Qed.
Lemma replay_before start k : (start <= k)%Z → (- 2 ^ 30 < start)%Z → (replay cfg bars start k < k)%Z.
Proof.
  intros Hk Hs. apply (replay_ind (λ j l, l < j)%Z); [done|intros l <-; rewrite replay_empty; lia|]. intros j l Hj Hl. unfold replay_step. destruct (_ && _); lia.
Qed.
Lemma replay_grows start k k' : (start <= k <= k')%Z → (- 2 ^ 30 < start)%Z → (replay cfg bars start k <= replay cfg bars start k')%Z.
Proof.
  intros Hk Hs. pose proof (replay_before start) as Hb.
  assert (H : ∀ n : nat, (replay cfg bars start k <= replay cfg bars start (k + Z.of_nat n))%Z).
  { induction n as [|n IH]; [rewrite Z.add_0_r; lia|]. replace (k + Z.of_nat (S n))%Z with (k + Z.of_nat n + 1)%Z by lia. rewrite impulse_replay_next by lia.
    specialize (Hb (k + Z.of_nat n)%Z). unfold replay_step. destruct (_ && _); lia. }
  replace k' with (k + Z.of_nat (Z.to_nat (k' - k)))%Z by lia. apply H.
Qed.
(** A stretch without an impulse, as long as the cooldown less one, wipes the past out: from its end on any replay that covers it agrees with
    one that starts there. *)
Lemma replay_quiet start a k : (0 < start <= a)%Z → (1 <= CooldownBars cfg)%Z → let b := (a + CooldownBars cfg - 1)%Z in
  (∀ j, (a <= j < b)%Z → hit cfg bars j = false) → (b <= k)%Z →
  let l := replay cfg bars start k in let l' := replay cfg bars b k in l = l' ∨ (l <= b - CooldownBars cfg ∧ l' <= b - CooldownBars cfg)%Z.
Proof.
  intros Hs Hc b Hq Hk l l'.
  assert (Hb : (replay cfg bars start b <= b - CooldownBars cfg)%Z).
  { assert (H : (replay cfg bars start b <= a - 1)%Z); [|lia]. pose proof (replay_before start a ltac:(lia) ltac:(lia)) as Ha.
    assert (Hn : ∀ n : nat, (a + Z.of_nat n <= b)%Z → (replay cfg bars start (a + Z.of_nat n) <= a - 1)%Z).
    { induction n as [|n IH]; intros Hn; [rewrite Z.add_0_r; lia|]. replace (a + Z.of_nat (S n))%Z with (a + Z.of_nat n + 1)%Z by lia.
      rewrite impulse_replay_next by lia. unfold replay_step. rewrite Hq by lia. cbn. apply IH. lia. }
    replace b with (a + Z.of_nat (Z.to_nat (b - a)))%Z at 1 by lia. apply Hn. lia. }
  unfold l, l'. apply (replay_ind (λ j m, replay cfg bars start j = m ∨ replay cfg bars start j <= b - CooldownBars cfg ∧ m <= b - CooldownBars cfg)%Z); [done| |].
  - intros m <-. right. rewrite replay_empty. lia.
  - intros j m Hj Hm. rewrite impulse_replay_next by lia. unfold replay_step. destruct (hit cfg bars j); cbn [andb]; [|done].
    destruct Hm as [->|[H1 H2]]; [by left|]. replace (j - replay cfg bars start j >=? CooldownBars cfg)%Z with true by lia.
    replace (j - m >=? CooldownBars cfg)%Z with true by lia. by left.
Qed.
Lemma fired_iff k i : fired cfg bars k = Some i ↔ impulseAt cfg bars k = Some i ∧ (CooldownBars cfg <= k - replay cfg bars (replay_start k) k)%Z.
Proof.
  unfold fired. destruct (impulseAt cfg bars k) as [x|]; cbn [mbind option_bind]; [|by split; [|intros [? _]]].
  destruct (Z.ltb_spec (k - replay cfg bars (replay_start k) k) (CooldownBars cfg)); split; try done; [intros [_ ?]; lia|by intros [? _]].
Qed.
Lemma hit_impulse k i : impulseAt cfg bars k = Some i → hit cfg bars k = true.
Proof. intros H. unfold hit. rewrite H. by apply bool_decide_eq_true. Qed.
Lemma impulse_range k i : impulseAt cfg bars k = Some i → (1 <= k < Z.of_nat (length bars))%Z.
Proof. unfold impulseAt. destruct (_ || _) eqn:E; [done|]. lia. Qed.
End replays.

(** * Theorems *)

(** [C21] The first impulse of each cluster stands: after a stretch of candles without an impulse, one cooldown long, the first impulse fires
    and those that fire later are at least the cooldown apart, for as long as the stretch is within the day of candles that each
    evaluation replays. *)
Theorem impulse_clusters cfg bars a :
  (1 <= CooldownBars cfg)%Z → (1 <= a)%Z → let b := (a + CooldownBars cfg - 1)%Z in
  (∀ j, (a <= j < b)%Z → impulseAt cfg bars j = None) →
  (∀ k i, (b <= k <= a + cooldownReplayBars)%Z → impulseAt cfg bars k = Some i → (∀ j, (b <= j < k)%Z → impulseAt cfg bars j = None) →
    fired cfg bars k = Some i) ∧
  (∀ k k' i i', (b <= k < k')%Z → (k' <= a + cooldownReplayBars)%Z → fired cfg bars k = Some i → fired cfg bars k' = Some i' → (CooldownBars cfg <= k' - k)%Z).
Proof.
  intros Hc Ha b Hq. assert (Hh : ∀ j, impulseAt cfg bars j = None → hit cfg bars j = false) by (intros j E; unfold hit; by rewrite E).
  assert (Hst : ∀ k, (b <= k <= a + cooldownReplayBars)%Z → (0 < replay_start k <= a)%Z).
  { intros k Hk. unfold replay_start. destruct (Z.ltb_spec (k - cooldownReplayBars) 1); lia. }
  assert (Hquiet : ∀ k, (b <= k <= a + cooldownReplayBars)%Z → let l := replay cfg bars (replay_start k) k in let l' := replay cfg bars b k in
    l = l' ∨ (l <= b - CooldownBars cfg ∧ l' <= b - CooldownBars cfg)%Z).
  { intros k Hk. apply (replay_quiet cfg bars _ a); [by apply Hst|done|intros j Hj; by apply Hh, Hq|lia]. }
  split.
  - intros k i Hk Hi Hno. apply fired_iff. split; [done|].
    assert (E : replay cfg bars b k = (- 2 ^ 30)%Z).
    { apply (replay_ind cfg bars (λ _ l, l = - 2 ^ 30)%Z); [lia|intros l <-; apply replay_empty|]. intros j l Hj ->. unfold replay_step. by rewrite Hh by (apply Hno; lia). }
    specialize (Hquiet k Hk). cbv zeta in Hquiet. lia.
  - intros k k' i i' Hk Hk' [Hi Hf]%fired_iff [Hi' Hf']%fired_iff.
    pose proof (Hquiet k ltac:(lia)) as Q. pose proof (Hquiet k' ltac:(lia)) as Q'. cbv zeta in Q, Q'.
    assert (E : replay cfg bars b (k + 1) = k).
    { rewrite impulse_replay_next by lia. unfold replay_step. rewrite (hit_impulse _ _ _ _ Hi). replace (k - replay cfg bars b k >=? CooldownBars cfg)%Z with true by lia. done. }
    pose proof (replay_grows cfg bars b (k + 1) k' ltac:(lia) ltac:(lia)) as Hg. rewrite E in Hg. lia.
Qed.

(** What the opportunity of an impulse is: its entry at the retrace of the candle, its stop behind the candle's origin within the book. *)
Record published_as (s : Strategy) (ctx : StrategyContext) (b : Candle) (direction : string) (atr : float) (c : Opportunity.Candidate) : Prop := {
  pa_sound : Opportunity.candidate_sound c;
  pa_impulse : Opportunity.ca_Direction c = direction ∧ Opportunity.ca_Symbol c = sx_Symbol ctx ∧ Opportunity.ca_FormedAt c = c_Time b ∧
    Opportunity.ca_CreatedAt c = c_Time b;
  pa_book : let cfg := st_cfg s in let '(zoneLow, zoneHigh, worst, structural) := plan_of cfg direction b atr in
    Opportunity.ca_Entry c = Opportunity.mkEntryZone zoneLow zoneHigh ∧
    scalp_book direction worst structural (StopMinimumPips cfg) (StopMaximumPips cfg) infinity (MinimumNetTargetPips cfg) (PipSize cfg) (RewardRiskLadder cfg) c;
  pa_quality : Quality.unit_score (Opportunity.q_Overall (Opportunity.ca_Quality c))
}.
Lemma impulse_candidate_total hash s ctx active b direction atr :
  ∃ r, candidate hash s ctx active b direction atr = Some r ∧ ∀ c, r = Some c → published_as s ctx b direction atr c.
Proof.
  unfold candidate. cbv zeta. destruct (_ <=? 0)%float; [by exists None|].
  destruct (plan_of (st_cfg s) direction b atr) as [[[zl zh] worst] structural] eqn:Ep.
  destruct (ScalpStopPips _ _ _) as [stop|] eqn:Est; [|by exists None]. destruct (RangeScalp.misplaced _ _ _ _); [by exists None|].
  destruct (ScalpTarget _ _ _ _ _ _ _) as [[price pips]|] eqn:Et; [|by exists None].
  destruct (Quality.run_named QualityModel (quality_ops (st_cfg s) b atr)) as (m & -> & Hm); [done..|].
  cbn [mbind option_bind]. eexists. split; [done|]. intros c. destruct (TechniqueCandidate.Candidate _ _) as [c0|] eqn:Ec; [|done]. intros [= <-].
  pose proof (scalp_book_built _ _ _ _ _ _ _ _ _ _ _ _ _ _ Est Et Ec eq_refl eq_refl) as Hb.
  destruct (TechniqueCandidate.candidate_spec _ _ _ Ec) as (C1 & C2 & C3 & C4 & C5 & C6 & C7 & _). destruct (TechniqueCandidate.candidate_target _ _ _ Ec) as [_ C9].
  split; [done|by rewrite C2, C3, C6, C7|cbv zeta; by rewrite Ep, C4|by rewrite C9].
Qed.
(** The strategy never panics, whatever the candles, and publishes at most one opportunity: the one of the impulse that fired on the
    latest candle, with its entry at the retrace asked for, its stop behind the candle within the book and its target the first rung
    of the ladder worth its costs. *)
Theorem impulse_retrace_sound hash s ctx :
  ∃ cs, Evaluate hash s ctx = Some cs ∧ length cs ≤ 1 ∧
  ∀ c, c ∈ cs → ∃ m5 direction atr, let bars := sf_Candles m5 in let k := (Z.of_nat (length bars) - 1)%Z in
    sx_Frames ctx !! tf_M5 = Some m5 ∧ SymbolAllowed (Symbols (st_cfg s)) (sx_Symbol ctx) = true ∧
    fired (st_cfg s) bars k = Some (direction, atr) ∧ published_as s ctx (bar bars k) direction atr c.
Proof.
  assert (Hnil : ∃ cs : list Opportunity.Candidate, Some [] = Some cs ∧ length cs ≤ 1 ∧ ∀ c, c ∈ cs → False).
  { exists []. split_and!; [done|cbn; lia|]. by intros c ?%not_elem_of_nil. }
  unfold Evaluate. destruct (SymbolAllowed _ _); cbn [negb]; [|naive_solver]. destruct (sx_Frames ctx !! tf_M5) as [m5|]; [|naive_solver].
  cbv zeta. destruct (_ =? 0); [naive_solver|]. destruct (fired _ _ _) as [[direction atr]|] eqn:E; [|naive_solver].
  destruct (impulse_candidate_total hash s ctx (Session.ss_Active (sf_Session m5)) (bar (sf_Candles m5) (Z.of_nat (length (sf_Candles m5)) - 1)) direction atr)
    as (r & -> & Hr). cbn [mbind option_bind]. eexists. split; [done|]. split; [destruct r; cbn; lia|].
  intros c Hc. exists m5, direction, atr. split_and!; try done. destruct r as [c'|]; [|by apply not_elem_of_nil in Hc].
  apply list_elem_of_singleton in Hc as ->. by apply Hr.
Qed.

(** An impulse up on every sixth candle, and a larger one right after the second. *)
Definition demo_config : Config := mkConfig [] 0.125 4 40 2 1.5 0.5 0.25 1 60 3 2 3 [2; 1]%float.
Definition demo_move (n : nat) : Candle :=
  let t := (300 * Z.of_nat n)%Z in
  if (n =? 13)%nat then mkCandle t 100 116.25 99.75 116 1
  else if ((n mod 6 =? 0) && (6 <=? n))%nat then mkCandle t 100 104.25 99.75 104 1 else mkCandle t 100 100.25 99.75 100.125 1.
Definition demo_moves (n : nat) : list Candle := map demo_move (seq 0 n).
Example demo_impulse_retrace :
  (map (λ c, (Opportunity.ca_Direction c, Opportunity.ca_Evidence c)) <$>
    Evaluate (λ s, "id:" +:+ s) (mkStrategy demo_config "f") (mkContext "XAUUSD" {[ tf_M5 := demo_frame (demo_moves 7) ]} "" None demo_state)) =
    Some [("BUY", ["m5_impulse_bar"; "m5_retrace_limit"; "session_ny"])].
Proof. vm_compute. reflexivity. Qed.
(** The hours are turned back into seconds and truncated, so a window of an hour after the close of the candle ends one second early. *)
Example impulse_window_truncated :
  (map (λ c, Opportunity.ca_ExpiresAt c - Opportunity.ca_CreatedAt c)%Z <$>
    Evaluate (λ s, "id:" +:+ s) (mkStrategy demo_config "f") (mkContext "XAUUSD" {[ tf_M5 := demo_frame (demo_moves 7) ]} "" None demo_state)) =
    Some [3899%Z] ∧ EntryWindowMinutes demo_config = 60%float.
Proof. split; vm_compute; reflexivity. Qed.
Lemma impulse_clusters_witness :
  List.filter (hit demo_config (demo_moves 20)) (seqZ 0 20) = [6; 12; 13; 18]%Z ∧
  List.filter (λ k, bool_decide (is_Some (fired demo_config (demo_moves 20) k))) (seqZ 0 20) = [6; 12; 18]%Z ∧
  (∃ i, fired demo_config (demo_moves 20) 12 = Some i) ∧ (CooldownBars demo_config <= 18 - 12)%Z.
Proof.
  split; [vm_compute; reflexivity|]. split; [vm_compute; reflexivity|].
  assert (Hc : (1 <= CooldownBars demo_config)%Z) by discriminate. assert (Ha : (1 <= 7)%Z) by lia.
  assert (Hq : ∀ j, (7 <= j < 7 + CooldownBars demo_config - 1)%Z → impulseAt demo_config (demo_moves 20) j = None).
  { intros j Hj. change (7 + CooldownBars demo_config - 1)%Z with 9%Z in Hj. assert (j = 7 ∨ j = 8)%Z as [-> | ->] by lia; vm_compute; reflexivity. }
  destruct (impulse_clusters demo_config (demo_moves 20) 7 Hc Ha Hq) as [H1 H2].
  assert (E12 : ∃ i, impulseAt demo_config (demo_moves 20) 12 = Some i) by (eexists; vm_compute; reflexivity).
  assert (E18 : ∃ i, fired demo_config (demo_moves 20) 18 = Some i) by (eexists; vm_compute; reflexivity).
  destruct E12 as [i E12], E18 as [i' E18].
  assert (F12 : fired demo_config (demo_moves 20) 12 = Some i).
  { apply H1; [change (7 + CooldownBars demo_config - 1)%Z with 9%Z; unfold cooldownReplayBars; lia|exact E12|].
    change (7 + CooldownBars demo_config - 1)%Z with 9%Z. intros j Hj. assert (j = 9 ∨ j = 10 ∨ j = 11)%Z as [-> | [-> | ->]] by lia; vm_compute; reflexivity. }
  split; [by exists i|]. refine (H2 12%Z 18%Z i i' _ _ F12 E18); [change (7 + CooldownBars demo_config - 1)%Z with 9%Z; lia|unfold cooldownReplayBars; lia].
Defined.
