(* ===== verification/FlipZone.v ===== *)
(** Package strategy/flipzone: a confirmed reaction off a zone born of a role flip, while the level's own role still agrees with the trade. *)
From S2P Require Import Prelude Float64 Market TechniqueBars TechniqueZones TechniqueInstances.
From S2P Require Import TechniqueScore LegacyRead Detector TechniqueDecision StopBudget TechniqueCandidate StrategyView.
From S2P Require KeyLevel Reaction Confluence Quality Opportunity SweepEvidence TechniqueCompat Momentum.
From Stdlib Require Import Floats.

(** * quality.go *)

Definition QualityModel : string := "flip_zone.quality.v1".
(** The body of the breaking candle in ATR and the bars from it to the retest; NaN where there is no measurement. *)
Definition break_body (zone : Zone) (bars : list Candle) (atr : float) : float :=
  if (z_BreakIndex zone >=? 0)%Z && (z_BreakIndex zone <? Z.of_nat (length bars))%Z && (atr >? 0)%float then
    let b := bars !!! Z.to_nat (z_BreakIndex zone) in (abs (c_Close b - c_Open b) / atr)%float
  else nan.
Definition since_break (zone : Zone) (touchIndex : Z) : float :=
  if (z_BreakIndex zone >=? 0)%Z && (touchIndex >=? z_BreakIndex zone)%Z then f64_of_Z (touchIndex - z_BreakIndex zone) else nan.
(** [None] is a panic of the model. *)
Definition scoreQuality (zone : Zone) (level : Level) (dec : TechniqueDecision) (g : QualityGeometry) : option Opportunity.StrategyQuality :=
  let bars := lf_Bars (d_Frame (td_Detector dec)) in
  let touchIndex := match td_Confirmation dec with Some c => Z.of_nat (lc_TouchIndex c) | None => (Z.of_nat (length bars) - 1)%Z end in
  let touches := f64_of_Z (l_Touches level) in let body := break_body zone bars (g_ATR g) in let since := since_break zone touchIndex in
  let m := measures (scores (Some (Quality.New QualityModel)) [("level_significance", Quality.Peak touches 1 3 5 9)]) [("level_touches", touches)] in
  let m := measures (scores m [("break_strength", Quality.Ramp body 0.5 1.5)]) [("break_body_atr", body)] in
  let m := measures (scores m [("retest_timing", Quality.Peak since 0 1 6 30)]) [("bars_break_to_retest", since)] in
  m ← SharedReactionDimensions m dec g; Some (Opportunity.mkQuality (Quality.Overall m) (Quality.Components m)).

(** * flipzone.go *)

Definition ID : string := "flip_zone".
Definition Version : string := "v5".
Definition structureVersion : string := "v2".
Definition liquidityVersion : string := "v1".
Definition zoneVersionUsed : string := "v1".
Definition configVersion : Z := 3.
Record Config := mkConfig {
  InvalidationBufferATR : float; MinimumTargetDistanceATR : float; ExpiryHours : float; BreakoutAcceptBars : Z; Legacy : LegacyDetectorSettings;
  cfg_StopBudget : StopBudget_
}.
Record Strategy := mkStrategy { st_cfg : Config; st_fingerprint : string }.
Definition New (id : string) (params : Params) (fingerprint : string) : option Strategy :=
  if negb (bool_decide (id = ID)) then None
  else
    buffer ← Float params "invalidation_buffer_atr"; minimum ← Float params "minimum_target_distance_atr"; expiry ← Float params "expiry_hours";
    accept ← Int params "breakout_accept_bars"; legacy ← ParseLegacyDetectorSettings params; budget ← ParseStopBudget params;
    if (buffer <=? 0)%float || (expiry <=? 0)%float || (accept <? 1)%Z then None
    else Some (mkStrategy (mkConfig buffer minimum expiry accept legacy budget) fingerprint).
Definition RequiredTimeframes : list string := [tf_M5].
Definition hasSource (zone : Zone) (source : string) : bool :=
  match z_Sources zone with [] => bool_decide (z_Source zone = source) | l => existsb (λ s, bool_decide (s = source)) l end.
(** The nearest level whose price is within its band of the zone's anchor edge, with its gap. *)
Definition anchor_of (zone : Zone) : float := if bool_decide (z_Side zone = "demand") then z_Bottom zone else z_Top zone.
Definition level_gap (zone : Zone) (l : Level) : float := abs (l_Price l - anchor_of zone).
Definition near_anchor (zone : Zone) (l : Level) : bool := negb (level_gap zone l >? math_Max (l_Band l) 0 + 1e-9)%float.
Definition flip_step (zone : Zone) (best : option Level) (l : Level) : option Level :=
  if negb (near_anchor zone l) then best
  else match best with
       | None => Some l
       | Some b => if (level_gap zone l <? level_gap zone b)%float then Some l else best
       end.
Definition flipLevel (levels : list Level) (zone : Zone) : option Level := foldl (flip_step zone) None levels.
Definition role_band (d : LegacyDetector) (level : Level) : float :=
  math_Max (l_Band level) (math_Max 1e-9 (ProximalBandATR (d_Settings d) * math_Max 0 (d_ATR d))).
Definition flip_zones (d : LegacyDetector) : list Zone := List.filter (λ z, negb (z_Mitigated z) && hasSource z "flip_zone") (CandidateZones d).
Definition spec (s : Strategy) : TechniqueSpec :=
  let cfg := st_cfg s in
  mkTechniqueSpec ID Version "m5_flip_zone_role_confirmed" "m5_flip_zone_rejection_confirmed" "flip_zone_invalidated" (InvalidationBufferATR cfg)
    (MinimumTargetDistanceATR cfg) (ExpiryHours cfg) (st_fingerprint s) None false
    (Opportunity.mkProvenance structureVersion liquidityVersion zoneVersionUsed configVersion (st_fingerprint s)) true (cfg_StopBudget cfg) false.
#[local] Existing Instance KeyLevel.RoleKind_eq_dec.
Section flip.
Context (u : Unicode) (hash : string → string).
Definition role_of (s : Strategy) (d : LegacyDetector) (level : Level) : KeyLevel.RoleKind :=
  let band := role_band d level in
  KeyLevel.Role u (l_Kind level) (l_Price level - band)%float (l_Price level + band)%float (map c_Close (lf_Bars (d_Frame d))) (BreakoutAcceptBars (st_cfg s)).
Definition role_agrees (d : LegacyDetector) (role : KeyLevel.RoleKind) : bool :=
  negb ((bool_decide (d_Direction d = Market.Buy) && negb (bool_decide (role = KeyLevel.RoleBrokenResistance))) ||
        (bool_decide (d_Direction d = Market.Sell) && negb (bool_decide (role = KeyLevel.RoleBrokenSupport)))).
(** The decision; [None] is the panic of a reaction or of the quality model. *)
Definition decide_flip (s : Strategy) (d : LegacyDetector) : option (option TechniqueDecision) :=
  match BestValidZone u d (flip_zones d) with
  | None => Some None
  | Some (zone, _) =>
      match flipLevel (lf_Levels (d_Frame d)) zone with
      | None => Some None
      | Some level =>
          if negb (role_agrees d (role_of s d level)) then Some None
          else
            confirmation ← ZoneReaction d zone;
            Some (
              conf ← confirmation;
              let factors := FactorsForConfirmation (ReactionFactors (lc_Type conf) (HTFAligned d) (z_Touches zone)
                (SweepEvidence.SessionSweepContext d (Some conf))) (lc_Type conf) in
              result ← Finish u d (ZoneKey d zone) zone factors (z_Side zone) (Some (Low zone)) (Some (High zone));
              let unscored := mkDecision "flip_zone" (d_Direction d) None None d (Some conf) result (ZoneID d zone) 0 0 None in
              Some (mkDecision "flip_zone" (d_Direction d) None None d (Some conf) result (ZoneID d zone) 0 0
                (Some (λ g, default (Opportunity.mkQuality 0 ∅) (scoreQuality zone level unscored g)))))
      end
  end.
(** The two sides in order; the refusals of the stop budget are threaded. *)
Definition evaluate_side (s : Strategy) (symbol : string) (base : LegacyDetector) (direction : string) (refusals : Refusals) :
    option (list Opportunity.Candidate * Refusals) :=
  dec ← decide_flip s (WithDirection base direction);
  Some (match dec with
    | None => ([], refusals)
    | Some dec => let '(c, refusals) := TechniqueCandidate hash symbol dec (spec s) refusals in (option_list c, refusals)
    end).
Definition Evaluate (s : Strategy) (ctx : StrategyContext) (refusals : Refusals) : option (list Opportunity.Candidate * Refusals) :=
  match context_detector ctx tf_M5 "" (Legacy (st_cfg s)) with
  | None => Some ([], refusals)
  | Some base =>
      '(buys, refusals) ← evaluate_side s (sx_Symbol ctx) base Market.Buy refusals;
      '(sells, refusals) ← evaluate_side s (sx_Symbol ctx) base Market.Sell refusals;
      Some (buys ++ sells, refusals)
  end.
End flip.

(** * Lemmas *)

Lemma flip_score_total zone level dec g : ∃ q, scoreQuality zone level dec g = Some q ∧ Quality.unit_score (Opportunity.q_Overall q).
Proof.
  unfold scoreQuality. cbv zeta. rewrite shared_run. repeat (rewrite !measures_run || rewrite !scores_run). cbn [mbind option_bind]. rewrite !run_then.
  match goal with |- context [Quality.run (Quality.New ?n) ?o] => destruct (Quality.run_named n o) as (m & -> & Hm) end;
    [unfold shared_ops; destruct (Quality.GeometryRoom _ _ _ _), (g_ATR g >? 0)%float; done..|]. cbn [mbind option_bind]. by eexists.
Qed.
Lemma flipLevel_spec levels zone level : flipLevel levels zone = Some level →
  level ∈ levels ∧ near_anchor zone level = true ∧ ∀ l, l ∈ levels → near_anchor zone l = true → (level_gap zone l <? level_gap zone level)%float = false.
Proof.
  unfold flipLevel.
  assert (H : ∀ seen best, match best with Some b => b ∈ seen ∧ near_anchor zone b = true ∧
      ∀ l, l ∈ seen → near_anchor zone l = true → (level_gap zone l <? level_gap zone b)%float = false | None => ∀ l, l ∈ seen → near_anchor zone l = false end →
    foldl (flip_step zone) best levels = Some level → level ∈ seen ++ levels ∧ near_anchor zone level = true ∧
      ∀ l, l ∈ seen ++ levels → near_anchor zone l = true → (level_gap zone l <? level_gap zone level)%float = false).
  { induction levels as [|l levels IH]; intros seen best Hb; cbn [foldl]; [intros ->; by rewrite app_nil_r|].
    rewrite cons_middle, app_assoc. apply IH. unfold flip_step. destruct (near_anchor zone l) eqn:En; cbn [negb].
    - destruct best as [b|].
      + destruct Hb as (H1 & H2 & H3). destruct (level_gap zone l <? level_gap zone b)%float eqn:Eg.
        * split_and!; [apply elem_of_app; right; by left|done|]. intros l' [Hl| ->%list_elem_of_singleton]%elem_of_app Hn.
          -- specialize (H3 l' Hl Hn). apply not_true_iff_false. intros (N1 & N2 & K)%ltb_nums. apply ltb_nums in Eg as (N3 & N4 & K').
             rewrite ltb_num in H3 by done. apply Z.ltb_ge in H3. lia.
          -- apply not_true_iff_false. intros (_ & _ & K)%ltb_nums. lia.
        * split_and!; [apply elem_of_app; by left|done|]. intros l' [Hl| ->%list_elem_of_singleton]%elem_of_app Hn; [by apply H3|done].
      + split_and!; [apply elem_of_app; right; by left|done|]. intros l' [Hl| ->%list_elem_of_singleton]%elem_of_app Hn.
        * specialize (Hb l' Hl). congruence.
        * apply not_true_iff_false. intros (_ & _ & K)%ltb_nums. lia.
    - destruct best as [b|].
      + destruct Hb as (H1 & H2 & H3). split_and!; [apply elem_of_app; by left|done|]. intros l' [Hl| ->%list_elem_of_singleton]%elem_of_app Hn; [by apply H3|congruence].
      + intros l' [Hl| ->%list_elem_of_singleton]%elem_of_app; [by apply Hb|done]. }
  intros E. apply (H [] None) in E; [done|]. by intros l ?%not_elem_of_nil.
Qed.
Lemma proximal_indices u d z : z_OriginIndex (proximalIfWide u d z).1 = z_OriginIndex z ∧ z_BreakIndex (proximalIfWide u d z).1 = z_BreakIndex z.
Proof.
  unfold proximalIfWide, OptimizeImbalanceEntryZone. destruct (negb _); [|destruct (_ || _ || _ || _ || _); [|destruct (_ <=? _)%float; [|destruct (_ || _)]]];
    (destruct (_ || _); [done|]); by destruct (is_sell d).
Qed.
(** A zone that is entered is one of the zones it was chosen from, within its band. *)
Lemma choice_in {A} (f : A → A → bool) l : ∀ x, foldl (λ b c, if f c b then c else b) x l ∈ x :: l.
Proof.
  induction l as [|c l IH]; intros x; cbn [foldl]; [by left|]. specialize (IH (if f c x then c else x)).
  apply elem_of_cons in IH as [->|IH]; [|by right; right]. destruct (f c x); [by right; left|by left].
Qed.
Lemma chosen_zone u d zones zone clipped : BestValidZone u d zones = Some (zone, clipped) →
  ∃ z, z ∈ zones ∧ EntryValid d z = true ∧ zone = (proximalIfWide u d z).1.
Proof.
  unfold BestValidZone. pose proof (elem_of_valid d zones) as Hv. destruct (List.filter (EntryValid d) zones) as [|first rest]; [done|]. intros [= E].
  exists (best_zone d first rest). pose proof (proj1 (Hv _) (choice_in (better_zone d) rest first)) as [H1 H2]. by rewrite E.
Qed.
Lemma flip_zone_in d z : z ∈ flip_zones d ↔ z ∈ CandidateZones d ∧ z_Mitigated z = false ∧ hasSource z "flip_zone" = true.
Proof. unfold flip_zones. rewrite in_filter, andb_true_iff, negb_true_iff. done. Qed.
Lemma candidate_zones_from d z : z ∈ CandidateZones d → z ∈ lf_Zones (d_Frame d) ++ lf_OrderBlocks (d_Frame d) ∧ z_Side z = d_side d.
Proof.
  unfold CandidateZones. assert (H : ∀ l out, z ∈ foldl (add_candidate (d_side d)) out l → z ∈ out ∨ z ∈ l ∧ z_Side z = d_side d).
  { induction l as [|a l IH]; intros out; cbn [foldl]; [by left|]. intros [Hz|[Hz Hs]]%IH; [|right; split; [by right|done]].
    unfold add_candidate in Hz. destruct (negb (bool_decide (z_Side a = d_side d)) || _) eqn:E; [by left|]. apply orb_false_iff in E as [E _].
    apply negb_false_iff, bool_decide_eq_true in E. apply elem_of_app in Hz as [Hz| ->%list_elem_of_singleton]; [by left|right; split; [by left|done]]. }
  intros [Hz|?]%H; [by apply not_elem_of_nil in Hz|done].
Qed.

(** * Theorems *)

(** The closes that agree with a flip: as many of the latest as asked for, all beyond the far edge of the level's band. *)
Definition flipped (s : Strategy) (d : LegacyDetector) (level : Level) : Prop :=
  let closes := map c_Close (lf_Bars (d_Frame d)) in let band := role_band d level in
  if is_buy d then KeyLevel.accepted closes (BreakoutAcceptBars (st_cfg s)) (λ c, c >? l_Price level + band)%float
  else KeyLevel.accepted closes (BreakoutAcceptBars (st_cfg s)) (λ c, c <? l_Price level - band)%float.
(** What an opportunity of a flip stands for. *)
Record flip_of (u : Unicode) (s : Strategy) (d : LegacyDetector) (z : Zone) (level : Level) (conf : LegacyConfirmation) (c : Opportunity.Candidate) : Prop := {
  fo_sound : Opportunity.candidate_sound c;
  fo_side : Opportunity.ca_Direction c = d_Direction d ∧ z_Side z = d_side d;
  fo_zone : z ∈ lf_Zones (d_Frame d) ++ lf_OrderBlocks (d_Frame d) ∧ z_Mitigated z = false ∧ hasSource z "flip_zone" = true ∧ EntryValid d z = true;
  fo_level : level ∈ lf_Levels (d_Frame d) ∧ near_anchor (proximalIfWide u d z).1 level = true ∧
    ∀ l, l ∈ lf_Levels (d_Frame d) → near_anchor (proximalIfWide u d z).1 l = true →
      (level_gap (proximalIfWide u d z).1 l <? level_gap (proximalIfWide u d z).1 level)%float = false;
  fo_flipped : flipped s d level;
  fo_reaction : (Z.max (z_OriginIndex z) (z_BreakIndex z) < Z.of_nat (lc_TouchIndex conf))%Z ∧
    lc_TouchIndex conf ≤ lc_ConfirmationIndex conf < length (lf_Bars (d_Frame d)) ∧
    Opportunity.ca_FormedAt c = c_Time (lf_Bars (d_Frame d) !!! lc_TouchIndex conf) ∧
    Opportunity.ca_CreatedAt c = c_Time (lf_Bars (d_Frame d) !!! lc_ConfirmationIndex conf);
  fo_structure : Opportunity.ca_StructuralID c = ZoneID d (proximalIfWide u d z).1
}.
(** The zones of a frame were formed and broken on its candles. *)
Definition indexed (f : LegacyFrame) : Prop :=
  ∀ z, z ∈ lf_Zones f ++ lf_OrderBlocks f → (Z.max (z_OriginIndex z) (z_BreakIndex z) < Z.of_nat (length (lf_Bars f)))%Z.
Lemma decide_flip_spec u s d : indexed (d_Frame d) →
  ∃ r, decide_flip u s d = Some r ∧ ∀ dec, r = Some dec → ∃ z level conf, let zone := (proximalIfWide u d z).1 in
    z ∈ flip_zones d ∧ EntryValid d z = true ∧ flipLevel (lf_Levels (d_Frame d)) zone = Some level ∧ role_agrees d (role_of u s d level) = true ∧
    ZoneReaction d zone = Some (Some conf) ∧ td_Confirmation dec = Some conf ∧ td_Direction dec = d_Direction d ∧ td_ID dec = ZoneID d zone.
Proof.
  intros Hidx. unfold decide_flip. destruct (BestValidZone u d (flip_zones d)) as [[zone clipped]|] eqn:Eb; [|by exists None].
  destruct (chosen_zone _ _ _ _ _ Eb) as (z & Hz & Hv & ->). destruct (flipLevel _ _) as [level|] eqn:El; [|by exists None].
  destruct (role_agrees d (role_of u s d level)) eqn:Er; cbn [negb]; [|by exists None].
  destruct (ZoneReaction d (proximalIfWide u d z).1) as [[conf|]|] eqn:Ec; cbn [mbind option_bind]; [|by exists None|].
  - destruct (Finish _ _ _ _ _ _ _ _) as [result|]; cbn [mbind option_bind]; [|by exists None]. eexists. split; [done|]. intros dec [= <-]. by exists z, level, conf.
  - exfalso. unfold ZoneReaction, ReactionFrom, reactionFrom in Ec. destruct (proximal_indices u d z) as [E1 E2]. rewrite E1, E2 in Ec.
    match type of Ec with context [Reaction.Evaluate ?b ?p] => pose proof (Reaction.Evaluate_spec b p) as H; destruct (Reaction.Evaluate b p) as [[?|]|] end; try done.
    destruct H as [_ H]. cbn [Reaction.p_MinIndex] in H. apply flip_zone_in in Hz as (Hz%candidate_zones_from & _). specialize (Hidx z (proj1 Hz)). lia.
Qed.
Lemma flip_built u hash s symbol d dec refusals refusals' z level conf c :
  TechniqueCandidate hash symbol dec (spec s) refusals = (Some c, refusals') → (d_Direction d = Market.Buy ∨ d_Direction d = Market.Sell) →
  let zone := (proximalIfWide u d z).1 in
  z ∈ flip_zones d → EntryValid d z = true → flipLevel (lf_Levels (d_Frame d)) zone = Some level → role_agrees d (role_of u s d level) = true →
  ZoneReaction d zone = Some (Some conf) → td_Confirmation dec = Some conf → td_Direction dec = d_Direction d → td_ID dec = ZoneID d zone →
  flip_of u s d z level conf c.
Proof.
  intros Et Hdir zone Hz Hv El Erole Ereact Econf Edir Eid.
  destruct (technique_candidate_built _ _ _ _ _ _ _ Et) as (_ & _ & built & c0 & Eb & -> & B1 & B2 & B3 & B4 & Ht).
  apply candidate_spec in Eb as (Hs & E1 & E2 & E3 & E4 & E5 & E6 & _). specialize (Ht conf Econf).
  apply flip_zone_in in Hz as (Hz & Hm & Hsrc). destruct (candidate_zones_from _ _ Hz) as [Hin Hside]. destruct (flipLevel_spec _ _ _ El) as (L1 & L2 & L3).
  destruct (proximal_indices u d z) as [P1 P2]. destruct (reactionFrom_spec _ _ _ _ _ _ _ _ Ereact) as (R1 & R2 & _ & _ & R5 & R6). unfold zone in R1. rewrite P1, P2 in R1.
  split; try done.
  - apply with_decision_sound; [done|]. intros conf' Ef. assert (conf' = conf) as -> by congruence. by rewrite E5, E6.
  - split; [cbn; congruence|done].
  - unfold flipped. unfold role_agrees in Erole. pose proof (KeyLevel.role_reference u (l_Kind level) (l_Price level - role_band d level)%float
      (l_Price level + role_band d level)%float (map c_Close (lf_Bars (d_Frame d))) (BreakoutAcceptBars (st_cfg s))) as Hrole. cbv zeta in Hrole.
    fold (role_of u s d level) in Hrole. unfold is_buy. destruct Hdir as [Hd|Hd]; rewrite Hd in Erole |- *.
    + rewrite bool_decide_true by done. cbn in Erole. destruct (role_of u s d level); try done. by destruct Hrole.
    + rewrite bool_decide_false by done. cbn in Erole. destruct (role_of u s d level); try done. by destruct Hrole.
  - destruct Ht as [T1 T2]. cbn. rewrite E5, E6, T1, T2, R5, R6. split_and!; [lia|lia|lia|done|done].
Qed.
Lemma side_spec u hash s symbol base direction refusals :
  (direction = Market.Buy ∨ direction = Market.Sell) → indexed (d_Frame base) →
  ∃ cs refusals', evaluate_side u hash s symbol base direction refusals = Some (cs, refusals') ∧ length cs ≤ 1 ∧
    ∀ c, c ∈ cs → ∃ z level conf, flip_of u s (WithDirection base direction) z level conf c.
Proof.
  intros Hdir Hidx. destruct (decide_flip_spec u s (WithDirection base direction) Hidx) as (r & Er & Hr). unfold evaluate_side. rewrite Er. cbn [mbind option_bind].
  destruct r as [dec|]; [|eexists [], refusals; split; [done|]; split; [cbn; lia|]; by intros c ?%not_elem_of_nil].
  destruct (TechniqueCandidate hash symbol dec (spec s) refusals) as [o r'] eqn:Et. exists (option_list o), r'. split; [done|].
  split; [destruct o; cbn; lia|]. intros c Hc. destruct o as [c'|]; [|by apply not_elem_of_nil in Hc]. apply list_elem_of_singleton in Hc as ->.
  destruct (Hr dec eq_refl) as (z & level & conf & Hz & Hv & El & Erole & Ereact & Econf & Edir & Eid). exists z, level, conf. by eapply flip_built.
Qed.
(** [C19] On a frame whose zones lie on its candles the strategy never panics, and publishes at most one opportunity per side. Each is sound
    and stands for a true flip: an unmitigated zone of the side with the flip source, the nearest level within its band of the
    zone's anchor edge, that level broken by as many of the latest closes as asked for, and a reaction that touched the zone only
    after it was formed and broken. *)
Theorem flip_zone_sound u hash s ctx refusals :
  (∀ f, frame_legacy ctx tf_M5 = Some f → indexed f) →
  ∃ cs refusals', Evaluate u hash s ctx refusals = Some (cs, refusals') ∧ length cs ≤ 2 ∧
  ∀ c, c ∈ cs → ∃ base direction z level conf, context_detector ctx tf_M5 "" (Legacy (st_cfg s)) = Some base ∧
    (direction = Market.Buy ∨ direction = Market.Sell) ∧ flip_of u s (WithDirection base direction) z level conf c.
Proof.
  intros Hidx. unfold Evaluate. destruct (context_detector ctx tf_M5 "" (Legacy (st_cfg s))) as [base|] eqn:Eb.
  2: { exists [], refusals. split; [done|]. split; [cbn; lia|]. by intros c ?%not_elem_of_nil. }
  assert (Hb : indexed (d_Frame base)).
  { unfold context_detector, NewLegacyDetector in Eb. destruct (sx_Legacy ctx); [|done]. destruct (frame_legacy ctx tf_M5) as [f|]; [|done].
    destruct (last (lf_Bars f)); [|done]. destruct (_ <? 5); [done|]. injection Eb as <-. by apply Hidx. }
  destruct (side_spec u hash s (sx_Symbol ctx) base Market.Buy refusals) as (buys & r1 & -> & L1 & H1); [by left|done|]. cbn [mbind option_bind].
  destruct (side_spec u hash s (sx_Symbol ctx) base Market.Sell r1) as (sells & r2 & -> & L2 & H2); [by right|done|]. cbn [mbind option_bind].
  exists (buys ++ sells), r2. split; [done|]. split; [rewrite length_app; lia|]. intros c [Hc|Hc]%elem_of_app.
  - destruct (H1 c Hc) as (z & level & conf & H). exists base, Market.Buy, z, level, conf. split_and!; [done|by left|done].
  - destruct (H2 c Hc) as (z & level & conf & H). exists base, Market.Sell, z, level, conf. split_and!; [done|by right|done].
Qed.

(** A broken resistance under the price, retested and rejected. *)
Definition demo_flip : Zone := mkZone 8.875 9.125 "demand" 0 0 false "flip_zone" ["flip_zone"] "flip" 1 8 [].
Definition demo_flip_frame : LegacyFrame :=
  mkLegacyFrame demo_bars [] 1 (TechniqueCompat.mkCompatConfig 0.125 0.5 1 2 14 0.5 10 3) [] "up" [] [mkLevel 9.03125 "resistance" 3 0.0625 1; mkLevel 8 "resistance" 3 0.0625 1]
    [] [] [] [demo_flip] [] [] [] [] [] [] [] None "" [] None [] None Momentum.Neutral 0 0.
Definition demo_flip_strategy : Strategy := mkStrategy (mkConfig 0.125 1 4 2 demo_settings (mkStopBudget 0 0 0 0)) "f".
Definition demo_flip_context : StrategyContext :=
  mkContext "XAUUSD" {[ tf_M5 := StrategyView.mkFrame demo_bars demo_regime (Some demo_flip_frame) demo_state [] ]} "" (Some (mkLegacyRead "up" "up" false)) demo_state.
Lemma flip_zone_sound_witness :
  ∃ c, Evaluate ascii_unicode (λ s, "id:" +:+ s) demo_flip_strategy demo_flip_context None = Some ([c], None) ∧ Opportunity.ca_Direction c = "BUY" ∧
    ∃ base direction z level conf, flip_of ascii_unicode demo_flip_strategy (WithDirection base direction) z level conf c.
Proof.
  assert (Hidx : ∀ f, frame_legacy demo_flip_context tf_M5 = Some f → indexed f).
  { intros f Hf. vm_compute in Hf. injection Hf as <-. intros z Hz. apply list_elem_of_In in Hz. vm_compute in Hz. destruct Hz as [<-|[]]. vm_compute. reflexivity. }
  destruct (flip_zone_sound ascii_unicode (λ s, "id:" +:+ s) demo_flip_strategy demo_flip_context None Hidx) as (cs & r & E & _ & H).
  assert (Hne : match Evaluate ascii_unicode (λ s, "id:" +:+ s) demo_flip_strategy demo_flip_context None with
    | Some ([c], None) => Opportunity.ca_Direction c = "BUY" | _ => False end) by (vm_compute; reflexivity).
  rewrite E in Hne. destruct cs as [|c [|? ?]]; [destruct Hne| |destruct Hne]. destruct r; [destruct Hne|]. exists c. split; [exact E|]. split; [exact Hne|].
  destruct (H c) as (base & direction & z & level & conf & _ & _ & Hf); [by left|]. by exists base, direction, z, level, conf.
Defined.
