(* ===== verification/TrendlineStrategy.v ===== *)
(** Package strategy/trendline: the confirmed reaction off a healthy trendline the latest candles reclaimed. *)
From S2P Require Import Prelude Float64 Market TechniqueBars TechniqueZones TechniqueInstances.
From S2P Require Import TechniqueScore LegacyRead Detector TechniqueDecision StopBudget TechniqueCandidate StrategyView.
From S2P Require Trendline Regime Reaction Confluence Quality Opportunity SweepEvidence TechniqueCompat Momentum.
From Stdlib Require Import Floats.

(** * quality.go *)

Definition QualityModel : string := "trendline.quality.v1".
(** [None] is a panic of the model. *)
Definition scoreQuality (line : Trendline.Trendline) (interaction : Trendline.Interaction) (dec : TechniqueDecision) (g : QualityGeometry) :
    option Opportunity.StrategyQuality :=
  let validations := f64_of_Z (Z.of_nat (length (Trendline.tl_ValidationTouches line))) in
  let violations := f64_of_Z (2 * Trendline.tl_CloseViolations line + Trendline.tl_WickViolations line) in
  let span := f64_of_Z (Trendline.tl_SpanBars line) in let slope := abs (Trendline.tl_SlopeATRPerBar line) in
  let distance := Trendline.ix_PreTouchDistanceATR interaction in
  let m := measures (scores (Some (Quality.New QualityModel)) [("line_validation", Quality.Peak validations 0 2 4 8)]) [("validation_touches", validations)] in
  let m := measures (scores m [("line_integrity", (1 - Quality.Ramp violations 0 4)%float)]) [("line_violations_weighted", violations)] in
  let m := measures (scores m [("line_significance", (0.5 * Quality.Ramp span 20 100 + 0.5 * Quality.Fall slope 0.05 0.4)%float)])
    [("line_span_bars", span); ("line_slope_atr_per_bar", slope)] in
  let m := measures (scores m [("approach", Quality.Ramp distance 0.3 1.5)]) [("approach_distance_atr", distance)] in
  m ← SharedReactionDimensions m dec g; Some (Opportunity.mkQuality (Quality.Overall m) (Quality.Components m)).

(** * trendline.go *)

Definition ID : string := "trendline".
Definition Version : string := "v6".
Record Strategy := mkStrategy {
  minimumValidationTouches : Z; chopMinimumValidationTouches : Z; maximumBarsSinceLastTouch : Z; invalidationATR : float; expiryHours : float;
  minimumTargetDistanceATR : float; interactionBandATR : float; closeViolationATR : float; approachMinDistanceATR : float; chopRequireHTFAligned : bool;
  requireHTFAligned : bool; rejectExhausted : bool; legacy : LegacyDetectorSettings; stopBudget : StopBudget_; fingerprint : string
}.
Definition bool_param (params : Params) (key : string) : option bool := match params !! key with Some (PBool b) => Some b | _ => None end.
Definition New (id : string) (params : Params) (fingerprint : string) : option Strategy :=
  if negb (bool_decide (id = ID)) then None
  else
    invalidation ← Float params "invalidation_buffer_atr"; expiry ← Float params "expiry_hours"; band ← Float params "interaction_band_atr";
    violation ← Float params "close_violation_atr"; approach ← Float params "approach_min_distance_atr"; target ← Float params "minimum_target_distance_atr";
    touches ← Int params "minimum_validation_touches"; chop ← Int params "chop_minimum_validation_touches"; since ← Int params "maximum_bars_since_last_touch";
    chopHTF ← bool_param params "chop_require_htf_aligned"; htf ← bool_param params "require_htf_aligned"; exhausted ← bool_param params "reject_exhausted";
    settings ← ParseLegacyDetectorSettings params; budget ← ParseStopBudget params;
    if (touches <? 0)%Z || (invalidation <=? 0)%float || (expiry <=? 0)%float || (band <=? 0)%float || (violation <=? 0)%float || (approach <? 0)%float ||
       (since <? 1)%Z || (target <=? 0)%float then None
    else Some (mkStrategy touches chop since invalidation expiry target band violation approach chopHTF htf exhausted settings budget fingerprint).
Definition RequiredTimeframes : list string := [tf_M5].
#[local] Existing Instance Trendline.State_eq_dec.
#[local] Existing Instance Trendline.InteractionState_eq_dec.
Definition structurallyRejected (s : Strategy) (d : LegacyDetector) (line : Trendline.Trendline) (last_ : Z) : bool :=
  let touches := Trendline.tl_ValidationTouches line in let validations := Z.of_nat (length touches) in let aligned := HTFAligned d in
  bool_decide (Trendline.tl_State line = Trendline.StateTentative) || (validations <? minimumValidationTouches s)%Z ||
  bool_decide (Trendline.tl_State line = Trendline.StateBroken) || bool_decide (is_Some (Trendline.tl_BrokenAt line)) ||
  bool_decide (Trendline.tl_State line = Trendline.StateDegraded) || bool_decide (Trendline.tl_State line = Trendline.StateExhausted) ||
  (rejectExhausted s && Trendline.tl_Exhausted line) ||
  match last touches with Some t => (last_ - Z.of_nat (Trendline.vt_BarIndex t) >? maximumBarsSinceLastTouch s)%Z | None => false end ||
  (requireHTFAligned s && negb aligned) ||
  (match lf_Regime (d_Frame d) with Some r => bool_decide (Regime.rs_Kind r = "chop") | None => false end &&
   ((validations <? chopMinimumValidationTouches s)%Z || (chopRequireHTFAligned s && negb aligned))).
Definition line_distance (base : LegacyDetector) (last_ : Z) (line : Trendline.Trendline) : float := abs (Trendline.ValueAt line last_ - d_Price base).
(** The lines nearest to the price first. *)
Definition ordered_lines (base : LegacyDetector) (last_ : Z) : list Trendline.Trendline :=
  sort_slice (λ a b, line_distance base last_ a <? line_distance base last_ b)%float (lf_Trendlines (d_Frame base)).
Definition line_direction (line : Trendline.Trendline) : string := match Trendline.tl_Kind line with Trendline.KindResistance => Market.Sell | Trendline.KindSupport => Market.Buy end.
Definition line_side (line : Trendline.Trendline) : string := match Trendline.tl_Kind line with Trendline.KindResistance => "supply" | Trendline.KindSupport => "demand" end.
Definition interaction_config (s : Strategy) : Trendline.Config :=
  Trendline.mkConfig 0 0 0 0 0 0 0 (closeViolationATR s) (approachMinDistanceATR s) 0 0 0 0 0 0 0 (interactionBandATR s).
Definition reclaimed (i : Trendline.Interaction) : bool :=
  bool_decide (Trendline.ix_State i = Trendline.InteractionReclaimedSupport) || bool_decide (Trendline.ix_State i = Trendline.InteractionReclaimedResistance).
Definition spec (s : Strategy) : TechniqueSpec :=
  mkTechniqueSpec ID Version "m5_trendline_causal_anchors" "m5_trendline_reaction_confirmed" "trendline_close_violation" (invalidationATR s)
    (minimumTargetDistanceATR s) (expiryHours s) (fingerprint s) None true (Opportunity.mkProvenance "" "" "" 0 "") true (stopBudget s) false.
Section strategy.
Context (u : Unicode) (hash : string → string).
(** One line; [None] is the panic of a line touchable only after the next bar. *)
Definition try_line (s : Strategy) (base : LegacyDetector) (line : Trendline.Trendline) : option (option TechniqueDecision) :=
  let bars := lf_Bars (d_Frame base) in let last_ := (Z.of_nat (length bars) - 1)%Z in
  let band := math_Max 1e-9 (interactionBandATR s * math_Max 0 (d_ATR base)) in let d := WithDirection base (line_direction line) in
  if structurallyRejected s d line last_ then Some None
  else
    let interaction := Trendline.EvaluateInteraction bars line (d_ATR base) (interaction_config s) in
    if negb (reclaimed interaction) then Some None
    else
      let low := Trendline.ix_BandLow interaction in let high := Trendline.ix_BandHigh interaction in let price := Trendline.ix_LinePrice interaction in
      confirmation ← ReactionFrom d low high None (Z.of_nat (Trendline.tl_AnchorBConfirmedIndex line) + 1);
      Some (
        conf ← confirmation;
        let zone := mkZone (price - band) (price + band) (line_side line) 0 0 false "trendline" [] "" (-1) 0 [] in
        if negb (EntryValid d zone) then None
        else
          let touches := (2 + Z.of_nat (length (Trendline.tl_ValidationTouches line)))%Z in
          let factors := FactorsForConfirmation (ReactionFactors (lc_Type conf) (HTFAligned d) touches (SweepEvidence.SessionSweepContext d (Some conf)))
            (lc_Type conf) in
          result ← Finish u d price zone factors (Trendline.Kind_String (Trendline.tl_Kind line)) (Some low) (Some high);
          let id := "trendline:" +:+ Trendline.tl_AnchorA line +:+ ":" +:+ Trendline.tl_AnchorB line in
          let unscored := mkDecision "trendline" (line_direction line) None None d (Some conf) result id 0 0 None in
          Some (mkDecision "trendline" (line_direction line) None None d (Some conf) result id 0 0
            (Some (λ g, default (Opportunity.mkQuality 0 ∅) (scoreQuality line interaction unscored g))))).
(** The first decision of the most stars. *)
Fixpoint best_line (s : Strategy) (base : LegacyDetector) (lines : list Trendline.Trendline) (best : option TechniqueDecision) :
    option (option TechniqueDecision) :=
  match lines with
  | [] => Some best
  | line :: rest =>
      decision ← try_line s base line;
      best_line s base rest (match decision with
        | Some dec => if match best with None => true | Some b => (decision_stars dec >? decision_stars b)%Z end then Some dec else best
        | None => best
        end)
  end.
Definition Evaluate (s : Strategy) (ctx : StrategyContext) (refusals : Refusals) : option (list Opportunity.Candidate * Refusals) :=
  match context_detector ctx tf_M5 "" (legacy s) with
  | None => Some ([], refusals)
  | Some base =>
      best ← best_line s base (ordered_lines base (Z.of_nat (length (lf_Bars (d_Frame base))) - 1)) None;
      Some (match best with
        | None => ([], refusals)
        | Some dec => let '(c, refusals) := TechniqueCandidate hash (sx_Symbol ctx) dec (spec s) refusals in (option_list c, refusals)
        end)
  end.
End strategy.

(** * Lemmas *)

Lemma line_score_total line interaction dec g : ∃ q, scoreQuality line interaction dec g = Some q ∧ Quality.unit_score (Opportunity.q_Overall q).
Proof.
  unfold scoreQuality. cbv zeta. rewrite shared_run. repeat (rewrite !measures_run || rewrite !scores_run). cbn [mbind option_bind]. rewrite !run_then.
  match goal with |- context [Quality.run (Quality.New ?n) ?o] => destruct (Quality.run_named n o) as (m & -> & Hm) end;
    [unfold shared_ops; destruct (Quality.GeometryRoom _ _ _ _), (g_ATR g >? 0)%float; done..|]. cbn [mbind option_bind]. by eexists.
Qed.
(** The anchors of a frame's lines were confirmed on its candles. *)
Definition anchored (f : LegacyFrame) : Prop :=
  Forall (λ l, Trendline.tl_AnchorBConfirmedIndex l < length (lf_Bars f)) (lf_Trendlines f).
(** What a line must be for its reaction to be published. *)
Record line_traded (s : Strategy) (base : LegacyDetector) (line : Trendline.Trendline) (conf : LegacyConfirmation) : Prop := {
  lt_state : Trendline.tl_State line ≠ Trendline.StateTentative ∧ Trendline.tl_State line ≠ Trendline.StateBroken ∧
    Trendline.tl_State line ≠ Trendline.StateDegraded ∧ Trendline.tl_State line ≠ Trendline.StateExhausted ∧ Trendline.tl_BrokenAt line = None;
  lt_validated : (minimumValidationTouches s <= Z.of_nat (length (Trendline.tl_ValidationTouches line)))%Z ∧
    ∀ t, last (Trendline.tl_ValidationTouches line) = Some t →
      (Z.of_nat (length (lf_Bars (d_Frame base))) - 1 - Z.of_nat (Trendline.vt_BarIndex t) <= maximumBarsSinceLastTouch s)%Z;
  lt_exhausted : rejectExhausted s = true → Trendline.tl_Exhausted line = false;
  lt_chop : ∀ r, lf_Regime (d_Frame base) = Some r → Regime.rs_Kind r = "chop" →
    (chopMinimumValidationTouches s <= Z.of_nat (length (Trendline.tl_ValidationTouches line)))%Z ∧
    (chopRequireHTFAligned s = true → AlignedWithHTF (d_Read base) (line_direction line) = true);
  lt_bias : requireHTFAligned s = true → AlignedWithHTF (d_Read base) (line_direction line) = true;
  lt_reaction : Trendline.tl_AnchorBConfirmedIndex line < lc_TouchIndex conf ≤ lc_ConfirmationIndex conf ∧
    lc_ConfirmationIndex conf < length (lf_Bars (d_Frame base)) ∧
    lc_TouchTime conf = c_Time (lf_Bars (d_Frame base) !!! lc_TouchIndex conf) ∧
    lc_ConfirmationTime conf = c_Time (lf_Bars (d_Frame base) !!! lc_ConfirmationIndex conf);
  lt_reclaimed : Trendline.ix_State (Trendline.EvaluateInteraction (lf_Bars (d_Frame base)) line (d_ATR base) (interaction_config s)) =
    Trendline.by_kind (Trendline.tl_Kind line) Trendline.InteractionReclaimedSupport Trendline.InteractionReclaimedResistance
}.
Lemma reclaimed_kind bars line atr cfg : reclaimed (Trendline.EvaluateInteraction bars line atr cfg) = true →
  Trendline.ix_State (Trendline.EvaluateInteraction bars line atr cfg) =
    Trendline.by_kind (Trendline.tl_Kind line) Trendline.InteractionReclaimedSupport Trendline.InteractionReclaimedResistance.
Proof.
  unfold reclaimed, Trendline.EvaluateInteraction. destruct bars as [|b bars]; [done|]. cbv zeta. destruct (_ <? - _)%float; [by destruct (Trendline.tl_Kind line)|].
  destruct (negb (_ && _)); [cbn [Trendline.ix_State]; destruct (_ && _), (Trendline.tl_Kind line); done|].
  destruct (negb (_ && _)); [by destruct (Trendline.tl_Kind line)|]. destruct (_ >=? 0)%float; by destruct (Trendline.tl_Kind line).
Qed.
Lemma try_line_spec u s base line : Trendline.tl_AnchorBConfirmedIndex line < length (lf_Bars (d_Frame base)) →
  ∃ r, try_line u s base line = Some r ∧ ∀ dec, r = Some dec → ∃ conf, line_traded s base line conf ∧ td_Confirmation dec = Some conf ∧
    td_Direction dec = line_direction line ∧ td_Detector dec = WithDirection base (line_direction line) ∧
    td_ID dec = "trendline:" +:+ Trendline.tl_AnchorA line +:+ ":" +:+ Trendline.tl_AnchorB line ∧ (ConfluenceFloor (d_Settings base) <= decision_stars dec)%Z.
Proof.
  intros Ha. unfold try_line. cbv zeta. destruct (structurallyRejected _ _ _ _) eqn:Er; [by exists None|].
  destruct (reclaimed _) eqn:Ei; cbn [negb]; [|by exists None]. apply reclaimed_kind in Ei.
  set (interaction := Trendline.EvaluateInteraction _ _ _ _) in *.
  destruct (ReactionFrom _ _ _ _ _) as [[conf|]|] eqn:Ec; cbn [mbind option_bind]; [|by exists None|].
  - destruct (EntryValid _ _); cbn [negb]; [|by exists None]. destruct (Finish _ _ _ _ _ _ _ _) as [result|] eqn:Ef; cbn [mbind option_bind]; [|by exists None].
    eexists. split; [done|]. intros dec [= <-]. exists conf. cbn [td_Confirmation td_Direction td_Detector td_ID]. apply finish_spec in Ef as (_ & _ & Hst & _).
    split_and!; try done. unfold structurallyRejected in Er. cbv zeta in Er. rewrite !orb_false_iff in Er.
    destruct Er as [[[[[[[[[E1 E2] E3] E4] E5] E6] E7] E8] E9] E10]. rewrite !bool_decide_eq_false in E1, E3, E4, E5, E6.
    apply reactionFrom_spec in Ec as (R1 & R2 & _ & _ & R5 & R6). change (lf_Bars (d_Frame (WithDirection _ _))) with (lf_Bars (d_Frame base)) in *. split.
    + split_and!; try done. apply eq_None_not_Some. done.
    + split; [lia|]. intros t Ht. rewrite Ht in E8. lia.
    + intros Hr. by rewrite Hr in E7.
    + intros r Hreg Hk. change (d_Frame (WithDirection base _)) with (d_Frame base) in E10. rewrite Hreg, bool_decide_true in E10 by done. cbn [andb] in E10.
      apply orb_false_iff in E10 as [E10 E11]. split; [lia|]. intros Hr. rewrite Hr in E11. cbn in E11. by apply negb_false_iff in E11.
    + intros Hr. rewrite Hr in E9. cbn in E9. by apply negb_false_iff in E9.
    + split_and!; [lia|lia|lia|done|done].
    + exact Ei.
  - exfalso. unfold ReactionFrom, reactionFrom in Ec.
    match type of Ec with context [Reaction.Evaluate ?b ?p] => pose proof (Reaction.Evaluate_spec b p) as H; destruct (Reaction.Evaluate b p) as [[?|]|] end; try done.
    destruct H as [_ H]. cbn [Reaction.p_MinIndex] in H. change (lf_Bars (d_Frame (WithDirection _ _))) with (lf_Bars (d_Frame base)) in H. lia.
Qed.
(** The best decision of a list of lines: one of theirs or the one there was, and none of theirs has more stars. *)
Lemma best_line_spec u s base lines : Forall (λ l, Trendline.tl_AnchorBConfirmedIndex l < length (lf_Bars (d_Frame base))) lines → ∀ best,
  ∃ r, best_line u s base lines best = Some r ∧
    (∀ dec, r = Some dec → best = Some dec ∨ ∃ line, line ∈ lines ∧ try_line u s base line = Some (Some dec)) ∧
    (∀ b, best = Some b → ∃ dec, r = Some dec ∧ (decision_stars b <= decision_stars dec)%Z) ∧
    (∀ line d, line ∈ lines → try_line u s base line = Some (Some d) → ∃ dec, r = Some dec ∧ (decision_stars d <= decision_stars dec)%Z).
Proof.
  induction 1 as [|line lines Hl Hls IH]; intros best; cbn [best_line].
  { exists best. split_and!; [done|by left|intros b ->; by exists b|by intros line d ?%not_elem_of_nil]. }
  destruct (try_line_spec u s base line Hl) as (o & Eo & _). rewrite Eo. cbn [mbind option_bind].
  match goal with |- context [best_line u s base lines ?x] => destruct (IH x) as (r & Er & H1 & H2 & H3) end. exists r. split; [done|]. split_and!.
  - intros dec Hd. destruct (H1 dec Hd) as [Hb|(l & ? & ?)]; [|right; exists l; split; [by right|done]].
    destruct o as [d|]; [|by left]. destruct (match best with None => true | Some _ => _ end); [|by left]. right. exists line. split; [by left|]. congruence.
  - intros b ->. destruct o as [d|]; [|by apply H2]. destruct (Z.gtb_spec (decision_stars d) (decision_stars b)); [|by apply H2].
    destruct (H2 d eq_refl) as (dec & -> & ?). exists dec. split; [done|lia].
  - intros l d [->|Hin]%elem_of_cons Ed; [|by apply (H3 l)]. assert (o = Some d) as -> by congruence.
    destruct best as [b|]; [|by apply H2]. destruct (Z.gtb_spec (decision_stars d) (decision_stars b)); [by apply H2|].
    destruct (H2 b eq_refl) as (dec & -> & ?). exists dec. split; [done|lia].
Qed.

(** * Theorems *)


(** A level support line, validated twice, which the latest candle touches and closes above. *)
Definition demo_touch (i : nat) : Trendline.ValidationTouch :=
  Trendline.mkValidationTouch i (Z.of_nat i * 60) 9.3125 9.3125 0 0 0 0 0 0 0 0 0 0 1 true 1 true true.
Definition demo_line : Trendline.Trendline :=
  Trendline.mkTrendline Trendline.KindSupport "a" "b" 0 1 2 0 9.3125 0 Trendline.StateConfirmed [demo_touch 2; demo_touch 3] 0 0 None false 3 false.
Definition demo_line_frame : LegacyFrame :=
  mkLegacyFrame demo_bars [] 1 (TechniqueCompat.mkCompatConfig 0.125 0.5 1 2 14 0.5 10 3) [] "up" [] [] [] [] [] [] [] []
    [TechniqueScore.mkPool "buy" 11 0.125 2 1] [] [] [demo_line] [] None "" [] None [] None Momentum.Neutral 0 0.
Definition demo_line_strategy : Strategy := mkStrategy 2 3 10 0.125 4 1 0.0625 0.125 0.0625 false true true demo_settings (mkStopBudget 0 0 0 0) "f".
Definition demo_line_context : StrategyContext :=
  mkContext "XAUUSD" {[ tf_M5 := StrategyView.mkFrame demo_bars demo_regime (Some demo_line_frame) demo_state [] ]} "" (Some (mkLegacyRead "up" "up" false)) demo_state.
