(* ===== verification/ImpulsePullback.v ===== *)
(** Package strategy/impulsepullback: a qualified impulse leg, its corrective pullback to a structural reference, the one-minute
    confirmation there and the order of the scalp book. *)
From S2P Require Import Prelude Float64 Market TechniqueBars TechniqueZones Detector StrategyView ScalpContext.
From S2P Require Fib KeyLevel LegacyRead ScalpRange RangeScalp TechniqueCandidate Quality Opportunity.
From Stdlib Require Import Floats.

(** * quality.go *)

Definition QualityModel : string := "impulse_pullback.quality.v1".
Record qualityInputs := mkQualityInputs {
  qi_displacementATR : float; qi_minDisplacementATR : float; qi_bodyDominance : float; qi_minBodyDominance : float; qi_pullbackRatio : float;
  qi_maxPullbackRatio : float; qi_referenceTouches : Z; qi_price : float; qi_reference : float; qi_atr : float; qi_rewardPips : float; qi_stop : float
}.
Definition quality_ops (i : qualityInputs) : list Quality.op :=
  let ratio := if (qi_minDisplacementATR i >? 0)%float then (qi_displacementATR i / qi_minDisplacementATR i)%float else nan in
  TechniqueCandidate.score_ops [("impulse_strength", Quality.Peak ratio 0.8 1.2 2.5 4); ("body_dominance", Quality.Ramp (qi_bodyDominance i) (qi_minBodyDominance i) 0.9);
    ("pullback_quality", Quality.Fall (qi_pullbackRatio i) 0.1 (qi_maxPullbackRatio i));
    ("reference_quality", Quality.Peak (f64_of_Z (qi_referenceTouches i)) 1 2 4 8);
    ("entry_location", Quality.LocationScore (qi_price i) (qi_reference i) (qi_atr i)); ("room", Quality.Room (qi_rewardPips i) (qi_stop i) true)] ++
  TechniqueCandidate.measure_ops [("impulse_displacement_atr", qi_displacementATR i); ("body_dominance", qi_bodyDominance i);
    ("pullback_body_ratio", qi_pullbackRatio i); ("reference_touches", f64_of_Z (qi_referenceTouches i));
    ("scalp_reward_risk", (qi_rewardPips i / qi_stop i)%float)].
Definition scoreQuality (i : qualityInputs) : option Quality.Model := Quality.run (Quality.New QualityModel) (quality_ops i).

(** * impulsepullback.go: parameters *)

Definition ID : string := "impulse_pullback".
Definition Version : string := "v4".
Record Config := mkConfig {
  Symbols : list string; PipSize : float; SetupWindowBars : Z; DealingWindowBars : Z; ConfirmationWindowBars : Z; ConfirmationLookbackBars : Z;
  ContextMaxAgeSeconds : Z; ContextATRBars : Z; ActiveRangeBars : Z; PullbackExtremeConfirmBars : Z; BreakoutAcceptBars : Z; ExpiryMinutes : float;
  BuyMaximumPosition : float; SellMinimumPosition : float; LevelProximityATR : float; ZoneMaximumATR : float; ImpulseDisplacementATR : float;
  ImpulseBodyDominance : float; PullbackCorrectiveRatio : float; BufferM1ATRMultiple : float; BufferM5ATRMultiple : float; BufferMinSpreadMultiple : float;
  MaximumSpreadPips : float; StopMinimumPips : float; StopMaximumPips : float; MinimumNetTargetPips : float; SwingFractalN : Z; LevelMinimumTouches : Z;
  LevelClusterATR : float; LevelRoundStep : float; LevelMaxClusterSpan : float; DisplacementATR : float; DisplacementBody : float;
  RewardRiskLadder : list float
}.
Definition validate (c : Config) : bool :=
  forallb negb [
    (PipSize c <=? 0)%float; (SetupWindowBars c <? 10)%Z; (ConfirmationWindowBars c <? 5)%Z; (ConfirmationLookbackBars c <? 1)%Z; (ContextATRBars c <? 1)%Z;
    (ActiveRangeBars c <? 2)%Z; (ExpiryMinutes c <=? 0)%float; (PullbackExtremeConfirmBars c <? 1)%Z; (BreakoutAcceptBars c <? 1)%Z;
    (StopMinimumPips c <=? 0)%float; (StopMaximumPips c <? StopMinimumPips c)%float; (BufferM5ATRMultiple c <=? 0)%float;
    (ImpulseDisplacementATR c <=? 0)%float; (ImpulseBodyDominance c <? 0)%float; (PullbackCorrectiveRatio c <=? 0)%float; (ZoneMaximumATR c <=? 0)%float].
Definition parseConfig (params : Params) : option Config :=
  let num := Float params in let count := Int params in
  pip ← num "pip_size"; setup ← count "setup_window_bars"; dealing ← count "dealing_window_bars"; window ← count "confirmation_window_bars";
  lookback ← count "confirmation_lookback_bars"; age ← count "context_max_age_seconds"; atrBars ← count "context_atr_bars";
  active ← count "active_range_bars"; confirm ← count "pullback_extreme_confirm_bars"; accept ← count "breakout_accept_bars";
  expiry ← num "expiry_minutes"; buyMax ← num "buy_maximum_position"; sellMin ← num "sell_minimum_position";
  proximity ← num "level_proximity_atr_multiple"; zoneMax ← num "zone_maximum_atr_multiple"; displacement ← num "impulse_displacement_atr_multiple";
  dominance ← num "impulse_body_dominance"; corrective ← num "pullback_corrective_ratio"; m1 ← num "buffer_m1_atr_multiple";
  spread ← num "buffer_minimum_spread_multiple"; m5 ← num "buffer_m5_atr_multiple"; maxSpread ← num "maximum_spread_pips";
  stopMin ← num "stop_minimum_pips"; stopMax ← num "stop_maximum_pips"; net ← num "minimum_net_target_pips"; fractal ← count "swing_fractal_n";
  touches ← count "level_minimum_touches"; cluster ← num "level_cluster_atr"; round ← num "level_round_step"; span ← num "level_max_cluster_span";
  dispATR ← num "displacement_atr_multiple"; dispBody ← num "displacement_body_fraction";
  ladder ← match params !! "reward_risk_ladder" with Some (PList (item :: items)) => mapM item_number (item :: items) | _ => None end;
  symbols ← ParseSymbols params;
  let c := mkConfig symbols pip setup dealing window lookback age atrBars active confirm accept expiry buyMax sellMin proximity zoneMax displacement dominance
    corrective m1 m5 spread maxSpread stopMin stopMax net fractal touches cluster round span dispATR dispBody ladder in
  if validate c then Some c else None.
Record Strategy := mkStrategy { st_cfg : Config; st_fingerprint : string }.
Definition New (id : string) (params : Params) (fingerprint : string) : option Strategy :=
  if negb (bool_decide (id = ID)) then None else cfg ← parseConfig params; Some (mkStrategy cfg fingerprint).
Definition RequiredTimeframes : list string := [tf_M1].
Definition allowsSymbol (s : Strategy) (symbol : string) : bool := SymbolAllowed (Symbols (st_cfg s)) symbol.

(** * impulsepullback.go: the impulse leg *)

Fixpoint closed_end (bars : list Candle) (closeAt minutes : Z) (n : nat) : nat :=
  match n with O => O | S i => if (c_Time (bars !!! i) + minutes * 60 >? closeAt)%Z then closed_end bars closeAt minutes i else n end.
Definition closedBy (bars : list Candle) (closeAt minutes window : Z) : list Candle := LegacyRead.last_n window (take (closed_end bars closeAt minutes (length bars)) bars).
Record impulseEvent := mkEvent {
  ev_Origin : float; ev_Extreme : float; ev_PullbackExtreme : float; ev_ImpulseLen : float; ev_BodyDominance : float; ev_MeanImpulseBody : float;
  ev_MeanPullbackBody : float; ev_BarTime : Z
}.
Inductive pullback := NotFound | Rejected | Found (ev : impulseEvent).
Section detect.
Context (window : list Candle) (buy : bool).
Definition at_ (i : nat) : Candle := window !!! i.
(** The far end of a candle on the side the leg starts from, and on the side it goes to. *)
Definition start_side (i : nat) : float := if buy then c_Low (at_ i) else c_High (at_ i).
Definition end_side (i : nat) : float := if buy then c_High (at_ i) else c_Low (at_ i).
Definition origin_step (o i : nat) : nat := if (if buy then start_side i <? start_side o else start_side i >? start_side o)%float then i else o.
Definition originI : nat := foldl origin_step 0%nat (seq 1 (length window - 1)).
Definition extreme_step (e i : nat) : nat := if (if buy then end_side i >? end_side e else end_side i <? end_side e)%float then i else e.
Definition extremeI : nat := foldl extreme_step originI (seq (originI + 1) (length window - (originI + 1))).
Definition pullback_extreme (from to : nat) : float :=
  foldl (λ m i, if buy then math_Min m (start_side i) else math_Max m (start_side i)) (start_side from) (seq from (to - from)).
Definition sum_over (f : Candle → float) (from to : nat) : float := foldl (λ s i, s + f (at_ i))%float 0%float (seq from (to - from)).
Definition body_of (c : Candle) : float := abs (c_Close c - c_Open c).
Definition measure_leg (pullbackExtreme impulseLen : float) : impulseEvent :=
  let n := length window in let o := originI in let e := extremeI in
  let impulseBars := f64_of_Z (Z.of_nat (e - o + 1)) in let pullbackBars := f64_of_Z (Z.of_nat (n - (e + 1))) in
  let meanRange := (sum_over (λ c, abs (c_High c - c_Low c)) o (e + 1) / impulseBars)%float in let meanBody := (sum_over body_of o (e + 1) / impulseBars)%float in
  mkEvent (start_side o) (end_side e) pullbackExtreme impulseLen (if (meanRange >? 0)%float then meanBody / meanRange else 0)%float meanBody
    (if (pullbackBars >? 0)%float then sum_over body_of (e + 1) n / pullbackBars else 0)%float (c_Time (at_ (n - 1))).
Definition detect_leg (confirmBars : Z) : pullback :=
  let n := length window in let last_ := at_ (n - 1) in let current := c_Close last_ in let o := originI in let e := extremeI in
  let extreme := end_side e in
  let impulseLen := (if buy then extreme - start_side o else start_side o - extreme)%float in
  let pullback := (if buy then extreme - current else current - extreme)%float in
  if (impulseLen <=? 0)%float then NotFound
  else
    let retracement := (pullback / impulseLen)%float in
    if (retracement <? 0.25)%float || (retracement >? 0.75)%float then Rejected
    else if (if buy then c_Close last_ <=? c_Open last_ else c_Close last_ >=? c_Open last_)%float then NotFound
    else if (abs (current - extreme) / impulseLen <? 0.05)%float then Rejected
    else
      let confirm := if (confirmBars <? 1)%Z then 1%Z else confirmBars in let confirmedEnd := (Z.of_nat n - confirm)%Z in
      if (confirmedEnd <=? Z.of_nat e)%Z then Rejected
      else
        let stop := Z.to_nat confirmedEnd in let p := pullback_extreme e stop in
        if existsb (λ i, if buy then start_side i <=? p else start_side i >=? p)%float (seq stop (n - stop)) then Rejected
        else Found (measure_leg p impulseLen).
End detect.
Definition detectImpulsePullback (bars : list Candle) (direction : string) (confirmBars : Z) : pullback :=
  if (length bars <? 8)%nat then NotFound else detect_leg (LegacyRead.last_n 30 bars) (bool_decide (direction = Market.Buy)) confirmBars.

(** * impulsepullback.go: the reference *)

Record reference := mkReference {
  rf_Zone : bool; rf_Bottom : float; rf_Top : float; rf_Level : float; rf_Band : float; rf_RawKind : string; rf_Distance : float; rf_Score : float;
  rf_Touches : Z
}.
(** [None] is the panic of a negative fractal width, which the configuration does not refuse: the first candidate lies before the candles. *)
Definition scalpStructure (cfg : Config) (m5 : list Candle) : option (list Level * list Zone) :=
  let atr := ATRSeries m5 (ContextATRBars cfg) in
  if (SwingFractalN cfg <? 0)%Z then None
  else
    let swings := FindSwings m5 (Z.to_nat (SwingFractalN cfg)) 0 1 (Some atr) (-1) in
    Some (KeyLevels swings atr (LevelClusterATR cfg) (LevelRoundStep cfg) (LevelMinimumTouches cfg) (LevelMaxClusterSpan cfg) [],
      MarkMitigation (SupplyDemand m5 (Displacement m5 (Some atr) (DisplacementATR cfg) (DisplacementBody cfg))) m5 (Z.of_nat (length m5))).
Section reference.
Context (cfg : Config) (buy : bool) (extreme m1ATR : float).
Definition proximity : float := math_Max 0 (LevelProximityATR cfg * m1ATR).
Definition zone_distance (z : Zone) : float :=
  if (z_Bottom z <=? extreme)%float && (extreme <=? z_Top z)%float then 0%float else math_Min (abs (extreme - z_Bottom z)) (abs (extreme - z_Top z)).
Definition zone_near (z : Zone) : bool :=
  bool_decide (z_Side z = if buy then "demand" else "supply") && negb (z_Mitigated z) && negb (z_Top z <=? z_Bottom z)%float &&
  negb (if buy then z_Bottom z >? extreme else z_Top z <? extreme)%float && negb (zone_distance z >? proximity)%float.
Definition zone_reference (z : Zone) : reference :=
  mkReference true (z_Bottom z) (z_Top z) (if buy then z_Bottom z else z_Top z) 0 "" (zone_distance z) (z_Score z) (z_Touches z).
Definition zone_better (c b : reference) : bool :=
  (rf_Score c >? rf_Score b)%float || ((rf_Score c =? rf_Score b)%float &&
    ((rf_Touches c >? rf_Touches b)%Z || ((rf_Touches c =? rf_Touches b)%Z && (rf_Distance c <? rf_Distance b)%float))).
Definition level_near (l : Level) : bool :=
  negb (abs (l_Price l - extreme) >? proximity + math_Max 0 (l_Band l))%float &&
  negb (if buy then l_Price l >? extreme + proximity else l_Price l <? extreme - proximity)%float.
Definition level_reference (l : Level) : reference :=
  mkReference false (l_Price l) (l_Price l) (l_Price l) (math_Max 0 (l_Band l)) (l_Kind l) (abs (l_Price l - extreme)) 0 (l_Touches l).
Definition level_better (c b : reference) : bool :=
  (rf_Distance c <? rf_Distance b)%float || ((rf_Distance c =? rf_Distance b)%float && (rf_Touches c >? rf_Touches b)%Z).
Definition pick (better : reference → reference → bool) (l : list reference) : option reference :=
  foldl (λ best c, match best with None => Some c | Some b => if better c b then Some c else best end) None l.
(** [None] when there is no reference; [Some None] when its zone is too wide. *)
Definition impulseReference (zones : list Zone) (levels : list Level) : option (option reference) :=
  match pick zone_better (map zone_reference (List.filter zone_near zones)) with
  | Some best => Some (if (rf_Top best - rf_Bottom best >? ZoneMaximumATR cfg * m1ATR)%float then None else Some best)
  | None => Some <$> pick level_better (map level_reference (List.filter level_near levels))
  end.
End reference.

(** * impulsepullback.go: the evaluation *)

#[local] Existing Instance KeyLevel.RoleKind_eq_dec.
Definition expectedRole (direction : string) : KeyLevel.RoleKind :=
  if bool_decide (direction = Market.Buy) then KeyLevel.RoleSupport else KeyLevel.RoleResistance.
(** What the gates of a side leave: the leg, its reference and confirmation, the entry zone and the distance to the stop in pips. *)
Record plan := mkPlan {
  pn_Event : impulseEvent; pn_Reference : reference; pn_Confirm : M1Confirmation; pn_Low : float; pn_High : float; pn_Worst : float;
  pn_Structural : float; pn_Room : float
}.
Section evaluate.
(** The case tables of Go, and the hexadecimal SHA-256 digest. *)
Context (u : Unicode) (hash : string → string).
Definition explicitRole (kind : string) : bool :=
  existsb (λ token, contains_runes (map (ToLower u) (runes kind)) (runes token)) ["support"; "resistance"; "resist"; "swing_low"; "swing_high"].
Definition levelRole (s : Strategy) (ref : reference) (direction : string) (closes : list float) : KeyLevel.RoleKind :=
  let kind := if bool_decide (direction = Market.Sell) then "resistance" else "support" in
  if rf_Zone ref then KeyLevel.Role u kind (rf_Bottom ref) (rf_Top ref) closes (BreakoutAcceptBars (st_cfg s))
  else KeyLevel.Role u (if explicitRole (rf_RawKind ref) then rf_RawKind ref else kind) (rf_Level ref - rf_Band ref)%float (rf_Level ref + rf_Band ref)%float
    closes (BreakoutAcceptBars (st_cfg s)).
Section side.
Context (s : Strategy) (c : ScalpContext_) (m5 m1 : list Candle) (levels : list Level) (zones : list Zone) (position : option float) (direction : string).
#[local] Abbreviation cfg := (st_cfg s).
#[local] Abbreviation buy := (bool_decide (direction = Market.Buy)).
#[local] Abbreviation sell := (bool_decide (direction = Market.Sell)).
Definition m1ATR : float := math_Max (cx_M1ATR c) (PipSize cfg * 3).
Definition structureATR : float := math_Max (cx_ATR c) (PipSize cfg * 3).
Definition buffer : float :=
  ScalpBuffer (cx_M1ATR c) (BufferM1ATRMultiple cfg) (PipSize cfg) (MaximumSpreadPips cfg) (BufferMinSpreadMultiple cfg).
Definition stopBuffer : float := math_Max (BufferM5ATRMultiple cfg * cx_ATR c) (BufferMinSpreadMultiple cfg * MaximumSpreadPips cfg * PipSize cfg).
Definition out_of_place : bool :=
  match position with
  | Some p => (buy && (p >? BuyMaximumPosition cfg)%float) || (sell && (p <? SellMinimumPosition cfg)%float)
  | None => false
  end.
Definition leg_weak (ev : impulseEvent) : bool :=
  (ev_ImpulseLen ev / structureATR <? ImpulseDisplacementATR cfg)%float || (ev_BodyDominance ev <? ImpulseBodyDominance cfg)%float ||
  (ev_MeanImpulseBody ev <=? 0)%float || (ev_MeanPullbackBody ev >=? ev_MeanImpulseBody ev * PullbackCorrectiveRatio cfg)%float.
Definition entry_zone (ref : reference) : float * float :=
  if rf_Zone ref then (rf_Bottom ref, rf_Top ref)
  else if buy then (rf_Level ref, (rf_Level ref + buffer)%float) else ((rf_Level ref - buffer)%float, rf_Level ref).
(** The entry edge farthest from the stop, the distance in pips to the stop beyond the reference and the pullback, and the room. *)
Definition exposure (ev : impulseEvent) (ref : reference) : float * float * float :=
  let '(low, high) := entry_zone ref in
  if sell then (low, ((math_Max (rf_Level ref) (ev_PullbackExtreme ev) + stopBuffer - low) / PipSize cfg)%float, cx_SellRoomPips c)
  else (high, ((high - (math_Min (rf_Level ref) (ev_PullbackExtreme ev) - stopBuffer)) / PipSize cfg)%float, cx_BuyRoomPips c).
Definition side_plan : option plan :=
  if out_of_place then None
  else
    match detectImpulsePullback m5 direction (PullbackExtremeConfirmBars cfg) with
    | Found ev =>
        if leg_weak ev then None
        else
          match impulseReference cfg buy (ev_PullbackExtreme ev) m1ATR zones levels with
          | Some (Some ref) =>
              confirm ← ConfirmM1Execution m1 direction (rf_Level ref) buffer (ConfirmationLookbackBars cfg);
              if negb (bool_decide (levelRole s ref direction (map c_Close m5) = expectedRole direction)) then None
              else
                let '(low, high) := entry_zone ref in let '(worst, structural, room) := exposure ev ref in
                Some (mkPlan ev ref confirm low high worst structural room)
          | _ => None
          end
    | _ => None
    end.
(** [None] is a panic of the quality model; [Some None] a refusal. *)
Definition plan_candidate (symbol : string) (p : plan) : option (option Opportunity.Candidate) :=
  let ev := pn_Event p in let ref := pn_Reference p in let pip := PipSize cfg in let worst := pn_Worst p in
  match ScalpStopPips (pn_Structural p) (StopMinimumPips cfg) (StopMaximumPips cfg) with
  | None => Some None
  | Some stop =>
      let invalidation := if sell then (worst + stop * pip)%float else (worst - stop * pip)%float in
      if RangeScalp.misplaced direction invalidation (pn_Low p) (pn_High p) then Some None
      else
        match ScalpTarget direction worst (pn_Room p) stop (MinimumNetTargetPips cfg) pip (RewardRiskLadder cfg) with
        | None => Some None
        | Some (targetPrice, targetPips) =>
            if (targetPips >? pn_Room p * 0.9)%float then Some None
            else
              model ← scoreQuality (mkQualityInputs (ev_ImpulseLen ev / structureATR) (ImpulseDisplacementATR cfg) (ev_BodyDominance ev)
                (ImpulseBodyDominance cfg) (ev_MeanPullbackBody ev / ev_MeanImpulseBody ev) (PullbackCorrectiveRatio cfg) (rf_Touches ref) (cx_Price c)
                worst structureATR targetPips stop);
              Some (match TechniqueCandidate.Candidate hash (TechniqueCandidate.mkCandidateSpec ID Version
                  ("impulse:" +:+ direction +:+ ":" +:+ fmt_fixed 2 (ev_Origin ev) +:+ ":" +:+ fmt_fixed 2 (ev_Extreme ev) +:+ ":" +:+ fmt_fixed 2 (rf_Level ref))
                  symbol direction (pn_Low p) (pn_High p) invalidation "impulse_reference_lost" targetPrice "scalp_corridor"
                  ["m5_qualified_impulse"; "m1_bounded_pullback"; "m1_continuation_trigger"]
                  (Opportunity.mkQuality (Quality.Overall model) (Quality.Components model)) (ev_BarTime ev) (mc_Time (pn_Confirm p))
                  (ExpiryMinutes cfg / 60)%float (st_fingerprint s)) with
                | Ok c => Some c
                | Err _ => None
                end)
        end
  end.
Definition evaluate_side (symbol : string) : option (list Opportunity.Candidate) :=
  match side_plan with Some p => r ← plan_candidate symbol p; Some (option_list r) | None => Some [] end.
End side.
Definition context_config (cfg : Config) : ScalpContextConfig :=
  mkContextConfig (PipSize cfg) (ContextMaxAgeSeconds cfg) (ContextATRBars cfg) (ActiveRangeBars cfg) (ConfirmationWindowBars cfg).
(** The candles the evaluation reads, and the position of the price in the dealing range of the slower ones. *)
Definition setup_window (cfg : Config) (m5 : list Candle) (now : Z) : list Candle := closedBy m5 (now + 60) 5 (SetupWindowBars cfg).
Definition confirmation_window (cfg : Config) (m1 : list Candle) : list Candle := LegacyRead.last_n (ConfirmationWindowBars cfg) m1.
Definition dealing_position (cfg : Config) (ctx : StrategyContext) (c : ScalpContext_) (m5 : list Candle) : option float :=
  let source := match sx_Frames ctx !! tf_M15 with
    | Some f => let m15 := closedBy (sf_Candles f) (cx_CloseAt c) 15 (DealingWindowBars cfg) in if (0 <? length m15)%nat then m15 else m5
    | None => m5
    end in
  ScalpDealingPosition source (cx_Price c) (Fib.mkConfig 0 0 0 0).
Definition Evaluate (s : Strategy) (ctx : StrategyContext) : option (list Opportunity.Candidate) :=
  if negb (allowsSymbol s (sx_Symbol ctx)) then Some []
  else
    match sx_Frames ctx !! tf_M5, sx_Frames ctx !! tf_M1 with
    | Some m5tf, Some m1tf =>
        match last (sf_Candles m1tf) with
        | None => Some []
        | Some latest =>
            let cfg := st_cfg s in let now := c_Time latest in let m5 := setup_window cfg (sf_Candles m5tf) now in
            let m1 := confirmation_window cfg (sf_Candles m1tf) in
            if (length m5 =? 0)%nat then Some []
            else
              match BuildScalpContext (context_config cfg) m5 (sf_Candles m1tf) now with
              | None => Some []
              | Some c =>
                  let position := dealing_position cfg ctx c m5 in
                  '(levels, zones) ← scalpStructure cfg m5;
                  buys ← evaluate_side s c m5 m1 levels zones position Market.Buy (sx_Symbol ctx);
                  sells ← evaluate_side s c m5 m1 levels zones position Market.Sell (sx_Symbol ctx);
                  Some (buys ++ sells)
              end
        end
    | _, _ => Some []
    end.
End evaluate.

(** * Lemmas *)

Lemma scan_best {A} (before : A → A → bool) : (∀ x, before x x = false) → (∀ x b c, before c b = true → before x b = false → before x c = false) →
  ∀ l b, let r := foldl (λ b c, if before c b then c else b) b l in r ∈ b :: l ∧ ∀ x, x ∈ b :: l → before x r = false.
Proof.
  intros Hi Ht. assert (H : ∀ l b seen, b ∈ seen → (∀ x, x ∈ seen → before x b = false) →
    let r := foldl (λ b c, if before c b then c else b) b l in r ∈ seen ++ l ∧ ∀ x, x ∈ seen ++ l → before x r = false).
  { induction l as [|c l IH]; intros b seen Hb Hs; cbn [foldl]; [by rewrite app_nil_r|]. rewrite cons_middle, app_assoc. destruct (before c b) eqn:E; apply IH.
    - apply elem_of_app. right. by left.
    - intros x [Hx| ->%list_elem_of_singleton]%elem_of_app; [eapply Ht; [done|by apply Hs]|apply Hi].
    - apply elem_of_app. by left.
    - intros x [Hx| ->%list_elem_of_singleton]%elem_of_app; [by apply Hs|done]. }
  intros l b. apply (H l b [b]); [by left|]. intros x ->%list_elem_of_singleton. apply Hi.
Qed.
Lemma ltb_irrefl x : (x <? x)%float = false.
Proof. apply not_true_iff_false. intros (_ & _ & ?)%ltb_nums. lia. Qed.
Lemma ltb_keep x b c : (c <? b)%float = true → (x <? b)%float = false → (x <? c)%float = false.
Proof.
  intros (Nc & Nb & K)%ltb_nums H. apply not_true_iff_false. intros (Nx & _ & K')%ltb_nums. rewrite ltb_num in H by done. lia.
Qed.
Section leg.
Context (window : list Candle) (buy : bool).
#[local] Abbreviation n := (length window).
#[local] Abbreviation start_side := (start_side window buy).
#[local] Abbreviation end_side := (end_side window buy).
(** Candles whose extremes can be compared, and the price as the leg counts it: up for a buy, down for a sell. *)
Definition comparable : Prop := ∀ b, b ∈ window → IsNaN (c_Low b) = false ∧ IsNaN (c_High b) = false.
Definition along (x : float) : Z := if buy then key x else (- key x)%Z.
Hypothesis Hc : comparable.
Lemma sides_num i : i < n → IsNaN (start_side i) = false ∧ IsNaN (end_side i) = false.
Proof.
  intros Hi. unfold ImpulsePullback.start_side, ImpulsePullback.end_side, at_. destruct (Hc (window !!! i)) as [H1 H2]; [by apply list_elem_of_lookup_total_2|].
  by destruct buy.
Qed.
Lemma leg_before (b : bool) x y : IsNaN x = false → IsNaN y = false → (if b then x <? y else x >? y)%float = false → (if b then key y <= key x else key x <= key y)%Z.
Proof. intros Nx Ny H. destruct b; rewrite ltb_num in H by done; lia. Qed.
Lemma origin_spec : 0 < n → originI window buy < n ∧ ∀ i, i < n → (along (start_side (originI window buy)) <= along (start_side i))%Z.
Proof.
  intros Hn. destruct (scan_best (λ i o, if buy then start_side i <? start_side o else start_side i >? start_side o)%float) with (l := seq 1 (n - 1)) (b := 0) as [H1 H2].
  - intros x. destruct buy; apply ltb_irrefl.
  - intros x b c. destruct buy; [apply ltb_keep|]. intros (Nb & Nc & K)%ltb_nums H. apply not_true_iff_false. intros (_ & Nx & K')%ltb_nums. rewrite ltb_num in H by done. lia.
  - change (foldl _ 0 _) with (originI window buy) in H1, H2. assert (Ho : originI window buy < n).
    { apply elem_of_cons in H1 as [->|H1%elem_of_seq]; lia. }
    split; [done|]. intros i Hi. assert (Hin : i ∈ 0 :: seq 1 (n - 1)) by (rewrite elem_of_cons, elem_of_seq; lia). specialize (H2 i Hin).
    apply leg_before in H2; [|by apply sides_num..]. unfold along. destruct buy; lia.
Qed.
Lemma extreme_spec : 0 < n → let o := originI window buy in let e := extremeI window buy in
  o ≤ e < n ∧ ∀ i, o ≤ i < n → (along (end_side i) <= along (end_side e))%Z.
Proof.
  intros Hn o e. destruct (origin_spec Hn) as [Ho _]. fold o in Ho.
  destruct (scan_best (λ i b, if buy then end_side i >? end_side b else end_side i <? end_side b)%float) with (l := seq (o + 1) (n - (o + 1))) (b := o) as [H1 H2].
  - intros x. destruct buy; apply ltb_irrefl.
  - intros x b c. destruct buy; [|apply ltb_keep]. intros (Nb & Nc & K)%ltb_nums H. apply not_true_iff_false. intros (_ & Nx & K')%ltb_nums. rewrite ltb_num in H by done. lia.
  - change (foldl _ o _) with e in H1, H2. assert (He : o ≤ e < n).
    { apply elem_of_cons in H1 as [->|H1%elem_of_seq]; lia. }
    split; [done|]. intros i Hi. assert (Hin : i ∈ o :: seq (o + 1) (n - (o + 1))) by (rewrite elem_of_cons, elem_of_seq; lia). specialize (H2 i Hin).
    assert (Hx : i < n) by lia. destruct (sides_num i Hx) as [_ Ni]. destruct (sides_num e (proj2 He)) as [_ Ne]. unfold along. destruct buy; rewrite ltb_num in H2 by done; lia.
Qed.
Lemma pullback_extreme_spec from to : from < to ≤ n → let p := pullback_extreme window buy from to in
  IsNaN p = false ∧ (∃ i, from ≤ i < to ∧ along p = along (start_side i)) ∧ ∀ i, from ≤ i < to → (along p <= along (start_side i))%Z.
Proof.
  intros Hft p. assert (H : ∀ l m, Forall (λ i, from ≤ i < to) l → IsNaN m = false → (∃ i, from ≤ i < to ∧ along m = along (start_side i)) →
    let r := foldl (λ m i, if buy then math_Min m (start_side i) else math_Max m (start_side i)) m l in
    IsNaN r = false ∧ (∃ i, from ≤ i < to ∧ along r = along (start_side i)) ∧ (along r <= along m)%Z ∧ ∀ i, i ∈ l → (along r <= along (start_side i))%Z).
  { induction l as [|i l IH]; intros m Hl Nm Hm r; subst r; cbn [foldl]; [split_and!; try done; by intros i ?%not_elem_of_nil|].
    apply Forall_cons in Hl as [Hi Hl]. destruct (sides_num i ltac:(lia)) as [Ni _]. set (m' := if buy then _ else _).
    assert (Em : IsNaN m' = false ∧ along m' = Z.min (along m) (along (start_side i))).
    { subst m'. unfold along. destruct buy; [by apply math_Min_num|]. destruct (math_Max_num _ _ Nm Ni) as [? ->]. split; [done|lia]. }
    destruct Em as [Nm' Em]. destruct (IH m' Hl Nm') as (H1 & H2 & H3 & H4); [|split_and!; [done|done|lia|intros j [->|Hj]%elem_of_cons; [lia|by apply H4]]].
    destruct Hm as (j & Hj & Em'). destruct (Z.le_ge_cases (along m) (along (start_side i))); [exists j|exists i]; (split; [lia|]); rewrite Em; lia. }
  destruct (H (seq from (to - from)) (start_side from)) as (H1 & H2 & _ & H4).
  - apply Forall_forall. intros i Hi%elem_of_seq. lia.
  - apply sides_num. lia.
  - exists from. split; [lia|done].
  - split_and!; [done|done|]. intros i Hi. apply H4. apply elem_of_seq. lia.
Qed.
End leg.
(** A leg and its pullback: an origin nothing in the window is behind, the farthest point after it, and the deepest point since, which
    is as old as asked for and which no later candle reached; the latest candle has come back within a quarter and three quarters. *)
Record pullback_leg (window : list Candle) (buy : bool) (confirm : Z) (ev : impulseEvent) (o e p stop : nat) : Prop := {
  pg_order : (o ≤ e ∧ e ≤ p < stop) ∧ stop < length window ∧ (Z.of_nat stop + Z.max 1 confirm = Z.of_nat (length window))%Z;
  pg_origin : ev_Origin ev = start_side window buy o ∧ ∀ i, i < length window → (along buy (ev_Origin ev) <= along buy (start_side window buy i))%Z;
  pg_extreme : ev_Extreme ev = end_side window buy e ∧
    ∀ i, o ≤ i < length window → (along buy (end_side window buy i) <= along buy (ev_Extreme ev))%Z;
  pg_pullback : along buy (ev_PullbackExtreme ev) = along buy (start_side window buy p) ∧
    (∀ i, e ≤ i < stop → (along buy (ev_PullbackExtreme ev) <= along buy (start_side window buy i))%Z) ∧
    ∀ i, stop ≤ i < length window → (along buy (ev_PullbackExtreme ev) < along buy (start_side window buy i))%Z;
  pg_length : ev_ImpulseLen ev = (if buy then ev_Extreme ev - ev_Origin ev else ev_Origin ev - ev_Extreme ev)%float;
  pg_bodies : let bodies bars := foldl (λ s b, s + abs (c_Close b - c_Open b))%float 0%float bars in
    let ranges bars := foldl (λ s b, s + abs (c_High b - c_Low b))%float 0%float bars in
    let count bars := f64_of_Z (Z.of_nat (length bars)) in
    let impulse := slice window o (S e) in let back := slice window (S e) (length window) in
    ev_MeanImpulseBody ev = (bodies impulse / count impulse)%float ∧ ev_MeanPullbackBody ev = (if count back >? 0 then bodies back / count back else 0)%float ∧
    let range := (ranges impulse / count impulse)%float in
    ev_BodyDominance ev = (if range >? 0 then bodies impulse / count impulse / range else 0)%float;
  pg_latest : let b := at_ window (length window - 1) in let close := c_Close b in ev_BarTime ev = c_Time b ∧
    let r := ((if buy then ev_Extreme ev - close else close - ev_Extreme ev) / ev_ImpulseLen ev)%float in
    (ev_ImpulseLen ev <=? 0)%float = false ∧ (r <? 0.25)%float = false ∧ (r >? 0.75)%float = false ∧
    (if buy then close <=? c_Open b else close >=? c_Open b)%float = false
}.
Lemma sum_over_slice window f from to :
  from ≤ to ≤ length window → sum_over window f from to = foldl (λ s b, s + f b)%float 0%float (slice window from to).
Proof.
  intros H. unfold sum_over, slice. replace to with (from + (to - from)) at 2 by lia. rewrite <- take_drop_commute.
  assert (Hk : from + (to - from) ≤ length window) by lia. revert Hk. generalize (to - from). intros k Hk. clear H to. revert from Hk.
  generalize 0%float. induction k as [|k IH]; intros s0 from Hk; [done|]. cbn [seq foldl].
  destruct (lookup_lt_is_Some_2 window from ltac:(lia)) as [b Eb]. rewrite (drop_S window b from Eb). cbn [take foldl].
  rewrite IH by lia. unfold at_. by rewrite (list_lookup_total_correct _ _ _ Eb).
Qed.
Lemma measured_bodies window buy p len o e :
  o = originI window buy → e = extremeI window buy → o ≤ e < length window →
  let ev := measure_leg window buy p len in
  let bodies bars := foldl (λ s b, s + abs (c_Close b - c_Open b))%float 0%float bars in
  let ranges bars := foldl (λ s b, s + abs (c_High b - c_Low b))%float 0%float bars in
  let count (bars : list Candle) := f64_of_Z (Z.of_nat (length bars)) in
  let impulse := slice window o (S e) in let back := slice window (S e) (length window) in
  ev_MeanImpulseBody ev = (bodies impulse / count impulse)%float ∧ ev_MeanPullbackBody ev = (if count back >? 0 then bodies back / count back else 0)%float ∧
  let range := (ranges impulse / count impulse)%float in
  ev_BodyDominance ev = (if range >? 0 then bodies impulse / count impulse / range else 0)%float.
Proof.
  intros -> -> Hoe. cbv zeta. unfold measure_leg. cbv zeta. cbn [ev_MeanImpulseBody ev_MeanPullbackBody ev_BodyDominance].
  set (o := originI window buy) in *. set (e := extremeI window buy) in *. rewrite !Nat.add_1_r, !sum_over_slice by lia.
  assert (L1 : length (slice window o (S e)) = S (e - o)) by (rewrite length_slice; lia).
  assert (L2 : length (slice window (S e) (length window)) = length window - S e) by (rewrite length_slice; lia).
  rewrite L1, L2. replace (e - o + 1) with (S (e - o)) by lia. split_and!; done.
Qed.
Lemma detect_leg_spec window buy confirm ev : comparable window → detect_leg window buy confirm = Found ev → ∃ o e p stop, pullback_leg window buy confirm ev o e p stop.
Proof.
  intros Hc. unfold detect_leg. cbv zeta.
  destruct (_ <=? 0)%float eqn:El; [done|]. destruct (_ || _) eqn:Er; [done|]. destruct (if buy then _ else _) eqn:Ec; [done|]. destruct (_ <? 0.05)%float; [done|].
  destruct (Z.leb_spec (Z.of_nat (length window) - (if (confirm <? 1)%Z then 1 else confirm)) (Z.of_nat (extremeI window buy))) as [|He]; [done|].
  set (stop := Z.to_nat _) in *. destruct (existsb _ _) eqn:Ex; [done|]. intros [= <-]. apply orb_false_iff in Er as [Er1 Er2].
  assert (Hstop : (Z.of_nat stop + Z.max 1 confirm = Z.of_nat (length window))%Z) by (subst stop; destruct (Z.ltb_spec confirm 1); lia).
  assert (Hes : extremeI window buy < stop ≤ length window) by (destruct (Z.ltb_spec confirm 1); lia).
  destruct (origin_spec window buy Hc ltac:(lia)) as [_ O2]. destruct (extreme_spec window buy Hc ltac:(lia)) as [E1 E2].
  destruct (pullback_extreme_spec window buy Hc _ _ Hes) as (Np & (p & Hp & Ep) & P2). exists (originI window buy), (extremeI window buy), p, stop.
  assert (Hn : stop < length window) by lia.
  split; cbn; [lia|done|done| |done|exact (measured_bodies window buy 0 0 _ _ eq_refl eq_refl ltac:(lia))|done]. split_and!; [done|done|]. intros i Hi. destruct (sides_num window buy Hc i ltac:(lia)) as [Ni _].
  pose proof (existsb_miss _ _ i Ex) as H. cbv beta in H. specialize (H ltac:(apply in_seq; lia)). unfold along. destruct buy; rewrite leb_num in H by done; lia.
Qed.
(** [C16] The pullback the strategy acts on: among the last thirty candles, the leg starts at the lowest low (for a sell, the highest high), ends
    at the highest high after it, and is as long as the distance between the two; the pullback's own extreme is the lowest low since,
    made before as many closed candles as asked for, none of which reached it again; the bodies of the leg and of the pullback are
    averaged over their own candles; the latest candle closes with the leg, between a quarter and three quarters of it back. *)
Theorem impulse_leg_exact bars direction confirm ev :
  comparable (LegacyRead.last_n 30 bars) → detectImpulsePullback bars direction confirm = Found ev →
  8 ≤ length bars ∧ ∃ o e p stop, pullback_leg (LegacyRead.last_n 30 bars) (bool_decide (direction = Market.Buy)) confirm ev o e p stop.
Proof.
  intros Hc. unfold detectImpulsePullback. destruct (Nat.ltb_spec (length bars) 8); [done|]. intros H'. split; [lia|]. by apply detect_leg_spec.
Qed.
Lemma impulse_score_total i : ∃ m, scoreQuality i = Some m ∧ Quality.unit_score (Quality.Overall m).
Proof. unfold scoreQuality. apply (Quality.run_named QualityModel (quality_ops i)); done. Qed.

(** ** The reference, in terms of the zones and the levels *)
Section best.
Context (buy : bool) (extreme m1ATR proximityATR zoneATR : float).
(** How far the extreme is from a zone, and whether a zone or a level of the side is near enough to it. *)
Definition gap (z : Zone) : float :=
  if (z_Bottom z <=? extreme)%float && (extreme <=? z_Top z)%float then 0%float
  else math_Min (abs (extreme - z_Bottom z)) (abs (extreme - z_Top z)).
Record zone_fits (z : Zone) : Prop := {
  zf_side : z_Side z = if buy then "demand" else "supply";
  zf_fresh : z_Mitigated z = false;
  zf_band : (z_Bottom z <? z_Top z)%float = true;
  zf_placed : (if buy then z_Bottom z <=? extreme else extreme <=? z_Top z)%float = true;
  zf_near : (gap z >? math_Max 0 (proximityATR * m1ATR))%float = false
}.
Definition level_fits (l : Level) : Prop :=
  let reach := math_Max 0 (proximityATR * m1ATR) in
  (abs (l_Price l - extreme) >? reach + math_Max 0 (l_Band l))%float = false ∧
  (if buy then l_Price l >? extreme + reach else l_Price l <? extreme - reach)%float = false.
(** The best zone: of highest score, then most touched, then nearest; without a zone the nearest level, the most touched of equals. *)
Inductive best_reference (zones : list Zone) (levels : list Level) : reference → Prop :=
  | best_zone z :
      z ∈ zones → zone_fits z →
      (∀ z', z' ∈ zones → zone_fits z' →
        (key (z_Score z') < key (z_Score z))%Z ∨ key (z_Score z') = key (z_Score z) ∧
          ((z_Touches z' < z_Touches z)%Z ∨ z_Touches z' = z_Touches z ∧ (key (gap z) <= key (gap z'))%Z)) →
      (z_Top z - z_Bottom z >? zoneATR * m1ATR)%float = false →
      best_reference zones levels
        (mkReference true (z_Bottom z) (z_Top z) (if buy then z_Bottom z else z_Top z) 0 "" (gap z) (z_Score z) (z_Touches z))
  | best_level l :
      (∀ z, z ∈ zones → ¬ zone_fits z) → l ∈ levels → level_fits l →
      ((∀ l', l' ∈ levels → finite (l_Price l') = true) → ∀ l', l' ∈ levels → level_fits l' →
        let d := key (abs (l_Price l - extreme)) in let d' := key (abs (l_Price l' - extreme)) in
        (d < d')%Z ∨ d = d' ∧ (l_Touches l' <= l_Touches l)%Z) →
      best_reference zones levels
        (mkReference false (l_Price l) (l_Price l) (l_Price l) (math_Max 0 (l_Band l)) (l_Kind l) (abs (l_Price l - extreme)) 0 (l_Touches l)).
End best.
Lemma pick_spec (better : reference → reference → bool) (good : reference → Prop) l r :
  (∀ a b, good a → good b → better a b = true → better b a = false) →
  (∀ a b c, good a → good b → good c → better b a = false → better c b = false → better c a = false) →
  (∀ a, good a → better a a = false) →
  Forall good l → pick better l = Some r → r ∈ l ∧ ∀ x, x ∈ l → better x r = false.
Proof.
  intros Ha Ht Hi Hl. destruct l as [|c l]; [done|]. unfold pick. cbn [foldl].
  assert (E : ∀ l b, foldl (λ best c, match best with None => Some c | Some b => if better c b then Some c else best end) (Some b) l =
    Some (foldl (λ b c, if better c b then c else b) b l)).
  { clear. intros l. induction l as [|x l' IH]; intros b; cbn [foldl]; [done|]. destruct (better x b); apply IH. }
  rewrite E. intros [= <-]. apply Forall_cons in Hl as [Hc Hl].
  destruct (foldl_least (λ a b, better b a = false) better (λ c, c) l c good) as (_ & H1 & H2 & H3); [intros; by apply Hi|intros; by apply Ha|done|intros a b x; intros; by apply (Ht a b x)|done|done|].
  cbv beta in *. rewrite map_id in H3. split; [destruct H3 as [->|H3]; [by left|by right]|].
  intros x [->|Hx]%elem_of_cons; [done|]. rewrite Forall_forall in H2. by apply H2.
Qed.
Lemma pick_None better l : pick better l = None → l = [].
Proof.
  destruct l as [|c l]; [done|]. unfold pick. cbn [foldl]. intros H. exfalso. revert c H.
  induction l as [|x l IH]; intros c; cbn [foldl]; [done|]. destruct (better x c); apply IH.
Qed.
(** Zones and a pullback extreme that are numbers. *)
Definition finite_zone (z : Zone) : Prop := finite (z_Bottom z) = true ∧ finite (z_Top z) = true ∧ IsNaN (z_Score z) = false.
Section best_reference.
Context (cfg : Config) (buy : bool) (extreme m1 : float) (zones : list Zone) (levels : list Level).
Hypothesis Fe : finite extreme = true.
Hypothesis Fz : Forall finite_zone zones.
Lemma gap_num z : finite_zone z → IsNaN (gap extreme z) = false.
Proof.
  intros (Fb & Ft & _). unfold gap. destruct (_ && _); [done|]. apply math_Min_num; rewrite IsNaN_abs; by apply sub_not_nan.
Qed.
Lemma zone_near_spec z : finite_zone z → zone_near cfg buy extreme m1 z = true ↔ zone_fits buy extreme m1 (LevelProximityATR cfg) z.
Proof.
  intros Hz. pose proof Hz as (Fb & Ft & _). apply finite_not_nan in Fb, Ft. pose proof (finite_not_nan _ Fe) as Ne. unfold zone_near.
  rewrite !andb_true_iff, !negb_true_iff, bool_decide_eq_true. change (zone_distance extreme z) with (gap extreme z).
  assert (E : (z_Top z <=? z_Bottom z)%float = false ↔ (z_Bottom z <? z_Top z)%float = true) by (rewrite leb_num, ltb_num by done; lia).
  assert (E' : (if buy then z_Bottom z >? extreme else z_Top z <? extreme)%float = false ↔
    (if buy then z_Bottom z <=? extreme else extreme <=? z_Top z)%float = true) by (destruct buy; rewrite leb_num, ltb_num by done; lia).
  rewrite E, E'. split; [intros ((((? & ?) & ?) & ?) & ?); by split|by intros []].
Qed.
Definition fit_zones : list Zone := List.filter (zone_near cfg buy extreme m1) zones.
Lemma fit_zones_spec z : z ∈ fit_zones ↔ z ∈ zones ∧ zone_fits buy extreme m1 (LevelProximityATR cfg) z.
Proof.
  rewrite Forall_forall in Fz. unfold fit_zones. rewrite in_filter. split; intros [Hz H]; (split; [done|]); [apply zone_near_spec|apply zone_near_spec]; auto.
Qed.
Lemma zone_better_spec z z' : finite_zone z → finite_zone z' →
  zone_better (zone_reference buy extreme z') (zone_reference buy extreme z) = false ↔
  (key (z_Score z') < key (z_Score z))%Z ∨ key (z_Score z') = key (z_Score z) ∧
    ((z_Touches z' < z_Touches z)%Z ∨ z_Touches z' = z_Touches z ∧ (key (gap extreme z) <= key (gap extreme z'))%Z).
Proof.
  intros Hz Hz'. pose proof (gap_num z Hz) as Ng. pose proof (gap_num z' Hz') as Ng'. destruct Hz as (_ & _ & Ns), Hz' as (_ & _ & Ns').
  unfold zone_better, zone_reference. cbn [rf_Score rf_Touches rf_Distance]. change (zone_distance extreme z) with (gap extreme z).
  change (zone_distance extreme z') with (gap extreme z'). rewrite !ltb_num, eqb_num by done. lia.
Qed.
Lemma best_of_zones r :
  pick zone_better (map (zone_reference buy extreme) fit_zones) = Some r →
  ∃ z, r = zone_reference buy extreme z ∧ z ∈ fit_zones ∧ ∀ z', z' ∈ fit_zones →
    zone_better (zone_reference buy extreme z') (zone_reference buy extreme z) = false.
Proof.
  assert (Hg : ∀ z, z ∈ fit_zones → finite_zone z) by (intros z [Hz _]%fit_zones_spec; by eapply Forall_forall in Fz).
  intros H. eapply (pick_spec zone_better (λ r, ∃ z, finite_zone z ∧ r = zone_reference buy extreme z)) in H as [Hin H].
  - apply list_elem_of_fmap in Hin as (z & -> & Hz). exists z. split_and!; [done..|]. intros z' Hz'. apply H. by apply list_elem_of_fmap_2.
  - intros ? ? (a & Ha & ->) (b & Hb & ->) E. apply zone_better_spec; [done..|]. apply not_false_iff_true in E. rewrite zone_better_spec in E by done. lia.
  - intros ? ? ? (a & Ha & ->) (b & Hb & ->) (c & Hc & ->). rewrite !zone_better_spec by done. lia.
  - intros ? (a & Ha & ->). apply zone_better_spec; [done..|]. lia.
  - apply Forall_forall. intros ? (z & -> & Hz)%list_elem_of_fmap. exists z. auto.
Qed.
Lemma level_better_spec l l' : finite (l_Price l) = true → finite (l_Price l') = true →
  level_better (level_reference extreme l') (level_reference extreme l) = false ↔
  (key (abs (l_Price l - extreme)) < key (abs (l_Price l' - extreme)))%Z ∨
    key (abs (l_Price l - extreme)) = key (abs (l_Price l' - extreme)) ∧ (l_Touches l' <= l_Touches l)%Z.
Proof.
  intros Hl Hl'. assert (N : ∀ l, finite (l_Price l) = true → IsNaN (abs (l_Price l - extreme)) = false) by (intros; rewrite IsNaN_abs; by apply sub_not_nan).
  pose proof (N l Hl). pose proof (N l' Hl'). unfold level_better, level_reference. cbn [rf_Distance rf_Touches]. rewrite ltb_num, eqb_num by done. lia.
Qed.
Lemma pick_member better l r : pick better l = Some r → r ∈ l.
Proof.
  unfold pick. assert (H : ∀ l (best : option reference), foldl (λ best c, match best with None => Some c | Some b => if better c b then Some c else best end) best l = Some r →
    best = Some r ∨ r ∈ l).
  { clear. intros l. induction l as [|c l' IH]; intros best; cbn [foldl]; [by left|]. intros [E|E]%IH; [|right; by right].
    destruct best as [b|]; [destruct (better c b)|]; [injection E as ->; right; by left|by left|injection E as ->; right; by left]. }
  intros [?|?]%H; done.
Qed.
Lemma best_of_levels r :
  pick level_better (map (level_reference extreme) (List.filter (level_near cfg buy extreme m1) levels)) = Some r →
  ∃ l, r = level_reference extreme l ∧ l ∈ levels ∧ level_fits buy extreme m1 (LevelProximityATR cfg) l ∧
  ((∀ l', l' ∈ levels → finite (l_Price l') = true) → ∀ l', l' ∈ levels → level_fits buy extreme m1 (LevelProximityATR cfg) l' →
    let d := key (abs (l_Price l - extreme)) in let d' := key (abs (l_Price l' - extreme)) in
    (d < d')%Z ∨ d = d' ∧ (l_Touches l' <= l_Touches l)%Z).
Proof.
  intros H. pose proof (pick_member _ _ _ H) as Hin. apply list_elem_of_fmap in Hin as (l & -> & [Hl Hn]%in_filter).
  assert (Hnf : ∀ l, level_near cfg buy extreme m1 l = true ↔ level_fits buy extreme m1 (LevelProximityATR cfg) l).
  { intros x. unfold level_near. by rewrite andb_true_iff, !negb_true_iff. }
  exists l. split_and!; [done..|by apply Hnf|]. intros Hfin l' Hl' Hf'. cbv zeta. apply level_better_spec; [auto..|].
  apply (pick_spec level_better (λ r, ∃ l, finite (l_Price l) = true ∧ r = level_reference extreme l)) in H as [_ H].
  - apply H. apply list_elem_of_fmap_2. apply in_filter. split; [done|by apply Hnf].
  - intros ? ? (a & Ha & ->) (b & Hb & ->) E. apply level_better_spec; [done..|]. apply not_false_iff_true in E. rewrite level_better_spec in E by done. lia.
  - intros ? ? ? (a & Ha & ->) (b & Hb & ->) (c & Hc & ->). rewrite !level_better_spec by done. lia.
  - intros ? (a & Ha & ->). apply level_better_spec; [done..|]. lia.
  - apply Forall_forall. intros ? (x & -> & [Hx _]%in_filter)%list_elem_of_fmap. exists x. auto.
Qed.
Lemma impulseReference_spec r :
  impulseReference cfg buy extreme m1 zones levels = Some (Some r) →
  best_reference buy extreme m1 (LevelProximityATR cfg) (ZoneMaximumATR cfg) zones levels r.
Proof.
  unfold impulseReference. fold fit_zones. destruct (pick zone_better _) as [best|] eqn:Ez.
  - apply best_of_zones in Ez as (z & -> & [Hz Hf]%fit_zones_spec & Hbest). destruct (_ >? _)%float eqn:Ew; [done|]. intros [= <-].
    apply best_zone; [done..| |exact Ew]. intros z' Hz' Hf'. pose proof Fz as Fz'. rewrite Forall_forall in Fz'.
    apply zone_better_spec; [auto..|]. apply Hbest. by apply fit_zones_spec.
  - destruct (pick level_better _) as [best|] eqn:El; [|done]. intros [= ->].
    apply best_of_levels in El as (l & -> & Hl & Hf & Hbest). apply best_level; [|done..].
    intros z Hz Hfz. apply pick_None in Ez. assert (Hin : z ∈ fit_zones) by by apply fit_zones_spec.
    apply (list_elem_of_fmap_2 (zone_reference buy extreme)) in Hin. change map with (@fmap list _) in Ez. rewrite Ez in Hin. by apply not_elem_of_nil in Hin.
Qed.
End best_reference.
(** ** Finite candles give finite zones and extremes *)
Definition finite_bars (bars : list Candle) : Prop := ∀ b, b ∈ bars → finite (c_High b) = true ∧ finite (c_Low b) = true.
Lemma foldl_finite {A} (f : float → A → float) l x :
  (∀ m a, a ∈ l → finite m = true → finite (f m a) = true) → finite x = true → finite (foldl f x l) = true.
Proof.
  revert x. induction l as [|a l IH]; intros x Hf Hx; cbn [foldl]; [done|]. apply IH; [intros; apply Hf; [by right|done]|]. apply Hf; [by left|done].
Qed.
Lemma band_finite bars : finite_bars bars → finite (band_of bars).1 = true ∧ finite (band_of bars).2 = true.
Proof.
  intros H. destruct bars as [|b bars]; [done|]. unfold band_of. cbn [fst snd]. destruct (H b (list_elem_of_here _ _)).
  split; apply foldl_finite; try done; intros m a Ha Hm; destruct (H a Ha); auto with float.
Qed.
Lemma slice_incl {A} (l : list A) a b x : x ∈ slice l a b → x ∈ l.
Proof. unfold slice. by intros ?%subseteq_drop%subseteq_take. Qed.
Lemma scalp_zones_finite cfg m5 levels zones :
  finite_bars m5 → scalpStructure cfg m5 = Some (levels, zones) → Forall finite_zone zones.
Proof.
  intros Hf. unfold scalpStructure. destruct (_ <? 0)%Z; [done|]. intros [= _ <-]. apply Forall_forall. intros z Hz.
  unfold MarkMitigation in Hz. apply list_elem_of_fmap in Hz as (z0 & -> & Hz). unfold SupplyDemand in Hz.
  apply list_elem_of_omap in Hz as (leg & _ & Hz). unfold supply_demand_of in Hz. destruct (_ =? 0); [done|].
  destruct (band_of (slice m5 _ _)) as [lo hi] eqn:Eb. injection Hz as <-.
  destruct (band_finite (slice m5 (lg_Start leg - 3) (lg_Start leg))) as [F1 F2]; [intros b Hb; apply Hf; by eapply slice_incl|].
  rewrite Eb in F1, F2. cbn in F1, F2. unfold finite_zone, mitigate, set_touches, set_break, newZone. by destruct (lo >? hi)%float.
Qed.
Lemma last_n_incl {A} n (l : list A) x : x ∈ LegacyRead.last_n n l → x ∈ l.
Proof. unfold LegacyRead.last_n. destruct (_ && _); [|done]. by intros ?%subseteq_drop. Qed.
Lemma setup_window_finite cfg m5 now : finite_bars m5 → finite_bars (setup_window cfg m5 now).
Proof. intros H b Hb%last_n_incl. apply H. by apply subseteq_take in Hb. Qed.
Lemma detected_extreme_finite m5 direction confirm ev :
  finite_bars m5 → detectImpulsePullback m5 direction confirm = Found ev → finite (ev_PullbackExtreme ev) = true.
Proof.
  intros Hf. unfold detectImpulsePullback. destruct (Nat.ltb_spec (length m5) 8) as [|Hlen]; [done|]. set (w := LegacyRead.last_n 30 m5).
  assert (Hw : finite_bars w) by (intros b Hb%last_n_incl; by apply Hf). clearbody w. set (buy := bool_decide _). clearbody buy.
  assert (Hs : ∀ i, i < length w → finite (start_side w buy i) = true).
  { intros i Hi. unfold start_side, at_. destruct (Hw (w !!! i)); [by apply list_elem_of_lookup_total_2|]. by destruct buy. }
  unfold detect_leg. cbv zeta. destruct (_ <=? 0)%float; [done|]. destruct (_ || _); [done|]. destruct (if buy then _ else _); [done|].
  destruct (_ <? 0.05)%float; [done|]. destruct (Z.leb_spec (Z.of_nat (length w) - (if (confirm <? 1)%Z then 1 else confirm)) (Z.of_nat (extremeI w buy))) as [|He]; [done|].
  destruct (existsb _ _); [done|]. intros [= <-]. cbn [measure_leg ev_PullbackExtreme].
  assert (Hl : (1 <= if (confirm <? 1)%Z then 1 else confirm)%Z) by (destruct (Z.ltb_spec confirm 1); lia).
  unfold pullback_extreme. apply foldl_finite; [|apply Hs; lia].
  intros m i Hi%elem_of_seq Hm. pose proof (Hs i ltac:(lia)). destruct buy; auto with float.
Qed.

(** What an opportunity of an impulse stands for. *)
Record pullback_of (u : Unicode) (s : Strategy) (c : ScalpContext_) (m5 m1 : list Candle) (levels : list Level) (zones : list Zone) (direction : string)
    (p : plan) (cand : Opportunity.Candidate) : Prop := {
  po_sound : Opportunity.candidate_sound cand;
  po_leg : let ev := pn_Event p in let cfg := st_cfg s in
    detectImpulsePullback m5 direction (PullbackExtremeConfirmBars cfg) = Found ev ∧
    (ev_ImpulseLen ev / math_Max (cx_ATR c) (PipSize cfg * 3) <? ImpulseDisplacementATR cfg)%float = false ∧
    (ev_BodyDominance ev <? ImpulseBodyDominance cfg)%float = false ∧ (ev_MeanImpulseBody ev <=? 0)%float = false ∧
    (ev_MeanPullbackBody ev >=? ev_MeanImpulseBody ev * PullbackCorrectiveRatio cfg)%float = false;
  po_reference : best_reference (bool_decide (direction = Market.Buy)) (ev_PullbackExtreme (pn_Event p)) (math_Max (cx_M1ATR c) (PipSize (st_cfg s) * 3))
    (LevelProximityATR (st_cfg s)) (ZoneMaximumATR (st_cfg s)) zones levels (pn_Reference p);
  po_role : let ref := pn_Reference p in let own := if bool_decide (direction = Market.Sell) then "resistance" else "support" in
    (if rf_Zone ref then KeyLevel.Role u own (rf_Bottom ref) (rf_Top ref) (map c_Close m5) (BreakoutAcceptBars (st_cfg s))
     else KeyLevel.Role u (if explicitRole u (rf_RawKind ref) then rf_RawKind ref else own) (rf_Level ref - rf_Band ref)%float
       (rf_Level ref + rf_Band ref)%float (map c_Close m5) (BreakoutAcceptBars (st_cfg s))) =
    if bool_decide (direction = Market.Buy) then KeyLevel.RoleSupport else KeyLevel.RoleResistance;
  po_confirm : ConfirmM1Execution m1 direction (rf_Level (pn_Reference p)) (buffer s c) (ConfirmationLookbackBars (st_cfg s)) = Some (pn_Confirm p) ∧
    Opportunity.ca_Direction cand = direction ∧ Opportunity.ca_FormedAt cand = ev_BarTime (pn_Event p) ∧ Opportunity.ca_CreatedAt cand = mc_Time (pn_Confirm p);
  po_book : let cfg := st_cfg s in let ref := pn_Reference p in let extreme := ev_PullbackExtreme (pn_Event p) in let level := rf_Level ref in
    ∃ low high noise deeper, Opportunity.ca_Entry cand = Opportunity.mkEntryZone low high ∧
      let band := math_Max (cx_M1ATR c * BufferM1ATRMultiple cfg) (PipSize cfg * MaximumSpreadPips cfg * BufferMinSpreadMultiple cfg) in
      (if rf_Zone ref then low = rf_Bottom ref ∧ high = rf_Top ref
       else if bool_decide (direction = Market.Buy) then low = level ∧ high = (level + band)%float else low = (level - band)%float ∧ high = level) ∧
      noise = math_Max (BufferM5ATRMultiple cfg * cx_ATR c) (BufferMinSpreadMultiple cfg * MaximumSpreadPips cfg * PipSize cfg) ∧
      let book worst structural room := scalp_book direction worst structural (StopMinimumPips cfg) (StopMaximumPips cfg) room
        (MinimumNetTargetPips cfg) (PipSize cfg) (RewardRiskLadder cfg) cand in
      if bool_decide (direction = Market.Buy)
      then key deeper = Z.min (key level) (key extreme) ∧ book high ((high - (deeper - noise)) / PipSize cfg)%float (cx_BuyRoomPips c)
      else key deeper = Z.max (key level) (key extreme) ∧ book low ((deeper + noise - low) / PipSize cfg)%float (cx_SellRoomPips c);
  po_quality : Quality.unit_score (Opportunity.q_Overall (Opportunity.ca_Quality cand))
}.
Lemma side_plan_spec u s c m5 m1 levels zones position direction p : side_plan u s c m5 m1 levels zones position direction = Some p →
  let ref := pn_Reference p in
  out_of_place s position direction = false ∧ detectImpulsePullback m5 direction (PullbackExtremeConfirmBars (st_cfg s)) = Found (pn_Event p) ∧
  leg_weak s c (pn_Event p) = false ∧
  impulseReference (st_cfg s) (bool_decide (direction = Market.Buy)) (ev_PullbackExtreme (pn_Event p)) (m1ATR s c) zones levels = Some (Some ref) ∧
  ConfirmM1Execution m1 direction (rf_Level ref) (buffer s c) (ConfirmationLookbackBars (st_cfg s)) = Some (pn_Confirm p) ∧
  levelRole u s ref direction (map c_Close m5) = expectedRole direction ∧ (pn_Low p, pn_High p) = entry_zone s c direction ref ∧
  (pn_Worst p, pn_Structural p, pn_Room p) = exposure s c direction (pn_Event p) ref.
Proof.
  unfold side_plan. destruct (out_of_place _ _ _); [done|]. destruct (detectImpulsePullback _ _ _) as [| |ev] eqn:Ed; [done..|].
  destruct (leg_weak _ _ _) eqn:Ew; [done|]. destruct (impulseReference _ _ _ _ _ _) as [[ref|]|] eqn:Er; [|done..].
  destruct (ConfirmM1Execution _ _ _ _ _) as [confirm|] eqn:Ec; cbn [mbind option_bind]; [|done]. destruct (bool_decide (levelRole _ _ _ _ _ = _)) eqn:El; cbn [negb]; [|done].
  apply bool_decide_eq_true in El. destruct (entry_zone _ _ _ _) as [low high] eqn:Ez. destruct (exposure _ _ _ _ _) as [[worst structural] room] eqn:Ee.
  intros [= <-]. done.
Qed.
(** The stop the book is opened with. *)
Lemma exposure_spec s c direction ev ref low high :
  (direction = Market.Buy ∨ direction = Market.Sell) → entry_zone s c direction ref = (low, high) →
  exposure s c direction ev ref =
    let cfg := st_cfg s in
    let noise := math_Max (BufferM5ATRMultiple cfg * cx_ATR c) (BufferMinSpreadMultiple cfg * MaximumSpreadPips cfg * PipSize cfg) in
    if bool_decide (direction = Market.Buy)
    then (high, ((high - (math_Min (rf_Level ref) (ev_PullbackExtreme ev) - noise)) / PipSize cfg)%float, cx_BuyRoomPips c)
    else (low, ((math_Max (rf_Level ref) (ev_PullbackExtreme ev) + noise - low) / PipSize cfg)%float, cx_SellRoomPips c).
Proof. intros Hd Ez. unfold exposure, stopBuffer. rewrite Ez. by destruct Hd as [-> | ->]. Qed.
Lemma entry_edge s c direction ref low high :
  (direction = Market.Buy ∨ direction = Market.Sell) → entry_zone s c direction ref = (low, high) →
  (rf_Zone ref = true → rf_Level ref = if bool_decide (direction = Market.Buy) then rf_Bottom ref else rf_Top ref) →
  rf_Level ref = if bool_decide (direction = Market.Buy) then low else high.
Proof.
  intros Hd. unfold entry_zone. destruct (rf_Zone ref); [intros [= <- <-] H; by apply H|]. intros E _.
  by destruct Hd as [-> | ->]; injection E as <- <-.
Qed.
Lemma best_edge buy extreme m1 pATR zATR zones levels ref :
  best_reference buy extreme m1 pATR zATR zones levels ref → rf_Zone ref = true → rf_Level ref = if buy then rf_Bottom ref else rf_Top ref.
Proof. by intros []. Qed.
Lemma entry_of s c direction ref low high :
  (direction = Market.Buy ∨ direction = Market.Sell) → (low, high) = entry_zone s c direction ref →
  let cfg := st_cfg s in let level := rf_Level ref in
  let band := math_Max (cx_M1ATR c * BufferM1ATRMultiple cfg) (PipSize cfg * MaximumSpreadPips cfg * BufferMinSpreadMultiple cfg) in
  if rf_Zone ref then low = rf_Bottom ref ∧ high = rf_Top ref
  else if bool_decide (direction = Market.Buy) then low = level ∧ high = (level + band)%float else low = (level - band)%float ∧ high = level.
Proof.
  intros Hd. unfold entry_zone, buffer, ScalpBuffer. cbv zeta. destruct (rf_Zone ref); [by intros [= -> ->]|].
  by destruct Hd as [-> | ->]; intros [= -> ->].
Qed.
Lemma role_of u s ref direction closes :
  (direction = Market.Buy ∨ direction = Market.Sell) → levelRole u s ref direction closes = expectedRole direction →
  let own := if bool_decide (direction = Market.Sell) then "resistance" else "support" in
  (if rf_Zone ref then KeyLevel.Role u own (rf_Bottom ref) (rf_Top ref) closes (BreakoutAcceptBars (st_cfg s))
   else KeyLevel.Role u (if explicitRole u (rf_RawKind ref) then rf_RawKind ref else own) (rf_Level ref - rf_Band ref)%float
     (rf_Level ref + rf_Band ref)%float closes (BreakoutAcceptBars (st_cfg s))) =
  if bool_decide (direction = Market.Buy) then KeyLevel.RoleSupport else KeyLevel.RoleResistance.
Proof. done. Qed.
(** What the book of a plan is opened with, in the prices of the candidate. *)
Lemma plan_book s c direction ev ref low high worst structural room cand :
  (direction = Market.Buy ∨ direction = Market.Sell) → finite (ev_PullbackExtreme ev) = true → Opportunity.candidate_sound cand →
  Opportunity.ca_Entry cand = Opportunity.mkEntryZone low high → entry_zone s c direction ref = (low, high) →
  (rf_Zone ref = true → rf_Level ref = if bool_decide (direction = Market.Buy) then rf_Bottom ref else rf_Top ref) →
  exposure s c direction ev ref = (worst, structural, room) →
  let cfg := st_cfg s in let noise := math_Max (BufferM5ATRMultiple cfg * cx_ATR c) (BufferMinSpreadMultiple cfg * MaximumSpreadPips cfg * PipSize cfg) in
  ∃ deeper, if bool_decide (direction = Market.Buy)
    then key deeper = Z.min (key (rf_Level ref)) (key (ev_PullbackExtreme ev)) ∧ worst = high ∧
      structural = ((high - (deeper - noise)) / PipSize cfg)%float ∧ room = cx_BuyRoomPips c
    else key deeper = Z.max (key (rf_Level ref)) (key (ev_PullbackExtreme ev)) ∧ worst = low ∧
      structural = ((deeper + noise - low) / PipSize cfg)%float ∧ room = cx_SellRoomPips c.
Proof.
  intros Hd Fe Hs Hentry Ez Hl Ex cfg noise. rewrite (exposure_spec s c direction ev ref low high Hd Ez) in Ex. cbv zeta in Ex.
  assert (Fl : finite (rf_Level ref) = true).
  { rewrite (entry_edge s c direction ref low high Hd Ez Hl). destruct (Opportunity.cs_entry _ Hs) as (F1 & F2 & _). rewrite Hentry in F1, F2.
    by destruct (bool_decide _). }
  destruct (bool_decide (direction = Market.Buy)); injection Ex as <- <- <-;
    eexists; (split_and!; [|done..]); [by apply math_Min_key|by apply math_Max_key].
Qed.
Lemma impulse_side_total u hash s c m5 m1 levels zones position direction symbol :
  (direction = Market.Buy ∨ direction = Market.Sell) →
  ∃ cs, evaluate_side u hash s c m5 m1 levels zones position direction symbol = Some cs ∧ length cs ≤ 1 ∧
  (finite_bars m5 → Forall finite_zone zones → ∀ cand, cand ∈ cs → ∃ p, pullback_of u s c m5 m1 levels zones direction p cand).
Proof.
  intros Hdir. unfold evaluate_side. destruct (side_plan _ _ _ _ _ _ _ _ _) as [p|] eqn:Ep.
  2:{ exists []. split_and!; [done|cbn; lia|]. by intros _ _ ? ?%not_elem_of_nil. }
  destruct (side_plan_spec _ _ _ _ _ _ _ _ _ _ Ep) as (_ & Hd & Hw & Hr & Hconf & Hl & Hz & He).
  assert (H : ∃ r, plan_candidate hash s c direction symbol p = Some r ∧
    (finite_bars m5 → Forall finite_zone zones → ∀ cand, r = Some cand → pullback_of u s c m5 m1 levels zones direction p cand)).
  { unfold plan_candidate. cbv zeta. destruct (ScalpStopPips _ _ _) as [stop|] eqn:Est; [|by exists None]. destruct (RangeScalp.misplaced _ _ _ _); [by exists None|].
    destruct (ScalpTarget _ _ _ _ _ _ _) as [[price pips]|] eqn:Et; [|by exists None]. destruct (pips >? _)%float; [by exists None|].
    match goal with |- context [scoreQuality ?i] => destruct (impulse_score_total i) as (m & -> & Hm) end.
    cbn [mbind option_bind]. eexists. split; [done|]. intros Hb5 Hbz cand. destruct (TechniqueCandidate.Candidate _ _) as [c0|] eqn:Ec; [|done]. intros [= <-].
    pose proof (scalp_book_built _ _ _ _ _ _ _ _ _ _ _ _ _ _ Est Et Ec eq_refl eq_refl) as Hb.
    destruct (TechniqueCandidate.candidate_spec _ _ _ Ec) as (C1 & C2 & C3 & C4 & C5 & C6 & C7 & _). destruct (TechniqueCandidate.candidate_target _ _ _ Ec) as [_ C9].
    pose proof (detected_extreme_finite _ _ _ _ Hb5 Hd) as Fe. apply (impulseReference_spec _ _ _ _ _ _ Fe Hbz) in Hr.
    pose proof (plan_book s c direction _ _ _ _ _ _ _ c0 Hdir Fe C1 C4 (eq_sym Hz) (best_edge _ _ _ _ _ _ _ _ Hr) (eq_sym He)) as (deeper & Hdeep).
    split; [done| |done|by apply role_of|by rewrite C2, C6, C7| |by rewrite C9].
    - unfold leg_weak in Hw. rewrite !orb_false_iff in Hw. destruct Hw as (((? & ?) & ?) & ?). done.
    - exists (pn_Low p), (pn_High p), (stopBuffer s c), deeper. split; [done|]. split; [by apply entry_of|]. split; [done|].
      destruct (bool_decide (direction = Market.Buy)); destruct Hdeep as (K & Ew & Es & Er); (split; [exact K|]); rewrite Ew, Es, Er in Hb; exact Hb. }
  destruct H as (r & -> & Hc). cbn [mbind option_bind]. exists (option_list r). split_and!; [done|destruct r; cbn; lia|].
  intros Hb5 Hbz cand Hcand. exists p. destruct r as [c'|]; [|by apply not_elem_of_nil in Hcand]. apply list_elem_of_singleton in Hcand as ->. by apply Hc.
Qed.
(** [C15] With a fractal width that is not negative the strategy never panics, and publishes at most one opportunity per side. Over candles
    of finite prices each satisfies the candidate contract and stands on a leg as strong as asked for; on the best reference of the
    side near the pullback's extreme: the zone of highest score, then most touched, then nearest, if it is not too wide, and the
    nearest level when no zone is near; whose role the closed candles have kept; and on a one-minute confirmation there. Its stop is
    measured from the far edge of the entry to the noise of the setup candles beyond the deeper of the reference and the extreme,
    within the book, and its target is the first rung of the ladder within the room. *)
Theorem impulse_pullback_sound u hash s ctx : (0 <= SwingFractalN (st_cfg s))%Z →
  ∃ cs, Evaluate u hash s ctx = Some cs ∧ length cs ≤ 2 ∧
  ((∀ f, sx_Frames ctx !! tf_M5 = Some f → finite_bars (sf_Candles f)) →
  ∀ cand, cand ∈ cs → ∃ m5tf m1tf latest c levels zones direction p, let cfg := st_cfg s in let m5 := setup_window cfg (sf_Candles m5tf) (c_Time latest) in
    sx_Frames ctx !! tf_M5 = Some m5tf ∧ sx_Frames ctx !! tf_M1 = Some m1tf ∧ last (sf_Candles m1tf) = Some latest ∧ allowsSymbol s (sx_Symbol ctx) = true ∧
    BuildScalpContext (context_config cfg) m5 (sf_Candles m1tf) (c_Time latest) = Some c ∧ scalpStructure cfg m5 = Some (levels, zones) ∧
    (direction = Market.Buy ∨ direction = Market.Sell) ∧
    pullback_of u s c m5 (confirmation_window cfg (sf_Candles m1tf)) levels zones direction p cand).
Proof.
  intros Hn. assert (Hnil : ∀ P : Prop, ∃ cs : list Opportunity.Candidate, Some [] = Some cs ∧ length cs ≤ 2 ∧ (P → ∀ c, c ∈ cs → False)).
  { intros P. exists []. split_and!; [done|cbn; lia|]. by intros _ c ?%not_elem_of_nil. }
  unfold Evaluate. destruct (allowsSymbol _ _) eqn:Ea; cbn [negb]; [|naive_solver]. destruct (sx_Frames ctx !! tf_M5) as [m5tf|]; [|naive_solver].
  destruct (sx_Frames ctx !! tf_M1) as [m1tf|]; [|naive_solver]. destruct (last (sf_Candles m1tf)) as [latest|] eqn:El; [|naive_solver]. cbv zeta.
  destruct (_ =? 0); [naive_solver|]. destruct (BuildScalpContext _ _ _ _) as [c|] eqn:Ec; [|naive_solver].
  destruct (scalpStructure _ _) as [[levels zones]|] eqn:Es; [|unfold scalpStructure in Es; destruct (Z.ltb_spec (SwingFractalN (st_cfg s)) 0); [lia|done]].
  cbn [mbind option_bind].
  match goal with |- context [evaluate_side u hash s c ?m5 ?m1 levels zones ?pos Market.Buy ?sym] =>
    destruct (impulse_side_total u hash s c m5 m1 levels zones pos Market.Buy sym ltac:(by left)) as (buys & -> & L1 & H1);
    destruct (impulse_side_total u hash s c m5 m1 levels zones pos Market.Sell sym ltac:(by right)) as (sells & -> & L2 & H2) end.
  cbn [mbind option_bind]. exists (buys ++ sells). split; [done|]. split; [rewrite length_app; lia|].
  intros Hfin. specialize (Hfin m5tf eq_refl). apply (setup_window_finite (st_cfg s) _ (c_Time latest)) in Hfin.
  pose proof (scalp_zones_finite _ _ _ _ Hfin Es) as Hz.
  intros cand [Hc|Hc]%elem_of_app; [destruct (H1 Hfin Hz cand Hc) as [p Hp]; exists m5tf, m1tf, latest, c, levels, zones, Market.Buy, p
    |destruct (H2 Hfin Hz cand Hc) as [p Hp]; exists m5tf, m1tf, latest, c, levels, zones, Market.Sell, p]; (split_and!; [done..| |done]); first [by left|by right].
Qed.

(** A leg of five candles, its pullback to the swing low it leaves, and the minute that closes away from it. *)
Definition demo_config : Config :=
  mkConfig [] 0.125 20 20 10 2 600 5 12 1 2 30 1 0 1 5 1 0.5 0.9 1 0.5 1 1 4 40 2 1 1 0.25 0 1 1 0.5 [2; 1]%float.
Definition demo_leg : list Candle :=
  [mkCandle 0 100.25 100.5 100 100.125 1; mkCandle 300 100.125 100.5 99.5 99.75 1; mkCandle 600 99.75 100.25 99 100.125 1;
   mkCandle 900 100.125 102.125 100 102 1; mkCandle 1200 102 104.125 101.875 104 1; mkCandle 1500 104 106.125 103.875 106 1;
   mkCandle 1800 106 108 105.875 107.875 1; mkCandle 2100 107.875 107.9375 105.875 106 1; mkCandle 2400 106 106.125 104 104.5 1;
   mkCandle 2700 104.5 105 104.25 104.875 1; mkCandle 3000 104.875 105.5 104.5 105.25 1].
Definition demo_minute (t : Z) : Candle := mkCandle t 104.375 105.125 104.125 105 1.
Definition demo_pullback_context : StrategyContext :=
  mkContext "XAUUSD" {[ tf_M5 := demo_frame demo_leg; tf_M1 := demo_frame (map demo_minute [3240; 3300]%Z) ]} "" None demo_state.
Definition demo_pullback_strategy : Strategy := mkStrategy demo_config "f".
Lemma impulse_leg_exact_witness :
  ∃ ev o e p stop, detectImpulsePullback demo_leg "BUY" 1 = Found ev ∧ (ev_Origin ev, ev_Extreme ev, ev_PullbackExtreme ev) = (99, 108, 104)%float ∧
    pullback_leg demo_leg true 1 ev o e p stop.
Proof.
  assert (Hc : comparable (LegacyRead.last_n 30 demo_leg)).
  { intros b Hb. apply list_elem_of_In in Hb. vm_compute in Hb. repeat (destruct Hb as [<-|Hb]; [split; vm_compute; reflexivity|]). destruct Hb. }
  assert (Hf : ∃ ev, detectImpulsePullback demo_leg "BUY" 1 = Found ev ∧ (ev_Origin ev, ev_Extreme ev, ev_PullbackExtreme ev) = (99, 108, 104)%float)
    by (eexists; vm_compute; split; reflexivity).
  destruct Hf as (ev & E & Ep). destruct (impulse_leg_exact demo_leg "BUY" 1 ev Hc E) as (_ & o & e & p & stop & H). exists ev, o, e, p, stop. split; [exact E|].
  split; [exact Ep|exact H].
Defined.
Lemma impulse_pullback_sound_witness :
  ∃ c, Evaluate ascii_unicode (λ s, "id:" +:+ s) demo_pullback_strategy demo_pullback_context = Some [c] ∧
    Opportunity.ca_StructuralID c = "impulse:BUY:99.00:108.00:104.00" ∧
    ∃ x m5 m1 levels zones direction p, pullback_of ascii_unicode demo_pullback_strategy x m5 m1 levels zones direction p c.
Proof.
  assert (Hn : (0 <= SwingFractalN (st_cfg demo_pullback_strategy))%Z) by discriminate.
  destruct (impulse_pullback_sound ascii_unicode (λ s, "id:" +:+ s) demo_pullback_strategy demo_pullback_context Hn) as (cs & E & _ & H).
  assert (Hne : match Evaluate ascii_unicode (λ s, "id:" +:+ s) demo_pullback_strategy demo_pullback_context with
    | Some [c] => Opportunity.ca_StructuralID c = "impulse:BUY:99.00:108.00:104.00" | _ => False end) by (vm_compute; reflexivity).
  rewrite E in Hne. destruct cs as [|c [|? ?]]; [destruct Hne| |destruct Hne]. exists c. split; [exact E|]. split; [exact Hne|].
  assert (Hfin : ∀ f, sx_Frames demo_pullback_context !! tf_M5 = Some f → finite_bars (sf_Candles f)).
  { intros f Hf. vm_compute in Hf. injection Hf as <-. intros b Hb. apply list_elem_of_In in Hb. cbn in Hb.
    repeat (destruct Hb as [<-|Hb]; [split; vm_compute; reflexivity|]). destruct Hb. }
  destruct (H Hfin c) as (? & ? & ? & x & levels & zones & direction & p & _ & _ & _ & _ & _ & _ & _ & Hp); [by left|]. by eexists x, _, _, levels, zones, direction, p.
Defined.
(** A negative fractal width passes the validation, and the first evaluation then panics. *)
Example impulse_fractal_panic :
  let negative := mkConfig [] 0.125 20 20 10 2 600 5 12 1 2 30 1 0 1 5 1 0.5 0.9 1 0.5 1 1 4 40 2 (-1) 1 0.25 0 1 1 0.5 [2; 1]%float in
  validate negative = true ∧ Evaluate ascii_unicode (λ s, s) (mkStrategy negative "f") demo_pullback_context = None.
Proof. vm_compute. split; reflexivity. Qed.
