(* ===== verification/ShockRetest.v ===== *)
(** Package strategy/shockretest: volatility shocks of the candles, the episode of each from its settle to its first pullback, the setup of a
    rejected pullback, and the opportunity of a setup. *)
From S2P Require Import Prelude Float64 Market LegacyRead Detector StrategyView StopBudget.
From S2P Require Indicator Structure Crt CrtStrategy TechniqueCandidate Quality Opportunity Confluence.
From Stdlib Require Import Floats.

(** * config.go *)

Definition RetracementNear : float := 0.5.
Definition RetracementFar : float := 0.618.
Definition RetracementDead : float := 0.786.
Definition ExtensionTarget : float := 1.272.
Record Config := mkConfig {
  ATRLength : Z; ATRWindowBars : Z; ShockRangeATR : float; MinimumShockBodyRatio : float; ShockLegATR : float; SettleBars : Z; RetestMaxBars : Z;
  MinimumWickRatio : float; DisplacementGradeATR : float; ConfirmationMaxAgeBars : Z; StopBufferPips : float; StopBufferATR : float; MinimumTargetR : float;
  ExpiryHours : float; SessionMomentumMinATR : float; PipSize : float; Symbols : list string
}.
(** The first condition that fails refuses the configuration; the messages are left out. *)
Definition validate (c : Config) : bool :=
  forallb negb [
    ((ATRLength c <? 2) || (ATRWindowBars c <? ATRLength c + 1))%Z;
    ((ShockRangeATR c <=? 0) || (ShockLegATR c <=? 0) || (MinimumShockBodyRatio c <? 0) || (MinimumShockBodyRatio c >? 1))%float;
    ((SettleBars c <? 0) || (SettleBars c >? 12) || (RetestMaxBars c <? 1) || (RetestMaxBars c >? 96))%Z;
    ((MinimumWickRatio c <? 0) || (MinimumWickRatio c >? 1) || (DisplacementGradeATR c <? 0))%float;
    ((ConfirmationMaxAgeBars c <? 0) || (ConfirmationMaxAgeBars c >? 12))%Z;
    (StopBufferPips c <? 0)%float || (StopBufferATR c <? 0)%float || ((StopBufferPips c =? 0)%float && (StopBufferATR c =? 0)%float);
    ((MinimumTargetR c <=? 0) || (ExpiryHours c <=? 0) || (PipSize c <=? 0) || (SessionMomentumMinATR c <? 0))%float].
Definition parseConfig (params : Params) : option Config :=
  '(floats, ints) ← ParseNumbers params
    ["shock_range_atr"; "minimum_shock_body_ratio"; "shock_leg_atr"; "minimum_wick_ratio"; "displacement_grade_atr"; "stop_buffer_pips"; "stop_buffer_atr";
     "minimum_target_r"; "expiry_hours"; "session_momentum_minimum_atr"; "pip_size"]
    ["atr_length"; "atr_window_bars"; "settle_bars"; "retest_max_bars"; "confirmation_max_age_bars"];
  symbols ← ParseSymbols params;
  let f k := default 0%float (floats !! k) in let n k := default 0%Z (ints !! k) in
  let c := mkConfig (n "atr_length") (n "atr_window_bars") (f "shock_range_atr") (f "minimum_shock_body_ratio") (f "shock_leg_atr") (n "settle_bars")
    (n "retest_max_bars") (f "minimum_wick_ratio") (f "displacement_grade_atr") (n "confirmation_max_age_bars") (f "stop_buffer_pips") (f "stop_buffer_atr")
    (f "minimum_target_r") (f "expiry_hours") (f "session_momentum_minimum_atr") (f "pip_size") symbols in
  if validate c then Some c else None.

(** * model.go *)

Definition TargetShockExtreme : string := "shock_extreme".
Definition TargetShockExtension1272 : string := "shock_extension_1272".
Record Setup := mkSetup {
  su_Direction : string; su_OriginTime : Z; su_ShockTime : Z; su_Origin : float; su_Extreme : float; su_LegATR : float; su_RetestTime : Z;
  su_ConfirmedAt : Z; su_ConfirmationAge : Z; su_EntryLow : float; su_EntryHigh : float; su_Stop : float; su_Target : float; su_TargetKind : string;
  su_M5ATR : float; su_RiskPips : float; su_RewardPips : float; su_TechnicalRR : float; su_WickRejection : bool; su_Engulfing : bool;
  su_RejectionWick : float; su_Retracement : float; su_RetestExtreme : float
}.
Record Rejection := mkRejection { rj_Reason : string; rj_Direction : string; rj_At : Z }.
Record Analysis := mkAnalysis { EvaluatedAt : Z; Shocks : Z; Setups : list Setup; Rejections : list Rejection }.
Definition ReasonInvalidCandles : string := "invalid_candles".
Definition ReasonInsufficientM5History : string := "insufficient_m5_history".
Definition ReasonNoRetest : string := "no_retest".
Definition ReasonRetestTooDeep : string := "retest_too_deep".
Definition ReasonRetestNotRejected : string := "retest_not_rejected".
Definition ReasonCounterShock : string := "counter_shock".
Definition ReasonInvalidatedAfterConfirm : string := "invalidated_after_confirmation".
Definition ReasonPriceThroughEntry : string := "price_through_entry".
Definition ReasonInvalidStopGeometry : string := "invalid_stop_geometry".
Definition ReasonNoTargetRoom : string := "no_target_room".
Definition ReasonTargetAlreadyReached : string := "target_already_reached".
Definition ReasonRiskExceedsEnvelope : string := "risk_exceeds_execution_envelope".
Definition ReasonConfluenceBelowFloor : string := "confluence_below_floor".
Definition ReasonATRUnavailable : string := "atr_unavailable".

(** * detect.go *)

Definition m5Seconds : Z := 300.
(** The first candle of the leg and the one that completes it. *)
Record shock := mkShock { s_start : nat; s_end : nat }.
(** A reading of the volatility window: the cache it fills never changes one. *)
Definition reading (atr : Indicator.WilderWindow) (i : nat) : option float := fst (Indicator.ww_At atr (Z.of_nat i)).
Definition bullish (c : Candle) : bool := (c_Close c >? c_Open c)%float.
Definition leg_shock (cfg : Config) (bars : list Candle) (atr : Indicator.WilderWindow) (i : nat) : bool :=
  (2 <=? i)%nat && bullish (bars !!! (i - 1)%nat) &&
  match reading atr (i - 2) with
  | Some before => (c_Close (bars !!! i) - c_Open (bars !!! (i - 1)%nat) >=? ShockLegATR cfg * before)%float
  | None => false
  end.
Definition bar_shock (cfg : Config) (bars : list Candle) (atr : Indicator.WilderWindow) (i : nat) : bool :=
  match reading atr (i - 1) with
  | Some before => (Range (bars !!! i) >=? ShockRangeATR cfg * before)%float && (BodyRatio (bars !!! i) >=? MinimumShockBodyRatio cfg)%float
  | None => false
  end.
Definition shock_at (cfg : Config) (bars : list Candle) (atr : Indicator.WilderWindow) (i : nat) : option shock :=
  if negb (bullish (bars !!! i)) then None
  else if leg_shock cfg bars atr i then Some (mkShock (i - 1) i)
  else if bar_shock cfg bars atr i then Some (mkShock i i)
  else None.
Definition shocks (cfg : Config) (bars : list Candle) (atr : Indicator.WilderWindow) : list shock :=
  omap (shock_at cfg bars atr) (seq 1 (length bars - 1)).
(** A pullback that rejected. *)
Record confirmed := mkConfirmed {
  cf_start : nat; cf_shockEnd : nat; cf_first : nat; cf_at : nat; cf_origin : float; cf_extreme : float; cf_atrBefore : float; cf_bandLow : float;
  cf_bandHigh : float; cf_retestLow : float; cf_wick : bool; cf_engulf : bool
}.
Definition reflected (s : Setup) : Setup :=
  mkSetup (su_Direction s) (su_OriginTime s) (su_ShockTime s) (- su_Origin s) (- su_Extreme s) (su_LegATR s) (su_RetestTime s) (su_ConfirmedAt s)
    (su_ConfirmationAge s) (- su_EntryHigh s) (- su_EntryLow s) (- su_Stop s) (- su_Target s) (su_TargetKind s) (su_M5ATR s) (su_RiskPips s)
    (su_RewardPips s) (su_TechnicalRR s) (su_WickRejection s) (su_Engulfing s) (su_RejectionWick s) (su_Retracement s) (- su_RetestExtreme s).
Definition toOriginal (dir : string) (s : Setup) : Setup := if bool_decide (dir = Market.Sell) then reflected s else s.
Definition add_rejection (r : Rejection) (out : Analysis) : Analysis := mkAnalysis (EvaluatedAt out) (Shocks out) (Setups out) (Rejections out ++ [r]).
Definition add_setup (s : Setup) (out : Analysis) : Analysis := mkAnalysis (EvaluatedAt out) (Shocks out) (Setups out ++ [s]) (Rejections out).
Section detector.
(** The oriented candles up to the evaluated one, the window of the plain ones, the direction. *)
Context (cfg : Config) (dir : string) (ob : list Candle) (atr : Indicator.WilderWindow).
Definition asOf : nat := length ob - 1.
Definition barsBetween (from to : nat) : Z := Z.quot (c_Time (ob !!! to) - c_Time (ob !!! from)) m5Seconds.
Definition reject (reason : string) (at_ : nat) (out : Analysis) : Analysis :=
  add_rejection (mkRejection reason dir (if (at_ <? length ob)%nat then c_Time (ob !!! at_) else 0%Z)) out.
(** The refusal of a confirmed pullback, or its stop and target with the target's kind. *)
Definition geometry (c : confirmed) (atrC : float) : string + float * float * string :=
  let floor := math_Min (cf_retestLow c) (cf_bandLow c) in
  if existsb (λ k, (c_Low (ob !!! k) <? floor)%float) (seq (cf_at c + 1) (asOf - cf_at c)) then inl ReasonInvalidatedAfterConfirm
  else if (c_Close (ob !!! asOf) <? cf_bandLow c)%float then inl ReasonPriceThroughEntry
  else
    let stop := (floor - math_Max (StopBufferPips cfg * PipSize cfg) (StopBufferATR cfg * atrC))%float in
    if negb (stop <? cf_bandLow c)%float then inl ReasonInvalidStopGeometry
    else
      let leg := (cf_extreme c - cf_origin c)%float in let risk := (cf_bandHigh c - stop)%float in
      let far := negb (cf_extreme c - cf_bandHigh c >=? MinimumTargetR cfg * risk)%float in
      let target := if far then (cf_origin c + ExtensionTarget * leg)%float else cf_extreme c in
      let reward := (target - cf_bandHigh c)%float in
      if negb (reward >? 0)%float || (reward <? MinimumTargetR cfg * risk)%float then inl ReasonNoTargetRoom
      else if existsb (λ k, (c_High (ob !!! k) >=? target)%float) (seq (cf_at c) (S asOf - cf_at c)) then inl ReasonTargetAlreadyReached
      else inr (stop, target, if far then TargetShockExtension1272 else TargetShockExtreme).
Definition setup_of (c : confirmed) (atrC stop target : float) (kind : string) : Setup :=
  let t k := c_Time (ob !!! k) in let leg := (cf_extreme c - cf_origin c)%float in
  let risk := (cf_bandHigh c - stop)%float in let reward := (target - cf_bandHigh c)%float in
  mkSetup dir (t (cf_start c)) (t (cf_shockEnd c)) (cf_origin c) (cf_extreme c) (if (cf_atrBefore c >? 0)%float then leg / cf_atrBefore c else 0)%float
    (t (cf_first c)) (t (cf_at c)) (barsBetween (cf_at c) asOf) (cf_bandLow c) (cf_bandHigh c) stop target kind atrC (risk / PipSize cfg)%float
    (reward / PipSize cfg)%float (reward / risk)%float (cf_wick c) (cf_engulf c && negb (cf_wick c)) (LowerWickRatio (ob !!! cf_at c))
    ((cf_extreme c - cf_retestLow c) / leg)%float (cf_retestLow c).
Definition confirm (c : confirmed) (out : Analysis) : Analysis :=
  if (barsBetween (cf_at c) asOf >? ConfirmationMaxAgeBars cfg)%Z then out
  else
    match reading atr (cf_at c) with
    | None => reject ReasonATRUnavailable (cf_at c) out
    | Some atrC =>
        match geometry c atrC with
        | inl reason => reject reason (cf_at c) out
        | inr (stop, target, kind) => add_setup (toOriginal dir (setup_of c atrC stop target kind)) out
        end
    end.
(** The highest high from [from] to [to] and [m]. *)
Definition raise (m : float) (from to : nat) : float := foldl (λ m k, math_Max m (c_High (ob !!! k))) m (seq from (S to - from)).
Definition wick_rejects (j : nat) : bool := bullish (ob !!! j) && (LowerWickRatio (ob !!! j) >=? MinimumWickRatio cfg)%float.
Definition engulfs (j : nat) : bool :=
  let c := ob !!! j in let p := ob !!! (j - 1)%nat in
  (0 <? j)%nat && (c_Close p <? c_Open p)%float && bullish c && (c_Close c >=? c_Open p)%float && (c_Open c <=? c_Close p)%float.
Section episode.
Context (start : nat) (origin atrBefore : float) (ownByEnd : gmap nat shock) (counterEnds : nat → bool).
Definition band_near (extreme : float) : float := (extreme - RetracementNear * (extreme - origin))%float.
Definition band_far (extreme : float) : float := (extreme - RetracementFar * (extreme - origin))%float.
(** The candles left, the leg so far, the end of its shock and of the settle, the retest so far: the last candle used and the outcome. *)
Fixpoint episode_loop (l : list nat) (extreme : float) (shockEnd : nat) (settleEnd : Z) (first : option nat) (retestLow : float) (out : Analysis) : nat * Analysis :=
  match l with
  | [] => (asOf, match first with
      | None => if (barsBetween shockEnd asOf - SettleBars cfg >? RetestMaxBars cfg)%Z then reject ReasonNoRetest shockEnd out else out
      | Some _ => out
      end)
  | j :: rest =>
      let c := ob !!! j in
      let retest first :=
        let low := math_Min retestLow (c_Low c) in
        if wick_rejects j || engulfs j then
          (j, confirm (mkConfirmed start shockEnd first j origin extreme atrBefore (band_far extreme) (band_near extreme) low (wick_rejects j) (engulfs j)) out)
        else if (first <? j)%nat then (j, reject ReasonRetestNotRejected j out)
        else episode_loop rest extreme shockEnd settleEnd (Some first) low out in
      if counterEnds j then (j, reject ReasonCounterShock j out)
      else
        match ownByEnd !! j, first with
        | Some next, None => episode_loop rest (raise extreme (s_start next) (s_end next)) j (Z.of_nat j + SettleBars cfg) first retestLow out
        | _, _ =>
            if (Z.of_nat j <=? settleEnd)%Z then episode_loop rest (math_Max extreme (c_High c)) shockEnd settleEnd first retestLow out
            else if (barsBetween shockEnd j - SettleBars cfg >? RetestMaxBars cfg)%Z && bool_decide (first = None)
            then (j, reject ReasonNoRetest shockEnd out)
            else if (c_Close c <? extreme - RetracementDead * (extreme - origin))%float then (j, reject ReasonRetestTooDeep j out)
            else
              match first with
              | None =>
                  if (c_Low c >? band_near extreme)%float then episode_loop rest (math_Max extreme (c_High c)) shockEnd settleEnd None retestLow out
                  else retest j
              | Some f => retest f
              end
        end
  end.
End episode.
Definition episode (sh : shock) (ownByEnd : gmap nat shock) (counterEnds : nat → bool) (out : Analysis) : nat * Analysis :=
  let origin := c_Open (ob !!! s_start sh) in
  episode_loop (s_start sh) origin (default 0%float (reading atr (s_start sh - 1))) ownByEnd counterEnds (seq (s_end sh + 1) (asOf - s_end sh))
    (raise (c_High (ob !!! s_start sh)) (s_start sh) (s_end sh)) (s_end sh) (Z.of_nat (s_end sh) + SettleBars cfg) None infinity out.
Definition run_step (ownByEnd : gmap nat shock) (counterEnds : nat → bool) (s : Z * Analysis) (sh : shock) : Z * Analysis :=
  let '(consumed, out) := s in
  if (Z.of_nat (s_end sh) <=? consumed)%Z then s else let '(used, out) := episode sh ownByEnd counterEnds out in (Z.of_nat used, out).
Definition run (own counter : list shock) (out : Analysis) : Analysis :=
  let ownByEnd := foldl (λ m s, <[s_end s := s]> m) ∅ own in
  snd (foldl (run_step ownByEnd (λ j, existsb (λ s, (s_end s =? j)%nat) counter)) (- 1, out)%Z own).
End detector.
Definition setup_less (a b : Setup) : bool :=
  if negb (su_ConfirmedAt a =? su_ConfirmedAt b)%Z then (su_ConfirmedAt a >? su_ConfirmedAt b)%Z else str_lt (su_Direction a) (su_Direction b).
Definition DetectAsOf (cfg : Config) (inM5 : list Candle) (asOf : Z) : Analysis :=
  if (asOf <? 0)%Z || (Z.of_nat (length inM5) <=? asOf)%Z then mkAnalysis 0 0 [] [mkRejection ReasonInvalidCandles "" 0]
  else
    let m5 := take (S (Z.to_nat asOf)) inM5 in let evaluated := (c_Time (m5 !!! Z.to_nat asOf) + m5Seconds)%Z in
    if negb (ValidSeries m5) then mkAnalysis evaluated 0 [] [mkRejection ReasonInvalidCandles "" 0]
    else
      let atr := Indicator.NewWilderWindow m5 (ATRLength cfg) (ATRWindowBars cfg) in
      if negb (Indicator.Enough atr) then mkAnalysis evaluated 0 [] [mkRejection ReasonInsufficientM5History "" 0]
      else
        let mirrored := Mirror m5 in let up := shocks cfg m5 atr in let down := shocks cfg mirrored atr in
        let out := mkAnalysis evaluated (Z.of_nat (length up + length down)) [] [] in
        let out := run cfg Market.Buy m5 atr up down out in let out := run cfg Market.Sell mirrored atr down up out in
        mkAnalysis (EvaluatedAt out) (Shocks out) (sort_slice setup_less (Setups out)) (Rejections out).
Definition Detect (cfg : Config) (inM5 : list Candle) : Analysis := DetectAsOf cfg inM5 (Z.of_nat (length inM5) - 1).

(** * quality.go *)

Definition QualityModel : string := "shock_retest.quality.v1".
Record qualityContext := mkQualityContext { qc_price : float; qc_localTrend : string; qc_choch : bool; qc_htfAligned : bool }.
Definition reference_of (setup : Setup) : float := if bool_decide (su_Direction setup = Market.Sell) then su_EntryLow setup else su_EntryHigh setup.
Definition score (setup : Setup) (qc : qualityContext) : list (string * float) :=
  let buy := bool_decide (su_Direction setup = Market.Buy) in let reference := if buy then su_EntryHigh setup else su_EntryLow setup in
  [("shock_force", Quality.Ramp (su_LegATR setup) 3 8);
   ("retracement", Quality.Peak (su_Retracement setup) 0.4 RetracementNear RetracementFar RetracementDead);
   ("rejection", Quality.Ramp (su_RejectionWick setup) 0.2 0.6);
   ("entry_location", Quality.LocationScore (qc_price qc) reference (su_M5ATR setup));
   ("structure", Quality.StructureScore buy (qc_localTrend qc) (qc_choch qc) (qc_htfAligned qc));
   ("room", (Quality.GeometryRoom reference (su_Stop setup) (su_Target setup) true).1)].

(** * shockretest.go *)

Definition ID : string := "shock_retest".
Definition Version : string := "v2".
Record Strategy := mkStrategy { st_cfg : Config; st_detector : LegacyDetectorSettings; st_budget : StopBudget_; st_fingerprint : string }.
Definition New (id : string) (params : Params) (fingerprint : string) : option Strategy :=
  if negb (bool_decide (id = ID)) then None
  else
    cfg ← parseConfig params; detector ← ParseLegacyDetectorSettings params; budget ← ParseStopBudget params;
    Some (mkStrategy cfg detector budget fingerprint).
Definition RequiredTimeframes : list string := [tf_M5].
Definition factors (s : Strategy) (ctx : StrategyContext) (setup : Setup) : Confluence.Factors :=
  Confluence.mkFactors (htf_aligned ctx (su_Direction setup)) 0 (su_WickRejection setup) (su_LegATR setup >=? DisplacementGradeATR (st_cfg s))%float
    false false false false.
Definition confluenceContext (s : Confluence.Score) : Opportunity.ConfluenceContext := CrtStrategy.confluenceContext s.
Definition side_of (direction : string) : string := CrtStrategy.side_of direction.
Definition structural_id (setup : Setup) : string := "technique:shock_retest:" +:+ side_of (su_Direction setup) +:+ ":" +:+ pretty (su_OriginTime setup).
Definition quality_context (s : Strategy) (ctx : StrategyContext) (setup : Setup) : qualityContext :=
  let frame := sx_Frames ctx !! tf_M5 in
  mkQualityContext (match frame ≫= λ f, last (sf_Candles f) with Some c => c_Close c | None => 0%float end)
    (match frame_legacy ctx tf_M5 with Some l => lf_Structure l | None => "" end)
    (match context_detector ctx tf_M5 (su_Direction setup) (st_detector s) with
     | Some d => RecentCHoCH d (Z.max 1 (ReactionLookbackBars (st_detector s)))
     | None => false
     end)
    (Confluence.f_HTFAligned (factors s ctx setup)).
Definition momentum_of (s : Strategy) (ctx : StrategyContext) (setup : Setup) : option (string * float) :=
  SessionMomentumEvidence ctx (su_ConfirmedAt setup) (su_Direction setup) (SessionMomentumMinATR (st_cfg s)).
Definition evidence_of (budgetCode : string) (momentum : option (string * float)) : list string :=
  ["m5_volatility_shock"; "m5_shock_first_retest"; "m5_shock_retest_rejection"] ++ (if bool_decide (budgetCode = "") then [] else [budgetCode]) ++
  match momentum with Some (code, _) => if bool_decide (code = "") then [] else [code] | None => [] end.
Definition measurements (setup : Setup) (momentum : option (string * float)) : list (string * float) :=
  [("technical_rr", su_TechnicalRR setup); ("technical_risk_pips", su_RiskPips setup); ("shock_leg_atr", su_LegATR setup)] ++
  match momentum with Some (_, net) => [("session_momentum_atr", net)] | None => [] end.
(** The model of a setup's measurements and dimensions; a panic is [None]. *)
Definition model_of (s : Strategy) (ctx : StrategyContext) (setup : Setup) : option Quality.Model :=
  Quality.run (Quality.New QualityModel) (TechniqueCandidate.measure_ops (measurements setup (momentum_of s ctx setup)) ++
    TechniqueCandidate.score_ops (score setup (quality_context s ctx setup))).
Section strategy.
(** The hexadecimal SHA-256 digest. *)
Context (hash : string → string).
(** [None] is a panic of the quality model; otherwise the candidate or the reason of its refusal, and the refusals counted. *)
Definition candidate (s : Strategy) (ctx : StrategyContext) (setup : Setup) (refusals : Refusals) : option (string + Opportunity.Candidate) * Refusals :=
  let total := Confluence.Evaluate (Confluence.mkZoneQuality 0 0) (factors s ctx setup) (ConfluenceCfg (st_detector s)) 0 in
  if (Confluence.sc_SelectedStars total <? ConfluenceFloor (st_detector s))%Z then (Some (inl ReasonConfluenceBelowFloor), refusals)
  else
    let '(budgetCode, publish, refusals) := Apply (st_budget s) refusals (reference_of setup) (su_Stop setup) in
    if negb publish then (Some (inl ReasonRiskExceedsEnvelope), refusals)
    else
      (model ← model_of s ctx setup;
       Some (match TechniqueCandidate.Candidate hash (TechniqueCandidate.mkCandidateSpec ID Version
           ("shock_retest:" +:+ side_of (su_Direction setup) +:+ ":" +:+ pretty (su_OriginTime setup) +:+ ":" +:+ pretty (su_ShockTime setup) +:+ ":" +:+
            pretty (su_ConfirmedAt setup))
           (sx_Symbol ctx) (su_Direction setup) (su_EntryLow setup) (su_EntryHigh setup) (su_Stop setup) "retest_extreme_lost" (su_Target setup)
           (su_TargetKind setup) (evidence_of budgetCode (momentum_of s ctx setup)) (Opportunity.mkQuality (Quality.Overall model) (Quality.Components model))
           (su_ShockTime setup) (su_ConfirmedAt setup) (ExpiryHours (st_cfg s)) (st_fingerprint s)) with
         | Ok c => inr (CrtStrategy.with_setup c (structural_id setup) (su_RetestTime setup) (su_ConfirmedAt setup)
             (if su_Engulfing setup then "engulfing" else "wick_rejection") (confluenceContext total))
         | Err _ => inl ReasonInvalidStopGeometry
         end), refusals).
(** The setups kept, with their candidates, and the rejections of the others. *)
Fixpoint publish_loop (s : Strategy) (ctx : StrategyContext) (setups : list Setup) (refusals : Refusals) :
    option (list (Setup * Opportunity.Candidate) * list Rejection) * Refusals :=
  match setups with
  | [] => (Some ([], []), refusals)
  | setup :: rest =>
      let '(r, refusals) := candidate s ctx setup refusals in let '(tail, refusals) := publish_loop s ctx rest refusals in
      (r ← r; '(kept, rejections) ← tail;
       Some (match r with
         | inr c => ((setup, c) :: kept, rejections)
         | inl reason => (kept, mkRejection reason (su_Direction setup) (su_ConfirmedAt setup) :: rejections)
         end), refusals)
  end.
Definition Analyze (s : Strategy) (ctx : StrategyContext) (refusals : Refusals) : option (Analysis * list Opportunity.Candidate) * Refusals :=
  let nothing := (Some (mkAnalysis 0 0 [] [], []), refusals) in
  if negb (SymbolAllowed (Symbols (st_cfg s)) (sx_Symbol ctx)) then nothing
  else
    match sx_Frames ctx !! tf_M5 with
    | Some m5 =>
        if (length (sf_Candles m5) =? 0)%nat then nothing
        else
          let a := Detect (st_cfg s) (sf_Candles m5) in let '(r, refusals) := publish_loop s ctx (Setups a) refusals in
          ('(kept, rejections) ← r; Some (mkAnalysis (EvaluatedAt a) (Shocks a) (map fst kept) (Rejections a ++ rejections), map snd kept), refusals)
    | None => nothing
    end.
Definition Evaluate (s : Strategy) (ctx : StrategyContext) (refusals : Refusals) : option (list Opportunity.Candidate) * Refusals :=
  let '(r, refusals) := Analyze s ctx refusals in (snd <$> r, refusals).
End strategy.

(** * Lemmas: an episode *)


(** * Lemmas: an episode *)

Lemma elem_of_shocks cfg bars atr sh : sh ∈ shocks cfg bars atr ↔ 1 ≤ s_end sh < length bars ∧ shock_at cfg bars atr (s_end sh) = Some sh.
Proof.
  unfold shocks. rewrite list_elem_of_omap. split.
  - intros (i & Hi%elem_of_seq & H). assert (s_end sh = i) as -> by (unfold shock_at in H; repeat case_match; by simplify_eq). split; [lia|done].
  - intros [Hr H]. exists (s_end sh). split; [apply elem_of_seq; lia|done].
Qed.
Lemma shock_span cfg bars atr sh : sh ∈ shocks cfg bars atr → s_end sh < length bars ∧ 1 ≤ s_start sh ∧ s_start sh ≤ s_end sh ≤ S (s_start sh).
Proof.
  intros [Hr H]%elem_of_shocks. split; [lia|]. unfold shock_at in H. destruct (negb _); [done|]. destruct (leg_shock _ _ _ _) eqn:El.
  - apply (f_equal (option_map s_start)) in H. cbn in H. injection H as H. unfold leg_shock in El. destruct (Nat.leb_spec 2 (s_end sh)); [lia|done].
  - destruct (bar_shock _ _ _ _); [|done]. apply (f_equal (option_map s_start)) in H. cbn in H. injection H as H. lia.
Qed.
Lemma own_by_end own sh j : (foldl (λ m s, <[s_end s := s]> m) (∅ : gmap nat shock) own) !! j = Some sh → sh ∈ own ∧ s_end sh = j.
Proof.
  assert (H : ∀ own (m : gmap nat shock), foldl (λ m s, <[s_end s := s]> m) m own !! j = Some sh → m !! j = Some sh ∨ sh ∈ own ∧ s_end sh = j).
  { clear own. induction own as [|s own IH]; intros m E; cbn in E; [by left|]. destruct (IH _ E) as [E'|[? ?]]; [|right; split; [by right|done]].
    apply lookup_insert_Some in E' as [[<- ->]|[_ E']]; [right; split; [by left|done]|by left]. }
  intros E. by destruct (H own ∅ E) as [E'|]; [rewrite lookup_empty in E'|].
Qed.
Section spec.
Context (cfg : Config) (dir : string) (ob : list Candle) (atr : Indicator.WilderWindow) (own : list shock) (counterEnds : nat → bool).
Hypothesis Hok : ∀ k, k < length ob → candle_ok (ob !!! k).
Hypothesis Hown : ∀ sh, sh ∈ own → s_end sh < length ob ∧ 1 ≤ s_start sh ∧ s_start sh ≤ s_end sh ≤ S (s_start sh).
#[local] Abbreviation high k := (c_High (ob !!! k)).
#[local] Abbreviation low k := (c_Low (ob !!! k)).
#[local] Abbreviation close k := (c_Close (ob !!! k)).
(** The highest high, and the lowest low, of the candles from one to another. *)
Definition highest_high (from to : nat) (x : float) : Prop :=
  finite x = true ∧ (∃ k, from ≤ k ≤ to ∧ key x = key (high k)) ∧ ∀ k, from ≤ k ≤ to → (key (high k) <= key x)%Z.
Definition lowest_low (from to : nat) (x : float) : Prop :=
  finite x = true ∧ (∃ k, from ≤ k ≤ to ∧ key x = key (low k)) ∧ ∀ k, from ≤ k ≤ to → (key x <= key (low k))%Z.
Lemma highest_step s e x : S e < length ob → highest_high s e x → highest_high s (S e) (math_Max x (high (S e))).
Proof.
  intros Hl (F & (k & Hk & Ek) & Hx). assert (Fh : finite (high (S e)) = true) by by apply Hok.
  destruct (math_Max_spec x (high (S e)) F Fh) as [_ K]. split; [by apply math_Max_finite|]. rewrite K. split.
  - destruct (Z.max_spec (key x) (key (high (S e)))) as [[_ ->]|[_ ->]]; [exists (S e); split; [lia|done]|exists k; split; [lia|done]].
  - intros i Hi. destruct (decide (i = S e)) as [->|]; [lia|]. specialize (Hx i ltac:(lia)). lia.
Qed.
Lemma highest_again s e x k : k < length ob → s ≤ k ≤ e → highest_high s e x → highest_high s e (math_Max x (high k)).
Proof.
  intros Hl Hk (F & (i & Hi & Ei) & Hx). assert (Fh : finite (high k) = true) by by apply Hok.
  destruct (math_Max_spec x (high k) F Fh) as [_ K]. specialize (Hx k Hk) as Hk'. split; [by apply math_Max_finite|]. rewrite K, Z.max_l by lia. by eauto.
Qed.
Lemma highest_raise s e x from to : s ≤ from ≤ S e → e ≤ to < length ob → highest_high s e x → highest_high s to (raise ob x from to).
Proof.
  intros Hf Ht Hx. assert (H : ∀ n from x m, s ≤ from ≤ S m → m < length ob → from + n ≤ length ob → highest_high s m x →
    highest_high s (Nat.max m (from + n - 1)) (foldl (λ m k, math_Max m (high k)) x (seq from n))).
  { clear -Hok. induction n as [|n IH]; intros from x m Hf Hm Hl Hx; cbn [seq foldl].
    { replace (Nat.max m (from + 0 - 1)) with m by lia. done. }
    replace (Nat.max m (from + S n - 1)) with (Nat.max (Nat.max m from) (S from + n - 1)) by lia. apply IH; [lia|lia|lia|].
    destruct (decide (from = S m)) as [->|]; [rewrite Nat.max_r by lia; apply highest_step; [lia|done]|].
    rewrite Nat.max_l by lia. apply highest_again; [lia|lia|done]. }
  unfold raise. specialize (H (S to - from) from x e ltac:(lia) ltac:(lia) ltac:(lia) Hx). by replace (Nat.max e (from + (S to - from) - 1)) with to in H by lia.
Qed.
(** Before candle [j] the leg has not pulled back: past the settle, every candle stayed above the near edge of the leg so far. *)
Definition no_pullback (start shockEnd j : nat) (origin : float) : Prop :=
  ∀ k, shockEnd < k < j → (Z.of_nat shockEnd + SettleBars cfg < Z.of_nat k)%Z → ∃ x, highest_high start (k - 1) x ∧ (low k >? band_near origin x)%float = true.
(** A confirmed pullback: the leg of one or more own shocks without a counter shock, its first pullback into the band, and the candle of
    the pullback, the first or the second, that rejects it. *)
Record retest (c : confirmed) : Prop := {
  rt_shocks : ∃ sh sh', sh ∈ own ∧ sh' ∈ own ∧ s_start sh = cf_start c ∧ s_end sh ≤ s_end sh' ∧ s_end sh' = cf_shockEnd c ∧
    ∀ j, s_end sh < j ≤ cf_at c → counterEnds j = false;
  rt_leg : cf_origin c = c_Open (ob !!! cf_start c) ∧ highest_high (cf_start c) (cf_first c - 1) (cf_extreme c) ∧
    cf_atrBefore c = default 0%float (reading atr (cf_start c - 1));
  rt_band : cf_bandHigh c = band_near (cf_origin c) (cf_extreme c) ∧ cf_bandLow c = band_far (cf_origin c) (cf_extreme c);
  rt_first : cf_shockEnd c < cf_first c ∧ (Z.of_nat (cf_shockEnd c) + SettleBars cfg < Z.of_nat (cf_first c))%Z ∧
    (barsBetween ob (cf_shockEnd c) (cf_first c) - SettleBars cfg <= RetestMaxBars cfg)%Z ∧ (low (cf_first c) >? cf_bandHigh c)%float = false ∧
    no_pullback (cf_start c) (cf_shockEnd c) (cf_first c) (cf_origin c);
  rt_at : cf_first c ≤ cf_at c ≤ S (cf_first c) ∧ cf_at c < length ob ∧ lowest_low (cf_first c) (cf_at c) (cf_retestLow c) ∧
    ∀ k, cf_first c ≤ k ≤ cf_at c → (close k <? cf_extreme c - RetracementDead * (cf_extreme c - cf_origin c))%float = false;
  rt_reject : cf_wick c = wick_rejects cfg ob (cf_at c) ∧ cf_engulf c = engulfs ob (cf_at c) ∧ cf_wick c || cf_engulf c = true ∧
    ∀ k, cf_first c ≤ k < cf_at c → wick_rejects cfg ob k || engulfs ob k = false
}.
(** What is known of an episode before candle [j]. *)
Record leg_state (sh : shock) (j : nat) (extreme : float) (shockEnd : nat) (first : option nat) (retestLow : float) : Prop := {
  ls_shocks : s_end sh ≤ shockEnd < j ∧ (∃ sh', sh' ∈ own ∧ s_end sh' = shockEnd) ∧ ∀ k, s_end sh < k < j → counterEnds k = false;
  ls_first : let origin := c_Open (ob !!! s_start sh) in
    match first with
    | None => highest_high (s_start sh) (j - 1) extreme ∧ no_pullback (s_start sh) shockEnd j origin ∧ retestLow = infinity
    | Some f => S f = j ∧ shockEnd < f ∧ (Z.of_nat shockEnd + SettleBars cfg < Z.of_nat f)%Z ∧ highest_high (s_start sh) (f - 1) extreme ∧
        no_pullback (s_start sh) shockEnd f origin ∧ (barsBetween ob shockEnd f - SettleBars cfg <= RetestMaxBars cfg)%Z ∧
        (low f >? band_near origin extreme)%float = false ∧ (close f <? extreme - RetracementDead * (extreme - origin))%float = false ∧
        lowest_low f f retestLow ∧ wick_rejects cfg ob f || engulfs ob f = false
    end
}.
Definition same_setups (out out' : Analysis) : Prop := EvaluatedAt out' = EvaluatedAt out ∧ Shocks out' = Shocks out ∧ Setups out' = Setups out.
Lemma leg_state_counter sh j extreme shockEnd first low : leg_state sh j extreme shockEnd first low → counterEnds j = false →
  ∀ k, s_end sh < k < S j → counterEnds k = false.
Proof. intros [(_ & _ & Hc) _] Ej k Hk. destruct (decide (k = j)) as [->|]; [done|]. apply Hc. lia. Qed.
(** The candle [j] goes on: the leg continues, settles, or has not pulled back. *)
Lemma leg_state_extend sh j extreme shockEnd low : j < length ob → counterEnds j = false → leg_state sh j extreme shockEnd None low →
  ((Z.of_nat j <= Z.of_nat shockEnd + SettleBars cfg)%Z ∨ (c_Low (ob !!! j) >? band_near (c_Open (ob !!! s_start sh)) extreme)%float = true) →
  leg_state sh (S j) (math_Max extreme (high j)) shockEnd None low.
Proof.
  intros Hj Ec Hs Hor. pose proof (leg_state_counter _ _ _ _ _ _ Hs Ec) as Hc'. destruct Hs as [(H1 & H2 & Hc) (Hh & Hn & ->)]. split; [split_and!; [lia..|done|done]|].
  cbn. rewrite Nat.sub_0_r. split_and!; [| |done].
  - replace j with (S (j - 1)) by lia. apply highest_step; [lia|]. done.
  - intros k Hk Hset. destruct (decide (k = j)) as [->|]; [|apply Hn; [lia|done]]. destruct Hor as [?|Hlow]; [lia|]. exists extreme. split; done.
Qed.
Lemma leg_state_continue sh next j extreme shockEnd low : next ∈ own → s_end next = j → counterEnds j = false → leg_state sh j extreme shockEnd None low →
  s_start sh ≤ s_end sh → leg_state sh (S j) (raise ob extreme (s_start next) (s_end next)) j None low.
Proof.
  intros Hin <- Ec Hs Hsp. pose proof (leg_state_counter _ _ _ _ _ _ Hs Ec) as Hc'. destruct Hs as [(H1 & H2 & Hc) (Hh & Hn & ->)]. destruct (Hown next Hin) as (Hl & _ & Hsn).
  split; [split_and!; [lia..|by exists next|done]|]. cbn. rewrite Nat.sub_0_r. split_and!; [|intros k Hk; lia|done].
  apply (highest_raise _ (s_end next - 1)); [lia|lia|done].
Qed.
Lemma lowest_first j : j < length ob → lowest_low j j (math_Min infinity (low j)).
Proof.
  intros Hj. destruct (math_Min_infinity (low j)) as [F K]; [by apply Hok|]. split; [done|]. split; [exists j; split; [lia|done]|]. intros k Hk. replace k with j by lia. lia.
Qed.
Lemma lowest_next f x : S f < length ob → lowest_low f f x → lowest_low f (S f) (math_Min x (low (S f))).
Proof.
  intros Hl (F & (k & Hk & Ek) & Hx). assert (Fl : finite (low (S f)) = true) by by apply Hok. destruct (math_Min_spec x _ F Fl) as [_ K].
  split; [by apply math_Min_finite|]. rewrite K. split.
  - destruct (Z.min_spec (key x) (key (low (S f)))) as [[_ ->]|[_ ->]]; [exists k|exists (S f)]; (split; [lia|done]).
  - intros i Hi. destruct (decide (i = S f)) as [->|]; [lia|]. specialize (Hx i ltac:(lia)). lia.
Qed.
(** The candle [j] is the first of the pullback, or the one after it. *)
Definition first_of (first : option nat) (j : nat) : nat := default j first.
(** The facts a candle of the pullback has when it comes to its rejection. *)
Record pulled_back (sh : shock) (j : nat) (extreme : float) (shockEnd f : nat) (low' : float) : Prop := {
  pb_order : f ≤ j ≤ S f ∧ shockEnd < f ∧ (Z.of_nat shockEnd + SettleBars cfg < Z.of_nat f)%Z;
  pb_leg : highest_high (s_start sh) (f - 1) extreme ∧ no_pullback (s_start sh) shockEnd f (c_Open (ob !!! s_start sh));
  pb_first : (barsBetween ob shockEnd f - SettleBars cfg <= RetestMaxBars cfg)%Z ∧ (low f >? band_near (c_Open (ob !!! s_start sh)) extreme)%float = false;
  pb_deep : ∀ k, f ≤ k ≤ j → (close k <? extreme - RetracementDead * (extreme - c_Open (ob !!! s_start sh)))%float = false;
  pb_low : lowest_low f j low';
  pb_before : ∀ k, f ≤ k < j → wick_rejects cfg ob k || engulfs ob k = false
}.
Lemma pulled_back_at sh j extreme shockEnd first low' : j < length ob → leg_state sh j extreme shockEnd first low' →
  (Z.of_nat shockEnd + SettleBars cfg < Z.of_nat j)%Z →
  (barsBetween ob shockEnd j - SettleBars cfg >? RetestMaxBars cfg)%Z && bool_decide (first = None) = false →
  (close j <? extreme - RetracementDead * (extreme - c_Open (ob !!! s_start sh)))%float = false →
  (first = None → (low j >? band_near (c_Open (ob !!! s_start sh)) extreme)%float = false) →
  pulled_back sh j extreme shockEnd (first_of first j) (math_Min low' (low j)).
Proof.
  intros Hj [(H1 & H2 & Hc) Hf] Hset Hw Hd Hb. destruct first as [f|]; cbn in Hf |- *.
  - destruct Hf as (<- & F1 & F2 & F3 & F4 & F5 & F6 & F7 & F8 & F9). split; [lia|done|done| |by apply lowest_next|].
    + intros k Hk. destruct (decide (k = f)) as [->|]; [done|]. by replace k with (S f) by lia.
    + intros k Hk. by replace k with f by lia.
  - destruct Hf as (F1 & F2 & ->). rewrite bool_decide_true, andb_true_r in Hw by done.
    split; [lia|done|split; [lia|by apply Hb]| |by apply lowest_first|intros; lia]. intros k Hk. by replace k with j by lia.
Qed.
Lemma pulled_back_retest sh j extreme shockEnd f low' : sh ∈ own → j < length ob → (s_end sh ≤ shockEnd) → (∃ sh', sh' ∈ own ∧ s_end sh' = shockEnd) →
  (∀ k, s_end sh < k < S j → counterEnds k = false) → pulled_back sh j extreme shockEnd f low' → wick_rejects cfg ob j || engulfs ob j = true →
  let origin := c_Open (ob !!! s_start sh) in
  retest (mkConfirmed (s_start sh) shockEnd f j origin extreme (default 0%float (reading atr (s_start sh - 1))) (band_far origin extreme) (band_near origin extreme)
    low' (wick_rejects cfg ob j) (engulfs ob j)).
Proof.
  intros Hin Hj He (sh' & Hin' & Es') Hc [P1 P2 P3 P4 P5 P6] Hr origin. split; cbn.
  - exists sh, sh'. split_and!; [done..|lia|done|]. intros k Hk. apply Hc. lia.
  - split_and!; [done|apply P2|done].
  - done.
  - split_and!; [lia|lia|apply P3..|apply P2].
  - split_and!; [lia..|done|done].
  - done.
Qed.
Lemma pulled_back_next sh j extreme shockEnd first low' f : leg_state sh j extreme shockEnd first low' → counterEnds j = false → (f <? j) = false →
  pulled_back sh j extreme shockEnd f (math_Min low' (low j)) → wick_rejects cfg ob j || engulfs ob j = false →
  leg_state sh (S j) extreme shockEnd (Some f) (math_Min low' (low j)).
Proof.
  intros Hs Ec Hf%Nat.ltb_ge [P1 P2 P3 P4 P5 P6] Hr. pose proof (leg_state_counter _ _ _ _ _ _ Hs Ec) as Hc'. destruct Hs as [(H1 & H2 & _) _].
  assert (f = j) as -> by lia. split; [split_and!; [lia..|done|done]|]. split_and!; try done; try lia; try apply P2; try apply P3. apply P4. lia.
Qed.
(** An episode ends with a refusal, or with nothing, or with the confirmation of a retest. *)
Definition episode_end (sh : shock) (out : Analysis) (r : nat * Analysis) : Prop :=
  s_end sh ≤ r.1 ∧ (same_setups out r.2 ∨
    ∃ c, retest c ∧ cf_start c = s_start sh ∧ cf_at c = r.1 ∧ s_end sh < r.1 ∧ r.2 = confirm cfg dir ob atr c out).
Lemma refused_end sh out j out' : s_end sh ≤ j → same_setups out out' → episode_end sh out (j, out').
Proof. split; [done|by left]. Qed.
Lemma episode_loop_spec sh n : sh ∈ own → ∀ j extreme shockEnd first low' out, j + n = length ob → leg_state sh j extreme shockEnd first low' →
  episode_end sh out (episode_loop cfg dir ob atr (s_start sh) (c_Open (ob !!! s_start sh)) (default 0%float (reading atr (s_start sh - 1)))
    (foldl (λ m s, <[s_end s := s]> m) ∅ own) counterEnds (seq j n) extreme shockEnd (Z.of_nat shockEnd + SettleBars cfg) first low' out).
Proof.
  intros Hin. destruct (Hown sh Hin) as (_ & _ & Hsp). induction n as [|n IH]; intros j extreme shockEnd first low' out Hj Hs; cbn [seq episode_loop].
  { apply refused_end; [unfold asOf; destruct Hs as [(? & _) _]; lia|]. destruct first; [done|]. by destruct (_ >? _)%Z. }
  assert (Hl : j < length ob) by lia. assert (Hej : s_end sh ≤ j) by (destruct Hs as [(? & _) _]; lia).
  destruct (counterEnds j) eqn:Ec; [by apply refused_end|].
  match goal with |- context [if (Z.of_nat j <=? _)%Z then ?a else ?b] => set (settled := a); set (past := b) end.
  assert (Hrest : episode_end sh out (if (Z.of_nat j <=? Z.of_nat shockEnd + SettleBars cfg)%Z then settled else past)).
  { destruct (Z.leb_spec (Z.of_nat j) (Z.of_nat shockEnd + SettleBars cfg)) as [Hset|Hset].
    { unfold settled. apply IH; [lia|]. destruct first as [f|]; [|apply leg_state_extend; [done..|by left]].
      exfalso. destruct Hs as [_ (? & ? & ? & _)]. lia. }
    unfold past. destruct (_ && bool_decide _) eqn:Ew; [by apply refused_end|]. destruct (close j <? _)%float eqn:Ed; [by apply refused_end|].
    assert (Htail : (first = None → (low j >? band_near (c_Open (ob !!! s_start sh)) extreme)%float = false) →
      episode_end sh out (let f := first_of first j in
        if wick_rejects cfg ob j || engulfs ob j then
          (j, confirm cfg dir ob atr (mkConfirmed (s_start sh) shockEnd f j (c_Open (ob !!! s_start sh)) extreme
            (default 0%float (reading atr (s_start sh - 1))) (band_far (c_Open (ob !!! s_start sh)) extreme) (band_near (c_Open (ob !!! s_start sh)) extreme)
            (math_Min low' (low j)) (wick_rejects cfg ob j) (engulfs ob j)) out)
        else if (f <? j)%nat then (j, reject dir ob ReasonRetestNotRejected j out)
        else episode_loop cfg dir ob atr (s_start sh) (c_Open (ob !!! s_start sh)) (default 0%float (reading atr (s_start sh - 1)))
          (foldl (λ m s, <[s_end s := s]> m) ∅ own) counterEnds (seq (S j) n) extreme shockEnd (Z.of_nat shockEnd + SettleBars cfg) (Some f) (math_Min low' (low j)) out)).
    { clear settled past. intros Hb. pose proof (pulled_back_at _ _ _ _ _ _ Hl Hs Hset Ew Ed Hb) as Hp. cbv zeta. destruct (wick_rejects cfg ob j || engulfs ob j) eqn:Er.
      - split; [done|]. right. eexists. split; [apply (pulled_back_retest sh j extreme shockEnd (first_of first j) (math_Min low' (low j)) Hin Hl); try done; [apply Hs..|by eapply leg_state_counter]|]. cbn.
        split_and!; [done..| |done]. destruct Hs as [(? & _) _]. lia.
      - destruct (first_of first j <? j)%nat eqn:Ef; [by apply refused_end|]. apply IH; [lia|]. by apply (pulled_back_next _ _ _ _ _ _ _ Hs). }
    destruct first as [f|]; [by apply Htail|]. destruct (low j >? _)%float eqn:Eb; [|by apply Htail].
    apply IH; [lia|]. apply leg_state_extend; [done..|by right]. }
  destruct (_ !! j) as [next|] eqn:En; [|done]. destruct first as [f|]; [done|]. apply own_by_end in En as [Hin' En].
  apply IH; [lia|]. apply (leg_state_continue _ _ _ _ _ _ Hin' En Ec Hs). lia.
Qed.
Lemma episode_spec sh out : sh ∈ own →
  episode_end sh out (episode cfg dir ob atr sh (foldl (λ m s, <[s_end s := s]> m) ∅ own) counterEnds out).
Proof.
  intros Hin. destruct (Hown sh Hin) as (Hl & H1 & Hsp). unfold episode, asOf. cbv zeta. apply episode_loop_spec; [done|lia|]. split.
  - split_and!; [lia..|by exists sh|intros; lia].
  - replace (s_end sh + 1 - 1) with (s_end sh) by lia. split_and!; [|intros k Hk; lia|done]. apply (highest_raise _ (s_start sh)); [lia|lia|].
    split; [apply Hok; lia|]. split; [exists (s_start sh); split; [lia|done]|]. intros k Hk. by replace k with (s_start sh) by lia.
Qed.
(** The stop, the target and the candles since of a confirmed pullback. *)
Record geometry_ok (c : confirmed) (a stop target : float) (kind : string) : Prop := {
  gk_alive : ∀ k, cf_at c < k < length ob → (low k <? math_Min (cf_retestLow c) (cf_bandLow c))%float = false;
  gk_entry : (close (asOf ob) <? cf_bandLow c)%float = false;
  gk_stop : stop = (math_Min (cf_retestLow c) (cf_bandLow c) - math_Max (StopBufferPips cfg * PipSize cfg) (StopBufferATR cfg * a))%float ∧
    (stop <? cf_bandLow c)%float = true;
  gk_target : let risk := (cf_bandHigh c - stop)%float in
    (target - cf_bandHigh c >? 0)%float = true ∧ (target - cf_bandHigh c <? MinimumTargetR cfg * risk)%float = false ∧
    if (cf_extreme c - cf_bandHigh c >=? MinimumTargetR cfg * risk)%float then target = cf_extreme c ∧ kind = TargetShockExtreme
    else target = (cf_origin c + ExtensionTarget * (cf_extreme c - cf_origin c))%float ∧ kind = TargetShockExtension1272;
  gk_unreached : ∀ k, cf_at c ≤ k < length ob → (high k >=? target)%float = false
}.
Lemma geometry_spec c a stop target kind : geometry cfg ob c a = inr (stop, target, kind) → geometry_ok c a stop target kind.
Proof.
  unfold geometry. cbv zeta. set (floor := math_Min _ _). set (stop' := (floor - _)%float). set (far := (cf_extreme c - cf_bandHigh c >=? _)%float).
  set (target' := if negb far then (_ + _)%float else _).
  destruct (existsb (λ k, (low k <? floor)%float) _) eqn:E1; [done|]. destruct (close (asOf ob) <? cf_bandLow c)%float eqn:E2; [done|].
  destruct (stop' <? cf_bandLow c)%float eqn:E3; cbn [negb]; [|done]. destruct (_ || _) eqn:E4; [done|]. apply orb_false_iff in E4 as [E4%negb_false_iff E5].
  destruct (existsb (λ k, (high k >=? target')%float) _) eqn:E6; [done|]. intros [= <- <- <-]. split; [|done..| |].
  - intros k Hk. apply (existsb_miss _ _ k E1). apply in_seq. unfold asOf. lia.
  - split; [done|]. split; [done|]. fold stop' far. unfold target'. by destruct far.
  - intros k Hk. apply (existsb_miss _ _ k E6). apply in_seq. unfold asOf. lia.
Qed.
(** A setup of a retest: fresh, with the volatility of its candle, in the prices of the plain candles. *)
Definition setup_from (c : confirmed) (s : Setup) : Prop :=
  (barsBetween ob (cf_at c) (asOf ob) <= ConfirmationMaxAgeBars cfg)%Z ∧ ∃ a stop target kind, reading atr (cf_at c) = Some a ∧
    geometry_ok c a stop target kind ∧ s = toOriginal dir (setup_of cfg dir ob c a stop target kind).
Lemma confirm_spec c out :
  same_setups out (confirm cfg dir ob atr c out) ∨ ∃ s, setup_from c s ∧ confirm cfg dir ob atr c out = add_setup s out.
Proof.
  unfold confirm. destruct (Z.gtb_spec (barsBetween ob (cf_at c) (asOf ob)) (ConfirmationMaxAgeBars cfg)) as [|Ha]; [by left|].
  destruct (reading atr (cf_at c)) as [a|] eqn:Er; [|by left]. destruct (geometry cfg ob c a) as [|[[stop target] kind]] eqn:Eg; [by left|].
  right. eexists. split; [|done]. split; [done|]. exists a, stop, target, kind. split_and!; [done|by apply geometry_spec|done].
Qed.
(** The retests of one direction with their setups, the earliest first: each starts where the one before it was rejected or later. *)
Definition retests (l : list (confirmed * Setup)) : Prop :=
  Forall (λ p, retest p.1 ∧ setup_from p.1 p.2) l ∧ StronglySorted (λ p q, cf_start p.1 < cf_start q.1 ∧ cf_at p.1 < cf_at q.1) l.
Lemma shock_run_spec l : (∀ sh, sh ∈ l → sh ∈ own) → ∀ consumed out,
  let out' := snd (foldl (run_step cfg dir ob atr (foldl (λ m s, <[s_end s := s]> m) ∅ own) counterEnds) (consumed, out) l) in
  ∃ new, retests new ∧ Forall (λ p, consumed <= Z.of_nat (cf_start p.1) ∧ consumed < Z.of_nat (cf_at p.1))%Z new ∧
    EvaluatedAt out' = EvaluatedAt out ∧ Shocks out' = Shocks out ∧ Setups out' = Setups out ++ map snd new.
Proof.
  induction l as [|sh l IH]; intros Hsub consumed out; cbn [foldl].
  { exists []. cbn. rewrite app_nil_r. split_and!; try done; split; constructor. }
  assert (Hsub' : ∀ sh, sh ∈ l → sh ∈ own) by (intros; apply Hsub; by right).
  destruct (run_step _ _ _ _ _ _ (consumed, out) sh) as [u o] eqn:Ef. unfold run_step in Ef.
  destruct (Z.leb_spec (Z.of_nat (s_end sh)) consumed) as [|Hend]; [injection Ef as <- <-; by apply IH|].
  assert (Hin : sh ∈ own) by (apply Hsub; by left). destruct (Hown sh Hin) as (_ & _ & Hsp).
  pose proof (episode_spec sh out Hin) as [Hu He]. destruct (episode _ _ _ _ _ _ _ _) as [used out1]. cbn in Hu, He. injection Ef as <- <-.
  destruct (IH Hsub' (Z.of_nat used) out1) as (new & [N1 N2] & N3 & N4 & N5 & N6).
  match type of N4 with EvaluatedAt ?x = _ => set (out' := x) in * end. cbv zeta.
  assert (Hlow : Forall (λ p, consumed <= Z.of_nat (cf_start p.1) ∧ consumed < Z.of_nat (cf_at p.1))%Z new) by (eapply Forall_impl; [exact N3|]; cbn; intros; lia).
  assert (Hsame : same_setups out out1 → ∃ new, retests new ∧ Forall (λ p, consumed <= Z.of_nat (cf_start p.1) ∧ consumed < Z.of_nat (cf_at p.1))%Z new ∧
    EvaluatedAt out' = EvaluatedAt out ∧ Shocks out' = Shocks out ∧ Setups out' = Setups out ++ map snd new).
  { intros (S1 & S2 & S3). exists new. split_and!; [by split|done|congruence|congruence|by rewrite N6, S3]. }
  destruct He as [He|(c & Hc & Es & Ea & Hlt & ->)]; [by apply Hsame|]. destruct (confirm_spec c out) as [He|(s & Hs & Ec)]; [by apply Hsame|].
  exists ((c, s) :: new). rewrite N4, N5, N6, Ec. cbn. rewrite <- app_assoc. split_and!; [|constructor; [cbn; lia|done]|done..].
  split; constructor; [done..|]. eapply Forall_impl; [exact N3|]. cbn. intros p Hp. lia.
Qed.
End spec.

(** * Lemmas: both directions *)

Lemma sub_nan_l x y : IsNaN x = true → IsNaN (x - y) = true.
Proof. rewrite !is_nan_SF, sub_spec. by intros ->. Qed.
Definition counter_ends (counter : list shock) (j : nat) : bool := existsb (λ s, (s_end s =? j)%nat) counter.
Definition volatility (cfg : Config) (m5 : list Candle) : Indicator.WilderWindow := Indicator.NewWilderWindow m5 (ATRLength cfg) (ATRWindowBars cfg).
Definition against (dir : string) : string := if bool_decide (dir = Market.Sell) then Market.Buy else Market.Sell.
Section direction.
Context (cfg : Config) (m5 : list Candle) (dir : string).
#[local] Abbreviation bars := (Crt.oriented dir m5).
#[local] Abbreviation own := (shocks cfg bars (volatility cfg m5)).
#[local] Abbreviation counter := (shocks cfg (Crt.oriented (against dir) m5) (volatility cfg m5)).
(** A retest of a direction, in the orientation of that direction, and its setup. *)
Definition direction_retest (c : confirmed) (s : Setup) : Prop :=
  retest cfg bars (volatility cfg m5) own (counter_ends counter) c ∧ setup_from cfg dir bars (volatility cfg m5) c s.
Definition direction_retests (l : list (confirmed * Setup)) : Prop := retests cfg dir bars (volatility cfg m5) own (counter_ends counter) l.
(** What a retest's setup says in plain prices and times. *)
Record shock_prices (s : Setup) : Prop := {
  sp_direction : su_Direction s = dir;
  sp_times : (su_OriginTime s <= su_ShockTime s)%Z ∧ (su_ShockTime s < su_RetestTime s <= su_ConfirmedAt s)%Z ∧
    (su_ConfirmedAt s <= c_Time (m5 !!! (length m5 - 1)%nat))%Z;
  sp_order : if bool_decide (dir = Market.Sell) then (key (su_EntryHigh s) < key (su_Stop s))%Z ∧ (key (su_Target s) < key (su_EntryLow s))%Z
    else (key (su_Stop s) < key (su_EntryLow s))%Z ∧ (key (su_EntryHigh s) < key (su_Target s))%Z;
  sp_open : ∀ b, b ∈ m5 → (su_ConfirmedAt s <= c_Time b)%Z →
    if bool_decide (dir = Market.Sell) then (key (su_Target s) < key (c_Low b))%Z else (key (c_High b) < key (su_Target s))%Z
}.
Hypothesis Hv : ValidSeries m5 = true.
Lemma oriented_ok k : k < length bars → candle_ok (bars !!! k).
Proof. apply Crt.valid_bar. by apply Crt.valid_oriented. Qed.
Lemma oriented_span sh : sh ∈ own → s_end sh < length bars ∧ 1 ≤ s_start sh ∧ s_start sh ≤ s_end sh ≤ S (s_start sh).
Proof. apply shock_span. Qed.
(** The candles of a retest, in order. *)
Lemma retest_order c s : direction_retest c s → cf_start c ≤ cf_shockEnd c < cf_first c ∧ cf_first c ≤ cf_at c < length m5.
Proof.
  intros [[(sh & sh' & Hin & Hin' & <- & He & <- & _) _ _ (H1 & _) (H2 & H3 & _) _] _]. destruct (oriented_span sh Hin) as (_ & _ & Hsp).
  rewrite Crt.length_oriented in H3. lia.
Qed.
Lemma setup_names c s : direction_retest c s → let t k := c_Time (m5 !!! k) in
  su_Direction s = dir ∧ su_OriginTime s = t (cf_start c) ∧ su_ShockTime s = t (cf_shockEnd c) ∧ su_RetestTime s = t (cf_first c) ∧ su_ConfirmedAt s = t (cf_at c).
Proof.
  intros H. pose proof (retest_order c s H) as Ho. destruct H as [_ (_ & a & stop & target & kind & _ & _ & ->)]. cbv zeta.
  unfold toOriginal. destruct (bool_decide _); cbn; rewrite !Crt.oriented_time by lia; done.
Qed.
Lemma valid_times_le i j : i ≤ j < length m5 → (c_Time (m5 !!! i) <= c_Time (m5 !!! j))%Z.
Proof. intros Hij. destruct (decide (i = j)) as [->|]; [lia|]. pose proof (Crt.valid_times m5 i j Hv ltac:(lia)). lia. Qed.
Lemma retest_prices c s : direction_retest c s → shock_prices s.
Proof.
  intros H. pose proof (retest_order c s H) as Ho. destruct (setup_names c s H) as (N1 & N2 & N3 & N4 & N5).
  destruct H as [_ (_ & a & stop & target & kind & _ & [_ _ [_ G3] (G4 & _ & _) G5] & Es)].
  apply ltb_nums in G3 as (_ & _ & G3). assert (Nt : IsNaN target = false).
  { destruct (IsNaN target) eqn:Nt; [|done]. apply ltb_nums in G4 as (_ & Ng & _). by rewrite sub_nan_l in Ng. }
  apply sub_pos_lt in G4.
  assert (Hopen : ∀ k, cf_at c ≤ k < length m5 → (key (c_High (bars !!! k)) < key target)%Z).
  { intros k Hk. specialize (G5 k ltac:(by rewrite Crt.length_oriented)). pose proof (oriented_ok k ltac:(rewrite Crt.length_oriented; lia)) as [_ Fh _ _ _ _ _ _].
    apply finite_not_nan in Fh. rewrite leb_num in G5 by done. lia. }
  split; [done|rewrite N2, N3, N4, N5; split_and!; try (apply valid_times_le; lia); by apply Crt.valid_times; [|lia]| |].
  - rewrite Es. unfold toOriginal. destruct (bool_decide _); cbn; rewrite ?key_opp; lia.
  - intros b (k & Hb)%list_elem_of_lookup Ht. pose proof (lookup_lt_Some _ _ _ Hb) as Hk. apply list_lookup_total_correct in Hb as <-.
    assert (Hat : cf_at c ≤ k). { destruct (decide (cf_at c ≤ k)); [done|]. pose proof (Crt.valid_times m5 k (cf_at c) Hv ltac:(lia)). lia. }
    specialize (Hopen k ltac:(lia)). rewrite Crt.oriented_lookup in Hopen by done. rewrite Es. unfold toOriginal. destruct (bool_decide _); cbn in *; [|done].
    rewrite key_opp in *. lia.
Qed.
End direction.
Lemma shock_detect_spec cfg inM5 asOf : let out := DetectAsOf cfg inM5 asOf in let m5 := take (S (Z.to_nat asOf)) inM5 in
  Setups out = [] ∨ (0 <= asOf < Z.of_nat (length inM5))%Z ∧ EvaluatedAt out = (c_Time (m5 !!! Z.to_nat asOf) + m5Seconds)%Z ∧ ValidSeries m5 = true ∧
    ∃ buys sells, direction_retests cfg m5 Market.Buy buys ∧ direction_retests cfg m5 Market.Sell sells ∧
      Setups out = sort_slice setup_less (map snd (buys ++ sells)).
Proof.
  unfold DetectAsOf. cbv zeta. destruct ((asOf <? 0)%Z || (Z.of_nat (length inM5) <=? asOf)%Z) eqn:Er; [by left|]. apply orb_false_iff in Er as [E1%Z.ltb_ge E2%Z.leb_gt].
  set (m5 := take _ inM5). destruct (ValidSeries m5) eqn:V; cbn [negb]; [|by left]. fold (volatility cfg m5). destruct (Indicator.Enough _); cbn [negb]; [|by left]. right.
  set (out0 := mkAnalysis _ _ [] []).
  destruct (shock_run_spec cfg Market.Buy (Crt.oriented Market.Buy m5) (volatility cfg m5) (shocks cfg m5 (volatility cfg m5))
    (counter_ends (shocks cfg (Mirror m5) (volatility cfg m5))) (oriented_ok m5 Market.Buy V) (oriented_span cfg m5 Market.Buy) _ (λ sh H, H) (-1)%Z out0)
    as (buys & B1 & _ & B2 & B3 & B4).
  destruct (shock_run_spec cfg Market.Sell (Crt.oriented Market.Sell m5) (volatility cfg m5) (shocks cfg (Mirror m5) (volatility cfg m5))
    (counter_ends (shocks cfg m5 (volatility cfg m5))) (oriented_ok m5 Market.Sell V) (oriented_span cfg m5 Market.Sell) _ (λ sh H, H) (-1)%Z
    (run cfg Market.Buy m5 (volatility cfg m5) (shocks cfg m5 (volatility cfg m5)) (shocks cfg (Mirror m5) (volatility cfg m5)) out0))
    as (sells & S1 & _ & S2 & S3 & S4).
  split; [lia|]. cbn [EvaluatedAt Setups]. split_and!; [by etrans; [exact S2|exact B2]|done|]. exists buys, sells. split_and!; [done..|].
  f_equal. etrans; [exact S4|]. rewrite map_app. by f_equal.
Qed.
Lemma shock_less_asym x y : setup_less x y = true → setup_less y x = false.
Proof.
  unfold setup_less. destruct (Z.eqb_spec (su_ConfirmedAt x) (su_ConfirmedAt y)), (Z.eqb_spec (su_ConfirmedAt y) (su_ConfirmedAt x)); cbn; try lia.
  intros H. apply not_true_is_false. intros H'. pose proof (str_lt_trans _ _ _ H H') as Hi. by rewrite str_lt_irrefl in Hi.
Qed.
Lemma shock_less_trans x y z : setup_less y x = false → setup_less z y = false → setup_less z x = false.
Proof.
  unfold setup_less. destruct (Z.eqb_spec (su_ConfirmedAt y) (su_ConfirmedAt x)), (Z.eqb_spec (su_ConfirmedAt z) (su_ConfirmedAt y)),
    (Z.eqb_spec (su_ConfirmedAt z) (su_ConfirmedAt x)); cbn; try lia.
  apply (str_le_trans (su_Direction x) (su_Direction y) (su_Direction z)).
Qed.
(** A time that grows along the retests of a direction tells the setups apart. *)
Lemma distinct_times cfg m5 buys sells (at_ : confirmed → nat) (t : Setup → Z) : ValidSeries m5 = true →
  (∀ dir c s, direction_retest cfg m5 dir c s → t s = c_Time (m5 !!! at_ c) ∧ at_ c < length m5) →
  direction_retests cfg m5 Market.Buy buys → direction_retests cfg m5 Market.Sell sells →
  (∀ p q : confirmed * Setup, cf_start p.1 < cf_start q.1 ∧ cf_at p.1 < cf_at q.1 → at_ p.1 < at_ q.1) →
  NoDup (map (λ s, (su_Direction s, t s)) (map snd (buys ++ sells))).
Proof.
  intros V Ht [B1 B2] [S1 S2] Hlt. rewrite map_map, map_app. rewrite Forall_forall in B1, S1.
  assert (Hside : ∀ dir l, (∀ p, p ∈ l → direction_retest cfg m5 dir p.1 p.2) →
    StronglySorted (λ p q, cf_start p.1 < cf_start q.1 ∧ cf_at p.1 < cf_at q.1) l → NoDup (map (λ p : confirmed * Setup, (su_Direction p.2, t p.2)) l)).
  { intros dir l F S. eapply StronglySorted_NoDup_map; [exact S|]. intros p q Hp Hq Hpq E. injection E as _ E.
    destruct (Ht _ _ _ (F p Hp)) as [E1 L1], (Ht _ _ _ (F q Hq)) as [E2 L2]. specialize (Hlt p q Hpq). pose proof (Crt.valid_times m5 _ _ V (conj Hlt L2)). lia. }
  apply NoDup_app. split_and!; [by apply (Hside Market.Buy)| |by apply (Hside Market.Sell)].
  intros x (p & <- & Hp%list_elem_of_In)%list_elem_of_In%in_map_iff (q & E & Hq%list_elem_of_In)%list_elem_of_In%in_map_iff. injection E as E _.
  destruct (setup_names _ _ _ _ _ (B1 p Hp)) as [D1 _], (setup_names _ _ _ _ _ (S1 q Hq)) as [D2 _]. rewrite D1, D2 in E. done.
Qed.

(** A setup of the detection comes from a retest of its direction. *)
Lemma detected_setup cfg inM5 asOf s : let m5 := take (S (Z.to_nat asOf)) inM5 in
  s ∈ Setups (DetectAsOf cfg inM5 asOf) → ∃ dir c, (dir = Market.Buy ∨ dir = Market.Sell) ∧ direction_retest cfg m5 dir c s ∧ shock_prices m5 dir s.
Proof.
  intros m5 Hs. pose proof (shock_detect_spec cfg inM5 asOf) as Hd. cbv zeta in Hd. fold m5 in Hd.
  destruct Hd as [H|(_ & _ & V & buys & sells & [B1 _] & [S1 _] & Hset)]; [rewrite H in Hs; by apply not_elem_of_nil in Hs|].
  rewrite Forall_forall in B1, S1. rewrite Hset, sort_slice_perm in Hs. apply list_elem_of_In, in_map_iff in Hs as (p & <- & Hp%list_elem_of_In).
  apply elem_of_app in Hp as [Hp|Hp]; [exists Market.Buy, p.1; pose proof (B1 p Hp)|exists Market.Sell, p.1; pose proof (S1 p Hp)];
    (split_and!; [tauto|done|by eapply retest_prices]).
Qed.

(** * Theorems *)

(** [C13] Every setup the detection reports is one: behind it stands a leg of volatility shocks of its direction with no counter shock since,
    whose extreme is the highest high before the pullback, settled as long as asked for; the first pullback into the band of the leg came
    within its window, did not close too deep, and it or the next candle rejected; stop, band and target lie in this order (reversed for
    SELL), and no candle since the rejection has reached the target. *)
Theorem shock_setup_sound cfg inM5 asOf s :
  let out := DetectAsOf cfg inM5 asOf in let m5 := take (S (Z.to_nat asOf)) inM5 in
  s ∈ Setups out → ∃ dir c, (dir = Market.Buy ∨ dir = Market.Sell) ∧ direction_retest cfg m5 dir c s ∧ shock_prices m5 dir s ∧
    (su_ConfirmedAt s + m5Seconds <= EvaluatedAt out)%Z.
Proof.
  intros out m5 Hs. destruct (detected_setup cfg inM5 asOf s Hs) as (dir & c & Hd & Hr & Hp). exists dir, c. split_and!; [done..|].
  destruct (shock_detect_spec cfg inM5 asOf) as [H|(Ha & He & _)]; [fold out in H; rewrite H in Hs; by apply not_elem_of_nil in Hs|]. fold out m5 in He.
  destruct Hp as [_ (_ & _ & Ht) _ _]. fold m5 in Ht. assert (Hlen : length m5 - 1 = Z.to_nat asOf) by (unfold m5; rewrite length_take; lia).
  rewrite Hlen in Ht. rewrite He. lia.
Qed.
(** A direction confirms at most one setup per leg and at most one per candle: an episode consumes the candles it reads. The setups come
    latest first, and of two confirmed by one candle BUY comes first: no two are tied. *)
Theorem shock_setups_distinct cfg inM5 asOf : let out := DetectAsOf cfg inM5 asOf in
  NoDup (map (λ s, (su_Direction s, su_OriginTime s)) (Setups out)) ∧
  StronglySorted (λ a b, (su_ConfirmedAt b < su_ConfirmedAt a)%Z ∨
    su_ConfirmedAt a = su_ConfirmedAt b ∧ str_lt (su_Direction a) (su_Direction b) = true) (Setups out).
Proof.
  intros out. pose proof (shock_detect_spec cfg inM5 asOf) as Hd. cbv zeta in Hd. fold out in Hd. set (m5 := take _ inM5) in Hd.
  destruct Hd as [H|(_ & _ & V & buys & sells & B & Hs & Hset)]; [rewrite H; split; constructor|]. rewrite Hset. assert (Hn : NoDup (map (λ s, (su_Direction s, su_ConfirmedAt s)) (map snd (buys ++ sells)))).
  { apply (distinct_times cfg m5 _ _ cf_at); [done| |done..|by intros p q []]. intros dir c s H. destruct (setup_names _ _ _ _ _ H) as (_ & _ & _ & _ & ->).
    pose proof (retest_order _ _ _ _ _ H). split; [done|lia]. }
  split.
  - change map with (@fmap list _). rewrite sort_slice_perm. apply (distinct_times cfg m5 _ _ cf_start); [done| |done..|by intros p q []].
    intros dir c s H. destruct (setup_names _ _ _ _ _ H) as (_ & -> & _). pose proof (retest_order _ _ _ _ _ H). split; [done|lia].
  - assert (Hn' : NoDup (map (λ s, (su_Direction s, su_ConfirmedAt s)) (sort_slice setup_less (map snd (buys ++ sells))))).
    { revert Hn. change map with (@fmap list _). by rewrite sort_slice_perm. }
    pose proof (sort_slice_sorted setup_less (λ _, True)) as Hl. specialize (Hl (λ x y _ _, shock_less_asym x y) (λ x y z _ _ _, shock_less_trans x y z)
      (map snd (buys ++ sells)) ltac:(by apply Forall_forall)).
    clear -Hl Hn'. induction Hl as [|a l Hl IH Ha]; constructor; cbn in Hn'; apply NoDup_cons in Hn' as [Ha' Hn']; [by apply IH|].
    rewrite Forall_forall in *. intros b Hb. specialize (Ha b Hb). unfold setup_less in Ha. destruct (Z.eqb_spec (su_ConfirmedAt b) (su_ConfirmedAt a)) as [E|]; cbn in Ha; [|left; lia].
    right. split; [done|]. destruct (str_lt_total (su_Direction a) (su_Direction b)) as [|[Ed|]]; [done| |congruence]. destruct Ha'. apply list_elem_of_In, in_map_iff. exists b. rewrite <- Ed, E. split; [done|by apply list_elem_of_In].
Qed.

(** A candle of ten points over flat ones, and the pullback to its middle that closes up on a long lower wick. *)
Definition demo_config : Config := mkConfig 2 3 3 0.6 4 1 12 0.4 5 2 5 0.1 0.5 4 1 0.1 [].
Definition demo_shock : list Candle :=
  imap (λ i x, Crt.bar_of (300 * Z.of_nat i) x)
    [(100, 101, 99.5, 100.5); (100.5, 101, 100, 100.25); (100.25, 101, 100, 100.75); (100.75, 101, 100, 100); (100, 110, 100, 109.5); (109.5, 110, 108, 109);
     (109, 109.25, 106, 106.25); (105, 106, 104, 105.5)]%float.
Definition shock_summary (out : Analysis) : list (string * Z * Z * float * float * string) * list string :=
  (map (λ s, (su_Direction s, su_OriginTime s, su_ConfirmedAt s, su_Stop s, su_Target s, su_TargetKind s)) (Setups out), map rj_Reason (Rejections out)).

Example demo_shock_setups :
  shock_summary (Detect demo_config demo_shock) = ([("BUY", 1200%Z, 2100%Z, 103.31999999999999%float, 110%float, TargetShockExtreme)], []) ∧
  shock_summary (Detect demo_config (Mirror demo_shock)) = ([("SELL", 1200%Z, 2100%Z, (-103.31999999999999)%float, (-110)%float, TargetShockExtreme)], []).
Proof. vm_compute. split; reflexivity. Qed.
Lemma shock_setup_sound_witness :
  ∃ s dir c, s ∈ Setups (Detect demo_config demo_shock) ∧ direction_retest demo_config demo_shock dir c s ∧ shock_prices demo_shock dir s.
Proof.
  assert (H : match Setups (DetectAsOf demo_config demo_shock 7) with [s] => True | _ => False end) by (vm_compute; exact I).
  destruct (Setups (DetectAsOf demo_config demo_shock 7)) as [|s [|? ?]] eqn:E; [destruct H| |destruct H].
  assert (Hs : s ∈ Setups (DetectAsOf demo_config demo_shock 7)) by (rewrite E; left).
  destruct (shock_setup_sound demo_config demo_shock 7 s Hs) as (dir & c & _ & Hr & Hp & _). exists s, dir, c. split; [exact Hs|]. split; [exact Hr|exact Hp].
Defined.

(** * Theorems: the strategy *)

(** The opportunity that stands for a setup. *)
Record published_as (s : Strategy) (ctx : StrategyContext) (setup : Setup) (c : Opportunity.Candidate) : Prop := {
  pa_sound : Opportunity.candidate_sound c;
  pa_prices : Opportunity.ca_Direction c = su_Direction setup ∧ Opportunity.ca_Entry c = Opportunity.mkEntryZone (su_EntryLow setup) (su_EntryHigh setup) ∧
    pl_Price (Opportunity.ca_Invalidation c) = su_Stop setup ∧ map pl_Price (Opportunity.ca_Targets c) = [su_Target setup];
  pa_identity : Opportunity.ca_StructuralID c = structural_id setup ∧ Opportunity.ca_Symbol c = sx_Symbol ctx;
  pa_times : Opportunity.ca_FormedAt c = su_ShockTime setup ∧ Opportunity.ca_CreatedAt c = su_ConfirmedAt setup;
  pa_quality : Quality.unit_score (Opportunity.q_Overall (Opportunity.ca_Quality c));
  pa_stars : (ConfluenceFloor (st_detector s) <=
    Confluence.sc_SelectedStars (Confluence.Evaluate (Confluence.mkZoneQuality 0 0) (factors s ctx setup) (ConfluenceCfg (st_detector s)) 0))%Z;
  pa_budget : Active (st_budget s) = true → (MaxPips (st_budget s) >? 0)%float = true →
    (risk_pips (st_budget s) (reference_of setup) (su_Stop setup) >? MaxPips (st_budget s) + 1e-9)%float = false
}.
Lemma apply_budget b refusals reference stop : let '(code, publish, refusals') := Apply b refusals reference stop in
  if publish then refusals' = refusals ∧ (Active b = true → (MaxPips b >? 0)%float = true → (risk_pips b reference stop >? MaxPips b + 1e-9)%float = false)
  else refusals' = counted 1 refusals.
Proof.
  unfold Apply. destruct (Active b); cbn [negb]; [|by split]. cbv zeta.
  destruct ((MaxPips b >? 0)%float && (risk_pips b reference stop >? MaxPips b + 1e-9)%float) eqn:E; [done|].
  rewrite andb_false_iff in E. destruct (_ && _); (split; [done|]; intros _ Hm; rewrite Hm in E; by destruct E).
Qed.
Lemma shock_model_total s ctx setup : ∃ m, model_of s ctx setup = Some m ∧ Quality.unit_score (Quality.Overall m).
Proof. apply Quality.run_named; unfold measurements; by destruct (momentum_of s ctx setup) as [[]|]. Qed.
Definition over_budget (reason : string) : bool := bool_decide (reason = ReasonRiskExceedsEnvelope).
Lemma shock_candidate_total hash s ctx setup refusals : (su_ShockTime setup <= su_RetestTime setup <= su_ConfirmedAt setup)%Z →
  ∃ r, candidate hash s ctx setup refusals =
    (Some r, match r with inl reason => if over_budget reason then counted 1 refusals else refusals | inr _ => refusals end) ∧
  ∀ c, r = inr c → published_as s ctx setup c.
Proof.
  intros Ht. unfold candidate. cbv zeta. match goal with |- context [if (?x <? ?y)%Z then _ else _] => destruct (Z.ltb_spec x y) as [|Hst] end; [exists (inl ReasonConfluenceBelowFloor); by split|].
  pose proof (apply_budget (st_budget s) refusals (reference_of setup) (su_Stop setup)) as Hb.
  destruct (Apply (st_budget s) refusals (reference_of setup) (su_Stop setup)) as [[code [|]] refusals']; cbn [negb]; [|rewrite Hb; exists (inl ReasonRiskExceedsEnvelope); by split].
  destruct Hb as [-> Hb]. destruct (shock_model_total s ctx setup) as (m & -> & Hu). cbn [mbind option_bind].
  destruct (TechniqueCandidate.Candidate _ _) as [c0|] eqn:Ec; [|exists (inl ReasonInvalidStopGeometry); by split]. eexists (inr _). split; [done|]. intros c [= <-].
  destruct (TechniqueCandidate.candidate_spec _ _ _ Ec) as (C1 & C2 & C3 & C4 & C5 & C6 & C7 & _). destruct (TechniqueCandidate.candidate_target _ _ _ Ec) as [C8 C9].
  cbn in C2, C3, C4, C5, C6, C7, C8, C9. split.
  - destruct (Opportunity.cs_times _ C1). apply CrtStrategy.with_setup_within; [done|lia|lia].
  - cbn. rewrite C2, C4, C5, C8. done.
  - cbn. by rewrite C3.
  - cbn. by rewrite C6, C7.
  - cbn. by rewrite C9.
  - done.
  - done.
Qed.
(** The refusals of the budget among the rejections, as the counter counts them. *)
Definition budget_refusals (l : list Rejection) : Z := Z.of_nat (length (List.filter (λ r, over_budget (rj_Reason r)) l)).
Lemma counted_add m n r : counted m (counted n r) = counted (m + n) r.
Proof. destruct r as [k|]; [|done]. cbn. f_equal. lia. Qed.
Lemma counted_0 r : counted 0 r = r.
Proof. destruct r as [k|]; [|done]. cbn. f_equal. lia. Qed.
Lemma shock_publish_total hash s ctx setups : Forall (λ x, su_ShockTime x <= su_RetestTime x <= su_ConfirmedAt x)%Z setups → ∀ refusals, ∃ kept rejections,
  publish_loop hash s ctx setups refusals = (Some (kept, rejections), counted (budget_refusals rejections) refusals) ∧
  Forall (λ p, published_as s ctx p.1 p.2) kept ∧ sublist (map fst kept) setups ∧ length kept + length rejections = length setups.
Proof.
  induction 1 as [|setup setups Ht _ IH]; intros refusals; cbn [publish_loop].
  { exists [], []. rewrite counted_0. split_and!; try done; constructor. }
  destruct (shock_candidate_total hash s ctx setup refusals Ht) as (r & -> & Hr).
  destruct (IH (match r with inl reason => if over_budget reason then counted 1 refusals else refusals | inr _ => refusals end))
    as (kept & rejections & -> & Hk & Hsub & Hl). cbn [mbind option_bind]. destruct r as [reason|c].
  - exists kept, (mkRejection reason (su_Direction setup) (su_ConfirmedAt setup) :: rejections). split_and!; [|done|by constructor|cbn; lia].
    f_equal. unfold budget_refusals. cbn [List.filter rj_Reason]. destruct (over_budget reason); [|done]. rewrite counted_add. cbn [length]. f_equal. lia.
  - exists ((setup, c) :: kept), rejections. split_and!; [done|constructor; [by apply Hr|done]|by constructor|cbn; lia].
Qed.
(** [C14] The strategy never panics, whatever the candles, and publishes one opportunity per setup it keeps: it satisfies the candidate contract,
    has the setup's band, stop, target and times, a quality between zero and one, the stars asked for and a risk within the stop budget. The
    setups it keeps are among those of the detection, in their order; every other one is accounted for by a rejection, and the counter of
    refusals counts those the budget refused. *)
Theorem shock_strategy_sound hash s ctx refusals :
  ∃ a cs refusals', Analyze hash s ctx refusals = (Some (a, cs), refusals') ∧ Forall2 (published_as s ctx) (Setups a) cs ∧
  ∀ m5, SymbolAllowed (Symbols (st_cfg s)) (sx_Symbol ctx) = true → sx_Frames ctx !! tf_M5 = Some m5 → sf_Candles m5 ≠ [] →
    let d := Detect (st_cfg s) (sf_Candles m5) in sublist (Setups a) (Setups d) ∧ ∃ more, Rejections a = Rejections d ++ more ∧
      length (Setups a) + length more = length (Setups d) ∧ refusals' = counted (budget_refusals more) refusals.
Proof.
  unfold Analyze. cbv zeta. destruct (SymbolAllowed _ _); cbn [negb]; [|eexists _, _, _; split; [done|split; [constructor|done]]].
  destruct (sx_Frames ctx !! tf_M5) as [m5|]; [|eexists _, _, _; split; [done|split; [constructor|done]]].
  destruct (Nat.eqb_spec (length (sf_Candles m5)) 0) as [E|_].
  { apply length_zero_iff_nil in E. eexists _, _, _; split; [done|split; [constructor|]]. by intros ? _ [= <-]. }
  set (d := Detect (st_cfg s) (sf_Candles m5)). assert (Ht : Forall (λ x, su_ShockTime x <= su_RetestTime x <= su_ConfirmedAt x)%Z (Setups d)).
  { apply Forall_forall. intros x Hx. destruct (detected_setup _ _ _ _ Hx) as (dir & c & _ & _ & [_ (_ & Hp & _) _ _]). lia. }
  destruct (shock_publish_total hash s ctx (Setups d) Ht refusals) as (kept & rejections & -> & Hk & Hsub & Hl). cbn [mbind option_bind].
  eexists _, _, _. split; [done|]. cbn [Setups Rejections]. split.
  - clear -Hk. induction Hk; cbn; by constructor.
  - intros m5' _ [= <-] _. fold d. split; [done|]. exists rejections. rewrite length_map. done.
Qed.
(** The demonstration's opportunity. *)
Definition demo_shock_strategy : Strategy := mkStrategy demo_config CrtStrategy.demo_detector_settings (mkStopBudget 40 0 0.1 0) "f".
Definition demo_shock_context : StrategyContext := mkContext "XAUUSD" {[ tf_M5 := demo_frame demo_shock ]} "" None demo_state.
Example demo_shock_candidate :
  (λ r, (map (λ c, (Opportunity.ca_Direction c, Opportunity.ca_StructuralID c, Opportunity.ca_Evidence c, Opportunity.ca_CreatedAt c)) <$> r.1, r.2))
    (Evaluate (λ s, "id:" +:+ s) demo_shock_strategy demo_shock_context (Some 0%Z)) =
  (Some [("BUY", "technique:shock_retest:buy:1200",
    ["m5_volatility_shock"; "m5_shock_first_retest"; "m5_shock_retest_rejection"; StopBudgetStructuralEvidence], 2100%Z)], Some 0%Z).
Proof. vm_compute. reflexivity. Qed.
(** A budget of ten pips refuses the setup and counts it. *)
Example demo_shock_over_budget :
  let s := mkStrategy demo_config CrtStrategy.demo_detector_settings (mkStopBudget 10 0 0.1 0) "f" in
  (λ r, ((λ x, map rj_Reason (Rejections x.1)) <$> r.1, r.2)) (Analyze (λ s, s) s demo_shock_context (Some 3%Z)) = (Some [ReasonRiskExceedsEnvelope], Some 4%Z).
Proof. vm_compute. reflexivity. Qed.
