(* ===== verification/OpportunityBook.v ===== *)
(** Package opportunity: the lifecycle book of one symbol. Every operation, the sweeps over all
    records in identifier order, and the once-only publication contract. *)
From S2P Require Import Prelude Float64 Market Opportunity.
From Stdlib Require Import Floats.

(** * book.go: data *)

Inductive State := StateCreated | StateActive | StateInvalidated | StateExpired.
#[export] Instance State_eq_dec : EqDecision State.
Proof. solve_decision. Defined.
Definition ReasonStructureInvalidated : string := "STRUCTURE_INVALIDATED".
Definition ReasonSetupExpired : string := "SETUP_EXPIRED".
Definition ReasonStructureClosedThrough : string := "STRUCTURE_CLOSED_THROUGH".
Record Terminal := mkTerminal { tm_Reason : string; tm_At : Z }.
Record BookRecord := mkRecord {
  rec_Candidate : Candidate; rec_State : State; rec_LastObservedAt : Z; rec_Terminal : option Terminal
}.
Inductive TransitionKind :=
  TransitionCreated | TransitionActivated | TransitionDuplicate | TransitionInvalidated | TransitionExpired
  | TransitionNoop.
#[export] Instance TransitionKind_eq_dec : EqDecision TransitionKind.
Proof. solve_decision. Defined.
Record Transition := mkTransition { tr_Kind : TransitionKind; tr_Record : BookRecord }.
Definition ShouldPublish (t : Transition) : bool :=
  bool_decide (tr_Kind t = TransitionCreated) || bool_decide (tr_Kind t = TransitionInvalidated) ||
  bool_decide (tr_Kind t = TransitionExpired).
Abbreviation Book := (gmap string BookRecord).
Definition NewBook : Book := ∅.

(** * book.go: reason codes *)

Definition is_AZ (r : Z) : bool := in_range 65 90 r.
Definition is_09 (r : Z) : bool := in_range 48 57 r.
Definition underscore : Z := 95.
Definition valid_runes (rs : list Z) : bool :=
  match rs with
  | [] => false
  | r :: rest => is_AZ r && forallb (λ c, is_AZ c || is_09 c || (c =? underscore)%Z) rest
  end.
Definition valid (r : string) : bool := valid_runes (runes r).
Fixpoint trim_left (rs : list Z) : list Z :=
  match rs with
  | r :: rest => if (r =? underscore)%Z then trim_left rest else rs
  | [] => []
  end.
Definition trim (rs : list Z) : list Z := reverse (trim_left (reverse (trim_left rs))).
(** The code is built rune by rune; one that is returned has passed [valid], so it is ASCII. *)
Definition reasonCodeForInvalidationLabel (u : Unicode) (label : string) : string :=
  if bool_decide (label = "") then ReasonStructureInvalidated
  else
    let code := trim (map (λ r, if IsLetter u r || IsDigit u r then ToUpper u r else underscore) (runes label)) in
    match code with
    | [] => ReasonStructureInvalidated
    | first :: _ =>
        if negb (is_AZ first) then ReasonStructureInvalidated
        else if negb (valid_runes code) then ReasonStructureInvalidated
        else ascii_string code
    end.

(** * book.go: operations *)

Definition sameSemanticOpportunity (a b : Candidate) : bool :=
  bool_decide (ca_Strategy a = ca_Strategy b) && bool_decide (ca_StrategyVersion a = ca_StrategyVersion b) &&
  bool_decide (ca_Symbol a = ca_Symbol b) && bool_decide (ca_Direction a = ca_Direction b).
Definition Observe (b : Book) (c : Candidate) (observedAt : Z) : result (Transition * Book) :=
  match Validate c with
  | Some e => Err e
  | None =>
      if (observedAt <? ca_CreatedAt c)%Z then Err "opportunity: observation predates candidate creation"
      else match b !! ca_ID c with
      | Some existing =>
          if negb (sameSemanticOpportunity (rec_Candidate existing) c)
          then Err "opportunity: ID collides with a different semantic opportunity"
          else if (observedAt <? rec_LastObservedAt existing)%Z
          then Err "opportunity: observation is older than the current lifecycle record"
          else match rec_State existing with
          | StateCreated =>
              let r := mkRecord (rec_Candidate existing) StateActive observedAt (rec_Terminal existing) in
              Ok (mkTransition TransitionActivated r, <[ca_ID c := r]> b)
          | StateActive =>
              let r := mkRecord (rec_Candidate existing) StateActive observedAt (rec_Terminal existing) in
              Ok (mkTransition TransitionDuplicate r, <[ca_ID c := r]> b)
          | _ => Ok (mkTransition TransitionNoop existing, b)
          end
      | None =>
          if (ca_ExpiresAt c <=? observedAt)%Z then
            let r := mkRecord c StateExpired observedAt (Some (mkTerminal ReasonSetupExpired observedAt)) in
            Ok (mkTransition TransitionExpired r, <[ca_ID c := r]> b)
          else
            let r := mkRecord c StateCreated observedAt None in
            Ok (mkTransition TransitionCreated r, <[ca_ID c := r]> b)
      end
  end.
Definition invalidated (r : BookRecord) (reason : string) (at' : Z) : BookRecord :=
  mkRecord (rec_Candidate r) StateInvalidated (rec_LastObservedAt r) (Some (mkTerminal reason at')).
Definition Invalidate (b : Book) (id reason : string) (at' : Z) : result (Transition * Book) :=
  if bool_decide (id = "") || negb (valid reason) || (at' <? 0)%Z
  then Err "opportunity: invalidation needs an ID, machine-readable reason, and non-negative time"
  else match b !! id with
  | None => Err "opportunity: cannot invalidate unknown ID"
  | Some r =>
      if (at' <? rec_LastObservedAt r)%Z then Err "opportunity: invalidation predates the current lifecycle record"
      else match rec_State r with
      | StateInvalidated | StateExpired => Ok (mkTransition TransitionNoop r, b)
      | _ =>
          let r' := invalidated r reason at' in
          Ok (mkTransition TransitionInvalidated r', <[id := r']> b)
      end
  end.
Definition live (r : BookRecord) : bool :=
  bool_decide (rec_State r = StateCreated) || bool_decide (rec_State r = StateActive).
(** One turn of the two close-through loops; [cond] is the reason to invalidate, if any. *)
Definition invalidate_step (cond : Candidate → option string) (at' : Z) (acc : Book * list Transition)
    (id : string) : Book * list Transition :=
  let '(b, ts) := acc in
  match b !! id with
  | None => acc
  | Some r =>
      if negb (live r) then acc
      else match cond (rec_Candidate r) with
      | None => acc
      | Some reason =>
          match Invalidate b id reason at' with
          | Err _ => acc
          | Ok (t, b') => if bool_decide (tr_Kind t = TransitionInvalidated) then (b', ts ++ [t]) else (b', ts)
          end
      end
  end.
Definition closed_through (u : Unicode) (timeframe : string) (close : float) (c : Candidate) : option string :=
  if negb (bool_decide (ca_ObservedTimeframe c = timeframe)) then None
  else if (bool_decide (ca_Direction c = Buy) && (close <=? pl_Price (ca_Invalidation c))%float) ||
          (bool_decide (ca_Direction c = Sell) && (close >=? pl_Price (ca_Invalidation c))%float)
  then Some (reasonCodeForInvalidationLabel u (pl_Label (ca_Invalidation c)))
  else None.
Definition InvalidateByClose (u : Unicode) (b : Book) (timeframe : string) (close : float) (at' : Z) :
    Book * list Transition :=
  if bool_decide (timeframe = "") || negb (finite close) || (at' <? 0)%Z then (b, [])
  else foldl (invalidate_step (closed_through u timeframe close) at') (b, []) (sorted_keys b).
Definition structure_closed_through (buffer : string → option float) (timeframe : string) (close : float)
    (c : Candidate) : option string :=
  match ca_Structure c with
  | None => None
  | Some s =>
      if negb (bool_decide (sz_Timeframe s = timeframe)) then None
      else match buffer (ca_Strategy c) with
      | None => None
      | Some margin =>
          if negb (finite margin) || (margin <? 0)%float then None
          else if (bool_decide (ca_Direction c = Buy) && (close <? sz_Low s - margin)%float) ||
                  (bool_decide (ca_Direction c = Sell) && (close >? sz_High s + margin)%float)
          then Some ReasonStructureClosedThrough
          else None
      end
  end.
Definition InvalidateByStructureClose (b : Book) (timeframe : string) (close : float) (at' : Z)
    (buffer : string → option float) : Book * list Transition :=
  if bool_decide (timeframe = "") || negb (finite close) || (at' <? 0)%Z then (b, [])
  else foldl (invalidate_step (structure_closed_through buffer timeframe close) at') (b, []) (sorted_keys b).
Definition expired (r : BookRecord) (now : Z) : BookRecord :=
  mkRecord (rec_Candidate r) StateExpired (rec_LastObservedAt r) (Some (mkTerminal ReasonSetupExpired now)).
Definition expire_step (now : Z) (acc : Book * list Transition) (id : string) : Book * list Transition :=
  let '(b, ts) := acc in
  match b !! id with
  | None => acc
  | Some r =>
      if live r && (ca_ExpiresAt (rec_Candidate r) <=? now)%Z
      then (<[id := expired r now]> b, ts ++ [mkTransition TransitionExpired (expired r now)])
      else acc
  end.
Definition Expire (b : Book) (now : Z) : Book * list Transition :=
  if (now <? 0)%Z then (b, []) else foldl (expire_step now) (b, []) (sorted_keys b).
Definition Live (b : Book) : list Candidate :=
  omap (λ id, match b !! id with Some r => if live r then Some (rec_Candidate r) else None | None => None end)
    (sorted_keys b).
Definition Record_ (b : Book) (id : string) : option BookRecord := b !! id.

(** * Lemmas: reason codes *)

Lemma in_range_iff lo hi r : in_range lo hi r = true ↔ (lo <= r <= hi)%Z.
Proof. unfold in_range. rewrite andb_true_iff, !Z.leb_le. done. Qed.

Lemma valid_runes_ascii rs : valid_runes rs = true → Forall (λ r, 0 <= r < 128)%Z rs.
Proof.
  destruct rs as [|r rest]; [done|]. cbn [valid_runes]. rewrite andb_true_iff. unfold is_AZ at 1. rewrite in_range_iff.
  intros [Hr Hrest]. constructor; [lia|]. apply Forall_forall. intros c Hc%list_elem_of_In.
  rewrite forallb_forall in Hrest. specialize (Hrest c Hc). unfold is_AZ, is_09 in Hrest.
  rewrite !orb_true_iff, !in_range_iff, Z.eqb_eq in Hrest. unfold underscore in Hrest. lia.
Qed.

Lemma reason_code_valid u label : valid (reasonCodeForInvalidationLabel u label) = true.
Proof.
  unfold reasonCodeForInvalidationLabel. case_bool_decide; [done|].
  destruct (trim _) as [|first code] eqn:E; [done|]. destruct (negb (is_AZ first)); [done|].
  destruct (valid_runes (first :: code)) eqn:Ev; [|done]. cbn [negb].
  unfold valid. by rewrite runes_ascii by by apply valid_runes_ascii.
Qed.

(** * Lemmas: a sweep over the sorted identifiers acts on each record on its own *)

Section sweep.
Variable g : string → BookRecord → option (TransitionKind * BookRecord).
Definition pointwise_step (acc : Book * list Transition) (id : string) : Book * list Transition :=
  let '(b, ts) := acc in
  match b !! id with
  | None => acc
  | Some r =>
      match g id r with
      | None => acc
      | Some (k, r') => (<[id := r']> b, ts ++ [mkTransition k r'])
      end
  end.
Definition swept (id : string) (r : BookRecord) : BookRecord :=
  match g id r with None => r | Some (_, r') => r' end.
Definition announced (b : Book) (id : string) : option Transition :=
  match b !! id with
  | None => None
  | Some r => match g id r with None => None | Some (k, r') => Some (mkTransition k r') end
  end.

Lemma sweep_fold ids b ts :
  NoDup ids →
  let '(b', ts') := foldl pointwise_step (b, ts) ids in
  (∀ id, b' !! id = if decide (id ∈ ids) then swept id <$> b !! id else b !! id) ∧
  ts' = ts ++ omap (announced b) ids.
Proof.
  intros Hnd. revert b ts. induction Hnd as [|id ids Hni Hnd IH]; intros b ts; cbn [foldl].
  { split; [|by rewrite app_nil_r]. intros id. rewrite decide_False by set_solver. done. }
  destruct (announced b id) as [t|] eqn:Ea; unfold announced in Ea.
  - destruct (b !! id) as [r|] eqn:Eb; [|done]. destruct (g id r) as [[k r']|] eqn:Eg; [|done].
    injection Ea as <-.
    assert (E : pointwise_step (b, ts) id = (<[id := r']> b, ts ++ [mkTransition k r']))
      by (unfold pointwise_step; by rewrite Eb, Eg).
    rewrite E. specialize (IH (<[id := r']> b) (ts ++ [mkTransition k r'])).
    destruct (foldl _ _ _) as [b' ts']. destruct IH as [IH1 IH2]. split.
    + intros id'. rewrite IH1. destruct (decide (id' = id)) as [->|].
      * rewrite (decide_False (P := id ∈ ids)), (decide_True (P := id ∈ id :: ids)) by set_solver.
        rewrite lookup_insert_eq, Eb. cbn.
        unfold swept. by rewrite Eg.
      * rewrite !lookup_insert_ne by done. do 2 case_decide; set_solver.
    + rewrite IH2. cbn [omap list_omap]. unfold announced at 2. rewrite Eb, Eg, <- app_assoc. cbn [app].
      f_equal. f_equal. apply omap_ext_in. intros id' Hid'. unfold announced.
      rewrite lookup_insert_ne by (intros ->; set_solver). done.
  - assert (E : pointwise_step (b, ts) id = (b, ts) ∧ swept id <$> b !! id = b !! id).
    { unfold pointwise_step, swept. destruct (b !! id) as [r|] eqn:Eb; [|done]. cbn.
      by destruct (g id r) as [[k r']|]. }
    destruct E as [-> Esw]. specialize (IH b ts). destruct (foldl _ _ _) as [b' ts']. destruct IH as [IH1 IH2]. split.
    + intros id'. rewrite IH1. destruct (decide (id' = id)) as [->|].
      * rewrite (decide_False (P := id ∈ ids)), (decide_True (P := id ∈ id :: ids)) by set_solver. done.
      * do 2 case_decide; set_solver.
    + rewrite IH2. cbn [omap list_omap]. unfold announced at 2. by rewrite Ea.
Qed.

Lemma sweep_all b :
  let '(b', ts) := foldl pointwise_step (b, []) (sorted_keys b) in
  (∀ id, b' !! id = swept id <$> b !! id) ∧ ts = omap (announced b) (sorted_keys b).
Proof.
  pose proof (sweep_fold (sorted_keys b) b [] (sorted_keys_NoDup b)) as H.
  destruct (foldl _ _ _) as [b' ts]. destruct H as [H1 H2]. split; [|done].
  intros id. rewrite H1. case_decide as Hin; [done|]. rewrite elem_of_sorted_keys in Hin.
  destruct (b !! id) eqn:E; [|done]. exfalso. apply Hin. by eexists.
Qed.
End sweep.

Definition invalidation_of (cond : Candidate → option string) (at' : Z) (id : string) (r : BookRecord) :
    option (TransitionKind * BookRecord) :=
  if live r then
    match cond (rec_Candidate r) with
    | None => None
    | Some reason =>
        if bool_decide (id = "") || negb (valid reason) || (at' <? 0)%Z || (at' <? rec_LastObservedAt r)%Z then None
        else Some (TransitionInvalidated, invalidated r reason at')
    end
  else None.
Definition expiry_of (now : Z) (id : string) (r : BookRecord) : option (TransitionKind * BookRecord) :=
  if live r && (ca_ExpiresAt (rec_Candidate r) <=? now)%Z then Some (TransitionExpired, expired r now) else None.

Lemma invalidate_step_pointwise cond at' acc id :
  invalidate_step cond at' acc id = pointwise_step (invalidation_of cond at') acc id.
Proof.
  destruct acc as [b ts]. unfold invalidate_step, pointwise_step, invalidation_of.
  destruct (b !! id) as [r|] eqn:Eb; [|done]. destruct (live r) eqn:El; cbn [negb]; [|done].
  destruct (cond _) as [reason|]; [|done]. unfold Invalidate. rewrite Eb.
  destruct (_ || _); cbn [orb]; [done|]. destruct (at' <? _)%Z; [done|].
  unfold live in El. by destruct (rec_State r).
Qed.

Lemma expire_step_pointwise now acc id : expire_step now acc id = pointwise_step (expiry_of now) acc id.
Proof.
  destruct acc as [b ts]. unfold expire_step, pointwise_step, expiry_of.
  destruct (b !! id) as [r|]; [|done]. by destruct (_ && _).
Qed.

Lemma foldl_ext' {A B} (f g : A → B → A) l a : (∀ a b, f a b = g a b) → foldl f a l = foldl g a l.
Proof. intros H. revert a. induction l; intros; cbn; [done|]. by rewrite H. Qed.

(** A close sweep, as one statement about every record and the announcements in order. *)
Lemma invalidate_sweep cond at' b :
  let '(b', ts) := foldl (invalidate_step cond at') (b, []) (sorted_keys b) in
  (∀ id, b' !! id = swept (invalidation_of cond at') id <$> b !! id) ∧
  ts = omap (announced (invalidation_of cond at') b) (sorted_keys b).
Proof.
  rewrite (foldl_ext' _ (pointwise_step (invalidation_of cond at'))) by (intros; apply invalidate_step_pointwise).
  apply sweep_all.
Qed.
Lemma expire_sweep now b :
  let '(b', ts) := foldl (expire_step now) (b, []) (sorted_keys b) in
  (∀ id, b' !! id = swept (expiry_of now) id <$> b !! id) ∧
  ts = omap (announced (expiry_of now) b) (sorted_keys b).
Proof.
  rewrite (foldl_ext' _ (pointwise_step (expiry_of now))) by (intros; apply expire_step_pointwise).
  apply sweep_all.
Qed.

(** * Lemmas: the lifecycle *)

Record record_wf (id : string) (r : BookRecord) : Prop := {
  rw_id : ca_ID (rec_Candidate r) = id;
  rw_valid : Validate (rec_Candidate r) = None;
  rw_observed : (ca_CreatedAt (rec_Candidate r) <= rec_LastObservedAt r)%Z;
  rw_terminal :
    match rec_State r with
    | StateCreated | StateActive => rec_Terminal r = None
    | StateInvalidated => ∃ t, rec_Terminal r = Some t ∧ (rec_LastObservedAt r <= tm_At t)%Z ∧ valid (tm_Reason t) = true
    | StateExpired => ∃ t, rec_Terminal r = Some t ∧ tm_Reason t = ReasonSetupExpired ∧
        (ca_ExpiresAt (rec_Candidate r) <= tm_At t)%Z
    end;
}.
Definition book_wf (b : Book) : Prop := map_Forall record_wf b.

(** A record only moves forward: its candidate is frozen, and a terminal record is final. *)
Definition evolves (r r' : BookRecord) : Prop :=
  rec_Candidate r' = rec_Candidate r ∧ (rec_LastObservedAt r <= rec_LastObservedAt r')%Z ∧
  (live r = false → r' = r) ∧ (rec_State r = StateActive → rec_State r' ≠ StateCreated).
Definition book_evolves (b b' : Book) : Prop :=
  ∀ id r, b !! id = Some r → ∃ r', b' !! id = Some r' ∧ evolves r r'.

(** What has been announced for publication, per identifier. *)
Definition published (id : string) (ts : list Transition) : list TransitionKind :=
  omap (λ t, if ShouldPublish t && bool_decide (ca_ID (rec_Candidate (tr_Record t)) = id)
             then Some (tr_Kind t) else None) ts.
Definition lifecycle_log (o : option BookRecord) (log : list TransitionKind) : Prop :=
  match o with
  | None => log = []
  | Some r =>
      match rec_State r with
      | StateCreated | StateActive => log = [TransitionCreated]
      | StateInvalidated => log = [TransitionCreated; TransitionInvalidated]
      | StateExpired => log = [TransitionCreated; TransitionExpired] ∨ log = [TransitionExpired]
      end
  end.

Inductive Op :=
  | OpObserve (c : Candidate) (observedAt : Z)
  | OpInvalidate (id reason : string) (at' : Z)
  | OpClose (timeframe : string) (close : float) (at' : Z)
  | OpStructureClose (timeframe : string) (close : float) (at' : Z) (buffer : string → option float)
  | OpExpire (now : Z).

Section run.
Context (u : Unicode).
(** The transitions an operation returns; an error returns none and changes nothing. *)
Definition run_op (b : Book) (op : Op) : Book * list Transition :=
  let single (r : result (Transition * Book)) :=
    match r with Ok (t, b') => (b', [t]) | Err _ => (b, []) end in
  match op with
  | OpObserve c t => single (Observe b c t)
  | OpInvalidate id reason t => single (Invalidate b id reason t)
  | OpClose tf close t => InvalidateByClose u b tf close t
  | OpStructureClose tf close t buffer => InvalidateByStructureClose b tf close t buffer
  | OpExpire now => Expire b now
  end.
Fixpoint run_ops (b : Book) (ops : list Op) : Book * list Transition :=
  match ops with
  | [] => (b, [])
  | op :: ops =>
      let '(b', ts) := run_op b op in
      let '(b'', ts') := run_ops b' ops in (b'', ts ++ ts')
  end.

(** What one operation guarantees. *)
Definition op_ok (b b' : Book) (ts : list Transition) : Prop :=
  book_wf b' ∧ book_evolves b b' ∧
  ∀ id log, lifecycle_log (b !! id) log → lifecycle_log (b' !! id) (log ++ published id ts).

Lemma evolves_refl r : evolves r r.
Proof. split_and!; [done|lia|done|]. by intros ->. Qed.

Lemma op_ok_noop b ts : book_wf b → (∀ id, published id ts = []) → op_ok b b ts.
Proof.
  intros Hb Hp. split_and!; [done| |].
  - intros id r Hr. exists r. split; [done|apply evolves_refl].
  - intros id log Hl. by rewrite Hp, app_nil_r.
Qed.

Lemma published_other id id' k r :
  ca_ID (rec_Candidate r) = id' → id ≠ id' → published id [mkTransition k r] = [].
Proof.
  intros <- Hne. unfold published. cbn. rewrite bool_decide_false by congruence. by rewrite andb_false_r.
Qed.
Lemma published_own k r :
  published (ca_ID (rec_Candidate r)) [mkTransition k r] = if ShouldPublish (mkTransition k r) then [k] else [].
Proof.
  unfold published. cbn. rewrite bool_decide_true, andb_true_r by done. by destruct (ShouldPublish _).
Qed.

(** Setting one record. *)
Lemma op_ok_set b id k r :
  book_wf b → record_wf id r →
  (∀ r0, b !! id = Some r0 → evolves r0 r) →
  (∀ log, lifecycle_log (b !! id) log →
    lifecycle_log (Some r) (log ++ if ShouldPublish (mkTransition k r) then [k] else [])) →
  op_ok b (<[id := r]> b) [mkTransition k r].
Proof.
  intros Hb Hr He Hl. split_and!.
  - by apply map_Forall_insert_2.
  - intros id' r0 Hr0. destruct (decide (id' = id)) as [->|].
    + exists r. rewrite lookup_insert_eq. auto.
    + exists r0. rewrite lookup_insert_ne by done. split; [done|apply evolves_refl].
  - intros id' log Hlog. pose proof (rw_id _ _ Hr) as Hid. destruct (decide (id' = id)) as [->|].
    + rewrite lookup_insert_eq. rewrite <- Hid at 1. rewrite published_own. auto.
    + rewrite lookup_insert_ne, (published_other _ id), app_nil_r by done. done.
Qed.

Lemma Observe_ok b c t : book_wf b → let '(b', ts) := run_op b (OpObserve c t) in op_ok b b' ts.
Proof.
  intros Hb. cbn [run_op]. unfold Observe.
  destruct (Validate c) as [e|] eqn:Hv; [by apply op_ok_noop|].
  destruct (Z.ltb_spec t (ca_CreatedAt c)); [by apply op_ok_noop|].
  destruct (b !! ca_ID c) as [r|] eqn:Er.
  - destruct (negb _); [by apply op_ok_noop|].
    destruct (Z.ltb_spec t (rec_LastObservedAt r)); [by apply op_ok_noop|].
    pose proof (Hb _ _ Er) as [Hid Hval Hobs Hterm].
    destruct (rec_State r) eqn:Es.
    3-4: apply op_ok_noop; [done|]; intros id; unfold published; by cbn.
    all: apply op_ok_set; [done|constructor; cbn; [done|done|lia|done]| |].
    all: rewrite Er; try (intros r0 [= <-]; split_and!; cbn; [done|lia| |done]; unfold live; by rewrite Es).
    all: cbn; rewrite Es; intros log ->; done.
  - destruct (Z.leb_spec (ca_ExpiresAt c) t).
    + apply op_ok_set; [done| |congruence|].
      * constructor; cbn; [done|done|lia|]. by eexists.
      * rewrite Er. cbn. intros log ->. by right.
    + apply op_ok_set; [done| |congruence|].
      * constructor; cbn; [done|done|lia|done].
      * rewrite Er. cbn. intros log ->. done.
Qed.

Lemma invalidated_wf id r reason t :
  record_wf id r → valid reason = true → (rec_LastObservedAt r <= t)%Z → record_wf id (invalidated r reason t).
Proof. intros [] ??. constructor; cbn; try done. by eexists. Qed.

Lemma invalidated_evolves r reason t : live r = true → evolves r (invalidated r reason t).
Proof. intros Hl. split_and!; cbn; [done|lia|congruence|done]. Qed.

Lemma live_state r : live r = true ↔ rec_State r = StateCreated ∨ rec_State r = StateActive.
Proof. unfold live. rewrite orb_true_iff, !bool_decide_eq_true. done. Qed.

Lemma live_log r log : live r = true → lifecycle_log (Some r) log → log = [TransitionCreated].
Proof. intros [E|E]%live_state; cbn; by rewrite E. Qed.

Lemma Invalidate_ok b id reason t :
  book_wf b → let '(b', ts) := run_op b (OpInvalidate id reason t) in op_ok b b' ts.
Proof.
  intros Hb. cbn [run_op]. unfold Invalidate.
  destruct (bool_decide (id = "") || negb (valid reason) || (t <? 0)%Z) eqn:Eg; [by apply op_ok_noop|].
  destruct (b !! id) as [r|] eqn:Er; [|by apply op_ok_noop].
  destruct (Z.ltb_spec t (rec_LastObservedAt r)); [by apply op_ok_noop|].
  destruct (live r) eqn:El.
  - bools. pose proof El as Hs%live_state.
    assert (Hok : op_ok b (<[id := invalidated r reason t]> b) [mkTransition TransitionInvalidated (invalidated r reason t)]).
    { apply op_ok_set; [done|by apply invalidated_wf; [apply Hb| |]| |].
      - rewrite Er. intros r0 [= <-]. by apply invalidated_evolves.
      - rewrite Er. intros log ->%live_log; done. }
    destruct Hs as [-> | ->]; done.
  - unfold live in El. destruct (rec_State r); try done; apply op_ok_noop; try done;
      intros id'; unfold published; by cbn.
Qed.
End run.

Lemma published_sweep (f : string → option Transition) ids id :
  NoDup ids →
  (∀ id' t, f id' = Some t → ca_ID (rec_Candidate (tr_Record t)) = id' ∧ ShouldPublish t = true) →
  published id (omap f ids) =
  if decide (id ∈ ids) then match f id with Some t => [tr_Kind t] | None => [] end else [].
Proof.
  intros Hnd Hf. induction Hnd as [|x ids Hni _ IH]; [done|]. cbn [omap list_omap].
  assert (Hx : published id (match f x with Some t => t :: omap f ids | None => omap f ids end) =
    (if decide (x = id) then match f x with Some t => [tr_Kind t] | None => [] end else []) ++ published id (omap f ids)).
  { destruct (f x) as [t|] eqn:Ex; [|destruct (decide (x = id)); done]. destruct (Hf _ _ Ex) as [Hid Hp].
    unfold published at 1. cbn [omap list_omap]. rewrite Hp, Hid. cbn [andb].
    destruct (decide (x = id)); [rewrite bool_decide_true by done|rewrite bool_decide_false by done]. all: done. }
  etransitivity; [exact Hx|]. rewrite IH. destruct (decide (x = id)) as [->|].
  - rewrite (decide_False (P := id ∈ ids)), (decide_True (P := id ∈ id :: ids)) by set_solver. by rewrite app_nil_r.
  - cbn. destruct (decide (id ∈ ids)); [rewrite decide_True by set_solver|rewrite decide_False by set_solver]; done.
Qed.

Definition sweep_good (g : string → BookRecord → option (TransitionKind * BookRecord)) : Prop :=
  ∀ id r k r', record_wf id r → g id r = Some (k, r') →
    live r = true ∧ record_wf id r' ∧ evolves r r' ∧ ShouldPublish (mkTransition k r') = true ∧
    lifecycle_log (Some r') [TransitionCreated; k].

Lemma sweep_ok g b b' ts :
  book_wf b → sweep_good g →
  (∀ id, b' !! id = swept g id <$> b !! id) → ts = omap (announced g b) (sorted_keys b) →
  op_ok b b' ts.
Proof.
  intros Hb Hg Hb' ->.
  assert (Hann : ∀ id t, announced g b id = Some t →
    ca_ID (rec_Candidate (tr_Record t)) = id ∧ ShouldPublish t = true).
  { intros id t. unfold announced. destruct (b !! id) as [r|] eqn:Er; [|done].
    destruct (g id r) as [[k r']|] eqn:Eg; [|done]. intros [= <-].
    destruct (Hg _ _ _ _ (Hb _ _ Er) Eg) as (_ & Hw & _ & Hp & _). split; [apply Hw|done]. }
  split_and!.
  - intros id r'. rewrite Hb'. destruct (b !! id) as [r|] eqn:Er; [|done]. cbn. intros [= <-].
    unfold swept. destruct (g id r) as [[k r']|] eqn:Eg; [|by apply Hb].
    by destruct (Hg _ _ _ _ (Hb _ _ Er) Eg) as (_ & ? & _).
  - intros id r Er. rewrite Hb', Er. cbn. eexists. split; [done|]. unfold swept.
    destruct (g id r) as [[k r']|] eqn:Eg; [|apply evolves_refl].
    by destruct (Hg _ _ _ _ (Hb _ _ Er) Eg) as (_ & _ & ? & _).
  - intros id log Hlog. rewrite (published_sweep _ _ _ (sorted_keys_NoDup b) Hann), Hb'.
    unfold announced. destruct (b !! id) as [r|] eqn:Er; cbn [fmap option_fmap option_map].
    2:{ case_decide; by rewrite app_nil_r. }
    rewrite decide_True by (rewrite elem_of_sorted_keys; by eexists). unfold swept.
    destruct (g id r) as [[k r']|] eqn:Eg; [|by rewrite app_nil_r].
    destruct (Hg _ _ _ _ (Hb _ _ Er) Eg) as (Hl & _ & _ & _ & Hlg).
    rewrite (live_log r log Hl Hlog). done.
Qed.

Lemma invalidation_good cond t : sweep_good (invalidation_of cond t).
Proof.
  intros id r k r' Hw. unfold invalidation_of. destruct (live r) eqn:El; [|done].
  destruct (cond _) as [reason|]; [|done].
  destruct (bool_decide (id = "") || negb (valid reason) || (t <? 0)%Z || (t <? rec_LastObservedAt r)%Z) eqn:Eg; [done|].
  intros [= <- <-]. bools. split_and!; try done.
  - apply invalidated_wf; [done|done|lia].
  - by apply invalidated_evolves.
Qed.

Lemma expiry_good now : sweep_good (expiry_of now).
Proof.
  intros id r k r' Hw. unfold expiry_of. destruct (live r) eqn:El; [|done].
  destruct (Z.leb_spec (ca_ExpiresAt (rec_Candidate r)) now); [|done]. cbn [andb]. intros [= <- <-].
  destruct Hw as [Hid Hval Hobs _]. split_and!; try done.
  - constructor; cbn; try done. by eexists.
  - split_and!; cbn; [done|lia|congruence|done].
  - cbn. by left.
Qed.

Lemma run_op_ok u b op : book_wf b → let '(b', ts) := run_op u b op in op_ok b b' ts.
Proof.
  intros Hb. destruct op.
  - by apply Observe_ok.
  - by apply Invalidate_ok.
  - cbn [run_op]. unfold InvalidateByClose. destruct (_ || _); [by apply op_ok_noop|].
    pose proof (invalidate_sweep (closed_through u timeframe close) at' b) as H.
    destruct (foldl _ _ _). destruct H. eapply sweep_ok; [done|apply invalidation_good|done..].
  - cbn [run_op]. unfold InvalidateByStructureClose. destruct (_ || _); [by apply op_ok_noop|].
    pose proof (invalidate_sweep (structure_closed_through buffer timeframe close) at' b) as H.
    destruct (foldl _ _ _). destruct H. eapply sweep_ok; [done|apply invalidation_good|done..].
  - cbn [run_op]. unfold Expire. destruct (_ <? _)%Z; [by apply op_ok_noop|].
    pose proof (expire_sweep now b) as H.
    destruct (foldl _ _ _). destruct H. eapply sweep_ok; [done|apply expiry_good|done..].
Qed.

Lemma evolves_trans r1 r2 r3 : evolves r1 r2 → evolves r2 r3 → evolves r1 r3.
Proof.
  intros (A1 & A2 & A3 & A4) (B1 & B2 & B3 & B4). split_and!.
  - congruence.
  - lia.
  - intros Hl. pose proof (A3 Hl) as ->. auto.
  - intros Ha. destruct (rec_State r2) eqn:E; [exfalso; by apply (A4 Ha)|by apply B4| |].
    all: rewrite B3; [congruence|]; unfold live; by rewrite E.
Qed.

Lemma op_ok_trans b1 b2 b3 ts ts' : op_ok b1 b2 ts → op_ok b2 b3 ts' → op_ok b1 b3 (ts ++ ts').
Proof.
  intros (W1 & E1 & L1) (W2 & E2 & L2). split_and!; [done| |].
  - intros id r Hr. destruct (E1 id r Hr) as (r1 & Hr1 & He1). destruct (E2 id r1 Hr1) as (r2 & Hr2 & He2).
    exists r2. split; [done|]. by eapply evolves_trans.
  - intros id log Hlog. unfold published. rewrite omap_app, app_assoc. apply L2, L1, Hlog.
Qed.
Lemma run_ops_ok u ops b :
  book_wf b → let '(b', ts) := run_ops u b ops in op_ok b b' ts.
Proof.
  revert b. induction ops as [|op ops IH]; intros b Hb; cbn [run_ops]; [by apply op_ok_noop|].
  pose proof (run_op_ok u b op Hb) as H1. destruct (run_op _ b op) as [b1 ts1].
  specialize (IH b1 (proj1 H1)). destruct (run_ops _ b1 ops) as [b2 ts2]. by eapply op_ok_trans.
Qed.

(** The same with the creation first: no announcement is an expiry alone. *)
Definition creation_first (o : option BookRecord) (log : list TransitionKind) : Prop :=
  lifecycle_log o log ∧ log ≠ [TransitionExpired].
Definition desk_ok (b b' : Book) (ts : list Transition) : Prop :=
  op_ok b b' ts ∧ ∀ id log, creation_first (b !! id) log → creation_first (b' !! id) (log ++ published id ts).
Lemma desk_ok_trans b1 b2 b3 ts ts' : desk_ok b1 b2 ts → desk_ok b2 b3 ts' → desk_ok b1 b3 (ts ++ ts').
Proof.
  intros [H1 L1] [H2 L2]. split; [by eapply op_ok_trans|]. intros id log Hlog. unfold published. rewrite omap_app, app_assoc.
  apply L2, L1, Hlog.
Qed.
(** An observation within the candidate's time to live. *)
Definition in_time (op : Op) : Prop := match op with OpObserve c t => (t < ca_ExpiresAt c)%Z | _ => True end.
Lemma newborn_not_expired u b op id r :
  in_time op → b !! id = None → (run_op u b op).1 !! id = Some r → rec_State r ≠ StateExpired.
Proof.
  intros Hin Hb. destruct op; cbn [run_op].
  - cbn in Hin. unfold Observe. destruct (Validate c); [by (cbn [fst]; rewrite Hb)|]. destruct (_ <? _)%Z; [by (cbn [fst]; rewrite Hb)|].
    destruct (b !! ca_ID c) as [x|] eqn:Ex.
    + assert (id ≠ ca_ID c) by (intros ->; congruence).
      destruct (negb _); [by (cbn [fst]; rewrite Hb)|]. destruct (_ <? _)%Z; [by (cbn [fst]; rewrite Hb)|].
      destruct (rec_State x); cbn [fst]; rewrite ?lookup_insert_ne by done; by rewrite Hb.
    + destruct (Z.leb_spec (ca_ExpiresAt c) observedAt); [lia|]. cbn [fst].
      destruct (decide (id = ca_ID c)) as [->|]; [rewrite lookup_insert_eq; by intros [= <-]|by rewrite lookup_insert_ne, Hb].
  - unfold Invalidate. destruct (_ || _ || _); [by (cbn [fst]; rewrite Hb)|]. destruct (b !! id0) as [x|] eqn:Ex; [|by (cbn [fst]; rewrite Hb)].
    assert (id ≠ id0) by (intros ->; congruence). destruct (_ <? _)%Z; [by (cbn [fst]; rewrite Hb)|].
    destruct (rec_State x); cbn [fst]; rewrite ?lookup_insert_ne by done; by rewrite Hb.
  - unfold InvalidateByClose. destruct (_ || _); [by (cbn [fst]; rewrite Hb)|].
    pose proof (invalidate_sweep (closed_through u timeframe close) at' b) as H. destruct (foldl _ _ _). cbn. by rewrite (proj1 H), Hb.
  - unfold InvalidateByStructureClose. destruct (_ || _); [by (cbn [fst]; rewrite Hb)|].
    pose proof (invalidate_sweep (structure_closed_through buffer timeframe close) at' b) as H. destruct (foldl _ _ _). cbn. by rewrite (proj1 H), Hb.
  - unfold Expire. destruct (_ <? _)%Z; [by (cbn [fst]; rewrite Hb)|].
    pose proof (expire_sweep now b) as H. destruct (foldl _ _ _). cbn. by rewrite (proj1 H), Hb.
Qed.
Lemma run_op_desk u b op : book_wf b → in_time op → desk_ok b (run_op u b op).1 (run_op u b op).2.
Proof.
  intros Hb Hin. pose proof (run_op_ok u b op Hb) as Hok. pose proof (newborn_not_expired u b op) as Hn.
  destruct (run_op u b op) as [b' ts]. cbn [fst snd] in *. split; [done|]. intros id log [Hlog Hne].
  pose proof (proj2 (proj2 Hok) id log Hlog) as Hl. split; [done|]. destruct log as [|k log]; cbn [app].
  - destruct (b !! id) as [r|] eqn:Er; [cbn in Hlog; destruct (rec_State r); try done; by destruct Hlog|].
    intros E. cbn [app] in Hl. rewrite E in Hl. destruct (b' !! id) as [r|] eqn:Er'; [|done].
    apply (Hn id r Hin Er Er'). cbn in Hl. by destruct (rec_State r).
  - intros [= -> E]. apply app_nil in E as [-> _]. done.
Qed.
Lemma desk_ok_noop b : book_wf b → desk_ok b b [].
Proof. intros Hb. split; [by apply op_ok_noop|]. intros id log. by rewrite app_nil_r. Qed.

Lemma book_wf_empty : book_wf NewBook.
Proof. apply map_Forall_empty. Qed.

(** A close sweep whose reasons are valid codes: which records it changes, how, and in what order
    it says so. *)
Definition sweep_exact (hit : BookRecord → option BookRecord) (b b' : Book) (ts : list Transition) : Prop :=
  (∀ id, b' !! id = (λ r, default r (hit r)) <$> b !! id) ∧
  ts = omap (λ id, r ← b !! id; mkTransition TransitionInvalidated <$> hit r) (sorted_keys b).

Lemma invalidate_sweep_exact cond t b :
  book_wf b → (0 <= t)%Z → (∀ c reason, cond c = Some reason → valid reason = true) →
  let '(b', ts) := foldl (invalidate_step cond t) (b, []) (sorted_keys b) in
  sweep_exact (λ r, if live r && (rec_LastObservedAt r <=? t)%Z
                    then (λ reason, invalidated r reason t) <$> cond (rec_Candidate r) else None) b b' ts.
Proof.
  intros Hb Ht Hv. pose proof (invalidate_sweep cond t b) as H. destruct (foldl _ _ _) as [b' ts].
  destruct H as [H1 H2].
  assert (Hinv : ∀ id r, b !! id = Some r → invalidation_of cond t id r =
    (λ r', (TransitionInvalidated, r')) <$> (if live r && (rec_LastObservedAt r <=? t)%Z
      then (λ reason, invalidated r reason t) <$> cond (rec_Candidate r) else None)).
  { intros id r Hr. unfold invalidation_of. destruct (live r); [|done]. cbn [andb].
    destruct (cond _) as [reason|] eqn:Ec; [|by destruct (_ <=? _)%Z].
    rewrite (Hv _ _ Ec). pose proof (Hb _ _ Hr) as [Hid Hval _ _].
    rewrite bool_decide_false.
    2:{ intros ->. apply Validate_sound_aux in Hval as [(Hne & _) _ _ _ _ _ _ _ _ _]. by rewrite Hid in Hne. }
    destruct (Z.ltb_spec t 0); [lia|]. cbn [negb orb].
    destruct (Z.ltb_spec t (rec_LastObservedAt r)), (Z.leb_spec (rec_LastObservedAt r) t); try lia; done. }
  split.
  - intros id. rewrite H1. destruct (b !! id) as [r|] eqn:Er; [|done]. cbn. f_equal. unfold swept.
    rewrite (Hinv _ _ Er). by destruct (if live r && _ then _ else _).
  - rewrite H2. apply omap_ext_in. intros id _. unfold announced. destruct (b !! id) as [r|] eqn:Er; [|done].
    cbn. rewrite (Hinv _ _ Er). by destruct (if live r && _ then _ else _).
Qed.

(** Every book a run of operations reaches is well formed. *)
Definition reachable (u : Unicode) (b : Book) : Prop :=
  ∃ ops, b = fst (run_ops u NewBook ops).
Lemma reachable_wf u b : reachable u b → book_wf b.
Proof.
  intros [ops ->]. pose proof (run_ops_ok u ops NewBook book_wf_empty) as H.
  destruct (run_ops u NewBook ops). by destruct H.
Qed.

(** The record is live, not observed later than [t], of that timeframe, and the close reached its
    invalidation price against its direction. *)
Definition retired_by_close (timeframe : string) (close : float) (t : Z) (r : BookRecord) : Prop :=
  let c := rec_Candidate r in
  (rec_State r = StateCreated ∨ rec_State r = StateActive) ∧ (rec_LastObservedAt r <= t)%Z ∧
  ca_ObservedTimeframe c = timeframe ∧
  (ca_Direction c = Buy ∧ (key close <= key (pl_Price (ca_Invalidation c)))%Z ∨
   ca_Direction c = Sell ∧ (key (pl_Price (ca_Invalidation c)) <= key close)%Z).
#[export] Instance retired_by_close_dec timeframe close t r : Decision (retired_by_close timeframe close t r).
Proof. unfold retired_by_close. apply _. Defined.
Definition retired (r : BookRecord) (reason : string) (t : Z) : BookRecord :=
  mkRecord (rec_Candidate r) StateInvalidated (rec_LastObservedAt r) (Some (mkTerminal reason t)).

(** The record is live, not observed later than [t], its structure is of that timeframe, its strategy
    has a finite non-negative buffer, and the close lies beyond the far edge by more than it. *)
Definition retired_by_structure (buffer : string → option float) (timeframe : string) (close : float) (t : Z)
    (r : BookRecord) : Prop :=
  let c := rec_Candidate r in
  (rec_State r = StateCreated ∨ rec_State r = StateActive) ∧ (rec_LastObservedAt r <= t)%Z ∧
  match ca_Structure c, buffer (ca_Strategy c) with
  | Some s, Some margin =>
      sz_Timeframe s = timeframe ∧ finite margin = true ∧ (0 <= key margin)%Z ∧
      (ca_Direction c = Buy ∧ (close <? sz_Low s - margin)%float = true ∨
       ca_Direction c = Sell ∧ (sz_High s + margin <? close)%float = true)
  | _, _ => False
  end.
#[export] Instance retired_by_structure_dec buffer timeframe close t r :
  Decision (retired_by_structure buffer timeframe close t r).
Proof.
  unfold retired_by_structure. cbv zeta.
  destruct (ca_Structure (rec_Candidate r)); [|apply _]. destruct (buffer (ca_Strategy (rec_Candidate r))); apply _.
Defined.

Lemma sweep_exact_ext hit hit' b b' ts :
  (∀ id r, b !! id = Some r → hit r = hit' r) → sweep_exact hit b b' ts → sweep_exact hit' b b' ts.
Proof.
  intros He [H1 H2]. split.
  - intros id. rewrite H1. destruct (b !! id) as [r|] eqn:Er; [|done]. cbn. by rewrite (He id r Er).
  - rewrite H2. apply omap_ext_in. intros id _. destruct (b !! id) as [r|] eqn:Er; [|done]. cbn. by rewrite (He id r Er).
Qed.
Lemma live_spec r : live r = true ↔ rec_State r = StateCreated ∨ rec_State r = StateActive.
Proof. unfold live. by rewrite orb_true_iff, !bool_decide_eq_true. Qed.
Lemma invalidation_finite b id r :
  book_wf b → b !! id = Some r → finite (pl_Price (ca_Invalidation (rec_Candidate r))) = true.
Proof. intros Hb Hr. destruct (Hb _ _ Hr) as [_ Hval _ _]. apply Validate_sound_aux in Hval. apply Hval. Qed.

Lemma closed_through_reference u timeframe close t r :
  finite close = true → finite (pl_Price (ca_Invalidation (rec_Candidate r))) = true →
  (if live r && (rec_LastObservedAt r <=? t)%Z
   then (λ reason, invalidated r reason t) <$> closed_through u timeframe close (rec_Candidate r) else None) =
  (if bool_decide (retired_by_close timeframe close t r)
   then Some (retired r (reasonCodeForInvalidationLabel u (pl_Label (ca_Invalidation (rec_Candidate r)))) t) else None).
Proof.
  intros Hc%finite_num Hp%finite_num. unfold closed_through. rewrite !leb_num by done.
  symmetry. case_bool_decide as H.
  - destruct H as (Hl%live_spec & Ht & Htf & Hd). rewrite Hl, (proj2 (Z.leb_le _ _) Ht), (bool_decide_true _ Htf). cbn.
    destruct Hd as [[-> Hd]|[-> Hd]]; rewrite (proj2 (Z.leb_le _ _) Hd); [done|]. by rewrite orb_true_r.
  - destruct (live r) eqn:Hl; [|done]. destruct (Z.leb_spec (rec_LastObservedAt r) t); [|done]. cbn.
    case_bool_decide; [|done]. cbn. apply live_spec in Hl.
    destruct (_ || _) eqn:E; [|done]. exfalso. apply H. split_and!; [done..|].
    apply orb_true_iff in E as [E|E]; bools; rewrite Z.leb_le in *; auto.
Qed.
Lemma structure_through_reference buffer timeframe close t r :
  (if live r && (rec_LastObservedAt r <=? t)%Z
   then (λ reason, invalidated r reason t) <$> structure_closed_through buffer timeframe close (rec_Candidate r) else None) =
  (if bool_decide (retired_by_structure buffer timeframe close t r)
   then Some (retired r ReasonStructureClosedThrough t) else None).
Proof.
  unfold structure_closed_through, retired_by_structure.
  symmetry. case_bool_decide as H.
  - destruct H as (Hl%live_spec & Ht & H). rewrite Hl, (proj2 (Z.leb_le _ _) Ht). cbn.
    destruct (ca_Structure _) as [z|]; [|done]. destruct (buffer _) as [m|]; [|done].
    destruct H as (Htf & Hf & Hm & Hd). rewrite (bool_decide_true _ Htf), Hf. cbn. rewrite ltb_num by auto using finite_num.
    change (key 0) with 0%Z. destruct (Z.ltb_spec (key m) 0); [lia|].
    destruct Hd as [[-> ->]|[-> ->]]; [done|]. by rewrite orb_true_r.
  - destruct (live r) eqn:Hl; [|done]. destruct (Z.leb_spec (rec_LastObservedAt r) t); [|done]. cbn. apply live_spec in Hl.
    destruct (ca_Structure _) as [z|]; [|done]. case_bool_decide; [|done]. destruct (buffer _) as [m|]; [|done].
    destruct (finite m) eqn:Hf; [|done]. cbn. rewrite ltb_num by auto using finite_num.
    change (key 0) with 0%Z. destruct (Z.ltb_spec (key m) 0); [done|].
    destruct (_ || _) eqn:E; [|done]. exfalso. apply H. split_and!; [done..|].
    apply orb_true_iff in E as [E|E]; bools; auto.
Qed.

(** * Properties *)

(** [C2] Once-only publication: over any sequence of observations, invalidations, close sweeps and
    expiries, errors included, what one identifier announces for publication is determined by its
    record: nothing, one creation, a creation then one terminal event, or a single expiry for a
    setup first seen after its deadline. *)
Theorem published_once u ops id :
  let '(b, ts) := run_ops u NewBook ops in lifecycle_log (b !! id) (published id ts).
Proof.
  pose proof (run_ops_ok u ops NewBook book_wf_empty) as H.
  destruct (run_ops u NewBook ops) as [b ts]. destruct H as (_ & _ & HL). by apply (HL id []).
Qed.

(** Records only move forward and the first observation is frozen: no operation ever changes a
    stored candidate, drops a record, moves its observation time back, or touches a terminal
    record; and every stored record stays well formed (its key is its candidate's ID, the
    candidate is valid, and a terminal reason and time are present exactly when it is terminal). *)
Theorem records_frozen u ops ops' :
  let '(b, _) := run_ops u NewBook ops in
  let '(b', _) := run_ops u b ops' in
  book_wf b ∧ book_wf b' ∧ book_evolves b b'.
Proof.
  pose proof (run_ops_ok u ops NewBook book_wf_empty) as H1.
  destruct (run_ops u NewBook ops) as [b ts]. destruct H1 as (W & _).
  pose proof (run_ops_ok u ops' b W) as H2. destruct (run_ops u b ops') as [b' ts'].
  destruct H2 as (W' & E & _). done.
Qed.

(** [C31] The closing price retires exactly the opportunities it closed through: every live record that was observed on that
    timeframe, was last observed no later than the close's time, and whose invalidation price the close reached against its
    direction, and no other, becomes invalidated, at that time, with the reason code of its own label; the announcements are
    exactly these, in identifier order. A record observed later than that time is kept as it is and is not announced, live or
    not and closed through or not: the sweep drops the error with which [Invalidate] refuses it. *)
Theorem close_sweep_exact u b timeframe close t :
  reachable u b → timeframe ≠ "" → finite close = true → (0 <= t)%Z →
  let '(b', ts) := InvalidateByClose u b timeframe close t in
  sweep_exact (λ r,
    if bool_decide (retired_by_close timeframe close t r)
    then Some (retired r (reasonCodeForInvalidationLabel u (pl_Label (ca_Invalidation (rec_Candidate r)))) t)
    else None) b b' ts ∧
  ∀ id r, b !! id = Some r → (t < rec_LastObservedAt r)%Z →
    b' !! id = Some r ∧ id ∉ map (λ x, ca_ID (rec_Candidate (tr_Record x))) ts.
Proof.
  intros Hb%reachable_wf Hne Hf Ht. unfold InvalidateByClose.
  rewrite bool_decide_false, Hf by done. destruct (Z.ltb_spec t 0); [lia|]. cbn [negb orb].
  pose proof (invalidate_sweep_exact (closed_through u timeframe close) t b Hb Ht) as H0.
  destruct (foldl _ _ _) as [b' ts].
  assert (Hx : sweep_exact (λ r,
    if bool_decide (retired_by_close timeframe close t r)
    then Some (retired r (reasonCodeForInvalidationLabel u (pl_Label (ca_Invalidation (rec_Candidate r)))) t)
    else None) b b' ts).
  { eapply sweep_exact_ext; [|apply H0].
    - intros id r Hr. apply (closed_through_reference u). 1: done. by eapply invalidation_finite.
    - intros c reason. unfold closed_through.
      destruct (negb _); [done|]. destruct (_ || _); [|done]. intros [= <-]. apply reason_code_valid. }
  split; [exact Hx|]. intros id r Hr Hlate. destruct Hx as [H1 H2].
  assert (Hno : ¬ retired_by_close timeframe close t r) by (intros (_ & ? & _); lia).
  split; [by rewrite H1, Hr; cbn; rewrite bool_decide_false|]. rewrite H2, list_elem_of_fmap. intros (x & Hid & Hx).
  apply list_elem_of_omap in Hx as (id' & _ & Hx). destruct (b !! id') as [r'|] eqn:Er'; [|done]. cbn in Hx.
  destruct (bool_decide_reflect (retired_by_close timeframe close t r')) as [Hy|]; [|done]. cbn in Hx. injection Hx as <-.
  cbn in Hid. rewrite (rw_id _ _ (Hb _ _ Er')) in Hid. subst id'. congruence.
Qed.

Definition no_buffer : string → option float := λ _, None.
Definition demo_book : Book :=
  fst (run_ops ascii_unicode NewBook
    [OpObserve (demo_candidate "opp_b" "" Buy 0.5) 100; OpObserve (demo_candidate "opp_a" "" Sell 0.5) 100]).
Lemma demo_book_reachable : reachable ascii_unicode demo_book.
Proof. by eexists. Qed.
(** The third record was last observed after the close. *)
Definition demo_late_book : Book :=
  fst (run_ops ascii_unicode NewBook
    [OpObserve (demo_candidate "opp_b" "" Buy 0.5) 100; OpObserve (demo_candidate "opp_a" "" Sell 0.5) 100;
     OpObserve (demo_candidate "opp_c" "" Buy 0.5) 300]).
Lemma close_sweep_exact_witness :
  let '(b', ts) := InvalidateByClose ascii_unicode demo_late_book tf_M5 97.5 200 in
  map (λ t, (ca_ID (rec_Candidate (tr_Record t)), tm_Reason <$> rec_Terminal (tr_Record t))) ts =
    [("opp_b", Some "ZONE_FAR_EDGE")] ∧
  rec_State <$> b' !! "opp_a" = Some StateCreated ∧ rec_State <$> b' !! "opp_c" = Some StateCreated.
Proof.
  assert (Hr : reachable ascii_unicode demo_late_book) by (by eexists).
  pose proof (close_sweep_exact ascii_unicode demo_late_book tf_M5 97.5 200 Hr
    ltac:(discriminate) eq_refl ltac:(lia)) as H.
  destruct (InvalidateByClose ascii_unicode demo_late_book tf_M5 97.5 200) as [b' ts]. destruct H as [[H1 H2] _].
  split; [rewrite H2; vm_compute; reflexivity|]. rewrite !H1. split; vm_compute; reflexivity.
Defined.

(** A setup observed on M5 with an H1 structure under it at 90 to 99. The hour that opened at 0 closes at 80, through the structure
    and through any buffer of one, but the setup was last observed at 3300, inside that hour: it stays live. *)
Definition demo_structured : Candidate :=
  let c := demo_candidate "opp_s" "" Buy 0.5 in
  mkCandidate (ca_ID c) (ca_Strategy c) (ca_StrategyVersion c) (ca_Symbol c) (ca_ObservedTimeframe c) (ca_StructureTimeframe c)
    (Some (mkStructureZone tf_H1 90 99 0)) (ca_Direction c) (ca_StructuralID c) (ca_Entry c) (ca_Invalidation c) (ca_Targets c)
    (ca_Evidence c) (ca_Quality c) (ca_FormedAt c) (ca_CreatedAt c) 9000 (ca_Provenance c) (ca_Technical c) (ca_Reaction c)
    (ca_DetectorConfluence c) (ca_StopEnvelope c).
Example structure_close_missed :
  let b := (run_ops ascii_unicode NewBook [OpObserve demo_structured 600; OpObserve demo_structured 3300]).1 in
  let '(b', ts) := InvalidateByStructureClose b tf_H1 80 0 (λ _, Some 1%float) in
  ts = [] ∧ rec_State <$> b' !! "opp_s" = Some StateActive.
Proof. vm_compute. split; reflexivity. Qed.

(** The close retires exactly the opportunities whose structure it closed beyond: those of the
    structure's own timeframe, by more than the strategy's buffer; a strategy without such a rule, and
    a setup without a structure, is never retired this way. *)
Theorem structure_sweep_exact u buffer b timeframe close t :
  reachable u b → timeframe ≠ "" → finite close = true → (0 <= t)%Z →
  let '(b', ts) := InvalidateByStructureClose b timeframe close t buffer in
  sweep_exact (λ r,
    if bool_decide (retired_by_structure buffer timeframe close t r)
    then Some (retired r ReasonStructureClosedThrough t) else None) b b' ts.
Proof.
  intros Hb%reachable_wf Hne Hf Ht. unfold InvalidateByStructureClose.
  rewrite bool_decide_false, Hf by done. destruct (Z.ltb_spec t 0); [lia|]. cbn [negb orb].
  pose proof (invalidate_sweep_exact (structure_closed_through buffer timeframe close) t b Hb Ht) as H0.
  destruct (foldl _ _ _) as [b' ts]. eapply sweep_exact_ext; [|apply H0].
  - intros id r _. apply structure_through_reference.
  - intros c reason. unfold structure_closed_through. destruct (ca_Structure c); [|done].
    destruct (negb _); [done|]. destruct (buffer _); [|done]. destruct (_ || _); [done|].
    destruct (_ || _); [|done]. by intros [= <-].
Qed.

Lemma structure_sweep_exact_witness :
  let '(b', ts) := InvalidateByStructureClose demo_book tf_H1 50 200 no_buffer in
  ts = [] ∧ rec_State <$> b' !! "opp_a" = Some StateCreated.
Proof.
  pose proof (structure_sweep_exact ascii_unicode no_buffer demo_book tf_H1 50 200 demo_book_reachable
    ltac:(discriminate) eq_refl ltac:(lia)) as H.
  destruct (InvalidateByStructureClose demo_book tf_H1 50 200 no_buffer) as [b' ts]. destruct H as [H1 H2].
  split; [rewrite H2; vm_compute; reflexivity|]. rewrite H1. vm_compute. reflexivity.
Defined.

(** Expiry leaves alive exactly what has not reached its deadline, in the same order, and
    announces the rest once, in identifier order. *)
Theorem expire_exact b now :
  (0 <= now)%Z →
  let '(b', ts) := Expire b now in
  Live b' = filter (λ c, (now < ca_ExpiresAt c)%Z) (Live b) ∧
  ts = omap (λ id, r ← b !! id;
    if live r && (ca_ExpiresAt (rec_Candidate r) <=? now)%Z
    then Some (mkTransition TransitionExpired (mkRecord (rec_Candidate r) StateExpired (rec_LastObservedAt r)
      (Some (mkTerminal ReasonSetupExpired now)))) else None) (sorted_keys b).
Proof.
  intros Hn. unfold Expire. destruct (Z.ltb_spec now 0); [lia|].
  pose proof (expire_sweep now b) as Hsw. destruct (foldl _ _ _) as [b' ts]. destruct Hsw as [H1 H2]. split.
  - unfold Live. rewrite (sorted_keys_ext b' b).
    2:{ intros k. rewrite H1, fmap_is_Some. done. }
    generalize (sorted_keys b). intros ids. induction ids as [|id ids IH]; [done|].
    cbn [omap list_omap]. rewrite H1. destruct (b !! id) as [r|]; [|exact IH]. cbn [fmap option_fmap option_map].
    unfold swept, expiry_of. destruct (live r) eqn:El; cbn [andb].
    + destruct (Z.leb_spec (ca_ExpiresAt (rec_Candidate r)) now).
      * change (live (expired r now)) with false. cbv iota beta. rewrite filter_cons_False by lia. exact IH.
      * rewrite El, filter_cons_True by lia. by f_equal.
    + rewrite El. exact IH.
  - rewrite H2. apply omap_ext_in. intros id _. unfold announced, expiry_of.
    destruct (b !! id) as [r|]; [|done]. cbn. by destruct (_ && _).
Qed.

Lemma expire_exact_witness :
  let '(b', ts) := Expire demo_book 1000 in Live b' = [] ∧ length ts = 2.
Proof.
  pose proof (expire_exact demo_book 1000 ltac:(lia)) as H.
  destruct (Expire demo_book 1000) as [b' ts]. destruct H as [H1 H2].
  split; [rewrite H1|rewrite H2]; vm_compute; reflexivity.
Defined.
