(* ===== verification/Arbitration.v ===== *)
(** Package arbitration: which live candidates of a symbol win, are suppressed or are held. The two
    loops over the thesis map take the order the runtime ranges in as a parameter. *)
From S2P Require Import Prelude Float64 Market Opportunity.
From Stdlib Require Import Floats.

(** * arbitration.go: data *)

Definition StatusWinner : string := "winner".
Definition StatusSuppressed : string := "suppressed".
Definition StatusConflictHeld : string := "conflict_held".
Definition StatusUncontested : string := "uncontested".
Definition ReasonUncontested : string := "uncontested".
Definition ReasonRankedSingleDirection : string := "ranked_single_direction".
Definition ReasonOppositeDirectionHeld : string := "opposite_direction_conflict".
Definition ReasonNotInPlay : string := "not_in_play".
Record Config := mkConfig { ConflictMarginQuality : float; IgnoreQuality : bool; InPlayATR : float }.
Record Decision := mkDecision {
  de_CandidateID : string; de_Status : string; de_ReasonCode : string; de_ConflictingWith : list string;
  de_ThesisID : string; de_MergedWith : list string
}.
Definition zero_Decision : Decision := mkDecision "" "" "" [] "" [].

(** * arbitration.go: ranking *)

Definition quality (c : Candidate) : float := q_Overall (ca_Quality c).
Definition less (cfg : Config) (a b : Candidate) : bool :=
  if negb (IgnoreQuality cfg) && (quality a <>? quality b)%float
  then (quality a >? quality b)%float else str_lt (ca_ID a) (ca_ID b).
Definition thesisKey (c : Candidate) : string :=
  if bool_decide (ca_StructuralID c = "") then "solo:" +:+ ca_ID c
  else "thesis:" +:+ ca_Direction c +:+ "|" +:+ ca_StructuralID c.
Definition groupByThesis (live : list Candidate) : gmap string (list Candidate) :=
  foldl (λ groups c, <[thesisKey c := default [] (groups !! thesisKey c) ++ [c]]> groups) ∅ live.
(** [None] where [group[0]] would panic; a group is never empty. *)
Definition representativeOf (cfg : Config) (group : list Candidate) : option Candidate :=
  match group with
  | [] => None
  | c0 :: rest => Some (foldl (λ best c, if less cfg c best then c else best) c0 rest)
  end.
Definition biasAligned (c : Candidate) : bool :=
  match ca_Technical c with
  | None => false
  | Some t => Direction_IsValid (t_BiasDirection t) && bool_decide (t_BiasDirection t = ca_Direction c)
  end.
(** The loop's [winner, found]; [None] inside for the early return on a second direction. *)
Definition biasTiebreak (ordered : list Candidate) : option Candidate :=
  let step (acc : option (option Candidate)) (c : Candidate) :=
    match acc with
    | None => None
    | Some found =>
        if negb (biasAligned c) then acc
        else match found with
        | None => Some (Some c)
        | Some w => if negb (bool_decide (ca_Direction c = ca_Direction w)) then None else acc
        end
    end in
  match foldl step (Some None) ordered with Some w => w | None => None end.
Definition decideAll (ordered : list Candidate) (winnerID reason : string) (conflictingWith : list string) :
    list Decision :=
  let held := bool_decide (winnerID = "") in
  map (λ c, mkDecision (ca_ID c)
    (if held then StatusConflictHeld else if bool_decide (ca_ID c = winnerID) then StatusWinner else StatusSuppressed)
    reason conflictingWith "" []) ordered.
Definition arbitrateRepresentatives (cfg : Config) (representatives : list Candidate) : list Decision :=
  match representatives with
  | [c] => [mkDecision (ca_ID c) StatusUncontested ReasonUncontested [] "" []]
  | _ =>
      let ordered := sort_slice (less cfg) representatives in
      match ordered with
      | [] => []
      | top :: _ =>
          match List.find (λ c, negb (bool_decide (ca_Direction c = ca_Direction top))) ordered with
          | None => decideAll ordered (ca_ID top) ReasonRankedSingleDirection []
          | Some strongestOpposing =>
              if negb (IgnoreQuality cfg) &&
                 (quality top - quality strongestOpposing >=? ConflictMarginQuality cfg)%float
              then decideAll ordered (ca_ID top) ReasonRankedSingleDirection []
              else match biasTiebreak ordered with
              | Some winner => decideAll ordered (ca_ID winner) ReasonRankedSingleDirection []
              | None => decideAll ordered "" ReasonOppositeDirectionHeld [ca_ID top; ca_ID strongestOpposing]
              end
          end
      end
  end.

Definition isEntryReady (c : Candidate) (reference : float) : bool :=
  match ca_Technical c with
  | None => false
  | Some _ => (en_Low (ca_Entry c) <=? reference)%float && (reference <=? en_High (ca_Entry c))%float
  end.
Definition isInPlay (c : Candidate) (reference inPlayATR : float) : bool :=
  match ca_Technical c with
  | None => false
  | Some t =>
      if negb (t_ATR t >? 0)%float then false
      else
        let distance :=
          if (reference <? en_Low (ca_Entry c))%float then (en_Low (ca_Entry c) - reference)%float
          else if (reference >? en_High (ca_Entry c))%float then (reference - en_High (ca_Entry c))%float
          else 0%float in
        (distance <=? inPlayATR * t_ATR t)%float
  end.
Definition by_id (a b : Decision) : bool := str_lt (de_CandidateID a) (de_CandidateID b).

Section arbitrate.
(** The order in which each of the two loops ranges over the thesis map. *)
Context (range1 range2 : gmap string (list Candidate) → list string).

Definition representatives (cfg : Config) (groups : gmap string (list Candidate)) : list Candidate :=
  omap (λ k, match groups !! k with Some group => representativeOf cfg group | None => None end) (range1 groups).
Definition group_decisions (cfg : Config) (byID : gmap string Decision) (group : list Candidate) : list Decision :=
  match representativeOf cfg group with
  | None => []
  | Some rep =>
      let d := default zero_Decision (byID !! ca_ID rep) in
      let memberIDs := map ca_ID group in
      map (λ c,
        let '(thesisID, mergedWith) :=
          if 1 <? length group
          then (ca_ID rep, List.filter (λ id, negb (bool_decide (id = ca_ID c))) memberIDs) else ("", []) in
        mkDecision (ca_ID c) (de_Status d) (de_ReasonCode d) (de_ConflictingWith d) thesisID mergedWith) group
  end.
Definition Arbitrate (live : list Candidate) (cfg : Config) : list Decision :=
  match live with
  | [] => []
  | _ =>
      let groups := groupByThesis live in
      let repDecisions := arbitrateRepresentatives cfg (representatives cfg groups) in
      let byID := foldl (λ m d, <[de_CandidateID d := d]> m) ∅ repDecisions in
      sort_slice by_id
        (flat_map (λ k, match groups !! k with Some group => group_decisions cfg byID group | None => [] end)
          (range2 groups))
  end.
Definition not_in_play (c : Candidate) : Decision :=
  mkDecision (ca_ID c) StatusSuppressed ReasonNotInPlay [] "" [].
Definition ArbitrateInPlay (live : list Candidate) (cfg : Config) (reference : float) : list Decision :=
  match live with
  | [] => []
  | _ =>
      if (InPlayATR cfg <=? 0)%float || negb (reference >? 0)%float then Arbitrate live cfg
      else
        let ready := List.filter (λ c, isEntryReady c reference) live in
        if 0 <? length ready then
          sort_slice by_id
            (map not_in_play (List.filter (λ c, negb (isEntryReady c reference)) live) ++ Arbitrate ready cfg)
        else
          let inPlay := List.filter (λ c, isInPlay c reference (InPlayATR cfg)) live in
          sort_slice by_id
            (map not_in_play (List.filter (λ c, negb (isInPlay c reference (InPlayATR cfg))) live) ++
             Arbitrate inPlay cfg)
  end.
End arbitrate.

(** * Lemmas: groups *)

Lemma groupByThesis_snoc live c :
  groupByThesis (live ++ [c]) =
  <[thesisKey c := default [] (groupByThesis live !! thesisKey c) ++ [c]]> (groupByThesis live).
Proof. unfold groupByThesis. by rewrite foldl_snoc. Qed.

Definition same_thesis (k : string) (live : list Candidate) : list Candidate :=
  filter (λ c, thesisKey c = k) live.

Lemma groupByThesis_lookup live k :
  groupByThesis live !! k = match same_thesis k live with [] => None | g => Some g end.
Proof.
  induction live as [|c live IH] using rev_ind; [done|]. rewrite groupByThesis_snoc.
  unfold same_thesis in *. rewrite filter_app, filter_cons, filter_nil.
  destruct (decide (thesisKey c = k)) as [<-|Hne].
  - rewrite lookup_insert_eq, IH. by destruct (filter _ live).
  - rewrite lookup_insert_ne by done. by rewrite app_nil_r.
Qed.

Lemma groupByThesis_Some live k g :
  groupByThesis live !! k = Some g ↔ g = same_thesis k live ∧ g ≠ [].
Proof. rewrite groupByThesis_lookup. destruct (same_thesis k live); naive_solver. Qed.

(** The groups, listed by any enumeration of the keys, hold every live candidate once. *)
Lemma groups_partition live (ks : list string) :
  NoDup ks → (∀ k, k ∈ ks ↔ is_Some (groupByThesis live !! k)) →
  flat_map (λ k, same_thesis k live) ks ≡ₚ live.
Proof.
  intros Hnd Hks.
  assert (Hin : ∀ c, c ∈ live → thesisKey c ∈ ks).
  { intros c Hc. apply Hks. rewrite groupByThesis_lookup.
    assert (c ∈ same_thesis (thesisKey c) live) as Hm by (by apply list_elem_of_filter).
    destruct (same_thesis _ _); [by apply elem_of_nil in Hm|by eexists]. }
  clear Hks. induction live as [|c live IH]; [clear; by induction ks|].
  assert (Hstep : flat_map (λ k, same_thesis k (c :: live)) ks ≡ₚ c :: flat_map (λ k, same_thesis k live) ks).
  { specialize (Hin c ltac:(set_solver)). clear IH. induction Hnd as [|k ks Hni Hnd IHk]; [by apply elem_of_nil in Hin|].
    cbn [flat_map]. destruct (decide (thesisKey c = k)) as [Hk|Hne].
    - assert (E : flat_map (λ k, same_thesis k (c :: live)) ks = flat_map (λ k, same_thesis k live) ks).
      { rewrite !flat_map_concat_map. f_equal. apply map_ext_in. intros k' Hk'%list_elem_of_In.
        unfold same_thesis. rewrite filter_cons_False by (intros E; subst; set_solver). done. }
      rewrite E. unfold same_thesis at 1. by rewrite filter_cons_True.
    - rewrite IHk by set_solver. unfold same_thesis at 1. rewrite filter_cons_False by done.
      by rewrite Permutation_middle. }
  rewrite Hstep, IH by set_solver. done.
Qed.

(** * Lemmas: the ranking is a total order on valid candidates *)

Definition ranked (c : Candidate) : Prop := finite (quality c) = true.

Lemma less_key cfg a b :
  ranked a → ranked b →
  less cfg a b = if negb (IgnoreQuality cfg) && negb (key (quality a) =? key (quality b))%Z
                 then (key (quality b) <? key (quality a))%Z else str_lt (ca_ID a) (ca_ID b).
Proof.
  intros Ha%finite_num Hb%finite_num. unfold less. by rewrite eqb_num, ltb_num.
Qed.

Lemma str_lt_asym a b : str_lt a b = true → str_lt b a = false.
Proof. intros H. apply not_true_iff_false. intros H'. pose proof (str_lt_trans _ _ _ H H') as E. by rewrite str_lt_irrefl in E. Qed.

Lemma less_asym cfg a b : ranked a → ranked b → less cfg a b = true → less cfg b a = false.
Proof.
  intros Ha Hb. rewrite !less_key by done. rewrite (Z.eqb_sym (key (quality b))).
  destruct (negb (IgnoreQuality cfg) && negb _); [lia|apply str_lt_asym].
Qed.

Lemma less_trans cfg a b c :
  ranked a → ranked b → ranked c → less cfg b a = false → less cfg c b = false → less cfg c a = false.
Proof.
  intros Ha Hb Hc. rewrite !less_key by done.
  destruct (IgnoreQuality cfg); cbn [negb andb].
  { intros H1 H2. apply (str_le_trans _ (ca_ID b)); [exact H1|exact H2]. }
  destruct (Z.eqb_spec (key (quality b)) (key (quality a))), (Z.eqb_spec (key (quality c)) (key (quality b))),
    (Z.eqb_spec (key (quality c)) (key (quality a))); cbn [negb]; try lia.
  intros H1 H2. apply (str_le_trans _ (ca_ID b)); [exact H1|exact H2].
Qed.

Lemma less_anti cfg a b : ranked a → ranked b → less cfg a b = false → less cfg b a = false → ca_ID a = ca_ID b.
Proof.
  intros Ha Hb. rewrite !less_key by done. rewrite (Z.eqb_sym (key (quality b))).
  destruct (negb (IgnoreQuality cfg) && negb _) eqn:E.
  - bools. rewrite Z.eqb_neq in *. lia.
  - intros H1 H2. by apply (anti_symm str_le).
Qed.

Lemma representativeOf_spec cfg g r :
  Forall ranked g → representativeOf cfg g = Some r → r ∈ g ∧ ∀ c, c ∈ g → less cfg c r = false.
Proof.
  destruct g as [|c0 g]; [done|]. cbn [representativeOf]. intros Hr [= <-].
  inversion Hr as [|? ? H0 Hg]; subst.
  destruct (foldl_least (λ a b, less cfg b a = false) (less cfg) (λ c, c) g c0 ranked) as (_ & H1 & H2 & H3);
    [|intros; by apply less_asym|done|intros a b c; intros; by apply (less_trans cfg a b c)|done|done|].
  { intros b Hb. rewrite less_key by done. rewrite Z.eqb_refl, andb_false_r. apply str_lt_irrefl. }
  cbv beta in *. rewrite map_id in H3. split; [destruct H3 as [->|]; set_solver|].
  intros c [->|Hc]%elem_of_cons; [done|]. rewrite Forall_forall in H2. by apply H2.
Qed.

(** * Lemmas: verdicts *)

Record live_ok (live : list Candidate) : Prop := {
  lo_ids : NoDup (map ca_ID live);
  lo_named : Forall (λ c, ca_ID c ≠ "") live;
  lo_ranked : Forall ranked live;
}.

Lemma id_inj live c d : NoDup (map ca_ID live) → c ∈ live → d ∈ live → ca_ID c = ca_ID d → c = d.
Proof.
  induction live as [|x live IH]; intros Hnd Hc Hd E; [by apply elem_of_nil in Hc|].
  inversion Hnd as [|? ? Hni Hnd']; subst.
  apply elem_of_cons in Hc as [->|Hc], Hd as [->|Hd]; [done| | |by apply IH].
  - exfalso. apply Hni. rewrite E. by apply list_elem_of_fmap_2.
  - exfalso. apply Hni. rewrite <- E. by apply list_elem_of_fmap_2.
Qed.

Lemma live_ok_incl live sub : live_ok live → NoDup sub → (∀ c, c ∈ sub → c ∈ live) → live_ok sub.
Proof.
  intros [H1 H2 H3] Hnd Hsub. rewrite Forall_forall in H2, H3. split.
  - apply NoDup_fmap_2_strong; [|done]. intros x y Hx Hy. apply (id_inj live); auto.
  - apply Forall_forall. auto.
  - apply Forall_forall. auto.
Qed.

Lemma live_ok_perm live live' : live ≡ₚ live' → live_ok live → live_ok live'.
Proof. intros Hp []. split; by rewrite <- Hp. Qed.

Lemma rank_unique cfg l l' :
  live_ok l → l ≡ₚ l' → sort_slice (less cfg) l = sort_slice (less cfg) l'.
Proof.
  intros [H1 _ H3] Hp. apply (sort_slice_unique _ ranked).
  - intros. by apply less_asym.
  - intros x y z. intros. by apply (less_trans cfg x y z).
  - done.
  - done.
  - intros x y Hx Hy Hxy Hyx. rewrite Forall_forall in H3.
    apply (id_inj l); [done..|]. apply (less_anti cfg); auto.
Qed.

(** What the ranking means: [a] comes at or before [b] when its overall quality is higher, or, between
    equals and whenever quality is ignored, when its identifier is not the later one. *)
Definition above (cfg : Config) (a b : Candidate) : Prop :=
  let qa := q_Overall (ca_Quality a) in
  let qb := q_Overall (ca_Quality b) in
  if IgnoreQuality cfg then str_le (ca_ID a) (ca_ID b)
  else (qb <? qa)%float = true ∨ (qa =? qb)%float = true ∧ str_le (ca_ID a) (ca_ID b).

Lemma above_less cfg a b : ranked a → ranked b → above cfg a b ↔ less cfg b a = false.
Proof.
  intros Ha Hb. pose proof Ha as Ha'%finite_num. pose proof Hb as Hb'%finite_num.
  rewrite less_key by done. unfold above. fold (quality a) (quality b).
  rewrite ltb_num, eqb_num by done. destruct (IgnoreQuality cfg); cbn [negb andb]; [done|].
  destruct (Z.eqb_spec (key (quality b)) (key (quality a))) as [E|E]; cbn [negb].
  - split; [|by right; split; [lia|]]. intros [?|[_ ?]]; [lia|done].
  - split; [|by left; lia]. intros [?|[??]]; lia.
Qed.

(** The candidate's technical reading leans its own way. *)
Definition with_bias (c : Candidate) : Prop :=
  ∃ t, ca_Technical c = Some t ∧ t_BiasDirection t = ca_Direction c ∧ (ca_Direction c = Buy ∨ ca_Direction c = Sell).

Lemma biasAligned_spec c : biasAligned c = true ↔ with_bias c.
Proof.
  unfold biasAligned, with_bias, Direction_IsValid. destruct (ca_Technical c) as [t|]; [|naive_solver].
  rewrite andb_true_iff, orb_true_iff, !bool_decide_eq_true. split.
  - intros [H E]. exists t. by rewrite <- E.
  - intros (t' & [= <-] & E & H). by rewrite E.
Qed.

(** [top] ranks first, [opp] first among those of another direction. *)
Record opposed (cfg : Config) (reps : list Candidate) (top opp : Candidate) : Prop := {
  op_top : top ∈ reps;
  op_first : ∀ c, c ∈ reps → above cfg top c;
  op_opp : opp ∈ reps;
  op_dir : ca_Direction opp ≠ ca_Direction top;
  op_strongest : ∀ c, c ∈ reps → ca_Direction c ≠ ca_Direction top → above cfg opp c;
}.
Definition clears_margin (cfg : Config) (top opp : Candidate) : bool :=
  negb (IgnoreQuality cfg) &&
  (q_Overall (ca_Quality top) - q_Overall (ca_Quality opp) >=? ConflictMarginQuality cfg)%float.

(** Why [w] wins: one direction only, the margin, or a unanimous bias. *)
Definition wins (cfg : Config) (reps : list Candidate) (w : Candidate) : Prop :=
  (∀ c, c ∈ reps → above cfg w c) ∧ (∀ c, c ∈ reps → ca_Direction c = ca_Direction w) ∨
  (∃ opp, opposed cfg reps w opp ∧ clears_margin cfg w opp = true) ∨
  (∃ top opp, opposed cfg reps top opp ∧ clears_margin cfg top opp = false ∧ with_bias w ∧
    ∀ c, c ∈ reps → with_bias c → ca_Direction c = ca_Direction w ∧ above cfg w c).

(** The verdict on a set of representatives: a lone thesis is uncontested; one direction, or a margin
    over the strongest opposing thesis, makes the first-ranked the winner; failing that the best
    bias-aligned thesis wins when every bias-aligned thesis agrees on the direction, and all are held
    otherwise. *)
Inductive outcome (cfg : Config) (reps : list Candidate) : (Candidate → Decision) → Prop :=
  | outcome_uncontested c :
      reps = [c] →
      outcome cfg reps (λ c, mkDecision (ca_ID c) StatusUncontested ReasonUncontested [] "" [])
  | outcome_winner w :
      w ∈ reps → 1 < length reps →
      wins cfg reps w →
      outcome cfg reps (λ c, mkDecision (ca_ID c)
        (if bool_decide (ca_ID c = ca_ID w) then StatusWinner else StatusSuppressed)
        ReasonRankedSingleDirection [] "" [])
  | outcome_held top opp :
      opposed cfg reps top opp → clears_margin cfg top opp = false →
      (∀ c, c ∈ reps → with_bias c → ∃ d, d ∈ reps ∧ with_bias d ∧ ca_Direction d ≠ ca_Direction c) →
      outcome cfg reps (λ c, mkDecision (ca_ID c) StatusConflictHeld ReasonOppositeDirectionHeld
        [ca_ID top; ca_ID opp] "" []).

Definition tiebreak_step (acc : option (option Candidate)) (c : Candidate) :=
  match acc with
  | None => None
  | Some found =>
      if negb (biasAligned c) then acc
      else match found with
      | None => Some (Some c)
      | Some w => if negb (bool_decide (ca_Direction c = ca_Direction w)) then None else acc
      end
  end.

Lemma tiebreak_none l : foldl tiebreak_step None l = None.
Proof. by induction l. Qed.

Lemma tiebreak_fold cfg ordered seen found :
  StronglySorted (λ a b, less cfg b a = false) (seen ++ ordered) →
  Forall ranked (seen ++ ordered) →
  (match found with
   | None => ∀ c, c ∈ seen → biasAligned c = false
   | Some w => w ∈ seen ∧ biasAligned w = true ∧
       ∀ c, c ∈ seen → biasAligned c = true → ca_Direction c = ca_Direction w ∧ less cfg c w = false
   end) →
  match foldl tiebreak_step (Some found) ordered with
  | Some (Some w) => w ∈ seen ++ ordered ∧ biasAligned w = true ∧
      ∀ c, c ∈ seen ++ ordered → biasAligned c = true → ca_Direction c = ca_Direction w ∧ less cfg c w = false
  | _ => True
  end.
Proof.
  revert seen found. induction ordered as [|c ordered IH]; intros seen found Hs Hr Hf; cbn [foldl].
  { rewrite app_nil_r. by destruct found. }
  assert (Hsplit : seen ++ c :: ordered = (seen ++ [c]) ++ ordered) by (by rewrite <- app_assoc).
  assert (Hbefore : ∀ x, x ∈ seen → less cfg c x = false).
  { intros x Hx. apply elem_of_Permutation in Hx as Hx'. clear -Hs Hx.
    induction seen as [|y seen IHs]; [by apply elem_of_nil in Hx|]. inversion Hs as [|? ? Hs' Hall]; subst.
    apply elem_of_cons in Hx as [->|Hx]; [|by apply IHs].
    rewrite Forall_forall in Hall. apply Hall. set_solver. }
  assert (Hself : less cfg c c = false).
  { rewrite Forall_forall in Hr. rewrite less_key by (apply Hr; set_solver).
    rewrite Z.eqb_refl, andb_false_r. apply str_lt_irrefl. }
  rewrite Hsplit in Hs, Hr |- *. unfold tiebreak_step at 2.
  destruct (biasAligned c) eqn:Eb; cbn [negb].
  - destruct found as [w|].
    + destruct Hf as (Hw & Hwa & Hall). case_bool_decide as Hd; cbn [negb].
      * apply (IH (seen ++ [c]) (Some w)); [done..|]. split_and!; [set_solver|done|].
        intros x [Hx|Hx]%elem_of_app Ha; [by apply Hall|].
        apply list_elem_of_singleton in Hx as ->. split; [done|by apply Hbefore].
      * by rewrite tiebreak_none.
    + apply (IH (seen ++ [c]) (Some c)); [done..|]. split_and!; [set_solver|done|].
      intros x [Hx|Hx]%elem_of_app Ha; [by rewrite Hf in Ha|].
      by apply list_elem_of_singleton in Hx as ->.
  - apply (IH (seen ++ [c]) found); [done..|]. destruct found as [w|].
    + destruct Hf as (Hw & Hwa & Hall). split_and!; [set_solver|done|].
      intros x [Hx|Hx]%elem_of_app Ha; [by apply Hall|]. apply list_elem_of_singleton in Hx as ->. congruence.
    + intros x [Hx|Hx]%elem_of_app; [by apply Hf|]. by apply list_elem_of_singleton in Hx as ->.
Qed.

Lemma biasTiebreak_spec cfg ordered w :
  StronglySorted (λ a b, less cfg b a = false) ordered → Forall ranked ordered →
  biasTiebreak ordered = Some w →
  w ∈ ordered ∧ biasAligned w = true ∧
  ∀ c, c ∈ ordered → biasAligned c = true → ca_Direction c = ca_Direction w ∧ less cfg c w = false.
Proof.
  intros Hs Hr. unfold biasTiebreak. fold tiebreak_step.
  pose proof (tiebreak_fold cfg ordered [] None Hs Hr) as H.
  destruct (foldl tiebreak_step (Some None) ordered) as [[w'|]|]; [|done|done].
  intros [= <-]. apply H. intros c Hc. by apply elem_of_nil in Hc.
Qed.

Lemma biasTiebreak_None ordered :
  biasTiebreak ordered = None →
  ∀ c, c ∈ ordered → biasAligned c = true →
    ∃ d, d ∈ ordered ∧ biasAligned d = true ∧ ca_Direction d ≠ ca_Direction c.
Proof.
  unfold biasTiebreak. fold tiebreak_step.
  assert (H : match foldl tiebreak_step (Some None) ordered with
    | None => ∃ x y, x ∈ ordered ∧ y ∈ ordered ∧ biasAligned x = true ∧ biasAligned y = true ∧
        ca_Direction x ≠ ca_Direction y
    | Some None => ∀ c, c ∈ ordered → biasAligned c = false
    | Some (Some w) => w ∈ ordered ∧ biasAligned w = true
    end).
  { induction ordered as [|c l IH] using rev_ind; [by intros c Hc%elem_of_nil|]. rewrite foldl_snoc.
    destruct (foldl tiebreak_step (Some None) l) as [[w|]|]; unfold tiebreak_step.
    - destruct (biasAligned c) eqn:E; cbn [negb]; [case_bool_decide|]; cbn [negb]; [destruct IH; split; [set_solver|done]| |destruct IH; split; [set_solver|done]].
      exists c, w. destruct IH as [??]. split_and!; [set_solver|set_solver|done..].
    - destruct (biasAligned c) eqn:E; cbn [negb]; [split; [set_solver|done]|].
      intros d [Hd|Hd%list_elem_of_singleton]%elem_of_app; [by apply IH|by subst].
    - destruct IH as (x & y & ? & ? & ?). exists x, y. split_and!; [set_solver|set_solver|naive_solver..]. }
  destruct (foldl tiebreak_step (Some None) ordered) as [[w|]|]; [done| |]; intros _ c Hc Ha.
  - rewrite H in Ha; done.
  - destruct H as (x & y & Hx & Hy & Hax & Hay & Hxy).
    destruct (decide (ca_Direction x = ca_Direction c)) as [E|E]; [exists y|exists x]; (split_and!; [done..|]); congruence.
Qed.

(** The search of a sorted list finds the best candidate of another direction. *)
Lemma find_opposing cfg (top : Candidate) l :
  StronglySorted (λ a b, less cfg b a = false) l → Forall ranked l →
  match List.find (λ c, negb (bool_decide (ca_Direction c = ca_Direction top))) l with
  | None => ∀ c, c ∈ l → ca_Direction c = ca_Direction top
  | Some o => o ∈ l ∧ ca_Direction o ≠ ca_Direction top ∧
      ∀ c, c ∈ l → ca_Direction c ≠ ca_Direction top → less cfg c o = false
  end.
Proof.
  induction 1 as [|x l Hs IH Hall]; intros Hr; cbn [List.find]; [by intros c Hc%elem_of_nil|].
  inversion Hr as [|? ? Hx Hl]; subst. rewrite Forall_forall in Hall. case_bool_decide as Hd; cbn [negb].
  - specialize (IH Hl). destruct (List.find _ l) as [o|]; [|set_solver].
    destruct IH as (? & ? & Hbest). split_and!; [set_solver|done|].
    intros c [->|Hc]%elem_of_cons; [done|by apply Hbest].
  - split_and!; [set_solver|done|]. intros c [->|Hc]%elem_of_cons _; [|by apply Hall].
    rewrite less_key by done. rewrite Z.eqb_refl, andb_false_r. apply str_lt_irrefl.
Qed.

Lemma decideAll_winner ordered w reason :
  ca_ID w ≠ "" →
  decideAll ordered (ca_ID w) reason [] = map (λ c, mkDecision (ca_ID c)
    (if bool_decide (ca_ID c = ca_ID w) then StatusWinner else StatusSuppressed) reason [] "" []) ordered.
Proof. intros Hw. unfold decideAll. by rewrite (bool_decide_false (ca_ID w = "")). Qed.

Lemma arbitrate_outcome cfg reps :
  live_ok reps → reps ≠ [] →
  ∃ v, outcome cfg reps v ∧ (∀ c, de_CandidateID (v c) = ca_ID c) ∧
    arbitrateRepresentatives cfg reps = map v (sort_slice (less cfg) reps).
Proof.
  intros Hok Hne. pose proof Hok as [Hids Hnamed Hranked].
  destruct (decide (length reps = 1)) as [Hlen|Hlen].
  { destruct reps as [|c [|]]; try done. eexists. split; [by eapply outcome_uncontested|]. split; [done|]. done. }
  assert (Hlen' : 1 < length reps) by (destruct reps as [|? [|]]; cbn in *; try done; lia).
  set (ordered := sort_slice (less cfg) reps).
  assert (Hperm : ordered ≡ₚ reps) by apply sort_slice_perm.
  assert (Hsorted : StronglySorted (λ a b, less cfg b a = false) ordered).
  { apply (sort_slice_sorted _ ranked); [intros; by apply less_asym| |done].
    intros x y z. intros. by apply (less_trans cfg x y z). }
  assert (E : arbitrateRepresentatives cfg reps =
    match ordered with
    | [] => []
    | top :: _ =>
        match List.find (λ c, negb (bool_decide (ca_Direction c = ca_Direction top))) ordered with
        | None => decideAll ordered (ca_ID top) ReasonRankedSingleDirection []
        | Some opp =>
            if negb (IgnoreQuality cfg) && (quality top - quality opp >=? ConflictMarginQuality cfg)%float
            then decideAll ordered (ca_ID top) ReasonRankedSingleDirection []
            else match biasTiebreak ordered with
            | Some winner => decideAll ordered (ca_ID winner) ReasonRankedSingleDirection []
            | None => decideAll ordered "" ReasonOppositeDirectionHeld [ca_ID top; ca_ID opp]
            end
        end
    end) by (unfold ordered; destruct reps as [|? [|]]; cbn [length] in *; try done; lia).
  rewrite E. clear E. assert (Hr' : Forall ranked ordered) by (by rewrite Hperm).
  assert (Hname : ∀ c, c ∈ ordered → ca_ID c ≠ "").
  { intros c. rewrite Hperm. rewrite Forall_forall in Hnamed. auto. }
  destruct ordered as [|top rest] eqn:Eo; [by apply Permutation_nil in Hperm|]. rewrite <- Eo in *.
  assert (Htop : top ∈ ordered) by (rewrite Eo; set_solver).
  assert (Habove : ∀ a b, a ∈ ordered → b ∈ ordered → less cfg b a = false → above cfg a b).
  { intros a b Ha Hb. rewrite Forall_forall in Hr'. apply above_less; auto. }
  assert (Hbest : ∀ c, c ∈ reps → above cfg top c).
  { intros c Hc. rewrite <- Hperm in Hc. apply Habove; [done..|]. revert Hc. rewrite Eo. intros [->|Hc]%elem_of_cons.
    - rewrite Forall_forall in Hr'. rewrite less_key by (by apply Hr').
      rewrite Z.eqb_refl, andb_false_r. apply str_lt_irrefl.
    - rewrite Eo in Hsorted. inversion Hsorted as [|? ? _ Hall]; subst.
      rewrite Forall_forall in Hall. auto. }
  pose proof (find_opposing cfg top ordered Hsorted Hr') as Hopp.
  assert (Hwin : ∀ w, w ∈ ordered → wins cfg reps w → ∃ v, outcome cfg reps v ∧ (∀ c, de_CandidateID (v c) = ca_ID c) ∧
      decideAll ordered (ca_ID w) ReasonRankedSingleDirection [] = map v ordered).
  { intros w Hw Hbw. eexists. split; [eapply outcome_winner; [by rewrite <- Hperm|done|exact Hbw]|].
    split; [done|]. by apply decideAll_winner, Hname. }
  destruct (List.find _ ordered) as [opp|].
  2:{ apply Hwin; [done|]. left. split; [done|]. intros c. rewrite <- Hperm. apply Hopp. }
  assert (Hop : opposed cfg reps top opp).
  { destruct Hopp as (? & ? & Hst). split; [by rewrite <- Hperm|done|by rewrite <- Hperm|done|].
    intros c. rewrite <- Hperm. intros Hc Hd. apply Habove; auto. }
  change (negb (IgnoreQuality cfg) && (quality top - quality opp >=? ConflictMarginQuality cfg)%float)
    with (clears_margin cfg top opp).
  destruct (clears_margin cfg top opp) eqn:Eq; [apply Hwin; [done|]; right; left; by exists opp|].
  destruct (biasTiebreak ordered) as [w|] eqn:Et.
  - destruct (biasTiebreak_spec cfg ordered w Hsorted Hr' Et) as (Hw & Hwa & Hall).
    apply Hwin; [done|]. right; right. exists top, opp. split_and!; [done|done|by apply biasAligned_spec|].
    intros c Hc Hb%biasAligned_spec. rewrite <- Hperm in Hc. destruct (Hall c Hc Hb). auto.
  - eexists. split; [|split; [|done]]; [|done]. eapply outcome_held; [done..|].
    intros c. rewrite <- Hperm. intros Hc Ha%biasAligned_spec.
    destruct (biasTiebreak_None ordered Et c Hc Ha) as (d & Hd & Hdb%biasAligned_spec & ?).
    exists d. by rewrite <- Hperm.
Qed.

Lemma decisions_by_id (v : Candidate → Decision) (l : list Candidate) (m : gmap string Decision) :
  (∀ c, de_CandidateID (v c) = ca_ID c) → NoDup (map ca_ID l) →
  (∀ c, c ∈ l → foldl (λ m d, <[de_CandidateID d := d]> m) m (map v l) !! ca_ID c = Some (v c)) ∧
  (∀ id, id ∉ map ca_ID l → foldl (λ m d, <[de_CandidateID d := d]> m) m (map v l) !! id = m !! id).
Proof.
  intros Hv. revert m. induction l as [|c l IH]; intros m Hnd; cbn [map foldl].
  { split; [|done]. intros c Hc. by apply elem_of_nil in Hc. }
  inversion Hnd as [|? ? Hni Hnd']; subst. destruct (IH (<[de_CandidateID (v c) := v c]> m) Hnd') as [H1 H2].
  split.
  - intros d [->|Hd]%elem_of_cons; [|by apply H1]. rewrite H2 by done. rewrite Hv. by rewrite lookup_insert_eq.
  - intros id Hid. rewrite H2 by set_solver. rewrite lookup_insert_ne; [done|]. rewrite Hv. set_solver.
Qed.

(** * Lemmas: the whole decision set *)

Lemma representativeOf_Some cfg g : g ≠ [] → ∃ r, representativeOf cfg g = Some r.
Proof. destruct g; [done|]. by eexists. Qed.

Lemma representatives_keys range `{!RangeOrder range} cfg live :
  live_ok live →
  map thesisKey (representatives range cfg (groupByThesis live)) = range (groupByThesis live) ∧
  ∀ r, r ∈ representatives range cfg (groupByThesis live) → r ∈ live.
Proof.
  intros [_ _ Hr]. unfold representatives.
  assert (Hk : ∀ k, k ∈ range (groupByThesis live) → ∃ g r, groupByThesis live !! k = Some g ∧
    representativeOf cfg g = Some r ∧ thesisKey r = k ∧ r ∈ live).
  { intros k [g Hg]%range_keys. pose proof Hg as [-> Hne]%groupByThesis_Some.
    destruct (representativeOf_Some cfg _ Hne) as [r Hrep]. eexists _, r. split_and!; [done..| |].
    all: apply representativeOf_spec in Hrep as [Hin _];
      [by apply list_elem_of_filter in Hin as [? ?]|].
    all: apply Forall_forall; intros c [_ Hc]%list_elem_of_filter; rewrite Forall_forall in Hr; auto. }
  revert Hk. generalize (range (groupByThesis live)). intros ks. induction ks as [|k ks IH]; intros Hk; [split; [done|set_solver]|].
  destruct (Hk k ltac:(set_solver)) as (g & r & Hg & Hrep & Hkey & Hin).
  destruct IH as [IH1 IH2]; [intros; apply Hk; set_solver|].
  cbn [omap list_omap map]. rewrite Hg, Hrep. cbn [map]. split; [by f_equal|]. set_solver.
Qed.

Lemma representatives_ok range `{!RangeOrder range} cfg live :
  live_ok live → live_ok (representatives range cfg (groupByThesis live)).
Proof.
  intros Hok. destruct (representatives_keys range cfg live Hok) as [H1 H2].
  apply (live_ok_incl live); [done| |done].
  apply (NoDup_fmap_1 thesisKey). change (NoDup (map thesisKey (representatives range cfg (groupByThesis live)))).
  rewrite H1. apply range_nodup.
Qed.

(** The decision of a candidate, from its thesis' representative and the representatives' verdict. *)
Definition decision_of (cfg : Config) (live : list Candidate) (v : Candidate → Decision) (c : Candidate) : Decision :=
  let group := same_thesis (thesisKey c) live in
  match representativeOf cfg group with
  | None => zero_Decision
  | Some rep =>
      mkDecision (ca_ID c) (de_Status (v rep)) (de_ReasonCode (v rep)) (de_ConflictingWith (v rep))
        (if 1 <? length group then ca_ID rep else "")
        (if 1 <? length group then List.filter (λ id, negb (bool_decide (id = ca_ID c))) (map ca_ID group) else [])
  end.

Lemma Arbitrate_unfold range1 range2 live cfg :
  live ≠ [] →
  Arbitrate range1 range2 live cfg =
    let groups := groupByThesis live in
    let repDecisions := arbitrateRepresentatives cfg (representatives range1 cfg groups) in
    let byID := foldl (λ m d, <[de_CandidateID d := d]> m) ∅ repDecisions in
    sort_slice by_id
      (flat_map (λ k, match groups !! k with Some group => group_decisions cfg byID group | None => [] end)
        (range2 groups)).
Proof. by destruct live. Qed.

Lemma Arbitrate_decisions range1 range2 `{!RangeOrder range1, !RangeOrder range2} live cfg :
  live_ok live → live ≠ [] →
  ∃ v, outcome cfg (representatives range1 cfg (groupByThesis live)) v ∧
    Arbitrate range1 range2 live cfg =
      sort_slice by_id (flat_map (λ k, map (decision_of cfg live v) (same_thesis k live)) (range2 (groupByThesis live))).
Proof.
  intros Hok Hne. set (groups := groupByThesis live).
  pose proof (representatives_ok range1 cfg live Hok) as Hrok.
  destruct (representatives_keys range1 cfg live Hok) as [Hkeys Hsub]. fold groups in Hrok, Hkeys, Hsub.
  set (reps := representatives range1 cfg groups) in *.
  assert (Hrne : reps ≠ []).
  { intros E. rewrite E in Hkeys. destruct live as [|c live]; [done|].
    assert (thesisKey c ∈ range1 groups) as Hin.
    { apply range_keys. unfold groups. rewrite groupByThesis_lookup.
      assert (c ∈ same_thesis (thesisKey c) (c :: live)) as Hm by (apply list_elem_of_filter; set_solver).
      destruct (same_thesis _ _); [by apply elem_of_nil in Hm|by eexists]. }
    rewrite <- Hkeys in Hin. by apply elem_of_nil in Hin. }
  destruct (arbitrate_outcome cfg reps Hrok Hrne) as (v & Hv & Hid & Harb).
  exists v. split; [done|]. rewrite Arbitrate_unfold by done. cbv zeta.
  fold groups reps. rewrite Harb. f_equal.
  rewrite !flat_map_concat_map. f_equal. apply map_ext_in. intros k Hk%list_elem_of_In.
  apply range_keys in Hk as [g Hg]. rewrite Hg. pose proof Hg as [-> Hgne]%groupByThesis_Some.
  unfold group_decisions. destruct (representativeOf cfg (same_thesis k live)) as [rep|] eqn:Er.
  2:{ destruct (representativeOf_Some cfg _ Hgne) as [r E]. congruence. }
  assert (Hrep : rep ∈ reps).
  { unfold reps, representatives. apply list_elem_of_omap. exists k. rewrite Hg. split; [|done].
    apply range_keys. by eexists. }
  destruct (decisions_by_id v (sort_slice (less cfg) reps) ∅) as [Hlook _]; [done| |].
  { rewrite sort_slice_perm. apply Hrok. }
  rewrite Hlook by (by rewrite sort_slice_perm). cbn [default id].
  apply map_ext_in. intros c Hc%list_elem_of_In. apply list_elem_of_filter in Hc as [Hkc _].
  unfold decision_of. rewrite Hkc, Er. by destruct (1 <? length (same_thesis k live)).
Qed.

(** ** One arrangement of the decisions *)

Lemma by_id_unique (l l' : list Decision) :
  NoDup (map de_CandidateID l) → l ≡ₚ l' → sort_slice by_id l = sort_slice by_id l'.
Proof.
  intros Hnd Hp. apply (sort_slice_unique _ (λ _, True)); [| |by apply Forall_true|done|].
  - intros x y _ _. apply str_lt_asym.
  - intros x y z _ _ _ H1 H2. by apply (str_le_trans _ (de_CandidateID y)).
  - intros x y Hx Hy H1 H2. assert (E : de_CandidateID x = de_CandidateID y) by (by apply (anti_symm str_le)).
    clear -Hnd Hx Hy E. induction l as [|z l IH]; [by apply elem_of_nil in Hx|].
    inversion Hnd as [|? ? Hni Hnd']; subst.
    apply elem_of_cons in Hx as [->|Hx], Hy as [->|Hy]; [done| | |by apply IH]; exfalso; apply Hni;
      [rewrite E|rewrite <- E]; by apply list_elem_of_fmap_2.
Qed.

Lemma decision_of_ID cfg live v c : c ∈ live → de_CandidateID (decision_of cfg live v c) = ca_ID c.
Proof.
  intros Hc. unfold decision_of.
  assert (c ∈ same_thesis (thesisKey c) live) as Hm by (by apply list_elem_of_filter).
  destruct (same_thesis _ _); [by apply elem_of_nil in Hm|]. done.
Qed.
Lemma decisions_IDs cfg live v : map de_CandidateID (map (decision_of cfg live v) live) = map ca_ID live.
Proof. rewrite map_map. apply map_ext_in. intros c Hc%list_elem_of_In. by apply decision_of_ID. Qed.

Lemma flat_map_map {A B C} (f : B → C) (g : A → list B) l :
  flat_map (λ k, map f (g k)) l = map f (flat_map g l).
Proof. induction l as [|x l IH]; cbn; [done|]. by rewrite IH, map_app. Qed.

Lemma Arbitrate_sorted range1 range2 `{!RangeOrder range1, !RangeOrder range2} live cfg :
  live_ok live → live ≠ [] →
  ∃ v, outcome cfg (representatives range1 cfg (groupByThesis live)) v ∧
    Arbitrate range1 range2 live cfg = sort_slice by_id (map (decision_of cfg live v) live).
Proof.
  intros Hok Hne. destruct (Arbitrate_decisions range1 range2 live cfg Hok Hne) as (v & Hv & E).
  exists v. split; [done|]. rewrite E, flat_map_map. symmetry. apply by_id_unique.
  - rewrite decisions_IDs. apply Hok.
  - apply Permutation_map. symmetry. apply groups_partition; [apply range_nodup|]. intros k. apply range_keys.
Qed.

Lemma Arbitrate_IDs range1 range2 `{!RangeOrder range1, !RangeOrder range2} live cfg :
  live_ok live → map de_CandidateID (Arbitrate range1 range2 live cfg) ≡ₚ map ca_ID live.
Proof.
  intros Hok. destruct (decide (live = [])) as [->|Hne]; [done|].
  destruct (Arbitrate_sorted range1 range2 live cfg Hok Hne) as (v & _ & ->).
  by rewrite sort_slice_perm, decisions_IDs.
Qed.

Lemma arbitrateRepresentatives_perm cfg reps reps' :
  live_ok reps → reps ≡ₚ reps' → arbitrateRepresentatives cfg reps = arbitrateRepresentatives cfg reps'.
Proof.
  intros Hok Hp. pose proof (rank_unique cfg reps reps' Hok Hp) as E. pose proof (Permutation_length Hp) as Hl.
  destruct reps as [|a [|b reps]], reps' as [|a' [|b' reps']]; try done.
  - by apply Permutation_singleton_inj in Hp as ->.
  - unfold arbitrateRepresentatives. by rewrite E.
Qed.

#[local] Instance flat_map_perm {A B} (f : A → list B) : Proper ((≡ₚ) ==> (≡ₚ)) (flat_map f).
Proof. intros l l' Hp. by apply Permutation_flat_map. Qed.

Lemma Arbitrate_ranges range1 range2 range1' range2'
    `{!RangeOrder range1, !RangeOrder range2, !RangeOrder range1', !RangeOrder range2'} live cfg :
  live_ok live → Arbitrate range1 range2 live cfg = Arbitrate range1' range2' live cfg.
Proof.
  intros Hok. destruct (decide (live = [])) as [->|Hne]; [done|].
  rewrite !Arbitrate_unfold by done. cbv zeta.
  rewrite <- (arbitrateRepresentatives_perm cfg (representatives range1 cfg (groupByThesis live))
    (representatives range1' cfg (groupByThesis live))); [|by apply representatives_ok|].
  2:{ unfold representatives. by rewrite (range_perm range1 range1'). }
  apply by_id_unique; [|by rewrite (range_perm range2 range2')].
  pose proof (Arbitrate_IDs range1 range2 live cfg Hok) as Hids. rewrite Arbitrate_unfold in Hids by done.
  rewrite sort_slice_perm in Hids. rewrite Hids. apply Hok.
Qed.

Lemma live_ok_filter (f : Candidate → bool) live : live_ok live → live_ok (List.filter f live).
Proof.
  intros Hok. apply (live_ok_incl live); [done| |].
  - apply NoDup_ListNoDup, List.NoDup_filter, NoDup_ListNoDup. apply (NoDup_fmap_1 ca_ID), Hok.
  - intros c. rewrite !list_elem_of_In, filter_In. by intros [].
Qed.

Lemma partition_perm {A} (f : A → bool) (l : list A) :
  List.filter (λ x, negb (f x)) l ++ List.filter f l ≡ₚ l.
Proof.
  induction l as [|x l IH]; cbn; [done|]. destruct (f x); cbn; [|by rewrite IH].
  by rewrite <- Permutation_middle, IH.
Qed.

(** ** The gate on entry-ready candidates *)
Section ready.
Context (range1 range2 : gmap string (list Candidate) → list string) `{!RangeOrder range1, !RangeOrder range2} (live : list Candidate) (cfg : Config) (reference : float).
Hypothesis Hok : live_ok live.
Hypothesis Hcfg : (InPlayATR cfg <=? 0)%float = false.
Hypothesis Href : (reference >? 0)%float = true.
Let isReady := λ c, isEntryReady c reference.
Let ready := List.filter isReady live.
Hypothesis Hready : ready ≠ [].

Lemma ready_split :
  ArbitrateInPlay range1 range2 live cfg reference ≡ₚ
  map not_in_play (List.filter (λ c, negb (isReady c)) live) ++ Arbitrate range1 range2 ready cfg.
Proof.
  unfold ArbitrateInPlay. rewrite Hcfg, Href. fold isReady ready. cbn [orb negb].
  destruct live as [|c l] eqn:El; [done|]. rewrite <- El in *. fold isReady ready.
  destruct ready; [done|]. cbn [length Nat.ltb Nat.leb]. apply sort_slice_perm.
Qed.

Lemma ready_IDs : map de_CandidateID (ArbitrateInPlay range1 range2 live cfg reference) ≡ₚ map ca_ID live.
Proof.
  rewrite ready_split, map_app, map_map, (Arbitrate_IDs range1 range2 ready cfg (live_ok_filter _ _ Hok)).
  cbn [not_in_play de_CandidateID]. rewrite <- map_app. unfold ready. by rewrite (partition_perm isReady).
Qed.

Lemma ready_member c : c ∈ ready ↔ c ∈ live ∧ isReady c = true.
Proof. unfold ready. by rewrite !list_elem_of_In, filter_In. Qed.

Lemma ready_decision c d :
  c ∈ live → de_CandidateID d = ca_ID c →
  d ∈ ArbitrateInPlay range1 range2 live cfg reference ↔
  if isReady c then d ∈ Arbitrate range1 range2 ready cfg else d = not_in_play c.
Proof.
  intros Hc Hid. rewrite ready_split, elem_of_app.
  assert (Hmap : d ∈ map not_in_play (List.filter (λ c, negb (isReady c)) live) ↔ isReady c = false ∧ d = not_in_play c).
  { rewrite list_elem_of_fmap. split.
    - intros (c' & -> & Hc'). rewrite list_elem_of_In, filter_In, <- list_elem_of_In in Hc'. destruct Hc' as [Hin Hn].
      assert (c' = c) as -> by (eapply (id_inj live); [apply Hok|done|done|exact Hid]).
      by apply negb_true_iff in Hn.
    - intros [Hn ->]. exists c. split; [done|]. rewrite list_elem_of_In, filter_In, <- list_elem_of_In. by rewrite Hn. }
  assert (Harb : d ∈ Arbitrate range1 range2 ready cfg → isReady c = true).
  { intros Hd. assert (de_CandidateID d ∈ map ca_ID ready) as Hin.
    { rewrite <- (Arbitrate_IDs range1 range2 ready cfg) by (by apply live_ok_filter). by apply list_elem_of_fmap_2. }
    apply list_elem_of_fmap in Hin as (c' & E & [Hl Hr]%ready_member).
    assert (c' = c) as -> by (eapply (id_inj live); [apply Hok|done|done|congruence]). done. }
  destruct (isReady c); naive_solver.
Qed.
End ready.

(** Every live candidate is decided once, whether or not the gate is on. *)
Lemma ArbitrateInPlay_IDs range1 range2 `{!RangeOrder range1, !RangeOrder range2} live cfg reference :
  live_ok live → map de_CandidateID (ArbitrateInPlay range1 range2 live cfg reference) ≡ₚ map ca_ID live.
Proof.
  intros Hok. unfold ArbitrateInPlay. destruct live as [|c l] eqn:El; [done|]. rewrite <- El in *.
  destruct (_ || _); [by apply Arbitrate_IDs|].
  assert (Hsplit : ∀ f : Candidate → bool, map de_CandidateID (sort_slice by_id
    (map not_in_play (List.filter (λ c, negb (f c)) live) ++ Arbitrate range1 range2 (List.filter f live) cfg)) ≡ₚ map ca_ID live).
  { intros f. rewrite sort_slice_perm, map_app, map_map, (Arbitrate_IDs range1 range2 _ cfg (live_ok_filter f _ Hok)).
    cbn [not_in_play de_CandidateID]. by rewrite <- map_app, partition_perm. }
  destruct (0 <? _); apply Hsplit.
Qed.

(** ** Theses, representatives and decisions in the terms of the candidates *)

(** Two candidates argue one thesis: the same direction on the same structure; without a structure a
    candidate argues only its own. *)
Definition one_thesis (a b : Candidate) : Prop :=
  ca_StructuralID a ≠ "" ∧ ca_StructuralID a = ca_StructuralID b ∧ ca_Direction a = ca_Direction b ∨
  ca_StructuralID a = "" ∧ ca_StructuralID b = "" ∧ ca_ID a = ca_ID b.
#[export] Instance one_thesis_dec a b : base.Decision (one_thesis a b) := ltac:(unfold one_thesis; apply _).

Lemma thesisKey_spec a b :
  Direction_IsValid (ca_Direction a) = true → Direction_IsValid (ca_Direction b) = true →
  thesisKey a = thesisKey b ↔ one_thesis a b.
Proof.
  intros Ha Hb. unfold thesisKey, one_thesis, Direction_IsValid in *.
  rewrite orb_true_iff, !bool_decide_eq_true in Ha, Hb.
  case_bool_decide as Ea; case_bool_decide as Eb; [|split; [discriminate|intros [(? & ? & _)|(? & ? & _)]; congruence]..|].
  - split; [|intros [(? & _)|(_ & _ & ->)]; done]. cbn. intros [= E]. auto.
  - split; [|intros [(_ & -> & ->)|(? & _)]; done].
    destruct Ha as [-> | ->], Hb as [-> | ->]; cbn; intros [= E]; auto.
Qed.

(** The candidate its thesis stands by. *)
Definition leader (cfg : Config) (live : list Candidate) (c : Candidate) : Candidate :=
  default c (representativeOf cfg (same_thesis (thesisKey c) live)).

Section theses.
Context (cfg : Config) (live : list Candidate).
Hypothesis Hok : live_ok live.
Hypothesis Hdir : Forall (λ c, Direction_IsValid (ca_Direction c) = true) live.

Lemma thesis_live a b : a ∈ live → b ∈ live → thesisKey a = thesisKey b ↔ one_thesis a b.
Proof. rewrite Forall_forall in Hdir. intros. apply thesisKey_spec; auto. Qed.

Lemma leader_best c :
  c ∈ live → representativeOf cfg (same_thesis (thesisKey c) live) = Some (leader cfg live c) ∧
  leader cfg live c ∈ live ∧ thesisKey (leader cfg live c) = thesisKey c ∧
  ∀ d, d ∈ live → thesisKey d = thesisKey c → above cfg (leader cfg live c) d.
Proof.
  intros Hc. unfold leader. assert (Hm : c ∈ same_thesis (thesisKey c) live) by (by apply list_elem_of_filter).
  destruct (representativeOf cfg (same_thesis (thesisKey c) live)) as [r|] eqn:E.
  2:{ destruct (same_thesis _ _); [by apply elem_of_nil in Hm|done]. }
  pose proof (lo_ranked _ Hok) as Hr. rewrite Forall_forall in Hr.
  apply representativeOf_spec in E as [[Hk Hin]%list_elem_of_filter Hbest].
  2:{ apply Forall_forall. intros d [_ Hd]%list_elem_of_filter. auto. }
  split_and!; [done..|]. intros d Hd Hkd. apply above_less; [auto..|]. apply Hbest. by apply list_elem_of_filter.
Qed.

Lemma above_anti a b : a ∈ live → b ∈ live → above cfg a b → above cfg b a → a = b.
Proof.
  intros Ha Hb. pose proof (lo_ranked _ Hok) as Hr. rewrite Forall_forall in Hr.
  rewrite !above_less by auto. intros H1 H2. apply (id_inj live); [apply Hok|done..|].
  apply (less_anti cfg); auto.
Qed.

Lemma leader_in_reps range `{!RangeOrder range} c :
  c ∈ live → leader cfg live c ∈ representatives range cfg (groupByThesis live).
Proof.
  intros Hc. unfold representatives. apply list_elem_of_omap. exists (thesisKey c).
  assert (Hg : groupByThesis live !! thesisKey c = Some (same_thesis (thesisKey c) live)).
  { apply groupByThesis_Some. split; [done|]. intros E.
    assert (Hm : c ∈ same_thesis (thesisKey c) live) by (by apply list_elem_of_filter). rewrite E in Hm. by apply elem_of_nil in Hm. }
  rewrite Hg. split; [by apply range_keys; eexists|]. by apply leader_best.
Qed.

Lemma representatives_spec range `{!RangeOrder range} r :
  r ∈ representatives range cfg (groupByThesis live) ↔
  r ∈ live ∧ ∀ c, c ∈ live → one_thesis c r → above cfg r c.
Proof.
  split.
  - unfold representatives. intros (k & [g Hg]%range_keys & Hrep)%list_elem_of_omap. rewrite Hg in Hrep.
    apply groupByThesis_Some in Hg as [-> Hne].
    pose proof (lo_ranked _ Hok) as Hr. pose proof Hrep as Hrep'. rewrite Forall_forall in Hr.
    apply representativeOf_spec in Hrep as [[Hk Hin]%list_elem_of_filter _].
    2:{ apply Forall_forall. intros d [_ Hd]%list_elem_of_filter. auto. }
    split; [done|]. intros c Hc Hct%thesis_live; [|done..].
    destruct (leader_best r Hin) as (Hl & _ & _ & Hbest). rewrite Hk, Hrep' in Hl.
    injection Hl as Hl. rewrite Hl. auto.
  - intros [Hin Hbest]. destruct (leader_best r Hin) as (_ & Hl & Hk & Hab).
    assert (leader cfg live r = r) as <-; [|by apply leader_in_reps].
    apply above_anti; [done..|by apply Hab|]. apply Hbest; [done|]. by apply thesis_live.
Qed.

Lemma leader_spec range `{!RangeOrder range} c :
  c ∈ live → leader cfg live c ∈ representatives range cfg (groupByThesis live) ∧ one_thesis (leader cfg live c) c.
Proof.
  intros Hc. split; [by apply leader_in_reps|]. destruct (leader_best c Hc) as (_ & Hl & Hk & _). by apply thesis_live.
Qed.

Lemma others_spec c :
  c ∈ live →
  filter (λ d, one_thesis d c ∧ ca_ID d ≠ ca_ID c) live =
  filter (λ d, ca_ID d ≠ ca_ID c) (same_thesis (thesisKey c) live).
Proof.
  intros Hc. unfold same_thesis. rewrite list_filter_filter.
  assert (Hl : ∀ d, d ∈ live → thesisKey d = thesisKey c ↔ one_thesis d c) by (intros; by apply thesis_live).
  clear -Hl. induction live as [|d l IH]; [done|].
  rewrite !filter_cons, IH by (intros; apply Hl; by right). apply decide_ext.
  pose proof (Hl d (list_elem_of_here _ _)). tauto.
Qed.

Lemma filter_ids c g :
  List.filter (λ id, negb (bool_decide (id = ca_ID c))) (map ca_ID g) = map ca_ID (filter (λ d, ca_ID d ≠ ca_ID c) g).
Proof.
  induction g as [|x g IH]; [done|]. cbn [map List.filter]. rewrite filter_cons, IH.
  case_bool_decide; cbn [negb]; [rewrite decide_False by tauto|rewrite decide_True by done]; done.
Qed.

Lemma decision_of_spec v c :
  c ∈ live →
  let others := filter (λ d, one_thesis d c ∧ ca_ID d ≠ ca_ID c) live in
  decision_of cfg live v c =
    mkDecision (ca_ID c) (de_Status (v (leader cfg live c))) (de_ReasonCode (v (leader cfg live c)))
      (de_ConflictingWith (v (leader cfg live c)))
      (match others with [] => "" | _ => ca_ID (leader cfg live c) end) (map ca_ID others).
Proof.
  intros Hc others. destruct (leader_best c Hc) as (Hl & _). unfold decision_of. rewrite Hl.
  unfold others. rewrite others_spec by done.
  assert (Hm : c ∈ same_thesis (thesisKey c) live) by (by apply list_elem_of_filter).
  assert (Hnd : NoDup (map ca_ID (same_thesis (thesisKey c) live))).
  { apply (live_ok_incl live); [done| |]. - apply NoDup_filter, (NoDup_fmap_1 ca_ID), Hok. - by intros d [_ ?]%list_elem_of_filter. }
  revert Hm Hnd. generalize (same_thesis (thesisKey c) live). intros g Hm Hnd.
  assert (E : filter (λ d, ca_ID d ≠ ca_ID c) g = [] ↔ length g <= 1).
  { split.
    - intros E. destruct g as [|x [|y g]]; cbn; try lia. exfalso.
      assert (Hall : ∀ d, d ∈ x :: y :: g → ca_ID d = ca_ID c).
      { intros d Hd. destruct (decide (ca_ID d = ca_ID c)); [done|].
        assert (d ∈ filter (λ d, ca_ID d ≠ ca_ID c) (x :: y :: g)) as Hf by (by apply list_elem_of_filter).
        rewrite E in Hf. by apply elem_of_nil in Hf. }
      inversion Hnd as [|? ? Hni _]; subst. apply Hni. cbn. rewrite (Hall x), (Hall y) by set_solver. set_solver.
    - destruct g as [|x [|y g]]; cbn [length]; intros; try lia; [done|].
      apply list_elem_of_singleton in Hm as ->. rewrite filter_cons_False by tauto. done. }
  rewrite (filter_ids c g). destruct (Nat.ltb_spec 1 (length g)) as [Hlt|Hle].
  - destruct (filter _ g); [|done]. destruct E as [E _]. specialize (E eq_refl). lia.
  - by rewrite (proj2 E).
Qed.

Lemma decisions_sorted v : StronglySorted str_le (map de_CandidateID (sort_slice by_id (map (decision_of cfg live v) live))).
Proof.
  assert (H : StronglySorted (λ a b, by_id b a = false) (sort_slice by_id (map (decision_of cfg live v) live))).
  { apply (sort_slice_sorted _ (λ _, True)); [| |by apply Forall_true].
    - intros x y _ _. apply str_lt_asym.
    - intros x y z _ _ _ H1 H2. by apply (str_le_trans _ (de_CandidateID y)). }
  induction H as [|x l _ IH Hx]; cbn; constructor; [done|]. by apply Forall_map.
Qed.
End theses.


(** * Theorems *)

(** [C4] Arbitration decides every live candidate exactly once, in identifier order. A thesis is the
    candidates of one direction on one structure (a candidate without a structure is alone), and stands
    for arbitration by the best-ranked of them: of highest quality, and of smallest identifier between
    equals or when quality is ignored. Every candidate gets the verdict on its representative and, in a
    thesis of several, names it and the other members. The verdict is one of three: a lone thesis is
    uncontested; exactly one thesis wins, because all agree on the direction, it leads the strongest
    opposing one by the margin, or it is the best of the bias-aligned and these agree; or all are held. *)
Theorem arbitration_decides range1 range2 `{!RangeOrder range1, !RangeOrder range2} live cfg :
  live_ok live → Forall (λ c, Direction_IsValid (ca_Direction c) = true) live → live ≠ [] →
  ∃ reps (rep : Candidate → Candidate) v,
    NoDup reps ∧
    (∀ r, r ∈ reps ↔ r ∈ live ∧ ∀ c, c ∈ live → one_thesis c r → above cfg r c) ∧
    (∀ c, c ∈ live → rep c ∈ reps ∧ one_thesis (rep c) c) ∧
    outcome cfg reps v ∧
    let others c := filter (λ d, one_thesis d c ∧ ca_ID d ≠ ca_ID c) live in
    Arbitrate range1 range2 live cfg ≡ₚ
      map (λ c, mkDecision (ca_ID c) (de_Status (v (rep c))) (de_ReasonCode (v (rep c)))
        (de_ConflictingWith (v (rep c)))
        (match others c with [] => "" | _ => ca_ID (rep c) end) (map ca_ID (others c))) live ∧
    StronglySorted str_le (map de_CandidateID (Arbitrate range1 range2 live cfg)).
Proof.
  intros Hok Hdir Hne. destruct (Arbitrate_sorted range1 range2 live cfg Hok Hne) as (v & Hv & E).
  set (reps := representatives range1 cfg (groupByThesis live)) in *.
  exists reps, (leader cfg live), v. split_and!; [|intros r|intros c Hc|done|intros others].
  - apply (NoDup_fmap_1 ca_ID), (representatives_ok range1 cfg live Hok).
  - by apply representatives_spec.
  - by apply leader_spec.
  - rewrite E. split; [|by apply decisions_sorted]. rewrite sort_slice_perm.
    match goal with |- ?l ≡ₚ ?r => enough (l = r) as -> by done end.
    apply map_ext_in. intros c Hc%list_elem_of_In. by apply decision_of_spec.
Qed.

(** The decisions do not depend on the order in which the runtime ranges over the thesis map. *)
Theorem arbitration_deterministic range1 range2 range1' range2'
    `{!RangeOrder range1, !RangeOrder range2, !RangeOrder range1', !RangeOrder range2'} live cfg reference :
  live_ok live →
  ArbitrateInPlay range1 range2 live cfg reference = ArbitrateInPlay range1' range2' live cfg reference.
Proof.
  intros Hok. unfold ArbitrateInPlay. destruct live as [|c l] eqn:El; [done|]. rewrite <- El in *.
  split_ifs; rewrite (Arbitrate_ranges range1 range2 range1' range2'); auto using live_ok_filter.
Qed.

(** While some candidate is ready to enter, the others cannot influence it: they are all
    suppressed as not in play, and the decisions on the ready ones are those of an arbitration among
    the ready ones alone, whatever else is live; every live candidate is decided once. *)
Theorem ready_not_vetoed range1 range2 `{!RangeOrder range1, !RangeOrder range2} live cfg reference :
  live_ok live → (InPlayATR cfg <=? 0)%float = false → (reference >? 0)%float = true →
  let ready := List.filter (λ c, isEntryReady c reference) live in
  let decisions := ArbitrateInPlay range1 range2 live cfg reference in
  ready ≠ [] →
  map de_CandidateID decisions ≡ₚ map ca_ID live ∧
  (∀ c, c ∈ live → isEntryReady c reference = false →
     ∀ d, d ∈ decisions → de_CandidateID d = ca_ID c → d = not_in_play c) ∧
  (∀ c, c ∈ ready → ∀ d, de_CandidateID d = ca_ID c →
     d ∈ decisions ↔ d ∈ ArbitrateInPlay range1 range2 ready cfg reference).
Proof.
  intros Hok Hcfg Href ready decisions Hready.
  assert (Hrr : List.filter (λ c, isEntryReady c reference) ready = ready).
  { apply forallb_filter_id. apply forallb_forall. unfold ready. by intros c [_ ?]%filter_In. }
  split_and!; [by apply ready_IDs| |].
  - intros c Hc Hn d Hd Hid. pose proof (ready_decision range1 range2 live cfg reference Hok Hcfg Href Hready c d Hc Hid) as H.
    cbv beta in H. rewrite Hn in H. by apply H.
  - intros c [Hl Hr]%ready_member d Hid.
    pose proof (ready_decision range1 range2 live cfg reference Hok Hcfg Href Hready c d Hl Hid) as H1.
    pose proof (ready_decision range1 range2 ready cfg reference (live_ok_filter _ _ Hok) Hcfg Href) as H2.
    rewrite Hrr in H2. specialize (H2 Hready c d ltac:(by apply ready_member) Hid).
    cbv beta in H1, H2, Hr. rewrite Hr in H1, H2. unfold decisions. by rewrite H1, H2.
Qed.

(** ** Witnesses: two theses of opposite directions, one of them twice *)

Definition demo_live : list Candidate :=
  [demo_candidate "opp_a" "z1" Buy 0.9; demo_candidate "opp_b" "z2" Sell 0.5; demo_candidate "opp_c" "z1" Buy 0.7].
Definition demo_config : Config := mkConfig 0.2 false 1.5.
(** The thesis keys in descending order: a range order other than [sorted_keys]. *)
Definition reverse_keys (m : gmap string (list Candidate)) : list string := rev (sorted_keys m).
#[export] Instance reverse_keys_range : RangeOrder reverse_keys.
Proof.
  unfold reverse_keys. split; intros; rewrite <- Permutation_rev; [apply sorted_keys_NoDup|apply elem_of_sorted_keys].
Qed.
Lemma demo_live_ok : live_ok demo_live.
Proof.
  split.
  - apply (bool_decide_unpack _). vm_compute. exact I.
  - repeat constructor; discriminate.
  - repeat constructor.
Qed.

Lemma arbitration_decides_witness :
  map (λ d, (de_CandidateID d, de_Status d, de_ThesisID d, de_MergedWith d))
    (Arbitrate sorted_keys reverse_keys demo_live demo_config) =
    [("opp_a", "winner", "opp_a", ["opp_c"]); ("opp_b", "suppressed", "", []); ("opp_c", "winner", "opp_a", ["opp_a"])] ∧
  StronglySorted str_le (map de_CandidateID (Arbitrate sorted_keys reverse_keys demo_live demo_config)).
Proof.
  destruct (arbitration_decides sorted_keys reverse_keys demo_live demo_config demo_live_ok
    ltac:(repeat constructor) ltac:(discriminate)) as (reps & rep & v & _ & _ & _ & _ & _ & H).
  split; [vm_compute; reflexivity|exact H].
Defined.

Lemma arbitration_deterministic_witness :
  ArbitrateInPlay sorted_keys reverse_keys demo_live demo_config 100.5 =
  ArbitrateInPlay reverse_keys sorted_keys demo_live demo_config 100.5.
Proof. exact (arbitration_deterministic _ _ _ _ demo_live demo_config 100.5 demo_live_ok). Defined.

Lemma ready_not_vetoed_witness :
  map de_CandidateID (ArbitrateInPlay sorted_keys reverse_keys demo_live demo_config 100.5) ≡ₚ map ca_ID demo_live.
Proof.
  exact (proj1 (ready_not_vetoed sorted_keys reverse_keys demo_live demo_config 100.5 demo_live_ok
    eq_refl eq_refl ltac:(vm_compute; discriminate))).
Defined.
