(* ===== verification/Publisher.v ===== *)
(** Package engine: the durable opportunity publisher. The ledger and its outbox queue, every
    operation that changes them, the background goroutine that drains the queue as a program counter,
    the file the ledger is saved to, and what has reached the broker. *)
From S2P Require Import Prelude Float64 Market Opportunity OpportunityBook Arbitration.
From Stdlib Require Import Floats.

(** * publication_store.go: data *)

Inductive publicationState :=
  publicationUnknown | publicationSuppressed | publicationDeferred | publicationPending | publicationPublished.
#[export] Instance publicationState_eq_dec : EqDecision publicationState.
Proof. solve_decision. Defined.
Record AlgorithmVersion := mkAlgorithm { av_Structure : string; av_Liquidity : string }.
Record arbitrationJob := mkArbitrationJob { aj_OpportunityID : string; aj_Decision : Decision; aj_DecidedAt : Z }.
Record publishJob := mkJob {
  j_EventID : string; j_Symbol : string; j_Algorithm : AlgorithmVersion; j_Transition : Transition;
  j_RecoveredAt : Z; j_Arbitration : option arbitrationJob
}.
Record publicationRecord := mkPublication {
  pr_Creation : publicationState; pr_Terminal : publicationState; pr_Deferred : option publishJob
}.
Definition zero_record : publicationRecord := mkPublication publicationUnknown publicationUnknown None.
Record publicationLedger := mkLedger { l_Records : gmap string publicationRecord; l_Queue : list publishJob }.
Definition empty_ledger : publicationLedger := mkLedger ∅ [].

(** The candidate a lifecycle job is about. *)
Definition job_id (j : publishJob) : string := ca_ID (rec_Candidate (tr_Record (j_Transition j))).
Definition is_lifecycle (j : publishJob) : bool := match j_Arbitration j with None => true | Some _ => false end.

(** The publisher's fields, with the file behind the store. *)
Record OpportunityPublisher := mkPublisher {
  p_path : string; p_ledger : publicationLedger; p_file : option publicationLedger;
  p_client : bool; p_dirty : bool; p_notify : bool
}.
Definition with_ledger (p : OpportunityPublisher) (l : publicationLedger) : OpportunityPublisher :=
  mkPublisher (p_path p) l (p_file p) (p_client p) (p_dirty p) (p_notify p).
Definition with_dirty (p : OpportunityPublisher) (d : bool) : OpportunityPublisher :=
  mkPublisher (p_path p) (p_ledger p) (p_file p) (p_client p) d (p_notify p).
(** The non-blocking send on the one-slot [notify] channel. *)
Definition notified (p : OpportunityPublisher) : OpportunityPublisher :=
  mkPublisher (p_path p) (p_ledger p) (p_file p) (p_client p) (p_dirty p) true.

(** What the file system did: the save succeeded, failed before the rename, or failed after it. *)
Inductive Disk := DiskOk | DiskFailed | DiskRenamed.
Definition save (p : OpportunityPublisher) (d : Disk) : OpportunityPublisher * bool :=
  if bool_decide (p_path p = "") then (p, true)
  else
    let written := mkPublisher (p_path p) (p_ledger p) (Some (p_ledger p)) (p_client p) (p_dirty p) (p_notify p) in
    match d with
    | DiskOk => (written, true)
    | DiskFailed => (p, false)
    | DiskRenamed => (written, false)
    end.

(** [openPublicationStore]: [file] is what the path holds, [None] inside for contents that do not decode. *)
Definition openPublicationStore (path : string) (file : option (option publicationLedger)) : option publicationLedger :=
  if bool_decide (path = "") then Some empty_ledger
  else match file with None => Some empty_ledger | Some None => None | Some (Some l) => Some l end.
Definition discardArbitrationJobs (l : publicationLedger) : publicationLedger * nat :=
  let kept := List.filter is_lifecycle (l_Queue l) in
  (mkLedger (l_Records l) kept, length (l_Queue l) - length kept).

Definition record_at (l : publicationLedger) (id : string) : publicationRecord :=
  default zero_record (l_Records l !! id).
(** The loop that collects the unpublished creations older than the cutoff. *)
Definition stale_ids (l : publicationLedger) (cutoff : Z) : gset string :=
  foldl (λ stale j,
    if negb (is_lifecycle j) || negb (bool_decide (tr_Kind (j_Transition j) = TransitionCreated)) then stale
    else
      let createdAt := ca_CreatedAt (rec_Candidate (tr_Record (j_Transition j))) in
      if (createdAt =? 0)%Z || (cutoff <=? createdAt)%Z then stale
      else if bool_decide (pr_Creation (record_at l (job_id j)) = publicationPublished) then stale
      else {[job_id j]} ∪ stale) ∅ (l_Queue l).
Definition discardStaleLifecycleJobs (l : publicationLedger) (cutoff maxAge : Z) : publicationLedger * nat :=
  if (maxAge <=? 0)%Z then (l, 0)
  else
    let stale := stale_ids l cutoff in
    let kept := List.filter (λ j, negb (is_lifecycle j) || negb (bool_decide (job_id j ∈ stale))) (l_Queue l) in
    (mkLedger
      (filter (λ kr, negb (bool_decide (kr.1 ∈ stale) &&
        (negb (bool_decide (pr_Creation kr.2 = publicationPublished)) &&
         negb (bool_decide (pr_Terminal kr.2 = publicationDeferred)))) = true) (l_Records l))
      kept, length (l_Queue l) - length kept).

(** * publisher.go: construction and startup *)

Definition NewDurableOpportunityPublisher (client : bool) (path : string)
    (file : option (option publicationLedger)) (d : Disk) : option OpportunityPublisher :=
  match openPublicationStore path file with
  | None => None
  | Some l =>
      let '(l', dropped) := discardArbitrationJobs l in
      let p := mkPublisher path l' (match file with Some (Some f) => Some f | _ => None end) client false false in
      if 0 <? dropped then let '(p', ok) := save p d in if ok then Some p' else None else Some p
  end.
Definition SetClient (p : OpportunityPublisher) (client : bool) : OpportunityPublisher :=
  mkPublisher (p_path p) (p_ledger p) (p_file p) client (p_dirty p) (if client then true else p_notify p).
Definition Flush (p : OpportunityPublisher) (d : Disk) : OpportunityPublisher :=
  if negb (p_dirty p) then p
  else let '(p', ok) := save p d in if ok then with_dirty p' false else p'.
(** [cutoff] is [now.Add(-maxAge).Unix()]. *)
Definition DiscardStaleLifecycleJobs (p : OpportunityPublisher) (cutoff maxAge : Z) (d : Disk) :
    OpportunityPublisher * nat :=
  if (maxAge <=? 0)%Z then (p, 0)
  else
    let '(l, dropped) := discardStaleLifecycleJobs (p_ledger p) cutoff maxAge in
    let p := with_ledger p l in
    (if 0 <? dropped then (save p d).1 else p, dropped).

(** * publisher.go: recording lifecycle transitions and decisions *)

(** [newPublishJob], with the event identifier it draws. *)
Definition newPublishJob (eventID symbol : string) (algo : AlgorithmVersion) (t : Transition) : publishJob :=
  mkJob eventID symbol algo t 0 None.

(** The switch of [Observe]: the record, the queue, and whether the record is removed. *)
Definition observe_record (record : publicationRecord) (queue : list publishJob) (job : publishJob) (publish : bool) :
    publicationRecord * list publishJob * bool :=
  let creation := pr_Creation record in
  match tr_Kind (j_Transition job) with
  | TransitionCreated =>
      if bool_decide (creation = publicationUnknown) then
        if publish
        then (mkPublication publicationPending (pr_Terminal record) (pr_Deferred record), queue ++ [job], false)
        else (mkPublication publicationSuppressed (pr_Terminal record) (pr_Deferred record), queue, false)
      else (record, queue, false)
  | TransitionInvalidated | TransitionExpired =>
      if bool_decide (pr_Terminal record = publicationUnknown) then
        if negb publish && (bool_decide (creation = publicationPublished) || bool_decide (creation = publicationPending))
        then (mkPublication creation publicationDeferred (Some job), queue, false)
        else if negb publish || bool_decide (creation = publicationUnknown) || bool_decide (creation = publicationSuppressed)
        then (mkPublication creation publicationSuppressed (pr_Deferred record), queue, true)
        else (mkPublication creation publicationPending (pr_Deferred record), queue ++ [job], false)
      else (record, queue, false)
  | _ => (record, queue, false)
  end.
Definition Observe (p : OpportunityPublisher) (eventID symbol : string) (algo : AlgorithmVersion) (t : Transition)
    (publish : bool) (d : Disk) : OpportunityPublisher :=
  if negb (ShouldPublish t) then p
  else
    let id := ca_ID (rec_Candidate (tr_Record t)) in
    if bool_decide (id = "") then p
    else
      let l := p_ledger p in
      let '(record, queue, removeRecord) :=
        observe_record (record_at l id) (l_Queue l) (newPublishJob eventID symbol algo t) publish in
      let p := with_ledger p
        (mkLedger (if (removeRecord : bool) then delete id (l_Records l) else <[id := record]> (l_Records l)) queue) in
      notified
        (if negb publish then with_dirty p true
         else let '(p', ok) := save p d in if ok then with_dirty p' false else p').
Definition Enqueue (p : OpportunityPublisher) (eventID symbol : string) (algo : AlgorithmVersion) (t : Transition)
    (d : Disk) : OpportunityPublisher := Observe p eventID symbol algo t true d.

(** The coalescing loop over the queue: the queue it leaves and [Some replaced], or [None] for the
    early return on an update at least as new. *)
Fixpoint coalesce (job : publishJob) (symbol opportunityID : string) (decidedAt : Z) (replaced : bool)
    (queue : list publishJob) : list publishJob * option bool :=
  match queue with
  | [] => ([], Some replaced)
  | existing :: rest =>
      match j_Arbitration existing with
      | Some a =>
          if negb (bool_decide (j_Symbol existing = symbol)) || negb (bool_decide (aj_OpportunityID a = opportunityID))
          then let '(q, r) := coalesce job symbol opportunityID decidedAt replaced rest in (existing :: q, r)
          else if (decidedAt <=? aj_DecidedAt a)%Z then (queue, None)
          else if negb replaced
          then let '(q, r) := coalesce job symbol opportunityID decidedAt true rest in (job :: q, r)
          else coalesce job symbol opportunityID decidedAt replaced rest
      | None => let '(q, r) := coalesce job symbol opportunityID decidedAt replaced rest in (existing :: q, r)
      end
  end.
Definition zero_algorithm : AlgorithmVersion := mkAlgorithm "" "".
Section enqueue.
(** The zero [Transition] an arbitration job carries. *)
Context (zero_transition : Transition).
Definition arbitration_job (eventID symbol opportunityID : string) (decision : Decision) (decidedAt : Z) : publishJob :=
  mkJob eventID symbol zero_algorithm zero_transition 0 (Some (mkArbitrationJob opportunityID decision decidedAt)).
Definition EnqueueArbitrationDecision (p : OpportunityPublisher) (eventID symbol opportunityID : string)
    (decision : Decision) (decidedAt : Z) (d : Disk) : OpportunityPublisher :=
  let job := arbitration_job eventID symbol opportunityID decision decidedAt in
  let l := p_ledger p in
  let '(queue, replaced) := coalesce job symbol opportunityID decidedAt false (l_Queue l) in
  match replaced with
  | None => with_ledger p (mkLedger (l_Records l) queue)
  | Some replaced =>
      notified (save (with_ledger p (mkLedger (l_Records l) (if replaced then queue else queue ++ [job]))) d).1
  end.
End enqueue.

(** One turn of the loop over the records, for the key the runtime ranges to. *)
Definition resume_step (symbol : string) (acc : publicationLedger * bool) (id : string) : publicationLedger * bool :=
  let '(l, changed) := acc in
  match l_Records l !! id with
  | None => acc
  | Some record =>
      match pr_Deferred record with
      | Some deferred =>
          if bool_decide (pr_Terminal record = publicationDeferred) && bool_decide (j_Symbol deferred = symbol)
          then (mkLedger (<[id := mkPublication (pr_Creation record) publicationPending None]> (l_Records l))
                  (l_Queue l ++ [deferred]), true)
          else acc
      | None => acc
      end
  end.
Definition saved_if_changed (p : OpportunityPublisher) (r : publicationLedger * bool) (d : Disk) : OpportunityPublisher :=
  let '(l, changed) := r in
  let p := with_ledger p l in
  if (changed : bool) then notified (save p d).1 else p.
Definition ResumeLive (range : gmap string publicationRecord → list string) (p : OpportunityPublisher)
    (symbol : string) (d : Disk) : OpportunityPublisher :=
  saved_if_changed p (foldl (resume_step symbol) (p_ledger p, false) (range (l_Records (p_ledger p)))) d.

(** One turn of the loop over the candidates, with the event identifier it would draw. *)
Definition backfill_step (symbol : string) (algo : AlgorithmVersion) (recoveredUnix : Z)
    (acc : publicationLedger * bool) (ci : Candidate * string) : publicationLedger * bool :=
  let '(l, changed) := acc in
  let '(candidate, eventID) := ci in
  let id := ca_ID candidate in
  if bool_decide (id = "") then acc
  else
    let record := record_at l id in
    if bool_decide (pr_Creation record = publicationPending) || bool_decide (pr_Creation record = publicationPublished) ||
       negb (bool_decide (pr_Terminal record = publicationUnknown)) then acc
    else
      let transition := mkTransition TransitionCreated (mkRecord candidate StateCreated 0 None) in
      (mkLedger (<[id := mkPublication publicationPending (pr_Terminal record) (pr_Deferred record)]> (l_Records l))
        (l_Queue l ++ [mkJob eventID symbol algo transition recoveredUnix None]), true).
(** [recovered] pairs each candidate with the identifier drawn for it; [recoveredUnix] is the recovery
    time, or the clock when that is zero. *)
Definition BackfillLive (p : OpportunityPublisher) (symbol : string) (algo : AlgorithmVersion)
    (recovered : list (Candidate * string)) (recoveredUnix : Z) (d : Disk) : OpportunityPublisher :=
  match recovered with
  | [] => p
  | _ => saved_if_changed p (foldl (backfill_step symbol algo recoveredUnix) (p_ledger p, false) recovered) d
  end.

(** * publisher.go: draining the queue *)

Definition peek (p : OpportunityPublisher) : option publishJob :=
  match l_Queue (p_ledger p) with
  | [] => None
  | first :: _ =>
      match List.find is_lifecycle (l_Queue (p_ledger p)) with
      | Some job => Some job
      | None => Some first
      end
  end.
Definition ack_records (job : publishJob) (records : gmap string publicationRecord) : gmap string publicationRecord :=
  if is_lifecycle job then
    let id := job_id job in
    let record := default zero_record (records !! id) in
    if bool_decide (tr_Kind (j_Transition job) = TransitionCreated)
    then <[id := mkPublication publicationPublished (pr_Terminal record) (pr_Deferred record)]> records
    else delete id records
  else records.
Definition ackFront (p : OpportunityPublisher) (job : publishJob) (d : Disk) : OpportunityPublisher :=
  let l := p_ledger p in
  match list_find (λ queued, j_EventID queued = j_EventID job) (l_Queue l) with
  | None => p
  | Some (index, _) =>
      (save (with_ledger p (mkLedger (ack_records job (l_Records l))
        (take index (l_Queue l) ++ drop (S index) (l_Queue l)))) d).1
  end.
Definition persist (p : OpportunityPublisher) (d : Disk) : OpportunityPublisher * bool := save p d.

(** What each call of the Kafka client carries. *)
Inductive Message :=
  | PublishOpportunity (eventID : string) (candidate : Candidate) (algo : AlgorithmVersion) (occurredAt : Z)
  | PublishRecoveredOpportunity (eventID : string) (candidate : Candidate) (algo : AlgorithmVersion) (recoveredAt : Z)
  | PublishOpportunityInvalidated (eventID opportunityID symbol strategy reasonCode : string) (invalidatedAt : Z)
  | PublishArbitrationDecision (eventID symbol opportunityID : string) (decision : Decision) (decidedAt : Z).
(** The dispatch of [publishOne]; [None] where it returns without calling the client. *)
Definition message_of (job : publishJob) : option Message :=
  match j_Arbitration job with
  | Some a =>
      Some (PublishArbitrationDecision (j_EventID job) (j_Symbol job) (aj_OpportunityID a) (aj_Decision a) (aj_DecidedAt a))
  | None =>
      let record := tr_Record (j_Transition job) in
      let candidate := rec_Candidate record in
      match tr_Kind (j_Transition job) with
      | TransitionCreated =>
          if negb (j_RecoveredAt job =? 0)%Z
          then Some (PublishRecoveredOpportunity (j_EventID job) candidate (j_Algorithm job) (j_RecoveredAt job))
          else Some (PublishOpportunity (j_EventID job) candidate (j_Algorithm job) (ca_CreatedAt candidate))
      | TransitionInvalidated | TransitionExpired =>
          let '(reason, at') := match rec_Terminal record with Some t => (tm_Reason t, tm_At t) | None => ("", 0%Z) end in
          Some (PublishOpportunityInvalidated (j_EventID job) (ca_ID candidate) (ca_Symbol candidate)
            (ca_Strategy candidate) reason at')
      | _ => None
      end
  end.
(** [publishOne]: whether it returned no error, and what reached the broker. A call that fails may
    still have delivered its message. *)
Definition publishOne (client : bool) (job : publishJob) (accepted delivered : bool) : bool * list Message :=
  if negb client then (false, [])
  else match message_of job with
  | None => (true, [])
  | Some m => if accepted then (true, [m]) else (false, if delivered then [m] else [])
  end.

(** * The system: callers, the goroutine of [Run], crashes and restarts *)

(** Where [Run] is in its loop. *)
Inductive Phase :=
  | Loop
  | Waiting
  | Peeked (job : publishJob)
  | Persisted (job : publishJob)
  | Sent (job : publishJob).
(** [sys_dropped] is no state of the program: it records whose creation a clean-up dropped from the queue while the record,
    holding back the terminal event, stayed. *)
Record System := mkSystem { sys_pub : OpportunityPublisher; sys_run : Phase; sys_log : list Message; sys_dropped : gset string }.
Definition phase_job (r : Phase) : option publishJob :=
  match r with Peeked j | Persisted j | Sent j => Some j | _ => None end.

(** An identifier no job in the system carries. *)
Definition fresh (s : System) (eventID : string) : Prop :=
  (∀ j, j ∈ l_Queue (p_ledger (sys_pub s)) → j_EventID j ≠ eventID) ∧
  (∀ id r j, l_Records (p_ledger (sys_pub s)) !! id = Some r → pr_Deferred r = Some j → j_EventID j ≠ eventID) ∧
  (∀ j, phase_job (sys_run s) = Some j → j_EventID j ≠ eventID).
(** The stale creations whose record the clean-up keeps. *)
Definition orphaned (l : publicationLedger) (cutoff maxAge : Z) : gset string :=
  if (maxAge <=? 0)%Z then ∅
  else filter (λ id, pr_Terminal (record_at l id) = publicationDeferred) (stale_ids l cutoff).

(** The steps of the goroutine of [Run]. *)
Inductive run_step : System → System → Prop :=
  | step_peek s :
      sys_run s = Loop →
      run_step s (mkSystem (sys_pub s) (match peek (sys_pub s) with Some j => Peeked j | None => Waiting end) (sys_log s) (sys_dropped s))
  | step_wake s :
      sys_run s = Waiting → p_notify (sys_pub s) = true →
      run_step s (mkSystem (mkPublisher (p_path (sys_pub s)) (p_ledger (sys_pub s)) (p_file (sys_pub s))
        (p_client (sys_pub s)) (p_dirty (sys_pub s)) false) Loop (sys_log s) (sys_dropped s))
  | step_persist s j d p ok :
      sys_run s = Peeked j → persist (sys_pub s) d = (p, ok) →
      run_step s (mkSystem p (if ok then Persisted j else Loop) (sys_log s) (sys_dropped s))
  | step_publish s j accepted delivered ok sent :
      sys_run s = Persisted j → publishOne (p_client (sys_pub s)) j accepted delivered = (ok, sent) →
      run_step s (mkSystem (sys_pub s) (if ok then Sent j else Loop) (sys_log s ++ sent) (sys_dropped s))
  | step_ack s j d :
      sys_run s = Sent j →
      run_step s (mkSystem (ackFront (sys_pub s) j d) Loop (sys_log s) (sys_dropped s)).

Inductive step : System → System → Prop :=
  | step_observe s eventID symbol algo t publish d :
      fresh s eventID →
      step s (mkSystem (Observe (sys_pub s) eventID symbol algo t publish d) (sys_run s) (sys_log s) (sys_dropped s))
  | step_arbitration s zero eventID symbol opportunityID decision decidedAt d :
      fresh s eventID →
      step s (mkSystem (EnqueueArbitrationDecision zero (sys_pub s) eventID symbol opportunityID decision decidedAt d)
        (sys_run s) (sys_log s) (sys_dropped s))
  | step_resume s (range : gmap string publicationRecord → list string) symbol d :
      RangeOrder range →
      step s (mkSystem (ResumeLive range (sys_pub s) symbol d) (sys_run s) (sys_log s) (sys_dropped s))
  | step_backfill s symbol algo recovered recoveredUnix d :
      NoDup recovered.*2 → Forall (λ ci, fresh s ci.2) recovered →
      step s (mkSystem (BackfillLive (sys_pub s) symbol algo recovered recoveredUnix d) (sys_run s) (sys_log s) (sys_dropped s))
  | step_flush s d : step s (mkSystem (Flush (sys_pub s) d) (sys_run s) (sys_log s) (sys_dropped s))
  | step_client s client : step s (mkSystem (SetClient (sys_pub s) client) (sys_run s) (sys_log s) (sys_dropped s))
  | step_run s s' : run_step s s' → step s s'
  | step_restart s client d p :
      NewDurableOpportunityPublisher client (p_path (sys_pub s)) (Some <$> p_file (sys_pub s)) d = Some p →
      step s (mkSystem p Loop (sys_log s) (sys_dropped s))
  | step_discard s cutoff maxAge d :
      sys_run s = Loop →
      step s (mkSystem (DiscardStaleLifecycleJobs (sys_pub s) cutoff maxAge d).1 Loop (sys_log s)
        (sys_dropped s ∪ orphaned (p_ledger (sys_pub s)) cutoff maxAge)).

Definition initial (client : bool) (path : string) : System :=
  mkSystem (mkPublisher path empty_ledger None client false false) Loop [] ∅.
Definition reachable (s : System) : Prop := ∃ client path, rtc step (initial client path) s.

(** * Lemmas: order of creations and terminals *)

Definition job_creation (j : publishJob) : bool :=
  is_lifecycle j && bool_decide (tr_Kind (j_Transition j) = TransitionCreated).
Definition job_terminal (j : publishJob) : bool :=
  is_lifecycle j && (bool_decide (tr_Kind (j_Transition j) = TransitionInvalidated) ||
    bool_decide (tr_Kind (j_Transition j) = TransitionExpired)).
Definition created_of (m : Message) : option string :=
  match m with
  | PublishOpportunity _ c _ _ | PublishRecoveredOpportunity _ c _ _ => Some (ca_ID c)
  | _ => None
  end.
Definition terminal_of (m : Message) : option string :=
  match m with PublishOpportunityInvalidated _ id _ _ _ _ => Some id | _ => None end.
Definition created (log : list Message) : gset string := list_to_set (omap created_of log).
(** The opportunities whose creation the broker has, or a clean-up dropped. *)
Definition known (s : System) : gset string := created (sys_log s) ∪ sys_dropped s.
Definition creations (q : list publishJob) : gset string := list_to_set (job_id <$> List.filter job_creation q).

(** Every terminal event of the queue follows its creation, in the queue or already in [C]. *)
Fixpoint order_ok (C : gset string) (q : list publishJob) : Prop :=
  match q with
  | [] => True
  | j :: q =>
      (job_terminal j = true → job_id j ∈ C) ∧
      order_ok (if job_creation j then {[job_id j]} ∪ C else C) q
  end.

Lemma created_app log m : created (log ++ m) = created log ∪ created m.
Proof. unfold created. by rewrite omap_app, list_to_set_app_L. Qed.
Lemma creations_app q q' : creations (q ++ q') = creations q ∪ creations q'.
Proof. unfold creations. by rewrite List.filter_app, fmap_app, list_to_set_app_L. Qed.
Lemma creations_cons j q : creations (j :: q) = (if job_creation j then {[job_id j]} else ∅) ∪ creations q.
Proof. unfold creations. cbn. destruct (job_creation j); [done|]. set_solver. Qed.
Lemma creations_nil : creations [] = ∅.
Proof. done. Qed.
Lemma elem_of_creations id q : id ∈ creations q ↔ ∃ j, j ∈ q ∧ job_creation j = true ∧ job_id j = id.
Proof.
  unfold creations. rewrite elem_of_list_to_set, list_elem_of_fmap.
  setoid_rewrite list_elem_of_In. setoid_rewrite filter_In. naive_solver.
Qed.

Lemma order_ok_mono C C' q : C ⊆ C' → order_ok C q → order_ok C' q.
Proof.
  revert C C'. induction q as [|j q IH]; [done|]. intros C C' Hsub [H1 H2]. split; [set_solver|].
  eapply IH; [|exact H2]. destruct (job_creation j); set_solver.
Qed.
Lemma order_ok_app C q q' : order_ok C (q ++ q') ↔ order_ok C q ∧ order_ok (C ∪ creations q) q'.
Proof.
  revert C. induction q as [|j q IH]; intros C; cbn [app order_ok].
  { rewrite creations_nil, union_empty_r_L. naive_solver. }
  rewrite IH, creations_cons.
  assert (E : (if job_creation j then {[job_id j]} ∪ C else C) ∪ creations q =
    C ∪ ((if job_creation j then {[job_id j]} else ∅) ∪ creations q)) by (destruct (job_creation j); set_solver).
  rewrite E. naive_solver.
Qed.
Lemma order_ok_lifecycle C q : order_ok C (List.filter is_lifecycle q) ↔ order_ok C q.
Proof.
  revert C. induction q as [|j q IH]; intros C; cbn; [done|]. unfold job_terminal, job_creation.
  destruct (is_lifecycle j) eqn:E; cbn; rewrite IH; [|naive_solver]. unfold job_terminal, job_creation. by rewrite E.
Qed.
Lemma creations_lifecycle q : creations (List.filter is_lifecycle q) = creations q.
Proof.
  induction q as [|j q IH]; [done|]. cbn [List.filter]. destruct (is_lifecycle j) eqn:E; rewrite !creations_cons.
  - by rewrite IH.
  - unfold job_creation. rewrite E. cbn. by rewrite IH, union_empty_l_L.
Qed.

(** * Lemmas: well-formed ledgers *)

(** The record of [id] holds back the terminal event [j]. *)
Definition held (recs : gmap string publicationRecord) (id : string) (j : publishJob) : Prop :=
  ∃ r, recs !! id = Some r ∧ pr_Deferred r = Some j.
Definition creation_live (r : publicationRecord) : Prop :=
  pr_Creation r ≠ publicationUnknown ∧ pr_Creation r ≠ publicationSuppressed.

Record ledger_ok (C : gset string) (l : publicationLedger) : Prop := {
  lk_order : order_ok C (l_Queue l);
  lk_creation : ∀ id r, l_Records l !! id = Some r → creation_live r → id ∈ C ∪ creations (l_Queue l);
  lk_held : ∀ id j, held (l_Records l) id j →
    job_terminal j = true ∧ job_id j = id ∧ id ∈ C ∪ creations (l_Queue l);
  lk_apart : ∀ id j x, held (l_Records l) id j → x ∈ l_Queue l → j_EventID x ≠ j_EventID j;
  lk_distinct : ∀ id id' j j', held (l_Records l) id j → held (l_Records l) id' j' →
    j_EventID j = j_EventID j' → id = id';
  lk_unique : NoDup (map j_EventID (l_Queue l));
}.

Lemma ledger_ok_mono C C' l : C ⊆ C' → ledger_ok C l → ledger_ok C' l.
Proof.
  intros Hsub []. split; [by eapply order_ok_mono| | |done..].
  - intros id r Hr Hc. pose proof (lk_creation0 id r Hr Hc). set_solver.
  - intros id j Hj. destruct (lk_held0 id j Hj) as (? & ? & ?). split_and!; [done..|set_solver].
Qed.
Lemma empty_ledger_ok C : ledger_ok C empty_ledger.
Proof.
  assert (Hn : ∀ id j, ¬ held ∅ id j) by (by intros id j (r & Hr & _)).
  split; cbn; [done|done|naive_solver..|constructor].
Qed.

(** Jobs joined to the queue, no event newly held back. *)
Lemma ledger_ok_grow C l recs extra :
  ledger_ok C l →
  (∀ id r, recs !! id = Some r → creation_live r →
     (∃ r0, l_Records l !! id = Some r0 ∧ creation_live r0) ∨ id ∈ C ∪ creations (l_Queue l ++ extra)) →
  (∀ id j, held recs id j → held (l_Records l) id j) →
  order_ok (C ∪ creations (l_Queue l)) extra →
  NoDup (map j_EventID (l_Queue l ++ extra)) →
  (∀ id j x, held recs id j → x ∈ extra → j_EventID x ≠ j_EventID j) →
  ledger_ok C (mkLedger recs (l_Queue l ++ extra)).
Proof.
  intros [] Hcr Hh Ho Hnd Hfr. split; cbn [l_Records l_Queue]; [by apply order_ok_app| | | | |done].
  - intros id r Hr Hc. destruct (Hcr id r Hr Hc) as [(r0 & H0 & Hc0)|]; [|done].
    pose proof (lk_creation0 id r0 H0 Hc0). rewrite creations_app. set_solver.
  - intros id j Hj. destruct (lk_held0 id j (Hh _ _ Hj)) as (? & ? & ?). split_and!; [done..|].
    rewrite creations_app. set_solver.
  - intros id j x Hj [Hx|Hx]%elem_of_app; [by eapply lk_apart0; eauto|by eapply Hfr].
  - intros id id' j j' Hj Hj'. eapply lk_distinct0; eauto.
Qed.

(** The queue unchanged up to arbitration jobs, the records unchanged. *)
Lemma ledger_ok_same C l q :
  ledger_ok C l → List.filter is_lifecycle q = List.filter is_lifecycle (l_Queue l) →
  NoDup (map j_EventID q) →
  (∀ x, x ∈ q → x ∈ l_Queue l ∨ ∀ id j, held (l_Records l) id j → j_EventID x ≠ j_EventID j) →
  ledger_ok C (mkLedger (l_Records l) q).
Proof.
  intros [] Hlife Hnd Hin.
  assert (Hc : creations q = creations (l_Queue l)) by (by rewrite <- creations_lifecycle, Hlife, creations_lifecycle).
  split; cbn [l_Records l_Queue]; [|by rewrite Hc|by rewrite Hc| |done|done].
  - by rewrite <- order_ok_lifecycle, Hlife, order_ok_lifecycle.
  - intros id j x Hj Hx. destruct (Hin x Hx) as [?|Hx']; [by eapply lk_apart0|by eapply Hx'].
Qed.

Lemma held_insert recs id r id' j :
  held (<[id := r]> recs) id' j ↔ (id = id' ∧ pr_Deferred r = Some j) ∨ (id ≠ id' ∧ held recs id' j).
Proof.
  unfold held. destruct (decide (id = id')) as [->|Hne].
  - rewrite lookup_insert_eq. naive_solver.
  - rewrite lookup_insert_ne by done. naive_solver.
Qed.
Lemma held_record_at l id j : pr_Deferred (record_at l id) = Some j ↔ held (l_Records l) id j.
Proof. unfold record_at, held. destruct (l_Records l !! id); cbn; naive_solver. Qed.
Lemma live_record_at l id :
  creation_live (record_at l id) → ∃ r, l_Records l !! id = Some r ∧ creation_live r.
Proof. unfold record_at, creation_live. destruct (l_Records l !! id); cbn; naive_solver. Qed.

(** * Lemmas: one operation *)

(** What an operation of a caller may do to the publisher while [Run] is anywhere in its loop. *)
Record caller_ok (s : System) (p : OpportunityPublisher) : Prop := {
  co_path : p_path p = p_path (sys_pub s);
  co_file : p_file p = p_file (sys_pub s) ∨ p_file p = Some (p_ledger p);
  co_ledger : ledger_ok (known s) (p_ledger p);
  co_queue : ∃ extra, List.filter is_lifecycle (l_Queue (p_ledger p)) =
    List.filter is_lifecycle (l_Queue (p_ledger (sys_pub s))) ++ extra;
  co_ids : ∀ x, x ∈ l_Queue (p_ledger p) → x ∈ l_Queue (p_ledger (sys_pub s)) ∨
    held (l_Records (p_ledger (sys_pub s))) (job_id x) x ∨ fresh s (j_EventID x);
  co_held : ∀ id j, held (l_Records (p_ledger p)) id j →
    held (l_Records (p_ledger (sys_pub s))) id j ∨ fresh s (j_EventID j);
}.
Definition wakes (s : System) (p : OpportunityPublisher) : Prop :=
  l_Queue (p_ledger p) ≠ [] → p_notify p = true ∨
  l_Queue (p_ledger (sys_pub s)) ≠ [] ∧ p_notify p = p_notify (sys_pub s).

Record sys_ok (s : System) : Prop := {
  ok_ledger : ledger_ok (known s) (p_ledger (sys_pub s));
  ok_file : ∀ f, p_file (sys_pub s) = Some f → ledger_ok (known s) f;
  ok_log : ∀ pre m post id, sys_log s = pre ++ m :: post → terminal_of m = Some id → id ∈ created pre ∪ sys_dropped s;
  ok_front : ∀ j, phase_job (sys_run s) = Some j → is_lifecycle j = true →
    List.find is_lifecycle (l_Queue (p_ledger (sys_pub s))) = Some j;
  ok_id : ∀ j, phase_job (sys_run s) = Some j →
    (∀ x, x ∈ l_Queue (p_ledger (sys_pub s)) → j_EventID x = j_EventID j → x = j) ∧
    (∀ id x, held (l_Records (p_ledger (sys_pub s))) id x → j_EventID x ≠ j_EventID j);
  ok_sent : ∀ j, sys_run s = Sent j → job_creation j = true → job_id j ∈ created (sys_log s);
  ok_ahead : ∀ j, sys_run s = Persisted j ∨ sys_run s = Sent j → is_lifecycle j = true → p_path (sys_pub s) ≠ "" →
    ∃ f, p_file (sys_pub s) = Some f ∧ j ∈ l_Queue f;
  ok_wake : sys_run s = Waiting → l_Queue (p_ledger (sys_pub s)) ≠ [] → p_notify (sys_pub s) = true;
}.

Lemma find_lifecycle q j :
  List.find is_lifecycle q = Some j ↔ ∃ rest, List.filter is_lifecycle q = j :: rest.
Proof.
  induction q as [|x q IH]; cbn; [split; [done|by intros []]|]. destruct (is_lifecycle x); [|done].
  split; [intros [= ->]; by eexists|intros [rest [= -> _]]; done].
Qed.
Lemma find_lifecycle_elem q j : List.find is_lifecycle q = Some j → j ∈ q ∧ is_lifecycle j = true.
Proof. rewrite list_elem_of_In. apply find_some. Qed.

Lemma caller_step s p :
  sys_ok s → caller_ok s p → wakes s p → sys_ok (mkSystem p (sys_run s) (sys_log s) (sys_dropped s)).
Proof.
  intros [] [] Hwake. split; cbn [sys_pub sys_run sys_log sys_dropped]; [done| |done| | |done| |].
  - intros f Hf. destruct co_file0 as [E|E]; [rewrite E in Hf; by apply ok_file0|]. rewrite E in Hf. by injection Hf as <-.
  - intros j Hj Hl. specialize (ok_front0 j Hj Hl). rewrite find_lifecycle in *. destruct ok_front0 as [rest E].
    destruct co_queue0 as [extra ->]. rewrite E. cbn. by eexists.
  - intros j Hj. destruct (ok_id0 j Hj) as [H1 H2]. split.
    + intros x Hx Hid. destruct (co_ids0 x Hx) as [?|[Hh|(_ & _ & Hf)]]; [by apply H1|by apply H2 in Hh|].
      by apply Hf in Hj.
    + intros id x Hx. destruct (co_held0 id x Hx) as [?|(_ & _ & Hf)]; [by eapply H2|].
      intros E. apply (Hf j Hj). done.
  - intros j Hj Hl Hp. rewrite co_path0 in Hp. destruct (ok_ahead0 j Hj Hl Hp) as (f & Hf & Hin).
    destruct co_file0 as [E|E]; [exists f; by rewrite E|]. exists (p_ledger p). split; [done|].
    assert (phase_job (sys_run s) = Some j) as Hpj by (destruct Hj as [->| ->]; done).
    specialize (ok_front0 j Hpj Hl). rewrite find_lifecycle in ok_front0. destruct ok_front0 as [rest E'].
    destruct co_queue0 as [extra Eq]. rewrite E' in Eq. apply list_elem_of_In.
    assert (In j (List.filter is_lifecycle (l_Queue (p_ledger p)))) as Hin' by (rewrite Eq; by left).
    by apply filter_In in Hin' as [? _].
  - intros Hw Hq. destruct (Hwake Hq) as [?|[Hq0 ->]]; [done|]. by apply ok_wake0.
Qed.

Lemma save_ledger p d : p_ledger (save p d).1 = p_ledger p.
Proof. unfold save. split_ifs; [done|]. by destruct d. Qed.
Lemma save_notify p d : p_notify (save p d).1 = p_notify p.
Proof. unfold save. split_ifs; [done|]. by destruct d. Qed.
Lemma save_path p d : p_path (save p d).1 = p_path p.
Proof. unfold save. split_ifs; [done|]. by destruct d. Qed.
Lemma save_file p d : p_file (save p d).1 = p_file p ∨ p_file (save p d).1 = Some (p_ledger p).
Proof. unfold save. split_ifs; [by left|]. destruct d; cbn; auto. Qed.

Lemma caller_refl s : sys_ok s → caller_ok s (sys_pub s).
Proof. intros []. split; [done|by left|done|exists []; by rewrite app_nil_r|by left|by left]. Qed.
Lemma caller_same s p p' :
  caller_ok s p → p_path p' = p_path p → p_ledger p' = p_ledger p →
  p_file p' = p_file p ∨ p_file p' = Some (p_ledger p) → caller_ok s p'.
Proof.
  intros [] E1 E2 E3. split; rewrite ?E1, ?E2; [done| |done..]. destruct E3 as [->| ->]; [|by right].
  done.
Qed.
Lemma caller_save s p d : caller_ok s p → caller_ok s (save p d).1.
Proof. intros H. apply (caller_same s p); [done|apply save_path|apply save_ledger|apply save_file]. Qed.
Lemma caller_notified s p : caller_ok s p → caller_ok s (notified p).
Proof. intros H. apply (caller_same s p); auto. Qed.
Lemma caller_dirty s p b : caller_ok s p → caller_ok s (with_dirty p b).
Proof. intros H. apply (caller_same s p); auto. Qed.
Create HintDb publisher.
#[export] Hint Resolve caller_refl caller_save caller_notified caller_dirty : publisher.

(** A ledger that replaces the publisher's. *)
Lemma caller_ledger s l :
  ledger_ok (known s) l →
  (∃ extra, List.filter is_lifecycle (l_Queue l) = List.filter is_lifecycle (l_Queue (p_ledger (sys_pub s))) ++ extra) →
  (∀ x, x ∈ l_Queue l → x ∈ l_Queue (p_ledger (sys_pub s)) ∨
    held (l_Records (p_ledger (sys_pub s))) (job_id x) x ∨ fresh s (j_EventID x)) →
  (∀ id j, held (l_Records l) id j → held (l_Records (p_ledger (sys_pub s))) id j ∨ fresh s (j_EventID j)) →
  caller_ok s (with_ledger (sys_pub s) l).
Proof. intros. split; auto. Qed.

Lemma fresh_queue s j x : fresh s (j_EventID j) → x ∈ l_Queue (p_ledger (sys_pub s)) → j_EventID x ≠ j_EventID j.
Proof. intros (H & _ & _). apply H. Qed.
Lemma fresh_held s j id x : fresh s (j_EventID j) → held (l_Records (p_ledger (sys_pub s))) id x → j_EventID x ≠ j_EventID j.
Proof. intros (_ & H & _) (r & Hr & Hx). by eapply H. Qed.
Lemma NoDup_snoc_fresh s j :
  ledger_ok (known s) (p_ledger (sys_pub s)) → fresh s (j_EventID j) →
  NoDup (map j_EventID (l_Queue (p_ledger (sys_pub s)) ++ [j])).
Proof.
  intros [] Hf. rewrite map_app. apply NoDup_app. split_and!; [done| |apply NoDup_singleton].
  intros e He ->%list_elem_of_singleton. apply list_elem_of_fmap in He as (x & E & Hx).
  by eapply fresh_queue.
Qed.

(** A job of its own joins the queue and its record changes. *)
Lemma caller_push s j r :
  sys_ok s → fresh s (j_EventID j) → is_lifecycle j = true →
  (job_terminal j = true → job_id j ∈ known s ∪ creations (l_Queue (p_ledger (sys_pub s)))) →
  (creation_live r → job_creation j = true ∨ creation_live (record_at (p_ledger (sys_pub s)) (job_id j))) →
  pr_Deferred r = pr_Deferred (record_at (p_ledger (sys_pub s)) (job_id j)) →
  caller_ok s (with_ledger (sys_pub s)
    (mkLedger (<[job_id j := r]> (l_Records (p_ledger (sys_pub s)))) (l_Queue (p_ledger (sys_pub s)) ++ [j]))).
Proof.
  intros Hs Hf Hlc Ht Hc Hd. set (l := p_ledger (sys_pub s)) in *. pose proof (ok_ledger s Hs) as Hok.
  assert (Hheld : ∀ id x, held (<[job_id j := r]> (l_Records l)) id x → held (l_Records l) id x).
  { intros id x [[<- Hx]|[_ Hx]]%held_insert; [|done]. rewrite Hd in Hx. by apply held_record_at. }
  apply caller_ledger; cbn [l_Records l_Queue].
  - apply ledger_ok_grow; [done| |done| | |].
    + intros id r' [[<- <-]|[_ Hr]]%lookup_insert_Some Hl; [|left; by exists r'].
      destruct (Hc Hl) as [E|E]; [|left; by apply live_record_at].
      right. rewrite creations_app, creations_cons, E. set_solver.
    + cbn. done.
    + by apply NoDup_snoc_fresh.
    + intros id x y Hx%Hheld ->%list_elem_of_singleton E. by eapply fresh_held.
  - exists [j]. rewrite List.filter_app. cbn. by rewrite Hlc.
  - intros x [Hx|Hx]%elem_of_app; [by left|]. apply list_elem_of_singleton in Hx as ->. auto.
  - auto.
Qed.

(** A record changes and the queue does not; it may newly hold back a terminal event. *)
Lemma caller_put s id r :
  sys_ok s →
  (creation_live r → creation_live (record_at (p_ledger (sys_pub s)) id)) →
  pr_Deferred r = pr_Deferred (record_at (p_ledger (sys_pub s)) id) ∨
    (∃ j, pr_Deferred r = Some j ∧ fresh s (j_EventID j) ∧ job_terminal j = true ∧ job_id j = id ∧
       creation_live (record_at (p_ledger (sys_pub s)) id)) →
  caller_ok s (with_ledger (sys_pub s)
    (mkLedger (<[id := r]> (l_Records (p_ledger (sys_pub s)))) (l_Queue (p_ledger (sys_pub s))))).
Proof.
  intros Hs Hc Hd. pose proof (ok_ledger s Hs) as Hok. set (l := p_ledger (sys_pub s)) in *. destruct Hok.
  assert (Hheld : ∀ i x, held (<[id := r]> (l_Records l)) i x → held (l_Records l) i x ∨
    (i = id ∧ fresh s (j_EventID x) ∧ job_terminal x = true ∧ job_id x = id ∧ creation_live (record_at l id))).
  { intros i x [[<- Hx]|[_ Hx]]%held_insert; [|by left]. destruct Hd as [E|(j & E & Hj)].
    - left. apply held_record_at. congruence.
    - right. rewrite Hx in E. injection E as ->. done. }
  apply caller_ledger; cbn [l_Records l_Queue]; [|exists []; by rewrite app_nil_r|by left|].
  2:{ intros i x [?|(_ & ? & _)]%Hheld; auto. }
  split; cbn [l_Records l_Queue]; [done| | | | |done].
  - intros i r' [[<- <-]|[_ Hr]]%lookup_insert_Some Hl; [|by eapply lk_creation0].
    destruct (live_record_at l id (Hc Hl)) as (r0 & Hr0 & Hl0). by eapply lk_creation0.
  - intros i x [Hx|(-> & _ & Ht & Hid & Hl)]%Hheld; [by apply lk_held0|]. split_and!; [done..|].
    destruct (live_record_at l id Hl) as (r0 & Hr0 & Hl0). by eapply lk_creation0.
  - intros i x y [Hx|(-> & Hf & _)]%Hheld Hy; [by eapply lk_apart0|by eapply fresh_queue].
  - intros i i' x x' [Hx|(-> & Hf & _)]%Hheld [Hx'|(-> & Hf' & _)]%Hheld E; [by eapply lk_distinct0| | |done].
    + by apply (fresh_held s x' i x Hf') in Hx.
    + exfalso. apply (fresh_held s x i' x' Hf Hx'). done.
Qed.

(** A record goes and the queue does not change. *)
Lemma caller_delete s id :
  sys_ok s →
  caller_ok s (with_ledger (sys_pub s)
    (mkLedger (delete id (l_Records (p_ledger (sys_pub s)))) (l_Queue (p_ledger (sys_pub s))))).
Proof.
  intros Hs. pose proof (ok_ledger s Hs) as Hok. set (l := p_ledger (sys_pub s)) in *.
  assert (Hheld : ∀ i x, held (delete id (l_Records l)) i x → held (l_Records l) i x).
  { intros i x (r & [_ Hr]%lookup_delete_Some & Hx). by exists r. }
  apply caller_ledger; cbn [l_Records l_Queue]; [|exists []; by rewrite app_nil_r|by left|auto].
  rewrite <- (app_nil_r (l_Queue l)). apply ledger_ok_grow; [done| |done|done| |].
  - intros i r [_ Hr]%lookup_delete_Some Hl. left. by exists r.
  - rewrite app_nil_r. apply Hok.
  - intros i x y _ Hy. by apply elem_of_nil in Hy.
Qed.

(** ** Observe *)

Lemma kind_creation j : is_lifecycle j = true → tr_Kind (j_Transition j) = TransitionCreated → job_creation j = true.
Proof. intros H E. unfold job_creation. by rewrite H, E. Qed.
Lemma kind_not_terminal j : tr_Kind (j_Transition j) = TransitionCreated → job_terminal j = false.
Proof. intros E. unfold job_terminal. rewrite E. by destruct (is_lifecycle j). Qed.
Lemma kind_terminal j :
  is_lifecycle j = true → tr_Kind (j_Transition j) = TransitionInvalidated ∨ tr_Kind (j_Transition j) = TransitionExpired →
  job_terminal j = true.
Proof. intros H [E|E]; unfold job_terminal; by rewrite H, E. Qed.

Lemma known_creation s id :
  sys_ok s → creation_live (record_at (p_ledger (sys_pub s)) id) →
  id ∈ known s ∪ creations (l_Queue (p_ledger (sys_pub s))).
Proof. intros Hs (r & Hr & Hl)%live_record_at. by eapply lk_creation; [apply ok_ledger| |]. Qed.

Lemma observe_record_ok s j publish :
  sys_ok s → fresh s (j_EventID j) → is_lifecycle j = true →
  let l := p_ledger (sys_pub s) in
  let '(record, queue, removeRecord) := observe_record (record_at l (job_id j)) (l_Queue l) j publish in
  caller_ok s (with_ledger (sys_pub s)
    (mkLedger (if (removeRecord : bool) then delete (job_id j) (l_Records l) else <[job_id j := record]> (l_Records l)) queue)).
Proof.
  intros Hs Hf Hlc l. set (r := record_at l (job_id j)).
  assert (Hsame : caller_ok s (with_ledger (sys_pub s) (mkLedger (<[job_id j := r]> (l_Records l)) (l_Queue l))))
    by (apply caller_put; [done|done|by left]).
  assert (Hterm : tr_Kind (j_Transition j) = TransitionInvalidated ∨ tr_Kind (j_Transition j) = TransitionExpired →
    let '(record, queue, removeRecord) := observe_record r (l_Queue l) j publish in
    caller_ok s (with_ledger (sys_pub s)
      (mkLedger (if (removeRecord : bool) then delete (job_id j) (l_Records l) else <[job_id j := record]> (l_Records l)) queue))).
  { intros Hk. unfold observe_record. destruct (pr_Terminal r) eqn:Et;
      destruct Hk as [Hk|Hk]; rewrite Hk; cbn [bool_decide decide_rel decide]; try exact Hsame.
    all: rewrite bool_decide_true by done.
    all: assert (job_terminal j = true) as Hjt by (apply kind_terminal; auto).
    all: destruct (pr_Creation r) eqn:Ec; destruct publish; cbn [negb andb];
      repeat (case_bool_decide; [|]; cbn [orb]; try discriminate; try done); try (by apply caller_delete).
    all: assert (Hlive : creation_live r) by (unfold creation_live; rewrite Ec; done).
    all: first [apply caller_put; [done|by intros _|right; by exists j]
               |apply caller_push; [done..| |by right|done]; intros _; by apply known_creation]. }
  destruct (tr_Kind (j_Transition j)) eqn:Hk; try (by apply Hterm; auto); unfold observe_record; rewrite Hk; try exact Hsame.
  case_bool_decide as Ec; [|exact Hsame]. destruct publish.
  - apply caller_push; [done..| | |done].
    + rewrite kind_not_terminal by done. done.
    + intros _. left. by apply kind_creation.
  - apply caller_put; [done| |by left]. by intros [??].
Qed.

Lemma Observe_sys_ok s eventID symbol algo t publish d :
  sys_ok s → fresh s eventID →
  sys_ok (mkSystem (Observe (sys_pub s) eventID symbol algo t publish d) (sys_run s) (sys_log s) (sys_dropped s)).
Proof.
  intros Hs Hf. assert (Hstay : sys_ok (mkSystem (sys_pub s) (sys_run s) (sys_log s) (sys_dropped s))) by (by destruct s).
  unfold Observe. destruct (negb (ShouldPublish t)); [done|]. case_bool_decide; [done|].
  pose proof (observe_record_ok s (newPublishJob eventID symbol algo t) publish Hs Hf eq_refl) as H0.
  cbv zeta in H0. change (job_id (newPublishJob eventID symbol algo t)) with (ca_ID (rec_Candidate (tr_Record t))) in H0.
  destruct (observe_record _ _ _ _) as [[record queue] removeRecord].
  apply caller_step; [done| |intros _; by left]. apply caller_notified. destruct publish; cbn [negb].
  - match goal with |- context [save ?p d] => pose proof (caller_save s p d H0) as H1; destruct (save p d) as [p' ok] end.
    destruct ok; [by apply caller_dirty|done].
  - by apply caller_dirty.
Qed.

(** ** EnqueueArbitrationDecision *)

Lemma coalesce_replaced job symbol oid at' q :
  let '(q', r) := coalesce job symbol oid at' true q in
  sublist q' q ∧ List.filter is_lifecycle q' = List.filter is_lifecycle q ∧ r ≠ Some false.
Proof.
  induction q as [|e q IH]; cbn [coalesce]; [done|].
  destruct (coalesce job symbol oid at' true q) as [q' r]. destruct IH as (H1 & H2 & H3).
  cbn [List.filter]. destruct (j_Arbitration e) as [a|] eqn:Ea.
  - assert (El : is_lifecycle e = false) by (unfold is_lifecycle; by rewrite Ea).
    rewrite El. destruct (negb _ || negb _); [|destruct (at' <=? aj_DecidedAt a)%Z; cbn [negb]]; cbn [List.filter].
    + rewrite El. split_and!; [by apply sublist_skip|done|done].
    + rewrite El. split_and!; [reflexivity|done|done].
    + split_and!; [by apply sublist_cons|done|done].
  - assert (El : is_lifecycle e = true) by (unfold is_lifecycle; by rewrite Ea).
    cbn [List.filter]. rewrite El. split_and!; [by apply sublist_skip|by f_equal|done].
Qed.

(** The queue of the loop: unchanged, or with one update in place of an older one, and perhaps fewer. *)
Lemma coalesce_queue job symbol oid at' q :
  is_lifecycle job = false →
  let '(q', r) := coalesce job symbol oid at' false q in
  List.filter is_lifecycle q' = List.filter is_lifecycle q ∧
  ((q' = q ∧ r ≠ Some true ∧ (r = None → q ≠ [])) ∨
   (∃ a e b b', q = a ++ e :: b ∧ q' = a ++ job :: b' ∧ sublist b' b ∧ r ≠ Some false)).
Proof.
  intros Hj. induction q as [|e q IH]; cbn [coalesce]; [split; [done|left; done]|].
  assert (Hkeep : ∀ q' r, (let '(q', r) := (q', r) in
    List.filter is_lifecycle q' = List.filter is_lifecycle q ∧
    ((q' = q ∧ r ≠ Some true ∧ (r = None → q ≠ [])) ∨
     (∃ a e b b', q = a ++ e :: b ∧ q' = a ++ job :: b' ∧ sublist b' b ∧ r ≠ Some false))) →
    List.filter is_lifecycle (e :: q') = List.filter is_lifecycle (e :: q) ∧
    ((e :: q' = e :: q ∧ r ≠ Some true ∧ (r = None → e :: q ≠ [])) ∨
     (∃ a e0 b b', e :: q = a ++ e0 :: b ∧ e :: q' = a ++ job :: b' ∧ sublist b' b ∧ r ≠ Some false))).
  { intros q' r [H1 H2]. split; [cbn; destruct (is_lifecycle e); by rewrite H1|].
    destruct H2 as [(-> & ? & ?)|(a & e0 & b & b' & -> & -> & ? & ?)]; [left; by split_and!|].
    right. by exists (e :: a), e0, b, b'. }
  destruct (j_Arbitration e) as [a|] eqn:Ea.
  - destruct (negb _ || negb _).
    { destruct (coalesce job symbol oid at' false q) as [q' r]. by apply Hkeep. }
    destruct (at' <=? aj_DecidedAt a)%Z; [split; [done|left; by split_and!]|]. cbn [negb].
    pose proof (coalesce_replaced job symbol oid at' q) as Hr. destruct (coalesce job symbol oid at' true q) as [q' r].
    destruct Hr as (H1 & H2 & H3). split.
    + assert (El : is_lifecycle e = false) by (unfold is_lifecycle; by rewrite Ea).
      cbn. by rewrite Hj, El.
    + right. by exists [], e, q, q'.
  - destruct (coalesce job symbol oid at' false q) as [q' r]. by apply Hkeep.
Qed.

Lemma caller_queue s q :
  sys_ok s → List.filter is_lifecycle q = List.filter is_lifecycle (l_Queue (p_ledger (sys_pub s))) →
  NoDup (map j_EventID q) →
  (∀ x, x ∈ q → x ∈ l_Queue (p_ledger (sys_pub s)) ∨ fresh s (j_EventID x)) →
  caller_ok s (with_ledger (sys_pub s) (mkLedger (l_Records (p_ledger (sys_pub s))) q)).
Proof.
  intros Hs Hl Hnd Hin. apply caller_ledger; cbn [l_Records l_Queue].
  - apply ledger_ok_same; [by apply ok_ledger|done|done|]. intros x Hx. destruct (Hin x Hx) as [?|Hf]; [by left|].
    right. intros id j Hj E. by apply (fresh_held s x id j Hf Hj).
  - exists []. by rewrite app_nil_r.
  - intros x Hx. destruct (Hin x Hx); auto.
  - auto.
Qed.

Lemma Arbitration_ok s zero eventID symbol oid decision at' d :
  sys_ok s → fresh s eventID →
  sys_ok (mkSystem (EnqueueArbitrationDecision zero (sys_pub s) eventID symbol oid decision at' d) (sys_run s) (sys_log s) (sys_dropped s)).
Proof.
  intros Hs Hf. unfold EnqueueArbitrationDecision. cbv zeta.
  set (job := arbitration_job zero eventID symbol oid decision at').
  pose proof (coalesce_queue job symbol oid at' (l_Queue (p_ledger (sys_pub s))) eq_refl) as Hc.
  pose proof (lk_unique _ _ (ok_ledger s Hs)) as Hnd.
  destruct (coalesce _ _ _ _ _ _) as [q r]. destruct Hc as [Hl Hc].
  assert (Hq : caller_ok s (with_ledger (sys_pub s) (mkLedger (l_Records (p_ledger (sys_pub s))) q)) ∧
    (r = None → l_Queue (p_ledger (sys_pub s)) ≠ [])).
  { destruct Hc as [(-> & _ & Hne)|(a & e & b & b' & Eq & -> & Hsub & _)].
    - split; [|done]. apply caller_queue; auto.
    - rewrite Eq. split; [|by destruct a]. apply caller_queue; [done|done| |].
      + rewrite Eq in Hnd. rewrite map_app in *. cbn [map] in *. apply NoDup_app in Hnd as (Ha & Hab & Hb).
        inversion Hb as [|? ? Heb Hb']; subst.
        assert (Hb2 : sublist (map j_EventID b') (map j_EventID b)) by (clear -Hsub; induction Hsub; cbn; by constructor).
        assert (Hnew : ∀ x, x ∈ l_Queue (p_ledger (sys_pub s)) → j_EventID x ≠ eventID)
          by (intros x Hx; by apply (fresh_queue s job x Hf)).
        rewrite Eq in Hnew. apply NoDup_app. split_and!; [done| |].
        * intros i Hi [->|Hi']%elem_of_cons.
          -- apply list_elem_of_fmap in Hi as (x & E & Hx). apply (Hnew x); [set_solver|]. by rewrite <- E.
          -- apply (Hab i Hi). apply elem_of_cons. right. by eapply elem_of_sublist.
        * constructor; [|by eapply sublist_NoDup]. intros Hi. eapply elem_of_sublist in Hi; [|exact Hb2].
          apply list_elem_of_fmap in Hi as (x & E & Hx). apply (Hnew x); [set_solver|]. by rewrite <- E.
      + intros x [Hx|[->|Hx]%elem_of_cons]%elem_of_app; [left|by right|left]; rewrite Eq; [set_solver|].
        apply elem_of_app. right. apply elem_of_cons. right. by eapply elem_of_sublist. }
  destruct Hq as [Hq Hne]. destruct r as [[|]|].
  - apply caller_step; [done| |intros _; by left]. auto with publisher.
  - apply caller_step; [done| |intros _; by left]. apply caller_notified, caller_save.
    destruct Hc as [(-> & _)|(? & ? & ? & ? & _ & _ & _ & ?)]; [|done]. apply caller_queue; [done| | |].
    + rewrite List.filter_app. cbn. by rewrite app_nil_r.
    + by apply NoDup_snoc_fresh; [apply ok_ledger|].
    + intros x [Hx|Hx]%elem_of_app; [by left|]. apply list_elem_of_singleton in Hx as ->. by right.
  - apply caller_step; [done|done|]. intros _. right. by split; [apply Hne|].
Qed.

(** ** ResumeLive and BackfillLive *)

Lemma caller_release s id r j :
  sys_ok s → l_Records (p_ledger (sys_pub s)) !! id = Some r → pr_Deferred r = Some j →
  caller_ok s (with_ledger (sys_pub s)
    (mkLedger (<[id := mkPublication (pr_Creation r) publicationPending None]> (l_Records (p_ledger (sys_pub s))))
      (l_Queue (p_ledger (sys_pub s)) ++ [j]))).
Proof.
  intros Hs Hr Hj. pose proof (ok_ledger s Hs) as Hok. set (l := p_ledger (sys_pub s)) in *.
  assert (Hh : held (l_Records l) id j) by (by exists r). destruct (lk_held _ _ Hok id j Hh) as (Ht & Hid & Hin).
  set (r' := mkPublication (pr_Creation r) publicationPending None).
  assert (Hheld : ∀ i x, held (<[id := r']> (l_Records l)) i x → i ≠ id ∧ held (l_Records l) i x).
  { intros i x [[_ [=]]|[? ?]]%held_insert. auto. }
  apply caller_ledger; cbn [l_Records l_Queue].
  - apply ledger_ok_grow; [done| |by intros i x []%Hheld| | |].
    + intros i r0 [[<- <-]|[_ Hr0]]%lookup_insert_Some Hl; left; [by exists r|by exists r0].
    + cbn. split; [|done]. by rewrite Hid.
    + rewrite map_app. apply NoDup_app. split_and!; [apply Hok| |apply NoDup_singleton].
      intros e (x & -> & Hx)%list_elem_of_fmap E%list_elem_of_singleton. by eapply (lk_apart _ _ Hok id j x).
    + intros i x y [Hne Hx]%Hheld ->%list_elem_of_singleton E. apply Hne.
      by apply (lk_distinct _ _ Hok i id x j).
  - exists [j]. rewrite List.filter_app. cbn. unfold job_terminal in Ht. by destruct (is_lifecycle j).
  - intros x [Hx|Hx]%elem_of_app; [by left|]. apply list_elem_of_singleton in Hx as ->. right; left. by rewrite Hid.
  - intros i x [_ Hx]%Hheld. by left.
Qed.

(** The system in the middle of a loop that will notify when it changed anything. *)
Definition midway (s : System) (acc : publicationLedger * bool) : System :=
  let p := with_ledger (sys_pub s) acc.1 in
  mkSystem (if acc.2 then notified p else p) (sys_run s) (sys_log s) (sys_dropped s).

Lemma midway_ledger s acc : p_ledger (sys_pub (midway s acc)) = acc.1.
Proof. unfold midway. by destruct acc as [l [|]]. Qed.
Lemma midway_start s : sys_ok s → sys_ok (midway s (p_ledger (sys_pub s), false)).
Proof. by destruct s as [[] ? ?]. Qed.
Lemma midway_step s acc l :
  sys_ok (midway s acc) → caller_ok (midway s acc) (with_ledger (sys_pub (midway s acc)) l) →
  sys_ok (midway s (l, true)).
Proof.
  intros Hs Hc. apply (caller_step _ (notified (with_ledger (sys_pub (midway s acc)) l))) in Hs.
  - unfold midway in *. by destruct acc as [l' [|]].
  - by apply caller_notified.
  - intros _. by left.
Qed.
Lemma midway_end s acc d : sys_ok (midway s acc) → sys_ok (mkSystem (saved_if_changed (sys_pub s) acc d) (sys_run s) (sys_log s) (sys_dropped s)).
Proof.
  destruct acc as [l [|]]; [|done]. intros Hs. unfold saved_if_changed.
  assert (Hc := caller_save _ _ d (caller_refl _ Hs)).
  apply (caller_step _ _ Hs) in Hc.
  - cbn in Hc. assert (E : notified (save (with_ledger (sys_pub s) l) d).1 = (save (notified (with_ledger (sys_pub s) l)) d).1).
    { unfold save. cbn. split_ifs; [done|]. by destruct d. }
    by rewrite E.
  - intros _. left. by rewrite save_notify.
Qed.

Lemma resume_step_ok s symbol acc id : sys_ok (midway s acc) → sys_ok (midway s (resume_step symbol acc id)).
Proof.
  intros Hs. destruct acc as [l c] eqn:Ea. unfold resume_step. destruct (l_Records l !! id) as [r|] eqn:Er; [|done].
  destruct (pr_Deferred r) as [j|] eqn:Ej; [|done]. destruct (bool_decide _ && _); [|done]. subst acc.
  apply (midway_step s (l, c)); [done|].
  pose proof (caller_release _ id r j Hs) as H. rewrite midway_ledger in H. by apply H.
Qed.
Lemma ResumeLive_ok s range symbol d :
  sys_ok s → sys_ok (mkSystem (ResumeLive range (sys_pub s) symbol d) (sys_run s) (sys_log s) (sys_dropped s)).
Proof.
  intros Hs. apply midway_end. generalize (range (l_Records (p_ledger (sys_pub s)))). intros ids.
  apply midway_start in Hs. revert Hs. generalize (p_ledger (sys_pub s), false).
  induction ids as [|id ids IH]; intros acc Hs; [done|]. cbn [foldl]. by apply IH, resume_step_ok.
Qed.

Lemma midway_fresh s acc l r id (j : publishJob) eventID :
  fresh (midway s acc) eventID → eventID ≠ j_EventID j → acc.1 = l →
  pr_Deferred r = pr_Deferred (record_at l id) →
  fresh (midway s (mkLedger (<[id := r]> (l_Records l)) (l_Queue l ++ [j]), true)) eventID.
Proof.
  intros (H1 & H2 & H3) Hne <- Hd. unfold fresh. rewrite midway_ledger in *. cbn [l_Queue l_Records fst] in *.
  split_and!; [| |by destruct acc as [? [|]]].
  - intros x [Hx|Hx]%elem_of_app; [by apply H1|]. by apply list_elem_of_singleton in Hx as ->.
  - intros i r0 x [[<- <-]|[_ Hr]]%lookup_insert_Some Hx; [|by eapply H2].
    rewrite Hd in Hx. apply held_record_at in Hx as (r1 & Hr1 & Hx). by eapply H2.
Qed.
Lemma backfill_ok s symbol algo unix recovered acc :
  sys_ok (midway s acc) → NoDup recovered.*2 → Forall (λ ci, fresh (midway s acc) ci.2) recovered →
  sys_ok (midway s (foldl (backfill_step symbol algo unix) acc recovered)).
Proof.
  revert acc. induction recovered as [|[c eventID] recovered IH]; intros acc Hs Hnd Hf; [done|].
  cbn [foldl]. inversion Hnd as [|? ? Hni Hnd']; subst. inversion Hf as [|? ? Hf0 Hf']; subst. cbn [fst snd] in *.
  destruct acc as [l ch] eqn:Ea. unfold backfill_step at 2. case_bool_decide; [by apply IH|].
  destruct (_ || _ || _) eqn:E; [by apply IH|]. subst acc.
  set (j := mkJob eventID symbol algo (mkTransition TransitionCreated (mkRecord c StateCreated 0 None)) unix None).
  set (r := mkPublication publicationPending (pr_Terminal (record_at l (ca_ID c))) (pr_Deferred (record_at l (ca_ID c)))).
  apply IH; [|done|].
  - apply (midway_step s (l, ch)); [done|].
    pose proof (caller_push (midway s (l, ch)) j r Hs Hf0 eq_refl) as Hp. rewrite midway_ledger in Hp.
    apply Hp; [done|by left|done].
  - rewrite Forall_forall in *. intros ci Hci. eapply (midway_fresh s (l, ch)); [by apply Hf'| |done|done].
    intros E'. apply Hni. cbn in E'. rewrite <- E'. by apply list_elem_of_fmap_2.
Qed.
Lemma BackfillLive_ok s symbol algo recovered unix d :
  sys_ok s → NoDup recovered.*2 → Forall (λ ci, fresh s ci.2) recovered →
  sys_ok (mkSystem (BackfillLive (sys_pub s) symbol algo recovered unix d) (sys_run s) (sys_log s) (sys_dropped s)).
Proof.
  intros Hs Hnd Hf. unfold BackfillLive. destruct recovered as [|ci rest] eqn:Er; [by destruct s|]. rewrite <- Er in *.
  apply midway_end, backfill_ok; [by apply midway_start|done|]. by destruct s as [[] ? ?].
Qed.

(** ** Flush, SetClient and the goroutine of Run *)

Lemma Flush_ok s d : sys_ok s → sys_ok (mkSystem (Flush (sys_pub s) d) (sys_run s) (sys_log s) (sys_dropped s)).
Proof.
  intros Hs. apply caller_step; [done| |].
  - unfold Flush. destruct (negb _); [by apply caller_refl|].
    pose proof (caller_save s (sys_pub s) d (caller_refl s Hs)) as H. destruct (save (sys_pub s) d) as [p ok].
    destruct ok; [by apply caller_dirty|done].
  - unfold wakes, Flush. destruct (negb _); [auto|].
    pose proof (save_notify (sys_pub s) d). pose proof (save_ledger (sys_pub s) d) as E.
    destruct (save (sys_pub s) d) as [p ok]. cbn in *. destruct ok; cbn; rewrite E; auto.
Qed.
Lemma SetClient_ok s client : sys_ok s → sys_ok (mkSystem (SetClient (sys_pub s) client) (sys_run s) (sys_log s) (sys_dropped s)).
Proof.
  intros Hs. apply caller_step; [done|apply (caller_same s (sys_pub s)); auto with publisher|].
  unfold wakes, SetClient. cbn. destruct client; auto.
Qed.

Lemma peek_spec p :
  match peek p with
  | None => l_Queue (p_ledger p) = []
  | Some j => j ∈ l_Queue (p_ledger p) ∧
      if is_lifecycle j then List.find is_lifecycle (l_Queue (p_ledger p)) = Some j
      else (∀ x, x ∈ l_Queue (p_ledger p) → is_lifecycle x = false) ∧ head (l_Queue (p_ledger p)) = Some j
  end.
Proof.
  unfold peek. destruct (l_Queue (p_ledger p)) as [|j q] eqn:Eq; [done|]. rewrite <- Eq.
  destruct (List.find _ _) as [x|] eqn:E.
  - pose proof (find_lifecycle_elem _ _ E) as [? Hx]. by rewrite Hx.
  - pose proof (find_none _ _ E) as Hn. setoid_rewrite <- list_elem_of_In in Hn.
    assert (Hj : j ∈ l_Queue (p_ledger p)) by (rewrite Eq; set_solver). rewrite (Hn j Hj), Eq.
    split_and!; [set_solver| |done]. intros x Hx. apply Hn. by rewrite Eq.
Qed.

Lemma peek_ok s :
  sys_ok s → sys_ok (mkSystem (sys_pub s) (match peek (sys_pub s) with Some j => Peeked j | None => Waiting end) (sys_log s) (sys_dropped s)).
Proof.
  intros []. pose proof (peek_spec (sys_pub s)) as Hp. destruct (peek (sys_pub s)) as [j|].
  - destruct Hp as [Hin Hj]. split; cbn [sys_pub sys_run sys_log sys_dropped phase_job]; [done..| | |done|intros ? [[=]|[=]]|done].
    + intros j' [= <-] Hl. by rewrite Hl in Hj.
    + intros j' [= <-]. split.
      * intros x Hx E. assert (NoDup (map j_EventID (l_Queue (p_ledger (sys_pub s))))) as Hnd by apply ok_ledger0.
        clear -Hx Hin E Hnd. induction (l_Queue (p_ledger (sys_pub s))) as [|y q IH]; [by apply elem_of_nil in Hx|].
        inversion Hnd as [|? ? Hni Hnd']; subst.
        apply elem_of_cons in Hx as [->|Hx], Hin as [->|Hin]; [done| | |by apply IH]; exfalso; apply Hni;
          [rewrite E|rewrite <- E]; by apply list_elem_of_fmap_2.
      * intros id x Hx E. by eapply (lk_apart _ _ ok_ledger0 id x j).
  - split; cbn [sys_pub sys_run sys_log sys_dropped phase_job]; try done. intros ? [[=]|[=]].
Qed.

Lemma loop_ok p log dropped :
  ledger_ok (created log ∪ dropped) (p_ledger p) → (∀ f, p_file p = Some f → ledger_ok (created log ∪ dropped) f) →
  (∀ pre m post id, log = pre ++ m :: post → terminal_of m = Some id → id ∈ created pre ∪ dropped) →
  sys_ok (mkSystem p Loop log dropped).
Proof. intros. split; cbn; try done. intros ? [[=]|[=]]. Qed.

Lemma wake_ok s :
  sys_ok s → sys_ok (mkSystem (mkPublisher (p_path (sys_pub s)) (p_ledger (sys_pub s)) (p_file (sys_pub s))
    (p_client (sys_pub s)) (p_dirty (sys_pub s)) false) Loop (sys_log s) (sys_dropped s)).
Proof. intros []. by apply loop_ok. Qed.

Lemma persist_ok s j d p ok :
  sys_ok s → sys_run s = Peeked j → persist (sys_pub s) d = (p, ok) →
  sys_ok (mkSystem p (if ok then Persisted j else Loop) (sys_log s) (sys_dropped s)).
Proof.
  intros Hs Hr E. pose proof (save_ledger (sys_pub s) d) as El. pose proof (save_path (sys_pub s) d) as Ep.
  unfold persist in E. rewrite E in El, Ep. cbn [fst] in El, Ep.
  assert (Hs' : sys_ok (mkSystem p (sys_run s) (sys_log s) (sys_dropped s))).
  { apply caller_step; [done| |].
    - pose proof (caller_save s (sys_pub s) d (caller_refl s Hs)) as H. by rewrite E in H.
    - pose proof (save_notify (sys_pub s) d) as En. rewrite E in En. cbn in En. unfold wakes. rewrite El, En. auto. }
  destruct ok.
  - rewrite Hr in Hs'. destruct Hs'. split; cbn [sys_pub sys_run sys_log sys_dropped phase_job] in *; [done..|done| |done].
    intros j' [[= <-]|[=]] Hl Hp. exists (p_ledger p). split.
    + unfold save in E. rewrite Ep in Hp. rewrite bool_decide_false in E by done. destruct d; by injection E as <-.
    + by apply find_lifecycle_elem, ok_front0.
  - destruct Hs'. by apply loop_ok.
Qed.

Lemma front_split q j :
  List.find is_lifecycle q = Some j → ∃ a b, q = a ++ j :: b ∧ ∀ x, x ∈ a → is_lifecycle x = false.
Proof.
  induction q as [|x q IH]; cbn; [done|]. destruct (is_lifecycle x) eqn:E.
  - intros [= ->]. exists [], q. split; [done|]. by intros x Hx%elem_of_nil.
  - intros (a & b & -> & Ha)%IH. exists (x :: a), b. split; [done|]. by intros y [->|Hy%Ha]%elem_of_cons.
Qed.
Lemma front_terminal C q j :
  order_ok C q → List.find is_lifecycle q = Some j → job_terminal j = true → job_id j ∈ C.
Proof.
  intros Ho%order_ok_lifecycle Hf Ht. apply find_lifecycle in Hf as [rest E]. rewrite E in Ho. by apply Ho.
Qed.

Lemma message_terminal j m id :
  message_of j = Some m → terminal_of m = Some id → job_terminal j = true ∧ job_id j = id.
Proof.
  unfold message_of, job_terminal, is_lifecycle, job_id. destruct (j_Arbitration j); [by intros [= <-]|].
  destruct (tr_Kind (j_Transition j)); try done; split_ifs; try (by intros [= <-]);
    destruct (match rec_Terminal _ with Some _ => _ | None => _ end) as [reason at']; intros [= <-] [= <-]; done.
Qed.
Lemma message_creation j m :
  message_of j = Some m → created_of m = if job_creation j then Some (job_id j) else None.
Proof.
  unfold message_of, job_creation, is_lifecycle, job_id. destruct (j_Arbitration j); [by intros [= <-]|].
  destruct (tr_Kind (j_Transition j)); try done; split_ifs; try (by intros [= <-]);
    destruct (match rec_Terminal _ with Some _ => _ | None => _ end) as [reason at']; by intros [= <-].
Qed.
Lemma publishOne_sent client j accepted delivered ok sent :
  publishOne client j accepted delivered = (ok, sent) →
  (sent = [] ∨ ∃ m, message_of j = Some m ∧ sent = [m]) ∧
  (ok = true → job_creation j = true → ∃ m, message_of j = Some m ∧ sent = [m]).
Proof.
  unfold publishOne. destruct client; cbn [negb]; [|intros [= <- <-]; by split; [left|]].
  destruct (message_of j) as [m|] eqn:Em.
  - destruct accepted; intros [= <- <-]; [split; [right|intros _ _]; by exists m|].
    split; [|done]. destruct delivered; [right; by exists m|by left].
  - intros [= <- <-]. split; [by left|]. intros _ Hc. unfold message_of in Em. unfold job_creation, is_lifecycle in Hc.
    destruct (j_Arbitration j); [done|]. destruct (tr_Kind (j_Transition j)); try done. by destruct (negb _).
Qed.

Lemma publish_ok s j accepted delivered ok sent :
  sys_ok s → sys_run s = Persisted j → publishOne (p_client (sys_pub s)) j accepted delivered = (ok, sent) →
  sys_ok (mkSystem (sys_pub s) (if ok then Sent j else Loop) (sys_log s ++ sent) (sys_dropped s)).
Proof.
  intros [] Hr E. destruct (publishOne_sent _ _ _ _ _ _ E) as [Hsent Hcr].
  assert (Hpj : phase_job (sys_run s) = Some j) by (by rewrite Hr).
  assert (Hmono : known s ⊆ created (sys_log s ++ sent) ∪ sys_dropped s) by (unfold known; rewrite created_app; set_solver).
  assert (Hlog : ∀ pre m post id, sys_log s ++ sent = pre ++ m :: post → terminal_of m = Some id → id ∈ created pre ∪ sys_dropped s).
  { destruct Hsent as [->|(m & Em & ->)]; [by rewrite app_nil_r|]. intros pre m' post id Eq Ht.
    destruct post as [|m'' post _] using rev_ind.
    - apply app_inj_tail in Eq as [<- <-]. destruct (message_terminal j m id Em Ht) as [Hjt <-].
      eapply front_terminal; [apply ok_ledger0|apply ok_front0; [done|]|done].
      unfold job_terminal in Hjt. by destruct (is_lifecycle j).
    - rewrite app_comm_cons, app_assoc in Eq. apply app_inj_tail in Eq as [Eq _]. by eapply ok_log0. }
  assert (Hl : sys_ok (mkSystem (sys_pub s) Loop (sys_log s ++ sent) (sys_dropped s))).
  { apply loop_ok; [by eapply ledger_ok_mono| |done]. intros f Hf. eapply ledger_ok_mono; [done|]. by apply ok_file0. }
  destruct ok; [|done]. destruct Hl.
  split; cbn [sys_pub sys_run sys_log sys_dropped phase_job] in *; [done..| | | | |done].
  - intros j' [= <-]. by apply ok_front0.
  - intros j' [= <-]. by apply ok_id0.
  - intros j' [= <-] Hc. destruct (Hcr eq_refl Hc) as (m & Em & ->). rewrite created_app. apply elem_of_union_r.
    unfold created. cbn. rewrite (message_creation j m Em), Hc. set_solver.
  - intros j' [[=]|[= <-]]. apply ok_ahead0. by left.
Qed.

(** ** Acknowledgement *)

Lemma drop_at {A} (a : list A) j b : take (length a) (a ++ j :: b) ++ drop (S (length a)) (a ++ j :: b) = a ++ b.
Proof.
  rewrite take_app_length. f_equal. change (a ++ j :: b) with (a ++ [j] ++ b). rewrite app_assoc.
  rewrite drop_app_length'; [done|]. rewrite length_app. cbn. lia.
Qed.
Lemma filter_none_lifecycle (a : list publishJob) :
  (∀ x, x ∈ a → is_lifecycle x = false) → List.filter is_lifecycle a = [].
Proof.
  intros H. induction a as [|x a IH]; cbn; [done|]. rewrite H by set_solver. apply IH. intros y Hy. apply H. set_solver.
Qed.

Lemma ack_ledger_ok C l j a b :
  ledger_ok C l → l_Queue l = a ++ j :: b →
  (is_lifecycle j = true → ∀ x, x ∈ a → is_lifecycle x = false) →
  (job_creation j = true → job_id j ∈ C) →
  ledger_ok C (mkLedger (ack_records j (l_Records l)) (a ++ b)).
Proof.
  intros Hok Eq Hfront Hsent.
  assert (Hnd : NoDup (map j_EventID (a ++ b))).
  { eapply sublist_NoDup; [apply Hok|]. rewrite Eq, !map_app. cbn. apply sublist_app; [done|by apply sublist_cons]. }
  unfold ack_records. destruct (is_lifecycle j) eqn:El.
  2:{ apply ledger_ok_same; [done| |done|].
      - rewrite Eq, !List.filter_app. cbn. by rewrite El.
      - intros x Hx. left. rewrite Eq. set_solver. }
  assert (Hdelta : C ∪ creations (l_Queue l) = C ∪ creations (a ++ b)).
  { rewrite Eq, !creations_app, creations_cons. destruct (job_creation j); set_solver. }
  assert (Hord : order_ok C (a ++ b)).
  { pose proof (lk_order _ _ Hok) as Ho. rewrite <- order_ok_lifecycle, Eq, List.filter_app in Ho. cbn in Ho.
    rewrite El, (filter_none_lifecycle a) in Ho by auto. cbn in Ho.
    rewrite <- order_ok_lifecycle, List.filter_app, (filter_none_lifecycle a) by auto. cbn.
    destruct Ho as [_ Ho]. eapply order_ok_mono; [|exact Ho]. destruct (job_creation j); set_solver. }
  assert (Hkeep : ∀ recs, (∀ id r, recs !! id = Some r → creation_live r → id ∈ C ∪ creations (a ++ b)) →
    (∀ id x, held recs id x → held (l_Records l) id x) → ledger_ok C (mkLedger recs (a ++ b))).
  { intros recs Hc Hh. destruct Hok. rewrite Hdelta in *. split; cbn [l_Records l_Queue]; [done|done| | | |done].
    - intros id x Hx. by apply lk_held0, Hh.
    - intros id x y Hx Hy. eapply (lk_apart0 id x y); [by apply Hh|]. rewrite Eq. set_solver.
    - intros id id' x x' Hx Hx'. eapply lk_distinct0; eauto. }
  pose proof (lk_creation _ _ Hok) as Hcr. rewrite Hdelta in Hcr. case_bool_decide as Hk; apply Hkeep.
  - intros id r [[<- _]|[_ Hr]]%lookup_insert_Some Hl; [|by eapply Hcr].
    apply elem_of_union_l, Hsent. unfold job_creation. by rewrite El, Hk.
  - intros id x [[<- Hx]|[_ Hx]]%held_insert; [|done]. by apply (held_record_at l).
  - intros id r [_ Hr]%lookup_delete_Some. by eapply Hcr.
  - intros id x (r & [_ Hr]%lookup_delete_Some & Hx). by exists r.
Qed.

Lemma ack_ok s j d :
  sys_ok s → sys_run s = Sent j → sys_ok (mkSystem (ackFront (sys_pub s) j d) Loop (sys_log s) (sys_dropped s)).
Proof.
  intros Hs Hr. destruct (Hs). assert (Hpj : phase_job (sys_run s) = Some j) by (by rewrite Hr).
  unfold ackFront. destruct (list_find _ _) as [[i x]|] eqn:E; [|by apply loop_ok].
  apply list_find_Some in E as (Hi & Hid & _). apply list_elem_of_split_length in Hi as (a & b & Eq & ->).
  assert (x = j) as -> by (destruct (ok_id0 j Hpj) as [H _]; apply H; [rewrite Eq; set_solver|done]).
  rewrite Eq, drop_at.
  assert (Hl : ledger_ok (known s)
    (mkLedger (ack_records j (l_Records (p_ledger (sys_pub s)))) (a ++ b))).
  { apply ack_ledger_ok; [done|done| |by intros Hc; apply elem_of_union_l, ok_sent0].
    intros El x Hx. destruct (front_split _ _ (ok_front0 j Hpj El)) as (a' & b' & Eq' & Ha').
    assert (Hnd := lk_unique _ _ ok_ledger0).
    assert (a = a') as ->; [|by apply Ha'].
    rewrite Eq in Eq', Hnd. clear -Eq' Hnd. revert a' Eq' Hnd. induction a as [|y a IH]; intros [|y' a'] Eq Hnd; cbn in *.
    - done.
    - injection Eq as -> ->. inversion Hnd as [|? ? Hni _]; subst. exfalso. apply Hni. rewrite map_app. set_solver.
    - injection Eq as -> <-. inversion Hnd as [|? ? Hni _]; subst. exfalso. apply Hni. rewrite map_app. set_solver.
    - injection Eq as -> Eq. f_equal. apply IH; [done|]. by inversion Hnd. }
  apply loop_ok; [by rewrite save_ledger| |done]. intros f Hf.
  match type of Hf with p_file (save ?p ?d).1 = _ => destruct (save_file p d) as [E|E] end; rewrite E in Hf.
  - by apply ok_file0.
  - by injection Hf as <-.
Qed.

(** ** Restart *)

Lemma discardArbitration_ok C l : ledger_ok C l → ledger_ok C (discardArbitrationJobs l).1.
Proof.
  intros Hok. apply ledger_ok_same; [done| | |].
  - apply forallb_filter_id, forallb_forall. by intros x [_ ?]%filter_In.
  - eapply sublist_NoDup; [apply Hok|]. clear. induction (l_Queue l) as [|x q IH]; cbn; [done|].
    destruct (is_lifecycle x); cbn; by constructor.
  - intros x Hx. left. rewrite list_elem_of_In in *. by apply filter_In in Hx as [? _].
Qed.
Lemma restart_ok s client d p :
  sys_ok s → NewDurableOpportunityPublisher client (p_path (sys_pub s)) (Some <$> p_file (sys_pub s)) d = Some p →
  sys_ok (mkSystem p Loop (sys_log s) (sys_dropped s)).
Proof.
  intros [] E. unfold NewDurableOpportunityPublisher in E.
  destruct (openPublicationStore _ _) as [l|] eqn:Eo; [|done].
  assert (Hl : ledger_ok (known s) l).
  { unfold openPublicationStore in Eo. destruct (bool_decide _); [injection Eo as <-; apply empty_ledger_ok|].
    destruct (p_file (sys_pub s)) as [f|]; cbn in Eo; injection Eo as <-; [by apply ok_file0|apply empty_ledger_ok]. }
  apply discardArbitration_ok in Hl. destruct (discardArbitrationJobs l) as [l' dropped]. cbn [fst] in Hl.
  assert (Hf : ∀ f, match Some <$> p_file (sys_pub s) with Some (Some f) => Some f | _ => None end = Some f →
    ledger_ok (known s) f) by (destruct (p_file (sys_pub s)); cbn; naive_solver).
  destruct (0 <? dropped); [|injection E as <-; by apply loop_ok].
  match type of E with context [save ?p0 d] => set (p0' := p0) in E;
    pose proof (save_ledger p0' d) as El; pose proof (save_file p0' d) as Ef end.
  destruct (save p0' d) as [p' ok]. destruct ok; [|done]. injection E as ->.
  apply loop_ok; [cbn in El; by rewrite El| |done]. intros f Hp. destruct Ef as [E|E]; cbn in E; rewrite E in Hp; [by apply Hf|].
  by injection Hp as <-.
Qed.

(** ** Discarding stale creations *)

Lemma stale_unpublished l cutoff id : id ∈ stale_ids l cutoff → pr_Creation (record_at l id) ≠ publicationPublished.
Proof.
  unfold stale_ids. assert (H0 : ∀ i, i ∈ (∅ : gset string) → pr_Creation (record_at l i) ≠ publicationPublished) by set_solver.
  revert H0. generalize (∅ : gset string). induction (l_Queue l) as [|j q IH]; intros S HS; cbn [foldl]; [apply HS|].
  apply IH. intros i. split_ifs; try apply HS. intros [->%elem_of_singleton|Hi]%elem_of_union; [|by apply HS].
  by bools.
Qed.
Lemma order_ok_filter (S : gset string) (keep : publishJob → bool) C C' q :
  (∀ j, keep j = false → job_id j ∈ S) → (∀ j, is_lifecycle j = true → keep j = true → job_id j ∉ S) →
  (∀ id, id ∉ S → id ∈ C → id ∈ C') → order_ok C q → order_ok C' (List.filter keep q).
Proof.
  intros Hdrop Hkeep. revert C C'. induction q as [|j q IH]; intros C C' Hsub Ho; [done|]. cbn [List.filter].
  destruct Ho as [Ht Ho]. destruct (keep j) eqn:Ek.
  - split; [|eapply IH; [|exact Ho]; intros id Hid; destruct (job_creation j); set_solver].
    intros Hjt. apply Hsub; [|by apply Ht]. apply Hkeep; [|done]. unfold job_terminal in Hjt. by destruct (is_lifecycle j).
  - eapply IH; [|exact Ho]. intros id Hid. pose proof (Hdrop j Ek). destruct (job_creation j); set_solver.
Qed.

Lemma discardStale_ok C l cutoff maxAge :
  ledger_ok C l → ledger_ok (C ∪ orphaned l cutoff maxAge) (discardStaleLifecycleJobs l cutoff maxAge).1.
Proof.
  intros Hok. unfold discardStaleLifecycleJobs, orphaned. destruct (maxAge <=? 0)%Z; [by rewrite union_empty_r_L|]. cbn [fst].
  set (S := stale_ids l cutoff). set (O := filter _ S).
  set (keep := λ j, negb (is_lifecycle j) || negb (bool_decide (job_id j ∈ S))).
  set (recs := filter _ (l_Records l)).
  assert (Hrec : ∀ id r, recs !! id = Some r → l_Records l !! id = Some r ∧ (id ∈ S → id ∈ O)).
  { intros id r Hr. apply map_lookup_filter_Some in Hr as [Hr Hk]. split; [done|]. intros Hin. unfold O.
    apply elem_of_filter. split; [|done].
    pose proof (stale_unpublished l cutoff id Hin) as Hu. unfold record_at in *. rewrite Hr in *. cbn in Hu, Hk |- *.
    rewrite !bool_decide_true, bool_decide_false in Hk by done. cbn in Hk.
    by destruct (pr_Terminal r); vm_compute in Hk. }
  assert (Hheld : ∀ id x, held recs id x → held (l_Records l) id x ∧ (id ∈ S → id ∈ O)).
  { intros id x (r & [Hr Hn]%Hrec & Hx). split; [by exists r|done]. }
  assert (Hcr : ∀ id, (id ∈ S → id ∈ O) → id ∈ C ∪ creations (l_Queue l) → id ∈ (C ∪ O) ∪ creations (List.filter keep (l_Queue l))).
  { intros id Hn [?|(j & Hj & Hc & <-)%elem_of_creations]%elem_of_union; [set_solver|].
    destruct (decide (job_id j ∈ S)) as [Hs|Hs]; [set_solver|].
    apply elem_of_union_r, elem_of_creations. exists j. split_and!; [|done|done].
    rewrite list_elem_of_In in *. apply filter_In. split; [done|]. unfold keep. rewrite bool_decide_false by done. by rewrite orb_true_r. }
  destruct Hok. split; cbn [l_Records l_Queue].
  - eapply (order_ok_filter S keep C); [| | |done]; unfold keep.
    + intros j. case_bool_decide; [done|]. by rewrite orb_true_r.
    + intros j ->. case_bool_decide; done.
    + set_solver.
  - intros id r [Hr Hn]%Hrec Hl. apply Hcr; [done|]. by eapply lk_creation0.
  - intros id x [Hx Hn]%Hheld. destruct (lk_held0 id x Hx) as (? & ? & ?). split_and!; [done..|]. by apply Hcr.
  - intros id x y [Hx _]%Hheld Hy. apply (lk_apart0 id x y Hx). rewrite list_elem_of_In in *. by apply filter_In in Hy as [? _].
  - intros id id' x x' [Hx _]%Hheld [Hx' _]%Hheld. by apply lk_distinct0.
  - eapply sublist_NoDup; [exact lk_unique0|]. clear. induction (l_Queue l) as [|x q IH]; cbn; [done|].
    destruct (keep x); cbn; by constructor.
Qed.

Lemma discard_step_ok s cutoff maxAge d :
  sys_ok s →
  sys_ok (mkSystem (DiscardStaleLifecycleJobs (sys_pub s) cutoff maxAge d).1 Loop (sys_log s)
    (sys_dropped s ∪ orphaned (p_ledger (sys_pub s)) cutoff maxAge)).
Proof.
  intros []. set (O := orphaned _ _ _).
  assert (Hlog : ∀ pre m post id, sys_log s = pre ++ m :: post → terminal_of m = Some id → id ∈ created pre ∪ (sys_dropped s ∪ O))
    by (intros pre m post id E Ht; pose proof (ok_log0 pre m post id E Ht); set_solver).
  assert (Hmono : known s ⊆ created (sys_log s) ∪ (sys_dropped s ∪ O)) by (unfold known; set_solver).
  assert (Hfile : ∀ f, p_file (sys_pub s) = Some f → ledger_ok (created (sys_log s) ∪ (sys_dropped s ∪ O)) f)
    by (intros f Hf; eapply ledger_ok_mono; [exact Hmono|by apply ok_file0]).
  assert (Hsame : sys_ok (mkSystem (sys_pub s) Loop (sys_log s) (sys_dropped s ∪ O))) by (apply loop_ok; [by eapply ledger_ok_mono|done..]).
  pose proof (discardStale_ok _ _ cutoff maxAge ok_ledger0) as Hl. fold O in Hl.
  assert (E : known s ∪ O = created (sys_log s) ∪ (sys_dropped s ∪ O)) by (unfold known; set_solver). rewrite E in Hl.
  unfold DiscardStaleLifecycleJobs. destruct (maxAge <=? 0)%Z eqn:Em; [exact Hsame|].
  destruct (discardStaleLifecycleJobs (p_ledger (sys_pub s)) cutoff maxAge) as [l dropped]. cbn [fst] in Hl |- *.
  destruct (0 <? dropped); [|by apply loop_ok]. apply loop_ok; [by rewrite save_ledger| |done]. intros f Hf.
  match type of Hf with p_file (save ?p ?d).1 = _ => destruct (save_file p d) as [E'|E'] end; rewrite E' in Hf;
    [by apply Hfile|by injection Hf as <-].
Qed.

Lemma run_sys_ok s s' : run_step s s' → sys_ok s → sys_ok s'.
Proof. intros Hst Hs. destruct Hst; eauto using peek_ok, wake_ok, persist_ok, publish_ok, ack_ok. Qed.
Lemma step_sys_ok s s' : step s s' → sys_ok s → sys_ok s'.
Proof.
  intros Hst Hs. destruct Hst; eauto using Observe_sys_ok, Arbitration_ok, ResumeLive_ok, BackfillLive_ok, Flush_ok,
    SetClient_ok, run_sys_ok, restart_ok, discard_step_ok.
Qed.
Lemma reachable_ok s : reachable s → sys_ok s.
Proof.
  intros (client & path & H). assert (H0 : sys_ok (initial client path)).
  { apply loop_ok; [apply empty_ledger_ok|done|]. intros [|] ? ? ? [=]. }
  induction H as [|s1 s2 s3 Hst _ IH]; [done|]. apply IH. by eapply step_sys_ok.
Qed.

(** * Lemmas: coalescing *)

(** The opportunity an arbitration job reports on. *)
Definition arb_key (j : publishJob) : option (string * string) :=
  (λ a, (j_Symbol j, aj_OpportunityID a)) <$> j_Arbitration j.
(** The decision the queue holds for an opportunity. *)
Definition latest (k : string * string) (q : list publishJob) : option arbitrationJob :=
  head (omap (λ j, if bool_decide (arb_key j = Some k) then j_Arbitration j else None) q).

Lemma coalesce_app job symbol oid at' replaced a q :
  (∀ x, x ∈ a → arb_key x ≠ Some (symbol, oid)) →
  coalesce job symbol oid at' replaced (a ++ q) =
  (a ++ (coalesce job symbol oid at' replaced q).1, (coalesce job symbol oid at' replaced q).2).
Proof.
  intros Ha. induction a as [|x a IH]; cbn [app]; [by destruct (coalesce _ _ _ _ _ q)|]. cbn [coalesce].
  rewrite IH by set_solver. pose proof (Ha x ltac:(set_solver)) as Hx. unfold arb_key in Hx.
  destruct (j_Arbitration x) as [y|]; [|done]. repeat case_bool_decide; cbn; try done. subst. done.
Qed.
Lemma coalesce_miss job symbol oid at' replaced a :
  (∀ x, x ∈ a → arb_key x ≠ Some (symbol, oid)) → coalesce job symbol oid at' replaced a = (a, Some replaced).
Proof.
  intros Ha. pose proof (coalesce_app job symbol oid at' replaced a [] Ha) as H.
  by rewrite app_nil_r in H; rewrite H; cbn; rewrite app_nil_r.
Qed.
Lemma coalesce_hit job symbol oid at' e y b :
  j_Arbitration e = Some y → arb_key e = Some (symbol, oid) → (∀ x, x ∈ b → arb_key x ≠ Some (symbol, oid)) →
  coalesce job symbol oid at' false (e :: b) = if (at' <=? aj_DecidedAt y)%Z then (e :: b, None) else (job :: b, Some true).
Proof.
  intros Ey Ek Hb. cbn [coalesce]. unfold arb_key in Ek. rewrite Ey in *. injection Ek as -> ->.
  rewrite !bool_decide_true by done. cbn. by rewrite coalesce_miss by done.
Qed.

Lemma first_key k (q : list publishJob) :
  NoDup (omap arb_key q) →
  (∀ x, x ∈ q → arb_key x ≠ Some k) ∨
  (∃ a e y b, q = a ++ e :: b ∧ j_Arbitration e = Some y ∧ arb_key e = Some k ∧
     (∀ x, x ∈ a → arb_key x ≠ Some k) ∧ (∀ x, x ∈ b → arb_key x ≠ Some k)).
Proof.
  intros Hnd. destruct (decide (k ∈ omap arb_key q)) as [(e & He & Ek)%list_elem_of_omap|Hn].
  2:{ left. intros x Hx Ek. apply Hn, list_elem_of_omap. eauto. }
  right. apply list_elem_of_split in He as (a & b & ->). rewrite omap_app in Hnd. cbn in Hnd. rewrite Ek in Hnd.
  apply NoDup_app in Hnd as (_ & Hab & Hb). inversion Hb as [|? ? Hkb _]; subst.
  assert (∃ y, j_Arbitration e = Some y) as [y Ey] by (unfold arb_key in Ek; destruct (j_Arbitration e); [by eexists|done]).
  exists a, e, y, b. split_and!; [done..| |].
  - intros x Hx Ex. apply (Hab k); [apply list_elem_of_omap; eauto|by left].
  - intros x Hx Ex. apply Hkb, list_elem_of_omap. eauto.
Qed.

Lemma latest_cons k j q :
  latest k (j :: q) =
  match (if bool_decide (arb_key j = Some k) then j_Arbitration j else None) with Some x => Some x | None => latest k q end.
Proof. unfold latest. cbn. by destruct (if bool_decide _ then _ else _). Qed.
Lemma latest_app k a b : latest k (a ++ b) = match latest k a with Some x => Some x | None => latest k b end.
Proof.
  induction a as [|x a IH]; [done|]. cbn [app]. rewrite !latest_cons, IH. by destruct (if bool_decide _ then _ else _).
Qed.
Lemma latest_miss k q : (∀ x, x ∈ q → arb_key x ≠ Some k) → latest k q = None.
Proof.
  intros H. induction q as [|j q IH]; [done|]. rewrite latest_cons, bool_decide_false by (apply H; set_solver).
  apply IH. set_solver.
Qed.

(** What the update does to the queue. *)
Definition updated (job : publishJob) (symbol oid : string) (at' : Z) (q q' : list publishJob) : Prop :=
  (∃ y, latest (symbol, oid) q = Some y ∧ (at' <= aj_DecidedAt y)%Z ∧ q' = q) ∨
  ((∀ y, latest (symbol, oid) q = Some y → (aj_DecidedAt y < at')%Z) ∧
   ∃ a b, q' = a ++ job :: b ∧ (q = a ++ b ∨ ∃ e, q = a ++ e :: b ∧ arb_key e = Some (symbol, oid)) ∧
     (∀ x, x ∈ a → arb_key x ≠ Some (symbol, oid)) ∧ (∀ x, x ∈ b → arb_key x ≠ Some (symbol, oid))).

Lemma EnqueueArbitration_updated zero p eventID symbol oid decision at' d :
  NoDup (omap arb_key (l_Queue (p_ledger p))) →
  let p' := EnqueueArbitrationDecision zero p eventID symbol oid decision at' d in
  l_Records (p_ledger p') = l_Records (p_ledger p) ∧
  updated (arbitration_job zero eventID symbol oid decision at') symbol oid at' (l_Queue (p_ledger p)) (l_Queue (p_ledger p')).
Proof.
  intros Hnd. cbv zeta. unfold EnqueueArbitrationDecision. set (job := arbitration_job _ _ _ _ _ _).
  destruct (first_key (symbol, oid) _ Hnd) as [Hn|(a & e & y & b & Eq & Ey & Ek & Ha & Hb)].
  - rewrite coalesce_miss by done. cbn [p_ledger notified]. rewrite save_ledger. split; [done|]. right.
    rewrite latest_miss by done. split; [done|]. eexists (l_Queue (p_ledger p)), []. split_and!; [done|left; by rewrite app_nil_r|done|].
    by intros x Hx%elem_of_nil.
  - rewrite Eq, coalesce_app, (coalesce_hit _ _ _ _ e y) by done.
    assert (El : latest (symbol, oid) (a ++ e :: b) = Some y)
      by (rewrite latest_app, latest_miss, latest_cons, bool_decide_true, Ey by done; done).
    destruct (Z.leb_spec at' (aj_DecidedAt y)); cbn [fst snd].
    + split; [done|]. left. exists y. by split_and!.
    + cbn [p_ledger notified]. rewrite save_ledger. split; [done|]. right. rewrite El. split; [by intros ? [= <-]|].
      exists a, b. split_and!; [done|right; by exists e|done|done].
Qed.

(** * Lemmas: progress *)

Lemma save_ok_client p : p_client (save p DiskOk).1 = p_client p ∧ (save p DiskOk).2 = true.
Proof. unfold save. by destruct (bool_decide _). Qed.

Lemma ack_queue s j d :
  sys_ok s → phase_job (sys_run s) = Some j → j ∈ l_Queue (p_ledger (sys_pub s)) →
  ∃ a b, l_Queue (p_ledger (sys_pub s)) = a ++ j :: b ∧ l_Queue (p_ledger (ackFront (sys_pub s) j d)) = a ++ b.
Proof.
  intros [] Hpj Hin. unfold ackFront. destruct (list_find _ _) as [[i x]|] eqn:E.
  - apply list_find_Some in E as (Hi & Hid & _). apply list_elem_of_split_length in Hi as (a & b & Eq & ->).
    assert (x = j) as -> by (destruct (ok_id0 j Hpj) as [H _]; apply H; [rewrite Eq; set_solver|done]).
    exists a, b. split; [done|]. rewrite save_ledger. cbn. by rewrite Eq, drop_at.
  - apply list_find_None in E. rewrite Forall_forall in E. by apply E in Hin.
Qed.

(** With the broker and the disk answering, one turn of [Run] delivers and removes one job. *)
Lemma one_turn s :
  sys_ok s → sys_run s = Loop → p_client (sys_pub s) = true → l_Queue (p_ledger (sys_pub s)) ≠ [] →
  ∃ s' a j b, rtc run_step s s' ∧ sys_run s' = Loop ∧ p_client (sys_pub s') = true ∧
    l_Queue (p_ledger (sys_pub s)) = a ++ j :: b ∧ l_Queue (p_ledger (sys_pub s')) = a ++ b ∧
    sys_log s' = sys_log s ++ option_list (message_of j).
Proof.
  intros Hs Hr Hc Hq. pose proof (peek_spec (sys_pub s)) as Hp. pose proof (step_peek s Hr) as S1.
  destruct (peek (sys_pub s)) as [j|]; [|done]. destruct Hp as [Hin _].
  set (s1 := mkSystem (sys_pub s) (Peeked j) (sys_log s) (sys_dropped s)) in S1.
  destruct (save (sys_pub s) DiskOk) as [p2 ok2] eqn:E2.
  destruct (save_ok_client (sys_pub s)) as [C2 O2]. pose proof (save_ledger (sys_pub s) DiskOk) as L2.
  rewrite E2 in C2, O2, L2. cbn [fst snd] in *. subst ok2.
  assert (S2 : run_step s1 (mkSystem p2 (Persisted j) (sys_log s) (sys_dropped s))) by (by apply (step_persist s1 j DiskOk p2 true)).
  set (s2 := mkSystem p2 (Persisted j) (sys_log s) (sys_dropped s)) in S2.
  assert (S3 : run_step s2 (mkSystem p2 (Sent j) (sys_log s ++ option_list (message_of j)) (sys_dropped s))).
  { apply (step_publish s2 j true false true); [done|]. cbn [sys_pub s2]. rewrite C2, Hc. unfold publishOne. cbn.
    by destruct (message_of j). }
  set (s3 := mkSystem p2 (Sent j) (sys_log s ++ option_list (message_of j)) (sys_dropped s)) in S3.
  pose proof (step_ack s3 j DiskOk eq_refl) as S4.
  assert (H3 : sys_ok s3) by (eapply run_sys_ok; [exact S3|]; eapply run_sys_ok; [exact S2|]; by eapply run_sys_ok).
  destruct (ack_queue s3 j DiskOk H3 eq_refl) as (a & b & Ea & Eb); [cbn; by rewrite L2|].
  exists (mkSystem (ackFront p2 j DiskOk) Loop (sys_log s3) (sys_dropped s)), a, j, b. split_and!; [|done| | |exact Eb|done].
  - eapply rtc_l; [exact S1|]. eapply rtc_l; [exact S2|]. eapply rtc_l; [exact S3|]. by eapply rtc_once.
  - cbn [sys_pub]. unfold ackFront. destruct (list_find _ _) as [[i x]|]; [|cbn; by rewrite C2].
    rewrite (proj1 (save_ok_client _)). cbn. by rewrite C2.
  - cbn in Ea. by rewrite <- L2.
Qed.

Lemma rtc_log s s' : rtc run_step s s' → ∀ m, m ∈ sys_log s → m ∈ sys_log s'.
Proof.
  induction 1 as [|s1 s2 s3 Hst _ IH]; [done|]. intros m Hm. apply IH. destruct Hst; cbn [sys_log]; try done. set_solver.
Qed.
Lemma drain_loop n s :
  sys_ok s → sys_run s = Loop → p_client (sys_pub s) = true → n = length (l_Queue (p_ledger (sys_pub s))) →
  ∃ s', rtc run_step s s' ∧ l_Queue (p_ledger (sys_pub s')) = [] ∧
    ∀ j m, j ∈ l_Queue (p_ledger (sys_pub s)) → message_of j = Some m → m ∈ sys_log s'.
Proof.
  revert s. induction n as [|n IH]; intros s Hs Hr Hc En.
  { destruct (l_Queue (p_ledger (sys_pub s))) eqn:E; [|done]. exists s. split_and!; [done..|]. by intros j m Hj%elem_of_nil. }
  destruct (one_turn s Hs Hr Hc) as (s1 & a & j & b & R1 & Hr1 & Hc1 & Ea & Eb & El);
    [by destruct (l_Queue (p_ledger (sys_pub s)))|].
  assert (Hs1 : sys_ok s1) by (clear -R1 Hs; induction R1; eauto using run_sys_ok).
  destruct (IH s1) as (s' & R' & E' & Hall); [done..| |].
  { rewrite Eb. rewrite Ea in En. rewrite length_app in *. cbn in En. lia. }
  exists s'. split_and!; [by etrans|done|]. intros x m Hx Em. rewrite Ea in Hx. rewrite Eb in Hall.
  apply elem_of_app in Hx as [Hx|[->|Hx]%elem_of_cons]; [apply (Hall x); [set_solver|done]| |apply (Hall x); [set_solver|done]].
  eapply rtc_log; [exact R'|]. rewrite El, Em. set_solver.
Qed.

(** * Theorems *)

(** [C1] No terminal event reaches the broker before a creation of its opportunity did: whatever the
    callers observe, live or in replay, in whatever order, with saves and sends that fail, and across
    crashes and restarts from the saved ledger. The one exception is an opportunity whose unsent creation the startup clean-up
    dropped as stale while its record, which the clean-up then keeps, held the terminal event back. *)
Theorem terminal_follows_creation s pre m post id :
  reachable s → sys_log s = pre ++ m :: post → terminal_of m = Some id → id ∈ created pre ∨ id ∈ sys_dropped s.
Proof. intros Hs%reachable_ok E Ht. pose proof (ok_log s Hs pre m post id E Ht). set_solver. Qed.

(** [C29] No creation is lost but by the startup clean-up: a record that says its creation is pending or published, in memory or
    in the saved ledger, has the creation job in its queue or the creation in the broker, and a terminal event held back by the
    ledger is that record's own, its creation being queued or delivered; the one exception is an opportunity whose creation the
    clean-up dropped as stale while its record, which the clean-up then keeps, held a terminal event back
    ([stale_cleanup_orphans_terminal] is such a run). *)
Theorem creation_not_lost s l id r :
  reachable s → l = p_ledger (sys_pub s) ∨ p_file (sys_pub s) = Some l → l_Records l !! id = Some r →
  (pr_Creation r ≠ publicationUnknown → pr_Creation r ≠ publicationSuppressed →
     (∃ j, j ∈ l_Queue l ∧ job_creation j = true ∧ job_id j = id) ∨ id ∈ created (sys_log s) ∨ id ∈ sys_dropped s) ∧
  (∀ j, pr_Deferred r = Some j → job_terminal j = true ∧ job_id j = id ∧
     ((∃ c, c ∈ l_Queue l ∧ job_creation c = true ∧ job_id c = id) ∨ id ∈ created (sys_log s) ∨ id ∈ sys_dropped s)).
Proof.
  intros Hs%reachable_ok Hl Hr. assert (Hok : ledger_ok (known s) l).
  { destruct Hl as [->|Hl]; [by apply ok_ledger|by apply (ok_file s Hs)]. }
  setoid_rewrite <- elem_of_creations. unfold known in Hok. split.
  - intros H1 H2. pose proof (lk_creation _ _ Hok id r Hr (conj H1 H2)). set_solver.
  - intros j Hj. destruct (lk_held _ _ Hok id j) as (? & ? & ?); [by exists r|]. split_and!; [done..|set_solver].
Qed.

(** Write-ahead: a lifecycle job about to be sent, or sent and not yet acknowledged, is in the queue
    of the saved ledger, so a crash at that point replays it. *)
Theorem write_ahead s j :
  reachable s → sys_run s = Persisted j ∨ sys_run s = Sent j → is_lifecycle j = true → p_path (sys_pub s) ≠ "" →
  ∃ f, p_file (sys_pub s) = Some f ∧ j ∈ l_Queue f ∧ j ∈ l_Queue (p_ledger (sys_pub s)).
Proof.
  intros Hs%reachable_ok Hr Hl Hp. destruct (ok_ahead s Hs j Hr Hl Hp) as (f & Hf & Hj). exists f. split_and!; [done..|].
  apply find_lifecycle_elem, (ok_front s Hs); [|done]. by destruct Hr as [->| ->].
Qed.

(** [C40] No lost wake-up: whenever the drain goroutine waits, a non-empty queue has its notification set, whatever the callers
    did since it last looked. So with the broker and the disk answering, the goroutine by itself, by steps of its own only,
    delivers everything queued and empties the queue. *)
Theorem outbox_drains s :
  reachable s →
  (sys_run s = Waiting → l_Queue (p_ledger (sys_pub s)) ≠ [] → p_notify (sys_pub s) = true) ∧
  (p_client (sys_pub s) = true → sys_run s = Loop ∨ sys_run s = Waiting →
   ∃ s', rtc run_step s s' ∧ l_Queue (p_ledger (sys_pub s')) = [] ∧
     ∀ j m, j ∈ l_Queue (p_ledger (sys_pub s)) → message_of j = Some m → m ∈ sys_log s').
Proof.
  intros Hs%reachable_ok. split; [by apply ok_wake|]. intros Hc Hr. destruct (decide (l_Queue (p_ledger (sys_pub s)) = [])) as [E|Hne].
  { exists s. split_and!; [done..|]. rewrite E. by intros j m Hj%elem_of_nil. }
  assert (∃ s0, rtc run_step s s0 ∧ sys_ok s0 ∧ sys_run s0 = Loop ∧ p_client (sys_pub s0) = true ∧
    l_Queue (p_ledger (sys_pub s0)) = l_Queue (p_ledger (sys_pub s)) ∧ sys_log s0 = sys_log s)
    as (s0 & R0 & Hs0 & Hr0 & Hc0 & <- & _).
  { destruct Hr as [Hr|Hr]; [by exists s|]. pose proof (step_wake s Hr (ok_wake s Hs Hr Hne)) as Hst.
    eexists. split_and!; [by eapply rtc_once|by eapply run_sys_ok|done..]. }
  destruct (drain_loop _ s0 Hs0 Hr0 Hc0 eq_refl) as (s' & R' & E' & Hall). exists s'. split_and!; [by etrans|done|done].
Qed.

(** Queued decisions are a newest-wins table: with one job per opportunity in the queue there is
    again one after an update, it holds the newer of the two decisions, the decisions on other
    opportunities, the lifecycle jobs, their order and the records are untouched. *)
Theorem arbitration_coalesced zero p eventID symbol oid decision at' d :
  NoDup (omap arb_key (l_Queue (p_ledger p))) →
  let q := l_Queue (p_ledger p) in
  let p' := EnqueueArbitrationDecision zero p eventID symbol oid decision at' d in
  let q' := l_Queue (p_ledger p') in
  NoDup (omap arb_key q') ∧
  latest (symbol, oid) q' =
    (match latest (symbol, oid) q with
     | Some y => if (at' <=? aj_DecidedAt y)%Z then Some y else Some (mkArbitrationJob oid decision at')
     | None => Some (mkArbitrationJob oid decision at')
     end) ∧
  (∀ k, k ≠ (symbol, oid) → latest k q' = latest k q) ∧
  List.filter is_lifecycle q' = List.filter is_lifecycle q ∧ l_Records (p_ledger p') = l_Records (p_ledger p).
Proof.
  intros Hnd q p' q'. destruct (EnqueueArbitration_updated zero p eventID symbol oid decision at' d Hnd) as [Hr Hu].
  fold p' q q' in Hr, Hu. set (job := arbitration_job zero eventID symbol oid decision at') in Hu.
  assert (Hj : arb_key job = Some (symbol, oid)) by done.
  destruct Hu as [(y & Hy & Hle & ->)|(Hlt & a & b & -> & Hq & Ha & Hb)].
  { rewrite Hy, (proj2 (Z.leb_le _ _) Hle). by split_and!. }
  assert (Hnew : latest (symbol, oid) (a ++ job :: b) = Some (mkArbitrationJob oid decision at'))
    by (by rewrite latest_app, latest_miss, latest_cons, bool_decide_true by done).
  assert (Hna : (symbol, oid) ∉ omap arb_key a) by (by intros (x & Hx & E)%list_elem_of_omap; apply (Ha x Hx)).
  assert (Hnb : (symbol, oid) ∉ omap arb_key b) by (by intros (x & Hx & E)%list_elem_of_omap; apply (Hb x Hx)).
  assert (Hab : omap arb_key a ++ omap arb_key b `sublist_of` omap arb_key q).
  { destruct Hq as [->|(e & -> & Ee)]; rewrite omap_app; [done|]. cbn. rewrite Ee.
    apply sublist_app; [done|by apply sublist_cons]. }
  split_and!; [| | | |done].
  - assert (E : omap arb_key (a ++ job :: b) = omap arb_key a ++ (symbol, oid) :: omap arb_key b) by (by rewrite omap_app).
    rewrite E, <- Permutation_middle.
    constructor; [set_solver|]. by eapply sublist_NoDup.
  - rewrite Hnew. destruct (latest (symbol, oid) q) as [y|]; [|done].
    by destruct (Z.leb_spec at' (aj_DecidedAt y)) as [H|_]; [specialize (Hlt y eq_refl); lia|].
  - intros k Hk. rewrite latest_app, latest_cons, Hj, bool_decide_false by congruence.
    destruct Hq as [->|(e & -> & Ee)]; rewrite latest_app, ?latest_cons, ?Ee; [done|]. by rewrite bool_decide_false by congruence.
  - assert (Hlife : ∀ e, arb_key e = Some (symbol, oid) → is_lifecycle e = false)
      by (intros e; unfold arb_key, is_lifecycle; by destruct (j_Arbitration e)).
    destruct Hq as [->|(e & -> & Ee)]; rewrite !List.filter_app; cbn [List.filter]; rewrite ?(Hlife e Ee); by rewrite (Hlife job Hj).
Qed.

(** Lifecycle events outrank decisions: an arbitration job is picked only when no lifecycle job is
    queued, and then it is the oldest; a lifecycle job is picked in queue order; nothing is picked only
    from an empty queue. *)
Lemma lifecycle_first p :
  match peek p with
  | None => l_Queue (p_ledger p) = []
  | Some j => ∃ a b, l_Queue (p_ledger p) = a ++ j :: b ∧ (∀ x, x ∈ a → is_lifecycle x = false) ∧
      (is_lifecycle j = false → a = [] ∧ ∀ x, x ∈ b → is_lifecycle x = false)
  end.
Proof.
  pose proof (peek_spec p) as H. destruct (peek p) as [j|]; [|done]. destruct H as [_ H]. destruct (is_lifecycle j) eqn:E.
  - destruct (front_split _ _ H) as (a & b & Eq & Ha). by exists a, b.
  - destruct H as [Hn Hh]. destruct (l_Queue (p_ledger p)) as [|j' q]; [done|]. injection Hh as ->.
    exists [], q. split_and!; [done|by intros x Hx%elem_of_nil|]. intros _. split; [done|]. intros x Hx. apply Hn. set_solver.
Qed.

(** * Witnesses *)

Definition fresh_b (s : System) (eventID : string) : bool :=
  forallb (λ j, negb (bool_decide (j_EventID j = eventID)))
    (l_Queue (p_ledger (sys_pub s)) ++ omap pr_Deferred (map_to_list (l_Records (p_ledger (sys_pub s)))).*2 ++
     option_list (phase_job (sys_run s))).
Lemma fresh_b_ok s eventID : fresh_b s eventID = true → fresh s eventID.
Proof.
  unfold fresh_b. rewrite forallb_forall. setoid_rewrite <- list_elem_of_In. intros H.
  assert (H' : ∀ j, j ∈ l_Queue (p_ledger (sys_pub s)) ++ omap pr_Deferred (map_to_list (l_Records (p_ledger (sys_pub s)))).*2 ++
     option_list (phase_job (sys_run s)) → j_EventID j ≠ eventID).
  { intros j Hj. specialize (H j Hj). by bools. }
  split_and!.
  - intros j Hj. apply H'. set_solver.
  - intros id r j Hr Hj. apply H'. apply elem_of_app. right. apply elem_of_app. left. apply list_elem_of_omap.
    exists r. split; [|done]. apply list_elem_of_fmap. exists (id, r). split; [done|]. by apply elem_of_map_to_list.
  - intros j Hj. apply H'. rewrite Hj. set_solver.
Qed.

Definition demo_created : Transition :=
  mkTransition TransitionCreated (mkRecord (demo_candidate "opp_1" "z1" Buy 0.5) StateCreated 100 None).
Definition demo_expired : Transition :=
  mkTransition TransitionExpired
    (mkRecord (demo_candidate "opp_1" "z1" Buy 0.5) StateExpired 100 (Some (mkTerminal ReasonSetupExpired 1000))).
Definition demo_algo : AlgorithmVersion := mkAlgorithm "v2" "v1".
Definition demo_job : publishJob := newPublishJob "e1" "XAU" demo_algo demo_created.

(** A creation observed live and sent; its expiry is observed before the acknowledgement. *)
Definition demo_0 : System := initial true "outbox.json".
Definition demo_1 : System := mkSystem (Observe (sys_pub demo_0) "e1" "XAU" demo_algo demo_created true DiskOk) Loop [] ∅.
Definition demo_2 : System := mkSystem (sys_pub demo_1) (Peeked demo_job) [] ∅.
Definition demo_3 : System := mkSystem (save (sys_pub demo_2) DiskOk).1 (Persisted demo_job) [] ∅.
Definition demo_4 : System := mkSystem (sys_pub demo_3) (Sent demo_job) (option_list (message_of demo_job)) ∅.
Definition demo_5 : System :=
  mkSystem (Observe (sys_pub demo_4) "e2" "XAU" demo_algo demo_expired true DiskFailed) (Sent demo_job) (sys_log demo_4) ∅.
Definition demo_6 : System := mkSystem (ackFront (sys_pub demo_5) demo_job DiskOk) Loop (sys_log demo_5) ∅.
Definition demo_terminal : publishJob := newPublishJob "e2" "XAU" demo_algo demo_expired.
Definition demo_7 : System := mkSystem (sys_pub demo_6) (Peeked demo_terminal) (sys_log demo_6) ∅.
Definition demo_8 : System := mkSystem (save (sys_pub demo_7) DiskOk).1 (Persisted demo_terminal) (sys_log demo_7) ∅.
Definition demo_9 : System :=
  mkSystem (sys_pub demo_8) (Sent demo_terminal) (sys_log demo_8 ++ option_list (message_of demo_terminal)) ∅.

Lemma demo_step_1 : step demo_0 demo_1.
Proof. apply (step_observe demo_0), fresh_b_ok. vm_compute. reflexivity. Qed.
Lemma demo_step_2 : step demo_1 demo_2.
Proof. exact (step_run _ _ (step_peek demo_1 eq_refl)). Qed.
Lemma demo_step_3 : step demo_2 demo_3.
Proof. apply step_run, (step_persist demo_2 demo_job DiskOk _ true); [reflexivity|]. vm_compute. reflexivity. Qed.
Lemma demo_step_4 : step demo_3 demo_4.
Proof. apply step_run, (step_publish demo_3 demo_job true false true); vm_compute; reflexivity. Qed.
Lemma demo_step_5 : step demo_4 demo_5.
Proof. apply (step_observe demo_4), fresh_b_ok. vm_compute. reflexivity. Qed.
Lemma demo_step_6 : step demo_5 demo_6.
Proof. exact (step_run _ _ (step_ack demo_5 demo_job DiskOk eq_refl)). Qed.
Lemma demo_step_7 : step demo_6 demo_7.
Proof. exact (step_run _ _ (step_peek demo_6 eq_refl)). Qed.
Lemma demo_step_8 : step demo_7 demo_8.
Proof. apply step_run, (step_persist demo_7 demo_terminal DiskOk _ true); [reflexivity|]. vm_compute. reflexivity. Qed.
Lemma demo_step_9 : step demo_8 demo_9.
Proof. apply step_run, (step_publish demo_8 demo_terminal true false true); vm_compute; reflexivity. Qed.
Lemma demo_reachable : reachable demo_1 ∧ reachable demo_5 ∧ reachable demo_9.
Proof.
  assert (R1 : rtc step demo_0 demo_1) by (apply rtc_once, demo_step_1).
  assert (R5 : rtc step demo_0 demo_5).
  { etrans; [exact R1|]. do 3 (eapply rtc_l; [first [exact demo_step_2|exact demo_step_3|exact demo_step_4]|]).
    apply rtc_once, demo_step_5. }
  assert (R9 : rtc step demo_0 demo_9).
  { etrans; [exact R5|]. do 3 (eapply rtc_l; [first [exact demo_step_6|exact demo_step_7|exact demo_step_8]|]).
    apply rtc_once, demo_step_9. }
  split_and!; by exists true, "outbox.json".
Qed.

Lemma terminal_follows_creation_witness :
  omap terminal_of (sys_log demo_9) = ["opp_1"] ∧ ("opp_1" ∈ created (take 1 (sys_log demo_9)) ∨ "opp_1" ∈ sys_dropped demo_9).
Proof.
  split; [vm_compute; reflexivity|].
  apply (terminal_follows_creation demo_9 (take 1 (sys_log demo_9))
    (PublishOpportunityInvalidated "e2" "opp_1" "XAU" "supply" ReasonSetupExpired 1000) [] "opp_1");
    [apply demo_reachable|vm_compute; reflexivity|reflexivity].
Defined.

Lemma creation_not_lost_witness :
  ∃ r, l_Records (p_ledger (sys_pub demo_1)) !! "opp_1" = Some r ∧
    ((∃ j, j ∈ l_Queue (p_ledger (sys_pub demo_1)) ∧ job_creation j = true ∧ job_id j = "opp_1") ∨
     "opp_1" ∈ created (sys_log demo_1) ∨ "opp_1" ∈ sys_dropped demo_1).
Proof.
  exists (mkPublication publicationPending publicationUnknown None). split; [vm_compute; reflexivity|].
  apply (proj1 (creation_not_lost demo_1 (p_ledger (sys_pub demo_1)) "opp_1"
    (mkPublication publicationPending publicationUnknown None) (proj1 demo_reachable) (or_introl eq_refl)
    ltac:(vm_compute; reflexivity))); discriminate.
Defined.

Lemma write_ahead_witness :
  ∃ f, p_file (sys_pub demo_5) = Some f ∧ demo_job ∈ l_Queue f ∧ demo_job ∈ l_Queue (p_ledger (sys_pub demo_5)).
Proof.
  apply (write_ahead demo_5 demo_job (proj1 (proj2 demo_reachable)) (or_intror eq_refl) eq_refl). vm_compute. discriminate.
Defined.

(** The goroutine waits when the creation is observed. *)
Definition demo_waiting : System := mkSystem (sys_pub demo_0) Waiting [] ∅.
Definition demo_woken : System :=
  mkSystem (Observe (sys_pub demo_waiting) "e1" "XAU" demo_algo demo_created true DiskOk) Waiting [] ∅.
Lemma demo_woken_reachable : reachable demo_woken.
Proof.
  exists true, "outbox.json". eapply rtc_l; [exact (step_run _ _ (step_peek demo_0 eq_refl))|]. apply rtc_once.
  apply (step_observe demo_waiting), fresh_b_ok. vm_compute. reflexivity.
Qed.
Lemma outbox_drains_witness :
  length (l_Queue (p_ledger (sys_pub demo_woken))) = 1 ∧ p_notify (sys_pub demo_woken) = true ∧
  ∃ s', rtc run_step demo_woken s' ∧ l_Queue (p_ledger (sys_pub s')) = [] ∧
    ∀ j m, j ∈ l_Queue (p_ledger (sys_pub demo_woken)) → message_of j = Some m → m ∈ sys_log s'.
Proof.
  destruct (outbox_drains demo_woken demo_woken_reachable) as [H1 H2].
  split; [vm_compute; reflexivity|]. split; [apply H1; [reflexivity|vm_compute; discriminate]|].
  exact (H2 eq_refl (or_intror eq_refl)).
Defined.

Definition demo_decision : Decision := mkDecision "opp_1" StatusWinner ReasonRankedSingleDirection [] "" [].
Lemma arbitration_coalesced_witness :
  let p := EnqueueArbitrationDecision demo_created (sys_pub demo_1) "e3" "XAU" "opp_1" zero_Decision 100 DiskOk in
  latest ("XAU", "opp_1")
    (l_Queue (p_ledger (EnqueueArbitrationDecision demo_created p "e4" "XAU" "opp_1" demo_decision 200 DiskOk))) =
  Some (mkArbitrationJob "opp_1" demo_decision 200).
Proof.
  intros p. destruct (arbitration_coalesced demo_created p "e4" "XAU" "opp_1" demo_decision 200 DiskOk) as (_ & H & _).
  - apply (bool_decide_unpack _). vm_compute. exact I.
  - rewrite H. vm_compute. reflexivity.
Defined.

(** The exception. A creation waits in the queue, its terminal event is
    observed in replay and deferred and the ledger flushed; after a restart the clean-up drops the
    creation job as stale but keeps the record, and the next live bar queues the terminal event of an opportunity nobody was told about. *)
Definition orphan_started : OpportunityPublisher :=
  let p := sys_pub demo_1 in
  let p := Flush (Observe p "e2" "XAU" demo_algo demo_expired false DiskOk) DiskOk in
  default p (NewDurableOpportunityPublisher true (p_path p) (Some <$> p_file p) DiskOk).
Definition orphan_sys : OpportunityPublisher :=
  ResumeLive sorted_keys (DiscardStaleLifecycleJobs orphan_started 5000 600 DiskOk).1 "XAU" DiskOk.
Example stale_cleanup_orphans_terminal :
  map (λ j, (job_id j, tr_Kind (j_Transition j))) (l_Queue (p_ledger orphan_sys)) = [("opp_1", TransitionExpired)] ∧
  omap (λ j, message_of j ≫= terminal_of) (l_Queue (p_ledger orphan_sys)) = ["opp_1"] ∧ sys_log demo_1 = [] ∧
  orphaned (p_ledger orphan_started) 5000 600 = {[ "opp_1" ]}.
Proof. split_and!; vm_compute; reflexivity. Qed.
