(* ===== verification/Registry.v ===== *)
(** Package strategy: the catalog, the registry of enabled strategies and their evaluation on one closed
    bar. A strategy is a record of its methods; what the registry reads of the market context is the
    class [ContextRead]. *)
From S2P Require Import Prelude Float64 Market Opportunity.
From Stdlib Require Import Floats.

(** * strategy.go, registry.go: data *)

(** What the registry reads of a market context: the symbol, and which timeframes are present (non-nil). *)
Class ContextRead (C : Type) := { ctx_Symbol : C → string; ctx_has : C → string → bool }.

Record StrategyConfig (P : Type) := mkStrategyConfig {
  sc_ID : string; sc_Version : string; sc_Enabled : bool; sc_Parameters : P
}.
Arguments mkStrategyConfig {P}. Arguments sc_ID {P}. Arguments sc_Version {P}.
Arguments sc_Enabled {P}. Arguments sc_Parameters {P}.
Record Refusal := mkRefusal { rf_Reason : string; rf_Timeframe : string }.
#[export] Instance Refusal_eq_dec : EqDecision Refusal.
Proof. solve_decision. Defined.
#[export] Instance Refusal_countable : Countable Refusal.
Proof.
  refine (inj_countable' (λ r, (rf_Reason r, rf_Timeframe r)) (λ p, mkRefusal p.1 p.2) _). by intros [].
Defined.

(** A list related to a non-empty one. *)
Lemma Forall2_cons_l {A B} (R : A → B → Prop) x l k : Forall2 R (x :: l) k ↔ ∃ y k', R x y ∧ Forall2 R l k' ∧ k = y :: k'.
Proof. split; [apply Forall2_cons_inv_l|]. intros (y & k' & ? & ? & ->). by constructor. Qed.

Section registry.
Context {C P : Type} `{!ContextRead C}.

(** The methods of a strategy. A reporter interface it implements is [Some]: what it has counted during
    the evaluation just done, which the registry drains. *)
Record Strategy := mkStrategy {
  st_ID : string; st_RequiredTimeframes : list string; st_Evaluate : C → list Candidate;
  st_TakeStopBudgetRefusals : option (C → Z); st_TakeUnsweptRefusals : option (C → Z);
  st_TakeRefusals : option (C → gmap Refusal Z)
}.
(** A factory returns a strategy, nil, or an error. *)
Definition Factory : Type := StrategyConfig P → result (option Strategy).
Record Evaluation := mkEvaluation {
  el_Candidates : list Candidate; el_Evaluated : list string; el_Deferred : list string;
  el_StopBudgetRefused : gmap string Z; el_UnsweptRefused : gmap string Z;
  el_Refusals : gmap string (gmap Refusal Z)
}.
Definition zero_Evaluation : Evaluation := mkEvaluation [] [] [] ∅ ∅ ∅.
Record registeredStrategy := mkRegistered {
  rs_strategy : Strategy; rs_config : StrategyConfig P; rs_required : gset string
}.
Definition Registry : Type := list registeredStrategy.

Definition knownIDs : list string :=
  ["key_level"; "confluence_zone"; "supply"; "demand"; "order_block"; "fvg"; "ifvg"; "crt"; "flip_zone"; "trendline";
   "break_retest"; "impulse_pullback"; "range_scalp"; "impulse_retrace"; "round_number"; "asia_range"; "shock_retest"].
Definition KnownIDs : list string := knownIDs.

(** * registry.go: configuration *)

(** The first loop of [ValidateConfigs]. *)
Fixpoint validate_loop (configs : list (StrategyConfig P)) (seen : gset string) : result (gset string) :=
  match configs with
  | [] => Ok seen
  | cfg :: rest =>
      if negb (bool_decide (sc_ID cfg ∈ knownIDs)) then Err "strategy: unknown configured strategy"
      else if bool_decide (sc_ID cfg ∈ seen) then Err "strategy: duplicate configuration"
      else if bool_decide (sc_Version cfg = "") then Err "strategy: requires a strategy version"
      else validate_loop rest ({[ sc_ID cfg ]} ∪ seen)
  end.
Definition ValidateConfigs (configs : list (StrategyConfig P)) : option string :=
  match validate_loop configs ∅ with
  | Err e => Some e
  | Ok seen =>
      match List.find (λ id, negb (bool_decide (id ∈ seen))) knownIDs with
      | Some _ => Some "strategy: missing required configuration"
      | None => None
      end
  end.
Fixpoint required_loop (timeframes : list string) (required : gset string) : result (gset string) :=
  match timeframes with
  | [] => Ok required
  | tf :: rest =>
      match Minutes tf with
      | None => Err "declares unrecognized timeframe"
      | Some _ =>
          if bool_decide (tf ∈ required) then Err "declares timeframe more than once"
          else required_loop rest ({[ tf ]} ∪ required)
      end
  end.
Definition requiredTimeframes (instance_ : Strategy) : result (gset string) :=
  match st_RequiredTimeframes instance_ with
  | [] => Err "requires at least one timeframe"
  | timeframes => required_loop timeframes ∅
  end.

Section build.
Context (factories : gmap string Factory).
(** One turn of [NewRegistry]'s loop over the catalog; [None] for a disabled entry. The copies made by
    cloneConfig are identities on immutable values. *)
Definition register_strategy (cfg : StrategyConfig P) : result (option registeredStrategy) :=
  if negb (sc_Enabled cfg) then Ok None
  else match factories !! sc_ID cfg with
  | None => Err "strategy: enabled but has no registered implementation"
  | Some factory =>
      match factory cfg with
      | Err e => Err "strategy: constructing"
      | Ok None => Err "strategy: factory returned nil"
      | Ok (Some instance_) =>
          if negb (bool_decide (st_ID instance_ = sc_ID cfg)) then Err "strategy: factory returned another strategy ID"
          else match requiredTimeframes instance_ with
          | Err e => Err e
          | Ok required => Ok (Some (mkRegistered instance_ cfg required))
          end
      end
  end.
Fixpoint registry_loop (byID : gmap string (StrategyConfig P)) (ids : list string) : result Registry :=
  match ids with
  | [] => Ok []
  | id :: rest =>
      match byID !! id with
      | None => registry_loop byID rest
      | Some cfg =>
          match register_strategy cfg with
          | Err e => Err e
          | Ok registered =>
              match registry_loop byID rest with
              | Err e => Err e
              | Ok r => Ok (match registered with None => r | Some x => x :: r end)
              end
          end
      end
  end.
Definition NewRegistry (configs : list (StrategyConfig P)) : result Registry :=
  match ValidateConfigs configs with
  | Some e => Err e
  | None => registry_loop (foldl (λ m cfg, <[sc_ID cfg := cfg]> m) ∅ configs) knownIDs
  end.
End build.
Definition EnabledIDs (r : Registry) : list string := map (λ x, sc_ID (rs_config x)) r.

(** * registry.go: evaluation *)

Definition hasRequiredTimeframes (ctx : C) (required : gset string) : bool :=
  forallb (ctx_has ctx) (elements required).
Definition validateCandidate (candidate : Candidate) (registered : registeredStrategy) (symbol : string) : option string :=
  if negb (bool_decide (ca_Strategy candidate = sc_ID (rs_config registered))) then Some "strategy: returned candidate for another strategy"
  else if negb (bool_decide (ca_StrategyVersion candidate = sc_Version (rs_config registered)))
  then Some "strategy: returned candidate of another version"
  else if negb (bool_decide (ca_Symbol candidate = symbol)) then Some "strategy: returned candidate for another symbol"
  else match Validate candidate with Some _ => Some "strategy: returned invalid candidate" | None => None end.
(** The inner loop: the candidates of one strategy, with the identifiers seen so far. *)
Fixpoint take_candidates (registered : registeredStrategy) (symbol : string) (candidates : list Candidate)
    (taken : list Candidate) (seen : gmap string string) : result (list Candidate * gmap string string) :=
  match candidates with
  | [] => Ok (taken, seen)
  | candidate :: rest =>
      match validateCandidate candidate registered symbol with
      | Some e => Err e
      | None =>
          match seen !! ca_ID candidate with
          | Some _ => Err "strategy: duplicate candidate ID in one evaluation"
          | None => take_candidates registered symbol rest (taken ++ [candidate])
              (<[ca_ID candidate := sc_ID (rs_config registered)]> seen)
          end
      end
  end.
(** A counter is recorded under the strategy when it is positive. *)
Definition count (report : option (C → Z)) (ctx : C) (id : string) (counts : gmap string Z) : gmap string Z :=
  match report with
  | None => counts
  | Some take => if (0 <? take ctx)%Z then <[id := (default 0 (counts !! id) + take ctx)%Z]> counts else counts
  end.
Fixpoint evaluate_loop (ctx : C) (closed : string) (strategies : Registry) (result : Evaluation)
    (seen : gmap string string) : Prelude.result Evaluation :=
  match strategies with
  | [] => Ok result
  | registered :: rest =>
      let id := sc_ID (rs_config registered) in
      let s := rs_strategy registered in
      if negb (bool_decide (closed ∈ rs_required registered)) then evaluate_loop ctx closed rest result seen
      else if negb (hasRequiredTimeframes ctx (rs_required registered))
      then evaluate_loop ctx closed rest
        (mkEvaluation (el_Candidates result) (el_Evaluated result) (el_Deferred result ++ [id]) (el_StopBudgetRefused result)
          (el_UnsweptRefused result) (el_Refusals result)) seen
      else
        match take_candidates registered (ctx_Symbol ctx) (st_Evaluate s ctx) (el_Candidates result) seen with
        | Err e => Err e
        | Ok (candidates, seen) =>
            evaluate_loop ctx closed rest
              (mkEvaluation candidates (el_Evaluated result ++ [id]) (el_Deferred result)
                (count (st_TakeStopBudgetRefusals s) ctx id (el_StopBudgetRefused result))
                (count (st_TakeUnsweptRefusals s) ctx id (el_UnsweptRefused result))
                (match st_TakeRefusals s with
                 | None => el_Refusals result
                 | Some take => if bool_decide (take ctx = ∅) then el_Refusals result else <[id := take ctx]> (el_Refusals result)
                 end)) seen
        end
  end.
(** A nil registry and a nil context are [None]. *)
Definition Evaluate (r : option Registry) (ctx : option C) (closed : string) : Prelude.result Evaluation :=
  match r with
  | None => Err "strategy: nil registry"
  | Some strategies =>
      match ctx with
      | None => Err "strategy: nil market context"
      | Some ctx =>
          match Minutes closed with
          | None => Err "strategy: unrecognized closed timeframe"
          | Some _ => evaluate_loop ctx closed strategies zero_Evaluation ∅
          end
      end
  end.

(** * Lemmas *)

Lemma validate_loop_spec configs seen seen' :
  validate_loop configs seen = Ok seen' ↔
  Forall (λ c, (sc_ID c ∈ knownIDs) ∧ (sc_ID c ∉ seen) ∧ sc_Version c ≠ "") configs ∧ NoDup (map sc_ID configs) ∧
  seen' = (list_to_set (map sc_ID configs) ∪ seen).
Proof.
  revert seen. induction configs as [|c configs IH]; intros seen; cbn [validate_loop map list_to_set].
  { rewrite (left_id_L ∅ (∪)). split; [intros [= ->]; split_and!; [done|by constructor|done]|intros (_ & _ & ->); done]. }
  rewrite Forall_cons, NoDup_cons. do 3 (case_bool_decide; cbn [negb]; try (split; [done|]; naive_solver)).
  rewrite IH. split.
  - intros (Hf & Hnd & ->). split_and!; try done.
    + eapply Forall_impl; [exact Hf|]. intros x (? & ? & ?). set_solver.
    + intros (x & E & Hx)%list_elem_of_fmap. rewrite Forall_forall in Hf. destruct (Hf x Hx) as (_ & Hn & _). set_solver.
    + set_solver.
  - intros ((_ & Hf) & (Hni & Hnd) & ->). split_and!; [|done|set_solver].
    rewrite Forall_forall in *. intros x Hx. destruct (Hf x Hx) as (? & ? & ?). split_and!; [done| |done].
    intros [E%elem_of_singleton|?]%elem_of_union; [|done]. apply Hni. rewrite <- E. by apply list_elem_of_fmap_2.
Qed.

Lemma find_None_forallb {A} (f : A → bool) l : List.find f l = None ↔ Forall (λ x, f x = false) l.
Proof.
  induction l as [|x l IH]; cbn; [by rewrite Forall_nil|]. rewrite Forall_cons. destruct (f x); [naive_solver|].
  rewrite IH. naive_solver.
Qed.

Lemma ValidateConfigs_spec configs :
  ValidateConfigs configs = None ↔ map sc_ID configs ≡ₚ knownIDs ∧ Forall (λ c, sc_Version c ≠ "") configs.
Proof.
  assert (Hnd : NoDup knownIDs) by (apply (bool_decide_unpack _); vm_compute; exact I).
  unfold ValidateConfigs. split.
  - destruct (validate_loop configs ∅) as [seen|] eqn:E; [|done]. apply validate_loop_spec in E as (Hf & Hnd' & ->).
    destruct (List.find _ knownIDs) eqn:Ef; [done|]. intros _. apply find_None_forallb in Ef. split.
    + apply NoDup_Permutation; [done|done|]. intros id. split.
      * intros (c & -> & Hc)%list_elem_of_fmap. rewrite Forall_forall in Hf. by apply Hf.
      * intros Hid. rewrite Forall_forall in Ef. specialize (Ef id Hid). bools. set_solver.
    + eapply Forall_impl; [exact Hf|]. by intros ? (_ & _ & ?).
  - intros [Hp Hv]. assert (E : validate_loop configs ∅ = Ok (list_to_set (map sc_ID configs) ∪ ∅)).
    { apply validate_loop_spec. split_and!; [|by rewrite Hp|done]. rewrite Forall_forall in *. intros c Hc.
      split_and!; [|set_solver|by apply Hv]. rewrite <- Hp. by apply list_elem_of_fmap_2. }
    rewrite E. destruct (List.find _ knownIDs) as [id|] eqn:Ef; [|done]. exfalso. apply List.find_some in Ef as [Hid Ef].
    bools. apply Ef. rewrite (right_id_L ∅ (∪)), elem_of_list_to_set, Hp. by apply list_elem_of_In.
Qed.

(** A configuration by its identifier, whatever the order of the list. *)
Lemma byID_lookup (configs : list (StrategyConfig P)) id cfg :
  NoDup (map sc_ID configs) →
  foldl (λ m cfg, <[sc_ID cfg := cfg]> m) (∅ : gmap string _) configs !! id = Some cfg ↔ cfg ∈ configs ∧ sc_ID cfg = id.
Proof.
  induction configs as [|c configs IH] using rev_ind; intros Hnd; [cbn; rewrite lookup_empty; set_solver|].
  rewrite map_app, NoDup_app in Hnd. destruct Hnd as (Hnd & Hni & _). specialize (IH Hnd). cbn in Hni.
  rewrite foldl_app. cbn [foldl]. destruct (decide (sc_ID c = id)) as [<-|Hne].
  - rewrite lookup_insert_eq. split; [intros [= ->]; set_solver|]. intros [[Hc|Hc]%elem_of_app E]; [|set_solver].
    exfalso. apply (Hni (sc_ID c)); [rewrite <- E; by apply list_elem_of_fmap_2|set_solver].
  - rewrite lookup_insert_ne by done. rewrite IH. set_solver.
Qed.

Definition registers (factories : gmap string Factory) (cfg : StrategyConfig P) (x : registeredStrategy) : Prop :=
  register_strategy factories cfg = Ok (Some x).
Definition in_catalog_order (byID : gmap string (StrategyConfig P)) (ids : list string) : list (StrategyConfig P) :=
  omap (λ id, byID !! id) ids.

Lemma register_strategy_enabled factories cfg x :
  register_strategy factories cfg = Ok x → match x with None => sc_Enabled cfg = false | Some x => sc_Enabled cfg = true ∧ rs_config x = cfg end.
Proof.
  unfold register_strategy. destruct (sc_Enabled cfg); cbn [negb]; [|by intros [= <-]].
  destruct (factories !! sc_ID cfg) as [f|]; [|done]. destruct (f cfg) as [[s|]|]; try done.
  destruct (negb _); [done|]. destruct (requiredTimeframes s); [|done]. by intros [= <-].
Qed.
Lemma register_strategy_disabled factories cfg : sc_Enabled cfg = false → register_strategy factories cfg = Ok None.
Proof. unfold register_strategy. by intros ->. Qed.

Lemma registry_loop_spec factories byID ids r :
  registry_loop factories byID ids = Ok r ↔
  Forall2 (registers factories) (List.filter sc_Enabled (in_catalog_order byID ids)) r.
Proof.
  revert r. induction ids as [|id ids IH]; intros r; cbn [registry_loop in_catalog_order omap list_omap].
  { cbn. split; [intros [= <-]; constructor|by inversion 1]. }
  destruct (byID !! id) as [cfg|]; [|apply IH]. cbn [List.filter].
  destruct (register_strategy factories cfg) as [[x|]|e] eqn:E.
  - destruct (register_strategy_enabled _ _ _ E) as [-> _]. rewrite Forall2_cons_l.
    destruct (registry_loop factories byID ids) as [r'|e'] eqn:E'.
    + split; [intros [= <-]; exists x, r'; split_and!; [done|by apply IH|done]|].
      intros (x' & r'' & Hx & Hr & ->). apply IH in Hr as [= ->]. unfold registers in Hx. rewrite E in Hx. by injection Hx as ->.
    + split; [done|]. intros (x' & r'' & _ & Hr & _). by apply IH in Hr.
  - pose proof (register_strategy_enabled _ _ _ E) as Hd. cbn in Hd. rewrite Hd. rewrite <- IH.
    destruct (registry_loop factories byID ids); naive_solver.
  - destruct (sc_Enabled cfg) eqn:Ee; [|by rewrite register_strategy_disabled in E]. rewrite Forall2_cons_l.
    split; [done|]. intros (x & r' & Hx & _). unfold registers in Hx. congruence.
Qed.

Lemma catalog_order configs :
  map sc_ID configs ≡ₚ knownIDs →
  let ordered := in_catalog_order (foldl (λ m cfg, <[sc_ID cfg := cfg]> m) ∅ configs) knownIDs in
  map sc_ID ordered = knownIDs ∧ ordered ≡ₚ configs.
Proof.
  intros Hp. assert (Hk : NoDup knownIDs) by (apply (bool_decide_unpack _); vm_compute; exact I).
  assert (Hnd : NoDup (map sc_ID configs)) by (by rewrite Hp). set (byID := foldl _ _ _). cbv zeta.
  assert (Hids : map sc_ID (in_catalog_order byID knownIDs) = knownIDs).
  { assert (Hall : Forall (λ id, ∃ cfg, byID !! id = Some cfg ∧ sc_ID cfg = id) knownIDs).
    { apply Forall_forall. intros id Hid. rewrite <- Hp in Hid. apply list_elem_of_fmap in Hid as (cfg & -> & Hc).
      exists cfg. split; [|done]. by apply byID_lookup. }
    clear -Hall. induction Hall as [|id ids (cfg & E & Ei) _ IH]; [done|]. unfold in_catalog_order in *. cbn [omap list_omap].
    rewrite E. cbn [map]. by rewrite Ei, IH. }
  split; [done|]. apply NoDup_Permutation.
  - apply (NoDup_fmap_1 sc_ID). change (NoDup (map sc_ID (in_catalog_order byID knownIDs))). by rewrite Hids.
  - by apply (NoDup_fmap_1 sc_ID).
  - intros cfg. unfold in_catalog_order. rewrite list_elem_of_omap. split.
    + intros (id & _ & E). by apply byID_lookup in E as [? _].
    + intros Hc. exists (sc_ID cfg). split; [rewrite <- Hp; by apply list_elem_of_fmap_2|by apply byID_lookup].
Qed.

(** ** Evaluation *)

Lemma take_candidates_spec registered symbol candidates taken seen taken' seen' :
  take_candidates registered symbol candidates taken seen = Ok (taken', seen') ↔
  Forall (λ c, validateCandidate c registered symbol = None ∧ seen !! ca_ID c = None) candidates ∧
  NoDup (map ca_ID candidates) ∧ taken' = taken ++ candidates ∧
  seen' = foldl (λ m c, <[ca_ID c := sc_ID (rs_config registered)]> m) seen candidates.
Proof.
  revert taken seen. induction candidates as [|c candidates IH]; intros taken seen; cbn [take_candidates map foldl].
  { rewrite app_nil_r, Forall_nil. split; [intros [= -> ->]; split_and!; try done; constructor|by intros (_ & _ & -> & ->)]. }
  rewrite Forall_cons, NoDup_cons. destruct (validateCandidate c registered symbol); [split; [done|]; naive_solver|].
  destruct (seen !! ca_ID c) eqn:Es; [split; [done|]; naive_solver|]. rewrite IH, <- app_assoc. cbn [app].
  assert (Hiff : Forall (λ x, validateCandidate x registered symbol = None ∧
      <[ca_ID c := sc_ID (rs_config registered)]> seen !! ca_ID x = None) candidates ↔
    Forall (λ x, validateCandidate x registered symbol = None ∧ seen !! ca_ID x = None) candidates ∧ ca_ID c ∉ map ca_ID candidates).
  { rewrite !Forall_forall. split.
    - intros Hf. split.
      + intros x Hx. destruct (Hf x Hx) as [? Hi]. apply lookup_insert_None in Hi as [? _]. done.
      + intros (x & E & Hx)%list_elem_of_fmap. destruct (Hf x Hx) as [_ Hi]. apply lookup_insert_None in Hi as [_ ?]. done.
    - intros [Hf Hn] x Hx. destruct (Hf x Hx). split; [done|]. apply lookup_insert_None. split; [done|].
      intros E. apply Hn. rewrite E. by apply list_elem_of_fmap_2. }
  rewrite Hiff. naive_solver.
Qed.

Definition ready (ctx : C) (closed : string) (x : registeredStrategy) : bool :=
  bool_decide (closed ∈ rs_required x) && hasRequiredTimeframes ctx (rs_required x).
Definition waiting (ctx : C) (closed : string) (x : registeredStrategy) : bool :=
  bool_decide (closed ∈ rs_required x) && negb (hasRequiredTimeframes ctx (rs_required x)).
Definition proposed (ctx : C) (rs : Registry) : list Candidate := flat_map (λ x, st_Evaluate (rs_strategy x) ctx) rs.
Definition refused (ctx : C) (m : gmap string (gmap Refusal Z)) (x : registeredStrategy) : gmap string (gmap Refusal Z) :=
  match st_TakeRefusals (rs_strategy x) with
  | None => m
  | Some take => if bool_decide (take ctx = ∅) then m else <[sc_ID (rs_config x) := take ctx]> m
  end.
(** The evaluation as it reads: what the ready strategies proposed, in catalog order. *)
Definition reference_Evaluation (ctx : C) (closed : string) (rs : Registry) (e : Evaluation) : Evaluation :=
  let run := List.filter (ready ctx closed) rs in
  mkEvaluation (el_Candidates e ++ proposed ctx run) (el_Evaluated e ++ EnabledIDs run)
    (el_Deferred e ++ EnabledIDs (List.filter (waiting ctx closed) rs))
    (foldl (λ m x, count (st_TakeStopBudgetRefusals (rs_strategy x)) ctx (sc_ID (rs_config x)) m) (el_StopBudgetRefused e) run)
    (foldl (λ m x, count (st_TakeUnsweptRefusals (rs_strategy x)) ctx (sc_ID (rs_config x)) m) (el_UnsweptRefused e) run)
    (foldl (refused ctx) (el_Refusals e) run).
(** No strategy misbehaves: each proposes valid candidates of its own, no identifier twice. *)
Definition well_behaved (ctx : C) (rs : Registry) : Prop :=
  Forall (λ x, Forall (λ c, validateCandidate c x (ctx_Symbol ctx) = None) (st_Evaluate (rs_strategy x) ctx)) rs ∧
  NoDup (map ca_ID (proposed ctx rs)).

Lemma seen_domain (id : string) candidates (seen : gmap string string) k :
  foldl (λ m c, <[ca_ID c := id]> m) seen candidates !! k = None ↔ seen !! k = None ∧ k ∉ map ca_ID candidates.
Proof.
  revert seen. induction candidates as [|c candidates IH]; intros seen; cbn [foldl map]; [set_solver|].
  rewrite IH, lookup_insert_None. set_solver.
Qed.

Lemma evaluate_loop_spec ctx closed rs e seen e' :
  evaluate_loop ctx closed rs e seen = Ok e' ↔
  let run := List.filter (ready ctx closed) rs in
  well_behaved ctx run ∧ Forall (λ c, seen !! ca_ID c = None) (proposed ctx run) ∧ e' = reference_Evaluation ctx closed rs e.
Proof.
  revert e seen. induction rs as [|x rs IH]; intros e seen; cbn [evaluate_loop]; cbv zeta.
  { unfold well_behaved, reference_Evaluation. cbn. rewrite !app_nil_r. destruct e. cbn.
    split; [intros [= <-]; repeat split; repeat constructor|by intros (_ & _ & ->)]. }
  assert (Er : ready ctx closed x = bool_decide (closed ∈ rs_required x) && hasRequiredTimeframes ctx (rs_required x)) by done.
  assert (Ew : waiting ctx closed x = bool_decide (closed ∈ rs_required x) && negb (hasRequiredTimeframes ctx (rs_required x))) by done.
  unfold reference_Evaluation. cbn [List.filter]. rewrite Er, Ew. clear Er Ew.
  destruct (bool_decide (closed ∈ rs_required x)); cbn [negb andb]; [|apply IH].
  destruct (hasRequiredTimeframes ctx (rs_required x)); cbn [negb].
  2:{ rewrite IH. unfold reference_Evaluation. cbn [el_Candidates el_Evaluated el_Deferred el_StopBudgetRefused el_UnsweptRefused el_Refusals EnabledIDs map].
      by rewrite <- !app_assoc. }
  set (run := List.filter (ready ctx closed) rs) in *. unfold well_behaved. rewrite Forall_cons.
  change (proposed ctx (x :: run)) with (st_Evaluate (rs_strategy x) ctx ++ proposed ctx run).
  destruct (take_candidates x (ctx_Symbol ctx) (st_Evaluate (rs_strategy x) ctx) (el_Candidates e) seen) as [[taken seen']|err] eqn:E.
  - apply take_candidates_spec in E as (Hf & Hnd & -> & ->). rewrite IH. unfold reference_Evaluation, well_behaved.
    cbn [el_Candidates el_Evaluated el_Deferred el_StopBudgetRefused el_UnsweptRefused el_Refusals EnabledIDs map foldl]. fold run.
    rewrite <- !app_assoc, map_app, Forall_app, NoDup_app. cbn [app]. setoid_rewrite seen_domain.
    rewrite !Forall_forall in *. split.
    + intros ((Hv & Hn) & Hs & ->). split_and!; try done.
      * intros c Hc. by apply Hf.
      * intros id (c & -> & Hc)%list_elem_of_fmap (c' & E & Hc')%list_elem_of_fmap. destruct (Hs c' Hc') as [_ Hni].
        apply Hni. rewrite <- E. by apply list_elem_of_fmap_2.
      * intros c Hc. by apply Hf.
      * intros c Hc. by apply Hs.
    + intros (((Hv & Hvs) & _ & Hdis & Hn) & (_ & Hs) & ->). split_and!; try done.
      intros c Hc. split; [by apply Hs|]. intros Hin. apply (Hdis (ca_ID c) Hin). by apply list_elem_of_fmap_2.
  - split; [done|]. intros ((Hv & Hn) & Hs & _). exfalso. rewrite map_app, NoDup_app in Hn. rewrite Forall_app in Hs.
    assert (∃ p, take_candidates x (ctx_Symbol ctx) (st_Evaluate (rs_strategy x) ctx) (el_Candidates e) seen = Ok p) as [p E'].
    { eexists (_, _). apply take_candidates_spec. split_and!; [|apply Hn|reflexivity|reflexivity].
      rewrite !Forall_forall in *. naive_solver. }
    by rewrite E' in E.
Qed.

Lemma registers_spec factories cfg x :
  sc_Enabled cfg = true →
  registers factories cfg x ↔
  ∃ factory s required, factories !! sc_ID cfg = Some factory ∧ factory cfg = Ok (Some s) ∧
    st_ID s = sc_ID cfg ∧ requiredTimeframes s = Ok required ∧ x = mkRegistered s cfg required.
Proof.
  intros Hen. unfold registers, register_strategy. rewrite Hen. cbn [negb]. split.
  - destruct (factories !! sc_ID cfg) as [f|]; [|done]. destruct (f cfg) as [[s|]|] eqn:Ef; try done.
    case_bool_decide; cbn [negb]; [|done]. destruct (requiredTimeframes s) as [req|] eqn:Er; [|done]. intros [= <-].
    by exists f, s, req.
  - intros (f & s & req & -> & -> & Hid & Hreq & ->). rewrite (bool_decide_true (st_ID s = sc_ID cfg)), Hreq by done. done.
Qed.
End registry.

Lemma Forall2_iff_in {A B} (R S : A → B → Prop) l k :
  (∀ x y, x ∈ l → R x y ↔ S x y) → Forall2 R l k ↔ Forall2 S l k.
Proof.
  revert k. induction l as [|x l IH]; intros k H; [split; inversion 1; constructor|].
  rewrite !Forall2_cons_l. setoid_rewrite (IH _ (λ x y Hx, H x y (list_elem_of_further _ _ _ Hx))).
  setoid_rewrite (H x _ (list_elem_of_here _ _)). done.
Qed.
(** Lists with the same elements and the same distinct keys in the same order are equal. *)
Lemma keyed_eq {A B} (f : A → B) l l' : l ≡ₚ l' → NoDup (map f l) → map f l = map f l' → l = l'.
Proof.
  intros Hp Hnd E. apply list_eq_same_length with (length l); [by rewrite Hp|done|].
  intros i x y _ Hx Hy. assert (Ex : map f l !! i = Some (f x)) by (rewrite list_lookup_fmap; by rewrite Hx).
  assert (Ey : map f l' !! i = Some (f y)) by (rewrite list_lookup_fmap; by rewrite Hy).
  rewrite <- E in Ey. assert (Hy' : y ∈ l) by (rewrite Hp; by eapply list_elem_of_lookup_2).
  apply list_elem_of_lookup_1 in Hy' as [j Hj]. assert (Ej : map f l !! j = Some (f y)) by (rewrite list_lookup_fmap; by rewrite Hj).
  pose proof (NoDup_lookup _ _ _ _ Hnd Ey Ej) as ->. congruence.
Qed.


(** * Theorems *)

(** Start-up is fail-closed and complete: a registry is built exactly when the configuration names
    every strategy of the catalog once, each with a version, and every enabled one has a factory that
    returns a strategy of that name with at least one timeframe, recognized and distinct; it then holds
    the enabled strategies in catalog order, however the configuration was ordered. *)
Theorem registry_built `{!ContextRead C} {P} (factories : gmap string (Factory (C := C) (P := P))) configs r :
  NewRegistry factories configs = Ok r ↔
  map sc_ID configs ≡ₚ knownIDs ∧ Forall (λ c, sc_Version c ≠ "") configs ∧
  ∃ ordered, ordered ≡ₚ configs ∧ map sc_ID ordered = knownIDs ∧
    Forall2 (λ cfg x, ∃ factory s required, factories !! sc_ID cfg = Some factory ∧ factory cfg = Ok (Some s) ∧
      st_ID s = sc_ID cfg ∧ requiredTimeframes s = Ok required ∧ x = mkRegistered s cfg required)
      (List.filter sc_Enabled ordered) r.
Proof.
  unfold NewRegistry. pose proof (ValidateConfigs_spec configs) as Hv. destruct (ValidateConfigs configs) as [e|].
  { split; [done|]. intros (Hp & Hf & _). discriminate (proj2 Hv (conj Hp Hf)). }
  destruct (proj1 Hv eq_refl) as [Hp Hf]. rewrite registry_loop_spec. destruct (catalog_order configs Hp) as [Ho1 Ho2].
  set (ordered := in_catalog_order _ _) in *.
  rewrite (Forall2_iff_in _ _ _ _ (λ cfg x Hx, registers_spec factories cfg x (proj2 (proj1 (filter_In _ _ _) (proj1 (list_elem_of_In _ _) Hx))))).
  split; [intros H2; split_and!; [done|done|by exists ordered]|]. intros (_ & _ & ordered' & Hp' & Hi' & H2).
  assert (Hnd : NoDup knownIDs) by (apply (bool_decide_unpack _); vm_compute; exact I).
  assert (ordered' = ordered) as <-; [|done].
  apply (keyed_eq sc_ID); [by rewrite Ho2|by rewrite Hi'|congruence].
Qed.

(** [C35] One closed bar: the evaluation fails exactly when the timeframe is unknown or a ready strategy
    misbehaves (a candidate of another strategy, version or symbol, an invalid one, or an identifier
    proposed twice); otherwise it is what the ready strategies proposed, complete and in catalog order.
    Ready are those that declared the closed timeframe and have all theirs in the context; those that
    declared it and wait for another are deferred. *)
Theorem evaluate_exact `{!ContextRead C} {P} (rs : Registry (C := C) (P := P)) (ctx : C) closed e :
  Evaluate (Some rs) (Some ctx) closed = Ok e ↔
  is_Some (Minutes closed) ∧ well_behaved ctx (List.filter (ready ctx closed) rs) ∧
  e = reference_Evaluation ctx closed rs zero_Evaluation.
Proof.
  unfold Evaluate. destruct (Minutes closed) as [m|]; [|split; [done|by intros [[] _]]].
  rewrite evaluate_loop_spec. cbv zeta. split.
  - intros (Hw & _ & ->). split_and!; [by eexists|done|done].
  - intros (_ & Hw & ->). split_and!; [done| |done]. by apply Forall_true.
Qed.

(** * Witness *)

(** A context with the timeframes it holds, and one strategy that proposes one setup on M5 bars. *)
Definition demo_read : ContextRead (string * gset string) := {| ctx_Symbol := fst; ctx_has := λ c tf, bool_decide (tf ∈ c.2) |}.
Definition demo_strategy (c : Candidate) : @Strategy (string * gset string) :=
  mkStrategy (ca_Strategy c) [tf_M5; tf_H1] (λ _, [c]) None None None.
Definition demo_configs : list (StrategyConfig unit) :=
  map (λ id, mkStrategyConfig id "v1" (bool_decide (id = "supply")) tt) (reverse knownIDs).
Definition demo_factories : gmap string (@Factory (string * gset string) unit) :=
  {[ "supply" := λ _, Ok (Some (demo_strategy (demo_candidate "opp_1" "" Sell 0.5))) ]}.
Example demo_registry :
  match NewRegistry demo_factories demo_configs with
  | Err _ => None
  | Ok r => Some (EnabledIDs r,
      match @Evaluate _ _ demo_read (Some r) (Some ("XAU", {[ tf_M5; tf_H1 ]})) tf_M5 with Ok e => map ca_ID (el_Candidates e) | Err _ => [] end,
      match @Evaluate _ _ demo_read (Some r) (Some ("XAU", {[ tf_M5 ]})) tf_M5 with Ok e => el_Deferred e | Err _ => [] end,
      is_ok (@Evaluate _ _ demo_read (Some r) (Some ("EURUSD", {[ tf_M5; tf_H1 ]})) tf_M5))
  end = Some (["supply"], ["opp_1"], ["supply"], false).
Proof. vm_compute. reflexivity. Qed.
