(* ===== verification/Policy.v ===== *)
(** Package engine: the policy facts attached to a candidate before it enters the book: momentum and
    structural bias of closed higher timeframes, the stop envelope, defended levels, the technical
    context. *)
From S2P Require Import Zone Session Fib Regime Mad.
From S2P Require Import Prelude Float64 Market MarketData Indicator Structure CandleEvidence Opportunity Momentum Context.
From Stdlib Require Import Floats.

(** * higher_timeframe.go *)

Definition momentumTailBars : nat := 64.
Definition momentumDirection (candles : list Candle) (cfg : MomentumConfig) : string :=
  let candles := if momentumTailBars <? length candles then drop (length candles - momentumTailBars) candles else candles in
  match mr_State (Classify candles None cfg) with Bull => Buy | Bear => Sell | Neutral => "" end.
(** The body of the loop over the higher timeframes; a missing and a nil frame are both absent. *)
Definition closed_bias (frames : gmap string TimeframeContext) (observedMinutes observedClose : Z) (cfg : MomentumConfig)
    (tf : string) : option HigherTimeframeBias :=
  let minutes := default 0%Z (Minutes tf) in
  if (minutes <=? observedMinutes)%Z then None
  else match frames !! tf with
  | None => None
  | Some frame =>
      match last (tc_Candles frame) with
      | None => None
      | Some latest =>
          let closeAt := wrap64 (c_Time latest + minutes * 60) in
          if (observedClose <? closeAt)%Z || (minutes * 120 <? wrap64 (observedClose - closeAt))%Z then None
          else
            let bias := DeriveBias (tc_Structure frame) in
            let '(direction, layer) :=
              if Direction_IsValid (bi_Direction bias) then (bi_Direction bias, StructureLayer_String (bi_Layer bias))
              else (momentumDirection (tc_Candles frame) cfg, "momentum") in
            if negb (Direction_IsValid direction) then None
            else Some (mkHigherTimeframeBias tf direction layer (c_Time latest))
      end
  end.
Definition ClosedHigherTimeframeBiases (ctx : MarketContext) (observedTF : string) (observedAt : Z)
    (cfg : MomentumConfig) : list HigherTimeframeBias :=
  match Minutes observedTF with
  | None => []
  | Some observedMinutes =>
      omap (closed_bias (mx_Timeframes ctx) observedMinutes (wrap64 (observedAt + observedMinutes * 60)) cfg) [tf_H1; tf_H4; tf_M15]
  end.

(** * stop_envelope.go *)

Inductive stopEnvelopeKind := stopEnvelopeTrend | stopEnvelopeReactionRoom | stopEnvelopeM1Scalp.
#[export] Instance stopEnvelopeKind_eq_dec : EqDecision stopEnvelopeKind.
Proof. solve_decision. Defined.
Definition strategyStopEnvelope : gmap string stopEnvelopeKind :=
  list_to_map [
    ("key_level", stopEnvelopeReactionRoom); ("confluence_zone", stopEnvelopeTrend); ("supply", stopEnvelopeTrend);
    ("demand", stopEnvelopeTrend); ("order_block", stopEnvelopeTrend); ("fvg", stopEnvelopeTrend);
    ("ifvg", stopEnvelopeTrend); ("crt", stopEnvelopeTrend); ("flip_zone", stopEnvelopeTrend);
    ("trendline", stopEnvelopeReactionRoom); ("break_retest", stopEnvelopeTrend);
    ("impulse_pullback", stopEnvelopeM1Scalp); ("range_scalp", stopEnvelopeM1Scalp);
    ("impulse_retrace", stopEnvelopeM1Scalp); ("round_number", stopEnvelopeTrend);
    ("asia_range", stopEnvelopeTrend); ("shock_retest", stopEnvelopeTrend)].
Record StopEnvelopeConfig := mkStopEnvelopeConfig {
  ReactionMinRR : float; ReactionMinPips : float; ReactionMaxPips : float; ReactionRoomFloorPips : float;
  ScalpMinPips : float; ScalpMaxPips : float; TrendMinPips : float; TrendMaxPips : float;
  InstrumentMinPips : float; InstrumentMaxPips : float; InstrumentConfigured : bool
}.
Definition primaryTargetPips (c : Candidate) (g : Market.Geometry) : float :=
  if (g_PipSize g <=? 0)%float then 0%float
  else
    let sell := bool_decide (ca_Direction c = Sell) in
    let proximal := if sell then en_Low (ca_Entry c) else en_High (ca_Entry c) in
    foldl (λ best target,
      let distance := if sell then (proximal - pl_Price target)%float else (pl_Price target - proximal)%float in
      if (distance <=? 0)%float then best
      else
        let pips := math_Round (PipsBetween g (proximal + distance) proximal) in
        if (pips >? best)%float then pips else best) 0%float (ca_Targets c).
(** The switch on the strategy's kind: floor, cap, minimum reward, source, whether pinned to the target. *)
Definition envelope_bounds (kind : stopEnvelopeKind) (cfg : StopEnvelopeConfig) : float * float * float * string * bool :=
  match kind with
  | stopEnvelopeReactionRoom =>
      let floorPips := math_Max (ReactionMinPips cfg) (ReactionRoomFloorPips cfg) in
      (floorPips, math_Max floorPips (math_Min (ReactionMaxPips cfg) (TrendMaxPips cfg)), ReactionMinRR cfg, "reaction_room", true)
  | stopEnvelopeM1Scalp =>
      (ScalpMinPips cfg, math_Max (ScalpMinPips cfg) (ScalpMaxPips cfg), 1%float, "scalp_stop_envelope", true)
  | stopEnvelopeTrend => (TrendMinPips cfg, TrendMaxPips cfg, 0%float, "strategy_default", false)
  end.
Definition computeStopEnvelope (c : Candidate) (g : Market.Geometry) (cfg : StopEnvelopeConfig) : option StopEnvelope :=
  let kind := default stopEnvelopeTrend (strategyStopEnvelope !! ca_Strategy c) in
  let '(floorPips, capPips, minRR, source, pinToTarget) := envelope_bounds kind cfg in
  let '(floorPips, capPips) :=
    if InstrumentConfigured cfg && negb (bool_decide (kind = stopEnvelopeM1Scalp))
    then (InstrumentMinPips cfg, InstrumentMaxPips cfg) else (floorPips, capPips) in
  if (floorPips <=? 0)%float then None
  else
    let capPips := if (capPips <? floorPips)%float then floorPips else capPips in
    let desired :=
      if (pinToTarget : bool) then
        let primaryPips := primaryTargetPips c g in
        if (primaryPips >? 0)%float && (minRR >? 0)%float then
          let desired := math_Ceil (primaryPips / minRR) in
          if (desired >? floorPips)%float then desired else floorPips
        else floorPips
      else floorPips in
    let desired := if (desired >? capPips)%float then capPips else desired in
    Some (mkStopEnvelope floorPips capPips desired source).

(** * instrument_policy.go: defended levels *)

Definition level_distance (level : float) (e : EntryZone) : float :=
  if (level <? en_Low e)%float then (en_Low e - level)%float
  else if (level >? en_High e)%float then (level - en_High e)%float else 0%float.
(** The level that blocks, if any. *)
Definition BlockedByDefendedLevel (levels : list float) (buffer : float) (c : Candidate) : option float :=
  if bool_decide (ca_Direction c = Sell) || bool_decide (levels = []) || negb (buffer >? 0)%float then None
  else List.find (λ level, (level_distance level (ca_Entry c) <=? buffer + 1e-9)%float) levels.

(** * worker.go: the technical context *)

Definition madTechnicalContext (snapshot : Mad.Snapshot) (affinity : float) : MADContext :=
  let measured k := Mad.sn_Measured snapshot !! k in
  mkMADContext (Mad.sn_Version snapshot) (Mad.sn_Phase snapshot) (Mad.sn_Confidence snapshot) affinity
    (if bool_decide (Mad.sn_ManipulationDirection snapshot = "") then Mad.sn_ExpansionDirection snapshot
     else Mad.sn_ManipulationDirection snapshot)
    (Mad.sn_SweepSide snapshot) (Mad.sn_Reclaim snapshot) (Mad.sn_RangeQualityATR snapshot) (measured "break_distance_atr")
    (measured "displacement_atr") (f64_to_int64 <$> measured "accepted_closes") (measured "sweep_penetration_atr")
    (measured "reclaim_depth_atr") (Mad.sn_ReasonCode snapshot).
(** [u] are the Unicode tables of the affinity's labels, [bars] the retained bars of the event's timeframe and [atrSeries]
    their ATR. *)
Definition technicalContext (u : Unicode) (ctx : MarketContext) (atrSeries : list float) (bars : list Candle) (event : BarEvent)
    (strategyID direction : string) (entryLow entryHigh : float) (reaction : option ReactionConfirmation)
    (cfg : MomentumConfig) (candleCfg : CandleEvidence.Config) : option TechnicalContext :=
  match last atrSeries with
  | None => None
  | Some atr =>
      if negb (atr >? 0)%float || negb (c_Close (be_Candle event) >? 0)%float then None
      else
        let mad :=
          if (Mad.sn_Version (mx_MAD ctx) >? 0)%Z && negb (bool_decide (Mad.sn_Phase (mx_MAD ctx) = ""))
          then Some (madTechnicalContext (mx_MAD ctx) (Mad.af_Final (Mad.Affinity u (mx_MAD ctx) direction strategyID)))
          else None in
        let bias := mx_Bias ctx in
        let '(biasDirection, biasLayer) :=
          if Direction_IsValid (bi_Direction bias) then (bi_Direction bias, StructureLayer_String (bi_Layer bias)) else ("", "") in
        let evidence :=
          if bool_decide (bars = []) then None
          else EvaluateWithConfig bars direction atr (if bool_decide (direction = Buy) then entryLow else entryHigh)
            (Some entryLow) (Some entryHigh) candleCfg in
        Some (mkTechnical atr (c_Close (be_Candle event)) (c_Time (be_Candle event)) biasDirection biasLayer
          (ClosedHigherTimeframeBiases ctx (be_Timeframe event) (c_Time (be_Candle event)) cfg)
          reaction evidence mad None)
  end.

(** The candidate with its technical context and stop envelope attached. *)
Definition with_technical (c : Candidate) (t : option TechnicalContext) (e : option StopEnvelope) : Candidate :=
  mkCandidate (ca_ID c) (ca_Strategy c) (ca_StrategyVersion c) (ca_Symbol c) (ca_ObservedTimeframe c)
    (ca_StructureTimeframe c) (ca_Structure c) (ca_Direction c) (ca_StructuralID c) (ca_Entry c) (ca_Invalidation c)
    (ca_Targets c) (ca_Evidence c) (ca_Quality c) (ca_FormedAt c) (ca_CreatedAt c) (ca_ExpiresAt c) (ca_Provenance c)
    t (ca_Reaction c) (ca_DetectorConfluence c) e.

(** * Lemmas *)

Lemma Minutes_bound tf m : Minutes tf = Some m → (1 <= m <= 1440)%Z.
Proof.
  unfold Minutes, minutesByTimeframe. intros H%elem_of_list_to_map_2.
  repeat (apply elem_of_cons in H as [[= _ ->]|H]; [lia|]). by apply elem_of_nil in H.
Qed.

Definition bias_ok (createdAt : Z) (h : HigherTimeframeBias) : Prop :=
  hb_Timeframe h ∈ [tf_H1; tf_H4; tf_M15] ∧ Direction_IsValid (hb_Direction h) = true ∧ hb_Layer h ≠ "" ∧
  (0 <= hb_ReferenceTime h <= createdAt)%Z.
Lemma higher_error_ok createdAt seen hs :
  Forall (bias_ok createdAt) hs → NoDup (map hb_Timeframe hs) → (∀ h, h ∈ hs → hb_Timeframe h ∉ seen) →
  higher_error createdAt seen hs = None.
Proof.
  intros Hok. revert seen. induction Hok as [|h hs (Htf & Hd & Hl & Ht) Hok IH]; intros seen Hnd Hseen; [done|].
  cbn [map] in Hnd. inversion Hnd as [|? ? Hni Hnd']; subst. cbn [higher_error].
  assert (E : negb (bool_decide (hb_Timeframe h = tf_M15)) && negb (bool_decide (hb_Timeframe h = tf_H1)) &&
    negb (bool_decide (hb_Timeframe h = tf_H4)) = false).
  { repeat (apply elem_of_cons in Htf as [->|Htf]; [done|]). by apply elem_of_nil in Htf. }
  rewrite E, (bool_decide_false (_ ∈ seen)) by (apply Hseen; set_solver). rewrite Hd, bool_decide_false by done.
  destruct (Z.ltb_spec (hb_ReferenceTime h) 0), (Z.ltb_spec createdAt (hb_ReferenceTime h)); try lia. cbn [negb orb].
  apply IH; [done|]. intros h' Hh' [Ei|Ei]%elem_of_cons.
  - apply Hni. rewrite <- Ei. by apply list_elem_of_fmap_2.
  - apply (Hseen h'); set_solver.
Qed.


(** Times of a feed: positive and far from the end of the clock. *)
Definition time_ok (t : Z) : Prop := (0 < t < 2 ^ 62)%Z.
Definition frames_ok (frames : gmap string TimeframeContext) : Prop :=
  map_Forall (λ _ f, Forall (λ c, time_ok (c_Time c)) (tc_Candles f)) frames.

Lemma closed_bias_Some frames om observedAt cfg tf h :
  frames_ok frames → (1 <= om <= 1440)%Z → time_ok observedAt →
  closed_bias frames om (wrap64 (observedAt + om * 60)) cfg tf = Some h →
  hb_Timeframe h = tf ∧ Direction_IsValid (hb_Direction h) = true ∧ hb_Layer h ≠ "" ∧ (0 < hb_ReferenceTime h)%Z ∧
  ∃ m, Minutes tf = Some m ∧ (om < m)%Z ∧
    (hb_ReferenceTime h + m * 60 <= observedAt + om * 60 <= hb_ReferenceTime h + m * 180)%Z.
Proof.
  intros Hf Hom Hat. unfold closed_bias. destruct (Minutes tf) as [m|] eqn:Em; cbn [default id].
  2:{ destruct (Z.leb_spec 0 om); [done|lia]. }
  pose proof (Minutes_bound tf m Em). destruct (Z.leb_spec m om); [done|].
  destruct (frames !! tf) as [f|] eqn:Ef; [|done]. destruct (last (tc_Candles f)) as [latest|] eqn:El; [|done].
  assert (Ht : time_ok (c_Time latest)).
  { pose proof (Hf tf f Ef) as Hall. rewrite Forall_forall in Hall. apply Hall. by eapply last_Some_elem_of. }
  unfold time_ok in *. rewrite !wrap64_id by (unfold in_int64; rewrite ?wrap64_id by (unfold in_int64; lia); lia).
  destruct (Z.ltb_spec (observedAt + om * 60) (c_Time latest + m * 60)); [done|].
  destruct (Z.ltb_spec (m * 120) (observedAt + om * 60 - (c_Time latest + m * 60))); [done|]. cbn [orb].
  destruct (Direction_IsValid (bi_Direction (DeriveBias (tc_Structure f)))) eqn:Ev.
  - rewrite Ev. cbn [negb]. intros [= <-]. cbn. split_and!; [done|done|apply layer_named|lia|]. exists m. split_and!; [done|lia..].
  - destruct (Direction_IsValid (momentumDirection _ _)) eqn:Ev'; [|done]. intros [= <-]. cbn.
    split_and!; [done|done|done|lia|]. exists m. split_and!; [done|lia..].
Qed.

Lemma closed_biases ctx observedTF observedAt cfg :
  frames_ok (mx_Timeframes ctx) → time_ok observedAt →
  Forall (bias_ok observedAt) (ClosedHigherTimeframeBiases ctx observedTF observedAt cfg) ∧
  NoDup (map hb_Timeframe (ClosedHigherTimeframeBiases ctx observedTF observedAt cfg)).
Proof.
  intros Hf Hat. unfold ClosedHigherTimeframeBiases. destruct (Minutes observedTF) as [om|] eqn:Em; [|by repeat constructor].
  pose proof (Minutes_bound _ _ Em) as Hom.
  set (frames := mx_Timeframes ctx) in *.
  assert (H : ∀ l, Forall (bias_ok observedAt) (omap (closed_bias frames om (wrap64 (observedAt + om * 60)) cfg) l) ∨
    ¬ (∀ tf, tf ∈ l → tf ∈ [tf_H1; tf_H4; tf_M15])).
  { intros l. destruct (decide (Forall (λ tf, tf ∈ [tf_H1; tf_H4; tf_M15]) l)) as [Hl|Hl].
    2:{ right. intros Hn. apply Hl, Forall_forall, Hn. }
    left. apply Forall_forall. intros h (tf & Htf & Eh)%list_elem_of_omap. rewrite Forall_forall in Hl.
    destruct (closed_bias_Some _ _ _ _ _ _ Hf Hom Hat Eh) as (Eq & Hd & Hly & Hp & m & Hm & Hlt & Hc).
    unfold bias_ok. rewrite Eq. split_and!; [by apply Hl|done|done|lia|lia]. }
  split.
  - destruct (H [tf_H1; tf_H4; tf_M15]) as [?|Hn]; [done|]. exfalso. apply Hn. auto.
  - eapply sublist_NoDup; [apply (bool_decide_unpack (NoDup [tf_H1; tf_H4; tf_M15])); vm_compute; exact I|].
    clear H. induction [tf_H1; tf_H4; tf_M15] as [|tf l IH]; [done|]. cbn [omap list_omap].
    destruct (closed_bias _ _ _ _ tf) as [h|] eqn:Eh; [|by apply sublist_cons].
    destruct (closed_bias_Some _ _ _ _ _ _ Hf Hom Hat Eh) as (Htf & _). cbn [map]. rewrite Htf. by apply sublist_skip.
Qed.

Lemma policy_finite_between x lo hi :
  finite lo = true → finite hi = true → IsNaN x = false → (key lo <= key x <= key hi)%Z → finite x = true.
Proof. rewrite !finite_key. intros [_ ?] [_ ?] ? ?. split; [done|lia]. Qed.
Lemma Max_finite_key x y : finite x = true → finite y = true → finite (math_Max x y) = true ∧ key (math_Max x y) = Z.max (key x) (key y).
Proof.
  intros Hx Hy. destruct (math_Max_spec x y Hx Hy) as [Hn Hk]. split; [|done]. rewrite finite_key in *. split; [done|lia].
Qed.
Lemma Min_finite_key x y : finite x = true → finite y = true → finite (math_Min x y) = true ∧ key (math_Min x y) = Z.min (key x) (key y).
Proof.
  intros Hx Hy. destruct (math_Min_spec x y Hx Hy) as [Hn Hk]. split; [|done]. rewrite finite_key in *. split; [done|lia].
Qed.

Definition stop_config_ok (cfg : StopEnvelopeConfig) : bool :=
  forallb finite [ReactionMinPips cfg; ReactionMaxPips cfg; ReactionRoomFloorPips cfg; ScalpMinPips cfg;
    ScalpMaxPips cfg; TrendMinPips cfg; TrendMaxPips cfg; InstrumentMinPips cfg; InstrumentMaxPips cfg].

(** The end of [computeStopEnvelope]: whatever the target asks for, the envelope stays ordered. *)
Lemma envelope_clamped (low high want : float) :
  finite low = true → finite high = true → (low <=? 0)%float = false →
  let high' := if (high <? low)%float then low else high in
  let want' := if (want >? low)%float then want else low in
  let desired := if (want' >? high')%float then high' else want' in
  finite high' = true ∧ finite desired = true ∧ (0 < key low)%Z ∧ key high' = Z.max (key low) (key high) ∧
  (key low <= key desired <= key high')%Z.
Proof.
  intros Hl Hh Hp. pose proof (finite_num _ Hl). pose proof (finite_num _ Hh).
  rewrite leb_num in Hp by done. change (key 0) with 0%Z in Hp. rewrite Z.leb_gt in Hp. cbv zeta.
  assert (Hhigh : ∃ h, (if (high <? low)%float then low else high) = h ∧ finite h = true ∧ key h = Z.max (key low) (key high)).
  { rewrite ltb_num by done. destruct (Z.ltb_spec (key high) (key low)); eexists; (split; [done|]); split; try done; lia. }
  destruct Hhigh as (h & -> & Hfh & Hkh). pose proof (finite_num _ Hfh).
  destruct (want >? low)%float eqn:Ew.
  - assert (Hn : IsNaN want = false) by (rewrite ltb_key in Ew; destruct (IsNaN want); [by rewrite andb_false_r in Ew|done]).
    rewrite ltb_num in Ew by done. rewrite ltb_num by done.
    destruct (Z.ltb_spec (key h) (key want)); [split_and!; try done; lia|].
    assert (finite want = true) by (apply (policy_finite_between want low h); [done..|lia]). split_and!; try done; lia.
  - rewrite ltb_num by done. destruct (Z.ltb_spec (key h) (key low)); split_and!; try done; lia.
Qed.

Lemma envelope_bounds_finite kind cfg :
  stop_config_ok cfg = true →
  let '(low, high, _, source, _) := envelope_bounds kind cfg in finite low = true ∧ finite high = true ∧ source ≠ "".
Proof.
  unfold stop_config_ok. cbn [forallb]. intros H. bools. destruct kind; cbn [envelope_bounds].
  - done.
  - destruct (Max_finite_key (ReactionMinPips cfg) (ReactionRoomFloorPips cfg)) as [? _]; [done..|].
    destruct (Min_finite_key (ReactionMaxPips cfg) (TrendMaxPips cfg)) as [? _]; [done..|].
    split_and!; [done|by apply Max_finite_key|done].
  - split_and!; [done|by apply Max_finite_key|done].
Qed.

Lemma computeStopEnvelope_shape c g cfg e :
  stop_config_ok cfg = true → computeStopEnvelope c g cfg = Some e →
  finite (se_FloorPips e) = true ∧ finite (se_CapPips e) = true ∧ finite (se_DesiredMinimumPips e) = true ∧
  se_Source e ≠ "" ∧ (0 < key (se_FloorPips e))%Z ∧
  (key (se_FloorPips e) <= key (se_DesiredMinimumPips e) <= key (se_CapPips e))%Z ∧
  (InstrumentConfigured cfg = true → default stopEnvelopeTrend (strategyStopEnvelope !! ca_Strategy c) ≠ stopEnvelopeM1Scalp →
    se_FloorPips e = InstrumentMinPips cfg ∧ key (se_CapPips e) = Z.max (key (InstrumentMinPips cfg)) (key (InstrumentMaxPips cfg))).
Proof.
  intros Hcfg. unfold computeStopEnvelope. set (kind := default _ _).
  pose proof (envelope_bounds_finite kind cfg Hcfg) as Hb.
  destruct (envelope_bounds kind cfg) as [[[[low0 high0] minRR] source] pin]. destruct Hb as (Hl0 & Hh0 & Hsrc).
  assert (HI : finite (InstrumentMinPips cfg) = true ∧ finite (InstrumentMaxPips cfg) = true)
    by (unfold stop_config_ok in Hcfg; cbn [forallb] in Hcfg; by bools).
  destruct (if InstrumentConfigured cfg && _ then _ else _) as [low high] eqn:Elh.
  assert (Hlh : finite low = true ∧ finite high = true ∧
    (InstrumentConfigured cfg = true → kind ≠ stopEnvelopeM1Scalp → low = InstrumentMinPips cfg ∧ high = InstrumentMaxPips cfg)).
  { destruct (InstrumentConfigured cfg); cbn [andb] in Elh; [|injection Elh as <- <-; done].
    case_bool_decide; cbn [negb] in Elh; injection Elh as <- <-; [done|]. destruct HI. done. }
  destruct Hlh as (Hl & Hh & Hinst). destruct (low <=? 0)%float eqn:Hp; [done|].
  assert (Hself : (low <? low)%float = false) by (rewrite ltb_num by (by apply finite_num); lia).
  assert (Hshape : ∃ want, (if pin : bool then
      if (primaryTargetPips c g >? 0)%float && (minRR >? 0)%float then
        if (math_Ceil (primaryTargetPips c g / minRR) >? low)%float then math_Ceil (primaryTargetPips c g / minRR) else low
      else low else low) = (if (want >? low)%float then want else low)).
  { destruct pin; [destruct ((0 <? primaryTargetPips c g)%float && (0 <? minRR)%float)|]; [by exists (math_Ceil (primaryTargetPips c g / minRR))|exists low; by rewrite Hself..]. }
  destruct Hshape as [want Ew]. cbv zeta. rewrite Ew. intros [= <-]. cbn [se_FloorPips se_CapPips se_DesiredMinimumPips se_Source].
  destruct (envelope_clamped low high want Hl Hh Hp) as (H1 & H2 & H3 & H4 & H5). split_and!; try done; try lia.
  intros Hc Hk. destruct (Hinst Hc Hk) as [<- <-]. done.
Qed.

(** * Theorems *)

(** The technical context the worker attaches always meets the candidate contract: for a valid
    closed bar and a finite ATR series, the context passes [Validate]'s checks for a candidate created
    at that bar. In particular its higher-timeframe reads are of distinct timeframes above the bar's own
    and only of bars already closed. *)
Theorem technical_context_contract u ctx atrSeries bars event strategyID direction low high reaction cfg candleCfg c t :
  ValidateCandle (be_Candle event) = None → time_ok (c_Time (be_Candle event)) → frames_ok (mx_Timeframes ctx) →
  Forall (λ v, finite v = true) atrSeries →
  Direction_IsValid (bi_Direction (mx_Bias ctx)) = true ∨ bi_Direction (mx_Bias ctx) = "" →
  technicalContext u ctx atrSeries bars event strategyID direction low high reaction cfg candleCfg = Some t →
  ca_Technical c = Some t → ca_CreatedAt c = c_Time (be_Candle event) →
  technical_error c = None ∧
  ∀ h, h ∈ t_HigherTimeframes t → ∃ m om, Minutes (hb_Timeframe h) = Some m ∧ Minutes (be_Timeframe event) = Some om ∧
    (om < m)%Z ∧ (hb_ReferenceTime h + m * 60 <= c_Time (be_Candle event) + om * 60)%Z.
Proof.
  intros Hv Ht Hf Hatr Hb E Hc Hcr. unfold technicalContext in E.
  destruct (last atrSeries) as [atr|] eqn:El; [|done]. rewrite Forall_forall in Hatr.
  pose proof (Hatr atr (last_Some_elem_of _ _ El)) as Ha.
  destruct (negb _ || negb _) eqn:Epos; [done|]. bools. cbv zeta in E.
  assert (Hclose : finite (c_Close (be_Candle event)) = true).
  { unfold ValidateCandle in Hv. destruct (_ <=? 0)%Z; [done|]. destruct (existsb _ _) eqn:Ex; [done|].
    cbn [existsb] in Ex. bools. done. }
  destruct (closed_biases ctx (be_Timeframe event) (c_Time (be_Candle event)) cfg Hf Ht) as [Hok Hnd].
  assert (Hdir : t_BiasDirection t = "" ∨ Direction_IsValid (t_BiasDirection t) = true).
  { destruct (Direction_IsValid (bi_Direction (mx_Bias ctx))) eqn:Ed; injection E as <-; cbn; auto. }
  assert (Hfields : t_ATR t = atr ∧ t_ReferencePrice t = c_Close (be_Candle event) ∧ t_ReferenceTime t = c_Time (be_Candle event) ∧
    t_Confluence t = None ∧ t_HigherTimeframes t = ClosedHigherTimeframeBiases ctx (be_Timeframe event) (c_Time (be_Candle event)) cfg).
  { destruct (Direction_IsValid (bi_Direction (mx_Bias ctx))); by injection E as <-. }
  destruct Hfields as (E1 & E2 & E3 & E4 & E5). split.
  - unfold technical_error. rewrite Hc, E1, E2, E3, E4, E5, Hcr. rewrite first_error_None, !Forall_cons, !check_None.
    split_and!; [|destruct Hdir as [->|Hd]; [done|rewrite Hd; by rewrite andb_false_r]|done| |done].
    + rewrite Ha, Hclose. cbn [negb orb]. rewrite !leb_num, !ltb_num in * by auto using finite_num.
      unfold time_ok in Ht. change (key 0) with 0%Z in *. lia.
    + apply higher_error_ok; [done|done|]. intros h _. apply not_elem_of_nil.
  - rewrite E5. intros h Hh. unfold ClosedHigherTimeframeBiases in Hh.
    destruct (Minutes (be_Timeframe event)) as [om|] eqn:Em; [|by apply elem_of_nil in Hh].
    apply list_elem_of_omap in Hh as (tf & _ & Eh).
    destruct (closed_bias_Some _ _ _ _ _ _ Hf (Minutes_bound _ _ Em) Ht Eh) as (-> & _ & _ & _ & m & Hm & Hlt & Hcl).
    exists m, om. split_and!; [done|done|lia|lia].
Qed.

(** The stop envelope the worker attaches always meets the candidate contract: with finite settings
    its floor is positive, its desired minimum lies between floor and cap, and an instrument's own
    bounds override the family's for every strategy but the M1 scalps. *)
Theorem stop_envelope_contract c g cfg c' e :
  stop_config_ok cfg = true → computeStopEnvelope c g cfg = Some e → ca_StopEnvelope c' = Some e →
  envelope_error c' = None ∧ (0 < key (se_FloorPips e))%Z ∧
  (key (se_FloorPips e) <= key (se_DesiredMinimumPips e) <= key (se_CapPips e))%Z ∧
  (InstrumentConfigured cfg = true → strategyStopEnvelope !! ca_Strategy c ≠ Some stopEnvelopeM1Scalp →
    se_FloorPips e = InstrumentMinPips cfg ∧ key (se_CapPips e) = Z.max (key (InstrumentMinPips cfg)) (key (InstrumentMaxPips cfg))).
Proof.
  intros Hcfg E Hc. destruct (computeStopEnvelope_shape c g cfg e Hcfg E) as (F1 & F2 & F3 & Hs & Hp & Hk & Hi).
  split_and!; [|done|lia|lia|].
  - unfold envelope_error. rewrite Hc. apply check_None. rewrite F1, F2, F3, bool_decide_false by done. cbn [negb orb].
    rewrite leb_num, !ltb_num by auto using finite_num. change (key 0) with 0%Z. lia.
  - intros Hic Hns. apply Hi; [done|]. by destruct (strategyStopEnvelope !! ca_Strategy c) as [[]|].
Qed.

(** * Witnesses *)

Definition demo_layer (l : StructureLayer) (t : TrendState) : LayerState := mkLayerState l t None None None None None.
Definition demo_structure : StructureState :=
  mkStructureState (demo_layer StructureMicro TrendUnknown) (demo_layer StructureInternal TrendUnknown)
    (demo_layer StructureIntermediate TrendUnknown) (demo_layer StructureMajor TrendBullish) [] [].
Definition demo_frame (tf : string) (candles : list Candle) : TimeframeContext :=
  mkTimeframeContext tf candles demo_structure [] (Zone.mkZoneState [] 1) [] [] (Session.mkState [] [] "") (Fib.mkState [] None)
    (Regime.trend_state 101 false "no dealing range") zero_Snapshot (mkMomentumResult Neutral 0 0 1)
    (Market.mkGeometry "XAU" "XAUUSD" 0.1 2) None.
Definition demo_market : MarketContext :=
  mkMarketContext "XAU" {[ tf_H1 := demo_frame tf_H1 [mkCandle 3600 100 102 99 101 5] ]}
    (Some (primary_view tf_M5 (mkTimeframeInput [] demo_structure [] (Zone.mkZoneState [] 1) [] [] (Session.mkState [] [] "")
      (Fib.mkState [] None) 1 [1%float] (Regime.mkConfig false 1 1 1 false 1 1 1 1 1 1) (Mad.mkConfig 0 7 1 2 1 1 1 1 1 1) None
      (mkMomentumResult Neutral 0 0 1) (Market.mkGeometry "XAU" "XAUUSD" 0.1 2)) (demo_frame tf_M5 []))) None.
Definition demo_event : BarEvent := mkBarEvent "XAU" tf_M5 (mkCandle 7200 100 102 99 101 5) EventOriginLive.
Definition demo_context : option TechnicalContext :=
  technicalContext ascii_unicode demo_market [1; 2]%float [be_Candle demo_event] demo_event "supply" Buy 100 101 None
    (mkMomentumConfig 5 0.5 (-0.5)) CandleEvidence.DefaultConfig.
Definition demo_bar_candidate : Candidate :=
  set_times (with_technical (demo_candidate "opp_1" "" Buy 0.5) demo_context None) 7000 7200 9000.
Lemma demo_frames_ok : frames_ok (mx_Timeframes demo_market).
Proof. apply map_Forall_singleton. repeat constructor. Qed.

Lemma technical_context_contract_witness :
  technical_error demo_bar_candidate = None ∧
  map hb_Timeframe (default [] (t_HigherTimeframes <$> demo_context)) = [tf_H1].
Proof.
  split; [|vm_compute; reflexivity].
  destruct demo_context as [t|] eqn:E; [|vm_compute in E; discriminate].
  refine (proj1 (technical_context_contract ascii_unicode demo_market [1; 2]%float [be_Candle demo_event] demo_event "supply" Buy
    100 101 None (mkMomentumConfig 5 0.5 (-0.5)) CandleEvidence.DefaultConfig demo_bar_candidate t _ _ demo_frames_ok _ _ E _ _)).
  - vm_compute. reflexivity.
  - vm_compute. split; reflexivity.
  - repeat constructor.
  - left. vm_compute. reflexivity.
  - unfold demo_bar_candidate. rewrite E. reflexivity.
  - reflexivity.
Defined.

Definition demo_stop : StopEnvelopeConfig := mkStopEnvelopeConfig 1.5 10 30 12 5 15 40 60 50 60 true.
Lemma stop_envelope_contract_witness :
  let g := Market.mkGeometry "XAU" "XAUUSD" 0.1 2 in
  let e := mkStopEnvelope 50 60 50 "strategy_default" in
  computeStopEnvelope demo_bar_candidate g demo_stop = Some e ∧
  envelope_error (with_technical demo_bar_candidate None (Some e)) = None.
Proof.
  intros g e. split; [vm_compute; reflexivity|].
  apply (stop_envelope_contract demo_bar_candidate g demo_stop _ e); vm_compute; reflexivity.
Defined.

(** The bounded tail of [momentumDirection] is not invisible: the simple ATR keeps a running sum, so a
    bar far outside the tail still shows in its rounding. Here one outlier, 66 bars back, empties the
    sum of the full frame for good, and the full frame reads neutral where the tail reads bullish. *)
Definition drifting_frame : list Candle :=
  mkCandle 60 100 100000000000000000 99 100 5 ::
  map (λ i, let p := f64_of_Z (100 + Z.of_nat i) in mkCandle (120 + 60 * Z.of_nat i) p (p + 1) p (p + 1) 5) (seq 0 65).
Example momentum_tail_differs :
  momentumDirection drifting_frame (mkMomentumConfig 8 0.15 (-0.15)) = Buy ∧
  mr_State (Classify drifting_frame None (mkMomentumConfig 8 0.15 (-0.15))) = Neutral.
Proof. vm_compute. done. Qed.

(** A candidate without a target beyond its entry still gets an envelope, at the floor. *)
Example no_target_still_envelope :
  let c := set_prices (demo_candidate "opp_1" "" Buy 0.5) (mkEntryZone 100 101) 98 [] in
  primaryTargetPips c (Market.mkGeometry "XAU" "XAUUSD" 0.1 2) = 0%float ∧
  se_DesiredMinimumPips <$> computeStopEnvelope c (Market.mkGeometry "XAU" "XAUUSD" 0.1 2) demo_stop = Some 50%float.
Proof. vm_compute. done. Qed.
