(* ===== verification/Facts.v ===== *)
(** Package engine: the confluence facts of a candidate, read off the market context when its strategy did not score it. *)
From S2P Require Import Structure Liquidity Zone Trendline KeyLevel Session Fib Confluence.
From S2P Require Import Prelude Float64 Market CandleEvidence Opportunity Context.
From Stdlib Require Import Floats.

(** * confluence_facts.go: facts of the candidate *)

(** The confirmed reaction's own pattern, and the canonical structure. *)
Definition factsFromReaction (htfAligned : bool) (touches : Z) (fibTouched : bool) (reaction : option ReactionConfirmation)
    (choch : bool) : Confluence.Factors :=
  let named p := match reaction with Some r => bool_decide (rc_Pattern r = p) | None => false end in
  Confluence.mkFactors htfAligned touches (named "wick_rejection" || named "rejection_choch") (named "engulfing") false
    (named "strong_reclaim" || named "sweep_reclaim") fibTouched (choch || named "rejection_choch").
Definition madBonus (t : TechnicalContext) : float := from_option mc_Affinity 0%float (t_MAD t).
Definition higherTimeframeAligned (higher : list HigherTimeframeBias) (direction : string) : bool :=
  existsb (λ item, bool_decide (hb_Direction item = direction)) higher.
Definition fibTouch (state : Fib.State) (candidate : Candidate) (atr epsilon : float) : option FibonacciLevelProvenance :=
  if (atr <=? 0)%float || bool_decide (Fib.fs_Ladder state = []) then None
  else
    let level := ((en_Low (ca_Entry candidate) + en_High (ca_Entry candidate)) / 2)%float in
    nearest ← Fib.NearestLevel (Fib.fs_Ladder state) level atr epsilon [];
    Some (mkFibLevel (Fib.l_Ratio nearest) (Fib.l_Price nearest)
      (if bool_decide (Fib.l_Kind nearest = Fib.KindExtension) then "extension" else "retracement")
      (abs (level - Fib.l_Price nearest) / atr)).
(** The loop from the latest break on, with [seen] breaks counted so far. *)
Fixpoint choch_loop (direction : string) (createdAt : Z) (latest_first : list Structure.StructureBreak) (seen : nat) : bool :=
  if (seen <? 3)%nat then
    match latest_first with
    | [] => false
    | brk :: rest =>
        if (Structure.k_Time brk >? createdAt)%Z then choch_loop direction createdAt rest seen
        else if bool_decide (Structure.k_Event brk = Structure.EventCHoCH) && bool_decide (Structure.k_Direction brk = direction)
        then true
        else choch_loop direction createdAt rest (S seen)
    end
  else false.
Definition recentCHoCH (breaks : list Structure.StructureBreak) (direction : string) (createdAt : Z) : bool :=
  choch_loop direction createdAt (rev breaks) 0.

(** * confluence_facts.go: facts of the zone *)

Definition sourceScore (z : Zone.Zone) : float :=
  match Zone.z_Kind z with
  | Zone.KindOrderBlock => 3 | Zone.KindBreaker => 2 | Zone.KindFlip => 2
  | Zone.KindSupply | Zone.KindDemand => 1.5 | Zone.KindFVG | Zone.KindIFVG => 1
  end.
Definition overlapsKeyLevel (z : Zone.Zone) (level : KeyLevel.Level) : bool :=
  let band := math_Max 0 (KeyLevel.l_Band level) in
  (Zone.z_Low z <=? KeyLevel.l_Price level + band)%float && (Zone.z_High z >=? KeyLevel.l_Price level - band)%float.
Definition roundInside (z : Zone.Zone) (step : float) : bool :=
  if (step <=? 0)%float then false
  else (math_Ceil (Zone.z_Low z / step) * step <=? Zone.z_High z + 1e-9)%float.
Definition zone_width (z : Zone.Zone) : float := math_Max (Zone.z_High z - Zone.z_Low z) 0.
(** The pool rests at the zone's own side of liquidity. *)
Definition pool_at (z : Zone.Zone) (pipSize : float) (pool : Liquidity.Pool) : bool :=
  let tolerance := math_Max (math_Max (Liquidity.po_High pool - Liquidity.po_Low pool) (zone_width z)) pipSize in
  let level := ((Liquidity.po_Low pool + Liquidity.po_High pool) / 2)%float in
  match Zone.z_Side z, Liquidity.po_Side pool with
  | Zone.Demand, Liquidity.LiquiditySellSide => (Zone.z_Low z - tolerance <=? level)%float && (level <=? Zone.z_High z)%float
  | Zone.Supply, Liquidity.LiquidityBuySide => (Zone.z_Low z <=? level)%float && (level <=? Zone.z_High z + tolerance)%float
  | _, _ => false
  end.
Definition liquidityConfluence (z : Zone.Zone) (pools : list Liquidity.Pool) (pipSize : float) : bool :=
  existsb (pool_at z pipSize) pools.
(** [strings.HasSuffix] for a two-byte suffix. *)
Definition has_suffix (s suffix : string) : bool :=
  (2 <=? String.length s)%nat && bool_decide (String.substring (String.length s - 2) 2 s = suffix).
Definition sessionConfluence (z : Zone.Zone) (level : Session.Level) (pipSize : float) : bool :=
  if Session.l_Swept level then false
  else
    let name := Session.l_Name level in
    let lowName := has_suffix name "_L" || bool_decide (name = "PDL") || bool_decide (name = "PWL") in
    let highName := has_suffix name "_H" || bool_decide (name = "PDH") || bool_decide (name = "PWH") in
    let tolerance := math_Max (zone_width z) pipSize in
    let price := Session.l_Price level in
    let low := Zone.z_Low z in let high := Zone.z_High z in
    match Zone.z_Side z with
    | Zone.Demand => lowName && (((low <=? price)%float && (price <=? high)%float) ||
        ((low - tolerance <=? price)%float && (price <=? low)%float))
    | Zone.Supply => highName && (((low <=? price)%float && (price <=? high)%float) ||
        ((high <=? price)%float && (price <=? high + tolerance)%float))
    end.
Definition insideHigherZone (z higher : Zone.Zone) : bool :=
  bool_decide (Zone.z_Side z = Zone.z_Side higher) && (Zone.z_Low z >=? Zone.z_Low higher)%float &&
  (Zone.z_High z <=? Zone.z_High higher)%float.
(** The sweep and displacement of the confirmation bar, as candle evidence. *)
Definition grab_evidence (technical : TechnicalContext) : bool :=
  match t_CandleEvidence technical with
  | None => false
  | Some e =>
      match ev_Rejection e, ev_Displacement e with
      | Some r, Some _ => rj_Sweep r && rj_Reclaim r
      | _, _ => false
      end
  end.
Definition confirmation_time (candidate : Candidate) : Z :=
  match ca_Reaction candidate with
  | Some r => if (rc_ConfirmationBarTime r >? 0)%Z then rc_ConfirmationBarTime r else ca_CreatedAt candidate
  | None => ca_CreatedAt candidate
  end.
Definition grabbed (z : Zone.Zone) (candidate : Candidate) (pipSize : float) (pool : Liquidity.Pool) : bool :=
  bool_decide (Liquidity.po_SweptAt pool = Some (confirmation_time candidate)) &&
  negb (Liquidity.po_TouchCount pool =? 2)%nat &&
  bool_decide (ca_Direction candidate = Zone.Side_Direction (Zone.z_Side z)) && liquidityConfluence z [pool] pipSize.
Definition gradeAGrabForZone (z : Zone.Zone) (candidate : Candidate) (technical : TechnicalContext)
    (pools : list Liquidity.Pool) (pipSize : float) : option LiquidityGrabProvenance :=
  if negb (grab_evidence technical) then None
  else
    pool ← List.find (grabbed z candidate pipSize) pools;
    Some (mkGrab (Liquidity.po_ID pool) (confirmation_time candidate) (confirmation_time candidate)).

(** * confluence_facts.go: the score of the zone *)

(** An unbroken line through the zone at the last bar. *)
Definition line_through (z : Zone.Zone) (last : Z) (line : Trendline.Trendline) : bool :=
  bool_decide (Trendline.tl_BrokenAt line = None) &&
  (Trendline.ValueAt line last >=? Zone.z_Low z)%float && (Trendline.ValueAt line last <=? Zone.z_High z)%float.
Definition fib_side (z : Zone.Zone) (state : Fib.State) : bool :=
  match Fib.fs_Range state with
  | None => false
  | Some r => match Zone.z_Side z with
      | Zone.Demand => (Zone.z_High z <=? Fib.dr_Equilibrium r)%float
      | Zone.Supply => (Zone.z_Low z >=? Fib.dr_Equilibrium r)%float
      end
  end.
(** The frame is of a higher timeframe and has a zone around this one. *)
Definition nested_in (z : Zone.Zone) (eventTF : string) (item : string * TimeframeContext) : bool :=
  negb (bool_decide (item.1 = eventTF)) && negb (default 0 (Minutes item.1) <=? default 0 (Minutes eventTF))%Z &&
  existsb (insideHigherZone z) (Zone.zs_Zones (tc_Zones item.2)).
(** The loop over the frames adds the same amount for each such frame, so its order does not show. *)
Definition nested_frames (z : Zone.Zone) (eventTF : string) (ctx : MarketContext) : nat :=
  length (List.filter (nested_in z eventTF) (map_to_list (mx_Timeframes ctx))).
Definition score_cap (score : float) : float := if (score >? 24.5)%float then 24.5%float else score.
Definition zone_score (z : Zone.Zone) (candidate : Candidate) (technical : TechnicalContext) (tf : TimeframeContext)
    (eventTF : string) (ctx : MarketContext) (roundStep pipSize : float) (grab : bool) : float :=
  let score := if (Zone.z_TouchCount z =? 0)%Z then (0 + 3)%float else if (Zone.z_TouchCount z =? 1)%Z then (0 + 1)%float else 0%float in
  let score := (score + sourceScore z)%float in
  let score := plus_if (existsb (overlapsKeyLevel z) (tc_KeyLevel tf)) 2 score in
  let score := plus_if (roundInside z roundStep) 1 score in
  let score := plus_if (liquidityConfluence z (tc_Liquidity tf) pipSize) 2 score in
  let score := plus_if (existsb (λ l, sessionConfluence z l pipSize) (Session.ss_Levels (tc_Session tf))) 2 score in
  let score := plus_if (fib_side z (tc_Fib tf)) 2 score in
  let score := plus_if grab 2 score in
  let score := Nat.iter (nested_frames z eventTF ctx) (λ s, s + 3)%float score in
  let score := match length (tc_Candles tf) with
    | 0 => score
    | S last => plus_if (existsb (line_through z (Z.of_nat last)) (tc_Trendline tf)) 1.5 score
    end in
  score_cap score.
Definition canonicalZoneQuality (ctx : MarketContext) (candidate : Candidate) (technical : TechnicalContext) (tf : TimeframeContext)
    (eventTF : string) (roundStep pipSize : float) : ZoneQuality * Z * option LiquidityGrabProvenance :=
  match List.find (λ z, bool_decide (Zone.z_ID z = ca_StructuralID candidate)) (Zone.zs_Zones (tc_Zones tf)) with
  | None => (mkZoneQuality 0 0, 0%Z, None)
  | Some z =>
      let gradeAGrab := gradeAGrabForZone z candidate technical (tc_Liquidity tf) pipSize in
      (mkZoneQuality (zone_score z candidate technical tf eventTF ctx roundStep pipSize (bool_decide (gradeAGrab ≠ None)))
         (Zone.z_TouchCount z), Zone.z_TouchCount z, gradeAGrab)
  end.
(** [roundStep], [epsilon], [cfg] and [pipSize] are the worker's settings. *)
Definition confluenceContext (ctx : MarketContext) (eventTF : string) (candidate : Candidate) (technical : TechnicalContext)
    (roundStep epsilon : float) (cfg : Confluence.Config) (pipSize : float) : option ConfluenceContext :=
  tf ← mx_Timeframes ctx !! eventTF;
  let '(quality, touches, gradeAGrab) := canonicalZoneQuality ctx candidate technical tf eventTF roundStep pipSize in
  let fibLevel := fibTouch (tc_Fib tf) candidate (t_ATR technical) epsilon in
  let factors := factsFromReaction (higherTimeframeAligned (t_HigherTimeframes technical) (ca_Direction candidate)) touches
    (bool_decide (fibLevel ≠ None)) (ca_Reaction candidate)
    (recentCHoCH (Structure.st_Breaks (tc_Structure tf)) (ca_Direction candidate) (ca_CreatedAt candidate)) in
  let score := Confluence.Evaluate quality factors cfg (madBonus technical) in
  let f := sc_Factors score in
  Some (mkConfluence (sc_Version score) (sc_SelectedStars score) (sc_V1Stars score) (sc_V2Stars score) (sc_V2Raw score)
    (sc_RawFactorScore score) (sc_ZoneQualityScore score) (sc_MADBonus score)
    (mkFactors (f_HTFAligned f) (f_Touches f) (f_WickRejection f) (f_DisplacementGrade f) (f_SessionContext f)
      (f_StructuralAgreement f) (f_FibTouch f) (f_CHoCH f))
    fibLevel gradeAGrab).

(** * Lemmas *)

Lemma recentCHoCH_last breaks direction createdAt :
  recentCHoCH breaks direction createdAt =
  existsb (λ b, bool_decide (Structure.k_Event b = Structure.EventCHoCH) && bool_decide (Structure.k_Direction b = direction))
    (take 3 (List.filter (λ b, negb (Structure.k_Time b >? createdAt)%Z) (rev breaks))).
Proof.
  unfold recentCHoCH. set (f := λ b : Structure.StructureBreak, _). set (g := λ b : Structure.StructureBreak, _).
  cut (∀ seen, choch_loop direction createdAt (rev breaks) seen = existsb f (take (3 - seen) (List.filter g (rev breaks)))).
  { intros H. apply (H 0). }
  induction (rev breaks) as [|b l IH]; intros seen; cbn [choch_loop List.filter].
  { rewrite take_nil. by destruct (seen <? 3). }
  destruct (Nat.ltb_spec seen 3) as [Hs|Hs].
  2:{ assert (3 - seen = 0) as -> by lia. done. }
  unfold g at 1. destruct (Structure.k_Time b >? createdAt)%Z; cbn [negb]; [apply IH|].
  destruct (3 - seen) as [|n] eqn:E; [lia|]. cbn [take existsb]. unfold f at 1.
  destruct (_ && _) eqn:Eb; [done|]. cbn [orb]. rewrite IH. assert (3 - S seen = n) as -> by lia. done.
Qed.

(** The zone's score in half points. *)
Definition half (k : nat) : float := (f64_of_Z (Z.of_nat k) / 2)%float.
Definition source_points (z : Zone.Zone) : nat :=
  match Zone.z_Kind z with
  | Zone.KindOrderBlock => 6 | Zone.KindBreaker => 4 | Zone.KindFlip => 4
  | Zone.KindSupply | Zone.KindDemand => 3 | Zone.KindFVG | Zone.KindIFVG => 2
  end.
Definition points_if (b : bool) (n : nat) : nat := if b then n else 0.
Definition zone_points (z : Zone.Zone) (tf : TimeframeContext) (eventTF : string) (ctx : MarketContext) (roundStep pipSize : float)
    (grab : bool) : nat :=
  points_if (Zone.z_TouchCount z =? 0)%Z 6 + points_if (Zone.z_TouchCount z =? 1)%Z 2 + source_points z +
  points_if (existsb (overlapsKeyLevel z) (tc_KeyLevel tf)) 4 + points_if (roundInside z roundStep) 2 +
  points_if (liquidityConfluence z (tc_Liquidity tf) pipSize) 4 +
  points_if (existsb (λ l, sessionConfluence z l pipSize) (Session.ss_Levels (tc_Session tf))) 4 +
  points_if (fib_side z (tc_Fib tf)) 4 + points_if grab 4 + 6 * nested_frames z eventTF ctx +
  match length (tc_Candles tf) with
  | 0 => 0
  | S last => points_if (existsb (line_through z (Z.of_nat last)) (tc_Trendline tf)) 3
  end.

Lemma half_plus k w : k ≤ 90 → w ∈ [2; 3; 4; 6] → (half k + half w = half (k + w))%float.
Proof.
  intros Hk Hw. rewrite !elem_of_cons, elem_of_nil in Hw.
  destruct Hw as [-> |[-> |[-> |[-> |[]]]]]; do 91 (destruct k as [|k]; [vm_compute; reflexivity|]); lia.
Qed.
Lemma plus_half b k w : k ≤ 90 → w ∈ [2; 3; 4; 6] → plus_if b (half w) (half k) = half (k + points_if b w).
Proof. intros. destruct b; cbn [plus_if points_if]; [by apply half_plus|]. by rewrite Nat.add_0_r. Qed.
Lemma iter_half n k : k + 6 * n ≤ 90 → Nat.iter n (λ s, s + half 6)%float (half k) = half (k + 6 * n).
Proof.
  induction n as [|n IH]; intros H; [by rewrite Nat.add_0_r|]. cbn [Nat.iter nat_rect]. unfold Nat.iter in IH. rewrite IH by lia.
  rewrite half_plus; [f_equal; lia|lia|set_solver].
Qed.
Lemma nested_bound z eventTF ctx : nested_frames z eventTF ctx ≤ 8.
Proof.
  unfold nested_frames. set (l := List.filter _ _).
  assert (Hnd : NoDup (map fst l)).
  { eapply sublist_NoDup; [apply (NoDup_fst_map_to_list (mx_Timeframes ctx))|]. apply fmap_sublist. unfold l.
    induction (map_to_list _) as [|x xs IH]; [done|]. cbn [List.filter]. destruct (nested_in z eventTF x); [by apply sublist_skip|by apply sublist_cons]. }
  assert (Hsub : map fst l ⊆ [tf_M1; tf_M3; tf_M5; tf_M15; tf_M30; tf_H1; tf_H4; tf_D1]).
  { intros tf (x & -> & Hx)%list_elem_of_fmap. apply list_elem_of_In, filter_In in Hx as [_ Hx].
    unfold nested_in in Hx. bools. destruct (Minutes x.1) as [m|] eqn:Em; cbn [default id] in *.
    - unfold Minutes, minutesByTimeframe in Em. apply elem_of_list_to_map_2 in Em.
      repeat (apply elem_of_cons in Em as [[= -> _]|Em]; [set_solver|]). by apply elem_of_nil in Em.
    - destruct (Minutes eventTF) as [e|] eqn:Ee; cbn [default id] in *; [|done].
      unfold Minutes, minutesByTimeframe in Ee. apply elem_of_list_to_map_2 in Ee.
      repeat (apply elem_of_cons in Ee as [[= _ ->]|Ee]; [done|]). by apply elem_of_nil in Ee. }
  rewrite <- (length_map fst l). etransitivity; [by apply submseteq_length, NoDup_submseteq|done].
Qed.
Lemma score_cap_half k : k ≤ 96 → score_cap (half k) = half (k `min` 49).
Proof. intros Hk. do 97 (destruct k as [|k]; [vm_compute; reflexivity|]). lia. Qed.

(** * Theorems *)

(** The score of a zone is exact: in spite of the floating-point sum, it is half the number of half points its facts add
    up to, capped at 24.5, in whatever order the frames of the higher timeframes are visited. *)
Theorem zone_score_reference z candidate technical tf eventTF ctx roundStep pipSize grab :
  zone_score z candidate technical tf eventTF ctx roundStep pipSize grab =
  half (zone_points z tf eventTF ctx roundStep pipSize grab `min` 49).
Proof.
  unfold zone_score, zone_points. pose proof (nested_bound z eventTF ctx) as Hn.
  set (n := nested_frames z eventTF ctx) in *. clearbody n.
  set (bk := existsb (overlapsKeyLevel z) _). set (br := roundInside _ _). set (bl := liquidityConfluence _ _ _).
  set (bs := existsb (λ l, sessionConfluence z l pipSize) _). set (bf := fib_side _ _). clearbody bk br bl bs bf.
  change 1.5%float with (half 3). change 3%float with (half 6). change 2%float with (half 4). change 1%float with (half 2).
  change 0%float with (half 0).
  assert (Hs : ∃ s, s ≤ 6 ∧ points_if (Zone.z_TouchCount z =? 0)%Z 6 + points_if (Zone.z_TouchCount z =? 1)%Z 2 = s ∧
    (if (Zone.z_TouchCount z =? 0)%Z then (half 0 + half 6)%float else if (Zone.z_TouchCount z =? 1)%Z then (half 0 + half 2)%float else half 0) = half s).
  { destruct (Z.eqb_spec (Zone.z_TouchCount z) 0) as [E|]; [rewrite E|destruct (Z.eqb_spec (Zone.z_TouchCount z) 1)];
      eexists; (split; [|split; [reflexivity|vm_compute; reflexivity]]); cbn; lia. }
  destruct Hs as (s & Hs & -> & ->).
  assert (Hz : source_points z ≤ 6 ∧ sourceScore z = half (source_points z) ∧ source_points z ∈ [2; 3; 4; 6]).
  { unfold source_points, sourceScore. destruct (Zone.z_Kind z); (split; [lia|split; [vm_compute; reflexivity|set_solver]]). }
  destruct Hz as (Hz & -> & Hin). set (zp := source_points z) in *. clearbody zp.
  assert (Hb : ∀ b w, points_if b w ≤ w) by (intros [] w; cbn; lia).
  pose proof (Hb bk 4). pose proof (Hb br 2). pose proof (Hb bl 4). pose proof (Hb bs 4). pose proof (Hb bf 4). pose proof (Hb grab 4).
  cbv zeta. rewrite (half_plus s zp) by (lia || done).
  do 6 (rewrite plus_half by (lia || set_solver)). rewrite iter_half by lia.
  destruct (length (tc_Candles tf)) as [|lastbar].
  - rewrite score_cap_half by lia. f_equal; lia.
  - set (bt := existsb _ _). clearbody bt. pose proof (Hb bt 3). rewrite plus_half by (lia || set_solver).
    rewrite score_cap_half by lia. f_equal; lia.
Qed.

(** A grab is graded on evidence: the candidate's own confirmation bar swept a pool at its zone's side, reclaimed and displaced. *)
Definition graded (tf : TimeframeContext) (candidate : Candidate) (technical : TechnicalContext) (pipSize : float)
    (g : LiquidityGrabProvenance) : Prop :=
  ∃ z pool e r d, z ∈ Zone.zs_Zones (tc_Zones tf) ∧ Zone.z_ID z = ca_StructuralID candidate ∧
    ca_Direction candidate = Zone.Side_Direction (Zone.z_Side z) ∧
    pool ∈ tc_Liquidity tf ∧ Liquidity.po_ID pool = gr_PoolID g ∧ Liquidity.po_SweptAt pool = Some (gr_SweptAt g) ∧
    Liquidity.po_TouchCount pool ≠ 2 ∧ pool_at z pipSize pool = true ∧
    gr_SweptAt g = confirmation_time candidate ∧ gr_ReclaimedAt g = confirmation_time candidate ∧
    t_CandleEvidence technical = Some e ∧ ev_Rejection e = Some r ∧ ev_Displacement e = Some d ∧ rj_Sweep r = true ∧ rj_Reclaim r = true.
Lemma gradeAGrab_graded tf z candidate technical pipSize g :
  z ∈ Zone.zs_Zones (tc_Zones tf) → Zone.z_ID z = ca_StructuralID candidate →
  gradeAGrabForZone z candidate technical (tc_Liquidity tf) pipSize = Some g → graded tf candidate technical pipSize g.
Proof.
  intros Hz Hid. unfold gradeAGrabForZone, grab_evidence. destruct (t_CandleEvidence technical) as [e|] eqn:Ee; [|done].
  destruct (ev_Rejection e) as [r|] eqn:Er; [|done]. destruct (ev_Displacement e) as [d|] eqn:Ed; [|done].
  destruct (rj_Sweep r && rj_Reclaim r) eqn:Es; [|done]. cbn [negb]. destruct (List.find _ _) as [pool|] eqn:Ef; [|done].
  cbn. intros [= <-]. apply List.find_some in Ef as [Hin Hg]. apply list_elem_of_In in Hin. unfold grabbed in Hg. bools.
  unfold liquidityConfluence in *. cbn [existsb] in *. exists z, pool, e, r, d. cbn [gr_PoolID gr_SweptAt gr_ReclaimedAt].
  match goal with H : pool_at _ _ _ || false = true |- _ => rewrite orb_false_r in H end.
  split_and!; try done. by apply Nat.eqb_neq.
Qed.
Lemma fibTouch_near state candidate atr epsilon l :
  fibTouch state candidate atr epsilon = Some l →
  fl_Kind l = "retracement" ∧ ∃ x, x ∈ Fib.fs_Ladder state ∧ Fib.l_Kind x = Fib.KindRetracement ∧ fl_Price l = Fib.l_Price x ∧
    (Fib.level_dist ((en_Low (ca_Entry candidate) + en_High (ca_Entry candidate)) / 2) x <=? Fib.nearest_band epsilon atr)%float = true.
Proof.
  unfold fibTouch. destruct (_ || _); [done|]. destruct (Fib.NearestLevel _ _ _ _ _) as [x|] eqn:E; [|done]. cbn. intros [= <-].
  unfold Fib.NearestLevel in E. destruct (_ || _); [done|]. destruct (_ <=? 0)%float; [done|].
  pose proof (Fib.nearest_fold ((en_Low (ca_Entry candidate) + en_High (ca_Entry candidate)) / 2) (Fib.nearest_band epsilon atr)
    (Fib.allowed_kinds []) (Fib.fs_Ladder state)) as Hn.
  destruct (foldl _ None _) as [[y d]|]; [|done]. cbn in E. injection E as ->. destruct Hn as (Hin & _ & [Hk Hd] & _).
  assert (Ek : Fib.l_Kind x = Fib.KindRetracement) by (apply list_elem_of_singleton; exact Hk).
  cbn [fl_Kind fl_Price]. rewrite Ek. split; [done|]. by exists x.
Qed.

(** The facts of a candidate's confluence are what they are called. There is a reading only for a timeframe the context
    has. The stars are between one and three, and at most two under V1 for a zone already touched. A session is never
    asserted. A change of character is that of the reaction or of one of the last three breaks no later than the candidate. A
    fibonacci level is a retracement of the frame's ladder within the band of the entry's middle. And a graded grab is a
    sweep, by the confirmation bar, of a pool of more or fewer than two touches at the zone's own side. *)
Theorem confluence_facts_sound ctx eventTF candidate technical roundStep epsilon cfg pipSize x :
  confluenceContext ctx eventTF candidate technical roundStep epsilon cfg pipSize = Some x →
  ∃ tf, mx_Timeframes ctx !! eventTF = Some tf ∧
    (1 <= cx_SelectedStars x <= 3)%Z ∧ ((0 < fa_Touches (cx_Factors x))%Z → (1 <= cx_V1Stars x <= 2)%Z) ∧
    fa_SessionContext (cx_Factors x) = false ∧
    (fa_CHoCH (cx_Factors x) = true →
      (∃ r, ca_Reaction candidate = Some r ∧ rc_Pattern r = "rejection_choch") ∨
      ∃ b, b ∈ take 3 (List.filter (λ b, negb (Structure.k_Time b >? ca_CreatedAt candidate)%Z) (rev (Structure.st_Breaks (tc_Structure tf)))) ∧
        Structure.k_Event b = Structure.EventCHoCH ∧ Structure.k_Direction b = ca_Direction candidate) ∧
    (fa_FibTouch (cx_Factors x) = true ↔ cx_FibLevel x ≠ None) ∧
    (∀ l, cx_FibLevel x = Some l → fl_Kind l = "retracement" ∧
      ∃ y, y ∈ Fib.fs_Ladder (tc_Fib tf) ∧ fl_Price l = Fib.l_Price y ∧
        (Fib.level_dist ((en_Low (ca_Entry candidate) + en_High (ca_Entry candidate)) / 2) y <=?
          Fib.nearest_band epsilon (t_ATR technical))%float = true) ∧
    (∀ g, cx_GradeAGrab x = Some g → graded tf candidate technical pipSize g).
Proof.
  unfold confluenceContext. destruct (mx_Timeframes ctx !! eventTF) as [tf|] eqn:Etf; [|done]. cbn [mbind option_bind].
  destruct (canonicalZoneQuality _ _ _ _ _ _ _) as [[quality touches] grab] eqn:Eq.
  assert (Hq : touches = zq_Touches quality ∧ ∀ g, grab = Some g → graded tf candidate technical pipSize g).
  { unfold canonicalZoneQuality in Eq. destruct (List.find _ _) as [z|] eqn:Ef; injection Eq as <- <- <-; [|done]. split; [done|].
    intros g Hg. apply List.find_some in Ef as [Hin Hid]. apply list_elem_of_In in Hin. bools. by eapply gradeAGrab_graded. }
  destruct Hq as [-> Hgrab]. set (fibLevel := fibTouch _ _ _ _). set (choch := recentCHoCH _ _ _) in *.
  set (factors := factsFromReaction _ _ _ _ _). cbv zeta.
  pose proof (evaluate_stars quality factors cfg (madBonus technical)) as (H1 & H2 & H3 & H4 & H5).
  set (score := Confluence.Evaluate _ _ _ _) in *. clearbody score. rewrite H5. intros [= <-]. exists tf.
  cbn [cx_SelectedStars cx_V1Stars cx_Factors cx_FibLevel cx_GradeAGrab fa_SessionContext fa_CHoCH fa_FibTouch fa_Touches].
  split; [done|]. split; [lia|]. split; [intros Ht; unfold factors, factsFromReaction in Ht; cbn [f_Touches] in Ht; lia|].
  split; [done|]. split; [|split; [|split; [|exact Hgrab]]].
  - unfold factors, factsFromReaction. cbn [f_CHoCH]. intros [Hc|Hc]%orb_true_iff; [right|left].
    + unfold choch in Hc. rewrite recentCHoCH_last in Hc. apply existsb_exists in Hc as (b & Hin & Hb). apply list_elem_of_In in Hin.
      bools. by exists b.
    + destruct (ca_Reaction candidate) as [r|]; [|done]. bools. by exists r.
  - unfold factors, factsFromReaction. cbn [f_FibTouch]. by rewrite bool_decide_eq_true.
  - intros l Hl. destruct (fibTouch_near _ _ _ _ _ Hl) as (? & y & ? & _ & ? & ?). split; [done|]. by exists y.
Qed.

(** * Witnesses *)

(** A candidate on a demand zone whose confirmation bar, at 100, swept and reclaimed the sell-side pool in the zone. *)
Definition demo_layer (l : Structure.StructureLayer) : Structure.LayerState :=
  Structure.mkLayerState l Structure.TrendUnknown None None None None None.
Definition demo_structure : Structure.StructureState :=
  Structure.mkStructureState (demo_layer Structure.StructureMicro) (demo_layer Structure.StructureInternal)
    (demo_layer Structure.StructureIntermediate) (demo_layer Structure.StructureMajor) [] [].
Definition demo_pool : Liquidity.Pool :=
  Liquidity.mkPool "pool" Liquidity.LiquiditySellSide 9.4 9.6 Structure.StructureMajor "swing_low" 40 1 40 40 (Some 100%Z) (Some 100%Z) 1.
Definition demo_frame : TimeframeContext :=
  mkTimeframeContext tf_M5 [mkCandle 100 9.5 11 9 10.8 5] demo_structure [demo_pool] (Zone.mkZoneState [Zone.demo_zone] 1) [] []
    (Session.mkState [] [] "LONDON") (Fib.mkState (Fib.Ladder 90 110 true) None) (Regime.trend_state 10.8 false "no dealing range")
    zero_Snapshot (Momentum.mkMomentumResult Momentum.Neutral 0 0 1) (Market.mkGeometry "XAU" "XAUUSD" 0.1 2) None.
Definition demo_ctx : MarketContext := mkMarketContext "XAU" {[ tf_M5 := demo_frame ]} None None.
Definition demo_technical : TechnicalContext :=
  mkTechnical 4 100.5 100 "" "" [] None
    (Some (mkEvidence 2 Buy (Some (mkRejection 0.8 0.5 0.3 0.9 ["sweep_reclaim"] true true (Some 0.2%float) (Some 0.3%float)))
      (Some (mkDisplacement 0.7 1 2 0.6 0.9 ["strong_close"] true false None None)) None None 0.7 0.1 0.8 "sweep_reclaim"
      ["sweep_reclaim"; "strong_close"] zero_Geometry)) None None.
Definition demo_reading : option ConfluenceContext :=
  confluenceContext demo_ctx tf_M5 (demo_candidate "opp_1" "z" Buy 0.5) demo_technical 5 0.15 Confluence.DefaultConfig 0.1.
Lemma confluence_facts_sound_witness :
  match demo_reading with
  | Some x => cx_GradeAGrab x = Some (mkGrab "pool" 100 100) ∧ cx_FibLevel x ≠ None ∧
      (cx_SelectedStars x, cx_ZoneQualityScore x) = (2%Z, (4 * (9.5 / 24.5))%float) ∧
      graded demo_frame (demo_candidate "opp_1" "z" Buy 0.5) demo_technical 0.1 (mkGrab "pool" 100 100)
  | None => False
  end.
Proof.
  destruct demo_reading as [x|] eqn:E; [|vm_compute in E; discriminate E].
  destruct (confluence_facts_sound demo_ctx tf_M5 (demo_candidate "opp_1" "z" Buy 0.5) demo_technical 5 0.15 Confluence.DefaultConfig 0.1 x E)
    as (tf & Htf & _ & _ & _ & _ & _ & _ & Hg).
  assert (tf = demo_frame) as -> by (symmetry in Htf; vm_compute in Htf; injection Htf as ->; reflexivity).
  assert (Hx : cx_GradeAGrab x = Some (mkGrab "pool" 100 100) ∧ cx_FibLevel x ≠ None ∧
      (cx_SelectedStars x, cx_ZoneQualityScore x) = (2%Z, (4 * (9.5 / 24.5))%float)).
  { vm_compute in E. injection E as <-. split; [reflexivity|]. split; [discriminate|]. vm_compute. reflexivity. }
  destruct Hx as (H1 & H2 & H3). split; [exact H1|]. split; [exact H2|]. split; [exact H3|]. apply Hg, H1.
Defined.
