(* ===== verification/Worker.v ===== *)
(** Package engine: the symbol worker and the engine. One closed bar: sequencing, the analysis of its timeframe, the rebuilt
    market context, the strategies' evaluation, invalidation, observation of what they propose, expiry, arbitration, and the
    calls made on the publisher. The strategies themselves are given by [Analytics]. *)
From S2P Require Import Structure Liquidity Zone Trendline KeyLevel Session Fib Regime Mad Confluence Registry.
From S2P Require Import Prelude Float64 Market MarketData Indicator CandleEvidence Momentum Context Opportunity OpportunityBook.
From S2P Require Import Arbitration Publisher Policy Facts.
From S2P Require TechniqueState ScalpRange LegacyRead.
From Stdlib Require Import Floats.

(** * Interface to the strategies *)

(** What the registry reads of the context. *)
#[export] Instance market_read : Registry.ContextRead MarketContext := {|
  Registry.ctx_Symbol := mx_Symbol; Registry.ctx_has := λ ctx tf, bool_decide (is_Some (mx_Timeframes ctx !! tf))
|}.
Class Analytics := {
  (** The Unicode tables of reason codes and labels. *)
  An_unicode : Unicode;
  (** The parameters of a strategy and [strategyFactories]. A strategy's evaluation is a function of the context: it returns. *)
  An_Params : Type;
  An_factories : gmap string (@Registry.Factory MarketContext An_Params)
}.

(** * settings.go, state/symbol_state.go: data *)

Section worker.
Context `{Analytics}.

(** The settings the worker reads. [orderBlockBreakBuffer] is the order-block strategy's own parameter, zero when absent. The
    observers and the level source, nil in production, are left out. *)
Record Settings := mkSettings {
  set_Candle : CandleEvidence.Config; set_Confluence : Confluence.Config; ATR_Length : Z; ATR_Algorithm : string;
  set_Structure : Structure.Settings; set_Liquidity : Liquidity.Config; set_Zone : Zone.Config;
  set_Trendline : Trendline.Config; set_KeyLevel : KeyLevel.Config; set_Session : Session.Config; set_Fib : Fib.Config;
  set_Momentum : MomentumConfig; set_Regime : Regime.Config; set_MAD : Mad.Config; set_Arbitration : Config;
  set_LegacyRead : LegacyRead.Config; set_TechniqueZones : TechniqueState.TechniqueZoneSettings; set_StopEnvelope : StopEnvelopeConfig; set_Strategies : list (Registry.StrategyConfig An_Params);
  HistoryDepths : gmap string Z; PrimaryTimeframe : string; set_Geometry : Market.Geometry;
  DefendedLevels : list float; DefendedLevelBuffer : float;
  InstrumentStopMinPips : float; InstrumentStopMaxPips : float; InstrumentStopEnvelopeConfigured : bool;
  ConfigVersion : Z; ConfigFingerprint : string; AllowReplaceForming : bool;
  ObserveOnly : gset string; ObserveOnlyStructureTimeframes : gset string; orderBlockBreakBuffer : float
}.
Record SymbolState := mkState {
  ss_Symbol : string; ss_History : MarketHistory; ss_Measurements : gmap string (list float);
  ss_Structure : Structure.Book; ss_Zone : Zone.Book; ss_Liquidity : Liquidity.Book; ss_Trendline : Trendline.Book;
  ss_KeyLevel : KeyLevel.Book; ss_Session : Session.Book; ss_Fib : Fib.Book; ss_Context : MarketContext;
  ss_Opportunities : Book
}.
Record legacyFrameCache := mkFrameCache {
  fc_lastTime : Z; fc_length : nat; fc_weeklyKey : Z; fc_staged : LegacyRead.Staged
}.
(** [w_techniqueZone] is [techniqueZoneAt] and [techniqueZoneState], [None] while not valid, and [w_legacyWeekly] the key and the
    levels of [legacyWeekly]. The telemetry recorder, the history-health counters and the publisher are not state of the model. *)
Record SymbolWorker := mkWorker {
  w_state : SymbolState; w_settings : Settings; w_registry : @Registry.Registry MarketContext An_Params;
  w_lastArbitration : gmap string Decision; w_techniqueZone : option (Z * Zone.ZoneState);
  w_legacyWeekly : option (Z * list Session.Level); w_legacyFrames : gmap string legacyFrameCache
}.
Definition NewSymbolState (symbol : string) (depths : gmap string Z) (allowReplaceForming : bool) : result SymbolState :=
  match NewMarketHistory symbol depths allowReplaceForming with
  | Err e => Err e
  | Ok history => Ok (mkState symbol history ∅ Structure.NewBook Zone.NewBook Liquidity.NewBook Trendline.NewBook
      KeyLevel.NewBook Session.NewBook Fib.NewBook (mkMarketContext "" ∅ None None) NewBook)
  end.
Definition NewSymbolWorker (symbol : string) (settings : Settings) : result SymbolWorker :=
  match NewSymbolState symbol (HistoryDepths settings) (AllowReplaceForming settings) with
  | Err e => Err e
  | Ok ws =>
      match Registry.NewRegistry An_factories (set_Strategies settings) with
      | Err e => Err e
      | Ok registry => Ok (mkWorker ws settings registry ∅ None None ∅)
      end
  end.
Definition algo (w : SymbolWorker) : AlgorithmVersion :=
  mkAlgorithm (Structure.set_Version (set_Structure (w_settings w))) (Liquidity.cfg_Version (set_Liquidity (w_settings w))).

(** The calls on the publisher. *)
Inductive Call :=
  | CallResumeLive (symbol : string)
  | CallObserve (symbol : string) (algo : AlgorithmVersion) (t : Transition) (publish : bool)
  | CallArbitration (symbol opportunityID : string) (decision : Decision) (decidedAt : Z).

Definition with_history (s : SymbolState) (h : MarketHistory) : SymbolState :=
  mkState (ss_Symbol s) h (ss_Measurements s) (ss_Structure s) (ss_Zone s) (ss_Liquidity s) (ss_Trendline s) (ss_KeyLevel s)
    (ss_Session s) (ss_Fib s) (ss_Context s) (ss_Opportunities s).
Definition with_opportunities (s : SymbolState) (b : Book) : SymbolState :=
  mkState (ss_Symbol s) (ss_History s) (ss_Measurements s) (ss_Structure s) (ss_Zone s) (ss_Liquidity s) (ss_Trendline s)
    (ss_KeyLevel s) (ss_Session s) (ss_Fib s) (ss_Context s) b.
Definition with_market (s : SymbolState) (ctx : MarketContext) : SymbolState :=
  mkState (ss_Symbol s) (ss_History s) (ss_Measurements s) (ss_Structure s) (ss_Zone s) (ss_Liquidity s) (ss_Trendline s)
    (ss_KeyLevel s) (ss_Session s) (ss_Fib s) ctx (ss_Opportunities s).
Definition with_state (w : SymbolWorker) (s : SymbolState) : SymbolWorker :=
  mkWorker s (w_settings w) (w_registry w) (w_lastArbitration w) (w_techniqueZone w) (w_legacyWeekly w) (w_legacyFrames w).
Definition with_technique (w : SymbolWorker) (cache : option (Z * Zone.ZoneState)) : SymbolWorker :=
  mkWorker (w_state w) (w_settings w) (w_registry w) (w_lastArbitration w) cache (w_legacyWeekly w) (w_legacyFrames w).
Definition with_legacy (w : SymbolWorker) (weekly : option (Z * list Session.Level)) (frames : gmap string legacyFrameCache) : SymbolWorker :=
  mkWorker (w_state w) (w_settings w) (w_registry w) (w_lastArbitration w) (w_techniqueZone w) weekly frames.

(** * worker.go: enrichment of a candidate *)

Definition with_config (c : Candidate) (settings : Settings) : Candidate :=
  let p := ca_Provenance c in
  mkCandidate (ca_ID c) (ca_Strategy c) (ca_StrategyVersion c) (ca_Symbol c) (ca_ObservedTimeframe c)
    (ca_StructureTimeframe c) (ca_Structure c) (ca_Direction c) (ca_StructuralID c) (ca_Entry c) (ca_Invalidation c)
    (ca_Targets c) (ca_Evidence c) (ca_Quality c) (ca_FormedAt c) (ca_CreatedAt c) (ca_ExpiresAt c)
    (mkProvenance (pv_StructureVersion p) (pv_LiquidityVersion p) (pv_ZoneVersion p) (ConfigVersion settings) (ConfigFingerprint settings))
    (ca_Technical c) (ca_Reaction c) (ca_DetectorConfluence c) (ca_StopEnvelope c).
Definition with_observed (c : Candidate) (tf : string) : Candidate :=
  mkCandidate (ca_ID c) (ca_Strategy c) (ca_StrategyVersion c) (ca_Symbol c) tf
    (ca_StructureTimeframe c) (ca_Structure c) (ca_Direction c) (ca_StructuralID c) (ca_Entry c) (ca_Invalidation c)
    (ca_Targets c) (ca_Evidence c) (ca_Quality c) (ca_FormedAt c) (ca_CreatedAt c) (ca_ExpiresAt c) (ca_Provenance c)
    (ca_Technical c) (ca_Reaction c) (ca_DetectorConfluence c) (ca_StopEnvelope c).
Definition with_confluence (t : TechnicalContext) (x : option ConfluenceContext) : TechnicalContext :=
  mkTechnical (t_ATR t) (t_ReferencePrice t) (t_ReferenceTime t) (t_BiasDirection t) (t_BiasLayer t)
    (t_HigherTimeframes t) (t_Confirmation t) (t_CandleEvidence t) (t_MAD t) x.
Definition structureBreakBuffer (w : SymbolWorker) (tf : string) (canonicalATR : list float) : string → option float :=
  let atrs := orderBlockBreakBuffer (w_settings w) in
  if (atrs <=? 0)%float then λ _, None
  else
    let frameATR := default 0%float (frame ← mx_Timeframes (ss_Context (w_state w)) !! tf; legacy ← tc_Legacy frame; last (LegacyRead.lf_ATR legacy)) in
    let frameATR := if negb (frameATR >? 0)%float then default frameATR (last canonicalATR) else frameATR in
    if negb (frameATR >? 0)%float then λ _, None
    else λ id, if negb (bool_decide (id = "order_block")) then None else Some (atrs * frameATR)%float.
Definition stop_config (settings : Settings) : StopEnvelopeConfig :=
  let c := set_StopEnvelope settings in
  if InstrumentStopEnvelopeConfigured settings
  then mkStopEnvelopeConfig (ReactionMinRR c) (ReactionMinPips c) (ReactionMaxPips c) (ReactionRoomFloorPips c)
    (ScalpMinPips c) (ScalpMaxPips c) (TrendMinPips c) (TrendMaxPips c) (InstrumentStopMinPips settings)
    (InstrumentStopMaxPips settings) true
  else c.
(** A strategy's candidate as it enters the book; [None] inside when a defended level blocks it. *)
Definition enrich (w : SymbolWorker) (event : BarEvent) (c : Candidate) : result (option Candidate) :=
  let settings := w_settings w in
  let ctx := ss_Context (w_state w) in
  match AtFirstObservation (with_config c settings) (c_Time (be_Candle event)) with
  | Err e => Err e
  | Ok candidate =>
      match NormalizeGeometry candidate (set_Geometry settings) with
      | Err e => Err e
      | Ok candidate =>
          match BlockedByDefendedLevel (DefendedLevels settings) (DefendedLevelBuffer settings) candidate with
          | Some _ => Ok None
          | None =>
              let candidate := with_observed candidate (be_Timeframe event) in
              let technical :=
                technicalContext An_unicode ctx (default [] (ss_Measurements (w_state w) !! be_Timeframe event))
                  (from_option h_Snapshot [] (mh_For (ss_History (w_state w)) (be_Timeframe event))) event (ca_Strategy candidate)
                  (ca_Direction candidate) (en_Low (ca_Entry candidate)) (en_High (ca_Entry candidate)) (ca_Reaction candidate)
                  (set_Momentum settings) (set_Candle settings) in
              let technical := match technical with
                | None => None
                | Some t => Some (with_confluence t (match ca_DetectorConfluence candidate with
                    | Some x => Some x
                    | None => confluenceContext ctx (be_Timeframe event) candidate t (KeyLevel.RoundStep (set_KeyLevel settings))
                        (Fib.EpsilonATR (set_Fib settings)) (set_Confluence settings) (g_PipSize (set_Geometry settings))
                    end))
                end in
              Ok (Some (with_technical candidate technical
                (computeStopEnvelope candidate (set_Geometry settings) (stop_config settings))))
          end
      end
  end.

(** * worker.go: arbitration of the live set *)

Definition stringSlicesEqual (a b : list string) : bool := bool_decide (a = b).
Definition decisionEqual (a b : Decision) : bool :=
  if negb (bool_decide (de_Status a = de_Status b)) || negb (bool_decide (de_ReasonCode a = de_ReasonCode b)) ||
     negb (bool_decide (de_ThesisID a = de_ThesisID b)) then false
  else if negb (stringSlicesEqual (de_ConflictingWith a) (de_ConflictingWith b)) ||
          negb (stringSlicesEqual (de_MergedWith a) (de_MergedWith b)) then false
  else true.
Definition executable (settings : Settings) (c : Candidate) : bool :=
  negb (bool_decide (ca_Strategy c ∈ ObserveOnly settings)) &&
  negb (bool_decide (ca_StructureTimeframe c ∈ ObserveOnlyStructureTimeframes settings)).
Definition is_resting (d : Decision) : bool := bool_decide (de_ReasonCode d = ReasonNotInPlay).

Context (range1 range2 : gmap string (list Candidate) → list string).
(** The decision is news for the consumer. *)
Definition republished (lastArbitration : gmap string Decision) (d : Decision) : bool :=
  let firstLiveProjection := bool_decide (lastArbitration = ∅) in
  let previous := lastArbitration !! de_CandidateID d in
  let changed := match previous with None => true | Some p => negb (decisionEqual p d) end in
  let publishResting := negb (is_resting d) || firstLiveProjection ||
    match previous with None => false | Some p => negb (is_resting p) end in
  changed && publishResting.
Definition live_executable (w : SymbolWorker) : list Candidate :=
  let live := Live (ss_Opportunities (w_state w)) in
  if negb (bool_decide (ObserveOnly (w_settings w) = ∅)) || negb (bool_decide (ObserveOnlyStructureTimeframes (w_settings w) = ∅))
  then List.filter (executable (w_settings w)) live else live.
Definition arbitrate (w : SymbolWorker) (now : Z) (reference : float) (publish : bool) : SymbolWorker * list Call :=
  let decisions := ArbitrateInPlay range1 range2 (live_executable w) (set_Arbitration (w_settings w)) reference in
  let fresh := foldl (λ m d, <[de_CandidateID d := d]> m) ∅ decisions in
  let resting := List.filter is_resting decisions in
  let actionable := List.filter (λ d, negb (is_resting d)) decisions in
  if publish then
    (mkWorker (w_state w) (w_settings w) (w_registry w) fresh (w_techniqueZone w) (w_legacyWeekly w) (w_legacyFrames w),
     map (λ d, CallArbitration (ss_Symbol (w_state w)) (de_CandidateID d) d now)
       (List.filter (republished (w_lastArbitration w)) (actionable ++ resting)))
  else (w, []).

(** * worker.go: one closed bar *)

(** The loop over the strategies' candidates: the book, the calls so far, and the error that ended it. *)
Fixpoint observe_candidates (w : SymbolWorker) (event : BarEvent) (b : Book) (candidates : list Candidate) :
    Book * list Call * option string :=
  match candidates with
  | [] => (b, [], None)
  | c :: rest =>
      match enrich w event c with
      | Err e => (b, [], Some e)
      | Ok None => observe_candidates w event b rest
      | Ok (Some candidate) =>
          match OpportunityBook.Observe b candidate (c_Time (be_Candle event)) with
          | Err e => (b, [], Some e)
          | Ok (t, b') =>
              let '(b'', calls, err) := observe_candidates w event b' rest in
              (b'', CallObserve (ss_Symbol (w_state w)) (algo w) t (PublishesOpportunity event) :: calls, err)
          end
      end
  end.
Definition observe_calls (w : SymbolWorker) (event : BarEvent) (ts : list Transition) : list Call :=
  map (λ t, CallObserve (ss_Symbol (w_state w)) (algo w) t (PublishesOpportunity event)) ts.

(** The population of the primary timeframe, kept until its last bar changes. *)
Definition techniqueZones (w : SymbolWorker) (original : Zone.ZoneState) : SymbolWorker * Zone.ZoneState :=
  let candles := from_option h_Snapshot [] (mh_For (ss_History (w_state w)) (PrimaryTimeframe (w_settings w))) in
  match last candles with
  | None => (w, original)
  | Some c =>
      let recompute :=
        let zones := TechniqueState.techniqueZoneState candles original (set_TechniqueZones (w_settings w)) in (with_technique w (Some (c_Time c, zones)), zones) in
      match w_techniqueZone w with
      | None => recompute
      | Some (at_, zones) => if (at_ =? c_Time c)%Z then (w, zones) else recompute
      end
  end.
Definition zones_at (s : SymbolState) (tf : string) : Zone.ZoneState := default (Zone.mkZoneState [] 0) (Zone.Book_Get (ss_Zone s) tf).
(** No bar has closed for a timeframe without a structure or a liquidity state. *)
Definition closed_before (s : SymbolState) (tf : string) : bool :=
  bool_decide (is_Some (Structure.Book_Get (ss_Structure s) tf)) && bool_decide (is_Some (Liquidity.Book_Get (ss_Liquidity s) tf)).
Definition timeframe_input (s : SymbolState) (settings : Settings) (tf : string) (tfh : TimeframeHistory) (zones : Zone.ZoneState) :
    option TimeframeInput :=
  structState ← Structure.Book_Get (ss_Structure s) tf;
  liqState ← Liquidity.Book_Get (ss_Liquidity s) tf;
  Some (mkTimeframeInput (h_Snapshot tfh) structState liqState zones
    (default [] (Trendline.Book_Get (ss_Trendline s) tf)) (default [] (KeyLevel.Book_Get (ss_KeyLevel s) tf))
    (default (Session.mkState [] [] "") (Session.Book_Get (ss_Session s) tf)) (default (Fib.mkState [] None) (Fib.Book_Get (ss_Fib s) tf))
    (from_option (λ series, default 0%float (last series)) 0%float (ss_Measurements s !! tf)) (default [] (ss_Measurements s !! tf))
    (set_Regime settings) (set_MAD settings) None
    (Momentum.Classify (h_Snapshot tfh) (ss_Measurements s !! tf) (set_Momentum settings)) (set_Geometry settings)).
(** The bars of a timeframe's frame, none without a frame. *)
Definition frame_candles (ctx : MarketContext) (tf : string) : list Candle := from_option tc_Candles [] (mx_Timeframes ctx !! tf).
(** The first loop over the windows: the timeframe of the most minutes with bars, and its minutes. No two timeframes have the
    same minutes, so the order of the loop does not show. *)
Definition highest_step (ctx : MarketContext) (acc : string * Z) (tf : string) : string * Z :=
  if bool_decide (frame_candles ctx tf = []) then acc
  else if (LegacyRead.tf_minutes tf >? acc.2)%Z then (tf, LegacyRead.tf_minutes tf) else acc.
Definition highest (ctx : MarketContext) (cfg : LegacyRead.Config) : string * Z :=
  foldl (highest_step ctx) ("", 0%Z) (sorted_keys (LegacyRead.WindowBars cfg)).
(** One turn of the second loop: the cached stage of a timeframe if nothing it is keyed by has changed, else a new one; [Some None]
    where the stage panics. *)
Definition cached_frame (w : SymbolWorker) (ctx : MarketContext) (weeklyKey : Z) (weekly : list Session.Level) (tf : string) :
    option (option legacyFrameCache) :=
  let candles := frame_candles ctx tf in
  match last candles with
  | None => None
  | Some c =>
      let fresh := staged ← LegacyRead.Stage candles tf weekly (set_LegacyRead (w_settings w));
        Some (mkFrameCache (c_Time c) (length candles) weeklyKey staged) in
      Some (match w_legacyFrames w !! tf with
      | Some cached =>
          if (fc_lastTime cached =? c_Time c)%Z && (fc_length cached =? length candles) && (fc_weeklyKey cached =? weeklyKey)%Z
          then Some cached else fresh
      | None => fresh
      end)
  end.
Definition with_frame (f : TimeframeContext) (legacy : option LegacyRead.LegacyFrame) : TimeframeContext :=
  mkTimeframeContext (tc_Timeframe f) (tc_Candles f) (tc_Structure f) (tc_Liquidity f) (tc_Zones f) (tc_Trendline f) (tc_KeyLevel f)
    (tc_Session f) (tc_Fib f) (tc_Regime f) (tc_MAD f) (tc_Momentum f) (tc_Geometry f) legacy.
(** The completed frames in their places, and the read over them. *)
Definition with_reads (primary : string) (cfg : LegacyRead.Config) (staged : gmap string LegacyRead.Staged) (ctx : MarketContext) : MarketContext :=
  let frames := LegacyRead.Complete staged in
  mkMarketContext (mx_Symbol ctx)
    (map_imap (λ tf f, Some (match frames !! tf with Some frame => with_frame f (Some frame) | None => f end)) (mx_Timeframes ctx))
    (mx_Primary ctx) (Some (LegacyRead.Read frames primary cfg)).
(** [None] is a panic of [legacyread.Stage]. *)
Definition attachLegacyRead (w : SymbolWorker) (ctx : MarketContext) : option (SymbolWorker * MarketContext) :=
  let cfg := set_LegacyRead (w_settings w) in
  let '(top, minutes) := highest ctx cfg in
  match last (frame_candles ctx top) with
  | Some c =>
      if (minutes =? 0)%Z then Some (w, ctx)
      else
        let weeklyKey := c_Time c in
        let recompute := LegacyRead.Weekly (frame_candles ctx top) top cfg in
        let weekly := match w_legacyWeekly w with
          | Some (key, levels) => if (key =? weeklyKey)%Z then levels else recompute
          | None => recompute
          end in
        let cached := map_imap (λ tf _, cached_frame w ctx weeklyKey weekly tf) (LegacyRead.WindowBars cfg) in
        if bool_decide (map_Forall (λ _ (o : option legacyFrameCache), is_Some o) cached) then
          let cached := omap id cached in
          Some (with_legacy w (Some (weeklyKey, weekly)) (cached ∪ w_legacyFrames w),
                with_reads (PrimaryTimeframe (w_settings w)) cfg (fc_staged <$> cached) ctx)
        else None
  | None => Some (w, ctx)
  end.
(** [None] is a panic of [context.Build] or of [legacyread.Stage]. *)
Definition rebuildContext (w : SymbolWorker) : option SymbolWorker :=
  let s := w_state w in
  let primary := PrimaryTimeframe (w_settings w) in
  let tracked := bool_decide (is_Some (mh_For (ss_History s) primary)) && closed_before s primary in
  let '(w, technique) := if (tracked : bool) then techniqueZones w (zones_at s primary) else (w, zones_at s primary) in
  let perTF := map_imap (λ tf tfh, timeframe_input s (w_settings w) tf tfh
    (if bool_decide (tf = primary) then technique else zones_at s tf)) (mh_Timeframes (ss_History s)) in
  ctx ← Build (ss_Symbol s) primary perTF;
  '(w, ctx) ← attachLegacyRead w ctx;
  Some (with_state w (with_market s ctx)).

(** The analysis of the accepted bar, up to the rebuilt context. *)
Definition measure (s : SymbolState) (settings : Settings) (tf : string) (candles : list Candle) (atrSeries : list float) : SymbolState :=
  let structState := Structure.Update candles atrSeries tf (set_Structure settings) in
  let swings := Structure.st_Swings structState in
  let zoneState := Zone.Update candles atrSeries swings (Structure.st_Breaks structState) tf (set_Zone settings) in
  let liqState := Liquidity.Update candles atrSeries swings (set_Liquidity settings) in
  mkState (ss_Symbol s) (ss_History s) (<[tf := atrSeries]> (ss_Measurements s))
    (Structure.Book_Set (ss_Structure s) tf structState) (Zone.Book_Set (ss_Zone s) tf zoneState)
    (Liquidity.Book_Set (ss_Liquidity s) tf liqState)
    (Trendline.Book_Set (ss_Trendline s) tf (Trendline.Update candles atrSeries swings (set_Trendline settings)))
    (KeyLevel.Book_Set (ss_KeyLevel s) tf (KeyLevel.Update candles atrSeries swings (set_KeyLevel settings)))
    (Session.Book_Set (ss_Session s) tf (Session.Update candles (set_Session settings)))
    (Fib.Book_Set (ss_Fib s) tf (Fib.Update candles swings (set_Fib settings)))
    (ss_Context s) (ss_Opportunities s).
Definition analyse (w : SymbolWorker) (tf : string) (candles : list Candle) (atrSeries : list float) : option SymbolWorker :=
  rebuildContext (with_state w (measure (w_state w) (w_settings w) tf candles atrSeries)).
(** From the strategies' evaluation to the end of the bar. *)
Definition act (w : SymbolWorker) (event : BarEvent) (atrSeries : list float) (candidates : list Candidate) :
    SymbolWorker * list Call * option string :=
  let tf := be_Timeframe event in let close := c_Close (be_Candle event) in let now := c_Time (be_Candle event) in
  let '(b1, ts1) := InvalidateByClose An_unicode (ss_Opportunities (w_state w)) tf close now in
  let '(b2, ts2) := InvalidateByStructureClose b1 tf close now (structureBreakBuffer w tf atrSeries) in
  let '(b3, calls3, err) := observe_candidates w event b2 candidates in
  let calls := observe_calls w event ts1 ++ observe_calls w event ts2 ++ calls3 in
  match err with
  | Some e => (with_state w (with_opportunities (w_state w) b3), calls, Some e)
  | None =>
      let '(b4, ts4) := Expire b3 now in
      let '(w', calls5) := arbitrate (with_state w (with_opportunities (w_state w) b4)) now close (PublishesOpportunity event) in
      (w', calls ++ observe_calls w event ts4 ++ calls5, None)
  end.
(** [None] where the append or the analysis panics or the history is missing; else the worker, the calls on the publisher,
    the append's outcome and the error returned. *)
Definition ApplyWithResult (w : SymbolWorker) (event : BarEvent) :
    option (SymbolWorker * list Call * AppendResult * option string) :=
  match mh_Append (ss_History (w_state w)) event with
  | None => None
  | Some (result, rejected, history) =>
      let w := with_state w (with_history (w_state w) history) in
      if rejected then Some (w, [], result, Some "marketdata: event rejected")
      else match result with
      | AppendDuplicate | AppendOutOfOrder | AppendConflict => Some (w, [], result, None)
      | _ =>
          let calls := if PublishesOpportunity event then [CallResumeLive (ss_Symbol (w_state w))] else [] in
          match mh_For history (be_Timeframe event) with
          | None => None
          | Some tfh =>
              let candles := h_Snapshot tfh in
              match CanonicalATR candles (ATR_Length (w_settings w)) (ATR_Algorithm (w_settings w)) with
              | Err e => Some (w, calls, result, Some e)
              | Ok atrSeries =>
                  w ← analyse w (be_Timeframe event) candles atrSeries;
                  match Registry.Evaluate (Some (w_registry w)) (Some (ss_Context (w_state w))) (be_Timeframe event) with
                  | Err e => Some (w, calls, result, Some e)
                  | Ok evaluation =>
                      let '(w', calls', err) := act w event atrSeries (Registry.el_Candidates evaluation) in
                      Some (w', calls ++ calls', result, err)
                  end
              end
          end
      end
  end.

(** A run of events: the worker and every call made on the publisher, in order. *)
Fixpoint run (w : SymbolWorker) (events : list BarEvent) : option (SymbolWorker * list Call) :=
  match events with
  | [] => Some (w, [])
  | event :: rest =>
      match ApplyWithResult w event with
      | None => None
      | Some (w', calls, _, _) =>
          match run w' rest with None => None | Some (w'', calls') => Some (w'', calls ++ calls') end
      end
  end.

(** * engine.go *)

Record Engine := mkEngine { e_workers : gmap string SymbolWorker }.
Definition NewEngine : Engine := mkEngine ∅.
Definition Register (e : Engine) (symbol : string) (settings : Settings) : result Engine :=
  match NewSymbolWorker symbol settings with
  | Err err => Err err
  | Ok worker => Ok (mkEngine (<[symbol := worker]> (e_workers e)))
  end.
Definition DispatchWithResult (e : Engine) (event : BarEvent) :
    option (Engine * list Call * AppendResult * option string) :=
  match e_workers e !! be_Symbol event with
  | None => Some (e, [], AppendRejectedInvalid, Some "engine: symbol is not registered")
  | Some worker =>
      match ApplyWithResult worker event with
      | None => None
      | Some (worker', calls, result, err) =>
          Some (mkEngine (<[be_Symbol event := worker']> (e_workers e)), calls, result, err)
      end
  end.
End worker.

(** * Lemmas: what the publisher is told of the lifecycle *)

Section lemmas.
Context `{Analytics} (range1 range2 : gmap string (list Candidate) → list string) `{!RangeOrder range1, !RangeOrder range2}.

(** The transitions handed to the publisher. *)
Definition observed (calls : list Call) : list Transition :=
  omap (λ c, match c with CallObserve _ _ t _ => Some t | _ => None end) calls.

Lemma observed_app calls calls' : observed (calls ++ calls') = observed calls ++ observed calls'.
Proof. apply omap_app. Qed.
Lemma observed_calls w event ts : observed (observe_calls w event ts) = ts.
Proof. unfold observe_calls, observed. induction ts as [|t ts IH]; [done|]. cbn. by f_equal. Qed.
Lemma observed_arbitrate w now reference publish : observed (arbitrate range1 range2 w now reference publish).2 = [].
Proof. unfold arbitrate. destruct publish; [|done]. cbn. by induction (List.filter _ _). Qed.

(** A candidate enters the book created at this bar and not yet expired. *)
Lemma NormalizeGeometry_times c g c' :
  NormalizeGeometry c g = Ok c' → ca_CreatedAt c' = ca_CreatedAt c ∧ ca_ExpiresAt c' = ca_ExpiresAt c.
Proof.
  unfold NormalizeGeometry. destruct (_ || _); [by intros [= <-]|]. destruct (negb _); [done|]. cbv zeta.
  repeat case_bool_decide; try done; (destruct (Validate _); [done|]); by intros [= <-].
Qed.
Lemma enrich_in_time w event c candidate :
  enrich w event c = Ok (Some candidate) → (c_Time (be_Candle event) < ca_ExpiresAt candidate)%Z.
Proof.
  unfold enrich. cbv zeta. destruct (AtFirstObservation _ _) as [c1|] eqn:E1; [|done].
  destruct (NormalizeGeometry c1 _) as [c2|] eqn:E2; [|done]. apply NormalizeGeometry_times in E2 as [F1 F2].
  destruct (BlockedByDefendedLevel _ _ _); [done|]. intros [= <-]. cbn. rewrite F2. revert E1. unfold AtFirstObservation.
  destruct (_ <? 0)%Z; [done|]. destruct (_ <=? 0)%Z; [done|]. cbv zeta. destruct (Validate _) eqn:Ev; [done|]. intros [= <-].
  apply Validate_sound_aux in Ev. pose proof (proj2 (cs_times _ Ev)) as Ht. exact Ht.
Qed.
Lemma observe_candidates_ok w event b cs :
  book_wf b → let '(b', calls, _) := observe_candidates w event b cs in desk_ok b b' (observed calls).
Proof.
  revert b. induction cs as [|c cs IH]; intros b Hb; cbn [observe_candidates]; [by apply desk_ok_noop|].
  destruct (enrich w event c) as [[candidate|]|] eqn:Ec; [|by apply IH|by apply desk_ok_noop].
  pose proof (run_op_desk An_unicode b (OpObserve candidate (c_Time (be_Candle event))) Hb (enrich_in_time _ _ _ _ Ec)) as H1. cbn [run_op] in H1.
  destruct (OpportunityBook.Observe b candidate _) as [[t b']|]; [|by apply desk_ok_noop]. cbn [fst snd] in H1.
  specialize (IH b' (proj1 (proj1 H1))). destruct (observe_candidates w event b' cs) as [[b'' calls] err].
  change (observed (CallObserve _ _ t _ :: calls)) with ([t] ++ observed calls). by eapply desk_ok_trans.
Qed.

(** What [act] does: the book evolves and its transitions are handed over; then, unless a candidate's
    error ended the bar, the live set is arbitrated. *)
Definition is_observe (w : SymbolWorker) (publish : bool) (c : Call) : Prop :=
  ∃ t, c = CallObserve (ss_Symbol (w_state w)) (algo w) t publish.
Lemma observe_calls_observe w event ts : Forall (is_observe w (PublishesOpportunity event)) (observe_calls w event ts).
Proof. apply Forall_fmap, Forall_true. intros t. by exists t. Qed.
Lemma observe_candidates_observe w event b cs :
  Forall (is_observe w (PublishesOpportunity event)) (observe_candidates w event b cs).1.2.
Proof.
  revert b. induction cs as [|c cs IH]; intros b; cbn [observe_candidates]; [by constructor|].
  destruct (enrich w event c) as [[candidate|]|]; [|done|by constructor].
  destruct (OpportunityBook.Observe b candidate _) as [[t b']|]; [|by constructor]. specialize (IH b').
  destruct (observe_candidates w event b' cs) as [[b'' calls] err]. constructor; [by exists t|done].
Qed.

Lemma act_split w event atrSeries cs w' calls err :
  book_wf (ss_Opportunities (w_state w)) → act range1 range2 w event atrSeries cs = (w', calls, err) →
  ∃ b pre post, calls = pre ++ post ∧ Forall (is_observe w (PublishesOpportunity event)) pre ∧
    desk_ok (ss_Opportunities (w_state w)) b (observed pre) ∧
    let w1 := with_state w (with_opportunities (w_state w) b) in
    if err is Some _ then w' = w1 ∧ post = []
    else arbitrate range1 range2 w1 (c_Time (be_Candle event)) (c_Close (be_Candle event)) (PublishesOpportunity event) = (w', post).
Proof.
  intros Hb. unfold act. set (tf := be_Timeframe event). set (close := c_Close (be_Candle event)). set (now := c_Time (be_Candle event)).
  pose proof (run_op_desk An_unicode _ (OpClose tf close now) Hb I) as H1. cbn [run_op] in H1.
  destruct (InvalidateByClose _ _ _ _ _) as [b1 ts1].
  pose proof (run_op_desk An_unicode _ (OpStructureClose tf close now (structureBreakBuffer w tf atrSeries)) (proj1 (proj1 H1)) I) as H2.
  cbn [run_op] in H2. destruct (InvalidateByStructureClose _ _ _ _ _) as [b2 ts2].
  pose proof (observe_candidates_ok w event b2 cs (proj1 (proj1 H2))) as H3. pose proof (observe_candidates_observe w event b2 cs) as F3.
  destruct (observe_candidates w event b2 cs) as [[b3 calls3] err3]. cbn [fst snd] in F3.
  assert (H123 : desk_ok (ss_Opportunities (w_state w)) b3 (observed (observe_calls w event ts1 ++ observe_calls w event ts2 ++ calls3))).
  { rewrite !observed_app, !observed_calls. eapply desk_ok_trans; [exact H1|]. by eapply desk_ok_trans. }
  assert (F123 : Forall (is_observe w (PublishesOpportunity event)) (observe_calls w event ts1 ++ observe_calls w event ts2 ++ calls3))
    by (rewrite !Forall_app; auto using observe_calls_observe).
  destruct err3 as [e|].
  { intros [= <- <- <-]. exists b3, (observe_calls w event ts1 ++ observe_calls w event ts2 ++ calls3), []. by rewrite app_nil_r. }
  pose proof (run_op_desk An_unicode _ (OpExpire now) (proj1 (proj1 H3)) I) as H4. cbn [run_op] in H4. destruct (Expire b3 now) as [b4 ts4].
  destruct (arbitrate _ _ _ _ _ _) as [w5 calls5] eqn:E5. intros [= <- <- <-].
  exists b4, ((observe_calls w event ts1 ++ observe_calls w event ts2 ++ calls3) ++ observe_calls w event ts4), calls5.
  split_and!; [by rewrite <- !app_assoc|by rewrite Forall_app; auto using observe_calls_observe| |done].
  rewrite observed_app, observed_calls. by eapply desk_ok_trans.
Qed.

(** The same of one event. [acted] says that the bar was analysed to its end. *)
Definition resume_call (w : SymbolWorker) (publish : bool) : list Call :=
  if publish then [CallResumeLive (ss_Symbol (w_state w))] else [].
Definition acted (result : AppendResult) (err : option string) : bool :=
  negb (bool_decide (result = AppendDuplicate ∨ result = AppendOutOfOrder ∨ result = AppendConflict)) &&
  match err with None => true | Some _ => false end.

(** The parts of a worker's state its books and its history must satisfy. *)
Definition worker_wf (w : SymbolWorker) : Prop :=
  history_inv (ss_History (w_state w)) ∧ book_wf (ss_Opportunities (w_state w)).
(** Two workers that differ in their analysis only. *)
Definition same_desk (w w' : SymbolWorker) : Prop :=
  ss_Symbol (w_state w') = ss_Symbol (w_state w) ∧ w_settings w' = w_settings w.

Record applied (w : SymbolWorker) (event : BarEvent) (w' : SymbolWorker) (calls : list Call) (result : AppendResult)
    (err : option string) (w1 : SymbolWorker) (resume pre post : list Call) : Prop := {
  ap_calls : calls = resume ++ pre ++ post;
  ap_resume : resume = [] ∨ resume = resume_call w (PublishesOpportunity event);
  ap_pre : Forall (is_observe w (PublishesOpportunity event)) pre;
  ap_book : desk_ok (ss_Opportunities (w_state w)) (ss_Opportunities (w_state w1)) (observed pre);
  ap_history : history_inv (ss_History (w_state w1));
  ap_same : same_desk w w1;
  ap_last : w_lastArbitration w1 = w_lastArbitration w;
  ap_post : if acted result err
    then resume = resume_call w (PublishesOpportunity event) ∧
      arbitrate range1 range2 w1 (c_Time (be_Candle event)) (c_Close (be_Candle event)) (PublishesOpportunity event) = (w', post)
    else w' = w1 ∧ post = [];
}.

(** The analysis changes neither the desk's identity nor its history, opportunities or sent decisions. *)
Record analysis_only (w w' : SymbolWorker) : Prop := {
  ao_symbol : ss_Symbol (w_state w') = ss_Symbol (w_state w);
  ao_history : ss_History (w_state w') = ss_History (w_state w);
  ao_opportunities : ss_Opportunities (w_state w') = ss_Opportunities (w_state w);
  ao_settings : w_settings w' = w_settings w;
  ao_last : w_lastArbitration w' = w_lastArbitration w;
  ao_registry : w_registry w' = w_registry w;
}.
Lemma techniqueZones_only w original :
  let w' := (techniqueZones w original).1 in
  w_state w' = w_state w ∧ w_settings w' = w_settings w ∧ w_lastArbitration w' = w_lastArbitration w ∧ w_registry w' = w_registry w.
Proof.
  unfold techniqueZones. destruct (last _) as [c|]; [|done]. destruct (w_techniqueZone w) as [[a z]|]; [|done].
  by destruct (a =? c_Time c)%Z.
Qed.
(** The scalp windows under which the detector-contract read never panics. *)
Definition reads_return (settings : Settings) : Prop := ScalpRange.windows_ok (LegacyRead.scaled_scalp (set_LegacyRead settings)).

(** The caches in use, and the same with the read attached: a worker and a context. *)
Lemma attachLegacyRead_only w ctx :
  match attachLegacyRead w ctx with
  | Some (w', _) => w_state w' = w_state w ∧ w_settings w' = w_settings w ∧ w_lastArbitration w' = w_lastArbitration w ∧
      w_registry w' = w_registry w
  | None => ¬ reads_return (w_settings w)
  end.
Proof.
  unfold attachLegacyRead. destruct (highest _ _) as [top minutes]. destruct (last _) as [c|]; [|done].
  destruct (minutes =? 0)%Z; [done|]. cbv zeta. case_bool_decide as Hall; [done|]. intros Hok. apply Hall.
  intros tf o. rewrite map_lookup_imap. destruct (_ !! tf) as [window|]; [|done]. cbn. unfold cached_frame.
  destruct (last (frame_candles ctx tf)) as [c'|]; [|done]. cbv zeta.
  destruct (LegacyRead.Stage_total (frame_candles ctx tf) tf
    match w_legacyWeekly w with
    | Some (key, levels) => if (key =? c_Time c)%Z then levels else LegacyRead.Weekly (frame_candles ctx top) top (set_LegacyRead (w_settings w))
    | None => LegacyRead.Weekly (frame_candles ctx top) top (set_LegacyRead (w_settings w))
    end _ Hok) as [st ->].
  cbn [mbind option_bind]. intros [= <-]. destruct (w_legacyFrames w !! tf); [|by eexists]. destruct (_ && _); by eexists.
Qed.
Lemma rebuildContext_only w :
  match rebuildContext w with Some w' => analysis_only w w' | None => ¬ reads_return (w_settings w) end.
Proof.
  unfold rebuildContext. set (tracked := _ && _).
  destruct (if tracked then _ else _) as [w1 technique] eqn:E.
  assert (Hw1 : w_state w1 = w_state w ∧ w_settings w1 = w_settings w ∧ w_lastArbitration w1 = w_lastArbitration w ∧ w_registry w1 = w_registry w).
  { destruct tracked; [|by injection E as <- _]. change w1 with (w1, technique).1. rewrite <- E. apply techniqueZones_only. }
  destruct Hw1 as (E1 & E2 & E3 & E4). set (perTF := map_imap _ _).
  destruct (build_frames_Some perTF) as [frames Hf].
  { intros tf input. unfold perTF. rewrite map_lookup_imap. destruct (_ !! tf) as [tfh|]; [|done]. cbn. unfold timeframe_input.
    destruct (Structure.Book_Get _ _); [|done]. destruct (Liquidity.Book_Get _ _); [|done]. cbn. intros [= <-]. by right. }
  unfold Build. rewrite Hf. cbn [mbind option_bind].
  match goal with |- context [attachLegacyRead w1 ?ctx] => pose proof (attachLegacyRead_only w1 ctx) as Ha; destruct (attachLegacyRead w1 ctx) as [[w2 ctx2]|] end;
    cbn [mbind option_bind]; [|by rewrite <- E2]. destruct Ha as (F1 & F2 & F3 & F4). split; cbn; congruence.
Qed.
Lemma analyse_only w tf candles atrSeries :
  match analyse w tf candles atrSeries with Some w' => analysis_only w w' | None => ¬ reads_return (w_settings w) end.
Proof.
  unfold analyse. pose proof (rebuildContext_only (with_state w (measure (w_state w) (w_settings w) tf candles atrSeries))) as Hr.
  destruct (rebuildContext _) as [w'|]; [|exact Hr]. destruct Hr. by split.
Qed.

Lemma ApplyWithResult_split w event :
  worker_wf w →
  match ApplyWithResult range1 range2 w event with
  | Some (w', calls, result, err) => ∃ w1 resume pre post, applied w event w' calls result err w1 resume pre post
  | None => ¬ reads_return (w_settings w)
  end.
Proof.
  intros [Hh Hb]. unfold ApplyWithResult. destruct (mh_Append_inv _ event Hh) as (r & rej & h' & -> & Hh' & Hfor).
  pose proof (desk_ok_noop _ Hb) as Hrefl. cbv zeta.
  set (w0 := with_state w (with_history (w_state w) h')).
  assert (Hidle : ∀ w1 err resume, resume = [] ∨ resume = resume_call w (PublishesOpportunity event) → acted r err = false →
    analysis_only w0 w1 → ∃ w2 resume' pre post, applied w event w1 resume r err w2 resume' pre post).
  { intros w1 err resume Hr Ha [Es Eh Eb Est El _]. cbn in *. exists w1, resume, [], [].
    split; cbn; rewrite ?Eb, ?Eh, ?Ha, ?app_nil_r; done. }
  assert (Hself : analysis_only w0 w0) by done.
  destruct rej.
  { apply Hidle; auto. unfold acted. by rewrite andb_false_r. }
  destruct (Hfor eq_refl) as [tfh Etfh].
  assert (Hdup : r = AppendDuplicate ∨ r = AppendOutOfOrder ∨ r = AppendConflict ∨
    acted r None = true) by (destruct r; auto).
  destruct Hdup as [->|[->|[->|Hact]]]; [by apply Hidle; auto..|].
  rewrite Etfh. set (resume := if PublishesOpportunity event then _ else _).
  assert (Eres : resume = resume_call w (PublishesOpportunity event)) by done.
  assert (Herr : ∀ e, acted r (Some e) = false) by (intros; unfold acted; by rewrite andb_false_r).
  assert (Hdo : ∀ A (a b : A), r ≠ AppendDuplicate → r ≠ AppendOutOfOrder → r ≠ AppendConflict →
    match r with AppendDuplicate | AppendOutOfOrder | AppendConflict => a | _ => b end = b) by (by destruct r).
  rewrite Hdo; [|by intros ->..]. clear Hdo.
  destruct (CanonicalATR _ _ _) as [atrSeries|e].
  2:{ apply Hidle; auto. }
  pose proof (analyse_only w0 (be_Timeframe event) (h_Snapshot tfh) atrSeries) as Hw1.
  destruct (analyse w0 _ _ _) as [w1|]; cbn [mbind option_bind]; [|exact Hw1].
  destruct (Registry.Evaluate _ _ _) as [evaluation|e].
  2:{ apply Hidle; auto. }
  assert (Hb1 : book_wf (ss_Opportunities (w_state w1))) by (by rewrite (ao_opportunities _ _ Hw1)).
  destruct (act range1 range2 w1 event atrSeries _) as [[w' calls'] err'] eqn:E.
  destruct (act_split w1 event atrSeries _ _ _ _ Hb1 E) as (b & pre & post & -> & Hpre & Hop & Hpost).
  exists (with_state w1 (with_opportunities (w_state w1) b)), resume, pre, post.
  destruct Hw1 as [Es Eh Eb Est El _]. cbn in Es, Eh, Eb, Est, El.
  split; cbn; [done|by right| |by rewrite <- Eb|by rewrite Eh|by split|done|].
  - eapply Forall_impl; [exact Hpre|]. intros c [t ->]. exists t. unfold algo. by rewrite Es, Est.
  - destruct err'; [by rewrite Herr|]. by rewrite Hact.
Qed.

Section applied_facts.
Context {w event w' calls result err w1 resume pre post}
  (Ha : applied w event w' calls result err w1 resume pre post).

Lemma applied_state : w_state w' = w_state w1 ∧ w_settings w' = w_settings w1.
Proof.
  pose proof (ap_post _ _ _ _ _ _ _ _ _ _ Ha) as Hp. destruct (acted result err).
  - destruct Hp as [_ Hp]. unfold arbitrate in Hp. by destruct (PublishesOpportunity event); injection Hp as <- _.
  - by destruct Hp as [-> _].
Qed.
Lemma applied_observed : observed calls = observed pre.
Proof.
  rewrite (ap_calls _ _ _ _ _ _ _ _ _ _ Ha), !observed_app.
  assert (E1 : observed resume = []).
  { destruct (ap_resume _ _ _ _ _ _ _ _ _ _ Ha) as [->| ->]; [done|]. unfold resume_call. by destruct (PublishesOpportunity event). }
  assert (E2 : observed post = []).
  { pose proof (ap_post _ _ _ _ _ _ _ _ _ _ Ha) as Hp. destruct (acted result err); [|by destruct Hp as [_ ->]].
    destruct Hp as [_ Hp]. change post with (w', post).2. rewrite <- Hp. apply observed_arbitrate. }
  by rewrite E1, E2, app_nil_r.
Qed.
Lemma applied_wf : worker_wf w'.
Proof.
  destruct applied_state as [E _]. unfold worker_wf. rewrite E. split; [apply Ha|].
  apply (proj1 (ap_book _ _ _ _ _ _ _ _ _ _ Ha)).
Qed.
Lemma applied_desk_ok : desk_ok (ss_Opportunities (w_state w)) (ss_Opportunities (w_state w')) (observed calls).
Proof. destruct applied_state as [-> _]. rewrite applied_observed. apply Ha. Qed.
Lemma applied_same : same_desk w w'.
Proof. destruct applied_state as [E1 E2]. unfold same_desk. rewrite E1, E2. apply Ha. Qed.
End applied_facts.

(** Rule induction over a run: what every event preserves, every run does; and a run returns unless the detector-contract read
    panics. *)
Lemma run_ind (I : SymbolWorker → list Call → Prop) w events :
  worker_wf w → I w [] →
  (∀ w0 sofar event w' calls result err, worker_wf w0 → I w0 sofar → event ∈ events →
     (∃ w1 resume pre post, applied w0 event w' calls result err w1 resume pre post) → I w' (sofar ++ calls)) →
  match run range1 range2 w events with
  | Some (w', calls) => worker_wf w' ∧ I w' calls
  | None => ¬ reads_return (w_settings w)
  end.
Proof.
  intros Hw HI Hstep.
  cut (∀ sofar, I w sofar → match run range1 range2 w events with
    | Some (w', calls) => worker_wf w' ∧ I w' (sofar ++ calls)
    | None => ¬ reads_return (w_settings w)
    end).
  { intros Hc. exact (Hc [] HI). }
  clear HI. revert w Hw Hstep. induction events as [|event events IH]; intros w Hw Hstep sofar HI; cbn [run].
  { split; [done|]. by rewrite app_nil_r. }
  pose proof (ApplyWithResult_split w event Hw) as Hex.
  destruct (ApplyWithResult range1 range2 w event) as [[[[w1 calls1] r] err]|]; [|done].
  pose proof (Hstep w sofar event w1 calls1 r err Hw HI ltac:(set_solver) Hex) as H1.
  destruct Hex as (? & ? & ? & ? & Ha).
  pose proof (IH w1 (applied_wf Ha) ltac:(intros; eapply Hstep; set_solver) _ H1) as H2.
  destruct (run range1 range2 w1 events) as [[w2 calls2]|]; [|].
  - by rewrite app_assoc.
  - destruct (applied_same Ha) as [_ Es]. by rewrite <- Es.
Qed.
Lemma run_returns w events :
  worker_wf w → reads_return (w_settings w) → ∃ w' calls, run range1 range2 w events = Some (w', calls).
Proof.
  intros Hw Hr. pose proof (run_ind (λ _ _, True) w events Hw I ltac:(done)) as H1.
  destruct (run range1 range2 w events) as [[w' calls]|]; [by eexists _, _|done].
Qed.

Lemma NewSymbolWorker_fresh symbol settings w :
  NewSymbolWorker symbol settings = Ok w →
  worker_wf w ∧ ss_Opportunities (w_state w) = NewBook ∧ w_lastArbitration w = ∅ ∧ w_settings w = settings.
Proof.
  unfold NewSymbolWorker, NewSymbolState. destruct (NewMarketHistory _ _ _) as [h|] eqn:E; [|done].
  destruct (Registry.NewRegistry _ _); [|done]. intros [= <-].
  split_and!; [|done..]. split; [by eapply NewMarketHistory_inv|apply book_wf_empty].
Qed.

(** * Lemmas: the consumer's view of the decisions *)

(** What becomes of the decision held on an opportunity when another is sent. While the held one is still queued, the publisher
    drops a decision that is not later ([EnqueueArbitrationDecision]); once delivered, the consumer drops one that is earlier
    ([on_arbitration_decision] of the bot). *)
Definition dropped (queued : bool) (held now : Z) : bool := if queued then (held >=? now)%Z else (held >? now)%Z.
(** The decisions that reach the consumer, each with its time; every call comes with whether the decision before it on the same
    opportunity is then still queued. *)
Definition view_step (v : gmap string (Decision * Z)) (c : bool * Call) : gmap string (Decision * Z) :=
  match c.2 with
  | CallArbitration _ id d now =>
      match v !! id with
      | Some (_, held) => if dropped c.1 held now then v else <[id := (d, now)]> v
      | None => <[id := (d, now)]> v
      end
  | _ => v
  end.
Definition view_from (v : gmap string (Decision * Z)) (calls : list (bool * Call)) : gmap string (Decision * Z) := foldl view_step v calls.
(** Each opportunity's decisions are sent with ever later times. *)
Definition sent_before (c c' : Call) : bool :=
  match c, c' with
  | CallArbitration _ id _ t, CallArbitration _ id' _ t' => negb (bool_decide (id = id')) || (t <? t')%Z
  | _, _ => true
  end.
Fixpoint in_order (calls : list Call) : bool :=
  match calls with [] => true | c :: rest => forallb (sent_before c) rest && in_order rest end.

(** The last decision per opportunity. *)
Definition latest_step (v : gmap string Decision) (c : Call) : gmap string Decision :=
  match c with CallArbitration _ id d _ => <[id := d]> v | _ => v end.
Definition latest_from (v : gmap string Decision) (calls : list Call) : gmap string Decision := foldl latest_step v calls.

Lemma latest_from_quiet v calls : Forall (λ c, match c with CallArbitration _ _ _ _ => False | _ => True end) calls → latest_from v calls = v.
Proof. intros Hq. revert v. induction Hq as [|c calls Hc _ IH]; intros v; [done|]. cbn. by destruct c; [apply IH..|]. Qed.
Lemma latest_from_app v calls calls' : latest_from v (calls ++ calls') = latest_from (latest_from v calls) calls'.
Proof. apply foldl_app. Qed.
(** In order, nothing is dropped. *)
Lemma view_latest calls v :
  in_order calls.*2 = true →
  (∀ id d t s d' t', v !! id = Some (d, t) → CallArbitration s id d' t' ∈ calls.*2 → (t < t')%Z) →
  fst <$> view_from v calls = latest_from (fst <$> v) calls.*2.
Proof.
  revert v. induction calls as [|[queued c] calls IH]; intros v Ho Hv; [done|]. cbn [fmap list_fmap in_order snd] in Ho.
  apply andb_true_iff in Ho as [Hb Ho]. rewrite forallb_forall in Hb. change (view_from v ((queued, c) :: calls)) with (view_from (view_step v (queued, c)) calls).
  change (latest_from (fst <$> v) ((queued, c) :: calls).*2) with (latest_from (latest_step (fst <$> v) c) calls.*2).
  destruct c as [|? ? ? ?|s id d now]; [apply IH; [done|]; intros; eapply Hv; [done|]; by right..|].
  assert (E : view_step v (queued, CallArbitration s id d now) = <[id := (d, now)]> v).
  { cbn. destruct (v !! id) as [[d0 held]|] eqn:E; [|done]. specialize (Hv id d0 held s d now E ltac:(by left)).
    unfold dropped. destruct queued; [destruct (Z.geb_spec held now)|destruct (Z.gtb_spec held now)]; (lia || done). }
  rewrite E, IH; [by cbn; rewrite fmap_insert|done|].
  intros id' d1 t1 s' d' t' Hl Hin. destruct (decide (id' = id)) as [->|].
  - rewrite lookup_insert_eq in Hl. injection Hl as <- <-. apply list_elem_of_In in Hin. specialize (Hb _ Hin). cbn in Hb.
    rewrite bool_decide_true in Hb by done. by apply Z.ltb_lt in Hb.
  - rewrite lookup_insert_ne in Hl by done. eapply Hv; [done|]. by right.
Qed.

(** Inserting decisions under their own identifiers, no identifier twice. *)
Lemma insert_decisions ds (v : gmap string Decision) id :
  NoDup (map de_CandidateID ds) →
  let v' := foldl (λ m d, <[de_CandidateID d := d]> m) v ds in
  (∀ d, d ∈ ds → de_CandidateID d = id → v' !! id = Some d) ∧
  (id ∉ map de_CandidateID ds → v' !! id = v !! id).
Proof.
  revert v. induction ds as [|d0 ds IH]; intros v Hnd; cbn [foldl map] in *.
  { split; [|done]. by intros d Hd%elem_of_nil. }
  apply NoDup_cons in Hnd as [Hni Hnd]. destruct (IH (<[de_CandidateID d0 := d0]> v) Hnd) as [IH1 IH2]. split.
  - intros d [->|Hd]%elem_of_cons <-; [|by apply IH1]. rewrite IH2 by done. apply lookup_insert_eq.
  - intros Hn. apply not_elem_of_cons in Hn as [? ?]. rewrite IH2 by done. by rewrite lookup_insert_ne.
Qed.
Lemma view_decisions symbol ds now v :
  latest_from v (map (λ d, CallArbitration symbol (de_CandidateID d) d now) ds) = foldl (λ m d, <[de_CandidateID d := d]> m) v ds.
Proof. revert v. induction ds as [|d ds IH]; intros v; [done|]. apply IH. Qed.

Lemma decisionEqual_iff a b : de_CandidateID a = de_CandidateID b → decisionEqual a b = true ↔ a = b.
Proof.
  intros E. unfold decisionEqual, stringSlicesEqual. split; [|intros ->; by rewrite !bool_decide_true].
  destruct a, b; cbn in *. repeat (case_bool_decide; cbn [negb orb]; [|done]). by subst.
Qed.

(** * Lemmas: the live executable set *)

Lemma Live_elem b c : book_wf b → c ∈ Live b ↔ ∃ r, b !! ca_ID c = Some r ∧ live r = true ∧ rec_Candidate r = c.
Proof.
  intros Hb. unfold Live. rewrite list_elem_of_omap. split.
  - intros (id & _ & E). destruct (b !! id) as [r|] eqn:Er; [|done]. destruct (live r) eqn:El; [|done]. injection E as <-.
    exists r. by rewrite (rw_id _ _ (Hb _ _ Er)).
  - intros (r & Er & El & <-). exists (ca_ID (rec_Candidate r)). rewrite Er, El. split; [|done].
    apply elem_of_sorted_keys. by eexists.
Qed.
Lemma Validate_named c : Validate c = None → ca_ID c ≠ "".
Proof.
  unfold Validate. cbv zeta. rewrite first_error_None, !Forall_cons, !check_None. intros Hv. destruct Hv as (Hv & _). bools. done.
Qed.
Lemma Live_ok b : book_wf b → live_ok (Live b).
Proof.
  intros Hb. split.
  - unfold Live. pose proof (sorted_keys_NoDup b) as Hnd. eapply sublist_NoDup; [exact Hnd|]. clear Hnd.
    induction (sorted_keys b) as [|id ids IH]; [done|]. cbn [omap list_omap]. destruct (b !! id) as [r|] eqn:Er; [|by apply sublist_cons].
    destruct (live r); [|by apply sublist_cons]. cbn [map]. rewrite (rw_id _ _ (Hb _ _ Er)). by apply sublist_skip.
  - apply Forall_forall. intros c (r & Er & _ & <-)%Live_elem; [|done]. eapply Validate_named, rw_valid, (Hb _ _ Er).
  - apply Forall_forall. intros c (r & Er & _ & <-)%Live_elem; [|done]. eapply Validate_quality, rw_valid, (Hb _ _ Er).
Qed.
Lemma live_executable_filter w : live_executable w = List.filter (executable (w_settings w)) (Live (ss_Opportunities (w_state w))).
Proof.
  unfold live_executable. destruct (_ || _) eqn:E; [done|]. apply orb_false_iff in E as [E1 E2].
  apply negb_false_iff, bool_decide_eq_true in E1, E2. symmetry. induction (Live _) as [|c l IH]; [done|]. cbn [List.filter].
  unfold executable at 1. rewrite E1, E2, !bool_decide_false by set_solver. cbn. by rewrite IH.
Qed.
Lemma live_executable_elem w c :
  book_wf (ss_Opportunities (w_state w)) →
  c ∈ live_executable w ↔ ∃ r, ss_Opportunities (w_state w) !! ca_ID c = Some r ∧ live r = true ∧ rec_Candidate r = c ∧
    executable (w_settings w) c = true.
Proof.
  intros Hb. rewrite live_executable_filter, list_elem_of_In, filter_In, <- list_elem_of_In, Live_elem by done. naive_solver.
Qed.
Lemma live_executable_ok w : book_wf (ss_Opportunities (w_state w)) → live_ok (live_executable w).
Proof. intros Hb. rewrite live_executable_filter. by apply live_ok_filter, Live_ok. Qed.

(** * Lemmas: the view invariant *)

Definition tracked (settings : Settings) (b : Book) (id : string) : Prop :=
  ∃ r, b !! id = Some r ∧ executable settings (rec_Candidate r) = true.
Definition dead (b : Book) (id : string) : Prop := ∃ r, b !! id = Some r ∧ live r = false.
(** The consumer holds an actionable decision exactly, and nothing actionable for a resting one. *)
Definition view_matches (v : gmap string Decision) (id : string) (d : Decision) : Prop :=
  if is_resting d then ∀ d', v !! id = Some d' → is_resting d' = true else v !! id = Some d.
Record view_inv (settings : Settings) (b : Book) (lastArbitration v : gmap string Decision) : Prop := {
  vi_known : ∀ id d, lastArbitration !! id = Some d → de_CandidateID d = id ∧ tracked settings b id;
  vi_stale : ∀ id d, v !! id = Some d → is_Some (lastArbitration !! id) ∨ dead b id;
  vi_match : ∀ id d, lastArbitration !! id = Some d → view_matches v id d;
}.

Lemma dead_evolves b b' id : book_evolves b b' → dead b id → dead b' id.
Proof.
  intros He (r & Hr & Hl). destruct (He id r Hr) as (r' & Hr' & _ & _ & Hfin & _). exists r'. split; [done|]. by rewrite (Hfin Hl).
Qed.
Lemma view_inv_evolves settings b b' m v : book_evolves b b' → view_inv settings b m v → view_inv settings b' m v.
Proof.
  intros He [H1 H2 H3]. split; [|intros id d Hv; destruct (H2 id d Hv) as [?|?]; [by left|right; by eapply dead_evolves]|done].
  intros id d Hm. destruct (H1 id d Hm) as [? (r & Hr & Hx)]. split; [done|].
  destruct (He id r Hr) as (r' & Hr' & Hc & _). exists r'. by rewrite Hc.
Qed.

(** The decisions of one arbitration, and the ones that are sent. *)
Definition decisions (w : SymbolWorker) (reference : float) : list Decision :=
  ArbitrateInPlay range1 range2 (live_executable w) (set_Arbitration (w_settings w)) reference.
Definition sent (w : SymbolWorker) (reference : float) : list Decision :=
  List.filter (republished (w_lastArbitration w))
    (List.filter (λ d, negb (is_resting d)) (decisions w reference) ++ List.filter is_resting (decisions w reference)).
Lemma arbitrate_publish w now reference :
  arbitrate range1 range2 w now reference true =
  (mkWorker (w_state w) (w_settings w) (w_registry w) (foldl (λ m d, <[de_CandidateID d := d]> m) ∅ (decisions w reference))
     (w_techniqueZone w) (w_legacyWeekly w) (w_legacyFrames w),
   map (λ d, CallArbitration (ss_Symbol (w_state w)) (de_CandidateID d) d now) (sent w reference)).
Proof. done. Qed.
Lemma sent_elem w reference d : d ∈ sent w reference ↔ d ∈ decisions w reference ∧ republished (w_lastArbitration w) d = true.
Proof.
  unfold sent. rewrite list_elem_of_In, filter_In, in_app_iff, !filter_In, <- list_elem_of_In. destruct (is_resting d); naive_solver.
Qed.
Lemma current_IDs w reference :
  book_wf (ss_Opportunities (w_state w)) → map de_CandidateID (decisions w reference) ≡ₚ map ca_ID (live_executable w).
Proof. intros Hb. apply ArbitrateInPlay_IDs; [done..|by apply live_executable_ok]. Qed.
Lemma decisions_NoDup w reference :
  book_wf (ss_Opportunities (w_state w)) → NoDup (map de_CandidateID (decisions w reference)).
Proof. intros Hb. rewrite current_IDs by done. apply (lo_ids _ (live_executable_ok w Hb)). Qed.
Lemma sent_all w reference :
  List.filter (λ d, negb (is_resting d)) (decisions w reference) ++ List.filter is_resting (decisions w reference) ≡ₚ decisions w reference.
Proof.
  rewrite Permutation_app_comm. etrans; [|apply (partition_perm (λ d, negb (is_resting d)))].
  by rewrite (List.filter_ext (λ d, negb (negb (is_resting d))) is_resting) by (intros; apply negb_involutive).
Qed.
Lemma sent_NoDup w reference : book_wf (ss_Opportunities (w_state w)) → NoDup (map de_CandidateID (sent w reference)).
Proof.
  intros Hb. pose proof (decisions_NoDup w reference Hb) as Hnd. rewrite <- sent_all in Hnd. unfold sent.
  revert Hnd. generalize (List.filter (λ d, negb (is_resting d)) (decisions w reference) ++ List.filter is_resting (decisions w reference)).
  intros l Hnd. eapply sublist_NoDup; [exact Hnd|]. clear Hnd. induction l as [|d l IH]; [done|]. cbn [List.filter].
  destruct (republished _ d); [by apply sublist_skip|by apply sublist_cons].
Qed.

Lemma republished_first l : List.filter (republished ∅) l = l.
Proof.
  induction l as [|d l IH]; [done|]. cbn [List.filter].
  assert (republished ∅ d = true) as -> by (unfold republished; rewrite lookup_empty, bool_decide_true by done; by rewrite orb_true_r).
  by rewrite IH.
Qed.

(** A decision that is not sent leaves the consumer where it should be. *)
Lemma unsent_matches settings b m v d :
  view_inv settings b m v → ¬ dead b (de_CandidateID d) → republished m d = false → view_matches v (de_CandidateID d) d.
Proof.
  intros Hi Hd. unfold republished. destruct (m !! de_CandidateID d) as [p|] eqn:Ep.
  - destruct (vi_known _ _ _ _ Hi _ _ Ep) as [Eid _]. pose proof (vi_match _ _ _ _ Hi _ _ Ep) as Hm.
    destruct (decisionEqual p d) eqn:Eq; cbn [negb andb].
    { apply decisionEqual_iff in Eq as ->; done. }
    destruct (is_resting d) eqn:Er; cbn [negb orb]; [|done]. destruct (bool_decide (m = ∅)); [done|]. cbn [orb].
    intros Hp%negb_false_iff. unfold view_matches in *. by rewrite Er, Hp in *.
  - cbn [andb]. destruct (is_resting d) eqn:Er; cbn [negb orb]; [|done]. intros _. unfold view_matches. rewrite Er.
    intros d' Hv. destruct (vi_stale _ _ _ _ Hi _ _ Hv) as [[? Hs]|?]; [by rewrite Ep in Hs|done].
Qed.

Lemma arbitrate_view w now reference w' post v :
  book_wf (ss_Opportunities (w_state w)) →
  view_inv (w_settings w) (ss_Opportunities (w_state w)) (w_lastArbitration w) v →
  arbitrate range1 range2 w now reference true = (w', post) →
  view_inv (w_settings w) (ss_Opportunities (w_state w)) (w_lastArbitration w') (latest_from v post).
Proof.
  intros Hb Hi. rewrite arbitrate_publish. intros [= <- <-]. rewrite view_decisions. cbn [w_lastArbitration].
  set (b := ss_Opportunities (w_state w)) in *. set (fresh := foldl _ ∅ _). set (v' := foldl _ v _).
  assert (Hfresh : ∀ id d, fresh !! id = Some d ↔ d ∈ decisions w reference ∧ de_CandidateID d = id).
  { intros id d. destruct (insert_decisions _ ∅ id (decisions_NoDup w reference Hb)) as [F1 F2]. fold fresh in F1, F2.
    split; [|intros [? ?]; by apply F1]. intros Hd.
    destruct (decide (id ∈ map de_CandidateID (decisions w reference))) as [(d' & -> & Hd')%list_elem_of_fmap|Hn].
    - rewrite (F1 d' Hd' eq_refl) in Hd. by injection Hd as ->.
    - rewrite (F2 Hn), lookup_empty in Hd. done. }
  assert (Hlive : ∀ id, id ∈ map de_CandidateID (decisions w reference) ↔
    ∃ r, b !! id = Some r ∧ live r = true ∧ executable (w_settings w) (rec_Candidate r) = true).
  { intros id. rewrite current_IDs, list_elem_of_fmap by done. split.
    - intros (c & -> & (r & Hr & Hl & <- & Hx)%live_executable_elem); [|done]. by exists r.
    - intros (r & Hr & Hl & Hx). exists (rec_Candidate r). rewrite (rw_id _ _ (Hb _ _ Hr)). split; [done|].
      apply live_executable_elem; [done|]. exists r. by rewrite (rw_id _ _ (Hb _ _ Hr)). }
  assert (Hview : ∀ id, (∃ d, d ∈ sent w reference ∧ de_CandidateID d = id ∧ v' !! id = Some d) ∨
    ((id ∉ map de_CandidateID (sent w reference)) ∧ v' !! id = v !! id)).
  { intros id. destruct (insert_decisions _ v id (sent_NoDup w reference Hb)) as [F1 F2].
    destruct (decide (id ∈ map de_CandidateID (sent w reference))) as [(d & -> & Hd)%list_elem_of_fmap|Hn]; [left|right].
    - exists d. auto.
    - auto. }
  split.
  - intros id d [Hd <-]%Hfresh. split; [done|].
    destruct (proj1 (Hlive (de_CandidateID d)) (list_elem_of_fmap_2 _ _ _ Hd)) as (r & Hr & _ & Hx). by exists r.
  - intros id d Hv. destruct (Hview id) as [(d' & [Hd' _]%sent_elem & <- & _)|[_ E]].
    { left. exists d'. by apply Hfresh. }
    rewrite E in Hv. destruct (vi_stale _ _ _ _ Hi _ _ Hv) as [[p Hp]|Hdead]; [|by right].
    destruct (vi_known _ _ _ _ Hi _ _ Hp) as [_ (r & Hr & Hx)]. destruct (live r) eqn:El; [|right; by exists r].
    left. assert (Hin : id ∈ map de_CandidateID (decisions w reference)) by (apply Hlive; by exists r).
    apply list_elem_of_fmap in Hin as (d' & -> & Hd'). exists d'. by apply Hfresh.
  - intros id d [Hd <-]%Hfresh. destruct (republished (w_lastArbitration w) d) eqn:Er.
    + destruct (insert_decisions _ v (de_CandidateID d) (sent_NoDup w reference Hb)) as [F1 _].
      assert (E : v' !! de_CandidateID d = Some d) by (apply F1; [by apply sent_elem|done]).
      unfold view_matches. rewrite E. destruct (is_resting d) eqn:Eres; [|done]. by intros d' [= <-].
    + assert (Hnd : ¬ dead b (de_CandidateID d)).
      { intros (r & Hr & Hl). destruct (proj1 (Hlive (de_CandidateID d)) (list_elem_of_fmap_2 _ _ _ Hd)) as (r' & Hr' & Hl' & _).
        congruence. }
      pose proof (unsent_matches _ _ _ _ d Hi Hnd Er) as Hm. unfold view_matches in *.
      destruct (Hview (de_CandidateID d)) as [(d' & Hd' & Eid & _)|[_ ->]]; [|done].
      exfalso. apply sent_elem in Hd' as [Hd' Er']. assert (d' = d) as ->; [|congruence].
      pose proof (proj2 (Hfresh _ d') (conj Hd' Eid)) as E1. pose proof (proj2 (Hfresh _ d) (conj Hd eq_refl)) as E2. congruence.
Qed.

Section applied_view.
Context {w event w' calls result err w1 resume pre post}
  (Ha : applied w event w' calls result err w1 resume pre post).

Lemma applied_quiet : Forall (λ c, match c with CallArbitration _ _ _ _ => False | _ => True end) (resume ++ pre).
Proof.
  apply Forall_app. split.
  - destruct (ap_resume _ _ _ _ _ _ _ _ _ _ Ha) as [->| ->]; [done|]. unfold resume_call. destruct (PublishesOpportunity event); by repeat constructor.
  - eapply Forall_impl; [apply (ap_pre _ _ _ _ _ _ _ _ _ _ Ha)|]. by intros c [t ->].
Qed.
Lemma applied_view v :
  view_inv (w_settings w) (ss_Opportunities (w_state w)) (w_lastArbitration w) v →
  view_inv (w_settings w') (ss_Opportunities (w_state w')) (w_lastArbitration w') (latest_from v calls).
Proof.
  intros Hi. destruct (applied_state Ha) as [E1 E2]. rewrite E1, E2.
  assert (Ew : w_settings w1 = w_settings w) by apply Ha. rewrite Ew.
  rewrite (ap_calls _ _ _ _ _ _ _ _ _ _ Ha), app_assoc, latest_from_app, (latest_from_quiet v) by apply applied_quiet.
  pose proof (ap_book _ _ _ _ _ _ _ _ _ _ Ha) as [(Hb & He & _) _]. pose proof (ap_last _ _ _ _ _ _ _ _ _ _ Ha) as El.
  apply (view_inv_evolves _ _ _ _ _ He) in Hi. rewrite <- El, <- Ew in Hi. rewrite <- Ew.
  pose proof (ap_post _ _ _ _ _ _ _ _ _ _ Ha) as Hp. destruct (acted result err); [|by destruct Hp as [-> ->]].
  destruct Hp as [_ Hp]. destruct (PublishesOpportunity event) eqn:Epub.
  - by eapply arbitrate_view.
  - unfold arbitrate in Hp. injection Hp as <- <-. done.
Qed.
End applied_view.

(** The call as the publisher receives it. *)
Definition deliver (zero : Transition) (p : OpportunityPublisher) (eventID : string) (d : Disk) (c : Call) : OpportunityPublisher :=
  match c with
  | CallResumeLive symbol => ResumeLive sorted_keys p symbol d
  | CallObserve symbol algo t publish => Publisher.Observe p eventID symbol algo t publish d
  | CallArbitration symbol id decision decidedAt => EnqueueArbitrationDecision zero p eventID symbol id decision decidedAt d
  end.
Lemma Observe_silent p eventID symbol algo t d :
  l_Queue (p_ledger (Publisher.Observe p eventID symbol algo t false d)) = l_Queue (p_ledger p).
Proof.
  unfold Publisher.Observe. destruct (negb (ShouldPublish t)); [done|]. case_bool_decide; [done|]. cbv zeta.
  set (record := record_at _ _). set (job := newPublishJob _ _ _ _).
  assert (E : (observe_record record (l_Queue (p_ledger p)) job false).1.2 = l_Queue (p_ledger p)).
  { unfold observe_record. destruct (tr_Kind _); cbn [negb andb orb]; try done; repeat (case_bool_decide; cbn [orb andb]; try done). }
  destruct (observe_record record _ job false) as [[r q] rm]. exact E.
Qed.

(** The decisions among the calls. *)
Definition decided (calls : list Call) : list Decision :=
  omap (λ c, match c with CallArbitration _ _ d _ => Some d | _ => None end) calls.
Lemma decided_app calls calls' : decided (calls ++ calls') = decided calls ++ decided calls'.
Proof. apply omap_app. Qed.
Lemma decided_quiet calls : Forall (λ c, match c with CallArbitration _ _ _ _ => False | _ => True end) calls → decided calls = [].
Proof. intros Hq. induction Hq as [|c calls Hc _ IH]; [done|]. by destruct c. Qed.
Lemma decided_sent symbol ds now : decided (map (λ d, CallArbitration symbol (de_CandidateID d) d now) ds) = ds.
Proof. induction ds as [|d ds IH]; [done|]. cbn. by f_equal. Qed.
Lemma decisions_ext w w' reference : w_state w = w_state w' → w_settings w = w_settings w' → decisions w reference = decisions w' reference.
Proof. intros E1 E2. unfold decisions, live_executable. by rewrite E1, E2. Qed.
End lemmas.

(** * Theorems *)

(** [C28] Over its whole life a worker hands the publisher each opportunity's announcements once and in order: whatever the
    strategies propose and however their errors cut bars short, what has been announced of an opportunity is exactly what its
    record says: nothing without a record, its creation while it lives, and after its creation its one end. It never announces
    an end alone, as the book does for a setup first seen after its deadline, because every candidate is given its whole time
    to live at its first observation. With strategies that return, the worker returns on every run of bars whose scalp windows
    hold a bar; otherwise the detector-contract read may panic. *)
Theorem worker_lifecycle_once `{Analytics} range1 range2 `{!RangeOrder range1, !RangeOrder range2} symbol settings w events :
  NewSymbolWorker symbol settings = Ok w →
  (reads_return settings → ∃ w' calls, run range1 range2 w events = Some (w', calls)) ∧
  ∀ w' calls, run range1 range2 w events = Some (w', calls) → ∀ id, published id (observed calls) =
    match ss_Opportunities (w_state w') !! id with
    | None => []
    | Some r =>
        match rec_State r with
        | StateCreated | StateActive => [TransitionCreated]
        | StateInvalidated => [TransitionCreated; TransitionInvalidated]
        | StateExpired => [TransitionCreated; TransitionExpired]
        end
    end.
Proof.
  intros (Hw & Eb & _ & Es)%NewSymbolWorker_fresh. split; [intros Hr; refine (run_returns range1 range2 w events Hw _); by rewrite Es|].
  intros w' calls E id.
  pose proof (run_ind range1 range2 (λ w calls, ∀ id, creation_first (ss_Opportunities (w_state w) !! id) (published id (observed calls))) w events Hw) as HI.
  rewrite E in HI. destruct HI as [_ HI].
  - intros id'. by rewrite Eb.
  - intros w0 sofar event w1 calls1 r err _ HI _ (? & ? & ? & ? & Ha) id'.
    rewrite observed_app. unfold published. rewrite omap_app. apply (applied_desk_ok range1 range2 Ha), HI.
  - destruct (HI id) as [Hl Hn]. unfold lifecycle_log in Hl. destruct (_ !! id) as [r|]; [|done].
    destruct (rec_State r); [done..|]. by destruct Hl.
Qed.


(** Bootstrap and replay are silent, and the first live bar makes up for it: until then the
    publisher gets lifecycle records only, none of which it may queue, and on the first live bar that is
    analysed to its end the decisions on all live executable opportunities are sent, one each. *)
Theorem bootstrap_then_projection `{Analytics} range1 range2 `{!RangeOrder range1, !RangeOrder range2} symbol settings w events :
  NewSymbolWorker symbol settings = Ok w → Forall (λ e, PublishesOpportunity e = false) events →
  ∀ w1 calls, run range1 range2 w events = Some (w1, calls) →
    (∀ c zero p eventID d, c ∈ calls → l_Queue (p_ledger (deliver zero p eventID d c)) = l_Queue (p_ledger p)) ∧
    ∀ event w2 calls' result err, PublishesOpportunity event = true →
      ApplyWithResult range1 range2 w1 event = Some (w2, calls', result, err) → acted result err = true →
      decided calls' ≡ₚ decisions range1 range2 w2 (c_Close (be_Candle event)) ∧
      map de_CandidateID (decided calls') ≡ₚ map ca_ID (live_executable w2).
Proof.
  intros (Hw & _ & El & _)%NewSymbolWorker_fresh Hq.
  intros w1 calls E.
  pose proof (run_ind range1 range2 (λ w calls, w_lastArbitration w = ∅ ∧ Forall (λ c, ∃ s a t, c = CallObserve s a t false) calls) w events Hw) as HI.
  rewrite E in HI. destruct HI as (Hw1 & Hlast & Hcalls); [by split| |].
  { clear w1 calls E. intros w0 sofar e w' calls r er _ [HI1 HI2] Hin (w1 & resume & pre & post & Ha).
    rewrite Forall_forall in Hq. specialize (Hq e Hin). destruct Ha as [-> Hr Hpre _ _ _ Hl Hp]. rewrite Hq in *.
    assert (Hw' : w_lastArbitration w' = w_lastArbitration w1 ∧ post = []).
    { destruct (acted r er); [destruct Hp as [_ Hp]; unfold arbitrate in Hp; by injection Hp as <- <-|by destruct Hp as [-> ->]]. }
    destruct Hw' as [-> ->]. assert (resume = []) as -> by (by destruct Hr as [->| ->]). split; [congruence|].
    rewrite app_nil_r. cbn [app]. apply Forall_app. split; [done|]. eapply Forall_impl; [exact Hpre|]. intros c [t ->]. by eexists _, _, _. }
  split.
  { intros c zero p eventID d Hc. rewrite Forall_forall in Hcalls. destruct (Hcalls c Hc) as (s & a & t & ->). apply Observe_silent. }
  intros event w2 calls' r er Epub E2 Hact.
  pose proof (ApplyWithResult_split range1 range2 w1 event Hw1) as Ha. rewrite E2 in Ha. destruct Ha as (w0 & resume & pre & post & Ha).
  pose proof (proj2 (applied_wf range1 range2 Ha)) as Hb2.
  assert (Hd : decided calls' ≡ₚ decisions range1 range2 w2 (c_Close (be_Candle event))).
  { rewrite (ap_calls _ _ _ _ _ _ _ _ _ _ _ _ Ha), app_assoc, decided_app, (decided_quiet _ (applied_quiet range1 range2 Ha)).
    destruct (applied_state range1 range2 Ha) as [F1 F2]. rewrite (decisions_ext range1 range2 w2 w0) by done.
    pose proof (ap_post _ _ _ _ _ _ _ _ _ _ _ _ Ha) as Hp. rewrite Hact, Epub in Hp. destruct Hp as [_ Hp].
    rewrite arbitrate_publish in Hp. injection Hp as _ <-. rewrite decided_sent. cbn [app]. unfold sent.
    by rewrite (ap_last _ _ _ _ _ _ _ _ _ _ _ _ Ha), Hlast, republished_first, sent_all. }
  split; [done|]. rewrite Hd. by apply current_IDs.
Qed.

(** * Witnesses *)

(** A registry whose supply strategy proposes the same two opposed setups on every bar. *)
Definition demo_strategy : @Registry.Strategy MarketContext :=
  Registry.mkStrategy "supply" [tf_M5] (λ _, [demo_candidate "opp_1" "z1" Buy 0.9; demo_candidate "opp_2" "z2" Sell 0.5]) None None None.
Definition demo_analytics : Analytics := {|
  An_unicode := ascii_unicode; An_Params := unit; An_factories := {[ "supply" := λ _, Ok (Some demo_strategy) ]}
|}.
Definition demo_momentum : MomentumConfig := mkMomentumConfig 5 0.5 (-0.5).
Definition demo_regime : Regime.Config := Regime.mkConfig true 2 3 0.5 true 3 2 1 0.1 0 2.
(** The detector-contract read of M5 and H1, over eight and four bars. *)
Definition demo_legacy : LegacyRead.Config :=
  LegacyRead.mkConfig 1 2 0.001 1 (<[tf_H1 := 4%Z]> {[ tf_M5 := 8%Z ]}) [tf_H1] 1 true 0.5 2 0 2 1 0.5 "body" 0.5 2 2 50 0.5 0.1 0.5 0.5 3 false 0.1 5
    (ScalpRange.demo_config 3 6) LegacyRead.zero_compat Fib.demo_fib demo_regime demo_momentum Session.demo_utc Trendline.demo_trend.
Definition demo_settings_of (depths : gmap string Z) : @Settings demo_analytics :=
  @mkSettings demo_analytics CandleEvidence.DefaultConfig Confluence.DefaultConfig 1 AlgorithmSimple
    (Structure.mkSettings "v2" 1 1 Structure.demo_promotion 0.1 Structure.demo_break)
    (Liquidity.mkConfig "v1" 0.1 2 1) Zone.demo_config Trendline.demo_trend (KeyLevel.mkConfig 0.5 5 2 2) Session.demo_utc Fib.demo_fib
    demo_momentum demo_regime Mad.demo_mad (mkConfig 0.2 false 1.5) demo_legacy
    TechniqueState.productionTechniqueZoneSettings demo_stop
    Registry.demo_configs depths tf_M5 demo_geometry [] 0 50 60 true 3 "abc" false ∅ ∅ 0.
Definition demo_settings : @Settings demo_analytics := demo_settings_of {[ tf_M5 := 10%Z ]}.
Definition demo_bar (t : Z) (close : float) (origin : EventOrigin) : BarEvent :=
  mkBarEvent "XAU" tf_M5 (mkCandle t 100 106 90 close 5) origin.
Definition demo_replay : list BarEvent := [demo_bar 300 100 EventOriginBootstrap].
Definition demo_past : list BarEvent := demo_replay ++ [demo_bar 600 100.5 EventOriginLive].
Definition demo_live : BarEvent := demo_bar 900 97 EventOriginLive.
(** A property of a run of the two strategies' worker and of one more live bar. *)
Definition demo_holds (past : list BarEvent) (last : BarEvent)
    (P : @SymbolWorker demo_analytics → @SymbolWorker demo_analytics → list (Call) → @SymbolWorker demo_analytics → list Call → AppendResult → option string → Prop) : Prop :=
  ∃ w w1 calls1 w2 calls2 result err, @NewSymbolWorker demo_analytics "XAU" demo_settings = Ok w ∧
    @run demo_analytics sorted_keys sorted_keys w past = Some (w1, calls1) ∧
    @ApplyWithResult demo_analytics sorted_keys sorted_keys w1 last = Some (w2, calls2, result, err) ∧
    acted result err = true ∧ P w w1 calls1 w2 calls2 result err.
Definition demo_returns (past : list BarEvent) (last : BarEvent) : bool :=
  match @NewSymbolWorker demo_analytics "XAU" demo_settings with
  | Err _ => false
  | Ok w =>
      match @run demo_analytics sorted_keys sorted_keys w past with
      | None => false
      | Some (w1, _) =>
          match @ApplyWithResult demo_analytics sorted_keys sorted_keys w1 last with
          | None => false
          | Some (_, _, result, err) => acted result err
          end
      end
  end.
Lemma demo_intro past last P :
  demo_returns past last = true →
  (∀ w w1 calls1 w2 calls2 result err, @NewSymbolWorker demo_analytics "XAU" demo_settings = Ok w →
    @run demo_analytics sorted_keys sorted_keys w past = Some (w1, calls1) →
    @ApplyWithResult demo_analytics sorted_keys sorted_keys w1 last = Some (w2, calls2, result, err) →
    acted result err = true → P w w1 calls1 w2 calls2 result err) →
  demo_holds past last P.
Proof.
  intros Hc HP. unfold demo_returns in Hc. unfold demo_holds.
  destruct (@NewSymbolWorker demo_analytics "XAU" demo_settings) as [w|] eqn:E; [|done].
  destruct (@run demo_analytics sorted_keys sorted_keys w past) as [[w1 calls1]|] eqn:E1; [|done].
  destruct (@ApplyWithResult demo_analytics sorted_keys sorted_keys w1 last) as [[[[w2 calls2] result] err]|] eqn:E2; [|done].
  exists w, w1, calls1, w2, calls2, result, err. split_and!; [done..|]. by apply (HP w w1 calls1).
Qed.

(** The first setup wins on the first live bar; the second bar closes through its stop and the other is
    then uncontested. *)
Example demo_story :
  match @NewSymbolWorker demo_analytics "XAU" demo_settings with
  | Err _ => None
  | Ok w => (λ r, (map (λ d, (de_CandidateID d, de_Status d)) (decided r.2), published "opp_1" (observed r.2))) <$>
      @run demo_analytics sorted_keys sorted_keys w (demo_past ++ [demo_live])
  end = Some ([("opp_1", StatusWinner); ("opp_2", StatusSuppressed); ("opp_2", StatusUncontested)],
              [TransitionCreated; TransitionInvalidated]).
Proof. vm_compute. reflexivity. Qed.

Lemma demo_reads_return : @reads_return demo_analytics demo_settings.
Proof. unfold reads_return, ScalpRange.windows_ok. cbn. lia. Qed.
Lemma worker_lifecycle_once_witness :
  demo_holds demo_past demo_live (λ w _ _ _ _ _ _,
    ∃ w' calls, @run demo_analytics sorted_keys sorted_keys w (demo_past ++ [demo_live]) = Some (w', calls) ∧
      (rec_State <$> ss_Opportunities (w_state w') !! "opp_1" = Some StateInvalidated →
       published "opp_1" (observed calls) = [TransitionCreated; TransitionInvalidated])).
Proof.
  apply demo_intro; [vm_compute; reflexivity|]. intros w w1 calls1 w2 calls2 result err E _ _ _.
  destruct (@worker_lifecycle_once demo_analytics sorted_keys sorted_keys _ _ "XAU" demo_settings w (demo_past ++ [demo_live]) E) as [Hrun Hlog].
  destruct (Hrun demo_reads_return) as (w' & calls & Er). exists w', calls. split; [exact Er|]. intros Hs. rewrite (Hlog w' calls Er "opp_1").
  destruct (ss_Opportunities (w_state w') !! "opp_1") as [r|]; [|discriminate Hs]. cbn in Hs. injection Hs as ->. reflexivity.
Defined.

(** The calls of the demo are in order, and each is sent with the one before it still queued. *)
Definition demo_calls (past : list BarEvent) (last : BarEvent) : option (list Call) :=
  match @NewSymbolWorker demo_analytics "XAU" demo_settings with
  | Err _ => None
  | Ok w =>
      '(w1, calls1) ← @run demo_analytics sorted_keys sorted_keys w past;
      '(_, calls2, _, _) ← @ApplyWithResult demo_analytics sorted_keys sorted_keys w1 last;
      Some (calls1 ++ calls2)
  end.
Lemma demo_in_order : in_order <$> demo_calls demo_past demo_live = Some true.
Proof. vm_compute. reflexivity. Qed.

(** A minute bar that opened at 840 and a five-minute bar that opened at 600 close together. The minute bar's close is far from the
    first setup, which rests; the five-minute close, analysed next, brings it back into play. Its decision bears the earlier time and is
    dropped both in the queue and by the consumer, who keeps a resting decision while the worker's current one is to act. *)
Definition demo_minute (t : Z) (close : float) : BarEvent := mkBarEvent "XAU" tf_M1 (mkCandle t 100 (close + 1) 90 close 5) EventOriginLive.
Definition demo_stale_calls : list Call :=
  match @NewSymbolWorker demo_analytics "XAU" (demo_settings_of (<[tf_M1 := 10%Z]> {[ tf_M5 := 10%Z ]})) with
  | Err _ => []
  | Ok w =>
      match @run demo_analytics sorted_keys sorted_keys w
        [demo_bar 300 100.5 EventOriginLive; demo_minute 840 140; demo_bar 600 100.5 EventOriginLive] with
      | None => []
      | Some (_, calls) => calls
      end
  end.
Definition demo_sent (calls : list Call) : list (Z * string * string * string) :=
  omap (λ c, match c with CallArbitration _ id d t => Some (t, id, de_Status d, de_ReasonCode d) | _ => None end) calls.
Example stale_decision_kept :
  demo_sent demo_stale_calls =
    [(300%Z, "opp_1", StatusWinner, ReasonRankedSingleDirection); (300%Z, "opp_2", StatusSuppressed, ReasonRankedSingleDirection);
     (840%Z, "opp_1", StatusSuppressed, ReasonNotInPlay); (840%Z, "opp_2", StatusSuppressed, ReasonNotInPlay);
     (600%Z, "opp_1", StatusWinner, ReasonRankedSingleDirection); (600%Z, "opp_2", StatusSuppressed, ReasonRankedSingleDirection)] ∧
  in_order demo_stale_calls = false ∧
  ∀ queued : bool, (λ p, (de_ReasonCode p.1, p.2)) <$> view_from ∅ (map (pair queued) demo_stale_calls) !! "opp_1" = Some (ReasonNotInPlay, 840%Z).
Proof. split; [vm_compute; reflexivity|]. split; [vm_compute; reflexivity|]. intros [|]; vm_compute; reflexivity. Qed.

Lemma bootstrap_then_projection_witness :
  demo_holds demo_replay demo_live (λ _ w1 calls1 w2 calls2 _ _,
    (∀ c zero p eventID d, c ∈ calls1 → l_Queue (p_ledger (deliver zero p eventID d c)) = l_Queue (p_ledger p)) ∧
    decided calls2 ≡ₚ decisions sorted_keys sorted_keys w2 97).
Proof.
  apply demo_intro; [vm_compute; reflexivity|]. intros w w1 calls1 w2 calls2 result err E E1 E2 Ha.
  destruct (@bootstrap_then_projection demo_analytics sorted_keys sorted_keys _ _ "XAU" demo_settings w demo_replay E
    ltac:(by repeat constructor) w1 calls1 E1) as [Hs Hf].
  split; [exact Hs|]. apply (Hf demo_live w2 calls2 result err eq_refl E2 Ha).
Defined.
