(* ===== verification/WorkerState.v ===== *)
(** The analysis state of a symbol worker against its specification: the books, the technique cache and the market context of
    a worker that has been fed bar by bar are what its retained candles alone give. *)
From S2P Require Import Structure Liquidity Zone Trendline KeyLevel Session Fib Regime Mad Confluence Registry.
From S2P Require Import Prelude Float64 Market MarketData Indicator CandleEvidence Momentum Context Opportunity OpportunityBook.
From S2P Require Import Arbitration Publisher Policy Facts Worker.
From S2P Require ScalpRange LegacyRead.
From Stdlib Require Import Floats.

(** * Specification: the analysis of retained candles *)

Section spec.
Context `{Analytics} (settings : Settings) (symbol : string).

(** The ATR of a history that can be analysed. *)
Definition fresh_atr (candles : list Candle) : option (list float) :=
  if bool_decide (candles = []) then None
  else match CanonicalATR candles (ATR_Length settings) (ATR_Algorithm settings) with Ok atr => Some atr | Err _ => None end.
Definition fresh_structure (tf : string) (candles : list Candle) (atr : list float) : Structure.StructureState :=
  Structure.Update candles atr tf (set_Structure settings).
Definition fresh_swings (tf : string) (candles : list Candle) (atr : list float) : list Structure.Swing :=
  Structure.st_Swings (fresh_structure tf candles atr).
Definition fresh_zones (tf : string) (candles : list Candle) (atr : list float) : Zone.ZoneState :=
  Zone.Update candles atr (fresh_swings tf candles atr) (Structure.st_Breaks (fresh_structure tf candles atr)) tf (set_Zone settings).
(** The zones the strategies see: on the primary timeframe with the technique families replaced. *)
Definition context_zones (tf : string) (candles : list Candle) (atr : list float) : Zone.ZoneState :=
  if bool_decide (tf = PrimaryTimeframe settings) then TechniqueState.techniqueZoneState candles (fresh_zones tf candles atr) (set_TechniqueZones settings)
  else fresh_zones tf candles atr.
(** The books hold the analysis of these candles. *)
Record analysed (s : SymbolState) (tf : string) (candles : list Candle) (atr : list float) : Prop := {
  an_atr : ss_Measurements s !! tf = Some atr;
  an_structure : Structure.Book_Get (ss_Structure s) tf = Some (fresh_structure tf candles atr);
  an_zone : Zone.Book_Get (ss_Zone s) tf = Some (fresh_zones tf candles atr);
  an_liquidity : Liquidity.Book_Get (ss_Liquidity s) tf =
    Some (Liquidity.Update candles atr (fresh_swings tf candles atr) (set_Liquidity settings));
  an_trendline : Trendline.Book_Get (ss_Trendline s) tf =
    Some (Trendline.Update candles atr (fresh_swings tf candles atr) (set_Trendline settings));
  an_keylevel : KeyLevel.Book_Get (ss_KeyLevel s) tf =
    Some (KeyLevel.Update candles atr (fresh_swings tf candles atr) (set_KeyLevel settings));
  an_session : Session.Book_Get (ss_Session s) tf = Some (Session.Update candles (set_Session settings));
  an_fib : Fib.Book_Get (ss_Fib s) tf = Some (Fib.Update candles (fresh_swings tf candles atr) (set_Fib settings));
}.
(** No book holds anything for this timeframe. *)
Definition untouched (s : SymbolState) (tf : string) : Prop :=
  ss_Measurements s !! tf = None ∧ Structure.Book_Get (ss_Structure s) tf = None ∧ Zone.Book_Get (ss_Zone s) tf = None ∧ Liquidity.Book_Get (ss_Liquidity s) tf = None ∧
  Trendline.Book_Get (ss_Trendline s) tf = None ∧ KeyLevel.Book_Get (ss_KeyLevel s) tf = None ∧
  Session.Book_Get (ss_Session s) tf = None ∧ Fib.Book_Get (ss_Fib s) tf = None.
Definition books_current (s : SymbolState) : Prop :=
  ∀ tf tfh, mh_For (ss_History s) tf = Some tfh →
    match fresh_atr (h_Snapshot tfh) with
    | Some atr => analysed s tf (h_Snapshot tfh) atr
    | None => untouched s tf
    end.
Definition fresh_input (tf : string) (candles : list Candle) (atr : list float) : TimeframeInput :=
  let swings := fresh_swings tf candles atr in
  mkTimeframeInput candles (fresh_structure tf candles atr) (Liquidity.Update candles atr swings (set_Liquidity settings))
    (context_zones tf candles atr) (Trendline.Update candles atr swings (set_Trendline settings))
    (KeyLevel.Update candles atr swings (set_KeyLevel settings)) (Session.Update candles (set_Session settings))
    (Fib.Update candles swings (set_Fib settings)) (default 0%float (last atr)) atr (set_Regime settings) (set_MAD settings) None
    (Momentum.Classify candles (Some atr) (set_Momentum settings)) (set_Geometry settings).
Definition fresh_inputs (h : MarketHistory) : gmap string TimeframeInput :=
  map_imap (λ tf tfh, fresh_input tf (h_Snapshot tfh) <$> fresh_atr (h_Snapshot tfh)) (mh_Timeframes h).
Definition zero_context : MarketContext := mkMarketContext "" ∅ None None.
(** The stage of every window timeframe with bars, computed from those bars and the given prior-week levels. *)
Definition staged_from (ctx : MarketContext) (weekly : list Session.Level) : gmap string (option LegacyRead.Staged) :=
  map_imap (λ tf _, if bool_decide (frame_candles ctx tf = []) then None
    else Some (LegacyRead.Stage (frame_candles ctx tf) tf weekly (set_LegacyRead settings))) (LegacyRead.WindowBars (set_LegacyRead settings)).
(** The context with the detector-contract read of its bars; [None] where a stage panics. *)
Definition attached (weekly : list Session.Level) (ctx : MarketContext) : option MarketContext :=
  if ((highest ctx (set_LegacyRead settings)).2 =? 0)%Z then Some ctx
  else if bool_decide (map_Forall (λ _ (o : option LegacyRead.Staged), is_Some o) (staged_from ctx weekly))
  then Some (with_reads (PrimaryTimeframe settings) (set_LegacyRead settings) (omap id (staged_from ctx weekly)) ctx) else None.
(** The context of a history; before any bar could be analysed it is the zero value. *)
Definition fresh_context (weekly : list Session.Level) (h : MarketHistory) : option MarketContext :=
  if bool_decide (fresh_inputs h = ∅) then Some zero_context
  else ctx ← Build symbol (PrimaryTimeframe settings) (fresh_inputs h); attached weekly ctx.
(** The prior-week levels of the highest window timeframe's bars. *)
Definition weekly_fresh (ctx : MarketContext) (weekly : list Session.Level) : Prop :=
  let '(top, minutes) := highest ctx (set_LegacyRead settings) in
  minutes ≠ 0%Z → weekly = LegacyRead.Weekly (frame_candles ctx top) top (set_LegacyRead settings).
(** Or those of some bars of a lower timeframe, the last of which opened when the highest one's last bar did. *)
Definition weekly_mixed (ctx : MarketContext) (weekly : list Session.Level) : Prop :=
  let '(top, minutes) := highest ctx (set_LegacyRead settings) in
  ∃ lower candles, (LegacyRead.tf_minutes lower < minutes)%Z ∧ c_Time <$> last candles = c_Time <$> last (frame_candles ctx top) ∧
    weekly = LegacyRead.Weekly candles lower (set_LegacyRead settings).
Definition weekly_of (w : SymbolWorker) : list Session.Level := from_option snd [] (w_legacyWeekly w).
(** The caches of the detector-contract read hold what the context's bars give. *)
Definition legacy_current (w : SymbolWorker) (ctx : MarketContext) : Prop :=
  let '(top, minutes) := highest ctx (set_LegacyRead settings) in
  match w_legacyWeekly w with
  | None => minutes = 0%Z ∧ w_legacyFrames w = ∅
  | Some (key, levels) => minutes ≠ 0%Z ∧ c_Time <$> last (frame_candles ctx top) = Some key ∧
      (weekly_fresh ctx levels ∨ weekly_mixed ctx levels) ∧
      ∀ tf c, w_legacyFrames w !! tf = Some c → is_Some (LegacyRead.WindowBars (set_LegacyRead settings) !! tf) ∧
        c_Time <$> last (frame_candles ctx tf) = Some (fc_lastTime c) ∧ fc_weeklyKey c = key ∧
        LegacyRead.Stage (frame_candles ctx tf) tf levels (set_LegacyRead settings) = Some (fc_staged c)
  end.
(** The technique cache holds the population of the primary timeframe's retained candles. *)
Definition cache_current (w : SymbolWorker) : Prop :=
  match w_techniqueZone w with
  | None => True
  | Some (at_, zones) => ∃ tfh c atr, mh_For (ss_History (w_state w)) (PrimaryTimeframe settings) = Some tfh ∧
      last (h_Snapshot tfh) = Some c ∧ c_Time c = at_ ∧ fresh_atr (h_Snapshot tfh) = Some atr ∧
      zones = TechniqueState.techniqueZoneState (h_Snapshot tfh) (fresh_zones (PrimaryTimeframe settings) (h_Snapshot tfh) atr) (set_TechniqueZones settings)
  end.
Record state_current (w : SymbolWorker) : Prop := {
  sc_books : books_current (w_state w);
  sc_cache : cache_current w;
  sc_legacy : legacy_current w (ss_Context (w_state w));
  sc_context : fresh_context (weekly_of w) (ss_History (w_state w)) = Some (ss_Context (w_state w));
  sc_symbol : ss_Symbol (w_state w) = symbol;
  sc_settings : w_settings w = settings;
  sc_closed : map_Forall (λ _ h, h_allowReplace h = false) (mh_Timeframes (ss_History (w_state w)));
}.
End spec.

(** * Lemmas *)

Section lemmas.
Context `{Analytics} (settings : Settings) (symbol : string).

Lemma fresh_atr_grows old new atr :
  fresh_atr settings old = Some atr → length old ≤ length new → is_Some (fresh_atr settings new).
Proof.
  unfold fresh_atr. case_bool_decide as Eo; [done|]. intros E Hl. rewrite bool_decide_false.
  2:{ intros ->. destruct old; [done|cbn in Hl; lia]. }
  pose proof (canonical_atr_total old (ATR_Length settings) (ATR_Algorithm settings)) as Ho.
  pose proof (canonical_atr_total new (ATR_Length settings) (ATR_Algorithm settings)) as Hn.
  destruct (CanonicalATR old _ _) as [a|]; [|done]. destruct (CanonicalATR new _ _) as [a'|]; [by eexists|].
  destruct Ho as [_ [Ho|[Ho ?]]], Hn as [Hn Hw]; [done|]. specialize (Hw Ho). lia.
Qed.

(** A closed bar appended: either nothing is retained, or the history of its timeframe has grown by it. *)
Lemma mh_Append_closed mh ev r rej mh' :
  history_inv mh → map_Forall (λ _ h, h_allowReplace h = false) (mh_Timeframes mh) →
  mh_Append mh ev = Some (r, rej, mh') →
  (mh' = mh ∧ (rej = true ∨ r = AppendDuplicate ∨ r = AppendOutOfOrder ∨ r = AppendConflict)) ∨
  (rej = false ∧ r = AppendAccepted ∧ ∃ old new, mh_For mh (be_Timeframe ev) = Some old ∧
    mh' = mkMarketHistory (mh_Symbol mh) (<[be_Timeframe ev := new]> (mh_Timeframes mh)) ∧ h_allowReplace new = false ∧
    last (h_Snapshot new) = Some (be_Candle ev) ∧ length (h_Snapshot old) ≤ length (h_Snapshot new) ∧
    Forall (λ d, (c_Time d < c_Time (be_Candle ev))%Z) (h_Snapshot old)).
Proof.
  intros Hinv Hcl. unfold mh_Append, mh_For. case_bool_decide; cbn [negb]; [|intros [= <- <- <-]; auto].
  destruct (mh_Timeframes mh !! be_Timeframe ev) as [old|] eqn:Eo; [|intros [= <- <- <-]; auto].
  pose proof (Hinv _ _ Eo : history_wf old) as Hwf. pose proof (Hcl _ _ Eo : h_allowReplace old = false) as Hr.
  assert (Hid : mkMarketHistory (mh_Symbol mh) (<[be_Timeframe ev := old]> (mh_Timeframes mh)) = mh)
    by (rewrite insert_id by done; by destruct mh).
  destruct (Append_spec old (be_Candle ev) Hwf) as (r' & e & new & E & _ & Hp). rewrite E. intros [= <- <- <-].
  destruct r'; cbn [append_post] in Hp.
  - (* accepted *) right. destruct Hp as (-> & Hlt & Hs). split; [by rewrite bool_decide_false by (by intros [? ?])|]. split; [done|].
    exists old, new. split; [done|]. split; [done|]. rewrite Hs.
    destruct (hw_window _ Hwf) as [? Hcap ? Hsz]. pose proof (length_Snapshot (h_window old)) as Hlen. fold (h_Snapshot old) in Hlen.
    rewrite drop_app_le, last_snoc, length_app, length_drop by (rewrite Hlen; lia). cbn [length].
    split_and!; [|done|lia|done].
    unfold Append in E. destruct (ValidateCandle _); [done|].
    destruct (Len _ =? 0); [by injection E as <-|]. destruct (Last _); [|done]. destruct (_ <? _)%Z; [by injection E as <-|].
    destruct (_ =? _)%Z; [rewrite Hr in E; by destruct (Candle_eqb _ _)|]. destruct (h_At _ _); [by destruct (Candle_eqb _ _)|done].
  - left. destruct Hp as (_ & -> & _). auto.
  - left. destruct Hp as (_ & -> & _). auto 6.
  - destruct Hp as (_ & Hrep & _). congruence.
  - left. destruct Hp as (-> & -> & Hs). split; [done|]. left. by apply bool_decide_true.
  - left. destruct Hp as (_ & -> & _). auto 6.
Qed.

(** The books after one bar: current for its timeframe, and still current for the others. *)
Lemma measure_current s h' tf old new candles atr :
  books_current settings s → mh_For (ss_History s) tf = Some old →
  h' = mkMarketHistory (mh_Symbol (ss_History s)) (<[tf := new]> (mh_Timeframes (ss_History s))) →
  candles = h_Snapshot new → fresh_atr settings candles = Some atr →
  books_current settings (measure (with_history s h') settings tf candles atr).
Proof.
  intros Hb _ -> -> Hat tf' tfh. unfold mh_For. cbn. intros Hl.
  destruct (decide (tf' = tf)) as [->|Hne].
  - rewrite lookup_insert_eq in Hl. injection Hl as <-. rewrite Hat.
    split; cbn; apply lookup_insert_eq.
  - rewrite lookup_insert_ne in Hl by done. specialize (Hb tf' tfh Hl).
    destruct (fresh_atr settings (h_Snapshot tfh)) as [a|].
    + destruct Hb. split; cbn; (etrans; [by apply lookup_insert_ne|done]).
    + unfold untouched in *. destruct_and! Hb. split_and!; cbn; (etrans; [by apply lookup_insert_ne|done]).
Qed.

(** A cache that is either for another bar or current, and only of an analysed history. *)
Definition cache_usable (w : SymbolWorker) : Prop :=
  match w_techniqueZone w with
  | None => True
  | Some (at_, zones) => ∃ tfh c atr, mh_For (ss_History (w_state w)) (PrimaryTimeframe settings) = Some tfh ∧
      last (h_Snapshot tfh) = Some c ∧ fresh_atr settings (h_Snapshot tfh) = Some atr ∧
      (c_Time c = at_ → zones = TechniqueState.techniqueZoneState (h_Snapshot tfh) (fresh_zones settings (PrimaryTimeframe settings) (h_Snapshot tfh) atr) (set_TechniqueZones settings))
  end.
Lemma techniqueZones_current w tfh atr :
  w_settings w = settings → cache_usable w →
  mh_For (ss_History (w_state w)) (PrimaryTimeframe settings) = Some tfh → fresh_atr settings (h_Snapshot tfh) = Some atr →
  let '(w', zones) := techniqueZones w (fresh_zones settings (PrimaryTimeframe settings) (h_Snapshot tfh) atr) in
  zones = TechniqueState.techniqueZoneState (h_Snapshot tfh) (fresh_zones settings (PrimaryTimeframe settings) (h_Snapshot tfh) atr) (set_TechniqueZones settings) ∧
  w_state w' = w_state w ∧ w_settings w' = settings ∧ cache_current settings w'.
Proof.
  intros Est Hu Hf Ha. unfold techniqueZones. rewrite Est, Hf. cbn [from_option].
  destruct (last (h_Snapshot tfh)) as [c|] eqn:El.
  2:{ apply last_None in El. unfold fresh_atr in Ha. by rewrite El in Ha. }
  assert (Hre : ∀ w', w_state w' = w_state w → w_techniqueZone w' =
      Some (c_Time c, TechniqueState.techniqueZoneState (h_Snapshot tfh) (fresh_zones settings (PrimaryTimeframe settings) (h_Snapshot tfh) atr) (set_TechniqueZones settings)) →
    cache_current settings w').
  { intros w' Es Ec. unfold cache_current. rewrite Ec, Es. by exists tfh, c, atr. }
  unfold cache_usable in Hu. destruct (w_techniqueZone w) as [[at_ zones]|] eqn:Ec; [|split_and!; [done..|by apply Hre]].
  destruct Hu as (tfh' & c' & atr' & Hf' & El' & Ha' & Hz). rewrite Hf in Hf'. injection Hf' as <-.
  rewrite El in El'. injection El' as <-. rewrite Ha in Ha'. injection Ha' as <-.
  destruct (Z.eqb_spec at_ (c_Time c)) as [->|Hne]; [|split_and!; [done..|by apply Hre]].
  rewrite (Hz eq_refl). split_and!; [done..|]. apply Hre; [done|]. by rewrite Ec, (Hz eq_refl).
Qed.

Lemma timeframe_input_current s tf tfh zones :
  books_current settings s → mh_For (ss_History s) tf = Some tfh →
  (∀ atr, fresh_atr settings (h_Snapshot tfh) = Some atr → zones = context_zones settings tf (h_Snapshot tfh) atr) →
  timeframe_input s settings tf tfh zones = fresh_input settings tf (h_Snapshot tfh) <$> fresh_atr settings (h_Snapshot tfh).
Proof.
  intros Hb Hf Hz. specialize (Hb tf tfh Hf). unfold timeframe_input.
  destruct (fresh_atr settings (h_Snapshot tfh)) as [atr|]; [|by destruct Hb as (_ & -> & _)].
  destruct Hb as [E1 E2 E3 E4 E5 E6 E7 E8]. rewrite E1, E2, E4, E5, E6, E7, E8, (Hz atr eq_refl). done.
Qed.

(** ** The detector-contract read *)

Lemma tf_minutes_inj a b : LegacyRead.tf_minutes a = LegacyRead.tf_minutes b → (0 < LegacyRead.tf_minutes a)%Z → a = b.
Proof.
  unfold LegacyRead.tf_minutes, Minutes. destruct (minutesByTimeframe !! a) as [m|] eqn:Ea; [|done].
  destruct (minutesByTimeframe !! b) as [m'|] eqn:Eb; [|cbn; lia]. cbn. intros -> _.
  assert (Hinj : map_Forall (λ x n, map_Forall (λ y n', n = n' → x = y) minutesByTimeframe) minutesByTimeframe)
    by (apply (bool_decide_unpack _); vm_compute; exact I).
  exact (Hinj a m' Ea b m' Eb eq_refl).
Qed.
Section highest.
Context (ctx : MarketContext) (cfg : LegacyRead.Config).
Definition windowed (tf : string) : Prop := is_Some (LegacyRead.WindowBars cfg !! tf) ∧ frame_candles ctx tf ≠ [].
Lemma highest_spec :
  let '(top, minutes) := highest ctx cfg in
  (0 <= minutes)%Z ∧ (minutes ≠ 0%Z → windowed top ∧ LegacyRead.tf_minutes top = minutes) ∧
  ∀ tf, windowed tf → (LegacyRead.tf_minutes tf <= minutes)%Z.
Proof.
  unfold highest, windowed. assert (Hin : ∀ tf, tf ∈ sorted_keys (LegacyRead.WindowBars cfg) ↔ is_Some (LegacyRead.WindowBars cfg !! tf)) by (intros; apply elem_of_sorted_keys).
  revert Hin. generalize (sorted_keys (LegacyRead.WindowBars cfg)) as keys. intros keys Hin.
  cut (∀ acc seen, (0 <= acc.2)%Z ∧ (acc.2 ≠ 0%Z → (acc.1 ∈ seen ∧ frame_candles ctx acc.1 ≠ []) ∧ LegacyRead.tf_minutes acc.1 = acc.2) ∧
      (∀ tf, tf ∈ seen ∧ frame_candles ctx tf ≠ [] → (LegacyRead.tf_minutes tf <= acc.2)%Z) →
    let '(top, minutes) := foldl (highest_step ctx) acc keys in
    (0 <= minutes)%Z ∧ (minutes ≠ 0%Z → (top ∈ seen ++ keys ∧ frame_candles ctx top ≠ []) ∧ LegacyRead.tf_minutes top = minutes) ∧
    ∀ tf, tf ∈ seen ++ keys ∧ frame_candles ctx tf ≠ [] → (LegacyRead.tf_minutes tf <= minutes)%Z).
  { intros Hc. specialize (Hc ("", 0%Z) []). cbn [app fst snd] in Hc. destruct (foldl _ _ _) as [top m].
    destruct Hc as (H0 & H1 & H2); [split_and!; [lia|done|]; intros tf [Htf _]; by apply elem_of_nil in Htf|].
    split_and!; [done|intros Hm; rewrite <- Hin; by apply H1|intros tf; rewrite <- Hin; by apply H2]. }
  clear Hin. induction keys as [|k keys IH]; intros [top m] seen (H0 & H1 & H2); cbn [foldl].
  { rewrite app_nil_r. done. }
  replace (seen ++ k :: keys) with ((seen ++ [k]) ++ keys) by (by rewrite <- app_assoc). apply IH. cbn [fst snd] in *. unfold highest_step. cbn [fst snd].
  destruct (bool_decide_reflect (frame_candles ctx k = [])) as [He|He].
  { cbn [fst snd]. split_and!; [done| |].
    - intros Hm. destruct (H1 Hm) as [[? ?] ?]. split_and!; [set_solver|done..].
    - intros tf [[Htf| ->%list_elem_of_singleton]%elem_of_app Hc]; [by apply H2|done]. }
  destruct (Z.gtb_spec (LegacyRead.tf_minutes k) m) as [Hgt|Hle]; cbn [fst snd]; split_and!; try done; try lia.
  - intros _. split_and!; [set_solver|done..].
  - intros tf [[Htf| ->%list_elem_of_singleton]%elem_of_app Hc]; [|lia]. specialize (H2 tf (conj Htf Hc)). lia.
  - intros Hm. destruct (H1 Hm) as [[? ?] ?]. split_and!; [set_solver|done..].
  - intros tf [[Htf| ->%list_elem_of_singleton]%elem_of_app Hc]; [by apply H2|lia].
Qed.
End highest.
Lemma highest_ext ctx ctx' cfg : (∀ tf, frame_candles ctx tf = frame_candles ctx' tf) → highest ctx cfg = highest ctx' cfg.
Proof.
  intros Hf. unfold highest. generalize ("", 0%Z). induction (sorted_keys _) as [|k keys IH]; intros acc; [done|]. cbn [foldl].
  unfold highest_step at 2 4. by rewrite Hf, IH.
Qed.
Lemma with_reads_candles primary cfg staged ctx tf : frame_candles (with_reads primary cfg staged ctx) tf = frame_candles ctx tf.
Proof.
  unfold frame_candles, with_reads. cbn [mx_Timeframes]. rewrite map_lookup_imap. destruct (mx_Timeframes ctx !! tf) as [f|]; [|done]. cbn.
  by destruct (LegacyRead.Complete staged !! tf).
Qed.
Lemma attached_candles weekly ctx ctx' tf : attached settings weekly ctx = Some ctx' → frame_candles ctx' tf = frame_candles ctx tf.
Proof.
  unfold attached. destruct (_ =? 0)%Z; [by intros [= <-]|]. case_bool_decide; [|done]. intros [= <-]. apply with_reads_candles.
Qed.
Lemma legacy_current_ext w ctx ctx' :
  (∀ tf, frame_candles ctx tf = frame_candles ctx' tf) → legacy_current settings w ctx → legacy_current settings w ctx'.
Proof.
  intros Hf. unfold legacy_current, weekly_fresh, weekly_mixed. rewrite (highest_ext ctx ctx' _ Hf). destruct (highest ctx' _) as [top minutes].
  destruct (w_legacyWeekly w) as [[key levels]|]; [|done]. rewrite (Hf top). intros (H1 & H2 & H3 & H4). split_and!; [done..|].
  intros tf c Hc. rewrite <- Hf. by apply H4.
Qed.

(** Every frame is as it was, or has bars and ends later. *)
Definition moved (ctx ctx' : MarketContext) : Prop :=
  ∀ tf, frame_candles ctx' tf = frame_candles ctx tf ∨
    (frame_candles ctx' tf ≠ [] ∧ ∀ x y, last (frame_candles ctx tf) = Some x → last (frame_candles ctx' tf) = Some y → (c_Time x < c_Time y)%Z).
Lemma moved_bars ctx ctx' tf : moved ctx ctx' → frame_candles ctx tf ≠ [] → frame_candles ctx' tf ≠ [].
Proof. intros Hm Hne. by destruct (Hm tf) as [->|[? _]]. Qed.
Lemma moved_same ctx ctx' tf t :
  moved ctx ctx' → c_Time <$> last (frame_candles ctx tf) = Some t → c_Time <$> last (frame_candles ctx' tf) = Some t →
  frame_candles ctx' tf = frame_candles ctx tf.
Proof.
  intros Hm E1 E2. destruct (Hm tf) as [?|[_ Hlt]]; [done|]. exfalso.
  destruct (last (frame_candles ctx tf)) as [x|]; [|done]. destruct (last (frame_candles ctx' tf)) as [y|]; [|done].
  specialize (Hlt x y eq_refl eq_refl). cbn in *. injection E1 as <-. injection E2 as E2. lia.
Qed.
Lemma last_nonempty {A} (l : list A) : l ≠ [] → is_Some (last l).
Proof. destruct (last l) eqn:E; [by eexists|]. by apply last_None in E. Qed.
(** What one turn over the windows yields is the stage of the frame's bars, cached or new. *)
Lemma cached_frame_spec w ctx ctx0 key levels weekly tf o :
  w_settings w = settings → moved ctx0 ctx →
  (∀ tf c, w_legacyFrames w !! tf = Some c →
     c_Time <$> last (frame_candles ctx0 tf) = Some (fc_lastTime c) ∧
     (fc_weeklyKey c = key → LegacyRead.Stage (frame_candles ctx0 tf) tf levels (set_LegacyRead settings) = Some (fc_staged c))) →
  levels = weekly →
  cached_frame w ctx key weekly tf = Some o →
  frame_candles ctx tf ≠ [] ∧ (fc_staged <$> o = LegacyRead.Stage (frame_candles ctx tf) tf weekly (set_LegacyRead settings)) ∧
  ∀ c, o = Some c → c_Time <$> last (frame_candles ctx tf) = Some (fc_lastTime c) ∧ fc_weeklyKey c = key.
Proof.
  intros Est Hm Hc -> . unfold cached_frame. destruct (last (frame_candles ctx tf)) as [x|] eqn:El; [|done]. rewrite Est. cbv zeta. intros [= <-].
  split; [by intros E; rewrite E in El|].
  assert (Hnew : let fresh := staged ← LegacyRead.Stage (frame_candles ctx tf) tf weekly (set_LegacyRead settings);
      Some (mkFrameCache (c_Time x) (length (frame_candles ctx tf)) key staged) in
    fc_staged <$> fresh = LegacyRead.Stage (frame_candles ctx tf) tf weekly (set_LegacyRead settings) ∧
    ∀ c, fresh = Some c → c_Time <$> Some x = Some (fc_lastTime c) ∧ fc_weeklyKey c = key).
  { cbv zeta. destruct (LegacyRead.Stage _ _ _ _); cbn; [|done]. split; [done|]. by intros c [= <-]. }
  destruct (w_legacyFrames w !! tf) as [c|] eqn:Ec; [|exact Hnew].
  destruct (_ && _) eqn:Eq; [|exact Hnew]. destruct (Hc tf c Ec) as [Ht Hs].
  apply andb_true_iff in Eq as [[Et%Z.eqb_eq _]%andb_true_iff Ek%Z.eqb_eq].
  assert (Ef : frame_candles ctx tf = frame_candles ctx0 tf) by (apply (moved_same _ _ _ (fc_lastTime c) Hm Ht); rewrite El; cbn; by f_equal).
  rewrite Ef, (Hs Ek). split; [done|]. intros c' [= <-]. cbn. by rewrite Et.
Qed.

Lemma attach_current w ctx0 ctx w' ctx' :
  w_settings w = settings → legacy_current settings w ctx0 → moved ctx0 ctx → attachLegacyRead w ctx = Some (w', ctx') →
  w_techniqueZone w' = w_techniqueZone w ∧ attached settings (weekly_of w') ctx = Some ctx' ∧ legacy_current settings w' ctx.
Proof.
  intros Est Hcur Hm. unfold attachLegacyRead, attached, legacy_current. rewrite Est. set (cfg := set_LegacyRead settings) in *.
  pose proof (highest_spec ctx cfg) as Hh. pose proof (highest_spec ctx0 cfg) as Hh0. unfold legacy_current in Hcur. fold cfg in Hcur.
  assert (Hwin : ∀ tf, windowed ctx0 cfg tf → windowed ctx cfg tf) by (intros tf [? ?]; split; [done|by eapply moved_bars]).
  destruct (highest ctx0 cfg) as [top0 m0] eqn:E0. destruct (highest ctx cfg) as [top m] eqn:E.
  destruct Hh as (H0 & H1 & H2), Hh0 as (_ & H1' & _). cbn [snd].
  assert (Hmono : m0 ≠ 0%Z → (m0 <= m)%Z).
  { intros Hne. destruct (H1' Hne) as [Hw <-]. by apply H2, Hwin. }
  destruct (Z.eqb_spec m 0) as [Em|Em].
  { assert (Hnone : w_legacyWeekly w = None ∧ w_legacyFrames w = ∅).
    { destruct (w_legacyWeekly w) as [[key levels]|]; [|by destruct Hcur]. destruct Hcur as (Hne & _).
      destruct (H1' Hne) as [Hw E1]. specialize (H2 top0 (Hwin _ Hw)). specialize (Hmono Hne). assert (m0 = 0%Z); [|done].
      pose proof (highest_spec ctx0 cfg) as Hp. rewrite E0 in Hp. destruct Hp as [Hp _]. lia. }
    destruct Hnone as [F1 F2]. destruct (last (frame_candles ctx top)); intros [= <- <-]; (split; [done|]); (split; [done|]); by rewrite F1. }
  destruct (H1 Em) as [[Hw Hne] Emin]. destruct (last_nonempty _ Hne) as [x Ex]. rewrite Ex. cbv zeta.
  set (key := c_Time x). set (recompute := LegacyRead.Weekly (frame_candles ctx top) top cfg). set (weekly := match w_legacyWeekly w with Some _ => _ | None => _ end).
  assert (Hsource : weekly_fresh settings ctx weekly ∨ weekly_mixed settings ctx weekly).
  { unfold weekly_fresh, weekly_mixed. fold cfg. rewrite E. fold recompute. unfold weekly. destruct (w_legacyWeekly w) as [[k levels]|]; [|by left].
    destruct (Z.eqb_spec k key) as [->|]; [|by left]. destruct Hcur as (Hm0 & Hk & Hs & _). destruct (H1' Hm0) as [[Hw0 Hne0] Emin0].
    unfold weekly_fresh, weekly_mixed in Hs. fold cfg in Hs. rewrite E0 in Hs.
    assert (Hlow : ∀ lower candles, (LegacyRead.tf_minutes lower < m)%Z → c_Time <$> last candles = Some key → levels = LegacyRead.Weekly candles lower cfg →
      ∃ lower candles, (LegacyRead.tf_minutes lower < m)%Z ∧ c_Time <$> last candles = c_Time <$> last (frame_candles ctx top) ∧
        levels = LegacyRead.Weekly candles lower cfg).
    { intros lower candles Hl Ht He. exists lower, candles. split_and!; [done| |done]. by rewrite Ex. }
    specialize (Hmono Hm0). destruct Hs as [Hs|(lower & candles & Hl & Ht & He)]; [|right; apply (Hlow lower candles); [lia|by rewrite Ht|done]].
    specialize (Hs Hm0). destruct (decide (top0 = top)) as [->|Hnt].
    - left. intros _. rewrite Hs. unfold recompute. f_equal. symmetry. eapply (moved_same _ _ _ key Hm); [done|]. by rewrite Ex.
    - right. apply (Hlow top0 (frame_candles ctx0 top0)); [|done|done].
      destruct (decide (m0 = m)) as [->|]; [|lia]. exfalso. apply Hnt, tf_minutes_inj; [by rewrite Emin0|rewrite Emin0; lia]. }
  assert (Hold : ∀ tf c, w_legacyFrames w !! tf = Some c → windowed ctx0 cfg tf ∧
      c_Time <$> last (frame_candles ctx0 tf) = Some (fc_lastTime c) ∧
      (fc_weeklyKey c = key → LegacyRead.Stage (frame_candles ctx0 tf) tf weekly cfg = Some (fc_staged c))).
  { intros tf c Hc. unfold weekly. destruct (w_legacyWeekly w) as [[k levels]|]; [|destruct Hcur as [_ Hcur]; by rewrite Hcur, lookup_empty in Hc].
    destruct Hcur as (_ & _ & _ & Hf). destruct (Hf tf c Hc) as (F1 & F2 & F3 & F4). split_and!; [split; [done|]|done|].
    - intros En. by rewrite En in F2.
    - rewrite F3. intros ->. by rewrite Z.eqb_refl. }
  set (cached := map_imap (λ tf _, cached_frame w ctx key weekly tf) (LegacyRead.WindowBars cfg)).
  assert (Hspec : ∀ tf o, cached !! tf = Some o → windowed ctx cfg tf ∧ fc_staged <$> o = LegacyRead.Stage (frame_candles ctx tf) tf weekly cfg ∧
      ∀ c, o = Some c → c_Time <$> last (frame_candles ctx tf) = Some (fc_lastTime c) ∧ fc_weeklyKey c = key).
  { intros tf o. unfold cached. rewrite map_lookup_imap. destruct (LegacyRead.WindowBars cfg !! tf) as [n|] eqn:En; [|done]. cbn. intros Ho.
    apply (cached_frame_spec w ctx ctx0 key weekly weekly) in Ho as (F1 & F2 & F3); [|done|done| |done].
    - split_and!; [split; [by eexists|done]|done..].
    - intros tf' c Hc. by destruct (Hold tf' c Hc) as (_ & ? & ?). }
  assert (Hstaged : staged_from settings ctx weekly = option_map fc_staged <$> cached).
  { apply map_eq. intros tf. rewrite lookup_fmap. destruct (cached !! tf) as [o|] eqn:Eo.
    - destruct (Hspec tf o Eo) as ([[n Hn] Hc] & Hst & _). unfold staged_from. fold cfg. rewrite map_lookup_imap, Hn. cbn. rewrite bool_decide_false by done.
      f_equal. symmetry. exact Hst.
    - unfold cached in Eo. rewrite map_lookup_imap in Eo. unfold staged_from. fold cfg. rewrite map_lookup_imap.
      destruct (LegacyRead.WindowBars cfg !! tf); [|done]. cbn in *. unfold cached_frame in Eo.
      destruct (last (frame_candles ctx tf)) eqn:El; [done|]. apply last_None in El. by rewrite bool_decide_true. }
  case_bool_decide as Hall; [|done]. intros [= <- <-]. split; [done|]. unfold weekly_of. cbn [w_legacyWeekly with_legacy from_option snd].
  rewrite Hstaged. split.
  - rewrite bool_decide_true.
    + f_equal. f_equal. apply map_eq. intros tf. rewrite lookup_omap, !lookup_fmap, lookup_omap.
      destruct (cached !! tf) as [[c|]|]; done.
    + intros tf o. rewrite lookup_fmap. destruct (cached !! tf) as [o'|] eqn:Eo; [|done]. cbn. intros [= <-]. destruct (Hall tf o' Eo) as [c ->]. by eexists.
  - split_and!; [done|done|done|]. intros tf c. cbn [w_legacyFrames with_legacy]. rewrite lookup_union_Some_raw, lookup_omap. intros [Hc|[Hn Hc]].
    + destruct (cached !! tf) as [o|] eqn:Eo; [|done]. cbn in Hc. subst o. destruct (Hspec tf _ Eo) as ([F1 _] & F2 & F3).
      destruct (F3 c eq_refl) as [F4 F5]. split_and!; [done..|]. by rewrite <- F2.
    + exfalso. destruct (Hold tf c Hc) as (Hw' & _). destruct (Hwin _ Hw') as [[n Hnw] Hb]. destruct (cached !! tf) as [o|] eqn:Eo.
      * destruct (Hall tf o Eo) as [c' ->]. done.
      * unfold cached in Eo. rewrite map_lookup_imap, Hnw in Eo. cbn in Eo. unfold cached_frame in Eo.
        destruct (last_nonempty _ Hb) as [y Ey]. by rewrite Ey in Eo.
Qed.

(** The bars of the context built from a history. *)
Definition candles_of (h : MarketHistory) (tf : string) : list Candle := from_option ti_Candles [] (fresh_inputs settings h !! tf).
Lemma Build_candles h ctx tf :
  Build symbol (PrimaryTimeframe settings) (fresh_inputs settings h) = Some ctx → frame_candles ctx tf = candles_of h tf.
Proof.
  unfold Build. destruct (build_frames _) as [frames|] eqn:Ef; [|done]. cbn. intros [= <-]. unfold frame_candles, candles_of. cbn [mx_Timeframes].
  destruct (build_frames_lookup _ _ tf Ef) as [E Hs]. destruct (fresh_inputs settings h !! tf) as [input|]; [|by rewrite E].
  destruct Hs as [f Hf]; [by eexists|]. rewrite Hf. cbn in E. rewrite Hf in E. symmetry in E. apply build_frame_repeats in E as [(_ & E & _) _]. exact E.
Qed.
Lemma fresh_context_candles weekly h ctx tf : fresh_context settings symbol weekly h = Some ctx → frame_candles ctx tf = candles_of h tf.
Proof.
  unfold fresh_context. case_bool_decide as E.
  - intros [= <-]. unfold candles_of. rewrite E, lookup_empty. done.
  - destruct (Build _ _ _) as [ctx0|] eqn:EB; [|done]. cbn. intros Ha. rewrite (attached_candles _ _ _ _ Ha). by eapply Build_candles.
Qed.

Lemma rebuildContext_current w w' ctx0 :
  books_current settings (w_state w) → cache_usable w → legacy_current settings w ctx0 →
  (∀ ctx, (∀ tf, frame_candles ctx tf = candles_of (ss_History (w_state w)) tf) → moved ctx0 ctx) → w_settings w = settings → ss_Symbol (w_state w) = symbol →
  fresh_inputs settings (ss_History (w_state w)) ≠ ∅ →
  map_Forall (λ _ h, h_allowReplace h = false) (mh_Timeframes (ss_History (w_state w))) →
  rebuildContext w = Some w' → state_current settings symbol w'.
Proof.
  intros Hb Hu Hleg Hmoved Est Esy Hne Hcl. unfold rebuildContext. rewrite Est. set (s := w_state w) in *. set (primary := PrimaryTimeframe settings).
  set (tracked := _ && _). destruct (if tracked then _ else _) as [w1 technique] eqn:E.
  assert (Hleg1 : legacy_current settings w1 ctx0).
  { assert (Es : w_legacyWeekly w1 = w_legacyWeekly w ∧ w_legacyFrames w1 = w_legacyFrames w).
    { destruct tracked; [|by injection E as <- _]. revert E. unfold techniqueZones. destruct (last _) as [c|]; [|by intros [= <- _]].
      destruct (w_techniqueZone w) as [[at_ zones]|]; [|by intros [= <- _]]. destruct (at_ =? c_Time c)%Z; by intros [= <- _]. }
    unfold legacy_current in *. destruct Es as [-> ->]. exact Hleg. }
  assert (Hw1 : w_state w1 = s ∧ w_settings w1 = settings ∧ cache_current settings w1 ∧
    ∀ tfh atr, mh_For (ss_History s) primary = Some tfh → fresh_atr settings (h_Snapshot tfh) = Some atr →
      technique = context_zones settings primary (h_Snapshot tfh) atr).
  { destruct (mh_For (ss_History s) primary) as [tfh|] eqn:Ef.
    - pose proof (Hb primary tfh Ef) as Hp. destruct (fresh_atr settings (h_Snapshot tfh)) as [atr|] eqn:Ea.
      + assert (Ht : tracked = true).
        { unfold tracked, closed_before. rewrite bool_decide_true by (by eexists).
          destruct Hp as [_ -> _ -> _ _ _ _]. by rewrite !bool_decide_true by (by eexists). }
        rewrite Ht in E. unfold zones_at in E. rewrite (an_zone _ _ _ _ _ Hp) in E. cbn [default id] in E.
        pose proof (techniqueZones_current w tfh atr Est Hu Ef Ea) as Ht'. fold primary in Ht'. rewrite E in Ht'.
        destruct Ht' as (-> & ? & ? & ?). split_and!; [done..|]. intros tfh' atr' [= <-]. rewrite Ea. intros [= <-].
        unfold context_zones. by rewrite bool_decide_true.
      + assert (Ht : tracked = false).
        { unfold tracked, closed_before. destruct Hp as (_ & -> & _). rewrite (bool_decide_false (is_Some None)) by (by intros [? ?]).
          by rewrite andb_false_r. }
        rewrite Ht in E. injection E as <- <-. split_and!; [done..| |by intros tfh' atr' [= <-]; rewrite Ea].
        unfold cache_current, cache_usable in *. destruct (w_techniqueZone w) as [[a z]|]; [|done].
        destruct Hu as (tfh' & c & atr & Hf' & _ & Ha' & _). fold s primary in Hf'. rewrite Ef in Hf'. injection Hf' as <-. congruence.
    - assert (Ht : tracked = false) by (unfold tracked; by rewrite bool_decide_false by (by intros [? ?])).
      rewrite Ht in E. injection E as <- <-. split_and!; [done..| |done].
      unfold cache_current, cache_usable in *. destruct (w_techniqueZone w) as [[a z]|]; [|done].
      destruct Hu as (tfh' & c & atr & Hf' & _). fold s primary in Hf'. congruence. }
  destruct Hw1 as (Es1 & Est1 & Hc1 & Htech).
  assert (Hin : map_imap (λ tf tfh, timeframe_input s (w_settings w1) tf tfh
      (if bool_decide (tf = primary) then technique else zones_at s tf)) (mh_Timeframes (ss_History s)) =
    fresh_inputs settings (ss_History s)).
  { apply map_eq. intros tf. unfold fresh_inputs. rewrite !map_lookup_imap. destruct (mh_Timeframes _ !! tf) as [tfh|] eqn:Ef; [|done].
    cbn [mbind option_bind]. rewrite Est1. apply timeframe_input_current; [done|done|]. intros atr Ha.
    case_bool_decide as Hp; [subst tf; by eapply Htech|]. unfold zones_at. pose proof (Hb tf tfh Ef) as Hbt. rewrite Ha in Hbt.
    rewrite (an_zone _ _ _ _ _ Hbt). cbn. unfold context_zones. by rewrite bool_decide_false. }
  rewrite Hin. destruct (Build _ _ _) as [ctx|] eqn:EB; [|done]. cbn [mbind option_bind].
  destruct (attachLegacyRead w1 ctx) as [[w2 ctx2]|] eqn:EA; [|done]. cbn [mbind option_bind]. intros [= <-].
  pose proof (attachLegacyRead_only w1 ctx) as Ho. rewrite EA in Ho. destruct Ho as (Es2 & Est2 & _).
  rewrite Esy in EB. pose proof (λ tf, Build_candles _ _ tf EB) as Hbc.
  destruct (attach_current w1 ctx0 ctx w2 ctx2 Est1 Hleg1 (Hmoved ctx Hbc) EA) as (Et2 & Ha2 & Hl2).
  split; cbn [w_state with_state w_settings ss_Symbol ss_History ss_Context with_market]; rewrite ?Es2, ?Es1.
  - intros tf tfh Hf. specialize (Hb tf tfh Hf). destruct (fresh_atr settings (h_Snapshot tfh)); [|done]. by destruct Hb.
  - unfold cache_current in *. cbn [w_techniqueZone with_state w_state with_market ss_History]. rewrite Et2. rewrite Es1 in Hc1. exact Hc1.
  - eapply legacy_current_ext; [|exact Hl2]. intros tf. symmetry. by eapply attached_candles.
  - unfold fresh_context. rewrite bool_decide_false by done. fold primary. rewrite EB. exact Ha2.
  - exact Esy.
  - congruence.
  - exact Hcl.
Qed.
End lemmas.

Section runs.
Context `{Analytics} (settings : Settings) (symbol : string).
Context (range1 range2 : gmap string (list Candidate) → list string) `{!RangeOrder range1, !RangeOrder range2}.

(** Two workers that differ in their opportunities and sent decisions only. *)
Definition same_analysis (w w' : SymbolWorker) : Prop :=
  w_settings w' = w_settings w ∧ (w_techniqueZone w' = w_techniqueZone w ∧
    w_legacyWeekly w' = w_legacyWeekly w ∧ w_legacyFrames w' = w_legacyFrames w) ∧
  w_state w' = with_opportunities (w_state w) (ss_Opportunities (w_state w')).
Lemma books_current_opportunities s b : books_current settings s → books_current settings (with_opportunities s b).
Proof.
  intros Hb tf tfh Hf. specialize (Hb tf tfh Hf). destruct (fresh_atr settings (h_Snapshot tfh)); [by destruct Hb|exact Hb].
Qed.
Lemma same_analysis_current w w' : same_analysis w w' → state_current settings symbol w → state_current settings symbol w'.
Proof.
  intros (E1 & (E2 & E4 & E5) & E3) [Hb Hc Hl Hx Hs Ht Hcl]. revert E3. generalize (ss_Opportunities (w_state w')). intros b E3. split; rewrite ?E3.
  - by apply books_current_opportunities.
  - unfold cache_current in *. rewrite E2, E3. exact Hc.
  - unfold legacy_current in *. rewrite E4, E5. exact Hl.
  - unfold weekly_of. rewrite E4. exact Hx.
  - exact Hs.
  - by rewrite E1.
  - exact Hcl.
Qed.
Lemma arbitrate_same w b now reference publish w' calls :
  arbitrate range1 range2 (with_state w (with_opportunities (w_state w) b)) now reference publish = (w', calls) → same_analysis w w'.
Proof. unfold arbitrate. destruct publish; intros [= <- _]; by split_and!. Qed.
Lemma act_same w event atrSeries cs w' calls err :
  act range1 range2 w event atrSeries cs = (w', calls, err) → same_analysis w w'.
Proof.
  unfold act. destruct (InvalidateByClose _ _ _ _ _) as [b1 ts1]. destruct (InvalidateByStructureClose _ _ _ _ _) as [b2 ts2].
  destruct (observe_candidates _ _ _ _) as [[b3 calls3] [e|]]; [intros [= <- _ _]; by split_and!|].
  destruct (Expire b3 _) as [b4 ts4]. destruct (arbitrate _ _ _ _ _ _) as [w5 calls5] eqn:E. intros [= <- _ _].
  by eapply arbitrate_same.
Qed.

(** Two states hold the same analysis of a timeframe. *)
Definition same_books (s s' : SymbolState) (tf : string) : Prop :=
  ss_Measurements s !! tf = ss_Measurements s' !! tf ∧
  Structure.Book_Get (ss_Structure s) tf = Structure.Book_Get (ss_Structure s') tf ∧
  Zone.Book_Get (ss_Zone s) tf = Zone.Book_Get (ss_Zone s') tf ∧
  Liquidity.Book_Get (ss_Liquidity s) tf = Liquidity.Book_Get (ss_Liquidity s') tf ∧
  Trendline.Book_Get (ss_Trendline s) tf = Trendline.Book_Get (ss_Trendline s') tf ∧
  KeyLevel.Book_Get (ss_KeyLevel s) tf = KeyLevel.Book_Get (ss_KeyLevel s') tf ∧
  Session.Book_Get (ss_Session s) tf = Session.Book_Get (ss_Session s') tf ∧ Fib.Book_Get (ss_Fib s) tf = Fib.Book_Get (ss_Fib s') tf.
Lemma books_current_same s s' tf tfh tfh' :
  books_current settings s → books_current settings s' → mh_For (ss_History s) tf = Some tfh → mh_For (ss_History s') tf = Some tfh' →
  h_Snapshot tfh = h_Snapshot tfh' → same_books s s' tf.
Proof.
  intros Hb Hb' Hf Hf' E. specialize (Hb tf tfh Hf). specialize (Hb' tf tfh' Hf'). rewrite <- E in Hb'.
  destruct (fresh_atr settings (h_Snapshot tfh)) as [atr|].
  - destruct Hb, Hb'. unfold same_books. split_and!; congruence.
  - unfold untouched in *. destruct_and! Hb. destruct_and! Hb'. unfold same_books. split_and!; congruence.
Qed.
Lemma fresh_inputs_snapshots h h' :
  (∀ tf, h_Snapshot <$> mh_For h tf = h_Snapshot <$> mh_For h' tf) → fresh_inputs settings h = fresh_inputs settings h'.
Proof.
  intros Hs. apply map_eq. intros tf. unfold fresh_inputs. rewrite !map_lookup_imap. specialize (Hs tf). unfold mh_For in Hs.
  destruct (mh_Timeframes h !! tf), (mh_Timeframes h' !! tf); try done. cbn in *. by injection Hs as ->.
Qed.

Lemma fresh_inputs_nonempty h tf tfh atr :
  mh_For h tf = Some tfh → fresh_atr settings (h_Snapshot tfh) = Some atr → fresh_inputs settings h ≠ ∅.
Proof.
  intros Hf Ha E. assert (Hn : fresh_inputs settings h !! tf = None) by (rewrite E; apply lookup_empty).
  unfold fresh_inputs in Hn. unfold mh_For in Hf. rewrite map_lookup_imap, Hf in Hn. cbn in Hn. by rewrite Ha in Hn.
Qed.

(** A bar whose history cannot be analysed yet changes no fresh input. *)
Lemma fresh_inputs_insert h tf old new :
  mh_For h tf = Some old → fresh_atr settings (h_Snapshot old) = None → fresh_atr settings (h_Snapshot new) = None →
  fresh_inputs settings (mkMarketHistory (mh_Symbol h) (<[tf := new]> (mh_Timeframes h))) = fresh_inputs settings h.
Proof.
  intros Hf Ho Hn. unfold fresh_inputs, mh_For in *. cbn. apply map_eq. intros tf'. rewrite !map_lookup_imap.
  destruct (decide (tf' = tf)) as [->|]; [rewrite lookup_insert_eq, Hf; cbn; by rewrite Ho, Hn|by rewrite lookup_insert_ne].
Qed.

Lemma Apply_current w event w' calls r err :
  worker_wf w → state_current settings symbol w →
  ApplyWithResult range1 range2 w event = Some (w', calls, r, err) → state_current settings symbol w'.
Proof.
  intros [Hh _] Hcur. pose proof Hcur as [Hb Hc Hl Hx Hs Ht Hcl]. unfold ApplyWithResult.
  destruct (mh_Append _ event) as [[[r0 rej] h']|] eqn:Ea; [|done].
  destruct (mh_Append_closed _ _ _ _ _ Hh Hcl Ea) as [[-> Hr]|(-> & -> & old & new & Eo & Eh' & Hrep & El & Hlen & Hlt)]; cbv zeta.
  { assert (Hid : with_state w (with_history (w_state w) (ss_History (w_state w))) = w) by (by destruct w as [[]]).
    rewrite Hid. destruct rej; [by intros [= <- _ _ _]|]. destruct Hr as [?|[->|[->| ->]]]; [done|by intros [= <- _ _ _]..]. }
  set (w0 := with_state w _). set (tf := be_Timeframe event) in *. assert (Est : w_settings w0 = settings) by exact Ht.
  assert (Efor : mh_For h' tf = Some new) by (rewrite Eh'; apply lookup_insert_eq). rewrite Efor. cbv zeta.
  assert (Hne : h_Snapshot new ≠ []) by (intros En; rewrite En in El; done).
  assert (Hcl' : map_Forall (λ _ h, h_allowReplace h = false) (mh_Timeframes h')) by (rewrite Eh'; by apply map_Forall_insert_2).
  rewrite Est. destruct (CanonicalATR (h_Snapshot new) _ _) as [atrSeries|e] eqn:EA.
  2:{ (* not enough history for the ATR: nor was there before *)
    assert (Hn : fresh_atr settings (h_Snapshot new) = None) by (unfold fresh_atr; rewrite bool_decide_false by done; by rewrite EA).
    assert (Ho : fresh_atr settings (h_Snapshot old) = None).
    { destruct (fresh_atr settings (h_Snapshot old)) as [a|] eqn:Eo'; [|done].
      destruct (fresh_atr_grows settings _ _ _ Eo' Hlen) as [? ?]. congruence. }
    intros [= <- _ _ _]. subst w0. split; cbn; try done.
    - intros tf' tfh. rewrite Eh'. unfold mh_For. cbn. intros Hf. destruct (decide (tf' = tf)) as [->|Hn'].
      + rewrite lookup_insert_eq in Hf. injection Hf as <-. rewrite Hn. specialize (Hb tf old Eo). by rewrite Ho in Hb.
      + rewrite lookup_insert_ne in Hf by done. specialize (Hb tf' tfh Hf).
        destruct (fresh_atr settings (h_Snapshot tfh)); [by destruct Hb|done].
    - unfold cache_current in *. cbn. destruct (w_techniqueZone w) as [[a z]|]; [|done].
      destruct Hc as (tfh & c & atr & Hf & Hrest & Ht' & Ha' & Hz). exists tfh, c, atr. split; [|done]. rewrite Eh'. unfold mh_For. cbn.
      destruct (decide (PrimaryTimeframe settings = tf)) as [Ep|]; [|by rewrite lookup_insert_ne].
      rewrite Ep in Hf. unfold mh_For in *. rewrite Eo in Hf. injection Hf as <-. congruence.
    - unfold fresh_context in *. rewrite Eh', (fresh_inputs_insert _ tf old new) by done. exact Hx. }
  assert (Hat : fresh_atr settings (h_Snapshot new) = Some atrSeries) by (unfold fresh_atr; rewrite bool_decide_false by done; by rewrite EA).
  destruct (analyse w0 tf (h_Snapshot new) atrSeries) as [w1|] eqn:E1; [|done]. cbn [mbind option_bind].
  assert (Hcur1 : state_current settings symbol w1).
  { unfold analyse in E1. refine (rebuildContext_current settings symbol
      (with_state w0 (measure (w_state w0) (w_settings w0) tf (h_Snapshot new) atrSeries)) w1 (ss_Context (w_state w)) _ _ Hl _ Ht Hs _ Hcl' E1).
    - change (books_current settings (measure (with_history (w_state w) h') (w_settings w) tf (h_Snapshot new) atrSeries)).
      rewrite Ht. exact (measure_current settings (w_state w) h' tf old new _ atrSeries Hb Eo Eh' eq_refl Hat).
    - unfold cache_usable, cache_current in *. cbn. destruct (w_techniqueZone w) as [[a z]|]; [|done].
      destruct Hc as (tfh & c & atr & Hf & Hlast & Htime & Ha' & Hz).
      destruct (decide (PrimaryTimeframe settings = tf)) as [Ep|Ep].
      + exists new, (be_Candle event), atrSeries. rewrite Ep. split_and!; [done..|]. intros Et. exfalso.
        rewrite Ep, Eo in Hf. injection Hf as <-. rewrite Forall_forall in Hlt.
        specialize (Hlt c (last_Some_elem_of _ _ Hlast)). lia.
      + exists tfh, c, atr. split_and!; [|done..]. rewrite Eh'. unfold mh_For. cbn. by rewrite lookup_insert_ne.
    - cbn. intros ctx Hbars tf'. rewrite Hbars, (fresh_context_candles _ _ _ _ _ tf' Hx). unfold candles_of, fresh_inputs.
      rewrite !map_lookup_imap. unfold mh_For in *. rewrite Eh'. cbn [mh_Timeframes]. destruct (decide (tf' = tf)) as [->|Hn'].
      + right. rewrite lookup_insert_eq, Eo. cbn [mbind option_bind]. rewrite Hat. cbn. split; [done|].
        intros x y Hlx Hly. rewrite El in Hly. injection Hly as <-. destruct (fresh_atr settings (h_Snapshot old)); [|done]. cbn in Hlx.
        rewrite Forall_forall in Hlt. apply Hlt. by apply last_Some_elem_of.
      + left. by rewrite lookup_insert_ne.
    - cbn. by eapply fresh_inputs_nonempty. }
  destruct (Registry.Evaluate _ _ _) as [evaluation|e]; [|by intros [= <- _ _ _]].
  destruct (act range1 range2 w1 event atrSeries _) as [[w2 calls2] err2] eqn:E2. intros [= <- _ _ _].
  eapply same_analysis_current; [by eapply act_same|done].
Qed.

Lemma NewSymbolWorker_current w :
  NewSymbolWorker symbol settings = Ok w → AllowReplaceForming settings = false → state_current settings symbol w.
Proof.
  unfold NewSymbolWorker, NewSymbolState. destruct (NewMarketHistory _ _ _) as [h|] eqn:Eh; [|done].
  destruct (Registry.NewRegistry _ _); [|done]. intros [= <-] Hal. rewrite Hal in Eh.
  assert (Hnew : map_Forall (λ _ tfh, h_Snapshot tfh = [] ∧ h_allowReplace tfh = false) (mh_Timeframes h)).
  { unfold NewMarketHistory in Eh. destruct (build_timeframes _ _ _ _) as [m|] eqn:E; [|done]. injection Eh as <-. cbn.
    revert E. generalize (map_to_list (HistoryDepths settings)). intros depths.
    assert (H0 : map_Forall (λ _ tfh, h_Snapshot tfh = [] ∧ h_allowReplace tfh = false) (∅ : gmap string TimeframeHistory)) by apply map_Forall_empty.
    revert H0. generalize (∅ : gmap string TimeframeHistory).
    induction depths as [|[tf d] depths IH]; intros acc Hacc; cbn [build_timeframes]; [by intros [= <-]|].
    destruct (ValidateTimeframe tf); [done|]. destruct (d <=? 0)%Z; [done|].
    destruct (NewTimeframeHistory symbol tf d false) as [tfh|] eqn:E; [|done]. apply IH. apply map_Forall_insert_2; [|done].
    split; [by apply NewTimeframeHistory_wf in E as [_ ?]|]. unfold NewTimeframeHistory in E.
    destruct (NewCandleWindow d); [|done]. by injection E as <-. }
  assert (Hnone : ∀ tf tfh, mh_For h tf = Some tfh → fresh_atr settings (h_Snapshot tfh) = None).
  { intros tf tfh Hf. by destruct (Hnew tf tfh Hf) as [-> _]. }
  split; cbn; try done.
  - intros tf tfh Hf. cbn in Hf. by rewrite (Hnone tf tfh Hf).
  - unfold legacy_current. pose proof (highest_spec zero_context (set_LegacyRead settings)) as Hh. change (mkMarketContext "" ∅ None None) with zero_context.
    destruct (highest zero_context _) as [top m]. cbn. destruct Hh as (_ & H1 & _). split; [|done].
    destruct (decide (m = 0%Z)) as [|Hm]; [done|]. by destruct (H1 Hm) as [[_ Hb] _].
  - unfold fresh_context. rewrite bool_decide_true; [done|]. apply map_eq. intros tf. unfold fresh_inputs.
    rewrite map_lookup_imap, lookup_empty. destruct (mh_Timeframes h !! tf) as [tfh|] eqn:Ef; [|done]. cbn. by rewrite (Hnone tf tfh Ef).
  - intros tf tfh Hf. by apply (Hnew tf tfh Hf).
Qed.

Lemma run_current w events w' calls :
  worker_wf w → state_current settings symbol w → run range1 range2 w events = Some (w', calls) → state_current settings symbol w'.
Proof.
  revert w calls. induction events as [|event events IH]; intros w calls Hw Hc; cbn [run]; [by intros [= <- _]|].
  pose proof (ApplyWithResult_split range1 range2 w event Hw) as Ha.
  destruct (ApplyWithResult range1 range2 w event) as [[[[w1 calls1] r] err]|] eqn:E; [|done]. destruct Ha as (? & ? & ? & ? & Ha).
  pose proof (applied_wf range1 range2 Ha) as Hw1. pose proof (Apply_current _ _ _ _ _ _ Hw Hc E) as Hc1.
  destruct (run range1 range2 w1 events) as [[w2 calls2]|] eqn:E2; [|done]. intros [= <- _]. by eapply IH.
Qed.
(** The context without the detector-contract reads. *)
Definition without_reads (ctx : MarketContext) : MarketContext :=
  mkMarketContext (mx_Symbol ctx) ((λ f, with_frame f None) <$> mx_Timeframes ctx) (mx_Primary ctx) None.
Lemma attached_without weekly ctx ctx' : attached settings weekly ctx = Some ctx' → without_reads ctx' = without_reads ctx.
Proof.
  unfold attached. destruct (_ =? 0)%Z; [by intros [= <-]|]. case_bool_decide; [|done]. intros [= <-]. unfold without_reads, with_reads. cbn. f_equal.
  apply map_eq. intros tf. rewrite !lookup_fmap, map_lookup_imap. destruct (mx_Timeframes ctx !! tf) as [f|]; [|done]. cbn.
  by destruct (LegacyRead.Complete _ !! tf).
Qed.
Lemma fresh_context_without weekly weekly' h h' ctx ctx' :
  fresh_inputs settings h = fresh_inputs settings h' → fresh_context settings symbol weekly h = Some ctx →
  fresh_context settings symbol weekly' h' = Some ctx' → without_reads ctx = without_reads ctx'.
Proof.
  unfold fresh_context. intros ->. case_bool_decide; [by intros [= <-] [= <-]|]. destruct (Build _ _ _) as [base|]; [|done]. cbn.
  intros H1 H2. by rewrite (attached_without _ _ _ H1), (attached_without _ _ _ H2).
Qed.
(** The levels of the highest timeframe's bars are the same for the same bars. *)
Lemma weekly_fresh_same ctx ctx' weekly weekly' :
  (∀ tf, frame_candles ctx tf = frame_candles ctx' tf) → (highest ctx (set_LegacyRead settings)).2 ≠ 0%Z →
  weekly_fresh settings ctx weekly → weekly_fresh settings ctx' weekly' → weekly = weekly'.
Proof.
  intros Hf Hm. unfold weekly_fresh. rewrite (highest_ext ctx ctx' _ Hf) in *. destruct (highest ctx' _) as [top m]. rewrite Hf. cbn in Hm.
  intros H1 H2. by rewrite H1, H2.
Qed.
Lemma fresh_context_fresh weekly weekly' h h' ctx ctx' :
  fresh_inputs settings h = fresh_inputs settings h' → fresh_context settings symbol weekly h = Some ctx →
  fresh_context settings symbol weekly' h' = Some ctx' → weekly_fresh settings ctx weekly → weekly_fresh settings ctx' weekly' → ctx = ctx'.
Proof.
  intros Eh E1 E2 F1 F2. assert (Hf : ∀ tf, frame_candles ctx tf = frame_candles ctx' tf).
  { intros tf. rewrite (fresh_context_candles _ _ _ _ _ tf E1), (fresh_context_candles _ _ _ _ _ tf E2). unfold candles_of. by rewrite Eh. }
  pose proof (weekly_fresh_same ctx ctx' weekly weekly' Hf) as Hw. unfold fresh_context in *. rewrite <- Eh in E2. revert E1 E2.
  case_bool_decide; [by intros [= <-] [= <-]|]. destruct (Build _ _ _) as [base|]; [|done]. cbn. intros E1 E2.
  assert (Hb : highest ctx (set_LegacyRead settings) = highest base (set_LegacyRead settings)).
  { apply highest_ext. intros tf. by eapply attached_candles. }
  unfold attached in *. rewrite <- Hb in *. destruct (Z.eqb_spec (highest ctx (set_LegacyRead settings)).2 0) as [|Hm]; [congruence|].
  specialize (Hw Hm F1 F2) as ->. congruence.
Qed.
End runs.

(** * Theorems *)

(** [C5] The analysis state holds nothing but what the retained candles say, as long as forming bars are never replaced
    ([AllowReplaceForming] off, as every caller of the settings loader has it; with it on, a replaced bar leaves the caches as they were). Whatever
    bars a worker has been fed, and however the strategies' errors cut bars short, it returns, given strategies that return and scalp
    windows of at least one bar, and then every book and the ATR of every timeframe hold the analysis of its retained candles, the
    technique cache is that of the primary timeframe's last bar, and the market context, detector-contract reads included, is the one
    a worker reading those candles for the first time would build, except for the prior-week levels in the reads: these are those of
    the highest window timeframe's bars or, because they are cached under the opening time of its last bar alone, those of a lower
    timeframe's bars the last of which opened at the same time ([weekly_levels_mixed]). *)
Theorem state_is_function_of_history `{Analytics} range1 range2 `{!RangeOrder range1, !RangeOrder range2} symbol settings w events :
  AllowReplaceForming settings = false → reads_return settings → NewSymbolWorker symbol settings = Ok w →
  ∃ w' calls weekly, run range1 range2 w events = Some (w', calls) ∧ books_current settings (w_state w') ∧ cache_current settings w' ∧
    fresh_context settings symbol weekly (ss_History (w_state w')) = Some (ss_Context (w_state w')) ∧
    (weekly_fresh settings (ss_Context (w_state w')) weekly ∨ weekly_mixed settings (ss_Context (w_state w')) weekly).
Proof.
  intros Hal Hr Hn. pose proof (NewSymbolWorker_fresh _ _ _ Hn) as (Hw & _ & _ & Es).
  assert (Hr' : reads_return (w_settings w)) by (by rewrite Es).
  destruct (run_returns range1 range2 w events Hw Hr') as (w' & calls & E). exists w', calls, (weekly_of w').
  destruct (run_current settings symbol range1 range2 _ _ _ _ Hw (NewSymbolWorker_current settings symbol w Hn Hal) E) as [H1 H2 H3 H4 _ _ _].
  split_and!; [done..|]. unfold legacy_current, weekly_of in *. unfold weekly_fresh, weekly_mixed in *.
  destruct (highest _ _) as [top m]. destruct (w_legacyWeekly w') as [[key levels]|]; [by destruct H3 as (_ & _ & ? & _)|].
  left. by destruct H3.
Qed.

(** [C6] A restart loses nothing of the analysis, as long as forming bars are never replaced ([AllowReplaceForming] off): two
    workers of a symbol that retain the same candles, whatever they were fed before those and in whatever order the timeframes' bars
    arrived, hold the same books and ATR series and the same market context apart from its detector-contract reads; and the same
    context altogether when in both the prior-week levels are those of the highest window timeframe's bars. So a worker restarted
    from a bootstrap of the retained window sees the market as one that never stopped. The opportunity book and the decisions sent
    are not analysis: they depend on what was observed, and are not compared. *)
Theorem restart_rebuilds_context `{Analytics} range1 range2 `{!RangeOrder range1, !RangeOrder range2} symbol settings w
    events events' w1 calls1 w2 calls2 :
  AllowReplaceForming settings = false → NewSymbolWorker symbol settings = Ok w →
  run range1 range2 w events = Some (w1, calls1) → run range1 range2 w events' = Some (w2, calls2) →
  (∀ tf, h_Snapshot <$> mh_For (ss_History (w_state w1)) tf = h_Snapshot <$> mh_For (ss_History (w_state w2)) tf) →
  (∀ tf, is_Some (mh_For (ss_History (w_state w1)) tf) → same_books (w_state w1) (w_state w2) tf) ∧
  without_reads (ss_Context (w_state w1)) = without_reads (ss_Context (w_state w2)) ∧
  (weekly_fresh settings (ss_Context (w_state w1)) (weekly_of w1) → weekly_fresh settings (ss_Context (w_state w2)) (weekly_of w2) →
   ss_Context (w_state w1) = ss_Context (w_state w2)).
Proof.
  intros Hal Hn E1 E2 Hs. pose proof (NewSymbolWorker_fresh _ _ _ Hn) as (Hw & _).
  pose proof (NewSymbolWorker_current settings symbol w Hn Hal) as Hc.
  pose proof (run_current settings symbol range1 range2 _ _ _ _ Hw Hc E1) as H1.
  pose proof (run_current settings symbol range1 range2 _ _ _ _ Hw Hc E2) as H2.
  pose proof (sc_context _ _ _ H1) as X1. pose proof (sc_context _ _ _ H2) as X2.
  pose proof (fresh_inputs_snapshots settings _ _ Hs) as Eh. split_and!.
  - intros tf [tfh1 F1]. pose proof (Hs tf) as Ht. rewrite F1 in Ht. cbn in Ht.
    destruct (mh_For (ss_History (w_state w2)) tf) as [tfh2|] eqn:F2; [|done]. injection Ht as Ht.
    eapply books_current_same; [exact (sc_books _ _ _ H1)|exact (sc_books _ _ _ H2)|exact F1|exact F2|exact Ht].
  - by eapply (fresh_context_without settings symbol).
  - by eapply (fresh_context_fresh settings symbol).
Qed.

(** * Witnesses *)

Lemma state_is_function_of_history_witness :
  demo_holds demo_past demo_live (λ w _ _ _ _ _ _,
    ∃ w' calls, @run demo_analytics sorted_keys sorted_keys w (demo_past ++ [demo_live]) = Some (w', calls) ∧
      books_current demo_settings (w_state w')).
Proof.
  apply demo_intro; [vm_compute; reflexivity|]. intros w w1 calls1 w2 calls2 result err E _ _ _.
  destruct (@state_is_function_of_history demo_analytics sorted_keys sorted_keys _ _ "XAU" demo_settings w (demo_past ++ [demo_live])
    eq_refl demo_reads_return E) as (w' & calls & _ & Er & Hb & _). exists w', calls. exact (conj Er Hb).
Defined.

(** Twelve bars through a window of ten, and a restart from the last ten. *)
Definition demo_bars : list BarEvent :=
  map (λ p, demo_bar (300 * p.1) p.2 EventOriginLive)
    [(1%Z, 100%float); (2%Z, 101%float); (3%Z, 99%float); (4%Z, 103%float); (5%Z, 102%float); (6%Z, 98%float); (7%Z, 97%float);
     (8%Z, 100%float); (9%Z, 101%float); (10%Z, 104%float); (11%Z, 102%float); (12%Z, 99%float)].
Definition demo_retained (w : @SymbolWorker demo_analytics) : list (string * list Candle) :=
  map_to_list (h_Snapshot <$> mh_Timeframes (ss_History (w_state w))).
Definition demo_run (events : list BarEvent) : option (@SymbolWorker demo_analytics) :=
  match @NewSymbolWorker demo_analytics "XAU" demo_settings with
  | Err _ => None
  | Ok w => fst <$> @run demo_analytics sorted_keys sorted_keys w events
  end.
Lemma demo_run_Some events w' :
  demo_run events = Some w' →
  ∃ w calls, @NewSymbolWorker demo_analytics "XAU" demo_settings = Ok w ∧
    @run demo_analytics sorted_keys sorted_keys w events = Some (w', calls).
Proof.
  unfold demo_run. destruct (@NewSymbolWorker demo_analytics "XAU" demo_settings) as [w|] eqn:E; [|done].
  destruct (@run demo_analytics sorted_keys sorted_keys w events) as [[w1 calls]|] eqn:E1; [|done]. intros [= <-]. exists w, calls. exact (conj eq_refl E1).
Qed.
Lemma demo_retained_For w1 w2 tf :
  demo_retained w1 = demo_retained w2 →
  h_Snapshot <$> mh_For (ss_History (w_state w1)) tf = h_Snapshot <$> mh_For (ss_History (w_state w2)) tf.
Proof.
  unfold demo_retained, mh_For. intros E. rewrite <- !lookup_fmap. f_equal. apply map_to_list_inj. exact (eq_ind _ (λ l, _ ≡ₚ l) (Permutation_refl _) _ E).
Qed.
(** The prior-week levels are those of the highest window timeframe, decided on a run. *)
Definition demo_weekly_ok (w : @SymbolWorker demo_analytics) : bool :=
  let '(top, minutes) := highest (ss_Context (w_state w)) demo_legacy in
  (minutes =? 0)%Z ||
  (bool_decide (weekly_of w = []) && bool_decide (LegacyRead.Weekly (frame_candles (ss_Context (w_state w)) top) top demo_legacy = [])).
Lemma demo_weekly events w :
  demo_weekly_ok <$> demo_run events = Some true → demo_run events = Some w → weekly_fresh demo_settings (ss_Context (w_state w)) (weekly_of w).
Proof.
  intros Hc E. rewrite E in Hc. injection Hc as Hc. unfold demo_weekly_ok in Hc. unfold weekly_fresh. change (set_LegacyRead demo_settings) with demo_legacy.
  revert Hc. generalize demo_legacy. intros cfg. destruct (highest (ss_Context (w_state w)) cfg) as [top m].
  intros Hc Hm. rewrite (proj2 (Z.eqb_neq m 0) Hm) in Hc. cbn [orb] in Hc. apply andb_true_iff in Hc as [H1 H2].
  apply bool_decide_eq_true in H1, H2. by rewrite H1, H2.
Qed.
Lemma demo_weekly_bars : demo_weekly_ok <$> demo_run demo_bars = Some true.
Proof. vm_compute. reflexivity. Qed.
Lemma demo_weekly_dropped : demo_weekly_ok <$> demo_run (drop 2 demo_bars) = Some true.
Proof. vm_compute. reflexivity. Qed.
Lemma restart_rebuilds_context_witness :
  map (λ e, c_Time (be_Candle e)) (drop 2 demo_bars) = [900; 1200; 1500; 1800; 2100; 2400; 2700; 3000; 3300; 3600]%Z ∧
  option_map (λ w, map (λ p, (p.1, map c_Time p.2)) (demo_retained w)) (demo_run demo_bars) =
    Some [(tf_M5, [900; 1200; 1500; 1800; 2100; 2400; 2700; 3000; 3300; 3600]%Z)] ∧
  option_map demo_retained (demo_run demo_bars) = option_map demo_retained (demo_run (drop 2 demo_bars)) ∧
  ∀ w1 w2, demo_run demo_bars = Some w1 → demo_run (drop 2 demo_bars) = Some w2 →
    ss_Context (w_state w1) = ss_Context (w_state w2).
Proof.
  split; [vm_compute; reflexivity|]. split; [vm_compute; reflexivity|].
  assert (Hs : option_map demo_retained (demo_run demo_bars) = option_map demo_retained (demo_run (drop 2 demo_bars)))
    by (vm_compute; reflexivity).
  split; [exact Hs|]. intros w1 w2 R1 R2. rewrite R1, R2 in Hs. injection Hs as Hs.
  destruct (demo_run_Some _ _ R1) as (w & calls1 & E & E1). destruct (demo_run_Some _ _ R2) as (w' & calls2 & E' & E2).
  rewrite E in E'. injection E' as <-.
  refine (proj2 (proj2 (@restart_rebuilds_context demo_analytics sorted_keys sorted_keys _ _ "XAU" demo_settings w demo_bars (drop 2 demo_bars)
    w1 calls1 w2 calls2 eq_refl E E1 E2 (λ tf, demo_retained_For w1 w2 tf Hs))) _ _).
  - exact (demo_weekly demo_bars w1 demo_weekly_bars R1).
  - exact (demo_weekly (drop 2 demo_bars) w2 demo_weekly_dropped R2).
Defined.

(** Three M5 bars in three weeks give the prior week's high and low, taken under the opening time of the third; the first H1 bar opens
    at that time and makes H1 the highest window timeframe, whose one bar has no prior week. The levels cached from M5 stay in use. *)
Definition demo_hour (t : Z) (close : float) : BarEvent := mkBarEvent "XAU" tf_H1 (mkCandle t 100 106 90 close 5) EventOriginLive.
Definition demo_mixed (events : list BarEvent) : option (string * list string * list string) :=
  match @NewSymbolWorker demo_analytics "XAU" (demo_settings_of (<[tf_H1 := 10%Z]> {[ tf_M5 := 10%Z ]})) with
  | Err _ => None
  | Ok w =>
      match @run demo_analytics sorted_keys sorted_keys w events with
      | None => None
      | Some (w', _) =>
          let ctx := ss_Context (w_state w') in let top := (highest ctx demo_legacy).1 in
          Some (top, map Session.l_Name (weekly_of w'), map Session.l_Name (LegacyRead.Weekly (frame_candles ctx top) top demo_legacy))
      end
  end.
Example weekly_levels_mixed :
  let past := [demo_bar 300 100 EventOriginLive; demo_bar 600000 100 EventOriginLive; demo_bar 1209600 100.5 EventOriginLive] in
  demo_mixed past = Some (tf_M5, ["PWH"; "PWL"], ["PWH"; "PWL"]) ∧
  demo_mixed (past ++ [demo_hour 1209600 101]) = Some (tf_H1, ["PWH"; "PWL"], []) ∧
  demo_mixed (past ++ [demo_hour 1206000 101]) = Some (tf_H1, [], []).
Proof. split; [vm_compute; reflexivity|]. split; vm_compute; reflexivity. Qed.
